(* ===== verification/_CoqProject ===== *)
-Q . S2P
Prelude.v
CLib.v
Pad.v
MediaUtils.v
RtpPay.v
RtpDepay.v
RtpPaySpec.v
RtpPayProps.v
RtpRoundtrip.v
RtpDepayProps.v
Redundancy.v
RedundancySpec.v
Pacer.v
Queue.v
QueueSpec.v
QueueConc.v
Caps.v
CapsSpec.v
BufferPool.v
BufferPoolSpec.v
St2110Video.v
St2110VideoSpec.v
St2110Audio.v
St2110AudioSpec.v
Graph.v
PadOps.v
PadFlow.v
PadPush.v
Element.v
ElementSpec.v
BinSpec.v
GraphSpec.v
FlowSpec.v
H26xBits.v
H26xBitsSpec.v
H26xParser.v
H26xSpec.v
H26xStream.v
H26xOutput.v
Pipeline.v
PipelineWalk.v
PipelineSort.v
PipelineSpec.v
PipelineState.v
PipelineLive.v
PipelineExamples.v
Scheduler.v
SchedulerSpec.v
Bus.v
BusSpec.v
BusEvent.v
BusEventSpec.v
Twcc.v
TwccSpec.v
Sha1.v
Sha1Spec.v
WsServer.v
WsServerSpec.v
WsServerEx.v
SdpReorder.v
SdpReorderSpec.v
SdpTiming.v
SdpText.v
SdpDemux.v
SdpDemuxSpec.v
SdpFlow.v
SdpDemuxEx.v
SdpMux.v
SdpLines.v
SdpMuxSpec.v
SdpMuxLife.v
SdpMuxEx.v
AacParser.v
AacParserSpec.v
St211021.v
St211021Spec.v
QueueElement.v
QueueElementSpec.v
SrtParser.v
SrtParserSpec.v
