(* ===== verification/Prelude.v ===== *)
(** * zstreamer: a verification library

    zstreamer is a media framework in C: elements pass buffers to each other over
    pads.  This library models the parts whose correctness is a matter of logic
    rather than of devices and third-party codecs, and proves what they promise.

    ** The parts, and the files that model them

    Shared:
    - [Prelude]: result codes of [include/zst_types.h]; unsigned and signed integers at
      their width as [Z] with the wrap-around written out ([u8] ... [s64]); byte lists
      and reads from them; the bit-smearing round-up to a power of two; reachability.
      [CLib]: the C library functions the source calls on strings ([streq],
      strcasecmp, [atoi], strtoul, [snprintf], strncpy).
    - [Pad]: buffers ([include/zst_buffer.h]), the allocator's answers ([CMemory], with
      [CMemoryOk] for one that never fails) and [PadSink], the interface through which
      an element hands a buffer to the pad linked to its source pad.  An element's
      theorems hold for every [PadSink]; [trace_sink] records what is pushed, and the
      depayloader is itself a [PadSink], which is how two elements are linked.

    The framework:
    - [Graph], [PadOps], [PadFlow], [PadPush]: [zst_pad.c], [zst_pad_event.c] and the
      ghost pads of [zst_bin.c], over a world of numbered objects; [GraphSpec],
      [FlowSpec] hold the theorems.
    - [Element]: [zst_element.c], [zst_bin.c]; [ElementSpec], [BinSpec].
    - [Pipeline]: [zst_pipeline.c]; [PipelineWalk], [PipelineSort], [PipelineSpec],
      [PipelineState], [PipelineLive], [PipelineExamples].
    - [Scheduler]: [zst_scheduler.c]; [SchedulerSpec].
    - [Bus], [BusEvent]: [zst_bus.c], [zst_stream.c]; [BusSpec], [BusEventSpec].
    - [Queue]: [zst_queue.c], as one thread sees it (functions) and as many threads run
      it (the relation [qstep], one atomic access per step); [QueueSpec], [QueueConc].
    - [Caps]: [zst_caps.c]; [CapsSpec].
    - [QueueElement]: [zst_queue_element.c], the element around a queue;
      [QueueElementSpec].
    - [BufferPool]: [zst_buffer_pool.c] and the reference counts of [zst_buffer.c], over
      a heap of numbered buffers; [BufferPoolSpec].

    Real-time transport:
    - [MediaUtils]: [zst_media_utils.h] (Annex B start codes) and [zst_st2110_utils.c].
    - [RtpPay], [RtpDepay]: [rtp_payloader.c], [rtp_depayloader.c], one definition per
      function, loops as fixpoints.  [RtpPaySpec] describes a run of the payloader as the
      list of fragments it sends; [RtpPayProps], [RtpRoundtrip], [RtpDepayProps].
    - [St2110Video], [St2110Audio]: [st2110_20_*.c], [st2110_30_*.c], [st2110_40_*.c],
      [st2110_fec.c]; [St2110VideoSpec], [St2110AudioSpec].
    - [St211021]: [st2110_21_*.c], paced H.264 and H.265; [St211021Spec].
    - [Redundancy]: [st2110_redundancy_demux.c], [st2110_redundancy_mux.c], and the merge
      of two lossy links they implement; [RedundancySpec].
    - [Pacer]: [zst_timestamp_pacer.c].
    - [SdpReorder], [SdpTiming], [SdpText], [SdpDemux]: [sdp_demuxer.c] in four parts, the
      ring that puts packets in order, the clock recovery, the text parser with the
      tracks it fills, and the element; [SdpReorderSpec], [SdpDemuxSpec], [SdpFlow] (the
      payloader's packets through the demultiplexer), [SdpDemuxEx].
    - [SdpMux]: [sdp_muxer.c], the generator of session descriptions; [SdpLines] (texts
      and their lines), [SdpMuxSpec], [SdpMuxLife], [SdpMuxEx].

    Streams and services:
    - [H26xBits], [H26xParser]: [h26x_parser.c], the headers and the element;
      [H26xBitsSpec], [H26xStream], [H26xSpec], [H26xOutput].
    - [AacParser]: [aac_parser.c], the ADTS framer; [AacParserSpec].
    - [SrtParser]: [srt_parser.c], subtitles; [SrtParserSpec].
    - [Twcc]: [zst_webrtc_twcc.c]; [TwccSpec].
    - [Sha1], [WsServer]: [zst_ws_server.c], and the Base64 decoder of [sdp_demuxer.c];
      [Sha1Spec], [WsServerSpec], [WsServerEx].

    ** How the parts interact

    An element's handler is called by [zst_pad_push] and pushes through the same
    function: in [PadPush] the handlers are the record [env], any functions on the world,
    and in the elements' own files what a push does is a [PadSink] (or [SrcPad], or a log
    where the code ignores the answer).  A pipeline calls the elements' state machine
    ([Pipeline] requires [Element]), which calls the pads; elements and pads call the bus
    and the scheduler through [env], whose own files take an event or a task as a number.
    The payloader's packets go into the depayloader ([RtpRoundtrip]) and, framed, into
    the demultiplexer ([SdpFlow]), which takes its tracks from a description such as the
    generator writes ([SdpMuxSpec]).  The generator reads the framer's frames
    ([AacParserSpec]); the queue element calls [Queue] ([QueueElementSpec]).

    ** Conventions

    A C function is a function on the state it reads and writes; a pointer that may be
    NULL is an option; a handler returns its result code with the next state.  An access
    outside a block, to freed memory, a division by zero or a signed overflow that
    matters is [Fault] (in the RTP files a read past the end is 0 ([rd]) and a theorem
    bounds the accesses, [parse_rtp_in_bounds]; in the pool it is [None]), and a theorem
    says when it cannot happen.  What the allocator answers is a parameter: a function of
    the size within one call ([CMemory]), another one for each call where a theorem is
    about sequences of them ([sdp_demuxer_safe]), an answer for each allocation where the
    branches on it matter ([event_lifetime], [pool_accounts]).  Threads are relations whose steps are single accesses or
    critical sections; a call under one mutex is one step.

    A loop or recursion that is not bounded by the data takes fuel and is [Unfinished]
    (or [None]) without; each caller gives enough, and the theorems that a call returns
    say so: one round per byte and one more for the loops over a packet or a stream
    ([pad_push_returns], [ws_never_faults], [sdp_demuxer_safe]; the settings for which
    none is enough are in [send_nal_small_mtu_loops]); one round per packet waiting for
    [drain_track], one per byte for the fragments and units of an ST 2110-21 frame
    ([no_room_no_progress] is the MTU for which none is enough), one per line of
    subtitles; four steps for a change of state; the number of elements and two for
    the walks of a pipeline; the bytes of a feedback for its chunks.  The nesting of calls
    along a graph is bounded by [n], and the theorems say how much is enough.

    ** The theorems

    - RTP: an H.264 or H.265 access unit, and an AAC one, sent through the payloader
      into the depayloader comes out the same, for any MTU that can carry it
      ([h264_roundtrip], [h265_roundtrip], [aac_roundtrip]); whatever is pushed, the
      packets sent have consecutive sequence numbers, the configured SSRC and payload
      type, and fit the MTU ([pad_push_stream]); the parser stays in the packet, the
      reassembly stays in its allocation ([depayloader_reach_ok]).  Raw video survives
      the ST 2110-20 elements ([video_roundtrip]), and frames the ST 2110-21 elements,
      each packet waited for at its time ([st2110_21_roundtrip]).
    - Redundancy: the demultiplexer forwards each packet exactly once, at its first
      arrival ([demux_merges]); failover and recovery events alternate.
    - SDP demultiplexer: the ring implements a window over the unbounded sequence numbers
      ([reorder_refines]), so that a batch comes out in order ([batch_in_order]), but a
      missing packet stops the track ([gap_stalls]); in any reachable state any buffer is
      handled without a fault and within the arrays ([sdp_demuxer_safe]); what the
      payloader sends comes out as the units that went in ([sdp_h264_interleaved]).
    - SDP generator: the description it writes, set as the demultiplexer's, opens the
      streams it describes, parameter sets byte for byte ([sdp_roundtrip]); the parameter
      sets are those first seen in the stream ([sdp_from_stream]); every string stays in
      its array and no buffer faults ([sdp_muxer_safe]).
    - Pads: every operation keeps references and links sound ([graph_stays_sound]);
      linking negotiates what both sides accept ([link_negotiates]).
    - Elements, bins, pipelines: a change of state takes every element through its hooks
      one step at a time ([state_walk]), brings everything along ([bin_brings_all],
      [pipeline_brings_all]) or, when a hook fails, brings everything back
      ([bin_rolls_back], [pipeline_rolls_back]); the elements are sorted along their
      links ([sort_orders]), ranks are longest ways ([ranks_longest]).
    - Threads: the queue delivers exactly once, in order, within its limits
      ([concurrent_delivery], [concurrent_exclusion], [concurrent_limits]); in the element
      around it each buffer is at one place, what its thread works off is in order, and late
      buffers alone are dropped ([queue_element_order], [qos_exact]); an element's task is run by
      one worker at a time ([one_worker]), but what is pushed to it is processed by
      whoever pushes ([pushes_overlap]); one dispatch thread at a time calls one handler
      ([bus_one_handler]), each event is given away or destroyed once ([bus_accounts],
      [event_lifetime]); the buffer pool's counts are right and nothing dangles
      ([pool_accounts], [pool_never_dangles]).
    - Sequential containers: the queue refines a list with limits ([push_refines],
      [pop_refines]); intersection of capabilities accepts exactly what both sides accept
      ([intersect_meets]).
    - Streams: however a stream is cut into buffers of one time the parser finds the same units
      ([any_cut_same]) and sends them behind start codes ([stream_normalized]), safely
      ([parser_safe]); it reads back an encoded sequence parameter set ([sps_roundtrip]).
      A reader of the standard gets the units back from the framer's ADTS frames
      ([adts_roundtrip]), which also configure the generator ([adts_configures_generator]);
      a subtitle file is read back cue by cue ([srt_roundtrip]).
    - Congestion control: feedback that a receiver encodes is read back
      ([feedback_decodes]), no feedback is read out of bounds ([feedback_in_bounds]),
      outgoing packets stay valid RTP ([outgoing_parses]).
    - WebSocket server: nothing a client sends faults, a length of 2^64 apart
      ([ws_never_faults]); the text frames that were sent are delivered, however [recv] cuts
      them ([ws_frames_delivered]); callbacks come in order
      ([ws_callbacks_ordered]); the handshake is answered as RFC 6455 says
      ([ws_handshake]), with the SHA-1 of FIPS 180 ([sha1_standard]) and the Base64 of
      RFC 4648.
    - Defects found are theorems or examples too, among them [send_nal_small_mtu_loops],
      [packetize_pcm_strict_loses], [slow_primary_fails_over], [resized_pool_overruns],
      [destroy_strands_waiter], [added_twice_faults], [eof_skips_stop],
      [set_from_handler_doubles], [long_feedback_misread], [huge_frame_faults],
      [gap_stalls], and those of [WsServerEx], [SdpDemuxEx], [SdpMuxEx] and at the end
      of [St211021Spec], [QueueElementSpec] and [SrtParserSpec].

    ** Not modelled

    Condition variables only delay: a waiting thread may give up or go on at any later
    time, so the theorems about threads are about safety, not about progress.  Memory is
    sequentially consistent.  Queue positions are assumed below 2^62.  Clocks are
    arguments.  ST 2110-22 is calls into a codec library.  The Dante messages, the
    containers and the RTSP, RTMP, HLS and WebRTC endpoints are not modelled: they are
    glue around sockets and libraries for the larger part.  Codecs, scalers, devices,
    files, plugins and logging are left out: they are calls into code outside the
    repository. *)

From Stdlib Require Export ZArith Lia Bool.
From stdpp Require Export base tactics option list numbers gmap strings.

#[global] Open Scope Z_scope.

(** ** Result codes: [include/zst_types.h] *)

Definition zst_result_t := Z.
Definition ZST_OK : zst_result_t := 0.
Definition ZST_ERROR : zst_result_t := -1.
Definition ZST_TIMEOUT : zst_result_t := -2.
Definition ZST_AGAIN : zst_result_t := -3.
Definition ZST_EOF : zst_result_t := -4.
Definition ZST_ERROR_INVALID_ARGUMENT : zst_result_t := -5.
Definition ZST_ERROR_NOT_IMPLEMENTED : zst_result_t := -6.

(** A handler's result, with its next state. *)
Lemma result_inj {A} (r r' : zst_result_t) (a a' : A) :
  (r, Some a) = (r', Some a') -> r = r' /\ a = a'.
Proof. by intros [= -> ->]. Qed.

(** From an equation saying that a handler returned [ZST_OK], the next state. *)
Ltac ok_result H :=
  cbn [orb andb negb] in H; try discriminate H; apply result_inj in H as [_ <-].

(** ** Fixed-width integers

    A C integer is a [Z]; these are the conversions C performs when a value is
    stored into a type of that width.  Unsigned arithmetic wraps; a conversion to
    a signed type keeps the value modulo the width (what gcc and clang define). *)

Definition u8 (z : Z) : Z := z mod 256.
Definition u16 (z : Z) : Z := z mod 65536.
Definition u32 (z : Z) : Z := z mod 4294967296.
Definition u64 (z : Z) : Z := z mod 18446744073709551616.

Definition s16 (z : Z) : Z := (z + 32768) mod 65536 - 32768.
Definition s32 (z : Z) : Z := (z + 2147483648) mod 4294967296 - 2147483648.
Definition s64 (z : Z) : Z :=
  (z + 9223372036854775808) mod 18446744073709551616 - 9223372036854775808.

Definition UINT8_MAX : Z := 255.
Definition UINT16_MAX : Z := 65535.
Definition UINT32_MAX : Z := 4294967295.
Definition INT32_MAX : Z := 2147483647.
Definition UINT64_MAX : Z := 18446744073709551615.
Definition SIZE_MAX : Z := 18446744073709551615.

(** [lia] after unfolding the width conversions and reducing division by constants. *)
Ltac cint :=
  unfold u8, u16, u32, u64, s16, s32, s64,
    UINT8_MAX, UINT16_MAX, UINT32_MAX, INT32_MAX, UINT64_MAX, SIZE_MAX in *;
  Z.to_euclidean_division_equations; lia.

(** Splits on every boolean comparison of integers in the goal and hypotheses. *)
Ltac zbool :=
  repeat match goal with
  | H : context [Z.ltb ?a ?b] |- _ => destruct (Z.ltb_spec a b)
  | H : context [Z.leb ?a ?b] |- _ => destruct (Z.leb_spec a b)
  | H : context [Z.eqb ?a ?b] |- _ => destruct (Z.eqb_spec a b)
  | |- context [Z.ltb ?a ?b] => destruct (Z.ltb_spec a b)
  | |- context [Z.leb ?a ?b] => destruct (Z.leb_spec a b)
  | |- context [Z.eqb ?a ?b] => destruct (Z.eqb_spec a b)
  end.

Lemma u8_range z : 0 <= u8 z < 256.
Proof. cint. Qed.
Lemma u16_range z : 0 <= u16 z < 65536.
Proof. cint. Qed.
Lemma u32_range z : 0 <= u32 z < 4294967296.
Proof. cint. Qed.
Lemma u64_range z : 0 <= u64 z < 18446744073709551616.
Proof. cint. Qed.
Lemma u8_small z : 0 <= z < 256 -> u8 z = z.
Proof. cint. Qed.
Lemma u16_small z : 0 <= z < 65536 -> u16 z = z.
Proof. cint. Qed.
Lemma u32_small z : 0 <= z < 4294967296 -> u32 z = z.
Proof. cint. Qed.
Lemma u64_small z : 0 <= z < 18446744073709551616 -> u64 z = z.
Proof. cint. Qed.
Lemma s16_small z : -32768 <= z < 32768 -> s16 z = z.
Proof. cint. Qed.
Lemma s32_small z : -2147483648 <= z < 2147483648 -> s32 z = z.
Proof. cint. Qed.
Lemma s64_small z : -9223372036854775808 <= z < 9223372036854775808 -> s64 z = z.
Proof. cint. Qed.

(** [s16] of a difference of 16-bit values recovers the difference of the values
    they abbreviate, when that difference fits in 16 signed bits. *)
Lemma s16_sub_u16 a b : -32768 <= a - b < 32768 -> s16 (u16 a - u16 b) = a - b.
Proof. cint. Qed.

Lemma u16_succ a : u16 (u16 a + 1) = u16 (a + 1).
Proof. cint. Qed.

Create HintDb cints.
Create Rewrite HintDb cints.
#[export] Hint Resolve u8_range u16_range u32_range u64_range : cints.
#[export] Hint Rewrite u8_small u16_small u32_small u64_small
  s16_small s32_small s64_small using lia : cints.

(** ** Bytes *)

Abbreviation byte := Z (only parsing).
Abbreviation bytes := (list Z) (only parsing).

Definition is_byte (b : Z) : Prop := 0 <= b < 256.
Definition bytes_ok (l : bytes) : Prop := Forall is_byte l.

(** [p[i]] of a buffer of known extent; the theorems about a parser show that the
    index is in range wherever the model reads. *)
Definition rd (l : bytes) (i : Z) : byte := default 0 (l !! Z.to_nat i).

(** The [len] bytes at [p + off]. *)
Definition sub_bytes (off len : Z) (l : bytes) : bytes :=
  take (Z.to_nat len) (drop (Z.to_nat off) l).

Definition zlen {A} (l : list A) : Z := Z.of_nat (length l).

Lemma zlen_nonneg {A} (l : list A) : 0 <= zlen l.
Proof. unfold zlen. lia. Qed.
Lemma zlen_nil {A} : zlen (@nil A) = 0.
Proof. reflexivity. Qed.
Lemma zlen_cons {A} (x : A) l : zlen (x :: l) = zlen l + 1.
Proof. unfold zlen. simpl. lia. Qed.
Lemma zlen_app {A} (l k : list A) : zlen (l ++ k) = zlen l + zlen k.
Proof. unfold zlen. rewrite length_app. lia. Qed.
Lemma zlen_0 {A} (l : list A) : zlen l = 0 -> l = [].
Proof. destruct l; [done|]. rewrite zlen_cons. pose proof (zlen_nonneg l). lia. Qed.
Lemma zlen_sub_bytes off len l :
  0 <= off -> 0 <= len -> off + len <= zlen l -> zlen (sub_bytes off len l) = len.
Proof. unfold sub_bytes, zlen. intros. rewrite length_take, length_drop. lia. Qed.

Create HintDb zlist.
Create Rewrite HintDb zlist.
#[export] Hint Rewrite @zlen_nil @zlen_cons @zlen_app : zlist.
#[export] Hint Resolve zlen_nonneg : zlist.

Lemma sub_bytes_all l n : n = zlen l -> sub_bytes 0 n l = l.
Proof. intros ->. unfold sub_bytes, zlen. simpl. rewrite Nat2Z.id, drop_0. by rewrite firstn_all. Qed.

Lemma sub_bytes_app_r l k n :
  n = zlen k -> sub_bytes (zlen l) n (l ++ k) = k.
Proof.
  intros ->. unfold sub_bytes, zlen. rewrite !Nat2Z.id, drop_app_length. by rewrite firstn_all.
Qed.

(** Consecutive slices glue together. *)
Lemma sub_bytes_split off n m l :
  0 <= off -> 0 <= n -> 0 <= m ->
  sub_bytes off (n + m) l = sub_bytes off n l ++ sub_bytes (off + n) m l.
Proof.
  intros. unfold sub_bytes. rewrite !Z2Nat.inj_add by lia.
  rewrite <-drop_drop. by rewrite take_take_drop.
Qed.

Lemma bytes_ok_app l k : bytes_ok (l ++ k) <-> bytes_ok l /\ bytes_ok k.
Proof. apply Forall_app. Qed.

Lemma bytes_ok_sub off len l : bytes_ok l -> bytes_ok (sub_bytes off len l).
Proof. intros H. unfold sub_bytes. apply Forall_take, Forall_drop, H. Qed.

Lemma rd_byte l i : bytes_ok l -> is_byte (rd l i).
Proof.
  intros H. unfold rd. destruct (l !! Z.to_nat i) eqn:E; simpl.
  - eapply Forall_lookup_1; eauto.
  - unfold is_byte. lia.
Qed.

Lemma rd_app_l l k i : 0 <= i < zlen l -> rd (l ++ k) i = rd l i.
Proof. unfold rd, zlen. intros. rewrite lookup_app_l by lia. done. Qed.

Lemma rd_app_r l k i : zlen l <= i -> rd (l ++ k) i = rd k (i - zlen l).
Proof.
  unfold rd, zlen. intros. rewrite lookup_app_r by lia. f_equal. f_equal. lia.
Qed.

(** ** Big-endian fields, as the RTP code writes and reads them *)

Definition be16 (hi lo : byte) : Z := Z.lor (Z.shiftl hi 8) lo.
Definition be32 (a b c d : byte) : Z :=
  Z.lor (Z.lor (Z.lor (Z.shiftl a 24) (Z.shiftl b 16)) (Z.shiftl c 8)) d.

(** A disjoint [lor] of a shifted value and a small one is their sum. *)
Lemma lor_shiftl_add a b n : 0 <= n -> 0 <= b < 2 ^ n -> Z.lor (Z.shiftl a n) b = a * 2 ^ n + b.
Proof.
  intros Hn Hb. rewrite <-Z.shiftl_mul_pow2 by lia.
  rewrite <-(Z.add_lor_land (Z.shiftl a n) b).
  enough (Z.land (Z.shiftl a n) b = 0) by lia.
  apply Z.bits_inj'. intros i Hi. rewrite Z.land_spec, Z.shiftl_spec, Z.bits_0 by lia.
  destruct (Z.ltb_spec i n) as [Hlt|Hge]; [by rewrite Z.testbit_neg_r by lia|].
  assert (b = b mod 2 ^ n) as -> by (symmetry; apply Z.mod_small, Hb).
  by rewrite Z.mod_pow2_bits_high, andb_false_r by lia.
Qed.

Lemma land_ones_mod a n m : 0 <= n -> m = 2 ^ n - 1 -> Z.land a m = a mod 2 ^ n.
Proof. intros ? ->. rewrite <-Z.land_ones by lia. by rewrite Z.ones_equiv, Z.sub_1_r. Qed.

Lemma shiftr_div a n k : 0 <= n -> k = 2 ^ n -> Z.shiftr a n = a / k.
Proof. intros ? ->. by apply Z.shiftr_div_pow2. Qed.

(** What holds of every byte can be tried on all of them. *)
Lemma byte_forall (P : Z -> bool) :
  forallb P (map Z.of_nat (seq 0 256)) = true -> forall b, is_byte b -> P b = true.
Proof.
  intros H b [Hlo Hhi]. rewrite forallb_forall in H. apply H. apply in_map_iff.
  exists (Z.to_nat b). split; [lia|]. apply in_seq. lia.
Qed.

Lemma be16_add hi lo : is_byte lo -> be16 hi lo = hi * 256 + lo.
Proof. unfold be16, is_byte. intros. by rewrite lor_shiftl_add by lia. Qed.

Lemma be32_add a b c d :
  is_byte b -> is_byte c -> is_byte d ->
  be32 a b c d = ((a * 256 + b) * 256 + c) * 256 + d.
Proof.
  unfold be32, is_byte. intros.
  rewrite (lor_shiftl_add a (Z.shiftl b 16) 24), <-Z.lor_assoc.
  2: lia. 2: { rewrite Z.shiftl_mul_pow2; lia. }
  rewrite (lor_shiftl_add c d 8) by lia.
  replace (a * 2 ^ 24 + Z.shiftl b 16) with (Z.shiftl (a * 256 + b) 16)
    by (rewrite !Z.shiftl_mul_pow2 by lia; lia).
  rewrite lor_shiftl_add by lia. lia.
Qed.

(** The byte stores [(uint8_t)(v >> k)] read back as [v]. *)
Lemma be16_u8 v : 0 <= v < 65536 -> be16 (u8 (Z.shiftr v 8)) (u8 v) = v.
Proof.
  intros. rewrite be16_add by apply u8_range. rewrite (shiftr_div v 8 256) by lia. cint.
Qed.

Lemma be32_u8 v :
  0 <= v < 4294967296 ->
  be32 (u8 (Z.shiftr v 24)) (u8 (Z.shiftr v 16)) (u8 (Z.shiftr v 8)) (u8 v) = v.
Proof.
  intros. rewrite be32_add by apply u8_range.
  rewrite (shiftr_div v 24 16777216), (shiftr_div v 16 65536), (shiftr_div v 8 256) by lia. cint.
Qed.

(** ** Rounding up to a power of two

    The bit trick [v |= v >> 1; v |= v >> 2; ...]: it sets every bit below the
    highest one. *)
Definition smear (shifts : list Z) (v : Z) : Z :=
  fold_left (fun v k => Z.lor v (Z.shiftr v k)) shifts v.

(** [x] is the union of the first [m] right shifts of [v]. *)
Definition shifts_upto (v m x : Z) : Prop :=
  forall i, 0 <= i -> (Z.testbit x i = true <-> exists j, 0 <= j < m /\ Z.testbit v (i + j) = true).

Lemma shifts_upto_1 v : shifts_upto v 1 v.
Proof.
  intros i Hi. split.
  - intros. exists 0. by rewrite Z.add_0_r.
  - intros (j & ? & Hj). replace (i + j) with i in Hj by lia. done.
Qed.

Lemma shifts_upto_double v m x :
  0 <= m -> shifts_upto v m x -> shifts_upto v (m + m) (Z.lor x (Z.shiftr x m)).
Proof.
  intros Hm Hx i Hi. rewrite Z.lor_spec, Z.shiftr_spec, orb_true_iff by lia.
  rewrite (Hx i), (Hx (i + m)) by lia. split.
  - intros [(j & ? & E)|(j & ? & E)]; [exists j|exists (m + j)]; (split; [lia|]); rewrite <-E; f_equal; lia.
  - intros (j & ? & E). destruct (Z.ltb_spec j m); [left; exists j|right; exists (j - m)];
      (split; [lia|]); rewrite <-E; f_equal; lia.
Qed.

Lemma shifts_upto_ones v m x :
  0 < v -> Z.log2 v < m -> 0 <= x -> shifts_upto v m x -> x = 2 ^ (Z.log2 v + 1) - 1.
Proof.
  intros Hv Hm Hx0 Hx. pose proof (Z.log2_nonneg v). rewrite Z.sub_1_r, <-Z.ones_equiv.
  apply Z.bits_inj'. intros i Hi. rewrite Z.testbit_ones_nonneg by lia.
  destruct (Z.ltb_spec i (Z.log2 v + 1)).
  - apply Hx; [done|]. exists (Z.log2 v - i). split; [lia|].
    replace (i + (Z.log2 v - i)) with (Z.log2 v) by lia. by apply Z.bit_log2.
  - apply not_true_is_false. intros (j & ? & E)%Hx; [|done].
    rewrite Z.bits_above_log2 in E; [done|lia|lia].
Qed.

Lemma smear_nonneg ks v : 0 <= v -> 0 <= smear ks v.
Proof.
  revert v. induction ks as [|k ks IH]; intros v Hv; simpl; [done|].
  apply IH, Z.lor_nonneg. split; [done|]. by apply Z.shiftr_nonneg.
Qed.

(** The shift amounts 1, 2, 4, ..., each the number of shifts gathered so far. *)
Fixpoint doublings (n : nat) (m : Z) : list Z :=
  match n with O => [] | S n => m :: doublings n (m + m) end.

Lemma shifts_upto_smear v n m x :
  0 <= m -> shifts_upto v m x -> shifts_upto v (m * 2 ^ Z.of_nat n) (smear (doublings n m) x).
Proof.
  revert m x. induction n as [|n IH]; intros m x Hm Hx; cbn [doublings smear fold_left].
  - by rewrite Z.mul_1_r.
  - rewrite Nat2Z.inj_succ, Z.pow_succ_r by lia.
    replace (m * (2 * 2 ^ Z.of_nat n)) with ((m + m) * 2 ^ Z.of_nat n) by ring.
    apply IH; [lia|]. by apply shifts_upto_double.
Qed.

Lemma smear_ones n v :
  0 < v < 2 ^ 2 ^ Z.of_nat n -> smear (doublings n 1) v = 2 ^ (Z.log2 v + 1) - 1.
Proof.
  intros [Hv Hhi]. apply (shifts_upto_ones v (1 * 2 ^ Z.of_nat n)); [done| | |].
  - rewrite Z.mul_1_l. by apply (Z.log2_lt_pow2 v).
  - apply smear_nonneg. lia.
  - apply shifts_upto_smear; [lia|]. apply shifts_upto_1.
Qed.

Lemma smear32 v : 0 < v < 4294967296 -> smear [1; 2; 4; 8; 16] v = 2 ^ (Z.log2 v + 1) - 1.
Proof. apply (smear_ones 5). Qed.

Lemma smear64 v :
  0 < v < 18446744073709551616 -> smear [1; 2; 4; 8; 16; 32] v = 2 ^ (Z.log2 v + 1) - 1.
Proof. apply (smear_ones 6). Qed.

(** [2 ^ (log2 (n - 1) + 1)] is the least power of two that is at least [n]. *)
Lemma round_up_pow2 n :
  1 < n -> n <= 2 ^ (Z.log2 (n - 1) + 1) < 2 * n.
Proof.
  intros H. pose proof (Z.log2_spec (n - 1)) as [H1 H2]; [lia|].
  rewrite Z.add_1_r. rewrite Z.pow_succ_r in * by apply Z.log2_nonneg. lia.
Qed.

(** ** Reachability in a transition system *)

Section reach.
Context {S : Type} (step : S -> S -> Prop).

(** States reached from [s] by any number of steps. *)
Inductive reach (s : S) : S -> Prop :=
| reach_refl : reach s s
| reach_step s1 s2 : reach s s1 -> step s1 s2 -> reach s s2.

(** Rule induction: a property of the start that every step keeps. *)
Lemma reach_inv (P : S -> Prop) s t :
  P s -> (forall a b, P a -> step a b -> P b) -> reach s t -> P t.
Proof. intros H0 Hs Hr. induction Hr; eauto. Qed.

Lemma reach_trans s t u : reach s t -> reach t u -> reach s u.
Proof. intros H1 H2. induction H2; eauto using reach. Qed.
End reach.

#[export] Hint Constructors reach : core.

(** ** Calls that may be undefined

    [Done a] is a result; [Fault] is an access outside an object, a division by zero or
    another undefined operation; [Unfinished] is a loop out of fuel. *)
Inductive outcome (A : Type) :=
| Done (a : A)
| Fault
| Unfinished.
#[global] Arguments Done {A} a.
#[global] Arguments Fault {A}.
#[global] Arguments Unfinished {A}.

#[export] Instance outcome_ret : MRet outcome := @Done.
#[export] Instance outcome_bind : MBind outcome := fun A B f o =>
  match o with Done a => f a | Fault => Fault | Unfinished => Unfinished end.

(** [memcpy] out of a block, [None] being NULL. *)
Definition read_bytes (block : option bytes) (off n : Z) : outcome bytes :=
  if n =? 0 then Done []
  else match block with
  | Some p => if (0 <=? off) && (0 <? n) && (off + n <=? zlen p) then Done (sub_bytes off n p) else Fault
  | None => Fault
  end.

(** The division of C on unsigned operands. *)
Definition udiv (a b : Z) : outcome Z := if b =? 0 then Fault else Done (a / b).

Lemma read_bytes_in p off n :
  0 <= off -> 0 <= n -> off + n <= zlen p -> read_bytes (Some p) off n = Done (sub_bytes off n p).
Proof.
  intros. unfold read_bytes. destruct (Z.eqb_spec n 0) as [->|]; [done|].
  rewrite (proj2 (Z.leb_le 0 off)), (proj2 (Z.ltb_lt 0 n)), (proj2 (Z.leb_le (off + n) _)) by lia. done.
Qed.
