(* ===== verification/CLib.v ===== *)
(** * C library functions on strings

    The parts of the C standard library the elements' property handlers use:
    [strcmp] and [strcasecmp] (only ever compared with 0), [atoi], [strtoul] with
    base 0, [strncpy] into a fixed array, and [snprintf] of a number or a string.
    A C string is a [string]; the conversions follow glibc where the standard
    leaves overflow open ([atoi] truncates a saturating [strtol] to [int]). *)

From Stdlib Require Import Ascii String.
From S2P Require Import Prelude.

Local Open Scope string_scope.
Local Open Scope Z_scope.

(** [strcmp(a, b) == 0] *)
Definition streq (a b : string) : bool := String.eqb a b.

Definition ascii_lower (c : ascii) : ascii :=
  let n := Ascii.nat_of_ascii c in
  if (65 <=? n)%nat && (n <=? 90)%nat then Ascii.ascii_of_nat (n + 32) else c.

Fixpoint str_lower (s : string) : string :=
  match s with
  | EmptyString => EmptyString
  | String c s => String (ascii_lower c) (str_lower s)
  end.

(** [strcasecmp(a, b) == 0] in the C locale *)
Definition strcaseeq (a b : string) : bool := String.eqb (str_lower a) (str_lower b).

(** [isspace] in the C locale *)
Definition is_space (c : ascii) : bool :=
  let n := Ascii.nat_of_ascii c in ((9 <=? n)%nat && (n <=? 13)%nat) || (n =? 32)%nat.

Fixpoint skip_spaces (s : string) : string :=
  match s with
  | String c s' => if is_space c then skip_spaces s' else s
  | EmptyString => EmptyString
  end.

(** The value of a digit, letters counting from 10, whatever the base. *)
Definition digit_val (c : ascii) : Z :=
  let n := Z.of_nat (Ascii.nat_of_ascii c) in
  if (48 <=? n) && (n <=? 57) then n - 48
  else if (97 <=? n) && (n <=? 122) then n - 87
  else if (65 <=? n) && (n <=? 90) then n - 55
  else 99.

(** The value of the longest prefix of digits of [base]. *)
Fixpoint parse_digits (base acc : Z) (s : string) : Z :=
  match s with
  | String c s' => if digit_val c <? base then parse_digits base (acc * base + digit_val c) s' else acc
  | EmptyString => acc
  end.

(** The optional sign: its flag and the rest. *)
Definition parse_sign (s : string) : bool * string :=
  match s with
  | String c s' =>
      if Ascii.eqb c "-" then (true, s') else if Ascii.eqb c "+" then (false, s') else (false, s)
  | EmptyString => (false, s)
  end.

Definition clamp (lo hi v : Z) : Z := Z.max lo (Z.min hi v).

(** [strtol(s, NULL, 10)] on LP64 *)
Definition strtol10 (s : string) : Z :=
  let '(neg, s) := parse_sign (skip_spaces s) in
  let v := parse_digits 10 0 s in
  clamp (-9223372036854775808) 9223372036854775807 (if neg then - v else v).

(** [atoi(s)] *)
Definition atoi (s : string) : Z := s32 (strtol10 s).

(** The base a prefix selects for [strtoul(s, NULL, 0)], and the digits after it. *)
Definition parse_prefix (s : string) : Z * string :=
  match s with
  | String c0 (String c1 (String c2 s' as r)) =>
      if Ascii.eqb c0 "0" && (Ascii.eqb c1 "x" || Ascii.eqb c1 "X") && (digit_val c2 <? 16)
      then (16, r) else if Ascii.eqb c0 "0" then (8, s) else (10, s)
  | String c0 _ => if Ascii.eqb c0 "0" then (8, s) else (10, s)
  | EmptyString => (10, s)
  end.

(** [strtoul(s, NULL, 0)] on LP64: a value out of range saturates, a minus sign
    negates modulo 2^64. *)
Definition strtoul0 (s : string) : Z :=
  let '(neg, s) := parse_sign (skip_spaces s) in
  let '(base, s) := parse_prefix s in
  let v := parse_digits base 0 s in
  if UINT64_MAX <? v then UINT64_MAX else if neg then u64 (- v) else v.

(** [strtoul(s, NULL, 10)] *)
Definition strtoul10 (s : string) : Z :=
  let '(neg, s) := parse_sign (skip_spaces s) in
  let v := parse_digits 10 0 s in
  if UINT64_MAX <? v then UINT64_MAX else if neg then u64 (- v) else v.

(** ** Printing *)

Definition digit_char (d : Z) : ascii := Ascii.ascii_of_nat (Z.to_nat (48 + d)).

(** Decimal digits of [n], most significant first, before [acc].  [fuel] bounds the
    number of digits; [show_nat] supplies [log2 n + 1], which is enough. *)
Fixpoint show_digits (fuel : nat) (n : Z) (acc : string) : string :=
  match fuel with
  | O => acc
  | S fuel =>
      let acc := String (digit_char (n mod 10)) acc in
      if n <? 10 then acc else show_digits fuel (n / 10) acc
  end.

Definition show_nat (n : Z) : string := show_digits (S (Z.to_nat (Z.log2 n))) n "".

(** The text of ["%d"], ["%u"] and ["%llu"] *)
Definition show_Z (n : Z) : string :=
  if n <? 0 then String "-" (show_nat (- n)) else show_nat n.

Fixpoint str_take (n : nat) (s : string) : string :=
  match n, s with
  | S n, String c s => String c (str_take n s)
  | _, _ => EmptyString
  end.

(** [snprintf(out, max_len, ...)] of text [s] leaves the first [max_len - 1]
    characters in [out], for [max_len > 0]. *)
Definition snprintf (max_len : Z) (s : string) : string := str_take (Z.to_nat (max_len - 1)) s.

(** [strncpy(dst, src, size - 1)] into an array of [size] bytes whose last byte is 0. *)
Definition strncpy_n (size : Z) (src : string) : string := str_take (Z.to_nat (size - 1)) src.

(** [strstr(s, key) != NULL] *)
Fixpoint str_contains (key s : string) : bool :=
  streq (str_take (String.length key) s) key || match s with String _ s => str_contains key s | EmptyString => false end.

(** A chain [strcmp(name, a) == 0 || strcmp(name, b) == 0 || ...] *)
Definition name_in (name : string) (names : list string) : bool := existsb (streq name) names.

(** ** Lemmas *)

Lemma streq_spec a b : reflect (a = b) (streq a b).
Proof. apply String.eqb_spec. Qed.

Lemma streq_refl a : streq a a = true.
Proof. apply String.eqb_refl. Qed.

Lemma str_take_all n s : (String.length s <= n)%nat -> str_take n s = s.
Proof.
  revert n. induction s as [|c s IH]; intros [|n] H; simpl in *; try done; try lia.
  f_equal. apply IH. lia.
Qed.

Lemma str_take_length n s : (String.length (str_take n s) <= n)%nat.
Proof. revert s. induction n as [|n IH]; intros [|c s]; simpl; try lia. specialize (IH s). lia. Qed.

Lemma str_take_take n s : str_take n (str_take n s) = str_take n s.
Proof. apply str_take_all, str_take_length. Qed.

Lemma snprintf_all max_len s : Z.of_nat (String.length s) < max_len -> snprintf max_len s = s.
Proof. intros. apply str_take_all. lia. Qed.

Lemma digit_val_char d : 0 <= d < 10 -> digit_val (digit_char d) = d.
Proof.
  intros H. unfold digit_val, digit_char.
  rewrite Ascii.nat_ascii_embedding by lia.
  rewrite Z2Nat.id by lia.
  destruct (Z.leb_spec 48 (48 + d)), (Z.leb_spec (48 + d) 57); simpl; lia.
Qed.

(** Enough fuel for the digits of [n] when continuing with [n / 10]. *)
Lemma fuel_div10 fuel n : 10 <= n < 2 ^ Z.of_nat (S fuel) -> 0 <= n / 10 < 2 ^ Z.of_nat fuel.
Proof.
  intros [Hlo Hhi]. rewrite Nat2Z.inj_succ, Z.pow_succ_r in Hhi by lia.
  Z.to_euclidean_division_equations. lia.
Qed.

(** Parsing the digits printed for [n] continues with the digits after them. *)
Lemma parse_show_digits fuel n :
  0 <= n < 2 ^ Z.of_nat fuel ->
  exists p, forall k acc,
    parse_digits 10 k (show_digits fuel n acc) = parse_digits 10 (k * p + n) acc.
Proof.
  revert n. induction fuel as [|fuel IH]; intros n Hn.
  { exists 1. intros. simpl in *. f_equal. lia. }
  assert (Hd : forall k acc, parse_digits 10 k (String (digit_char (n mod 10)) acc)
                             = parse_digits 10 (k * 10 + n mod 10) acc).
  { intros. cbn [parse_digits]. pose proof (Z.mod_pos_bound n 10).
    rewrite digit_val_char by lia. destruct (Z.ltb_spec (n mod 10) 10); [done|lia]. }
  cbn [show_digits]. destruct (Z.ltb_spec n 10) as [Hlt|Hge].
  - exists 10. intros. by rewrite Hd, Z.mod_small by lia.
  - destruct (IH (n / 10)) as [p Hp]; [apply fuel_div10; lia|].
    exists (p * 10). intros. rewrite Hp, Hd. f_equal. pose proof (Z.div_mod n 10). nia.
Qed.

Lemma show_fuel n : 0 <= n -> 0 <= n < 2 ^ Z.of_nat (S (Z.to_nat (Z.log2 n))).
Proof.
  intros. split; [done|]. rewrite Nat2Z.inj_succ, Z2Nat.id by apply Z.log2_nonneg.
  destruct (Z.eqb_spec n 0) as [->|]; [done|]. apply Z.log2_spec. lia.
Qed.

Lemma parse_show_nat n : 0 <= n -> parse_digits 10 0 (show_nat n) = n.
Proof.
  intros H. unfold show_nat.
  destruct (parse_show_digits (S (Z.to_nat (Z.log2 n))) n (show_fuel n H)) as [p Hp].
  rewrite Hp. simpl. lia.
Qed.

Lemma show_digits_S fuel n acc :
  show_digits (S fuel) n acc =
  (let acc := String (digit_char (n mod 10)) acc in
   if n <? 10 then acc else show_digits fuel (n / 10) acc).
Proof. reflexivity. Qed.

(** The printed text starts with a digit, which is not 0 for a positive number. *)
Lemma show_digits_head fuel n acc :
  0 <= n < 2 ^ Z.of_nat (S fuel) ->
  exists d r, show_digits (S fuel) n acc = String (digit_char d) r /\ 0 <= d < 10 /\ (0 < n -> 0 < d).
Proof.
  revert n acc. induction fuel as [|fuel IH]; intros n acc Hn; rewrite show_digits_S; cbv zeta.
  - rewrite Z.mod_small by lia. destruct (Z.ltb_spec n 10); [|lia]. exists n, acc. split_and!; [done|lia..].
  - destruct (Z.ltb_spec n 10).
    + rewrite Z.mod_small by lia. exists n, acc. split_and!; [done|lia..].
    + destruct (IH (n / 10) (String (digit_char (n mod 10)) acc)) as (d & r & E & Hd & Hpos).
      { apply fuel_div10. lia. }
      exists d, r. rewrite E. split_and!; try done; try lia. intros _. apply Hpos.
      Z.to_euclidean_division_equations. lia.
Qed.

Lemma show_nat_head n :
  0 <= n -> exists d r, show_nat n = String (digit_char d) r /\ 0 <= d < 10 /\ (0 < n -> 0 < d).
Proof. intros. apply show_digits_head, show_fuel. done. Qed.

(** A digit is neither a space nor a sign, and only 0 starts an octal prefix. *)
Lemma digit_char_facts d :
  0 <= d < 10 ->
  is_space (digit_char d) = false /\ Ascii.eqb (digit_char d) "-" = false /\
  Ascii.eqb (digit_char d) "+" = false /\ Ascii.eqb (digit_char d) "0" = (d =? 0).
Proof.
  intros H.
  assert (d = 0 \/ d = 1 \/ d = 2 \/ d = 3 \/ d = 4 \/ d = 5 \/ d = 6 \/ d = 7 \/ d = 8 \/ d = 9) by lia.
  repeat match goal with H : _ \/ _ |- _ => destruct H as [->|H] end; subst; by vm_compute.
Qed.

(** Reading back a printed signed number. *)
Lemma atoi_show n : -2147483648 <= n < 2147483648 -> atoi (show_Z n) = n.
Proof.
  intros H. unfold atoi, strtol10, show_Z. destruct (Z.ltb_spec n 0).
  - cbn [skip_spaces]. replace (is_space "-") with false by done. cbn [parse_sign].
    replace (Ascii.eqb "-" "-") with true by done. rewrite parse_show_nat by lia.
    unfold clamp. rewrite s32_small; lia.
  - destruct (show_nat_head n) as (d & r & E & Hd & _); [lia|].
    destruct (digit_char_facts d Hd) as (F1 & F2 & F3 & _).
    rewrite E. cbn [skip_spaces]. rewrite F1. cbn [parse_sign]. rewrite F2, F3, <-E.
    rewrite parse_show_nat by lia. unfold clamp. rewrite s32_small; lia.
Qed.

(** Reading back a printed unsigned number. *)
Lemma strtoul0_show n : 0 <= n <= UINT64_MAX -> strtoul0 (show_Z n) = n.
Proof.
  intros H. unfold UINT64_MAX in H. unfold strtoul0, show_Z. destruct (Z.ltb_spec n 0); [lia|].
  destruct (Z.eqb_spec n 0) as [->|Hn]; [reflexivity|].
  destruct (show_nat_head n) as (d & r & E & Hd & Hp); [lia|].
  destruct (digit_char_facts d Hd) as (F1 & F2 & F3 & F4).
  rewrite E. cbn [skip_spaces]. rewrite F1. cbn [parse_sign]. rewrite F2, F3.
  assert (parse_prefix (String (digit_char d) r) = (10, String (digit_char d) r)) as ->.
  { unfold parse_prefix. rewrite F4. destruct (Z.eqb_spec d 0); [lia|]. by destruct r as [|? [|??]]. }
  rewrite <-E, parse_show_nat by lia. unfold UINT64_MAX. destruct (Z.ltb_spec 18446744073709551615 n); [lia|done].
Qed.

(** The number of digits. *)
Lemma show_digits_length fuel n acc k :
  0 <= n < 10 ^ Z.of_nat (S k) ->
  (String.length (show_digits fuel n acc) <= S k + String.length acc)%nat.
Proof.
  revert n acc k. induction fuel as [|fuel IH]; intros n acc k Hn; [simpl; lia|].
  rewrite show_digits_S. cbv zeta. destruct (Z.ltb_spec n 10); [simpl; lia|].
  destruct k as [|k]; [simpl in Hn; lia|].
  etransitivity; [apply (IH _ _ k)|simpl; lia].
  rewrite (Nat2Z.inj_succ (S k)), Z.pow_succ_r in Hn by lia.
  split; [apply Z.div_pos; lia|]. apply Z.div_lt_upper_bound; lia.
Qed.

Lemma show_Z_length n : 0 <= n <= UINT64_MAX -> Z.of_nat (String.length (show_Z n)) <= 20.
Proof.
  intros H. unfold show_Z, show_nat. destruct (Z.ltb_spec n 0); [lia|].
  pose proof (show_digits_length (S (Z.to_nat (Z.log2 n))) n "" 19) as L. change (String.length "") with 0%nat in L.
  change (10 ^ Z.of_nat 20) with 100000000000000000000 in L.
  unfold UINT64_MAX in H. specialize (L ltac:(lia)). lia.
Qed.

Lemma snprintf_show max_len n :
  32 <= max_len -> 0 <= n <= UINT64_MAX -> snprintf max_len (show_Z n) = show_Z n.
Proof. intros. apply snprintf_all. pose proof (show_Z_length n). lia. Qed.

Lemma name_in_1 name a : name_in name [a] = true -> name = a.
Proof. unfold name_in. simpl. rewrite orb_false_r. by destruct (streq_spec name a). Qed.

Lemma atoi_range s : -2147483648 <= atoi s < 2147483648.
Proof. unfold atoi. cint. Qed.
