(* ===== verification/Pad.v ===== *)
(** * Buffers as pads see them, and the interface between linked elements

    A push handler reads a buffer's media fields and hands it on; [zst_buffer] is
    that view ([include/zst_buffer.h]); reference counts and ownership are the
    business of the file [Heap].  An element pushes into whatever is linked to its
    source pad: the class [PadSink] is that promise, so that an element is modelled
    once, against any downstream state, and instantiated with other elements. *)

From S2P Require Import Prelude.

(** ** Buffer constants *)

Definition ZST_BUFFER_VIDEO_FRAME : Z := 0.
Definition ZST_BUFFER_AUDIO_FRAME : Z := 1.
Definition ZST_BUFFER_VIDEO_PACKET : Z := 2.
Definition ZST_BUFFER_AUDIO_PACKET : Z := 3.
Definition ZST_BUFFER_USER : Z := 65536.

Definition ZST_MEMORY_CPU : Z := 0.
Definition ZST_MEMORY_DMABUF : Z := 1.

Definition ZST_BUFFER_FLAG_EOS : Z := 1.
Definition ZST_BUFFER_FLAG_DROP : Z := 2.
Definition ZST_BUFFER_FLAG_KEYFRAME : Z := 4.

(** [sizeof(zst_buffer_t)], a multiple of the cache line *)
Definition SIZEOF_BUFFER : Z := 128.

(** [flags & bit] as a truth value *)
Definition has_flag (flags bit : Z) : bool := negb (Z.land flags bit =? 0).

(** ** The media view of a buffer

    [mem_data] is the block [memory.data] points to, [None] for NULL; the block
    holds at least [mem_size] bytes ([buffer_ok]). *)
Record zst_buffer := mk_buffer {
  buf_type : Z;
  buf_flags : Z;
  buf_pts : Z;
  buf_dts : Z;
  buf_duration : Z;
  mem_data : option bytes;
  mem_size : Z;
}.

(** The bytes a handler may read: the first [memory.size] of the block. *)
Definition buf_bytes (b : zst_buffer) : bytes :=
  match mem_data b with Some d => sub_bytes 0 (mem_size b) d | None => [] end.

Definition buffer_ok (b : zst_buffer) : Prop :=
  0 <= mem_size b <= SIZE_MAX /\ bytes_ok (buf_bytes b) /\
  match mem_data b with Some d => mem_size b <= zlen d | None => True end.

(** A packet built from exactly these bytes. *)
Definition buffer_of (type flags pts dts duration : Z) (data : bytes) : zst_buffer :=
  mk_buffer type flags pts dts duration (Some data) (zlen data).

Lemma buf_bytes_of type flags pts dts dur data :
  buf_bytes (buffer_of type flags pts dts dur data) = data.
Proof. by apply sub_bytes_all. Qed.

(** ** The memory interface

    Whether an allocation of [n] bytes succeeds, whether the element's buffer pool
    has a buffer for a packet of [n] bytes, and whether that pool can be created.  Within
    one call two allocations of one size are answered alike; the next call may have
    another instance.  Definitions take any answer; the functional theorems assume
    [CMemoryOk], the error theorems do not. *)
Class CMemory := {
  malloc_ok : Z -> bool;
  pool_ok : Z -> bool;
  pool_create_ok : bool;
}.

Class CMemoryOk `{CMemory} := malloc_total : forall n, malloc_ok n = true.

Definition ample_memory : CMemory := {| malloc_ok := fun _ => true; pool_ok := fun _ => true;
  pool_create_ok := true |}.

Lemma ample_memory_ok : @CMemoryOk ample_memory.
Proof. done. Qed.

(** ** The downstream interface *)

(** What a linked peer offers: the result of [zst_pad_push] and its next state. *)
Class PadSink (D : Type) := pad_push : D -> zst_buffer -> zst_result_t * D.

(** Pushing on a source pad whose peer may be absent: every element guards the
    push with [src_pad && src_pad->peer] and reports [ZST_OK] without one. *)
Definition push_peer {D} `{PadSink D} (peer : option D) (b : zst_buffer) : zst_result_t * option D :=
  match peer with
  | Some d => let '(r, d') := pad_push d b in (r, Some d')
  | None => (ZST_OK, None)
  end.

(** A sink that accepts everything and remembers it: for stating what was pushed. *)
Definition trace := list zst_buffer.
#[export] Instance trace_sink : PadSink trace := fun d b => (ZST_OK, d ++ [b]).

(** The part of a sink's behaviour the clients' theorems may rely on. *)
Class PadSinkOk (D : Type) `{PadSink D} (good : D -> zst_buffer -> Prop) :=
  pad_push_ok : forall d b, good d b -> (pad_push d b).1 = ZST_OK.

#[export] Instance trace_sink_ok : PadSinkOk trace (fun _ _ => True).
Proof. done. Qed.

(** Pushing a list of buffers in order, as a client does, with the last error
    that was not overwritten by a later one. *)
Fixpoint push_all {D} `{PadSink D} (peer : option D) (ret : zst_result_t) (bs : list zst_buffer)
  : zst_result_t * option D :=
  match bs with
  | [] => (ret, peer)
  | b :: bs =>
      let '(one, peer) := push_peer peer b in
      push_all peer (if one =? ZST_OK then ret else one) bs
  end.

Lemma push_all_app {D} `{PadSink D} (peer : option D) ret bs cs :
  push_all peer ret (bs ++ cs) =
  (let '(ret, peer) := push_all peer ret bs in push_all peer ret cs).
Proof.
  revert peer ret. induction bs as [|b bs IH]; intros; simpl; [done|].
  destruct (push_peer peer b) as [one peer']. apply IH.
Qed.

Lemma push_all_trace (d : trace) ret bs : push_all (Some d) ret bs = (ret, Some (d ++ bs)).
Proof.
  revert d ret. induction bs as [|b bs IH]; intros; simpl; [by rewrite app_nil_r|].
  by rewrite IH, <-app_assoc.
Qed.
