(* ===== verification/MediaUtils.v ===== *)
(** * Start codes and packet checks: [src/zst_media_utils.h], [src/zst_st2110_utils.c]

    [zst_find_start_code] scans an Annex-B byte stream with [memchr]; its
    specification is the leftmost position at or after the offset where a 3-byte or
    a 4-byte start code lies entirely inside the data. *)

From S2P Require Import Prelude Pad.

(** ** The code *)

(** [memchr(data + i, 0, n)], as an index into [data] *)
Fixpoint memchr0 (n : nat) (i : Z) (data : bytes) : option Z :=
  match n with
  | O => None
  | S n => if rd data i =? 0 then Some i else memchr0 n (i + 1) data
  end.

(** The scan of [ptr] up to [end = data + size - 2].  Each round moves [ptr]
    forward, so [fuel = size] rounds are enough ([find_fuel]). *)
Fixpoint find_loop (fuel : nat) (data : bytes) (size ptr : Z) : Z * Z :=
  match fuel with
  | O => (-1, 0)
  | S fuel =>
      if ptr <? size - 2 then
        match memchr0 (Z.to_nat (size - 2 - ptr)) ptr data with
        | None => (-1, 0)
        | Some ptr =>
            if rd data (ptr + 1) =? 0 then
              if rd data (ptr + 2) =? 1 then (ptr, 3)
              else if (rd data (ptr + 2) =? 0) && (ptr + 3 <? size) && (rd data (ptr + 3) =? 1)
              then (ptr, 4)
              else find_loop fuel data size (ptr + 1)
            else find_loop fuel data size (ptr + 1)
        end
      else (-1, 0)
  end.

(** Returns the position and, through [code_size], the length of the start code. *)
Definition zst_find_start_code (data : bytes) (size offset : Z) : Z * Z :=
  if (size <=? 0) || (offset <? 0) || (size <=? offset + 2) then (-1, 0)
  else find_loop (Z.to_nat size) data size offset.

(** What the users of the scan do with the end of a unit:
    [while (nal_end > nal_start && data[nal_end - 1] == 0) nal_end--;] *)
Fixpoint trim_zeros (n : nat) (data : bytes) (nal_start : Z) : Z :=
  match n with
  | O => nal_start
  | S n => if rd data (nal_start + Z.of_nat n) =? 0 then trim_zeros n data nal_start else nal_start + Z.of_nat (S n)
  end.

Definition zst_st2110_20_validate_packet (buf : zst_buffer) : bool :=
  match mem_data buf with
  | None => false
  | Some data =>
      if mem_size buf <? 12 then false
      else Z.land (Z.shiftr (rd data 0) 6) 3 =? 2
  end.

Definition zst_st2110_30_validate_packet (buf : zst_buffer) : bool :=
  match mem_data buf with
  | None => false
  | Some data =>
      if mem_size buf <? 12 then false
      else Z.land (Z.shiftr (rd data 0) 6) 3 =? 2
  end.

(** ** The specification *)

(** The length of the start code lying at [i], 0 when there is none. *)
Definition start_code_at (data : bytes) (size i : Z) : Z :=
  if (rd data i =? 0) && (rd data (i + 1) =? 0) && (i + 2 <? size) then
    if rd data (i + 2) =? 1 then 3
    else if (rd data (i + 2) =? 0) && (i + 3 <? size) && (rd data (i + 3) =? 1) then 4
    else 0
  else 0.

(** [p] is the leftmost start code at or after [lo], of length [c]. *)
Definition leftmost (data : bytes) (size lo p c : Z) : Prop :=
  lo <= p /\ start_code_at data size p = c /\ 0 < c /\
  forall i, lo <= i < p -> start_code_at data size i = 0.

Definition no_start_code_from (data : bytes) (size lo : Z) : Prop :=
  forall i, lo <= i -> start_code_at data size i = 0.

Lemma memchr0_spec n i data :
  match memchr0 n i data with
  | Some j => i <= j < i + Z.of_nat n /\ rd data j = 0 /\ forall k, i <= k < j -> rd data k <> 0
  | None => forall k, i <= k < i + Z.of_nat n -> rd data k <> 0
  end.
Proof.
  revert i. induction n as [|n IH]; intros i; cbn [memchr0]; [lia|].
  destruct (Z.eqb_spec (rd data i) 0) as [E|E].
  { split_and!; [lia|lia|done|lia]. }
  specialize (IH (i + 1)). destruct (memchr0 n (i + 1) data) as [j|].
  - destruct IH as (? & ? & Hk). split_and!; [lia|lia|done|].
    intros k ?. destruct (Z.eqb_spec k i) as [->|]; [done|]. apply Hk. lia.
  - intros k ?. destruct (Z.eqb_spec k i) as [->|]; [done|]. apply IH. lia.
Qed.

(** A position whose first byte is not 0, or that ends too early, has no code. *)
Lemma start_code_at_first data size i : rd data i <> 0 -> start_code_at data size i = 0.
Proof. unfold start_code_at. intros. by destruct (Z.eqb_spec (rd data i) 0). Qed.

Lemma start_code_at_end data size i : size <= i + 2 -> start_code_at data size i = 0.
Proof. unfold start_code_at. intros. destruct (Z.ltb_spec (i + 2) size); [lia|]. by rewrite andb_false_r. Qed.

Lemma start_code_at_cases data size i :
  start_code_at data size i = 0 \/ start_code_at data size i = 3 \/ start_code_at data size i = 4.
Proof. unfold start_code_at. repeat case_match; auto. Qed.

Lemma find_loop_spec fuel data size ptr :
  size - 2 - ptr < Z.of_nat fuel ->
  match find_loop fuel data size ptr with
  | (p, c) =>
      (p = -1 /\ c = 0 /\ no_start_code_from data size ptr) \/ leftmost data size ptr p c
  end.
Proof.
  revert ptr. induction fuel as [|fuel IH]; intros ptr Hf; cbn [find_loop].
  { left. split_and!; try done. intros i ?. apply start_code_at_end. lia. }
  destruct (Z.ltb_spec ptr (size - 2)) as [Hlt|Hge].
  2:{ left. split_and!; try done. intros i ?. apply start_code_at_end. lia. }
  pose proof (memchr0_spec (Z.to_nat (size - 2 - ptr)) ptr data) as Hm.
  destruct (memchr0 _ ptr data) as [j|].
  2:{ left. split_and!; try done. intros i ?.
      destruct (Z.ltb_spec i (size - 2)); [|apply start_code_at_end; lia].
      apply start_code_at_first, Hm. lia. }
  destruct Hm as (Hj & Hj0 & Hbefore).
  assert (Hpre : forall i, ptr <= i < j -> start_code_at data size i = 0)
    by (intros; apply start_code_at_first, Hbefore; lia).
  assert (Hcode : start_code_at data size j =
    if rd data (j + 1) =? 0 then
      if rd data (j + 2) =? 1 then 3
      else if (rd data (j + 2) =? 0) && (j + 3 <? size) && (rd data (j + 3) =? 1) then 4 else 0
    else 0).
  { unfold start_code_at. rewrite Hj0, Z.eqb_refl.
    destruct (Z.ltb_spec (j + 2) size); [|lia].
    by destruct (rd data (j + 1) =? 0). }
  assert (Hnext : start_code_at data size j = 0 ->
    match find_loop fuel data size (j + 1) with
    | (p, c) => (p = -1 /\ c = 0 /\ no_start_code_from data size ptr) \/ leftmost data size ptr p c
    end).
  { intros Hz. specialize (IH (j + 1)). destruct (find_loop fuel data size (j + 1)) as [p c].
    destruct IH as [(-> & -> & Hn)|(Hp & Hc & Hpos & Hn)]; [lia| |].
    - left. split_and!; try done. intros i ?.
      destruct (Z.ltb_spec i j); [apply Hpre; lia|].
      destruct (Z.eqb_spec i j) as [->|]; [done|]. apply Hn. lia.
    - right. split_and!; try done; [lia|]. intros i ?.
      destruct (Z.ltb_spec i j); [apply Hpre; lia|].
      destruct (Z.eqb_spec i j) as [->|]; [done|]. apply Hn. lia. }
  destruct (rd data (j + 1) =? 0); [|by apply Hnext].
  destruct (rd data (j + 2) =? 1).
  { right. split_and!; [lia|done|lia|done]. }
  destruct ((rd data (j + 2) =? 0) && (j + 3 <? size) && (rd data (j + 3) =? 1)).
  { right. split_and!; [lia|done|lia|done]. }
  by apply Hnext.
Qed.

Lemma find_start_code_cases data size offset :
  0 <= offset ->
  match zst_find_start_code data size offset with
  | (p, c) =>
      (p = -1 /\ c = 0 /\ no_start_code_from data size offset) \/ leftmost data size offset p c
  end.
Proof.
  intros Ho. unfold zst_find_start_code.
  destruct (Z.leb_spec size 0) as [|]; simpl.
  { left. split_and!; try done. intros i ?. apply start_code_at_end. lia. }
  destruct (Z.ltb_spec offset 0); [lia|simpl].
  destruct (Z.leb_spec size (offset + 2)); simpl.
  { left. split_and!; try done. intros i ?. apply start_code_at_end. lia. }
  apply find_loop_spec. lia.
Qed.

(** The result is determined by the specification. *)
Lemma leftmost_unique data size lo p c q e :
  leftmost data size lo p c -> leftmost data size lo q e -> p = q /\ c = e.
Proof.
  intros (H1 & H2 & H3 & H4) (G1 & G2 & G3 & G4).
  assert (p = q) as ->.
  { destruct (Z.lt_trichotomy p q) as [|[|]]; [|done|].
    - specialize (G4 p). lia.
    - specialize (H4 q). lia. }
  split; [done|lia].
Qed.

Lemma find_start_code_leftmost data size lo p c :
  0 <= lo -> leftmost data size lo p c -> zst_find_start_code data size lo = (p, c).
Proof.
  intros Hlo Hl. pose proof (find_start_code_cases data size lo Hlo) as H.
  destruct (zst_find_start_code data size lo) as [p' c'].
  destruct H as [(-> & -> & Hn)|H].
  - destruct Hl as (? & Hc & ? & _). rewrite Hn in Hc; lia.
  - destruct (leftmost_unique _ _ _ _ _ _ _ H Hl) as [-> ->]. done.
Qed.

Lemma find_start_code_none data size lo :
  0 <= lo -> no_start_code_from data size lo -> zst_find_start_code data size lo = (-1, 0).
Proof.
  intros Hlo Hn. pose proof (find_start_code_cases data size lo Hlo) as H.
  destruct (zst_find_start_code data size lo) as [p' c'].
  destruct H as [(-> & -> & _)|(Hp & Hc & Hpos & _)]; [done|].
  rewrite Hn in Hc; lia.
Qed.

(** ** Annex-B streams

    A stream of NAL units, each after a 3-byte or a 4-byte start code. *)

Definition start_code (long : bool) : bytes := if long then [0; 0; 0; 1] else [0; 0; 1].

Fixpoint annexb (l : list (bool * bytes)) : bytes :=
  match l with
  | [] => []
  | (long, nal) :: l => start_code long ++ nal ++ annexb l
  end.

(** A NAL unit as an encoder writes it: not empty, no start code inside, and no
    trailing zero byte. *)
Record nal_ok (nal : bytes) : Prop := {
  nal_nonempty : 0 < zlen nal;
  nal_no_code : forall i, 0 <= i -> start_code_at nal (zlen nal) i = 0;
  nal_last : rd nal (zlen nal - 1) <> 0;
}.

(** Executable form of [nal_ok]. *)
Definition nal_okb (nal : bytes) : bool :=
  (0 <? zlen nal) && negb (rd nal (zlen nal - 1) =? 0) &&
  forallb (fun i => start_code_at nal (zlen nal) (Z.of_nat i) =? 0) (seq 0 (length nal)).

Lemma nal_okb_ok nal : nal_okb nal = true -> nal_ok nal.
Proof.
  unfold nal_okb. rewrite !andb_true_iff, negb_true_iff, forallb_forall. intros [[H1 H2] H3].
  constructor.
  - by apply Z.ltb_lt.
  - intros i Hi. destruct (Z.ltb_spec i (zlen nal)) as [Hlt|].
    + specialize (H3 (Z.to_nat i)). rewrite Z2Nat.id in H3 by done. apply Z.eqb_eq, H3, in_seq.
      unfold zlen in *. lia.
    + apply start_code_at_end. lia.
  - by apply Z.eqb_neq.
Qed.

Lemma start_code_at_shift (pre l : bytes) size i :
  0 <= i -> start_code_at (pre ++ l) size (zlen pre + i) = start_code_at l (size - zlen pre) i.
Proof.
  intros Hi. pose proof (zlen_nonneg pre). unfold start_code_at. rewrite <-!Z.add_assoc, !rd_app_r by lia.
  replace (zlen pre + i - zlen pre) with i by lia.
  replace (zlen pre + (i + 1) - zlen pre) with (i + 1) by lia.
  replace (zlen pre + (i + 2) - zlen pre) with (i + 2) by lia.
  replace (zlen pre + (i + 3) - zlen pre) with (i + 3) by lia.
  replace (zlen pre + (i + 2) <? size) with (i + 2 <? size - zlen pre)
    by (destruct (Z.ltb_spec (i + 2) (size - zlen pre)), (Z.ltb_spec (zlen pre + (i + 2)) size); lia).
  replace (zlen pre + (i + 3) <? size) with (i + 3 <? size - zlen pre)
    by (destruct (Z.ltb_spec (i + 3) (size - zlen pre)), (Z.ltb_spec (zlen pre + (i + 3)) size); lia).
  done.
Qed.

(** A zero byte of a NAL unit is not its last byte. *)
Lemma nal_zero_inside nal i : nal_ok nal -> 0 <= i < zlen nal -> rd nal i = 0 -> i + 1 < zlen nal.
Proof.
  intros Hok Hi Hz. destruct (Z.eqb_spec i (zlen nal - 1)) as [->|]; [|lia].
  by destruct (nal_last nal Hok).
Qed.

(** No start code begins inside a NAL unit, whatever follows it. *)
Lemma nal_app_no_code nal rest size i :
  nal_ok nal -> 0 <= i < zlen nal -> zlen nal <= size -> start_code_at (nal ++ rest) size i = 0.
Proof.
  intros Hok Hi Hs. pose proof (nal_no_code nal Hok i) as Hn. specialize (Hn ltac:(lia)).
  unfold start_code_at in *. rewrite (rd_app_l _ _ i) by lia.
  destruct (Z.eqb_spec (rd nal i) 0) as [E0|]; [|done]. cbn [andb] in *.
  pose proof (nal_zero_inside nal i Hok Hi E0) as H1.
  rewrite (rd_app_l _ _ (i + 1)) by lia.
  destruct (Z.eqb_spec (rd nal (i + 1)) 0) as [E1|]; [|done]. cbn [andb] in *.
  pose proof (nal_zero_inside nal (i + 1) Hok ltac:(lia) E1) as H2.
  rewrite (rd_app_l _ _ (i + 2)) by lia.
  destruct (Z.ltb_spec (i + 2) size); [|lia]. destruct (Z.ltb_spec (i + 2) (zlen nal)); [|lia].
  destruct (Z.eqb_spec (rd nal (i + 2)) 1); [done|].
  destruct (Z.eqb_spec (rd nal (i + 2)) 0) as [E2|]; [|done]. cbn [andb] in *.
  pose proof (nal_zero_inside nal (i + 2) Hok ltac:(lia) E2) as H3.
  rewrite (rd_app_l _ _ (i + 3)) by lia.
  destruct (Z.ltb_spec (i + 3) size); [|lia]. destruct (Z.ltb_spec (i + 3) (zlen nal)); [|lia].
  done.
Qed.

Lemma start_code_at_start long l size :
  zlen (start_code long) <= size ->
  start_code_at (start_code long ++ l) size 0 = zlen (start_code long).
Proof.
  intros Hs. unfold start_code_at. destruct long; cbn [start_code app] in *.
  - change (zlen [0; 0; 0; 1]) with 4 in *.
    replace (rd (0 :: 0 :: 0 :: 1 :: l) 0) with 0 by done.
    replace (rd (0 :: 0 :: 0 :: 1 :: l) (0 + 1)) with 0 by done.
    replace (rd (0 :: 0 :: 0 :: 1 :: l) (0 + 2)) with 0 by done.
    replace (rd (0 :: 0 :: 0 :: 1 :: l) (0 + 3)) with 1 by done.
    destruct (Z.ltb_spec (0 + 2) size), (Z.ltb_spec (0 + 3) size); try lia. done.
  - change (zlen [0; 0; 1]) with 3 in *.
    replace (rd (0 :: 0 :: 1 :: l) 0) with 0 by done.
    replace (rd (0 :: 0 :: 1 :: l) (0 + 1)) with 0 by done.
    replace (rd (0 :: 0 :: 1 :: l) (0 + 2)) with 1 by done.
    destruct (Z.ltb_spec (0 + 2) size); try lia. done.
Qed.

Lemma zlen_start_code long : 3 <= zlen (start_code long) <= 4.
Proof. destruct long; unfold zlen; simpl; lia. Qed.

(** The scan from the start of a NAL unit stops at the next start code. *)
Lemma find_after_nal pre nal l :
  nal_ok nal ->
  zst_find_start_code (pre ++ nal ++ annexb l) (zlen (pre ++ nal ++ annexb l)) (zlen pre) =
  match l with
  | [] => (-1, 0)
  | (long, _) :: _ => (zlen pre + zlen nal, zlen (start_code long))
  end.
Proof.
  intros Hok. pose proof (zlen_nonneg pre). pose proof (nal_nonempty nal Hok).
  set (data := pre ++ nal ++ annexb l).
  assert (Hsz : zlen data - zlen pre = zlen nal + zlen (annexb l))
    by (unfold data; rewrite !zlen_app; lia).
  pose proof (zlen_nonneg (annexb l)).
  assert (Hin : forall i, zlen pre <= i < zlen pre + zlen nal -> start_code_at data (zlen data) i = 0).
  { intros i ?. replace i with (zlen pre + (i - zlen pre)) by lia. unfold data at 1.
    rewrite start_code_at_shift by lia. apply nal_app_no_code; [done|lia|lia]. }
  destruct l as [|[long next] l].
  - apply find_start_code_none; [done|]. intros i ?. cbn [annexb] in Hsz.
    destruct (Z.ltb_spec i (zlen pre + zlen nal)); [apply Hin; lia|].
    apply start_code_at_end. rewrite zlen_nil in Hsz. lia.
  - apply find_start_code_leftmost; [done|].
    assert (zlen (start_code long) <= zlen (annexb ((long, next) :: l)))
      by (cbn [annexb]; rewrite zlen_app; pose proof (zlen_nonneg (next ++ annexb l)); lia).
    pose proof (zlen_start_code long).
    split_and!; [lia| |lia|done].
    unfold data at 1. rewrite app_assoc.
    replace (zlen pre + zlen nal) with (zlen (pre ++ nal) + 0) by (rewrite zlen_app; lia).
    rewrite start_code_at_shift by lia. cbn [annexb]. rewrite start_code_at_start; [done|].
    rewrite zlen_app. lia.
Qed.

Lemma find_first long nal l :
  zst_find_start_code (annexb ((long, nal) :: l)) (zlen (annexb ((long, nal) :: l))) 0 =
  (0, zlen (start_code long)).
Proof.
  apply find_start_code_leftmost; [done|]. pose proof (zlen_start_code long).
  split_and!; [lia| |lia|lia].
  cbn [annexb]. rewrite start_code_at_start; [done|]. rewrite zlen_app.
  pose proof (zlen_nonneg (nal ++ annexb l)). lia.
Qed.

Lemma trim_nonzero n data i : (0 < n)%nat -> rd data (i + Z.of_nat n - 1) <> 0 -> trim_zeros n data i = i + Z.of_nat n.
Proof.
  destruct n as [|n]; [lia|]. intros _ Hr. cbn [trim_zeros]. rewrite Nat2Z.inj_succ in *.
  replace (i + Z.succ (Z.of_nat n) - 1) with (i + Z.of_nat n) in Hr by lia. by rewrite (proj2 (Z.eqb_neq _ _)).
Qed.

(** The bytes of a unit, taken out between its start code and what follows. *)
Lemma unit_bytes q nal rest : nal_ok nal ->
  trim_zeros (Z.to_nat (zlen q + zlen nal - zlen q)) (q ++ nal ++ rest) (zlen q) = zlen q + zlen nal /\
  sub_bytes (zlen q) (zlen nal) (q ++ nal ++ rest) = nal.
Proof.
  intros Hn. pose proof (nal_nonempty nal Hn) as Hpos. pose proof (nal_last nal Hn) as Hlast. pose proof (zlen_nonneg q).
  replace (zlen q + zlen nal - zlen q) with (zlen nal) by lia. split.
  - rewrite trim_nonzero; rewrite ?Z2Nat.id by lia; [done|unfold zlen in *; lia|].
    rewrite rd_app_r by lia. rewrite rd_app_l by lia. by replace (zlen q + zlen nal - 1 - zlen q) with (zlen nal - 1) by lia.
  - unfold sub_bytes, zlen. rewrite !Nat2Z.id, drop_app_length. by rewrite take_app_length.
Qed.

(** The end of a unit, from the next start code or the end of the data. *)
Definition unit_end (data : bytes) (nal_start next : Z) : Z :=
  let nal_end := if 0 <=? next then next else zlen data in
  if nal_start <? nal_end then trim_zeros (Z.to_nat (nal_end - nal_start)) data nal_start else nal_end.

Lemma unit_end_ok q nal l next : nal_ok nal -> next = zlen q + zlen nal \/ l = [] /\ next = -1 ->
  unit_end (q ++ nal ++ annexb l) (zlen q) next = zlen q + zlen nal.
Proof.
  intros Hn Hnext. destruct (unit_bytes q nal (annexb l) Hn) as [Et _]. pose proof (zlen_nonneg q). pose proof (nal_nonempty nal Hn).
  unfold unit_end. assert ((if 0 <=? next then next else zlen (q ++ nal ++ annexb l)) = zlen q + zlen nal) as ->.
  { destruct Hnext as [->|[-> ->]]; [by rewrite (proj2 (Z.leb_le 0 _)) by lia|]. cbn [annexb Z.leb Z.compare]. rewrite app_nil_r, zlen_app. lia. }
  by rewrite (proj2 (Z.ltb_lt (zlen q) _)), Et by lia.
Qed.
