(* ===== verification/RtpPay.v ===== *)
(** * RTP payloader: [src/rtp_payloader.c]

    One access unit comes in on the sink pad; RTP packets go out on the source pad.
    The state record is [rtp_payloader_t]; every function of the file that touches
    it is a definition here, written against any downstream ([PadSink]) and any
    memory ([CMemory]).  Loops carry fuel and return [None] when it runs out: the
    theorems show how much fuel is enough, and for which MTU no fuel is. *)

From Stdlib Require Import String.
From S2P Require Import Prelude CLib Pad MediaUtils.

Local Open Scope Z_scope.

Definition RTP_PAYLOADER_DEFAULT_PT : Z := 96.
Definition RTP_PAYLOADER_DEFAULT_SSRC : Z := 1398035024.
Definition RTP_PAYLOADER_DEFAULT_SEQ : Z := 28672.
Definition RTP_PAYLOADER_DEFAULT_MTU : Z := 1200.
Definition RTP_PAYLOADER_DEFAULT_RATE_VIDEO : Z := 90000.
Definition RTP_PAYLOADER_DEFAULT_RATE_AUDIO : Z := 48000.
Definition RTP_PAYLOADER_MAX_PAYLOAD : Z := 65507.

Inductive rtp_payloader_codec_t :=
| RTP_PAYLOADER_CODEC_H264
| RTP_PAYLOADER_CODEC_H265
| RTP_PAYLOADER_CODEC_AAC
| RTP_PAYLOADER_CODEC_PCM.

Record rtp_payloader_t := mk_pay {
  pay_codec : rtp_payloader_codec_t;
  pay_payload_type : Z;
  pay_ssrc : Z;
  pay_seq : Z;
  pay_clock_rate : Z;
  pay_mtu : Z;
  pay_channels : Z;
  pay_sample_size : Z;
  pay_packets : Z;
  pay_bytes : Z;
  pay_ext_seq_num : Z;
  pay_st2110_mode : bool;
  pay_ext_seq : bool;
  pay_strict_mtu : bool;
  pay_pool : bool;  (* [pool != NULL] *)
}.

Definition rtp_payloader_codec_to_string (codec : rtp_payloader_codec_t) : string :=
  match codec with
  | RTP_PAYLOADER_CODEC_H264 => "h264"%string
  | RTP_PAYLOADER_CODEC_H265 => "h265"%string
  | RTP_PAYLOADER_CODEC_AAC => "aac"%string
  | RTP_PAYLOADER_CODEC_PCM => "pcm"%string
  end.

Definition rtp_payloader_parse_codec (value : string) : option rtp_payloader_codec_t :=
  if strcaseeq value "h264" || strcaseeq value "avc" then Some RTP_PAYLOADER_CODEC_H264
  else if strcaseeq value "h265" || strcaseeq value "hevc" || strcaseeq value "hvc1" then
    Some RTP_PAYLOADER_CODEC_H265
  else if strcaseeq value "aac" || strcaseeq value "mpeg4-generic" then
    Some RTP_PAYLOADER_CODEC_AAC
  else if strcaseeq value "pcm" || strcaseeq value "l16" || strcaseeq value "raw-audio" then
    Some RTP_PAYLOADER_CODEC_PCM
  else None.

Definition rtp_payloader_pts_to_rtp_ts (pts_ns clock_rate : Z) : Z :=
  u32 (u64 (pts_ns * clock_rate) / 1000000000).

(** The 12 header bytes [make_packet] stores. *)
Definition rtp_header (s : rtp_payloader_t) (rtp_ts : Z) (marker : bool) : bytes :=
  [128;
   u8 (Z.lor (if marker then 128 else 0) (Z.land (pay_payload_type s) 127));
   u8 (Z.shiftr (pay_seq s) 8); u8 (Z.land (pay_seq s) 255);
   u8 (Z.shiftr rtp_ts 24); u8 (Z.shiftr rtp_ts 16); u8 (Z.shiftr rtp_ts 8); u8 rtp_ts;
   u8 (Z.shiftr (pay_ssrc s) 24); u8 (Z.shiftr (pay_ssrc s) 16);
   u8 (Z.shiftr (pay_ssrc s) 8); u8 (pay_ssrc s)].

(** The counters after a packet of [packet_len] bytes. *)
Definition pay_count (s : rtp_payloader_t) (packet_len : Z) : rtp_payloader_t :=
  let seq := u16 (pay_seq s + 1) in
  let ext := if seq =? 0 then u32 (pay_ext_seq_num s + 65536) else pay_ext_seq_num s in
  mk_pay (pay_codec s) (pay_payload_type s) (pay_ssrc s) seq (pay_clock_rate s) (pay_mtu s)
    (pay_channels s) (pay_sample_size s) (u64 (pay_packets s + 1))
    (u64 (pay_bytes s + packet_len)) ext (pay_st2110_mode s) (pay_ext_seq s)
    (pay_strict_mtu s) (pay_pool s).

Section payloader.
Context {D : Type} `{PadSink D} `{CMemory}.
Implicit Type d : option D.

(** [header] and [payload] are the bytes from the pointers on; [payload_len] bytes
    of the payload are copied.  The buffer comes from the pool or else from
    [malloc]; its media view is the same either way. *)
Definition rtp_payloader_make_packet (s : rtp_payloader_t) (header payload : bytes)
    (payload_len rtp_ts : Z) (marker : bool) (pts_ns : Z)
    : option (zst_buffer * rtp_payloader_t) :=
  let header_len := zlen header in
  if (payload_len <? 0) || (header_len <? 0)
     || (RTP_PAYLOADER_MAX_PAYLOAD <? payload_len + header_len) then None
  else
    let packet_len := payload_len + header_len + 12 in
    if pay_strict_mtu s && (u64 (pay_mtu s) <? packet_len) then None
    else if (pay_pool s && pool_ok packet_len) || malloc_ok packet_len then
      let pkt := rtp_header s rtp_ts marker ++ header ++ sub_bytes 0 payload_len payload in
      Some (mk_buffer ZST_BUFFER_USER 0 pts_ns pts_ns 0 (Some pkt) packet_len,
            pay_count s packet_len)
    else None.

Definition rtp_payloader_push_packet (s : rtp_payloader_t) d (header payload : bytes)
    (payload_len rtp_ts : Z) (marker : bool) (pts_ns : Z)
    : zst_result_t * rtp_payloader_t * option D :=
  match rtp_payloader_make_packet s header payload payload_len rtp_ts marker pts_ns with
  | None => (ZST_ERROR, s, d)
  | Some (out, s) => let '(ret, d) := push_peer d out in (ret, s, d)
  end.

(** The FU-A loop: [off] is the offset of the next fragment. *)
Fixpoint send_h264_loop (fuel : nat) (s : rtp_payloader_t) d (nal : bytes)
    (nal_len max_payload fu_ind nal_type off : Z) (first : bool) (ret : zst_result_t)
    (ts : Z) (marker : bool) (pts_ns : Z) : option (zst_result_t * rtp_payloader_t * option D) :=
  match fuel with
  | O => None
  | S fuel =>
      if off <? nal_len then
        let chunk := nal_len - off in
        let chunk := if max_payload - 2 <? chunk then max_payload - 2 else chunk in
        let fu1 := nal_type in
        let fu1 := if first then Z.lor fu1 128 else fu1 in
        let fu1 := if nal_len <=? off + chunk then Z.lor fu1 64 else fu1 in
        let '(one, s, d) := rtp_payloader_push_packet s d [fu_ind; fu1]
              (drop (Z.to_nat off) nal) chunk ts (marker && (nal_len <=? off + chunk)) pts_ns in
        let ret := if one =? ZST_OK then ret else one in
        send_h264_loop fuel s d nal nal_len max_payload fu_ind nal_type (off + chunk) false ret
          ts marker pts_ns
      else Some (ret, s, d)
  end.

Definition rtp_payloader_send_h264_nal (fuel : nat) (s : rtp_payloader_t) d (nal : bytes)
    (nal_len ts : Z) (marker : bool) (pts_ns : Z)
    : option (zst_result_t * rtp_payloader_t * option D) :=
  if nal_len <=? 0 then Some (ZST_ERROR, s, d)
  else
    let max_payload := pay_mtu s - 12 in
    if max_payload <? 1 then Some (ZST_ERROR, s, d)
    else if nal_len <=? max_payload then
      Some (rtp_payloader_push_packet s d [] nal nal_len ts marker pts_ns)
    else
      let fu_ind := u8 (Z.lor (Z.land (rd nal 0) 224) 28) in
      let nal_type := Z.land (rd nal 0) 31 in
      send_h264_loop fuel s d nal nal_len max_payload fu_ind nal_type 1 true ZST_OK ts marker pts_ns.

(** [while (nal_end > nal_start && data[nal_end - 1] == 0) nal_end--], in at most
    [nal_end - nal_start] rounds. *)
Fixpoint strip_zeros (n : nat) (data : bytes) (nal_start nal_end : Z) : Z :=
  match n with
  | O => nal_end
  | S n =>
      if (nal_start <? nal_end) && (rd data (nal_end - 1) =? 0)
      then strip_zeros n data nal_start (nal_end - 1) else nal_end
  end.

Fixpoint packetize_h264_loop (fuel : nat) (s : rtp_payloader_t) d (data : bytes)
    (size pos code ts pts_ns : Z) (ret : zst_result_t)
    : option (zst_result_t * rtp_payloader_t * option D) :=
  match fuel with
  | O => None
  | S fuel' =>
      if (0 <=? pos) && (pos <? size) then
        let nal_start := pos + code in
        let '(next, next_code) := zst_find_start_code data size nal_start in
        let nal_end := if 0 <=? next then next else size in
        let nal_end := strip_zeros (Z.to_nat (nal_end - nal_start)) data nal_start nal_end in
        let nal_len := nal_end - nal_start in
        let is_last := next <? 0 in
        match
          (if 0 <? nal_len then
             match rtp_payloader_send_h264_nal fuel s d (drop (Z.to_nat nal_start) data)
                     nal_len ts is_last pts_ns with
             | Some (one, s, d) => Some (if one =? ZST_OK then ret else one, s, d)
             | None => None
             end
           else Some (ret, s, d))
        with
        | None => None
        | Some (ret, s, d) =>
            if next <? 0 then Some (ret, s, d)
            else packetize_h264_loop fuel' s d data size next next_code ts pts_ns ret
        end
      else Some (ret, s, d)
  end.

Definition rtp_payloader_packetize_h264 (fuel : nat) (s : rtp_payloader_t) d (data : bytes)
    (size pts_ns : Z) : option (zst_result_t * rtp_payloader_t * option D) :=
  if size <=? 0 then Some (ZST_ERROR, s, d)
  else
    let ts := rtp_payloader_pts_to_rtp_ts pts_ns 90000 in
    let '(pos, code) := zst_find_start_code data size 0 in
    if pos <? 0 then rtp_payloader_send_h264_nal fuel s d data size ts true pts_ns
    else packetize_h264_loop fuel s d data size pos code ts pts_ns ZST_OK.

Fixpoint send_h265_loop (fuel : nat) (s : rtp_payloader_t) d (nal : bytes)
    (nal_len max_payload fu_hdr0 fu_hdr1 nal_type off : Z) (first : bool) (ret : zst_result_t)
    (ts : Z) (marker : bool) (pts_ns : Z) : option (zst_result_t * rtp_payloader_t * option D) :=
  match fuel with
  | O => None
  | S fuel =>
      if off <? nal_len then
        let chunk := nal_len - off in
        let chunk := if max_payload - 3 <? chunk then max_payload - 3 else chunk in
        let fu2 := nal_type in
        let fu2 := if first then Z.lor fu2 128 else fu2 in
        let fu2 := if nal_len <=? off + chunk then Z.lor fu2 64 else fu2 in
        let '(one, s, d) := rtp_payloader_push_packet s d [fu_hdr0; fu_hdr1; fu2]
              (drop (Z.to_nat off) nal) chunk ts (marker && (nal_len <=? off + chunk)) pts_ns in
        let ret := if one =? ZST_OK then ret else one in
        send_h265_loop fuel s d nal nal_len max_payload fu_hdr0 fu_hdr1 nal_type (off + chunk)
          false ret ts marker pts_ns
      else Some (ret, s, d)
  end.

Definition rtp_payloader_send_h265_nal (fuel : nat) (s : rtp_payloader_t) d (nal : bytes)
    (nal_len ts : Z) (marker : bool) (pts_ns : Z)
    : option (zst_result_t * rtp_payloader_t * option D) :=
  if nal_len <? 2 then Some (ZST_ERROR, s, d)
  else
    let max_payload := pay_mtu s - 12 in
    if max_payload <? 1 then Some (ZST_ERROR, s, d)
    else if nal_len <=? max_payload then
      Some (rtp_payloader_push_packet s d [] nal nal_len ts marker pts_ns)
    else
      let nal_type := Z.land (Z.shiftr (rd nal 0) 1) 63 in
      let fu_hdr0 := u8 (Z.lor (Z.land (rd nal 0) 129) (Z.shiftl 49 1)) in
      let fu_hdr1 := rd nal 1 in
      send_h265_loop fuel s d nal nal_len max_payload fu_hdr0 fu_hdr1 nal_type 2 true ZST_OK
        ts marker pts_ns.

Fixpoint packetize_h265_loop (fuel : nat) (s : rtp_payloader_t) d (data : bytes)
    (size pos code ts pts_ns : Z) (ret : zst_result_t)
    : option (zst_result_t * rtp_payloader_t * option D) :=
  match fuel with
  | O => None
  | S fuel' =>
      if (0 <=? pos) && (pos <? size) then
        let nal_start := pos + code in
        let '(next, next_code) := zst_find_start_code data size nal_start in
        let nal_end := if 0 <=? next then next else size in
        let nal_end := strip_zeros (Z.to_nat (nal_end - nal_start)) data nal_start nal_end in
        let nal_len := nal_end - nal_start in
        let is_last := next <? 0 in
        match
          (if 0 <? nal_len then
             match rtp_payloader_send_h265_nal fuel s d (drop (Z.to_nat nal_start) data)
                     nal_len ts is_last pts_ns with
             | Some (one, s, d) => Some (if one =? ZST_OK then ret else one, s, d)
             | None => None
             end
           else Some (ret, s, d))
        with
        | None => None
        | Some (ret, s, d) =>
            if next <? 0 then Some (ret, s, d)
            else packetize_h265_loop fuel' s d data size next next_code ts pts_ns ret
        end
      else Some (ret, s, d)
  end.

Definition rtp_payloader_packetize_h265 (fuel : nat) (s : rtp_payloader_t) d (data : bytes)
    (size pts_ns : Z) : option (zst_result_t * rtp_payloader_t * option D) :=
  if size <=? 0 then Some (ZST_ERROR, s, d)
  else
    let ts := rtp_payloader_pts_to_rtp_ts pts_ns 90000 in
    let '(pos, code) := zst_find_start_code data size 0 in
    if pos <? 0 then rtp_payloader_send_h265_nal fuel s d data size ts true pts_ns
    else packetize_h265_loop fuel s d data size pos code ts pts_ns ZST_OK.

Definition rtp_payloader_packetize_aac (s : rtp_payloader_t) d (data : bytes) (size pts_ns : Z)
    : zst_result_t * rtp_payloader_t * option D :=
  if (size <=? 0) || (8191 <? size) then (ZST_ERROR, s, d)
  else if pay_mtu s <? size + 4 then (ZST_ERROR, s, d)
  else
    let au_header := u16 (Z.shiftl size 3) in
    let au := [0; 16; u8 (Z.shiftr au_header 8); u8 (Z.land au_header 255)] in
    let ts := rtp_payloader_pts_to_rtp_ts pts_ns (pay_clock_rate s) in
    rtp_payloader_push_packet s d au data size ts true pts_ns.

Fixpoint packetize_pcm_loop (fuel : nat) (s : rtp_payloader_t) d (data : bytes)
    (size bpsf base_ts off pts_ns : Z) (ret : zst_result_t)
    : option (zst_result_t * rtp_payloader_t * option D) :=
  match fuel with
  | O => None
  | S fuel =>
      if off <? size then
        let chunk := size - off in
        let chunk := if pay_mtu s <? chunk then pay_mtu s else chunk in
        let sample_offset := u32 (off / bpsf) in
        let '(one, s, d) := rtp_payloader_push_packet s d [] (drop (Z.to_nat off) data) chunk
              (u32 (base_ts + sample_offset)) (size <=? off + chunk) pts_ns in
        let ret := if one =? ZST_OK then ret else one in
        packetize_pcm_loop fuel s d data size bpsf base_ts (off + chunk) pts_ns ret
      else Some (ret, s, d)
  end.

Definition rtp_payloader_packetize_pcm (fuel : nat) (s : rtp_payloader_t) d (data : bytes)
    (size pts_ns : Z) : option (zst_result_t * rtp_payloader_t * option D) :=
  if size <=? 0 then Some (ZST_ERROR, s, d)
  else
    let bpsf := s32 (pay_channels s * pay_sample_size s) in
    let bpsf := if bpsf <=? 0 then 1 else bpsf in
    let base_ts := rtp_payloader_pts_to_rtp_ts pts_ns (pay_clock_rate s) in
    packetize_pcm_loop fuel s d data size bpsf base_ts 0 pts_ns ZST_OK.

(** The sink pad's push handler.  [None] for [s] or [buf] is a NULL pointer. *)
Definition rtp_payloader_pad_push (fuel : nat) (s : option rtp_payloader_t) d
    (buf : option zst_buffer) : option (zst_result_t * option rtp_payloader_t * option D) :=
  match s, buf with
  | Some s, Some buf =>
      match mem_data buf with
      | Some data =>
          if has_flag (buf_flags buf) ZST_BUFFER_FLAG_EOS || (mem_size buf =? 0)
          then Some (ZST_OK, Some s, d)
          else if INT32_MAX <? mem_size buf then Some (ZST_ERROR, Some s, d)
          else
            let size := mem_size buf in
            let lift r :=
              match r with Some (ret, s, d) => Some (ret, Some s, d) | None => None end in
            match pay_codec s with
            | RTP_PAYLOADER_CODEC_H264 =>
                lift (rtp_payloader_packetize_h264 fuel s d data size (buf_pts buf))
            | RTP_PAYLOADER_CODEC_H265 =>
                lift (rtp_payloader_packetize_h265 fuel s d data size (buf_pts buf))
            | RTP_PAYLOADER_CODEC_AAC =>
                lift (Some (rtp_payloader_packetize_aac s d data size (buf_pts buf)))
            | RTP_PAYLOADER_CODEC_PCM =>
                lift (rtp_payloader_packetize_pcm fuel s d data size (buf_pts buf))
            end
      | None => Some (ZST_OK, Some s, d)
      end
  | s, _ => Some (ZST_ERROR, s, d)
  end.

Definition rtp_payloader_open (s : option rtp_payloader_t) : zst_result_t * option rtp_payloader_t :=
  match s with
  | None => (ZST_ERROR, None)
  | Some s =>
      let pool := if pay_pool s then true else pool_create_ok in
      (ZST_OK, Some (mk_pay (pay_codec s) (pay_payload_type s) (pay_ssrc s)
         RTP_PAYLOADER_DEFAULT_SEQ (pay_clock_rate s) (pay_mtu s) (pay_channels s)
         (pay_sample_size s) 0 0 (pay_ext_seq_num s) (pay_st2110_mode s) (pay_ext_seq s)
         (pay_strict_mtu s) pool))
  end.

Definition rtp_payloader_close (s : option rtp_payloader_t) : zst_result_t * option rtp_payloader_t :=
  match s with
  | None => (ZST_ERROR, None)
  | Some s =>
      (ZST_OK, Some (mk_pay (pay_codec s) (pay_payload_type s) (pay_ssrc s) (pay_seq s)
         (pay_clock_rate s) (pay_mtu s) (pay_channels s) (pay_sample_size s) (pay_packets s)
         (pay_bytes s) (pay_ext_seq_num s) (pay_st2110_mode s) (pay_ext_seq s)
         (pay_strict_mtu s) false))
  end.

End payloader.

(** ** Creation and properties *)

(** The private state [zst_rtp_payloader_create] installs. *)
Definition zst_rtp_payloader_create : rtp_payloader_t :=
  mk_pay RTP_PAYLOADER_CODEC_H264 RTP_PAYLOADER_DEFAULT_PT RTP_PAYLOADER_DEFAULT_SSRC
    RTP_PAYLOADER_DEFAULT_SEQ RTP_PAYLOADER_DEFAULT_RATE_VIDEO RTP_PAYLOADER_DEFAULT_MTU
    2 2 0 0 0 false true true false.

(** Field updates *)
Definition pay_set_codec (s : rtp_payloader_t) codec rate :=
  mk_pay codec (pay_payload_type s) (pay_ssrc s) (pay_seq s) rate (pay_mtu s) (pay_channels s)
    (pay_sample_size s) (pay_packets s) (pay_bytes s) (pay_ext_seq_num s) (pay_st2110_mode s)
    (pay_ext_seq s) (pay_strict_mtu s) (pay_pool s).
Definition pay_set_nums (s : rtp_payloader_t) pt ssrc seq rate mtu channels sample_size :=
  mk_pay (pay_codec s) pt ssrc seq rate mtu channels sample_size (pay_packets s) (pay_bytes s)
    (pay_ext_seq_num s) (pay_st2110_mode s) (pay_ext_seq s) (pay_strict_mtu s) (pay_pool s).
Definition pay_set_modes (s : rtp_payloader_t) st2110 ext strict :=
  mk_pay (pay_codec s) (pay_payload_type s) (pay_ssrc s) (pay_seq s) (pay_clock_rate s)
    (pay_mtu s) (pay_channels s) (pay_sample_size s) (pay_packets s) (pay_bytes s)
    (pay_ext_seq_num s) st2110 ext strict (pay_pool s).

Definition parse_onoff (value : string) : bool :=
  strcaseeq value "on" || strcaseeq value "true" || streq value "1".

Definition rtp_payloader_set_property (s : option rtp_payloader_t) (name value : option string)
    : zst_result_t * option rtp_payloader_t :=
  match s, name, value with
  | Some s, Some name, Some value =>
      let err := (ZST_ERROR, Some s) in
      if name_in name ["codec"; "media"; "encoding"]%string then
        match rtp_payloader_parse_codec value with
        | None => err
        | Some codec =>
            let rate :=
              match codec with
              | RTP_PAYLOADER_CODEC_H264 | RTP_PAYLOADER_CODEC_H265 =>
                  RTP_PAYLOADER_DEFAULT_RATE_VIDEO
              | _ =>
                  if pay_clock_rate s =? RTP_PAYLOADER_DEFAULT_RATE_VIDEO
                  then RTP_PAYLOADER_DEFAULT_RATE_AUDIO else pay_clock_rate s
              end in
            (ZST_OK, Some (pay_set_codec s codec rate))
        end
      else if name_in name ["payload-type"; "pt"; "video-payload-type"; "audio-payload-type"]%string then
        let pt := atoi value in
        if (pt <? 0) || (127 <? pt) then err
        else (ZST_OK, Some (pay_set_nums s (u8 pt) (pay_ssrc s) (pay_seq s) (pay_clock_rate s)
                              (pay_mtu s) (pay_channels s) (pay_sample_size s)))
      else if name_in name ["ssrc"; "video-ssrc"; "audio-ssrc"]%string then
        (ZST_OK, Some (pay_set_nums s (pay_payload_type s) (u32 (strtoul0 value)) (pay_seq s)
                         (pay_clock_rate s) (pay_mtu s) (pay_channels s) (pay_sample_size s)))
      else if name_in name ["clock-rate"; "sample-rate"; "audio-clock-rate"]%string then
        let rate := atoi value in
        if rate <=? 0 then err
        else (ZST_OK, Some (pay_set_nums s (pay_payload_type s) (pay_ssrc s) (pay_seq s) (u32 rate)
                              (pay_mtu s) (pay_channels s) (pay_sample_size s)))
      else if name_in name ["mtu"]%string then
        let mtu := atoi value in
        if (mtu <? 4) || (RTP_PAYLOADER_MAX_PAYLOAD <? mtu) then err
        else (ZST_OK, Some (pay_set_nums s (pay_payload_type s) (pay_ssrc s) (pay_seq s)
                              (pay_clock_rate s) mtu (pay_channels s) (pay_sample_size s)))
      else if name_in name ["channels"]%string then
        let channels := atoi value in
        if channels <=? 0 then err
        else (ZST_OK, Some (pay_set_nums s (pay_payload_type s) (pay_ssrc s) (pay_seq s)
                              (pay_clock_rate s) (pay_mtu s) channels (pay_sample_size s)))
      else if name_in name ["sample-size"; "bytes-per-sample"]%string then
        let sample_size := atoi value in
        if sample_size <=? 0 then err
        else (ZST_OK, Some (pay_set_nums s (pay_payload_type s) (pay_ssrc s) (pay_seq s)
                              (pay_clock_rate s) (pay_mtu s) (pay_channels s) sample_size))
      else if name_in name ["seq"; "sequence"; "sequence-number"]%string then
        (ZST_OK, Some (pay_set_nums s (pay_payload_type s) (pay_ssrc s)
                         (u16 (Z.land (strtoul0 value) 65535)) (pay_clock_rate s) (pay_mtu s)
                         (pay_channels s) (pay_sample_size s)))
      else if name_in name ["st2110-mode"]%string then
        (ZST_OK, Some (pay_set_modes s (parse_onoff value) (pay_ext_seq s) (pay_strict_mtu s)))
      else if name_in name ["ext-seq"]%string then
        (ZST_OK, Some (pay_set_modes s (pay_st2110_mode s) (parse_onoff value) (pay_strict_mtu s)))
      else if name_in name ["strict-mtu"]%string then
        (ZST_OK, Some (pay_set_modes s (pay_st2110_mode s) (pay_ext_seq s) (parse_onoff value)))
      else err
  | s, _, _ => (ZST_ERROR, s)
  end.

(** The text left in [value_out], or [None] when the result is [ZST_ERROR]. *)
Definition rtp_payloader_get_property (s : option rtp_payloader_t) (name : option string)
    (max_len : Z) : option string :=
  match s, name with
  | Some s, Some name =>
      if max_len =? 0 then None
      else
        let out text := Some (snprintf max_len text) in
        if name_in name ["codec"; "media"; "encoding"]%string then
          out (rtp_payloader_codec_to_string (pay_codec s))
        else if name_in name ["payload-type"; "pt"; "video-payload-type"; "audio-payload-type"]%string then
          out (show_Z (pay_payload_type s))
        else if name_in name ["ssrc"; "video-ssrc"; "audio-ssrc"]%string then out (show_Z (pay_ssrc s))
        else if name_in name ["clock-rate"; "sample-rate"; "audio-clock-rate"]%string then
          out (show_Z (pay_clock_rate s))
        else if name_in name ["mtu"]%string then out (show_Z (pay_mtu s))
        else if name_in name ["channels"]%string then out (show_Z (pay_channels s))
        else if name_in name ["sample-size"; "bytes-per-sample"]%string then
          out (show_Z (pay_sample_size s))
        else if name_in name ["seq"; "sequence"; "sequence-number"]%string then out (show_Z (pay_seq s))
        else if name_in name ["packets"; "total-packets"]%string then out (show_Z (pay_packets s))
        else if name_in name ["bytes"; "total-bytes"]%string then out (show_Z (pay_bytes s))
        else if name_in name ["st2110-mode"]%string then
          out (if pay_st2110_mode s then "on" else "off")%string
        else if name_in name ["ext-seq"]%string then
          out (if pay_ext_seq s then "true" else "false")%string
        else if name_in name ["strict-mtu"]%string then
          out (if pay_strict_mtu s then "true" else "false")%string
        else None
  | _, _ => None
  end.
