(* ===== verification/RtpDepay.v ===== *)
(** * RTP depayloader: [src/rtp_depayloader.c]

    RTP packets come in on the sink pad; access units go out on the source pad.
    The access unit under assembly is [au_data]: the block's first [au_len] bytes
    ([None] is the NULL pointer), with its capacity beside it. *)

From Stdlib Require Import String.
From S2P Require Import Prelude CLib Pad.

Local Open Scope Z_scope.

Definition RTP_DEPAYLOADER_DEFAULT_PT : Z := 96.
Definition RTP_DEPAYLOADER_DEFAULT_RATE_VIDEO : Z := 90000.
Definition RTP_DEPAYLOADER_DEFAULT_RATE_AUDIO : Z := 48000.
Definition RTP_DEPAYLOADER_MAX_PACKET : Z := 65535.

Inductive rtp_depayloader_codec_t :=
| RTP_DEPAYLOADER_CODEC_H264
| RTP_DEPAYLOADER_CODEC_H265
| RTP_DEPAYLOADER_CODEC_AAC
| RTP_DEPAYLOADER_CODEC_PCM.

#[export] Instance rtp_depayloader_codec_eq_dec : EqDecision rtp_depayloader_codec_t.
Proof. solve_decision. Defined.

(** The access unit being assembled. *)
Record au_t := mk_au {
  au_data : option bytes;
  au_len : Z;
  au_cap : Z;
  au_ts : Z;
  au_pts : Z;
  au_active : bool;
}.

(** The counters. *)
Record dep_stats := mk_stats {
  st_packets : Z;
  st_bytes : Z;
  st_out_buffers : Z;
  st_out_bytes : Z;
  st_in_packets : Z;
  st_parse_errors : Z;
  st_dropped_packets : Z;
}.

Record rtp_depayloader_t := mk_dep {
  dep_codec : rtp_depayloader_codec_t;
  dep_payload_type : Z;
  dep_clock_rate : Z;
  dep_channels : Z;
  dep_sample_size : Z;
  dep_expected_ssrc : Z;
  dep_filter_ssrc : bool;
  dep_have_seq : bool;
  dep_next_seq : Z;
  dep_au : au_t;
  dep_h264_discontinuity_pending : bool;
  dep_stats_of : dep_stats;
}.

Record rtp_packet_view_t := mk_view {
  view_payload : bytes;
  view_payload_len : Z;
  view_payload_type : Z;
  view_marker : bool;
  view_seq : Z;
  view_timestamp : Z;
  view_ssrc : Z;
}.

Definition rtp_depayloader_codec_to_string (codec : rtp_depayloader_codec_t) : string :=
  match codec with
  | RTP_DEPAYLOADER_CODEC_H264 => "h264"%string
  | RTP_DEPAYLOADER_CODEC_H265 => "h265"%string
  | RTP_DEPAYLOADER_CODEC_AAC => "aac"%string
  | RTP_DEPAYLOADER_CODEC_PCM => "pcm"%string
  end.

Definition rtp_depayloader_parse_codec (value : string) : option rtp_depayloader_codec_t :=
  if strcaseeq value "h264" || strcaseeq value "avc" then Some RTP_DEPAYLOADER_CODEC_H264
  else if strcaseeq value "h265" || strcaseeq value "hevc" || strcaseeq value "hvc1" then
    Some RTP_DEPAYLOADER_CODEC_H265
  else if strcaseeq value "aac" || strcaseeq value "mpeg4-generic" then
    Some RTP_DEPAYLOADER_CODEC_AAC
  else if strcaseeq value "pcm" || strcaseeq value "l16" || strcaseeq value "raw-audio" then
    Some RTP_DEPAYLOADER_CODEC_PCM
  else None.

Definition rtp_depayloader_ts_to_pts (ts clock_rate : Z) : Z :=
  if clock_rate =? 0 then 0 else u64 (ts * 1000000000) / clock_rate.

(** ** Field updates *)

Definition with_au (s : rtp_depayloader_t) (au : au_t) : rtp_depayloader_t :=
  mk_dep (dep_codec s) (dep_payload_type s) (dep_clock_rate s) (dep_channels s)
    (dep_sample_size s) (dep_expected_ssrc s) (dep_filter_ssrc s) (dep_have_seq s)
    (dep_next_seq s) au (dep_h264_discontinuity_pending s) (dep_stats_of s).
Definition with_stats (s : rtp_depayloader_t) (st : dep_stats) : rtp_depayloader_t :=
  mk_dep (dep_codec s) (dep_payload_type s) (dep_clock_rate s) (dep_channels s)
    (dep_sample_size s) (dep_expected_ssrc s) (dep_filter_ssrc s) (dep_have_seq s)
    (dep_next_seq s) (dep_au s) (dep_h264_discontinuity_pending s) st.
Definition with_seq (s : rtp_depayloader_t) (have : bool) (next : Z) : rtp_depayloader_t :=
  mk_dep (dep_codec s) (dep_payload_type s) (dep_clock_rate s) (dep_channels s)
    (dep_sample_size s) (dep_expected_ssrc s) (dep_filter_ssrc s) have
    next (dep_au s) (dep_h264_discontinuity_pending s) (dep_stats_of s).
Definition with_discontinuity (s : rtp_depayloader_t) (b : bool) : rtp_depayloader_t :=
  mk_dep (dep_codec s) (dep_payload_type s) (dep_clock_rate s) (dep_channels s)
    (dep_sample_size s) (dep_expected_ssrc s) (dep_filter_ssrc s) (dep_have_seq s)
    (dep_next_seq s) (dep_au s) b (dep_stats_of s).
Definition with_config (s : rtp_depayloader_t) codec pt rate channels sample_size ssrc filter
    : rtp_depayloader_t :=
  mk_dep codec pt rate channels sample_size ssrc filter (dep_have_seq s)
    (dep_next_seq s) (dep_au s) (dep_h264_discontinuity_pending s) (dep_stats_of s).

Definition add_dropped (st : dep_stats) : dep_stats :=
  mk_stats (st_packets st) (st_bytes st) (st_out_buffers st) (st_out_bytes st) (st_in_packets st)
    (st_parse_errors st) (u64 (st_dropped_packets st + 1)).
Definition add_out (st : dep_stats) (len : Z) : dep_stats :=
  mk_stats (st_packets st) (st_bytes st) (u64 (st_out_buffers st + 1))
    (u64 (st_out_bytes st + len)) (st_in_packets st) (st_parse_errors st) (st_dropped_packets st).
Definition add_in (st : dep_stats) : dep_stats :=
  mk_stats (st_packets st) (st_bytes st) (st_out_buffers st) (st_out_bytes st)
    (u64 (st_in_packets st + 1)) (st_parse_errors st) (st_dropped_packets st).
Definition add_parse_error (st : dep_stats) : dep_stats :=
  mk_stats (st_packets st) (st_bytes st) (st_out_buffers st) (st_out_bytes st) (st_in_packets st)
    (u64 (st_parse_errors st + 1)) (st_dropped_packets st).
Definition add_packet (st : dep_stats) (size : Z) : dep_stats :=
  mk_stats (u64 (st_packets st + 1)) (u64 (st_bytes st + size)) (st_out_buffers st)
    (st_out_bytes st) (st_in_packets st) (st_parse_errors st) (st_dropped_packets st).

Definition drop_packet (s : rtp_depayloader_t) : rtp_depayloader_t :=
  with_stats s (add_dropped (dep_stats_of s)).

(** ** The access unit buffer *)

Definition no_au : au_t := mk_au None 0 0 0 0 false.

Definition rtp_depayloader_reset_au (s : rtp_depayloader_t) : rtp_depayloader_t := with_au s no_au.

Definition rtp_depayloader_begin_au (s : rtp_depayloader_t) (ts : Z) : rtp_depayloader_t :=
  if au_active (dep_au s) && (au_ts (dep_au s) =? ts) then s
  else
    let s := rtp_depayloader_reset_au s in
    with_au s (mk_au None 0 0 ts (rtp_depayloader_ts_to_pts ts (dep_clock_rate s)) true).

(** The capacity [reserve_au] asks [realloc] for. *)
Definition reserve_cap (need : Z) : Z :=
  if SIZE_MAX / 2 <? need then need
  else
    let cap := u64 (smear [1; 2; 4; 8; 16; 32] (need - 1) + 1) in
    if cap <? 256 then 256 else cap.

Section depayloader.
Context {D : Type} `{PadSink D} `{CMemory}.
Implicit Type d : option D.

Definition rtp_depayloader_reserve_au (s : rtp_depayloader_t) (extra : Z)
    : bool * rtp_depayloader_t :=
  let au := dep_au s in
  if SIZE_MAX - au_len au <? extra then (false, s)
  else
    let need := au_len au + extra in
    if need <=? au_cap au then (true, s)
    else
      let cap := reserve_cap need in
      if malloc_ok cap then
        let p := match au_data au with Some data => data | None => [] end in
        (true, with_au s (mk_au (Some p) (au_len au) cap (au_ts au) (au_pts au) (au_active au)))
      else (false, s).

Definition rtp_depayloader_append_au (s : rtp_depayloader_t) (data : bytes)
    : bool * rtp_depayloader_t :=
  let len := zlen data in
  if len =? 0 then (true, s)
  else
    let '(ok, s) := rtp_depayloader_reserve_au s len in
    if ok then
      let au := dep_au s in
      let old := match au_data au with Some p => p | None => [] end in
      (true, with_au s (mk_au (Some (sub_bytes 0 (au_len au) old ++ data)) (au_len au + len)
                          (au_cap au) (au_ts au) (au_pts au) (au_active au)))
    else (false, s).

Definition rtp_depayloader_append_start_code (s : rtp_depayloader_t) : bool * rtp_depayloader_t :=
  rtp_depayloader_append_au s [0; 0; 0; 1].

(** [!append_start_code(s) || !append_au(s, p, len)]: whether both succeeded. *)
Definition append_nal (s : rtp_depayloader_t) (p : bytes) : bool * rtp_depayloader_t :=
  let '(ok, s) := rtp_depayloader_append_start_code s in
  if ok then rtp_depayloader_append_au s p else (false, s).

Definition rtp_depayloader_output_type (s : rtp_depayloader_t) : Z :=
  match dep_codec s with
  | RTP_DEPAYLOADER_CODEC_H264 | RTP_DEPAYLOADER_CODEC_H265 => ZST_BUFFER_VIDEO_PACKET
  | RTP_DEPAYLOADER_CODEC_AAC | RTP_DEPAYLOADER_CODEC_PCM => ZST_BUFFER_AUDIO_PACKET
  end.

Definition rtp_depayloader_push_bytes (s : rtp_depayloader_t) d (data : option bytes)
    (len pts duration flags : Z) : zst_result_t * rtp_depayloader_t * option D :=
  match data with
  | None => (ZST_ERROR, s, d)
  | Some data =>
      if len =? 0 then (ZST_ERROR, s, d)
      else if malloc_ok SIZEOF_BUFFER then
        let out := mk_buffer (rtp_depayloader_output_type s) flags pts pts duration (Some data) len in
        let s := with_stats s (add_out (dep_stats_of s) len) in
        let '(ret, d) := push_peer d out in (ret, s, d)
      else (ZST_ERROR, s, d)
  end.

Definition rtp_depayloader_push_au (s : rtp_depayloader_t) d
    : zst_result_t * rtp_depayloader_t * option D :=
  let au := dep_au s in
  if negb (au_active au) || (match au_data au with None => true | Some _ => false end)
     || (au_len au =? 0)
  then (ZST_OK, rtp_depayloader_reset_au s, d)
  else
    let data := au_data au in
    let len := au_len au in
    let pts := au_pts au in
    let s := with_au s (mk_au None 0 0 (au_ts au) (au_pts au) false) in
    let '(flags, s) :=
      match dep_codec s with
      | RTP_DEPAYLOADER_CODEC_H264 =>
          if dep_h264_discontinuity_pending s
          then (ZST_BUFFER_FLAG_DROP, with_discontinuity s false) else (0, s)
      | _ => (0, s)
      end in
    rtp_depayloader_push_bytes s d data len pts 0 flags.

End depayloader.

(** ** Parsing an RTP packet *)

Definition rtp_depayloader_parse_rtp (buf : zst_buffer) : option rtp_packet_view_t :=
  match mem_data buf with
  | None => None
  | Some p =>
      let size := mem_size buf in
      if (size <? 12) || (RTP_DEPAYLOADER_MAX_PACKET <? size) then None
      else if negb (Z.land (rd p 0) 192 =? 128) then None
      else
        let cc := Z.land (rd p 0) 15 in
        let hlen := 12 + cc * 4 in
        if size <? hlen then None
        else
          let ext :=
            if negb (Z.land (rd p 0) 16 =? 0) then
              if size <? hlen + 4 then None
              else
                let ext_words := be16 (rd p (hlen + 2)) (rd p (hlen + 3)) in
                let hlen := hlen + (4 + ext_words * 4) in
                if size <? hlen then None else Some hlen
            else Some hlen in
          match ext with
          | None => None
          | Some hlen =>
              Some (mk_view (sub_bytes hlen (size - hlen) p) (size - hlen)
                      (Z.land (rd p 1) 127) (negb (Z.land (rd p 1) 128 =? 0))
                      (be16 (rd p 2) (rd p 3))
                      (be32 (rd p 4) (rd p 5) (rd p 6) (rd p 7))
                      (be32 (rd p 8) (rd p 9) (rd p 10) (rd p 11)))
          end
  end.

(** ** Codecs *)

Section depay.
Context {D : Type} `{PadSink D} `{CMemory}.
Implicit Type d : option D.

(** [return rtp->marker ? push_au(s) : ZST_OK] *)
Definition finish_packet (s : rtp_depayloader_t) d (rtp : rtp_packet_view_t)
    : zst_result_t * rtp_depayloader_t * option D :=
  if view_marker rtp then rtp_depayloader_push_au s d else (ZST_OK, s, d).

(** Append one NAL unit and finish; a failed append resets the access unit. *)
Definition depay_single (s : rtp_depayloader_t) d (rtp : rtp_packet_view_t)
    : zst_result_t * rtp_depayloader_t * option D :=
  let s := rtp_depayloader_begin_au s (view_timestamp rtp) in
  let '(ok, s) := append_nal s (view_payload rtp) in
  if ok then finish_packet s d rtp else (ZST_ERROR, rtp_depayloader_reset_au s, d).

(** The NAL units of an aggregation packet, from offset [off].  A round consumes at
    least 3 bytes, so [fuel = len] is enough. *)
Fixpoint aggregate_loop (fuel : nat) (s : rtp_depayloader_t) (p : bytes) (len off : Z)
    : bool * rtp_depayloader_t :=
  match fuel with
  | O => (true, s)
  | S fuel =>
      if off + 2 <=? len then
        let nal_len := be16 (rd p off) (rd p (off + 1)) in
        let off := off + 2 in
        if (nal_len =? 0) || (len <? off + nal_len) then (true, s)
        else
          let '(ok, s) := append_nal s (sub_bytes off nal_len p) in
          if ok then aggregate_loop fuel s p len (off + nal_len) else (false, s)
      else (true, s)
  end.

Definition depay_aggregate (s : rtp_depayloader_t) d (rtp : rtp_packet_view_t) (off : Z)
    : zst_result_t * rtp_depayloader_t * option D :=
  let s := rtp_depayloader_begin_au s (view_timestamp rtp) in
  let '(ok, s) := aggregate_loop (Z.to_nat (view_payload_len rtp)) s (view_payload rtp)
                    (view_payload_len rtp) off in
  if ok then finish_packet s d rtp else (ZST_ERROR, rtp_depayloader_reset_au s, d).

(** A fragment: the first one restores the NAL header, a later one must continue
    the access unit; the fragment's bytes follow at [off]. *)
Definition depay_fragment (s : rtp_depayloader_t) d (rtp : rtp_packet_view_t)
    (start : bool) (nal_header : bytes) (off : Z)
    : zst_result_t * rtp_depayloader_t * option D :=
  let rest := sub_bytes off (view_payload_len rtp - off) (view_payload rtp) in
  if start then
    let s := rtp_depayloader_begin_au s (view_timestamp rtp) in
    let '(ok, s) := append_nal s nal_header in
    if negb ok then (ZST_ERROR, rtp_depayloader_reset_au s, d)
    else
      let '(ok, s) := rtp_depayloader_append_au s rest in
      if ok then finish_packet s d rtp else (ZST_ERROR, rtp_depayloader_reset_au s, d)
  else if negb (au_active (dep_au s)) || negb (au_ts (dep_au s) =? view_timestamp rtp) then
    (ZST_OK, drop_packet s, d)
  else
    let '(ok, s) := rtp_depayloader_append_au s rest in
    if ok then finish_packet s d rtp else (ZST_ERROR, rtp_depayloader_reset_au s, d).

Definition rtp_depayloader_depay_h264 (s : rtp_depayloader_t) d (rtp : rtp_packet_view_t)
    : zst_result_t * rtp_depayloader_t * option D :=
  let p := view_payload rtp in
  let len := view_payload_len rtp in
  if len =? 0 then (ZST_ERROR, s, d)
  else
    let nal_type := Z.land (rd p 0) 31 in
    if (1 <=? nal_type) && (nal_type <=? 23) then depay_single s d rtp
    else if nal_type =? 24 then depay_aggregate s d rtp 1
    else if nal_type =? 28 then
      if len <? 2 then (ZST_ERROR, s, d)
      else
        let fu_header := rd p 1 in
        let start := negb (Z.land fu_header 128 =? 0) in
        let nal_header := u8 (Z.lor (Z.land (rd p 0) 224) (Z.land fu_header 31)) in
        depay_fragment s d rtp start [nal_header] 2
    else depay_single s d rtp.

Definition rtp_depayloader_depay_h265 (s : rtp_depayloader_t) d (rtp : rtp_packet_view_t)
    : zst_result_t * rtp_depayloader_t * option D :=
  let p := view_payload rtp in
  let len := view_payload_len rtp in
  if len <? 2 then (ZST_ERROR, s, d)
  else
    let nal_type := Z.land (Z.shiftr (rd p 0) 1) 63 in
    if negb (nal_type =? 48) && negb (nal_type =? 49) then depay_single s d rtp
    else if nal_type =? 48 then depay_aggregate s d rtp 2
    else if len <? 3 then (ZST_ERROR, s, d)
    else
      let fu_header := rd p 2 in
      let start := negb (Z.land fu_header 128 =? 0) in
      let orig_type := Z.land fu_header 63 in
      let nal_header := [u8 (Z.lor (Z.land (rd p 0) 129) (Z.shiftl orig_type 1)); rd p 1] in
      depay_fragment s d rtp start nal_header 3.

(** The access units of one AAC packet, from AU-header number [i]; [n] are left. *)
Fixpoint depay_aac_loop (n : nat) (i : Z) (s : rtp_depayloader_t) d (p : bytes)
    (len cursor base_pts : Z) (ret : zst_result_t)
    : zst_result_t * rtp_depayloader_t * option D :=
  match n with
  | O => (ret, s, d)
  | S n =>
      let h := 2 + i * 2 in
      let au_hdr := be16 (rd p h) (rd p (h + 1)) in
      let au_size := Z.shiftr au_hdr 3 in
      if (au_size =? 0) || (len <? cursor + au_size) then
        (if ret =? ZST_OK then ZST_ERROR else ret, drop_packet s, d)
      else if negb (malloc_ok au_size) then (ZST_ERROR, s, d)
      else
        let out := sub_bytes cursor au_size p in
        let pts := u64 (base_pts + u64 (i * 1024 * 1000000000) / dep_clock_rate s) in
        let duration := 1024 * 1000000000 / dep_clock_rate s in
        let '(one, s, d) := rtp_depayloader_push_bytes s d (Some out) au_size pts duration 0 in
        depay_aac_loop n (i + 1) s d p len (cursor + au_size) base_pts
          (if one =? ZST_OK then ret else one)
  end.

Definition rtp_depayloader_depay_aac (s : rtp_depayloader_t) d (rtp : rtp_packet_view_t)
    : zst_result_t * rtp_depayloader_t * option D :=
  let p := view_payload rtp in
  let len := view_payload_len rtp in
  if len <? 4 then (ZST_ERROR, s, d)
  else
    let au_bits := be16 (rd p 0) (rd p 1) in
    let au_header_bytes := (au_bits + 7) / 8 in
    if (au_bits =? 0) || negb (au_bits mod 16 =? 0) || (len <? 2 + au_header_bytes)
    then (ZST_ERROR, s, d)
    else
      let au_count := au_bits / 16 in
      let base_pts := rtp_depayloader_ts_to_pts (view_timestamp rtp) (dep_clock_rate s) in
      depay_aac_loop (Z.to_nat au_count) 0 s d p len (2 + au_header_bytes) base_pts ZST_OK.

Definition rtp_depayloader_depay_pcm (s : rtp_depayloader_t) d (rtp : rtp_packet_view_t)
    : zst_result_t * rtp_depayloader_t * option D :=
  if view_payload_len rtp =? 0 then (ZST_ERROR, s, d)
  else
    let s := rtp_depayloader_begin_au s (view_timestamp rtp) in
    let '(ok, s) := rtp_depayloader_append_au s (view_payload rtp) in
    if negb ok then (ZST_ERROR, rtp_depayloader_reset_au s, d)
    else if view_marker rtp then
      let bytes_per_frame := s32 (dep_channels s * dep_sample_size s) in
      let au := dep_au s in
      let duration :=
        if (0 <? bytes_per_frame) && (0 <? dep_clock_rate s) then
          u64 (au_len au / bytes_per_frame * 1000000000) / dep_clock_rate s
        else 0 in
      let s := with_au s (mk_au None 0 0 (au_ts au) (au_pts au) false) in
      rtp_depayloader_push_bytes s d (au_data au) (au_len au) (au_pts au) duration 0
    else (ZST_OK, s, d).

(** ** Element operations *)

(** The sink pad's push handler.  [None] for [s] or [buf] is a NULL pointer. *)
Definition rtp_depayloader_pad_push (s : option rtp_depayloader_t) d (buf : option zst_buffer)
    : zst_result_t * option rtp_depayloader_t * option D :=
  match s, buf with
  | Some s, Some buf =>
      let some r := let '(ret, s, d) := r in (ret, Some s, d) in
      if has_flag (buf_flags buf) ZST_BUFFER_FLAG_EOS then some (rtp_depayloader_push_au s d)
      else
        let s := with_stats s (add_in (dep_stats_of s)) in
        match rtp_depayloader_parse_rtp buf with
        | None =>
            (ZST_OK, Some (with_stats s (add_dropped (add_parse_error (dep_stats_of s)))), d)
        | Some rtp =>
            let s := with_stats s (add_packet (dep_stats_of s) (mem_size buf)) in
            if negb (view_payload_type rtp =? dep_payload_type s) then
              (ZST_OK, Some (drop_packet s), d)
            else if dep_filter_ssrc s && negb (view_ssrc rtp =? dep_expected_ssrc s) then
              (ZST_OK, Some (drop_packet s), d)
            else
              let s :=
                if dep_have_seq s && negb (view_seq rtp =? dep_next_seq s) then
                  let s := rtp_depayloader_reset_au (drop_packet s) in
                  match dep_codec s with
                  | RTP_DEPAYLOADER_CODEC_H264 => with_discontinuity s true
                  | _ => s
                  end
                else s in
              let s := with_seq s true (u16 (view_seq rtp + 1)) in
              match dep_codec s with
              | RTP_DEPAYLOADER_CODEC_H264 => some (rtp_depayloader_depay_h264 s d rtp)
              | RTP_DEPAYLOADER_CODEC_H265 => some (rtp_depayloader_depay_h265 s d rtp)
              | RTP_DEPAYLOADER_CODEC_AAC => some (rtp_depayloader_depay_aac s d rtp)
              | RTP_DEPAYLOADER_CODEC_PCM => some (rtp_depayloader_depay_pcm s d rtp)
              end
        end
  | s, _ => (ZST_ERROR, s, d)
  end.

End depay.

Definition rtp_depayloader_pad_destroy (s : option rtp_depayloader_t) : option rtp_depayloader_t :=
  rtp_depayloader_reset_au <$> s.

Definition rtp_depayloader_open (s : option rtp_depayloader_t)
    : zst_result_t * option rtp_depayloader_t :=
  match s with
  | None => (ZST_ERROR, None)
  | Some s =>
      let s := rtp_depayloader_reset_au s in
      let s := with_discontinuity (with_seq s false 0) false in
      let st := dep_stats_of s in
      (ZST_OK, Some (with_stats s (mk_stats 0 0 0 0 (st_in_packets st) (st_parse_errors st) 0)))
  end.

Definition rtp_depayloader_close (s : option rtp_depayloader_t)
    : zst_result_t * option rtp_depayloader_t :=
  match s with
  | None => (ZST_ERROR, None)
  | Some s =>
      let s := rtp_depayloader_reset_au s in
      (ZST_OK, Some (with_seq s false (dep_next_seq s)))
  end.

(** The private state [zst_rtp_depayloader_create] installs. *)
Definition zst_rtp_depayloader_create : rtp_depayloader_t :=
  mk_dep RTP_DEPAYLOADER_CODEC_H264 RTP_DEPAYLOADER_DEFAULT_PT RTP_DEPAYLOADER_DEFAULT_RATE_VIDEO
    2 2 0 false false 0 no_au false (mk_stats 0 0 0 0 0 0 0).

Definition rtp_depayloader_set_property (s : option rtp_depayloader_t) (name value : option string)
    : zst_result_t * option rtp_depayloader_t :=
  match s, name, value with
  | Some s, Some name, Some value =>
      let err := (ZST_ERROR, Some s) in
      let conf codec pt rate channels sample_size ssrc filter :=
        with_config s codec pt rate channels sample_size ssrc filter in
      if name_in name ["codec"; "media"; "encoding"]%string then
        match rtp_depayloader_parse_codec value with
        | None => err
        | Some codec =>
            let rate :=
              match codec with
              | RTP_DEPAYLOADER_CODEC_H264 | RTP_DEPAYLOADER_CODEC_H265 =>
                  RTP_DEPAYLOADER_DEFAULT_RATE_VIDEO
              | _ =>
                  if dep_clock_rate s =? RTP_DEPAYLOADER_DEFAULT_RATE_VIDEO
                  then RTP_DEPAYLOADER_DEFAULT_RATE_AUDIO else dep_clock_rate s
              end in
            (ZST_OK, Some (rtp_depayloader_reset_au
               (conf codec (dep_payload_type s) rate (dep_channels s) (dep_sample_size s)
                  (dep_expected_ssrc s) (dep_filter_ssrc s))))
        end
      else if name_in name ["payload-type"; "pt"; "video-payload-type"; "audio-payload-type"]%string then
        let pt := atoi value in
        if (pt <? 0) || (127 <? pt) then err
        else (ZST_OK, Some (conf (dep_codec s) (u8 pt) (dep_clock_rate s) (dep_channels s)
                              (dep_sample_size s) (dep_expected_ssrc s) (dep_filter_ssrc s)))
      else if name_in name ["ssrc"; "video-ssrc"; "audio-ssrc"]%string then
        let ssrc := u32 (strtoul0 value) in
        (ZST_OK, Some (conf (dep_codec s) (dep_payload_type s) (dep_clock_rate s) (dep_channels s)
                         (dep_sample_size s) ssrc (negb (ssrc =? 0))))
      else if name_in name ["clock-rate"; "sample-rate"; "audio-clock-rate"]%string then
        let rate := atoi value in
        if rate <=? 0 then err
        else (ZST_OK, Some (conf (dep_codec s) (dep_payload_type s) (u32 rate) (dep_channels s)
                              (dep_sample_size s) (dep_expected_ssrc s) (dep_filter_ssrc s)))
      else if name_in name ["channels"]%string then
        let channels := atoi value in
        if channels <=? 0 then err
        else (ZST_OK, Some (conf (dep_codec s) (dep_payload_type s) (dep_clock_rate s) channels
                              (dep_sample_size s) (dep_expected_ssrc s) (dep_filter_ssrc s)))
      else if name_in name ["sample-size"; "bytes-per-sample"]%string then
        let sample_size := atoi value in
        if sample_size <=? 0 then err
        else (ZST_OK, Some (conf (dep_codec s) (dep_payload_type s) (dep_clock_rate s)
                              (dep_channels s) sample_size (dep_expected_ssrc s) (dep_filter_ssrc s)))
      else err
  | s, _, _ => (ZST_ERROR, s)
  end.

(** The text left in [value_out], or [None] when the result is [ZST_ERROR]. *)
Definition rtp_depayloader_get_property (s : option rtp_depayloader_t) (name : option string)
    (max_len : Z) : option string :=
  match s, name with
  | Some s, Some name =>
      if max_len =? 0 then None
      else
        let out text := Some (snprintf max_len text) in
        let st := dep_stats_of s in
        if name_in name ["codec"; "media"; "encoding"]%string then
          out (rtp_depayloader_codec_to_string (dep_codec s))
        else if name_in name ["payload-type"; "pt"; "video-payload-type"; "audio-payload-type"]%string then
          out (show_Z (dep_payload_type s))
        else if name_in name ["ssrc"; "video-ssrc"; "audio-ssrc"]%string then
          out (show_Z (dep_expected_ssrc s))
        else if name_in name ["clock-rate"; "sample-rate"; "audio-clock-rate"]%string then
          out (show_Z (dep_clock_rate s))
        else if name_in name ["channels"]%string then out (show_Z (dep_channels s))
        else if name_in name ["sample-size"; "bytes-per-sample"]%string then
          out (show_Z (dep_sample_size s))
        else if name_in name ["packets"; "total-packets"]%string then out (show_Z (st_packets st))
        else if name_in name ["bytes"; "total-bytes"]%string then out (show_Z (st_bytes st))
        else if name_in name ["out-buffers"; "buffers"]%string then out (show_Z (st_out_buffers st))
        else if name_in name ["out-bytes"]%string then out (show_Z (st_out_bytes st))
        else if name_in name ["dropped-packets"; "drops"]%string then
          out (show_Z (st_dropped_packets st))
        else if name_in name ["in-packets"]%string then out (show_Z (st_in_packets st))
        else if name_in name ["parse-errors"]%string then out (show_Z (st_parse_errors st))
        else None
  | _, _ => None
  end.
