(* ===== verification/RtpPaySpec.v ===== *)
(** * What the RTP payloader sends

    The packets of an access unit as a pure function of the payloader's state, and
    the proof that the code's loops push exactly those packets, in order, into any
    downstream.  [RtpRoundtrip] feeds them to the depayloader. *)

From S2P Require Import Prelude CLib Pad MediaUtils RtpPay.

Local Open Scope Z_scope.

(** ** Fragments and packets *)

(** One packet's payload, marker bit and timestamp. *)
Record frag := mk_frag { fr_body : bytes; fr_marker : bool; fr_ts : Z }.

Definition packet_of (s : rtp_payloader_t) (pts : Z) (f : frag) : zst_buffer :=
  buffer_of ZST_BUFFER_USER 0 pts pts 0 (rtp_header s (fr_ts f) (fr_marker f) ++ fr_body f).

(** The packets of a list of fragments, the counters advancing from one to the next. *)
Fixpoint emit (s : rtp_payloader_t) (pts : Z) (fs : list frag) : list zst_buffer :=
  match fs with
  | [] => []
  | f :: fs => packet_of s pts f :: emit (pay_count s (zlen (fr_body f) + 12)) pts fs
  end.

Fixpoint count_all (s : rtp_payloader_t) (fs : list frag) : rtp_payloader_t :=
  match fs with
  | [] => s
  | f :: fs => count_all (pay_count s (zlen (fr_body f) + 12)) fs
  end.

(** The body fits the size limits of [make_packet]. *)
Definition fits (s : rtp_payloader_t) (f : frag) : Prop :=
  zlen (fr_body f) <= RTP_PAYLOADER_MAX_PAYLOAD /\
  (pay_strict_mtu s = true -> zlen (fr_body f) + 12 <= pay_mtu s).

(** Ranges of the state's fields: what [set_property] and the counters keep. *)
Record pay_ok (s : rtp_payloader_t) : Prop := {
  ok_pt : 0 <= pay_payload_type s < 128;
  ok_ssrc : 0 <= pay_ssrc s < 4294967296;
  ok_seq : 0 <= pay_seq s < 65536;
  ok_rate : 0 < pay_clock_rate s < 4294967296;
  ok_mtu : 4 <= pay_mtu s <= RTP_PAYLOADER_MAX_PAYLOAD;
  ok_channels : 0 < pay_channels s <= INT32_MAX;
  ok_sample : 0 < pay_sample_size s <= INT32_MAX;
  ok_packets : 0 <= pay_packets s <= UINT64_MAX;
  ok_bytes : 0 <= pay_bytes s <= UINT64_MAX;
  ok_ext : 0 <= pay_ext_seq_num s < 4294967296;
}.

Lemma pay_count_ok s n : pay_ok s -> pay_ok (pay_count s n).
Proof.
  intros [???????]. constructor; simpl; try done; try apply u64_range; try apply u16_range.
  - pose proof (u64_range (pay_packets s + 1)). unfold UINT64_MAX. lia.
  - pose proof (u64_range (pay_bytes s + n)). unfold UINT64_MAX. lia.
  - case_match; [|done]. apply u32_range.
Qed.

Lemma pay_count_fits s n f : fits (pay_count s n) f <-> fits s f.
Proof. done. Qed.

Lemma emit_app s pts fs gs : emit s pts (fs ++ gs) = emit s pts fs ++ emit (count_all s fs) pts gs.
Proof. revert s. induction fs as [|f fs IH]; intros; simpl; [done|]. by rewrite IH. Qed.

Lemma count_all_app s fs gs : count_all s (fs ++ gs) = count_all (count_all s fs) gs.
Proof. revert s. induction fs as [|f fs IH]; intros; simpl; [done|]. by rewrite IH. Qed.

Lemma count_all_ok s fs : pay_ok s -> pay_ok (count_all s fs).
Proof. revert s. induction fs as [|f fs IH]; intros; simpl; [done|]. by apply IH, pay_count_ok. Qed.

Lemma count_all_config s fs :
  pay_mtu (count_all s fs) = pay_mtu s /\ pay_strict_mtu (count_all s fs) = pay_strict_mtu s /\
  pay_codec (count_all s fs) = pay_codec s /\ pay_clock_rate (count_all s fs) = pay_clock_rate s /\
  pay_payload_type (count_all s fs) = pay_payload_type s /\ pay_ssrc (count_all s fs) = pay_ssrc s.
Proof. revert s. induction fs as [|f fs IH]; intros; simpl; [done|]. apply (IH (pay_count _ _)). Qed.

Lemma count_all_fits s fs f : fits (count_all s fs) f <-> fits s f.
Proof. unfold fits. destruct (count_all_config s fs) as (-> & -> & _). done. Qed.

Lemma emit_length s pts fs : length (emit s pts fs) = length fs.
Proof. revert s. induction fs; intros; simpl; auto. Qed.

(** ** Cutting a payload into chunks *)

Fixpoint chunks (fuel : nat) (n : Z) (l : bytes) : list bytes :=
  match fuel with
  | O => []
  | S fuel =>
      if zlen l =? 0 then []
      else sub_bytes 0 (Z.min (zlen l) n) l :: chunks fuel n (drop (Z.to_nat n) l)
  end.

Lemma zlen_drop {A} (l : list A) n : 0 <= n -> zlen (drop (Z.to_nat n) l) = Z.max 0 (zlen l - n).
Proof. unfold zlen. intros. rewrite length_drop. lia. Qed.

Lemma chunks_concat fuel n l : 0 < n -> zlen l <= Z.of_nat fuel -> concat (chunks fuel n l) = l.
Proof.
  revert l. induction fuel as [|fuel IH]; intros l Hn Hl; cbn [chunks].
  { symmetry. apply zlen_0. pose proof (zlen_nonneg l). lia. }
  destruct (Z.eqb_spec (zlen l) 0) as [E|E]; [by rewrite (zlen_0 l E)|].
  cbn [concat]. rewrite IH; [|done|].
  - unfold sub_bytes, zlen in *. rewrite drop_0.
    destruct (Z.le_gt_cases (Z.of_nat (length l)) n).
    + rewrite Z.min_l by lia. rewrite Nat2Z.id, firstn_all, drop_ge by lia. by rewrite app_nil_r.
    + rewrite Z.min_r by lia. apply take_drop.
  - rewrite zlen_drop by lia. pose proof (zlen_nonneg l). lia.
Qed.

Lemma chunks_bounds fuel n l c : 0 < n -> c ∈ chunks fuel n l -> 0 < zlen c <= n.
Proof.
  revert l. induction fuel as [|fuel IH]; intros l Hn; cbn [chunks]; [by intros ?%not_elem_of_nil|].
  destruct (Z.eqb_spec (zlen l) 0); [by intros ?%not_elem_of_nil|].
  pose proof (zlen_nonneg l).
  intros [->|Hc]%elem_of_cons; [|by eapply IH]. rewrite zlen_sub_bytes; lia.
Qed.

Lemma chunks_nil fuel n l : zlen l <= Z.of_nat fuel -> chunks fuel n l = [] <-> zlen l = 0.
Proof.
  intros Hl. pose proof (zlen_nonneg l). destruct fuel as [|fuel]; cbn [chunks]; [split; [lia|done]|].
  destruct (Z.eqb_spec (zlen l) 0); split; done.
Qed.

(** The fragmentation units of a NAL unit: [hdr first last] is the FU header. *)
Fixpoint fu_list (hdr : bool -> bool -> bytes) (ts : Z) (marker first : bool) (cs : list bytes)
    : list frag :=
  match cs with
  | [] => []
  | c :: cs' =>
      let last := match cs' with [] => true | _ => false end in
      mk_frag (hdr first last ++ c) (marker && last) ts :: fu_list hdr ts marker false cs'
  end.

Definition fu_bits (nal_type : Z) (first last : bool) : Z :=
  let t := if first then Z.lor nal_type 128 else nal_type in
  if last then Z.lor t 64 else t.

Definition h264_fu_hdr (b0 : byte) (first last : bool) : bytes :=
  [u8 (Z.lor (Z.land b0 224) 28); fu_bits (Z.land b0 31) first last].

Definition h265_fu_hdr (b0 b1 : byte) (first last : bool) : bytes :=
  [u8 (Z.lor (Z.land b0 129) (Z.shiftl 49 1)); b1; fu_bits (Z.land (Z.shiftr b0 1) 63) first last].

(** What a NAL unit is sent as. *)
Definition h264_frags (mtu : Z) (nal : bytes) (ts : Z) (marker : bool) : list frag :=
  if zlen nal <=? mtu - 12 then [mk_frag nal marker ts]
  else fu_list (h264_fu_hdr (rd nal 0)) ts marker true
         (chunks (length nal) (mtu - 14) (drop 1 nal)).

Definition h265_frags (mtu : Z) (nal : bytes) (ts : Z) (marker : bool) : list frag :=
  if zlen nal <=? mtu - 12 then [mk_frag nal marker ts]
  else fu_list (h265_fu_hdr (rd nal 0) (rd nal 1)) ts marker true
         (chunks (length nal) (mtu - 15) (drop 2 nal)).

(** ** The loops send them *)

Section send.
Context {D : Type} `{PadSink D} `{CMemoryOk}.
Implicit Type d : option D.

(** The result of pushing the packets of [fs]. *)
Definition send_all (s : rtp_payloader_t) d (ret pts : Z) (fs : list frag)
    : zst_result_t * rtp_payloader_t * option D :=
  let '(ret, d) := push_all d ret (emit s pts fs) in (ret, count_all s fs, d).

Lemma send_all_app s d ret pts fs gs :
  send_all s d ret pts (fs ++ gs) =
  (let '(ret, s, d) := send_all s d ret pts fs in send_all s d ret pts gs).
Proof.
  unfold send_all. rewrite emit_app, count_all_app, push_all_app.
  by destruct (push_all d ret (emit s pts fs)) as [r d'].
Qed.

Lemma push_packet_fits s d hdr pl n ts m pts :
  pay_ok s -> 0 <= n <= zlen pl ->
  fits s (mk_frag (hdr ++ sub_bytes 0 n pl) m ts) ->
  rtp_payloader_push_packet s d hdr pl n ts m pts =
  (let '(r, d') := push_peer d (packet_of s pts (mk_frag (hdr ++ sub_bytes 0 n pl) m ts)) in
   (r, pay_count s (zlen (hdr ++ sub_bytes 0 n pl) + 12), d')).
Proof.
  intros Hok Hn [Hmax Hstrict]. cbn [fr_body] in *.
  assert (Hl : zlen (hdr ++ sub_bytes 0 n pl) = zlen hdr + n)
    by (rewrite zlen_app, zlen_sub_bytes; lia).
  rewrite Hl in *. pose proof (zlen_nonneg hdr). pose proof (ok_mtu s Hok) as Hmtu.
  unfold rtp_payloader_push_packet, rtp_payloader_make_packet, RTP_PAYLOADER_MAX_PAYLOAD in *.
  destruct (Z.ltb_spec n 0); [lia|]. destruct (Z.ltb_spec (zlen hdr) 0); [lia|].
  destruct (Z.ltb_spec 65507 (n + zlen hdr)); [lia|]. cbn [orb].
  assert (pay_strict_mtu s && (u64 (pay_mtu s) <? n + zlen hdr + 12) = false) as ->.
  { destruct (pay_strict_mtu s); [|done]. specialize (Hstrict eq_refl).
    rewrite u64_small by lia. apply Z.ltb_ge. lia. }
  rewrite malloc_total, orb_true_r. unfold packet_of, buffer_of. cbn [fr_body fr_marker fr_ts].
  replace (zlen (rtp_header s ts m ++ hdr ++ sub_bytes 0 n pl)) with (n + zlen hdr + 12)
    by (rewrite zlen_app; change (zlen (rtp_header s ts m)) with 12; lia).
  by replace (zlen hdr + n + 12) with (n + zlen hdr + 12) by lia.
Qed.

(** Sending one fragment and continuing. *)
Lemma send_all_cons s d ret pts f fs :
  send_all s d ret pts (f :: fs) =
  (let '(one, d') := push_peer d (packet_of s pts f) in
   send_all (pay_count s (zlen (fr_body f) + 12)) d' (if one =? ZST_OK then ret else one) pts fs).
Proof. unfold send_all. simpl. by destruct (push_peer d _). Qed.

(** The FU loop with the header built by [hdr], of which both loops are instances. *)
Fixpoint send_fu_loop (fuel : nat) (s : rtp_payloader_t) d (nal : bytes)
    (nal_len n : Z) (hdr : bool -> bool -> bytes) (off : Z) (first : bool)
    (ret : zst_result_t) (ts : Z) (marker : bool) (pts_ns : Z)
    : option (zst_result_t * rtp_payloader_t * option D) :=
  match fuel with
  | O => None
  | S fuel =>
      if off <? nal_len then
        let chunk := if n <? nal_len - off then n else nal_len - off in
        let last := nal_len <=? off + chunk in
        let '(one, s, d) := rtp_payloader_push_packet s d (hdr first last)
              (drop (Z.to_nat off) nal) chunk ts (marker && last) pts_ns in
        let ret := if one =? ZST_OK then ret else one in
        send_fu_loop fuel s d nal nal_len n hdr (off + chunk) false ret ts marker pts_ns
      else Some (ret, s, d)
  end.

Lemma send_h264_loop_fu fuel s d nal nal_len mp b0 off first ret ts marker pts :
  send_h264_loop fuel s d nal nal_len mp (u8 (Z.lor (Z.land b0 224) 28)) (Z.land b0 31) off first
    ret ts marker pts =
  send_fu_loop fuel s d nal nal_len (mp - 2) (h264_fu_hdr b0) off first ret ts marker pts.
Proof.
  revert s d off first ret. induction fuel as [|fuel IH]; intros; [done|].
  cbn [send_h264_loop send_fu_loop]. destruct (off <? nal_len); [|done]. cbv zeta.
  unfold h264_fu_hdr, fu_bits. destruct (rtp_payloader_push_packet _ _ _ _ _ _ _ _) as [[one s'] d'].
  by rewrite IH.
Qed.

Lemma send_h265_loop_fu fuel s d nal nal_len mp b0 b1 off first ret ts marker pts :
  send_h265_loop fuel s d nal nal_len mp (u8 (Z.lor (Z.land b0 129) (Z.shiftl 49 1))) b1
    (Z.land (Z.shiftr b0 1) 63) off first ret ts marker pts =
  send_fu_loop fuel s d nal nal_len (mp - 3) (h265_fu_hdr b0 b1) off first ret ts marker pts.
Proof.
  revert s d off first ret. induction fuel as [|fuel IH]; intros; [done|].
  cbn [send_h265_loop send_fu_loop]. destruct (off <? nal_len); [|done]. cbv zeta.
  unfold h265_fu_hdr, fu_bits. destruct (rtp_payloader_push_packet _ _ _ _ _ _ _ _) as [[one s'] d'].
  by rewrite IH.
Qed.

(** With room for at least one byte per fragment, [S k] rounds send a rest of at
    most [k] bytes, as the packets of its chunks. *)
Lemma send_fu_loop_spec k s d nal n hdr hl off first ret ts marker pts :
  pay_ok s -> 0 < n -> 0 <= off -> zlen nal - off <= Z.of_nat k ->
  (forall a b, zlen (hdr a b) = hl) ->
  n + hl <= RTP_PAYLOADER_MAX_PAYLOAD -> n + hl + 12 <= pay_mtu s ->
  send_fu_loop (S k) s d nal (zlen nal) n hdr off first ret ts marker pts =
  Some (send_all s d ret pts (fu_list hdr ts marker first (chunks k n (drop (Z.to_nat off) nal)))).
Proof.
  revert s d off first ret. induction k as [|k IH]; intros s d off first ret Hok Hn Ho Hk Hh Hm Hs.
  { cbn [send_fu_loop chunks fu_list]. destruct (Z.ltb_spec off (zlen nal)); [lia|done]. }
  set (body := S k) in *. cbn [send_fu_loop]. subst body. cbn [chunks].
  rewrite zlen_drop by done.
  destruct (Z.ltb_spec off (zlen nal)) as [Hlt|Hge].
  2:{ destruct (Z.eqb_spec (Z.max 0 (zlen nal - off)) 0); [done|lia]. }
  destruct (Z.eqb_spec (Z.max 0 (zlen nal - off)) 0); [lia|].
  rewrite (Z.max_r 0 (zlen nal - off)) by lia. cbv zeta.
  assert (Hc : (if n <? zlen nal - off then n else zlen nal - off) = Z.min (zlen nal - off) n)
    by (destruct (Z.ltb_spec n (zlen nal - off)); lia).
  rewrite Hc. set (chunk := Z.min (zlen nal - off) n) in *.
  rewrite drop_drop, <-Z2Nat.inj_add by lia.
  assert (Hlen : zlen (drop (Z.to_nat off) nal) = zlen nal - off) by (rewrite zlen_drop; lia).
  pose proof (zlen_nonneg (hdr false false)) as Hhl. rewrite Hh in Hhl.
  assert (Hfit : forall a b m t, fits s (mk_frag (hdr a b ++ sub_bytes 0 chunk (drop (Z.to_nat off) nal)) m t)).
  { intros. unfold fits. cbn [fr_body]. rewrite zlen_app, Hh, zlen_sub_bytes; lia. }
  rewrite push_packet_fits by (try apply Hfit; try done; lia).
  assert (Hlast : (zlen nal <=? off + chunk) =
    match chunks k n (drop (Z.to_nat (off + n)) nal) with [] => true | _ => false end).
  { pose proof (chunks_nil k n (drop (Z.to_nat (off + n)) nal)) as E.
    rewrite zlen_drop in E by lia. specialize (E ltac:(lia)).
    destruct (chunks k n _); destruct (Z.leb_spec (zlen nal) (off + chunk)); try done.
    - destruct E as [E _]. specialize (E eq_refl). lia.
    - destruct E as [_ E]. discriminate E. lia. }
  rewrite Hlast. cbn [fu_list]. rewrite send_all_cons. cbn [fr_body].
  destruct (push_peer d _) as [one d']. cbv beta iota.
  destruct (Z.leb_spec (zlen nal) (off + chunk)) as [Hend|Hmore].
  - (* the last fragment *)
    destruct (chunks k n _) eqn:E; [|done]. cbn [fu_list send_all].
    cbn [send_fu_loop]. destruct (Z.ltb_spec (off + chunk) (zlen nal)); [lia|done].
  - assert (chunk = n) as -> by lia. rewrite IH; try done; [by apply pay_count_ok|lia..].
Qed.

(** Bytes after the NAL unit do not matter. *)
Lemma sub_bytes_prefix off n (l rest : bytes) :
  0 <= off -> 0 <= n -> off + n <= zlen l ->
  sub_bytes 0 n (drop (Z.to_nat off) (l ++ rest)) = sub_bytes 0 n (drop (Z.to_nat off) l).
Proof.
  intros. unfold sub_bytes, zlen in *. rewrite !drop_0, drop_app_le by lia.
  rewrite take_app_le; [done|]. rewrite length_drop. lia.
Qed.

Lemma push_packet_prefix s d hdr off n l rest ts m pts :
  0 <= off -> 0 <= n -> off + n <= zlen l ->
  rtp_payloader_push_packet s d hdr (drop (Z.to_nat off) (l ++ rest)) n ts m pts =
  rtp_payloader_push_packet s d hdr (drop (Z.to_nat off) l) n ts m pts.
Proof.
  intros. unfold rtp_payloader_push_packet, rtp_payloader_make_packet.
  by rewrite sub_bytes_prefix.
Qed.

Lemma send_fu_loop_prefix fuel s d nal rest n hdr off first ret ts marker pts :
  0 < n -> 0 <= off ->
  send_fu_loop fuel s d (nal ++ rest) (zlen nal) n hdr off first ret ts marker pts =
  send_fu_loop fuel s d nal (zlen nal) n hdr off first ret ts marker pts.
Proof.
  revert s d off first ret. induction fuel as [|fuel IH]; intros s d off first ret Hn Ho; [done|].
  cbn [send_fu_loop]. destruct (Z.ltb_spec off (zlen nal)); [|done]. cbv zeta.
  set (chunk := if n <? zlen nal - off then n else zlen nal - off).
  assert (0 <= chunk <= zlen nal - off) by (unfold chunk; destruct (Z.ltb_spec n (zlen nal - off)); lia).
  rewrite push_packet_prefix by lia.
  destruct (rtp_payloader_push_packet _ _ _ _ _ _ _ _) as [[one s'] d']. apply IH; lia.
Qed.

Lemma chunks_fuel k k' n l :
  0 < n -> zlen l <= Z.of_nat k -> zlen l <= Z.of_nat k' -> chunks k n l = chunks k' n l.
Proof.
  intros Hn. revert k' l. induction k as [|k IH]; intros k' l Hk Hk'.
  { pose proof (zlen_nonneg l). symmetry. apply chunks_nil; lia. }
  destruct k' as [|k']; cbn [chunks].
  { pose proof (zlen_nonneg l). destruct (Z.eqb_spec (zlen l) 0); [done|lia]. }
  destruct (Z.eqb_spec (zlen l) 0); [done|]. f_equal. apply IH; rewrite zlen_drop; lia.
Qed.

(** Sending a NAL unit, whatever follows it in the stream. *)
Definition sends_nal (frags : bytes -> Z -> bool -> list frag)
    (send : nat -> rtp_payloader_t -> option D -> bytes -> Z -> Z -> bool -> Z ->
            option (zst_result_t * rtp_payloader_t * option D))
    (good : bytes -> Prop) (s0 : rtp_payloader_t) : Prop :=
  forall fuel s d nal rest ts m pts,
    pay_ok s -> pay_mtu s = pay_mtu s0 -> good nal -> zlen nal < Z.of_nat fuel ->
    send fuel s d (nal ++ rest) (zlen nal) ts m pts = Some (send_all s d ZST_OK pts (frags nal ts m)).

Lemma send_single s d nal rest ts m pts :
  pay_ok s -> zlen nal <= pay_mtu s - 12 ->
  rtp_payloader_push_packet s d [] (nal ++ rest) (zlen nal) ts m pts =
  send_all s d ZST_OK pts [mk_frag nal m ts].
Proof.
  intros Hok Hl. pose proof (zlen_nonneg nal). pose proof (ok_mtu s Hok).
  rewrite (push_packet_prefix s d [] 0 (zlen nal) nal rest) by lia. rewrite drop_0.
  rewrite push_packet_fits; [|done|lia|].
  2:{ unfold fits. cbn [fr_body]. rewrite sub_bytes_all by done. simpl. lia. }
  rewrite sub_bytes_all by done. rewrite send_all_cons. cbn [fr_body app send_all emit push_all].
  destruct (push_peer d _) as [one d']. unfold send_all. simpl. by destruct (Z.eqb_spec one ZST_OK) as [->|].
Qed.

Lemma send_h264_nal_spec s0 :
  15 <= pay_mtu s0 ->
  sends_nal (h264_frags (pay_mtu s0)) rtp_payloader_send_h264_nal (fun nal => 0 < zlen nal) s0.
Proof.
  intros Hmtu fuel s d nal rest ts m pts Hok Heq Hn Hf. rewrite <-Heq in *.
  pose proof (ok_mtu s Hok) as Hmax. unfold RTP_PAYLOADER_MAX_PAYLOAD in Hmax.
  unfold rtp_payloader_send_h264_nal, h264_frags. destruct (Z.leb_spec (zlen nal) 0); [lia|].
  destruct (Z.ltb_spec (pay_mtu s - 12) 1); [lia|].
  destruct (Z.leb_spec (zlen nal) (pay_mtu s - 12)) as [Hs|Hl]; [f_equal; by apply send_single|].
  rewrite (rd_app_l nal rest 0), send_h264_loop_fu, send_fu_loop_prefix by lia.
  destruct fuel as [|k]; [lia|].
  rewrite (send_fu_loop_spec k _ _ _ _ _ 2); try lia; try done; [|unfold RTP_PAYLOADER_MAX_PAYLOAD; lia].
  replace (pay_mtu s - 12 - 2) with (pay_mtu s - 14) by lia.
  rewrite (chunks_fuel k (length nal)); [done|lia|..];
    change (Z.to_nat 1) with 1%nat in *; unfold zlen in *; rewrite length_drop; lia.
Qed.

Lemma send_h265_nal_spec s0 :
  16 <= pay_mtu s0 ->
  sends_nal (h265_frags (pay_mtu s0)) rtp_payloader_send_h265_nal (fun nal => 1 < zlen nal) s0.
Proof.
  intros Hmtu fuel s d nal rest ts m pts Hok Heq Hn Hf. rewrite <-Heq in *.
  pose proof (ok_mtu s Hok) as Hmax. unfold RTP_PAYLOADER_MAX_PAYLOAD in Hmax.
  unfold rtp_payloader_send_h265_nal, h265_frags. destruct (Z.ltb_spec (zlen nal) 2); [lia|].
  destruct (Z.ltb_spec (pay_mtu s - 12) 1); [lia|].
  destruct (Z.leb_spec (zlen nal) (pay_mtu s - 12)) as [Hs|Hl]; [f_equal; by apply send_single|].
  rewrite (rd_app_l nal rest 0), (rd_app_l nal rest 1), send_h265_loop_fu, send_fu_loop_prefix by lia.
  destruct fuel as [|k]; [lia|].
  rewrite (send_fu_loop_spec k _ _ _ _ _ 3); try lia; try done; [|unfold RTP_PAYLOADER_MAX_PAYLOAD; lia].
  replace (pay_mtu s - 12 - 3) with (pay_mtu s - 15) by lia.
  rewrite (chunks_fuel k (length nal)); [done|lia|..];
    change (Z.to_nat 2) with 2%nat in *; unfold zlen in *; rewrite length_drop; lia.
Qed.

(** ** Access units *)

(** The packetizing loop over any NAL sender, of which both loops are instances. *)
Fixpoint packetize_loop
    (send : nat -> rtp_payloader_t -> option D -> bytes -> Z -> Z -> bool -> Z ->
            option (zst_result_t * rtp_payloader_t * option D))
    (fuel : nat) (s : rtp_payloader_t) d (data : bytes) (size pos code ts pts_ns : Z)
    (ret : zst_result_t) : option (zst_result_t * rtp_payloader_t * option D) :=
  match fuel with
  | O => None
  | S fuel' =>
      if (0 <=? pos) && (pos <? size) then
        let nal_start := pos + code in
        let '(next, next_code) := zst_find_start_code data size nal_start in
        let nal_end := if 0 <=? next then next else size in
        let nal_end := strip_zeros (Z.to_nat (nal_end - nal_start)) data nal_start nal_end in
        let nal_len := nal_end - nal_start in
        let is_last := next <? 0 in
        match
          (if 0 <? nal_len then
             match send fuel s d (drop (Z.to_nat nal_start) data) nal_len ts is_last pts_ns with
             | Some (one, s, d) => Some (if one =? ZST_OK then ret else one, s, d)
             | None => None
             end
           else Some (ret, s, d))
        with
        | None => None
        | Some (ret, s, d) =>
            if next <? 0 then Some (ret, s, d)
            else packetize_loop send fuel' s d data size next next_code ts pts_ns ret
        end
      else Some (ret, s, d)
  end.

Lemma packetize_h264_loop_eq fuel s d data size pos code ts pts ret :
  packetize_h264_loop fuel s d data size pos code ts pts ret =
  packetize_loop rtp_payloader_send_h264_nal fuel s d data size pos code ts pts ret.
Proof.
  revert s d pos code ret. induction fuel as [|fuel IH]; intros; [done|].
  cbn [packetize_h264_loop packetize_loop]. repeat case_match; try done; apply IH.
Qed.

Lemma packetize_h265_loop_eq fuel s d data size pos code ts pts ret :
  packetize_h265_loop fuel s d data size pos code ts pts ret =
  packetize_loop rtp_payloader_send_h265_nal fuel s d data size pos code ts pts ret.
Proof.
  revert s d pos code ret. induction fuel as [|fuel IH]; intros; [done|].
  cbn [packetize_h265_loop packetize_loop]. repeat case_match; try done; apply IH.
Qed.

(** The fragments of an access unit: the marker closes its last NAL unit. *)
Fixpoint au_frags (frags : bytes -> Z -> bool -> list frag) (ts : Z) (nals : list bytes) : list frag :=
  match nals with
  | [] => []
  | nal :: rest =>
      frags nal ts (match rest with [] => true | _ => false end) ++ au_frags frags ts rest
  end.

(** The result of a run that starts from [ret] is that of a run from [ZST_OK], unless
    the latter saw no error. *)
Lemma push_all_ret d ret bs :
  push_all d ret bs =
  (let '(r, d') := push_all d ZST_OK bs in (if r =? ZST_OK then ret else r, d')).
Proof.
  revert d ret. induction bs as [|b bs IH]; intros; simpl; [done|].
  destruct (push_peer d b) as [one d']. rewrite IH. rewrite (IH d' (if one =? ZST_OK then ZST_OK else one)).
  destruct (push_all d' ZST_OK bs) as [r d'']. f_equal.
  destruct (Z.eqb_spec r ZST_OK), (Z.eqb_spec one ZST_OK); subst; try done;
    unfold ZST_OK in *; zbool; congruence.
Qed.

Lemma send_all_ret s d ret pts fs :
  send_all s d ret pts fs =
  (let '(r, s', d') := send_all s d ZST_OK pts fs in (if r =? ZST_OK then ret else r, s', d')).
Proof.
  unfold send_all. rewrite push_all_ret. by destruct (push_all d ZST_OK (emit s pts fs)).
Qed.

Lemma send_all_count s d ret pts fs :
  exists r d', send_all s d ret pts fs = (r, count_all s fs, d').
Proof. unfold send_all. destruct (push_all d ret (emit s pts fs)) as [r d']. by exists r, d'. Qed.

Lemma strip_zeros_stop n data st e : rd data (e - 1) <> 0 -> strip_zeros n data st e = e.
Proof.
  intros. destruct n as [|n]; cbn [strip_zeros]; [done|].
  destruct (Z.eqb_spec (rd data (e - 1)) 0); [done|]. by rewrite andb_false_r.
Qed.

Lemma packetize_loop_spec frags send good s0 l :
  sends_nal frags send good s0 ->
  forall long nal pre fuel s d ts pts ret,
    Forall (fun ln => nal_ok ln.2 /\ good ln.2) ((long, nal) :: l) ->
    pay_ok s -> pay_mtu s = pay_mtu s0 -> zlen (annexb ((long, nal) :: l)) < Z.of_nat fuel ->
    packetize_loop send fuel s d (pre ++ annexb ((long, nal) :: l))
      (zlen (pre ++ annexb ((long, nal) :: l))) (zlen pre) (zlen (start_code long)) ts pts ret =
    Some (send_all s d ret pts (au_frags frags ts (nal :: map snd l))).
Proof.
  intros Hsend. induction l as [|[long' nal'] l IH];
    intros long nal pre fuel s d ts pts ret Hall Hok Hmtu Hfuel;
    apply Forall_cons in Hall as [[Hnal Hgood] Hall]; cbn [snd] in *;
    pose proof (zlen_nonneg pre); pose proof (zlen_start_code long);
    pose proof (nal_nonempty nal Hnal) as Hne.
  all: destruct fuel as [|fuel];
    [exfalso; match type of Hfuel with zlen ?x < _ => pose proof (zlen_nonneg x) end; lia|].
  all: match goal with |- context [annexb (_ :: ?l)] => set (tl := l) in * end.
  all: pose proof (find_after_nal (pre ++ start_code long) nal tl Hnal) as Hfind.
  all: cbn [annexb] in *; fold (annexb tl) in *.
  all: replace (pre ++ start_code long ++ nal ++ annexb tl)
         with ((pre ++ start_code long) ++ nal ++ annexb tl) in * by (by rewrite <-app_assoc).
  all: rewrite !zlen_app in Hfuel; pose proof (zlen_nonneg (annexb tl)).
  all: set (data := (pre ++ start_code long) ++ nal ++ annexb tl) in *.
  all: assert (Hsize : zlen data = zlen pre + zlen (start_code long) + zlen nal + zlen (annexb tl))
         by (unfold data; rewrite !zlen_app; lia).
  all: assert (Hdrop : drop (Z.to_nat (zlen pre + zlen (start_code long))) data = nal ++ annexb tl)
         by (unfold data; rewrite <-zlen_app; unfold zlen; rewrite Nat2Z.id; apply drop_app_length).
  all: assert (Hstart : zlen (pre ++ start_code long) = zlen pre + zlen (start_code long))
         by apply zlen_app.
  all: assert (Hlast : rd data (zlen pre + zlen (start_code long) + zlen nal - 1) <> 0).
  1,3: unfold data; rewrite rd_app_r by lia; rewrite Hstart, rd_app_l by lia;
       replace (zlen pre + zlen (start_code long) + zlen nal - 1 - (zlen pre + zlen (start_code long)))
         with (zlen nal - 1) by lia; apply (nal_last nal Hnal).
  all: cbn [packetize_loop].
  all: destruct (Z.leb_spec 0 (zlen pre)); [|lia]; destruct (Z.ltb_spec (zlen pre) (zlen data)); [|lia].
  all: cbn [andb]; rewrite <-Hstart at 1; rewrite Hfind; subst tl; cbv beta iota zeta.
  - (* the last NAL unit *)
    cbn [annexb map] in *. rewrite zlen_nil in Hsize.
    replace (zlen data) with (zlen pre + zlen (start_code long) + zlen nal) by lia.
    destruct (Z.leb_spec 0 (-1)); [lia|]. rewrite strip_zeros_stop by done.
    replace (zlen pre + zlen (start_code long) + zlen nal - (zlen pre + zlen (start_code long)))
      with (zlen nal) by lia.
    destruct (Z.ltb_spec 0 (zlen nal)); [|lia]. rewrite Hdrop, Hsend by (try done; lia).
    destruct (Z.ltb_spec (-1) 0); [|lia]. cbn [au_frags]. rewrite app_nil_r.
    rewrite (send_all_ret s d ret). by destruct (send_all s d ZST_OK pts _) as [[r s'] d'].
  - (* more NAL units follow *)
    rewrite Hstart. cbn [map snd].
    destruct (Z.leb_spec 0 (zlen pre + zlen (start_code long) + zlen nal)); [|lia].
    rewrite strip_zeros_stop by done.
    replace (zlen pre + zlen (start_code long) + zlen nal - (zlen pre + zlen (start_code long)))
      with (zlen nal) by lia.
    destruct (Z.ltb_spec 0 (zlen nal)); [|lia]. rewrite Hdrop, Hsend by (try done; lia).
    destruct (Z.ltb_spec (zlen pre + zlen (start_code long) + zlen nal) 0); [lia|].
    cbn [au_frags]. rewrite send_all_app, (send_all_ret s d ret).
    pose proof (count_all_config s (frags nal ts false)) as (Hm & _).
    pose proof (count_all_ok s (frags nal ts false) Hok) as Hok'.
    destruct (send_all_count s d ZST_OK pts (frags nal ts false)) as (r & d' & ->).
    cbv beta iota zeta.
    specialize (IH long' nal' ((pre ++ start_code long) ++ nal) fuel (count_all s (frags nal ts false)) d'
                  ts pts (if r =? ZST_OK then ret else r) Hall Hok' ltac:(lia) ltac:(cbn [annexb] in *; lia)).
    unfold data. rewrite <-Hstart, <-zlen_app. cbn [annexb] in IH |- *. rewrite <-!app_assoc in IH |- *.
    replace (zlen ((pre ++ start_code long) ++ nal)) with (zlen (pre ++ start_code long ++ nal)) in IH
      by (by rewrite app_assoc).
    etransitivity; [exact IH|]. done.
Qed.

(** An H.264 access unit, as an Annex-B stream, is sent as the fragments of its NAL
    units, marker on the very last packet. *)
Lemma packetize_h264_spec fuel s d l pts :
  Forall (fun ln => nal_ok ln.2) l -> l <> [] -> pay_ok s -> 15 <= pay_mtu s ->
  zlen (annexb l) < Z.of_nat fuel ->
  rtp_payloader_packetize_h264 fuel s d (annexb l) (zlen (annexb l)) pts =
  Some (send_all s d ZST_OK pts
          (au_frags (h264_frags (pay_mtu s)) (rtp_payloader_pts_to_rtp_ts pts 90000) (map snd l))).
Proof.
  intros Hall Hl Hok Hmtu Hfuel. destruct l as [|[long nal] l]; [done|].
  unfold rtp_payloader_packetize_h264. rewrite find_first.
  assert (0 < zlen (annexb ((long, nal) :: l))) as Hpos.
  { cbn [annexb]. rewrite zlen_app. pose proof (zlen_start_code long).
    pose proof (zlen_nonneg (nal ++ annexb l)). lia. }
  destruct (Z.leb_spec (zlen (annexb ((long, nal) :: l))) 0); [lia|]. cbv zeta beta iota.
  destruct (Z.ltb_spec 0 0); [lia|]. rewrite packetize_h264_loop_eq.
  apply (packetize_loop_spec _ _ _ s l (send_h264_nal_spec s Hmtu) long nal []); try done.
  eapply Forall_impl; [apply Hall|]. intros ln Hn. split; [done|]. by apply nal_nonempty.
Qed.

Lemma packetize_h265_spec fuel s d l pts :
  Forall (fun ln => nal_ok ln.2 /\ 1 < zlen ln.2) l -> l <> [] -> pay_ok s -> 16 <= pay_mtu s ->
  zlen (annexb l) < Z.of_nat fuel ->
  rtp_payloader_packetize_h265 fuel s d (annexb l) (zlen (annexb l)) pts =
  Some (send_all s d ZST_OK pts
          (au_frags (h265_frags (pay_mtu s)) (rtp_payloader_pts_to_rtp_ts pts 90000) (map snd l))).
Proof.
  intros Hall Hl Hok Hmtu Hfuel. destruct l as [|[long nal] l]; [done|].
  unfold rtp_payloader_packetize_h265. rewrite find_first.
  assert (0 < zlen (annexb ((long, nal) :: l))) as Hpos.
  { cbn [annexb]. rewrite zlen_app. pose proof (zlen_start_code long).
    pose proof (zlen_nonneg (nal ++ annexb l)). lia. }
  destruct (Z.leb_spec (zlen (annexb ((long, nal) :: l))) 0); [lia|]. cbv zeta beta iota.
  destruct (Z.ltb_spec 0 0); [lia|]. rewrite packetize_h265_loop_eq.
  apply (packetize_loop_spec _ _ _ s l (send_h265_nal_spec s Hmtu) long nal []); try done.
Qed.

End send.
