(* ===== verification/RtpPayProps.v ===== *)
(** * Properties of the RTP payloader

    What every run of the payloader keeps, on success and on failure alike: the
    ranges of its fields, consecutive sequence numbers, the size limits; then the
    functional behaviour of the AAC and PCM paths, the MTU values for which
    fragmentation never ends, and the property interface. *)

From Stdlib Require Import String.
From S2P Require Import Prelude CLib Pad MediaUtils RtpPay RtpPaySpec.

Local Open Scope Z_scope.

(** ** Every run sends well-formed, consecutively numbered packets *)

Section emits.
Context {D : Type} `{PadSink D} `{CMemory}.
Implicit Type d : option D.

Definition next_peer d (bs : list zst_buffer) : option D := (push_all d ZST_OK bs).2.

Lemma next_peer_ret d ret bs : (push_all d ret bs).2 = next_peer d bs.
Proof.
  unfold next_peer. revert d ret. generalize ZST_OK.
  induction bs as [|b bs IH]; intros r d ret; simpl; [done|].
  destruct (push_peer d b) as [one d']. apply IH.
Qed.

Lemma next_peer_app d bs cs : next_peer d (bs ++ cs) = next_peer (next_peer d bs) cs.
Proof.
  unfold next_peer. rewrite push_all_app. destruct (push_all d ZST_OK bs) as [r d'] eqn:E.
  by rewrite next_peer_ret.
Qed.

(** The run from [(s, d)] to [(s', d')] sent the packets of some fragments, each
    within the limits, numbered on from [s]. *)
Definition emits (pts : Z) (s : rtp_payloader_t) d (s' : rtp_payloader_t) d' : Prop :=
  exists fs, Forall (fits s) fs /\ s' = count_all s fs /\ d' = next_peer d (emit s pts fs).

Lemma emits_refl pts s d : emits pts s d s d.
Proof. by exists []. Qed.

Lemma emits_trans pts s d s1 d1 s2 d2 :
  emits pts s d s1 d1 -> emits pts s1 d1 s2 d2 -> emits pts s d s2 d2.
Proof.
  intros (fs & Hf & -> & ->) (gs & Hg & -> & ->). exists (fs ++ gs).
  rewrite count_all_app, emit_app, next_peer_app. split_and!; try done.
  apply Forall_app. split; [done|]. eapply Forall_impl; [apply Hg|].
  intros f. by rewrite count_all_fits.
Qed.

Lemma emits_ok pts s d s' d' : emits pts s d s' d' -> pay_ok s -> pay_ok s'.
Proof. intros (fs & _ & -> & _). apply count_all_ok. Qed.

Lemma emits_mtu pts s d s' d' : emits pts s d s' d' -> pay_mtu s' = pay_mtu s.
Proof. intros (fs & _ & -> & _). by destruct (count_all_config s fs) as (-> & _). Qed.

(** One packet, whether or not there was memory for it. *)
Lemma push_packet_emits s d hdr pl n ts m pts r s' d' :
  pay_ok s -> n <= zlen pl ->
  rtp_payloader_push_packet s d hdr pl n ts m pts = (r, s', d') -> emits pts s d s' d'.
Proof.
  intros Hok Hn E. unfold rtp_payloader_push_packet in E.
  destruct (rtp_payloader_make_packet s hdr pl n ts m pts) as [[out s1]|] eqn:M;
    [|simplify_eq; apply emits_refl].
  unfold rtp_payloader_make_packet in M. cbv zeta in M.
  destruct ((n <? 0) || (zlen hdr <? 0) || (RTP_PAYLOADER_MAX_PAYLOAD <? n + zlen hdr)) eqn:G; [done|].
  apply orb_false_iff in G as [[G1 _]%orb_false_iff G2]. apply Z.ltb_ge in G1, G2.
  destruct (pay_strict_mtu s && (u64 (pay_mtu s) <? n + zlen hdr + 12)) eqn:G3; [done|].
  destruct ((pay_pool s && pool_ok _) || malloc_ok _) eqn:G4; [|done]. 
  assert (Hl : zlen (hdr ++ sub_bytes 0 n pl) = zlen hdr + n)
    by (rewrite zlen_app, zlen_sub_bytes; lia).
  set (f := mk_frag (hdr ++ sub_bytes 0 n pl) m ts).
  assert (Hpkt : mk_buffer ZST_BUFFER_USER 0 pts pts 0
      (Some (rtp_header s ts m ++ hdr ++ sub_bytes 0 n pl)) (n + zlen hdr + 12) = packet_of s pts f).
  { unfold packet_of, buffer_of. cbn [f fr_body fr_ts fr_marker]. f_equal.
    rewrite zlen_app, Hl. change (zlen (rtp_header s ts m)) with 12. lia. }
  rewrite Hpkt in M.
  assert (out = packet_of s pts f) as -> by congruence.
  assert (s1 = pay_count s (n + zlen hdr + 12)) as -> by congruence. exists [f]. split_and!.
  - apply Forall_singleton. unfold fits. cbn [f fr_body]. rewrite Hl. split; [lia|].
    intros Hstrict. rewrite Hstrict in G3. cbn [andb] in G3. apply Z.ltb_ge in G3.
    pose proof (ok_mtu s Hok). unfold RTP_PAYLOADER_MAX_PAYLOAD in *. rewrite u64_small in G3 by lia. lia.
  - cbn [count_all f fr_body]. rewrite Hl. destruct (push_peer d _) as [r1 d1]. simplify_eq.
    f_equal. lia.
  - unfold next_peer. cbn [emit push_all]. destruct (push_peer d _) as [r1 d1]. by simplify_eq.
Qed.

Lemma send_fu_loop_emits fuel s d nal nal_len n hdr off first ret ts marker pts r s' d' :
  pay_ok s -> nal_len <= zlen nal -> 0 <= off \/ n <= 0 ->
  send_fu_loop fuel s d nal nal_len n hdr off first ret ts marker pts = Some (r, s', d') ->
  emits pts s d s' d'.
Proof.
  revert s d off first ret. induction fuel as [|fuel IH]; intros s d off first ret Hok Hl Ho E; [done|].
  cbn [send_fu_loop] in E. destruct (Z.ltb_spec off nal_len); [|simplify_eq; apply emits_refl].
  set (chunk := if n <? nal_len - off then n else nal_len - off) in *. cbv zeta in E.
  assert (chunk <= n /\ chunk <= nal_len - off /\ (chunk = n \/ chunk = nal_len - off))
    by (unfold chunk; destruct (Z.ltb_spec n (nal_len - off)); lia).
  destruct (rtp_payloader_push_packet _ _ _ _ _ _ _ _) as [[one s1] d1] eqn:P.
  assert (E1 : emits pts s d s1 d1).
  { eapply push_packet_emits; [done| |apply P]. unfold zlen in *. rewrite length_drop. lia. }
  eapply emits_trans; [apply E1|]. eapply IH; [by eapply emits_ok|done| |apply E]. lia.
Qed.

Lemma send_h264_nal_emits fuel s d nal nal_len ts marker pts r s' d' :
  pay_ok s -> nal_len <= zlen nal ->
  rtp_payloader_send_h264_nal fuel s d nal nal_len ts marker pts = Some (r, s', d') ->
  emits pts s d s' d'.
Proof.
  intros Hok Hl. unfold rtp_payloader_send_h264_nal.
  destruct (nal_len <=? 0); [intros; simplify_eq; apply emits_refl|]. cbv zeta.
  destruct (_ <? 1); [intros; simplify_eq; apply emits_refl|].
  destruct (nal_len <=? _).
  - intros [= E]. by eapply push_packet_emits.
  - rewrite send_h264_loop_fu. eapply send_fu_loop_emits; [done|done|lia].
Qed.

Lemma send_h265_nal_emits fuel s d nal nal_len ts marker pts r s' d' :
  pay_ok s -> nal_len <= zlen nal ->
  rtp_payloader_send_h265_nal fuel s d nal nal_len ts marker pts = Some (r, s', d') ->
  emits pts s d s' d'.
Proof.
  intros Hok Hl. unfold rtp_payloader_send_h265_nal.
  destruct (nal_len <? 2); [intros; simplify_eq; apply emits_refl|]. cbv zeta.
  destruct (_ <? 1); [intros; simplify_eq; apply emits_refl|].
  destruct (nal_len <=? _).
  - intros [= E]. by eapply push_packet_emits.
  - rewrite send_h265_loop_fu. eapply send_fu_loop_emits; [done|done|lia].
Qed.

(** A start code found lies inside the data. *)
Lemma find_start_code_bounds data size offset p c :
  0 <= offset -> zst_find_start_code data size offset = (p, c) ->
  p < 0 \/ offset <= p /\ 0 < c /\ p + c <= size.
Proof.
  intros Ho E. pose proof (find_start_code_cases data size offset Ho) as F. rewrite E in F.
  destruct F as [(-> & _)|(? & Hc & ? & _)]; [by left|right]. split_and!; try lia.
  unfold start_code_at in Hc. destruct (Z.ltb_spec (p + 2) size); [|rewrite andb_false_r in Hc; lia].
  destruct (Z.ltb_spec (p + 3) size); repeat case_match; try lia; by rewrite andb_false_r in *.
Qed.

Lemma strip_zeros_bounds n data st e : st <= e -> st <= strip_zeros n data st e <= e.
Proof.
  revert e. induction n as [|n IH]; intros e He; cbn [strip_zeros]; [lia|].
  destruct (Z.ltb_spec st e); cbn [andb]; [|lia].
  destruct (rd data (e - 1) =? 0); [|lia]. specialize (IH (e - 1)). lia.
Qed.

(** Both Annex-B loops, through the generic one. *)
Lemma packetize_loop_emits send fuel s d data size pos code ts pts ret r s' d' :
  (forall fuel s d nal n ts m r s' d', pay_ok s -> n <= zlen nal ->
     send fuel s d nal n ts m pts = Some (r, s', d') -> emits pts s d s' d') ->
  pay_ok s -> size <= zlen data -> 0 <= code -> pos + code <= size ->
  packetize_loop send fuel s d data size pos code ts pts ret = Some (r, s', d') ->
  emits pts s d s' d'.
Proof.
  intros Hsend. revert s d pos code ret. induction fuel as [|fuel IH]; intros s d pos code ret Hok Hs Hc Hp E;
    [done|]. cbn [packetize_loop] in E.
  destruct (Z.leb_spec 0 pos); cbn [andb] in E; [|simplify_eq; apply emits_refl].
  destruct (Z.ltb_spec pos size); [|simplify_eq; apply emits_refl].
  destruct (zst_find_start_code data size (pos + code)) as [next nc] eqn:F.
  apply find_start_code_bounds in F; [|lia].
  set (e := if 0 <=? next then next else size) in *.
  assert (pos + code <= e <= size) by (unfold e; destruct (Z.leb_spec 0 next); lia).
  pose proof (strip_zeros_bounds (Z.to_nat (e - (pos + code))) data (pos + code) e ltac:(lia)).
  set (e' := strip_zeros _ _ _ _) in *. cbv zeta in E.
  assert (Hone : forall r0 s1 d1,
    (if 0 <? e' - (pos + code)
     then match send (S fuel) s d (drop (Z.to_nat (pos + code)) data) (e' - (pos + code)) ts (next <? 0) pts with
          | Some (one, s, d) => Some (if one =? ZST_OK then ret else one, s, d)
          | None => None
          end
     else Some (ret, s, d)) = Some (r0, s1, d1) -> emits pts s d s1 d1).
  { intros r0 s1 d1. destruct (0 <? _); [|intros; simplify_eq; apply emits_refl].
    destruct (send (S fuel) s d _ _ _ _ _) as [[[one s2] d2]|] eqn:Ps; [|done]. intros; simplify_eq.
    eapply Hsend; [done| |apply Ps]. rewrite zlen_drop by lia. lia. }
  destruct (if 0 <? _ then _ else _) as [[[r0 s1] d1]|] eqn:Q; [|done].
  specialize (Hone _ _ _ eq_refl).
  destruct (Z.ltb_spec next 0); [by simplify_eq|].
  eapply emits_trans; [apply Hone|]. eapply IH; [by eapply emits_ok|done| | |apply E]; lia.
Qed.

Lemma packetize_h264_emits fuel s d data size pts r s' d' :
  pay_ok s -> size <= zlen data ->
  rtp_payloader_packetize_h264 fuel s d data size pts = Some (r, s', d') -> emits pts s d s' d'.
Proof.
  intros Hok Hs. unfold rtp_payloader_packetize_h264.
  destruct (size <=? 0); [intros; simplify_eq; apply emits_refl|]. cbv zeta.
  destruct (zst_find_start_code data size 0) as [p c] eqn:F.
  apply find_start_code_bounds in F; [|done].
  destruct (Z.ltb_spec p 0); [by apply send_h264_nal_emits|].
  rewrite packetize_h264_loop_eq. apply packetize_loop_emits; try done; [|lia..].
  intros. by eapply send_h264_nal_emits.
Qed.

Lemma packetize_h265_emits fuel s d data size pts r s' d' :
  pay_ok s -> size <= zlen data ->
  rtp_payloader_packetize_h265 fuel s d data size pts = Some (r, s', d') -> emits pts s d s' d'.
Proof.
  intros Hok Hs. unfold rtp_payloader_packetize_h265.
  destruct (size <=? 0); [intros; simplify_eq; apply emits_refl|]. cbv zeta.
  destruct (zst_find_start_code data size 0) as [p c] eqn:F.
  apply find_start_code_bounds in F; [|done].
  destruct (Z.ltb_spec p 0); [by apply send_h265_nal_emits|].
  rewrite packetize_h265_loop_eq. apply packetize_loop_emits; try done; [|lia..].
  intros. by eapply send_h265_nal_emits.
Qed.

Lemma packetize_aac_emits s d data size pts r s' d' :
  pay_ok s -> size <= zlen data ->
  rtp_payloader_packetize_aac s d data size pts = (r, s', d') -> emits pts s d s' d'.
Proof.
  intros Hok Hs. unfold rtp_payloader_packetize_aac.
  destruct ((size <=? 0) || (8191 <? size)); [intros; simplify_eq; apply emits_refl|].
  destruct (pay_mtu s <? size + 4); [intros; simplify_eq; apply emits_refl|].
  by apply push_packet_emits.
Qed.

Lemma packetize_pcm_emits fuel s d data size pts r s' d' :
  pay_ok s -> size <= zlen data ->
  rtp_payloader_packetize_pcm fuel s d data size pts = Some (r, s', d') -> emits pts s d s' d'.
Proof.
  intros Hok Hs. unfold rtp_payloader_packetize_pcm.
  destruct (size <=? 0); [intros; simplify_eq; apply emits_refl|]. cbv zeta.
  generalize (if s32 (pay_channels s * pay_sample_size s) <=? 0 then 1
              else s32 (pay_channels s * pay_sample_size s)) as bpsf.
  generalize (rtp_payloader_pts_to_rtp_ts pts (pay_clock_rate s)) as base. intros base bpsf.
  assert (0 <= 0) as Ho by lia. revert Ho. generalize 0 at 2 3 as off. generalize ZST_OK as ret.
  revert s d Hok. induction fuel as [|fuel IH]; intros s d Hok ret off Ho; [done|].
  cbn [packetize_pcm_loop]. destruct (Z.ltb_spec off size); [|intros; simplify_eq; apply emits_refl].
  cbv zeta. set (chunk := if pay_mtu s <? size - off then pay_mtu s else size - off).
  pose proof (ok_mtu s Hok).
  assert (0 <= chunk <= size - off)
    by (unfold chunk; destruct (Z.ltb_spec (pay_mtu s) (size - off)); lia).
  destruct (rtp_payloader_push_packet _ _ _ _ _ _ _ _) as [[one s1] d1] eqn:P. intros E.
  assert (E1 : emits pts s d s1 d1).
  { eapply push_packet_emits; [done| |apply P]. rewrite zlen_drop by done. lia. }
  eapply emits_trans; [apply E1|]. eapply IH; [by eapply emits_ok| |apply E]. lia.
Qed.

Lemma pad_push_emits fuel s d buf r s' d' :
  pay_ok s -> buffer_ok buf ->
  rtp_payloader_pad_push fuel (Some s) d (Some buf) = Some (r, s', d') ->
  exists s1, s' = Some s1 /\ emits (buf_pts buf) s d s1 d'.
Proof.
  intros Hok (_ & _ & Hb). unfold rtp_payloader_pad_push.
  destruct (mem_data buf) as [data|].
  2:{ intros; simplify_eq. eauto using emits_refl. }
  destruct (_ || _); [intros; simplify_eq; eauto using emits_refl|].
  destruct (INT32_MAX <? _); [intros; simplify_eq; eauto using emits_refl|]. cbv zeta.
  destruct (pay_codec s).
  - destruct (rtp_payloader_packetize_h264 _ _ _ _ _ _) as [[[r1 s1] d1]|] eqn:E; [|done].
    intros; simplify_eq. eexists; split; [done|]. by eapply packetize_h264_emits.
  - destruct (rtp_payloader_packetize_h265 _ _ _ _ _ _) as [[[r1 s1] d1]|] eqn:E; [|done].
    intros; simplify_eq. eexists; split; [done|]. by eapply packetize_h265_emits.
  - destruct (rtp_payloader_packetize_aac _ _ _ _ _) as [[r1 s1] d1] eqn:E.
    intros; simplify_eq. eexists; split; [done|]. by eapply packetize_aac_emits.
  - destruct (rtp_payloader_packetize_pcm _ _ _ _ _ _) as [[[r1 s1] d1]|] eqn:E; [|done].
    intros; simplify_eq. eexists; split; [done|]. by eapply packetize_pcm_emits.
Qed.

End emits.

(** ** The packets on the wire *)

(** The header fields of a packet, as a receiver reads them. *)
Definition pkt_bytes (b : zst_buffer) : bytes := buf_bytes b.
Definition pkt_seq (b : zst_buffer) : Z := be16 (rd (pkt_bytes b) 2) (rd (pkt_bytes b) 3).
Definition pkt_ssrc (b : zst_buffer) : Z :=
  be32 (rd (pkt_bytes b) 8) (rd (pkt_bytes b) 9) (rd (pkt_bytes b) 10) (rd (pkt_bytes b) 11).
Definition pkt_pt (b : zst_buffer) : Z := Z.land (rd (pkt_bytes b) 1) 127.

Lemma count_all_seq s fs :
  pay_ok s -> pay_seq (count_all s fs) = u16 (pay_seq s + zlen fs) /\
  pay_packets (count_all s fs) = u64 (pay_packets s + zlen fs).
Proof.
  revert s. induction fs as [|f fs IH]; intros s Hok.
  - cbn [count_all]. rewrite zlen_nil, !Z.add_0_r. pose proof (ok_seq s Hok).
    pose proof (ok_packets s Hok). unfold UINT64_MAX in *.
    by rewrite u16_small, u64_small by lia.
  - cbn [count_all]. destruct (IH (pay_count s (zlen (fr_body f) + 12))) as [-> ->]; [by apply pay_count_ok|].
    cbn [pay_count pay_seq pay_packets]. rewrite zlen_cons. split; cint.
Qed.

Lemma packet_of_fields s pts f :
  pay_ok s ->
  pkt_seq (packet_of s pts f) = pay_seq s /\ pkt_ssrc (packet_of s pts f) = pay_ssrc s /\
  pkt_pt (packet_of s pts f) = pay_payload_type s /\
  mem_size (packet_of s pts f) = 12 + zlen (fr_body f).
Proof.
  intros Hok. unfold pkt_seq, pkt_ssrc, pkt_pt, pkt_bytes, packet_of.
  rewrite buf_bytes_of. unfold rtp_header. split_and!.
  - change (be16 (u8 (pay_seq s ≫ 8)) (u8 (Z.land (pay_seq s) 255)) = pay_seq s).
    rewrite (land_ones_mod _ 8) by lia. pose proof (ok_seq s Hok).
    rewrite <-(be16_u8 (pay_seq s)) at 3 by done. f_equal. cint.
  - apply be32_u8. apply Hok.
  - change (Z.land (u8 (Z.lor (if fr_marker f then 128 else 0) (Z.land (pay_payload_type s) 127))) 127
      = pay_payload_type s).
    pose proof (ok_pt s Hok). rewrite (land_ones_mod (pay_payload_type s) 7), Z.mod_small by lia.
    unfold u8. change 256 with (2 ^ 8). rewrite <-Z.land_ones, <-Z.land_assoc, Z.land_lor_distr_l by lia.
    change (Z.land (Z.ones 8) 127) with 127. rewrite (land_ones_mod (pay_payload_type s) 7), Z.mod_small by lia.
    by destruct (fr_marker f).
  - unfold buffer_of. cbn [mem_size]. by rewrite zlen_app.
Qed.

(** The [k]-th packet emitted. *)
Lemma emit_lookup s pts fs k b :
  emit s pts fs !! k = Some b ->
  exists f, fs !! k = Some f /\ b = packet_of (count_all s (take k fs)) pts f.
Proof.
  revert s k. induction fs as [|f fs IH]; intros s [|k] E; try done.
  - simpl in E. simplify_eq. by exists f.
  - by apply IH in E.
Qed.

(** What holds of a stream of packets a payloader in state [s] sends before it
    reaches [s']. *)
Definition stream_ok (s s' : rtp_payloader_t) (bs : list zst_buffer) : Prop :=
  pay_seq s' = u16 (pay_seq s + zlen bs) /\
  pay_packets s' = u64 (pay_packets s + zlen bs) /\
  forall k b, bs !! k = Some b ->
    pkt_seq b = u16 (pay_seq s + Z.of_nat k) /\ pkt_ssrc b = pay_ssrc s /\
    pkt_pt b = pay_payload_type s /\ mem_size b = zlen (pkt_bytes b) /\
    12 <= mem_size b <= RTP_PAYLOADER_MAX_PAYLOAD + 12 /\
    (pay_strict_mtu s = true -> mem_size b <= pay_mtu s).

Lemma emit_stream_ok s pts fs :
  pay_ok s -> Forall (fits s) fs -> stream_ok s (count_all s fs) (emit s pts fs).
Proof.
  intros Hok Hf. assert (zlen (emit s pts fs) = zlen fs) as Hl by (unfold zlen; by rewrite emit_length).
  destruct (count_all_seq s fs Hok) as [Hs Hp].
  split_and!; [by rewrite Hl|by rewrite Hl|].
  intros k b (f & Hk & ->)%emit_lookup.
  destruct (count_all_config s (take k fs)) as (_ & _ & _ & _ & Hpt & Hssrc).
  pose proof (packet_of_fields _ pts f (count_all_ok s (take k fs) Hok)) as (-> & -> & -> & ->).
  destruct (count_all_seq s (take k fs) Hok) as [-> _].
  assert (zlen (take k fs) = Z.of_nat k) as ->.
  { unfold zlen. rewrite length_take_le; [done|]. apply lookup_lt_Some in Hk. lia. }
  eapply Forall_lookup_1 in Hf as [Hmax Hstrict]; [|done]. pose proof (zlen_nonneg (fr_body f)).
  split_and!; try done; try lia.
  - unfold pkt_bytes, packet_of. rewrite buf_bytes_of, zlen_app.
    by change (zlen (rtp_header (count_all s (take k fs)) (fr_ts f) (fr_marker f))) with 12.
  - intros ?%Hstrict. lia.
Qed.

(** C36. Whatever arrives on the sink pad, in any state, with any pool and any
    allocator, when the push returns it has sent a run of packets numbered on from the
    payloader's sequence number, all carrying its SSRC and payload type, none
    longer than the MTU in strict mode, and the counters say how many they were. *)
Theorem pad_push_stream `{CMemory} fuel s (d : trace) buf r s' d' :
  pay_ok s -> buffer_ok buf ->
  rtp_payloader_pad_push fuel (Some s) (Some d) (Some buf) = Some (r, s', d') ->
  exists s1 bs, s' = Some s1 /\ d' = Some (d ++ bs) /\ stream_ok s s1 bs.
Proof.
  intros Hok Hb E. destruct (pad_push_emits _ _ _ _ _ _ _ Hok Hb E) as (s1 & -> & fs & Hf & -> & ->).
  exists (count_all s fs), (emit s (buf_pts buf) fs). split_and!; [done| |by apply emit_stream_ok].
  unfold next_peer. by rewrite push_all_trace.
Qed.

(** ** Termination, and the MTUs without it *)

(** The MTUs that leave room for a fragment, or make every NAL unit an error. *)
Definition fu_room (s : rtp_payloader_t) : Prop :=
  match pay_codec s with
  | RTP_PAYLOADER_CODEC_H264 => pay_mtu s <= 12 \/ 15 <= pay_mtu s
  | RTP_PAYLOADER_CODEC_H265 => pay_mtu s <= 12 \/ 16 <= pay_mtu s
  | _ => True
  end.

Section total.
Context {D : Type} `{PadSink D} `{CMemory}.
Implicit Type d : option D.

Lemma push_packet_mtu s d hdr pl n ts m pts r s' d' :
  rtp_payloader_push_packet s d hdr pl n ts m pts = (r, s', d') -> pay_mtu s' = pay_mtu s.
Proof.
  unfold rtp_payloader_push_packet, rtp_payloader_make_packet. cbv zeta.
  destruct (_ || _ || _); [by intros; simplify_eq|].
  destruct (_ && _); [by intros; simplify_eq|]. destruct (_ || _); [|by intros; simplify_eq].
  destruct (push_peer d _) as [r1 d1]. by intros; simplify_eq.
Qed.

Lemma send_fu_loop_total fuel s d nal nal_len n hdr off first ret ts marker pts :
  0 < n -> nal_len - off < Z.of_nat fuel -> (0 < fuel)%nat ->
  exists r s' d', send_fu_loop fuel s d nal nal_len n hdr off first ret ts marker pts = Some (r, s', d')
    /\ pay_mtu s' = pay_mtu s.
Proof.
  intros Hn. revert s d off first ret. induction fuel as [|fuel IH]; intros s d off first ret Hf Hp; [lia|].
  cbn [send_fu_loop]. destruct (Z.ltb_spec off nal_len) as [Ho|Ho]; [|eauto]. cbv zeta.
  assert (0 < if n <? nal_len - off then n else nal_len - off)
    by (destruct (Z.ltb_spec n (nal_len - off)); lia).
  destruct (rtp_payloader_push_packet _ _ _ _ _ _ _ _) as [[one s1] d1] eqn:P.
  rewrite <-(push_packet_mtu _ _ _ _ _ _ _ _ _ _ _ P). apply IH; lia.
Qed.

Lemma send_h264_nal_total fuel s d nal nal_len ts marker pts :
  pay_mtu s <= 12 \/ 15 <= pay_mtu s -> nal_len < Z.of_nat fuel ->
  exists r s' d', rtp_payloader_send_h264_nal fuel s d nal nal_len ts marker pts = Some (r, s', d')
    /\ pay_mtu s' = pay_mtu s.
Proof.
  intros Hm Hf. unfold rtp_payloader_send_h264_nal. destruct (Z.leb_spec nal_len 0); [eauto|]. cbv zeta.
  destruct (Z.ltb_spec (pay_mtu s - 12) 1); [eauto|]. destruct (nal_len <=? _).
  - destruct (rtp_payloader_push_packet _ _ _ _ _ _ _ _) as [[one s1] d1] eqn:P.
    apply push_packet_mtu in P. eauto.
  - rewrite send_h264_loop_fu. apply send_fu_loop_total; lia.
Qed.

Lemma send_h265_nal_total fuel s d nal nal_len ts marker pts :
  pay_mtu s <= 12 \/ 16 <= pay_mtu s -> nal_len < Z.of_nat fuel ->
  exists r s' d', rtp_payloader_send_h265_nal fuel s d nal nal_len ts marker pts = Some (r, s', d')
    /\ pay_mtu s' = pay_mtu s.
Proof.
  intros Hm Hf. unfold rtp_payloader_send_h265_nal. destruct (Z.ltb_spec nal_len 2); [eauto|]. cbv zeta.
  destruct (Z.ltb_spec (pay_mtu s - 12) 1); [eauto|]. destruct (nal_len <=? _).
  - destruct (rtp_payloader_push_packet _ _ _ _ _ _ _ _) as [[one s1] d1] eqn:P.
    apply push_packet_mtu in P. eauto.
  - rewrite send_h265_loop_fu. apply send_fu_loop_total; lia.
Qed.

Lemma packetize_loop_total (P : Z -> Prop) send fuel s d data size pos code ts pts ret :
  (forall fuel s d nal n ts m, P (pay_mtu s) -> n < Z.of_nat fuel ->
     exists r s' d', send fuel s d nal n ts m pts = Some (r, s', d') /\ pay_mtu s' = pay_mtu s) ->
  P (pay_mtu s) -> size - pos < Z.of_nat fuel -> (0 < fuel)%nat -> 0 < code -> pos + code <= size ->
  exists x, packetize_loop send fuel s d data size pos code ts pts ret = Some x.
Proof.
  intros Hsend. revert s d pos code ret. induction fuel as [|fuel IH]; intros s d pos code ret HP Hf Hp Hc Hpos;
    [lia|]. cbn [packetize_loop].
  destruct (Z.leb_spec 0 pos); cbn [andb]; [|eauto]. destruct (Z.ltb_spec pos size); [|eauto].
  destruct (zst_find_start_code data size (pos + code)) as [next nc] eqn:F.
  apply find_start_code_bounds in F; [|lia]. cbv zeta.
  assert (pos + code <= (if 0 <=? next then next else size) <= size)
    by (destruct (Z.leb_spec 0 next); lia).
  set (e := if 0 <=? next then next else size) in *.
  pose proof (strip_zeros_bounds (Z.to_nat (e - (pos + code))) data (pos + code) e ltac:(lia)).
  set (e' := strip_zeros _ _ _ _) in *.
  assert (Hone : exists r1 s1 d1,
    (if 0 <? e' - (pos + code)
     then match send (S fuel) s d (drop (Z.to_nat (pos + code)) data) (e' - (pos + code)) ts (next <? 0) pts with
          | Some (one, s, d) => Some (if one =? ZST_OK then ret else one, s, d)
          | None => None
          end
     else Some (ret, s, d)) = Some (r1, s1, d1) /\ pay_mtu s1 = pay_mtu s).
  { destruct (0 <? _); [|eauto].
    destruct (Hsend (S fuel) s d (drop (Z.to_nat (pos + code)) data) (e' - (pos + code)) ts (next <? 0))
      as (r1 & s1 & d1 & -> & ?); [done|lia|eauto]. }
  destruct Hone as (r1 & s1 & d1 & -> & Hm). destruct (Z.ltb_spec next 0); [eauto|].
  apply IH; try lia. by rewrite Hm.
Qed.

Lemma packetize_pcm_loop_total fuel s d data size bpsf base off pts ret :
  0 < pay_mtu s -> size - off < Z.of_nat fuel -> (0 < fuel)%nat ->
  exists x, packetize_pcm_loop fuel s d data size bpsf base off pts ret = Some x.
Proof.
  revert s d off ret. induction fuel as [|fuel IH]; intros s d off ret Hm Hf Hp; [lia|].
  cbn [packetize_pcm_loop]. destruct (Z.ltb_spec off size); [|eauto]. cbv zeta.
  assert (0 < if pay_mtu s <? size - off then pay_mtu s else size - off)
    by (destruct (Z.ltb_spec (pay_mtu s) (size - off)); lia).
  destruct (rtp_payloader_push_packet _ _ _ _ _ _ _ _) as [[one s1] d1] eqn:P.
  apply push_packet_mtu in P. apply IH; lia.
Qed.

(** C39. A push returns, with one round of fuel per byte and one more, whenever the MTU
    leaves room for a fragment of at least one byte (or none at all for any
    payload). *)
Theorem pad_push_returns fuel s d buf :
  pay_ok s -> buffer_ok buf -> fu_room s -> mem_size buf < Z.of_nat fuel ->
  exists r, rtp_payloader_pad_push fuel (Some s) d (Some buf) = Some r.
Proof.
  intros Hok (Hsz & _ & Hb) Hr Hf. unfold rtp_payloader_pad_push.
  destruct (mem_data buf) as [data|]; [|eauto]. destruct (_ || _); [eauto|].
  destruct (INT32_MAX <? _); [eauto|]. cbv zeta. unfold fu_room in Hr.
  destruct (pay_codec s); unfold rtp_payloader_packetize_h264, rtp_payloader_packetize_h265,
    rtp_payloader_packetize_pcm.
  - destruct (Z.leb_spec (mem_size buf) 0); [eauto|]. cbv zeta.
    destruct (zst_find_start_code _ _ 0) as [p c] eqn:F. apply find_start_code_bounds in F; [|done].
    destruct (Z.ltb_spec p 0).
    + edestruct send_h264_nal_total as (r & s' & d' & -> & _); [apply Hr|apply Hf|eauto].
    + rewrite packetize_h264_loop_eq.
      edestruct (packetize_loop_total (fun m => m <= 12 \/ 15 <= m)) as [[[r s'] d'] ->];
        [intros; by apply send_h264_nal_total|done|lia|lia|lia|lia|eauto].
  - destruct (Z.leb_spec (mem_size buf) 0); [eauto|]. cbv zeta.
    destruct (zst_find_start_code _ _ 0) as [p c] eqn:F. apply find_start_code_bounds in F; [|done].
    destruct (Z.ltb_spec p 0).
    + edestruct send_h265_nal_total as (r & s' & d' & -> & _); [apply Hr|apply Hf|eauto].
    + rewrite packetize_h265_loop_eq.
      edestruct (packetize_loop_total (fun m => m <= 12 \/ 16 <= m)) as [[[r s'] d'] ->];
        [intros; by apply send_h265_nal_total|done|lia|lia|lia|lia|eauto].
  - destruct (rtp_payloader_packetize_aac _ _ _ _ _) as [[r s'] d']. eauto.
  - destruct (Z.leb_spec (mem_size buf) 0); [eauto|]. cbv zeta. pose proof (ok_mtu s Hok).
    edestruct packetize_pcm_loop_total as [[[r s'] d'] ->]; [..|eauto]; lia.
Qed.

Lemma send_fu_loop_stuck fuel s d nal nal_len n hdr off first ret ts marker pts :
  n <= 0 -> off < nal_len ->
  send_fu_loop fuel s d nal nal_len n hdr off first ret ts marker pts = None.
Proof.
  intros Hn. revert s d off first ret. induction fuel as [|fuel IH]; intros s d off first ret Ho; [done|].
  cbn [send_fu_loop]. destruct (Z.ltb_spec off nal_len); [|lia]. cbv zeta.
  destruct (Z.ltb_spec n (nal_len - off)); [|lia].
  destruct (rtp_payloader_push_packet _ _ _ _ _ _ _ _) as [[one s1] d1]. apply IH. lia.
Qed.

(** The MTUs [set_property] accepts but fragmentation cannot serve: 13 and 14 for H.264,
    13 to 15 for H.265.  No amount of fuel lets the loop finish a NAL unit that
    does not fit one packet: the offset never grows. *)
Theorem send_nal_small_mtu_loops fuel s d nal nal_len ts marker pts :
  pay_mtu s - 12 < nal_len ->
  (13 <= pay_mtu s <= 14 ->
   rtp_payloader_send_h264_nal fuel s d nal nal_len ts marker pts = None) /\
  (13 <= pay_mtu s <= 15 -> 2 < nal_len ->
   rtp_payloader_send_h265_nal fuel s d nal nal_len ts marker pts = None).
Proof.
  intros Hl. unfold rtp_payloader_send_h264_nal, rtp_payloader_send_h265_nal. split.
  - intros Hm. destruct (Z.leb_spec nal_len 0); [lia|]. cbv zeta.
    destruct (Z.ltb_spec (pay_mtu s - 12) 1); [lia|]. destruct (Z.leb_spec nal_len (pay_mtu s - 12)); [lia|].
    rewrite send_h264_loop_fu. apply send_fu_loop_stuck; lia.
  - intros Hm H2. destruct (Z.ltb_spec nal_len 2); [lia|]. cbv zeta.
    destruct (Z.ltb_spec (pay_mtu s - 12) 1); [lia|]. destruct (Z.leb_spec nal_len (pay_mtu s - 12)); [lia|].
    rewrite send_h265_loop_fu. apply send_fu_loop_stuck; lia.
Qed.

End total.

(** ** AAC and PCM *)

Section audio.
Context {D : Type} `{PadSink D} `{CMemoryOk}.
Implicit Type d : option D.

(** The AU-header section of a packet with one access unit of [n] bytes. *)
Definition aac_hdr (n : Z) : bytes := [0; 16; u8 (n / 32); u8 (n * 8)].

Definition aac_frag (rate pts : Z) (au : bytes) : frag :=
  mk_frag (aac_hdr (zlen au) ++ au) true (rtp_payloader_pts_to_rtp_ts pts rate).

Lemma packetize_aac_spec s d au pts :
  pay_ok s -> 0 < zlen au <= 8191 ->
  rtp_payloader_packetize_aac s d au (zlen au) pts =
  if (pay_mtu s <? zlen au + 4) || (pay_strict_mtu s && (pay_mtu s <? zlen au + 16)) then (ZST_ERROR, s, d)
  else send_all s d ZST_OK pts [aac_frag (pay_clock_rate s) pts au].
Proof.
  intros Hok [Hlo Hhi]. unfold rtp_payloader_packetize_aac.
  destruct (Z.leb_spec (zlen au) 0); [lia|]. destruct (Z.ltb_spec 8191 (zlen au)); [lia|]. cbn [orb].
  destruct (Z.ltb_spec (pay_mtu s) (zlen au + 4)) as [|Hm]; [done|]. cbn [orb].
  assert (Hhdr : [0; 16; u8 (Z.shiftr (u16 (Z.shiftl (zlen au) 3)) 8);
            u8 (Z.land (u16 (Z.shiftl (zlen au) 3)) 255)] = aac_hdr (zlen au)).
  { unfold aac_hdr. rewrite Z.shiftl_mul_pow2, (shiftr_div _ 8 256), (land_ones_mod _ 8) by lia.
    change (2 ^ 3) with 8; change (2 ^ 8) with 256.
    assert (u8 (u16 (zlen au * 8) / 256) = u8 (zlen au / 32)) as -> by cint.
    by assert (u8 (u16 (zlen au * 8) mod 256) = u8 (zlen au * 8)) as -> by cint. }
  cbv zeta. rewrite Hhdr. pose proof (ok_mtu s Hok) as Hmtu. unfold RTP_PAYLOADER_MAX_PAYLOAD in Hmtu.
  destruct (pay_strict_mtu s && (pay_mtu s <? zlen au + 16)) eqn:G.
  - apply andb_true_iff in G as [G1 G2%Z.ltb_lt].
    unfold rtp_payloader_push_packet, rtp_payloader_make_packet. change (zlen (aac_hdr (zlen au))) with 4.
    rewrite G1, u64_small by lia. cbv zeta.
    destruct (_ || _ || _); [done|]. destruct (Z.ltb_spec (pay_mtu s) (zlen au + 4 + 12)); [done|lia].
  - rewrite push_packet_fits; [|done|lia|].
    + rewrite sub_bytes_all by done. unfold send_all. cbn [emit push_all count_all].
      unfold aac_frag. cbn [fr_body]. by destruct (push_peer d _) as [[|?|?] d'].
    + rewrite sub_bytes_all by done. unfold fits, RTP_PAYLOADER_MAX_PAYLOAD. cbn [fr_body]. rewrite zlen_app.
      change (zlen (aac_hdr (zlen au))) with 4. split; [lia|]. intros E. rewrite E in G.
      apply Z.ltb_ge in G. lia.
Qed.

(** The PCM packets: chunks of [mtu] bytes, the timestamp advancing by whole sample
    frames, the marker on the last. *)
Fixpoint pcm_frags (base bpsf n off : Z) (cs : list bytes) : list frag :=
  match cs with
  | [] => []
  | c :: cs' =>
      mk_frag c (match cs' with [] => true | _ => false end) (u32 (base + u32 (off / bpsf)))
        :: pcm_frags base bpsf n (off + n) cs'
  end.

Definition pay_bpsf (s : rtp_payloader_t) : Z :=
  let b := s32 (pay_channels s * pay_sample_size s) in if b <=? 0 then 1 else b.

Lemma packetize_pcm_loop_spec k s d data bpsf base off pts ret :
  pay_ok s -> pay_strict_mtu s = false -> 0 <= off -> zlen data - off <= Z.of_nat k ->
  packetize_pcm_loop (S k) s d data (zlen data) bpsf base off pts ret =
  Some (send_all s d ret pts
          (pcm_frags base bpsf (pay_mtu s) off (chunks k (pay_mtu s) (drop (Z.to_nat off) data)))).
Proof.
  revert s d off ret. induction k as [|k IH]; intros s d off ret Hok Hstrict Ho Hk.
  { cbn [packetize_pcm_loop chunks pcm_frags]. destruct (Z.ltb_spec off (zlen data)); [lia|done]. }
  set (body := S k) in *. cbn [packetize_pcm_loop]. subst body. cbn [chunks].
  rewrite zlen_drop by done. pose proof (ok_mtu s Hok) as Hmtu. unfold RTP_PAYLOADER_MAX_PAYLOAD in Hmtu.
  destruct (Z.ltb_spec off (zlen data)) as [Hlt|Hge].
  2:{ destruct (Z.eqb_spec (Z.max 0 (zlen data - off)) 0); [done|lia]. }
  destruct (Z.eqb_spec (Z.max 0 (zlen data - off)) 0); [lia|].
  rewrite (Z.max_r 0 (zlen data - off)) by lia. cbv zeta.
  assert (Hc : (if pay_mtu s <? zlen data - off then pay_mtu s else zlen data - off) = Z.min (zlen data - off) (pay_mtu s))
    by (destruct (Z.ltb_spec (pay_mtu s) (zlen data - off)); lia).
  rewrite Hc. set (chunk := Z.min (zlen data - off) (pay_mtu s)) in *.
  rewrite drop_drop, <-Z2Nat.inj_add by lia.
  assert (Hlen : zlen (drop (Z.to_nat off) data) = zlen data - off) by (rewrite zlen_drop; lia).
  rewrite push_packet_fits; [|done|lia|].
  2:{ unfold fits, RTP_PAYLOADER_MAX_PAYLOAD. cbn [fr_body app]. rewrite zlen_sub_bytes by lia.
      rewrite Hstrict. split; [lia|done]. }
  assert (Hlast : (zlen data <=? off + chunk) =
    match chunks k (pay_mtu s) (drop (Z.to_nat (off + pay_mtu s)) data) with [] => true | _ => false end).
  { pose proof (chunks_nil k (pay_mtu s) (drop (Z.to_nat (off + pay_mtu s)) data)) as E.
    rewrite zlen_drop in E by lia. specialize (E ltac:(lia)).
    destruct (chunks k (pay_mtu s) _); destruct (Z.leb_spec (zlen data) (off + chunk)); try done.
    - destruct E as [E _]. specialize (E eq_refl). lia.
    - destruct E as [_ E]. discriminate E. lia. }
  rewrite Hlast. cbn [pcm_frags app]. rewrite send_all_cons. cbn [fr_body].
  destruct (push_peer d _) as [one d']. cbv beta iota.
  destruct (Z.leb_spec (zlen data) (off + chunk)) as [Hend|Hmore].
  - destruct (chunks k (pay_mtu s) _) eqn:E; [|done]. cbn [pcm_frags send_all].
    cbn [packetize_pcm_loop]. destruct (Z.ltb_spec (off + chunk) (zlen data)); [lia|done].
  - replace (off + chunk) with (off + pay_mtu s) by lia.
    rewrite IH; [done|by apply pay_count_ok|done|lia|lia].
Qed.

Lemma pcm_frags_length base bpsf n off cs : zlen (pcm_frags base bpsf n off cs) = zlen cs.
Proof. revert off. induction cs as [|c cs IH]; intros; [done|]. cbn [pcm_frags]. by rewrite !zlen_cons, IH. Qed.

Lemma pcm_frags_lookup base bpsf n off cs j f :
  pcm_frags base bpsf n off cs !! j = Some f ->
  cs !! j = Some (fr_body f) /\ fr_marker f = (Z.of_nat j =? zlen cs - 1) /\
  fr_ts f = u32 (base + u32 ((off + Z.of_nat j * n) / bpsf)).
Proof.
  revert off j. induction cs as [|c cs IH]; intros off [|j] E; try done; cbn [pcm_frags lookup list_lookup] in E.
  - simplify_eq. cbn [fr_body fr_marker fr_ts]. split_and!; [done| |].
    + destruct cs; [done|]. rewrite !zlen_cons. pose proof (zlen_nonneg cs). symmetry. apply Z.eqb_neq. lia.
    + by replace (off + Z.of_nat 0 * n) with off by lia.
  - apply IH in E as (? & -> & ->). split_and!; [done| |].
    + rewrite zlen_cons. destruct (Z.eqb_spec (Z.of_nat j) (zlen cs - 1)); symmetry;
        [apply Z.eqb_eq|apply Z.eqb_neq]; lia.
    + by replace (off + Z.of_nat (S j) * n) with (off + n + Z.of_nat j * n) by lia.
Qed.

(** Without [strict-mtu], a PCM buffer goes out whole, in chunks of [mtu] bytes. *)
Theorem packetize_pcm_lossless fuel s d data pts :
  pay_ok s -> pay_strict_mtu s = false -> 0 < zlen data < Z.of_nat fuel ->
  exists fs,
    rtp_payloader_packetize_pcm fuel s d data (zlen data) pts = Some (send_all s d ZST_OK pts fs) /\
    concat (map fr_body fs) = data /\
    (forall k f, fs !! k = Some f ->
       0 < zlen (fr_body f) <= pay_mtu s /\ fr_marker f = (Z.of_nat k =? zlen fs - 1) /\
       fr_ts f = u32 (rtp_payloader_pts_to_rtp_ts pts (pay_clock_rate s)
                      + u32 (Z.of_nat k * pay_mtu s / pay_bpsf s))).
Proof.
  intros Hok Hstrict [Hlo Hhi]. unfold rtp_payloader_packetize_pcm.
  destruct (Z.leb_spec (zlen data) 0); [lia|]. cbv zeta. fold (pay_bpsf s).
  destruct fuel as [|k]; [lia|]. eexists. pose proof (ok_mtu s Hok). split; [|split].
  - apply packetize_pcm_loop_spec; try done; lia.
  - cbn [Z.to_nat]. rewrite drop_0. generalize 0 as off.
    transitivity (concat (chunks k (pay_mtu s) data)); [|apply chunks_concat; lia]. revert off.
    induction (chunks k (pay_mtu s) data) as [|c cs IH]; intros off; [done|]. cbn. by rewrite IH.
  - cbn [Z.to_nat]. rewrite drop_0. intros j f Hj.
    apply pcm_frags_lookup in Hj as (Hin & -> & ->). split; [|split; [|done]].
    + apply (chunks_bounds k (pay_mtu s) data); [lia|]. by eapply list_elem_of_lookup_2.
    + by rewrite pcm_frags_length.
Qed.

Lemma packetize_pcm_loop_strict k m s d data bpsf base off pts ret :
  pay_ok s -> pay_strict_mtu s = true -> 0 <= off ->
  zlen data - off = Z.of_nat m * pay_mtu s -> zlen data - off <= Z.of_nat k ->
  packetize_pcm_loop (S k) s d data (zlen data) bpsf base off pts ret =
  Some (if (0 <? Z.of_nat m) then ZST_ERROR else ret, s, d).
Proof.
  intros Hok Hs. pose proof (ok_mtu s Hok) as Hm. unfold RTP_PAYLOADER_MAX_PAYLOAD in Hm.
  revert m off ret. induction k as [|k IH]; intros m off ret Ho Hd Hk.
  { assert (m = 0%nat) as -> by nia. cbn [packetize_pcm_loop].
    destruct (Z.ltb_spec off (zlen data)); [lia|done]. }
  set (f := S k) in *. cbn [packetize_pcm_loop]. destruct (Z.ltb_spec off (zlen data)).
  2:{ by assert (m = 0%nat) as -> by nia. }
  destruct m as [|m]; [lia|]. cbv zeta.
  assert ((if pay_mtu s <? zlen data - off then pay_mtu s else zlen data - off) = pay_mtu s) as ->
    by (destruct (Z.ltb_spec (pay_mtu s) (zlen data - off)); nia).
  unfold rtp_payloader_push_packet, rtp_payloader_make_packet. rewrite Hs, u64_small by lia.
  cbv zeta. destruct (_ || _ || _);
    [|rewrite zlen_nil; destruct (Z.ltb_spec (pay_mtu s) (pay_mtu s + 0 + 12)); [cbn [andb]|lia]];
    (subst f; rewrite (IH m); [|lia|nia|lia]; by destruct (0 <? Z.of_nat m)).
Qed.

(** With [strict-mtu], the default, a PCM buffer of full chunks is lost: the loop cuts
    chunks of [mtu] payload bytes, and each packet of [mtu + 12] is refused. *)
Theorem packetize_pcm_strict_loses fuel s d data pts m :
  pay_ok s -> pay_strict_mtu s = true -> zlen data = Z.of_nat (S m) * pay_mtu s ->
  zlen data < Z.of_nat fuel ->
  rtp_payloader_packetize_pcm fuel s d data (zlen data) pts = Some (ZST_ERROR, s, d).
Proof.
  intros Hok Hs Hd Hf. pose proof (ok_mtu s Hok) as Hm. unfold rtp_payloader_packetize_pcm.
  destruct (Z.leb_spec (zlen data) 0); [nia|]. cbv zeta. destruct fuel as [|k]; [lia|].
  by rewrite (packetize_pcm_loop_strict k (S m)) by (done || lia).
Qed.

End audio.

(** ** Properties and the life cycle *)

Lemma parse_codec_to_string c :
  rtp_payloader_parse_codec (rtp_payloader_codec_to_string c) = Some c.
Proof. by destruct c. Qed.

(** Evaluates the name tests of a known name. *)
Ltac eval_names :=
  repeat match goal with
  | |- context [name_in ?a ?b] =>
      let v := eval vm_compute in (name_in a b) in change (name_in a b) with v
  | H : context [name_in ?a ?b] |- _ =>
      let v := eval vm_compute in (name_in a b) in change (name_in a b) with v in H
  end.

Lemma parse_onoff_text (b : bool) :
  parse_onoff (if b then "on" else "off")%string = b /\
  parse_onoff (if b then "true" else "false")%string = b.
Proof. by destruct b. Qed.

Ltac fields_ok := constructor; cbn; unfold RTP_PAYLOADER_MAX_PAYLOAD in *; cint.

(** What a property set returns can be read back, and setting the text read back
    changes nothing. *)
Definition readback (s : rtp_payloader_t) (name : string) (max_len : Z) : Prop :=
  exists text, rtp_payloader_get_property (Some s) (Some name) max_len = Some text /\
               rtp_payloader_set_property (Some s) (Some name) (Some text) = (ZST_OK, Some s).

(** Whatever value [set_property] accepts under whatever name, [get_property]
    returns a text for it, under the same name, that sets the same state again. *)
Theorem payloader_property_roundtrip s name value s' max_len :
  pay_ok s -> 32 <= max_len ->
  rtp_payloader_set_property (Some s) (Some name) (Some value) = (ZST_OK, Some s') ->
  readback s' name max_len /\ pay_ok s'.
Proof.
  intros Hok Hlen Hset. unfold readback, rtp_payloader_set_property, rtp_payloader_get_property in *.
  destruct (Z.eqb_spec max_len 0); [lia|]. cbv zeta in *.
  destruct (name_in name ["codec"; "media"; "encoding"]%string).
  { destruct (rtp_payloader_parse_codec value) as [c|]; [|done]. simplify_eq. split.
    - eexists. split; [done|]. cbn [pay_codec pay_set_codec pay_clock_rate].
      rewrite snprintf_all by (destruct c; simpl; lia). rewrite parse_codec_to_string.
      destruct c; try done; cbn; unfold RTP_PAYLOADER_DEFAULT_RATE_VIDEO;
        destruct (Z.eqb_spec (pay_clock_rate s) 90000) as [|E]; try done; apply Z.eqb_neq in E; by rewrite E.
    - destruct Hok. constructor; cbn; try done. destruct c; try done;
      destruct (pay_clock_rate s =? _); done. }
  destruct Hok as [Hpt Hssrc Hseq Hrate Hmtu Hch Hss Hpk Hby Hex].
  unfold RTP_PAYLOADER_MAX_PAYLOAD in *.
  destruct (name_in name ["payload-type"; _; _; _]%string).
  { destruct (Z.ltb_spec (atoi value) 0), (Z.ltb_spec 127 (atoi value)); ok_result Hset.
    rewrite u8_small by lia. split; [|fields_ok]. eexists. split; [done|]. cbn [pay_payload_type pay_set_nums].
    rewrite snprintf_show, atoi_show by cint.
    destruct (Z.ltb_spec (atoi value) 0), (Z.ltb_spec 127 (atoi value)); try lia.
    by rewrite u8_small by lia. }
  destruct (name_in name ["ssrc"; _; _]%string).
  { ok_result Hset. pose proof (u32_range (strtoul0 value)).
    split; [|fields_ok]. eexists. split; [done|]. cbn [pay_ssrc pay_set_nums].
    rewrite snprintf_show, strtoul0_show by cint. by rewrite (u32_small (u32 _)). }
  destruct (name_in name ["clock-rate"; _; _]%string).
  { destruct (Z.leb_spec (atoi value) 0); [done|]. ok_result Hset. pose proof (atoi_range value).
    rewrite u32_small by lia. split; [|fields_ok]. eexists. split; [done|].
    cbn [pay_clock_rate pay_set_nums]. rewrite snprintf_show, atoi_show by cint.
    destruct (Z.leb_spec (atoi value) 0); [lia|]. by rewrite u32_small by lia. }
  destruct (name_in name ["mtu"]%string).
  { destruct (Z.ltb_spec (atoi value) 4), (Z.ltb_spec 65507 (atoi value)); ok_result Hset. split; [|fields_ok]. eexists. split; [done|].
    cbn [pay_mtu pay_set_nums]. rewrite snprintf_show, atoi_show by cint.
    by destruct (Z.ltb_spec (atoi value) 4), (Z.ltb_spec 65507 (atoi value)); try lia. }
  destruct (name_in name ["channels"]%string).
  { destruct (Z.leb_spec (atoi value) 0); [done|]. ok_result Hset. pose proof (atoi_range value).
    split; [|fields_ok]. eexists. split; [done|].
    cbn [pay_channels pay_set_nums]. rewrite snprintf_show, atoi_show by cint.
    by destruct (Z.leb_spec (atoi value) 0); [lia|]. }
  destruct (name_in name ["sample-size"; _]%string).
  { destruct (Z.leb_spec (atoi value) 0); [done|]. ok_result Hset. pose proof (atoi_range value).
    split; [|fields_ok]. eexists. split; [done|].
    cbn [pay_sample_size pay_set_nums]. rewrite snprintf_show, atoi_show by cint.
    by destruct (Z.leb_spec (atoi value) 0); [lia|]. }
  destruct (name_in name ["seq"; _; _]%string).
  { ok_result Hset. pose proof (u16_range (Z.land (strtoul0 value) 65535)).
    split; [|fields_ok]. eexists. split; [done|]. cbn [pay_seq pay_set_nums].
    rewrite snprintf_show, strtoul0_show by cint. rewrite (land_ones_mod (u16 _) 16) by lia.
    by rewrite (u16_small (_ mod _)), Z.mod_small by (change (2 ^ 16) with 65536; cint). }
  assert (Hmode : forall b1 b2 b3, pay_ok (pay_set_modes s b1 b2 b3)) by by constructor.
  destruct (name_in name ["st2110-mode"]%string) eqn:N.
  { apply name_in_1 in N as ->. eval_names. ok_result Hset. split; [|done]. eexists. split; [done|].
    rewrite snprintf_all by (cbn; case_match; simpl; lia). by destruct (parse_onoff value). }
  destruct (name_in name ["ext-seq"]%string) eqn:N1.
  { apply name_in_1 in N1 as ->. eval_names. ok_result Hset. split; [|done]. eexists. split; [done|].
    rewrite snprintf_all by (cbn; case_match; simpl; lia). by destruct (parse_onoff value). }
  destruct (name_in name ["strict-mtu"]%string) eqn:N2; [|done].
  { apply name_in_1 in N2 as ->. eval_names. ok_result Hset. split; [|done]. eexists. split; [done|].
    rewrite snprintf_all by (cbn; case_match; simpl; lia). by destruct (parse_onoff value). }
Qed.

(** One call into the element, with whatever the environment passes it. *)
Inductive pay_call `{CMemory} : rtp_payloader_t -> rtp_payloader_t -> Prop :=
| call_open s s' : rtp_payloader_open (Some s) = (ZST_OK, Some s') -> pay_call s s'
| call_close s s' : rtp_payloader_close (Some s) = (ZST_OK, Some s') -> pay_call s s'
| call_set s s' name value :
    rtp_payloader_set_property (Some s) name value = (ZST_OK, Some s') -> pay_call s s'
| call_push fuel s (d d' : option trace) buf r s' :
    buffer_ok buf -> rtp_payloader_pad_push fuel (Some s) d (Some buf) = Some (r, Some s', d') ->
    pay_call s s'.

Lemma set_property_ok s name value s' :
  pay_ok s -> rtp_payloader_set_property (Some s) name value = (ZST_OK, Some s') -> pay_ok s'.
Proof.
  intros Hok Hset. unfold rtp_payloader_set_property in Hset.
  destruct name as [name|]; [|done]. destruct value as [value|]; [|done]. cbv zeta in Hset.
  destruct Hok as [Hpt Hssrc Hseq Hrate Hmtu Hch Hss Hpk Hby Hex].
  pose proof (atoi_range value). pose proof (u16_range (Z.land (strtoul0 value) 65535)).
  pose proof (u32_range (strtoul0 value)). pose proof (u32_range (atoi value)).
  repeat match type of Hset with
  | (if name_in ?a ?b then _ else _) = _ => destruct (name_in a b)
  end; try discriminate Hset.
  { destruct (rtp_payloader_parse_codec value) as [c|]; [|done]. ok_result Hset.
    constructor; cbn; try done. by destruct c; try done; destruct (pay_clock_rate s =? _). }
  all: repeat match type of Hset with
       | context [Z.ltb ?a ?b] => destruct (Z.ltb_spec a b)
       | context [Z.leb ?a ?b] => destruct (Z.leb_spec a b)
       end; ok_result Hset; try (by constructor); fields_ok.
Qed.

Lemma created_pay_ok : pay_ok zst_rtp_payloader_create.
Proof.
  constructor; cbn; unfold RTP_PAYLOADER_MAX_PAYLOAD, RTP_PAYLOADER_DEFAULT_SSRC,
    RTP_PAYLOADER_DEFAULT_SEQ, RTP_PAYLOADER_DEFAULT_PT, RTP_PAYLOADER_DEFAULT_MTU,
    RTP_PAYLOADER_DEFAULT_RATE_VIDEO; cint.
Qed.

(** The ranges of the payloader's fields (the divisor [clock_rate] is positive, the MTU
    is between 4 and the largest payload, the sequence number is 16 bits wide ...)
    hold in every state a sequence of calls reaches from creation. *)
Theorem payloader_reach_ok `{CMemory} s :
  reach pay_call zst_rtp_payloader_create s -> pay_ok s.
Proof.
  apply reach_inv; [exact created_pay_ok|].
  intros a b Hok Hc. destruct Hc as [? ? E|? ? E|? ? ? ? E|? ? ? ? ? ? ? Hb E].
  - unfold rtp_payloader_open in E. ok_result E. destruct Hok. constructor; cbn; unfold RTP_PAYLOADER_DEFAULT_SEQ; cint.
  - unfold rtp_payloader_close in E. ok_result E. by destruct Hok.
  - by eapply set_property_ok.
  - destruct (pad_push_emits _ _ _ _ _ _ _ Hok Hb E) as (s1 & [= ->] & Hs). by eapply emits_ok.
Qed.

(** ** The theorems at concrete inputs *)

(** A payloader as created, but for its codec, its MTU and its strictness. *)
Definition sample_payloader (codec : rtp_payloader_codec_t) (mtu : Z) (strict : bool) : rtp_payloader_t :=
  mk_pay codec 96 7 65535 90000 mtu 1 2 0 0 0 false true strict false.

Lemma sample_payloader_ok codec mtu strict : 4 <= mtu <= 1500 -> pay_ok (sample_payloader codec mtu strict).
Proof. intros. constructor; cbn; unfold RTP_PAYLOADER_MAX_PAYLOAD, INT32_MAX, UINT64_MAX; lia. Qed.

(** Two NAL units, one of them longer than a 24-byte packet holds. *)
Definition sample_unit : bytes :=
  [0; 0; 0; 1; 103; 1; 2; 0; 0; 1; 101; 1; 2; 3; 4; 5; 6; 7; 8; 9; 10; 11; 12; 13; 14; 15].
Definition sample_buffer : zst_buffer := buffer_of ZST_BUFFER_VIDEO_PACKET 0 1000000000 1000000000 0 sample_unit.

Lemma sample_buffer_ok : buffer_ok sample_buffer.
Proof.
  split; [|split].
  - unfold SIZE_MAX. vm_compute. split; congruence.
  - vm_compute buf_bytes. repeat (constructor; [unfold is_byte; lia|]). constructor.
  - vm_compute. congruence.
Qed.

Lemma pad_push_stream_witness :
  exists r s' d', @rtp_payloader_pad_push _ _ ample_memory 40 (Some (sample_payloader RTP_PAYLOADER_CODEC_H264 24 true))
                    (Some []) (Some sample_buffer) = Some (r, s', d') /\
    exists s1 bs, s' = Some s1 /\ d' = Some ([] ++ bs) /\
      stream_ok (sample_payloader RTP_PAYLOADER_CODEC_H264 24 true) s1 bs.
Proof.
  assert (E : exists r s' d', @rtp_payloader_pad_push _ _ ample_memory 40
      (Some (sample_payloader RTP_PAYLOADER_CODEC_H264 24 true)) (Some []) (Some sample_buffer) = Some (r, s', d'))
    by (vm_compute; eexists _, _, _; reflexivity).
  destruct E as (r & s' & d' & E). exists r, s', d'. split; [exact E|].
  eapply (@pad_push_stream ample_memory 40); [|apply sample_buffer_ok|exact E].
  apply sample_payloader_ok. lia.
Defined.

Lemma pad_push_returns_witness :
  exists r, @rtp_payloader_pad_push _ _ ample_memory 40 (Some (sample_payloader RTP_PAYLOADER_CODEC_H264 24 true))
              (Some []) (Some sample_buffer) = Some r.
Proof.
  apply pad_push_returns; [apply sample_payloader_ok; lia|apply sample_buffer_ok|right; cbn; lia|reflexivity].
Defined.

Lemma send_nal_small_mtu_loops_witness :
  let s := sample_payloader RTP_PAYLOADER_CODEC_H264 14 true in
  (13 <= pay_mtu s <= 14 ->
   @rtp_payloader_send_h264_nal _ _ ample_memory 1000 s (Some []) [101; 1; 2; 3] 4 0 true 0 = None) /\
  (13 <= pay_mtu s <= 15 -> 2 < 4 ->
   @rtp_payloader_send_h265_nal _ _ ample_memory 1000 s (Some []) [101; 1; 2; 3] 4 0 true 0 = None).
Proof. apply (@send_nal_small_mtu_loops _ _ ample_memory). reflexivity. Defined.

Lemma packetize_pcm_lossless_witness :
  let s := sample_payloader RTP_PAYLOADER_CODEC_PCM 4 false in
  exists fs,
    @rtp_payloader_packetize_pcm _ _ ample_memory 20 s (Some []) [1; 2; 3; 4; 5; 6] 6 0 =
      Some (send_all s (Some [] : option trace) ZST_OK 0 fs) /\
    concat (map fr_body fs) = [1; 2; 3; 4; 5; 6] /\
    (forall k f, fs !! k = Some f ->
       0 < zlen (fr_body f) <= pay_mtu s /\ fr_marker f = (Z.of_nat k =? zlen fs - 1) /\
       fr_ts f = u32 (rtp_payloader_pts_to_rtp_ts 0 (pay_clock_rate s) + u32 (Z.of_nat k * pay_mtu s / pay_bpsf s))).
Proof.
  apply (@packetize_pcm_lossless _ _ ample_memory ample_memory_ok 20 _ _ [1; 2; 3; 4; 5; 6] 0);
    [apply sample_payloader_ok; lia|reflexivity|].
  vm_compute. split; congruence.
Defined.

Lemma packetize_pcm_strict_loses_witness :
  let s := sample_payloader RTP_PAYLOADER_CODEC_PCM 4 true in
  @rtp_payloader_packetize_pcm _ _ ample_memory 20 s (Some []) [1; 2; 3; 4] 4 0 = Some (ZST_ERROR, s, Some []).
Proof.
  apply (packetize_pcm_strict_loses 20 _ _ [1; 2; 3; 4] 0 0);
    [apply sample_payloader_ok; lia|reflexivity|reflexivity|reflexivity].
Defined.

Lemma payloader_property_roundtrip_witness :
  let s := sample_payloader RTP_PAYLOADER_CODEC_PCM 4 true in
  exists s', rtp_payloader_set_property (Some s) (Some "mtu"%string) (Some "1400"%string) = (ZST_OK, Some s') /\
    readback s' "mtu"%string 64 /\ pay_ok s'.
Proof.
  eexists. split; [vm_compute; reflexivity|].
  eapply (payloader_property_roundtrip (sample_payloader RTP_PAYLOADER_CODEC_PCM 4 true) "mtu"%string "1400"%string);
    [apply sample_payloader_ok; lia|lia|vm_compute; reflexivity].
Defined.

Lemma payloader_reach_ok_witness :
  exists s', @reach _ (@pay_call ample_memory) zst_rtp_payloader_create s' /\ pay_mtu s' = 1400 /\ pay_ok s'.
Proof.
  assert (Hr : exists s', @reach _ (@pay_call ample_memory) zst_rtp_payloader_create s' /\ pay_mtu s' = 1400).
  { eexists. split; [eapply reach_step; [apply reach_refl|]|].
    - eapply (call_set _ _ (Some "mtu"%string) (Some "1400"%string)). vm_compute. reflexivity.
    - reflexivity. }
  destruct Hr as (s' & Hr & Hm). exists s'. split; [exact Hr|]. split; [exact Hm|].
  exact (@payloader_reach_ok ample_memory s' Hr).
Defined.
