(* ===== verification/RtpRoundtrip.v ===== *)
(** * From the payloader to the depayloader

    The depayloader linked behind the payloader, as a [PadSink]: what it recovers
    from the packets is the access unit that went in, its NAL units each behind a
    four-byte start code. *)

From S2P Require Import Prelude CLib Pad MediaUtils RtpPay RtpDepay RtpPaySpec.

Local Open Scope Z_scope.

(** ** The depayloader as a sink *)

#[export] Instance depayloader_sink {D} `{PadSink D} `{CMemory} : PadSink (rtp_depayloader_t * option D) :=
  fun sd b =>
    let '(s, d) := sd in
    match rtp_depayloader_pad_push (Some s) d (Some b) with
    | (r, Some s', d') => (r, (s', d'))
    | (r, None, d') => (r, (s, d'))
    end.

(** ** Facts on single bytes, by enumeration *)

(** The FU-A indicator and header carry the NAL header. *)
Lemma h264_fu_byte b first last :
  is_byte b ->
  let ind := u8 (Z.lor (Z.land b 224) 28) in let hdr := fu_bits (Z.land b 31) first last in
  Z.land ind 31 = 28 /\ Z.land hdr 128 = (if first then 128 else 0) /\
  u8 (Z.lor (Z.land ind 224) (Z.land hdr 31)) = b /\ is_byte ind /\ is_byte hdr.
Proof.
  intros Hb ind hdr.
  set (P := fun b =>
    (Z.land (u8 (Z.lor (Z.land b 224) 28)) 31 =? 28) &&
    (Z.land (fu_bits (Z.land b 31) first last) 128 =? (if first then 128 else 0)) &&
    (u8 (Z.lor (Z.land (u8 (Z.lor (Z.land b 224) 28)) 224)
           (Z.land (fu_bits (Z.land b 31) first last) 31)) =? b) &&
    (0 <=? fu_bits (Z.land b 31) first last) && (fu_bits (Z.land b 31) first last <? 256)).
  assert (P b = true) as HP by (apply byte_forall; [by destruct first, last; vm_compute|done]).
  unfold P in HP. rewrite !andb_true_iff, !Z.eqb_eq, Z.leb_le, Z.ltb_lt in HP.
  destruct HP as [[[[? ?] ?] ?] ?]. split_and!; try done. apply u8_range.
Qed.

Lemma h265_fu_byte b first last :
  is_byte b ->
  let ind := u8 (Z.lor (Z.land b 129) (Z.shiftl 49 1)) in
  let hdr := fu_bits (Z.land (Z.shiftr b 1) 63) first last in
  Z.land (Z.shiftr ind 1) 63 = 49 /\ Z.land hdr 128 = (if first then 128 else 0) /\
  u8 (Z.lor (Z.land ind 129) (Z.shiftl (Z.land hdr 63) 1)) = b /\ is_byte ind /\ is_byte hdr.
Proof.
  intros Hb ind hdr.
  set (P := fun b =>
    let ind := u8 (Z.lor (Z.land b 129) (Z.shiftl 49 1)) in
    let hdr := fu_bits (Z.land (Z.shiftr b 1) 63) first last in
    (Z.land (Z.shiftr ind 1) 63 =? 49) && (Z.land hdr 128 =? (if first then 128 else 0)) &&
    (u8 (Z.lor (Z.land ind 129) (Z.shiftl (Z.land hdr 63) 1)) =? b) && (0 <=? hdr) && (hdr <? 256)).
  assert (P b = true) as HP by (apply byte_forall; [by destruct first, last; vm_compute|done]).
  unfold P in HP. cbv zeta in HP. rewrite !andb_true_iff, !Z.eqb_eq, Z.leb_le, Z.ltb_lt in HP.
  destruct HP as [[[[? ?] ?] ?] ?]. split_and!; try done. apply u8_range.
Qed.

(** ** Parsing a packet of the payloader *)

Definition view_of (s : rtp_payloader_t) (f : frag) : rtp_packet_view_t :=
  mk_view (fr_body f) (zlen (fr_body f)) (pay_payload_type s) (fr_marker f) (pay_seq s) (fr_ts f)
    (pay_ssrc s).

Lemma marker_byte (m : bool) pt :
  0 <= pt < 128 ->
  let b := u8 (Z.lor (if m then 128 else 0) (Z.land pt 127)) in
  Z.land b 127 = pt /\ negb (Z.land b 128 =? 0) = m.
Proof.
  intros Hpt b.
  set (P := fun pt => negb (pt <? 128) ||
    ((Z.land (u8 (Z.lor (if m then 128 else 0) (Z.land pt 127))) 127 =? pt) &&
     Bool.eqb (negb (Z.land (u8 (Z.lor (if m then 128 else 0) (Z.land pt 127))) 128 =? 0)) m)).
  assert (P pt = true) as HP by (apply byte_forall; [by destruct m; vm_compute|unfold is_byte; lia]).
  unfold P in HP. destruct (Z.ltb_spec pt 128); [|lia]. cbn [negb orb] in HP.
  apply andb_true_iff in HP as [?%Z.eqb_eq ?%eqb_prop]. done.
Qed.

Lemma land_255 v : 0 <= v < 65536 -> u8 (Z.land v 255) = u8 v.
Proof. intros. rewrite (land_ones_mod v 8) by lia. change (2 ^ 8) with 256. cint. Qed.

(** Parsing a packet of the payloader gives back its payload, marker, timestamp,
    sequence number, SSRC and payload type. *)
Lemma parse_packet_of s pts f :
  pay_ok s -> 0 <= fr_ts f < 4294967296 -> zlen (fr_body f) <= RTP_PAYLOADER_MAX_PAYLOAD ->
  rtp_depayloader_parse_rtp (packet_of s pts f) = Some (view_of s f).
Proof.
  intros Hok Hts Hl. unfold rtp_depayloader_parse_rtp, packet_of, buffer_of. cbn [mem_data mem_size].
  rewrite zlen_app. change (zlen (rtp_header s (fr_ts f) (fr_marker f))) with 12.
  pose proof (zlen_nonneg (fr_body f)). unfold RTP_PAYLOADER_MAX_PAYLOAD, RTP_DEPAYLOADER_MAX_PACKET in *.
  set (p := rtp_header s (fr_ts f) (fr_marker f) ++ fr_body f).
  destruct (Z.ltb_spec (12 + zlen (fr_body f)) 12), (Z.ltb_spec 65535 (12 + zlen (fr_body f))); try lia.
  cbn [orb]. change (rd p 0) with 128. change (negb (Z.land 128 192 =? 128)) with false.
  cbv beta iota zeta. change (12 + Z.land 128 15 * 4) with 12.
  destruct (Z.ltb_spec (12 + zlen (fr_body f)) 12); [lia|]. change (negb (Z.land 128 16 =? 0)) with false.
  cbv iota. unfold view_of. f_equal.
  change (rd p 1) with (u8 (Z.lor (if fr_marker f then 128 else 0) (Z.land (pay_payload_type s) 127))).
  pose proof (marker_byte (fr_marker f) _ (ok_pt s Hok)) as [Hpt Hm]. cbv zeta in Hpt, Hm. rewrite Hpt, Hm.
  f_equal.
  - unfold p. apply (sub_bytes_app_r (rtp_header s (fr_ts f) (fr_marker f))). lia.
  - lia.
  - change (be16 (u8 (pay_seq s ≫ 8)) (u8 (Z.land (pay_seq s) 255)) = pay_seq s).
    rewrite land_255 by apply (ok_seq s Hok). by apply be16_u8, ok_seq.
  - by apply be32_u8.
  - apply be32_u8. apply Hok.
Qed.

(** ** The access unit under assembly *)

Section assembly.
Context {D : Type} `{PadSink D} `{CMemoryOk}.
Implicit Type d : option D.

(** [au] is assembling the unit of timestamp [ts] and holds the bytes [X]. *)
Definition au_holds (au : au_t) (rate ts : Z) (X : bytes) : Prop :=
  au_active au = true /\ au_ts au = ts /\ au_pts au = rtp_depayloader_ts_to_pts ts rate /\
  au_len au = zlen X /\
  (match au_data au with Some p => p | None => [] end) = X /\
  (X <> [] -> is_Some (au_data au)).

(** Nothing is assembled yet, or [X] is. *)
Definition au_at (au : au_t) (rate ts : Z) (X : bytes) : Prop :=
  (X = [] /\ au_active au = false) \/ au_holds au rate ts X.

Lemma begin_au_holds s ts X :
  au_at (dep_au s) (dep_clock_rate s) ts X ->
  exists au, rtp_depayloader_begin_au s ts = with_au s au /\ au_holds au (dep_clock_rate s) ts X.
Proof.
  intros [[-> Ha]|Ha]; unfold rtp_depayloader_begin_au.
  - rewrite Ha. cbn [andb]. eexists. split; [done|]. unfold au_holds. by split_and!.
  - pose proof Ha as (-> & -> & _). rewrite Z.eqb_refl. cbn [andb]. exists (dep_au s).
    split; [|done]. by destruct s.
Qed.

Lemma append_au_holds s au rate ts X data :
  dep_au s = au -> au_holds au rate ts X -> zlen (X ++ data) <= SIZE_MAX ->
  exists au', rtp_depayloader_append_au s data = (true, with_au s au') /\
              au_holds au' rate ts (X ++ data).
Proof.
  intros <- (Ha & Hts & Hpts & Hlen & Hbytes & Hsome) Hmax. rewrite zlen_app in Hmax.
  pose proof (zlen_nonneg X). pose proof (zlen_nonneg data).
  unfold rtp_depayloader_append_au. destruct (Z.eqb_spec (zlen data) 0) as [E|E].
  { exists (dep_au s). rewrite (zlen_0 data E), app_nil_r. split; [by destruct s|]. by split_and!. }
  unfold rtp_depayloader_reserve_au. destruct (Z.ltb_spec (SIZE_MAX - au_len (dep_au s)) (zlen data)); [lia|].
  destruct (au_len (dep_au s) + zlen data <=? au_cap (dep_au s)).
  - eexists. split; [done|].
    rewrite Hlen, Hbytes, sub_bytes_all by done. split_and!; try done. cbn [au_len]. by rewrite zlen_app.
  - rewrite malloc_total. cbn [with_au dep_au au_len au_data au_ts au_pts au_active au_cap]. eexists. split; [done|].
    rewrite Hlen, Hbytes, sub_bytes_all by done. split_and!; try done. cbn [au_len]. by rewrite zlen_app.
Qed.

Definition sc4 : bytes := [0; 0; 0; 1].

Lemma append_nal_holds s au rate ts X data :
  dep_au s = au -> au_holds au rate ts X -> zlen (X ++ sc4 ++ data) <= SIZE_MAX ->
  exists au', append_nal s data = (true, with_au s au') /\
              au_holds au' rate ts (X ++ sc4 ++ data).
Proof.
  intros Hau Hx Hmax. unfold append_nal, rtp_depayloader_append_start_code.
  rewrite app_assoc, zlen_app in Hmax. pose proof (zlen_nonneg data).
  destruct (append_au_holds s au rate ts X sc4) as (au1 & E1 & Hau1); try done; [lia|].
  fold sc4. rewrite E1.
  destruct (append_au_holds (with_au s au1) au1 rate ts (X ++ sc4) data) as (au2 & E2 & Hau2); try done.
  { rewrite zlen_app. lia. }
  rewrite E2. exists au2. by rewrite app_assoc.
Qed.

Lemma with_au_twice s au1 au2 : with_au (with_au s au1) au2 = with_au s au2.
Proof. done. Qed.

(** The handler [h] consumes [f] when [X] has been assembled, adding [c] to it. *)
Definition frag_adds (h : rtp_depayloader_t -> option D -> rtp_packet_view_t ->
                          zst_result_t * rtp_depayloader_t * option D)
    (f : frag) (X c : bytes) : Prop :=
  forall dep d sp, au_at (dep_au dep) (dep_clock_rate dep) (fr_ts f) X -> zlen (X ++ c) <= SIZE_MAX ->
    exists au, au_holds au (dep_clock_rate dep) (fr_ts f) (X ++ c) /\
               h dep d (view_of sp f) = finish_packet (with_au dep au) d (view_of sp f).

Lemma depay_single_adds f X : frag_adds depay_single f X (sc4 ++ fr_body f).
Proof.
  intros dep d sp Hau Hmax. unfold depay_single, view_of. cbn [view_timestamp view_payload].
  destruct (begin_au_holds dep (fr_ts f) X Hau) as (au1 & -> & Hau1).
  destruct (append_nal_holds (with_au dep au1) au1 (dep_clock_rate dep) (fr_ts f) X (fr_body f))
    as (au2 & -> & Hau2); try done. by exists au2.
Qed.

(** The first fragment restores the NAL header before its own bytes. *)
Lemma depay_fragment_start dep d sp f X hdr off c :
  au_at (dep_au dep) (dep_clock_rate dep) (fr_ts f) X ->
  sub_bytes off (zlen (fr_body f) - off) (fr_body f) = c ->
  zlen (X ++ sc4 ++ hdr ++ c) <= SIZE_MAX ->
  exists au, au_holds au (dep_clock_rate dep) (fr_ts f) (X ++ sc4 ++ hdr ++ c) /\
    depay_fragment dep d (view_of sp f) true hdr off = finish_packet (with_au dep au) d (view_of sp f).
Proof.
  intros Hau Hc Hmax. unfold depay_fragment.
  change (view_payload (view_of sp f)) with (fr_body f).
  change (view_payload_len (view_of sp f)) with (zlen (fr_body f)).
  change (view_timestamp (view_of sp f)) with (fr_ts f). rewrite Hc.
  assert (X ++ sc4 ++ hdr ++ c = (X ++ sc4 ++ hdr) ++ c) as E by (by rewrite <-!app_assoc).
  rewrite E in *. pose proof (zlen_nonneg c).
  destruct (begin_au_holds dep (fr_ts f) X Hau) as (au1 & -> & Hau1).
  destruct (append_nal_holds (with_au dep au1) au1 (dep_clock_rate dep) (fr_ts f) X hdr)
    as (au2 & -> & Hau2); try done. { rewrite zlen_app in Hmax. lia. }
  cbn [negb]. rewrite with_au_twice.
  destruct (append_au_holds (with_au dep au2) au2 (dep_clock_rate dep) (fr_ts f) (X ++ sc4 ++ hdr) c)
    as (au3 & -> & Hau3); try done. by exists au3.
Qed.

(** A later fragment adds its bytes to the unit it continues. *)
Lemma depay_fragment_next dep d sp f X hdr off c :
  au_at (dep_au dep) (dep_clock_rate dep) (fr_ts f) X -> X <> [] ->
  sub_bytes off (zlen (fr_body f) - off) (fr_body f) = c -> zlen (X ++ c) <= SIZE_MAX ->
  exists au, au_holds au (dep_clock_rate dep) (fr_ts f) (X ++ c) /\
    depay_fragment dep d (view_of sp f) false hdr off = finish_packet (with_au dep au) d (view_of sp f).
Proof.
  intros Hau HX Hc Hmax. unfold depay_fragment.
  change (view_payload (view_of sp f)) with (fr_body f).
  change (view_payload_len (view_of sp f)) with (zlen (fr_body f)).
  change (view_timestamp (view_of sp f)) with (fr_ts f). rewrite Hc.
  destruct Hau as [[? _]|Hau]; [done|]. pose proof Hau as (-> & -> & _).
  rewrite Z.eqb_refl. cbn [negb orb].
  destruct (append_au_holds dep _ (dep_clock_rate dep) (fr_ts f) X c eq_refl Hau) as (au3 & -> & Hau3); [done|].
  by exists au3.
Qed.

(** ** The codecs' fragments *)

Lemma zlen_hdr_app (h c : bytes) : sub_bytes (zlen h) (zlen (h ++ c) - zlen h) (h ++ c) = c.
Proof. apply sub_bytes_app_r. rewrite zlen_app. lia. Qed.

Lemma h264_single_adds f X :
  0 < zlen (fr_body f) -> Z.land (rd (fr_body f) 0) 31 <> 24 -> Z.land (rd (fr_body f) 0) 31 <> 28 ->
  frag_adds rtp_depayloader_depay_h264 f X (sc4 ++ fr_body f).
Proof.
  intros Hl H24 H28 dep d sp Hau Hmax. unfold rtp_depayloader_depay_h264.
  change (view_payload (view_of sp f)) with (fr_body f).
  change (view_payload_len (view_of sp f)) with (zlen (fr_body f)). cbv zeta.
  destruct (Z.eqb_spec (zlen (fr_body f)) 0); [lia|].
  destruct (_ && _); [by apply depay_single_adds|].
  destruct (Z.eqb_spec (Z.land (rd (fr_body f) 0) 31) 24); [done|].
  destruct (Z.eqb_spec (Z.land (rd (fr_body f) 0) 31) 28); [done|]. by apply depay_single_adds.
Qed.

Lemma h264_fu_adds b first last c ts m X :
  is_byte b -> 0 < zlen c -> (first = false -> X <> []) ->
  frag_adds rtp_depayloader_depay_h264 (mk_frag (h264_fu_hdr b first last ++ c) m ts) X
    (if first then sc4 ++ [b] ++ c else c).
Proof.
  intros Hb Hc HX dep d sp Hau Hmax. unfold rtp_depayloader_depay_h264. cbn [fr_ts] in *.
  destruct (h264_fu_byte b first last Hb) as (H28 & H128 & Hnal & _).
  set (f := mk_frag _ m ts) in *.
  change (view_payload (view_of sp f)) with (h264_fu_hdr b first last ++ c).
  assert (Hlen : view_payload_len (view_of sp f) = 2 + zlen c)
    by (cbn [view_of view_payload_len f fr_body]; by rewrite zlen_app). rewrite Hlen. cbv zeta.
  destruct (Z.eqb_spec (2 + zlen c) 0); [lia|].
  change (rd (h264_fu_hdr b first last ++ c) 0) with (u8 (Z.lor (Z.land b 224) 28)).
  change (rd (h264_fu_hdr b first last ++ c) 1) with (fu_bits (Z.land b 31) first last).
  rewrite H28, H128, Hnal. change ((1 <=? 28) && (28 <=? 23)) with false. cbv iota.
  change (28 =? 24) with false. change (28 =? 28) with true. cbv iota.
  destruct (Z.ltb_spec (2 + zlen c) 2); [lia|]. destruct first.
  - change (negb (128 =? 0)) with true. apply (depay_fragment_start dep d sp f X [b] 2 c); [done| |done]. apply (zlen_hdr_app (h264_fu_hdr b true last)).
  - change (negb (0 =? 0)) with false. apply (depay_fragment_next dep d sp f X [b] 2 c); [done|by apply HX| |done]. apply (zlen_hdr_app (h264_fu_hdr b false last)).
Qed.

Lemma h265_single_adds f X :
  1 < zlen (fr_body f) -> Z.land (Z.shiftr (rd (fr_body f) 0) 1) 63 <> 48 ->
  Z.land (Z.shiftr (rd (fr_body f) 0) 1) 63 <> 49 ->
  frag_adds rtp_depayloader_depay_h265 f X (sc4 ++ fr_body f).
Proof.
  intros Hl H48 H49 dep d sp Hau Hmax. unfold rtp_depayloader_depay_h265.
  change (view_payload (view_of sp f)) with (fr_body f).
  change (view_payload_len (view_of sp f)) with (zlen (fr_body f)). cbv zeta.
  destruct (Z.ltb_spec (zlen (fr_body f)) 2); [lia|]. apply Z.eqb_neq in H48, H49. rewrite H48, H49.
  cbn [negb andb]. by apply depay_single_adds.
Qed.

Lemma h265_fu_adds b b1 first last c ts m X :
  is_byte b -> 0 < zlen c -> (first = false -> X <> []) ->
  frag_adds rtp_depayloader_depay_h265 (mk_frag (h265_fu_hdr b b1 first last ++ c) m ts) X
    (if first then sc4 ++ [b; b1] ++ c else c).
Proof.
  intros Hb Hc HX dep d sp Hau Hmax. unfold rtp_depayloader_depay_h265. cbn [fr_ts] in *.
  destruct (h265_fu_byte b first last Hb) as (H49 & H128 & Hnal & _).
  set (f := mk_frag _ m ts) in *.
  change (view_payload (view_of sp f)) with (h265_fu_hdr b b1 first last ++ c).
  assert (Hlen : view_payload_len (view_of sp f) = 3 + zlen c)
    by (cbn [view_of view_payload_len f fr_body]; by rewrite zlen_app). rewrite Hlen. cbv zeta.
  destruct (Z.ltb_spec (3 + zlen c) 2); [lia|].
  change (rd (h265_fu_hdr b b1 first last ++ c) 0) with (u8 (Z.lor (Z.land b 129) (Z.shiftl 49 1))).
  change (rd (h265_fu_hdr b b1 first last ++ c) 1) with b1.
  change (rd (h265_fu_hdr b b1 first last ++ c) 2) with (fu_bits (Z.land (Z.shiftr b 1) 63) first last).
  rewrite H49, H128, Hnal. change (negb (49 =? 48) && negb (49 =? 49)) with false. cbv iota.
  change (49 =? 48) with false. cbv iota. destruct (Z.ltb_spec (3 + zlen c) 3); [lia|]. destruct first.
  - change (negb (128 =? 0)) with true. apply (depay_fragment_start dep d sp f X [b; b1] 3 c); [done| |done]. apply (zlen_hdr_app (h265_fu_hdr b b1 true last)).
  - change (negb (0 =? 0)) with false. apply (depay_fragment_next dep d sp f X [b; b1] 3 c); [done|by apply HX| |done]. apply (zlen_hdr_app (h265_fu_hdr b b1 false last)).
Qed.

End assembly.

(** ** A list of fragments *)

Section run.
Context {D : Type} `{PadSink D} `{CMemoryOk}.
Implicit Type d : option D.

(** The codec's handler, as [pad_push] selects it. *)
Definition depay_of (codec : rtp_depayloader_codec_t) :
    rtp_depayloader_t -> option D -> rtp_packet_view_t -> zst_result_t * rtp_depayloader_t * option D :=
  match codec with
  | RTP_DEPAYLOADER_CODEC_H264 => rtp_depayloader_depay_h264
  | RTP_DEPAYLOADER_CODEC_H265 => rtp_depayloader_depay_h265
  | RTP_DEPAYLOADER_CODEC_AAC => rtp_depayloader_depay_aac
  | RTP_DEPAYLOADER_CODEC_PCM => rtp_depayloader_depay_pcm
  end.

(** The handler takes the assembled unit from [X] to [Y] over the fragments. *)
Inductive adds (codec : rtp_depayloader_codec_t) (ts : Z) : list frag -> bytes -> bytes -> Prop :=
| adds_nil X : adds codec ts [] X X
| adds_cons f fs X c Y :
    fr_ts f = ts -> frag_adds (depay_of codec) f X c -> adds codec ts fs (X ++ c) Y ->
    adds codec ts (f :: fs) X Y.

Lemma adds_app codec ts fs gs X Y Z :
  adds codec ts fs X Y -> adds codec ts gs Y Z -> adds codec ts (fs ++ gs) X Z.
Proof. induction 1; intros; [done|]. simpl. econstructor; eauto. Qed.

Lemma adds_prefix codec ts fs X Y : adds codec ts fs X Y -> zlen X <= zlen Y.
Proof. induction 1 as [|f fs X c Y _ _ _ IH]; [done|]. rewrite zlen_app in IH. pose proof (zlen_nonneg c). lia. Qed.

(** The depayloader expects the next packet of this payloader. *)
Definition linked (dep : rtp_depayloader_t) (s : rtp_payloader_t) : Prop :=
  dep_payload_type dep = pay_payload_type s /\
  (dep_filter_ssrc dep = true -> dep_expected_ssrc dep = pay_ssrc s) /\
  (dep_have_seq dep = true -> dep_next_seq dep = pay_seq s).

Definition assembling (dep : rtp_depayloader_t) (s : rtp_payloader_t)
    (codec : rtp_depayloader_codec_t) (rate ts : Z) (X : bytes) : Prop :=
  linked dep s /\ dep_codec dep = codec /\ dep_clock_rate dep = rate /\
  dep_h264_discontinuity_pending dep = false /\ au_at (dep_au dep) rate ts X.

(** The bookkeeping of [pad_push] for an expected packet. *)
Definition counted (dep : rtp_depayloader_t) (size seq : Z) : rtp_depayloader_t :=
  with_seq (with_stats dep (add_packet (add_in (dep_stats_of dep)) size)) true (u16 (seq + 1)).

Lemma pad_push_linked dep d s pts f :
  pay_ok s -> linked dep s -> 0 <= fr_ts f < 4294967296 ->
  zlen (fr_body f) <= RTP_PAYLOADER_MAX_PAYLOAD ->
  rtp_depayloader_pad_push (Some dep) d (Some (packet_of s pts f)) =
  (let '(ret, dep', d') :=
     depay_of (dep_codec dep) (counted dep (12 + zlen (fr_body f)) (pay_seq s)) d (view_of s f) in
   (ret, Some dep', d')).
Proof.
  intros Hok (Hpt & Hssrc & Hseq) Hts Hl. unfold rtp_depayloader_pad_push.
  rewrite parse_packet_of by done.
  change (has_flag (buf_flags (packet_of s pts f)) ZST_BUFFER_FLAG_EOS) with false. cbv iota zeta.
  cbn [with_stats dep_payload_type view_of view_payload_type dep_filter_ssrc view_ssrc dep_expected_ssrc
       dep_have_seq view_seq dep_next_seq dep_codec dep_stats_of].
  rewrite Hpt, Z.eqb_refl. cbn [negb].
  assert (dep_filter_ssrc dep && negb (pay_ssrc s =? dep_expected_ssrc dep) = false) as ->.
  { destruct (dep_filter_ssrc dep); [|done]. rewrite Hssrc by done. by rewrite Z.eqb_refl. }
  assert (dep_have_seq dep && negb (pay_seq s =? dep_next_seq dep) = false) as ->.
  { destruct (dep_have_seq dep); [|done]. rewrite Hseq by done. by rewrite Z.eqb_refl. }
  cbn [with_seq dep_codec with_stats dep_stats_of].
  assert (Hsz : mem_size (packet_of s pts f) = 12 + zlen (fr_body f)).
  { unfold packet_of, buffer_of. cbn [mem_size]. by rewrite zlen_app. }
  rewrite Hsz. by destruct (dep_codec dep).
Qed.

Lemma counted_linked dep s size n au :
  linked dep s -> linked (with_au (counted dep size (pay_seq s)) au) (pay_count s n).
Proof. intros (? & ? & ?). by repeat split. Qed.

(** Fragments without the marker are absorbed. *)
Lemma run_open codec rate ts fs X Y :
  adds codec ts fs X Y -> zlen Y <= SIZE_MAX -> 0 <= ts < 4294967296 ->
  forall s dep d pts ret, pay_ok s ->
  Forall (fun f => fits s f /\ fr_marker f = false) fs -> assembling dep s codec rate ts X ->
  exists dep', push_all (Some (dep, d)) ret (emit s pts fs) = (ret, Some (dep', d)) /\
               assembling dep' (count_all s fs) codec rate ts Y.
Proof.
  induction 1 as [X|f fs X c Y Hts Hadd Hrest IH]; intros Hmax Hts' s dep d pts ret Hok Hfs Hasm.
  { exists dep. done. }
  apply Forall_cons in Hfs as [[[Hfit _] Hmk] Hfs].
  pose proof (adds_prefix _ _ _ _ _ Hrest) as Hpre.
  destruct Hasm as (Hlink & Hcodec & Hrate & Hdisc & Hau). subst rate ts codec.
  destruct (Hadd (counted dep (12 + zlen (fr_body f)) (pay_seq s)) d s) as (au & Hholds & E);
    [done|lia|].
  cbn [emit push_all]. unfold push_peer, pad_push, depayloader_sink.
  rewrite pad_push_linked, E by done. unfold finish_packet, view_of. cbn [view_marker]. rewrite Hmk.
  cbn [fst snd]. rewrite Z.eqb_refl. apply IH; try done.
  - by apply pay_count_ok.
  - split_and!; try done; [by apply counted_linked|by right].
Qed.

(** The buffer that leaves the depayloader. *)
Definition output_of (codec : rtp_depayloader_codec_t) (rate ts : Z) (Y : bytes) : zst_buffer :=
  let pts := rtp_depayloader_ts_to_pts ts rate in
  buffer_of (match codec with
             | RTP_DEPAYLOADER_CODEC_H264 | RTP_DEPAYLOADER_CODEC_H265 => ZST_BUFFER_VIDEO_PACKET
             | _ => ZST_BUFFER_AUDIO_PACKET end) 0 pts pts 0 Y.

(** The marker pushes the unit, once, and leaves nothing assembled. *)
Lemma run_marker codec rate s dep d pts f X c :
  frag_adds (depay_of codec) f X c -> zlen (X ++ c) <= SIZE_MAX -> 0 <= fr_ts f < 4294967296 ->
  pay_ok s -> fits s f -> fr_marker f = true -> X ++ c <> [] ->
  assembling dep s codec rate (fr_ts f) X ->
  exists dep', pad_push (dep, d) (packet_of s pts f) =
                 (let '(r, d') := push_peer d (output_of codec rate (fr_ts f) (X ++ c)) in (r, (dep', d'))) /\
               linked dep' (pay_count s (zlen (fr_body f) + 12)) /\ dep_codec dep' = codec /\
               dep_clock_rate dep' = rate /\ dep_h264_discontinuity_pending dep' = false /\
               au_active (dep_au dep') = false.
Proof.
  intros Hadd Hmax Hts Hok [Hfit _] Hmk Hne (Hlink & Hcodec & Hrate & Hdisc & Hau). subst rate codec.
  destruct (Hadd (counted dep (12 + zlen (fr_body f)) (pay_seq s)) d s) as (au & Hholds & E); [done|done|].
  unfold pad_push, depayloader_sink. rewrite pad_push_linked, E by done.
  unfold finish_packet, view_of. cbn [view_marker]. rewrite Hmk.
  destruct Hholds as (Hact & Hats & Hapts & Hlen & Hbytes & [p Hp]%(fun h => h Hne)).
  assert (0 < zlen (X ++ c)).
  { pose proof (zlen_nonneg (X ++ c)). destruct (Z.eqb_spec (zlen (X ++ c)) 0) as [E0|]; [|lia].
    by apply zlen_0 in E0. }
  assert (p = X ++ c) as -> by (by rewrite Hp in Hbytes).
  unfold rtp_depayloader_push_au. cbn [with_au dep_au]. rewrite Hact, Hp, Hlen.
  destruct (Z.eqb_spec (zlen (X ++ c)) 0); [lia|]. cbn [negb orb].
  cbn [with_au dep_codec counted with_seq with_stats dep_h264_discontinuity_pending].
  rewrite Hdisc, Hapts.
  assert (Hmatch : forall (x : rtp_depayloader_t),
    match dep_codec dep with
    | RTP_DEPAYLOADER_CODEC_H264 | _ => (0, x) end = (0, x)) by (by destruct (dep_codec dep)).
  rewrite Hmatch. unfold rtp_depayloader_push_bytes, rtp_depayloader_output_type.
  destruct (Z.eqb_spec (zlen (X ++ c)) 0); [lia|]. rewrite malloc_total.
  cbn [with_au with_stats counted with_seq dep_codec dep_clock_rate].
  eexists. split_and!; [unfold output_of, buffer_of|..].
  - by destruct (push_peer d _) as [r d'].
  - by apply counted_linked.
  - done.
  - done.
  - done.
  - done.
Qed.

(** ** NAL units and access units *)

Lemma fu_list_next_adds codec hdr ts m cs X :
  (forall last m c X, 0 < zlen c -> X <> [] ->
     frag_adds (depay_of codec) (mk_frag (hdr false last ++ c) m ts) X c) ->
  (forall c, c ∈ cs -> 0 < zlen c) -> X <> [] ->
  adds codec ts (fu_list hdr ts m false cs) X (X ++ concat cs).
Proof.
  intros Hadd. revert X. induction cs as [|c cs IH]; intros X Hcs HX; cbn [fu_list concat].
  { rewrite app_nil_r. constructor. }
  econstructor; [done|apply Hadd; [by apply Hcs; left|done]|].
  rewrite app_assoc. apply IH; [by intros; apply Hcs; right|]. by destruct X.
Qed.

Lemma fu_list_adds codec hdr nh ts m c cs X :
  (forall last m c X, 0 < zlen c -> X <> [] ->
     frag_adds (depay_of codec) (mk_frag (hdr false last ++ c) m ts) X c) ->
  (forall last m c X, 0 < zlen c ->
     frag_adds (depay_of codec) (mk_frag (hdr true last ++ c) m ts) X (sc4 ++ nh ++ c)) ->
  (forall c', c' ∈ c :: cs -> 0 < zlen c') ->
  adds codec ts (fu_list hdr ts m true (c :: cs)) X (X ++ sc4 ++ nh ++ concat (c :: cs)).
Proof.
  intros Hnext Hstart Hcs. cbn [fu_list concat].
  econstructor; [done|apply Hstart; by apply Hcs; left|].
  replace (X ++ sc4 ++ nh ++ c ++ concat cs) with ((X ++ sc4 ++ nh ++ c) ++ concat cs)
    by (by rewrite <-!app_assoc).
  apply fu_list_next_adds; [done|by intros; apply Hcs; right|]. by destruct X.
Qed.

Definition h264_plain (nal : bytes) : Prop :=
  is_byte (rd nal 0) /\ Z.land (rd nal 0) 31 <> 24 /\ Z.land (rd nal 0) 31 <> 28.

Definition h265_plain (nal : bytes) : Prop :=
  is_byte (rd nal 0) /\ Z.land (Z.shiftr (rd nal 0) 1) 63 <> 48 /\
  Z.land (Z.shiftr (rd nal 0) 1) 63 <> 49.

Lemma h264_frags_adds mtu nal ts m X :
  15 <= mtu -> 0 < zlen nal -> h264_plain nal ->
  adds RTP_DEPAYLOADER_CODEC_H264 ts (h264_frags mtu nal ts m) X (X ++ sc4 ++ nal).
Proof.
  intros Hm Hn (Hb & H24 & H28). unfold h264_frags. destruct (Z.leb_spec (zlen nal) (mtu - 12)).
  { econstructor; [done|by apply h264_single_adds|]. constructor. }
  destruct nal as [|b rest]; [done|]. rewrite zlen_cons in *.
  assert (Hch : zlen (drop 1 (b :: rest)) <= Z.of_nat (length (b :: rest))).
  { cbn [drop]. unfold zlen. simpl. rewrite drop_0. lia. }
  pose proof (chunks_concat (length (b :: rest)) (mtu - 14) (drop 1 (b :: rest)) ltac:(lia) Hch) as Hc.
  pose proof (fun c => chunks_bounds (length (b :: rest)) (mtu - 14) (drop 1 (b :: rest)) c ltac:(lia)) as Hcb.
  destruct (chunks (length (b :: rest)) (mtu - 14) (drop 1 (b :: rest))) as [|c cs] eqn:E.
  { cbn [concat drop] in Hc. rewrite drop_0 in Hc. subst rest. rewrite zlen_nil in *. lia. }
  replace (sc4 ++ b :: rest) with (sc4 ++ [b] ++ concat (c :: cs))
    by (rewrite Hc; cbn [drop]; by rewrite drop_0).
  apply fu_list_adds.
  - intros. by apply (h264_fu_adds b false).
  - intros. by apply (h264_fu_adds b true).
  - intros c' ?%Hcb. lia.
Qed.

Lemma h265_frags_adds mtu nal ts m X :
  16 <= mtu -> 1 < zlen nal -> h265_plain nal ->
  adds RTP_DEPAYLOADER_CODEC_H265 ts (h265_frags mtu nal ts m) X (X ++ sc4 ++ nal).
Proof.
  intros Hm Hn (Hb & H48 & H49). unfold h265_frags. destruct (Z.leb_spec (zlen nal) (mtu - 12)).
  { econstructor; [done|by apply h265_single_adds|]. constructor. }
  destruct nal as [|b [|b1 rest]]; [done|done|]. rewrite !zlen_cons in *.
  assert (Hch : zlen (drop 2 (b :: b1 :: rest)) <= Z.of_nat (length (b :: b1 :: rest))).
  { cbn [drop]. unfold zlen. simpl. rewrite drop_0. lia. }
  pose proof (chunks_concat (length (b :: b1 :: rest)) (mtu - 15) (drop 2 (b :: b1 :: rest)) ltac:(lia) Hch) as Hc.
  pose proof (fun c => chunks_bounds (length (b :: b1 :: rest)) (mtu - 15) (drop 2 (b :: b1 :: rest)) c
    ltac:(lia)) as Hcb.
  destruct (chunks (length (b :: b1 :: rest)) (mtu - 15) (drop 2 (b :: b1 :: rest))) as [|c cs] eqn:E.
  { cbn [concat drop] in Hc. rewrite drop_0 in Hc. subst rest. rewrite zlen_nil in *. lia. }
  replace (sc4 ++ b :: b1 :: rest) with (sc4 ++ [b; b1] ++ concat (c :: cs))
    by (rewrite Hc; cbn [drop]; by rewrite drop_0).
  apply fu_list_adds.
  - intros. by apply (h265_fu_adds b b1 false).
  - intros. by apply (h265_fu_adds b b1 true).
  - intros c' ?%Hcb. lia.
Qed.

(** An access unit's NAL units, each behind a four-byte start code. *)
Definition long_annexb (nals : list bytes) : bytes := annexb (map (pair true) nals).

Lemma au_frags_adds codec frags ts nals X :
  (forall nal m X, nal ∈ nals -> adds codec ts (frags nal ts m) X (X ++ sc4 ++ nal)) ->
  adds codec ts (au_frags frags ts nals) X (X ++ long_annexb nals).
Proof.
  revert X. induction nals as [|nal nals IH]; intros X Hn; cbn [au_frags].
  { unfold long_annexb. cbn. rewrite app_nil_r. constructor. }
  eapply adds_app; [apply Hn; by left|].
  replace (X ++ long_annexb (nal :: nals)) with ((X ++ sc4 ++ nal) ++ long_annexb nals)
    by (unfold long_annexb; cbn [map annexb]; by rewrite <-!app_assoc).
  apply IH. intros. apply Hn. by right.
Qed.

Lemma adds_snoc_inv codec ts fs f X Y :
  adds codec ts (fs ++ [f]) X Y ->
  exists Z c, adds codec ts fs X Z /\ fr_ts f = ts /\ frag_adds (depay_of codec) f Z c /\ Y = Z ++ c.
Proof.
  revert X. induction fs as [|g fs IH]; intros X Ha; inversion Ha as [|? ? ? c ? Hts Hf Hr]; subst.
  - inversion Hr; subst. exists X, c. split_and!; try done. constructor.
  - apply IH in Hr as (Z & c' & ? & ? & ? & ->). exists Z, c'. split_and!; try done. by econstructor.
Qed.

(** Only the last fragment of an access unit has the marker. *)
Definition closed (fs : list frag) : Prop :=
  exists gs f, fs = gs ++ [f] /\ Forall (fun f => fr_marker f = false) gs /\ fr_marker f = true.

Lemma closed_app gs fs : Forall (fun f => fr_marker f = false) gs -> closed fs -> closed (gs ++ fs).
Proof.
  intros Hg (hs & f & -> & Hh & Hf). exists (gs ++ hs), f. rewrite app_assoc. split_and!; try done.
  by apply Forall_app.
Qed.

Lemma fu_list_open hdr ts first cs :
  Forall (fun f => fr_marker f = false) (fu_list hdr ts false first cs).
Proof. revert first. induction cs; intros; cbn [fu_list]; constructor; auto. Qed.

Lemma fu_list_closed hdr ts first cs : cs <> [] -> closed (fu_list hdr ts true first cs).
Proof.
  revert first. induction cs as [|c cs IH]; intros first Hne; [done|]. cbn [fu_list]. destruct cs as [|c' cs].
  - by exists [], (mk_frag (hdr first true ++ c) true ts).
  - apply (closed_app [_]); [by constructor|]. by apply IH.
Qed.

Lemma h264_frags_markers mtu nal ts :
  15 <= mtu -> 0 < zlen nal ->
  Forall (fun f => fr_marker f = false) (h264_frags mtu nal ts false) /\ closed (h264_frags mtu nal ts true).
Proof.
  intros Hm Hn. unfold h264_frags. destruct (Z.leb_spec (zlen nal) (mtu - 12)).
  { split; [by constructor|]. by exists [], (mk_frag nal true ts). }
  split; [apply fu_list_open|]. apply fu_list_closed. intros E.
  apply chunks_nil in E; [|unfold zlen; rewrite length_drop; lia].
  unfold zlen in *. rewrite length_drop in E. lia.
Qed.

Lemma h265_frags_markers mtu nal ts :
  16 <= mtu -> 1 < zlen nal ->
  Forall (fun f => fr_marker f = false) (h265_frags mtu nal ts false) /\ closed (h265_frags mtu nal ts true).
Proof.
  intros Hm Hn. unfold h265_frags. destruct (Z.leb_spec (zlen nal) (mtu - 12)).
  { split; [by constructor|]. by exists [], (mk_frag nal true ts). }
  split; [apply fu_list_open|]. apply fu_list_closed. intros E.
  apply chunks_nil in E; [|unfold zlen; rewrite length_drop; lia].
  unfold zlen in *. rewrite length_drop in E. lia.
Qed.

Lemma au_frags_closed frags ts nals :
  (forall nal, nal ∈ nals ->
     Forall (fun f => fr_marker f = false) (frags nal ts false) /\ closed (frags nal ts true)) ->
  nals <> [] -> closed (au_frags frags ts nals).
Proof.
  induction nals as [|nal nals IH]; intros Hn Hne; [done|]. cbn [au_frags]. destruct nals as [|nal' nals].
  - cbn [au_frags]. rewrite app_nil_r. apply Hn. by left.
  - apply closed_app; [apply Hn; by left|]. apply IH; [|done]. intros. apply Hn. by right.
Qed.

Lemma fu_list_fits s hdr hl ts m first cs n :
  (forall a b, zlen (hdr a b) = hl) -> (forall c, c ∈ cs -> zlen c <= n) ->
  n + hl <= RTP_PAYLOADER_MAX_PAYLOAD -> n + hl + 12 <= pay_mtu s ->
  Forall (fits s) (fu_list hdr ts m first cs).
Proof.
  intros Hh Hc Hm Hs. revert first. induction cs as [|c cs IH]; intros first; cbn [fu_list]; constructor.
  - unfold fits. cbn [fr_body]. rewrite zlen_app, Hh. specialize (Hc c ltac:(by left)). lia.
  - apply IH. intros. apply Hc. by right.
Qed.

Lemma h264_frags_fits s nal ts m :
  pay_ok s -> 15 <= pay_mtu s -> Forall (fits s) (h264_frags (pay_mtu s) nal ts m).
Proof.
  intros Hok Hm. pose proof (ok_mtu s Hok). unfold h264_frags. destruct (Z.leb_spec (zlen nal) (pay_mtu s - 12)).
  { constructor; [|constructor]. unfold fits. cbn [fr_body]. lia. }
  apply (fu_list_fits s _ 2 ts m true _ (pay_mtu s - 14)); [done| |lia|lia].
  intros c Hc%chunks_bounds; lia.
Qed.

Lemma h265_frags_fits s nal ts m :
  pay_ok s -> 16 <= pay_mtu s -> Forall (fits s) (h265_frags (pay_mtu s) nal ts m).
Proof.
  intros Hok Hm. pose proof (ok_mtu s Hok). unfold h265_frags. destruct (Z.leb_spec (zlen nal) (pay_mtu s - 12)).
  { constructor; [|constructor]. unfold fits. cbn [fr_body]. lia. }
  apply (fu_list_fits s _ 3 ts m true _ (pay_mtu s - 15)); [done| |lia|lia].
  intros c Hc%chunks_bounds; lia.
Qed.

Lemma au_frags_fits s frags ts nals :
  (forall nal m, Forall (fits s) (frags nal ts m)) -> Forall (fits s) (au_frags frags ts nals).
Proof.
  intros Hf. induction nals as [|nal nals IH]; cbn [au_frags]; [constructor|]. apply Forall_app. auto.
Qed.

(** The whole access unit: its packets become one buffer downstream. *)
Lemma run_unit codec rate ts s dep d pts fs Y :
  adds codec ts fs [] Y -> closed fs -> Forall (fits s) fs -> zlen Y <= SIZE_MAX -> Y <> [] ->
  0 <= ts < 4294967296 -> pay_ok s -> assembling dep s codec rate ts [] ->
  exists dep', push_all (Some (dep, d)) ZST_OK (emit s pts fs) =
                 (let '(r, d') := push_peer d (output_of codec rate ts Y) in (r, Some (dep', d'))) /\
               assembling dep' (count_all s fs) codec rate ts [] /\ au_active (dep_au dep') = false.
Proof.
  intros Ha (gs & f & -> & Hgs & Hf) Hfit Hmax Hne Hts Hok Hasm.
  apply adds_snoc_inv in Ha as (Z & c & Ha & Hfts & Hadd & ->).
  apply Forall_app in Hfit as [Hg [Hff _]%Forall_cons].
  rewrite emit_app, push_all_app. rewrite zlen_app in Hmax. pose proof (zlen_nonneg c).
  destruct (run_open codec rate ts gs [] Z Ha ltac:(lia) Hts s dep d pts ZST_OK Hok) as (dep1 & -> & Hasm1);
    [by apply Forall_and|done|].
  subst ts. destruct (run_marker codec rate (count_all s gs) dep1 d pts f Z c)
    as (dep2 & E & Hl & Hc & Hr & Hd & Hact); try done.
  { rewrite zlen_app. lia. } { by apply count_all_ok. } { by apply count_all_fits. }
  exists dep2. split; [|split].
  - cbn [emit push_all]. unfold push_peer at 1. rewrite E.
    destruct (push_peer d _) as [r d']. by destruct r.
  - rewrite count_all_app. cbn [count_all]. split_and!; try done. by left.
  - done.
Qed.

(** ** The round trip *)

(** The element a depayloader must be to take over from [s]: same codec, payload type
    and SSRC, in step with the sequence numbers, nothing under assembly. *)
Definition follows (dep : rtp_depayloader_t) (s : rtp_payloader_t)
    (codec : rtp_depayloader_codec_t) : Prop :=
  linked dep s /\ dep_codec dep = codec /\ dep_clock_rate dep = 90000 /\
  dep_h264_discontinuity_pending dep = false /\ au_active (dep_au dep) = false.

(** The access unit the depayloader hands on for one sent at [pts]. *)
Definition recovered (codec : rtp_depayloader_codec_t) (pts : Z) (nals : list bytes) : zst_buffer :=
  output_of codec 90000 (rtp_payloader_pts_to_rtp_ts pts 90000) (long_annexb nals).

Lemma long_annexb_nonempty nals : nals <> [] -> long_annexb nals <> [].
Proof. by destruct nals. Qed.

Lemma zlen_annexb_le l : zlen (annexb l) <= zlen (long_annexb (map snd l)).
Proof.
  unfold long_annexb. induction l as [|[long nal] l IH]; [done|]. cbn [map snd annexb].
  rewrite !zlen_app. destruct long; cbn [start_code]; rewrite !zlen_cons, !zlen_nil; lia.
Qed.

End run.

Section roundtrip.
Context `{CMemoryOk}.
Implicit Type tr : trace.

Lemma unit_roundtrip codec s dep tr frags nals pts :
  (forall nal m X, nal ∈ nals ->
     adds codec (rtp_payloader_pts_to_rtp_ts pts 90000)
       (frags nal (rtp_payloader_pts_to_rtp_ts pts 90000) m) X (X ++ sc4 ++ nal)) ->
  (forall nal ts, nal ∈ nals ->
     Forall (fun f => fr_marker f = false) (frags nal ts false) /\ closed (frags nal ts true)) ->
  (forall nal ts m, Forall (fits s) (frags nal ts m)) ->
  pay_ok s -> follows dep s codec -> nals <> [] -> zlen (long_annexb nals) <= INT32_MAX ->
  let fs := au_frags frags (rtp_payloader_pts_to_rtp_ts pts 90000) nals in
  exists dep', send_all s (Some (dep, Some tr)) ZST_OK pts fs =
                 (ZST_OK, count_all s fs, Some (dep', Some (tr ++ [recovered codec pts nals]))) /\
               follows dep' (count_all s fs) codec.
Proof.
  intros Hadd Hmk Hfit Hok (Hl & Hc & Hr & Hd & Hact) Hne Hmax fs. unfold INT32_MAX in Hmax.
  destruct (run_unit codec 90000 (rtp_payloader_pts_to_rtp_ts pts 90000) s dep (Some tr) pts fs
              (long_annexb nals)) as (dep' & E & (Hl' & Hc' & Hr' & Hd' & _) & Hact').
  - apply (au_frags_adds codec frags (rtp_payloader_pts_to_rtp_ts pts 90000) nals []). apply Hadd.
  - apply au_frags_closed; [|done]. intros. by apply Hmk.
  - by apply au_frags_fits.
  - unfold SIZE_MAX. lia.
  - by apply long_annexb_nonempty.
  - apply u32_range.
  - done.
  - split_and!; try done; try apply Hl. by left.
  - exists dep'. split; [|by split_and!]. unfold send_all. rewrite E. done.
Qed.

(** C1. H.264: an access unit pushed into the payloader comes out of the depayloader linked
    behind it, in one buffer, NAL unit for NAL unit, whatever their sizes and
    start codes, and both elements are ready for the next one. *)
Theorem h264_roundtrip fuel s dep tr l pts dts dur flags :
  pay_ok s -> pay_codec s = RTP_PAYLOADER_CODEC_H264 -> 15 <= pay_mtu s ->
  follows dep s RTP_DEPAYLOADER_CODEC_H264 -> has_flag flags ZST_BUFFER_FLAG_EOS = false ->
  l <> [] -> Forall (fun ln => nal_ok ln.2 /\ h264_plain ln.2) l ->
  zlen (long_annexb (map snd l)) <= INT32_MAX -> zlen (annexb l) < Z.of_nat fuel ->
  exists s' dep',
    rtp_payloader_pad_push fuel (Some s) (Some (dep, Some tr))
      (Some (buffer_of ZST_BUFFER_VIDEO_PACKET flags pts dts dur (annexb l))) =
    Some (ZST_OK, Some s',
          Some (dep', Some (tr ++ [recovered RTP_DEPAYLOADER_CODEC_H264 pts (map snd l)]))) /\
    pay_ok s' /\ follows dep' s' RTP_DEPAYLOADER_CODEC_H264.
Proof.
  intros Hok Hcodec Hmtu Hf Hflag Hl Hall Hmax Hfuel. unfold INT32_MAX in Hmax.
  pose proof (zlen_annexb_le l).
  destruct (unit_roundtrip RTP_DEPAYLOADER_CODEC_H264 s dep tr (h264_frags (pay_mtu s)) (map snd l) pts)
    as (dep' & E & Hf'); try done.
  - intros nal m X Hin. apply list_elem_of_In, in_map_iff in Hin as (ln & <- & Hin%list_elem_of_In).
    eapply Forall_forall in Hall as [Hnal Hplain]; [|done]. apply h264_frags_adds; [done|apply Hnal|done].
  - intros nal ts Hin. apply list_elem_of_In, in_map_iff in Hin as (ln & <- & Hin%list_elem_of_In).
    eapply Forall_forall in Hall as [Hnal Hplain]; [|done]. apply h264_frags_markers; [done|apply Hnal].
  - intros. by apply h264_frags_fits.
  - by destruct l.
  - eexists _, dep'. split; [|split; [|apply Hf']]; [|by apply count_all_ok].
    unfold rtp_payloader_pad_push, buffer_of. cbn [mem_data mem_size buf_flags buf_pts].
    rewrite Hflag, Hcodec.
    assert (0 < zlen (annexb l)).
    { destruct l as [|[long nal] l]; [done|]. cbn [annexb]. rewrite zlen_app.
      pose proof (zlen_start_code long). pose proof (zlen_nonneg (nal ++ annexb l)). lia. }
    destruct (Z.eqb_spec (zlen (annexb l)) 0); [lia|]. cbn [orb].
    destruct (Z.ltb_spec INT32_MAX (zlen (annexb l))) as [Hlt|_]; [unfold INT32_MAX in Hlt; lia|]. cbv zeta.
    rewrite packetize_h264_spec; try done; [by rewrite E|].
    eapply Forall_impl; [apply Hall|]. by intros ln [].
Qed.

(** C2. H.265 likewise. *)
Theorem h265_roundtrip fuel s dep tr l pts dts dur flags :
  pay_ok s -> pay_codec s = RTP_PAYLOADER_CODEC_H265 -> 16 <= pay_mtu s ->
  follows dep s RTP_DEPAYLOADER_CODEC_H265 -> has_flag flags ZST_BUFFER_FLAG_EOS = false ->
  l <> [] -> Forall (fun ln => nal_ok ln.2 /\ 1 < zlen ln.2 /\ h265_plain ln.2) l ->
  zlen (long_annexb (map snd l)) <= INT32_MAX -> zlen (annexb l) < Z.of_nat fuel ->
  exists s' dep',
    rtp_payloader_pad_push fuel (Some s) (Some (dep, Some tr))
      (Some (buffer_of ZST_BUFFER_VIDEO_PACKET flags pts dts dur (annexb l))) =
    Some (ZST_OK, Some s',
          Some (dep', Some (tr ++ [recovered RTP_DEPAYLOADER_CODEC_H265 pts (map snd l)]))) /\
    pay_ok s' /\ follows dep' s' RTP_DEPAYLOADER_CODEC_H265.
Proof.
  intros Hok Hcodec Hmtu Hf Hflag Hl Hall Hmax Hfuel. unfold INT32_MAX in Hmax.
  pose proof (zlen_annexb_le l).
  destruct (unit_roundtrip RTP_DEPAYLOADER_CODEC_H265 s dep tr (h265_frags (pay_mtu s)) (map snd l) pts)
    as (dep' & E & Hf'); try done.
  - intros nal m X Hin. apply list_elem_of_In, in_map_iff in Hin as (ln & <- & Hin%list_elem_of_In).
    eapply Forall_forall in Hall as (Hnal & H2 & Hplain); [|done]. by apply h265_frags_adds.
  - intros nal ts Hin. apply list_elem_of_In, in_map_iff in Hin as (ln & <- & Hin%list_elem_of_In).
    eapply Forall_forall in Hall as (Hnal & H2 & Hplain); [|done]. by apply h265_frags_markers.
  - intros. by apply h265_frags_fits.
  - by destruct l.
  - eexists _, dep'. split; [|split; [|apply Hf']]; [|by apply count_all_ok].
    unfold rtp_payloader_pad_push, buffer_of. cbn [mem_data mem_size buf_flags buf_pts].
    rewrite Hflag, Hcodec.
    assert (0 < zlen (annexb l)).
    { destruct l as [|[long nal] l]; [done|]. cbn [annexb]. rewrite zlen_app.
      pose proof (zlen_start_code long). pose proof (zlen_nonneg (nal ++ annexb l)). lia. }
    destruct (Z.eqb_spec (zlen (annexb l)) 0); [lia|]. cbn [orb].
    destruct (Z.ltb_spec INT32_MAX (zlen (annexb l))) as [Hlt|_]; [unfold INT32_MAX in Hlt; lia|]. cbv zeta.
    rewrite packetize_h265_spec; try done; [by rewrite E|].
    eapply Forall_impl; [apply Hall|]. by intros ln (? & ? & ?).
Qed.

End roundtrip.

(** The presentation time survives the 90 kHz clock to within a tick, as long as
    the product does not wrap (about 56 hours) and the timestamp does not (about 13
    hours). *)
Theorem pts_roundtrip_bound pts :
  0 <= pts < 47721858844444 ->
  let p := rtp_depayloader_ts_to_pts (rtp_payloader_pts_to_rtp_ts pts 90000) 90000 in
  p <= pts < p + 11112.
Proof.
  intros Hp p. unfold p, rtp_depayloader_ts_to_pts, rtp_payloader_pts_to_rtp_ts.
  change (90000 =? 0) with false. cbv iota. rewrite (u64_small (pts * 90000)) by lia.
  rewrite u32_small by (Z.to_euclidean_division_equations; lia).
  rewrite u64_small by (Z.to_euclidean_division_equations; lia).
  Z.to_euclidean_division_equations. lia.
Qed.

(** ** Concrete instances *)

(** A new payloader with its MTU set to 20, so that small NAL units fragment. *)
Definition small_payloader (codec : rtp_payloader_codec_t) : rtp_payloader_t :=
  pay_set_nums (pay_set_codec zst_rtp_payloader_create codec 90000) 96 1398035024 28672 90000 20 2 2.

Definition new_depayloader (codec : rtp_depayloader_codec_t) : rtp_depayloader_t :=
  with_config zst_rtp_depayloader_create codec 96 90000 2 2 0 false.

Lemma small_payloader_ok codec : pay_ok (small_payloader codec).
Proof. constructor; cbn; unfold RTP_PAYLOADER_MAX_PAYLOAD; cint. Qed.

Lemma new_depayloader_follows codec pc :
  follows (new_depayloader codec) (small_payloader pc) codec.
Proof. by repeat split. Qed.

(** An access unit of a parameter set and a slice of 12 bytes. *)
Definition sample_h264 : list (bool * bytes) :=
  [(true, [103; 66; 0; 10]); (false, [101; 136; 0; 1; 2; 3; 4; 5; 6; 7; 8; 9])].
Definition sample_h265 : list (bool * bytes) :=
  [(true, [64; 1; 12]); (false, [38; 1; 175; 0; 1; 2; 3; 4; 5; 6; 7; 8])].

Lemma h264_roundtrip_witness :
  exists s' dep',
    @rtp_payloader_pad_push _ (@depayloader_sink _ trace_sink ample_memory) ample_memory 40
      (Some (small_payloader RTP_PAYLOADER_CODEC_H264))
      (Some (new_depayloader RTP_DEPAYLOADER_CODEC_H264, Some []))
      (Some (buffer_of ZST_BUFFER_VIDEO_PACKET 0 1000000000 1000000000 0 (annexb sample_h264))) =
    Some (ZST_OK, Some s',
          Some (dep', Some ([] ++ [recovered RTP_DEPAYLOADER_CODEC_H264 1000000000 (map snd sample_h264)]))) /\
    pay_ok s' /\ follows dep' s' RTP_DEPAYLOADER_CODEC_H264.
Proof.
  apply (@h264_roundtrip ample_memory ample_memory_ok);
    [apply small_payloader_ok|reflexivity|cbn; lia|apply new_depayloader_follows|reflexivity|discriminate
    | |unfold INT32_MAX; vm_compute; discriminate|vm_compute; reflexivity].
  repeat (constructor; [split; [by apply nal_okb_ok; vm_compute|
    split_and!; [vm_compute; split; congruence|vm_compute; congruence|vm_compute; congruence]]|]).
  constructor.
Defined.

Lemma h265_roundtrip_witness :
  exists s' dep',
    @rtp_payloader_pad_push _ (@depayloader_sink _ trace_sink ample_memory) ample_memory 40
      (Some (small_payloader RTP_PAYLOADER_CODEC_H265))
      (Some (new_depayloader RTP_DEPAYLOADER_CODEC_H265, Some []))
      (Some (buffer_of ZST_BUFFER_VIDEO_PACKET 0 1000000000 1000000000 0 (annexb sample_h265))) =
    Some (ZST_OK, Some s',
          Some (dep', Some ([] ++ [recovered RTP_DEPAYLOADER_CODEC_H265 1000000000 (map snd sample_h265)]))) /\
    pay_ok s' /\ follows dep' s' RTP_DEPAYLOADER_CODEC_H265.
Proof.
  apply (@h265_roundtrip ample_memory ample_memory_ok);
    [apply small_payloader_ok|reflexivity|cbn; lia|apply new_depayloader_follows|reflexivity|discriminate
    | |unfold INT32_MAX; vm_compute; discriminate|vm_compute; reflexivity].
  repeat (constructor; [split; [by apply nal_okb_ok; vm_compute|
    split; [vm_compute; reflexivity|]; unfold h265_plain;
    split_and!; [vm_compute; split; congruence|vm_compute; congruence|vm_compute; congruence]]|]).
  constructor.
Defined.

Lemma pts_roundtrip_bound_witness :
  let p := rtp_depayloader_ts_to_pts (rtp_payloader_pts_to_rtp_ts 1000000001 90000) 90000 in
  p <= 1000000001 < p + 11112.
Proof. apply (pts_roundtrip_bound 1000000001). lia. Defined.
