(* ===== verification/RtpDepayProps.v ===== *)
(** * Properties of the RTP depayloader

    The parser stays inside the packet; the access unit's length never exceeds its
    allocation; counters account for every packet; a sequence gap drops the unit
    under assembly and marks the next one; aggregation packets unpack to their NAL
    units; the AAC path inverts the payloader's; the property interface. *)

From Stdlib Require Import String.
From S2P Require Import Prelude CLib Pad MediaUtils RtpPay RtpDepay RtpPaySpec RtpPayProps RtpRoundtrip.

Local Open Scope Z_scope.

(** ** The parser *)

Lemma rd_take l n i : 0 <= i < n -> rd (take (Z.to_nat n) l) i = rd l i.
Proof. intros. unfold rd. rewrite lookup_take. by rewrite decide_True by lia. Qed.

Lemma sub_bytes_take off n m l :
  0 <= off -> 0 <= n -> off + n <= m -> sub_bytes off n (take (Z.to_nat m) l) = sub_bytes off n l.
Proof.
  intros. unfold sub_bytes. rewrite skipn_firstn_comm, take_take. f_equal. lia.
Qed.

Definition set_data (b : zst_buffer) (d : bytes) : zst_buffer :=
  mk_buffer (buf_type b) (buf_flags b) (buf_pts b) (buf_dts b) (buf_duration b) (Some d) (mem_size b).

Lemma land_15 z : 0 <= Z.land z 15 < 16.
Proof. rewrite (land_ones_mod z 4) by lia. change (2 ^ 4) with 16. apply Z.mod_pos_bound. lia. Qed.

Lemma be16_bytes p i j : bytes_ok p -> 0 <= be16 (rd p i) (rd p j) < 65536.
Proof.
  intros Hp. pose proof (rd_byte p i Hp). pose proof (rd_byte p j Hp). unfold is_byte in *.
  rewrite be16_add by done. lia.
Qed.

Lemma be32_bytes p i j k m : bytes_ok p -> 0 <= be32 (rd p i) (rd p j) (rd p k) (rd p m) < 4294967296.
Proof.
  intros Hp. pose proof (rd_byte p i Hp). pose proof (rd_byte p j Hp).
  pose proof (rd_byte p k Hp). pose proof (rd_byte p m Hp). unfold is_byte in *.
  rewrite be32_add by done. lia.
Qed.

(** The parser reads nothing beyond the packet's [size] bytes: what it returns depends on
    them alone, and the payload it returns lies inside them. *)
Theorem parse_rtp_in_bounds b data :
  mem_data b = Some data -> 0 <= mem_size b <= zlen data -> bytes_ok data ->
  rtp_depayloader_parse_rtp b = rtp_depayloader_parse_rtp (set_data b (buf_bytes b)) /\
  forall v, rtp_depayloader_parse_rtp b = Some v ->
    exists hlen, 12 <= hlen /\ hlen + view_payload_len v = mem_size b /\
      view_payload v = sub_bytes hlen (view_payload_len v) data /\ 0 <= view_payload_len v /\
      0 <= view_seq v < 65536 /\ 0 <= view_timestamp v < 4294967296 /\
      0 <= view_ssrc v < 4294967296 /\ 0 <= view_payload_type v < 128.
Proof.
  intros Hd Hs Hb. unfold rtp_depayloader_parse_rtp, buf_bytes, set_data. rewrite Hd. cbn [mem_data mem_size].
  set (q := sub_bytes 0 (mem_size b) data).
  assert (Hq : forall i, 0 <= i < mem_size b -> rd q i = rd data i)
    by (intros; unfold q, sub_bytes; cbn [Z.to_nat]; rewrite drop_0; apply rd_take; lia).
  assert (Hsub : forall off, 0 <= off <= mem_size b ->
      sub_bytes off (mem_size b - off) q = sub_bytes off (mem_size b - off) data)
    by (intros; unfold q; unfold sub_bytes at 2; cbn [Z.to_nat]; rewrite drop_0; apply sub_bytes_take; lia).
  clearbody q. destruct (Z.ltb_spec (mem_size b) 12) as [|Hs12]; [done|]. cbn [orb].
  destruct (RTP_DEPAYLOADER_MAX_PACKET <? mem_size b); [done|]. rewrite !Hq by lia.
  destruct (negb (Z.land (rd data 0) 192 =? 128)); [done|]. cbv zeta.
  pose proof (land_15 (rd data 0)). set (h := 12 + Z.land (rd data 0) 15 * 4) in *.
  destruct (Z.ltb_spec (mem_size b) h); [done|].
  pose proof (be16_bytes data (h + 2) (h + 3) Hb). pose proof (be16_bytes data 2 3 Hb).
  pose proof (be32_bytes data 4 5 6 7 Hb). pose proof (be32_bytes data 8 9 10 11 Hb).
  assert (0 <= Z.land (rd data 1) 127 < 128).
  { rewrite (land_ones_mod _ 7) by lia. apply Z.mod_pos_bound. lia. }
  destruct (negb (Z.land (rd data 0) 16 =? 0)).
  - destruct (Z.ltb_spec (mem_size b) (h + 4)); [done|]. rewrite !Hq by lia.
    set (hl := h + (4 + be16 (rd data (h + 2)) (rd data (h + 3)) * 4)) in *.
    destruct (Z.ltb_spec (mem_size b) hl); [done|]. rewrite Hsub, ?Hq by lia. split; [done|].
    intros v [= <-]. cbn. exists hl. split_and!; try done; lia.
  - rewrite Hsub, ?Hq by lia. split; [done|].
    intros v [= <-]. cbn. exists h. split_and!; try done; lia.
Qed.

(** ** The invariant *)

(** The block of the access unit holds its bytes and no more than was allocated. *)
Definition au_ok (au : au_t) : Prop :=
  match au_data au with
  | None => au_len au = 0 /\ au_cap au = 0
  | Some p => zlen p = au_len au /\ au_len au <= au_cap au <= SIZE_MAX
  end.

Record dep_ok (s : rtp_depayloader_t) : Prop := {
  dok_pt : 0 <= dep_payload_type s < 128;
  dok_rate : 0 < dep_clock_rate s < 4294967296;
  dok_channels : 0 < dep_channels s <= INT32_MAX;
  dok_sample : 0 < dep_sample_size s <= INT32_MAX;
  dok_ssrc : 0 <= dep_expected_ssrc s < 4294967296;
  dok_filter : dep_filter_ssrc s = true -> dep_expected_ssrc s <> 0;
  dok_seq : 0 <= dep_next_seq s < 65536;
  dok_au : au_ok (dep_au s);
}.

Lemma reserve_cap_bound need :
  0 < need <= SIZE_MAX -> need <= reserve_cap need <= Z.max 256 (2 * need) /\ reserve_cap need <= SIZE_MAX.
Proof.
  intros Hn. unfold reserve_cap, SIZE_MAX in *.
  change (18446744073709551615 / 2) with 9223372036854775807.
  destruct (Z.ltb_spec 9223372036854775807 need); [lia|].
  assert (u64 (smear [1; 2; 4; 8; 16; 32] (need - 1) + 1) =
          if need =? 1 then 1 else 2 ^ (Z.log2 (need - 1) + 1)) as ->.
  { destruct (Z.eqb_spec need 1) as [->|]; [done|]. rewrite smear64 by lia.
    pose proof (round_up_pow2 need ltac:(lia)). rewrite u64_small by lia. lia. }
  destruct (Z.eqb_spec need 1) as [->|].
  - destruct (Z.ltb_spec 1 256); lia.
  - pose proof (round_up_pow2 need ltac:(lia)).
    destruct (Z.ltb_spec (2 ^ (Z.log2 (need - 1) + 1)) 256); lia.
Qed.

(** The counters of what came in are equal. *)
Definition same_input (st st' : dep_stats) : Prop :=
  st_packets st' = st_packets st /\ st_bytes st' = st_bytes st /\
  st_in_packets st' = st_in_packets st /\ st_parse_errors st' = st_parse_errors st.

(** [s'] differs from [s] in its access unit, its output and drop counters and its
    discontinuity flag at most, and its access unit is well formed if that of [s] is. *)
Definition keeps (s s' : rtp_depayloader_t) : Prop :=
  exists au disc st, s' = with_stats (with_discontinuity (with_au s au) disc) st /\
    (au_ok (dep_au s) -> au_ok au) /\ same_input (dep_stats_of s) st.

Lemma keeps_refl s : keeps s s.
Proof. exists (dep_au s), (dep_h264_discontinuity_pending s), (dep_stats_of s). by destruct s. Qed.

Lemma keeps_trans s1 s2 s3 : keeps s1 s2 -> keeps s2 s3 -> keeps s1 s3.
Proof.
  intros (au & di & st & -> & H1 & E1) (au' & di' & st' & -> & H2 & E2). exists au', di', st'.
  split_and!; [done|by intros; apply H2, H1|]. unfold same_input in *. cbn in *. intuition congruence.
Qed.

Lemma keeps_au s au : (au_ok (dep_au s) -> au_ok au) -> keeps s (with_au s au).
Proof. intros Hk. exists au, (dep_h264_discontinuity_pending s), (dep_stats_of s). by destruct s. Qed.

Lemma keeps_dropped s : keeps s (drop_packet s).
Proof.
  exists (dep_au s), (dep_h264_discontinuity_pending s), (add_dropped (dep_stats_of s)).
  by destruct s.
Qed.

Lemma keeps_out s n : keeps s (with_stats s (add_out (dep_stats_of s) n)).
Proof.
  exists (dep_au s), (dep_h264_discontinuity_pending s), (add_out (dep_stats_of s) n).
  by destruct s.
Qed.

Lemma with_stats_ok s st : dep_ok s -> dep_ok (with_stats s st).
Proof. intros []. by constructor. Qed.

Lemma keeps_disc s b : keeps s (with_discontinuity s b).
Proof. exists (dep_au s), b, (dep_stats_of s). by destruct s. Qed.

Lemma keeps_ok s s' : keeps s s' -> dep_ok s -> dep_ok s'.
Proof. intros (au & di & st & -> & Hk & _) []. constructor; try done. by apply Hk. Qed.

Create HintDb keeps.
#[export] Hint Resolve keeps_refl keeps_au keeps_dropped keeps_out keeps_disc : keeps.

Lemma no_au_ok : au_ok no_au.
Proof. done. Qed.

Lemma reset_au_keeps s : keeps s (rtp_depayloader_reset_au s).
Proof. by apply keeps_au. Qed.

Lemma begin_au_keeps s ts : keeps s (rtp_depayloader_begin_au s ts).
Proof. unfold rtp_depayloader_begin_au. destruct (_ && _); [apply keeps_refl|].
  eapply keeps_trans; [apply reset_au_keeps|]. by apply keeps_au.
Qed.

Section keeps.
Context {D : Type} `{PadSink D} `{CMemory}.
Implicit Type d : option D.

Lemma reserve_au_keeps s extra ok s' :
  0 < extra -> rtp_depayloader_reserve_au s extra = (ok, s') ->
  keeps s s' /\ (ok = true -> au_ok (dep_au s) ->
    au_len (dep_au s) + extra <= au_cap (dep_au s') <= SIZE_MAX /\
    au_len (dep_au s') = au_len (dep_au s)).
Proof.
  intros He. unfold rtp_depayloader_reserve_au. unfold au_ok.
  destruct (Z.ltb_spec (SIZE_MAX - au_len (dep_au s)) extra); [intros E; apply pair_equal_spec in E as [<- <-]; split; [apply keeps_refl|done]|].
  cbv zeta. destruct (Z.leb_spec (au_len (dep_au s) + extra) (au_cap (dep_au s))).
  { intros E; apply pair_equal_spec in E as [<- <-]. split; [apply keeps_refl|]. intros _ Hok. destruct (au_data _); lia. }
  destruct (malloc_ok _); [|intros E; apply pair_equal_spec in E as [<- <-]; split; [apply keeps_refl|done]].
  intros E; apply pair_equal_spec in E as [<- <-]. cbn [with_au dep_au au_cap au_len].
  assert (Hneed : au_ok (dep_au s) ->
    au_len (dep_au s) + extra <= reserve_cap (au_len (dep_au s) + extra) <= SIZE_MAX).
  { unfold au_ok. intros Hok.
    assert (0 <= au_len (dep_au s)).
    { destruct (au_data (dep_au s)) as [p|]; [pose proof (zlen_nonneg p)|]; lia. }
    pose proof (reserve_cap_bound (au_len (dep_au s) + extra) ltac:(lia)). lia. }
  split; [|by intros _ Hok; split; [apply Hneed|]].
  apply keeps_au. intros Hok. specialize (Hneed Hok). unfold au_ok in Hok |- *. cbn [au_data au_len au_cap].
  destruct (au_data (dep_au s)); [lia|]. rewrite zlen_nil. lia.
Qed.

Lemma append_au_keeps s data ok s' :
  rtp_depayloader_append_au s data = (ok, s') -> keeps s s'.
Proof.
  unfold rtp_depayloader_append_au. pose proof (zlen_nonneg data).
  destruct (Z.eqb_spec (zlen data) 0); [intros; simplify_eq; apply keeps_refl|].
  destruct (rtp_depayloader_reserve_au s (zlen data)) as [[] s1] eqn:E; intros; simplify_eq;
    apply reserve_au_keeps in E as [E1 E2]; try lia; [|done].
  destruct E1 as (au & di & st & -> & Hau & Hst). cbn in E2 |- *. eexists _, di, st. split_and!; [done| |done].
  intros Hok. specialize (Hau Hok). destruct (E2 eq_refl Hok) as [Hcap Hlen].
  unfold au_ok in Hau |- *. cbn [au_data au_len au_cap]. rewrite zlen_app.
  assert (0 <= au_len au /\ au_len au <= zlen (match au_data au with Some p => p | None => [] end)) as [].
  { revert Hau. destruct (au_data au) as [p|]; [pose proof (zlen_nonneg p)|change (zlen []) with 0]; lia. }
  rewrite zlen_sub_bytes by lia. lia.
Qed.

Lemma append_nal_keeps s p ok s' : append_nal s p = (ok, s') -> keeps s s'.
Proof.
  unfold append_nal, rtp_depayloader_append_start_code.
  destruct (rtp_depayloader_append_au s [0; 0; 0; 1]) as [[] s1] eqn:E; apply append_au_keeps in E;
    [intros P%append_au_keeps; eauto using keeps_trans|]. intros P. by simplify_eq.
Qed.

Lemma push_bytes_keeps s d data len pts dur fl r s' d' :
  rtp_depayloader_push_bytes s d data len pts dur fl = (r, s', d') -> keeps s s'.
Proof.
  unfold rtp_depayloader_push_bytes. destruct data; [|intros; simplify_eq; apply keeps_refl].
  destruct (len =? 0); [intros; simplify_eq; apply keeps_refl|].
  destruct (malloc_ok _); [|intros; simplify_eq; apply keeps_refl]. cbv zeta.
  destruct (push_peer d _) as [r1 d1]. intros; simplify_eq. apply keeps_out.
Qed.

Lemma push_au_keeps s d r s' d' : rtp_depayloader_push_au s d = (r, s', d') -> keeps s s'.
Proof.
  unfold rtp_depayloader_push_au. destruct (_ || _ || _); [intros; simplify_eq; apply reset_au_keeps|].
  cbv zeta. set (s1 := with_au s _).
  assert (K1 : keeps s s1) by (by apply keeps_au).
  destruct (match dep_codec s1 with RTP_DEPAYLOADER_CODEC_H264 => _ | _ => _ end) as [fl s2] eqn:E.
  assert (K2 : keeps s1 s2).
  { destruct (dep_codec s1); try (simplify_eq; apply keeps_refl).
    destruct (dep_h264_discontinuity_pending s1); simplify_eq; auto using keeps_refl, keeps_disc. }
  intros P%push_bytes_keeps. eauto using keeps_trans.
Qed.

Lemma finish_packet_keeps s d v r s' d' : finish_packet s d v = (r, s', d') -> keeps s s'.
Proof.
  unfold finish_packet. destruct (view_marker v); [apply push_au_keeps|]. intros; simplify_eq. apply keeps_refl.
Qed.

Lemma depay_single_keeps s d v r s' d' : depay_single s d v = (r, s', d') -> keeps s s'.
Proof.
  unfold depay_single. pose proof (begin_au_keeps s (view_timestamp v)) as K0.
  destruct (append_nal _ _) as [ok s1] eqn:E. apply append_nal_keeps in E.
  destruct ok; [intros P%finish_packet_keeps|intros; simplify_eq; pose proof (reset_au_keeps s1)];
    eauto using keeps_trans.
Qed.

Lemma aggregate_loop_keeps fuel s p len off ok s' :
  aggregate_loop fuel s p len off = (ok, s') -> keeps s s'.
Proof.
  revert s off. induction fuel as [|fuel IH]; intros s off; cbn [aggregate_loop];
    [intros; simplify_eq; apply keeps_refl|].
  destruct (_ <=? len); [|intros; simplify_eq; apply keeps_refl]. cbv zeta.
  destruct (_ || _); [intros; simplify_eq; apply keeps_refl|].
  destruct (append_nal s _) as [ok1 s1] eqn:E. apply append_nal_keeps in E.
  destruct ok1; [intros P%IH|intros; by simplify_eq]. eauto using keeps_trans.
Qed.

Lemma depay_aggregate_keeps s d v off r s' d' : depay_aggregate s d v off = (r, s', d') -> keeps s s'.
Proof.
  unfold depay_aggregate. pose proof (begin_au_keeps s (view_timestamp v)) as K0.
  destruct (aggregate_loop _ _ _ _ _) as [ok s1] eqn:E. apply aggregate_loop_keeps in E.
  destruct ok; [intros P%finish_packet_keeps|intros; simplify_eq; pose proof (reset_au_keeps s1)];
    eauto using keeps_trans.
Qed.

Lemma depay_fragment_keeps s d v st h off r s' d' : depay_fragment s d v st h off = (r, s', d') -> keeps s s'.
Proof.
  unfold depay_fragment. cbv zeta. destruct st.
  - pose proof (begin_au_keeps s (view_timestamp v)) as K0.
    destruct (append_nal _ h) as [ok s1] eqn:E. apply append_nal_keeps in E.
    destruct ok; cbn [negb]; [|intros; simplify_eq; pose proof (reset_au_keeps s1); eauto using keeps_trans].
    destruct (rtp_depayloader_append_au s1 _) as [ok s2] eqn:E2. apply append_au_keeps in E2.
    destruct ok; [intros P%finish_packet_keeps|intros; simplify_eq; pose proof (reset_au_keeps s2)];
      eauto using keeps_trans.
  - destruct (_ || _); [intros; simplify_eq; apply keeps_dropped|].
    destruct (rtp_depayloader_append_au s _) as [ok s2] eqn:E2. apply append_au_keeps in E2.
    destruct ok; [intros P%finish_packet_keeps|intros; simplify_eq; pose proof (reset_au_keeps s2)];
      eauto using keeps_trans.
Qed.

Lemma depay_h264_keeps s d v r s' d' : rtp_depayloader_depay_h264 s d v = (r, s', d') -> keeps s s'.
Proof.
  unfold rtp_depayloader_depay_h264. cbv zeta.
  repeat match goal with
  | |- (if ?b then _ else _) = _ -> _ => destruct b
  end; try (intros; simplify_eq; apply keeps_refl);
    eauto using depay_single_keeps, depay_aggregate_keeps, depay_fragment_keeps.
Qed.

Lemma depay_h265_keeps s d v r s' d' : rtp_depayloader_depay_h265 s d v = (r, s', d') -> keeps s s'.
Proof.
  unfold rtp_depayloader_depay_h265. cbv zeta.
  repeat match goal with
  | |- (if ?b then _ else _) = _ -> _ => destruct b
  end; try (intros; simplify_eq; apply keeps_refl);
    eauto using depay_single_keeps, depay_aggregate_keeps, depay_fragment_keeps.
Qed.

Lemma depay_aac_loop_keeps n i s d p len cur base ret r s' d' :
  depay_aac_loop n i s d p len cur base ret = (r, s', d') -> keeps s s'.
Proof.
  revert i s d cur ret. induction n as [|n IH]; intros i s d cur ret; cbn [depay_aac_loop]; cbv zeta;
    [intros; simplify_eq; apply keeps_refl|].
  destruct (_ || _); [intros; simplify_eq; apply keeps_dropped|].
  destruct (negb _); [intros; simplify_eq; apply keeps_refl|].
  destruct (rtp_depayloader_push_bytes _ _ _ _ _ _ _) as [[one s1] d1] eqn:E.
  apply push_bytes_keeps in E. intros P%IH. eauto using keeps_trans.
Qed.

Lemma depay_aac_keeps s d v r s' d' : rtp_depayloader_depay_aac s d v = (r, s', d') -> keeps s s'.
Proof.
  unfold rtp_depayloader_depay_aac. cbv zeta.
  destruct (_ <? 4); [intros; simplify_eq; apply keeps_refl|].
  destruct (_ || _); [intros; simplify_eq; apply keeps_refl|]. apply depay_aac_loop_keeps.
Qed.

Lemma depay_pcm_keeps s d v r s' d' : rtp_depayloader_depay_pcm s d v = (r, s', d') -> keeps s s'.
Proof.
  unfold rtp_depayloader_depay_pcm. cbv zeta. destruct (_ =? 0); [intros; simplify_eq; apply keeps_refl|].
  pose proof (begin_au_keeps s (view_timestamp v)) as K0.
  destruct (rtp_depayloader_append_au _ _) as [ok s1] eqn:E. apply append_au_keeps in E.
  destruct ok; cbn [negb]; [|intros; simplify_eq; pose proof (reset_au_keeps s1); eauto using keeps_trans].
  destruct (view_marker v); [|intros; simplify_eq; eauto using keeps_trans].
  intros P%push_bytes_keeps. eapply keeps_trans; [eapply keeps_trans; [apply K0|apply E]|].
  eapply keeps_trans; [|apply P]. by apply keeps_au.
Qed.

Lemma with_seq_ok s have next : dep_ok s -> 0 <= next < 65536 -> dep_ok (with_seq s have next).
Proof. intros []. by constructor. Qed.

Lemma pad_push_ok s d buf r s' d' :
  dep_ok s -> rtp_depayloader_pad_push (Some s) d (Some buf) = (r, Some s', d') -> dep_ok s'.
Proof.
  intros Hok. unfold rtp_depayloader_pad_push. cbv zeta.
  destruct (has_flag _ _).
  { destruct (rtp_depayloader_push_au s d) as [[r1 s1] d1] eqn:E. intros; simplify_eq.
    by eapply keeps_ok; [eapply push_au_keeps|]. }
  pose proof (with_stats_ok s (add_in (dep_stats_of s)) Hok) as Hok1.
  set (s1 := with_stats s _) in *.
  destruct (rtp_depayloader_parse_rtp buf) as [v|].
  2:{ intros; simplify_eq. by apply with_stats_ok. }
  pose proof (with_stats_ok s1 (add_packet (dep_stats_of s1) (mem_size buf)) Hok1) as Hok2.
  set (s2 := with_stats s1 _) in *.
  assert (Hdrop : dep_ok (drop_packet s2)) by (by apply with_stats_ok).
  destruct (negb _); [by intros; simplify_eq|]. destruct (_ && negb _); [by intros; simplify_eq|].
  set (s3 := if _ && negb _ then _ else _).
  assert (Hok3 : dep_ok s3).
  { unfold s3. destruct (_ && negb _); [|done].
    assert (dep_ok (rtp_depayloader_reset_au (drop_packet s2))) as Hr
      by (by eapply keeps_ok; [apply reset_au_keeps|]).
    destruct (dep_codec _); try done. by eapply keeps_ok; [apply keeps_disc|]. }
  pose proof (with_seq_ok s3 true (u16 (view_seq v + 1)) Hok3 (u16_range _)) as Hok4.
  set (s4 := with_seq s3 _ _) in *. clearbody s4.
  destruct (dep_codec s4).
  - destruct (rtp_depayloader_depay_h264 s4 d v) as [[r1 s5] d1] eqn:E. intros; simplify_eq.
    by eapply keeps_ok; [eapply depay_h264_keeps|].
  - destruct (rtp_depayloader_depay_h265 s4 d v) as [[r1 s5] d1] eqn:E. intros; simplify_eq.
    by eapply keeps_ok; [eapply depay_h265_keeps|].
  - destruct (rtp_depayloader_depay_aac s4 d v) as [[r1 s5] d1] eqn:E. intros; simplify_eq.
    by eapply keeps_ok; [eapply depay_aac_keeps|].
  - destruct (rtp_depayloader_depay_pcm s4 d v) as [[r1 s5] d1] eqn:E. intros; simplify_eq.
    by eapply keeps_ok; [eapply depay_pcm_keeps|].
Qed.

End keeps.

Lemma dep_set_property_ok s name value s' :
  dep_ok s -> rtp_depayloader_set_property (Some s) name value = (ZST_OK, Some s') -> dep_ok s'.
Proof.
  intros Hok Hset. unfold rtp_depayloader_set_property in Hset.
  destruct name as [name|]; [|done]. destruct value as [value|]; [|done]. cbv zeta in Hset.
  destruct Hok as [Hpt Hrate Hch Hss Hssrc Hfilter Hseq Hau].
  pose proof (atoi_range value). pose proof (u32_range (strtoul0 value)). pose proof (u32_range (atoi value)).
  repeat match type of Hset with
  | (if name_in ?a ?b then _ else _) = _ => destruct (name_in a b)
  end; try discriminate Hset.
  { destruct (rtp_depayloader_parse_codec value) as [c|]; [|done]. ok_result Hset.
    constructor; cbn; try done. by destruct c; try done; destruct (dep_clock_rate s =? _). }
  all: repeat match type of Hset with
       | context [Z.ltb ?a ?b] => destruct (Z.ltb_spec a b)
       | context [Z.leb ?a ?b] => destruct (Z.leb_spec a b)
       end; ok_result Hset; try (by constructor); constructor; cbn; try done; try cint.
Qed.

(** One call into the element, with whatever the environment passes it. *)
Inductive dep_call `{CMemory} : rtp_depayloader_t -> rtp_depayloader_t -> Prop :=
| dep_call_open s s' : rtp_depayloader_open (Some s) = (ZST_OK, Some s') -> dep_call s s'
| dep_call_close s s' : rtp_depayloader_close (Some s) = (ZST_OK, Some s') -> dep_call s s'
| dep_call_destroy s s' : rtp_depayloader_pad_destroy (Some s) = Some s' -> dep_call s s'
| dep_call_set s s' name value :
    rtp_depayloader_set_property (Some s) name value = (ZST_OK, Some s') -> dep_call s s'
| dep_call_push s (d d' : option trace) buf r s' :
    rtp_depayloader_pad_push (Some s) d (Some buf) = (r, Some s', d') -> dep_call s s'.

(** In every state reached from creation by any calls, packets well formed or not,
    allocations failing or not: the assembled unit lies inside its allocation, the
    divisor of the clock conversion is positive, an SSRC filter has an SSRC. *)
Theorem depayloader_reach_ok `{CMemory} s :
  reach dep_call zst_rtp_depayloader_create s -> dep_ok s.
Proof.
  apply reach_inv.
  { constructor; cbn; unfold RTP_DEPAYLOADER_DEFAULT_PT, RTP_DEPAYLOADER_DEFAULT_RATE_VIDEO; try done; cint. }
  intros a b Hok Hc. destruct Hc as [? ? E|? ? E|? ? E|? ? ? ? E|? ? ? ? ? ? E].
  - unfold rtp_depayloader_open in E. ok_result E. destruct Hok. by constructor.
  - unfold rtp_depayloader_close in E. ok_result E. destruct Hok. by constructor.
  - simpl in E. simplify_eq. by eapply keeps_ok; [apply reset_au_keeps|].
  - by eapply dep_set_property_ok.
  - by eapply pad_push_ok.
Qed.

(** ** Counters, gaps and output *)

(** The effect of a sequence gap on the state: the unit under assembly is gone, one
    more packet counts as dropped, the H.264 discontinuity is noted. *)
Definition after_gap (s : rtp_depayloader_t) : rtp_depayloader_t :=
  let s := with_seq (rtp_depayloader_reset_au (drop_packet s)) false (dep_next_seq s) in
  match dep_codec s with
  | RTP_DEPAYLOADER_CODEC_H264 => with_discontinuity s true
  | _ => s
  end.

(** The packet passes the payload type and SSRC filters. *)
Definition accepted (s : rtp_depayloader_t) (v : rtp_packet_view_t) : Prop :=
  view_payload_type v = dep_payload_type s /\
  (dep_filter_ssrc s = true -> view_ssrc v = dep_expected_ssrc s).

Section behaviour.
Context {D : Type} `{PadSink D} `{CMemory}.
Implicit Type d : option D.

(** A packet out of sequence is processed as the first packet of a stream would be, after
    the unit under assembly has been discarded; one in sequence changes nothing of
    the sort. *)
Theorem sequence_gap s d buf v :
  has_flag (buf_flags buf) ZST_BUFFER_FLAG_EOS = false ->
  rtp_depayloader_parse_rtp buf = Some v -> accepted s v -> dep_have_seq s = true ->
  view_seq v <> dep_next_seq s ->
  rtp_depayloader_pad_push (Some s) d (Some buf) = rtp_depayloader_pad_push (Some (after_gap s)) d (Some buf) /\
  au_active (dep_au (after_gap s)) = false /\
  st_dropped_packets (dep_stats_of (after_gap s)) = u64 (st_dropped_packets (dep_stats_of s) + 1).
Proof.
  intros Hflag Hparse [Hpt Hssrc] Hhave Hseq.
  destruct s as [codec pt rate ch ss ssrc filter have next au disc st].
  cbn [dep_payload_type dep_filter_ssrc dep_expected_ssrc dep_have_seq dep_next_seq] in *. subst have.
  split; [|by destruct codec]. unfold rtp_depayloader_pad_push. rewrite Hflag, Hparse. cbv zeta.
  assert (Hpt' : negb (view_payload_type v =? pt) = false) by (rewrite Hpt; by rewrite Z.eqb_refl).
  assert (Hf : filter && negb (view_ssrc v =? ssrc) = false)
    by (destruct filter; [rewrite Hssrc by done; by rewrite Z.eqb_refl|done]).
  apply Z.eqb_neq in Hseq.
  generalize (@rtp_depayloader_depay_h264 D _ _) as h1, (@rtp_depayloader_depay_h265 D _ _) as h2,
    (@rtp_depayloader_depay_aac D _ _) as h3, (@rtp_depayloader_depay_pcm D _ _) as h4. intros.
  unfold after_gap, rtp_depayloader_reset_au, drop_packet. generalize (u16 (view_seq v + 1)) as next'. intros.
  cbn [with_stats with_seq with_au dep_payload_type dep_filter_ssrc dep_expected_ssrc dep_have_seq
       dep_next_seq dep_codec dep_stats_of].
  destruct codec; cbn [with_discontinuity with_seq with_stats with_au dep_payload_type dep_filter_ssrc
    dep_expected_ssrc dep_have_seq dep_next_seq dep_codec dep_stats_of dep_clock_rate dep_channels
    dep_sample_size dep_au dep_h264_discontinuity_pending]; rewrite Hpt', Hf, Hseq; reflexivity.
Qed.

(** Every packet is counted once as received and once as parsed or as a parse error
    (which is also a drop), whatever its codec handler then does. *)
Theorem pad_push_counts s d buf r s' d' :
  has_flag (buf_flags buf) ZST_BUFFER_FLAG_EOS = false ->
  rtp_depayloader_pad_push (Some s) d (Some buf) = (r, Some s', d') ->
  let st := dep_stats_of s in let st' := dep_stats_of s' in
  st_in_packets st' = u64 (st_in_packets st + 1) /\
  match rtp_depayloader_parse_rtp buf with
  | Some _ => st_packets st' = u64 (st_packets st + 1) /\ st_parse_errors st' = st_parse_errors st /\
              st_bytes st' = u64 (st_bytes st + mem_size buf)
  | None => st_packets st' = st_packets st /\ st_parse_errors st' = u64 (st_parse_errors st + 1) /\
            st_dropped_packets st' = u64 (st_dropped_packets st + 1) /\ r = ZST_OK /\ d' = d
  end.
Proof.
  intros Hflag. unfold rtp_depayloader_pad_push. rewrite Hflag. cbv zeta.
  set (s1 := with_stats s _) in *.
  destruct (rtp_depayloader_parse_rtp buf) as [v|]; [|intros; simplify_eq; done].
  set (s2 := with_stats s1 _) in *.
  assert (Hdone : forall s', keeps s2 s' ->
    st_in_packets (dep_stats_of s') = u64 (st_in_packets (dep_stats_of s) + 1) /\
    st_packets (dep_stats_of s') = u64 (st_packets (dep_stats_of s) + 1) /\
    st_parse_errors (dep_stats_of s') = st_parse_errors (dep_stats_of s) /\
    st_bytes (dep_stats_of s') = u64 (st_bytes (dep_stats_of s) + mem_size buf)).
  { intros s0 (au & di & st & -> & _ & E1 & E2 & E3 & E4). cbn in *. by split_and!. }
  destruct (negb _); [intros; simplify_eq; apply Hdone, keeps_dropped|].
  destruct (_ && negb _); [intros; simplify_eq; apply Hdone, keeps_dropped|].
  set (s3 := if _ && negb _ then _ else _).
  assert (K3 : same_input (dep_stats_of s2) (dep_stats_of s3)).
  { unfold s3. destruct (_ && negb _); [|done]. by destruct (dep_codec _). }
  assert (Hdone' : forall s', keeps (with_seq s3 true (u16 (view_seq v + 1))) s' ->
    st_in_packets (dep_stats_of s') = u64 (st_in_packets (dep_stats_of s) + 1) /\
    st_packets (dep_stats_of s') = u64 (st_packets (dep_stats_of s) + 1) /\
    st_parse_errors (dep_stats_of s') = st_parse_errors (dep_stats_of s) /\
    st_bytes (dep_stats_of s') = u64 (st_bytes (dep_stats_of s) + mem_size buf)).
  { intros s0 (au & di & st & -> & _ & E1 & E2 & E3 & E4). destruct K3 as (F1 & F2 & F3 & F4).
    cbn [with_seq with_stats dep_stats_of] in *. rewrite E1, E2, E3, E4, F1, F2, F3, F4. by split_and!. }
  set (s4 := with_seq s3 _ _) in *. clearbody s4. destruct (dep_codec s4).
  - destruct (rtp_depayloader_depay_h264 s4 d v) as [[r1 s5] d1] eqn:E. intros; simplify_eq.
    by eapply Hdone', depay_h264_keeps.
  - destruct (rtp_depayloader_depay_h265 s4 d v) as [[r1 s5] d1] eqn:E. intros; simplify_eq.
    by eapply Hdone', depay_h265_keeps.
  - destruct (rtp_depayloader_depay_aac s4 d v) as [[r1 s5] d1] eqn:E. intros; simplify_eq.
    by eapply Hdone', depay_aac_keeps.
  - destruct (rtp_depayloader_depay_pcm s4 d v) as [[r1 s5] d1] eqn:E. intros; simplify_eq.
    by eapply Hdone', depay_pcm_keeps.
Qed.

End behaviour.

(** ** Aggregation packets *)

(** The body of a STAP-A or AP packet: each NAL unit behind its 16-bit length. *)
Fixpoint aggregate_body (nals : list bytes) : bytes :=
  match nals with
  | [] => []
  | nal :: nals => [u8 (Z.shiftr (zlen nal) 8); u8 (zlen nal)] ++ nal ++ aggregate_body nals
  end.

Section aggregate.
Context {D : Type} `{PadSink D} `{CMemoryOk}.
Implicit Type d : option D.

Lemma sub_bytes_mid pre l post : sub_bytes (zlen pre) (zlen l) (pre ++ l ++ post) = l.
Proof.
  unfold sub_bytes, zlen. rewrite !Nat2Z.id, drop_app_length. by rewrite take_app_length.
Qed.

Lemma aggregate_loop_spec nals fuel s rate ts X pre :
  Forall (fun nal => 0 < zlen nal < 65536) nals -> au_holds (dep_au s) rate ts X ->
  zlen (X ++ long_annexb nals) <= SIZE_MAX -> (length nals < fuel)%nat ->
  exists au, aggregate_loop fuel s (pre ++ aggregate_body nals) (zlen (pre ++ aggregate_body nals))
               (zlen pre) = (true, with_au s au) /\
             au_holds au rate ts (X ++ long_annexb nals).
Proof.
  revert fuel s X pre. induction nals as [|nal nals IH]; intros fuel s X pre Hn Hau Hmax Hfuel.
  - destruct fuel as [|fuel]; [simpl in Hfuel; lia|]. cbn [aggregate_body aggregate_loop].
    rewrite !app_nil_r. destruct (Z.leb_spec (zlen pre + 2) (zlen pre)); [lia|].
    exists (dep_au s). split; [by destruct s|done].
  - destruct fuel as [|fuel]; [simpl in Hfuel; lia|]. apply Forall_cons in Hn as [Hnal Hn].
    cbn [aggregate_body]. set (hdr := [u8 (Z.shiftr (zlen nal) 8); u8 (zlen nal)]).
    set (p := pre ++ hdr ++ nal ++ aggregate_body nals).
    assert (Hlen : zlen p = zlen pre + 2 + zlen nal + zlen (aggregate_body nals))
      by (unfold p; rewrite !zlen_app; change (zlen hdr) with 2; lia).
    pose proof (zlen_nonneg pre). pose proof (zlen_nonneg (aggregate_body nals)).
    cbn [aggregate_loop]. destruct (Z.leb_spec (zlen pre + 2) (zlen p)); [|lia].
    assert (Hsize : be16 (rd p (zlen pre)) (rd p (zlen pre + 1)) = zlen nal).
    { unfold p. rewrite (rd_app_r pre _ (zlen pre)), (rd_app_r pre _ (zlen pre + 1)) by lia.
      replace (zlen pre - zlen pre) with 0 by lia. replace (zlen pre + 1 - zlen pre) with 1 by lia.
      apply be16_u8. lia. }
    rewrite Hsize. cbv zeta. destruct (Z.eqb_spec (zlen nal) 0); [lia|].
    destruct (Z.ltb_spec (zlen p) (zlen pre + 2 + zlen nal)); [lia|]. cbn [orb].
    assert (sub_bytes (zlen pre + 2) (zlen nal) p = nal) as ->.
    { unfold p. rewrite app_assoc. replace (zlen pre + 2) with (zlen (pre ++ hdr))
        by (rewrite zlen_app; done). apply sub_bytes_mid. }
    assert (Hsplit : X ++ long_annexb (nal :: nals) = (X ++ sc4 ++ nal) ++ long_annexb nals)
      by (unfold long_annexb; cbn [map annexb]; by rewrite <-!app_assoc).
    rewrite Hsplit in *. pose proof (zlen_nonneg (long_annexb nals)).
    destruct (append_nal_holds s (dep_au s) rate ts X nal eq_refl Hau) as (au1 & -> & Hau1).
    { rewrite zlen_app in Hmax. lia. }
    destruct (IH fuel (with_au s au1) (X ++ sc4 ++ nal) (pre ++ hdr ++ nal)) as (au2 & E & Hau2);
      try done. { simpl in Hfuel. lia. }
    exists au2. split; [|done].
    replace p with ((pre ++ hdr ++ nal) ++ aggregate_body nals) by (unfold p; by rewrite <-!app_assoc).
    replace (zlen pre + 2 + zlen nal) with (zlen (pre ++ hdr ++ nal))
      by (rewrite !zlen_app; change (zlen hdr) with 2; lia).
    rewrite E. by rewrite with_au_twice.
Qed.

Lemma aggregate_body_length nals : Z.of_nat (2 * length nals) <= zlen (aggregate_body nals).
Proof.
  induction nals as [|nal nals IH]; [done|]. cbn [aggregate_body length]. rewrite !zlen_app.
  rewrite !zlen_cons, zlen_nil. pose proof (zlen_nonneg nal). lia.
Qed.

(** An H.264 STAP-A packet whose indicator has type 24 unpacks to its NAL units, each
    behind a start code, and with the marker they leave as one buffer together with
    what was assembled before. *)
Theorem stap_a_unpacks s d v ind nals X :
  Z.land ind 31 = 24 -> Forall (fun nal => 0 < zlen nal < 65536) nals ->
  view_payload v = ind :: aggregate_body nals -> view_payload_len v = zlen (view_payload v) ->
  au_at (dep_au s) (dep_clock_rate s) (view_timestamp v) X ->
  zlen (X ++ long_annexb nals) <= SIZE_MAX ->
  exists au, au_holds au (dep_clock_rate s) (view_timestamp v) (X ++ long_annexb nals) /\
    rtp_depayloader_depay_h264 s d v = finish_packet (with_au s au) d v.
Proof.
  intros Hind Hn Hp Hl Hau Hmax. unfold rtp_depayloader_depay_h264. rewrite Hl, Hp. cbv zeta.
  rewrite zlen_cons. pose proof (zlen_nonneg (aggregate_body nals)).
  destruct (Z.eqb_spec (zlen (aggregate_body nals) + 1) 0); [lia|].
  change (rd (ind :: aggregate_body nals) 0) with ind. rewrite Hind.
  change ((1 <=? 24) && (24 <=? 23)) with false. cbv iota. change (24 =? 24) with true. cbv iota.
  unfold depay_aggregate. destruct (begin_au_holds s (view_timestamp v) X Hau) as (au1 & -> & Hau1).
  rewrite Hl, Hp. pose proof (aggregate_body_length nals).
  destruct (aggregate_loop_spec nals (Z.to_nat (zlen (ind :: aggregate_body nals))) (with_au s au1)
              (dep_clock_rate s) (view_timestamp v) X [ind]) as (au2 & E & Hau2); try done.
  { rewrite zlen_cons. lia. }
  cbn [app] in E. change (zlen [ind]) with 1 in E. rewrite E. by exists au2.
Qed.

End aggregate.

(** ** AAC *)

(** The access unit as the depayloader sends it on. *)
Definition recovered_aac (rate ts : Z) (au : bytes) : zst_buffer :=
  let pts := rtp_depayloader_ts_to_pts ts rate in
  mk_buffer ZST_BUFFER_AUDIO_PACKET 0 pts pts (1024 * 1000000000 / rate) (Some au) (zlen au).

Lemma ts_to_pts_range ts rate :
  0 <= rate -> 0 <= rtp_depayloader_ts_to_pts ts rate < 18446744073709551616.
Proof.
  intros Hr. unfold rtp_depayloader_ts_to_pts. destruct (Z.eqb_spec rate 0); [lia|].
  pose proof (u64_range (ts * 1000000000)). split; [apply Z.div_pos; lia|].
  apply Z.div_lt_upper_bound; nia.
Qed.

Section aac.
Context `{CMemoryOk}.

Lemma depay_aac_one {D} `{PadSink D} dep (d : option D) v au :
  view_payload v = aac_hdr (zlen au) ++ au -> view_payload_len v = zlen (view_payload v) ->
  0 < zlen au <= 8191 -> dep_codec dep = RTP_DEPAYLOADER_CODEC_AAC -> 0 < dep_clock_rate dep ->
  rtp_depayloader_depay_aac dep d v =
  (let '(r, d') := push_peer d (recovered_aac (dep_clock_rate dep) (view_timestamp v) au) in
   (r, with_stats dep (add_out (dep_stats_of dep) (zlen au)), d')).
Proof.
  intros Hp Hlen Hau Hcodec Hrate. unfold rtp_depayloader_depay_aac. rewrite Hlen, Hp.
  assert (Hl : zlen (aac_hdr (zlen au) ++ au) = zlen au + 4)
    by (rewrite zlen_app; change (zlen (aac_hdr (zlen au))) with 4; lia).
  rewrite Hl. destruct (Z.ltb_spec (zlen au + 4) 4); [lia|]. cbv zeta.
  change (be16 (rd (aac_hdr (zlen au) ++ au) 0) (rd (aac_hdr (zlen au) ++ au) 1)) with 16.
  change ((16 + 7) / 8) with 2. change ((16 =? 0) || negb (16 mod 16 =? 0)) with false. cbn [orb].
  destruct (Z.ltb_spec (zlen au + 4) (2 + 2)); [lia|].
  change (Z.to_nat (16 / 16)) with 1%nat. cbn [depay_aac_loop]. cbv zeta.
  assert (Hsz : Z.shiftr (be16 (rd (aac_hdr (zlen au) ++ au) (2 + 0 * 2))
                  (rd (aac_hdr (zlen au) ++ au) (2 + 0 * 2 + 1))) 3 = zlen au).
  { change (Z.shiftr (be16 (u8 (zlen au / 32)) (u8 (zlen au * 8))) 3 = zlen au).
    rewrite be16_add, (shiftr_div _ 3 8) by (done || apply u8_range || lia). cint. }
  rewrite Hsz. destruct (Z.eqb_spec (zlen au) 0); [lia|].
  destruct (Z.ltb_spec (zlen au + 4) (2 + 2 + zlen au)); [lia|]. cbn [orb].
  rewrite malloc_total. cbn [negb].
  assert (sub_bytes (2 + 2) (zlen au) (aac_hdr (zlen au) ++ au) = au) as ->
    by (by apply (sub_bytes_app_r (aac_hdr (zlen au)))).
  unfold rtp_depayloader_push_bytes. destruct (Z.eqb_spec (zlen au) 0); [lia|]. rewrite malloc_total.
  unfold rtp_depayloader_output_type. rewrite Hcodec.
  change (u64 (0 * 1024 * 1000000000) / dep_clock_rate dep) with (0 / dep_clock_rate dep).
  rewrite Z.div_0_l, Z.add_0_r, u64_small by (try apply ts_to_pts_range; lia).
  unfold recovered_aac. cbv zeta. by destruct (push_peer d _) as [[|?|?] d'].
Qed.

(** AAC: an access unit that fits one packet comes out of the depayloader unchanged. *)
Theorem aac_roundtrip fuel s dep (tr : trace) au pts dts dur flags :
  pay_ok s -> pay_codec s = RTP_PAYLOADER_CODEC_AAC ->
  linked dep s -> dep_codec dep = RTP_DEPAYLOADER_CODEC_AAC -> 0 < dep_clock_rate dep ->
  has_flag flags ZST_BUFFER_FLAG_EOS = false ->
  0 < zlen au <= 8191 -> zlen au + (if pay_strict_mtu s then 16 else 4) <= pay_mtu s ->
  exists s' dep',
    rtp_payloader_pad_push fuel (Some s) (Some (dep, Some tr))
      (Some (buffer_of ZST_BUFFER_AUDIO_PACKET flags pts dts dur au)) =
    Some (ZST_OK, Some s',
          Some (dep', Some (tr ++ [recovered_aac (dep_clock_rate dep)
                                     (rtp_payloader_pts_to_rtp_ts pts (pay_clock_rate s)) au]))) /\
    linked dep' s'.
Proof.
  intros Hok Hcodec Hlink Hdc Hrate Hflag Hau Hmtu.
  unfold rtp_payloader_pad_push, buffer_of. cbn [mem_data mem_size buf_flags buf_pts].
  rewrite Hflag, Hcodec. destruct (Z.eqb_spec (zlen au) 0); [lia|]. cbn [orb].
  destruct (Z.ltb_spec INT32_MAX (zlen au)) as [Hlt|_]; [unfold INT32_MAX in Hlt; lia|]. cbv zeta.
  rewrite packetize_aac_spec by done.
  assert ((pay_mtu s <? zlen au + 4) || pay_strict_mtu s && (pay_mtu s <? zlen au + 16) = false) as ->.
  { destruct (pay_strict_mtu s); cbn [andb];
    destruct (Z.ltb_spec (pay_mtu s) (zlen au + 4)), (Z.ltb_spec (pay_mtu s) (zlen au + 16)); try lia; done. }
  set (f := aac_frag (pay_clock_rate s) pts au).
  assert (Hfl : zlen (fr_body f) = zlen au + 4)
    by (cbn [f aac_frag fr_body]; rewrite zlen_app; change (zlen (aac_hdr (zlen au))) with 4; lia).
  unfold send_all. cbn [emit push_all count_all]. unfold push_peer, pad_push, depayloader_sink.
  rewrite pad_push_linked; [|done|done|apply u32_range|unfold RTP_PAYLOADER_MAX_PAYLOAD; lia].
  rewrite Hdc. cbn [depay_of].
  rewrite (depay_aac_one _ _ _ au) by done.
  unfold push_peer, pad_push, trace_sink. eexists _, _. split; [done|].
  destruct Hlink as (? & ? & ?). by repeat split.
Qed.

End aac.

(** ** Properties *)

Lemma dep_parse_codec_to_string c :
  rtp_depayloader_parse_codec (rtp_depayloader_codec_to_string c) = Some c.
Proof. by destruct c. Qed.

(** Whatever value [set_property] accepts under whatever name, [get_property] returns a
    text for it, under the same name, that sets the same configuration again. *)
Lemma depayloader_property_roundtrip s name value s' max_len :
  dep_ok s -> 32 <= max_len ->
  rtp_depayloader_set_property (Some s) (Some name) (Some value) = (ZST_OK, Some s') ->
  exists text, rtp_depayloader_get_property (Some s') (Some name) max_len = Some text /\
               rtp_depayloader_set_property (Some s') (Some name) (Some text) = (ZST_OK, Some s').
Proof.
  intros Hok Hlen Hset. unfold rtp_depayloader_set_property, rtp_depayloader_get_property in *.
  destruct (Z.eqb_spec max_len 0); [lia|]. cbv zeta in *.
  destruct Hok as [Hpt Hrate Hch Hss Hssrc Hfilter Hseq Hau]. pose proof (atoi_range value).
  destruct (name_in name ["codec"; "media"; "encoding"]%string).
  { destruct (rtp_depayloader_parse_codec value) as [c|]; [|done]. ok_result Hset.
    eexists. split; [done|].
    cbn [dep_codec with_config dep_clock_rate rtp_depayloader_reset_au with_au].
    rewrite snprintf_all by (destruct c; simpl; lia). rewrite dep_parse_codec_to_string.
    destruct c; try done; cbn; unfold RTP_DEPAYLOADER_DEFAULT_RATE_VIDEO;
      destruct (Z.eqb_spec (dep_clock_rate s) 90000) as [|E]; try done; apply Z.eqb_neq in E; by rewrite E. }
  destruct (name_in name ["payload-type"; _; _; _]%string).
  { destruct (Z.ltb_spec (atoi value) 0), (Z.ltb_spec 127 (atoi value)); ok_result Hset.
    rewrite u8_small by lia. eexists. split; [done|]. cbn [dep_payload_type with_config].
    rewrite snprintf_show, atoi_show by cint.
    destruct (Z.ltb_spec (atoi value) 0), (Z.ltb_spec 127 (atoi value)); try lia. by rewrite u8_small by lia. }
  destruct (name_in name ["ssrc"; _; _]%string).
  { ok_result Hset. pose proof (u32_range (strtoul0 value)). eexists. split; [done|].
    cbn [dep_expected_ssrc with_config]. rewrite snprintf_show, strtoul0_show by cint.
    by rewrite (u32_small (u32 _)). }
  destruct (name_in name ["clock-rate"; _; _]%string).
  { destruct (Z.leb_spec (atoi value) 0); ok_result Hset. rewrite u32_small by lia.
    eexists. split; [done|]. cbn [dep_clock_rate with_config]. rewrite snprintf_show, atoi_show by cint.
    destruct (Z.leb_spec (atoi value) 0); [lia|]. by rewrite u32_small by lia. }
  destruct (name_in name ["channels"]%string).
  { destruct (Z.leb_spec (atoi value) 0); ok_result Hset. eexists. split; [done|].
    cbn [dep_channels with_config]. rewrite snprintf_show, atoi_show by cint.
    by destruct (Z.leb_spec (atoi value) 0); [lia|]. }
  destruct (name_in name ["sample-size"; _]%string); [|done].
  destruct (Z.leb_spec (atoi value) 0); ok_result Hset. eexists. split; [done|].
  cbn [dep_sample_size with_config]. rewrite snprintf_show, atoi_show by cint.
  by destruct (Z.leb_spec (atoi value) 0); [lia|].
Qed.

(** ** The theorems at concrete inputs *)

(** A marked packet of payload type 96, sequence number 7, timestamp 100, SSRC 9. *)
Definition sample_packet : bytes := [128; 224; 0; 7; 0; 0; 0; 100; 0; 0; 0; 9; 65; 1; 2].
Definition sample_packet_buffer : zst_buffer := buffer_of ZST_BUFFER_USER 0 0 0 0 sample_packet.
Definition sample_view (payload : bytes) : rtp_packet_view_t :=
  mk_view payload (zlen payload) 96 true 7 100 9.

Lemma sample_packet_parses : rtp_depayloader_parse_rtp sample_packet_buffer = Some (sample_view [65; 1; 2]).
Proof. reflexivity. Qed.

Lemma sample_packet_bytes : bytes_ok sample_packet.
Proof. repeat (constructor; [unfold is_byte; lia|]). constructor. Qed.

(** A depayloader that waits for sequence number [next]. *)
Definition waiting_depayloader (next : Z) : rtp_depayloader_t :=
  with_seq (new_depayloader RTP_DEPAYLOADER_CODEC_H264) true next.

Lemma parse_rtp_in_bounds_witness :
  exists v, rtp_depayloader_parse_rtp sample_packet_buffer = Some v /\
    exists hlen, 12 <= hlen /\ hlen + view_payload_len v = 15 /\
      view_payload v = sub_bytes hlen (view_payload_len v) sample_packet.
Proof.
  exists (sample_view [65; 1; 2]). split; [exact sample_packet_parses|].
  destruct (parse_rtp_in_bounds sample_packet_buffer sample_packet eq_refl) as [_ Hv];
    [vm_compute; split; discriminate|exact sample_packet_bytes|].
  destruct (Hv _ sample_packet_parses) as (hlen & H1 & H2 & H3 & _). exists hlen. auto.
Defined.

Lemma depayloader_reach_ok_witness :
  exists s', @reach _ (@dep_call ample_memory) zst_rtp_depayloader_create s' /\
    dep_next_seq s' = 8 /\ dep_ok s'.
Proof.
  assert (Hr : exists s', @reach _ (@dep_call ample_memory) zst_rtp_depayloader_create s' /\ dep_next_seq s' = 8).
  { eexists. split; [eapply reach_step; [apply reach_refl|]|].
    - eapply (dep_call_push _ (Some []) _ sample_packet_buffer). vm_compute. reflexivity.
    - reflexivity. }
  destruct Hr as (s' & Hr & Hn). exists s'. split; [exact Hr|]. split; [exact Hn|].
  exact (@depayloader_reach_ok ample_memory s' Hr).
Defined.

Lemma sequence_gap_witness :
  let push s := @rtp_depayloader_pad_push _ trace_sink ample_memory (Some s) (Some []) (Some sample_packet_buffer) in
  let s := waiting_depayloader 5 in
  push s = push (after_gap s) /\ au_active (dep_au (after_gap s)) = false /\
  st_dropped_packets (dep_stats_of (after_gap s)) = u64 (st_dropped_packets (dep_stats_of s) + 1).
Proof.
  apply (@sequence_gap _ _ ample_memory (waiting_depayloader 5) (Some []) sample_packet_buffer
           (sample_view [65; 1; 2])); [reflexivity|exact sample_packet_parses| |reflexivity|discriminate].
  split; [reflexivity|]. discriminate.
Defined.

Lemma pad_push_counts_witness :
  exists r s' d',
    @rtp_depayloader_pad_push _ trace_sink ample_memory (Some (waiting_depayloader 5)) (Some [])
      (Some sample_packet_buffer) = (r, Some s', d') /\
    st_in_packets (dep_stats_of s') = 1 /\ st_packets (dep_stats_of s') = 1 /\ st_bytes (dep_stats_of s') = 15.
Proof.
  assert (E : exists r s' d', @rtp_depayloader_pad_push _ trace_sink ample_memory (Some (waiting_depayloader 5))
      (Some []) (Some sample_packet_buffer) = (r, Some s', d')) by (vm_compute; eexists _, _, _; reflexivity).
  destruct E as (r & s' & d' & E). exists r, s', d'. split; [exact E|].
  destruct (@pad_push_counts _ _ ample_memory _ _ sample_packet_buffer _ _ _ eq_refl E) as (H1 & H2).
  rewrite sample_packet_parses in H2. destruct H2 as (H2 & _ & H3). auto.
Defined.

Lemma stap_a_unpacks_witness :
  let s := new_depayloader RTP_DEPAYLOADER_CODEC_H264 in
  let nals := [[103; 1]; [104]; [101; 2; 3]] in
  let v := sample_view (120 :: aggregate_body nals) in
  exists au, au_holds au (dep_clock_rate s) 100 (long_annexb nals) /\
    @rtp_depayloader_depay_h264 _ trace_sink ample_memory s (Some []) v =
    @finish_packet _ trace_sink ample_memory (with_au s au) (Some []) v.
Proof.
  apply (@stap_a_unpacks _ _ ample_memory ample_memory_ok
           (new_depayloader RTP_DEPAYLOADER_CODEC_H264) (Some [])
           (sample_view (120 :: aggregate_body [[103; 1]; [104]; [101; 2; 3]])) 120
           [[103; 1]; [104]; [101; 2; 3]] []); [reflexivity| |reflexivity|reflexivity| |].
  - repeat (constructor; [vm_compute; split; reflexivity|]). constructor.
  - left. split; reflexivity.
  - vm_compute. congruence.
Defined.

Lemma aac_roundtrip_witness :
  exists s' dep',
    @rtp_payloader_pad_push _ (@depayloader_sink _ trace_sink ample_memory) ample_memory 40
      (Some (small_payloader RTP_PAYLOADER_CODEC_AAC))
      (Some (new_depayloader RTP_DEPAYLOADER_CODEC_AAC, Some []))
      (Some (buffer_of ZST_BUFFER_AUDIO_PACKET 0 1000000000 1000000000 0 [33; 16; 4])) =
    Some (ZST_OK, Some s',
          Some (dep', Some ([] ++ [recovered_aac 90000 (rtp_payloader_pts_to_rtp_ts 1000000000 90000) [33; 16; 4]]))) /\
    linked dep' s'.
Proof.
  apply (@aac_roundtrip ample_memory ample_memory_ok 40 (small_payloader RTP_PAYLOADER_CODEC_AAC)
           (new_depayloader RTP_DEPAYLOADER_CODEC_AAC)); try reflexivity.
  - apply small_payloader_ok.
  - apply (new_depayloader_follows RTP_DEPAYLOADER_CODEC_AAC).
  - vm_compute. split; [reflexivity|discriminate].
  - vm_compute. discriminate.
Defined.
