(* ===== verification/Redundancy.v ===== *)
(** * ST 2022-7 redundancy: [src/st2110_redundancy_demux.c], [src/st2110_redundancy_mux.c]

    The multiplexer sends every packet down two links.  The demultiplexer merges
    the links: it forwards each RTP sequence number once, tolerating reordering up
    to 2048 packets behind the highest one seen, and it tracks which link is live. *)

From Stdlib Require Import String.
From S2P Require Import Prelude CLib Pad.

Local Open Scope Z_scope.

(** ** The demultiplexer *)

Inductive link := Primary | Backup.

#[export] Instance link_eq_dec : EqDecision link.
Proof. solve_decision. Defined.

(** What the element posts on its bus, when it has one. *)
Inductive redundancy_event := RecoveryEvent | FailoverEvent.

Record st2110_redundancy_demux_t := mk_demux {
  failover_detection_ms : Z;
  recovery_detection_ms : Z;
  initialized : bool;
  highest_seq : Z;
  seen_history : list bool;
  current_link : Z;  (* 0 for primary, 1 for backup *)
  last_primary_time : Z;
}.

Definition HISTORY : Z := 4096.

Definition seen_at (h : list bool) (seq : Z) : bool := default false (h !! Z.to_nat (seq mod HISTORY)).
Definition mark (h : list bool) (seq : Z) (b : bool) : list bool := <[Z.to_nat (seq mod HISTORY) := b]> h.

Definition no_history : list bool := replicate 4096 false.

(** [for (uint16_t i = highest_seq + 1; i != seq; i++) seen_history[i % 4096] = false],
    with a fuel that bounds the 16-bit counter. *)
Fixpoint clear_between (fuel : nat) (i seq : Z) (h : list bool) : list bool :=
  match fuel with
  | O => h
  | S fuel => if i =? seq then h else clear_between fuel (u16 (i + 1)) seq (mark h i false)
  end.

(** The sequence tracking of [push]: [None] for a packet to drop. *)
Definition demux_track (s : st2110_redundancy_demux_t) (seq : Z)
    : option st2110_redundancy_demux_t :=
  let upd init highest seen :=
    mk_demux (failover_detection_ms s) (recovery_detection_ms s) init highest seen
      (current_link s) (last_primary_time s) in
  if negb (initialized s) then Some (upd true seq (mark no_history seq true))
  else
    let diff := s16 (seq - highest_seq s) in
    if 0 <? diff then
      let seen :=
        if HISTORY <=? diff then no_history
        else clear_between (Z.to_nat diff) (u16 (highest_seq s + 1)) seq (seen_history s) in
      Some (upd true seq (mark seen seq true))
    else if -2048 <? diff then
      if seen_at (seen_history s) seq then None
      else Some (upd true (highest_seq s) (mark (seen_history s) seq true))
    else None.

(** The link supervision of [push], for a packet not dropped, at time [now]. *)
Definition demux_supervise (s : st2110_redundancy_demux_t) (pad : link) (now : Z)
    : st2110_redundancy_demux_t * list redundancy_event :=
  let upd cur last :=
    mk_demux (failover_detection_ms s) (recovery_detection_ms s) (initialized s) (highest_seq s)
      (seen_history s) cur last in
  match pad with
  | Primary =>
      if negb (current_link s =? 0) then (upd 0 now, [RecoveryEvent]) else (upd (current_link s) now, [])
  | Backup =>
      if (current_link s =? 0) && (u64 (last_primary_time s + failover_detection_ms s) <? now)
      then (upd 1 (last_primary_time s), [FailoverEvent])
      else (s, [])
  end.

Section demux.
Context {D : Type} `{PadSink D}.
Implicit Type d : option D.

(** [bus] is the element's bus, [None] when it has none; [now] is [get_time_ms ()].
    The result of the downstream push is not looked at. *)
Definition st2110_redundancy_demux_push (s : option st2110_redundancy_demux_t) (pad : link) d
    (bus : option (list redundancy_event)) (buf : option zst_buffer) (now : Z)
    : zst_result_t * option st2110_redundancy_demux_t * option D * option (list redundancy_event) :=
  match s, buf with
  | Some s, Some buf =>
      if mem_size buf <? 12 then
        if has_flag (buf_flags buf) ZST_BUFFER_FLAG_EOS
        then (ZST_OK, Some s, (push_peer d buf).2, bus) else (ZST_OK, Some s, d, bus)
      else
        let data := default [] (mem_data buf) in
        let seq := u16 (Z.lor (Z.shiftl (rd data 2) 8) (rd data 3)) in
        match demux_track s seq with
        | None => (ZST_OK, Some s, d, bus)
        | Some s =>
            let '(s, evs) := demux_supervise s pad now in
            (ZST_OK, Some s, (push_peer d buf).2, (fun b => b ++ evs) <$> bus)
        end
  | s, _ => (ZST_ERROR, s, d, bus)
  end.

End demux.

Definition st2110_redundancy_demux_open (s : option st2110_redundancy_demux_t) (now : Z)
    : zst_result_t * option st2110_redundancy_demux_t :=
  match s with
  | None => (ZST_ERROR, None)
  | Some s =>
      (ZST_OK, Some (mk_demux (failover_detection_ms s) (recovery_detection_ms s) false 0 no_history 0 now))
  end.

(** [close] frees the private state. *)
Definition st2110_redundancy_demux_close (s : option st2110_redundancy_demux_t)
    : zst_result_t * option st2110_redundancy_demux_t := (ZST_OK, None).

Definition st2110_redundancy_demux_set_property (s : option st2110_redundancy_demux_t)
    (name value : option string) : zst_result_t * option st2110_redundancy_demux_t :=
  match s, name, value with
  | Some s, Some name, Some value =>
      let upd f r :=
        (ZST_OK, Some (mk_demux f r (initialized s) (highest_seq s) (seen_history s) (current_link s)
                         (last_primary_time s))) in
      if streq name "failover-detection-ms" then upd (atoi value) (recovery_detection_ms s)
      else if streq name "recovery-detection-ms" then upd (failover_detection_ms s) (atoi value)
      else (ZST_ERROR, Some s)
  | s, _, _ => (ZST_ERROR, s)
  end.

Definition st2110_redundancy_demux_get_property (s : option st2110_redundancy_demux_t)
    (name : option string) (max_len : Z) : option string :=
  match s, name with
  | Some s, Some name =>
      if max_len =? 0 then None
      else if streq name "failover-detection-ms" then Some (snprintf max_len (show_Z (failover_detection_ms s)))
      else if streq name "recovery-detection-ms" then Some (snprintf max_len (show_Z (recovery_detection_ms s)))
      else None
  | _, _ => None
  end.

(** The private state of a new element ([calloc] clears the rest). *)
Definition zst_st2110_redundancy_demux_create : st2110_redundancy_demux_t :=
  mk_demux 500 2000 false 0 no_history 0 0.

(** ** The multiplexer *)

Record st2110_redundancy_mux_t := mk_mux {
  fec_enabled : bool;
  primary_addr : string;
  backup_addr : string;
  primary_port : Z;
  backup_port : Z;
}.

(** The results of the two pushes are not looked at. *)
Definition st2110_redundancy_mux_pad_push {D1 D2} `{PadSink D1} `{PadSink D2}
    (s : option st2110_redundancy_mux_t) (primary : option D1) (backup : option D2)
    (buf : option zst_buffer) : zst_result_t * option D1 * option D2 :=
  match s, buf with
  | Some s, Some buf => (ZST_OK, (push_peer primary buf).2, (push_peer backup buf).2)
  | _, _ => (ZST_ERROR, primary, backup)
  end.

Definition st2110_redundancy_mux_open (s : option st2110_redundancy_mux_t)
    : zst_result_t * option st2110_redundancy_mux_t := (ZST_OK, s).

(** [close] frees the private state. *)
Definition st2110_redundancy_mux_close (s : option st2110_redundancy_mux_t)
    : zst_result_t * option st2110_redundancy_mux_t := (ZST_OK, None).

Definition ADDR_SIZE : Z := 64.

Definition st2110_redundancy_mux_set_property (s : option st2110_redundancy_mux_t)
    (name value : option string) : zst_result_t * option st2110_redundancy_mux_t :=
  match s, name, value with
  | Some s, Some name, Some value =>
      let ok fec pa ba pp bp := (ZST_OK, Some (mk_mux fec pa ba pp bp)) in
      if streq name "fec-enabled" then
        ok (streq value "true" || streq value "1") (primary_addr s) (backup_addr s) (primary_port s)
          (backup_port s)
      else if streq name "primary-addr" then
        ok (fec_enabled s) (strncpy_n ADDR_SIZE value) (backup_addr s) (primary_port s) (backup_port s)
      else if streq name "backup-addr" then
        ok (fec_enabled s) (primary_addr s) (strncpy_n ADDR_SIZE value) (primary_port s) (backup_port s)
      else if streq name "primary-port" then
        ok (fec_enabled s) (primary_addr s) (backup_addr s) (atoi value) (backup_port s)
      else if streq name "backup-port" then
        ok (fec_enabled s) (primary_addr s) (backup_addr s) (primary_port s) (atoi value)
      else (ZST_ERROR, Some s)
  | s, _, _ => (ZST_ERROR, s)
  end.

Definition st2110_redundancy_mux_get_property (s : option st2110_redundancy_mux_t)
    (name : option string) (max_len : Z) : option string :=
  match s, name with
  | Some s, Some name =>
      if max_len =? 0 then None
      else
        let out text := Some (snprintf max_len text) in
        if streq name "fec-enabled" then out (if fec_enabled s then "true" else "false")%string
        else if streq name "primary-addr" then out (primary_addr s)
        else if streq name "backup-addr" then out (backup_addr s)
        else if streq name "primary-port" then out (show_Z (primary_port s))
        else if streq name "backup-port" then out (show_Z (backup_port s))
        else None
  | _, _ => None
  end.

Definition zst_st2110_redundancy_mux_create : st2110_redundancy_mux_t :=
  mk_mux false "239.255.10.0" "239.255.11.0" 5004 5004.
