(* ===== verification/RedundancySpec.v ===== *)
(** * What the redundancy demultiplexer promises

    On extended sequence numbers, unbounded integers of which the packets carry the
    low 16 bits, the demultiplexer is a set: it forwards a number that is above the
    highest one, or within 2048 below it and not seen.  The 16-bit comparison and
    the ring of 4096 flags implement that set. *)

From Stdlib Require Import String.
From S2P Require Import Prelude CLib Pad Redundancy.

Local Open Scope Z_scope.

(** ** The specification *)

Record tracker := mk_tracker { top : Z; seen : gset Z }.

Definition spec_track (t : option tracker) (n : Z) : bool * option tracker :=
  match t with
  | None => (true, Some (mk_tracker n {[n]}))
  | Some (mk_tracker h sn) =>
      if h <? n then (true, Some (mk_tracker n ({[n]} ∪ sn)))
      else if (h - 2048 <? n) && negb (bool_decide (n ∈ sn)) then (true, Some (mk_tracker h ({[n]} ∪ sn)))
      else (false, t)
  end.

(** ** The ring of flags *)

Lemma seen_at_cong h x y : x mod 4096 = y mod 4096 -> seen_at h x = seen_at h y.
Proof. unfold seen_at, HISTORY. by intros ->. Qed.

Lemma u16_mod4096 x : u16 x mod 4096 = x mod 4096.
Proof. cint. Qed.

Lemma mod4096_ne x n : n - 4096 < x < n + 4096 -> x <> n -> n mod 4096 <> x mod 4096.
Proof. intros. Z.to_euclidean_division_equations. lia. Qed.

Lemma seen_at_u16 h x : seen_at h (u16 x) = seen_at h x.
Proof. apply seen_at_cong. cint. Qed.

Lemma seen_at_mark h i b x :
  length h = 4096%nat -> seen_at (mark h i b) x = if i mod 4096 =? x mod 4096 then b else seen_at h x.
Proof.
  intros Hl. unfold seen_at, mark, HISTORY.
  pose proof (Z.mod_pos_bound i 4096 ltac:(lia)). pose proof (Z.mod_pos_bound x 4096 ltac:(lia)).
  destruct (Z.eqb_spec (i mod 4096) (x mod 4096)) as [->|Hne].
  - by rewrite list_lookup_insert_eq by lia.
  - by rewrite list_lookup_insert_ne by lia.
Qed.

Lemma mark_length h i b : length (mark h i b) = length h.
Proof. apply length_insert. Qed.

Lemma clear_between_length fuel i s h : length (clear_between fuel i s h) = length h.
Proof.
  revert i h. induction fuel as [|fuel IH]; intros i h; cbn [clear_between]; [done|].
  destruct (i =? s); [done|]. by rewrite IH, mark_length.
Qed.

(** Clearing [k] flags from [i] on. *)
Lemma clear_between_spec k fuel i h x :
  (k <= fuel)%nat -> Z.of_nat k < 4096 -> length h = 4096%nat ->
  seen_at (clear_between fuel (u16 i) (u16 (i + Z.of_nat k)) h) x =
  if (x - i) mod 4096 <? Z.of_nat k then false else seen_at h x.
Proof.
  revert fuel i h. induction k as [|k IH]; intros fuel i h Hf Hk Hl.
  - rewrite Z.add_0_r. pose proof (Z.mod_pos_bound (x - i) 4096 ltac:(lia)).
    destruct (Z.ltb_spec ((x - i) mod 4096) (Z.of_nat 0)); [lia|].
    destruct fuel; cbn [clear_between]; [done|]. by rewrite Z.eqb_refl.
  - destruct fuel as [|fuel]; [lia|]. cbn [clear_between].
    destruct (Z.eqb_spec (u16 i) (u16 (i + Z.of_nat (S k)))) as [E|_]; [exfalso; cint|].
    rewrite u16_succ. replace (i + Z.of_nat (S k)) with ((i + 1) + Z.of_nat k) by lia.
    rewrite IH; [|lia|lia|by rewrite mark_length]. rewrite seen_at_mark, u16_mod4096 by done.
    destruct (Z.ltb_spec ((x - (i + 1)) mod 4096) (Z.of_nat k)),
      (Z.ltb_spec ((x - i) mod 4096) (Z.of_nat (S k))),
      (Z.eqb_spec (i mod 4096) (x mod 4096)); try done; exfalso;
      Z.to_euclidean_division_equations; lia.
Qed.

(** ** Refinement *)

(** The code's state represents the tracker: flags are exact inside the window. *)
Definition represents (s : st2110_redundancy_demux_t) (t : option tracker) : Prop :=
  match t with
  | None => initialized s = false
  | Some (mk_tracker h sn) =>
      initialized s = true /\ highest_seq s = u16 h /\ length (seen_history s) = 4096%nat /\
      (forall x, h - 2048 < x <= h -> seen_at (seen_history s) x = bool_decide (x ∈ sn)) /\
      (forall x, x ∈ sn -> x <= h)
  end.

(** Sequence numbers close enough for the 16-bit comparison. *)
Definition near (t : option tracker) (n : Z) : Prop :=
  match t with None => True | Some t => - 32768 <= n - top t < 32768 end.

Lemma decide_union_ne x n (sn : gset Z) : x <> n -> bool_decide (x ∈ {[n]} ∪ sn) = bool_decide (x ∈ sn).
Proof. intros. apply bool_decide_ext. rewrite elem_of_union, elem_of_singleton. split; [by intros [?|?]|by right]. Qed.

Lemma decide_union_eq n (sn : gset Z) : bool_decide (n ∈ {[n]} ∪ sn) = true.
Proof. apply bool_decide_eq_true, elem_of_union_l, elem_of_singleton_2. done. Qed.

Lemma seen_at_no_history x : seen_at no_history x = false.
Proof.
  unfold seen_at, no_history. destruct (replicate 4096 false !! _) eqn:E; [|done].
  by apply lookup_replicate in E as [-> _].
Qed.

(** The code's tracking refines the specification, step by step: for every packet
    whose number is within half the 16-bit range of the highest one, it drops and
    forwards what the set says. *)
Lemma track_refines s t n :
  represents s t -> near t n ->
  match demux_track s (u16 n) with
  | None => spec_track t n = (false, t)
  | Some s' => exists t', spec_track t n = (true, t') /\ represents s' t'
  end.
Proof.
  intros Hr Hn. unfold demux_track, spec_track. destruct t as [[h sn]|]; cbn in Hr, Hn.
  2:{ rewrite Hr. cbn [negb]. eexists. split; [done|].
      cbn [represents initialized highest_seq seen_history].
      split; [done|]. split; [done|]. split; [rewrite mark_length; apply length_replicate|].
      split; [|intros x ->%elem_of_singleton; lia].
      intros x Hx. rewrite seen_at_mark by apply length_replicate. rewrite seen_at_no_history.
      rewrite u16_mod4096.
      destruct (Z.eqb_spec (n mod 4096) (x mod 4096)).
      - symmetry. apply bool_decide_eq_true, elem_of_singleton.
        destruct (Z.eqb_spec x n); [done|]. by destruct (mod4096_ne x n); [lia|done|].
      - symmetry. apply bool_decide_eq_false. rewrite elem_of_singleton. by intros ->. }
  destruct Hr as (-> & Hh & Hl & Hw & Hle). cbn [negb]. rewrite Hh, s16_sub_u16 by lia.
  destruct (Z.ltb_spec 0 (n - h)), (Z.ltb_spec h n); try lia.
  - (* a new highest number *)
    eexists. split; [done|]. cbn [represents initialized highest_seq seen_history].
    set (cl := if HISTORY <=? n - h then no_history else _).
    assert (Hcl : length cl = 4096%nat /\
      forall x, n - 2048 < x < n -> seen_at cl x = bool_decide (x ∈ sn)).
    { unfold cl, HISTORY. destruct (Z.leb_spec 4096 (n - h)).
      - split; [apply length_replicate|]. intros x Hx. rewrite seen_at_no_history. symmetry. apply bool_decide_eq_false.
        intros ?%Hle. lia.
      - split; [by rewrite clear_between_length|]. intros x Hx. rewrite u16_succ.
        replace n with ((h + 1) + Z.of_nat (Z.to_nat (n - h - 1))) at 1 2 by lia.
        rewrite clear_between_spec by lia. rewrite Z2Nat.id by lia.
        destruct (Z.ltb_spec ((x - (h + 1)) mod 4096) (n - h - 1)).
        + symmetry. apply bool_decide_eq_false. intros ?%Hle. cint.
        + apply Hw. cint. }
    destruct Hcl as [Hcl1 Hcl2]. clearbody cl. split; [done|]. split; [done|]. split_and!.
    + by rewrite mark_length.
    + intros x Hx. rewrite seen_at_mark by done. destruct (Z.eqb_spec x n) as [->|Hne].
      * rewrite u16_mod4096, Z.eqb_refl. by rewrite decide_union_eq.
      * rewrite u16_mod4096, (proj2 (Z.eqb_neq _ _)) by (apply mod4096_ne; [lia|done]). rewrite decide_union_ne by done. apply Hcl2. lia.
    + intros x [->%elem_of_singleton|?%Hle]%elem_of_union; lia.
  - destruct (Z.ltb_spec (-2048) (n - h)), (Z.ltb_spec (h - 2048) n); try lia; cbn [andb]; [|done].
    rewrite seen_at_u16, Hw by lia. destruct (bool_decide (n ∈ sn)); cbn [negb]; [done|].
    eexists. split; [done|]. cbn [represents initialized highest_seq seen_history].
    split; [done|]. split; [done|]. split_and!.
    + by rewrite mark_length.
    + intros x Hx. rewrite seen_at_mark by done. destruct (Z.eqb_spec x n) as [->|Hne].
      * rewrite u16_mod4096, Z.eqb_refl. by rewrite decide_union_eq.
      * rewrite u16_mod4096, (proj2 (Z.eqb_neq _ _)) by (apply mod4096_ne; [lia|done]). rewrite decide_union_ne by done. by apply Hw.
    + intros x [->%elem_of_singleton|?%Hle]%elem_of_union; lia.
Qed.

(** ** Runs *)

(** A packet arriving on a link: its extended number, the packet, the clock. *)
Record arrival := mk_arrival { ar_link : link; ar_num : Z; ar_buf : zst_buffer; ar_now : Z }.

(** The packet carries the low 16 bits of the number. *)
Definition carries (a : arrival) : Prop :=
  12 <= mem_size (ar_buf a) /\
  exists data, mem_data (ar_buf a) = Some data /\ bytes_ok data /\ be16 (rd data 2) (rd data 3) = u16 (ar_num a).

Fixpoint demux_run {D} `{PadSink D} (s : st2110_redundancy_demux_t) (d : option D)
    (bus : option (list redundancy_event)) (l : list arrival)
    : option st2110_redundancy_demux_t * option D * option (list redundancy_event) :=
  match l with
  | [] => (Some s, d, bus)
  | a :: l =>
      match st2110_redundancy_demux_push (Some s) (ar_link a) d bus (Some (ar_buf a)) (ar_now a) with
      | (_, Some s, d, bus) => demux_run s d bus l
      | (_, None, d, bus) => (None, d, bus)
      end
  end.

(** The arrivals the specification forwards. *)
Fixpoint spec_run (t : option tracker) (l : list arrival) : list arrival :=
  match l with
  | [] => []
  | a :: l =>
      let '(fwd, t) := spec_track t (ar_num a) in
      if fwd then a :: spec_run t l else spec_run t l
  end.

Fixpoint all_near (t : option tracker) (l : list arrival) : Prop :=
  match l with
  | [] => True
  | a :: l => near t (ar_num a) /\ all_near (spec_track t (ar_num a)).2 l
  end.

Lemma push_seq a data :
  mem_data (ar_buf a) = Some data -> bytes_ok data -> be16 (rd data 2) (rd data 3) = u16 (ar_num a) ->
  u16 (Z.lor (Z.shiftl (rd (default [] (mem_data (ar_buf a))) 2) 8)
             (rd (default [] (mem_data (ar_buf a))) 3)) = u16 (ar_num a).
Proof.
  intros -> Hb E. change (u16 (be16 (rd data 2) (rd data 3)) = u16 (ar_num a)). rewrite E. apply u16_small, u16_range.
Qed.

Lemma supervise_tracks s pad now t :
  represents s t -> represents (demux_supervise s pad now).1 t.
Proof.
  unfold demux_supervise. intros Hr. destruct pad; [destruct (negb _)|destruct (_ && _)]; apply Hr.
Qed.

Lemma demux_run_spec {D} `{PadSink D} (d : option D) s bus t l :
  represents s t -> all_near t l -> Forall carries l ->
  exists s' bus', demux_run s d bus l =
    (Some s', foldl (fun d a => (push_peer d (ar_buf a)).2) d (spec_run t l), bus').
Proof.
  revert s d bus t. induction l as [|a l IH]; intros s d bus t Hr Hnear Hc.
  { by exists s, bus. }
  apply Forall_cons in Hc as [(Hsz & data & Hd & Hb & Hseq) Hc]. destruct Hnear as [Hn Hnear].
  cbn [demux_run spec_run]. unfold st2110_redundancy_demux_push.
  destruct (Z.ltb_spec (mem_size (ar_buf a)) 12); [lia|]. cbv zeta. rewrite (push_seq a data) by done.
  pose proof (track_refines s t (ar_num a) Hr Hn) as Ht.
  destruct (demux_track s (u16 (ar_num a))) as [s1|].
  - destruct Ht as (t' & Ht & Hr'). rewrite Ht in *. cbn [snd] in Hnear.
    pose proof (supervise_tracks s1 (ar_link a) (ar_now a) t' Hr') as Hr2.
    destruct (demux_supervise s1 (ar_link a) (ar_now a)) as [s2 evs]. cbn [foldl]. by apply IH.
  - rewrite Ht in *. cbn [snd] in Hnear. by apply IH.
Qed.

(** ** Deduplication *)

(** The arrivals whose number did not arrive before. *)
Fixpoint firsts (old : gset Z) (l : list arrival) : list arrival :=
  match l with
  | [] => []
  | a :: l => if bool_decide (ar_num a ∈ old) then firsts old l
              else a :: firsts ({[ar_num a]} ∪ old) l
  end.

(** No arrival is 2048 or more behind the highest one, or jumps half the range ahead. *)
Fixpoint in_window (h : option Z) (l : list arrival) : Prop :=
  match l with
  | [] => True
  | a :: l =>
      match h with
      | None => in_window (Some (ar_num a)) l
      | Some h => h - 2048 < ar_num a < h + 32768 /\ in_window (Some (Z.max h (ar_num a))) l
      end
  end.

Lemma spec_run_firsts l h sn :
  in_window (Some h) l -> (forall x, x ∈ sn -> x <= h) ->
  spec_run (Some (mk_tracker h sn)) l = firsts sn l /\ all_near (Some (mk_tracker h sn)) l.
Proof.
  revert h sn. induction l as [|a l IH]; intros h sn Hw Hle; [done|].
  destruct Hw as [Ha Hw]. cbn [spec_run firsts all_near near top]. unfold spec_track.
  destruct (Z.ltb_spec h (ar_num a)) as [Hlt|Hge].
  - rewrite Z.max_r in Hw by lia. rewrite (bool_decide_eq_false_2 (ar_num a ∈ sn)) by (intros ?%Hle; lia).
    cbn [snd]. destruct (IH (ar_num a) ({[ar_num a]} ∪ sn) Hw) as [-> Hn].
    { intros x [->%elem_of_singleton|?%Hle]%elem_of_union; lia. }
    split; [done|]. split; [lia|done].
  - rewrite Z.max_l in Hw by lia. destruct (Z.ltb_spec (h - 2048) (ar_num a)); [|lia]. cbn [andb].
    destruct (bool_decide (ar_num a ∈ sn)); cbn [negb snd].
    + destruct (IH h sn Hw Hle) as [-> Hn]. split; [done|]. split; [lia|done].
    + destruct (IH h ({[ar_num a]} ∪ sn) Hw) as [-> Hn].
      { intros x [->%elem_of_singleton|?%Hle]%elem_of_union; lia. }
      split; [done|]. split; [lia|done].
Qed.

Lemma firsts_spec l old :
  NoDup (map ar_num (firsts old l)) /\
  (forall n, n ∈ map ar_num (firsts old l) <-> n ∉ old /\ n ∈ map ar_num l).
Proof.
  revert old. induction l as [|a l IH]; intros old; cbn [firsts map].
  { split; [constructor|]. set_solver. }
  destruct (bool_decide_reflect (ar_num a ∈ old)) as [Hin|Hout].
  - destruct (IH old) as [Hd Hm]. split; [done|]. intros n. rewrite Hm, elem_of_cons.
    split; [tauto|]. intros [? [->|?]]; tauto.
  - destruct (IH ({[ar_num a]} ∪ old)) as [Hd Hm]. cbn [map]. split.
    + constructor; [|done]. rewrite Hm. set_solver.
    + intros n. rewrite !elem_of_cons, Hm, not_elem_of_union, not_elem_of_singleton.
      destruct (decide (n = ar_num a)) as [->|]; tauto.
Qed.

Lemma foldl_trace (l : list arrival) (d : trace) :
  foldl (fun d a => (push_peer d (ar_buf a)).2) (Some d) l = Some (d ++ map ar_buf l).
Proof.
  revert d. induction l as [|a l IH]; intros d; cbn [foldl map]; [by rewrite app_nil_r|].
  change ((push_peer (Some d) (ar_buf a)).2) with (Some (d ++ [ar_buf a])). by rewrite IH, <-app_assoc.
Qed.

(** C4. Whatever the links lose, duplicate and reorder within the window, the
    demultiplexer's output is the packets that arrived on at least one link, each
    number exactly once, at its first arrival. *)
Theorem demux_merges s (d : trace) bus l :
  initialized s = false -> in_window None l -> Forall carries l ->
  exists s' bus',
    demux_run s (Some d) bus l = (Some s', Some (d ++ map ar_buf (firsts ∅ l)), bus') /\
    NoDup (map ar_num (firsts ∅ l)) /\
    (forall n, n ∈ map ar_num (firsts ∅ l) <-> n ∈ map ar_num l).
Proof.
  intros Hinit Hw Hc.
  assert (Hspec : spec_run None l = firsts ∅ l /\ all_near None l).
  { destruct l as [|a l]; [done|]. cbn [spec_run firsts all_near near spec_track snd in_window] in *.
    rewrite bool_decide_eq_false_2 by set_solver. rewrite union_empty_r_L.
    destruct (spec_run_firsts l (ar_num a) {[ar_num a]} Hw) as [-> ?]; [|done].
    intros x ->%elem_of_singleton. lia. }
  destruct Hspec as [Hspec Hnear].
  destruct (demux_run_spec (Some d) s bus None l) as (s' & bus' & E); [done|done|done|].
  exists s', bus'. rewrite E, Hspec, foldl_trace. split; [done|].
  destruct (firsts_spec l ∅) as [? Hm]. split; [done|]. intros n. rewrite Hm.
  split; [by intros []|]. intros; split; [apply not_elem_of_empty|done].
Qed.

(** ** Link supervision *)

(** Events in turn: a failover first, then a recovery, and so on. *)
Fixpoint alternate (e : redundancy_event) (l : list redundancy_event) : bool :=
  match l, e with
  | [], _ => true
  | FailoverEvent :: l, FailoverEvent => alternate RecoveryEvent l
  | RecoveryEvent :: l, RecoveryEvent => alternate FailoverEvent l
  | _, _ => false
  end.

(** The link a sequence of events leaves current, from the primary. *)
Definition link_after (l : list redundancy_event) : Z :=
  match last l with Some FailoverEvent => 1 | _ => 0 end.

Lemma alternate_cons x l f :
  alternate f (x :: l) =
  match x, f with
  | FailoverEvent, FailoverEvent => alternate RecoveryEvent l
  | RecoveryEvent, RecoveryEvent => alternate FailoverEvent l
  | _, _ => false
  end.
Proof. by destruct x, f. Qed.

Lemma alternate_snoc l e f :
  alternate f l = true ->
  alternate f (l ++ [e]) =
  match last l, e with
  | Some FailoverEvent, RecoveryEvent | Some RecoveryEvent, FailoverEvent => true
  | None, _ => alternate f [e]
  | _, _ => false
  end.
Proof.
  revert f. induction l as [|x l IH]; intros f Hl; [done|].
  destruct l as [|y l]; [by destruct x, f, e|]. rewrite last_cons_cons.
  rewrite <-app_comm_cons, alternate_cons. rewrite alternate_cons in Hl.
  destruct x, f; try done; rewrite IH by done;
    destruct (last (y :: l)) as [[]|] eqn:L; try done; by apply last_None in L.
Qed.

Definition bus_ok (s : st2110_redundancy_demux_t) (bus : list redundancy_event) : Prop :=
  alternate FailoverEvent bus = true /\ current_link s = link_after bus.

Lemma track_link s seq s' :
  demux_track s seq = Some s' -> current_link s' = current_link s /\
    last_primary_time s' = last_primary_time s /\ failover_detection_ms s' = failover_detection_ms s.
Proof. unfold demux_track. cbv zeta. repeat case_match; intros; by simplify_eq. Qed.

Lemma supervise_bus s pad now bus :
  bus_ok s bus -> let '(s', evs) := demux_supervise s pad now in bus_ok s' (bus ++ evs).
Proof.
  unfold bus_ok, demux_supervise. intros [Ha Hl].
  assert (Hlast : forall e, link_after (bus ++ [e]) = match e with FailoverEvent => 1 | _ => 0 end)
    by (intros e; unfold link_after; by rewrite last_snoc).
  destruct pad.
  - destruct (Z.eqb_spec (current_link s) 0) as [E|E]; cbn [negb].
    + by rewrite app_nil_r.
    + rewrite alternate_snoc, Hlast by done. split; [|done].
      unfold link_after in Hl. by destruct (last bus) as [[]|].
  - destruct (Z.eqb_spec (current_link s) 0) as [E|E]; cbn [andb]; [|by rewrite app_nil_r].
    destruct (_ <? now); [|by rewrite app_nil_r]. rewrite alternate_snoc, Hlast by done. split; [|done].
    unfold link_after in Hl. rewrite E in Hl. by destruct (last bus) as [[]|].
Qed.

(** From opening on, whatever arrives, the events posted are failovers and recoveries in
    turn, beginning with a failover, and [current_link] is the one the last of them
    announced. *)
Theorem events_alternate {D} `{PadSink D} s0 now s (d : option D) l s' d' bus' :
  st2110_redundancy_demux_open (Some s0) now = (ZST_OK, Some s) ->
  demux_run s d (Some []) l = (Some s', d', Some bus') ->
  alternate FailoverEvent bus' = true /\ current_link s' = link_after bus'.
Proof.
  intros Hopen. unfold st2110_redundancy_demux_open in Hopen. ok_result Hopen.
  assert (Hb : bus_ok (mk_demux (failover_detection_ms s0) (recovery_detection_ms s0) false 0 no_history 0 now) [])
    by done.
  revert Hb. generalize (@nil redundancy_event) as bus.
  generalize (mk_demux (failover_detection_ms s0) (recovery_detection_ms s0) false 0 no_history 0 now) as s.
  revert d. induction l as [|a l IH]; intros d s bus Hb E; cbn [demux_run] in E.
  { injection E as <- _ <-. apply Hb. }
  unfold st2110_redundancy_demux_push in E.
  destruct (mem_size (ar_buf a) <? 12).
  { destruct (has_flag _ _); by apply IH in E. }
  cbv zeta in E. destruct (demux_track s _) as [s1|] eqn:T; [|by apply IH in E].
  assert (Hb1 : bus_ok s1 bus).
  { apply track_link in T as [Hl _]. unfold bus_ok. rewrite Hl. apply Hb. }
  pose proof (supervise_bus s1 (ar_link a) (ar_now a) bus Hb1) as Hs.
  destruct (demux_supervise s1 (ar_link a) (ar_now a)) as [s2 evs]. by eapply IH.
Qed.

(** A primary link that delivers everything, each packet just after the backup. *)
Fixpoint lockstep (n : Z) (l : list (Z * Z * zst_buffer)) : list arrival :=
  match l with
  | [] => []
  | (t, t', b) :: l => mk_arrival Backup n b t :: mk_arrival Primary n b t' :: lockstep (n + 1) l
  end.

Definition next_num (t : option tracker) (n : Z) : Prop :=
  match t with None => True | Some t => top t = n - 1 end.

(** A round: the backup's packet is new, the primary's copy is dropped before the link
    supervision and refreshes nothing. *)
Lemma lockstep_round {D} `{PadSink D} s (d : option D) bus t n b now now' l :
  represents s t -> next_num t n -> carries (mk_arrival Backup n b now) ->
  exists s1 d1 bus1 t1,
    demux_run s d bus (mk_arrival Backup n b now :: mk_arrival Primary n b now' :: l) =
      demux_run s1 d1 bus1 l /\
    represents s1 (Some t1) /\ next_num (Some t1) (n + 1) /\
    last_primary_time s1 = last_primary_time s /\
    failover_detection_ms s1 = failover_detection_ms s /\
    current_link s1 =
      (if (current_link s =? 0) && (u64 (last_primary_time s + failover_detection_ms s) <? now)
       then 1 else current_link s).
Proof.
  intros Hr Hn (Hsz & data & Hd & Hb & Hseq).
  pose proof (push_seq (mk_arrival Backup n b now) data Hd Hb Hseq) as Hrd. cbn [ar_buf ar_num] in *.
  cbn [demux_run ar_buf ar_link ar_now]. unfold st2110_redundancy_demux_push at 1.
  destruct (Z.ltb_spec (mem_size b) 12); [lia|]. cbv zeta.
  rewrite Hrd.
  assert (Hnear : near t n) by (destruct t; cbn in *; [lia|done]).
  pose proof (track_refines s t n Hr Hnear) as Ht.
  assert (Hfwd : exists t1, spec_track t n = (true, Some t1) /\ top t1 = n /\ n ∈ seen t1).
  { unfold spec_track. destruct t as [[h sn]|]; cbn [next_num top] in Hn.
    - destruct (Z.ltb_spec h n); [|lia]. eexists. split; [done|]. split; [done|]. cbn.
      by apply elem_of_union_l, elem_of_singleton_2.
    - exists (mk_tracker n {[n]}). split; [done|]. split; [done|]. cbn. by apply elem_of_singleton_2. }
  destruct Hfwd as (t1 & Hspec & Htop & Hin). rewrite Hspec in Ht.
  destruct (demux_track s (u16 n)) as [s1|] eqn:T; [|done]. destruct Ht as (t' & [= <-] & Hr1).
  apply track_link in T as (Hl1 & Hp1 & Hf1).
  pose proof (supervise_tracks s1 Backup now _ Hr1) as Hr2.
  destruct (demux_supervise s1 Backup now) as [s2 evs] eqn:V. cbn [fst] in Hr2.
  unfold st2110_redundancy_demux_push. destruct (Z.ltb_spec (mem_size b) 12); [lia|]. cbv zeta.
  rewrite Hrd.
  pose proof (track_refines s2 (Some t1) n Hr2 ltac:(cbn; lia)) as Ht2.
  assert (Hdup : spec_track (Some t1) n = (false, Some t1)).
  { destruct t1 as [h sn]. cbn in Htop, Hin |- *. subst h. destruct (Z.ltb_spec n n); [lia|].
    rewrite bool_decide_eq_true_2 by done. by rewrite andb_false_r. }
  rewrite Hdup in Ht2. destruct (demux_track s2 (u16 n)); [by destruct Ht2 as (? & ? & ?)|].
  eexists s2, _, _, t1. split; [done|]. split; [done|]. split; [cbn; lia|].
  unfold demux_supervise in V. rewrite Hl1, Hp1, Hf1 in V.
  destruct ((current_link s =? 0) && (u64 (last_primary_time s + failover_detection_ms s) <? now));
    injection V as <- <-; by rewrite ?Hl1, ?Hp1, ?Hf1.
Qed.

Lemma lockstep_run {D} `{PadSink D} s (d : option D) bus t n l limit :
  represents s t -> next_num t n -> Forall carries (lockstep n l) ->
  u64 (last_primary_time s + failover_detection_ms s) = limit ->
  current_link s = 1 \/ (current_link s = 0 /\ Exists (fun x => limit < x.1.1) l) ->
  exists s' d' bus', demux_run s d bus (lockstep n l) = (Some s', d', bus') /\ current_link s' = 1.
Proof.
  revert s d bus t n. induction l as [|[[now now'] b] l IH]; intros s d bus t n Hr Hn Hc Hlim Hl.
  { destruct Hl as [Hl|[_ Hl]]; [|by apply Exists_nil in Hl]. by exists s, d, bus. }
  cbn [lockstep] in *. apply Forall_cons in Hc as [Hc1 [Hc2 Hc]%Forall_cons].
  destruct (lockstep_round s d bus t n b now now' (lockstep (n + 1) l) Hr Hn Hc1)
    as (s1 & d1 & bus1 & t1 & -> & Hr1 & Hn1 & Hp & Hf & Hcur).
  apply (IH s1 d1 bus1 (Some t1)); try done; [by rewrite Hp, Hf|].
  rewrite Hcur, Hlim. destruct Hl as [->|[-> Hl]]; [by left|].
  change (0 =? 0) with true. cbn [andb]. apply Exists_cons in Hl as [Hl|Hl]; cbn in *.
  - destruct (Z.ltb_spec limit now); [by left|lia].
  - destruct (limit <? now); [by left|by right].
Qed.

(** The element declares a failed primary that in fact delivers every packet, a little
    after the backup does: a repeated packet is dropped before the link supervision
    and refreshes nothing, so after [failover_detection_ms] the current link is the
    backup, and it stays so. *)
Theorem slow_primary_fails_over {D} `{PadSink D} s0 t0 s (d : option D) bus n l :
  st2110_redundancy_demux_open (Some s0) t0 = (ZST_OK, Some s) ->
  0 <= t0 + failover_detection_ms s0 < 18446744073709551616 ->
  Forall carries (lockstep n l) ->
  Exists (fun x => t0 + failover_detection_ms s0 < x.1.1) l ->
  exists s' d' bus', demux_run s d bus (lockstep n l) = (Some s', d', bus') /\ current_link s' = 1.
Proof.
  intros Hopen Hrange Hc Hl. unfold st2110_redundancy_demux_open in Hopen. ok_result Hopen.
  eapply (lockstep_run _ d bus None n l); [done|done|done|cbn; apply u64_small, Hrange|by right].
Qed.

(** ** The theorems at concrete inputs *)

Definition numbered (n : Z) : zst_buffer :=
  buffer_of ZST_BUFFER_USER 0 0 0 0 [128; 96; n / 256; n mod 256; 0; 0; 0; 0; 0; 0; 0; 9].

Lemma numbered_carries link n now : 0 <= n < 65536 -> carries (mk_arrival link n (numbered n) now).
Proof.
  intros Hn. pose proof (Z_div_mod_eq_full n 256). pose proof (Z.mod_pos_bound n 256 ltac:(lia)).
  split; [vm_compute; discriminate|]. eexists. split; [reflexivity|]. split.
  - repeat (constructor; [unfold is_byte; lia|]). constructor.
  - cbn [ar_num]. change (be16 (n / 256) (n mod 256) = u16 n).
    rewrite be16_add by (unfold is_byte; lia). rewrite u16_small by lia. lia.
Qed.

Definition sample_demux : st2110_redundancy_demux_t := mk_demux 10 10 false 0 no_history 0 0.

(** The primary loses 6, the backup is late with 5 and loses 7. *)
Definition sample_arrivals : list arrival :=
  [mk_arrival Primary 5 (numbered 5) 1; mk_arrival Backup 6 (numbered 6) 20;
   mk_arrival Backup 5 (numbered 5) 21; mk_arrival Primary 7 (numbered 7) 22].

Lemma sample_arrivals_carry : Forall carries sample_arrivals.
Proof. repeat (constructor; [apply numbered_carries; lia|]). constructor. Qed.

Lemma demux_merges_witness :
  exists s' bus',
    demux_run sample_demux (Some []) (Some []) sample_arrivals =
      (Some s', Some ([] ++ map ar_buf (firsts ∅ sample_arrivals)), bus') /\
    NoDup (map ar_num (firsts ∅ sample_arrivals)).
Proof.
  destruct (demux_merges sample_demux [] (Some []) sample_arrivals eq_refl) as (s' & bus' & E & Hnd & _).
  - cbn. lia.
  - exact sample_arrivals_carry.
  - exists s', bus'. split; [exact E|exact Hnd].
Defined.

Lemma events_alternate_witness :
  exists s' d' bus',
    demux_run (mk_demux 10 10 false 0 no_history 0 0) (Some ([] : trace)) (Some []) sample_arrivals =
      (Some s', d', Some bus') /\
    bus' = [FailoverEvent; RecoveryEvent] /\
    alternate FailoverEvent bus' = true /\ current_link s' = link_after bus'.
Proof.
  assert (E : exists s' d', demux_run (mk_demux 10 10 false 0 no_history 0 0) (Some ([] : trace)) (Some [])
      sample_arrivals = (Some s', d', Some [FailoverEvent; RecoveryEvent]))
    by (vm_compute; eexists _, _; reflexivity).
  destruct E as (s' & d' & E). exists s', d', [FailoverEvent; RecoveryEvent].
  split; [exact E|]. split; [reflexivity|].
  apply (events_alternate sample_demux 0 (mk_demux 10 10 false 0 no_history 0 0) (Some []) sample_arrivals s' d');
    [reflexivity|exact E].
Defined.

Lemma slow_primary_fails_over_witness :
  let l := [(5, 6, numbered 7); (15, 16, numbered 8)] in
  exists s' d' bus',
    demux_run sample_demux (Some ([] : trace)) (Some []) (lockstep 7 l) = (Some s', d', bus') /\ current_link s' = 1.
Proof.
  apply (slow_primary_fails_over sample_demux 0 sample_demux (Some []) (Some []) 7
           [(5, 6, numbered 7); (15, 16, numbered 8)]); [reflexivity|cbn; lia| |].
  - repeat (constructor; [apply numbered_carries; lia|]). constructor.
  - apply Exists_cons_tl, Exists_cons_hd. cbn. lia.
Defined.
