(* ===== verification/Pacer.v ===== *)
(** * Timestamp pacer: [src/zst_timestamp_pacer.c]

    Live sources call [zst_timestamp_pacer_wait] before each buffer: the first one
    fixes a baseline (its timestamp, the clock), a later one sleeps until the clock
    has advanced as far as the timestamps have.  [wait_body] is one round of the
    loop, under the lock; between rounds the pacer sleeps with the lock released. *)

From S2P Require Import Prelude.

Local Open Scope Z_scope.

Definition ZST_TIMESTAMP_PACER_DEFAULT_TOLERANCE_NS : Z := 5000000.
Definition ZST_TIMESTAMP_PACER_DEFAULT_RESET_THRESHOLD_NS : Z := 2000000000.
Definition ZST_TIMESTAMP_PACER_DEFAULT_SLEEP_QUANTUM_NS : Z := 10000000.

(** ** Clocks

    A clock is an object with two methods ([include/zst_clock.h]); [K] are the
    clocks, [W] is the world they read and advance. *)
Class Clocks (K W : Type) := {
  zst_clock_get_time : K -> W -> Z * W;
  zst_clock_wait : K -> Z -> W -> W;
  zst_clock_system_create : W -> option K * W;
}.

(** What the pacer relies on to terminate: a clock does not run backwards, fits in
    64 bits and advances by at least the time waited for, up to its maximum. *)
Class ClocksOk (K W : Type) `{Clocks K W} (reading : K -> W -> Z) := {
  get_time_ok : forall k w, let '(now, w') := zst_clock_get_time k w in
    reading k w <= now <= reading k w' /\ 0 <= now <= UINT64_MAX;
  wait_ok : forall k w ns, 0 <= ns ->
    Z.min UINT64_MAX (reading k w + ns) <= reading k (zst_clock_wait k ns w);
}.

Record zst_timestamp_pacer_t (K : Type) := mk_pacer {
  enabled : bool;
  started : bool;
  base_ts : Z;
  base_clock : Z;
  last_ts : Z;
  tolerance_ns : Z;
  reset_threshold_ns : Z;
  max_lateness_ns : Z;
  sleep_quantum_ns : Z;
  paced_count : Z;
  dropped_count : Z;
  reset_count : Z;
  total_wait_ns : Z;
  fallback_clock : option K;
}.
Arguments mk_pacer {K}.
Arguments enabled {K}. Arguments started {K}. Arguments base_ts {K}. Arguments base_clock {K}.
Arguments last_ts {K}. Arguments tolerance_ns {K}. Arguments reset_threshold_ns {K}.
Arguments max_lateness_ns {K}. Arguments sleep_quantum_ns {K}. Arguments paced_count {K}.
Arguments dropped_count {K}. Arguments reset_count {K}. Arguments total_wait_ns {K}.
Arguments fallback_clock {K}.

Section pacer.
Context {K W : Type} `{Clocks K W}.
Implicit Type p : zst_timestamp_pacer_t K.

(** Field updates *)
Definition with_baseline p (st : bool) (bts bclk lts : Z) : zst_timestamp_pacer_t K :=
  mk_pacer (enabled p) st bts bclk lts (tolerance_ns p) (reset_threshold_ns p) (max_lateness_ns p)
    (sleep_quantum_ns p) (paced_count p) (dropped_count p) (reset_count p) (total_wait_ns p)
    (fallback_clock p).
Definition with_counts p (paced dropped resets waited : Z) : zst_timestamp_pacer_t K :=
  mk_pacer (enabled p) (started p) (base_ts p) (base_clock p) (last_ts p) (tolerance_ns p)
    (reset_threshold_ns p) (max_lateness_ns p) (sleep_quantum_ns p) paced dropped resets waited
    (fallback_clock p).

Definition count_paced p := with_counts p (u64 (paced_count p + 1)) (dropped_count p) (reset_count p) (total_wait_ns p).
Definition count_dropped p := with_counts p (paced_count p) (u64 (dropped_count p + 1)) (reset_count p) (total_wait_ns p).
Definition count_reset p := with_counts p (paced_count p) (dropped_count p) (u64 (reset_count p + 1)) (total_wait_ns p).
Definition count_wait p ns := with_counts p (paced_count p) (dropped_count p) (reset_count p) (u64 (total_wait_ns p + ns)).

Definition zst_timestamp_pacer_min_time (a b : Z) : Z := if a <? b then a else b.

Definition zst_timestamp_pacer_get_now p (clock : option K) (w : W) : Z * W :=
  match (match clock with Some k => Some k | None => fallback_clock p end) with
  | None => (0, w)
  | Some k => zst_clock_get_time k w
  end.

Definition zst_timestamp_pacer_init (w : W) : zst_timestamp_pacer_t K * W :=
  let '(fallback, w) := zst_clock_system_create w in
  (mk_pacer false false 0 0 0 ZST_TIMESTAMP_PACER_DEFAULT_TOLERANCE_NS
     ZST_TIMESTAMP_PACER_DEFAULT_RESET_THRESHOLD_NS 0
     ZST_TIMESTAMP_PACER_DEFAULT_SLEEP_QUANTUM_NS 0 0 0 0 fallback, w).

Definition zst_timestamp_pacer_reset p : zst_timestamp_pacer_t K :=
  count_reset (with_baseline p false 0 0 0).

(** The fallback clock is unreferenced by the caller of this step. *)
Definition zst_timestamp_pacer_deinit p : zst_timestamp_pacer_t K :=
  mk_pacer (enabled p) false (base_ts p) (base_clock p) (last_ts p) (tolerance_ns p)
    (reset_threshold_ns p) (max_lateness_ns p) (sleep_quantum_ns p) (paced_count p)
    (dropped_count p) (reset_count p) (total_wait_ns p) None.

Definition zst_timestamp_pacer_set_enabled p (en : bool) : zst_timestamp_pacer_t K :=
  mk_pacer en (if en then started p else false) (base_ts p) (base_clock p) (last_ts p)
    (tolerance_ns p) (reset_threshold_ns p) (max_lateness_ns p) (sleep_quantum_ns p)
    (paced_count p) (dropped_count p) (reset_count p) (total_wait_ns p) (fallback_clock p).

Definition zst_timestamp_pacer_configure p (tol thr late : Z) : zst_timestamp_pacer_t K :=
  mk_pacer (enabled p) (started p) (base_ts p) (base_clock p) (last_ts p) tol thr late
    (sleep_quantum_ns p) (paced_count p) (dropped_count p) (reset_count p) (total_wait_ns p)
    (fallback_clock p).

Definition zst_timestamp_pacer_should_reset_locked p (ts : Z) : bool :=
  if negb (started p) then true
  else if ts <? last_ts p then true
  else if (0 <? reset_threshold_ns p) && (last_ts p <? ts) && (reset_threshold_ns p <? ts - last_ts p)
  then true
  else false.

Definition zst_timestamp_pacer_start_locked p (ts now : Z) : zst_timestamp_pacer_t K :=
  with_baseline p true ts now ts.

(** What a round of the loop decides. *)
Inductive wait_next :=
| Return (ret : zst_result_t) (dropped : bool)
| Sleep (ns : Z).

(** The clock time a buffer is due, saturating. *)
Definition wait_target p (ts : Z) : Z :=
  let ts_delta := ts - base_ts p in
  if UINT64_MAX - base_clock p <? ts_delta then UINT64_MAX else base_clock p + ts_delta.

Definition wait_body p (clock : option K) (ts now : Z) : wait_next * zst_timestamp_pacer_t K :=
  if negb (enabled p) then (Return ZST_OK false, p)
  else if (match clock, fallback_clock p with None, None => true | _, _ => false end) then
    (Return ZST_OK false, p)
  else if zst_timestamp_pacer_should_reset_locked p ts then
    let p := if started p then count_reset p else p in
    (Return ZST_OK false, count_paced (zst_timestamp_pacer_start_locked p ts now))
  else if ts =? last_ts p then (Return ZST_OK false, count_paced p)
  else if ts <? base_ts p then
    (Return ZST_OK false, count_paced (count_reset (zst_timestamp_pacer_start_locked p ts now)))
  else
    let target := wait_target p ts in
    let seen := with_baseline p (started p) (base_ts p) (base_clock p) ts in
    if (target <? now) && (0 <? max_lateness_ns p) && (max_lateness_ns p <? now - target) then
      (Return ZST_AGAIN true, count_dropped seen)
    else if (now <? target) && (tolerance_ns p <? target - now) then
      let quantum :=
        if 0 <? sleep_quantum_ns p then sleep_quantum_ns p
        else ZST_TIMESTAMP_PACER_DEFAULT_SLEEP_QUANTUM_NS in
      let sleep_ns := zst_timestamp_pacer_min_time (target - now) quantum in
      (Sleep sleep_ns, count_wait p sleep_ns)
    else (Return ZST_OK false, count_paced seen).

(** The loop: the result, the value left in [dropped_out], the pacer and the world.
    [meanwhile] is what other threads do to the pacer while this one sleeps. *)
Fixpoint zst_timestamp_pacer_wait (fuel : nat) (meanwhile : zst_timestamp_pacer_t K -> zst_timestamp_pacer_t K)
    (p : option (zst_timestamp_pacer_t K)) (clock : option K) (ts : Z) (w : W)
    : option (zst_result_t * bool * option (zst_timestamp_pacer_t K) * W) :=
  match p with
  | None => Some (ZST_ERROR, false, None, w)
  | Some p =>
      match fuel with
      | O => None
      | S fuel =>
          let '(now, w) := zst_timestamp_pacer_get_now p clock w in
          match wait_body p clock ts now with
          | (Return ret dropped, p) => Some (ret, dropped, Some p, w)
          | (Sleep ns, p) =>
              let w :=
                match (match clock with Some k => Some k | None => fallback_clock p end) with
                | Some k => zst_clock_wait k ns w
                | None => w
                end in
              zst_timestamp_pacer_wait fuel meanwhile (Some (meanwhile p)) clock ts w
          end
      end
  end.

(** ** Correctness *)

(** The baseline never lies after the last timestamp. *)
Definition pacer_ok p : Prop :=
  0 <= base_ts p <= last_ts p /\ last_ts p <= UINT64_MAX /\ 0 <= base_clock p <= UINT64_MAX /\
  0 <= tolerance_ns p.

Lemma wait_body_ok p clock ts now next p' :
  pacer_ok p -> 0 <= ts <= UINT64_MAX -> 0 <= now <= UINT64_MAX ->
  wait_body p clock ts now = (next, p') -> pacer_ok p'.
Proof.
  intros Hok Hts Hnow. unfold wait_body, pacer_ok in *. destruct (negb _); [intros; by simplify_eq|].
  destruct (match clock, fallback_clock p with None, None => true | _, _ => false end);
    [intros; by simplify_eq|].
  unfold zst_timestamp_pacer_should_reset_locked.
  destruct (negb (started p)); [by destruct (started p); intros; simplify_eq; cbn; lia|].
  destruct (Z.ltb_spec ts (last_ts p)); [by destruct (started p); intros; simplify_eq; cbn; lia|].
  destruct (_ && _ && _); [by destruct (started p); intros; simplify_eq; cbn; lia|].
  destruct (ts =? last_ts p); [by intros; simplify_eq|].
  destruct (ts <? base_ts p); [by intros; simplify_eq; cbn; lia|]. cbv zeta.
  destruct (_ && _ && _); [intros; simplify_eq; cbn; lia|].
  destruct (_ && _); intros; simplify_eq; cbn; lia.
Qed.

(** A due buffer is one the pacer is enabled for, continuing the baseline. *)
Definition continues p (clock : option K) (ts : Z) : Prop :=
  enabled p = true /\ (clock <> None \/ fallback_clock p <> None) /\ started p = true /\
  last_ts p < ts /\ (0 < reset_threshold_ns p -> ts - last_ts p <= reset_threshold_ns p).

Lemma continues_body p clock ts now :
  pacer_ok p -> continues p clock ts ->
  wait_body p clock ts now =
  (let target := wait_target p ts in
   let seen := with_baseline p (started p) (base_ts p) (base_clock p) ts in
   if (target <? now) && (0 <? max_lateness_ns p) && (max_lateness_ns p <? now - target) then
     (Return ZST_AGAIN true, count_dropped seen)
   else if (now <? target) && (tolerance_ns p <? target - now) then
     let quantum :=
       if 0 <? sleep_quantum_ns p then sleep_quantum_ns p
       else ZST_TIMESTAMP_PACER_DEFAULT_SLEEP_QUANTUM_NS in
     let sleep_ns := zst_timestamp_pacer_min_time (target - now) quantum in
     (Sleep sleep_ns, count_wait p sleep_ns)
   else (Return ZST_OK false, count_paced seen)).
Proof.
  intros (Hb & _) (He & Hc & Hs & Hl & Ht). unfold wait_body. rewrite He. cbn [negb].
  assert ((match clock, fallback_clock p with None, None => true | _, _ => false end) = false) as ->
    by (destruct clock, (fallback_clock p); try done; by destruct Hc).
  unfold zst_timestamp_pacer_should_reset_locked. rewrite Hs. cbn [negb].
  destruct (Z.ltb_spec ts (last_ts p)); [lia|]. destruct (Z.ltb_spec (last_ts p) ts); [|lia].
  assert ((0 <? reset_threshold_ns p) && true && (reset_threshold_ns p <? ts - last_ts p) = false) as ->.
  { rewrite andb_true_r. destruct (Z.ltb_spec 0 (reset_threshold_ns p)); [|done]. cbn [andb].
    apply Z.ltb_ge. by apply Ht. }
  destruct (Z.eqb_spec ts (last_ts p)); [lia|]. destruct (Z.ltb_spec ts (base_ts p)); [lia|done].
Qed.


(** The parts of the pacer a sleeping round keeps. *)
Definition same_plan p p' : Prop :=
  enabled p' = enabled p /\ started p' = started p /\ base_ts p' = base_ts p /\
  base_clock p' = base_clock p /\ last_ts p' = last_ts p /\ tolerance_ns p' = tolerance_ns p /\
  reset_threshold_ns p' = reset_threshold_ns p /\ max_lateness_ns p' = max_lateness_ns p /\
  sleep_quantum_ns p' = sleep_quantum_ns p /\ fallback_clock p' = fallback_clock p /\
  paced_count p' = paced_count p /\ dropped_count p' = dropped_count p /\ reset_count p' = reset_count p.

Lemma same_plan_wait p p' ns : same_plan p p' -> same_plan p (count_wait p' ns).
Proof. intros (? & ? & ? & ? & ? & ? & ? & ? & ? & ? & ? & ? & ?). by repeat split. Qed.

Lemma same_plan_continues p p' clock ts :
  same_plan p p' -> pacer_ok p -> continues p clock ts -> pacer_ok p' /\ continues p' clock ts /\ wait_target p' ts = wait_target p ts.
Proof.
  intros (E1 & E2 & E3 & E4 & E5 & E6 & E7 & E8 & E9 & E10 & _). unfold pacer_ok, continues, wait_target.
  by rewrite E1, E2, E3, E4, E5, E6, E7, E10.
Qed.

Definition quantum p : Z :=
  if 0 <? sleep_quantum_ns p then sleep_quantum_ns p else ZST_TIMESTAMP_PACER_DEFAULT_SLEEP_QUANTUM_NS.

Lemma quantum_pos p : 0 < quantum p.
Proof.
  unfold quantum, ZST_TIMESTAMP_PACER_DEFAULT_SLEEP_QUANTUM_NS.
  destruct (Z.ltb_spec 0 (sleep_quantum_ns p)); lia.
Qed.

Context (reading : K -> W -> Z) `{!ClocksOk K W reading}.

Definition due (now0 ts0 ts : Z) : Z := Z.min UINT64_MAX (now0 + (ts - ts0)).

Lemma wait_target_due p ts : wait_target p ts = due (base_clock p) (base_ts p) ts.
Proof.
  unfold wait_target, due. cbv zeta. destruct (Z.ltb_spec (UINT64_MAX - base_clock p) (ts - base_ts p)); lia.
Qed.

(** What a wait on clock [k] returns, in terms of the last time it read. *)
Definition wait_result p ts (w w' : W) (k : K) (ret : zst_result_t) (dropped : bool) p' : Prop :=
  exists now pc,
    same_plan p pc /\ reading k w <= now <= reading k w' /\
    ((ret = ZST_OK /\ dropped = false /\ wait_target p ts <= now + tolerance_ns p /\
      (0 < max_lateness_ns p -> now <= wait_target p ts + max_lateness_ns p) /\
      p' = count_paced (with_baseline pc (started p) (base_ts p) (base_clock p) ts)) \/
     (ret = ZST_AGAIN /\ dropped = true /\ 0 < max_lateness_ns p /\
      wait_target p ts + max_lateness_ns p < now /\
      p' = count_dropped (with_baseline pc (started p) (base_ts p) (base_clock p) ts))).

Lemma wait_loop fuel p pc k ts w :
  same_plan p pc -> pacer_ok p -> continues p (Some k) ts ->
  match zst_timestamp_pacer_wait fuel id (Some pc) (Some k) ts w with
  | None => Z.of_nat fuel * quantum p < Z.max 0 (wait_target p ts - reading k w) + 2 * quantum p
  | Some (ret, dropped, p', w') =>
      exists p'', p' = Some p'' /\ wait_result p ts w w' k ret dropped p''
  end.
Proof.
  revert pc w. induction fuel as [|fuel IH]; intros pc w Hs Hok Hc.
  { cbn [zst_timestamp_pacer_wait]. pose proof (quantum_pos p). lia. }
  destruct (same_plan_continues p pc (Some k) ts Hs Hok Hc) as (Hokc & Hcc & Ht).
  pose proof Hs as (E1 & E2 & E3 & E4 & E5 & E6 & E7 & E8 & E9 & E10 & _).
  cbn [zst_timestamp_pacer_wait]. unfold zst_timestamp_pacer_get_now.
  pose proof (get_time_ok k w) as Hg. destruct (zst_clock_get_time k w) as [now w1].
  destruct Hg as [[Hg1 Hg2] Hg3]. rewrite continues_body by done. cbv zeta.
  rewrite Ht, E2, E3, E4, E6, E8, E9. fold (quantum p). pose proof (quantum_pos p) as Hq.
  pose proof Hok as (_ & _ & _ & Htol).
  destruct ((wait_target p ts <? now) && (0 <? max_lateness_ns p) && (max_lateness_ns p <? now - wait_target p ts))
    eqn:L1.
  - apply andb_true_iff in L1 as [[L1%Z.ltb_lt L2%Z.ltb_lt]%andb_true_iff L3%Z.ltb_lt].
    eexists. split; [done|]. exists now, pc. split; [done|]. split; [done|]. right. split_and!; try done. lia.
  - destruct ((now <? wait_target p ts) && (tolerance_ns p <? wait_target p ts - now)) eqn:L2.
    + apply andb_true_iff in L2 as [L2%Z.ltb_lt L3%Z.ltb_lt].
      set (ns := zst_timestamp_pacer_min_time (wait_target p ts - now) (quantum p)).
      assert (Hns : 0 < ns /\ (ns = quantum p \/ ns = wait_target p ts - now) /\ ns <= quantum p /\
                    ns <= wait_target p ts - now).
      { unfold ns, zst_timestamp_pacer_min_time.
        destruct (Z.ltb_spec (wait_target p ts - now) (quantum p)); lia. }
      clearbody ns. pose proof (wait_ok k w1 ns ltac:(lia)) as Hw. unfold id at 2.
      specialize (IH (count_wait pc ns) (zst_clock_wait k ns w1) (same_plan_wait _ _ _ Hs)).
      specialize (IH Hok Hc).
      destruct (zst_timestamp_pacer_wait fuel id _ _ _ _) as [[[[ret dropped] p'] w']|].
      * destruct IH as (p'' & -> & now' & pc' & Hs' & Hr & Hd). exists p''. split; [done|].
        exists now', pc'. split; [done|]. split; [|done].
        pose proof (get_time_ok k w1) as Hg'. destruct (zst_clock_get_time k w1). lia.
      * rewrite Nat2Z.inj_succ, Z.mul_succ_l.
        assert (wait_target p ts <= UINT64_MAX) by (rewrite wait_target_due; unfold due; lia).
        destruct (Z.le_gt_cases (wait_target p ts) (reading k (zst_clock_wait k ns w1))) as [Hdue|Hnot];
          [|destruct Hns as (? & [->| ->] & ? & ?); lia].
        assert (Z.of_nat fuel < 2) by nia. assert (Z.of_nat fuel * quantum p <= 1 * quantum p) by nia. lia.
    + eexists. split; [done|]. exists now, pc. split; [done|]. split; [done|]. left.
      split_and!; try done.
      * apply andb_false_iff in L2 as [L2%Z.ltb_ge|L2%Z.ltb_ge]; lia.
      * intros Hm. rewrite (proj2 (Z.ltb_lt _ _) Hm), andb_true_r in L1.
        apply andb_false_iff in L1 as [L1%Z.ltb_ge|L1%Z.ltb_ge]; lia.
Qed.


(** A wait returns, after at most as many sleeps as the remaining time has quanta
    (and one more); when it lets the buffer go the clock has reached the buffer's due
    time up to the tolerance and is not later than the allowed lateness, and it drops
    the buffer only when it is later than that.  The baseline does not move. *)
Theorem wait_paces fuel p k ts w :
  pacer_ok p -> continues p (Some k) ts ->
  Z.max 0 (wait_target p ts - reading k w) + 2 * quantum p <= Z.of_nat fuel * quantum p ->
  exists ret dropped p' w',
    zst_timestamp_pacer_wait fuel id (Some p) (Some k) ts w = Some (ret, dropped, Some p', w') /\
    wait_result p ts w w' k ret dropped p' /\ base_ts p' = base_ts p /\ base_clock p' = base_clock p.
Proof.
  intros Hok Hc Hf. pose proof (wait_loop fuel p p k ts w ltac:(by repeat split) Hok Hc) as Hw.
  destruct (zst_timestamp_pacer_wait _ _ _ _ _ _) as [[[[ret dropped] p'] w']|]; [|lia].
  destruct Hw as (p'' & -> & Hr). exists ret, dropped, p'', w'. split; [done|]. split; [done|].
  destruct Hr as (now & pc & _ & _ & [(_ & _ & _ & _ & ->)|(_ & _ & _ & _ & ->)]); done.
Qed.

(** ** A whole stream *)

(** Waiting for each buffer of a stream in turn; the worlds at the releases. *)
Fixpoint pace_all (fuel : nat) p (k : K) (tss : list Z) (w : W) : option (list W) :=
  match tss with
  | [] => Some []
  | ts :: tss =>
      match zst_timestamp_pacer_wait fuel id (Some p) (Some k) ts w with
      | Some (_, _, Some p, w) => cons w <$> pace_all fuel p k tss w
      | _ => None
      end
  end.

(** Timestamps that go up, by no more than the reset threshold. *)
Fixpoint steady (thr last : Z) (tss : list Z) : Prop :=
  match tss with
  | [] => True
  | ts :: tss => last < ts <= UINT64_MAX /\ (0 < thr -> ts - last <= thr) /\ steady thr ts tss
  end.

Lemma pace_all_due fuel p k tss w :
  pacer_ok p -> enabled p = true -> started p = true -> steady (reset_threshold_ns p) (last_ts p) tss ->
  base_clock p <= reading k w ->
  (forall ts, ts ∈ tss -> ts - base_ts p + 2 * quantum p <= Z.of_nat fuel * quantum p) ->
  exists ws, pace_all fuel p k tss w = Some ws /\
    Forall2 (fun ts wi => due (base_clock p) (base_ts p) ts <= reading k wi + tolerance_ns p) tss ws.
Proof.
  revert p w. induction tss as [|ts tss IH]; intros p w Hok He Hs Hst Hb Hf.
  { exists []. split; [done|constructor]. }
  destruct Hst as (Hts & Hthr & Hst). cbn [pace_all].
  assert (Hc : continues p (Some k) ts) by (split_and!; try done; [by left|lia]).
  pose proof (wait_loop fuel p p k ts w ltac:(by repeat split) Hok Hc) as Hw.
  pose proof (wait_target_due p ts) as Hdue.
  assert (Hup : Z.max 0 (wait_target p ts - reading k w) <= ts - base_ts p).
  { rewrite Hdue. unfold due. destruct Hok as (? & ? & _). lia. }
  specialize (Hf ts ltac:(by left)) as Hfts.
  destruct (zst_timestamp_pacer_wait _ _ _ _ _ _) as [[[[ret dropped] p'] w']|]; [|lia].
  destruct Hw as (p'' & -> & now & pc & Hpc & Hr & Hd).
  assert (Hp'' : exists pd, same_plan p pd /\
     (p'' = count_paced (with_baseline pd true (base_ts p) (base_clock p) ts) \/
      p'' = count_dropped (with_baseline pd true (base_ts p) (base_clock p) ts))).
  { exists pc. split; [done|]. rewrite Hs in Hd.
    destruct Hd as [(_ & _ & _ & _ & ->)|(_ & _ & _ & _ & ->)]; auto. }
  assert (Hrel : wait_target p ts <= reading k w' + tolerance_ns p).
  { destruct Hok as (_ & _ & _ & ?). destruct Hd as [(_ & _ & ? & _)|(_ & _ & ? & ? & _)]; lia. }
  destruct Hp'' as (pd & (E1 & E2 & E3 & E4 & E5 & E6 & E7 & E8 & E9 & E10 & _) & Hp'').
  assert (Hplan : enabled p'' = enabled p /\ started p'' = true /\ base_ts p'' = base_ts p /\
    base_clock p'' = base_clock p /\ last_ts p'' = ts /\ tolerance_ns p'' = tolerance_ns p /\
    reset_threshold_ns p'' = reset_threshold_ns p /\ sleep_quantum_ns p'' = sleep_quantum_ns p)
    by (destruct Hp'' as [-> | ->]; by split_and!).
  destruct Hplan as (F1 & F2 & F3 & F4 & F5 & F6 & F7 & F8).
  destruct (IH p'' w') as (ws & -> & Hws).
  - destruct Hok as (? & ? & ? & ?). unfold pacer_ok. rewrite F3, F4, F5, F6. lia.
  - by rewrite F1.
  - done.
  - by rewrite F7, F5.
  - rewrite F4. lia.
  - intros ts' Hin. unfold quantum in *. rewrite F3, F8. apply Hf. by right.
  - exists (w' :: ws). split; [done|]. constructor; [by rewrite <-Hdue|]. by rewrite <-F3, <-F4, <-F6.
Qed.

(** A stream keeps its timing: after a first buffer let through at once, each later
    buffer is released no earlier than its distance from the first one, up to the
    tolerance of one buffer, however many there are (errors do not add up); and every
    wait returns. *)
Theorem stream_on_schedule fuel p k ts0 tss w :
  pacer_ok p -> enabled p = true -> started p = false -> 0 <= ts0 <= UINT64_MAX ->
  steady (reset_threshold_ns p) ts0 tss ->
  (forall ts, ts ∈ tss -> ts - ts0 + 2 * quantum p <= Z.of_nat fuel * quantum p) -> (0 < fuel)%nat ->
  exists now0 w0 ws,
    pace_all fuel p k (ts0 :: tss) w = Some (w0 :: ws) /\ reading k w <= now0 <= reading k w0 /\
    Forall2 (fun ts wi => due now0 ts0 ts <= reading k wi + tolerance_ns p) tss ws.
Proof.
  intros Hok He Hs Hts Hst Hf Hfuel. cbn [pace_all]. destruct fuel as [|fuel']; [lia|].
  set (fuel := S fuel') in *. unfold fuel at 1. cbn [zst_timestamp_pacer_wait].
  unfold zst_timestamp_pacer_get_now. pose proof (get_time_ok k w) as Hg.
  destruct (zst_clock_get_time k w) as [now w1]. destruct Hg as [[Hg1 Hg2] Hg3].
  unfold wait_body. rewrite He. cbn [negb].
  unfold zst_timestamp_pacer_should_reset_locked. rewrite Hs. cbn [negb].
  set (p1 := count_paced (zst_timestamp_pacer_start_locked p ts0 now)).
  destruct (pace_all_due fuel p1 k tss w1) as (ws & E & Hws); try done.
  - destruct Hok as (? & ? & ? & ?). unfold pacer_ok. cbn. lia.
  - exists now, w1, ws. rewrite E. split; [done|]. split; [lia|]. apply Hws.
Qed.

(** ** Reachable states *)

Inductive pacer_call : zst_timestamp_pacer_t K -> zst_timestamp_pacer_t K -> Prop :=
| pcall_reset p : pacer_call p (zst_timestamp_pacer_reset p)
| pcall_deinit p : pacer_call p (zst_timestamp_pacer_deinit p)
| pcall_enable p en : pacer_call p (zst_timestamp_pacer_set_enabled p en)
| pcall_configure p tol thr late : 0 <= tol -> pacer_call p (zst_timestamp_pacer_configure p tol thr late)
| pcall_round p clock ts now next p' :
    0 <= ts <= UINT64_MAX -> 0 <= now <= UINT64_MAX -> wait_body p clock ts now = (next, p') ->
    pacer_call p p'.

(** In every reachable state, rounds of concurrent waits and other calls interleaved in
    any way, the baseline is not after the last timestamp, so the loop's test for a
    timestamp before the baseline never succeeds (its subtraction cannot wrap either). *)
Theorem pacer_reach_ok w p clock ts now :
  reach pacer_call (zst_timestamp_pacer_init w).1 p ->
  pacer_ok p /\
  (zst_timestamp_pacer_should_reset_locked p ts = false -> base_ts p <= ts) /\
  (0 <= now <= UINT64_MAX -> forall ns p', wait_body p clock ts now = (Sleep ns, p') -> 0 < ns <= quantum p).
Proof.
  intros Hr. assert (Hok : pacer_ok p).
  { revert Hr. apply reach_inv.
    - unfold zst_timestamp_pacer_init. destruct (zst_clock_system_create w) as [f w'].
      unfold pacer_ok. cbn. unfold ZST_TIMESTAMP_PACER_DEFAULT_TOLERANCE_NS, UINT64_MAX. lia.
    - intros a b Hok Hc. destruct Hc as [| | | |? ? ? ? ? ? Ht Hn E];
        [..|exact (wait_body_ok _ _ _ _ _ _ Hok Ht Hn E)]; unfold pacer_ok, UINT64_MAX in *; cbn; lia. }
  split; [done|]. assert (Hres : zst_timestamp_pacer_should_reset_locked p ts = false -> base_ts p <= ts).
  { unfold zst_timestamp_pacer_should_reset_locked. destruct (negb (started p)); [done|].
    destruct (Z.ltb_spec ts (last_ts p)); [done|]. intros _. destruct Hok as (? & _). lia. }
  split; [done|]. intros Hnow ns p'. unfold wait_body.
  destruct (negb _); [done|].
  destruct (match clock, fallback_clock p with None, None => true | _, _ => false end); [done|].
  destruct (zst_timestamp_pacer_should_reset_locked p ts); [done|]. destruct (ts =? last_ts p); [done|].
  destruct (ts <? base_ts p); [done|]. cbv zeta. destruct (_ && _ && _); [done|].
  destruct (_ && _) eqn:L; [|done]. intros [= <- _].
  apply andb_true_iff in L as [L1%Z.ltb_lt L2%Z.ltb_lt]. fold (quantum p). pose proof (quantum_pos p).
  unfold zst_timestamp_pacer_min_time. destruct (Z.ltb_spec (wait_target p ts - now) (quantum p)); lia.
Qed.

End pacer.

(** ** Concrete instances *)

(** A world whose time only passes by waiting. *)
#[export] Instance still_clock : Clocks unit Z := {|
  zst_clock_get_time := fun _ w => (Z.max 0 (Z.min UINT64_MAX w), w);
  zst_clock_wait := fun _ ns w => Z.max 0 w + ns;
  zst_clock_system_create := fun w => (Some tt, w);
|}.

Definition still_reading (_ : unit) (w : Z) : Z := Z.max 0 (Z.min UINT64_MAX w).

Lemma still_clock_ok : ClocksOk unit Z still_reading.
Proof.
  split; intros; cbn; unfold still_reading, UINT64_MAX in *; [split; lia|lia].
Qed.

(** Enabled, 40 ms after a first buffer at clock time 1 s. *)
Definition fresh_pacer : zst_timestamp_pacer_t unit :=
  zst_timestamp_pacer_set_enabled (zst_timestamp_pacer_init 0).1 true.
Definition sample_pacer : zst_timestamp_pacer_t unit := (wait_body fresh_pacer None 0 1000000000).2.

Lemma wait_paces_witness :
  exists ret dropped p' w',
    zst_timestamp_pacer_wait 6 id (Some sample_pacer) (Some tt) 40000000 1000000000 =
      Some (ret, dropped, Some p', w') /\
    wait_result still_reading sample_pacer 40000000 1000000000 w' tt ret dropped p' /\
    base_ts p' = base_ts sample_pacer /\ base_clock p' = base_clock sample_pacer.
Proof.
  apply (@wait_paces unit Z still_clock still_reading still_clock_ok).
  - unfold pacer_ok. vm_compute. repeat split; congruence.
  - unfold continues. split_and!; try reflexivity; [by left|vm_compute; congruence].
  - vm_compute. congruence.
Defined.

Lemma stream_on_schedule_witness :
  exists now0 w0 ws,
    pace_all 12 fresh_pacer tt
      [0; 40000000; 80000000] 1000000000 = Some (w0 :: ws) /\
    still_reading tt 1000000000 <= now0 <= still_reading tt w0 /\
    Forall2 (fun ts wi => due now0 0 ts <= still_reading tt wi + tolerance_ns fresh_pacer) [40000000; 80000000] ws.
Proof.
  apply (@stream_on_schedule unit Z still_clock still_reading still_clock_ok 12
           fresh_pacer tt 0
           [40000000; 80000000] 1000000000).
  - unfold pacer_ok. vm_compute. repeat split; congruence.
  - reflexivity.
  - reflexivity.
  - vm_compute. split; congruence.
  - cbn. unfold UINT64_MAX, ZST_TIMESTAMP_PACER_DEFAULT_RESET_THRESHOLD_NS. lia.
  - intros ts [->|[->|[]%not_elem_of_nil]%elem_of_cons]%elem_of_cons;
      vm_compute; congruence.
  - lia.
Defined.

Lemma pacer_reach_ok_witness :
  pacer_ok sample_pacer /\
  (zst_timestamp_pacer_should_reset_locked sample_pacer 5 = false -> base_ts sample_pacer <= 5) /\
  (0 <= 7 <= UINT64_MAX -> forall ns p', wait_body sample_pacer None 5 7 = (Sleep ns, p') -> 0 < ns <= quantum sample_pacer).
Proof.
  apply (@pacer_reach_ok unit Z still_clock 0 sample_pacer None 5 7).
  eapply reach_step; [eapply reach_step; [apply reach_refl|apply (pcall_enable _ true)]|].
  apply (pcall_round _ None 0 1000000000 (Return ZST_OK false));
    [vm_compute; split; congruence|vm_compute; split; congruence|reflexivity].
Defined.
