(* ===== verification/Queue.v ===== *)
(** * The bounded ring queue: [src/zst_queue.c]

    A multi-producer multi-consumer ring: each slot carries a sequence number that
    says whose turn it is, producers claim positions at [tail], consumers at
    [head].  First the queue as one thread sees it, with its limits, as functions;
    then the atomic steps of [push] and [pop] as a relation, for any number of
    threads interleaved in any way.  Condition variables only delay a thread: in the
    relation a waiting thread gives up or reloads its position at any later time. *)

From S2P Require Import Prelude Pad.

Local Open Scope Z_scope.

Inductive zst_queue_mode_t := ZST_QUEUE_SYNC | ZST_QUEUE_ASYNC.

Record zst_queue_config_t := mk_qcfg {
  cfg_mode : zst_queue_mode_t;
  cfg_max_buffers : Z;
  cfg_max_bytes : Z;
  cfg_max_duration : Z;
}.

Record zst_queue_slot_t := mk_slot {
  slot_buf : option zst_buffer;
  slot_sequence : Z;
  slot_pts : Z;
  slot_duration : Z;
}.

(** The ring is indexed by masked positions only. *)
Record zst_queue := mk_queue {
  q_cfg : zst_queue_config_t;
  q_capacity : Z;
  q_has_extra_limits : bool;
  q_ring : Z -> zst_queue_slot_t;
  q_head : Z;
  q_tail : Z;
  q_approx_bytes : Z;
}.

Definition RING_MASK (q : zst_queue) (idx : Z) : Z := Z.land idx (q_capacity q - 1).

Definition slot_of (q : zst_queue) (idx : Z) : zst_queue_slot_t := q_ring q (RING_MASK q idx).

Definition with_ring (q : zst_queue) (f : Z -> zst_queue_slot_t) (bytes : Z) : zst_queue :=
  mk_queue (q_cfg q) (q_capacity q) (q_has_extra_limits q) f (q_head q) (q_tail q) bytes.
Definition with_indices (q : zst_queue) (head tail : Z) : zst_queue :=
  mk_queue (q_cfg q) (q_capacity q) (q_has_extra_limits q) (q_ring q) head tail (q_approx_bytes q).

Definition set_slot (q : zst_queue) (idx : Z) (sl : zst_queue_slot_t) : Z -> zst_queue_slot_t :=
  fun j => if j =? RING_MASK q idx then sl else q_ring q j.

Definition next_power_of_two (v : Z) : Z :=
  let v := u32 (v - 1) in
  let v := u32 (smear [1; 2; 4; 8; 16] v + 1) in
  if v <? 2 then 2 else v.

Definition default_qcfg : zst_queue_config_t := mk_qcfg ZST_QUEUE_SYNC 16 0 0.

Definition zst_queue_create `{CMemory} (cfg : option zst_queue_config_t) : option zst_queue :=
  let cfg := default default_qcfg cfg in
  let capacity := next_power_of_two (if 0 <? cfg_max_buffers cfg then cfg_max_buffers cfg else 16) in
  let extra :=
    (0 <? cfg_max_bytes cfg) || (0 <? cfg_max_duration cfg)
    || ((0 <? cfg_max_buffers cfg) && (cfg_max_buffers cfg <? capacity)) in
  if malloc_ok (capacity * 32) then
    Some (mk_queue cfg capacity extra (fun i => mk_slot None i 0 0) 0 0 0)
  else None.

(** [size] from the [head] and [tail] it loads. *)
Definition size_between (head tail : Z) : Z :=
  let size := s64 (s64 tail - s64 head) in
  if size <? 0 then 0 else u32 size.

Definition zst_queue_size (q : option zst_queue) : Z :=
  match q with
  | None => 0
  | Some q => size_between (q_head q) (q_tail q)
  end.

(** The first position from [i] on, below [tail], whose slot is written, and its pts. *)
Fixpoint find_written_up (n : nat) (q : zst_queue) (i : Z) : option (Z * Z) :=
  match n with
  | O => None
  | S n =>
      if slot_sequence (slot_of q i) =? u64 (i + 1) then Some (i, slot_pts (slot_of q i))
      else find_written_up n q (i + 1)
  end.

(** The last position from [i] down whose slot is written, in [n] tries, and its pts. *)
Fixpoint find_written_down (n : nat) (q : zst_queue) (i : Z) : option Z :=
  match n with
  | O => None
  | S n =>
      if slot_sequence (slot_of q i) =? u64 (i + 1) then Some (slot_pts (slot_of q i))
      else find_written_down n q (i - 1)
  end.

(** The sum of the durations of the written slots among [n] positions from [i] on. *)
Fixpoint sum_durations (n : nat) (q : zst_queue) (i : Z) (sum : Z) : Z :=
  match n with
  | O => sum
  | S n =>
      sum_durations n q (i + 1)
        (if slot_sequence (slot_of q i) =? u64 (i + 1)
         then u64 (sum + slot_duration (slot_of q i)) else sum)
  end.

Definition zst_queue_get_duration (q : zst_queue) : Z :=
  let head := q_head q in
  let tail := q_tail q in
  if tail <=? head then 0
  else
    let up := find_written_up (Z.to_nat (tail - head)) q head in
    let first_idx := match up with Some (i, _) => i | None => tail end in
    let down := find_written_down (Z.to_nat (tail - first_idx)) q (tail - 1) in
    let fallback := sum_durations (Z.to_nat (tail - head)) q head 0 in
    match up, down with
    | Some (_, head_pts), Some tail_pts =>
        if (head_pts <=? tail_pts) && negb (head_pts =? 0) then tail_pts - head_pts else fallback
    | _, _ => fallback
    end.

Definition zst_queue_is_full (q : zst_queue) : bool :=
  ((0 <? cfg_max_buffers (q_cfg q)) && (cfg_max_buffers (q_cfg q) <=? zst_queue_size (Some q)))
  || ((0 <? cfg_max_bytes (q_cfg q)) && (cfg_max_bytes (q_cfg q) <=? q_approx_bytes q))
  || ((0 <? cfg_max_duration (q_cfg q)) && (cfg_max_duration (q_cfg q) <=? zst_queue_get_duration q)).

(** ** The effects of a claimed position *)

(** The stores between the claim of [pos] by [push] and the release store. *)
Definition push_write (q : zst_queue) (pos : Z) (buf : zst_buffer) : zst_queue :=
  with_ring q
    (set_slot q pos (mk_slot (Some buf) (slot_sequence (slot_of q pos)) (buf_pts buf) (buf_duration buf)))
    (u64 (q_approx_bytes q + mem_size buf)).

(** The release store of [push]. *)
Definition push_publish (q : zst_queue) (pos : Z) : zst_queue :=
  let sl := slot_of q pos in
  with_ring q (set_slot q pos (mk_slot (slot_buf sl) (u64 (pos + 1)) (slot_pts sl) (slot_duration sl)))
    (q_approx_bytes q).

(** The loads and stores between the claim of [pos] by [pop] and the release store. *)
Definition pop_read (q : zst_queue) (pos : Z) : option zst_buffer * zst_queue :=
  let b := slot_buf (slot_of q pos) in
  let bytes :=
    match b with Some b => u64 (q_approx_bytes q - mem_size b) | None => q_approx_bytes q end in
  (b, with_ring q (set_slot q pos (mk_slot None (slot_sequence (slot_of q pos)) 0 0)) bytes).

(** The release store of [pop]. *)
Definition pop_release (q : zst_queue) (pos : Z) : zst_queue :=
  let sl := slot_of q pos in
  with_ring q
    (set_slot q pos (mk_slot (slot_buf sl) (u64 (pos + q_capacity q)) (slot_pts sl) (slot_duration sl)))
    (q_approx_bytes q).

(** [(int64_t)seq - (int64_t)pos] at the slot of [pos] *)
Definition push_diff (q : zst_queue) (pos : Z) : Z :=
  s64 (s64 (slot_sequence (slot_of q pos)) - s64 pos).
Definition pop_diff (q : zst_queue) (pos : Z) : Z :=
  s64 (s64 (slot_sequence (slot_of q pos)) - s64 (u64 (pos + 1))).

(** ** One thread

    With no other thread a claim succeeds; a call that has to wait waits out its
    timeout, or for ever ([None]) without one, and a position that another thread
    would have to move on is reloaded for ever ([None]). *)

Definition UINT32_TIMEOUT_FOREVER : Z := 4294967295.

Definition wait_alone (mode : zst_queue_mode_t) (timeout_ms : Z) : option zst_result_t :=
  match mode with
  | ZST_QUEUE_ASYNC => Some ZST_ERROR
  | ZST_QUEUE_SYNC => if timeout_ms =? UINT32_TIMEOUT_FOREVER then None else Some ZST_TIMEOUT
  end.

Definition zst_queue_push (q : option zst_queue) (buf : option zst_buffer) (timeout_ms : Z)
    : option (zst_result_t * option zst_queue) :=
  match q, buf with
  | Some q, Some buf =>
      let pos := q_tail q in
      let diff := push_diff q pos in
      if 0 <? diff then None
      else if (diff <? 0) || (q_has_extra_limits q && zst_queue_is_full q) then
        match wait_alone (cfg_mode (q_cfg q)) timeout_ms with
        | Some ret => Some (ret, Some q)
        | None => None
        end
      else
        let q := with_indices q (q_head q) (u64 (pos + 1)) in
        Some (ZST_OK, Some (push_publish (push_write q pos buf) pos))
  | q, _ => Some (ZST_ERROR, q)
  end.

(** The buffer popped is the second component. *)
Definition zst_queue_pop (q : option zst_queue) (timeout_ms : Z)
    : option (zst_result_t * option zst_buffer * option zst_queue) :=
  match q with
  | Some q =>
      let pos := q_head q in
      if 0 <? pop_diff q pos then None
      else if pop_diff q pos =? 0 then
        let q := with_indices q (u64 (pos + 1)) (q_tail q) in
        let '(b, q) := pop_read q pos in
        Some (ZST_OK, b, Some (pop_release q pos))
      else
        match wait_alone ZST_QUEUE_SYNC timeout_ms with
        | Some ret => Some (ret, None, Some q)
        | None => None
        end
  | None => Some (ZST_ERROR, None, None)
  end.

(** [flush] pops until the queue is empty: the buffers it unreferences, in order. *)
Fixpoint zst_queue_flush (fuel : nat) (q : option zst_queue)
    : option (list (option zst_buffer) * option zst_queue) :=
  match q, fuel with
  | None, _ => Some ([], None)
  | _, O => None
  | Some q, S fuel =>
      match zst_queue_pop (Some q) 0 with
      | Some (ret, b, q) =>
          if ret =? ZST_OK then
            match zst_queue_flush fuel q with
            | Some (bs, q) => Some (b :: bs, q)
            | None => None
            end
          else Some ([], q)
      | None => None
      end
  end.

(** [destroy] flushes and frees. *)
Definition zst_queue_destroy (fuel : nat) (q : option zst_queue) : option (list (option zst_buffer)) :=
  match zst_queue_flush fuel q with Some (bs, _) => Some bs | None => None end.

(** ** Many threads *)

(** Where a thread is in [push] or [pop]. *)
Inductive pc :=
| Idle
| PushLoop (buf : zst_buffer) (pos : Z)      (* about to load the slot's sequence *)
| PushWait (buf : zst_buffer)                (* full: waiting, or about to give up *)
| PushCheck (buf : zst_buffer) (pos : Z)     (* free: about to load [head] in [size] *)
| PushSize (buf : zst_buffer) (pos head : Z) (* about to load [tail] in [size] *)
| PushCas (buf : zst_buffer) (pos : Z)       (* about to claim [pos] at [tail] *)
| PushWrite (buf : zst_buffer) (pos : Z)
| PushPublish (buf : zst_buffer) (pos : Z)
| PopLoop (pos : Z)
| PopWait
| PopCas (pos : Z)
| PopRead (pos : Z)
| PopRelease (pos : Z) (b : option zst_buffer).

(** The queue, the threads, and what has been claimed and delivered so far: the
    buffers in the order their positions were claimed, the position and buffer of
    every read by [pop]. *)
Record system := mk_sys {
  sys_q : zst_queue;
  sys_pc : nat -> pc;
  sys_pushed : list zst_buffer;
  sys_delivered : list (Z * option zst_buffer);
}.

Definition set_pc (t : nat) (c : pc) (f : nat -> pc) : nat -> pc :=
  fun t' => if (t' =? t)%nat then c else f t'.

(** The first test of [is_full], with [head] loaded before; and whether the other two
    limits are set.  Those two read several locations while the other threads go on, so
    their verdict, when they are set, is left open: the thread may go on or wait. *)
Definition too_many (q : zst_queue) (head : Z) : bool :=
  (0 <? cfg_max_buffers (q_cfg q)) && (cfg_max_buffers (q_cfg q) <=? size_between head (q_tail q)).
Definition others_limited (q : zst_queue) : bool :=
  (0 <? cfg_max_bytes (q_cfg q)) || (0 <? cfg_max_duration (q_cfg q)).

(** One atomic step of thread [t], in a sequentially consistent memory. *)
Inductive qstep (t : nat) : system -> system -> Prop :=
| q_push_start q f pu de buf :
    f t = Idle ->
    qstep t (mk_sys q f pu de) (mk_sys q (set_pc t (PushLoop buf (q_tail q)) f) pu de)
| q_push_free q f pu de buf pos :
    f t = PushLoop buf pos -> push_diff q pos = 0 -> q_has_extra_limits q = false ->
    qstep t (mk_sys q f pu de) (mk_sys q (set_pc t (PushCas buf pos) f) pu de)
| q_push_check q f pu de buf pos :
    f t = PushLoop buf pos -> push_diff q pos = 0 -> q_has_extra_limits q = true ->
    qstep t (mk_sys q f pu de) (mk_sys q (set_pc t (PushCheck buf pos) f) pu de)
| q_push_head q f pu de buf pos :
    f t = PushCheck buf pos ->
    qstep t (mk_sys q f pu de) (mk_sys q (set_pc t (PushSize buf pos (q_head q)) f) pu de)
| q_push_room q f pu de buf pos head :
    f t = PushSize buf pos head -> too_many q head = false ->
    qstep t (mk_sys q f pu de) (mk_sys q (set_pc t (PushCas buf pos) f) pu de)
| q_push_over q f pu de buf pos head :
    f t = PushSize buf pos head -> too_many q head || others_limited q = true ->
    qstep t (mk_sys q f pu de) (mk_sys q (set_pc t (PushWait buf) f) pu de)
| q_push_blocked q f pu de buf pos :
    f t = PushLoop buf pos -> push_diff q pos < 0 ->
    qstep t (mk_sys q f pu de) (mk_sys q (set_pc t (PushWait buf) f) pu de)
| q_push_refused q f pu de buf :
    f t = PushWait buf -> qstep t (mk_sys q f pu de) (mk_sys q (set_pc t Idle f) pu de)
| q_push_woken q f pu de buf :
    f t = PushWait buf ->
    qstep t (mk_sys q f pu de) (mk_sys q (set_pc t (PushLoop buf (q_tail q)) f) pu de)
| q_push_behind q f pu de buf pos :
    f t = PushLoop buf pos -> 0 < push_diff q pos ->
    qstep t (mk_sys q f pu de) (mk_sys q (set_pc t (PushLoop buf (q_tail q)) f) pu de)
| q_push_claim q f pu de buf pos :
    f t = PushCas buf pos -> q_tail q = pos ->
    qstep t (mk_sys q f pu de)
      (mk_sys (with_indices q (q_head q) (u64 (pos + 1))) (set_pc t (PushWrite buf pos) f) (pu ++ [buf]) de)
| q_push_lost q f pu de buf pos :
    f t = PushCas buf pos ->
    qstep t (mk_sys q f pu de) (mk_sys q (set_pc t (PushLoop buf (q_tail q)) f) pu de)
| q_push_write q f pu de buf pos :
    f t = PushWrite buf pos ->
    qstep t (mk_sys q f pu de) (mk_sys (push_write q pos buf) (set_pc t (PushPublish buf pos) f) pu de)
| q_push_publish q f pu de buf pos :
    f t = PushPublish buf pos ->
    qstep t (mk_sys q f pu de) (mk_sys (push_publish q pos) (set_pc t Idle f) pu de)
| q_pop_start q f pu de :
    f t = Idle ->
    qstep t (mk_sys q f pu de) (mk_sys q (set_pc t (PopLoop (q_head q)) f) pu de)
| q_pop_ready q f pu de pos :
    f t = PopLoop pos -> pop_diff q pos = 0 ->
    qstep t (mk_sys q f pu de) (mk_sys q (set_pc t (PopCas pos) f) pu de)
| q_pop_blocked q f pu de pos :
    f t = PopLoop pos -> pop_diff q pos < 0 ->
    qstep t (mk_sys q f pu de) (mk_sys q (set_pc t PopWait f) pu de)
| q_pop_refused q f pu de :
    f t = PopWait -> qstep t (mk_sys q f pu de) (mk_sys q (set_pc t Idle f) pu de)
| q_pop_woken q f pu de :
    f t = PopWait ->
    qstep t (mk_sys q f pu de) (mk_sys q (set_pc t (PopLoop (q_head q)) f) pu de)
| q_pop_behind q f pu de pos :
    f t = PopLoop pos -> 0 < pop_diff q pos ->
    qstep t (mk_sys q f pu de) (mk_sys q (set_pc t (PopLoop (q_head q)) f) pu de)
| q_pop_claim q f pu de pos :
    f t = PopCas pos -> q_head q = pos ->
    qstep t (mk_sys q f pu de)
      (mk_sys (with_indices q (u64 (pos + 1)) (q_tail q)) (set_pc t (PopRead pos) f) pu de)
| q_pop_lost q f pu de pos :
    f t = PopCas pos ->
    qstep t (mk_sys q f pu de) (mk_sys q (set_pc t (PopLoop (q_head q)) f) pu de)
| q_pop_read q f pu de pos :
    f t = PopRead pos ->
    qstep t (mk_sys q f pu de)
      (mk_sys (pop_read q pos).2 (set_pc t (PopRelease pos (pop_read q pos).1) f) pu
         (de ++ [(pos, (pop_read q pos).1)]))
| q_pop_release q f pu de pos b :
    f t = PopRelease pos b ->
    qstep t (mk_sys q f pu de) (mk_sys (pop_release q pos) (set_pc t Idle f) pu de).

Definition any_step (s s' : system) : Prop := exists t, qstep t s s'.

Definition sys_start (q : zst_queue) : system := mk_sys q (fun _ => Idle) [] [].
