(* ===== verification/QueueSpec.v ===== *)
(** * The queue of one thread is a bounded list

    [zst_queue_push] and [zst_queue_pop] refine appending to and taking from a list
    whose length is limited by the ring and by the configured limits; the duration
    and size limits are functions of that list. *)

From S2P Require Import Prelude Pad Queue.

Local Open Scope Z_scope.

(** ** Capacities and masks *)

Definition cap_ok (c : Z) : Prop := exists k, 1 <= k <= 31 /\ c = 2 ^ k.

Lemma cap_bounds c : cap_ok c -> 2 <= c <= 2147483648.
Proof.
  intros (k & Hk & ->). split.
  - change 2 with (2 ^ 1) at 1. apply Z.pow_le_mono_r; lia.
  - change 2147483648 with (2 ^ 31). apply Z.pow_le_mono_r; lia.
Qed.

Lemma next_power_of_two_aux v :
  0 < v <= 2147483648 ->
  cap_ok (next_power_of_two v) /\ v <= next_power_of_two v /\
  forall k, 1 <= k -> v <= 2 ^ k -> next_power_of_two v <= 2 ^ k.
Proof.
  intros Hv. unfold next_power_of_two. rewrite (u32_small (v - 1)) by lia.
  destruct (Z.eqb_spec v 1) as [->|H1].
  { change (u32 (smear [1; 2; 4; 8; 16] (1 - 1) + 1)) with 1. cbn.
    split; [by exists 1|]. split; [lia|]. intros k Hk _. change 2 with (2 ^ 1) at 1.
    apply Z.pow_le_mono_r; lia. }
  rewrite smear32 by lia. replace (2 ^ (Z.log2 (v - 1) + 1) - 1 + 1) with (2 ^ (Z.log2 (v - 1) + 1)) by lia.
  pose proof (Z.log2_nonneg (v - 1)). pose proof (round_up_pow2 v ltac:(lia)) as Hr.
  pose proof (Z.log2_spec (v - 1) ltac:(lia)) as [Hl1 Hl2].
  assert (Z.log2 (v - 1) < 31) by (apply Z.log2_lt_pow2; [lia|]; change (2 ^ 31) with 2147483648; lia).
  assert (2 ^ (Z.log2 (v - 1) + 1) <= 2 ^ 31) by (apply Z.pow_le_mono_r; lia).
  change (2 ^ 31) with 2147483648 in *.
  rewrite u32_small by lia. assert (2 <= 2 ^ (Z.log2 (v - 1) + 1)).
  { change 2 with (2 ^ 1) at 1. apply Z.pow_le_mono_r; lia. }
  destruct (Z.ltb_spec (2 ^ (Z.log2 (v - 1) + 1)) 2); [lia|]. split; [|split; [lia|]].
  - exists (Z.log2 (v - 1) + 1). split; [lia|done].
  - intros k Hk Hvk. apply Z.pow_le_mono_r; [lia|].
    enough (Z.log2 (v - 1) < k) by lia. apply Z.log2_lt_pow2; lia.
Qed.

(** The capacity is the least power of two at or above the request, at least 2, as long as
    the request is at most 2^31; above that the increment wraps and the queue has two
    slots. *)
Theorem next_power_of_two_spec v :
  0 < v < 4294967296 ->
  (v <= 2147483648 ->
     cap_ok (next_power_of_two v) /\ v <= next_power_of_two v /\
     forall k, 1 <= k -> v <= 2 ^ k -> next_power_of_two v <= 2 ^ k) /\
  (2147483648 < v -> next_power_of_two v = 2).
Proof.
  intros Hv. split; intros Hle; [apply next_power_of_two_aux; lia|].
  unfold next_power_of_two. rewrite (u32_small (v - 1)), smear32 by lia.
  assert (Z.log2 (v - 1) = 31) as ->; [|done].
  apply Z.log2_unique; [lia|]. change (2 ^ 31) with 2147483648.
  change (2 ^ Z.succ 31) with 4294967296. lia.
Qed.

Lemma mask_mod q idx : cap_ok (q_capacity q) -> RING_MASK q idx = idx mod q_capacity q.
Proof. intros (k & Hk & E). unfold RING_MASK. rewrite E. apply land_ones_mod; lia. Qed.

(** Two positions less than a capacity apart share a slot only if they are equal. *)
Lemma mask_inj q i j :
  cap_ok (q_capacity q) -> Z.abs (i - j) < q_capacity q -> (RING_MASK q i =? RING_MASK q j) = (i =? j).
Proof.
  intros Hc Hd. rewrite !mask_mod by done. pose proof (cap_bounds _ Hc).
  destruct (Z.eqb_spec i j) as [->|Hne]; [apply Z.eqb_refl|]. apply Z.eqb_neq.
  intros E. apply Hne. pose proof (Z.div_mod i (q_capacity q) ltac:(lia)).
  pose proof (Z.div_mod j (q_capacity q) ltac:(lia)). rewrite E in *.
  destruct (Z.eq_dec (i / q_capacity q) (j / q_capacity q)) as [Eq|]; [rewrite Eq in *; lia|nia].
Qed.

Lemma mask_period q i : cap_ok (q_capacity q) -> RING_MASK q (i + q_capacity q) = RING_MASK q i.
Proof.
  intros Hc. rewrite !mask_mod by done. pose proof (cap_bounds _ Hc).
  rewrite <-Zplus_mod_idemp_r, Z_mod_same_full. by rewrite Z.add_0_r.
Qed.

(** ** The specification *)

Definition total_bytes (l : list zst_buffer) : Z := foldr (fun b n => mem_size b + n) 0 l.
Definition total_duration (l : list zst_buffer) : Z := foldl (fun n b => u64 (n + buf_duration b)) 0 l.

(** The time the queue spans: from the first to the last timestamp when they are usable,
    else the sum of the durations. *)
Definition spec_duration (l : list zst_buffer) : Z :=
  match head l, last l with
  | Some b0, Some b1 =>
      if (buf_pts b0 <=? buf_pts b1) && negb (buf_pts b0 =? 0) then buf_pts b1 - buf_pts b0
      else total_duration l
  | _, _ => 0
  end.

Definition spec_full (cfg : zst_queue_config_t) (l : list zst_buffer) : bool :=
  ((0 <? cfg_max_buffers cfg) && (cfg_max_buffers cfg <=? zlen l))
  || ((0 <? cfg_max_bytes cfg) && (cfg_max_bytes cfg <=? u64 (total_bytes l)))
  || ((0 <? cfg_max_duration cfg) && (cfg_max_duration cfg <=? spec_duration l)).

(** Positions stay below this bound: 146 years at a thousand million buffers a second. *)
Definition MAX_POS : Z := 4611686018427387904.

Definition written (b : zst_buffer) (pos : Z) : zst_queue_slot_t :=
  mk_slot (Some b) (pos + 1) (buf_pts b) (buf_duration b).

(** The queue holds [l], oldest first. *)
Record holds (q : zst_queue) (l : list zst_buffer) : Prop := {
  h_cap : cap_ok (q_capacity q);
  h_head : 0 <= q_head q;
  h_tail : q_tail q = q_head q + zlen l;
  h_max : q_tail q < MAX_POS;
  h_len : zlen l <= q_capacity q;
  h_full : forall i b, l !! i = Some b ->
             slot_of q (q_head q + Z.of_nat i) = written b (q_head q + Z.of_nat i);
  h_free : forall p, q_tail q <= p < q_head q + q_capacity q -> slot_sequence (slot_of q p) = p;
  h_bytes : q_approx_bytes q = u64 (total_bytes l);
}.

Lemma s64_diff a b : 0 <= a < 2 * MAX_POS -> 0 <= b < 2 * MAX_POS -> s64 (s64 a - s64 b) = a - b.
Proof. unfold MAX_POS. cint. Qed.

Lemma holds_size q l : holds q l -> zst_queue_size (Some q) = zlen l.
Proof.
  intros []. pose proof (cap_bounds _ h_cap0). unfold zst_queue_size, size_between. pose proof (zlen_nonneg l).
  rewrite s64_diff by (unfold MAX_POS in *; lia). replace (q_tail q - q_head q) with (zlen l) by lia.
  destruct (Z.ltb_spec (zlen l) 0); [lia|]. apply u32_small. lia.
Qed.

(** ** The measured duration *)

Lemma u64_pos p : 0 <= p < 2 * MAX_POS -> u64 p = p.
Proof. unfold MAX_POS. intros. apply u64_small. lia. Qed.

Lemma holds_written q l i b :
  holds q l -> l !! i = Some b ->
  (slot_sequence (slot_of q (q_head q + Z.of_nat i)) =? u64 (q_head q + Z.of_nat i + 1)) = true /\
  slot_pts (slot_of q (q_head q + Z.of_nat i)) = buf_pts b /\
  slot_duration (slot_of q (q_head q + Z.of_nat i)) = buf_duration b.
Proof.
  intros Hh Hi. rewrite (h_full _ _ Hh i b Hi). cbn. split; [|done].
  pose proof (h_head _ _ Hh). pose proof (h_max _ _ Hh). pose proof (h_tail _ _ Hh).
  apply lookup_lt_Some in Hi. unfold zlen in *. rewrite u64_pos by (unfold MAX_POS in *; lia).
  apply Z.eqb_refl.
Qed.

Lemma sum_durations_spec q l k i sum :
  holds q l -> (i + k = length l)%nat ->
  sum_durations k q (q_head q + Z.of_nat i) sum = foldl (fun n b => u64 (n + buf_duration b)) sum (drop i l).
Proof.
  intros Hh. revert i sum. induction k as [|k IH]; intros i sum Hk; cbn [sum_durations].
  { rewrite drop_ge by lia. done. }
  destruct (lookup_lt_is_Some_2 l i ltac:(lia)) as [b Hb].
  destruct (holds_written q l i b Hh Hb) as (-> & _ & ->).
  rewrite (drop_S l b i Hb). cbn [foldl].
  replace (q_head q + Z.of_nat i + 1) with (q_head q + Z.of_nat (S i)) by lia. apply IH. lia.
Qed.

Lemma holds_duration q l : holds q l -> zst_queue_get_duration q = spec_duration l.
Proof.
  intros Hh. pose proof (h_tail _ _ Hh) as Ht. unfold zst_queue_get_duration, spec_duration.
  destruct l as [|b0 l].
  { rewrite zlen_nil in Ht. destruct (Z.leb_spec (q_tail q) (q_head q)); [done|lia]. }
  set (l' := b0 :: l) in *. assert (Hl : (0 < length l')%nat) by (unfold l'; simpl; lia).
  unfold zlen in Ht. destruct (Z.leb_spec (q_tail q) (q_head q)); [lia|].
  destruct (last_is_Some l') as [_ [b1 Hb1]]; [done|]. rewrite Hb1. cbn [head l'].
  replace (Z.to_nat (q_tail q - q_head q)) with (S (length l)) by (unfold l' in *; simpl in *; lia).
  cbn [find_written_up]. pose proof (holds_written q l' 0 b0 Hh eq_refl) as (E1 & E2 & _).
  rewrite Z.add_0_r in *. rewrite E1, E2. cbv zeta.
  replace (Z.to_nat (q_tail q - q_head q)) with (S (length l)) by (unfold l' in *; simpl in *; lia).
  cbn [find_written_down]. rewrite last_lookup in Hb1.
  pose proof (holds_written q l' _ b1 Hh Hb1) as (E3 & E4 & _).
  replace (q_head q + Z.of_nat (Nat.pred (length l'))) with (q_tail q - 1) in * by lia.
  rewrite E3, E4. destruct (_ && _); [done|].
  pose proof (sum_durations_spec q l' (length l') 0 0 Hh ltac:(lia)) as Hs.
  rewrite Z.add_0_r, drop_0 in Hs. apply Hs.
Qed.

Lemma holds_is_full q l : holds q l -> zst_queue_is_full q = spec_full (q_cfg q) l.
Proof.
  intros Hh. unfold zst_queue_is_full, spec_full.
  by rewrite (holds_size q l), (holds_duration q l), (h_bytes _ _ Hh).
Qed.

(** ** Push and pop *)

(** The slot of [j] after an update of the slot of [i], for close positions. *)
Lemma slot_of_set q i j sl bytes :
  cap_ok (q_capacity q) -> Z.abs (j - i) < q_capacity q ->
  slot_of (with_ring q (set_slot q i sl) bytes) j = if j =? i then sl else slot_of q j.
Proof.
  intros Hc Hd. unfold slot_of at 1. cbn [with_ring q_ring]. unfold set_slot.
  change (RING_MASK (with_ring q _ bytes) j) with (RING_MASK q j). by rewrite mask_inj.
Qed.

Lemma slot_of_indices q h t j : slot_of (with_indices q h t) j = slot_of q j.
Proof. done. Qed.

Lemma holds_push_diff q l : holds q l -> push_diff q (q_tail q) = if zlen l =? q_capacity q then 1 - q_capacity q else 0.
Proof.
  intros Hh. pose proof (cap_bounds _ (h_cap _ _ Hh)) as Hc. pose proof (h_head _ _ Hh).
  pose proof (h_tail _ _ Hh). pose proof (h_max _ _ Hh) as Hm. pose proof (h_len _ _ Hh).
  pose proof (zlen_nonneg l). unfold push_diff. unfold MAX_POS in Hm.
  destruct (Z.eqb_spec (zlen l) (q_capacity q)) as [E|E].
  - (* the slot is the one at the head, which is written *)
    assert (slot_sequence (slot_of q (q_tail q)) = q_head q + 1) as ->.
    { replace (q_tail q) with (q_head q + q_capacity q) by lia. unfold slot_of. rewrite mask_period by apply Hh.
      destruct l as [|b l]; [rewrite zlen_nil in *; lia|]. pose proof (h_full _ _ Hh 0%nat b eq_refl) as Hs.
      rewrite Z.add_0_r in Hs. unfold slot_of in Hs. by rewrite Hs. }
    rewrite s64_diff by (unfold MAX_POS; lia). lia.
  - rewrite (h_free _ _ Hh) by lia. rewrite s64_diff by (unfold MAX_POS; lia). lia.
Qed.

Lemma total_bytes_app l k : total_bytes (l ++ k) = total_bytes l + total_bytes k.
Proof.
  induction l as [|b l IH]; [done|].
  change (mem_size b + total_bytes (l ++ k) = mem_size b + total_bytes l + total_bytes k). lia.
Qed.

Lemma push_holds q l b :
  holds q l -> zlen l < q_capacity q -> q_tail q + 1 < MAX_POS ->
  holds (push_publish (push_write (with_indices q (q_head q) (u64 (q_tail q + 1))) (q_tail q) b) (q_tail q))
    (l ++ [b]).
Proof.
  intros Hh Hl Hm. pose proof (cap_bounds _ (h_cap _ _ Hh)) as Hc. pose proof (h_head _ _ Hh).
  pose proof (h_tail _ _ Hh) as Ht. pose proof (zlen_nonneg l). unfold MAX_POS in Hm.
  rewrite u64_pos by (unfold MAX_POS; lia).
  set (q1 := with_indices q (q_head q) (q_tail q + 1)).
  set (q2 := push_write q1 (q_tail q) b).
  assert (Hslot : forall j, Z.abs (j - q_tail q) < q_capacity q ->
    slot_of (push_publish q2 (q_tail q)) j = if j =? q_tail q then written b (q_tail q) else slot_of q j).
  { intros j Hj. unfold push_publish. rewrite slot_of_set by (exact (h_cap _ _ Hh) || exact Hj).
    destruct (Z.eqb_spec j (q_tail q)) as [->|Hne].
    - unfold q2, push_write. rewrite slot_of_set by (exact (h_cap _ _ Hh) || (cbn; lia)).
      rewrite Z.eqb_refl. cbn. rewrite u64_pos by (unfold MAX_POS; lia). done.
    - unfold q2, push_write. rewrite slot_of_set by (exact (h_cap _ _ Hh) || exact Hj).
      rewrite (proj2 (Z.eqb_neq _ _) Hne). done. }
  constructor.
  - apply Hh.
  - cbn. lia.
  - cbn. rewrite zlen_app, zlen_cons, zlen_nil. lia.
  - cbn. unfold MAX_POS. lia.
  - cbn. rewrite zlen_app, zlen_cons, zlen_nil. lia.
  - intros i x Hi. change (q_head (push_publish q2 (q_tail q))) with (q_head q).
    apply lookup_app_Some in Hi as [Hi|[Hge Hi]].
    + assert (Z.of_nat i < zlen l) by (apply lookup_lt_Some in Hi; unfold zlen; lia).
      rewrite Hslot by lia. rewrite (proj2 (Z.eqb_neq _ _)) by lia. by apply (h_full _ _ Hh).
    + assert (i = length l) as -> by (apply lookup_lt_Some in Hi; simpl in Hi; lia).
      rewrite Nat.sub_diag in Hi. injection Hi as <-. fold (zlen l). rewrite <-Ht.
      rewrite Hslot by lia. by rewrite Z.eqb_refl.
  - intros p Hp. change (q_head (push_publish q2 (q_tail q))) with (q_head q) in Hp.
    change (q_tail (push_publish q2 (q_tail q))) with (q_tail q + 1) in Hp.
    change (q_capacity (push_publish q2 (q_tail q))) with (q_capacity q) in Hp.
    rewrite Hslot by lia. rewrite (proj2 (Z.eqb_neq _ _)) by lia. apply (h_free _ _ Hh). lia.
  - change (u64 (q_approx_bytes q + mem_size b) = u64 (total_bytes (l ++ [b]))).
    rewrite total_bytes_app, (h_bytes _ _ Hh). cbn [total_bytes foldr]. cint.
Qed.

Lemma push_refines_aux q l b timeout_ms :
  holds q l -> q_tail q + 1 < MAX_POS ->
  if (zlen l =? q_capacity q) || (q_has_extra_limits q && spec_full (q_cfg q) l) then
    zst_queue_push (Some q) (Some b) timeout_ms =
    match wait_alone (cfg_mode (q_cfg q)) timeout_ms with Some ret => Some (ret, Some q) | None => None end
  else exists q', zst_queue_push (Some q) (Some b) timeout_ms = Some (ZST_OK, Some q') /\ holds q' (l ++ [b]).
Proof.
  intros Hh Hm. pose proof (cap_bounds _ (h_cap _ _ Hh)) as Hc. pose proof (h_len _ _ Hh).
  unfold zst_queue_push. rewrite (holds_push_diff q l Hh), (holds_is_full q l Hh).
  destruct (Z.eqb_spec (zlen l) (q_capacity q)) as [E|E]; cbn [orb].
  - destruct (Z.ltb_spec 0 (1 - q_capacity q)); [lia|]. destruct (Z.ltb_spec (1 - q_capacity q) 0); [done|lia].
  - change (0 <? 0) with false. cbn [orb]. destruct (q_has_extra_limits q && spec_full (q_cfg q) l); [done|].
    eexists. split; [done|]. apply push_holds; [done|lia|done].
Qed.

(** C38. Pushing appends to the list, unless the ring is full or a configured limit is
    reached; then an asynchronous queue refuses, a synchronous one waits out the
    timeout, and nothing changes. *)
Theorem push_refines q l b timeout_ms :
  holds q l -> q_tail q + 1 < MAX_POS ->
  if (zlen l =? q_capacity q) || (q_has_extra_limits q && spec_full (q_cfg q) l) then
    zst_queue_push (Some q) (Some b) timeout_ms =
    match wait_alone (cfg_mode (q_cfg q)) timeout_ms with Some ret => Some (ret, Some q) | None => None end
  else exists q', zst_queue_push (Some q) (Some b) timeout_ms = Some (ZST_OK, Some q') /\ holds q' (l ++ [b]).
Proof. apply push_refines_aux. Qed.

Lemma holds_pop_diff q l : holds q l -> pop_diff q (q_head q) = match l with [] => -1 | _ => 0 end.
Proof.
  intros Hh. pose proof (cap_bounds _ (h_cap _ _ Hh)) as Hc. pose proof (h_head _ _ Hh).
  pose proof (h_tail _ _ Hh) as Ht. pose proof (h_max _ _ Hh) as Hm. unfold pop_diff. unfold MAX_POS in Hm.
  pose proof (zlen_nonneg l). rewrite u64_pos by (unfold MAX_POS; lia). destruct l as [|b l].
  - rewrite zlen_nil in Ht. rewrite (h_free _ _ Hh) by lia. rewrite s64_diff by (unfold MAX_POS; lia). lia.
  - pose proof (h_full _ _ Hh 0%nat b eq_refl) as Hs. rewrite Z.add_0_r in Hs. rewrite Hs.
    cbn [written slot_sequence]. rewrite s64_diff by (unfold MAX_POS; lia). lia.
Qed.

Lemma pop_holds q b l :
  holds q (b :: l) ->
  let q1 := with_indices q (u64 (q_head q + 1)) (q_tail q) in
  (pop_read q1 (q_head q)).1 = Some b /\ holds (pop_release (pop_read q1 (q_head q)).2 (q_head q)) l.
Proof.
  intros Hh. pose proof (cap_bounds _ (h_cap _ _ Hh)) as Hc. pose proof (h_head _ _ Hh).
  pose proof (h_tail _ _ Hh) as Ht. pose proof (h_max _ _ Hh) as Hm. pose proof (h_len _ _ Hh) as Hlen.
  unfold MAX_POS in Hm. pose proof (zlen_nonneg l). rewrite zlen_cons in *.
  rewrite u64_pos by (unfold MAX_POS; lia). cbv zeta.
  set (q1 := with_indices q (q_head q + 1) (q_tail q)). unfold pop_read. cbn [fst snd].
  assert (Hb : slot_buf (slot_of q1 (q_head q)) = Some b).
  { unfold q1. rewrite slot_of_indices. pose proof (h_full _ _ Hh 0%nat b eq_refl) as Hs.
    rewrite Z.add_0_r in Hs. by rewrite Hs. }
  rewrite Hb. split; [done|].
  set (q2 := with_ring q1 _ _).
  assert (Hslot : forall j, Z.abs (j - q_head q) < q_capacity q ->
    slot_of (pop_release q2 (q_head q)) j =
    if j =? q_head q then mk_slot None (q_head q + q_capacity q) 0 0 else slot_of q j).
  { intros j Hj. unfold pop_release. rewrite slot_of_set by (exact (h_cap _ _ Hh) || exact Hj).
    destruct (Z.eqb_spec j (q_head q)) as [->|Hne].
    - unfold q2. rewrite slot_of_set by (exact (h_cap _ _ Hh) || (cbn; lia)).
      rewrite Z.eqb_refl. cbn. rewrite u64_pos by (unfold MAX_POS; lia). done.
    - unfold q2. rewrite slot_of_set by (exact (h_cap _ _ Hh) || exact Hj).
      rewrite (proj2 (Z.eqb_neq _ _) Hne). done. }
  constructor.
  - apply Hh.
  - cbn. lia.
  - cbn. lia.
  - cbn. unfold MAX_POS. lia.
  - cbn. lia.
  - intros i x Hi. change (q_head (pop_release q2 (q_head q))) with (q_head q + 1).
    assert (Z.of_nat i < zlen l) by (apply lookup_lt_Some in Hi; unfold zlen; lia).
    replace (q_head q + 1 + Z.of_nat i) with (q_head q + Z.of_nat (S i)) by lia.
    rewrite Hslot by lia. rewrite (proj2 (Z.eqb_neq _ _)) by lia. by apply (h_full _ _ Hh).
  - intros p Hp. change (q_head (pop_release q2 (q_head q))) with (q_head q + 1) in Hp.
    change (q_tail (pop_release q2 (q_head q))) with (q_tail q) in Hp.
    change (q_capacity (pop_release q2 (q_head q))) with (q_capacity q) in Hp.
    destruct (Z.eqb_spec p (q_head q + q_capacity q)) as [->|].
    + assert (slot_of (pop_release q2 (q_head q)) (q_head q + q_capacity q) =
              slot_of (pop_release q2 (q_head q)) (q_head q)) as ->
        by (unfold slot_of; f_equal; apply (mask_period q), Hh).
      rewrite Hslot by lia. by rewrite Z.eqb_refl.
    + rewrite Hslot by lia. rewrite (proj2 (Z.eqb_neq _ _)) by lia. apply (h_free _ _ Hh). lia.
  - change (u64 (q_approx_bytes q - mem_size b) = u64 (total_bytes l)).
    rewrite (h_bytes _ _ Hh). change (total_bytes (b :: l)) with (mem_size b + total_bytes l). cint.
Qed.

Lemma pop_refines_aux q l timeout_ms :
  holds q l ->
  match l with
  | [] => zst_queue_pop (Some q) timeout_ms =
          match wait_alone ZST_QUEUE_SYNC timeout_ms with Some ret => Some (ret, None, Some q) | None => None end
  | b :: l => exists q', zst_queue_pop (Some q) timeout_ms = Some (ZST_OK, Some b, Some q') /\ holds q' l
  end.
Proof.
  intros Hh. unfold zst_queue_pop. rewrite (holds_pop_diff q l Hh). destruct l as [|b l]; [done|].
  change (0 <? 0) with false. cbv iota. change (0 =? 0) with true. cbv iota.
  pose proof (pop_holds q b l Hh) as [E Hp]. cbv zeta in E, Hp.
  destruct (pop_read _ (q_head q)) as [x q2]. cbn [fst snd] in *. subst x. by eexists.
Qed.

(** Popping takes the oldest buffer; an empty queue makes it wait, and changes nothing. *)
Theorem pop_refines q l timeout_ms :
  holds q l ->
  match l with
  | [] => zst_queue_pop (Some q) timeout_ms =
          match wait_alone ZST_QUEUE_SYNC timeout_ms with Some ret => Some (ret, None, Some q) | None => None end
  | b :: l => exists q', zst_queue_pop (Some q) timeout_ms = Some (ZST_OK, Some b, Some q') /\ holds q' l
  end.
Proof. apply pop_refines_aux. Qed.

Lemma create_holds_aux `{CMemoryOk} cfg :
  0 <= cfg_max_buffers cfg <= 2147483648 ->
  exists q, zst_queue_create (Some cfg) = Some q /\ holds q [] /\ q_cfg q = cfg /\
            cfg_max_buffers cfg <= q_capacity q /\
            (q_has_extra_limits q = false -> cfg_max_buffers cfg = 0 \/ cfg_max_buffers cfg = q_capacity q).
Proof.
  intros Hcfg. unfold zst_queue_create.
  change (default default_qcfg (Some cfg)) with cfg. rewrite malloc_total. cbv zeta.
  set (n := if 0 <? cfg_max_buffers cfg then cfg_max_buffers cfg else 16).
  assert (Hn : 0 < n <= 2147483648) by (unfold n; destruct (Z.ltb_spec 0 (cfg_max_buffers cfg)); lia).
  assert (Hcap : cap_ok (next_power_of_two n) /\ n <= next_power_of_two n).
  { destruct (Z.ltb_spec n 1); [lia|]. 
    pose proof (next_power_of_two_aux n ltac:(lia)) as (? & ? & _). done. }
  destruct Hcap as [Hcap Hle]. pose proof (cap_bounds _ Hcap) as Hcb.
  eexists. split; [done|]. cbn [q_cfg q_capacity q_has_extra_limits].
  assert (Hcn : cfg_max_buffers cfg <= n) by (unfold n; destruct (Z.ltb_spec 0 (cfg_max_buffers cfg)); lia).
  split_and!; [|done|lia|].
  - constructor; cbn [q_capacity q_head q_tail q_approx_bytes]; try done; try (unfold zlen; simpl; lia).
    + intros p Hp. unfold slot_of. cbn [q_ring slot_sequence].
      rewrite mask_mod by done. cbn [q_capacity]. apply Z.mod_small. lia.
  - intros Hx. apply orb_false_iff in Hx as [_ Hx]. apply andb_false_iff in Hx as [Hx|Hx].
    + apply Z.ltb_ge in Hx. left. lia.
    + apply Z.ltb_ge in Hx. right. lia.
Qed.

(** A new queue is empty, with room for at least the buffers asked for. *)
Theorem create_holds `{CMemoryOk} cfg :
  0 <= cfg_max_buffers cfg <= 2147483648 ->
  exists q, zst_queue_create (Some cfg) = Some q /\ holds q [] /\ q_cfg q = cfg /\
            cfg_max_buffers cfg <= q_capacity q /\
            (q_has_extra_limits q = false -> cfg_max_buffers cfg = 0 \/ cfg_max_buffers cfg = q_capacity q).
Proof. apply create_holds_aux. Qed.

(** Flushing takes every buffer out, oldest first, and ends. *)
Theorem flush_empties fuel q l :
  holds q l -> (length l < fuel)%nat ->
  exists q', zst_queue_flush fuel (Some q) = Some (map Some l, Some q') /\ holds q' [].
Proof.
  revert q l. induction fuel as [|fuel IH]; intros q l Hh Hl; [lia|]. cbn [zst_queue_flush].
  pose proof (pop_refines_aux q l 0 Hh) as Hp. destruct l as [|b l].
  - rewrite Hp. by exists q.
  - destruct Hp as (q1 & -> & Hh1). change (ZST_OK =? ZST_OK) with true. cbv iota.
    simpl in Hl. destruct (IH q1 l Hh1 ltac:(lia)) as (q' & -> & Hh'). by exists q'.
Qed.

(** ** The theorems at concrete inputs *)

Definition sample_cfg : zst_queue_config_t := mk_qcfg ZST_QUEUE_ASYNC 2 0 0.
Definition sample_item (n : Z) : zst_buffer := buffer_of ZST_BUFFER_USER 0 n n 1 [n].

Lemma sample_queue : exists q, @zst_queue_create ample_memory (Some sample_cfg) = Some q /\ holds q [] /\
  q_tail q = 0 /\ q_capacity q = 2 /\ q_has_extra_limits q = false.
Proof.
  destruct (@create_holds_aux _ ample_memory_ok sample_cfg) as (q & E & Hh & _); [cbn; lia|].
  exists q. split; [done|]. split; [done|]. by injection E as <-.
Qed.

Lemma sample_queue_one : exists q, holds q [sample_item 7].
Proof.
  destruct sample_queue as (q & _ & Hh & Ht & Hc & He).
  pose proof (push_refines_aux q [] (sample_item 7) 0 Hh ltac:(rewrite Ht; done)) as Hp.
  rewrite Hc, He in Hp. destruct Hp as (q' & _ & Hh'). by exists q'.
Qed.

Lemma next_power_of_two_spec_witness :
  cap_ok (next_power_of_two 5) /\ 5 <= next_power_of_two 5 /\
  next_power_of_two 2147483649 = 2.
Proof.
  destruct (next_power_of_two_spec 5) as [H5 _]; [lia|]. destruct (H5 ltac:(lia)) as (H1 & H2 & _).
  split; [exact H1|]. split; [exact H2|]. apply (next_power_of_two_spec 2147483649); lia.
Defined.

Lemma push_refines_witness :
  exists q q', zst_queue_push (Some q) (Some (sample_item 7)) 0 = Some (ZST_OK, Some q') /\
    holds q' [sample_item 7].
Proof.
  destruct sample_queue as (q & _ & Hh & Ht & Hc & He).
  pose proof (push_refines q [] (sample_item 7) 0 Hh ltac:(rewrite Ht; reflexivity)) as Hp.
  rewrite Hc, He in Hp. exists q. exact Hp.
Defined.

Lemma pop_refines_witness :
  exists q q', zst_queue_pop (Some q) 0 = Some (ZST_OK, Some (sample_item 7), Some q') /\ holds q' [].
Proof. destruct sample_queue_one as [q Hh]. exists q. exact (pop_refines q _ 0 Hh). Defined.

Lemma create_holds_witness :
  exists q, @zst_queue_create ample_memory (Some sample_cfg) = Some q /\ holds q [] /\ 2 <= q_capacity q.
Proof.
  destruct (@create_holds _ ample_memory_ok sample_cfg) as (q & E & Hh & _ & Hc & _);
    [vm_compute; split; discriminate|].
  exists q. split; [exact E|]. split; [exact Hh|exact Hc].
Defined.

Lemma flush_empties_witness :
  exists q q', zst_queue_flush 2 (Some q) = Some ([Some (sample_item 7)], Some q') /\ holds q' [].
Proof.
  destruct sample_queue_one as [q Hh]. exists q.
  apply (flush_empties 2 q [sample_item 7] Hh). apply Nat.lt_1_2.
Defined.
