(* ===== verification/QueueConc.v ===== *)
(** * The queue under any interleaving

    An invariant of the atomic steps of [push] and [pop]: which positions are being
    written, are full, are being read or are free, and what each thread knows.  From
    it: every buffer accepted is delivered at most once, to the thread that claimed
    its position, positions being claimed in the order the buffers were accepted;
    and the ring is never overfull. *)

From S2P Require Import Prelude Pad Queue QueueSpec.

Local Open Scope Z_scope.

(** The position a thread has claimed. *)
Definition push_pos (c : pc) : option Z :=
  match c with PushWrite _ p | PushPublish _ p => Some p | _ => None end.
Definition pop_pos (c : pc) : option Z :=
  match c with PopRead p | PopRelease p _ => Some p | _ => None end.
Definition read_pos (c : pc) : option Z := match c with PopRead p => Some p | _ => None end.

Definition pushing (f : nat -> pc) (p : Z) : Prop := exists t, push_pos (f t) = Some p.
Definition popping (f : nat -> pc) (p : Z) : Prop := exists t, pop_pos (f t) = Some p.

(** The buffer accepted at position [p]. *)
Definition accepted_at (pu : list zst_buffer) (p : Z) : option zst_buffer := pu !! Z.to_nat p.

Definition seq_at (q : zst_queue) (p : Z) : Z := slot_sequence (slot_of q p).

(** The slot of [p], for the last [capacity] positions claimed at [tail]. *)
Definition slot_ok (q : zst_queue) (f : nat -> pc) (pu : list zst_buffer) (p : Z) : Prop :=
  if p <? 0 then seq_at q p = p + q_capacity q
  else if q_head q <=? p then
    (pushing f p /\ seq_at q p = p) \/
    (~ pushing f p /\ seq_at q p = p + 1 /\ slot_buf (slot_of q p) = accepted_at pu p)
  else (popping f p /\ seq_at q p = p + 1) \/ (~ popping f p /\ seq_at q p = p + q_capacity q).

Definition max_buffers (q : zst_queue) : Z := cfg_max_buffers (q_cfg q).

(** What a thread knows. *)
Definition thread_ok (q : zst_queue) (pu : list zst_buffer) (c : pc) : Prop :=
  match c with
  | Idle | PushWait _ | PopWait => True
  | PushLoop _ p => 0 <= p <= q_tail q
  | PushCheck _ p => 0 <= p <= q_tail q /\ (p = q_tail q -> seq_at q p = p)
  | PushSize _ p h =>
      0 <= p <= q_tail q /\ Z.max 0 (p - q_capacity q) <= h <= q_head q /\ (p = q_tail q -> seq_at q p = p)
  | PushCas _ p =>
      0 <= p <= q_tail q /\
      (p = q_tail q -> seq_at q p = p /\ (0 < max_buffers q -> q_tail q - q_head q < max_buffers q))
  | PushWrite b p => 0 <= p /\ q_head q <= p < q_tail q /\ accepted_at pu p = Some b
  | PushPublish b p =>
      0 <= p /\ q_head q <= p < q_tail q /\ accepted_at pu p = Some b /\
      slot_buf (slot_of q p) = Some b
  | PopLoop p => 0 <= p <= q_head q
  | PopCas p => 0 <= p <= q_head q /\ (p = q_head q -> seq_at q p = p + 1)
  | PopRead p =>
      0 <= p /\ q_tail q - q_capacity q <= p < q_head q /\ slot_buf (slot_of q p) = accepted_at pu p
  | PopRelease p b => 0 <= p /\ q_tail q - q_capacity q <= p < q_head q /\ b = accepted_at pu p
  end.

Record inv (s : system) : Prop := {
  i_cap : cap_ok (q_capacity (sys_q s));
  i_head : 0 <= q_head (sys_q s) <= q_tail (sys_q s);
  i_room : q_tail (sys_q s) <= q_head (sys_q s) + q_capacity (sys_q s);
  i_extra : q_has_extra_limits (sys_q s) = false ->
              max_buffers (sys_q s) = 0 \/ max_buffers (sys_q s) = q_capacity (sys_q s);
  i_limit : 0 < max_buffers (sys_q s) -> q_tail (sys_q s) - q_head (sys_q s) <= max_buffers (sys_q s);
  i_pushed : q_tail (sys_q s) = zlen (sys_pushed s);
  i_slots : forall p, q_tail (sys_q s) - q_capacity (sys_q s) <= p < q_tail (sys_q s) ->
              slot_ok (sys_q s) (sys_pc s) (sys_pushed s) p;
  i_threads : forall t, thread_ok (sys_q s) (sys_pushed s) (sys_pc s t);
  i_push_one : forall t t' p, push_pos (sys_pc s t) = Some p -> push_pos (sys_pc s t') = Some p -> t = t';
  i_pop_one : forall t t' p, pop_pos (sys_pc s t) = Some p -> pop_pos (sys_pc s t') = Some p -> t = t';
  i_delivered : forall p b, (p, b) ∈ sys_delivered s ->
                  0 <= p < q_head (sys_q s) /\ b = accepted_at (sys_pushed s) p /\
                  forall t, read_pos (sys_pc s t) <> Some p;
  i_once : NoDup (map fst (sys_delivered s));
  i_all : forall p, 0 <= p < q_head (sys_q s) ->
            p ∈ map fst (sys_delivered s) \/ exists t, read_pos (sys_pc s t) = Some p;
}.

(** ** Basic facts *)

Lemma set_pc_eq t c f : set_pc t c f t = c.
Proof. unfold set_pc. by rewrite Nat.eqb_refl. Qed.

Lemma set_pc_ne t t' c f : t' <> t -> set_pc t c f t' = f t'.
Proof. unfold set_pc. intros. by rewrite (proj2 (Nat.eqb_neq _ _)). Qed.

Lemma set_pc_cases t t' c f : (t' = t /\ set_pc t c f t' = c) \/ (t' <> t /\ set_pc t c f t' = f t').
Proof.
  destruct (Nat.eq_dec t' t) as [->|]; [left; by rewrite set_pc_eq|right; by rewrite set_pc_ne].
Qed.

(** Changing the step of a thread changes what is claimed only for its positions. *)
Lemma claimed_set_pc (pos : pc -> option Z) t c f p :
  (exists t', pos (set_pc t c f t') = Some p) <->
  pos c = Some p \/ exists t', t' <> t /\ pos (f t') = Some p.
Proof.
  split.
  - intros [t' E]. destruct (set_pc_cases t t' c f) as [[-> Es]|[Hne Es]]; rewrite Es in E; [by left|].
    right. by exists t'.
  - intros [E|(t' & Hne & E)]; [exists t; by rewrite set_pc_eq|exists t'; by rewrite set_pc_ne].
Qed.

Lemma claimed_same (pos : pc -> option Z) t c f p :
  (pos c = Some p <-> pos (f t) = Some p) ->
  (exists t', pos (set_pc t c f t') = Some p) <-> (exists t', pos (f t') = Some p).
Proof.
  intros E. rewrite claimed_set_pc. split.
  - intros [?|(t' & _ & ?)]; [exists t; by apply E|by exists t'].
  - intros [t' ?]. destruct (Nat.eq_dec t' t) as [->|]; [left; by apply E|right; eauto].
Qed.

(** Every slot is that of one of the last [capacity] positions. *)
Lemma slot_rep q i :
  cap_ok (q_capacity q) ->
  exists p, q_tail q - q_capacity q <= p < q_tail q /\ RING_MASK q i = RING_MASK q p.
Proof.
  intros Hc. pose proof (cap_bounds _ Hc).
  exists (q_tail q - 1 - (q_tail q - 1 - i) mod q_capacity q).
  pose proof (Z.mod_pos_bound (q_tail q - 1 - i) (q_capacity q) ltac:(lia)). split; [lia|].
  rewrite !mask_mod by done.
  replace (q_tail q - 1 - (q_tail q - 1 - i) mod q_capacity q)
    with (i + ((q_tail q - 1 - i) / q_capacity q) * q_capacity q)
    by (pose proof (Z.div_mod (q_tail q - 1 - i) (q_capacity q)); lia).
  by rewrite Z_mod_plus_full.
Qed.

Lemma seq_bounds s i :
  inv s -> q_tail (sys_q s) < MAX_POS -> 0 <= seq_at (sys_q s) i < 2 * MAX_POS.
Proof.
  intros Hi Hm. destruct (slot_rep (sys_q s) i (i_cap _ Hi)) as (p & Hp & E).
  pose proof (cap_bounds _ (i_cap _ Hi)). pose proof (i_slots _ Hi p Hp) as Hs.
  pose proof (i_head _ Hi). unfold MAX_POS in *.
  assert (seq_at (sys_q s) i = seq_at (sys_q s) p) as -> by (unfold seq_at, slot_of; by rewrite E).
  unfold slot_ok in Hs. destruct (Z.ltb_spec p 0); [lia|].
  destruct (Z.leb_spec (q_head (sys_q s)) p); lia.
Qed.

Lemma push_diff_0 s p :
  inv s -> q_tail (sys_q s) < MAX_POS -> 0 <= p <= q_tail (sys_q s) ->
  push_diff (sys_q s) p = 0 -> seq_at (sys_q s) p = p.
Proof.
  intros Hi Hm Hp. pose proof (seq_bounds s p Hi Hm). unfold push_diff, seq_at in *.
  unfold MAX_POS in *. rewrite s64_diff by (unfold MAX_POS; lia). lia.
Qed.

Lemma pop_diff_0 s p :
  inv s -> q_tail (sys_q s) < MAX_POS -> 0 <= p <= q_tail (sys_q s) ->
  pop_diff (sys_q s) p = 0 -> seq_at (sys_q s) p = p + 1.
Proof.
  intros Hi Hm Hp. pose proof (seq_bounds s p Hi Hm). unfold pop_diff, seq_at in *.
  unfold MAX_POS in *. rewrite u64_pos by (unfold MAX_POS; lia).
  rewrite s64_diff by (unfold MAX_POS; lia). lia.
Qed.

(** A slot that a step leaves alone. *)
Lemma slot_ok_frame q q' f t c pu pu' p :
  slot_ok q f pu p -> slot_of q' p = slot_of q p -> q_capacity q' = q_capacity q ->
  (0 <= p -> (q_head q' <= p <-> q_head q <= p)) ->
  (push_pos c = Some p <-> push_pos (f t) = Some p) ->
  (pop_pos c = Some p <-> pop_pos (f t) = Some p) ->
  (0 <= p -> accepted_at pu' p = accepted_at pu p) ->
  slot_ok q' (set_pc t c f) pu' p.
Proof.
  unfold slot_ok, seq_at. intros Hs Eq Ec Eh E1%claimed_same E2%claimed_same Ea. rewrite Eq, Ec.
  destruct (Z.ltb_spec p 0); [done|]. rewrite Ea by lia. unfold pushing, popping in *.
  destruct (Z.leb_spec (q_head q) p), (Z.leb_spec (q_head q') p); try lia; by rewrite ?E1, ?E2.
Qed.

(** The claims of the other threads stay distinct. *)
Lemma one_owner (pos : pc -> option Z) t c f :
  (forall t1 t2 p, pos (f t1) = Some p -> pos (f t2) = Some p -> t1 = t2) ->
  (forall t' p, pos c = Some p -> pos (f t') = Some p -> t' = t) ->
  forall t1 t2 p, pos (set_pc t c f t1) = Some p -> pos (set_pc t c f t2) = Some p -> t1 = t2.
Proof.
  intros H1 Hc t1 t2 p.
  destruct (set_pc_cases t t1 c f) as [[-> ->]|[? ->]], (set_pc_cases t t2 c f) as [[-> ->]|[? ->]]; try done.
  - intros E1 E2. by destruct (Hc _ _ E1 E2).
  - intros E1 E2. by destruct (Hc _ _ E2 E1).
  - by apply H1.
Qed.

(** ** Steps that claim nothing *)

Definition claims_nothing (c : pc) : Prop := push_pos c = None /\ pop_pos c = None.

Lemma read_pop c p : read_pos c = Some p -> pop_pos c = Some p.
Proof. by destruct c. Qed.

Lemma inv_move q f pu de t c :
  inv (mk_sys q f pu de) -> claims_nothing (f t) -> claims_nothing c -> thread_ok q pu c ->
  inv (mk_sys q (set_pc t c f) pu de).
Proof.
  intros [] [F1 F2] [C1 C2] Hok. cbn in *.
  assert (Hread : forall t' p, read_pos (set_pc t c f t') = Some p <-> read_pos (f t') = Some p).
  { intros t' p. destruct (set_pc_cases t t' c f) as [[-> ->]|[_ ->]]; [|done].
    split; intros E%read_pop; congruence. }
  constructor; cbn; try done.
  - intros p Hp. apply slot_ok_frame with q pu; try done; try by (split; congruence). by apply i_slots0.
  - intros t'. by destruct (set_pc_cases t t' c f) as [[-> ->]|[_ ->]].
  - apply one_owner; [done|congruence].
  - apply one_owner; [done|congruence].
  - intros p b Hin. destruct (i_delivered0 p b Hin) as (? & ? & Hn). split_and!; try done; try lia.
    intros t' E%Hread. by eapply Hn.
  - intros p Hp. destruct (i_all0 p Hp) as [|[t' E]]; [by left|right]. exists t'. by apply Hread.
Qed.

(** ** The slots after each store *)

#[local] Arguments max_buffers : simpl never.
#[local] Arguments zst_queue_size : simpl never.
#[local] Arguments push_write : simpl never.
#[local] Arguments push_publish : simpl never.
#[local] Arguments pop_read : simpl never.
#[local] Arguments pop_release : simpl never.

(** The stores keep the indices and the capacity. *)
Ltac fields :=
  repeat match goal with
  | |- context [max_buffers (with_indices ?q ?h ?t)] =>
      change (max_buffers (with_indices q h t)) with (max_buffers q)
  | |- context [?p (push_write ?q ?i ?b)] => change (p (push_write q i b)) with (p q)
  | |- context [?p (push_publish ?q ?i)] => change (p (push_publish q i)) with (p q)
  | |- context [?p (pop_read ?q ?i).2] => change (p (pop_read q i).2) with (p q)
  | |- context [?p (pop_release ?q ?i)] => change (p (pop_release q i)) with (p q)
  end.

Lemma slot_write q pos b j :
  cap_ok (q_capacity q) -> Z.abs (j - pos) < q_capacity q -> j <> pos ->
  slot_of (push_write q pos b) j = slot_of q j.
Proof. intros. unfold push_write. rewrite slot_of_set by done. by rewrite (proj2 (Z.eqb_neq _ _)). Qed.

Lemma slot_publish q pos j :
  cap_ok (q_capacity q) -> Z.abs (j - pos) < q_capacity q -> j <> pos ->
  slot_of (push_publish q pos) j = slot_of q j.
Proof. intros. unfold push_publish. rewrite slot_of_set by done. by rewrite (proj2 (Z.eqb_neq _ _)). Qed.

Lemma slot_read q pos j :
  cap_ok (q_capacity q) -> Z.abs (j - pos) < q_capacity q -> j <> pos ->
  slot_of (pop_read q pos).2 j = slot_of q j.
Proof. intros. unfold pop_read. cbn [snd]. rewrite slot_of_set by done. by rewrite (proj2 (Z.eqb_neq _ _)). Qed.

Lemma slot_release q pos j :
  cap_ok (q_capacity q) -> Z.abs (j - pos) < q_capacity q -> j <> pos ->
  slot_of (pop_release q pos) j = slot_of q j.
Proof. intros. unfold pop_release. rewrite slot_of_set by done. by rewrite (proj2 (Z.eqb_neq _ _)). Qed.

(** Writing and reading a slot keep its sequence, everywhere. *)
Lemma seq_write q pos b j : seq_at (push_write q pos b) j = seq_at q j.
Proof.
  unfold seq_at, slot_of, push_write. cbn [with_ring q_ring]. unfold set_slot.
  change (RING_MASK (with_ring q _ _) j) with (RING_MASK q j).
  destruct (Z.eqb_spec (RING_MASK q j) (RING_MASK q pos)) as [->|]; done.
Qed.

Lemma seq_read q pos j : seq_at (pop_read q pos).2 j = seq_at q j.
Proof.
  unfold seq_at, slot_of, pop_read. cbn [snd with_ring q_ring]. unfold set_slot.
  change (RING_MASK (with_ring q _ _) j) with (RING_MASK q j).
  destruct (Z.eqb_spec (RING_MASK q j) (RING_MASK q pos)) as [->|]; done.
Qed.

(** Publishing and releasing keep the slot's buffer, everywhere. *)
Lemma buf_publish q pos j : slot_buf (slot_of (push_publish q pos) j) = slot_buf (slot_of q j).
Proof.
  unfold slot_of, push_publish. cbn [with_ring q_ring]. unfold set_slot.
  change (RING_MASK (with_ring q _ _) j) with (RING_MASK q j).
  destruct (Z.eqb_spec (RING_MASK q j) (RING_MASK q pos)) as [->|]; done.
Qed.

Lemma buf_release q pos j : slot_buf (slot_of (pop_release q pos) j) = slot_buf (slot_of q j).
Proof.
  unfold slot_of, pop_release. cbn [with_ring q_ring]. unfold set_slot.
  change (RING_MASK (with_ring q _ _) j) with (RING_MASK q j).
  destruct (Z.eqb_spec (RING_MASK q j) (RING_MASK q pos)) as [->|]; done.
Qed.

(** The slot updated, at its own position. *)
Lemma slot_of_self q pos sl bytes : slot_of (with_ring q (set_slot q pos sl) bytes) pos = sl.
Proof.
  unfold slot_of. cbn [with_ring q_ring]. unfold set_slot.
  change (RING_MASK (with_ring q _ bytes) pos) with (RING_MASK q pos). by rewrite Z.eqb_refl.
Qed.

Lemma buf_write_self q pos b : slot_buf (slot_of (push_write q pos b) pos) = Some b.
Proof. unfold push_write. by rewrite slot_of_self. Qed.

Lemma seq_publish_self q pos : seq_at (push_publish q pos) pos = u64 (pos + 1).
Proof. unfold seq_at, push_publish. by rewrite slot_of_self. Qed.

Lemma seq_release_self q pos : seq_at (pop_release q pos) pos = u64 (pos + q_capacity q).
Proof. unfold seq_at, pop_release. by rewrite slot_of_self. Qed.

(** ** What the sequence numbers exclude *)

(** The next position to write shares its slot with the oldest one of the window. *)
Lemma slot_tail q : cap_ok (q_capacity q) -> slot_of q (q_tail q) = slot_of q (q_tail q - q_capacity q).
Proof.
  intros Hc. unfold slot_of. f_equal. rewrite <-(mask_period q (q_tail q - q_capacity q)) by done.
  f_equal. lia.
Qed.

(** If the slot of [tail] is free, its last occupant has been read. *)
Lemma tail_free s :
  inv s -> let q := sys_q s in seq_at q (q_tail q) = q_tail q ->
  q_tail q - q_capacity q < q_head q /\ forall t, pop_pos (sys_pc s t) <> Some (q_tail q - q_capacity q).
Proof.
  intros Hi q E. pose proof (cap_bounds _ (i_cap _ Hi)) as Hc. fold q in Hc.
  pose proof (i_slots _ Hi (q_tail q - q_capacity q) ltac:(fold q; lia)) as Hs. fold q in Hs.
  pose proof (i_head _ Hi) as Hh. fold q in Hh.
  unfold seq_at in E. rewrite slot_tail in E by apply (i_cap _ Hi).
  assert (Hthr : forall t, pop_pos (sys_pc s t) = Some (q_tail q - q_capacity q) ->
            0 <= q_tail q - q_capacity q).
  { intros t Et. pose proof (i_threads _ Hi t) as Ht. destruct (sys_pc s t); simplify_eq/=; lia. }
  unfold slot_ok, seq_at in Hs. destruct (Z.ltb_spec (q_tail q - q_capacity q) 0).
  - split; [lia|]. intros t Et%Hthr. lia.
  - destruct (Z.leb_spec (q_head q) (q_tail q - q_capacity q)); [destruct Hs as [[_ ?]|(_ & ? & _)]; lia|].
    destruct Hs as [[_ ?]|[Hn _]]; [lia|]. split; [done|]. intros t Et. apply Hn. by exists t.
Qed.

(** If the slot of [head] is written, [head] is a full position. *)
Lemma head_full s :
  inv s -> let q := sys_q s in seq_at q (q_head q) = q_head q + 1 ->
  q_head q < q_tail q /\ ~ pushing (sys_pc s) (q_head q) /\
  slot_buf (slot_of q (q_head q)) = accepted_at (sys_pushed s) (q_head q).
Proof.
  intros Hi q E. pose proof (cap_bounds _ (i_cap _ Hi)) as Hc. fold q in Hc.
  pose proof (i_head _ Hi) as Hh. fold q in Hh.
  assert (q_head q < q_tail q).
  { destruct (Z.eqb_spec (q_head q) (q_tail q)) as [Eh|]; [|lia]. exfalso.
    pose proof (i_slots _ Hi (q_tail q - q_capacity q) ltac:(fold q; lia)) as Hs. fold q in Hs.
    rewrite Eh in E. unfold seq_at in E. rewrite slot_tail in E by apply (i_cap _ Hi).
    unfold slot_ok, seq_at in Hs. destruct (Z.ltb_spec (q_tail q - q_capacity q) 0); [lia|].
    destruct (Z.leb_spec (q_head q) (q_tail q - q_capacity q)); [lia|]. destruct Hs as [[_ ?]|[_ ?]]; lia. }
  split; [done|]. pose proof (i_room _ Hi) as Hr. fold q in Hr.
  pose proof (i_slots _ Hi (q_head q) ltac:(fold q; lia)) as Hs. unfold slot_ok in Hs. fold q in Hs.
  destruct (Z.ltb_spec (q_head q) 0); [lia|]. rewrite Z.leb_refl in Hs.
  destruct Hs as [[_ ?]|(? & _ & ?)]; [lia|done].
Qed.

Lemma push_pos_ok q pu c p : push_pos c = Some p -> thread_ok q pu c -> 0 <= p /\ q_head q <= p < q_tail q.
Proof. destruct c; simpl; intros ?; simplify_eq; tauto. Qed.

Lemma pop_pos_ok q pu c p :
  pop_pos c = Some p -> thread_ok q pu c -> 0 <= p /\ q_tail q - q_capacity q <= p < q_head q.
Proof. destruct c; simpl; intros ?; simplify_eq; tauto. Qed.

(** A position being written, resp. read, has its slot in that state. *)
Lemma pushing_seq s t p : inv s -> push_pos (sys_pc s t) = Some p -> seq_at (sys_q s) p = p.
Proof.
  intros Hi Ht. pose proof (push_pos_ok _ _ _ _ Ht (i_threads _ Hi t)) as [Hp0 Hp].
  pose proof (i_room _ Hi). pose proof (i_slots _ Hi p ltac:(lia)) as Hs. unfold slot_ok in Hs.
  destruct (Z.ltb_spec p 0); [lia|]. destruct (Z.leb_spec (q_head (sys_q s)) p); [|lia].
  destruct Hs as [[_ ?]|(Hn & _)]; [done|]. destruct Hn. by exists t.
Qed.

Lemma popping_seq s t p : inv s -> pop_pos (sys_pc s t) = Some p -> seq_at (sys_q s) p = p + 1.
Proof.
  intros Hi Ht. pose proof (pop_pos_ok _ _ _ _ Ht (i_threads _ Hi t)) as [Hp0 Hp].
  pose proof (i_head _ Hi). pose proof (i_slots _ Hi p ltac:(lia)) as Hs. unfold slot_ok in Hs.
  destruct (Z.ltb_spec p 0); [lia|]. destruct (Z.leb_spec (q_head (sys_q s)) p); [lia|].
  destruct Hs as [[_ ?]|[Hn _]]; [done|]. destruct Hn. by exists t.
Qed.

(** ** The stores of [push] *)

Lemma accepted_app pu b p : 0 <= p < zlen pu -> accepted_at (pu ++ [b]) p = accepted_at pu p.
Proof. unfold accepted_at, zlen. intros. apply lookup_app_l. lia. Qed.

Lemma accepted_last pu b : accepted_at (pu ++ [b]) (zlen pu) = Some b.
Proof. unfold accepted_at, zlen. rewrite Nat2Z.id. by apply list_lookup_middle. Qed.

(** What the other threads read is not disturbed by a step that reads nothing. *)
Lemma read_others t c f :
  read_pos c = None -> read_pos (f t) = None ->
  forall t' p, read_pos (set_pc t c f t') = Some p <-> read_pos (f t') = Some p.
Proof. intros Ec Ef t' p. destruct (set_pc_cases t t' c f) as [[-> ->]|[_ ->]]; [|done]. split; congruence. Qed.

Lemma inv_push_claim q f pu de t buf :
  inv (mk_sys q f pu de) -> f t = PushCas buf (q_tail q) -> q_tail q + 1 < MAX_POS ->
  inv (mk_sys (with_indices q (q_head q) (u64 (q_tail q + 1))) (set_pc t (PushWrite buf (q_tail q)) f)
         (pu ++ [buf]) de).
Proof.
  intros Hi Hft Hm. pose proof (i_threads _ Hi t) as Ht. cbn in Ht. rewrite Hft in Ht. cbn in Ht.
  destruct Ht as [HT Hk]. destruct (Hk eq_refl) as [Hseq Hmax]. destruct (tail_free _ Hi Hseq) as [Hroom Hfree].
  pose proof (read_others t (PushWrite buf (q_tail q)) f eq_refl ltac:(by rewrite Hft)) as Hread.
  destruct Hi as [Hcap Hhead Hrm Hext Hlim Hpu Hslots Hthr H1 H2 Hdel Honce Hall]. cbn in *.
  pose proof (cap_bounds _ Hcap). rewrite u64_pos by (unfold MAX_POS in *; lia).
  assert (Hnone : forall t', push_pos (f t') <> Some (q_tail q)).
  { intros t' E. pose proof (push_pos_ok _ _ _ _ E (Hthr t')). lia. }
  constructor; cbn; fields; try done; try lia.
  - rewrite zlen_app, zlen_cons, zlen_nil. lia.
  - intros p Hp. destruct (Z.eqb_spec p (q_tail q)) as [->|Hne].
    + unfold slot_ok. destruct (Z.ltb_spec (q_tail q) 0); [lia|]. cbn.
      destruct (Z.leb_spec (q_head q) (q_tail q)); [|lia]. left. split; [|done]. exists t. by rewrite set_pc_eq.
    + apply slot_ok_frame with q pu; try done; rewrite ?Hft; try (split; cbn; congruence).
      * apply Hslots. lia.
      * intros. apply accepted_app. lia.
  - intros t'. destruct (set_pc_cases t t' (PushWrite buf (q_tail q)) f) as [[-> ->]|[_ ->]].
    + cbn. split_and!; try lia. rewrite Hpu. apply accepted_last.
    + specialize (Hthr t'). specialize (Hfree t'). destruct (f t'); cbn in *; fields; try lia.
      all: rewrite ?accepted_app by lia; intuition lia || (assert (pos <> q_tail q - q_capacity q) by congruence; intuition lia).
  - apply one_owner; [done|]. cbn. intros t' p [= <-] E. by destruct (Hnone t').
  - apply one_owner; [done|]. by intros t' p.
  - intros p b Hin. destruct (Hdel p b Hin) as (? & -> & Hn). rewrite accepted_app by lia.
    split_and!; try done; try lia. intros t' E%Hread. by eapply Hn.
  - intros p Hp. destruct (Hall p Hp) as [|[t' E]]; [by left|right]. exists t'. by apply Hread.
Qed.

Lemma inv_push_write q f pu de t buf pos :
  inv (mk_sys q f pu de) -> f t = PushWrite buf pos ->
  inv (mk_sys (push_write q pos buf) (set_pc t (PushPublish buf pos) f) pu de).
Proof.
  intros Hi Hft. pose proof (i_threads _ Hi t) as Ht. cbn in Ht. rewrite Hft in Ht. destruct Ht as (Hp0 & Hpos & Hb).
  pose proof (pushing_seq _ t pos Hi ltac:(cbn; by rewrite Hft)) as Hseq.
  pose proof (read_others t (PushPublish buf pos) f eq_refl ltac:(by rewrite Hft)) as Hread.
  destruct Hi as [Hcap Hhead Hrm Hext Hlim Hpu Hslots Hthr H1 H2 Hdel Honce Hall]. cbn in *.
  pose proof (cap_bounds _ Hcap).
  constructor; cbn; fields; try done; try lia.
  - intros p Hp. destruct (Z.eqb_spec p pos) as [->|Hne].
    + unfold slot_ok. rewrite seq_write. fields. destruct (Z.ltb_spec pos 0); [lia|].
      destruct (Z.leb_spec (q_head q) pos); [|lia]. left. split; [|done]. exists t. by rewrite set_pc_eq.
    + apply slot_ok_frame with q pu; try done; rewrite ?Hft; try (split; cbn; congruence); [by apply Hslots|].
      apply slot_write; [done|lia|done].
  - intros t'. destruct (set_pc_cases t t' (PushPublish buf pos) f) as [[-> ->]|[Hne ->]].
    + cbn; fields. split_and!; try done; try lia. apply buf_write_self.
    + specialize (Hthr t'). pose proof (H1 t t') as Hone. rewrite Hft in Hone.
      destruct (f t') as [| | | | | | |b' p| | | |p|p b']; cbn in *; fields; rewrite ?seq_write; try done.
      * destruct Hthr as (? & ? & ? & ?). split_and!; try done; try lia.
        rewrite slot_write; [done|done|lia|]. intros ->. by apply Hne, eq_sym, (Hone pos).
      * destruct Hthr as (? & ? & ?). split_and!; try done; try lia.
        rewrite slot_write; [done|done|lia|lia].
  - apply one_owner; [done|]. cbn. intros t' p [= <-] E. apply (H1 t' t pos); [done|by rewrite Hft].
  - apply one_owner; [done|]. by intros t' p.
  - intros p b Hin. destruct (Hdel p b Hin) as (? & ? & Hn).
    split_and!; try done; try lia. intros t' E%Hread. by eapply Hn.
  - intros p Hp. destruct (Hall p Hp) as [|[t' E]]; [by left|right]. exists t'. by apply Hread.
Qed.

Lemma inv_push_publish q f pu de t buf pos :
  inv (mk_sys q f pu de) -> f t = PushPublish buf pos -> q_tail q < MAX_POS ->
  inv (mk_sys (push_publish q pos) (set_pc t Idle f) pu de).
Proof.
  intros Hi Hft Hm. pose proof (i_threads _ Hi t) as Ht. cbn in Ht. rewrite Hft in Ht.
  destruct Ht as (Hp0 & Hpos & Hb & Hslot).
  pose proof (pushing_seq _ t pos Hi ltac:(cbn; by rewrite Hft)) as Hseq.
  pose proof (read_others t Idle f eq_refl ltac:(by rewrite Hft)) as Hread.
  destruct Hi as [Hcap Hhead Hrm Hext Hlim Hpu Hslots Hthr H1 H2 Hdel Honce Hall]. cbn in *.
  pose proof (cap_bounds _ Hcap).
  assert (Htail : seq_at q (q_tail q) = q_tail q -> seq_at (push_publish q pos) (q_tail q) = q_tail q).
  { intros Hk. assert (pos <> q_tail q - q_capacity q).
    { intros ->. unfold seq_at in Hk, Hseq. rewrite slot_tail in Hk by done. lia. }
    unfold seq_at in *. by rewrite slot_publish by (done || lia). }
  constructor; cbn; fields; try done; try lia.
  - intros p Hp. destruct (Z.eqb_spec p pos) as [->|Hne].
    + unfold slot_ok. rewrite buf_publish, seq_publish_self. fields. destruct (Z.ltb_spec pos 0); [lia|].
      destruct (Z.leb_spec (q_head q) pos); [|lia]. right. rewrite u64_pos by (unfold MAX_POS in *; lia).
      split_and!; [|done|congruence]. intros [t' E].
      destruct (set_pc_cases t t' Idle f) as [[-> Es]|[Hne Es]]; rewrite Es in E; [done|].
      apply Hne, (H1 t' t pos); [done|by rewrite Hft].
    + apply slot_ok_frame with q pu; try done; rewrite ?Hft; try (split; cbn; congruence); [by apply Hslots|].
      apply slot_publish; [done|lia|done].
  - intros t'. destruct (set_pc_cases t t' Idle f) as [[-> ->]|[Hne ->]]; [done|].
    specialize (Hthr t').
    destruct (f t') as [| | |b' p|b' p h'|b' p| |b' p| | |p|p|p b']; cbn in *; fields; rewrite ?buf_publish; try done.
    + destruct Hthr as [? Hk]. split; [done|]. intros ->. by apply Htail, Hk.
    + destruct Hthr as (? & ? & Hk). split; [done|]. split; [done|]. intros ->. by apply Htail, Hk.
    + destruct Hthr as [? Hk]. split; [done|]. intros ->. destruct (Hk eq_refl) as [? ?].
      split; [by apply Htail|done].
    + destruct Hthr as [? Hk]. split; [done|]. intros ->. specialize (Hk eq_refl).
      assert (pos <> q_head q) by (intros ->; lia).
      unfold seq_at in *. by rewrite slot_publish by (done || lia).
  - apply one_owner; [done|]. by intros t' p.
  - apply one_owner; [done|]. by intros t' p.
  - intros p b Hin. destruct (Hdel p b Hin) as (? & ? & Hn).
    split_and!; try done; try lia. intros t' E%Hread. by eapply Hn.
  - intros p Hp. destruct (Hall p Hp) as [|[t' E]]; [by left|right]. exists t'. by apply Hread.
Qed.

(** ** The stores of [pop] *)

Lemma inv_pop_claim q f pu de t :
  inv (mk_sys q f pu de) -> f t = PopCas (q_head q) -> q_tail q < MAX_POS ->
  inv (mk_sys (with_indices q (u64 (q_head q + 1)) (q_tail q)) (set_pc t (PopRead (q_head q)) f) pu de).
Proof.
  intros Hi Hft Hm. pose proof (i_threads _ Hi t) as Ht. cbn in Ht. rewrite Hft in Ht.
  destruct Ht as [HT Hseq]. specialize (Hseq eq_refl).
  destruct (head_full _ Hi Hseq) as (Hlt & Hpush & Hbuf).
  destruct Hi as [Hcap Hhead Hrm Hext Hlim Hpu Hslots Hthr H1 H2 Hdel Honce Hall]. cbn in *.
  pose proof (cap_bounds _ Hcap). rewrite u64_pos by (unfold MAX_POS in *; lia).
  assert (Hnone : forall t', pop_pos (f t') <> Some (q_head q)).
  { intros t' E. pose proof (pop_pos_ok _ _ _ _ E (Hthr t')). lia. }
  assert (Hnone' : forall t', push_pos (f t') <> Some (q_head q)) by (intros t' E; apply Hpush; by exists t').
  constructor; cbn; fields; try done; try lia.
  - intros p Hp. destruct (Z.eqb_spec p (q_head q)) as [->|Hne].
    + unfold slot_ok. destruct (Z.ltb_spec (q_head q) 0); [lia|]. cbn.
      destruct (Z.leb_spec (q_head q + 1) (q_head q)); [lia|]. left. split; [|done]. exists t. by rewrite set_pc_eq.
    + apply slot_ok_frame with q pu; try done; rewrite ?Hft; try (split; cbn; congruence).
      * by apply Hslots.
      * cbn. lia.
  - intros t'. destruct (set_pc_cases t t' (PopRead (q_head q)) f) as [[-> ->]|[_ ->]].
    + cbn. split_and!; try lia; done.
    + specialize (Hthr t'). specialize (Hnone' t'). destruct (f t'); cbn in *; fields; try lia.
      all: intuition lia || (assert (pos <> q_head q) by congruence; intuition lia).
  - apply one_owner; [done|]. by intros t' p.
  - apply one_owner; [done|]. cbn. intros t' p [= <-] E. by destruct (Hnone t').
  - intros p b Hin. destruct (Hdel p b Hin) as (? & ? & Hn). split_and!; try done; try lia.
    intros t'. destruct (set_pc_cases t t' (PopRead (q_head q)) f) as [[-> ->]|[_ ->]]; [|done].
    cbn. intros [= ?]. lia.
  - intros p Hp. destruct (Z.eqb_spec p (q_head q)) as [->|Hne].
    { right. exists t. by rewrite set_pc_eq. }
    destruct (Hall p ltac:(lia)) as [|[t' E]]; [by left|right]. exists t'.
    destruct (Nat.eq_dec t' t) as [->|]; [by rewrite Hft in E|by rewrite set_pc_ne].
Qed.

Lemma inv_pop_read q f pu de t pos :
  inv (mk_sys q f pu de) -> f t = PopRead pos ->
  inv (mk_sys (pop_read q pos).2 (set_pc t (PopRelease pos (pop_read q pos).1) f) pu
         (de ++ [(pos, (pop_read q pos).1)])).
Proof.
  intros Hi Hft. pose proof (i_threads _ Hi t) as Ht. cbn in Ht. rewrite Hft in Ht.
  destruct Ht as (Hp0 & Hpos & Hbuf). change (slot_buf (slot_of q pos)) with (pop_read q pos).1 in Hbuf.
  pose proof (popping_seq _ t pos Hi ltac:(cbn; by rewrite Hft)) as Hseq.
  destruct Hi as [Hcap Hhead Hrm Hext Hlim Hpu Hslots Hthr H1 H2 Hdel Honce Hall]. cbn in *.
  pose proof (cap_bounds _ Hcap). set (b := (pop_read q pos).1) in *.
  assert (Hothers : forall t' p, read_pos (set_pc t (PopRelease pos b) f t') = Some p -> p <> pos /\ read_pos (f t') = Some p).
  { intros t' p. destruct (set_pc_cases t t' (PopRelease pos b) f) as [[-> ->]|[Hne ->]]; [done|].
    intros E. split; [|done]. intros ->. apply Hne, (H2 t' t pos); [by apply read_pop|by rewrite Hft]. }
  constructor; cbn; fields; try done; try lia.
  - intros p Hp. destruct (Z.eqb_spec p pos) as [->|Hne].
    + unfold slot_ok. rewrite seq_read. fields. destruct (Z.ltb_spec pos 0); [lia|].
      destruct (Z.leb_spec (q_head q) pos); [lia|]. left. split; [|done]. exists t. by rewrite set_pc_eq.
    + apply slot_ok_frame with q pu; try done; rewrite ?Hft; try (split; cbn; congruence); [by apply Hslots|].
      apply slot_read; [done|lia|done].
  - intros t'. destruct (set_pc_cases t t' (PopRelease pos b) f) as [[-> ->]|[Hne ->]].
    + cbn; fields. split_and!; try done; lia.
    + specialize (Hthr t'). pose proof (H2 t t') as Hone. rewrite Hft in Hone.
      destruct (f t') as [| | | | | | |b' p| | | |p|p b']; cbn in *; fields; rewrite ?seq_read; try done.
      * destruct Hthr as (? & ? & ? & ?). split_and!; try done; try lia.
        rewrite slot_read; [done|done|lia|lia].
      * destruct Hthr as (? & ? & ?). split_and!; try done; try lia.
        rewrite slot_read; [done|done|lia|]. intros ->. by apply Hne, eq_sym, (Hone pos).
  - apply one_owner; [done|]. by intros t' p.
  - apply one_owner; [done|]. cbn. intros t' p [= <-] E. apply (H2 t' t pos); [done|by rewrite Hft].
  - intros p x [Hin|Hin%list_elem_of_singleton]%elem_of_app.
    + destruct (Hdel p x Hin) as (? & ? & Hn). split_and!; try done; try lia.
      intros t' [_ E]%Hothers. by eapply Hn.
    + injection Hin as -> ->. split_and!; try done; try lia. by intros t' [? _]%Hothers.
  - rewrite map_app. apply NoDup_app. split_and!; [done| |apply NoDup_singleton].
    intros p [[p' x] [-> Hin]]%list_elem_of_fmap Hp%list_elem_of_singleton. cbn in Hp. subst p'.
    destruct (Hdel pos x Hin) as (_ & _ & Hn). apply (Hn t). by rewrite Hft.
  - intros p Hp. rewrite map_app. destruct (Z.eqb_spec p pos) as [->|Hne].
    { left. apply elem_of_app. right. by apply list_elem_of_singleton. }
    destruct (Hall p Hp) as [|[t' E]]; [left; apply elem_of_app; by left|right]. exists t'.
    destruct (Nat.eq_dec t' t) as [->|]; [rewrite Hft in E; cbn in E; congruence|by rewrite set_pc_ne].
Qed.

Lemma inv_pop_release q f pu de t pos b :
  inv (mk_sys q f pu de) -> f t = PopRelease pos b -> q_tail q < MAX_POS ->
  inv (mk_sys (pop_release q pos) (set_pc t Idle f) pu de).
Proof.
  intros Hi Hft Hm. pose proof (i_threads _ Hi t) as Ht. cbn in Ht. rewrite Hft in Ht.
  destruct Ht as (Hp0 & Hpos & Hb).
  pose proof (popping_seq _ t pos Hi ltac:(cbn; by rewrite Hft)) as Hseq.
  pose proof (read_others t Idle f eq_refl ltac:(by rewrite Hft)) as Hread.
  destruct Hi as [Hcap Hhead Hrm Hext Hlim Hpu Hslots Hthr H1 H2 Hdel Honce Hall]. cbn in *.
  pose proof (cap_bounds _ Hcap).
  assert (Htail : seq_at q (q_tail q) = q_tail q -> seq_at (pop_release q pos) (q_tail q) = q_tail q).
  { intros Hk. assert (pos <> q_tail q - q_capacity q).
    { intros ->. unfold seq_at in Hk, Hseq. rewrite slot_tail in Hk by done. lia. }
    unfold seq_at in *. by rewrite slot_release by (done || lia). }
  constructor; cbn; fields; try done; try lia.
  - intros p Hp. destruct (Z.eqb_spec p pos) as [->|Hne].
    + unfold slot_ok. rewrite seq_release_self. fields. destruct (Z.ltb_spec pos 0); [lia|].
      destruct (Z.leb_spec (q_head q) pos); [lia|]. right. rewrite u64_pos by (unfold MAX_POS in *; lia).
      split; [|done]. intros [t' E].
      destruct (set_pc_cases t t' Idle f) as [[-> Es]|[Hne Es]]; rewrite Es in E; [done|].
      apply Hne, (H2 t' t pos); [done|by rewrite Hft].
    + apply slot_ok_frame with q pu; try done; rewrite ?Hft; try (split; cbn; congruence); [by apply Hslots|].
      apply slot_release; [done|lia|done].
  - intros t'. destruct (set_pc_cases t t' Idle f) as [[-> ->]|[Hne ->]]; [done|].
    specialize (Hthr t').
    destruct (f t') as [| | |b' p|b' p h'|b' p| |b' p| | |p|p|p b']; cbn in *; fields; rewrite ?buf_release; try done.
    + destruct Hthr as [? Hk]. split; [done|]. intros ->. by apply Htail, Hk.
    + destruct Hthr as (? & ? & Hk). split; [done|]. split; [done|]. intros ->. by apply Htail, Hk.
    + destruct Hthr as [? Hk]. split; [done|]. intros ->. destruct (Hk eq_refl) as [? ?].
      split; [by apply Htail|done].
    + destruct Hthr as [? Hk]. split; [done|]. intros ->. specialize (Hk eq_refl).
      assert (pos <> q_head q - q_capacity q).
      { intros ->. unfold seq_at, slot_of in Hk, Hseq. rewrite <-(mask_period q (q_head q - _)) in Hseq by done.
        replace (q_head q - q_capacity q + q_capacity q) with (q_head q) in Hseq by lia. lia. }
      unfold seq_at in *. by rewrite slot_release by (done || lia).
  - apply one_owner; [done|]. by intros t' p.
  - apply one_owner; [done|]. by intros t' p.
  - intros p x Hin. destruct (Hdel p x Hin) as (? & ? & Hn).
    split_and!; try done; try lia. intros t' E%Hread. by eapply Hn.
  - intros p Hp. destruct (Hall p Hp) as [|[t' E]]; [by left|right]. exists t'. by apply Hread.
Qed.

(** ** Every reachable state *)

Lemma size_small s :
  inv s -> q_tail (sys_q s) < MAX_POS ->
  zst_queue_size (Some (sys_q s)) = q_tail (sys_q s) - q_head (sys_q s).
Proof.
  intros Hi Hm. pose proof (i_head _ Hi). pose proof (i_room _ Hi). pose proof (cap_bounds _ (i_cap _ Hi)).
  unfold zst_queue_size, size_between. rewrite s64_diff by (unfold MAX_POS in *; lia). zbool; [lia|]. apply u32_small. lia.
Qed.

(** A thread that found the slot of [pos] free, with no limit to check. *)
Lemma knows_free q f pu de pos :
  inv (mk_sys q f pu de) -> q_tail q < MAX_POS -> 0 <= pos <= q_tail q -> push_diff q pos = 0 ->
  q_has_extra_limits q = false ->
  pos = q_tail q -> seq_at q pos = pos /\ (0 < max_buffers q -> q_tail q - q_head q < max_buffers q).
Proof.
  intros Hi Hm Hpos Hd Ex ->. pose proof (push_diff_0 _ _ Hi Hm Hpos Hd) as Hseq. cbn in Hseq.
  split; [done|]. intros Hmax. destruct (tail_free _ Hi Hseq) as [Hroom _]. cbn in Hroom.
  pose proof (i_extra _ Hi Ex). cbn in *. lia.
Qed.

(** A thread whose count of the buffers, begun at [head], is below the limit. *)
Lemma knows_room q f pu de pos head :
  inv (mk_sys q f pu de) -> q_tail q < MAX_POS -> 0 <= pos <= q_tail q ->
  Z.max 0 (pos - q_capacity q) <= head <= q_head q -> too_many q head = false ->
  pos = q_tail q -> 0 < max_buffers q -> q_tail q - q_head q < max_buffers q.
Proof.
  intros Hi Hm Hpos Hh Hfull -> Hmax. pose proof (i_head _ Hi) as Hhead.
  pose proof (cap_bounds _ (i_cap _ Hi)) as Hc. cbn in Hhead, Hc.
  unfold too_many, size_between in Hfull. unfold max_buffers, MAX_POS in *.
  rewrite s64_diff in Hfull by (unfold MAX_POS; lia).
  destruct (Z.ltb_spec (q_tail q - head) 0); [lia|]. rewrite u32_small in Hfull by lia. zbool; try done; lia.
Qed.

Lemma inv_qstep t s s' :
  inv s -> qstep t s s' -> zlen (sys_pushed s') < MAX_POS -> inv s'.
Proof.
  intros Hi Hs Hm.
  assert (Hmt : q_tail (sys_q s) < MAX_POS).
  { rewrite (i_pushed _ Hi). destruct Hs; cbn in *; try done. rewrite zlen_app, zlen_cons, zlen_nil in Hm. lia. }
  pose proof (i_head _ Hi) as Hh. pose proof (i_threads _ Hi t) as Ht.
  destruct Hs as [q f pu de buf E|q f pu de buf pos E Hd Hf|q f pu de buf pos E Hd _|q f pu de buf pos E
    |q f pu de buf pos h E Hf|q f pu de buf pos h E _|q f pu de buf pos E _|q f pu de buf E|q f pu de buf E
    |q f pu de buf pos E _|q f pu de buf pos E <-|q f pu de buf pos E|q f pu de buf pos E|q f pu de buf pos E
    |q f pu de E|q f pu de pos E Hd|q f pu de pos E _|q f pu de E|q f pu de E|q f pu de pos E _
    |q f pu de pos E <-|q f pu de pos E|q f pu de pos E|q f pu de pos b E]; cbn in Ht, Hh, Hm, Hmt;
    rewrite E in Ht; cbn in Ht.
  all: try (apply inv_move; [done|by rewrite E|done|cbn; lia || done]).
  - apply inv_move; [done|by rewrite E|done|]. split; [done|]. by apply (knows_free q f pu de).
  - apply inv_move; [done|by rewrite E|done|]. split; [done|]. intros _.
    apply (push_diff_0 _ _ Hi Hmt); [cbn; lia|done].
  - apply inv_move; [done|by rewrite E|done|]. pose proof (i_room _ Hi). cbn in *. intuition lia.
  - apply inv_move; [done|by rewrite E|done|]. destruct Ht as (? & ? & Hk). split; [done|]. intros Et.
    split; [by apply Hk|]. by apply (knows_room q f pu de pos h).
  - apply inv_push_claim; [done|done|]. pose proof (i_pushed _ Hi). cbn in *.
    rewrite zlen_app, zlen_cons, zlen_nil in Hm. lia.
  - by apply inv_push_write.
  - by eapply inv_push_publish.
  - apply inv_move; [done|by rewrite E|done|]. split; [done|]. intros _.
    apply (pop_diff_0 _ _ Hi Hmt); [cbn; lia|done].
  - by apply inv_pop_claim.
  - by apply inv_pop_read.
  - by eapply inv_pop_release.
Qed.

Lemma pushed_grows s s' : any_step s s' -> zlen (sys_pushed s) <= zlen (sys_pushed s').
Proof. intros [t []]; cbn; rewrite ?zlen_app, ?zlen_cons, ?zlen_nil; lia. Qed.

(** The queue as [zst_queue_create] makes it. *)
Lemma inv_start `{CMemoryOk} cfg q :
  0 <= cfg_max_buffers cfg <= 2147483648 -> zst_queue_create (Some cfg) = Some q -> inv (sys_start q).
Proof.
  intros Hcfg. unfold zst_queue_create. change (default default_qcfg (Some cfg)) with cfg.
  rewrite malloc_total. cbv zeta.
  set (n := if 0 <? cfg_max_buffers cfg then cfg_max_buffers cfg else 16).
  assert (Hn : 0 < n <= 2147483648) by (unfold n; zbool; lia).
  pose proof (next_power_of_two_aux n Hn) as (Hcap & Hle & _). pose proof (cap_bounds _ Hcap).
  intros [= <-]. constructor; cbn; try done; try lia.
  - intros [_ Hx]%orb_false_iff. unfold max_buffers. cbn. apply andb_false_iff in Hx. unfold n in *.
    zbool; try lia; naive_solver.
  - intros p Hp. unfold slot_ok. destruct (Z.ltb_spec p 0); [|lia]. unfold seq_at, slot_of. cbn.
    rewrite mask_mod by done. cbn. rewrite <-(Z_mod_plus_full p 1). rewrite Z.mul_1_l. apply Z.mod_small. lia.
  - intros p b Hin. by apply elem_of_nil in Hin.
  - apply NoDup_nil_2.
Qed.

Lemma inv_reach `{CMemoryOk} cfg q s :
  0 <= cfg_max_buffers cfg <= 2147483648 -> zst_queue_create (Some cfg) = Some q ->
  reach any_step (sys_start q) s -> zlen (sys_pushed s) < MAX_POS -> inv s.
Proof.
  intros Hcfg Hq Hr. induction Hr as [|s1 s2 Hr IH Hs]; intros Hm; [by eapply inv_start|].
  pose proof (pushed_grows _ _ Hs). destruct Hs as [t Hs]. apply (inv_qstep t s1); [|done|done]. apply IH. lia.
Qed.

(** C3. However any number of threads interleave their pushes and pops, every buffer
    taken out was accepted, at the position it is taken from; no position is taken
    twice; and when no thread is between its claim and its read, the positions below
    [head] are exactly those taken: nothing accepted is lost. *)
Theorem concurrent_delivery `{CMemoryOk} cfg q s :
  0 <= cfg_max_buffers cfg <= 2147483648 -> zst_queue_create (Some cfg) = Some q ->
  reach any_step (sys_start q) s -> zlen (sys_pushed s) < MAX_POS ->
  NoDup (map fst (sys_delivered s)) /\
  (forall p b, (p, b) ∈ sys_delivered s ->
     exists x, b = Some x /\ sys_pushed s !! Z.to_nat p = Some x /\ 0 <= p < q_head (sys_q s)) /\
  ((forall t p, sys_pc s t <> PopRead p) ->
     forall p, 0 <= p < q_head (sys_q s) -> exists b, (p, b) ∈ sys_delivered s).
Proof.
  intros Hcfg Hq Hr Hm. pose proof (inv_reach cfg q s Hcfg Hq Hr Hm) as Hi. split_and!; [apply Hi| |].
  - intros p b Hin. destruct (i_delivered _ Hi p b Hin) as (Hp & -> & _). unfold accepted_at.
    pose proof (i_head _ Hi). pose proof (i_pushed _ Hi). unfold zlen in *.
    destruct (lookup_lt_is_Some_2 (sys_pushed s) (Z.to_nat p)) as [x Ex]; [lia|]. exists x. by rewrite Ex.
  - intros Hidle p Hp. destruct (i_all _ Hi p Hp) as [[[p' b] [-> Hin]]%list_elem_of_fmap|[t Et]]; [by exists b|].
    specialize (Hidle t p). by destruct (sys_pc s t); simplify_eq/=.
Qed.

(** However the threads interleave, the queue never holds more than its ring, nor
    more than [max_buffers] when that is set: the check made before a position is
    claimed still holds when the claim succeeds. *)
Theorem concurrent_limits `{CMemoryOk} cfg q s :
  0 <= cfg_max_buffers cfg <= 2147483648 -> zst_queue_create (Some cfg) = Some q ->
  reach any_step (sys_start q) s -> zlen (sys_pushed s) < MAX_POS ->
  0 <= zst_queue_size (Some (sys_q s)) <= q_capacity (sys_q s) /\
  (0 < cfg_max_buffers (q_cfg (sys_q s)) ->
     zst_queue_size (Some (sys_q s)) <= cfg_max_buffers (q_cfg (sys_q s))).
Proof.
  intros Hcfg Hq Hr Hm. pose proof (inv_reach cfg q s Hcfg Hq Hr Hm) as Hi.
  pose proof (i_pushed _ Hi). pose proof (i_head _ Hi). pose proof (i_room _ Hi). pose proof (i_limit _ Hi).
  rewrite size_small by (done || lia). unfold max_buffers in *. split; [lia|done].
Qed.

(** However the threads interleave, no two of them hold the same position, and a
    position being written is never one being read. *)
Theorem concurrent_exclusion `{CMemoryOk} cfg q s t t' p :
  0 <= cfg_max_buffers cfg <= 2147483648 -> zst_queue_create (Some cfg) = Some q ->
  reach any_step (sys_start q) s -> zlen (sys_pushed s) < MAX_POS ->
  (push_pos (sys_pc s t) = Some p -> push_pos (sys_pc s t') = Some p -> t = t') /\
  (pop_pos (sys_pc s t) = Some p -> pop_pos (sys_pc s t') = Some p -> t = t') /\
  (forall p', push_pos (sys_pc s t) = Some p -> pop_pos (sys_pc s t') = Some p' ->
     RING_MASK (sys_q s) p <> RING_MASK (sys_q s) p').
Proof.
  intros Hcfg Hq Hr Hm. pose proof (inv_reach cfg q s Hcfg Hq Hr Hm) as Hi.
  split_and!; [apply (i_push_one _ Hi)|apply (i_pop_one _ Hi)|]. intros p' E1 E2 Em.
  pose proof (push_pos_ok _ _ _ _ E1 (i_threads _ Hi t)). pose proof (pop_pos_ok _ _ _ _ E2 (i_threads _ Hi t')).
  apply Z.eqb_eq in Em. rewrite mask_inj in Em by (apply (i_cap _ Hi) || lia). zbool; [lia|done].
Qed.

(** ** The theorems at a concrete interleaving *)

Definition conc_queue : zst_queue :=
  mk_queue sample_cfg 2 false (fun i => mk_slot None i 0 0) 0 0 0.

Lemma reach_by s0 s s1 t : reach any_step s0 s -> qstep t s s1 -> reach any_step s0 s1.
Proof. intros. eapply reach_step; [done|by exists t]. Qed.

(** A run, its last step by the rule [c]. *)
Tactic Notation "run" tactic3(before) "then" open_constr(c) :=
  eapply reach_by; [before|eapply c; reflexivity].

(** Two threads claim the two positions; the first one publishes; a third thread takes
    its buffer while the second has yet to write. *)
Lemma conc_run :
  exists s, reach any_step (sys_start conc_queue) s /\
    sys_pushed s = [sample_item 1; sample_item 2] /\ sys_delivered s = [(0, Some (sample_item 1))] /\
    q_cfg (sys_q s) = sample_cfg /\ q_head (sys_q s) = 1 /\
    sys_pc s 0%nat = Idle /\ sys_pc s 1%nat = PushWrite (sample_item 2) 1 /\
    sys_pc s 2%nat = PopRelease 0 (Some (sample_item 1)).
Proof.
  eexists. split.
  { run (run (run (run (run (run (run (run (run (run (run (run (apply reach_refl)
      then (q_push_start 0 _ _ _ _ (sample_item 1)))
      then (q_push_free 0))
      then (q_push_claim 0))
      then (q_push_start 1 _ _ _ _ (sample_item 2)))
      then (q_push_free 1))
      then (q_push_claim 1))
      then (q_push_write 0))
      then (q_push_publish 0))
      then (q_pop_start 2))
      then (q_pop_ready 2))
      then (q_pop_claim 2))
      then (q_pop_read 2). }
  vm_compute. repeat split.
Qed.

Lemma conc_created : @zst_queue_create ample_memory (Some sample_cfg) = Some conc_queue.
Proof. reflexivity. Qed.

Lemma concurrent_delivery_witness :
  exists s, reach any_step (sys_start conc_queue) s /\ NoDup (map fst (sys_delivered s)) /\
    exists x, sys_delivered s = [(0, Some x)] /\ sys_pushed s !! 0%nat = Some x.
Proof.
  destruct conc_run as (s & R & Hpu & Hde & _). exists s.
  destruct (@concurrent_delivery _ ample_memory_ok sample_cfg conc_queue s) as (Hn & Hd & _);
    [vm_compute; split; discriminate|exact conc_created|exact R|rewrite Hpu; reflexivity|].
  split; [exact R|]. split; [exact Hn|].
  destruct (Hd 0 (Some (sample_item 1))) as (x & E & Hx & _); [rewrite Hde; left|].
  exists x. rewrite Hde, E. split; [reflexivity|exact Hx].
Defined.

Lemma concurrent_limits_witness :
  exists s, reach any_step (sys_start conc_queue) s /\ sys_pushed s = [sample_item 1; sample_item 2] /\
    0 <= zst_queue_size (Some (sys_q s)) <= 2.
Proof.
  destruct conc_run as (s & R & Hpu & _ & Hc & _). exists s.
  destruct (@concurrent_limits _ ample_memory_ok sample_cfg conc_queue s) as [Hs Hl];
    [vm_compute; split; discriminate|exact conc_created|exact R|rewrite Hpu; reflexivity|].
  split; [exact R|]. split; [exact Hpu|]. rewrite Hc in Hl. split; [apply Hs|apply Hl; reflexivity].
Defined.

Lemma concurrent_exclusion_witness :
  exists s, reach any_step (sys_start conc_queue) s /\
    push_pos (sys_pc s 1%nat) = Some 1 /\ pop_pos (sys_pc s 2%nat) = Some 0 /\
    RING_MASK (sys_q s) 1 <> RING_MASK (sys_q s) 0.
Proof.
  destruct conc_run as (s & R & Hpu & _ & _ & _ & _ & H1 & H2). exists s.
  destruct (@concurrent_exclusion _ ample_memory_ok sample_cfg conc_queue s 1%nat 2%nat 1) as (_ & _ & He);
    [vm_compute; split; discriminate|exact conc_created|exact R|rewrite Hpu; reflexivity|].
  rewrite H1, H2 in *. split; [exact R|]. split; [reflexivity|]. split; [reflexivity|].
  apply He; reflexivity.
Defined.
