(* ===== verification/Caps.v ===== *)
(** * Media capabilities: [src/zst_caps.c]

    Capabilities are a list of structures; a structure has a media type, the raw
    video and audio members (0 or empty for "any") and generic fields.  Below: the
    data, the field store, the constructors, setters and getters, and the
    negotiation ([intersect], [is_fixed], [fixate]).

    A [double] is a [spec_float] of the Standard Library, compared by IEEE equality;
    a C string pointer is an [option string]; the [fields] array is a list with its
    capacity (NULL when the capacity is 0); the structures of a [zst_caps_t] are a
    list.  Memory that a structure owns is never shared between two of them, so
    copying a value is the identity; the one call that could be handed its own
    memory, [zst_caps_set_string] from [fixate], is modelled as the copy it makes. *)

From Stdlib Require Import String.
From Stdlib Require Import SpecFloat.
From S2P Require Import Prelude CLib Pad.

Local Open Scope string_scope.
Local Open Scope Z_scope.

Inductive zst_caps_type_t := ZST_CAPS_VIDEO | ZST_CAPS_AUDIO | ZST_CAPS_ANY.

#[export] Instance zst_caps_type_eq : EqDecision zst_caps_type_t.
Proof. solve_decision. Defined.

(** [double] *)
Abbreviation cdouble := spec_float.
Definition d_zero : cdouble := S754_zero false.
(** [a == b] *)
Definition deq (a b : cdouble) : bool := SFeqb a b.
(** [a != 0.0] *)
Definition dnz (a : cdouble) : bool := negb (deq a d_zero).
(** [30.0] *)
Definition d_30 : cdouble := S754_finite false 8444249301319680 (-48).

(** Arithmetic with 53 bits of precision, and the conversion of an integer. *)
Definition d_add (a b : cdouble) : cdouble := SFadd 53 1024 a b.
Definition d_sub (a b : cdouble) : cdouble := SFsub 53 1024 a b.
Definition d_mul (a b : cdouble) : cdouble := SFmul 53 1024 a b.
Definition d_div (a b : cdouble) : cdouble := SFdiv 53 1024 a b.
Definition d_of_Z (z : Z) : cdouble := binary_normalize 53 1024 z 0 false.

(** The union [value], tagged by [type]. *)
Inductive caps_value :=
| ZST_CAPS_FIELD_INT (i_val : Z)
| ZST_CAPS_FIELD_UINT (u_val : Z)
| ZST_CAPS_FIELD_DOUBLE (d_val : cdouble)
| ZST_CAPS_FIELD_STRING (s_val : option string)
| ZST_CAPS_FIELD_FRACTION (num denom : Z)
| ZST_CAPS_FIELD_BUFFER (data : option bytes) (size : Z).

Record zst_caps_field_t := mk_field { f_key : string; f_value : caps_value }.

Record zst_caps_struct_t := mk_caps_struct {
  cs_media_type : string;
  cs_type : zst_caps_type_t;
  cs_fields : list zst_caps_field_t;
  cs_fields_capacity : Z;
  video_width : Z;
  video_height : Z;
  video_framerate : cdouble;
  video_pixel_format : string;
  audio_channels : Z;
  audio_sample_rate : Z;
  audio_format : string;
}.

(** [caps->structs] *)
Definition zst_caps_t := list zst_caps_struct_t.

Definition SIZEOF_FIELD : Z := 88.
Definition SIZEOF_STRUCT : Z := 184.
Definition SIZEOF_CAPS : Z := 8.

Definition with_fields (s : zst_caps_struct_t) (fs : list zst_caps_field_t) (cap : Z) : zst_caps_struct_t :=
  mk_caps_struct (cs_media_type s) (cs_type s) fs cap (video_width s) (video_height s)
    (video_framerate s) (video_pixel_format s) (audio_channels s) (audio_sample_rate s) (audio_format s).
Definition with_video (s : zst_caps_struct_t) (w h : Z) (fr : cdouble) (fmt : string) : zst_caps_struct_t :=
  mk_caps_struct (cs_media_type s) (cs_type s) (cs_fields s) (cs_fields_capacity s) w h fr fmt
    (audio_channels s) (audio_sample_rate s) (audio_format s).
Definition with_audio (s : zst_caps_struct_t) (ch rate : Z) (fmt : string) : zst_caps_struct_t :=
  mk_caps_struct (cs_media_type s) (cs_type s) (cs_fields s) (cs_fields_capacity s) (video_width s)
    (video_height s) (video_framerate s) (video_pixel_format s) ch rate fmt.

Section caps.
Context `{CMemory}.

(** The size a field is left with when the allocation of its data fails: the bytes
    of the union that its last value left there. *)
Context (stale_size : caps_value -> Z).

(** ** Structures and their media types *)

Definition zst_caps_create : option zst_caps_t := if malloc_ok SIZEOF_CAPS then Some [] else None.

Definition caps_media_type_is_raw_video (mt : string) : bool := streq mt "video/x-raw".
Definition caps_media_type_is_raw_audio (mt : string) : bool := streq mt "audio/x-raw".

Definition caps_is_raw_video_struct (s : zst_caps_struct_t) : bool :=
  bool_decide (cs_type s = ZST_CAPS_VIDEO) && caps_media_type_is_raw_video (cs_media_type s).
Definition caps_is_raw_audio_struct (s : zst_caps_struct_t) : bool :=
  bool_decide (cs_type s = ZST_CAPS_AUDIO) && caps_media_type_is_raw_audio (cs_media_type s).

Definition caps_is_raw_legacy_field (s : zst_caps_struct_t) (key : string) : bool :=
  if caps_is_raw_video_struct s then name_in key ["width"; "height"; "framerate"; "pixel-format"]
  else if caps_is_raw_audio_struct s then name_in key ["channels"; "sample-rate"; "format"]
  else false.

(** ** Fields *)

(** The index of the first field of that key. *)
Fixpoint find_index (key : string) (fs : list zst_caps_field_t) : option nat :=
  match fs with
  | [] => None
  | f :: fs => if streq (f_key f) key then Some O else S <$> find_index key fs
  end.

Definition caps_struct_find_field (s : zst_caps_struct_t) (key : string) : option zst_caps_field_t :=
  match find_index key (cs_fields s) with Some i => cs_fields s !! i | None => None end.

(** The result and what [dest] holds: a failed copy of a buffer leaves no data but a
    stale size.  A failed [strdup] is not noticed. *)
Definition caps_field_copy (dest : caps_value) (src : zst_caps_field_t) : zst_result_t * zst_caps_field_t :=
  let key := strncpy_n 64 (f_key src) in
  match f_value src with
  | ZST_CAPS_FIELD_STRING (Some v) =>
      let v := if malloc_ok (Z.of_nat (String.length v) + 1) then Some v else None in
      (ZST_OK, mk_field key (ZST_CAPS_FIELD_STRING v))
  | ZST_CAPS_FIELD_BUFFER (Some data) size =>
      if 0 <? size then
        if malloc_ok size then
          (ZST_OK, mk_field key (ZST_CAPS_FIELD_BUFFER (Some (sub_bytes 0 size data)) size))
        else (ZST_ERROR, mk_field key (ZST_CAPS_FIELD_BUFFER None (stale_size dest)))
      else (ZST_OK, mk_field key (ZST_CAPS_FIELD_BUFFER None 0))
  | ZST_CAPS_FIELD_BUFFER None _ => (ZST_OK, mk_field key (ZST_CAPS_FIELD_BUFFER None 0))
  | v => (ZST_OK, mk_field key v)
  end.

Definition fresh_value : caps_value := ZST_CAPS_FIELD_INT 0.

Definition caps_struct_set_field (s : zst_caps_struct_t) (field : zst_caps_field_t)
    : zst_result_t * zst_caps_struct_t :=
  match find_index (f_key field) (cs_fields s) with
  | Some i =>
      let old := default field (cs_fields s !! i) in
      let '(ret, f) := caps_field_copy (f_value old) field in
      (ret, with_fields s (<[i := f]> (cs_fields s)) (cs_fields_capacity s))
  | None =>
      let cap := cs_fields_capacity s in
      let grow := cap <=? zlen (cs_fields s) in
      let new_cap := if cap =? 0 then 4 else u32 (cap * 2) in
      if grow && negb (malloc_ok (new_cap * SIZEOF_FIELD)) then (ZST_ERROR, s)
      else
        let cap := if grow then new_cap else cap in
        let '(ret, f) := caps_field_copy fresh_value field in
        if negb (ret =? ZST_OK) then (ZST_ERROR, with_fields s (cs_fields s) cap)
        else (ZST_OK, with_fields s (cs_fields s ++ [f])%list cap)
  end.

(** A call whose result is ignored. *)
Definition put (cond : bool) (key : string) (v : caps_value) (s : zst_caps_struct_t) : zst_caps_struct_t :=
  if cond then (caps_struct_set_field s (mk_field key v)).2 else s.

Definition new_struct (media_type : option string) (t : zst_caps_type_t) : zst_caps_struct_t :=
  mk_caps_struct (match media_type with Some mt => strncpy_n 64 mt | None => "" end) t [] 0
    0 0 d_zero "" 0 0 "".

Definition is_some {A} (o : option A) : bool := match o with Some _ => true | None => false end.

Definition zst_caps_struct_create_video (media_type : option string) (width height : Z)
    (framerate : cdouble) (pixel_format : option string) : option zst_caps_struct_t :=
  if malloc_ok SIZEOF_STRUCT then
    let fmt := match pixel_format with Some p => strncpy_n 32 p | None => "" end in
    let s := with_video (new_struct media_type ZST_CAPS_VIDEO) width height framerate fmt in
    let is_raw := caps_media_type_is_raw_video (cs_media_type s) in
    let s := put (is_raw || negb (width =? 0)) "width" (ZST_CAPS_FIELD_INT width) s in
    let s := put (is_raw || negb (height =? 0)) "height" (ZST_CAPS_FIELD_INT height) s in
    let s := put (is_raw || dnz framerate) "framerate" (ZST_CAPS_FIELD_DOUBLE framerate) s in
    Some (put (is_raw && is_some pixel_format) "pixel-format" (ZST_CAPS_FIELD_STRING pixel_format) s)
  else None.

Definition zst_caps_struct_create_audio (media_type : option string) (channels sample_rate : Z)
    (format : option string) : option zst_caps_struct_t :=
  if malloc_ok SIZEOF_STRUCT then
    let fmt := match format with Some p => strncpy_n 32 p | None => "" end in
    let s := with_audio (new_struct media_type ZST_CAPS_AUDIO) channels sample_rate fmt in
    let is_raw := caps_media_type_is_raw_audio (cs_media_type s) in
    let s := put (is_raw || negb (channels =? 0)) "channels" (ZST_CAPS_FIELD_INT channels) s in
    let s := put (is_raw || negb (sample_rate =? 0)) "sample-rate" (ZST_CAPS_FIELD_INT sample_rate) s in
    Some (put (is_raw && is_some format) "format" (ZST_CAPS_FIELD_STRING format) s)
  else None.

(** Copies the fields in order, each into fresh memory; [None] at the first failure. *)
Fixpoint copy_fields (fs : list zst_caps_field_t) : option (list zst_caps_field_t) :=
  match fs with
  | [] => Some []
  | f :: fs =>
      let '(ret, f) := caps_field_copy fresh_value f in
      if ret =? ZST_OK then
        match copy_fields fs with Some fs => Some (f :: fs) | None => None end
      else None
  end.

Definition zst_caps_struct_copy (s : zst_caps_struct_t) : option zst_caps_struct_t :=
  if negb (malloc_ok SIZEOF_STRUCT) then None
  else match cs_fields s with
  | [] => Some (with_fields s [] 0)
  | fs =>
      if negb (malloc_ok (zlen fs * SIZEOF_FIELD)) then None
      else match copy_fields fs with Some fs => Some (with_fields s fs (zlen fs)) | None => None end
  end.

Fixpoint copy_structs (caps : zst_caps_t) : option zst_caps_t :=
  match caps with
  | [] => Some []
  | s :: caps =>
      match zst_caps_struct_copy s with
      | Some s => match copy_structs caps with Some caps => Some (s :: caps) | None => None end
      | None => None
      end
  end.

Definition zst_caps_copy (caps : option zst_caps_t) : option zst_caps_t :=
  match caps with
  | Some caps => if malloc_ok SIZEOF_CAPS then copy_structs caps else None
  | None => None
  end.

Definition zst_caps_append (caps : option zst_caps_t) (s : option zst_caps_struct_t)
    : zst_result_t * option zst_caps_t :=
  match caps, s with
  | Some caps, Some s => (ZST_OK, Some (caps ++ [s])%list)
  | _, _ => (ZST_ERROR, caps)
  end.

Definition zst_caps_new_simple (media_type : option string) : option zst_caps_t :=
  if malloc_ok SIZEOF_CAPS && malloc_ok SIZEOF_STRUCT then
    let t := match media_type with
             | Some mt => if String.prefix "video/" mt then ZST_CAPS_VIDEO
                          else if String.prefix "audio/" mt then ZST_CAPS_AUDIO else ZST_CAPS_ANY
             | None => ZST_CAPS_ANY
             end in
    Some [new_struct media_type t]
  else None.

(** ** Setters and getters, on the first structure *)

(** The generic part of a setter: the field, after the members [upd] sets. *)
Definition set_first (upd : zst_caps_struct_t -> zst_caps_struct_t) (key : string) (v : caps_value)
    (caps : option zst_caps_t) : zst_result_t * option zst_caps_t :=
  match caps with
  | Some (s :: rest) =>
      let '(ret, s) := caps_struct_set_field (upd s) (mk_field (strncpy_n 64 key) v) in
      (ret, Some (s :: rest))
  | _ => (ZST_ERROR, caps)
  end.

Definition set_int_members (key : string) (value : Z) (s : zst_caps_struct_t) : zst_caps_struct_t :=
  match cs_type s with
  | ZST_CAPS_VIDEO =>
      if streq key "width" then
        with_video s value (video_height s) (video_framerate s) (video_pixel_format s)
      else if streq key "height" then
        with_video s (video_width s) value (video_framerate s) (video_pixel_format s)
      else s
  | ZST_CAPS_AUDIO =>
      if streq key "channels" then with_audio s value (audio_sample_rate s) (audio_format s)
      else if name_in key ["sample-rate"; "sample_rate"] then
        with_audio s (audio_channels s) value (audio_format s)
      else s
  | ZST_CAPS_ANY => s
  end.

Definition set_double_members (key : string) (value : cdouble) (s : zst_caps_struct_t) : zst_caps_struct_t :=
  if bool_decide (cs_type s = ZST_CAPS_VIDEO) && streq key "framerate" then
    with_video s (video_width s) (video_height s) value (video_pixel_format s)
  else s.

Definition set_string_members (key : string) (value : option string) (s : zst_caps_struct_t)
    : zst_caps_struct_t :=
  let v := strncpy_n 32 (default "" value) in
  match cs_type s with
  | ZST_CAPS_VIDEO =>
      if name_in key ["pixel-format"; "pixel_format"] then
        with_video s (video_width s) (video_height s) (video_framerate s) v
      else s
  | ZST_CAPS_AUDIO =>
      if streq key "format" then with_audio s (audio_channels s) (audio_sample_rate s) v else s
  | ZST_CAPS_ANY => s
  end.

Definition zst_caps_set_int (caps : option zst_caps_t) (key : string) (value : Z) :=
  set_first (set_int_members key value) key (ZST_CAPS_FIELD_INT value) caps.
Definition zst_caps_set_uint (caps : option zst_caps_t) (key : string) (value : Z) :=
  set_first id key (ZST_CAPS_FIELD_UINT value) caps.
Definition zst_caps_set_double (caps : option zst_caps_t) (key : string) (value : cdouble) :=
  set_first (set_double_members key value) key (ZST_CAPS_FIELD_DOUBLE value) caps.
Definition zst_caps_set_string (caps : option zst_caps_t) (key : string) (value : option string) :=
  set_first (set_string_members key value) key (ZST_CAPS_FIELD_STRING value) caps.
Definition zst_caps_set_fraction (caps : option zst_caps_t) (key : string) (num denom : Z) :=
  set_first id key (ZST_CAPS_FIELD_FRACTION num denom) caps.
Definition zst_caps_set_buffer (caps : option zst_caps_t) (key : string) (data : option bytes) (size : Z) :=
  set_first id key (ZST_CAPS_FIELD_BUFFER data size) caps.

(** The value of the field of that key; a getter returns [ZST_ERROR] for [None]. *)
Definition get_first (caps : option zst_caps_t) (key : string) : option caps_value :=
  match caps with
  | Some (s :: _) => f_value <$> caps_struct_find_field s key
  | _ => None
  end.

Definition zst_caps_get_int (caps : option zst_caps_t) (key : string) : option Z :=
  match get_first caps key with Some (ZST_CAPS_FIELD_INT v) => Some v | _ => None end.
Definition zst_caps_get_uint (caps : option zst_caps_t) (key : string) : option Z :=
  match get_first caps key with Some (ZST_CAPS_FIELD_UINT v) => Some v | _ => None end.
Definition zst_caps_get_double (caps : option zst_caps_t) (key : string) : option cdouble :=
  match get_first caps key with Some (ZST_CAPS_FIELD_DOUBLE v) => Some v | _ => None end.
Definition zst_caps_get_string (caps : option zst_caps_t) (key : string) : option (option string) :=
  match get_first caps key with Some (ZST_CAPS_FIELD_STRING v) => Some v | _ => None end.
Definition zst_caps_get_fraction (caps : option zst_caps_t) (key : string) : option (Z * Z) :=
  match get_first caps key with Some (ZST_CAPS_FIELD_FRACTION n d) => Some (n, d) | _ => None end.
Definition zst_caps_get_buffer (caps : option zst_caps_t) (key : string) : option (option bytes * Z) :=
  match get_first caps key with Some (ZST_CAPS_FIELD_BUFFER d n) => Some (d, n) | _ => None end.

(** ** Negotiation *)

Definition caps_field_equal (f1 f2 : zst_caps_field_t) : bool :=
  match f_value f1, f_value f2 with
  | ZST_CAPS_FIELD_INT a, ZST_CAPS_FIELD_INT b => a =? b
  | ZST_CAPS_FIELD_UINT a, ZST_CAPS_FIELD_UINT b => a =? b
  | ZST_CAPS_FIELD_DOUBLE a, ZST_CAPS_FIELD_DOUBLE b => deq a b
  | ZST_CAPS_FIELD_STRING (Some a), ZST_CAPS_FIELD_STRING (Some b) => streq a b
  | ZST_CAPS_FIELD_STRING a, ZST_CAPS_FIELD_STRING b => bool_decide (a = None /\ b = None)
  | ZST_CAPS_FIELD_FRACTION n1 d1, ZST_CAPS_FIELD_FRACTION n2 d2 => (n1 =? n2) && (d1 =? d2)
  | ZST_CAPS_FIELD_BUFFER d1 n1, ZST_CAPS_FIELD_BUFFER d2 n2 =>
      if negb (n1 =? n2) then false
      else if n1 =? 0 then true
      else match d1, d2 with
      | Some d1, Some d2 => bool_decide (sub_bytes 0 n1 d1 = sub_bytes 0 n1 d2)
      | d1, d2 => bool_decide (d1 = None /\ d2 = None)
      end
  | _, _ => false
  end.

(** A member of both structures: 0 is "any"; [None] when they differ. *)
Definition meet_int (a b : Z) : option Z :=
  if negb (a =? 0) && negb (b =? 0) then if negb (a =? b) then None else Some a
  else Some (if negb (a =? 0) then a else b).
Definition meet_double (a b : cdouble) : option cdouble :=
  if dnz a && dnz b then if negb (deq a b) then None else Some a
  else Some (if dnz a then a else b).
Definition meet_string (a b : string) : option string :=
  if negb (streq a "") && negb (streq b "") then
    if negb (streq a b) then None else Some (strncpy_n 32 a)
  else Some (strncpy_n 32 (if negb (streq a "") then a else b)).

(** The structure the members give, before the generic fields. *)
Definition intersect_members (s1 s2 : zst_caps_struct_t) : option zst_caps_struct_t :=
  if caps_is_raw_video_struct s1 then
    match meet_int (video_width s1) (video_width s2), meet_int (video_height s1) (video_height s2),
          meet_double (video_framerate s1) (video_framerate s2),
          meet_string (video_pixel_format s1) (video_pixel_format s2) with
    | Some w, Some h, Some fr, Some fmt =>
        zst_caps_struct_create_video (Some (cs_media_type s1)) w h fr (Some fmt)
    | _, _, _, _ => None
    end
  else if caps_is_raw_audio_struct s1 then
    match meet_int (audio_channels s1) (audio_channels s2),
          meet_int (audio_sample_rate s1) (audio_sample_rate s2),
          meet_string (audio_format s1) (audio_format s2) with
    | Some ch, Some rate, Some fmt =>
        zst_caps_struct_create_audio (Some (cs_media_type s1)) ch rate (Some fmt)
    | _, _, _ => None
    end
  else zst_caps_struct_copy s1.

(** The loop over the first structure's fields, on the result so far. *)
Fixpoint merge_first (s1 s2 : zst_caps_struct_t) (fs : list zst_caps_field_t) (res : zst_caps_struct_t)
    : option zst_caps_struct_t :=
  match fs with
  | [] => Some res
  | f1 :: fs =>
      if caps_is_raw_legacy_field s1 (f_key f1) then merge_first s1 s2 fs res
      else
        let clash := match caps_struct_find_field s2 (f_key f1) with
                     | Some f2 => negb (caps_field_equal f1 f2)
                     | None => false
                     end in
        if clash then None
        else
          let '(ret, res) := caps_struct_set_field res f1 in
          if ret =? ZST_OK then merge_first s1 s2 fs res else None
  end.

(** The loop over the second structure's fields. *)
Fixpoint merge_second (s1 s2 : zst_caps_struct_t) (fs : list zst_caps_field_t) (res : zst_caps_struct_t)
    : option zst_caps_struct_t :=
  match fs with
  | [] => Some res
  | f2 :: fs =>
      if caps_is_raw_legacy_field s2 (f_key f2) then merge_second s1 s2 fs res
      else match caps_struct_find_field s1 (f_key f2) with
      | Some _ => merge_second s1 s2 fs res
      | None =>
          let '(ret, res) := caps_struct_set_field res f2 in
          if ret =? ZST_OK then merge_second s1 s2 fs res else None
      end
  end.

Definition zst_caps_struct_intersect (s1 s2 : zst_caps_struct_t) : option zst_caps_struct_t :=
  if negb (streq (cs_media_type s1) (cs_media_type s2)) then None
  else if negb (bool_decide (cs_type s1 = cs_type s2)) then None
  else match intersect_members s1 s2 with
  | Some res =>
      match merge_first s1 s2 (cs_fields s1) res with
      | Some res => merge_second s1 s2 (cs_fields s2) res
      | None => None
      end
  | None => None
  end.

Definition zst_caps_intersect (caps1 caps2 : option zst_caps_t) : option zst_caps_t :=
  match caps1, caps2 with
  | Some caps1, Some caps2 =>
      if malloc_ok SIZEOF_CAPS then
        Some (s1 ← caps1; s2 ← caps2; option_list (zst_caps_struct_intersect s1 s2))
      else None
  | _, _ => None
  end.

Definition zst_caps_struct_is_fixed (s : zst_caps_struct_t) : bool :=
  let named := negb (streq (cs_media_type s) "") in
  match cs_type s with
  | ZST_CAPS_VIDEO =>
      if negb (caps_is_raw_video_struct s) then named
      else negb (video_width s =? 0) && negb (video_height s =? 0) && dnz (video_framerate s)
           && negb (streq (video_pixel_format s) "")
  | ZST_CAPS_AUDIO =>
      if negb (caps_is_raw_audio_struct s) then named
      else negb (audio_channels s =? 0) && negb (audio_sample_rate s =? 0) && negb (streq (audio_format s) "")
  | ZST_CAPS_ANY => named
  end.

Definition zst_caps_is_fixed (caps : option zst_caps_t) : bool :=
  match caps with Some [s] => zst_caps_struct_is_fixed s | _ => false end.

(** The first structure with its wildcards resolved. *)
Definition resolve_video (s : zst_caps_struct_t) : zst_caps_struct_t :=
  with_video s (if video_width s =? 0 then 640 else video_width s)
    (if video_height s =? 0 then 480 else video_height s)
    (if dnz (video_framerate s) then video_framerate s else d_30)
    (if streq (video_pixel_format s) "" then "YUV420P" else video_pixel_format s).
Definition resolve_audio (s : zst_caps_struct_t) : zst_caps_struct_t :=
  with_audio s (if audio_channels s =? 0 then 2 else audio_channels s)
    (if audio_sample_rate s =? 0 then 44100 else audio_sample_rate s)
    (if streq (audio_format s) "" then "S16LE" else audio_format s).

Definition zst_caps_fixate (caps : option zst_caps_t) : zst_result_t * option zst_caps_t :=
  match caps with
  | Some (first :: _) =>
      if caps_is_raw_video_struct first then
        let first := resolve_video first in
        let caps := Some [first] in
        let caps := (zst_caps_set_int caps "width" (video_width first)).2 in
        let caps := (zst_caps_set_int caps "height" (video_height first)).2 in
        let caps := (zst_caps_set_double caps "framerate" (video_framerate first)).2 in
        (ZST_OK, (zst_caps_set_string caps "pixel-format" (Some (video_pixel_format first))).2)
      else if caps_is_raw_audio_struct first then
        let first := resolve_audio first in
        let caps := Some [first] in
        let caps := (zst_caps_set_int caps "channels" (audio_channels first)).2 in
        let caps := (zst_caps_set_int caps "sample-rate" (audio_sample_rate first)).2 in
        (ZST_OK, (zst_caps_set_string caps "format" (Some (audio_format first))).2)
      else (ZST_OK, Some [first])
  | _ => (ZST_ERROR, caps)
  end.
End caps.
