(* ===== verification/CapsSpec.v ===== *)
(** * What capabilities mean, and that negotiation computes it

    A structure stands for the media it accepts.  Intersecting two capabilities
    accepts exactly what both accept; fixating leaves one structure, without
    wildcards, that accepts only what the first one accepted; a field set is read
    back, and no other field changes.  Allocations are taken to succeed. *)

From Stdlib Require Import String.
From Stdlib Require Import SpecFloat.
From S2P Require Import Prelude CLib Pad Caps.

Local Open Scope string_scope.
Local Open Scope Z_scope.

(** ** Equality of doubles is a partial equivalence *)

Lemma deq_spec a b :
  deq a b = true <->
  a = b /\ a <> S754_nan \/ (exists s t, a = S754_zero s /\ b = S754_zero t).
Proof.
  unfold deq, SFeqb, SFcompare. split.
  - destruct a as [s|s| |s m e], b as [t|t| |t n k]; try destruct s; try destruct t; try done;
      try (intros _; left; split; done); try (intros _; right; eexists _, _; done).
    all: change (Pos.compare_cont Eq m n) with (Pos.compare m n);
      destruct (Z.compare_spec e k); try done; destruct (Pos.compare_spec m n); try done.
    all: intros _; left; subst; by split.
  - intros [[-> Hn]|(s & t & -> & ->)]; [|done].
    destruct b as [t|[]| |[] n k]; cbn;
      try (change (Pos.compare_cont Eq n n) with (Pos.compare n n); by rewrite Z.compare_refl, Pos.compare_refl);
      done.
Qed.

Lemma deq_sym a b : deq a b = true -> deq b a = true.
Proof. rewrite !deq_spec. intros [[-> ?]|(x & y & -> & ->)]; [by left|right; by exists y, x]. Qed.

Lemma deq_trans a b c : deq a b = true -> deq b c = true -> deq a c = true.
Proof.
  rewrite !deq_spec. intros [[-> ?]|(x & y & -> & ->)]; [done|].
  intros [[<- ?]|(z & t & E & ->)]; right; [by exists x, y|by exists x, t].
Qed.

Lemma deq_zero a b : deq a b = true -> dnz a = dnz b.
Proof.
  unfold dnz. intros E. f_equal. destruct (deq a d_zero) eqn:Ea, (deq b d_zero) eqn:Eb; try done; exfalso.
  - rewrite (deq_trans b a d_zero) in Eb; [done|by apply deq_sym|done].
  - rewrite (deq_trans a b d_zero) in Ea; done.
Qed.

(** ** Equality of fields is a partial equivalence *)

Definition value_eq (a b : caps_value) : bool := caps_field_equal (mk_field "" a) (mk_field "" b).

Lemma field_equal_values f g : caps_field_equal f g = value_eq (f_value f) (f_value g).
Proof. done. Qed.

Lemma value_eq_sym a b : value_eq a b = true -> value_eq b a = true.
Proof.
  unfold value_eq, caps_field_equal. cbn.
  destruct a as [x|x|x|[x|]|x1 x2|[x|] n], b as [y|y|y|[y|]|y1 y2|[y|] k]; try done;
    try apply deq_sym; unfold streq; rewrite ?andb_true_iff, ?Z.eqb_eq, ?String.eqb_eq; try naive_solver lia.
  all: destruct (Z.eqb_spec n k) as [->|]; [|done]; rewrite Z.eqb_refl; cbn; destruct (k =? 0); try done;
    rewrite ?bool_decide_eq_true; naive_solver.
Qed.

Lemma value_eq_trans a b c : value_eq a b = true -> value_eq b c = true -> value_eq a c = true.
Proof.
  unfold value_eq, caps_field_equal. cbn.
  destruct a as [x|x|x|[x|]|x1 x2|[x|] n], b as [y|y|y|[y|]|y1 y2|[y|] k]; try done;
    destruct c as [z|z|z|[z|]|z1 z2|[z|] l]; try done;
    try apply deq_trans; unfold streq; rewrite ?andb_true_iff, ?Z.eqb_eq, ?String.eqb_eq; try naive_solver lia.
  all: destruct (Z.eqb_spec n k) as [->|]; [|done]; destruct (Z.eqb_spec k l) as [->|]; [|done];
    cbn; destruct (l =? 0); try done; rewrite ?bool_decide_eq_true; try naive_solver congruence.
Qed.

(** ** The media a structure accepts *)

Record media := mk_media {
  m_type : string;
  m_kind : zst_caps_type_t;
  m_width : Z; m_height : Z; m_framerate : cdouble; m_pixel_format : string;
  m_channels : Z; m_sample_rate : Z; m_format : string;
  m_fields : string -> option caps_value;
}.

Definition any_int (a v : Z) : Prop := a = 0 \/ a = v.
Definition any_double (a v : cdouble) : Prop := dnz a = false \/ deq a v = true.
Definition any_string (a v : string) : Prop := a = "" \/ a = v.

Definition members_accept (s : zst_caps_struct_t) (m : media) : Prop :=
  if caps_is_raw_video_struct s then
    any_int (video_width s) (m_width m) /\ any_int (video_height s) (m_height m) /\
    any_double (video_framerate s) (m_framerate m) /\ any_string (video_pixel_format s) (m_pixel_format m)
  else if caps_is_raw_audio_struct s then
    any_int (audio_channels s) (m_channels m) /\ any_int (audio_sample_rate s) (m_sample_rate m) /\
    any_string (audio_format s) (m_format m)
  else True.

Definition field_accepts (f : zst_caps_field_t) (m : media) : Prop :=
  exists v, m_fields m (f_key f) = Some v /\ value_eq (f_value f) v = true.

(** The generic fields: those that do not repeat a member. *)
Definition generic (s : zst_caps_struct_t) (f : zst_caps_field_t) : Prop :=
  f ∈ cs_fields s /\ caps_is_raw_legacy_field s (f_key f) = false.

Definition accepts (s : zst_caps_struct_t) (m : media) : Prop :=
  cs_media_type s = m_type m /\ cs_type s = m_kind m /\ members_accept s m /\
  forall f, generic s f -> field_accepts f m.

Definition caps_accept (caps : zst_caps_t) (m : media) : Prop := exists s, s ∈ caps /\ accepts s m.

(** ** Well-formed structures *)

Definition str_fits (n : nat) (s : string) : Prop := (String.length s < n)%nat.

Definition value_ok (v : caps_value) : Prop :=
  match v with
  | ZST_CAPS_FIELD_BUFFER None n => n = 0
  | ZST_CAPS_FIELD_BUFFER (Some d) n => 0 < n /\ zlen d = n
  | _ => True
  end.

Definition field_ok (f : zst_caps_field_t) : Prop := str_fits 64 (f_key f) /\ value_ok (f_value f).

Record struct_ok (s : zst_caps_struct_t) : Prop := {
  so_keys : NoDup (map f_key (cs_fields s));
  so_fields : Forall field_ok (cs_fields s);
  so_type : str_fits 64 (cs_media_type s);
  so_pixel_format : str_fits 32 (video_pixel_format s);
  so_format : str_fits 32 (audio_format s);
}.

Definition caps_ok (caps : zst_caps_t) : Prop := Forall struct_ok caps.

(** The two structures have the same members. *)
Definition same_members (s s' : zst_caps_struct_t) : Prop :=
  s' = with_fields s (cs_fields s') (cs_fields_capacity s').

Lemma same_members_refl s : same_members s s.
Proof. by destruct s. Qed.

Lemma same_members_trans s1 s2 s3 : same_members s1 s2 -> same_members s2 s3 -> same_members s1 s3.
Proof. unfold same_members. intros E1 E2. rewrite E2. by rewrite E1. Qed.

Lemma legacy_members s s' k : same_members s s' -> caps_is_raw_legacy_field s' k = caps_is_raw_legacy_field s k.
Proof. intros E. unfold caps_is_raw_legacy_field. by rewrite E. Qed.

Lemma members_accept_same s s' m : same_members s s' -> members_accept s' m <-> members_accept s m.
Proof. intros E. unfold members_accept. by rewrite E. Qed.

Lemma strncpy_fits n s : 1 <= n -> str_fits (Z.to_nat n) (strncpy_n n s).
Proof. intros. unfold str_fits, strncpy_n. pose proof (str_take_length (Z.to_nat (n - 1)) s). lia. Qed.

Lemma strncpy_id n s : str_fits (Z.to_nat n) s -> strncpy_n n s = s.
Proof. unfold str_fits, strncpy_n. intros. apply str_take_all. lia. Qed.

(** ** Looking a field up *)

Lemma find_index_Some key fs i :
  find_index key fs = Some i -> exists f, fs !! i = Some f /\ f_key f = key.
Proof.
  revert i. induction fs as [|f fs IH]; intros i; [done|]. cbn [find_index].
  destruct (streq_spec (f_key f) key) as [E|].
  - intros [= <-]. by exists f.
  - destruct (find_index key fs) as [j|]; [|done]. intros [= <-]. by apply (IH j).
Qed.

Lemma find_index_None key fs : find_index key fs = None <-> key ∉ map f_key fs.
Proof.
  induction fs as [|f fs IH]; cbn [find_index map].
  - split; [intros _; apply not_elem_of_nil|done].
  - rewrite not_elem_of_cons. destruct (streq_spec (f_key f) key) as [E|Hne]; [naive_solver|].
    destruct (find_index key fs); naive_solver.
Qed.

Lemma find_field_Some s key f :
  struct_ok s -> caps_struct_find_field s key = Some f <-> f ∈ cs_fields s /\ f_key f = key.
Proof.
  intros [Hk _ _ _ _]. unfold caps_struct_find_field. split.
  - destruct (find_index key (cs_fields s)) as [i|] eqn:E; [|done]. intros Hf.
    destruct (find_index_Some _ _ _ E) as (g & Eg & <-). rewrite Hf in Eg. injection Eg as ->.
    split; [by eapply list_elem_of_lookup_2|done].
  - intros [Hin <-]. destruct (find_index (f_key f) (cs_fields s)) as [i|] eqn:E.
    + destruct (find_index_Some _ _ _ E) as (g & Eg & Hkey). rewrite Eg. f_equal.
      apply list_elem_of_lookup in Hin as [j Ej].
      assert (i = j) as ->; [|congruence].
      eapply (NoDup_lookup _ i j (f_key f) Hk); change (map f_key) with (fmap (M:=list) f_key);
        rewrite list_lookup_fmap; [by rewrite Eg; cbn; rewrite Hkey|by rewrite Ej].
    + apply find_index_None in E. destruct E. by apply list_elem_of_fmap_2.
Qed.

Lemma find_field_None s key : caps_struct_find_field s key = None <-> key ∉ map f_key (cs_fields s).
Proof.
  unfold caps_struct_find_field. destruct (find_index key (cs_fields s)) as [i|] eqn:E.
  - destruct (find_index_Some _ _ _ E) as (g & Eg & <-). rewrite Eg. split; [done|]. intros Hn. destruct Hn.
    apply list_elem_of_fmap_2. by eapply list_elem_of_lookup_2.
  - split; [|done]. intros _. by apply find_index_None.
Qed.

(** ** Storing a field *)

Section spec.
Context `{CMemoryOk} (stale_size : caps_value -> Z).

(** What a field becomes when copied. *)
Definition copied (key : string) (v : caps_value) : zst_caps_field_t :=
  (caps_field_copy stale_size fresh_value (mk_field key v)).2.

Lemma field_copy_ok dest f : caps_field_copy stale_size dest f = (ZST_OK, copied (f_key f) (f_value f)).
Proof.
  unfold copied, caps_field_copy. destruct f as [key []]; cbn; try done.
  - by destruct s_val.
  - destruct data; [|done]. destruct (0 <? size); [|done]. by rewrite !malloc_total.
Qed.

Lemma copied_id f : field_ok f -> copied (f_key f) (f_value f) = f.
Proof.
  intros [Hk Hv]. unfold copied, caps_field_copy. destruct f as [key v]; cbn in *.
  rewrite (strncpy_id 64 key) by done. destruct v as [| | |[]| |[d|] n]; cbn in *; rewrite ?malloc_total; try done.
  - destruct Hv as [Hpos Hn]. destruct (Z.ltb_spec 0 n); [|lia]. cbn. by rewrite sub_bytes_all.
  - by rewrite Hv.
Qed.

(** What a caller passes to a setter: a block of at least [size] bytes. *)
Definition value_fits (v : caps_value) : Prop :=
  match v with ZST_CAPS_FIELD_BUFFER (Some d) n => n <= zlen d | _ => True end.

Lemma copied_ok key v : value_fits v -> field_ok (copied key v).
Proof.
  intros Hv. unfold copied, caps_field_copy, field_ok. cbn.
  pose proof (strncpy_fits 64 key ltac:(lia)) as Hk.
  destruct v as [| | |[]| |[d|] n]; cbn in *; rewrite ?malloc_total; try done.
  destruct (Z.ltb_spec 0 n); [|done]. cbn. split_and!; try done.
  apply zlen_sub_bytes; lia.
Qed.

Lemma field_ok_fits f : field_ok f -> value_fits (f_value f).
Proof. intros [_ Hv]. destruct (f_value f) as [| | | | |[]]; cbn in *; lia || done. Qed.

(** Storing a well-formed field replaces the one of its key, or adds it. *)
Lemma set_field_spec s f :
  struct_ok s -> field_ok f ->
  exists s', caps_struct_set_field stale_size s f = (ZST_OK, s') /\ struct_ok s' /\ same_members s s' /\
    forall g, g ∈ cs_fields s' <-> g = f \/ (g ∈ cs_fields s /\ f_key g <> f_key f).
Proof.
  intros Hs Hf. destruct Hs as [Hk Hfs Ht Hp Ha]. unfold caps_struct_set_field.
  destruct (find_index (f_key f) (cs_fields s)) as [i|] eqn:E.
  - destruct (find_index_Some _ _ _ E) as (g0 & E0 & Ekey). rewrite field_copy_ok, copied_id by done.
    eexists. split; [done|]. assert (Hlt := lookup_lt_Some _ _ _ E0). split_and!.
    + constructor; cbn; try done.
      * change (map f_key) with (fmap (M:=list) f_key). rewrite list_fmap_insert.
        rewrite list_insert_id; [done|]. by rewrite list_lookup_fmap, E0, <-Ekey.
      * by apply Forall_insert.
    + done.
    + intros g. cbn. split.
      * intros [j Hj]%list_elem_of_lookup. apply list_lookup_insert_Some in Hj as [(_ & -> & _)|[Hne Hj]]; [by left|].
        right. split; [by eapply list_elem_of_lookup_2|]. intros Ek. apply Hne.
        eapply (NoDup_lookup _ i j (f_key f) Hk); change (map f_key) with (fmap (M:=list) f_key);
          rewrite list_lookup_fmap; [by rewrite E0, <-Ekey|by rewrite Hj, <-Ek].
      * intros [->|[Hin Hne]]; [apply list_elem_of_lookup_2 with i; by apply list_lookup_insert_eq|].
        apply list_elem_of_lookup in Hin as [j Hj]. apply list_elem_of_lookup_2 with j.
        rewrite list_lookup_insert_ne; [done|]. intros ->. apply Hne. congruence.
  - apply find_index_None in E. cbv zeta. rewrite malloc_total, andb_false_r, field_copy_ok, copied_id by done.
    eexists. split; [done|]. split_and!; [|done|].
    + constructor; cbn; try done.
      * rewrite map_app. apply NoDup_app. split_and!; [done| |apply NoDup_singleton].
        intros k Hin ->%list_elem_of_singleton. done.
      * apply Forall_app. split; [done|]. by apply Forall_singleton.
    + intros g. cbn. rewrite elem_of_app, list_elem_of_singleton. split; [|tauto].
      intros [Hin| ->]; [|by left]. right. split; [done|]. intros Ek. destruct E. rewrite <-Ek.
      by apply list_elem_of_fmap_2.
Qed.

(** ** Constructors and copies *)

Lemma put_spec cond key v s :
  struct_ok s -> field_ok (mk_field key v) ->
  struct_ok (put stale_size cond key v s) /\ same_members s (put stale_size cond key v s) /\
  forall g, g ∈ cs_fields (put stale_size cond key v s) -> g ∈ cs_fields s \/ g = mk_field key v.
Proof.
  intros Hs Hf. unfold put. destruct cond; [|split_and!; [done|apply same_members_refl|by left]].
  destruct (set_field_spec s (mk_field key v) Hs Hf) as (s' & -> & Hs' & Hm & Hfs). cbn. split_and!; try done.
  intros g [->|[Hin _]]%Hfs; [by right|by left].
Qed.

Definition video_fields (w h : Z) (fr : cdouble) (fmt : option string) : list zst_caps_field_t :=
  [mk_field "width" (ZST_CAPS_FIELD_INT w); mk_field "height" (ZST_CAPS_FIELD_INT h);
   mk_field "framerate" (ZST_CAPS_FIELD_DOUBLE fr); mk_field "pixel-format" (ZST_CAPS_FIELD_STRING fmt)].
Definition audio_fields (ch rate : Z) (fmt : option string) : list zst_caps_field_t :=
  [mk_field "channels" (ZST_CAPS_FIELD_INT ch); mk_field "sample-rate" (ZST_CAPS_FIELD_INT rate);
   mk_field "format" (ZST_CAPS_FIELD_STRING fmt)].

Lemma short_key key v : (String.length key <? 64)%nat = true -> value_ok v -> field_ok (mk_field key v).
Proof. intros Hk Hv. split; [|done]. apply Nat.ltb_lt, Hk. Qed.

Lemma new_struct_ok mt t w h fr fmt ch rate afmt :
  str_fits 32 fmt -> str_fits 32 afmt -> struct_ok (with_audio (with_video (new_struct mt t) w h fr fmt) ch rate afmt).
Proof.
  intros. constructor; cbn; try done; try apply NoDup_nil_2; try (by apply Forall_nil).
  destruct mt; [by apply strncpy_fits|]. unfold str_fits. simpl. lia.
Qed.

Lemma fmt_fits (o : option string) : str_fits 32 match o with Some p => strncpy_n 32 p | None => "" end.
Proof. destruct o; [by apply strncpy_fits|]. unfold str_fits. simpl. lia. Qed.

Lemma create_video_spec mt w h fr fmt :
  exists s, zst_caps_struct_create_video stale_size mt w h fr fmt = Some s /\ struct_ok s /\
    same_members (with_video (new_struct mt ZST_CAPS_VIDEO) w h fr
      match fmt with Some p => strncpy_n 32 p | None => "" end) s /\
    forall g, g ∈ cs_fields s -> g ∈ video_fields w h fr fmt.
Proof.
  unfold zst_caps_struct_create_video. rewrite malloc_total. cbv zeta.
  set (s0 := with_video _ w h fr _). set (raw := caps_media_type_is_raw_video _).
  assert (Hs0 : struct_ok s0).
  { apply (new_struct_ok mt ZST_CAPS_VIDEO w h fr _ 0 0 ""); [apply fmt_fits|unfold str_fits; simpl; lia]. }
  destruct (put_spec (raw || negb (w =? 0)) "width" (ZST_CAPS_FIELD_INT w) s0 Hs0 ltac:(by apply short_key))
    as (H1 & M1 & F1). set (s1 := put _ _ _ _ s0) in *.
  destruct (put_spec (raw || negb (h =? 0)) "height" (ZST_CAPS_FIELD_INT h) s1 H1 ltac:(by apply short_key))
    as (H2 & M2 & F2). set (s2 := put _ _ _ _ s1) in *.
  destruct (put_spec (raw || dnz fr) "framerate" (ZST_CAPS_FIELD_DOUBLE fr) s2 H2 ltac:(by apply short_key))
    as (H3 & M3 & F3). set (s3 := put _ _ _ _ s2) in *.
  destruct (put_spec (raw && is_some fmt) "pixel-format" (ZST_CAPS_FIELD_STRING fmt) s3 H3
              ltac:(by apply short_key)) as (H4 & M4 & F4).
  eexists. split_and!; [done|done|by eauto 8 using same_members_trans|].
  intros g [[[[Hg|Hg]%F1|Hg]%F2|Hg]%F3|Hg]%F4; [by apply elem_of_nil in Hg|subst g; set_solver..].
Qed.

Lemma create_audio_spec mt ch rate fmt :
  exists s, zst_caps_struct_create_audio stale_size mt ch rate fmt = Some s /\ struct_ok s /\
    same_members (with_audio (new_struct mt ZST_CAPS_AUDIO) ch rate
      match fmt with Some p => strncpy_n 32 p | None => "" end) s /\
    forall g, g ∈ cs_fields s -> g ∈ audio_fields ch rate fmt.
Proof.
  unfold zst_caps_struct_create_audio. rewrite malloc_total. cbv zeta.
  set (s0 := with_audio _ ch rate _). set (raw := caps_media_type_is_raw_audio _).
  assert (Hs0 : struct_ok s0).
  { apply (new_struct_ok mt ZST_CAPS_AUDIO 0 0 d_zero "" ch rate); [unfold str_fits; simpl; lia|apply fmt_fits]. }
  destruct (put_spec (raw || negb (ch =? 0)) "channels" (ZST_CAPS_FIELD_INT ch) s0 Hs0 ltac:(by apply short_key))
    as (H1 & M1 & F1). set (s1 := put _ _ _ _ s0) in *.
  destruct (put_spec (raw || negb (rate =? 0)) "sample-rate" (ZST_CAPS_FIELD_INT rate) s1 H1 ltac:(by apply short_key))
    as (H2 & M2 & F2). set (s2 := put _ _ _ _ s1) in *.
  destruct (put_spec (raw && is_some fmt) "format" (ZST_CAPS_FIELD_STRING fmt) s2 H2
              ltac:(by apply short_key)) as (H4 & M4 & F4).
  eexists. split_and!; [done|done|by eauto 8 using same_members_trans|].
  intros g [[[Hg|Hg]%F1|Hg]%F2|Hg]%F4; [by apply elem_of_nil in Hg|subst g; set_solver..].
Qed.

Lemma copy_fields_id fs : Forall field_ok fs -> copy_fields stale_size fs = Some fs.
Proof.
  induction 1 as [|f fs Hf _ IH]; [done|]. cbn [copy_fields]. rewrite field_copy_ok, copied_id by done.
  change (ZST_OK =? ZST_OK) with true. cbv iota. by rewrite IH.
Qed.

(** A copy differs only in its capacity. *)
Lemma struct_copy_spec s :
  struct_ok s -> exists cap, zst_caps_struct_copy stale_size s = Some (with_fields s (cs_fields s) cap).
Proof.
  intros Hs. unfold zst_caps_struct_copy. rewrite malloc_total. cbn [negb].
  destruct (cs_fields s) as [|f fs] eqn:E; [by exists 0|]. rewrite malloc_total. cbn [negb].
  rewrite copy_fields_id; [by eexists|]. rewrite <-E. apply Hs.
Qed.

Lemma with_capacity_ok s cap : struct_ok s -> struct_ok (with_fields s (cs_fields s) cap).
Proof. by intros []. Qed.

(** ** Intersecting members *)

Lemma meet_int_spec a b v :
  match meet_int a b with Some c => any_int c v <-> any_int a v /\ any_int b v | None => ~ (any_int a v /\ any_int b v) end.
Proof. unfold meet_int, any_int. zbool; cbn; zbool; cbn; lia. Qed.

Lemma any_double_zero a v : dnz a = false -> any_double a v.
Proof. by left. Qed.

Lemma meet_double_spec a b v :
  match meet_double a b with
  | Some c => any_double c v <-> any_double a v /\ any_double b v
  | None => ~ (any_double a v /\ any_double b v)
  end.
Proof.
  unfold meet_double, any_double.
  destruct (dnz a) eqn:Ea, (dnz b) eqn:Eb; cbn; rewrite ?Ea, ?Eb; try tauto.
  destruct (deq a b) eqn:E; cbn; rewrite ?Ea.
  - split; [|tauto]. intros Hv. split; [done|]. right. destruct Hv as [|Hv]; [done|].
    apply (deq_trans b a); [by apply deq_sym|done].
  - intros [[|H1] [|H2]]; try done. rewrite (deq_trans a v b) in E; [done|done|by apply deq_sym].
Qed.

Lemma meet_string_spec a b v :
  str_fits 32 a -> str_fits 32 b ->
  match meet_string a b with
  | Some c => str_fits 32 c /\ (any_string c v <-> any_string a v /\ any_string b v)
  | None => ~ (any_string a v /\ any_string b v)
  end.
Proof.
  intros Ha Hb. unfold meet_string, any_string. rewrite !(strncpy_id 32) by done.
  destruct (streq_spec a ""), (streq_spec b ""), (streq_spec a b); cbn; subst;
    rewrite ?(strncpy_id 32) by done; intuition congruence.
Qed.

(** What merging starts from: the members' intersection, and of the generic fields
    at most the first structure's. *)
Record base_of (s1 s2 res : zst_caps_struct_t) : Prop := {
  b_ok : struct_ok res;
  b_type : cs_type res = cs_type s1;
  b_media_type : cs_media_type res = cs_media_type s1;
  b_members : forall m, members_accept res m <-> members_accept s1 m /\ members_accept s2 m;
  b_generic : forall g, generic res g -> g ∈ cs_fields s1;
}.

Lemma raw_same s1 s2 :
  cs_media_type s2 = cs_media_type s1 -> cs_type s2 = cs_type s1 ->
  caps_is_raw_video_struct s2 = caps_is_raw_video_struct s1 /\
  caps_is_raw_audio_struct s2 = caps_is_raw_audio_struct s1 /\
  forall k, caps_is_raw_legacy_field s2 k = caps_is_raw_legacy_field s1 k.
Proof.
  intros E1 E2. unfold caps_is_raw_legacy_field, caps_is_raw_video_struct, caps_is_raw_audio_struct.
  by rewrite E1, E2.
Qed.

Lemma raw_not_both s : caps_is_raw_video_struct s = true -> caps_is_raw_audio_struct s = false.
Proof. unfold caps_is_raw_video_struct, caps_is_raw_audio_struct. destruct (cs_type s); done. Qed.

Lemma intersect_video s1 s2 :
  struct_ok s1 -> struct_ok s2 -> cs_media_type s2 = cs_media_type s1 -> cs_type s2 = cs_type s1 ->
  caps_is_raw_video_struct s1 = true ->
  match intersect_members stale_size s1 s2 with
  | Some res => base_of s1 s2 res
  | None => forall m, ~ (members_accept s1 m /\ members_accept s2 m)
  end.
Proof.
  intros H1 H2 Em Et Ev. destruct (raw_same s1 s2 Em Et) as (Rv & Ra & Rl). rewrite Ev in Rv.
  unfold intersect_members, members_accept. rewrite Ev, Rv.
  pose proof (meet_int_spec (video_width s1) (video_width s2)) as Sw.
  pose proof (meet_int_spec (video_height s1) (video_height s2)) as Sh.
  pose proof (meet_double_spec (video_framerate s1) (video_framerate s2)) as Sf.
  pose proof (fun v => meet_string_spec _ _ v (so_pixel_format _ H1) (so_pixel_format _ H2)) as Sp.
  destruct (meet_int (video_width s1) _) as [w|]; [|intros m; specialize (Sw (m_width m)); tauto].
  destruct (meet_int (video_height s1) _) as [h|]; [|intros m; specialize (Sh (m_height m)); tauto].
  destruct (meet_double _ _) as [fr|]; [|intros m; specialize (Sf (m_framerate m)); tauto].
  destruct (meet_string _ _) as [fmt|]; [|intros m; specialize (Sp (m_pixel_format m)); tauto].
  destruct (create_video_spec (Some (cs_media_type s1)) w h fr (Some fmt)) as (res & -> & Hok & Hm & Hfs).
  destruct (Sp "") as [Hfmt _]. rewrite (strncpy_id 32 fmt) in Hm by done.
  assert (Emt : cs_media_type res = cs_media_type s1).
  { rewrite Hm. cbn. apply strncpy_id, H1. }
  assert (Ety : cs_type res = cs_type s1).
  { unfold caps_is_raw_video_struct in Ev. apply andb_prop in Ev as [E%bool_decide_eq_true _]. by rewrite Hm. }
  destruct (raw_same s1 res Emt Ety) as (Rv' & _ & Rl').
  constructor; try done.
  - intros m. unfold members_accept. rewrite Rv', Ev, Rv, Hm. cbn.
    specialize (Sw (m_width m)). specialize (Sh (m_height m)). specialize (Sf (m_framerate m)).
    specialize (Sp (m_pixel_format m)). tauto.
  - intros g [Hg Hl]. rewrite Rl' in Hl. unfold caps_is_raw_legacy_field in Hl. rewrite Ev in Hl.
    apply Hfs in Hg. unfold video_fields in Hg. by set_unfold in Hg; destruct Hg as [->|[->|[->|[->|[]]]]].
Qed.

Lemma intersect_audio s1 s2 :
  struct_ok s1 -> struct_ok s2 -> cs_media_type s2 = cs_media_type s1 -> cs_type s2 = cs_type s1 ->
  caps_is_raw_video_struct s1 = false -> caps_is_raw_audio_struct s1 = true ->
  match intersect_members stale_size s1 s2 with
  | Some res => base_of s1 s2 res
  | None => forall m, ~ (members_accept s1 m /\ members_accept s2 m)
  end.
Proof.
  intros H1 H2 Em Et Ev Ea. destruct (raw_same s1 s2 Em Et) as (Rv & Ra & Rl). rewrite Ev in Rv. rewrite Ea in Ra.
  unfold intersect_members, members_accept. rewrite Ev, Rv, Ea, Ra.
  pose proof (meet_int_spec (audio_channels s1) (audio_channels s2)) as Sc.
  pose proof (meet_int_spec (audio_sample_rate s1) (audio_sample_rate s2)) as Sr.
  pose proof (fun v => meet_string_spec _ _ v (so_format _ H1) (so_format _ H2)) as Sf.
  destruct (meet_int (audio_channels s1) _) as [ch|]; [|intros m; specialize (Sc (m_channels m)); tauto].
  destruct (meet_int (audio_sample_rate s1) _) as [rate|]; [|intros m; specialize (Sr (m_sample_rate m)); tauto].
  destruct (meet_string _ _) as [fmt|]; [|intros m; specialize (Sf (m_format m)); tauto].
  destruct (create_audio_spec (Some (cs_media_type s1)) ch rate (Some fmt)) as (res & -> & Hok & Hm & Hfs).
  destruct (Sf "") as [Hfmt _]. rewrite (strncpy_id 32 fmt) in Hm by done.
  assert (Emt : cs_media_type res = cs_media_type s1).
  { rewrite Hm. cbn. apply strncpy_id, H1. }
  assert (Ety : cs_type res = cs_type s1).
  { unfold caps_is_raw_audio_struct in Ea. apply andb_prop in Ea as [E%bool_decide_eq_true _]. by rewrite Hm. }
  destruct (raw_same s1 res Emt Ety) as (Rv' & Ra' & Rl').
  constructor; try done.
  - intros m. unfold members_accept. rewrite Rv', Ev, Rv, Ra', Ea, Ra, Hm. cbn.
    specialize (Sc (m_channels m)). specialize (Sr (m_sample_rate m)). specialize (Sf (m_format m)). tauto.
  - intros g [Hg Hl]. rewrite Rl' in Hl. unfold caps_is_raw_legacy_field in Hl. rewrite Ev, Ea in Hl.
    apply Hfs in Hg. unfold audio_fields in Hg. by set_unfold in Hg; destruct Hg as [->|[->|[->|[]]]].
Qed.

Lemma intersect_members_spec s1 s2 :
  struct_ok s1 -> struct_ok s2 -> cs_media_type s2 = cs_media_type s1 -> cs_type s2 = cs_type s1 ->
  match intersect_members stale_size s1 s2 with
  | Some res => base_of s1 s2 res
  | None => forall m, ~ (members_accept s1 m /\ members_accept s2 m)
  end.
Proof.
  intros H1 H2 Em Et.
  destruct (caps_is_raw_video_struct s1) eqn:Ev; [by apply intersect_video|].
  destruct (caps_is_raw_audio_struct s1) eqn:Ea; [by apply intersect_audio|].
  unfold intersect_members. rewrite Ev, Ea. destruct (struct_copy_spec s1 H1) as [cap ->].
  destruct (raw_same s1 s2 Em Et) as (Rv & Ra & _).
  constructor; try done; [by apply with_capacity_ok| |].
  - intros m. unfold members_accept. rewrite Rv, Ra. change (caps_is_raw_video_struct (with_fields _ _ _)) with (caps_is_raw_video_struct s1).
    change (caps_is_raw_audio_struct (with_fields _ _ _)) with (caps_is_raw_audio_struct s1). rewrite Ev, Ea. tauto.
  - by intros g [Hg _].
Qed.

(** ** Merging generic fields *)

(** Storing a generic field adds it to the generic fields, which must be consistent
    with it: all come from a set [P] with one field of each key. *)
Lemma set_generic (P : zst_caps_field_t -> Prop) s f :
  (forall g h, P g -> P h -> f_key g = f_key h -> g = h) ->
  struct_ok s -> field_ok f -> caps_is_raw_legacy_field s (f_key f) = false ->
  P f -> (forall g, generic s g -> P g) ->
  exists s', caps_struct_set_field stale_size s f = (ZST_OK, s') /\ struct_ok s' /\ same_members s s' /\
    generic s' f /\ (forall g, generic s g -> generic s' g) /\ (forall g, generic s' g -> P g).
Proof.
  intros Huniq Hs Hf Hl HPf HP. destruct (set_field_spec s f Hs Hf) as (s' & E & Hs' & Hm & Hfs).
  exists s'. unfold generic in *. split_and!; try done.
  - apply Hfs. by left.
  - by rewrite (legacy_members s s').
  - intros g [Hin Hg]. rewrite (legacy_members s s') by done. split; [|done]. apply Hfs.
    destruct (decide (f_key g = f_key f)) as [Ek|Ek]; [left|by right]. apply Huniq; auto.
  - intros g [[->|[Hin _]]%Hfs Hg]; [done|]. rewrite (legacy_members s s') in Hg by done. by apply HP.
Qed.

Definition clashes (s2 : zst_caps_struct_t) (f1 : zst_caps_field_t) : Prop :=
  exists f2, f2 ∈ cs_fields s2 /\ f_key f2 = f_key f1 /\ value_eq (f_value f1) (f_value f2) = false.

Lemma field_unique s g h : struct_ok s -> g ∈ cs_fields s -> h ∈ cs_fields s -> f_key g = f_key h -> g = h.
Proof.
  intros Hs Hg Hh E.
  assert (E1 : caps_struct_find_field s (f_key h) = Some g) by (by apply find_field_Some).
  assert (E2 : caps_struct_find_field s (f_key h) = Some h) by (by apply find_field_Some). congruence.
Qed.

Lemma merge_first_spec s1 s2 fs res :
  struct_ok s1 -> struct_ok s2 -> (forall f, f ∈ fs -> f ∈ cs_fields s1) ->
  struct_ok res -> (forall k, caps_is_raw_legacy_field res k = caps_is_raw_legacy_field s1 k) ->
  (forall g, generic res g -> g ∈ cs_fields s1) ->
  match merge_first stale_size s1 s2 fs res with
  | Some res' =>
      struct_ok res' /\ same_members res res' /\
      (forall g, generic res g -> generic res' g) /\ (forall g, generic res' g -> g ∈ cs_fields s1) /\
      forall f, f ∈ fs -> caps_is_raw_legacy_field s1 (f_key f) = false -> generic res' f /\ ~ clashes s2 f
  | None => exists f, generic s1 f /\ clashes s2 f
  end.
Proof.
  intros Hs1 Hs2. revert res. induction fs as [|f fs IH]; intros res Hfs Hres Hl HP; cbn [merge_first].
  { split_and!; [done|apply same_members_refl|done|done|]. intros f Hf. by apply elem_of_nil in Hf. }
  assert (Hin : f ∈ cs_fields s1) by (apply Hfs; by left).
  assert (Hfs' : forall g, g ∈ fs -> g ∈ cs_fields s1) by (intros; apply Hfs; by right).
  destruct (caps_is_raw_legacy_field s1 (f_key f)) eqn:Elf.
  { specialize (IH res Hfs' Hres Hl HP). destruct (merge_first _ _ _ _ _); [|done].
    destruct IH as (? & ? & ? & ? & Hall). split_and!; try done.
    intros g [->|Hg]%elem_of_cons E; [congruence|by apply Hall]. }
  cbv zeta. assert (Hclash : match caps_struct_find_field s2 (f_key f) with
                   | Some f2 => negb (caps_field_equal f f2) | None => false end = true <-> clashes s2 f).
  { destruct (caps_struct_find_field s2 (f_key f)) as [f2|] eqn:E2.
    - pose proof (proj1 (find_field_Some s2 _ _ Hs2) E2) as [Hf2 Hkey]. rewrite field_equal_values, negb_true_iff.
      split; [intros; by exists f2|]. intros (f2' & Hf2' & Hkey' & E).
      by rewrite (field_unique s2 f2 f2') by (done || congruence).
    - apply find_field_None in E2. split; [done|]. intros (f2 & Hf2 & Hkey & _). destruct E2. rewrite <-Hkey.
      by apply list_elem_of_fmap_2. }
  destruct (match caps_struct_find_field _ _ with Some f2 => _ | None => _ end).
  { exists f. split; [done|]. by apply Hclash. }
  destruct (set_generic (fun g => g ∈ cs_fields s1) res f) as (res1 & -> & Hres1 & Hm1 & Hgf & Hmono & HP1); try done.
  - intros g h. by apply field_unique.
  - eapply Forall_forall; [apply Hs1|done].
  - by rewrite Hl.
  - change (ZST_OK =? ZST_OK) with true. cbv iota.
    specialize (IH res1 Hfs' Hres1).
    specialize (IH ltac:(intros k; rewrite (legacy_members res res1) by done; apply Hl) HP1).
    destruct (merge_first _ _ _ _ _) as [res'|]; [|done]. destruct IH as (? & ? & Hm' & ? & Hall). split_and!; try done.
    + by eapply same_members_trans.
    + intros g Hg. by apply Hm', Hmono.
    + intros g [->|Hg]%elem_of_cons E; [|by apply Hall]. split; [by apply Hm'|]. intros Hc%Hclash. done.
Qed.

(** The fields the second structure adds. *)
Definition only_second (s1 s2 : zst_caps_struct_t) (g : zst_caps_field_t) : Prop :=
  g ∈ cs_fields s2 /\ f_key g ∉ map f_key (cs_fields s1).

Definition of_both (s1 s2 : zst_caps_struct_t) (g : zst_caps_field_t) : Prop :=
  g ∈ cs_fields s1 \/ only_second s1 s2 g.

Lemma of_both_unique s1 s2 g h :
  struct_ok s1 -> struct_ok s2 -> of_both s1 s2 g -> of_both s1 s2 h -> f_key g = f_key h -> g = h.
Proof.
  intros H1 H2 [Hg|[Hg Hng]] [Hh|[Hh Hnh]] E; [by apply (field_unique s1)| | |by apply (field_unique s2)].
  - destruct Hnh. rewrite <-E. by apply list_elem_of_fmap_2.
  - destruct Hng. rewrite E. by apply list_elem_of_fmap_2.
Qed.

Lemma merge_second_spec s1 s2 fs res :
  struct_ok s1 -> struct_ok s2 -> (forall f, f ∈ fs -> f ∈ cs_fields s2) ->
  struct_ok res -> (forall k, caps_is_raw_legacy_field res k = caps_is_raw_legacy_field s2 k) ->
  (forall g, generic res g -> of_both s1 s2 g) ->
  exists res', merge_second stale_size s1 s2 fs res = Some res' /\ struct_ok res' /\ same_members res res' /\
    (forall g, generic res g -> generic res' g) /\ (forall g, generic res' g -> of_both s1 s2 g) /\
    forall f, f ∈ fs -> caps_is_raw_legacy_field s2 (f_key f) = false -> only_second s1 s2 f -> generic res' f.
Proof.
  intros Hs1 Hs2. revert res. induction fs as [|f fs IH]; intros res Hfs Hres Hl HP; cbn [merge_second].
  { exists res. split_and!; [done|done|apply same_members_refl|done|done|].
    intros f Hf. by apply elem_of_nil in Hf. }
  assert (Hin : f ∈ cs_fields s2) by (apply Hfs; by left).
  assert (Hfs' : forall g, g ∈ fs -> g ∈ cs_fields s2) by (intros; apply Hfs; by right).
  destruct (caps_is_raw_legacy_field s2 (f_key f)) eqn:Elf.
  { destruct (IH res Hfs' Hres Hl HP) as (res' & -> & ? & ? & ? & ? & Hall). exists res'. split_and!; try done.
    intros g [->|Hg]%elem_of_cons E; [congruence|by apply Hall]. }
  destruct (caps_struct_find_field s1 (f_key f)) as [f1|] eqn:E1.
  { destruct (IH res Hfs' Hres Hl HP) as (res' & -> & ? & ? & ? & ? & Hall). exists res'. split_and!; try done.
    intros g [->|Hg]%elem_of_cons E; [|by apply Hall]. intros [_ Hn]. apply find_field_None in Hn. congruence. }
  apply find_field_None in E1.
  destruct (set_generic (of_both s1 s2) res f) as (res1 & -> & Hres1 & Hm1 & Hgf & Hmono & HP1); try done.
  - intros g h. by apply of_both_unique.
  - eapply Forall_forall; [apply Hs2|done].
  - by rewrite Hl.
  - by right.
  - change (ZST_OK =? ZST_OK) with true. cbv iota.
    destruct (IH res1 Hfs' Hres1) as (res' & -> & ? & ? & Hm' & ? & Hall); [|done|].
    { intros k. rewrite (legacy_members res res1) by done. apply Hl. }
    exists res'. split_and!; try done; [by eapply same_members_trans| |].
    + intros g Hg. by apply Hm', Hmono.
    + intros g [->|Hg]%elem_of_cons E ?; [by apply Hm'|by apply Hall].
Qed.

(** A medium that accepts a field accepts an equal one, and never two that differ. *)
Lemma field_accepts_eq f g m :
  f_key f = f_key g -> value_eq (f_value f) (f_value g) = true -> field_accepts f m -> field_accepts g m.
Proof.
  intros Ek E (v & Hv & Hf). exists v. rewrite <-Ek. split; [done|].
  apply (value_eq_trans _ (f_value f)); [by apply value_eq_sym|done].
Qed.

Lemma field_accepts_clash f g m :
  f_key f = f_key g -> value_eq (f_value f) (f_value g) = false -> field_accepts f m -> ~ field_accepts g m.
Proof.
  intros Ek E (v & Hv & Hf) (w & Hw & Hg). rewrite Ek, Hw in Hv. injection Hv as ->.
  rewrite (value_eq_trans _ v) in E; [done|done|by apply value_eq_sym].
Qed.

Lemma struct_intersect_spec s1 s2 :
  struct_ok s1 -> struct_ok s2 ->
  match zst_caps_struct_intersect stale_size s1 s2 with
  | Some r => struct_ok r /\ forall m, accepts r m <-> accepts s1 m /\ accepts s2 m
  | None => forall m, ~ (accepts s1 m /\ accepts s2 m)
  end.
Proof.
  intros H1 H2. unfold zst_caps_struct_intersect.
  destruct (streq_spec (cs_media_type s1) (cs_media_type s2)) as [Em|Hne]; cbn [negb];
    [|intros m [(? & _) (? & _)]; congruence].
  case_bool_decide as Et; cbn [negb]; [|intros m [(_ & ? & _) (_ & ? & _)]; congruence].
  destruct (raw_same s1 s2 (eq_sym Em) (eq_sym Et)) as (_ & _ & Hl12).
  pose proof (intersect_members_spec s1 s2 H1 H2 (eq_sym Em) (eq_sym Et)) as Hb.
  destruct (intersect_members _ s1 s2) as [res|];
    [|intros m [(_ & _ & ? & _) (_ & _ & ? & _)]; by apply (Hb m)].
  destruct Hb as [Hok Ety Emt Hmem Hgen].
  destruct (raw_same s1 res Emt Ety) as (_ & _ & Hl).
  pose proof (merge_first_spec s1 s2 (cs_fields s1) res H1 H2 (fun _ h => h) Hok Hl Hgen) as Hf.
  destruct (merge_first _ _ _ _ _) as [res1|].
  2: { destruct Hf as (f & Hgf & (f2 & Hf2 & Ek & Eq)). intros m [(_ & _ & _ & A1) (_ & _ & _ & A2)].
    apply (field_accepts_clash f f2 m); [done|done|by apply A1|]. apply A2. split; [done|].
    rewrite Ek, Hl12. apply Hgf. }
  destruct Hf as (Hok1 & Hm1 & _ & Hgen1 & Hall1).
  destruct (merge_second_spec s1 s2 (cs_fields s2) res1) as (r & -> & Hr & Hm2 & Hmono & Hgen2 & Hall2); try done.
  { intros k. rewrite (legacy_members res res1), Hl, Hl12 by done. done. }
  { intros g Hg. left. by apply Hgen1. }
  split; [done|]. assert (Hmr : same_members res r) by by eapply same_members_trans.
  assert (Hlr : forall k, caps_is_raw_legacy_field r k = caps_is_raw_legacy_field s1 k)
    by (intros; rewrite (legacy_members res r) by done; apply Hl).
  intros m. unfold accepts.
  assert (cs_media_type r = cs_media_type s1 /\ cs_type r = cs_type s1) as [-> ->] by (rewrite Hmr; done).
  rewrite (members_accept_same res r) by done. rewrite Hmem. split.
  - intros (Em1 & Et1 & [M1 M2] & Hr'). split_and!; try done; try congruence.
    + intros f [Hin Hg]. apply Hr', Hmono. by apply Hall1.
    + intros f [Hin Hg]. destruct (decide (f_key f ∈ map f_key (cs_fields s1))) as [Hk|Hk].
      2: { apply Hr', Hall2; [done|done|by split]. }
      apply list_elem_of_fmap in Hk as (f1 & Ek & Hf1). rewrite Hl12, Ek in Hg.
      destruct (Hall1 f1 Hf1 Hg) as [Hg1 Hnc]. apply (field_accepts_eq f1); [done| |by apply Hr', Hmono].
      destruct (value_eq (f_value f1) (f_value f)) eqn:E; [done|]. destruct Hnc. by exists f.
  - intros [(Em1 & Et1 & M1 & A1) (_ & _ & M2 & A2)]. split_and!; try done.
    intros f Hg. pose proof Hg as [_ Hleg]. rewrite Hlr in Hleg. apply Hgen2 in Hg as [Hg|[Hg _]]; [apply A1|apply A2].
    + by split.
    + split; [done|]. by rewrite Hl12.
Qed.

Lemma intersect_spec c1 c2 :
  caps_ok c1 -> caps_ok c2 ->
  exists r, zst_caps_intersect stale_size (Some c1) (Some c2) = Some r /\ caps_ok r /\
    forall m, caps_accept r m <-> caps_accept c1 m /\ caps_accept c2 m.
Proof.
  intros H1 H2. unfold zst_caps_intersect. rewrite malloc_total. eexists. split; [done|].
  unfold caps_ok in *. rewrite Forall_forall in H1, H2. split.
  - apply Forall_forall. intros r (s1 & (s2 & Hr & Hs2)%list_elem_of_bind & Hs1)%list_elem_of_bind.
    pose proof (struct_intersect_spec s1 s2 (H1 _ Hs1) (H2 _ Hs2)) as Hi.
    destruct (zst_caps_struct_intersect _ s1 s2); [|by apply elem_of_nil in Hr].
    apply list_elem_of_singleton in Hr as ->. apply Hi.
  - intros m. split.
    + intros (r & (s1 & (s2 & Hr & Hs2)%list_elem_of_bind & Hs1)%list_elem_of_bind & Hm).
      pose proof (struct_intersect_spec s1 s2 (H1 _ Hs1) (H2 _ Hs2)) as Hi.
      destruct (zst_caps_struct_intersect _ s1 s2); [|by apply elem_of_nil in Hr].
      apply list_elem_of_singleton in Hr as ->. apply Hi in Hm as [??]. split; [by exists s1|by exists s2].
    + intros [(s1 & Hs1 & A1) (s2 & Hs2 & A2)].
      pose proof (struct_intersect_spec s1 s2 (H1 _ Hs1) (H2 _ Hs2)) as Hi.
      destruct (zst_caps_struct_intersect _ s1 s2) as [r|] eqn:E; [|by destruct (Hi m)].
      exists r. split; [|by apply Hi]. apply list_elem_of_bind. exists s1. split; [|done].
      apply list_elem_of_bind. exists s2. split; [|done]. rewrite E. by apply list_elem_of_singleton.
Qed.

(** C6. Negotiation: the intersection of two capabilities accepts exactly the media
    that both accept, and is well formed. *)
Theorem intersect_meets c1 c2 :
  caps_ok c1 -> caps_ok c2 ->
  exists r, zst_caps_intersect stale_size (Some c1) (Some c2) = Some r /\ caps_ok r /\
    forall m, caps_accept r m <-> caps_accept c1 m /\ caps_accept c2 m.
Proof. apply intersect_spec. Qed.

(** ** Setters and getters *)

Lemma copied_key key v : f_key (copied key v) = strncpy_n 64 key.
Proof.
  unfold copied, caps_field_copy. cbn. destruct v as [| | |[]| |[d|] n]; try done.
  destruct (0 <? n); [|done]. by destruct (malloc_ok n).
Qed.

Lemma copied_take key v : copied (strncpy_n 64 key) v = copied key v.
Proof.
  unfold copied, caps_field_copy. cbn [f_key f_value].
  assert (strncpy_n 64 (strncpy_n 64 key) = strncpy_n 64 key) as -> by apply str_take_take. done.
Qed.

Lemma set_first_spec upd key v s rest :
  struct_ok (upd s) -> value_fits v ->
  exists s', set_first stale_size upd key v (Some (s :: rest)) = (ZST_OK, Some (s' :: rest)) /\
    struct_ok s' /\ same_members (upd s) s' /\
    forall g, g ∈ cs_fields s' <->
      g = copied key v \/ (g ∈ cs_fields (upd s) /\ f_key g <> strncpy_n 64 key).
Proof.
  intros Hs Hv. unfold set_first. pose proof (copied_ok key v Hv) as Hok.
  assert (E : caps_struct_set_field stale_size (upd s) (mk_field (strncpy_n 64 key) v) =
              caps_struct_set_field stale_size (upd s) (copied key v)).
  { unfold caps_struct_set_field. rewrite !field_copy_ok, (copied_id _ Hok), copied_key. cbn [f_key f_value].
    rewrite copied_take. destruct (find_index _ _); [|done].
    rewrite !field_copy_ok, (copied_id _ Hok). cbn [f_key f_value]. by rewrite copied_take. }
  rewrite E. destruct (set_field_spec (upd s) _ Hs Hok) as (s' & -> & Hs' & Hm & Hfs).
  rewrite copied_key in Hfs. by exists s'.
Qed.

Definition bytes_value (data : option bytes) (size : Z) : option bytes * Z :=
  match data with
  | Some d => if 0 <? size then (Some (sub_bytes 0 size d), size) else (None, 0)
  | None => (None, 0)
  end.

Lemma get_set upd key v s rest k :
  struct_ok (upd s) -> (forall key', caps_struct_find_field (upd s) key' = caps_struct_find_field s key') ->
  value_fits v ->
  (str_fits 64 key ->
     get_first (set_first stale_size upd key v (Some (s :: rest))).2 key = Some (f_value (copied key v))) /\
  (~ str_fits 64 key -> get_first (set_first stale_size upd key v (Some (s :: rest))).2 key = None) /\
  (k <> strncpy_n 64 key ->
     get_first (set_first stale_size upd key v (Some (s :: rest))).2 k = get_first (Some (s :: rest)) k).
Proof.
  intros Hs Hupd Hv. destruct (set_first_spec upd key v s rest Hs Hv) as (s' & -> & Hs' & _ & Hfs).
  cbn [snd get_first]. split_and!.
  - intros Hk. assert (caps_struct_find_field s' key = Some (copied key v)) as ->; [|done].
    apply find_field_Some; [done|]. split; [apply Hfs; by left|]. rewrite copied_key. by apply (strncpy_id 64).
  - intros Hk. assert (caps_struct_find_field s' key = None) as ->; [|done].
    apply find_field_None. intros (g & E & Hg)%list_elem_of_fmap. apply Hk. subst key.
    pose proof (so_fields _ Hs') as Hf. rewrite Forall_forall in Hf. apply Hf, Hg.
  - intros Hne. rewrite <-Hupd. f_equal. destruct (caps_struct_find_field (upd s) k) as [g|] eqn:E.
    + apply find_field_Some in E as [Hg Hgk]; [|done]. apply find_field_Some; [done|]. split; [|done].
      apply Hfs. right. split; [done|]. congruence.
    + apply find_field_None in E. apply find_field_None. intros (g & Ek & Hg)%list_elem_of_fmap.
      apply E. subst k. apply Hfs in Hg as [->|[Hg _]]; [by rewrite copied_key in Hne|by apply list_elem_of_fmap_2].
Qed.

(** Members do not hold fields. *)
Lemma int_members_ok key v s : struct_ok s -> struct_ok (set_int_members key v s).
Proof. intros []. unfold set_int_members. destruct (cs_type s); repeat case_match; by constructor. Qed.
Lemma double_members_ok key v s : struct_ok s -> struct_ok (set_double_members key v s).
Proof. intros []. unfold set_double_members. case_match; by constructor. Qed.
Lemma string_members_ok key v s : struct_ok s -> struct_ok (set_string_members key v s).
Proof.
  intros []. unfold set_string_members. pose proof (strncpy_fits 32 (default "" v) ltac:(lia)).
  destruct (cs_type s); repeat case_match; by constructor.
Qed.

Lemma int_members_fields key v s k :
  caps_struct_find_field (set_int_members key v s) k = caps_struct_find_field s k.
Proof. unfold set_int_members. destruct (cs_type s); by repeat case_match. Qed.
Lemma double_members_fields key v s k :
  caps_struct_find_field (set_double_members key v s) k = caps_struct_find_field s k.
Proof. unfold set_double_members. by case_match. Qed.
Lemma string_members_fields key v s k :
  caps_struct_find_field (set_string_members key v s) k = caps_struct_find_field s k.
Proof. unfold set_string_members. destruct (cs_type s); by repeat case_match. Qed.

Lemma get_set_same upd key v s rest :
  struct_ok (upd s) -> (forall key', caps_struct_find_field (upd s) key' = caps_struct_find_field s key') ->
  value_fits v -> str_fits 64 key ->
  get_first (set_first stale_size upd key v (Some (s :: rest))).2 key = Some (f_value (copied key v)).
Proof. intros. by apply (get_set upd key v s rest key). Qed.

(** A field set under a key of at most 63 characters is read back by the getter of
    its type (a block by its first [size] bytes). *)
Theorem set_then_get s rest key i u d str n1 n2 data size :
  struct_ok s -> str_fits 64 key -> match data with Some b => size <= zlen b | None => True end ->
  let caps := Some (s :: rest) in
  zst_caps_get_int (zst_caps_set_int stale_size caps key i).2 key = Some i /\
  zst_caps_get_uint (zst_caps_set_uint stale_size caps key u).2 key = Some u /\
  zst_caps_get_double (zst_caps_set_double stale_size caps key d).2 key = Some d /\
  zst_caps_get_string (zst_caps_set_string stale_size caps key str).2 key = Some str /\
  zst_caps_get_fraction (zst_caps_set_fraction stale_size caps key n1 n2).2 key = Some (n1, n2) /\
  zst_caps_get_buffer (zst_caps_set_buffer stale_size caps key data size).2 key = Some (bytes_value data size).
Proof.
  intros Hs Hk Hd. cbv zeta.
  unfold zst_caps_get_int, zst_caps_get_uint, zst_caps_get_double, zst_caps_get_string,
    zst_caps_get_fraction, zst_caps_get_buffer, zst_caps_set_int, zst_caps_set_uint, zst_caps_set_double,
    zst_caps_set_string, zst_caps_set_fraction, zst_caps_set_buffer.
  split_and!; rewrite get_set_same
    by (done || (by destruct data) || auto using int_members_ok, double_members_ok, string_members_ok,
          int_members_fields, double_members_fields, string_members_fields);
    unfold copied, caps_field_copy; cbn; try done.
  - destruct str; cbn; by rewrite ?malloc_total.
  - unfold bytes_value. destruct data as [b|]; [|done]. destruct (0 <? size); [|done]. by rewrite malloc_total.
Qed.

(** Setting a field changes no other field; a key of 64 characters or more is cut,
    so the field it sets is not found under it. *)
Theorem set_keeps_others s rest key v k :
  struct_ok s ->
  (k <> strncpy_n 64 key ->
   get_first (zst_caps_set_int stale_size (Some (s :: rest)) key v).2 k = get_first (Some (s :: rest)) k) /\
  (64 <= Z.of_nat (String.length key) ->
   zst_caps_get_int (zst_caps_set_int stale_size (Some (s :: rest)) key v).2 key = None).
Proof.
  intros Hs. unfold zst_caps_get_int, zst_caps_set_int.
  destruct (get_set (set_int_members key v) key (ZST_CAPS_FIELD_INT v) s rest k) as (_ & H1 & H2);
    [by apply int_members_ok|apply int_members_fields|done|].
  split; [done|]. intros Hlong. by rewrite H1 by (unfold str_fits; lia).
Qed.

(** ** Fixating *)

(** [s'] is [s] with the field [f] stored. *)
Record stored (s s' : zst_caps_struct_t) (f : zst_caps_field_t) : Prop := {
  st_ok : struct_ok s';
  st_members : same_members s s';
  st_fields : forall g, g ∈ cs_fields s' <-> g = f \/ (g ∈ cs_fields s /\ f_key g <> f_key f);
}.

(** Setting a member to the value it has only stores the field. *)
Lemma store_member upd key v s :
  upd s = s -> struct_ok s -> field_ok (mk_field key v) ->
  exists s', set_first stale_size upd key v (Some [s]) = (ZST_OK, Some [s']) /\ stored s s' (mk_field key v).
Proof.
  intros Hu Hs Hf. destruct (set_first_spec upd key v s [] ltac:(by rewrite Hu) (field_ok_fits _ Hf))
    as (s' & E & Hs' & Hm & Hfs).
  exists s'. split; [done|]. rewrite Hu in *. constructor; [done..|].
  change (copied key v) with (copied (f_key (mk_field key v)) (f_value (mk_field key v))) in Hfs.
  by rewrite (copied_id _ Hf), (strncpy_id 64 key) in Hfs by apply Hf.
Qed.

Lemma stored_generic s s' f :
  stored s s' f -> caps_is_raw_legacy_field s (f_key f) = true -> forall g, generic s' g <-> generic s g.
Proof.
  intros [_ Hm Hfs] Hl g. unfold generic. rewrite (legacy_members s s'), Hfs by done. split.
  - intros [[->|[? _]] Hg]; [congruence|done].
  - intros [Hin Hg]. split; [|done]. right. split; [done|]. intros E. congruence.
Qed.

Lemma stored_found s s' f : stored s s' f -> caps_struct_find_field s' (f_key f) = Some f.
Proof. intros [Hs _ Hfs]. apply find_field_Some; [done|]. split; [apply Hfs; by left|done]. Qed.

Lemma stored_other s s' f k :
  struct_ok s -> stored s s' f -> k <> f_key f -> caps_struct_find_field s' k = caps_struct_find_field s k.
Proof.
  intros Hs [Hs' _ Hfs] Hne. destruct (caps_struct_find_field s k) as [g|] eqn:E.
  - apply find_field_Some in E as [Hg Ek]; [|done]. apply find_field_Some; [done|]. split; [|done].
    apply Hfs. right. split; [done|congruence].
  - apply find_field_None in E. apply find_field_None. intros (g & -> & Hg)%list_elem_of_fmap.
    apply Hfs in Hg as [->|[Hg _]]; [done|]. apply E. by apply list_elem_of_fmap_2.
Qed.

(** The result of fixating [first]: no wildcard left, nothing new accepted, the
    fields that repeat members up to date. *)
Record fixed_from (first s : zst_caps_struct_t) : Prop := {
  ff_ok : struct_ok s;
  ff_fixed : cs_media_type s <> "" -> zst_caps_struct_is_fixed s = true;
  ff_narrows : forall m, accepts s m -> accepts first m;
  ff_fields :
    if caps_is_raw_video_struct s then
      forall f, f ∈ video_fields (video_width s) (video_height s) (video_framerate s) (Some (video_pixel_format s)) ->
        caps_struct_find_field s (f_key f) = Some f
    else if caps_is_raw_audio_struct s then
      forall f, f ∈ audio_fields (audio_channels s) (audio_sample_rate s) (Some (audio_format s)) ->
        caps_struct_find_field s (f_key f) = Some f
    else s = first;
}.

Lemma set_width_id s : set_int_members "width" (video_width s) s = s.
Proof. by destruct s as [? []]. Qed.
Lemma set_height_id s : set_int_members "height" (video_height s) s = s.
Proof. by destruct s as [? []]. Qed.
Lemma set_framerate_id s : set_double_members "framerate" (video_framerate s) s = s.
Proof. by destruct s as [? []]. Qed.
Lemma set_pixel_format_id s : struct_ok s -> set_string_members "pixel-format" (Some (video_pixel_format s)) s = s.
Proof.
  intros [_ _ _ Hp _]. unfold set_string_members. cbn [default]. rewrite (strncpy_id 32) by done.
  by destruct s as [? []].
Qed.
Lemma set_channels_id s : set_int_members "channels" (audio_channels s) s = s.
Proof. by destruct s as [? []]. Qed.
Lemma set_sample_rate_id s : set_int_members "sample-rate" (audio_sample_rate s) s = s.
Proof. by destruct s as [? []]. Qed.
Lemma set_format_id s : struct_ok s -> set_string_members "format" (Some (audio_format s)) s = s.
Proof.
  intros [_ _ _ _ Hp]. unfold set_string_members. cbn [default]. rewrite (strncpy_id 32) by done.
  by destruct s as [? []].
Qed.

Lemma resolve_video_ok s : struct_ok s -> struct_ok (resolve_video s).
Proof. intros []. constructor; cbn; try done. case_match; [unfold str_fits; simpl; lia|done]. Qed.
Lemma resolve_audio_ok s : struct_ok s -> struct_ok (resolve_audio s).
Proof. intros []. constructor; cbn; try done. case_match; [unfold str_fits; simpl; lia|done]. Qed.

Lemma any_resolved_int a n v : any_int (if a =? 0 then n else a) v -> any_int a v.
Proof. unfold any_int. zbool; lia. Qed.
Lemma any_resolved_string a n v : any_string (if streq a "" then n else a) v -> any_string a v.
Proof. unfold any_string. destruct (streq_spec a ""); tauto. Qed.
Lemma any_resolved_double a n v : any_double (if dnz a then a else n) v -> any_double a v.
Proof. unfold any_double. destruct (dnz a) eqn:E; rewrite ?E; tauto. Qed.

Lemma resolved_int a n : n <> 0 -> ((if a =? 0 then n else a) =? 0) = false.
Proof. intros. destruct (Z.eqb_spec a 0); by apply Z.eqb_neq. Qed.
Lemma resolved_string a n : n <> "" -> streq (if streq a "" then n else a) "" = false.
Proof. intros. destruct (streq_spec a ""); by apply String.eqb_neq. Qed.
Lemma resolved_double a n : dnz n = true -> dnz (if dnz a then a else n) = true.
Proof. intros. by destruct (dnz a) eqn:E. Qed.

(** From the stores to the result: same media, members and generic fields kept. *)
Lemma narrows first r s :
  same_members r s -> (forall g, generic s g <-> generic first g) ->
  cs_media_type r = cs_media_type first -> cs_type r = cs_type first ->
  (forall m, members_accept r m -> members_accept first m) ->
  forall m, accepts s m -> accepts first m.
Proof.
  intros Hm Hg Emt Ety Hmem m (A1 & A2 & A3 & A4). split_and!.
  - rewrite <-Emt, <-A1, Hm. done.
  - rewrite <-Ety, <-A2, Hm. done.
  - apply Hmem. by rewrite <-(members_accept_same r s).
  - intros f Hf. by apply A4, Hg.
Qed.

Lemma fixate_video first rest :
  struct_ok first -> caps_is_raw_video_struct first = true ->
  exists s, zst_caps_fixate stale_size (Some (first :: rest)) = (ZST_OK, Some [s]) /\ fixed_from first s.
Proof.
  intros Hs Hraw. unfold zst_caps_fixate. rewrite Hraw. cbv zeta. pose proof (resolve_video_ok _ Hs) as Hr.
  assert (Rr : caps_is_raw_video_struct (resolve_video first) = true) by done.
  set (r := resolve_video first) in *. unfold zst_caps_set_int, zst_caps_set_double, zst_caps_set_string.
  destruct (store_member _ "width" (ZST_CAPS_FIELD_INT (video_width r)) r (set_width_id r) Hr)
    as (s1 & -> & St1); [by apply short_key|]. cbn [snd]. pose proof St1 as [H1 M1 _].
  replace (video_height r) with (video_height s1) by (by rewrite M1).
  destruct (store_member _ "height" (ZST_CAPS_FIELD_INT (video_height s1)) s1 (set_height_id s1) H1)
    as (s2 & -> & St2); [by apply short_key|]. cbn [snd]. pose proof St2 as [H2 M2 _].
  replace (video_framerate r) with (video_framerate s2) by (by rewrite M2, M1).
  destruct (store_member _ "framerate" (ZST_CAPS_FIELD_DOUBLE (video_framerate s2)) s2 (set_framerate_id s2) H2)
    as (s3 & -> & St3); [by apply short_key|]. cbn [snd]. pose proof St3 as [H3 M3 _].
  replace (video_pixel_format r) with (video_pixel_format s3) by (by rewrite M3, M2, M1).
  destruct (store_member _ "pixel-format" (ZST_CAPS_FIELD_STRING (Some (video_pixel_format s3))) s3
              (set_pixel_format_id s3 H3) H3) as (s4 & -> & St4); [by apply short_key|]. cbn [snd].
  pose proof St4 as [H4 M4 _]. assert (M : same_members r s4) by eauto 6 using same_members_trans.
  assert (Hl : forall s k, same_members r s -> caps_is_raw_legacy_field s k =
                 name_in k ["width"; "height"; "framerate"; "pixel-format"]).
  { intros s k Hm. rewrite (legacy_members r s) by done. unfold caps_is_raw_legacy_field. by rewrite Rr. }
  exists s4. split; [done|]. constructor; [done| | |].
  - intros _. unfold zst_caps_struct_is_fixed. rewrite M. cbn [with_fields cs_type].
    assert (cs_type r = ZST_CAPS_VIDEO) as ->.
    { unfold caps_is_raw_video_struct in Rr. by apply andb_prop in Rr as [?%bool_decide_eq_true _]. }
    change (caps_is_raw_video_struct (with_fields r _ _)) with (caps_is_raw_video_struct r). rewrite Rr.
    cbn [negb with_fields video_width video_height video_framerate video_pixel_format].
    unfold r, resolve_video. cbn [video_width video_height video_framerate video_pixel_format with_video].
    by rewrite !resolved_int, resolved_double, resolved_string.
  - apply (narrows first r s4); try done.
    + intros g. rewrite (stored_generic _ _ _ St4), (stored_generic _ _ _ St3), (stored_generic _ _ _ St2),
        (stored_generic _ _ _ St1); [done|rewrite Hl; eauto 6 using same_members_trans, same_members_refl..].
    + intros m. unfold members_accept. rewrite Rr, Hraw. cbn.
      intros (A1%any_resolved_int & A2%any_resolved_int & A3%any_resolved_double & A4%any_resolved_string). done.
  - replace (caps_is_raw_video_struct s4) with true by (by rewrite M).
    replace (video_width s4) with (video_width r) by (by rewrite M).
    replace (video_height s4) with (video_height s1) by (by rewrite M, M1).
    replace (video_framerate s4) with (video_framerate s2) by (by rewrite M, M2, M1).
    replace (video_pixel_format s4) with (video_pixel_format s3) by (by rewrite M, M3, M2, M1).
    intros f Hf. unfold video_fields in Hf. set_unfold in Hf. destruct Hf as [->|[->|[->|[->|[]]]]]; cbn.
    + rewrite (stored_other s3 s4 _ _ H3 St4), (stored_other s2 s3 _ _ H2 St3), (stored_other s1 s2 _ _ H1 St2) by done.
      exact (stored_found _ _ _ St1).
    + rewrite (stored_other s3 s4 _ _ H3 St4), (stored_other s2 s3 _ _ H2 St3) by done. exact (stored_found _ _ _ St2).
    + rewrite (stored_other s3 s4 _ _ H3 St4) by done. exact (stored_found _ _ _ St3).
    + exact (stored_found _ _ _ St4).
Qed.

Lemma fixate_audio first rest :
  struct_ok first -> caps_is_raw_video_struct first = false -> caps_is_raw_audio_struct first = true ->
  exists s, zst_caps_fixate stale_size (Some (first :: rest)) = (ZST_OK, Some [s]) /\ fixed_from first s.
Proof.
  intros Hs Hv Hraw. unfold zst_caps_fixate. rewrite Hv, Hraw. cbv zeta. pose proof (resolve_audio_ok _ Hs) as Hr.
  assert (Rv : caps_is_raw_video_struct (resolve_audio first) = false) by done.
  assert (Rr : caps_is_raw_audio_struct (resolve_audio first) = true) by done.
  set (r := resolve_audio first) in *. unfold zst_caps_set_int, zst_caps_set_string.
  destruct (store_member _ "channels" (ZST_CAPS_FIELD_INT (audio_channels r)) r (set_channels_id r) Hr)
    as (s1 & -> & St1); [by apply short_key|]. cbn [snd]. pose proof St1 as [H1 M1 _].
  replace (audio_sample_rate r) with (audio_sample_rate s1) by (by rewrite M1).
  destruct (store_member _ "sample-rate" (ZST_CAPS_FIELD_INT (audio_sample_rate s1)) s1 (set_sample_rate_id s1) H1)
    as (s2 & -> & St2); [by apply short_key|]. cbn [snd]. pose proof St2 as [H2 M2 _].
  replace (audio_format r) with (audio_format s2) by (by rewrite M2, M1).
  destruct (store_member _ "format" (ZST_CAPS_FIELD_STRING (Some (audio_format s2))) s2
              (set_format_id s2 H2) H2) as (s3 & -> & St3); [by apply short_key|]. cbn [snd].
  pose proof St3 as [H3 M3 _]. assert (M : same_members r s3) by eauto 6 using same_members_trans.
  assert (Hl : forall s k, same_members r s -> caps_is_raw_legacy_field s k =
                 name_in k ["channels"; "sample-rate"; "format"]).
  { intros s k Hm. rewrite (legacy_members r s) by done. unfold caps_is_raw_legacy_field. by rewrite Rv, Rr. }
  exists s3. split; [done|]. constructor; [done| | |].
  - intros _. unfold zst_caps_struct_is_fixed. rewrite M. cbn [with_fields cs_type].
    assert (cs_type r = ZST_CAPS_AUDIO) as ->.
    { unfold caps_is_raw_audio_struct in Rr. by apply andb_prop in Rr as [?%bool_decide_eq_true _]. }
    change (caps_is_raw_audio_struct (with_fields r _ _)) with (caps_is_raw_audio_struct r). rewrite Rr.
    cbn [negb with_fields audio_channels audio_sample_rate audio_format].
    unfold r, resolve_audio. cbn [audio_channels audio_sample_rate audio_format with_audio].
    by rewrite !resolved_int, resolved_string.
  - apply (narrows first r s3); try done.
    + intros g. rewrite (stored_generic _ _ _ St3), (stored_generic _ _ _ St2),
        (stored_generic _ _ _ St1); [done|rewrite Hl; eauto 6 using same_members_trans, same_members_refl..].
    + intros m. unfold members_accept. rewrite Rv, Rr, Hv, Hraw. cbn.
      intros (A1%any_resolved_int & A2%any_resolved_int & A4%any_resolved_string). done.
  - replace (caps_is_raw_video_struct s3) with false by (by rewrite M).
    replace (caps_is_raw_audio_struct s3) with true by (by rewrite M).
    replace (audio_channels s3) with (audio_channels r) by (by rewrite M).
    replace (audio_sample_rate s3) with (audio_sample_rate s1) by (by rewrite M, M1).
    replace (audio_format s3) with (audio_format s2) by (by rewrite M, M2, M1).
    intros f Hf. unfold audio_fields in Hf. set_unfold in Hf. destruct Hf as [->|[->|[->|[]]]]; cbn.
    + rewrite (stored_other s2 s3 _ _ H2 St3), (stored_other s1 s2 _ _ H1 St2) by done. exact (stored_found _ _ _ St1).
    + rewrite (stored_other s2 s3 _ _ H2 St3) by done. exact (stored_found _ _ _ St2).
    + exact (stored_found _ _ _ St3).
Qed.

Lemma fixate_spec first rest :
  struct_ok first ->
  exists s, zst_caps_fixate stale_size (Some (first :: rest)) = (ZST_OK, Some [s]) /\ fixed_from first s.
Proof.
  intros Hs. destruct (caps_is_raw_video_struct first) eqn:Ev; [by apply fixate_video|].
  destruct (caps_is_raw_audio_struct first) eqn:Ea; [by apply fixate_audio|].
  unfold zst_caps_fixate. rewrite Ev, Ea. exists first. split; [done|]. constructor; try done.
  - intros Hn. assert (streq (cs_media_type first) "" = false) as E by (by destruct (streq_spec (cs_media_type first) "")).
    unfold zst_caps_struct_is_fixed. rewrite Ev, Ea, E. by destruct (cs_type first).
  - by rewrite Ev, Ea.
Qed.

(** Fixating leaves one structure, without wildcards if its media type is named,
    that accepts only media the first structure accepted, and whose fields repeat
    its members. *)
Theorem fixate_fixes first rest :
  struct_ok first ->
  exists s, zst_caps_fixate stale_size (Some (first :: rest)) = (ZST_OK, Some [s]) /\ fixed_from first s.
Proof. apply fixate_spec. Qed.
End spec.

(** ** The fields array, whatever the allocator answers *)

Section room.
Context `{CMemory} (stale_size : caps_value -> Z).

(** A setter's effect on a structure. *)
Definition set_call (s s' : zst_caps_struct_t) : Prop := exists f, s' = (caps_struct_set_field stale_size s f).2.

Lemma set_call_fits s s' :
  set_call s s' -> zlen (cs_fields s) <= cs_fields_capacity s -> zlen (cs_fields s') < 2147483648 ->
  zlen (cs_fields s) <= zlen (cs_fields s') <= cs_fields_capacity s'.
Proof.
  intros [f ->] Hle. unfold caps_struct_set_field. destruct (find_index _ _) as [i|].
  - destruct (caps_field_copy _ _ _) as [ret g]. cbn. unfold zlen in *. rewrite length_insert. lia.
  - cbv zeta. set (grow := cs_fields_capacity s <=? zlen (cs_fields s)).
    set (new_cap := if cs_fields_capacity s =? 0 then 4 else u32 (cs_fields_capacity s * 2)).
    assert (Hroom : zlen (cs_fields s) < 2147483648 ->
              zlen (cs_fields s) + 1 <= if grow then new_cap else cs_fields_capacity s).
    { intros Hb. unfold grow, new_cap. pose proof (zlen_nonneg (cs_fields s)). zbool; try lia.
      rewrite u32_small; lia. }
    destruct (grow && _); [cbn; lia|].
    destruct (caps_field_copy _ _ _) as [ret g]. destruct (negb (ret =? ZST_OK)); cbn; intros Hb.
    + specialize (Hroom Hb). lia.
    + rewrite zlen_app, zlen_cons, zlen_nil in *. lia.
Qed.

(** However many fields are set, and whatever allocations fail, the fields never
    outgrow their array, short of 2^31 of them. *)
Theorem fields_fit mt t s :
  reach set_call (new_struct mt t) s -> zlen (cs_fields s) < 2147483648 ->
  zlen (cs_fields s) <= cs_fields_capacity s.
Proof.
  intros Hr. induction Hr as [|s1 s2 Hr IH Hs]; intros Hb; [cbn; unfold zlen; simpl; lia|].
  destruct (Z.ltb_spec (zlen (cs_fields s1)) 2147483648) as [Hlt|Hge].
  - pose proof (set_call_fits s1 s2 Hs (IH Hlt) Hb). lia.
  - exfalso. destruct Hs as [f ->]. revert Hb. unfold caps_struct_set_field.
    destruct (find_index _ _) as [i|].
    + destruct (caps_field_copy _ _ _) as [ret g]. cbn. unfold zlen in *. rewrite length_insert. lia.
    + cbv zeta. destruct (_ && _); [cbn; lia|]. destruct (caps_field_copy _ _ _) as [ret g].
      destruct (negb (ret =? ZST_OK)); cbn; rewrite ?zlen_app; pose proof (zlen_nonneg [g]); lia.
Qed.
End room.


(** ** The theorems at concrete inputs *)

Definition no_stale : caps_value -> Z := fun _ => 0.

(** Raw video of any height, with one generic field. *)
Definition sample_video (w h : Z) (profile : string) : zst_caps_struct_t :=
  mk_caps_struct "video/x-raw" ZST_CAPS_VIDEO [mk_field "profile" (ZST_CAPS_FIELD_STRING (Some profile))] 4
    w h d_zero "" 0 0 "".

Lemma sample_video_ok w h profile : struct_ok (sample_video w h profile).
Proof.
  constructor; try (vm_compute; lia).
  - apply NoDup_singleton.
  - constructor; [split; [vm_compute; lia|done]|constructor].
Qed.

Lemma intersect_meets_witness :
  let c1 := [sample_video 640 0 "main"] in let c2 := [sample_video 0 480 "main"] in
  exists r, @zst_caps_intersect ample_memory no_stale (Some c1) (Some c2) = Some r /\ caps_ok r /\
    forall m, caps_accept r m <-> caps_accept c1 m /\ caps_accept c2 m.
Proof.
  apply (@intersect_meets _ ample_memory_ok no_stale); (constructor; [apply sample_video_ok|constructor]).
Defined.

Lemma set_then_get_witness :
  let caps := Some [sample_video 640 0 "main"] in
  zst_caps_get_int (@zst_caps_set_int ample_memory no_stale caps "bitrate" 9).2 "bitrate" = Some 9 /\
  zst_caps_get_buffer (@zst_caps_set_buffer ample_memory no_stale caps "codec-data" (Some [1; 2; 3]) 2).2 "codec-data" =
    Some (Some [1; 2], 2).
Proof.
  split.
  - apply (@set_then_get _ ample_memory_ok no_stale (sample_video 640 0 "main") [] "bitrate" 9 0 d_zero None 0 0 None 0);
      [apply sample_video_ok|vm_compute; lia|exact I].
  - apply (@set_then_get _ ample_memory_ok no_stale (sample_video 640 0 "main") [] "codec-data" 9 0 d_zero None 0 0
             (Some [1; 2; 3]) 2); [apply sample_video_ok|vm_compute; lia|vm_compute; discriminate].
Defined.

Definition long_key : string := "0123456789012345678901234567890123456789012345678901234567890123".

Lemma set_keeps_others_witness :
  let caps := Some [sample_video 640 0 "main"] in
  get_first (@zst_caps_set_int ample_memory no_stale caps "width" 320).2 "profile" =
    Some (ZST_CAPS_FIELD_STRING (Some "main")) /\
  zst_caps_get_int (@zst_caps_set_int ample_memory no_stale caps long_key 1).2 long_key = None.
Proof.
  split.
  - apply (@set_keeps_others _ ample_memory_ok no_stale (sample_video 640 0 "main") [] "width" 320 "profile");
      [apply sample_video_ok|discriminate].
  - apply (@set_keeps_others _ ample_memory_ok no_stale (sample_video 640 0 "main") [] long_key 1 "profile");
      [apply sample_video_ok|vm_compute; discriminate].
Defined.

Lemma fixate_fixes_witness :
  exists s, @zst_caps_fixate ample_memory no_stale (Some [sample_video 640 0 "main"; sample_video 1 1 ""]) =
    (ZST_OK, Some [s]) /\ fixed_from (sample_video 640 0 "main") s.
Proof. apply (@fixate_fixes _ ample_memory_ok no_stale), sample_video_ok. Defined.

Lemma fields_fit_witness :
  exists s, @reach _ (@set_call ample_memory no_stale) (new_struct (Some "text/plain") ZST_CAPS_ANY) s /\
    cs_fields s = [mk_field "a" (ZST_CAPS_FIELD_INT 1)] /\ zlen (cs_fields s) <= cs_fields_capacity s.
Proof.
  pose (s := (@caps_struct_set_field ample_memory no_stale (new_struct (Some "text/plain") ZST_CAPS_ANY)
               (mk_field "a" (ZST_CAPS_FIELD_INT 1))).2).
  assert (R : @reach _ (@set_call ample_memory no_stale) (new_struct (Some "text/plain") ZST_CAPS_ANY) s).
  { eapply reach_step; [apply reach_refl|]. eexists. reflexivity. }
  exists s. split; [exact R|]. split; [vm_compute; reflexivity|].
  apply (@fields_fit ample_memory no_stale _ _ s R). vm_compute. reflexivity.
Defined.
