(* ===== verification/BufferPool.v ===== *)
(** * Reference-counted buffers and their pool: [src/zst_buffer.c], [src/zst_buffer_pool.c]

    Here buffers are objects: a heap of reference counts, blocks and pool membership,
    the allocator's reference count, and one pool.  An operation on a buffer or a pool
    that has been freed has no result ([None]: undefined behaviour in C), so the
    theorems also show that such an access does not happen.

    Every operation runs under the pool's lock, so it is one function; the release of
    a buffer that is not stored runs in two critical sections with the buffer's
    destruction between them, and is two functions.  A thread that has to wait inside
    [acquire] is counted, and runs the loop again when it is woken.

    [alloc_ok n] says whether the [n]-th allocation succeeds, of any kind. *)

From Stdlib Require Import String.
From S2P Require Import Prelude CLib Pad Caps.

Local Open Scope Z_scope.

(** ** Data *)

(** [hb_block] is the size of the block [memory.data] points to, if any. *)
Record hbuf := mk_hbuf {
  hb_refcount : Z;
  hb_type : Z;
  hb_flags : Z;
  hb_pts : Z;
  hb_dts : Z;
  hb_duration : Z;
  hb_block : option Z;
  hb_size : Z;
  hb_pool : bool;
}.

Inductive zst_pool_watermark_level_t := ZST_POOL_WATERMARK_LOW | ZST_POOL_WATERMARK_HIGH.

Record zst_buffer_pool_config_t := mk_pcfg {
  pc_min_buffers : Z;
  pc_max_buffers : Z;
  pc_buffer_size : Z;
  pc_buffer_type : Z;
  pc_low_watermark : Z;
  pc_high_watermark : Z;
  pc_watermark_cb : bool;
}.

(** [p_buffers] lists [buffers[0 .. count-1]] from the last one down: a stack. *)
Record zst_buffer_pool_t := mk_pool {
  p_has_allocator : bool;
  p_config : zst_buffer_pool_config_t;
  p_buffers : list nat;
  p_total_allocated : Z;
  p_generation : Z;
  p_active : bool;
}.

Definition p_count (p : zst_buffer_pool_t) : Z := zlen (p_buffers p).

(** The pool is [None] once freed.  [w_out], [w_dying] and [w_waiters] are the threads'
    side: the pool's buffers they hold, those they are destroying, how many wait. *)
Record world := mk_world {
  w_ticks : nat;
  w_next : nat;
  w_heap : gmap nat hbuf;
  w_alloc_refs : Z;
  w_pool : option zst_buffer_pool_t;
  w_events : list zst_pool_watermark_level_t;
  w_out : list nat;
  w_dying : list nat;
  w_waiters : nat;
}.

Definition with_heap (w : world) (h : gmap nat hbuf) : world :=
  mk_world (w_ticks w) (w_next w) h (w_alloc_refs w) (w_pool w) (w_events w) (w_out w) (w_dying w) (w_waiters w).
Definition with_pool (w : world) (p : option zst_buffer_pool_t) : world :=
  mk_world (w_ticks w) (w_next w) (w_heap w) (w_alloc_refs w) p (w_events w) (w_out w) (w_dying w) (w_waiters w).
Definition with_refs (w : world) (r : Z) : world :=
  mk_world (w_ticks w) (w_next w) (w_heap w) r (w_pool w) (w_events w) (w_out w) (w_dying w) (w_waiters w).
Definition with_threads (w : world) (out dying : list nat) (waiters : nat) : world :=
  mk_world (w_ticks w) (w_next w) (w_heap w) (w_alloc_refs w) (w_pool w) (w_events w) out dying waiters.
Definition signal (w : world) (cond : bool) (l : zst_pool_watermark_level_t) : world :=
  if cond then mk_world (w_ticks w) (w_next w) (w_heap w) (w_alloc_refs w) (w_pool w) (w_events w ++ [l])
                 (w_out w) (w_dying w) (w_waiters w)
  else w.

Definition with_idle (p : zst_buffer_pool_t) (bufs : list nat) (total : Z) : zst_buffer_pool_t :=
  mk_pool (p_has_allocator p) (p_config p) bufs total (p_generation p) (p_active p).

Definition set_refcount (b : hbuf) (n : Z) : hbuf :=
  mk_hbuf n (hb_type b) (hb_flags b) (hb_pts b) (hb_dts b) (hb_duration b) (hb_block b) (hb_size b) (hb_pool b).
Definition set_pooled (b : hbuf) : hbuf :=
  mk_hbuf (hb_refcount b) (hb_type b) (hb_flags b) (hb_pts b) (hb_dts b) (hb_duration b) (hb_block b) (hb_size b) true.
Definition set_memory (b : hbuf) (size : Z) : hbuf :=
  mk_hbuf (hb_refcount b) (hb_type b) (hb_flags b) (hb_pts b) (hb_dts b) (hb_duration b) (Some size) size (hb_pool b).

Section pool.
Context (alloc_ok : nat -> bool).

(** One allocation: does it succeed? *)
Definition tick (w : world) : bool * world :=
  (alloc_ok (w_ticks w),
   mk_world (S (w_ticks w)) (w_next w) (w_heap w) (w_alloc_refs w) (w_pool w) (w_events w) (w_out w)
     (w_dying w) (w_waiters w)).

(** ** Buffers *)

Definition zst_buffer_create (type : Z) (w : world) : option nat * world :=
  let '(ok, w) := tick w in
  if ok then
    let id := w_next w in
    (Some id, mk_world (w_ticks w) (S id) (<[id := mk_hbuf 1 type 0 0 0 0 None 0 false]> (w_heap w))
                (w_alloc_refs w) (w_pool w) (w_events w) (w_out w) (w_dying w) (w_waiters w))
  else (None, w).

(** [allocator]: is there one? *)
Definition zst_buffer_create_with_allocator (type : Z) (allocator : bool) (size : Z) (w : world)
    : option nat * world :=
  let '(id, w) := zst_buffer_create type w in
  match id with
  | None => (None, w)
  | Some id =>
      if allocator && (0 <? size) then
        let '(data, w) := tick w in
        if negb data then (None, with_heap w (delete id (w_heap w)))
        else
          let '(ctx, w) := tick w in
          if negb ctx then (None, with_heap w (delete id (w_heap w)))
          else
            (Some id, with_refs (with_heap w (alter (fun b => set_memory b size) id (w_heap w)))
                        (w_alloc_refs w + 1))
      else (Some id, w)
  end.

(** [memory.release] and the free of the buffer itself. *)
Definition teardown (id : nat) (w : world) : world :=
  let refs := match w_heap w !! id with
              | Some b => match hb_block b with Some _ => w_alloc_refs w - 1 | None => w_alloc_refs w end
              | None => w_alloc_refs w
              end in
  with_refs (with_heap w (delete id (w_heap w))) refs.

Definition zst_buffer_ref (id : nat) (w : world) : option world :=
  match w_heap w !! id with
  | Some b => Some (with_heap w (<[id := set_refcount b (s32 (hb_refcount b + 1))]> (w_heap w)))
  | None => None
  end.

(** ** The pool *)

(** [config] with the defaults and the limits applied. *)
Definition normal_config (c : zst_buffer_pool_config_t) : zst_buffer_pool_config_t :=
  let max := if pc_max_buffers c =? 0 then 32 else pc_max_buffers c in
  let min := if max <? pc_min_buffers c then max else pc_min_buffers c in
  mk_pcfg min max (pc_buffer_size c) (pc_buffer_type c) (pc_low_watermark c) (pc_high_watermark c)
    (pc_watermark_cb c).

(** Creates a buffer of the pool [p]. *)
Definition new_buffer (p : zst_buffer_pool_t) (w : world) : option nat * world :=
  let '(id, w) := zst_buffer_create_with_allocator (pc_buffer_type (p_config p)) (p_has_allocator p)
                    (pc_buffer_size (p_config p)) w in
  match id with
  | Some id => (Some id, with_heap w (alter set_pooled id (w_heap w)))
  | None => (None, w)
  end.

(** The loop of [create]: tries [n] times, whatever fails. *)
Fixpoint preallocate (n : nat) (p : zst_buffer_pool_t) (w : world) : zst_buffer_pool_t * world :=
  match n with
  | O => (p, w)
  | S n =>
      let '(id, w) := new_buffer p w in
      match id with
      | Some id => preallocate n (with_idle p (id :: p_buffers p) (u32 (p_total_allocated p + 1))) w
      | None => preallocate n p w
      end
  end.

(** The loop of [set_config] and [prefill]: until [limit] buffers are allocated, or
    one fails; was the limit reached? *)
Fixpoint refill (fuel : nat) (limit : Z) (p : zst_buffer_pool_t) (w : world)
    : bool * zst_buffer_pool_t * world :=
  if p_total_allocated p <? limit then
    match fuel with
    | O => (false, p, w)
    | S fuel =>
        let '(id, w) := new_buffer p w in
        match id with
        | Some id => refill fuel limit (with_idle p (id :: p_buffers p) (u32 (p_total_allocated p + 1))) w
        | None => (false, p, w)
        end
    end
  else (true, p, w).

(** The loop of [set_config] and [drain]: destroys idle buffers while [go]. *)
Fixpoint shed (fuel : nat) (go : zst_buffer_pool_t -> bool) (p : zst_buffer_pool_t) (w : world)
    : zst_buffer_pool_t * world :=
  match fuel, p_buffers p with
  | S fuel, id :: rest =>
      if go p then shed fuel go (with_idle p rest (u32 (p_total_allocated p - 1))) (teardown id w) else (p, w)
  | _, _ => (p, w)
  end.

(** The pool in the world; [given]: is an allocator passed? *)
Definition zst_buffer_pool_create (given : bool) (config : option zst_buffer_pool_config_t) (w : world)
    : bool * world :=
  match config with
  | None => (false, w)
  | Some config =>
      let '(ok, w) := tick w in
      if negb ok then (false, w)
      else
        let '(has, w) := if given then (true, w) else tick w in
        let w := if has then with_refs w (w_alloc_refs w + 1) else w in
        let '(ok, w) := tick w in
        if negb ok then (false, if has then with_refs w (w_alloc_refs w - 1) else w)
        else
          let config := normal_config config in
          let '(p, w) := preallocate (Z.to_nat (pc_min_buffers config)) (mk_pool has config [] 0 1 true) w in
          (true, with_pool w (Some p))
  end.

(** A pass of [acquire]'s loop under the lock: a buffer, a result, or a wait. *)
Inductive acquired := Got (id : nat) | Ret (r : zst_result_t) | Wait.

Definition ZST_POOL_ACQUIRE_NONBLOCK : Z := 1.

Definition no_buffer (timeout_ms flags : Z) : acquired :=
  if has_flag flags ZST_POOL_ACQUIRE_NONBLOCK then Ret ZST_TIMEOUT
  else if timeout_ms =? 0 then Ret ZST_TIMEOUT else Wait.

Definition zst_buffer_pool_acquire (timeout_ms flags : Z) (w : world) : option (acquired * world) :=
  match w_pool w with
  | None => None
  | Some p =>
      match p_buffers p with
      | [] =>
          if p_active p then
            if p_total_allocated p <? pc_max_buffers (p_config p) then
              let '(id, w) := new_buffer p w in
              match id with
              | Some id =>
                  Some (Got id, with_threads (with_pool w (Some (with_idle p [] (u32 (p_total_allocated p + 1)))))
                                  (id :: w_out w) (w_dying w) (w_waiters w))
              | None => Some (no_buffer timeout_ms flags, w)
              end
            else Some (no_buffer timeout_ms flags, w)
          else Some (Ret ZST_ERROR, w)
      | id :: rest =>
          if negb (p_active p) then Some (Ret ZST_ERROR, w)
          else match w_heap w !! id with
          | None => None
          | Some b =>
              let b := mk_hbuf 1 (hb_type b) (hb_flags b) (hb_pts b) (hb_dts b) (hb_duration b) (hb_block b)
                         (pc_buffer_size (p_config p)) (hb_pool b) in
              let low := pc_watermark_cb (p_config p) && (zlen rest =? pc_low_watermark (p_config p)) in
              let w := with_pool (with_heap w (<[id := b]> (w_heap w))) (Some (with_idle p rest (p_total_allocated p))) in
              Some (Got id, with_threads (signal w low ZST_POOL_WATERMARK_LOW) (id :: w_out w) (w_dying w) (w_waiters w))
          end
      end
  end.

Definition remove_id (id : nat) (l : list nat) : list nat := filter (fun x => x <> id) l.

(** Frees the pool's storage and its reference to the allocator. *)
Definition free_pool (p : zst_buffer_pool_t) (w : world) : world :=
  with_refs (with_pool w None) (w_alloc_refs w - (if p_has_allocator p then 1 else 0)).

(** [release], up to the end of its first critical section: the buffer is stored, or
    is to be destroyed. *)
Definition release_begin (id : nat) (w : world) : option world :=
  match w_heap w !! id, w_pool w with
  | Some b, Some p =>
      let b := mk_hbuf (hb_refcount b) (hb_type b) 0 0 0 0 (hb_block b) (hb_size b) (hb_pool b) in
      let w := with_heap w (<[id := b]> (w_heap w)) in
      if p_active p && (p_count p <? pc_max_buffers (p_config p)) then
        let p := with_idle p (id :: p_buffers p) (p_total_allocated p) in
        let high := pc_watermark_cb (p_config p) && (p_count p =? pc_high_watermark (p_config p)) in
        Some (with_threads (signal (with_pool w (Some p)) high ZST_POOL_WATERMARK_HIGH)
                (remove_id id (w_out w)) (w_dying w) (w_waiters w))
      else Some (with_threads w (remove_id id (w_out w)) (id :: w_dying w) (w_waiters w))
  | _, _ => None
  end.

(** The rest of [release] for a buffer that is not stored. *)
Definition release_end (id : nat) (w : world) : option world :=
  match w_heap w !! id, w_pool w with
  | Some _, Some p =>
      let w := with_threads (teardown id w) (w_out w) (remove_id id (w_dying w)) (w_waiters w) in
      let p := with_idle p (p_buffers p) (u32 (p_total_allocated p - 1)) in
      if negb (p_active p) && (p_total_allocated p =? 0) then Some (free_pool p w)
      else Some (with_pool w (Some p))
  | _, _ => None
  end.

(** Up to the end of the first critical section, for a buffer of a pool. *)
Definition zst_buffer_unref (id : nat) (w : world) : option world :=
  match w_heap w !! id with
  | None => None
  | Some b =>
      let w := with_heap w (<[id := set_refcount b (s32 (hb_refcount b - 1))]> (w_heap w)) in
      if hb_refcount b =? 1 then
        if hb_pool b then release_begin id w else Some (teardown id w)
      else Some w
  end.

Definition zst_buffer_pool_destroy (w : world) : option world :=
  match w_pool w with
  | None => None
  | Some p =>
      let w := foldl (fun w id => teardown id w) w (rev (p_buffers p)) in
      let p := mk_pool (p_has_allocator p) (p_config p) [] (u32 (p_total_allocated p - p_count p))
                 (p_generation p) false in
      if p_total_allocated p =? 0 then Some (free_pool p w) else Some (with_pool w (Some p))
  end.

Definition zst_buffer_pool_set_config (config : zst_buffer_pool_config_t) (w : world)
    : option (zst_result_t * world) :=
  match w_pool w with
  | None => None
  | Some p =>
      let config := normal_config config in
      let '(p, w) := shed (length (p_buffers p)) (fun p => pc_max_buffers config <? p_count p) p w in
      let '(ok, w) := if negb (pc_max_buffers config =? pc_max_buffers (p_config p)) then tick w else (true, w) in
      if negb ok then Some (ZST_ERROR, with_pool w (Some p))
      else
        let p := mk_pool (p_has_allocator p) config (p_buffers p) (p_total_allocated p)
                   (u64 (p_generation p + 1)) (p_active p) in
        if p_active p then
          let '(ok, p, w) := refill (Z.to_nat (pc_min_buffers config)) (pc_min_buffers config) p w in
          Some (if ok then ZST_OK else ZST_ERROR, with_pool w (Some p))
        else Some (ZST_OK, with_pool w (Some p))
  end.

Definition zst_buffer_pool_prefill (w : world) : option world :=
  match w_pool w with
  | None => None
  | Some p =>
      if p_active p then
        let limit := pc_max_buffers (p_config p) in
        let '(_, p, w) := refill (Z.to_nat limit) limit p w in Some (with_pool w (Some p))
      else Some w
  end.

Definition zst_buffer_pool_drain (w : world) : option world :=
  match w_pool w with
  | None => None
  | Some p =>
      if p_active p then
        let target := pc_min_buffers (p_config p) in
        let '(p, w) := shed (length (p_buffers p))
                         (fun p => (0 <? p_count p) && (target <? p_total_allocated p)) p w in
        Some (with_pool w (Some p))
      else Some w
  end.
End pool.

(** ** Configurations *)

Definition zst_buffer_pool_get_config (w : world) : option zst_buffer_pool_config_t := p_config <$> w_pool w.
Definition zst_buffer_pool_get_generation (w : world) : Z :=
  match w_pool w with Some p => p_generation p | None => 0 end.

Definition get_bytes_per_pixel_num (fmt : string) : Z :=
  if name_in fmt ["YUV420P"; "NV12"; "NV21"]%string then 3
  else if name_in fmt ["YUYV422"; "UYVY"; "YUYV"]%string then 4
  else if name_in fmt ["RGB24"; "BGR24"]%string then 6
  else if name_in fmt ["RGBA"; "BGRA"; "ARGB"]%string then 8
  else 3.

(** Every format's denominator is 2. *)
Definition get_bytes_per_pixel_den (fmt : string) : Z := 2.

Definition get_audio_bytes_per_sample (fmt : string) : Z :=
  if name_in fmt ["S16LE"; "S16BE"]%string then 2
  else if name_in fmt ["S32LE"; "S32BE"; "F32LE"; "F32BE"]%string then 4
  else if name_in fmt ["F64LE"; "F64BE"]%string then 8
  else if streq fmt "U8" then 1
  else 2.

Definition no_config : zst_buffer_pool_config_t := mk_pcfg 0 0 0 0 0 0 false.

(** The products are of [int]s; [buffer_size] is a [size_t]. *)
Definition zst_buffer_pool_config_from_caps (caps : option zst_caps_t) : zst_buffer_pool_config_t :=
  if negb (zst_caps_is_fixed caps) then no_config
  else match caps with
  | Some (s :: _) =>
      match cs_type s with
      | ZST_CAPS_VIDEO =>
          let num := get_bytes_per_pixel_num (video_pixel_format s) in
          let den := get_bytes_per_pixel_den (video_pixel_format s) in
          let size := Z.quot (s32 (s32 (video_width s * video_height s) * num)) den in
          mk_pcfg 2 8 (u64 size) ZST_BUFFER_VIDEO_FRAME 0 0 false
      | ZST_CAPS_AUDIO =>
          let bps := get_audio_bytes_per_sample (audio_format s) in
          mk_pcfg 2 8 (u64 (s32 (s32 (1024 * audio_channels s) * bps))) ZST_BUFFER_AUDIO_FRAME 0 0 false
      | ZST_CAPS_ANY => mk_pcfg 2 8 0 0 0 0 false
      end
  | _ => no_config
  end.

(** [n_queues] is what [zst_pipeline_count_elements_of_type] counts. *)
Definition zst_pool_config_default_size (config : zst_buffer_pool_config_t) (n_queues : Z)
    : zst_buffer_pool_config_t :=
  if (0 <? n_queues) && (pc_min_buffers config <? u32 (n_queues + 2)) then
    let min := u32 (n_queues + 2) in
    let max := if pc_max_buffers config <? min then u32 (min * 2) else pc_max_buffers config in
    mk_pcfg min max (pc_buffer_size config) (pc_buffer_type config) (pc_low_watermark config)
      (pc_high_watermark config) (pc_watermark_cb config)
  else config.
