(* ===== verification/BufferPoolSpec.v ===== *)
(** * The pool's accounting

    Threads acquire, reference and release buffers, destroy them when the pool does
    not take them back, reconfigure the pool and destroy it, in any interleaving.  An
    invariant of all of them: what the pool counts, which buffer is where, what the
    allocator's reference count is; from it, that no freed buffer or pool is touched. *)

From S2P Require Import Prelude Pad BufferPool.

Local Open Scope Z_scope.

(** ** Blocks *)

(** The number of blocks the heap holds: each has a reference to the allocator. *)
Definition blocks (h : gmap nat hbuf) : Z :=
  Z.of_nat (size (filter (fun kv => is_Some (hb_block kv.2)) h)).

Definition block_count (b : hbuf) : Z := match hb_block b with Some _ => 1 | None => 0 end.

Lemma blocks_insert h id b : h !! id = None -> blocks (<[id := b]> h) = blocks h + block_count b.
Proof.
  intros Hn. unfold blocks, block_count. destruct (hb_block b) as [n|] eqn:E.
  - rewrite map_filter_insert_True by (cbn; rewrite E; done).
    rewrite map_size_insert_None; [lia|]. by apply map_lookup_filter_None_2; left.
  - rewrite map_filter_insert_False by (cbn; rewrite E; by intros [? ?]). rewrite delete_id by done. lia.
Qed.

Lemma blocks_delete h id b : h !! id = Some b -> blocks (delete id h) = blocks h - block_count b.
Proof.
  intros E. rewrite <-(insert_delete_id h id b E) at 2.
  rewrite blocks_insert by apply lookup_delete_eq. lia.
Qed.

Lemma blocks_update h id b b' :
  h !! id = Some b -> hb_block b' = hb_block b -> blocks (<[id := b']> h) = blocks h.
Proof.
  intros E Eb. rewrite <-insert_delete_eq, blocks_insert by apply lookup_delete_eq.
  rewrite (blocks_delete h id b E). unfold block_count. rewrite Eb. lia.
Qed.

(** ** The invariant *)

Definition conf_ok (c : zst_buffer_pool_config_t) : Prop :=
  0 < pc_max_buffers c <= UINT32_MAX /\ 0 <= pc_min_buffers c <= pc_max_buffers c.

(** What a caller passes: 32-bit numbers. *)
Definition conf_arg (c : zst_buffer_pool_config_t) : Prop :=
  0 <= pc_max_buffers c <= UINT32_MAX /\ 0 <= pc_min_buffers c <= UINT32_MAX.

Lemma normal_config_ok c : conf_arg c -> conf_ok (normal_config c).
Proof. unfold conf_arg, conf_ok, normal_config, UINT32_MAX. intros. cbn. zbool; lia. Qed.

(** The pool's buffers: idle, held by threads, being destroyed. *)
Definition pool_ids (p : zst_buffer_pool_t) (w : world) : list nat := p_buffers p ++ w_out w ++ w_dying w.

Definition pristine (b : hbuf) : Prop :=
  hb_flags b = 0 /\ hb_pts b = 0 /\ hb_dts b = 0 /\ hb_duration b = 0.

(** [base] counts the references to the allocator held outside. *)
Record pool_inv (base : Z) (p : zst_buffer_pool_t) (w : world) : Prop := {
  v_nodup : NoDup (pool_ids p w);
  v_heap : forall id, is_Some (w_heap w !! id) <-> id ∈ pool_ids p w;
  v_pooled : forall id b, w_heap w !! id = Some b -> hb_pool b = true;
  v_idle : forall id b, id ∈ p_buffers p -> w_heap w !! id = Some b -> pristine b;
  v_out : forall id b, id ∈ w_out w -> w_heap w !! id = Some b -> 1 <= hb_refcount b <= INT32_MAX;
  v_total : p_total_allocated p = zlen (pool_ids p w);
  v_range : p_total_allocated p <= UINT32_MAX;
  v_count : p_count p <= pc_max_buffers (p_config p);
  v_conf : conf_ok (p_config p);
  v_refs : w_alloc_refs w = base + blocks (w_heap w) + (if p_has_allocator p then 1 else 0);
  v_fresh : forall id, is_Some (w_heap w !! id) -> (id < w_next w)%nat;
}.

(** The other parts of the world are not the pool's. *)
Lemma pool_inv_ext base p w w' :
  pool_inv base p w -> w_heap w' = w_heap w -> w_alloc_refs w' = w_alloc_refs w -> w_next w' = w_next w ->
  w_out w' = w_out w -> w_dying w' = w_dying w -> pool_inv base p w'.
Proof. intros [] Eh Er En Eo Ed. constructor; unfold pool_ids in *; rewrite ?Eh, ?Er, ?En, ?Eo, ?Ed; done. Qed.

Lemma count_le_total base p w : pool_inv base p w -> p_count p <= p_total_allocated p.
Proof.
  intros Hi. rewrite (v_total _ _ _ Hi). unfold p_count, pool_ids. rewrite zlen_app.
  pose proof (zlen_nonneg (w_out w ++ w_dying w)). lia.
Qed.

#[local] Arguments remove_id : simpl never.

Section pool.
Context (alloc_ok : nat -> bool).

(** ** Creating a buffer *)

(** [w'] is [w] with the new buffer [b] under [id]. *)
Record grown (w w' : world) (id : nat) (b : hbuf) : Prop := {
  gr_fresh : w_heap w !! id = None;
  gr_heap : w_heap w' = <[id := b]> (w_heap w);
  gr_refs : w_alloc_refs w' = w_alloc_refs w + block_count b;
  gr_next : forall i, (i < w_next w \/ i = id)%nat -> (i < w_next w')%nat;
  gr_pooled : hb_pool b = true;
  gr_refcount : hb_refcount b = 1;
  gr_pristine : pristine b;
  gr_rest : w_pool w' = w_pool w /\ w_out w' = w_out w /\ w_dying w' = w_dying w /\ w_waiters w' = w_waiters w;
}.

Record unchanged (w w' : world) : Prop := {
  un_heap : w_heap w' = w_heap w;
  un_refs : w_alloc_refs w' = w_alloc_refs w;
  un_next : (w_next w <= w_next w')%nat;
  un_rest : w_pool w' = w_pool w /\ w_out w' = w_out w /\ w_dying w' = w_dying w /\ w_waiters w' = w_waiters w;
}.

Lemma new_buffer_spec p w :
  (forall id, is_Some (w_heap w !! id) -> (id < w_next w)%nat) ->
  match new_buffer alloc_ok p w with
  | (Some id, w') => exists b, grown w w' id b /\
      hb_block b = (if p_has_allocator p && (0 <? pc_buffer_size (p_config p))
                    then Some (pc_buffer_size (p_config p)) else None)
  | (None, w') => unchanged w w'
  end.
Proof.
  intros Hf. unfold new_buffer, zst_buffer_create_with_allocator, zst_buffer_create, tick.
  assert (Hn : w_heap w !! w_next w = None).
  { destruct (w_heap w !! w_next w) eqn:E; [|done]. specialize (Hf _ ltac:(by eexists)). lia. }
  destruct (alloc_ok _); [|by constructor].
  destruct (p_has_allocator p && (0 <? _)); cbn.
  - destruct (alloc_ok _); cbn; [|constructor; cbn; rewrite ?delete_insert_id by done; done || lia].
    destruct (alloc_ok _); cbn; [|constructor; cbn; rewrite ?delete_insert_id by done; done || lia].
    eexists. split; [constructor; cbn; [done|by rewrite !alter_insert_eq|done|lia|done..]|done].
  - eexists. split; [constructor; cbn; [done|by rewrite alter_insert_eq|unfold block_count; cbn; lia|lia|done..]|done].
Qed.

Lemma inv_unchanged base p w w' : pool_inv base p w -> unchanged w w' -> pool_inv base p w'.
Proof.
  intros [] [Eh Er En (Ep & Eo & Ed & _)]. constructor; unfold pool_ids in *; rewrite ?Eh, ?Er, ?Eo, ?Ed; try done.
  intros id Hid. specialize (v_fresh0 id Hid). lia.
Qed.

Lemma zlen_perm {A} (l k : list A) : l ≡ₚ k -> zlen l = zlen k.
Proof. intros E. unfold zlen. by rewrite E. Qed.

(** A new buffer, put at [ids], the identifiers of the pool with [id] among them. *)
Lemma inv_grow base p w w' id b p' w'' :
  pool_inv base p w -> grown w w' id b -> p_total_allocated p < UINT32_MAX ->
  w_heap w'' = w_heap w' -> w_alloc_refs w'' = w_alloc_refs w' -> w_next w'' = w_next w' ->
  p_has_allocator p' = p_has_allocator p -> p_config p' = p_config p ->
  p_total_allocated p' = u32 (p_total_allocated p + 1) ->
  pool_ids p' w'' ≡ₚ id :: pool_ids p w ->
  (forall i, i ∈ p_buffers p' -> i = id \/ i ∈ p_buffers p) ->
  (forall i, i ∈ w_out w'' -> i = id \/ i ∈ w_out w) ->
  p_count p' <= pc_max_buffers (p_config p) ->
  pool_inv base p' w''.
Proof.
  intros Hi G Htot Eh Er En Ea Ec Et Hids Hidle Hout Hcnt. destruct G, Hi.
  assert (id ∉ pool_ids p w) by (intros Hin%v_heap0; by rewrite gr_fresh0 in Hin; destruct Hin).
  pose proof (zlen_nonneg (pool_ids p w)).
  constructor; rewrite ?Ea, ?Ec, ?Et, ?Eh, ?gr_heap0; try done.
  - rewrite Hids. by constructor.
  - intros i. rewrite Hids, elem_of_cons, <-v_heap0. destruct (decide (i = id)) as [->|Hne].
    + rewrite lookup_insert_eq. naive_solver.
    + rewrite lookup_insert_ne by done. naive_solver.
  - intros i c [[<- <-]|[_ Hl]]%lookup_insert_Some; [done|by apply (v_pooled0 i)].
  - intros i c Hin [[<- <-]|[Hne Hl]]%lookup_insert_Some; [done|].
    apply (v_idle0 i); [|done]. by destruct (Hidle i Hin).
  - intros i c Hin [[<- <-]|[Hne Hl]]%lookup_insert_Some; [unfold INT32_MAX; lia|].
    apply (v_out0 i); [|done]. by destruct (Hout i Hin).
  - rewrite (zlen_perm _ _ Hids), zlen_cons, u32_small by (unfold UINT32_MAX in *; lia). lia.
  - rewrite u32_small by (unfold UINT32_MAX in *; lia). lia.
  - rewrite Er, gr_refs0, blocks_insert by done. lia.
  - intros i. rewrite En. destruct (decide (i = id)) as [->|Hne].
    + intros _. apply gr_next0. by right.
    + rewrite lookup_insert_ne by done. intros Hs. apply gr_next0. left. by apply v_fresh0.
Qed.

(** A buffer of the pool is destroyed. *)
Lemma inv_shrink base p w id p' w'' :
  pool_inv base p w -> id ∈ pool_ids p w ->
  w_heap w'' = w_heap (teardown id w) -> w_alloc_refs w'' = w_alloc_refs (teardown id w) -> w_next w'' = w_next w ->
  p_has_allocator p' = p_has_allocator p -> p_config p' = p_config p ->
  p_total_allocated p' = u32 (p_total_allocated p - 1) ->
  pool_ids p w ≡ₚ id :: pool_ids p' w'' ->
  (forall i, i ∈ p_buffers p' -> i ∈ p_buffers p) -> (forall i, i ∈ w_out w'' -> i ∈ w_out w) ->
  p_count p' <= pc_max_buffers (p_config p) ->
  pool_inv base p' w''.
Proof.
  intros Hi Hin Eh Er En Ea Ec Et Hids Hidle Hout Hcnt. destruct Hi.
  pose proof (proj2 (v_heap0 id) Hin) as [b Hb]. unfold teardown in *. cbn in *. rewrite Hb in Er.
  pose proof v_nodup0 as Hnd. rewrite Hids in Hnd. apply NoDup_cons in Hnd as [Hnotin Hnd].
  rewrite (zlen_perm _ _ Hids), zlen_cons in v_total0. pose proof (zlen_nonneg (pool_ids p' w'')).
  constructor; rewrite ?Ea, ?Ec, ?Et, ?Eh; try done.
  - intros i. destruct (decide (i = id)) as [->|Hne].
    + rewrite lookup_delete_eq. split; [by intros [? ?]|done].
    + rewrite lookup_delete_ne, v_heap0, Hids, elem_of_cons by done. naive_solver.
  - intros i c [_ Hl]%lookup_delete_Some. by apply (v_pooled0 i).
  - intros i c Hi [_ Hl]%lookup_delete_Some. apply (v_idle0 i); auto.
  - intros i c Hi [_ Hl]%lookup_delete_Some. apply (v_out0 i); auto.
  - rewrite u32_small by (unfold UINT32_MAX in *; lia). lia.
  - rewrite u32_small by (unfold UINT32_MAX in *; lia). lia.
  - rewrite Er, (blocks_delete _ _ _ Hb). unfold block_count. destruct (hb_block b); lia.
  - intros i [c [_ Hl]%lookup_delete_Some]. rewrite En. apply v_fresh0. by eexists.
Qed.

(** ** The loops *)

Lemma refill_ok fuel limit base p w :
  pool_inv base p w -> limit <= pc_max_buffers (p_config p) -> limit - p_total_allocated p <= Z.of_nat fuel ->
  let '(ok, p', w') := refill alloc_ok fuel limit p w in
  pool_inv base p' w' /\ p_config p' = p_config p /\ p_active p' = p_active p /\
  w_out w' = w_out w /\ w_dying w' = w_dying w /\ w_waiters w' = w_waiters w /\
  p_total_allocated p <= p_total_allocated p' /\ (ok = true -> limit <= p_total_allocated p').
Proof.
  revert p w. induction fuel as [|fuel IH]; intros p w Hi Hlim Hfuel; cbn [refill].
  { destruct (Z.ltb_spec (p_total_allocated p) limit); [lia|]. split_and!; done || lia. }
  destruct (Z.ltb_spec (p_total_allocated p) limit) as [Hlt|]; [|split_and!; done || lia].
  pose proof (new_buffer_spec p w (v_fresh _ _ _ Hi)) as Hn.
  destruct (new_buffer alloc_ok p w) as [[id|] w1].
  - destruct Hn as (b & G & _). pose proof (gr_rest _ _ _ _ G) as (Ep & Eo & Ed & Ew).
    pose proof (v_conf _ _ _ Hi) as [Hmax _]. pose proof (count_le_total _ _ _ Hi).
    set (p1 := with_idle p (id :: p_buffers p) (u32 (p_total_allocated p + 1))).
    assert (Hi1 : pool_inv base p1 w1).
    { apply (inv_grow base p w w1 id b p1 w1 Hi G); try done; [lia| |..].
      - unfold pool_ids, p1. cbn. by rewrite Eo, Ed.
      - intros i [->|?]%elem_of_cons; [by left|by right].
      - rewrite Eo. by right.
      - unfold p1, p_count in *. cbn. rewrite zlen_cons. lia. }
    assert (Et : p_total_allocated p1 = p_total_allocated p + 1).
    { unfold p1. cbn. rewrite u32_small; [done|]. pose proof (v_total _ _ _ Hi).
      pose proof (zlen_nonneg (pool_ids p w)). unfold UINT32_MAX in *. lia. }
    specialize (IH p1 w1 Hi1 ltac:(done) ltac:(lia)).
    destruct (refill alloc_ok fuel limit p1 w1) as [[ok p2] w2].
    destruct IH as (? & ? & ? & -> & -> & -> & ? & ?). split_and!; try done; lia.
  - pose proof (un_rest _ _ Hn) as (_ & ? & ? & ?). split_and!; try done; try lia. by apply (inv_unchanged base p w).
Qed.

Lemma shed_ok fuel go base p w :
  pool_inv base p w ->
  let '(p', w') := shed fuel go p w in
  pool_inv base p' w' /\ p_config p' = p_config p /\ p_active p' = p_active p /\
  p_generation p' = p_generation p /\ p_has_allocator p' = p_has_allocator p /\
  w_out w' = w_out w /\ w_dying w' = w_dying w /\ w_waiters w' = w_waiters w /\
  p_total_allocated p - p_total_allocated p' = p_count p - p_count p' /\ p_count p' <= p_count p /\
  ((length (p_buffers p) <= fuel)%nat -> go p' = false \/ p_buffers p' = []).
Proof.
  revert p w. induction fuel as [|fuel IH]; intros p w Hi; cbn [shed].
  { split_and!; try done; try lia. intros Hl. right. destruct (p_buffers p); [done|]. simpl in Hl. lia. }
  destruct (p_buffers p) as [|id rest] eqn:E; [split_and!; try done; try lia; by right|].
  destruct (go p) eqn:Ego; [|split_and!; try done; try lia; by left].
  set (p1 := with_idle p rest (u32 (p_total_allocated p - 1))). set (w1 := teardown id w).
  assert (Hin : id ∈ pool_ids p w) by (unfold pool_ids; rewrite E; by left).
  pose proof (v_total _ _ _ Hi) as Ht. pose proof (v_range _ _ _ Hi) as Hr. pose proof (v_count _ _ _ Hi) as Hc.
  assert (zlen (pool_ids p w) = zlen rest + 1 + zlen (w_out w ++ w_dying w)) as Hz.
  { unfold pool_ids. rewrite E, zlen_app, zlen_cons. lia. }
  pose proof (zlen_nonneg rest). pose proof (zlen_nonneg (w_out w ++ w_dying w)).
  assert (Hcp : p_count p = zlen rest + 1) by (unfold p_count; by rewrite E, zlen_cons).
  assert (Hi1 : pool_inv base p1 w1).
  { apply (inv_shrink base p w id p1 w1 Hi Hin); try done.
    - unfold pool_ids, p1. rewrite E. done.
    - unfold p1. cbn. rewrite E. intros. by right.
    - unfold p1, p_count in *. cbn. lia. }
  assert (Et : p_total_allocated p1 = p_total_allocated p - 1).
  { unfold p1. cbn. rewrite u32_small; [done|]. unfold UINT32_MAX in *. lia. }
  assert (Hc1 : p_count p1 = p_count p - 1) by (unfold p1, p_count in *; cbn; lia).
  specialize (IH p1 w1 Hi1). destruct (shed fuel go p1 w1) as [p2 w2].
  destruct IH as (? & -> & -> & -> & -> & -> & -> & -> & ? & ? & Hend). split_and!; try done; try lia.
  intros Hl. apply Hend. unfold p1. cbn. simpl in Hl. lia.
Qed.

(** The loop of [create], within the limit. *)
Lemma preallocate_ok n base p w :
  pool_inv base p w -> p_total_allocated p + Z.of_nat n <= pc_max_buffers (p_config p) ->
  let '(p', w') := preallocate alloc_ok n p w in
  pool_inv base p' w' /\ p_active p' = p_active p /\
  w_out w' = w_out w /\ w_dying w' = w_dying w /\ w_waiters w' = w_waiters w.
Proof.
  revert p w. induction n as [|n IH]; intros p w Hi Hn; cbn [preallocate]; [done|].
  pose proof (new_buffer_spec p w (v_fresh _ _ _ Hi)) as Hb.
  pose proof (v_total _ _ _ Hi). pose proof (zlen_nonneg (pool_ids p w)). pose proof (count_le_total _ _ _ Hi).
  pose proof (v_conf _ _ _ Hi) as [Hmax _].
  destruct (new_buffer alloc_ok p w) as [[id|] w1].
  - destruct Hb as (b & G & _). pose proof (gr_rest _ _ _ _ G) as (Ep & Eo & Ed & Ew).
    set (p1 := with_idle p (id :: p_buffers p) (u32 (p_total_allocated p + 1))).
    assert (Hi1 : pool_inv base p1 w1).
    { apply (inv_grow base p w w1 id b p1 w1 Hi G); try done; [lia| |..].
      - unfold pool_ids, p1. cbn. by rewrite Eo, Ed.
      - intros i [->|?]%elem_of_cons; [by left|by right].
      - rewrite Eo. by right.
      - unfold p1, p_count in *. cbn. rewrite zlen_cons. lia. }
    assert (Et : p_total_allocated p1 = p_total_allocated p + 1).
    { unfold p1. cbn. apply u32_small. unfold UINT32_MAX in *. lia. }
    specialize (IH p1 w1 Hi1 ltac:(rewrite Et; cbn; lia)).
    destruct (preallocate alloc_ok n p1 w1) as [p2 w2]. destruct IH as (? & ? & -> & -> & ->). done.
  - pose proof (un_rest _ _ Hb) as (_ & Eo & Ed & Ew).
    specialize (IH p w1 (inv_unchanged _ _ _ _ Hi Hb) ltac:(lia)).
    destruct (preallocate alloc_ok n p w1) as [p2 w2]. destruct IH as (? & ? & -> & -> & ->). done.
Qed.

(** ** Moving and updating a buffer *)

Lemma pool_inv_move base p w id b b' p' w'' :
  pool_inv base p w -> w_heap w !! id = Some b -> hb_block b' = hb_block b -> hb_pool b' = hb_pool b ->
  w_heap w'' = <[id := b']> (w_heap w) -> w_alloc_refs w'' = w_alloc_refs w -> w_next w'' = w_next w ->
  p_has_allocator p' = p_has_allocator p -> p_config p' = p_config p ->
  p_total_allocated p' = p_total_allocated p ->
  pool_ids p' w'' ≡ₚ pool_ids p w ->
  (forall i, i ∈ p_buffers p' -> if decide (i = id) then pristine b' else i ∈ p_buffers p) ->
  (forall i, i ∈ w_out w'' -> if decide (i = id) then 1 <= hb_refcount b' <= INT32_MAX else i ∈ w_out w) ->
  p_count p' <= pc_max_buffers (p_config p) ->
  pool_inv base p' w''.
Proof.
  intros Hi Hb Ebl Epo Eh Er En Ea Ec Et Hids Hidle Hout Hcnt. destruct Hi.
  constructor; rewrite ?Ea, ?Ec, ?Et, ?Eh; try done.
  - by rewrite Hids.
  - intros i. rewrite Hids, <-v_heap0. destruct (decide (i = id)) as [->|Hne].
    + rewrite lookup_insert_eq, Hb. split; intros _; by eexists.
    + by rewrite lookup_insert_ne.
  - intros i c [[<- <-]|[_ Hl]]%lookup_insert_Some; [rewrite Epo; by apply (v_pooled0 id)|by apply (v_pooled0 i)].
  - intros i c Hin [[<- <-]|[Hne Hl]]%lookup_insert_Some; specialize (Hidle _ Hin); case_decide; try done.
    by apply (v_idle0 i).
  - intros i c Hin [[<- <-]|[Hne Hl]]%lookup_insert_Some; specialize (Hout _ Hin); case_decide; try done.
    by apply (v_out0 i).
  - by rewrite (zlen_perm _ _ Hids).
  - rewrite Er, (blocks_update _ _ _ _ Hb) by done. done.
  - intros i. rewrite En. destruct (decide (i = id)) as [->|Hne]; [intros _; apply v_fresh0; by eexists|].
    rewrite lookup_insert_ne by done. apply v_fresh0.
Qed.

Lemma perm_to_front {A} (x : A) l r b d : l ≡ₚ x :: r -> x :: b ++ r ++ d ≡ₚ b ++ l ++ d.
Proof. intros ->. cbn. by rewrite <-Permutation_middle. Qed.

Lemma perm_to_back {A} (x : A) l r b d : l ≡ₚ x :: r -> b ++ r ++ x :: d ≡ₚ b ++ l ++ d.
Proof. intros ->. apply Permutation_app_head. cbn. by rewrite <-Permutation_middle. Qed.

Lemma remove_id_perm id l : NoDup l -> id ∈ l -> l ≡ₚ id :: remove_id id l.
Proof.
  intros Hn Hin. apply NoDup_Permutation; [done| |].
  - constructor; [unfold remove_id; rewrite list_elem_of_filter; naive_solver|by apply NoDup_filter].
  - intros x. unfold remove_id. rewrite elem_of_cons, list_elem_of_filter.
    destruct (decide (x = id)) as [->|]; naive_solver.
Qed.

Lemma remove_id_in id l i : i ∈ remove_id id l -> i <> id /\ i ∈ l.
Proof. unfold remove_id. by rewrite list_elem_of_filter. Qed.

(** ** The world *)

Definition active_pool (w : world) : Prop := exists p, w_pool w = Some p /\ p_active p = true.

Definition world_inv (base : Z) (w : world) : Prop :=
  match w_pool w with
  | Some p => pool_inv base p w /\ (p_active p = false -> p_buffers p = [] /\ 0 < p_total_allocated p)
  | None => w_heap w = ∅ /\ w_out w = [] /\ w_dying w = [] /\ w_alloc_refs w = base
  end.

Lemma inv_out_lookup base p w id :
  pool_inv base p w -> id ∈ w_out w ->
  exists b, w_heap w !! id = Some b /\ 1 <= hb_refcount b <= INT32_MAX /\ hb_pool b = true.
Proof.
  intros Hi Hin. assert (is_Some (w_heap w !! id)) as [b Hb].
  { apply (v_heap _ _ _ Hi). unfold pool_ids. set_solver. }
  exists b. split_and!; try done; try (by apply (v_out _ _ _ Hi id b)). by apply (v_pooled _ _ _ Hi id b).
Qed.

Lemma inv_nodup base p w : pool_inv base p w -> NoDup (w_out w) /\ NoDup (w_dying w) /\
  (forall i, i ∈ w_out w -> i ∉ w_dying w) /\ forall i, i ∈ p_buffers p -> i ∉ w_out w /\ i ∉ w_dying w.
Proof.
  intros Hi. pose proof (v_nodup _ _ _ Hi) as Hn. unfold pool_ids in Hn.
  apply NoDup_app in Hn as (_ & H1 & (H2 & H3 & H4)%NoDup_app). split_and!; try done.
  intros i Hin%H1. rewrite not_elem_of_app in Hin. done.
Qed.

Lemma no_buffer_spec timeout_ms flags (P Q : Prop) (R : nat -> Prop) :
  P -> match no_buffer timeout_ms flags with
       | Got id => R id | Ret ret => P /\ (ret = ZST_ERROR -> Q) | Wait => P end.
Proof. intros HP. unfold no_buffer. by destruct (has_flag _ _), (timeout_ms =? 0). Qed.

(** [acquire] pops, creates or reports that there is nothing. *)
Lemma acquire_spec base timeout_ms flags w p :
  world_inv base w -> w_pool w = Some p ->
  exists r w', zst_buffer_pool_acquire alloc_ok timeout_ms flags w = Some (r, w') /\ world_inv base w' /\
    w_waiters w' = w_waiters w /\ w_dying w' = w_dying w /\
    match r with
    | Got id => w_out w' = id :: w_out w /\ id ∉ w_out w /\ id ∉ w_dying w /\
                exists b, w_heap w' !! id = Some b /\ hb_refcount b = 1 /\ pristine b
    | Ret ret => w_out w' = w_out w /\ (ret = ZST_ERROR -> p_active p = false)
    | Wait => w_out w' = w_out w
    end.
Proof.
  intros Hw Hp. pose proof Hw as Hw'. unfold world_inv in Hw'. rewrite Hp in Hw'. destruct Hw' as [Hi Hact].
  unfold zst_buffer_pool_acquire. rewrite Hp. destruct (p_buffers p) as [|id rest] eqn:E.
  - destruct (p_active p) eqn:Ea.
    2: { eexists _, _. split_and!; done. }
    destruct (Z.ltb_spec (p_total_allocated p) (pc_max_buffers (p_config p))) as [Hlt|].
    2: { exists (no_buffer timeout_ms flags), w. split_and!; try done. by apply no_buffer_spec. }
    pose proof (new_buffer_spec p w (v_fresh _ _ _ Hi)) as Hn.
    destruct (new_buffer alloc_ok p w) as [[id|] w1].
    + destruct Hn as (b & G & _). pose proof (gr_rest _ _ _ _ G) as (Ep & Eo & Ed & Ew).
      assert (Hnot : id ∉ pool_ids p w).
      { intros Hin%(v_heap _ _ _ Hi). rewrite (gr_fresh _ _ _ _ G) in Hin. by destruct Hin. }
      unfold pool_ids in Hnot. rewrite !not_elem_of_app in Hnot. destruct Hnot as (_ & Hno & Hnd).
      pose proof (v_conf _ _ _ Hi) as [Hmax _].
      eexists _, _. split; [done|]. cbn. rewrite Eo, Ed, Ew. split_and!; try done.
      * apply (inv_grow base p w w1 id b); try done; [lia| | | |unfold p_count; cbn; rewrite zlen_nil; lia].
        -- unfold pool_ids. cbn. by rewrite E.
        -- intros i Hin. by apply elem_of_nil in Hin.
        -- cbn. intros i [->|?]%elem_of_cons; [by left|by right].
      * cbn. by rewrite Ea.
      * exists b. cbn. rewrite (gr_heap _ _ _ _ G), lookup_insert_eq. split_and!; [done|apply G|apply G].
    + pose proof (un_rest _ _ Hn) as (Ep & Eo & Ed & Ew).
      exists (no_buffer timeout_ms flags), w1. split; [done|]. split_and!; try done.
      * unfold world_inv. rewrite Ep, Hp. split; [by apply (inv_unchanged base p w)|by rewrite Ea].
      * by apply no_buffer_spec.
  - destruct (p_active p) eqn:Ea; cbn [negb].
    2: { eexists _, _. split_and!; done. }
    assert (Hin : id ∈ p_buffers p) by (rewrite E; by left).
    assert (is_Some (w_heap w !! id)) as [b Hb] by (apply (v_heap _ _ _ Hi); unfold pool_ids; set_solver).
    rewrite Hb. pose proof (inv_nodup _ _ _ Hi) as (_ & _ & _ & Hdis). destruct (Hdis id Hin) as [Hno Hnd].
    pose proof (v_nodup _ _ _ Hi) as Hnodup. unfold pool_ids in Hnodup. rewrite E in Hnodup.
    apply NoDup_cons in Hnodup as [Hnr _]. rewrite !not_elem_of_app in Hnr.
    pose proof (v_idle _ _ _ Hi id b Hin Hb) as Hpr. pose proof (v_count _ _ _ Hi) as Hc.
    unfold p_count in Hc. rewrite E, zlen_cons in Hc. set (low := pc_watermark_cb _ && _).
    eexists _, _. split; [done|]. unfold signal. destruct low; cbn; split_and!; try done;
      try (by rewrite Ea); try (eexists; split; [by rewrite lookup_insert_eq|done]).
    all: apply (pool_inv_move base p w id b (mk_hbuf 1 (hb_type b) (hb_flags b) (hb_pts b) (hb_dts b) (hb_duration b)
                  (hb_block b) (pc_buffer_size (p_config p)) (hb_pool b))); try done; try (unfold p_count; cbn; lia); cbn; try lia.
    all: try (unfold pool_ids; cbn; rewrite E; cbn; by rewrite <-Permutation_middle).
    all: try (intros i Hi'; case_decide; [subst; tauto|rewrite E; by right]).
    all: intros i [->|?]%elem_of_cons; case_decide; try done; cbn; unfold INT32_MAX; lia.
Qed.

Lemma ref_spec base id w p :
  world_inv base w -> w_pool w = Some p -> id ∈ w_out w ->
  (forall b, w_heap w !! id = Some b -> hb_refcount b < INT32_MAX) ->
  exists w', zst_buffer_ref id w = Some w' /\ world_inv base w'.
Proof.
  intros Hw Hp Hin Hlim. unfold world_inv in Hw. rewrite Hp in Hw. destruct Hw as [Hi Hact].
  destruct (inv_out_lookup _ _ _ _ Hi Hin) as (b & Hb & Hrc & Hpo). specialize (Hlim b Hb).
  unfold zst_buffer_ref. rewrite Hb. eexists. split; [done|]. unfold world_inv. cbn. rewrite Hp. split; [|done].
  unfold INT32_MAX in *. pose proof (v_count _ _ _ Hi). pose proof (inv_nodup _ _ _ Hi) as (_ & _ & _ & Hdis).
  apply (pool_inv_move base p w id b (set_refcount b (s32 (hb_refcount b + 1)))); try done; cbn.
  - intros i Hii. case_decide as E; [|done]. subst. by destruct (Hdis id Hii).
  - intros i Hii. case_decide; [|done]. unfold INT32_MAX. rewrite s32_small by lia. lia.
Qed.

(** Giving up a reference: the last one returns the buffer or starts its destruction. *)
Lemma unref_spec base id w p :
  world_inv base w -> w_pool w = Some p -> id ∈ w_out w ->
  exists w', zst_buffer_unref id w = Some w' /\ world_inv base w' /\ w_waiters w' = w_waiters w.
Proof.
  intros Hw Hp Hin. unfold world_inv in Hw. rewrite Hp in Hw. destruct Hw as [Hi Hact].
  destruct (inv_out_lookup _ _ _ _ Hi Hin) as (b & Hb & Hrc & Hpo).
  pose proof (inv_nodup _ _ _ Hi) as (Hno & Hnd & Hod & Hdis). pose proof (v_count _ _ _ Hi) as Hcnt.
  pose proof (remove_id_perm id _ Hno Hin) as Hperm. pose proof (remove_id_in id (w_out w)) as Hrem.
  unfold zst_buffer_unref. rewrite Hb. rewrite s32_small by (unfold INT32_MAX in *; lia).
  destruct (Z.eqb_spec (hb_refcount b) 1) as [E1|Hne].
  2: { eexists. split; [done|]. split; [|done]. unfold world_inv. cbn. rewrite Hp. split; [|done].
    apply (pool_inv_move base p w id b (set_refcount b (hb_refcount b - 1))); try done; cbn.
    - intros i Hii. case_decide as E; [|done]. subst. by destruct (Hdis id Hii).
    - intros i Hii. case_decide; [|done]. unfold INT32_MAX in *. lia. }
  rewrite Hpo. unfold release_begin. cbn [with_heap w_heap w_pool]. rewrite lookup_insert_eq, Hp. cbn [hb_pool].
  set (b2 := mk_hbuf _ _ _ _ _ _ _ _ _). rewrite insert_insert_eq.
  assert (Hpr : pristine b2) by done.
  destruct (p_active p && (p_count p <? pc_max_buffers (p_config p))) eqn:Est.
  - apply andb_prop in Est as [Ea Hlt%Z.ltb_lt]. set (high := pc_watermark_cb _ && _).
    eexists. split; [done|]. split; [|by unfold signal; destruct high].
    unfold world_inv, signal. destruct high; cbn; (split; [|by rewrite Ea]).
    all: apply (pool_inv_move base p w id b b2); try done; cbn; try (unfold p_count in *; cbn; rewrite zlen_cons; lia).
    all: try (by apply perm_to_front).
    all: try (intros i [->|Hii]%elem_of_cons; case_decide; done).
    all: intros i [? Hii]%Hrem; by case_decide.
  - eexists. split; [done|]. split; [|done]. unfold world_inv. cbn. rewrite Hp. split; [|done].
    apply (pool_inv_move base p w id b b2); try done; cbn.
    + by apply perm_to_back.
    + intros i Hii. case_decide as E; [|done]. subst. by destruct (Hdis id Hii).
    + intros i [? Hii]%Hrem. by case_decide.
Qed.

Lemma zlen_pos {A} (l : list A) x : x ∈ l -> 0 < zlen l.
Proof. destruct l; [by intros ?%elem_of_nil|]. rewrite zlen_cons. pose proof (zlen_nonneg l). lia. Qed.

(** A destroyed pool that counts no buffer holds none. *)
Lemma inv_empty base p w : pool_inv base p w -> p_total_allocated p = 0 -> world_inv base (free_pool p w).
Proof.
  intros Hi Ht. rewrite (v_total _ _ _ Hi) in Ht. apply zlen_0 in Ht. pose proof Ht as Hnil.
  unfold pool_ids in Ht. apply app_eq_nil in Ht as [_ [Ho Hd]%app_eq_nil].
  assert (Hemp : w_heap w = ∅).
  { apply map_eq. intros i. rewrite lookup_empty. destruct (w_heap w !! i) as [b|] eqn:E; [|done].
    pose proof (proj1 (v_heap _ _ _ Hi i) ltac:(by eexists)) as Hin. rewrite Hnil in Hin. by apply elem_of_nil in Hin. }
  unfold world_inv, free_pool. cbn. split_and!; try done. rewrite (v_refs _ _ _ Hi), Hemp.
  unfold blocks. rewrite map_filter_empty, map_size_empty. lia.
Qed.

Lemma release_end_spec base id w p :
  world_inv base w -> w_pool w = Some p -> id ∈ w_dying w ->
  exists w', release_end id w = Some w' /\ world_inv base w' /\ w_waiters w' = w_waiters w.
Proof.
  intros Hw Hp Hin. unfold world_inv in Hw. rewrite Hp in Hw. destruct Hw as [Hi Hact].
  pose proof (inv_nodup _ _ _ Hi) as (Hno & Hnd & _ & _). pose proof (v_count _ _ _ Hi) as Hcnt.
  assert (Hpin : id ∈ pool_ids p w) by (unfold pool_ids; set_solver).
  assert (is_Some (w_heap w !! id)) as [b Hb] by (by apply (v_heap _ _ _ Hi)).
  unfold release_end. rewrite Hb, Hp.
  set (w1 := with_threads _ _ _ _). set (p1 := with_idle p _ _).
  assert (Hi1 : pool_inv base p1 w1).
  { apply (inv_shrink base p w id p1 w1 Hi Hpin); try done.
    unfold pool_ids. cbn. rewrite (remove_id_perm id _ Hnd Hin) at 1. rewrite !app_assoc. by rewrite <-Permutation_middle. }
  destruct (negb (p_active p1) && (p_total_allocated p1 =? 0)) eqn:E; (eexists; split; [done|]).
  - apply andb_prop in E as [_ E%Z.eqb_eq]. split; [by apply inv_empty|done].
  - split; [|done]. unfold world_inv. cbn [w_pool with_pool]. split; [by apply (pool_inv_ext base p1 w1)|].
    intros Ea. change (p_active p1) with (p_active p) in *. rewrite Ea in E. cbn [negb andb] in E.
    apply Z.eqb_neq in E. destruct (Hact Ea) as [Hidle _]. split; [done|].
    pose proof (v_total _ _ _ Hi1). pose proof (zlen_nonneg (pool_ids p1 w1)). lia.
Qed.

(** Destroying every idle buffer. *)
Lemma teardown_all base has cfg gen act ids p w :
  pool_inv base p w -> p_buffers p ≡ₚ ids -> p_has_allocator p = has -> p_config p = cfg ->
  pool_inv base (mk_pool has cfg [] (u32 (p_total_allocated p - zlen ids)) gen act)
    (foldl (fun w id => teardown id w) w ids) /\
  w_out (foldl (fun w id => teardown id w) w ids) = w_out w /\
  w_dying (foldl (fun w id => teardown id w) w ids) = w_dying w /\
  w_waiters (foldl (fun w id => teardown id w) w ids) = w_waiters w /\
  w_pool (foldl (fun w id => teardown id w) w ids) = w_pool w.
Proof.
  revert p w. induction ids as [|id ids IH]; intros p w Hi Hids Eh Ec; cbn [foldl].
  - pose proof (v_total _ _ _ Hi). pose proof (v_range _ _ _ Hi). pose proof (zlen_nonneg (pool_ids p w)).
    apply Permutation_nil_r in Hids. split_and!; try done. destruct Hi. subst.
    rewrite zlen_nil, u32_small by (unfold UINT32_MAX in *; lia).
    unfold pool_ids, p_count in *. rewrite Hids in *. cbn [app] in *.
    constructor; unfold pool_ids, p_count; cbn; try done; try lia.
  - set (p1 := with_idle p ids (u32 (p_total_allocated p - 1))).
    assert (Hin : id ∈ pool_ids p w) by (unfold pool_ids; rewrite Hids; by left).
    pose proof (v_count _ _ _ Hi) as Hcnt. pose proof (zlen_perm _ _ Hids) as Hz. rewrite zlen_cons in Hz.
    pose proof (v_total _ _ _ Hi). pose proof (v_range _ _ _ Hi).
    assert (0 < zlen (pool_ids p w)) by by eapply zlen_pos.
    assert (Hi1 : pool_inv base p1 (teardown id w)).
    { apply (inv_shrink base p w id p1 (teardown id w) Hi Hin); try done.
      - unfold pool_ids. cbn. by rewrite Hids.
      - intros i Hii. rewrite Hids. by right.
      - unfold p_count in *. cbn. pose proof (zlen_nonneg ids). lia. }
    destruct (IH p1 (teardown id w) Hi1 ltac:(done) Eh Ec) as (Hf & -> & -> & -> & ->). split_and!; try done.
    replace (u32 (p_total_allocated p - zlen (id :: ids))) with (u32 (p_total_allocated p1 - zlen ids)); [done|].
    rewrite zlen_cons. unfold p1. cbn [with_idle p_total_allocated].
    rewrite (u32_small (p_total_allocated p - 1)) by (unfold UINT32_MAX in *; lia). f_equal. lia.
Qed.

Lemma destroy_spec base w p :
  world_inv base w -> w_pool w = Some p ->
  exists w', zst_buffer_pool_destroy w = Some w' /\ world_inv base w' /\ w_waiters w' = w_waiters w.
Proof.
  intros Hw Hp. unfold world_inv in Hw. rewrite Hp in Hw. destruct Hw as [Hi _].
  unfold zst_buffer_pool_destroy. rewrite Hp.
  destruct (teardown_all base (p_has_allocator p) (p_config p) (p_generation p) false (rev (p_buffers p)) p w Hi)
    as (Hi1 & Eo & Ed & Ew & Epool); try done.
  { by rewrite rev_alt, rev_append_rev, app_nil_r, <-Permutation_rev. }
  assert (zlen (rev (p_buffers p)) = p_count p) as Ez by (unfold zlen, p_count, zlen; by rewrite length_rev).
  rewrite Ez in Hi1. set (w1 := foldl _ w _) in *. set (p1 := mk_pool _ _ _ _ _ false) in *.
  destruct (Z.eqb_spec (p_total_allocated p1) 0) as [E0|Hne]; (eexists; split; [done|]).
  - split; [by apply inv_empty|done].
  - split; [|done]. unfold world_inv. cbn [w_pool with_pool]. split; [by apply (pool_inv_ext base p1 w1)|].
    intros _. split; [done|]. pose proof (v_total _ _ _ Hi1). pose proof (zlen_nonneg (pool_ids p1 w1)). lia.
Qed.

Lemma tick_spec w b w' : tick alloc_ok w = (b, w') ->
  w_heap w' = w_heap w /\ w_alloc_refs w' = w_alloc_refs w /\ w_next w' = w_next w /\ w_pool w' = w_pool w /\
  w_out w' = w_out w /\ w_dying w' = w_dying w /\ w_waiters w' = w_waiters w.
Proof. by intros [= <- <-]. Qed.

Lemma inv_reconfig base p w c gen act :
  pool_inv base p w -> conf_ok c -> p_count p <= pc_max_buffers c ->
  pool_inv base (mk_pool (p_has_allocator p) c (p_buffers p) (p_total_allocated p) gen act) w.
Proof. intros [] Hc Hn. constructor; unfold pool_ids, p_count in *; cbn; done. Qed.

Lemma world_inv_active base p w : pool_inv base p w -> p_active p = true -> world_inv base (with_pool w (Some p)).
Proof.
  intros Hi Ha. unfold world_inv. cbn. split; [by apply (pool_inv_ext base p w)|by rewrite Ha].
Qed.

Lemma set_config_spec base c w p :
  world_inv base w -> w_pool w = Some p -> p_active p = true -> conf_arg c ->
  exists r w', zst_buffer_pool_set_config alloc_ok c w = Some (r, w') /\ world_inv base w' /\
    w_waiters w' = w_waiters w /\ w_out w' = w_out w.
Proof.
  intros Hw Hp Ha Hc. unfold world_inv in Hw. rewrite Hp in Hw. destruct Hw as [Hi _].
  unfold zst_buffer_pool_set_config. rewrite Hp. pose proof (normal_config_ok c Hc) as Hn.
  set (cfg := normal_config c) in *.
  pose proof (shed_ok (length (p_buffers p)) (fun p => pc_max_buffers cfg <? p_count p) base p w Hi) as Hs.
  destruct (shed _ _ p w) as [p1 w1]. destruct Hs as (Hi1 & Ec & Ea & Eg & Eal & Eo & Ed & Ew & _ & _ & Hend).
  assert (Hcount : p_count p1 <= pc_max_buffers cfg).
  { destruct Hn as [? _]. destruct (Hend ltac:(lia)) as [E|E]; [apply Z.ltb_ge in E; lia|].
    unfold p_count. rewrite E, zlen_nil. lia. }
  destruct (if negb (pc_max_buffers cfg =? pc_max_buffers (p_config p1)) then tick alloc_ok w1 else (true, w1))
    as [ok w2] eqn:Et.
  assert (Hi2 : pool_inv base p1 w2 /\ w_waiters w2 = w_waiters w /\ w_out w2 = w_out w).
  { destruct (negb _); [|by injection Et as <- <-].
    apply tick_spec in Et as (? & ? & ? & ? & Eo2 & ? & Ew2). rewrite Ew2, Ew, Eo2, Eo. split; [|done].
    by apply (pool_inv_ext base p1 w1). }
  destruct Hi2 as (Hi2 & Ew2 & Eo2). rewrite Ha in Ea.
  destruct (negb ok); [eexists _, _; split; [done|]; split; [by apply world_inv_active|done]|].
  set (p2 := mk_pool _ _ _ _ _ _). cbn [p2 p_active]. rewrite Ea.
  assert (Hi3 : pool_inv base p2 w2) by (by apply inv_reconfig).
  pose proof (v_total _ _ _ Hi3). pose proof (zlen_nonneg (pool_ids p2 w2)). destruct Hn as [Hmax Hmin].
  pose proof (refill_ok (Z.to_nat (pc_min_buffers cfg)) (pc_min_buffers cfg) base p2 w2 Hi3
                (proj2 Hmin) ltac:(lia)) as Hr.
  destruct (refill _ _ _ p2 w2) as [[ok' p3] w3]. destruct Hr as (Hi4 & _ & Ea3 & Eo3 & _ & Ew3 & _).
  eexists _, _. split; [done|]. cbn. rewrite Ew3, Eo3. split; [|done].
  apply world_inv_active; [done|]. by rewrite Ea3.
Qed.

Lemma prefill_spec base w p :
  world_inv base w -> w_pool w = Some p -> p_active p = true ->
  exists w', zst_buffer_pool_prefill alloc_ok w = Some w' /\ world_inv base w' /\
    w_waiters w' = w_waiters w /\ w_out w' = w_out w.
Proof.
  intros Hw Hp Ha. unfold world_inv in Hw. rewrite Hp in Hw. destruct Hw as [Hi _].
  unfold zst_buffer_pool_prefill. rewrite Hp, Ha. pose proof (v_conf _ _ _ Hi) as [Hmax _].
  pose proof (v_total _ _ _ Hi). pose proof (zlen_nonneg (pool_ids p w)).
  pose proof (refill_ok (Z.to_nat (pc_max_buffers (p_config p))) (pc_max_buffers (p_config p)) base p w Hi
                ltac:(lia) ltac:(lia)) as Hr.
  cbv zeta. destruct (refill _ _ _ p w) as [[ok' p3] w3]. destruct Hr as (Hi4 & _ & Ea3 & Eo3 & _ & Ew3 & _).
  eexists. split; [done|]. cbn. rewrite Ew3, Eo3. split; [|done].
  apply world_inv_active; [done|]. by rewrite Ea3.
Qed.

Lemma drain_spec base w p :
  world_inv base w -> w_pool w = Some p -> p_active p = true ->
  exists w', zst_buffer_pool_drain w = Some w' /\ world_inv base w' /\
    w_waiters w' = w_waiters w /\ w_out w' = w_out w.
Proof.
  intros Hw Hp Ha. unfold world_inv in Hw. rewrite Hp in Hw. destruct Hw as [Hi _].
  unfold zst_buffer_pool_drain. rewrite Hp, Ha. cbv zeta.
  match goal with |- context [shed ?f ?g p w] => pose proof (shed_ok f g base p w Hi) as Hs end.
  destruct (shed _ _ p w) as [p1 w1]. destruct Hs as (Hi1 & Ec & Ea & _ & _ & Eo & Ed & Ew & _).
  eexists. split; [done|]. cbn. rewrite Ew, Eo. split; [|done].
  apply world_inv_active; [done|]. by rewrite Ea.
Qed.

(** ** Threads *)

(** What threads may do: anything while the pool is not destroyed; with a buffer they
    hold, or one they are destroying, at any time. *)
Inductive pool_step (w : world) : world -> Prop :=
| ps_acquire timeout_ms flags r w' :
    active_pool w -> zst_buffer_pool_acquire alloc_ok timeout_ms flags w = Some (r, w') ->
    pool_step w (match r with
                 | Wait => with_threads w' (w_out w') (w_dying w') (S (w_waiters w'))
                 | _ => w' end)
| ps_woken timeout_ms flags r w' n :
    w_waiters w = S n -> zst_buffer_pool_acquire alloc_ok timeout_ms flags w = Some (r, w') ->
    pool_step w (match r with
                 | Wait => w'
                 | _ => with_threads w' (w_out w') (w_dying w') n end)
| ps_ref id b w' :
    id ∈ w_out w -> w_heap w !! id = Some b -> hb_refcount b < INT32_MAX -> zst_buffer_ref id w = Some w' ->
    pool_step w w'
| ps_unref id w' : id ∈ w_out w -> zst_buffer_unref id w = Some w' -> pool_step w w'
| ps_release_end id w' : id ∈ w_dying w -> release_end id w = Some w' -> pool_step w w'
| ps_set_config c r w' :
    active_pool w -> conf_arg c -> zst_buffer_pool_set_config alloc_ok c w = Some (r, w') -> pool_step w w'
| ps_prefill w' : active_pool w -> zst_buffer_pool_prefill alloc_ok w = Some w' -> pool_step w w'
| ps_drain w' : active_pool w -> zst_buffer_pool_drain w = Some w' -> pool_step w w'
| ps_destroy w' : active_pool w -> zst_buffer_pool_destroy w = Some w' -> pool_step w w'.

Lemma world_inv_waiters base w out dying n :
  out = w_out w -> dying = w_dying w -> world_inv base w -> world_inv base (with_threads w out dying n).
Proof.
  intros -> ->. unfold world_inv. cbn. destruct (w_pool w) as [p|]; [|done]. intros [Hi Hact]. split; [|done].
  by apply (pool_inv_ext base p w).
Qed.

(** While a buffer is out, the pool is there. *)
Lemma held_pool base w id : world_inv base w -> id ∈ w_out w \/ id ∈ w_dying w -> exists p, w_pool w = Some p.
Proof.
  unfold world_inv. destruct (w_pool w) as [p|]; [by exists p|]. intros (_ & -> & -> & _) [E|E]; by apply elem_of_nil in E.
Qed.

Lemma pool_step_inv base w w' : world_inv base w -> pool_step w w' -> world_inv base w'.
Proof.
  intros Hw Hs. destruct Hs as [timeout_ms flags r w' [p [Hp Ha]] E|timeout_ms flags r w' n En E|id b w' Hin Hb Hlim E
    |id w' Hin E|id w' Hin E|c r w' [p [Hp Ha]] Hc E|w' [p [Hp Ha]] E|w' [p [Hp Ha]] E|w' [p [Hp Ha]] E].
  - destruct (acquire_spec base timeout_ms flags w p Hw Hp) as (r' & w1 & E' & Hw1 & _).
    rewrite E in E'. injection E' as <- <-. destruct r; try done. by apply world_inv_waiters.
  - destruct (w_pool w) as [p|] eqn:Hp; [|unfold zst_buffer_pool_acquire in E; by rewrite Hp in E].
    destruct (acquire_spec base timeout_ms flags w p Hw Hp) as (r' & w1 & E' & Hw1 & _).
    rewrite E in E'. injection E' as <- <-. destruct r; try done; by apply world_inv_waiters.
  - destruct (held_pool base w id Hw (or_introl Hin)) as [p Hp].
    destruct (ref_spec base id w p Hw Hp Hin) as (w1 & E' & ?); [|congruence].
    intros b' Hb'. rewrite Hb in Hb'. by injection Hb' as <-.
  - destruct (held_pool base w id Hw (or_introl Hin)) as [p Hp].
    destruct (unref_spec base id w p Hw Hp Hin) as (w1 & E' & ? & _). congruence.
  - destruct (held_pool base w id Hw (or_intror Hin)) as [p Hp].
    destruct (release_end_spec base id w p Hw Hp Hin) as (w1 & E' & ? & _). congruence.
  - destruct (set_config_spec base c w p Hw Hp Ha Hc) as (r1 & w1 & E' & ? & _). congruence.
  - destruct (prefill_spec base w p Hw Hp Ha) as (w1 & E' & ? & _). congruence.
  - destruct (drain_spec base w p Hw Hp Ha) as (w1 & E' & ? & _). congruence.
  - destruct (destroy_spec base w p Hw Hp) as (w1 & E' & ? & _). congruence.
Qed.

(** No buffers yet, and [base] references to the allocator. *)
Definition fresh_world (base : Z) : world := mk_world 0 0 ∅ base None [] [] [] 0.

Lemma create_spec base given c w :
  conf_arg c -> zst_buffer_pool_create alloc_ok given (Some c) (fresh_world base) = (true, w) ->
  world_inv base w /\ active_pool w.
Proof.
  intros Hc. pose proof (normal_config_ok c Hc) as Hn. unfold zst_buffer_pool_create. cbv zeta.
  generalize dependent (normal_config c). intros cfg Hn.
  destruct (tick alloc_ok (fresh_world base)) as [ok w1] eqn:E1.
  apply tick_spec in E1 as (Eh1 & Er1 & En1 & Ep1 & Eo1 & Ed1 & Ew1). destruct (negb ok); [done|].
  destruct (if given then (true, w1) else tick alloc_ok w1) as [has w2] eqn:E2.
  assert (H2 : w_heap w2 = ∅ /\ w_alloc_refs w2 = base /\ w_next w2 = 0%nat /\ w_out w2 = [] /\ w_dying w2 = []).
  { destruct given; [injection E2 as <- <-; by rewrite Eh1, Er1, En1, Eo1, Ed1|].
    apply tick_spec in E2 as (-> & -> & -> & _ & -> & -> & _). by rewrite Eh1, Er1, En1, Eo1, Ed1. }
  destruct H2 as (Eh2 & Er2 & En2 & Eo2 & Ed2). set (w3 := if has then _ else w2).
  destruct (tick alloc_ok w3) as [ok3 w4] eqn:E3. destruct (negb ok3); [done|].
  apply tick_spec in E3 as (Eh4 & Er4 & En4 & _ & Eo4 & Ed4 & _).
  set (p0 := mk_pool has cfg [] 0 1 true).
  assert (Hi : pool_inv base p0 w4).
  { assert (w_heap w4 = ∅ /\ w_out w4 = [] /\ w_dying w4 = [] /\ w_alloc_refs w4 = base + if has then 1 else 0)
      as (Eh & Eo & Ed & Er).
    { rewrite Eh4, Eo4, Ed4, Er4. unfold w3. destruct has; cbn; rewrite ?Eh2, ?Eo2, ?Ed2, ?Er2; split_and!; try done; lia. }
    constructor; unfold pool_ids, p_count; rewrite ?Eh, ?Eo, ?Ed; cbn; try done; try (unfold UINT32_MAX; lia).
    - apply NoDup_nil_2.
    - intros id. rewrite lookup_empty. split; [by intros [? ?]|by intros ?%elem_of_nil].
    - destruct Hn as [[? _] _]. rewrite zlen_nil. lia.
    - rewrite Er. unfold blocks. rewrite map_filter_empty, map_size_empty. lia.
    - intros id. rewrite lookup_empty. by intros [? ?]. }
  pose proof Hn as [Hmax Hmin].
  pose proof (preallocate_ok (Z.to_nat (pc_min_buffers cfg)) base p0 w4 Hi ltac:(cbn [p0 p_total_allocated p_config]; lia)) as Hp.
  destruct (preallocate _ _ p0 w4) as [p5 w5]. destruct Hp as (Hi5 & Ea & _). intros [= <-].
  split; [by apply world_inv_active|by exists p5].
Qed.

Context (base : Z) (given : bool) (c : zst_buffer_pool_config_t) (w1 : world).
Context (conf : conf_arg c) (created : zst_buffer_pool_create alloc_ok given (Some c) (fresh_world base) = (true, w1)).

Lemma reach_inv_pool w : reach pool_step w1 w -> world_inv base w.
Proof.
  apply reach_inv; [by apply (create_spec base given c)|]. intros a b. apply pool_step_inv.
Qed.

(** C5. Whatever the threads do and whatever allocations fail, the pool counts exactly
    the buffers that are idle, held or being destroyed, no buffer is in two of these
    places, the idle ones fit their array, and the allocator is referenced once per
    block and by the pool; the pool is freed only when no buffer is left, and then
    every reference has been given back. *)
Theorem pool_accounts w :
  reach pool_step w1 w ->
  match w_pool w with
  | Some p =>
      p_total_allocated p = zlen (p_buffers p) + zlen (w_out w) + zlen (w_dying w) /\
      NoDup (p_buffers p ++ w_out w ++ w_dying w) /\ zlen (p_buffers p) <= pc_max_buffers (p_config p) /\
      w_alloc_refs w = base + blocks (w_heap w) + (if p_has_allocator p then 1 else 0)
  | None => w_heap w = ∅ /\ w_out w = [] /\ w_dying w = [] /\ w_alloc_refs w = base
  end.
Proof.
  intros Hr. pose proof (reach_inv_pool w Hr) as Hw. unfold world_inv in Hw.
  destruct (w_pool w) as [p|]; [|done]. destruct Hw as [Hi _]. split_and!; try apply Hi.
  rewrite (v_total _ _ _ Hi). unfold pool_ids. rewrite !zlen_app. lia.
Qed.

(** No operation of a thread touches freed memory: a buffer held can be referenced
    and released, one being destroyed can be, also after the pool was destroyed; and
    the pool's own operations can be called until it is. *)
Theorem pool_never_dangles w :
  reach pool_step w1 w ->
  (forall id, id ∈ w_out w -> zst_buffer_ref id w <> None /\ zst_buffer_unref id w <> None) /\
  (forall id, id ∈ w_dying w -> release_end id w <> None) /\
  (active_pool w -> forall cfg timeout_ms flags, conf_arg cfg ->
     zst_buffer_pool_acquire alloc_ok timeout_ms flags w <> None /\ zst_buffer_pool_set_config alloc_ok cfg w <> None /\
     zst_buffer_pool_prefill alloc_ok w <> None /\ zst_buffer_pool_drain w <> None /\ zst_buffer_pool_destroy w <> None).
Proof.
  intros Hr. pose proof (reach_inv_pool w Hr) as Hw. split_and!.
  - intros id Hin. destruct (held_pool base w id Hw (or_introl Hin)) as [p Hp]. split.
    + pose proof Hw as Hw'. unfold world_inv in Hw'. rewrite Hp in Hw'. destruct Hw' as [Hi _].
      destruct (inv_out_lookup _ _ _ _ Hi Hin) as (b & Hb & _). unfold zst_buffer_ref. by rewrite Hb.
    + destruct (unref_spec base id w p Hw Hp Hin) as (w2 & -> & _). done.
  - intros id Hin. destruct (held_pool base w id Hw (or_intror Hin)) as [p Hp].
    destruct (release_end_spec base id w p Hw Hp Hin) as (w2 & -> & _). done.
  - intros [p [Hp Ha]] cfg timeout_ms flags Hcfg.
    destruct (acquire_spec base timeout_ms flags w p Hw Hp) as (r & w2 & -> & _).
    destruct (set_config_spec base cfg w p Hw Hp Ha Hcfg) as (r3 & w3 & -> & _).
    destruct (prefill_spec base w p Hw Hp Ha) as (w4 & -> & _).
    destruct (drain_spec base w p Hw Hp Ha) as (w5 & -> & _).
    by destruct (destroy_spec base w p Hw Hp) as (w6 & -> & _).
Qed.

(** A buffer acquired is held by no other thread, has one reference and no trace of
    its last use in its times and flags. *)
Theorem acquire_gives_clean w timeout_ms flags id w' :
  reach pool_step w1 w -> zst_buffer_pool_acquire alloc_ok timeout_ms flags w = Some (Got id, w') ->
  id ∉ w_out w /\ id ∉ w_dying w /\ w_out w' = id :: w_out w /\
  exists b, w_heap w' !! id = Some b /\ hb_refcount b = 1 /\ pristine b.
Proof.
  intros Hr E. pose proof (reach_inv_pool w Hr) as Hw.
  destruct (w_pool w) as [p|] eqn:Hp; [|unfold zst_buffer_pool_acquire in E; by rewrite Hp in E].
  destruct (acquire_spec base timeout_ms flags w p Hw Hp) as (r & w2 & E' & _ & _ & _ & Hr').
  rewrite E in E'. injection E' as <- <-. tauto.
Qed.
End pool.

(** ** Two accesses the pool does not prevent *)

Definition always_ok : nat -> bool := fun _ => true.
Definition small_pool (size : Z) : zst_buffer_pool_config_t := mk_pcfg 1 1 size 0 0 0 false.

Definition pool_start : world := (zst_buffer_pool_create always_ok true (Some (small_pool 100)) (fresh_world 1)).2.

(** The world after a call, or as it was if the call has no result. *)
Definition after {A} (w : world) (r : option (A * world)) : world := match r with Some (_, w') => w' | None => w end.

(** After the buffer size is raised, an idle buffer is handed out with the new size
    although its block has the old one: writing [memory.size] bytes overruns it. *)
Theorem resized_pool_overruns :
  exists w2 w3 id b,
    zst_buffer_pool_set_config always_ok (small_pool 200) pool_start = Some (ZST_OK, w2) /\
    zst_buffer_pool_acquire always_ok 0 0 w2 = Some (Got id, w3) /\
    w_heap w3 !! id = Some b /\ hb_block b = Some 100 /\ hb_size b = 200.
Proof.
  pose (w2 := after pool_start (zst_buffer_pool_set_config always_ok (small_pool 200) pool_start)).
  exists w2, (after w2 (zst_buffer_pool_acquire always_ok 0 0 w2)), 0%nat, (mk_hbuf 1 0 0 0 0 0 (Some 100) 200 true).
  split_and!; vm_compute; reflexivity.
Qed.

(** The worlds of a run: one thread takes the only buffer, another waits for it, the
    pool is destroyed, the buffer is released. *)
Definition run_taken : world := after pool_start (zst_buffer_pool_acquire always_ok (-1) 0 pool_start).
Definition run_waiting : world := with_threads run_taken (w_out run_taken) (w_dying run_taken) 1.
Definition run_destroyed : world := default run_waiting (zst_buffer_pool_destroy run_waiting).
Definition run_released : world := default run_destroyed (zst_buffer_unref 0 run_destroyed).
Definition run_freed : world := default run_released (release_end 0 run_released).

Lemma run_reached : reach (pool_step always_ok) pool_start run_freed.
Proof.
  assert (H1 : pool_step always_ok pool_start run_taken).
  { eapply (ps_acquire _ _ (-1) 0 (Got 0%nat)); [|vm_compute; reflexivity].
    exists (default (mk_pool false no_config [] 0 0 false) (w_pool pool_start)). split; vm_compute; reflexivity. }
  assert (H2 : pool_step always_ok run_taken run_waiting).
  { apply (ps_acquire always_ok run_taken (-1) 0 Wait run_taken); [|vm_compute; reflexivity].
    exists (default (mk_pool false no_config [] 0 0 false) (w_pool run_taken)). split; vm_compute; reflexivity. }
  assert (H3 : pool_step always_ok run_waiting run_destroyed).
  { apply ps_destroy; [|vm_compute; reflexivity].
    exists (default (mk_pool false no_config [] 0 0 false) (w_pool run_waiting)). split; vm_compute; reflexivity. }
  assert (H4 : pool_step always_ok run_destroyed run_released).
  { apply (ps_unref _ _ 0%nat); [apply list_elem_of_singleton|]; vm_compute; reflexivity. }
  assert (H5 : pool_step always_ok run_released run_freed).
  { apply (ps_release_end _ _ 0%nat); [apply list_elem_of_singleton|]; vm_compute; reflexivity. }
  eauto 8 using reach.
Qed.

(** A thread waiting for a buffer when the pool is destroyed can find the pool freed
    when it wakes: the last buffer's release does not wait for it. *)
Theorem destroy_strands_waiter :
  exists w, reach (pool_step always_ok) pool_start w /\ w_waiters w = 1%nat /\ w_pool w = None /\
    zst_buffer_pool_acquire always_ok (-1) 0 w = None.
Proof. exists run_freed. split_and!; [apply run_reached|vm_compute; reflexivity..]. Qed.

(** ** The theorems at concrete inputs *)

Lemma pool_started :
  conf_arg (small_pool 100) /\
  zst_buffer_pool_create always_ok true (Some (small_pool 100)) (fresh_world 1) = (true, pool_start).
Proof. split; [unfold conf_arg, UINT32_MAX; cbn; lia|vm_compute; reflexivity]. Qed.

Lemma run_taken_reached : reach (pool_step always_ok) pool_start run_taken.
Proof.
  eapply reach_step; [apply reach_refl|].
  eapply (ps_acquire _ _ (-1) 0 (Got 0%nat)); [|vm_compute; reflexivity].
  exists (default (mk_pool false no_config [] 0 0 false) (w_pool pool_start)). split; vm_compute; reflexivity.
Qed.

Lemma pool_accounts_witness :
  reach (pool_step always_ok) pool_start run_taken /\
  exists p, w_pool run_taken = Some p /\
    p_total_allocated p = zlen (p_buffers p) + zlen (w_out run_taken) + zlen (w_dying run_taken) /\
    w_out run_taken = [0%nat].
Proof.
  split; [exact run_taken_reached|]. destruct pool_started as [Hc Hp].
  pose proof (pool_accounts always_ok 1 true (small_pool 100) pool_start Hc Hp run_taken run_taken_reached) as Ha.
  destruct (w_pool run_taken) as [p|] eqn:E; [|vm_compute in E; discriminate].
  exists p. split; [reflexivity|]. split; [apply Ha|vm_compute; reflexivity].
Defined.

Lemma pool_never_dangles_witness :
  reach (pool_step always_ok) pool_start run_freed /\ zst_buffer_unref 0 run_taken <> None.
Proof.
  split; [exact run_reached|]. destruct pool_started as [Hc Hp].
  destruct (pool_never_dangles always_ok 1 true (small_pool 100) pool_start Hc Hp run_taken run_taken_reached)
    as (Hu & _). apply Hu. vm_compute. left.
Defined.

Lemma acquire_gives_clean_witness :
  zst_buffer_pool_acquire always_ok (-1) 0 pool_start = Some (Got 0%nat, run_taken) /\
  0%nat ∉ w_out pool_start /\
  exists b, w_heap run_taken !! 0%nat = Some b /\ hb_refcount b = 1 /\ pristine b.
Proof.
  assert (E : zst_buffer_pool_acquire always_ok (-1) 0 pool_start = Some (Got 0%nat, run_taken))
    by (vm_compute; reflexivity).
  split; [exact E|]. destruct pool_started as [Hc Hp].
  destruct (acquire_gives_clean always_ok 1 true (small_pool 100) pool_start Hc Hp pool_start (-1) 0 0%nat run_taken
              (reach_refl _ _) E) as (H1 & _ & _ & H2).
  split; [exact H1|exact H2].
Defined.
