(* ===== verification/St2110Video.v ===== *)
(** * ST 2110-20 video: [src/st2110_20_payloader.c], [src/st2110_20_depayloader.c]

    The payloader cuts a raw frame into RTP packets, line by line; the depayloader
    copies the lines back into a frame of at most 8 MB.  [Fault] is an access outside
    the buffer or the frame, or a division by zero.  An [int] that overflows wraps. *)

From Stdlib Require Import String.
From S2P Require Import Prelude CLib Pad.

Local Open Scope Z_scope.

(** ** The payloader *)

Record st2110_20_payloader_t := mk_p20 {
  p20_width : Z;
  p20_height : Z;
  p20_sampling : string;
  p20_rtp_pt : Z;
  p20_ssrc : Z;
  p20_seq : Z;
  p20_packets : Z;
  p20_bytes : Z;
}.

Definition p20_with (s : st2110_20_payloader_t) (width height : Z) (sampling : string) (rtp_pt : Z) :=
  mk_p20 width height sampling rtp_pt (p20_ssrc s) (p20_seq s) (p20_packets s) (p20_bytes s).

(** The counters after a packet with [n] bytes of pixels. *)
Definition p20_count (s : st2110_20_payloader_t) (n : Z) : st2110_20_payloader_t :=
  mk_p20 (p20_width s) (p20_height s) (p20_sampling s) (p20_rtp_pt s) (p20_ssrc s)
    (u32 (p20_seq s + 1)) (u64 (p20_packets s + 1)) (u64 (p20_bytes s + (12 + 8 + n))).

(** The 20 bytes before the pixels. *)
Definition p20_header (s : st2110_20_payloader_t) (pts : Z) (last : bool) (n y x : Z) : bytes :=
  let seq := p20_seq s in
  let ts := u32 (u64 (pts * 90000) / 1000000000) in
  let ssrc := p20_ssrc s in
  let ext := Z.shiftr seq 16 in
  let len := u16 n in
  let f_line := Z.land y 32767 in
  let c_offset := Z.land x 32767 in
  [128; u8 (Z.lor (Z.land (p20_rtp_pt s) 127) (if last then 128 else 0));
   u8 (Z.shiftr (u16 seq) 8); u8 (u16 seq);
   u8 (Z.shiftr ts 24); u8 (Z.shiftr ts 16); u8 (Z.shiftr ts 8); u8 ts;
   u8 (Z.shiftr ssrc 24); u8 (Z.shiftr ssrc 16); u8 (Z.shiftr ssrc 8); u8 ssrc;
   u8 (Z.shiftr (u16 ext) 8); u8 (u16 ext);
   u8 (Z.shiftr len 8); u8 len;
   u8 (Z.shiftr f_line 8); u8 f_line;
   u8 (Z.shiftr c_offset 8); u8 c_offset].

(** The bytes per pixel assumed for a frame. *)
Definition p20_bpp (s : st2110_20_payloader_t) (buf : zst_buffer) : outcome Z :=
  let bpp := if streq (p20_sampling s) "RGB" || streq (p20_sampling s) "YCbCr-4:4:4" then 3 else 2 in
  if (0 <? p20_width s) && (0 <? p20_height s) && (0 <? mem_size buf) then
    q ← udiv (mem_size buf) (u64 (s32 (p20_width s * p20_height s)));
    Done (if s32 q =? 0 then 2 else s32 q)
  else Done bpp.

Section payloader.
Context {D : Type} `{PadSink D} `{CMemory}.
Implicit Type d : option D.

(** One packet of [n] bytes: the result tells whether it was allocated and sent. *)
Definition p20_send (s : st2110_20_payloader_t) d (buf : zst_buffer) (bpp y x n : Z) (last : bool)
    : outcome (bool * st2110_20_payloader_t * option D) :=
  if negb (malloc_ok SIZEOF_BUFFER) then Done (false, s, d)
  else if negb (malloc_ok (u64 (20 + n))) then Done (false, s, d)
  else
    pixels ← read_bytes (mem_data buf) (s32 (s32 (s32 (y * p20_width s) * bpp) + s32 (x * bpp))) (u64 n);
    let pkt := p20_header s (buf_pts buf) last n y x ++ pixels in
    let out := mk_buffer ZST_BUFFER_VIDEO_PACKET 0 (buf_pts buf) 0 0 (Some pkt) (u64 (20 + n)) in
    let '(_, d) := push_peer d out in
    Done (true, p20_count s n, d).

(** The packets of line [y] from pixel [x] on, [max_pixels] at most in each. *)
Fixpoint p20_line (fuel : nat) (s : st2110_20_payloader_t) d (buf : zst_buffer) (bpp max_pixels y x : Z)
    : outcome (bool * st2110_20_payloader_t * option D) :=
  match fuel with
  | O => Unfinished
  | S fuel =>
      if x <? p20_width s then
        let left := p20_width s - x in
        let pixels := if max_pixels <? left then max_pixels else left in
        let last := (y =? p20_height s - 1) && (x + pixels =? p20_width s) in
        '(ok, s, d) ← p20_send s d buf bpp y x (s32 (pixels * bpp)) last;
        if ok : bool then p20_line fuel s d buf bpp max_pixels y (x + pixels) else Done (false, s, d)
      else Done (true, s, d)
  end.

(** [n] lines from [y] on. *)
Fixpoint p20_lines (fuel n : nat) (s : st2110_20_payloader_t) d (buf : zst_buffer) (bpp max_pixels y : Z)
    : outcome (bool * st2110_20_payloader_t * option D) :=
  match n with
  | O => Done (true, s, d)
  | S n =>
      '(ok, s, d) ← p20_line fuel s d buf bpp max_pixels y 0;
      if ok : bool then p20_lines fuel n s d buf bpp max_pixels (y + 1) else Done (false, s, d)
  end.

(** The sink pad's push handler.  [fuel] bounds the packets of a line: one more than
    the pixels is enough. *)
Definition st2110_20_payloader_pad_push (fuel : nat) (s : option st2110_20_payloader_t) d
    (buf : option zst_buffer) : outcome (zst_result_t * option st2110_20_payloader_t * option D) :=
  match s, buf with
  | Some s, Some buf =>
      if has_flag (buf_flags buf) ZST_BUFFER_FLAG_EOS then
        if (match d with Some _ => true | None => false end) && malloc_ok SIZEOF_BUFFER then
          let eos := mk_buffer ZST_BUFFER_VIDEO_PACKET ZST_BUFFER_FLAG_EOS 0 0 0 None 0 in
          Done (ZST_OK, Some s, (push_peer d eos).2)
        else Done (ZST_OK, Some s, d)
      else
        bpp ← p20_bpp s buf;
        let max_payload_bytes := 1376 - Z.rem 1376 bpp in
        '(ok, s, d) ← p20_lines fuel (Z.to_nat (p20_height s)) s d buf bpp (Z.quot max_payload_bytes bpp) 0;
        Done (if ok : bool then ZST_OK else ZST_ERROR, Some s, d)
  | s, _ => Done (ZST_ERROR, s, d)
  end.
End payloader.

Definition st2110_20_payloader_open (s : option st2110_20_payloader_t)
    : zst_result_t * option st2110_20_payloader_t :=
  match s with
  | None => (ZST_ERROR, None)
  | Some s => (ZST_OK, Some (mk_p20 (p20_width s) (p20_height s) (p20_sampling s) (p20_rtp_pt s) (p20_ssrc s) 0 0 0))
  end.

Definition st2110_20_payloader_close (s : option st2110_20_payloader_t)
    : zst_result_t * option st2110_20_payloader_t := (ZST_OK, s).

Definition zst_st2110_20_payloader_create : st2110_20_payloader_t :=
  mk_p20 1920 1080 "YCbCr-4:2:2" 96 0 0 0 0.

Definition st2110_20_payloader_set_property (s : option st2110_20_payloader_t) (name value : option string)
    : zst_result_t * option st2110_20_payloader_t :=
  match s, name, value with
  | Some s, Some name, Some value =>
      if streq name "width" then
        (ZST_OK, Some (p20_with s (atoi value) (p20_height s) (p20_sampling s) (p20_rtp_pt s)))
      else if streq name "height" then
        (ZST_OK, Some (p20_with s (p20_width s) (atoi value) (p20_sampling s) (p20_rtp_pt s)))
      else if streq name "sampling" then
        (ZST_OK, Some (p20_with s (p20_width s) (p20_height s) (strncpy_n 32 value) (p20_rtp_pt s)))
      else if streq name "rtp-pt" then
        (ZST_OK, Some (p20_with s (p20_width s) (p20_height s) (p20_sampling s) (atoi value)))
      else (ZST_ERROR, Some s)
  | s, _, _ => (ZST_ERROR, s)
  end.

(** The text left in [value_out], or [None] when the result is [ZST_ERROR]. *)
Definition st2110_20_payloader_get_property (s : option st2110_20_payloader_t) (name : option string)
    (max_len : Z) : option string :=
  match s, name with
  | Some s, Some name =>
      if max_len =? 0 then None
      else
        let out text := Some (snprintf max_len text) in
        if streq name "width" then out (show_Z (p20_width s))
        else if streq name "height" then out (show_Z (p20_height s))
        else if streq name "sampling" then out (p20_sampling s)
        else if streq name "rtp-pt" then out (show_Z (p20_rtp_pt s))
        else None
  | _, _ => None
  end.

(** ** The depayloader *)

(** The frame being assembled: its block of 8 MB, what [malloc] left in it included. *)
Record d20_frame := mk_frame20 {
  fr_block : Z -> byte;
  fr_pts : Z;
}.

Record st2110_20_depayloader_t := mk_d20 {
  d20_expected_line_length : Z;
  d20_reorder_buffer_depth : Z;
  d20_reorder_timeout_ms : Z;
  d20_current_frame : option d20_frame;
  d20_current_ts : Z;
  d20_max_y : Z;
  d20_bpp : Z;
}.

Definition d20_frame_max : Z := 8 * 1024 * 1024.

Definition d20_assemble (s : st2110_20_depayloader_t) (f : option d20_frame) (ts max_y bpp : Z) :=
  mk_d20 (d20_expected_line_length s) (d20_reorder_buffer_depth s) (d20_reorder_timeout_ms s) f ts max_y bpp.

(** [memcpy] of [l] to [pos] in the block. *)
Definition block_write (block : Z -> byte) (pos : Z) (l : bytes) : Z -> byte :=
  fun i => if (pos <=? i) && (i <? pos + zlen l) then rd l (i - pos) else block i.

(** [memory.size] of a frame when it is pushed. *)
Definition d20_frame_size (s : st2110_20_depayloader_t) : Z :=
  u64 (s32 ((if 0 <? d20_expected_line_length s then d20_expected_line_length s else s32 (1920 * d20_bpp s))
            * s32 (d20_max_y s + 1))).

(** The frame as the next element sees it: its bytes up to [memory.size], as far as
    the block goes. *)
Definition d20_buffer (s : st2110_20_depayloader_t) (f : d20_frame) : zst_buffer :=
  let size := d20_frame_size s in
  mk_buffer ZST_BUFFER_VIDEO_FRAME 0 (fr_pts f) 0 0
    (Some (map (fr_block f) (seqZ 0 (Z.min size d20_frame_max)))) size.

(** The line headers from [off] on, at most [n]: length, line, offset of each, and the
    offset after them. *)
Fixpoint d20_headers (n : nat) (data : bytes) (size off : Z) : list (Z * Z * Z) * Z :=
  match n with
  | O => ([], off)
  | S n =>
      if off + 6 <=? size then
        let length := be16 (rd data off) (rd data (off + 1)) in
        let f_line := be16 (rd data (off + 2)) (rd data (off + 3)) in
        let c_off := be16 (rd data (off + 4)) (rd data (off + 5)) in
        let h := (length, Z.land f_line 32767, Z.land c_off 32767) in
        if negb (Z.land c_off 32768 =? 0) then
          let '(hs, off) := d20_headers n data size (off + 6) in (h :: hs, off)
        else ([h], off + 6)
      else ([], off)
  end.

(** Copies the lines announced by the headers, from [off] in the packet, into the frame. *)
Fixpoint d20_copy (s : st2110_20_depayloader_t) (f : d20_frame) (buf : zst_buffer) (off : Z)
    (hs : list (Z * Z * Z)) : outcome (st2110_20_depayloader_t * d20_frame) :=
  match hs with
  | [] => Done (s, f)
  | (len, line_no, p_offset) :: hs =>
      if mem_size buf <? off + len then Done (s, f)
      else
        let s := d20_assemble s (d20_current_frame s) (d20_current_ts s)
                   (if d20_max_y s <? line_no then line_no else d20_max_y s) (d20_bpp s) in
        let stride := if 0 <? d20_expected_line_length s then d20_expected_line_length s
                      else s32 (1920 * d20_bpp s) in
        let dest := s32 (s32 (line_no * stride) + s32 (p_offset * d20_bpp s)) in
        if u64 (s32 (dest + len)) <=? d20_frame_max then
          l ← read_bytes (mem_data buf) off len;
          if (len =? 0) || ((0 <=? dest) && (dest + len <=? d20_frame_max)) then
            d20_copy s (mk_frame20 (block_write (fr_block f) dest l) (fr_pts f)) buf (off + len) hs
          else Fault
        else d20_copy s f buf (off + len) hs
  end.

Section depayloader.
Context {D : Type} `{PadSink D} `{CMemory}.
Implicit Type d : option D.

(** What [malloc] leaves in a block. *)
Context (stale : Z -> byte).

(** A new frame at [ts], if it can be allocated; a frame under assembly is pushed first. *)
Definition d20_begin (s : st2110_20_depayloader_t) d (ts : Z)
    : bool * st2110_20_depayloader_t * option D :=
  let d := match d20_current_frame s with Some f => (push_peer d (d20_buffer s f)).2 | None => d end in
  if malloc_ok SIZEOF_BUFFER && malloc_ok d20_frame_max then
    (true, d20_assemble s (Some (mk_frame20 stale ts)) ts 0 2, d)
  else (false, d20_assemble s None (d20_current_ts s) (d20_max_y s) (d20_bpp s), d).

(** The copy of the lines and, on the marker, the push of the frame. *)
Definition d20_lines (s : st2110_20_depayloader_t) d (buf : zst_buffer) (data : bytes) (f : d20_frame)
    : outcome (zst_result_t * st2110_20_depayloader_t * option D) :=
  let '(hs, off) := d20_headers 32 data (mem_size buf) 14 in
  '(s, f) ← d20_copy s f buf off hs;
  if negb (Z.land (rd data 1) 128 =? 0) then
    let '(_, d) := push_peer d (d20_buffer s f) in
    Done (ZST_OK, d20_assemble s None (d20_current_ts s) (d20_max_y s) (d20_bpp s), d)
  else Done (ZST_OK, d20_assemble s (Some f) (d20_current_ts s) (d20_max_y s) (d20_bpp s), d).

Definition st2110_20_depayloader_pad_push (s : option st2110_20_depayloader_t) d (buf : option zst_buffer)
    : outcome (zst_result_t * option st2110_20_depayloader_t * option D) :=
  match s, buf with
  | Some s, Some buf =>
      if has_flag (buf_flags buf) ZST_BUFFER_FLAG_EOS then
        if (match d with Some _ => true | None => false end) && malloc_ok SIZEOF_BUFFER then
          let eos := mk_buffer ZST_BUFFER_VIDEO_FRAME ZST_BUFFER_FLAG_EOS 0 0 0 None 0 in
          Done (ZST_OK, Some s, (push_peer d eos).2)
        else Done (ZST_OK, Some s, d)
      else if mem_size buf <? 20 then Done (ZST_ERROR, Some s, d)
      else match mem_data buf with
      | None => Fault
      | Some data =>
          let ts := be32 (rd data 4) (rd data 5) (rd data 6) (rd data 7) in
          let '(ok, s, d) :=
            match d20_current_frame s with
            | Some _ => if d20_current_ts s =? ts then (true, s, d) else d20_begin s d ts
            | None => d20_begin s d ts
            end in
          match d20_current_frame s with
          | Some f =>
              '(ret, s, d) ← d20_lines s d buf data f;
              Done (ret, Some s, d)
          | None => Done (ZST_ERROR, Some s, d)
          end
      end
  | s, _ => Done (ZST_ERROR, s, d)
  end.

(** The packets one after the other. *)
Fixpoint d20_run (s : st2110_20_depayloader_t) d (bs : list zst_buffer)
    : outcome (st2110_20_depayloader_t * option D) :=
  match bs with
  | [] => Done (s, d)
  | b :: bs =>
      '(_, s', d) ← st2110_20_depayloader_pad_push (Some s) d (Some b);
      d20_run (default s s') d bs
  end.
End depayloader.

Definition st2110_20_depayloader_open (s : option st2110_20_depayloader_t)
    : zst_result_t * option st2110_20_depayloader_t := (ZST_OK, s).
Definition st2110_20_depayloader_close (s : option st2110_20_depayloader_t)
    : zst_result_t * option st2110_20_depayloader_t := (ZST_OK, s).

Definition zst_st2110_20_depayloader_create : st2110_20_depayloader_t :=
  mk_d20 0 100 100 None 0 0 0.

Definition d20_config (s : st2110_20_depayloader_t) (line depth timeout : Z) : st2110_20_depayloader_t :=
  mk_d20 line depth timeout (d20_current_frame s) (d20_current_ts s) (d20_max_y s) (d20_bpp s).

Definition st2110_20_depayloader_set_property (s : option st2110_20_depayloader_t) (name value : option string)
    : zst_result_t * option st2110_20_depayloader_t :=
  match s, name, value with
  | Some s, Some name, Some value =>
      if streq name "expected-line-length" then
        (ZST_OK, Some (d20_config s (atoi value) (d20_reorder_buffer_depth s) (d20_reorder_timeout_ms s)))
      else if streq name "reorder-buffer-depth" then
        (ZST_OK, Some (d20_config s (d20_expected_line_length s) (atoi value) (d20_reorder_timeout_ms s)))
      else if streq name "reorder-timeout-ms" then
        (ZST_OK, Some (d20_config s (d20_expected_line_length s) (d20_reorder_buffer_depth s) (atoi value)))
      else (ZST_ERROR, Some s)
  | s, _, _ => (ZST_ERROR, s)
  end.

Definition st2110_20_depayloader_get_property (s : option st2110_20_depayloader_t) (name : option string)
    (max_len : Z) : option string :=
  match s, name with
  | Some s, Some name =>
      if max_len =? 0 then None
      else
        let out text := Some (snprintf max_len text) in
        if streq name "expected-line-length" then out (show_Z (d20_expected_line_length s))
        else if streq name "reorder-buffer-depth" then out (show_Z (d20_reorder_buffer_depth s))
        else if streq name "reorder-timeout-ms" then out (show_Z (d20_reorder_timeout_ms s))
        else None
  | _, _ => None
  end.
