(* ===== verification/St2110VideoSpec.v ===== *)
(** * Properties of the ST 2110-20 elements

    A frame sent through the payloader and put together again by the depayloader is
    the same frame; the depayloader never writes outside its block for any packet, if
    the configured line length is reasonable; and the inputs for which neither holds. *)

From Stdlib Require Import String.
From S2P Require Import Prelude CLib Pad St2110Video.

Local Open Scope Z_scope.

(** ** Reading a packet back *)

Lemma land_low z n m : 0 <= n -> m = 2 ^ n - 1 -> 0 <= z < 2 ^ n -> Z.land z m = z.
Proof. intros ? ? ?. rewrite (land_ones_mod _ n) by done. by apply Z.mod_small. Qed.

Lemma land_high_bit z n m : 0 <= n -> m = 2 ^ n -> 0 <= z < 2 ^ n -> Z.land z m = 0.
Proof.
  intros Hn -> Hz. apply Z.bits_inj'. intros i Hi. rewrite Z.land_spec, Z.bits_0, Z.pow2_bits_eqb by lia.
  destruct (Z.eqb_spec n i) as [->|]; [|apply andb_false_r].
  rewrite <-(Z.mod_small z (2 ^ i)) by lia. by rewrite Z.mod_pow2_bits_high by lia.
Qed.

Lemma rd_sub_prefix l n i : 0 <= i < n -> rd (sub_bytes 0 n l) i = rd l i.
Proof. intros. unfold rd, sub_bytes. by rewrite drop_0, lookup_take, decide_True by lia. Qed.

Definition frame_ts (pts : Z) : Z := u32 (u64 (pts * 90000) / 1000000000).

Lemma header_length s pts last n y x : zlen (p20_header s pts last n y x) = 20.
Proof. reflexivity. Qed.

Section packet.
Context (s : st2110_20_payloader_t) (pts : Z) (last : bool) (n y x : Z) (px : bytes).
Context (Hn : 0 <= n < 65536) (Hy : 0 <= y < 32768) (Hx : 0 <= x < 32768).

Lemma packet_ts :
  let p := p20_header s pts last n y x ++ px in
  be32 (rd p 4) (rd p 5) (rd p 6) (rd p 7) = frame_ts pts.
Proof.
  cbv zeta. transitivity (be32 (u8 (Z.shiftr (frame_ts pts) 24)) (u8 (Z.shiftr (frame_ts pts) 16))
                            (u8 (Z.shiftr (frame_ts pts) 8)) (u8 (frame_ts pts))); [reflexivity|].
  apply be32_u8, u32_range.
Qed.

Lemma packet_marker :
  negb (Z.land (rd (p20_header s pts last n y x ++ px) 1) 128 =? 0) = last.
Proof.
  change (rd (p20_header s pts last n y x ++ px) 1)
    with (u8 (Z.lor (Z.land (p20_rtp_pt s) 127) (if last then 128 else 0))).
  set (p := p20_rtp_pt s). rewrite (land_ones_mod p 7) by done.
  pose proof (Z.mod_pos_bound p (2 ^ 7) ltac:(lia)) as Hp. set (q := p mod 2 ^ 7) in *. clearbody q.
  destruct last.
  - rewrite u8_small.
    + rewrite Z.land_lor_distr_l, (land_high_bit q 7) by (done || lia). reflexivity.
    + change 128 with (Z.shiftl 1 7). rewrite Z.lor_comm, lor_shiftl_add by lia. lia.
  - rewrite Z.lor_0_r, u8_small by lia. by rewrite (land_high_bit q 7) by (done || lia).
Qed.

Lemma packet_headers size :
  20 <= size ->
  d20_headers 32 (p20_header s pts last n y x ++ px) size 14 = ([(n, y, x)], 20).
Proof.
  intros Hs. set (p := p20_header s pts last n y x ++ px). cbn [d20_headers].
  destruct (Z.leb_spec (14 + 6) size); [|lia].
  assert (E1 : be16 (rd p 14) (rd p (14 + 1)) = n).
  { change (be16 (u8 (Z.shiftr (u16 n) 8)) (u8 (u16 n)) = n). rewrite be16_u8 by apply u16_range. by apply u16_small. }
  assert (E2 : be16 (rd p (14 + 2)) (rd p (14 + 3)) = y).
  { change (be16 (u8 (Z.shiftr (Z.land y 32767) 8)) (u8 (Z.land y 32767)) = y).
    rewrite (land_low y 15) by (done || lia). apply be16_u8. lia. }
  assert (E3 : be16 (rd p (14 + 4)) (rd p (14 + 5)) = x).
  { change (be16 (u8 (Z.shiftr (Z.land x 32767) 8)) (u8 (Z.land x 32767)) = x).
    rewrite (land_low x 15) by (done || lia). apply be16_u8. lia. }
  rewrite E1, E2, E3, (land_low y 15 32767), (land_low x 15 32767) by (done || lia). by rewrite (land_high_bit x 15) by (done || lia).
Qed.
End packet.

(** ** The depayloader on one packet of the payloader *)

Section roundtrip.
Context {D : Type} `{PadSink D} `{CMemoryOk} (stale : Z -> byte).
Implicit Type d : option D.

(** The frame sent: [w] by [h] pixels of two bytes. *)
Context (w h pts : Z) (frame : bytes).
Context (Hw : 0 < w <= 32768) (Hh : 0 < h <= 32768).
Context (Hsize : 2 * (w * h) <= zlen frame) (Hmax : 2 * (w * h) <= d20_frame_max).

(** The depayloader's lines are [w] pixels long. *)
Definition line_fits (s : st2110_20_depayloader_t) : Prop :=
  (if 0 <? d20_expected_line_length s then d20_expected_line_length s else 3840) = 2 * w.

(** The first [k] bytes of the frame are in place, the last line seen is at most [y]. *)
Definition assembled (s : st2110_20_depayloader_t) (y k : Z) : Prop :=
  line_fits s /\
  ((k = 0 /\ d20_current_frame s = None) \/
   exists f, d20_current_frame s = Some f /\ d20_current_ts s = frame_ts pts /\ d20_bpp s = 2 /\
     0 <= d20_max_y s <= y /\ fr_pts f = frame_ts pts /\ forall i, 0 <= i < k -> fr_block f i = rd frame i).

(** One frame of these bytes, at the time [t]; the depayloader gives it the raw RTP time. *)
Definition frame_at (t : Z) : zst_buffer :=
  mk_buffer ZST_BUFFER_VIDEO_FRAME 0 t 0 0 (Some (sub_bytes 0 (2 * (w * h)) frame)) (2 * (w * h)).
Definition whole_frame : zst_buffer := frame_at (frame_ts pts).

(** The packet of the [m] pixels of line [y] at [x]. *)
Definition pixel_packet (s : st2110_20_payloader_t) (y x m : Z) (last : bool) : zst_buffer :=
  mk_buffer ZST_BUFFER_VIDEO_PACKET 0 pts 0 0
    (Some (p20_header s pts last (2 * m) y x ++ sub_bytes (2 * (y * w + x)) (2 * m) frame)) (20 + 2 * m).

Lemma assembled_begin s y k d :
  assembled s y k -> 0 <= y ->
  exists f s', (match d20_current_frame s with
               | Some _ => if d20_current_ts s =? frame_ts pts then (true, s, d) else d20_begin stale s d (frame_ts pts)
               | None => d20_begin stale s d (frame_ts pts)
               end) = (true, s', d) /\ d20_current_frame s' = Some f /\ d20_current_ts s' = frame_ts pts /\
    line_fits s' /\ d20_bpp s' = 2 /\ 0 <= d20_max_y s' <= y /\ fr_pts f = frame_ts pts /\
    forall i, 0 <= i < k -> fr_block f i = rd frame i.
Proof.
  intros (Hl & [[-> E]|(f & E & Et & Hb & Hy & Hp & Hk)]) Hy0; rewrite E.
  - unfold d20_begin. rewrite E, !malloc_total. cbn [andb].
    exists (mk_frame20 stale (frame_ts pts)), (d20_assemble s (Some (mk_frame20 stale (frame_ts pts))) (frame_ts pts) 0 2).
    split_and!; try done; cbn; intros; lia.
  - rewrite Et, Z.eqb_refl. exists f, s. split; [done|]. by split_and!; try lia.
Qed.

Lemma block_write_rd block k n i :
  0 <= k -> 0 <= n -> k + n <= zlen frame -> (forall i, 0 <= i < k -> block i = rd frame i) -> 0 <= i < k + n ->
  block_write block k (sub_bytes k n frame) i = rd frame i.
Proof.
  intros Hk Hn Hf Hb Hi. unfold block_write. rewrite zlen_sub_bytes by lia.
  destruct (Z.leb_spec k i), (Z.ltb_spec i (k + n)); cbn [andb]; try (apply Hb; lia); try lia.
  unfold rd, sub_bytes. rewrite lookup_take, decide_True by lia. rewrite lookup_drop. do 2 f_equal. lia.
Qed.

(** The pixels of a line that are left lie in the frame. *)
Lemma position_fits y x m :
  0 <= y < h -> 0 <= x -> 0 <= m -> x + m <= w ->
  0 <= y * w + x /\ y * w + x + m <= w * h /\ 0 <= y * w.
Proof. intros. assert (y * w <= (h - 1) * w) by nia. nia. Qed.

Lemma whole_block block n :
  0 <= n -> n <= zlen frame -> (forall i, 0 <= i < n -> block i = rd frame i) ->
  map block (seqZ 0 n) = sub_bytes 0 n frame.
Proof.
  intros Hn Hf Hb. apply list_eq. intros i. unfold sub_bytes. rewrite drop_0. rewrite list_lookup_fmap.
  destruct (decide (Z.of_nat i < n)) as [Hi|Hi].
  - rewrite lookup_seqZ_lt by lia. cbn. rewrite lookup_take, decide_True by lia. rewrite Hb by lia. unfold rd.
    replace (Z.to_nat (0 + Z.of_nat i)) with i by lia. unfold zlen in Hf.
    destruct (frame !! i) eqn:E; [done|]. apply lookup_ge_None in E. lia.
  - rewrite lookup_seqZ_ge by lia. by rewrite lookup_take, decide_False by lia.
Qed.

(** The packet of [m] pixels at [x] of line [y], once the pixels before are in place. *)
Lemma packet_assembles s (p : st2110_20_payloader_t) y x m last d :
  0 <= y < h -> 0 <= x -> 0 < m < 32768 -> x + m <= w -> last = (y =? h - 1) && (x + m =? w) ->
  assembled s y (2 * (y * w + x)) ->
  exists s', st2110_20_depayloader_pad_push stale (Some s) d (Some (pixel_packet p y x m last)) =
      Done (ZST_OK, Some s', if last then (push_peer d whole_frame).2 else d) /\
    (if last then d20_current_frame s' = None else assembled s' y (2 * (y * w + x + m))).
Proof.
  intros Hy Hx Hm Hxm Elast Ha. unfold st2110_20_depayloader_pad_push, pixel_packet.
  cbn [buf_flags mem_size mem_data]. change (has_flag 0 ZST_BUFFER_FLAG_EOS) with false. cbv iota.
  destruct (Z.ltb_spec (20 + 2 * m) 20); [lia|].
  rewrite packet_ts. destruct (assembled_begin s y _ d Ha ltac:(lia)) as (f & s1 & -> & Ef & Et & Hl & Hb & Hmy & Hp & Hk).
  rewrite Ef. unfold d20_lines. cbn [mem_size]. rewrite packet_headers by lia.
  pose proof (position_fits y x m Hy Hx ltac:(lia) Hxm) as (HK & HKm & Hyw).
  set (K := y * w + x) in *. pose proof Hmax as Hmax'. unfold d20_frame_max in Hmax'.
  cbn [d20_copy mem_size mem_data]. destruct (Z.ltb_spec (20 + 2 * m) (20 + 2 * m)); [lia|].
  set (s2 := d20_assemble s1 _ _ _ _).
  assert (Estride : (if 0 <? d20_expected_line_length s2 then d20_expected_line_length s2
                     else s32 (1920 * d20_bpp s2)) = 2 * w) by (subst s2; cbn; rewrite Hb; exact Hl).
  rewrite Estride. assert (Ed : s32 (s32 (y * (2 * w)) + s32 (x * d20_bpp s2)) = 2 * K).
  { subst s2. cbn. rewrite Hb, (s32_small (y * (2 * w))), (s32_small (x * 2)), s32_small by lia. subst K. lia. }
  rewrite Ed, (s32_small (2 * K + 2 * m)), u64_small by lia. unfold d20_frame_max.
  destruct (Z.leb_spec (2 * K + 2 * m) (8 * 1024 * 1024)); [|lia].
  rewrite read_bytes_in by (rewrite ?zlen_app, ?header_length, ?zlen_sub_bytes by lia; lia). cbn [mbind outcome_bind].
  rewrite (proj2 (Z.eqb_neq (2 * m) 0)), (proj2 (Z.leb_le 0 (2 * K))) by lia. cbn [orb andb].
  rewrite <-(header_length p pts last (2 * m) y x), sub_bytes_app_r by (rewrite zlen_sub_bytes; lia).
  set (f2 := mk_frame20 _ _). cbn [mbind outcome_bind]. rewrite packet_marker.
  assert (Hk2 : forall i, 0 <= i < 2 * (K + m) -> fr_block f2 i = rd frame i).
  { intros i Hi. apply block_write_rd; try lia. done. }
  assert (Hmy2 : d20_max_y s2 = y) by (subst s2; cbn; zbool; lia).
  destruct last.
  - assert (x + m = w /\ y = h - 1) as [Exm Eyh] by (zbool; try done; lia).
    assert (EK : K + m = w * h) by (subst K; nia).
    assert (Esz : d20_frame_size s2 = 2 * (w * h)).
    { unfold d20_frame_size. rewrite Estride, Hmy2, (s32_small (y + 1)) by lia.
      replace (2 * w * (y + 1)) with (2 * (w * h)) by nia. rewrite s32_small by lia. apply u64_small. lia. }
    assert (d20_buffer s2 f2 = whole_frame) as ->.
    { unfold d20_buffer, whole_frame, frame_at. rewrite Esz, Z.min_l by (unfold d20_frame_max; lia).
      rewrite whole_block by (lia || (intros; apply Hk2; lia)). change (fr_pts f2) with (fr_pts f). by rewrite Hp. }
    eexists. destruct (push_peer d whole_frame). split; [done|]. done.
  - eexists. split; [done|]. split; [exact Hl|]. right. exists f2. subst s2. cbn in *. rewrite Hmy2.
    split_and!; try done; lia.
Qed.

(** ** A line, a frame *)

Lemma run_app dep d bs cs :
  d20_run stale dep d (bs ++ cs) =
  ('(dep, d) ← d20_run stale dep d bs; d20_run stale dep d cs).
Proof.
  revert dep d. induction bs as [|b bs IH]; intros; [done|]. cbn [app d20_run].
  destruct (st2110_20_depayloader_pad_push _ _ _ _) as [[[r s'] d']| |]; cbn [mbind outcome_bind]; done.
Qed.

(** The payloader is configured for the frame in [buf]. *)
Record sends (p : st2110_20_payloader_t) (buf : zst_buffer) : Prop := {
  se_width : p20_width p = w;
  se_height : p20_height p = h;
  se_pts : buf_pts buf = pts;
  se_data : mem_data buf = Some frame;
}.

Lemma send_packet p buf (tr : trace) y x m last :
  sends p buf -> 0 <= y < h -> 0 <= x -> 0 < m < 32768 -> x + m <= w ->
  p20_send p (Some tr) buf 2 y x (2 * m) last =
    Done (true, p20_count p (2 * m), Some (tr ++ [pixel_packet p y x m last])).
Proof.
  intros [Hpw Hph Hpts Hd] Hy Hx Hm Hxm. pose proof (position_fits y x m Hy Hx ltac:(lia) Hxm) as (HK & HKm & Hyw).
  pose proof Hmax as Hmax'. unfold d20_frame_max in Hmax'. unfold p20_send. rewrite !malloc_total, Hpw, Hd, Hpts. cbn [negb].
  rewrite (s32_small (y * w)), (s32_small (y * w * 2)), (s32_small (x * 2)), s32_small, (u64_small (2 * m)), (u64_small (20 + 2 * m)) by lia.
  replace (y * w * 2 + x * 2) with (2 * (y * w + x)) by lia. rewrite read_bytes_in by lia. cbn [mbind outcome_bind].
  done.
Qed.

Lemma line_assembles fuel p buf (tr : trace) y x dep d :
  sends p buf -> 0 <= y < h -> 0 <= x <= w -> (Z.to_nat (w - x) < fuel)%nat ->
  assembled dep y (2 * (y * w + x)) ->
  exists bs p', p20_line fuel p (Some tr) buf 2 688 y x = Done (true, p', Some (tr ++ bs)) /\ sends p' buf /\
    exists dep', d20_run stale dep d bs =
        Done (dep', if (y =? h - 1) && (x <? w) then (push_peer d whole_frame).2 else d) /\
      (if (y =? h - 1) && (x <? w) then d20_current_frame dep' = None else assembled dep' y (2 * (y * w + w))).
Proof.
  revert p tr x dep d. induction fuel as [|fuel IH]; intros p tr x dep d Hp Hy Hx Hf Ha; [lia|].
  cbn [p20_line]. rewrite (se_width _ _ Hp), (se_height _ _ Hp).
  destruct (Z.ltb_spec x w) as [Hlt|Hge].
  2: { exists [], p. rewrite app_nil_r. split; [done|]. split; [done|]. exists dep. rewrite andb_false_r.
       split; [done|]. by replace w with x at 2 by lia. }
  set (m := if 688 <? w - x then 688 else w - x).
  assert (Hm : 0 < m < 32768 /\ x + m <= w) by (subst m; zbool; lia). clearbody m. destruct Hm as [Hm Hxm].
  rewrite s32_small by lia. replace (m * 2) with (2 * m) by lia.
  rewrite (send_packet p buf tr y x m) by (done || lia). cbn [mbind outcome_bind].
  set (last := (y =? h - 1) && (x + m =? w)).
  destruct (packet_assembles dep p y x m last d) as (dep1 & E1 & Hd1); try done; try lia.
  assert (Hp' : sends (p20_count p (2 * m)) buf) by (by destruct Hp; constructor).
  destruct (Z.eqb_spec (x + m) w) as [Exm|Hne].
  - assert (Efin : p20_line fuel (p20_count p (2 * m)) (Some (tr ++ [pixel_packet p y x m last])) buf 2 688 y (x + m)
              = Done (true, p20_count p (2 * m), Some (tr ++ [pixel_packet p y x m last]))).
    { destruct fuel; [lia|]. cbn [p20_line]. rewrite (se_width _ _ Hp'), Exm, Z.ltb_irrefl. done. }
    exists [pixel_packet p y x m last], (p20_count p (2 * m)). split; [done|]. split; [done|].
    exists dep1. cbn [d20_run]. rewrite E1. cbn [mbind outcome_bind default]. subst last.
    destruct (y =? h - 1); cbn [andb] in *; [done|]. split; [done|]. by replace (y * w + w) with (y * w + x + m) by lia.
  - assert (last = false) as El by (subst last; apply andb_false_r). rewrite El in *.
    destruct (IH (p20_count p (2 * m)) (tr ++ [pixel_packet p y x m false]) (x + m) dep1 d) as (bs & p' & Eb & Hp2 & dep' & Er & Hr);
      try done; try lia.
    { by replace (y * w + (x + m)) with (y * w + x + m) by lia. }
    exists (pixel_packet p y x m false :: bs), p'. rewrite <-app_assoc in Eb. split; [exact Eb|]. split; [done|].
    exists dep'. cbn [d20_run]. rewrite E1. cbn [mbind outcome_bind default].
    rewrite (proj2 (Z.ltb_lt (x + m) w)) in Er, Hr by lia. done.
Qed.

Lemma lines_assemble fuel n p buf (tr : trace) y dep d :
  sends p buf -> (0 < n)%nat -> 0 <= y -> y + Z.of_nat n = h -> (Z.to_nat w < fuel)%nat ->
  assembled dep y (2 * (y * w)) ->
  exists bs p', p20_lines fuel n p (Some tr) buf 2 688 y = Done (true, p', Some (tr ++ bs)) /\ sends p' buf /\
    exists dep', d20_run stale dep d bs = Done (dep', (push_peer d whole_frame).2) /\ d20_current_frame dep' = None.
Proof.
  revert p tr y dep. induction n as [|n IH]; intros p tr y dep Hp Hn Hy Hyn Hf Ha; [lia|]. cbn [p20_lines].
  destruct (line_assembles fuel p buf tr y 0 dep d) as (bs & p1 & E1 & Hp1 & dep1 & Er & Hr); try done; try lia.
  { by rewrite Z.add_0_r. }
  rewrite E1. cbn [mbind outcome_bind]. rewrite (proj2 (Z.ltb_lt 0 w)), andb_true_r in Er, Hr by lia.
  destruct (Z.eqb_spec y (h - 1)) as [Eyh|Hyh].
  - assert (n = 0%nat) as -> by lia. exists bs, p1. split; [done|]. split; [done|]. by exists dep1.
  - destruct (IH p1 (tr ++ bs) (y + 1) dep1) as (cs & p2 & E2 & Hp2 & dep2 & Er2 & Hr2); try done; try lia.
    { replace ((y + 1) * w) with (y * w + w) by lia. destruct Hr as [Hl Hk]. split; [done|].
      destruct Hk as [[? ?]|(f & ? & ? & ? & ? & ? & ?)]; [by left|right]. exists f. split_and!; try done; lia. }
    exists (bs ++ cs), p2. rewrite <-app_assoc in E2. split; [exact E2|]. split; [done|].
    exists dep2. by rewrite run_app, Er.
Qed.
End roundtrip.

(** C40. A frame of [w] by [h] pixels of two bytes, at most 8 MB, sent through the payloader,
    packet by packet into a depayloader that is set to lines of that length and has no frame
    begun, comes out as one frame of the same bytes, and no other; nothing is left behind.
    Memory does not fail. *)
Theorem video_roundtrip {D} `{PadSink D} `{CMemoryOk} stale fuel p dep buf frame (tr : trace) (d : option D) :
  let w := p20_width p in let h := p20_height p in
  0 < w <= 32768 -> 0 < h <= 32768 -> 2 * (w * h) <= d20_frame_max -> (Z.to_nat w < fuel)%nat ->
  has_flag (buf_flags buf) ZST_BUFFER_FLAG_EOS = false ->
  mem_data buf = Some frame -> 2 * (w * h) <= mem_size buf < 3 * (w * h) -> mem_size buf <= zlen frame ->
  line_fits w dep -> d20_current_frame dep = None ->
  exists bs p' dep' t,
    st2110_20_payloader_pad_push fuel (Some p) (Some tr) (Some buf) = Done (ZST_OK, Some p', Some (tr ++ bs)) /\
    d20_run stale dep d bs = Done (dep', (push_peer d (frame_at w h frame t)).2) /\
    d20_current_frame dep' = None.
Proof.
  intros w h Hw Hh Hmax Hfuel Hflag Hd Hsz Hz Hl Hidle. pose proof Hmax as Hmax'. unfold d20_frame_max in Hmax'.
  unfold st2110_20_payloader_pad_push. rewrite Hflag.
  assert (Ebpp : p20_bpp p buf = Done 2).
  { unfold p20_bpp. fold w h. rewrite (proj2 (Z.ltb_lt 0 w)), (proj2 (Z.ltb_lt 0 h)), (proj2 (Z.ltb_lt 0 _)) by lia.
    cbn [andb]. rewrite s32_small, (u64_small (w * h)) by lia. unfold udiv.
    rewrite (proj2 (Z.eqb_neq (w * h) 0)) by lia. cbn [mbind outcome_bind].
    assert (mem_size buf / (w * h) = 2) as -> by (symmetry; apply (Z.div_unique _ _ _ (mem_size buf - 2 * (w * h))); lia). done. }
  rewrite Ebpp. cbn [mbind outcome_bind]. change (Z.quot (1376 - Z.rem 1376 2) 2) with 688.
  destruct (lines_assemble stale w h (buf_pts buf) frame Hw Hh ltac:(lia) Hmax fuel (Z.to_nat h) p buf tr 0 dep d)
    as (bs & p' & E & _ & dep' & Er & Hi); try done; try lia.
  { split; [done|]. left. split; [lia|done]. }
  exists bs, p', dep', (frame_ts (buf_pts buf)). fold h. rewrite E. done.
Qed.

(** ** Frames of other sizes *)

Section sizes.
Context {D : Type} `{PadSink D} `{CMemoryOk}.
Implicit Type d : option D.
Context (buf : zst_buffer) (frame : bytes) (Hd : mem_data buf = Some frame).

Lemma send_done p d bpp y x n last ok p' d' :
  p20_send p d buf bpp y x n last = Done (ok, p', d') ->
  ok = true /\ p' = p20_count p n /\
  (0 < u64 n -> s32 (s32 (s32 (y * p20_width p) * bpp) + s32 (x * bpp)) + u64 n <= zlen frame).
Proof.
  unfold p20_send. rewrite !malloc_total, Hd. cbn [negb]. unfold read_bytes.
  destruct (Z.eqb_spec (u64 n) 0) as [E|E].
  - cbn [mbind outcome_bind]. destruct (push_peer _ _). intros [= <- <- _]. split_and!; try done; lia.
  - destruct (_ && _) eqn:Ein; [|done]. cbn [mbind outcome_bind]. destruct (push_peer _ _). intros [= <- <- _].
    split_and!; try done. zbool; try done; lia.
Qed.

(** What is sent of a line was read from the frame. *)
Lemma line_done fuel p d y x ok p' d' :
  p20_line fuel p d buf 2 688 y x = Done (ok, p', d') -> 0 <= y -> 0 <= x ->
  0 < p20_width p <= 32768 -> 2 * (y * p20_width p + p20_width p) <= 2147483648 ->
  ok = true /\ p20_width p' = p20_width p /\ p20_height p' = p20_height p /\
  (x < p20_width p -> 2 * (y * p20_width p + p20_width p) <= zlen frame).
Proof.
  revert p d x. induction fuel as [|fuel IH]; intros p d x E Hy Hx Hw Hmax; [done|]. cbn [p20_line] in E.
  destruct (Z.ltb_spec x (p20_width p)) as [Hlt|Hge].
  2: { injection E as <- <- _. split_and!; try done. lia. }
  set (m := if 688 <? p20_width p - x then 688 else p20_width p - x) in *.
  assert (Hm : 0 < m /\ x + m <= p20_width p) by (subst m; zbool; lia). clearbody m. destruct Hm as [Hm Hxm].
  destruct (p20_send _ _ _ _ _ _ _ _) as [[[ok1 p1] d1]| |] eqn:Es; cbn [mbind outcome_bind] in E; try done.
  destruct (send_done _ _ _ _ _ _ _ _ _ _ Es) as (-> & -> & Hin). apply IH in E; try done; try lia.
  destruct E as (? & ? & ? & Hnext). split_and!; try done. intros _.
  destruct (Z.eqb_spec (x + m) (p20_width p)); [|apply Hnext; cbn; lia].
  assert (0 <= y * p20_width p) by nia.
  rewrite (s32_small (m * 2)), (u64_small (m * 2)), (s32_small (y * p20_width p)), (s32_small (y * p20_width p * 2)),
    (s32_small (x * 2)), s32_small in Hin by lia. lia.
Qed.

Lemma lines_done fuel n p d y ok p' d' :
  p20_lines fuel n p d buf 2 688 y = Done (ok, p', d') -> 0 <= y ->
  0 < p20_width p <= 32768 -> 2 * ((y + Z.of_nat n) * p20_width p) <= 2147483648 ->
  (0 < n)%nat -> 2 * ((y + Z.of_nat n) * p20_width p) <= zlen frame.
Proof.
  revert p d y. induction n as [|n IH]; intros p d y E Hy Hw Hmax Hn; [lia|]. cbn [p20_lines] in E.
  destruct (p20_line _ _ _ _ _ _ _ _) as [[[ok1 p1] d1]| |] eqn:El; cbn [mbind outcome_bind] in E; try done.
  destruct (line_done _ _ _ _ _ _ _ _ El) as (-> & E1 & _ & Hin); try done; try lia; try nia.
  specialize (Hin ltac:(lia)). destruct n as [|n]; [lia|]. rewrite <-E1 in *. apply IH in E; try lia.
Qed.

(** Packets of no pixels never finish a line. *)
Lemma empty_packets fuel p d bpp y : 0 < p20_width p -> p20_line fuel p d buf bpp 0 y 0 = Unfinished.
Proof.
  revert p d. induction fuel as [|fuel IH]; intros p d Hw; [done|]. cbn [p20_line].
  rewrite Z.sub_0_r, (proj2 (Z.ltb_lt 0 (p20_width p))) by done. rewrite Z.mul_0_l. change (s32 0) with 0.
  unfold p20_send. rewrite !malloc_total. cbn [negb]. change (u64 0) with 0. cbn [read_bytes Z.eqb mbind outcome_bind].
  destruct (push_peer _ _) as [? d']. cbn [mbind outcome_bind]. rewrite Z.add_0_r. by apply IH.
Qed.
End sizes.

(** A frame smaller than a byte per pixel is taken for one of two bytes per pixel: no
    push of it ends within the buffer.  A frame of more than 1376 bytes per pixel is
    cut into packets of no pixels, without end. *)
Theorem odd_frames_break {D} `{PadSink D} `{CMemoryOk} fuel p buf frame (d : option D) :
  let w := p20_width p in let h := p20_height p in
  0 < w <= 32768 -> 0 < h -> w * h <= 65536 * 16384 ->
  has_flag (buf_flags buf) ZST_BUFFER_FLAG_EOS = false ->
  mem_data buf = Some frame -> mem_size buf = zlen frame ->
  (0 < mem_size buf < w * h ->
     forall r, st2110_20_payloader_pad_push fuel (Some p) d (Some buf) <> Done r) /\
  (1376 < mem_size buf / (w * h) < 1000000 ->
     st2110_20_payloader_pad_push fuel (Some p) d (Some buf) = Unfinished).
Proof.
  intros w h Hw Hh Hwh Hflag Hd Hsz. unfold st2110_20_payloader_pad_push. rewrite Hflag. unfold p20_bpp. fold w h.
  assert (Hwh0 : 0 < w * h) by nia.
  rewrite (proj2 (Z.ltb_lt 0 w)), (proj2 (Z.ltb_lt 0 h)), (s32_small (w * h)), (u64_small (w * h)) by lia.
  unfold udiv. rewrite (proj2 (Z.eqb_neq (w * h) 0)) by lia. split.
  - intros Hs r. rewrite (proj2 (Z.ltb_lt 0 _)), (Z.div_small (mem_size buf)) by lia. cbn [andb mbind outcome_bind].
    change (s32 0 =? 0) with true. cbn [mbind outcome_bind]. change (Z.quot (1376 - Z.rem 1376 2) 2) with 688.
    destruct (p20_lines _ _ _ _ _ _ _ _) as [[[ok p'] d']| |] eqn:E; cbn [mbind outcome_bind]; try done.
    apply (lines_done buf frame Hd) in E; fold w; try lia.
  - set (q := mem_size buf / (w * h)). intros Hq.
    assert (0 < mem_size buf) by (destruct (Z.ltb_spec 0 (mem_size buf)); [done|]; pose proof (zlen_nonneg frame); subst q;
      replace (mem_size buf) with 0 in Hq by lia; rewrite Z.div_0_l in Hq by lia; lia).
    rewrite (proj2 (Z.ltb_lt 0 _)) by done. cbn [andb mbind outcome_bind].
    rewrite s32_small, (proj2 (Z.eqb_neq q 0)) by lia. cbn [mbind outcome_bind].
    rewrite Z.rem_small, Z.sub_diag, Z.quot_0_l by lia.
    destruct (Z.to_nat h) as [|n] eqn:En; [lia|]. cbn [p20_lines].
    by rewrite (empty_packets buf) by (fold w; lia).
Qed.

(** ** The depayloader on any packet *)

Record d20_ok (s : st2110_20_depayloader_t) : Prop := {
  d20k_line : d20_expected_line_length s <= 65534;
  d20k_y : 0 <= d20_max_y s <= 32767;
  d20k_bpp : d20_current_frame s <> None -> d20_bpp s = 2;
}.

Definition header_ok (h : Z * Z * Z) : Prop :=
  0 <= h.1.1 < 65536 /\ 0 <= h.1.2 < 32768 /\ 0 <= h.2 < 32768.

Lemma land_15_bits z : 0 <= Z.land z 32767 < 32768.
Proof. rewrite (land_ones_mod z 15) by done. apply Z.mod_pos_bound. lia. Qed.

Lemma headers_ok n data size off :
  (forall i, 0 <= i < size -> is_byte (rd data i)) -> 0 <= off ->
  Forall header_ok (d20_headers n data size off).1 /\ off <= (d20_headers n data size off).2.
Proof.
  intros Hb. revert off. induction n as [|n IH]; intros off Hoff; cbn [d20_headers fst snd]; [split; [constructor|lia]|].
  destruct (Z.leb_spec (off + 6) size) as [Hle|]; [|split; [constructor|cbn; lia]].
  set (h := (be16 _ _, _, _)).
  assert (Hh : header_ok h).
  { split; [|split; apply land_15_bits]. cbn. pose proof (Hb off ltac:(lia)) as B1. pose proof (Hb (off + 1) ltac:(lia)) as B2.
    rewrite be16_add by done. unfold is_byte in *. lia. }
  destruct (negb _).
  - specialize (IH (off + 6) ltac:(lia)). destruct (d20_headers n data size (off + 6)) as [hs off'].
    cbn [fst snd] in *. destruct IH as [IH ?]. split; [constructor; [exact Hh|exact IH]|lia].
  - cbn [fst snd]. split; [constructor; [exact Hh|constructor]|lia].
Qed.

Lemma copy_safe s f buf data off hs :
  d20_ok s -> d20_bpp s = 2 -> 0 <= off -> mem_data buf = Some data -> mem_size buf <= zlen data ->
  Forall header_ok hs ->
  exists s' f', d20_copy s f buf off hs = Done (s', f') /\ d20_ok s' /\ d20_bpp s' = 2.
Proof.
  intros Hs Hb Hoff Hd Hz Hhs. revert s f off Hs Hb Hoff.
  induction Hhs as [|[[len line_no] p_offset] hs Hh Hhs IH]; intros s f off Hs Hb Hoff; cbn [d20_copy]; [by eauto|].
  destruct Hh as (H1 & H2 & H3). cbn in H1, H2, H3.
  destruct (Z.ltb_spec (mem_size buf) (off + len)); [by eauto|].
  set (s1 := d20_assemble s _ _ _ _).
  assert (Hs1 : d20_ok s1).
  { destruct Hs as [Hl Hy Hf]. subst s1. constructor; cbn; [done|zbool; lia|done]. }
  assert (Hb1 : d20_bpp s1 = 2) by done. rewrite Hb1. change (s32 (1920 * 2)) with 3840.
  set (stride := if 0 <? _ then _ else _).
  assert (Hst : 0 < stride <= 65534) by (subst stride; pose proof (d20k_line _ Hs1); zbool; lia). clearbody stride.
  assert (0 <= line_no * stride <= 32767 * 65534) by nia.
  rewrite (s32_small (line_no * stride)), (s32_small (p_offset * 2)), (s32_small (line_no * stride + _)) by lia.
  set (dest := line_no * stride + p_offset * 2). rewrite s32_small, u64_small by (subst dest; lia).
  destruct (Z.leb_spec (dest + len) d20_frame_max) as [Hle|].
  - rewrite Hd, read_bytes_in by lia. cbn [mbind outcome_bind].
    assert ((0 <=? dest) = true) as -> by (apply Z.leb_le; subst dest; lia). cbn [andb]. rewrite orb_true_r.
    apply IH; [done|done|lia].
  - apply IH; [done|done|lia].
Qed.

(** No packet makes the depayloader touch memory outside the packet or its frame, if
    lines are configured at most 65534 bytes long. *)
Theorem depayloader_20_safe {D} `{PadSink D} `{CMemory} stale s (d : option D) buf :
  d20_ok s -> buffer_ok buf -> (20 <= mem_size buf -> mem_data buf <> None) ->
  exists r s' d', st2110_20_depayloader_pad_push stale (Some s) d (Some buf) = Done (r, Some s', d') /\ d20_ok s'.
Proof.
  intros Hs (Hsz & Hbytes & Hz) Hdata. unfold st2110_20_depayloader_pad_push.
  destruct (has_flag _ _); [destruct (_ && _); by eauto|].
  destruct (Z.ltb_spec (mem_size buf) 20); [by eauto|].
  unfold buf_bytes in Hbytes. destruct (mem_data buf) as [data|] eqn:Ed; [|by destruct Hdata].
  set (ts := be32 _ _ _ _). set (begun := match d20_current_frame s with Some _ => _ | None => _ end).
  assert (Hbeg : exists ok s1 d1, begun = (ok, s1, d1) /\ d20_ok s1).
  { assert (Hb : exists ok s1 d1, d20_begin stale s d ts = (ok, s1, d1) /\ d20_ok s1).
    { unfold d20_begin. destruct (_ && _); eexists _, _, _; (split; [done|]); destruct Hs; by constructor. }
    subst begun. destruct (d20_current_frame s); [|done]. destruct (_ =? ts); [by eauto|done]. }
  destruct Hbeg as (ok & s1 & d1 & -> & Hs1). destruct (d20_current_frame s1) as [f|] eqn:Ef; [|by eauto].
  assert (Hb1 : d20_bpp s1 = 2) by (apply Hs1; by rewrite Ef). unfold d20_lines.
  destruct (headers_ok 32 data (mem_size buf) 14) as [Hh Ho]; [|lia|].
  { intros i Hi. rewrite <-(rd_sub_prefix data (mem_size buf)) by done. by apply rd_byte. }
  destruct (d20_headers 32 data (mem_size buf) 14) as [hs off]. cbn [fst snd] in Hh, Ho.
  destruct (copy_safe s1 f buf data off hs) as (s2 & f2 & -> & Hs2 & Hb2); try done; [lia|].
  cbn [mbind outcome_bind]. destruct (negb _); [destruct (push_peer _ _)|]; cbn [mbind outcome_bind];
    eexists _, _, _; (split; [done|]); destruct Hs2; by constructor.
Qed.

(** A packet of line [y] that carries [px] at its start, and the marker. *)
Definition line_packet (p : st2110_20_payloader_t) (y : Z) (px : bytes) : zst_buffer :=
  buffer_of ZST_BUFFER_VIDEO_PACKET 0 0 0 0 (p20_header p 0 true (zlen px) y 0 ++ px).

Section long_lines.
Context {D : Type} `{PadSink D} `{CMemoryOk} (stale : Z -> byte).
Implicit Type d : option D.

Lemma begin_idle s d ts :
  d20_current_frame s = None ->
  d20_begin stale s d ts = (true, d20_assemble s (Some (mk_frame20 stale ts)) ts 0 2, d).
Proof. intros E. unfold d20_begin. by rewrite E, !malloc_total. Qed.

(** The first packet of a frame: its single line is copied from offset 20. *)
Lemma push_first s d p y px :
  d20_current_frame s = None -> 0 <= y < 32768 -> zlen px < 65536 ->
  exists f, st2110_20_depayloader_pad_push stale (Some s) d (Some (line_packet p y px)) =
    ('(s', f) ← d20_copy (d20_assemble s (Some f) (fr_pts f) 0 2) f (line_packet p y px) 20 [(zlen px, y, 0)];
     let '(_, d) := push_peer d (d20_buffer s' f) in
     Done (ZST_OK, Some (d20_assemble s' None (d20_current_ts s') (d20_max_y s') (d20_bpp s')), d)).
Proof.
  intros Hidle Hy Hpx. pose proof (zlen_nonneg px). unfold st2110_20_depayloader_pad_push, line_packet, buffer_of.
  cbn [buf_flags mem_size mem_data]. change (has_flag 0 ZST_BUFFER_FLAG_EOS) with false.
  rewrite zlen_app, header_length. destruct (Z.ltb_spec (20 + zlen px) 20); [lia|]. cbv iota.
  set (ts := be32 _ _ _ _). rewrite Hidle, begin_idle by done. cbn [d20_assemble d20_current_frame].
  exists (mk_frame20 stale ts). unfold d20_lines. cbn [mem_size fr_pts]. rewrite packet_headers by lia.
  unfold d20_assemble. destruct (d20_copy _ _ _ _ _) as [[s' f]| |]; cbn [mbind outcome_bind]; try done.
  rewrite packet_marker. by destruct (push_peer _ _).
Qed.
End long_lines.

(** One packet of a high line number makes the depayloader push a frame that claims
    more bytes than its block has.  With lines of 2^31 - 1 bytes, which [set_property]
    accepts, a packet of ten bytes writes before the block. *)
Theorem long_lines_break {D} `{PadSink D} `{CMemoryOk} stale s p y (d : option D) :
  let size := d20_expected_line_length s * (y + 1) in
  d20_current_frame s = None -> 0 < d20_expected_line_length s <= 65534 -> 0 <= y < 32768 ->
  d20_frame_max < size ->
  (exists s' b, st2110_20_depayloader_pad_push stale (Some s) d (Some (line_packet p y [])) =
                  Done (ZST_OK, Some s', (push_peer d b).2) /\
                mem_size b = size /\ exists data, mem_data b = Some data /\ zlen data = d20_frame_max) /\
  st2110_20_depayloader_pad_push stale
    (Some (mk_d20 2147483647 (d20_reorder_buffer_depth s) (d20_reorder_timeout_ms s) None (d20_current_ts s)
             (d20_max_y s) (d20_bpp s))) d (Some (line_packet p 2 [1; 2; 3; 4; 5; 6; 7; 8; 9; 10])) = Fault.
Proof.
  intros size Hidle HL Hy Hsize. split.
  - destruct (push_first stale s d p y [] Hidle Hy) as (f & ->); [done|]. change (zlen (@nil Z)) with 0. cbn [d20_copy].
    change (mem_size (line_packet p y []) <? 20 + 0) with false. cbv iota.
    cbn [d20_assemble d20_expected_line_length d20_bpp d20_max_y d20_current_frame d20_current_ts].
    rewrite (proj2 (Z.ltb_lt 0 (d20_expected_line_length s))), Z.mul_0_l by lia.
    assert (0 <= y * d20_expected_line_length s <= 32767 * 65534) by nia.
    change (s32 0) with 0. rewrite !Z.add_0_r, !(s32_small (y * _)), u64_small by lia. change (0 =? 0) with true. cbn [orb].
    set (s2 := d20_assemble _ (Some f) _ (if 0 <? y then y else 0) 2).
    assert (Esz : d20_frame_size s2 = size).
    { unfold d20_frame_size. subst s2. cbn. rewrite (proj2 (Z.ltb_lt 0 (d20_expected_line_length s))) by lia.
      assert ((if 0 <? y then y else 0) = y) as -> by (zbool; lia). rewrite (s32_small (y + 1)) by lia.
      fold size. assert (size <= 65534 * 32768) by (subst size; nia). unfold d20_frame_max in Hsize.
      rewrite s32_small by lia. apply u64_small. lia. }
    assert (Hb : forall f, mem_size (d20_buffer s2 f) = size /\
              exists data, mem_data (d20_buffer s2 f) = Some data /\ zlen data = d20_frame_max).
    { intros f0. unfold d20_buffer. cbn [mem_size mem_data]. rewrite Esz. split; [done|]. eexists. split; [done|].
      unfold zlen. rewrite length_map, length_seqZ, Z.min_r by lia. apply Z2Nat.id. by unfold d20_frame_max. }
    destruct (y * d20_expected_line_length s <=? d20_frame_max); cbn [mbind outcome_bind read_bytes Z.eqb];
      match goal with |- context [d20_buffer s2 ?g] => specialize (Hb g); generalize dependent (d20_buffer s2 g) end;
      intros b Hb; destruct (push_peer d b) eqn:Eb; eexists _, b; (split; [rewrite Eb; reflexivity|exact Hb]).
  - set (s0 := mk_d20 _ _ _ _ _ _ _).
    destruct (push_first stale s0 d p 2 [1; 2; 3; 4; 5; 6; 7; 8; 9; 10]) as (f & ->); [done|lia|done|]. reflexivity.
Qed.

(** ** The theorems at concrete inputs *)

Section examples.

(** A payloader of two lines of two pixels. *)
Definition tiny_payloader : st2110_20_payloader_t := mk_p20 2 2 "YCbCr-4:2:2" 96 0 0 0 0.

Definition tiny_depayloader : st2110_20_depayloader_t := d20_config zst_st2110_20_depayloader_create 4 100 100.

Definition raw_frame (data : bytes) : zst_buffer := buffer_of ZST_BUFFER_VIDEO_FRAME 0 1000000000 0 0 data.

#[local] Existing Instances ample_memory ample_memory_ok.

Lemma video_roundtrip_witness :
  exists bs p' dep' t,
    st2110_20_payloader_pad_push 3 (Some tiny_payloader) (Some ([] : trace))
      (Some (raw_frame [1; 2; 3; 4; 5; 6; 7; 8])) = Done (ZST_OK, Some p', Some ([] ++ bs)) /\
    d20_run (fun _ => 0) tiny_depayloader (Some ([] : trace)) bs =
      Done (dep', (push_peer (Some ([] : trace)) (frame_at 2 2 [1; 2; 3; 4; 5; 6; 7; 8] t)).2) /\
    d20_current_frame dep' = None.
Proof.
  apply (video_roundtrip (D := trace) (fun _ => 0) 3 tiny_payloader tiny_depayloader
           (raw_frame [1; 2; 3; 4; 5; 6; 7; 8]) [1; 2; 3; 4; 5; 6; 7; 8]); try reflexivity; cbn; try lia; try done.
Defined.

Lemma odd_frames_break_witness :
  (forall r, st2110_20_payloader_pad_push 3 (Some tiny_payloader) (Some ([] : trace))
               (Some (raw_frame [1; 2; 3])) <> Done r) /\
  st2110_20_payloader_pad_push 3 (Some tiny_payloader) (Some ([] : trace))
    (Some (raw_frame (repeat 0 (Z.to_nat 6000)))) = Unfinished.
Proof.
  split.
  - apply (odd_frames_break (D := trace) 3 tiny_payloader (raw_frame [1; 2; 3]) [1; 2; 3]);
      try reflexivity; try (by vm_compute); split; by vm_compute.
  - apply (odd_frames_break (D := trace) 3 tiny_payloader (raw_frame (repeat 0 (Z.to_nat 6000)))
             (repeat 0 (Z.to_nat 6000))); try reflexivity; try (vm_compute; done).
Defined.

Lemma depayloader_20_safe_witness :
  exists r s' d', st2110_20_depayloader_pad_push (fun _ => 0) (Some tiny_depayloader) (Some ([] : trace))
    (Some (buffer_of ZST_BUFFER_VIDEO_PACKET 0 0 0 0 (replicate 40 255))) = Done (r, Some s', d') /\ d20_ok s'.
Proof.
  apply (depayloader_20_safe (D := trace) (fun _ => 0)).
  - constructor; cbn; [lia|lia|done].
  - split; [by vm_compute|split; [|apply Z.le_refl]].
    unfold buffer_of, buf_bytes. cbn [mem_data mem_size]. rewrite sub_bytes_all by done.
    apply Forall_replicate. by vm_compute.
  - done.
Defined.

Lemma long_lines_break_witness :
  exists s' b, st2110_20_depayloader_pad_push (fun _ => 0)
    (Some (d20_config zst_st2110_20_depayloader_create 65534 100 100)) (Some ([] : trace))
    (Some (line_packet tiny_payloader 200 [])) = Done (ZST_OK, Some s', (push_peer (Some ([] : trace)) b).2) /\
    mem_size b = 13172334.
Proof.
  destruct (long_lines_break (D := trace) (fun _ => 0) (d20_config zst_st2110_20_depayloader_create 65534 100 100)
              tiny_payloader 200 (Some [])) as [(s' & b & E & Hs & _) _];
    [reflexivity|cbn; lia|lia|cbn; unfold d20_frame_max; lia|].
  exists s', b. split; [exact E|exact Hs].
Defined.
End examples.
