(* ===== verification/St2110Audio.v ===== *)
(** * ST 2110-30 audio, ST 2110-40 data, ST 2022-5 FEC

    [src/st2110_30_payloader.c], [src/st2110_30_depayloader.c],
    [src/st2110_40_payloader.c], [src/st2110_40_depayloader.c], [src/st2110_fec.c].
    These elements have a [process] operation: it pushes what it likes on its source
    pad and leaves a last buffer in [out].  [Fault] is a division by zero or an access
    outside the block, a write to a failed allocation included. *)

From Stdlib Require Import String.
From S2P Require Import Prelude CLib Pad.

Local Open Scope Z_scope.

(** ** Audio frames *)

Record zst_audio_frame_t := mk_aframe {
  af_sample_rate : Z;
  af_channels : Z;
  af_format : Z;
  af_nb_samples : Z;
  af_data : option bytes;
}.

(** A buffer with the frame its [payload] points to. *)
Record audio_buffer := mk_abuf {
  ab_buf : zst_buffer;
  ab_payload : option zst_audio_frame_t;
}.

(** [memcpy(out, data + off, n)], or zeroes when there is no data. *)
Definition copy_or_zero (data : option bytes) (off n : Z) : outcome bytes :=
  match data with
  | Some _ => read_bytes data off n
  | None => Done (replicate (Z.to_nat n) 0)
  end.

(** The header the payloaders write. *)
Definition rtp12 (pt seq ts ssrc : Z) : bytes :=
  [128; pt; u8 (Z.shiftr seq 8); u8 seq; u8 (Z.shiftr ts 24); u8 (Z.shiftr ts 16); u8 (Z.shiftr ts 8); u8 ts;
   u8 (Z.shiftr ssrc 24); u8 (Z.shiftr ssrc 16); u8 (Z.shiftr ssrc 8); u8 ssrc].

(** ** The audio payloader *)

Record st2110_30_payloader_t := mk_p30 {
  p30_channels : Z;
  p30_sample_rate : Z;
  p30_bit_depth : Z;
  p30_rtp_pt : Z;
  p30_ssrc : Z;
  p30_seq : Z;
  p30_ts : Z;
}.

Definition p30_stream (s : st2110_30_payloader_t) (ssrc seq : Z) : st2110_30_payloader_t :=
  mk_p30 (p30_channels s) (p30_sample_rate s) (p30_bit_depth s) (p30_rtp_pt s) ssrc seq (p30_ts s).

(** [r1] and [r2] are what [rand] returns. *)
Definition p30_open (s : st2110_30_payloader_t) (r1 r2 : Z) : zst_result_t * st2110_30_payloader_t :=
  (ZST_OK, p30_stream s (Z.lor 554708992 (Z.land r2 4095)) (u16 (Z.land r1 65535))).

Definition p30_frame_size (s : st2110_30_payloader_t) : Z :=
  let bytes_per_sample := Z.quot (p30_bit_depth s) 8 in
  let bytes_per_sample := if bytes_per_sample <=? 0 then 3 else bytes_per_sample in
  s32 (p30_channels s * bytes_per_sample).

(** The bytes to send, and how many. *)
Definition p30_input (frame_size : Z) (b : audio_buffer) : option bytes * Z :=
  match ab_payload b with
  | Some f =>
      if buf_type (ab_buf b) =? ZST_BUFFER_AUDIO_FRAME then (af_data f, u32 (af_nb_samples f * u32 frame_size))
      else (mem_data (ab_buf b), mem_size (ab_buf b))
  | None => (mem_data (ab_buf b), mem_size (ab_buf b))
  end.

Section audio.
Context {D : Type} `{PadSink D} `{CMemory}.
Implicit Type d : option D.

(** The packet of the [chunk] bytes at [offset]; [None] when no buffer could be created. *)
Definition p30_packet (s : st2110_30_payloader_t) (in_pts : Z) (data : option bytes) (frame_size offset chunk : Z)
    : outcome (option (zst_buffer * st2110_30_payloader_t)) :=
  if negb (malloc_ok SIZEOF_BUFFER) then Done None
  else if negb (malloc_ok (12 + chunk)) then Fault
  else
    let sample_offset := offset / frame_size in
    let rate := u64 (p30_sample_rate s) in
    let ts := u32 (u64 (u32 (u64 (in_pts * rate) / 1000000000) + sample_offset)) in
    payload ← copy_or_zero data offset chunk;
    period ← udiv 1000000000 rate;
    let pts := u64 (in_pts + u64 (sample_offset * period)) in
    Done (Some (mk_buffer ZST_BUFFER_AUDIO_PACKET 0 pts pts 0
                  (Some (rtp12 (u8 (Z.land (p30_rtp_pt s) 127)) (p30_seq s) ts (p30_ssrc s) ++ payload)) (12 + chunk),
                p30_stream s (p30_ssrc s) (u16 (p30_seq s + 1)))).

(** The packets from [offset] on: all but the last are pushed. *)
Fixpoint p30_loop (fuel : nat) (s : st2110_30_payloader_t) d (in_pts : Z) (data : option bytes)
    (in_size frame_size max_payload offset : Z)
    : outcome (option zst_buffer * st2110_30_payloader_t * option D) :=
  match fuel with
  | O => Unfinished
  | S fuel =>
      if offset <? in_size then
        let chunk := in_size - offset in
        let chunk := if max_payload <? chunk then max_payload else chunk in
        p ← p30_packet s in_pts data frame_size offset chunk;
        match p with
        | None => Done (None, s, d)
        | Some (rtp, s) =>
            if in_size <=? offset + chunk then Done (Some rtp, s, d)
            else let '(_, d) := push_peer d rtp in
                 p30_loop fuel s d in_pts data in_size frame_size max_payload (offset + chunk)
        end
      else Done (None, s, d)
  end.

(** [process]: the result, what is left in [out], the next state. *)
Definition p30_process (fuel : nat) (s : st2110_30_payloader_t) d (b : option audio_buffer)
    : outcome (zst_result_t * option audio_buffer * st2110_30_payloader_t * option D) :=
  match b with
  | None => Done (ZST_ERROR, None, s, d)
  | Some b =>
      if has_flag (buf_flags (ab_buf b)) ZST_BUFFER_FLAG_EOS then Done (ZST_OK, Some b, s, d)
      else
        let frame_size := p30_frame_size s in
        if frame_size <=? 0 then Done (ZST_ERROR, None, s, d)
        else
          let '(data, in_size) := p30_input frame_size b in
          let max_payload := 1400 - Z.rem 1400 frame_size in
          let max_payload := if max_payload =? 0 then frame_size else max_payload in
          r ← p30_loop fuel s d (buf_pts (ab_buf b)) data in_size frame_size max_payload 0;
          let '(out, s, d) := r in
          Done (ZST_OK, match out with Some o => Some (mk_abuf o None) | None => None end, s, d)
  end.
End audio.

Definition p30_with (s : st2110_30_payloader_t) (channels rate depth pt : Z) : st2110_30_payloader_t :=
  mk_p30 channels rate depth pt (p30_ssrc s) (p30_seq s) (p30_ts s).

Definition p30_set_property (s : st2110_30_payloader_t) (name value : string) : zst_result_t * st2110_30_payloader_t :=
  let c := p30_channels s in let r := p30_sample_rate s in let b := p30_bit_depth s in let p := p30_rtp_pt s in
  if streq name "channels" then (ZST_OK, p30_with s (atoi value) r b p)
  else if streq name "sample-rate" then (ZST_OK, p30_with s c (atoi value) b p)
  else if streq name "bit-depth" then (ZST_OK, p30_with s c r (atoi value) p)
  else if streq name "rtp-pt" then (ZST_OK, p30_with s c r b (atoi value))
  else (ZST_ERROR, s).

Definition p30_get_property (s : st2110_30_payloader_t) (name : string) (max_len : Z) : option string :=
  let out v := Some (snprintf max_len (show_Z v)) in
  if streq name "channels" then out (p30_channels s)
  else if streq name "sample-rate" then out (p30_sample_rate s)
  else if streq name "bit-depth" then out (p30_bit_depth s)
  else if streq name "rtp-pt" then out (p30_rtp_pt s)
  else None.

Definition zst_st2110_30_payloader_create : st2110_30_payloader_t := mk_p30 2 48000 24 97 0 0 0.

(** ** The audio depayloader *)

Record st2110_30_depayloader_t := mk_d30 {
  d30_expected_channels : Z;
  d30_expected_sample_rate : Z;
}.

Section audio_back.
Context `{CMemory}.

(** The samples of [n] bytes of payload, taken to be of three bytes each. *)
Definition d30_samples (s : st2110_30_depayloader_t) (n : Z) : outcome Z :=
  q ← udiv n (u64 (s32 (d30_expected_channels s * 3)));
  Done (if (u32 q =? 0) && (0 <? n) then 1 else u32 q).

Definition d30_process (s : st2110_30_depayloader_t) (b : option zst_buffer)
    : outcome (zst_result_t * option audio_buffer) :=
  match b with
  | None => Done (ZST_ERROR, None)
  | Some b =>
      if has_flag (buf_flags b) ZST_BUFFER_FLAG_EOS then Done (ZST_OK, Some (mk_abuf b None))
      else if mem_size b <? 12 then Done (ZST_OK, None)
      else
        let payload_len := mem_size b - 12 in
        if payload_len =? 0 then Done (ZST_OK, None)
        else if negb (malloc_ok SIZEOF_BUFFER) then Done (ZST_ERROR, None)
        else if negb (malloc_ok payload_len) then Fault
        else
          payload ← read_bytes (mem_data b) 12 payload_len;
          word ← read_bytes (mem_data b) 4 4;
          let rtp_ts := be32 (rd word 0) (rd word 1) (rd word 2) (rd word 3) in
          let pts := if 0 <? d30_expected_sample_rate s
                     then u64 (rtp_ts * 1000000000) / d30_expected_sample_rate s else buf_pts b in
          if negb (malloc_ok 64) then Fault
          else
            samples ← d30_samples s payload_len;
            let out := mk_buffer ZST_BUFFER_AUDIO_FRAME 0 pts pts 0 (Some payload) payload_len in
            let frame := mk_aframe (u32 (d30_expected_sample_rate s)) (u32 (d30_expected_channels s)) 0 samples (Some payload) in
            Done (ZST_OK, Some (mk_abuf out (Some frame)))
  end.
End audio_back.

Definition d30_set_property (s : st2110_30_depayloader_t) (name value : string)
    : zst_result_t * st2110_30_depayloader_t :=
  if streq name "expected-channels" then (ZST_OK, mk_d30 (atoi value) (d30_expected_sample_rate s))
  else if streq name "expected-sample-rate" then (ZST_OK, mk_d30 (d30_expected_channels s) (atoi value))
  else (ZST_ERROR, s).

Definition d30_get_property (s : st2110_30_depayloader_t) (name : string) (max_len : Z) : option string :=
  let out v := Some (snprintf max_len (show_Z v)) in
  if streq name "expected-channels" then out (d30_expected_channels s)
  else if streq name "expected-sample-rate" then out (d30_expected_sample_rate s)
  else None.

Definition zst_st2110_30_depayloader_create : st2110_30_depayloader_t := mk_d30 2 48000.

(** ** Ancillary data *)

(** The string [aux_data_type] points to: none, a block, or a block already freed. *)
Inductive owned_string :=
| NullString
| Owned (text : string)
| Freed.

(** [if (p) free(p)] *)
Definition free_string (p : owned_string) : outcome unit :=
  match p with Freed => Fault | _ => Done tt end.

Record st2110_40_payloader_t := mk_p40 {
  p40_aux_data_type : owned_string;
  p40_sampling_frequency : Z;
  p40_ssrc : Z;
  p40_seq : Z;
}.

Definition p40_open (s : st2110_40_payloader_t) (r1 r2 : Z) : zst_result_t * st2110_40_payloader_t :=
  (ZST_OK, mk_p40 (p40_aux_data_type s) (p40_sampling_frequency s) (Z.lor 554713088 (Z.land r2 4095))
             (u16 (Z.land r1 65535))).

Definition p40_close (s : st2110_40_payloader_t) : outcome (zst_result_t * st2110_40_payloader_t) :=
  _ ← free_string (p40_aux_data_type s);
  let left := match p40_aux_data_type s with NullString => NullString | _ => Freed end in
  Done (ZST_OK, mk_p40 left (p40_sampling_frequency s) (p40_ssrc s) (p40_seq s)).

Section data.
Context `{CMemory}.

Definition p40_process (s : st2110_40_payloader_t) (b : option zst_buffer)
    : outcome (zst_result_t * option zst_buffer * st2110_40_payloader_t) :=
  match b with
  | None => Done (ZST_ERROR, None, s)
  | Some b =>
      if has_flag (buf_flags b) ZST_BUFFER_FLAG_EOS then Done (ZST_OK, Some b, s)
      else if negb (malloc_ok SIZEOF_BUFFER) then Done (ZST_ERROR, None, s)
      else if negb (malloc_ok (u64 (12 + mem_size b))) then Fault
      else
        let ts := u32 (u64 (buf_pts b * 90000) / 1000000000) in
        payload ← copy_or_zero (mem_data b) 0 (mem_size b);
        Done (ZST_OK,
              Some (mk_buffer ZST_BUFFER_VIDEO_PACKET 0 (buf_pts b) (buf_pts b) 0
                      (Some (rtp12 97 (p40_seq s) ts (p40_ssrc s) ++ payload)) (u64 (12 + mem_size b))),
              mk_p40 (p40_aux_data_type s) (p40_sampling_frequency s) (p40_ssrc s) (u16 (p40_seq s + 1)))
  end.

Definition p40_set_property (s : st2110_40_payloader_t) (name value : string)
    : outcome (zst_result_t * st2110_40_payloader_t) :=
  if streq name "aux-data-type" then
    _ ← free_string (p40_aux_data_type s);
    let copy := if malloc_ok (Z.of_nat (String.length value) + 1) then Owned value else NullString in
    Done (ZST_OK, mk_p40 copy (p40_sampling_frequency s) (p40_ssrc s) (p40_seq s))
  else if streq name "sampling-frequency" then
    Done (ZST_OK, mk_p40 (p40_aux_data_type s) (atoi value) (p40_ssrc s) (p40_seq s))
  else Done (ZST_ERROR, s).

(** The text left in [value_out], or [None] when the result is [ZST_ERROR]. *)
Definition p40_get_property (s : st2110_40_payloader_t) (name : string) (max_len : Z) : outcome (option string) :=
  if streq name "aux-data-type" then
    match p40_aux_data_type s with
    | Owned text => Done (Some (snprintf max_len text))
    | NullString => Done (Some (snprintf max_len ""))
    | Freed => Fault
    end
  else if streq name "sampling-frequency" then Done (Some (snprintf max_len (show_Z (p40_sampling_frequency s))))
  else Done None.

Definition zst_st2110_40_payloader_create : st2110_40_payloader_t :=
  mk_p40 (if malloc_ok 7 then Owned "cea608" else NullString) 48000 0 0.

(** The depayloader has no state: what precedes the payload is dropped. *)
Definition d40_process (b : option zst_buffer) : outcome (zst_result_t * option zst_buffer) :=
  match b with
  | None => Done (ZST_ERROR, None)
  | Some b =>
      if has_flag (buf_flags b) ZST_BUFFER_FLAG_EOS then Done (ZST_OK, Some b)
      else if mem_size b <=? 12 then Done (ZST_OK, None)
      else if negb (malloc_ok SIZEOF_BUFFER) then Done (ZST_ERROR, None)
      else
        let payload_size := mem_size b - 12 in
        if negb (malloc_ok payload_size) then Fault
        else
          payload ← read_bytes (mem_data b) 12 payload_size;
          Done (ZST_OK, Some (mk_buffer ZST_BUFFER_USER 0 (buf_pts b) (buf_dts b) 0 (Some payload) payload_size))
  end.
End data.

(** ** Forward error correction

    Neither direction is implemented in the source: both hand the packet on. *)

Record st2110_fec_t := mk_fec {
  fec_L : Z;
  fec_D : Z;
}.

(** [linked] tells whether the source pad has a peer. *)
Definition fec_encoder_process (linked : bool) (b : option zst_buffer) : zst_result_t * option zst_buffer :=
  match b with
  | None => (ZST_ERROR, None)
  | Some b =>
      if has_flag (buf_flags b) ZST_BUFFER_FLAG_EOS then (ZST_OK, Some b)
      else (ZST_OK, if linked then Some b else None)
  end.

Definition fec_decoder_process (linked : bool) (b : option zst_buffer) : zst_result_t * option zst_buffer :=
  match b with
  | None => (ZST_ERROR, None)
  | Some b =>
      if has_flag (buf_flags b) ZST_BUFFER_FLAG_EOS then (ZST_OK, Some b)
      else (ZST_OK, if linked then Some b else None)
  end.

Definition fec_set_property (s : st2110_fec_t) (name value : string) : zst_result_t * st2110_fec_t :=
  if streq name "L" then (ZST_OK, mk_fec (atoi value) (fec_D s))
  else if streq name "D" then (ZST_OK, mk_fec (fec_L s) (atoi value))
  else (ZST_ERROR, s).

Definition fec_get_property (s : st2110_fec_t) (name : string) (max_len : Z) : option string :=
  if streq name "L" then Some (snprintf max_len (show_Z (fec_L s)))
  else if streq name "D" then Some (snprintf max_len (show_Z (fec_D s)))
  else None.

Definition zst_st2110_fec_encoder_create : st2110_fec_t := mk_fec 10 10.
Definition zst_st2110_fec_decoder_create : st2110_fec_t := mk_fec 10 10.
