(* ===== verification/St2110AudioSpec.v ===== *)
(** * Properties of the ST 2110-30, ST 2110-40 and FEC elements

    Audio and ancillary data sent through a payloader come out of the depayloader
    unchanged, in packets of whole audio frames; and what a wrong setting does. *)

From Stdlib Require Import String.
From S2P Require Import Prelude CLib Pad RtpPaySpec St2110Audio.

Local Open Scope Z_scope.

(** ** The packets of the audio payloader *)

(** The packet of the bytes [c], found at [off], and the packets of a list of chunks. *)
Definition audio_packet (s : st2110_30_payloader_t) (in_pts frame_size off : Z) (c : bytes) : zst_buffer :=
  let rate := u64 (p30_sample_rate s) in
  let ts := u32 (u64 (u32 (u64 (in_pts * rate) / 1000000000) + off / frame_size)) in
  let pts := u64 (in_pts + u64 (off / frame_size * (1000000000 / rate))) in
  mk_buffer ZST_BUFFER_AUDIO_PACKET 0 pts pts 0
    (Some (rtp12 (u8 (Z.land (p30_rtp_pt s) 127)) (p30_seq s) ts (p30_ssrc s) ++ c)) (12 + zlen c).

Definition p30_next (s : st2110_30_payloader_t) : st2110_30_payloader_t :=
  p30_stream s (p30_ssrc s) (u16 (p30_seq s + 1)).

Fixpoint audio_packets (s : st2110_30_payloader_t) (in_pts frame_size off : Z) (cs : list bytes) : list zst_buffer :=
  match cs with
  | [] => []
  | c :: cs => audio_packet s in_pts frame_size off c
               :: audio_packets (p30_next s) in_pts frame_size (off + zlen c) cs
  end.

Definition max_audio_payload (frame_size : Z) : Z :=
  if 1400 - Z.rem 1400 frame_size =? 0 then frame_size else 1400 - Z.rem 1400 frame_size.

Lemma max_audio_payload_whole fs :
  0 < fs -> 0 < max_audio_payload fs /\ max_audio_payload fs mod fs = 0 /\
            (max_audio_payload fs <= 1400 \/ max_audio_payload fs = fs).
Proof.
  intros Hfs. unfold max_audio_payload. pose proof (Z.rem_bound_pos 1400 fs ltac:(lia) Hfs).
  assert (Z.rem 1400 fs <= 1400) by (apply Z.rem_le; lia).
  destruct (Z.eqb_spec (1400 - Z.rem 1400 fs) 0).
  - rewrite Z_mod_same_full. lia.
  - split_and!; [lia| |lia]. rewrite Z.rem_mod_nonneg in * by lia.
    pose proof (Z.div_mod 1400 fs ltac:(lia)) as E.
    replace (1400 - 1400 mod fs) with (1400 / fs * fs) by lia. apply Z_mod_mult.
Qed.

Section audio.
Context `{CMemoryOk}.

Lemma audio_packet_sent s in_pts data fs off n :
  0 < u64 (p30_sample_rate s) -> 0 <= off -> 0 <= n -> off + n <= zlen data ->
  p30_packet s in_pts (Some data) fs off n = Done (Some (audio_packet s in_pts fs off (sub_bytes off n data), p30_next s)).
Proof.
  intros Hr Ho Hn Hle. unfold p30_packet. rewrite !malloc_total. cbn [negb]. unfold copy_or_zero.
  rewrite read_bytes_in by done. cbn [mbind outcome_bind]. unfold udiv.
  rewrite (proj2 (Z.eqb_neq _ 0)) by lia. cbn [mbind outcome_bind]. unfold audio_packet.
  by rewrite zlen_sub_bytes by lia.
Qed.

Lemma audio_loop fuel s (tr : trace) in_pts data fs n off :
  0 < u64 (p30_sample_rate s) -> 0 < n -> 0 <= off < zlen data -> zlen data - off <= Z.of_nat fuel ->
  exists bs lst s',
    p30_loop (S fuel) s (Some tr) in_pts (Some data) (zlen data) fs n off = Done (Some lst, s', Some (tr ++ bs)) /\
    bs ++ [lst] = audio_packets s in_pts fs off (chunks fuel n (drop (Z.to_nat off) data)).
Proof.
  revert s tr off. induction fuel as [|fuel IH]; intros s tr off Hr Hn Hoff Hf; [lia|].
  set (k := S fuel) in *. cbn [p30_loop]. subst k. rewrite (proj2 (Z.ltb_lt off _)) by lia.
  assert (Hd : zlen (drop (Z.to_nat off) data) = zlen data - off) by (rewrite zlen_drop by lia; lia).
  set (c := if n <? zlen data - off then n else zlen data - off).
  assert (Hc : c = Z.min (zlen data - off) n) by (unfold c; zbool; lia). clearbody c.
  rewrite audio_packet_sent by lia. cbn [mbind outcome_bind].
  assert (Hsub : sub_bytes off c data = sub_bytes 0 (Z.min (zlen data - off) n) (drop (Z.to_nat off) data)).
  { unfold sub_bytes. by rewrite drop_0, Hc. }
  cbn [chunks]. rewrite Hd, (proj2 (Z.eqb_neq (zlen data - off) 0)), <-Hsub by lia. cbn [audio_packets].
  assert (Hz : zlen (sub_bytes off c data) = c) by (rewrite zlen_sub_bytes; lia). rewrite Hz, drop_drop.
  replace (Z.to_nat off + Z.to_nat n)%nat with (Z.to_nat (off + n)) by lia.
  destruct (Z.leb_spec (zlen data) (off + c)).
  - eexists [], _, _. rewrite app_nil_r. split; [done|]. cbn [app]. f_equal.
    rewrite (proj2 (chunks_nil fuel n (drop (Z.to_nat (off + n)) data) ltac:(rewrite zlen_drop; lia))); [done|].
    rewrite zlen_drop; lia.
  - assert (c = n) as -> by lia. cbn [push_peer pad_push trace_sink].
    destruct (IH (p30_next s) (tr ++ [audio_packet s in_pts fs off (sub_bytes off n data)]) (off + n))
      as (bs & lst & s' & E & Hbs); try done; [lia..|].
    eexists (_ :: bs), lst, s'. rewrite E. split; [by rewrite <-app_assoc|]. cbn [app]. by rewrite Hbs.
Qed.
End audio.

(** ** The way back *)

(** What the depayloader makes of the packets, one after the other. *)
Fixpoint d30_run `{CMemory} (s : st2110_30_depayloader_t) (bs : list zst_buffer) : outcome (list audio_buffer) :=
  match bs with
  | [] => Done []
  | b :: bs =>
      r ← d30_process s (Some b);
      outs ← d30_run s bs;
      Done (match r.2 with Some a => a :: outs | None => outs end)
  end.

Definition audio_bytes (a : audio_buffer) : bytes := buf_bytes (ab_buf a).
Definition audio_samples (a : audio_buffer) : Z := from_option af_nb_samples 0 (ab_payload a).

(** A frame of [n] channels of three bytes. *)
Definition whole_frames (n : Z) (a : audio_buffer) : Prop :=
  zlen (audio_bytes a) = 3 * n * audio_samples a.

Lemma rtp12_app_sub pt seq ts ssrc c n : n = zlen c -> sub_bytes 12 n (rtp12 pt seq ts ssrc ++ c) = c.
Proof. apply (sub_bytes_app_r (rtp12 pt seq ts ssrc)). Qed.

Section back.
Context `{CMemoryOk} (dep : st2110_30_depayloader_t).
Context (Hch : 0 < d30_expected_channels dep < 65536).

Lemma samples_whole n :
  n < 4294967296 -> n mod (3 * d30_expected_channels dep) = 0 -> 0 < n ->
  exists k, d30_samples dep n = Done k /\ n = 3 * d30_expected_channels dep * k.
Proof.
  intros Hn Hm Hpos. unfold d30_samples, udiv. rewrite s32_small, u64_small by lia.
  rewrite (proj2 (Z.eqb_neq _ 0)) by lia. cbn [mbind outcome_bind]. rewrite (Z.mul_comm _ 3).
  set (m := 3 * d30_expected_channels dep) in *. pose proof (Z.div_mod n m ltac:(lia)).
  assert (0 < n / m <= n) by (split; [nia|apply Z.div_le_upper_bound; nia]).
  rewrite u32_small, (proj2 (Z.eqb_neq _ 0)) by lia. cbn [andb]. eexists. split; [done|]. lia.
Qed.

Lemma samples_some n : exists k, d30_samples dep n = Done k.
Proof.
  unfold d30_samples, udiv. rewrite s32_small, u64_small by lia. rewrite (proj2 (Z.eqb_neq _ 0)) by lia.
  cbn [mbind outcome_bind]. by eexists.
Qed.

Lemma packet_back s in_pts fs off c :
  0 < zlen c < 4294967296 ->
  exists a, d30_process dep (Some (audio_packet s in_pts fs off c)) = Done (ZST_OK, Some a) /\ audio_bytes a = c /\
    (zlen c mod (3 * d30_expected_channels dep) = 0 -> whole_frames (d30_expected_channels dep) a).
Proof.
  intros Hc. unfold d30_process, audio_packet. cbn [buf_flags mem_size mem_data buf_pts].
  change (has_flag 0 _) with false. cbv iota.
  rewrite (proj2 (Z.ltb_ge _ 12)), (proj2 (Z.eqb_neq _ 0)), !malloc_total by lia. cbn [negb].
  set (hdr := rtp12 _ _ _ _). assert (Hhdr : zlen hdr = 12) by done.
  assert (Hall : 12 + zlen c = zlen (hdr ++ c)) by (rewrite zlen_app; lia).
  rewrite !read_bytes_in by lia. cbn [mbind outcome_bind]. replace (12 + zlen c - 12) with (zlen c) by lia.
  destruct (samples_some (zlen c)) as (k & Hk). rewrite Hk. cbn [mbind outcome_bind].
  subst hdr. rewrite rtp12_app_sub by done. eexists. split; [done|].
  assert (Hb : forall b f, audio_bytes (mk_abuf (mk_buffer ZST_BUFFER_AUDIO_FRAME 0 b b 0 (Some c) (zlen c)) f) = c).
  { intros. apply sub_bytes_all. done. }
  split; [apply Hb|]. intros Hm. unfold whole_frames. rewrite Hb. cbn [audio_samples ab_payload from_option af_nb_samples].
  destruct (samples_whole (zlen c)) as (k' & Hk' & ->); [lia|done|lia|]. rewrite Hk in Hk'. by injection Hk' as ->.
Qed.

Lemma packets_back s in_pts fs off cs :
  Forall (fun c => 0 < zlen c < 4294967296) cs ->
  exists outs, d30_run dep (audio_packets s in_pts fs off cs) = Done outs /\ map audio_bytes outs = cs /\
    (Forall (fun c => zlen c mod (3 * d30_expected_channels dep) = 0) cs ->
       Forall (whole_frames (d30_expected_channels dep)) outs).
Proof.
  intros Hcs. revert s off. induction Hcs as [|c cs Hc Hcs IH]; intros s off; cbn [audio_packets d30_run].
  - exists []. split_and!; [done|done|by constructor].
  - destruct (packet_back s in_pts fs off c Hc) as (a & -> & Ha & Hw). cbn [mbind outcome_bind snd].
    destruct (IH (p30_next s) (off + zlen c)) as (outs & -> & Ho & Hws). cbn [mbind outcome_bind].
    exists (a :: outs). cbn [map]. rewrite Ha, Ho. split_and!; [done|done|]. intros Hm. inversion Hm; subst.
    constructor; [by apply Hw|by apply Hws].
Qed.
End back.

Lemma chunks_whole fuel n fs l :
  0 < fs -> 0 < n -> n mod fs = 0 -> zlen l mod fs = 0 -> Forall (fun c => zlen c mod fs = 0) (chunks fuel n l).
Proof.
  intros Hfs Hn Hm. revert l. induction fuel as [|fuel IH]; intros l Hl; cbn [chunks]; [constructor|].
  pose proof (zlen_nonneg l). destruct (Z.eqb_spec (zlen l) 0); [constructor|]. constructor.
  - rewrite zlen_sub_bytes by lia. destruct (Z.min_spec (zlen l) n) as [[? ->]|[? ->]]; done.
  - apply IH. rewrite zlen_drop by lia. destruct (Z.max_spec 0 (zlen l - n)) as [[? ->]|[? ->]].
    + by rewrite Zminus_mod, Hl, Hm, Z.sub_0_l, Zmod_0_l.
    + apply Zmod_0_l.
Qed.

(** Audio sent through the payloader, the last packet left in [out] included, comes
    out of the depayloader as the same bytes.  Sound of 24 bits in whole frames comes
    out in whole frames, their sample counts right. *)
Theorem audio_roundtrip `{CMemoryOk} fuel p dep (tr : trace) b data :
  let fs := p30_frame_size p in
  0 < fs -> 0 < u64 (p30_sample_rate p) -> 0 < d30_expected_channels dep < 65536 ->
  has_flag (buf_flags (ab_buf b)) ZST_BUFFER_FLAG_EOS = false ->
  p30_input fs b = (Some data, zlen data) -> 0 < zlen data < 4294967296 -> zlen data < Z.of_nat fuel ->
  exists bs lst p' outs,
    p30_process fuel p (Some tr) (Some b) = Done (ZST_OK, Some (mk_abuf lst None), p', Some (tr ++ bs)) /\
    d30_run dep (bs ++ [lst]) = Done outs /\ concat (map audio_bytes outs) = data /\
    (fs = 3 * d30_expected_channels dep -> zlen data mod fs = 0 ->
       Forall (whole_frames (d30_expected_channels dep)) outs).
Proof.
  intros fs Hfs Hrate Hch Hflag Hin Hdata Hfuel. unfold p30_process. rewrite Hflag. fold fs.
  rewrite (proj2 (Z.leb_gt fs 0)), Hin by lia. fold (max_audio_payload fs).
  destruct (max_audio_payload_whole fs Hfs) as (Hn & Hwhole & Hle). set (n := max_audio_payload fs) in *.
  destruct fuel as [|fuel]; [lia|].
  destruct (audio_loop fuel p tr (buf_pts (ab_buf b)) data fs n 0) as (bs & lst & p' & -> & Hbs); try done; [lia..|].
  cbn [mbind outcome_bind]. change (drop (Z.to_nat 0) data) with data in Hbs. set (cs := chunks fuel n data) in *.
  assert (Hcs : Forall (fun c => 0 < zlen c < 4294967296) cs).
  { apply Forall_forall. intros c Hc. pose proof (chunks_bounds _ _ _ _ Hn Hc).
    pose proof (chunks_concat fuel n data Hn ltac:(lia)) as Hcat. fold cs in Hcat.
    apply list_elem_of_split in Hc as (l1 & l2 & Hc). rewrite Hc, concat_app in Hcat. cbn [concat] in Hcat.
    rewrite <-Hcat in Hdata. rewrite !zlen_app in Hdata.
    pose proof (zlen_nonneg (concat l1)). pose proof (zlen_nonneg (concat l2)). lia. }
  destruct (packets_back dep Hch p (buf_pts (ab_buf b)) fs 0 cs Hcs) as (outs & Hr & Ho & Hw).
  exists bs, lst, p', outs. rewrite Hbs. split_and!; [done|done| |].
  - rewrite Ho. apply chunks_concat; [done|lia].
  - intros Heq Hmod. apply Hw. rewrite <-Heq. by apply chunks_whole.
Qed.

(** ** Settings that do not work *)

Section settings.
Context {D : Type} `{PadSink D} `{CMemoryOk}.

(** With a sample rate of 0, the first buffer divides by zero; with no expected
    channels, so does the first packet with a payload.  Sound of 16 bits comes out with
    two thirds of its sample count. *)
Theorem audio_misconfigured fuel p (d : option D) b data dep pkt payload n :
  0 < p30_frame_size p -> has_flag (buf_flags (ab_buf b)) ZST_BUFFER_FLAG_EOS = false ->
  p30_input (p30_frame_size p) b = (Some data, zlen data) -> 0 < zlen data ->
  has_flag (buf_flags pkt) ZST_BUFFER_FLAG_EOS = false ->
  mem_data pkt = Some payload -> mem_size pkt = zlen payload -> 12 < zlen payload < 4294967296 ->
  0 < d30_expected_channels dep < 65536 ->
  (p30_sample_rate p = 0 -> p30_process (S fuel) p d (Some b) = Fault) /\
  d30_process (mk_d30 0 (d30_expected_sample_rate dep)) (Some pkt) = Fault /\
  (zlen payload = 12 + 2 * d30_expected_channels dep * n -> 2 <= n ->
     exists a, d30_process dep (Some pkt) = Done (ZST_OK, Some a) /\ audio_samples a = 2 * n / 3).
Proof.
  intros Hfs Hflag Hin Hdata Hflag' Hpd Hps Hp Hch. split_and!.
  - intros Hrate. unfold p30_process. rewrite Hflag, (proj2 (Z.leb_gt _ 0)), Hin by done.
    fold (max_audio_payload (p30_frame_size p)). destruct (max_audio_payload_whole _ Hfs) as (Hn & _ & _).
    set (m := max_audio_payload _) in *. cbn [p30_loop]. rewrite (proj2 (Z.ltb_lt 0 _)), Z.sub_0_r by done.
    unfold p30_packet. rewrite !malloc_total, Hrate. cbn [negb]. unfold copy_or_zero.
    rewrite read_bytes_in by (zbool; lia). done.
  - unfold d30_process. rewrite Hflag', Hpd, Hps, (proj2 (Z.ltb_ge _ 12)), (proj2 (Z.eqb_neq _ 0)), !malloc_total by lia.
    cbn [negb]. by rewrite !read_bytes_in by lia.
  - intros Hlen Hn. unfold d30_process.
    rewrite Hflag', Hpd, Hps, (proj2 (Z.ltb_ge _ 12)), (proj2 (Z.eqb_neq _ 0)), !malloc_total by lia.
    cbn [negb]. rewrite !read_bytes_in by lia. cbn [mbind outcome_bind].
    unfold d30_samples, udiv. rewrite (s32_small (d30_expected_channels dep * 3)), (u64_small (d30_expected_channels dep * 3)) by lia. rewrite (proj2 (Z.eqb_neq (d30_expected_channels dep * 3) 0)) by lia.
    cbn [mbind outcome_bind]. replace (zlen payload - 12) with (2 * n * d30_expected_channels dep) by lia.
    rewrite (Z.mul_comm (d30_expected_channels dep)), Z.div_mul_cancel_r by lia.
    assert (1 <= 2 * n / 3 <= 2 * n) by (split; [apply Z.div_le_lower_bound; lia|apply Z.div_le_upper_bound; lia]).
    rewrite (u32_small (2 * n / 3)), (proj2 (Z.eqb_neq (2 * n / 3) 0)) by nia. by eexists.
Qed.
End settings.

(** ** Ancillary data *)

Section data.
Context `{CMemoryOk}.

(** Data sent through the payloader comes out of the depayloader as the same bytes at
    the same time, and the sequence number advances. *)
Theorem data_roundtrip p b data :
  has_flag (buf_flags b) ZST_BUFFER_FLAG_EOS = false ->
  mem_data b = Some data -> mem_size b = zlen data -> 0 < zlen data < SIZE_MAX - 12 ->
  exists pkt p' out,
    p40_process p (Some b) = Done (ZST_OK, Some pkt, p') /\ p40_seq p' = u16 (p40_seq p + 1) /\
    d40_process (Some pkt) = Done (ZST_OK, Some out) /\ buf_bytes out = data /\ buf_pts out = buf_pts b.
Proof.
  intros Hflag Hd Hs Hz. unfold SIZE_MAX in Hz. unfold p40_process.
  rewrite Hflag, !malloc_total, Hd, Hs, (u64_small (12 + zlen data)) by lia. cbn [negb].
  unfold copy_or_zero. rewrite read_bytes_in by lia. cbn [mbind outcome_bind]. rewrite sub_bytes_all by done.
  set (hdr := rtp12 _ _ _ _). assert (Hall : zlen (hdr ++ data) = 12 + zlen data) by (rewrite zlen_app; reflexivity).
  eexists _, _, (mk_buffer ZST_BUFFER_USER 0 (buf_pts b) (buf_pts b) 0 (Some data) (zlen data)).
  split_and!; [done|done| |by apply sub_bytes_all|done].
  unfold d40_process. cbn [buf_flags mem_size mem_data buf_pts buf_dts]. change (has_flag 0 _) with false. cbv iota.
  rewrite (proj2 (Z.leb_gt (12 + zlen data) 12)), !malloc_total by lia. cbn [negb].
  rewrite read_bytes_in by lia. cbn [mbind outcome_bind]. subst hdr. rewrite rtp12_app_sub by lia.
  by replace (12 + zlen data - 12) with (zlen data) by lia.
Qed.

(** Closing the payloader frees the name of the data type and keeps the pointer: to
    close it again, to set the property or to read it then touches freed memory. *)
Theorem close_leaves_dangling p text value max_len :
  p40_aux_data_type p = Owned text ->
  exists p', p40_close p = Done (ZST_OK, p') /\ p40_close p' = Fault /\
    p40_set_property p' "aux-data-type" value = Fault /\ p40_get_property p' "aux-data-type" max_len = Fault.
Proof. intros E. eexists. unfold p40_close at 1. rewrite E. split_and!; reflexivity. Qed.
End data.

(** ** The theorems at concrete inputs *)

Section examples.
#[local] Existing Instances ample_memory ample_memory_ok.

Definition two_frames : audio_buffer :=
  mk_abuf (buffer_of ZST_BUFFER_AUDIO_FRAME 0 1000000000 0 0 [1; 2; 3; 4; 5; 6; 7; 8; 9; 10; 11; 12]) None.

Lemma audio_roundtrip_witness :
  exists bs lst p' outs,
    p30_process 13 zst_st2110_30_payloader_create (Some ([] : trace)) (Some two_frames) =
      Done (ZST_OK, Some (mk_abuf lst None), p', Some ([] ++ bs)) /\
    d30_run zst_st2110_30_depayloader_create (bs ++ [lst]) = Done outs /\
    concat (map audio_bytes outs) = [1; 2; 3; 4; 5; 6; 7; 8; 9; 10; 11; 12] /\
    Forall (whole_frames 2) outs.
Proof.
  destruct (audio_roundtrip 13 zst_st2110_30_payloader_create zst_st2110_30_depayloader_create [] two_frames
              [1; 2; 3; 4; 5; 6; 7; 8; 9; 10; 11; 12]) as (bs & lst & p' & outs & E1 & E2 & E3 & E4);
    [reflexivity|reflexivity|split; reflexivity|reflexivity|reflexivity|split; reflexivity|reflexivity|].
  exists bs, lst, p', outs. split; [exact E1|split; [exact E2|split; [exact E3|]]]. apply E4; by vm_compute.
Defined.

Lemma audio_misconfigured_witness :
  p30_process 3 (p30_with zst_st2110_30_payloader_create 2 0 24 97) (Some ([] : trace)) (Some two_frames) = Fault /\
  exists a, d30_process zst_st2110_30_depayloader_create
    (Some (buffer_of ZST_BUFFER_AUDIO_PACKET 0 0 0 0 (replicate 24 0))) = Done (ZST_OK, Some a) /\ audio_samples a = 2.
Proof.
  destruct (audio_misconfigured 2 (p30_with zst_st2110_30_payloader_create 2 0 24 97) (Some ([] : trace)) two_frames
              [1; 2; 3; 4; 5; 6; 7; 8; 9; 10; 11; 12] zst_st2110_30_depayloader_create
              (buffer_of ZST_BUFFER_AUDIO_PACKET 0 0 0 0 (replicate 24 0)) (replicate 24 0) 3) as (E1 & _ & E3);
    [reflexivity|reflexivity|reflexivity|reflexivity|reflexivity|reflexivity|reflexivity|split; reflexivity
    |split; reflexivity|].
  split; [by apply E1|]. apply E3; by vm_compute.
Defined.

Lemma data_roundtrip_witness :
  exists pkt p' out,
    p40_process zst_st2110_40_payloader_create (Some (buffer_of ZST_BUFFER_USER 0 7 0 0 [1; 2; 3])) =
      Done (ZST_OK, Some pkt, p') /\ p40_seq p' = 1 /\
    d40_process (Some pkt) = Done (ZST_OK, Some out) /\ buf_bytes out = [1; 2; 3] /\ buf_pts out = 7.
Proof.
  apply (data_roundtrip zst_st2110_40_payloader_create (buffer_of ZST_BUFFER_USER 0 7 0 0 [1; 2; 3]) [1; 2; 3]);
    try (by vm_compute); split; by vm_compute.
Defined.

Lemma close_leaves_dangling_witness :
  exists p', p40_close zst_st2110_40_payloader_create = Done (ZST_OK, p') /\ p40_close p' = Fault /\
    p40_set_property p' "aux-data-type" "cea708" = Fault /\ p40_get_property p' "aux-data-type" 64 = Fault.
Proof. by apply (close_leaves_dangling zst_st2110_40_payloader_create "cea608"). Defined.
End examples.
