(* ===== verification/Graph.v ===== *)
(** * The pad graph: data, references, links ([src/zst_pad.c], [src/zst_pad_event.c])

    Pads, elements and buffers are objects with numbers for addresses, in one [world].
    An operation is a function from the world to a result and the next world ([M]): it
    is [Fault] when it uses an object that has been freed, [Unfinished] when it waits
    for ever.  What the operations call outside this model (elements' handlers, probes,
    clocks, other threads while this one waits) is the record [env]: any functions on
    the world. *)

From Stdlib Require Import String SpecFloat.
From S2P Require Import Prelude CLib Pad Caps.

Local Open Scope Z_scope.

(** ** Segments and events *)

Record zst_segment_t := mk_seg {
  seg_start : Z;
  seg_stop : Z;
  seg_rate : cdouble;
  seg_base : Z;
  seg_position : Z;
}.

Definition ZST_SEGMENT_STOP_NONE : Z := UINT64_MAX.

Definition d_one : cdouble := S754_finite false 4503599627370496 (-52).

Definition zst_segment_default : zst_segment_t := mk_seg 0 ZST_SEGMENT_STOP_NONE d_one 0 0.

Inductive zst_pad_event_t :=
| ZST_PAD_EVENT_STREAM_START (stream_id : Z)
| ZST_PAD_EVENT_CAPS (caps : option zst_caps_t)
| ZST_PAD_EVENT_SEGMENT (segment : zst_segment_t)
| ZST_PAD_EVENT_EOS
| ZST_PAD_EVENT_FLUSH_START
| ZST_PAD_EVENT_FLUSH_STOP
| ZST_PAD_EVENT_GAP
| ZST_PAD_EVENT_DISCONT
| ZST_PAD_EVENT_FORCE_KEYFRAME.

(** ** Pads *)

Inductive zst_pad_direction_t := ZST_PAD_SRC | ZST_PAD_SINK.

#[export] Instance direction_dec : EqDecision zst_pad_direction_t.
Proof. solve_decision. Defined.

Definition is_src (d : zst_pad_direction_t) : bool := match d with ZST_PAD_SRC => true | ZST_PAD_SINK => false end.

Inductive zst_pad_unlinked_policy_t :=
| ZST_PAD_UNLINKED_ERROR
| ZST_PAD_UNLINKED_DROP
| ZST_PAD_UNLINKED_BLOCK
| ZST_PAD_UNLINKED_QUEUE.

Definition ZST_PAD_PROBE_PRE_BUFFER : Z := 1.
Definition ZST_PAD_PROBE_POST_BUFFER : Z := 2.
Definition ZST_PAD_PROBE_PRE_EVENT : Z := 4.
Definition ZST_PAD_PROBE_POST_EVENT : Z := 8.

Inductive zst_pad_probe_return_t :=
| ZST_PAD_PROBE_OK
| ZST_PAD_PROBE_DROP
| ZST_PAD_PROBE_BLOCK
| ZST_PAD_PROBE_REBLOCK.

(** A probe's callback, with its user data, is a number. *)
Record zst_pad_probe_t := mk_probe {
  probe_id : Z;
  probe_types : Z;
  probe_callback : nat;
}.

(** The [push] and [pull] members: those of the framework, or the element's own. *)
Inductive push_op := DefaultSinkPush | GhostSinkPush | GhostProxyPush | ElementPush.
Inductive pull_op := DefaultSrcPull | GhostSrcPull | ElementPull.

(** The [priv] member: nothing known, a ghost pad's data, or the ghost a proxy serves. *)
Inductive pad_priv :=
| NoPriv
| GhostPriv (target proxy_sink : option nat) (eos_seen : bool)
| ProxyOf (ghost : nat).

Record pad_probing := mk_probing {
  has_probes : Z;
  probes : list zst_pad_probe_t;
  next_probe_id : Z;
  blocked : bool;
  block_callback_fired : bool;
  block_callback : option nat;
}.

Record pad_unlinked := mk_unlinked {
  max_queued : Z;
  queued_count : Z;
  unlinked_policy : zst_pad_unlinked_policy_t;
}.

Record pad_sticky := mk_sticky {
  sticky_stream_start : option zst_pad_event_t;
  sticky_caps : option zst_pad_event_t;
  sticky_segment : option zst_pad_event_t;
}.

Record pad_jitter := mk_jitter {
  last_transit_time : Z;
  media_jitter_ns : cdouble;
  jitter_buffer_count : Z;
}.

Record zst_pad := mk_pad {
  pad_name : option string;
  pad_direction : zst_pad_direction_t;
  pad_parent : option nat;
  pad_caps : option zst_caps_t;
  pad_template_caps : option zst_caps_t;
  pad_push_op : option push_op;
  pad_pull_op : option pull_op;
  pad_private : pad_priv;
  pad_peer : option nat;
  pad_linked : bool;
  pad_refcount : Z;
  pad_probes : pad_probing;
  pad_has_segment : bool;
  pad_segment : zst_segment_t;
  pad_policy : pad_unlinked;
  pad_stickies : pad_sticky;
  pad_jitters : pad_jitter;
}.

(** Stores to the members. *)
Definition with_parent (p : zst_pad) (parent : option nat) : zst_pad :=
  mk_pad (pad_name p) (pad_direction p) parent (pad_caps p) (pad_template_caps p) (pad_push_op p) (pad_pull_op p)
    (pad_private p) (pad_peer p) (pad_linked p) (pad_refcount p) (pad_probes p) (pad_has_segment p) (pad_segment p)
    (pad_policy p) (pad_stickies p) (pad_jitters p).
Definition with_caps (p : zst_pad) (caps template : option zst_caps_t) : zst_pad :=
  mk_pad (pad_name p) (pad_direction p) (pad_parent p) caps template (pad_push_op p) (pad_pull_op p)
    (pad_private p) (pad_peer p) (pad_linked p) (pad_refcount p) (pad_probes p) (pad_has_segment p) (pad_segment p)
    (pad_policy p) (pad_stickies p) (pad_jitters p).
Definition with_ops (p : zst_pad) (push : option push_op) (pull : option pull_op) (priv : pad_priv) : zst_pad :=
  mk_pad (pad_name p) (pad_direction p) (pad_parent p) (pad_caps p) (pad_template_caps p) push pull
    priv (pad_peer p) (pad_linked p) (pad_refcount p) (pad_probes p) (pad_has_segment p) (pad_segment p)
    (pad_policy p) (pad_stickies p) (pad_jitters p).
Definition with_link (p : zst_pad) (peer : option nat) (linked : bool) (refcount : Z) : zst_pad :=
  mk_pad (pad_name p) (pad_direction p) (pad_parent p) (pad_caps p) (pad_template_caps p) (pad_push_op p) (pad_pull_op p)
    (pad_private p) peer linked refcount (pad_probes p) (pad_has_segment p) (pad_segment p)
    (pad_policy p) (pad_stickies p) (pad_jitters p).
Definition with_probing (p : zst_pad) (g : pad_probing) : zst_pad :=
  mk_pad (pad_name p) (pad_direction p) (pad_parent p) (pad_caps p) (pad_template_caps p) (pad_push_op p) (pad_pull_op p)
    (pad_private p) (pad_peer p) (pad_linked p) (pad_refcount p) g (pad_has_segment p) (pad_segment p)
    (pad_policy p) (pad_stickies p) (pad_jitters p).
Definition with_segment (p : zst_pad) (has : bool) (seg : zst_segment_t) : zst_pad :=
  mk_pad (pad_name p) (pad_direction p) (pad_parent p) (pad_caps p) (pad_template_caps p) (pad_push_op p) (pad_pull_op p)
    (pad_private p) (pad_peer p) (pad_linked p) (pad_refcount p) (pad_probes p) has seg
    (pad_policy p) (pad_stickies p) (pad_jitters p).
Definition with_flow (p : zst_pad) (policy : pad_unlinked) (sticky : pad_sticky) (jitter : pad_jitter) : zst_pad :=
  mk_pad (pad_name p) (pad_direction p) (pad_parent p) (pad_caps p) (pad_template_caps p) (pad_push_op p) (pad_pull_op p)
    (pad_private p) (pad_peer p) (pad_linked p) (pad_refcount p) (pad_probes p) (pad_has_segment p) (pad_segment p)
    policy sticky jitter.

(** ** Elements, as pads see them *)

Inductive zst_state_t := ZST_STATE_NULL | ZST_STATE_READY | ZST_STATE_PAUSED | ZST_STATE_PLAYING.

#[export] Instance state_dec : EqDecision zst_state_t.
Proof. solve_decision. Defined.

Definition state_num (s : zst_state_t) : Z :=
  match s with ZST_STATE_NULL => 0 | ZST_STATE_READY => 1 | ZST_STATE_PAUSED => 2 | ZST_STATE_PLAYING => 3 end.

Record zst_bin_priv_t := mk_bin {
  bin_children : list nat;
  bin_eos_posted : bool;
  bin_eos_forwarded : bool;
}.

Record zst_element := mk_element {
  el_state : zst_state_t;
  el_src_pads : list nat;
  el_sink_pads : list nat;
  el_bus : bool;
  el_pipeline : option nat;
  el_clock : option nat;
  el_parent_bin : option nat;
  el_bin : option zst_bin_priv_t;
}.

(** What is posted on the bus. *)
Inductive bus_event :=
| EventEos (el : nat)
| EventWarning (el : nat) (code : zst_result_t)
| EventError (el : nat) (code : zst_result_t)
| EventStateChanged (el : nat) (old new : zst_state_t)
| EventSegment (el : nat) (segment : zst_segment_t)
| EventPipelineState (old new : zst_state_t).

Record zbuf := mk_zbuf { zb_buffer : zst_buffer; zb_refcount : Z }.

(** ** The world *)

Section world.
Context {U : Type}.

(** [w_dirty] lists the pipelines whose pool sizing was marked dirty; [w_user] is the
    state of everything outside. *)
Record world := mk_world {
  w_next : nat;
  w_pads : gmap nat zst_pad;
  w_elems : gmap nat zst_element;
  w_bufs : gmap nat zbuf;
  w_bus : list bus_event;
  w_dirty : list nat;
  w_user : U;
}.

Definition M (A : Type) : Type := world -> outcome (A * world).

#[export] Instance M_ret : MRet M := fun A a w => Done (a, w).
#[export] Instance M_bind : MBind M := fun A B f m w =>
  match m w with Done (a, w) => f a w | Fault => Fault | Unfinished => Unfinished end.

Definition fault {A} : M A := fun _ => Fault.
Definition stuck {A} : M A := fun _ => Unfinished.

Definition put_pads (w : world) (pads : gmap nat zst_pad) : world :=
  mk_world (w_next w) pads (w_elems w) (w_bufs w) (w_bus w) (w_dirty w) (w_user w).
Definition put_elems (w : world) (elems : gmap nat zst_element) : world :=
  mk_world (w_next w) (w_pads w) elems (w_bufs w) (w_bus w) (w_dirty w) (w_user w).
Definition put_bufs (w : world) (bufs : gmap nat zbuf) : world :=
  mk_world (w_next w) (w_pads w) (w_elems w) bufs (w_bus w) (w_dirty w) (w_user w).

Definition get_pad (p : nat) : M zst_pad := fun w =>
  match w_pads w !! p with Some x => Done (x, w) | None => Fault end.
Definition set_pad (p : nat) (x : zst_pad) : M unit := fun w => Done (tt, put_pads w (<[p := x]> (w_pads w))).
Definition get_elem (e : nat) : M zst_element := fun w =>
  match w_elems w !! e with Some x => Done (x, w) | None => Fault end.
Definition set_elem (e : nat) (x : zst_element) : M unit := fun w => Done (tt, put_elems w (<[e := x]> (w_elems w))).
Definition get_buf (b : nat) : M zbuf := fun w =>
  match w_bufs w !! b with Some x => Done (x, w) | None => Fault end.
Definition set_buf (b : nat) (x : zbuf) : M unit := fun w => Done (tt, put_bufs w (<[b := x]> (w_bufs w))).

Definition modify_pad (p : nat) (f : zst_pad -> zst_pad) : M unit := x ← get_pad p; set_pad p (f x).

Definition zst_bus_post (e : bus_event) : M unit := fun w =>
  Done (tt, mk_world (w_next w) (w_pads w) (w_elems w) (w_bufs w) (w_bus w ++ [e]) (w_dirty w) (w_user w)).
Definition zst_pipeline_mark_buffer_pool_sizing_dirty (pipe : nat) : M unit := fun w =>
  Done (tt, mk_world (w_next w) (w_pads w) (w_elems w) (w_bufs w) (w_bus w) (pipe :: w_dirty w) (w_user w)).

(** The address a pad, an element or a buffer gets. *)
Definition fresh : M nat := fun w =>
  Done (w_next w, mk_world (S (w_next w)) (w_pads w) (w_elems w) (w_bufs w) (w_bus w) (w_dirty w) (w_user w)).

(** An element's handlers; [None] is a member that is NULL. *)
Record zst_element_ops_t := mk_ops {
  op_open : option (M zst_result_t);
  op_close : option (M zst_result_t);
  op_start : option (M zst_result_t);
  op_stop : option (M zst_result_t);
  op_preroll : option (M zst_result_t);
  op_unpreroll : option (M zst_result_t);
  op_process : option (option nat -> M (zst_result_t * option nat));
  op_get_caps : option (nat -> M (option zst_caps_t));
  op_event : option (nat -> zst_pad_event_t -> M zst_result_t);
}.

(** What is called outside: handlers by element, the [push] and [pull] an element gave
    its pads, probes by callback, clocks by number; the waits let other threads run
    until a pad is unblocked, or until it is linked ([false]: one second passed). *)
Record env := mk_env {
  env_ops : nat -> zst_element_ops_t;
  env_push : nat -> nat -> M zst_result_t;
  env_pull : nat -> M (zst_result_t * option nat);
  env_probe : nat -> nat -> option nat -> Z -> M zst_pad_probe_return_t;
  env_time : nat -> M Z;
  env_clock_wait : nat -> Z -> M unit;
  env_unblocked : nat -> M unit;
  env_linked : nat -> M bool;
  env_pool_sizing : nat -> nat -> M unit;
  env_scheduler_wake : nat -> M unit;
}.
End world.

Arguments world U : clear implicits.
Arguments M U A : clear implicits.
Arguments env U : clear implicits.
Arguments zst_element_ops_t U : clear implicits.
