(* ===== verification/PadOps.v ===== *)
(** * Operations on pads: [src/zst_pad.c], [src/zst_pad_event.c]

    Creation, references, capabilities, probes and blocking, segments, events in both
    directions, links.  The arguments are pads that exist: the tests for NULL are left
    out.  [rounds] bounds how often a thread finds its pad blocked again after a wait. *)

From Stdlib Require Import String SpecFloat.
From S2P Require Import Prelude CLib Pad Caps Graph.

Local Open Scope Z_scope.

Definition SIZEOF_PAD : Z := 512.
Definition SIZEOF_PROBE : Z := 40.
Definition SIZEOF_EVENT : Z := 48.
Definition SIZEOF_POINTER : Z := 8.

Section ops.
Context {U : Type} `{CMemory} (stale_size : caps_value -> Z) (E : env U) (rounds : nat).
Local Notation M := (M U).

(** ** Events *)

Definition new_event (ev : zst_pad_event_t) : option zst_pad_event_t :=
  if malloc_ok SIZEOF_EVENT then Some ev else None.

Definition zst_pad_event_new_stream_start (stream_id : Z) := new_event (ZST_PAD_EVENT_STREAM_START stream_id).
Definition zst_pad_event_new_caps (caps : option zst_caps_t) := new_event (ZST_PAD_EVENT_CAPS (zst_caps_copy stale_size caps)).
(** Without a segment the event holds zeroes. *)
Definition zst_pad_event_new_segment (segment : option zst_segment_t) :=
  new_event (ZST_PAD_EVENT_SEGMENT (default (mk_seg 0 0 d_zero 0 0) segment)).
Definition zst_pad_event_new_eos := new_event ZST_PAD_EVENT_EOS.
Definition zst_pad_event_new_flush_start := new_event ZST_PAD_EVENT_FLUSH_START.
Definition zst_pad_event_new_flush_stop := new_event ZST_PAD_EVENT_FLUSH_STOP.
Definition zst_pad_event_new_discont := new_event ZST_PAD_EVENT_DISCONT.
Definition zst_pad_event_new_force_keyframe := new_event ZST_PAD_EVENT_FORCE_KEYFRAME.

(** ** Creation and references *)

Definition new_pad (name : option string) (direction : zst_pad_direction_t) : zst_pad :=
  let name := match name with
              | Some n => if malloc_ok (Z.of_nat (String.length n) + 1) then Some n else None
              | None => None
              end in
  mk_pad name direction None None None
    (match direction with ZST_PAD_SINK => Some DefaultSinkPush | ZST_PAD_SRC => None end)
    (match direction with ZST_PAD_SRC => Some DefaultSrcPull | ZST_PAD_SINK => None end)
    NoPriv None false 1 (mk_probing 0 [] 1 false false None) false zst_segment_default
    (mk_unlinked 0 0 ZST_PAD_UNLINKED_ERROR) (mk_sticky None None None) (mk_jitter 0 d_zero 0).

Definition zst_pad_create (name : option string) (direction : zst_pad_direction_t) : M (option nat) :=
  if malloc_ok SIZEOF_PAD then
    p ← fresh;
    _ ← set_pad p (new_pad name direction);
    mret (Some p)
  else mret None.

Definition zst_pad_ref (p : nat) : M unit :=
  modify_pad p (fun x => with_link x (pad_peer x) (pad_linked x) (s32 (pad_refcount x + 1))).

Definition drop_pad (p : nat) : M unit := fun w => Done (tt, put_pads w (base.delete p (w_pads w))).

(** [unref] is [zst_pad_unref], for the proxy of a ghost pad. *)
Definition zst_pad_finalize (unref : nat -> M unit) (p : nat) : M unit :=
  x ← get_pad p;
  _ ← set_pad p (with_link x None false (pad_refcount x));
  _ ← match pad_peer x with
      | None => mret tt
      | Some q =>
          y ← get_pad q;
          if decide (pad_peer y = Some p) then set_pad q (with_link y None false (pad_refcount y)) else mret tt
      end;
  x ← get_pad p;
  _ ← match pad_private x with
      | GhostPriv _ proxy _ =>
          _ ← match proxy with Some q => unref q | None => mret tt end;
          modify_pad p (fun x => with_ops x (pad_push_op x) (pad_pull_op x) NoPriv)
      | _ => mret tt
      end;
  drop_pad p.

Fixpoint unref_pad (n : nat) (p : nat) : M unit :=
  match n with
  | O => stuck
  | S n =>
      x ← get_pad p;
      _ ← set_pad p (with_link x (pad_peer x) (pad_linked x) (s32 (pad_refcount x - 1)));
      if pad_refcount x =? 1 then zst_pad_finalize (unref_pad n) p else mret tt
  end.

(** Every finalization removes a pad, so their number bounds the nesting. *)
Definition zst_pad_unref (p : nat) : M unit := fun w => unref_pad (S (size (w_pads w))) p w.

Definition zst_pad_get_peer (p : nat) : M (option nat) :=
  x ← get_pad p;
  match pad_peer x with
  | Some q => _ ← zst_pad_ref q; mret (Some q)
  | None => mret None
  end.

Definition zst_pad_is_linked (p : nat) : M bool := x ← get_pad p; mret (pad_linked x).

Definition zst_pad_reset_callbacks (p : nat) : M unit :=
  modify_pad p (fun x =>
    match pad_direction x with
    | ZST_PAD_SRC => with_ops x None (Some DefaultSrcPull) (pad_private x)
    | ZST_PAD_SINK => with_ops x (Some DefaultSinkPush) None (pad_private x)
    end).

Definition zst_pad_set_unlinked_policy (p : nat) (policy : zst_pad_unlinked_policy_t) (max_queued_buffers : Z)
    : M zst_result_t :=
  _ ← modify_pad p (fun x => with_flow x (mk_unlinked max_queued_buffers 0 policy) (pad_stickies x) (pad_jitters x));
  mret ZST_OK.

(** ** Capabilities *)

Definition zst_pad_set_caps (p : nat) (caps : option zst_caps_t) : M zst_result_t :=
  let copy := zst_caps_copy stale_size caps in
  _ ← modify_pad p (fun x => with_caps x copy (pad_template_caps x));
  mret (if is_some caps && negb (is_some copy) then ZST_ERROR else ZST_OK).

Definition zst_pad_set_template_caps (p : nat) (caps : option zst_caps_t) : M zst_result_t :=
  let copy := zst_caps_copy stale_size caps in
  _ ← modify_pad p (fun x => with_caps x (pad_caps x) copy);
  mret (if is_some caps && negb (is_some copy) then ZST_ERROR else ZST_OK).

(** [ghost_priv]: reading through a proxy looks into the ghost pad it serves. *)
Definition zst_ghost_pad_get_target (p : nat) : M (option nat) :=
  x ← get_pad p;
  match pad_private x with
  | GhostPriv target _ _ => mret target
  | ProxyOf g => _ ← get_pad g; mret None
  | NoPriv => mret None
  end.

(** [n] bounds a chain of ghost pads: a bin answers for its ghost pad's target. *)
Fixpoint get_caps (n : nat) (p : nat) : M (option zst_caps_t) :=
  match n with
  | O => stuck
  | S n =>
      x ← get_pad p;
      if is_some (pad_caps x) then mret (zst_caps_copy stale_size (pad_caps x))
      else
        offered ← match pad_parent x with
                  | None => mret None
                  | Some e =>
                      el ← get_elem e;
                      match el_bin el with
                      | Some _ =>
                          t ← zst_ghost_pad_get_target p;
                          match t with
                          | Some t => if (t =? p)%nat then mret None else get_caps n t
                          | None => mret None
                          end
                      | None => match op_get_caps (env_ops E e) with Some f => f p | None => mret None end
                      end
                  end;
        if is_some offered then mret offered
        else mret (zst_caps_copy stale_size (pad_template_caps x))
  end.

Definition zst_pad_get_caps (p : nat) : M (option zst_caps_t) := fun w => get_caps (S (size (w_pads w))) p w.

Definition zst_pad_negotiate (src sink : nat) : M zst_result_t :=
  src_caps ← zst_pad_get_caps src;
  sink_caps ← zst_pad_get_caps sink;
  if negb (is_some src_caps) || negb (is_some sink_caps) then mret ZST_OK
  else match zst_caps_intersect stale_size src_caps sink_caps with
  | None => mret ZST_ERROR
  | Some intersect =>
      let '(ret, fixed) :=
        if zst_caps_is_fixed (Some intersect) then (ZST_OK, Some intersect)
        else zst_caps_fixate stale_size (Some intersect) in
      if ret =? ZST_OK then
        ret ← zst_pad_set_caps src fixed;
        if ret =? ZST_OK then zst_pad_set_caps sink fixed else mret ret
      else mret ZST_ERROR
  end.

(** ** Probes and blocking *)

Definition modify_probing (p : nat) (f : pad_probing -> pad_probing) : M unit :=
  modify_pad p (fun x => with_probing x (f (pad_probes x))).

Definition zst_pad_add_probe (p : nat) (types : Z) (callback : option nat) : M Z :=
  match callback with
  | None => mret 0
  | Some c =>
      if types =? 0 then mret 0
      else if negb (malloc_ok SIZEOF_PROBE) then mret 0
      else
        x ← get_pad p;
        let g := pad_probes x in
        let id := next_probe_id g in
        let next := u64 (id + 1) in
        let '(id, next) := if id =? 0 then (next, u64 (next + 1)) else (id, next) in
        _ ← set_pad p (with_probing x (mk_probing (u32 (has_probes g + 1)) (mk_probe id types c :: probes g) next
                                         (blocked g) (block_callback_fired g) (block_callback g)));
        mret id
  end.

(** The list without the first probe of that id, if there is one. *)
Fixpoint remove_probe (id : Z) (l : list zst_pad_probe_t) : option (list zst_pad_probe_t) :=
  match l with
  | [] => None
  | b :: l => if probe_id b =? id then Some l else cons b <$> remove_probe id l
  end.

Definition zst_pad_remove_probe (p : nat) (id : Z) : M zst_result_t :=
  if id =? 0 then mret ZST_ERROR
  else
    x ← get_pad p;
    let g := pad_probes x in
    match remove_probe id (probes g) with
    | None => mret ZST_ERROR
    | Some l =>
        _ ← set_pad p (with_probing x (mk_probing (u32 (has_probes g - 1)) l (next_probe_id g) (blocked g)
                                         (block_callback_fired g) (block_callback g)));
        mret ZST_OK
    end.

Definition set_block (p : nat) (on : bool) : M unit :=
  modify_probing p (fun g => mk_probing (has_probes g) (probes g) (next_probe_id g) on false (block_callback g)).
Definition set_fired (p : nat) (on : bool) : M unit :=
  modify_probing p (fun g => mk_probing (has_probes g) (probes g) (next_probe_id g) (blocked g) on (block_callback g)).

Definition zst_pad_block (p : nat) : M zst_result_t := _ ← set_block p true; mret ZST_OK.
Definition zst_pad_unblock (p : nat) : M zst_result_t := _ ← set_block p false; mret ZST_OK.
Definition zst_pad_is_blocked (p : nat) : M bool := x ← get_pad p; mret (blocked (pad_probes x)).

Definition zst_pad_set_block_callback (p : nat) (callback : option nat) : M zst_result_t :=
  _ ← modify_probing p (fun g => mk_probing (has_probes g) (probes g) (next_probe_id g) (blocked g) false callback);
  mret ZST_OK.

(** The wait for another thread to unblock the pad. *)
Definition wait_unblocked (p : nat) : M unit :=
  x ← get_pad p;
  _ ← (if blocked (pad_probes x) then env_unblocked E p else mret tt);
  x ← get_pad p;
  if blocked (pad_probes x) then stuck else set_fired p false.

Fixpoint pad_handle_block (n : nat) (p : nat) (buf : option nat) (type : Z) : M zst_pad_probe_return_t :=
  match n with
  | O => stuck
  | S n =>
      x ← get_pad p;
      let g := pad_probes x in
      if negb (blocked g) then _ ← set_fired p false; mret ZST_PAD_PROBE_OK
      else
        answer ← match block_callback g with
                 | Some c =>
                     if block_callback_fired g then mret None
                     else _ ← set_fired p true; r ← env_probe E c p buf type; mret (Some r)
                 | None => mret None
                 end;
        match answer with
        | Some ZST_PAD_PROBE_OK => _ ← zst_pad_unblock p; mret ZST_PAD_PROBE_OK
        | Some ZST_PAD_PROBE_DROP => mret ZST_PAD_PROBE_DROP
        | _ => _ ← wait_unblocked p; pad_handle_block n p buf type
        end
  end.

Definition is_probe_ok (r : zst_pad_probe_return_t) : bool := match r with ZST_PAD_PROBE_OK => true | _ => false end.
Definition is_probe_drop (r : zst_pad_probe_return_t) : bool := match r with ZST_PAD_PROBE_DROP => true | _ => false end.

Fixpoint call_probes (cs : list nat) (p : nat) (buf : option nat) (type : Z) : M zst_pad_probe_return_t :=
  match cs with
  | [] => mret ZST_PAD_PROBE_OK
  | c :: cs =>
      r ← env_probe E c p buf type;
      match r with
      | ZST_PAD_PROBE_DROP => mret ZST_PAD_PROBE_DROP
      | ZST_PAD_PROBE_OK => call_probes cs p buf type
      | _ =>
          _ ← zst_pad_block p;
          r ← pad_handle_block rounds p buf type;
          if is_probe_ok r then call_probes cs p buf type else mret r
      end
  end.

(** The callbacks of the probes of that type, the newest first. *)
Definition matching_probes (g : pad_probing) (type : Z) : list nat :=
  map probe_callback (List.filter (fun b => negb (Z.land (probe_types b) type =? 0)) (probes g)).

(** What follows the fast exit of [pad_run_probes]. *)
Definition run_probes_slow (p : nat) (buf : option nat) (type : Z) : M zst_pad_probe_return_t :=
  r ← pad_handle_block rounds p buf type;
  if negb (is_probe_ok r) then mret r
  else
    x ← get_pad p;
    let cs := matching_probes (pad_probes x) type in
    if (8 <? zlen cs) && negb (malloc_ok (zlen cs * SIZEOF_POINTER)) then mret ZST_PAD_PROBE_OK
    else call_probes cs p buf type.

Definition pad_run_probes (p : nat) (buf : option nat) (type : Z) : M zst_pad_probe_return_t :=
  x ← get_pad p;
  if negb (blocked (pad_probes x)) && (has_probes (pad_probes x) =? 0) then mret ZST_PAD_PROBE_OK
  else run_probes_slow p buf type.
End ops.
