(* ===== verification/PadFlow.v ===== *)
(** * Links, events and buffers: [src/zst_pad.c], ghost pads of [src/zst_bin.c]

    How events and segments spread over the graph, how pads are linked, and how a
    buffer goes from pad to pad through elements, bins and their ghost pads. *)

From Stdlib Require Import String SpecFloat.
From S2P Require Import Prelude CLib Pad Caps Graph PadOps.

Local Open Scope Z_scope.

Section flow.
Context {U : Type} `{CMemory} (stale_size : caps_value -> Z) (E : env U) (rounds : nat).
Local Notation M := (M U).
Local Notation run := (pad_run_probes E rounds).
Implicit Type p q : nat.

(** ** Segments *)

Definition zst_pad_set_segment (p : nat) (segment : zst_segment_t) : M zst_result_t :=
  x ← get_pad p;
  let rate := if deq (seg_rate segment) d_zero then d_one else seg_rate segment in
  let segment := mk_seg (seg_start segment) (seg_stop segment) rate (seg_base segment) (seg_position segment) in
  if negb (seg_stop segment =? ZST_SEGMENT_STOP_NONE) && (seg_stop segment <? seg_start segment) then
    _ ← set_pad p (with_segment x (pad_has_segment x) segment);
    mret ZST_ERROR
  else
    _ ← set_pad p (with_segment x true segment);
    mret ZST_OK.

Definition zst_pad_get_segment (p : nat) : M (option zst_segment_t) :=
  x ← get_pad p;
  mret (if pad_has_segment x then Some (pad_segment x) else None).

Definition zst_pad_clear_segment (p : nat) : M unit :=
  modify_pad p (fun x => with_segment x false zst_segment_default).

Definition zst_pad_get_media_jitter (p : nat) : M cdouble :=
  x ← get_pad p; mret (media_jitter_ns (pad_jitters x)).

(** ** Snapshots of an element's pads: each pad is referenced *)

Fixpoint ref_all (ps : list nat) : M unit :=
  match ps with [] => mret tt | p :: ps => _ ← zst_pad_ref p; ref_all ps end.

Fixpoint zst_element_pad_snapshot_free (ps : list nat) : M unit :=
  match ps with [] => mret tt | p :: ps => _ ← zst_pad_unref p; zst_element_pad_snapshot_free ps end.

Definition snapshot (pads : zst_element -> list nat) (e : nat) : M (option (list nat)) :=
  el ← get_elem e;
  match pads el with
  | [] => mret (Some [])
  | ps =>
      if malloc_ok (zlen ps * SIZEOF_POINTER) then _ ← ref_all ps; mret (Some ps)
      else mret None
  end.

Definition zst_element_snapshot_src_pads : nat -> M (option (list nat)) := snapshot el_src_pads.
Definition zst_element_snapshot_sink_pads : nat -> M (option (list nat)) := snapshot el_sink_pads.

(** [f] on each pad; the results are ignored, as the callers do. *)
Fixpoint each_pad (f : nat -> M zst_result_t) (ps : list nat) : M unit :=
  match ps with [] => mret tt | p :: ps => _ ← f p; each_pad f ps end.

(** ** Propagation of a segment

    [room] is 257 less the depth: at a depth above 256 the propagation stops. *)
Fixpoint pad_propagate_segment (room : nat) (p : nat) (segment : zst_segment_t) : M zst_result_t :=
  match room with
  | O => mret ZST_ERROR
  | S room =>
      r ← run p None ZST_PAD_PROBE_PRE_EVENT;
      if is_probe_drop r then mret ZST_OK
      else
        _ ← zst_pad_set_segment p segment;
        x ← get_pad p;
        _ ← (if is_src (pad_direction x) then
               peer ← zst_pad_get_peer p;
               match peer with
               | None => mret tt
               | Some q =>
                   r ← run q None ZST_PAD_PROBE_PRE_EVENT;
                   _ ← (if is_probe_drop r then mret tt
                        else _ ← zst_pad_set_segment q segment;
                             _ ← run q None ZST_PAD_PROBE_POST_EVENT; mret tt);
                   y ← get_pad q;
                   _ ← match pad_parent y with
                       | None => mret tt
                       | Some e =>
                           ps ← zst_element_snapshot_src_pads e;
                           match ps with
                           | None => mret tt
                           | Some ps =>
                               _ ← each_pad (fun s => pad_propagate_segment room s segment) ps;
                               zst_element_pad_snapshot_free ps
                           end
                       end;
                   zst_pad_unref q
               end
             else mret tt);
        _ ← run p None ZST_PAD_PROBE_POST_EVENT;
        mret ZST_OK
  end.

Definition zst_pad_push_segment (src : nat) (segment : zst_segment_t) : M zst_result_t :=
  x ← get_pad src;
  if is_src (pad_direction x) then pad_propagate_segment 257 src segment else mret ZST_ERROR.

(** ** Events downstream *)

(** What a pad keeps of an event that passes: the last of each sticky kind. *)
Definition store_sticky (p : nat) (ev : zst_pad_event_t) : M unit :=
  x ← get_pad p;
  let k := pad_stickies x in
  match ev with
  | ZST_PAD_EVENT_STREAM_START _ =>
      set_pad p (with_flow x (pad_policy x) (mk_sticky (Some ev) (sticky_caps k) (sticky_segment k)) (pad_jitters x))
  | ZST_PAD_EVENT_CAPS caps =>
      _ ← set_pad p (with_flow x (pad_policy x) (mk_sticky (sticky_stream_start k) (Some ev) (sticky_segment k)) (pad_jitters x));
      if is_some caps then _ ← zst_pad_set_caps stale_size p caps; mret tt else mret tt
  | ZST_PAD_EVENT_SEGMENT segment =>
      let x := with_flow x (pad_policy x) (mk_sticky (sticky_stream_start k) (sticky_caps k) (Some ev)) (pad_jitters x) in
      set_pad p (with_segment x true segment)
  | _ => mret tt
  end.

(** What a pad that receives the event takes over. *)
Definition apply_event (p : nat) (ev : zst_pad_event_t) : M unit :=
  match ev with
  | ZST_PAD_EVENT_CAPS caps => if is_some caps then _ ← zst_pad_set_caps stale_size p caps; mret tt else mret tt
  | ZST_PAD_EVENT_SEGMENT segment => modify_pad p (fun x => with_segment x true segment)
  | _ => mret tt
  end.

(** From a referenced pad along ghost pads to the pad they stand for, which is
    referenced instead; [visit] is applied on the way. *)
Fixpoint resolve_ghosts (n : nat) (visit : nat -> M unit) (p : nat) : M nat :=
  match n with
  | O => stuck
  | S n =>
      _ ← visit p;
      t ← zst_ghost_pad_get_target p;
      match t with
      | None => mret p
      | Some t =>
          _ ← zst_pad_ref t;
          _ ← zst_pad_unref p;
          resolve_ghosts n visit t
      end
  end.

(** More steps than there are pads means a cycle of ghost pads, followed for ever. *)
Definition resolve (visit : nat -> M unit) (p : nat) : M nat :=
  fun w => resolve_ghosts (S (size (w_pads w))) visit p w.

(** The ghost pad whose proxy this is, if it is one and the ghost is set. *)
Definition proxy_ghost (p : nat) : M (option nat) :=
  x ← get_pad p;
  match pad_parent x, pad_name x, pad_private x with
  | None, Some name, ProxyOf g => mret (if streq name "ghost-proxy-sink" then Some g else None)
  | _, _, _ => mret None
  end.

Fixpoint zst_pad_push_event_internal (room : nat) (src : nat) (ev : zst_pad_event_t) : M zst_result_t :=
  match room with
  | O => mret ZST_ERROR
  | S room =>
      x ← get_pad src;
      if negb (is_src (pad_direction x)) then mret ZST_ERROR
      else
        _ ← store_sticky src ev;
        r ← run src None ZST_PAD_PROBE_PRE_EVENT;
        if is_probe_drop r then mret ZST_OK
        else
          peer ← zst_pad_get_peer src;
          let post := _ ← run src None ZST_PAD_PROBE_POST_EVENT; mret ZST_OK in
          match peer with
          | None => post
          | Some q =>
              ghost ← proxy_ghost q;
              match ghost with
              | Some g => _ ← zst_pad_unref q; zst_pad_push_event_internal room g ev
              | None =>
                  q ← resolve (fun p => apply_event p ev) q;
                  r ← run q None ZST_PAD_PROBE_PRE_EVENT;
                  if is_probe_drop r then _ ← zst_pad_unref q; post
                  else
                    y ← get_pad q;
                    ret ← match pad_parent y with
                          | None => mret ZST_OK
                          | Some e =>
                              match op_event (env_ops E e) with
                              | Some h => h q ev
                              | None =>
                                  ps ← zst_element_snapshot_src_pads e;
                                  match ps with
                                  | None => mret ZST_OK
                                  | Some ps =>
                                      _ ← each_pad (fun s => zst_pad_push_event_internal room s ev) ps;
                                      _ ← zst_element_pad_snapshot_free ps;
                                      mret ZST_OK
                                  end
                              end
                          end;
                    _ ← run q None ZST_PAD_PROBE_POST_EVENT;
                    _ ← zst_pad_unref q;
                    if ret =? ZST_OK then post else mret ret
              end
          end
  end.

Definition zst_pad_push_event : nat -> zst_pad_event_t -> M zst_result_t := zst_pad_push_event_internal 257.

(** ** Events upstream *)

(** The first of the bin's sink pads that is a ghost of [sink]. *)
Fixpoint find_ghost (sink : nat) (ps : list nat) : M (option nat) :=
  match ps with
  | [] => mret None
  | p :: ps =>
      t ← zst_ghost_pad_get_target p;
      if decide (t = Some sink) then mret (Some p) else find_ghost sink ps
  end.

Definition bin_ghost (sink : nat) : M (option nat) :=
  x ← get_pad sink;
  match pad_parent x with
  | None => mret None
  | Some e =>
      el ← get_elem e;
      match el_parent_bin el with
      | None => mret None
      | Some b => bin ← get_elem b; find_ghost sink (el_sink_pads bin)
      end
  end.

Fixpoint zst_pad_push_event_upstream_internal (room : nat) (sink : nat) (ev : zst_pad_event_t) : M zst_result_t :=
  match room with
  | O => mret ZST_ERROR
  | S room =>
      x ← get_pad sink;
      if is_src (pad_direction x) then mret ZST_ERROR
      else
        r ← run sink None ZST_PAD_PROBE_PRE_EVENT;
        if is_probe_drop r then mret ZST_OK
        else
          peer ← zst_pad_get_peer sink;
          ghost ← match peer with Some _ => mret None | None => bin_ghost sink end;
          let post := _ ← run sink None ZST_PAD_PROBE_POST_EVENT; mret ZST_OK in
          match ghost, peer with
          | Some g, _ => zst_pad_push_event_upstream_internal room g ev
          | None, None => post
          | None, Some q =>
              q ← resolve (fun _ => mret tt) q;
              r ← run q None ZST_PAD_PROBE_PRE_EVENT;
              if is_probe_drop r then _ ← zst_pad_unref q; post
              else
                y ← get_pad q;
                ret ← match pad_parent y with
                      | None => mret ZST_ERROR
                      | Some e =>
                          ret ← match op_event (env_ops E e) with Some h => h q ev | None => mret ZST_ERROR end;
                          if ret =? ZST_OK then mret ZST_OK
                          else
                            ps ← zst_element_snapshot_sink_pads e;
                            _ ← match ps with
                                | None => mret tt
                                | Some ps =>
                                    _ ← each_pad (fun s => zst_pad_push_event_upstream_internal room s ev) ps;
                                    zst_element_pad_snapshot_free ps
                                end;
                            mret ZST_OK
                      end;
                _ ← run q None ZST_PAD_PROBE_POST_EVENT;
                _ ← zst_pad_unref q;
                if ret =? ZST_OK then post else mret ret
          end
  end.

Definition zst_pad_push_event_upstream : nat -> zst_pad_event_t -> M zst_result_t :=
  zst_pad_push_event_upstream_internal 257.

(** ** Links *)

Definition push_sticky (f : zst_pad_event_t -> M zst_result_t) (p : nat) (kind : pad_sticky -> option zst_pad_event_t)
    : M unit :=
  x ← get_pad p;
  match kind (pad_stickies x) with Some ev => _ ← f ev; mret tt | None => mret tt end.

Definition push_stickies (f : zst_pad_event_t -> M zst_result_t) (p : nat) : M unit :=
  _ ← push_sticky f p sticky_stream_start;
  _ ← push_sticky f p sticky_caps;
  push_sticky f p sticky_segment.

Definition zst_pad_push_sticky_events (p : nat) : M zst_result_t :=
  x ← get_pad p;
  if negb (is_src (pad_direction x)) || negb (is_some (pad_peer x)) then mret ZST_ERROR
  else _ ← push_stickies (fun ev => zst_pad_push_event_internal 256 p ev) p; mret ZST_OK.

(** The pipeline of a pad's element. *)
Definition pad_pipeline (p : nat) : M (option nat) :=
  x ← get_pad p;
  match pad_parent x with Some e => el ← get_elem e; mret (el_pipeline el) | None => mret None end.

Definition mark_dirty (pipe : option nat) : M unit :=
  match pipe with Some k => zst_pipeline_mark_buffer_pool_sizing_dirty k | None => mret tt end.

Definition link_pair (src sink : nat) : M bool :=
  x ← get_pad src;
  y ← get_pad sink;
  if is_some (pad_peer x) || is_some (pad_peer y) then mret false
  else
    _ ← zst_pad_ref sink;
    _ ← zst_pad_ref src;
    _ ← modify_pad src (fun x => with_link x (Some sink) true (pad_refcount x));
    _ ← modify_pad sink (fun y => with_link y (Some src) true (pad_refcount y));
    mret true.

Definition zst_pad_link (src sink : nat) : M zst_result_t :=
  x ← get_pad src;
  y ← get_pad sink;
  if negb (is_src (pad_direction x)) || is_src (pad_direction y) then mret ZST_ERROR
  else
    ret ← zst_pad_negotiate stale_size E src sink;
    if negb (ret =? ZST_OK) then mret ret
    else
      ok ← link_pair src sink;
      if negb ok then mret ZST_ERROR
      else
        _ ← push_stickies (zst_pad_push_event src) src;
        src_pipe ← pad_pipeline src;
        _ ← mark_dirty src_pipe;
        sink_pipe ← pad_pipeline sink;
        x ← get_pad src;
        _ ← (if is_some (pad_parent x) && bool_decide (sink_pipe = src_pipe) then mret tt else mark_dirty sink_pipe);
        mret ZST_OK.

Definition zst_pad_unlink (p : nat) : M unit :=
  peer ← zst_pad_get_peer p;
  match peer with
  | None => mret tt
  | Some q =>
      pad_pipe ← pad_pipeline p;
      peer_pipe ← pad_pipeline q;
      x ← get_pad p;
      _ ← (if decide (pad_peer x = Some q) then
             _ ← set_pad p (with_link x None false (pad_refcount x));
             y ← get_pad q;
             _ ← (if decide (pad_peer y = Some p) then set_pad q (with_link y None false (pad_refcount y))
                  else mret tt);
             _ ← mark_dirty pad_pipe;
             _ ← (if bool_decide (peer_pipe = pad_pipe) then mret tt else mark_dirty peer_pipe);
             _ ← zst_pad_unref q;
             zst_pad_unref p
           else mret tt);
      zst_pad_unref q
  end.
End flow.
