(* ===== verification/PadPush.v ===== *)
(** * Buffers through the graph: [src/zst_pad.c], ghost pads of [src/zst_bin.c]

    [zst_pad_push] hands a buffer to the peer's [push], which runs the element's
    handler and pushes its result on; [zst_pad_pull] asks the other way round.  The
    calls recurse along the graph: [n] bounds their nesting. *)

From Stdlib Require Import String SpecFloat.
From S2P Require Import Prelude CLib Pad Caps Graph PadOps PadFlow.

Local Open Scope Z_scope.

Section push.
Context {U : Type} `{CMemory} (stale_size : caps_value -> Z) (E : env U) (rounds : nat).
Local Notation M := (M U).
Local Notation run := (pad_run_probes E rounds).

(** ** References to buffers *)

Definition zst_buffer_ref (b : nat) : M unit := x ← get_buf b; set_buf b (mk_zbuf (zb_buffer x) (s32 (zb_refcount x + 1))).

Definition drop_buf (b : nat) : M unit := fun w => Done (tt, put_bufs w (base.delete b (w_bufs w))).

Definition zst_buffer_unref (b : nat) : M unit :=
  x ← get_buf b;
  if zb_refcount x =? 1 then drop_buf b else set_buf b (mk_zbuf (zb_buffer x) (s32 (zb_refcount x - 1))).

Definition buffer_flag (b : nat) (bit : Z) : M bool := x ← get_buf b; mret (has_flag (buf_flags (zb_buffer x)) bit).

Definition set_flag (b : nat) (bit : Z) : M unit :=
  x ← get_buf b;
  let v := zb_buffer x in
  set_buf b (mk_zbuf (mk_buffer (buf_type v) (Z.lor (buf_flags v) bit) (buf_pts v) (buf_dts v) (buf_duration v)
                        (mem_data v) (mem_size v)) (zb_refcount x)).

(** ** Segments and jitter *)

Definition in_segment (has : bool) (segment : zst_segment_t) (v : zst_buffer) : bool :=
  if has_flag (buf_flags v) ZST_BUFFER_FLAG_EOS then true
  else if negb has then true
  else
    let pts := buf_pts v in
    let stop := seg_stop segment in
    if 0 <? buf_duration v then
      if u64 (pts + buf_duration v) <=? seg_start segment then false
      else negb (negb (stop =? ZST_SEGMENT_STOP_NONE) && (stop <=? pts))
    else if pts <? seg_start segment then false
    else negb (negb (stop =? ZST_SEGMENT_STOP_NONE) && (stop <=? pts)).

Definition pad_buffer_in_segment (p b : nat) : M bool :=
  y ← get_buf b;
  x ← get_pad p;
  mret (in_segment (pad_has_segment x) (pad_segment x) (zb_buffer y)).

(** One step of the jitter estimate of RFC 3550 at time [now]. *)
Definition jitter_step (j : pad_jitter) (now pts : Z) : pad_jitter :=
  let transit := s64 (s64 now - s64 pts) in
  let count := u64 (jitter_buffer_count j + 1) in
  if 0 <? jitter_buffer_count j then
    let diff := s64 (transit - last_transit_time j) in
    let diff := if diff <? 0 then s64 (- diff) else diff in
    let ns := d_add (media_jitter_ns j) (d_div (d_sub (d_of_Z diff) (media_jitter_ns j)) (d_of_Z 16)) in
    mk_jitter transit ns count
  else mk_jitter transit (media_jitter_ns j) count.

Definition pad_clock (p : nat) : M (option nat) :=
  x ← get_pad p;
  match pad_parent x with Some e => el ← get_elem e; mret (el_clock el) | None => mret None end.

Definition track_jitter (p b : nat) : M unit :=
  clock ← pad_clock p;
  y ← get_buf b;
  let v := zb_buffer y in
  match clock with
  | Some c =>
      if (buf_pts v =? UINT64_MAX) || (buf_pts v =? 0) || has_flag (buf_flags v) ZST_BUFFER_FLAG_EOS then mret tt
      else
        now ← env_time E c;
        modify_pad p (fun x => with_flow x (pad_policy x) (pad_stickies x) (jitter_step (pad_jitters x) now (buf_pts v)))
  | None => mret tt
  end.

(** ** Push *)

(** What a source pad without a peer does with a buffer: a result, or the peer that
    appeared while it waited. *)
Definition push_unlinked (p : nat) : M (zst_result_t + nat) :=
  x ← get_pad p;
  let k := pad_policy x in
  match unlinked_policy k with
  | ZST_PAD_UNLINKED_DROP => mret (inl ZST_OK)
  | ZST_PAD_UNLINKED_BLOCK =>
      linked ← env_linked E p;
      if linked : bool then
        x ← get_pad p;
        match pad_peer x with
        | Some q => _ ← zst_pad_ref q; mret (inr q)
        | None => stuck
        end
      else mret (inl ZST_TIMEOUT)
  | ZST_PAD_UNLINKED_QUEUE =>
      if queued_count k <? max_queued k then
        let k := mk_unlinked (max_queued k) (u32 (queued_count k + 1)) (unlinked_policy k) in
        _ ← set_pad p (with_flow x k (pad_stickies x) (pad_jitters x));
        mret (inl ZST_OK)
      else mret (inl ZST_ERROR)
  | ZST_PAD_UNLINKED_ERROR => mret (inl ZST_ERROR)
  end.

(** [zst_pad_push], once the peer is referenced; [call] is the peer's [push]. *)
Definition push_to_peer (call : nat -> nat -> M zst_result_t) (p q b : nat) : M zst_result_t :=
  in_p ← pad_buffer_in_segment p b;
  in_q ← (if in_p : bool then pad_buffer_in_segment q b else mret false);
  if negb in_q then _ ← zst_pad_unref q; mret ZST_OK
  else
    _ ← track_jitter p b;
    r ← run p (Some b) ZST_PAD_PROBE_PRE_BUFFER;
    if is_probe_drop r then _ ← zst_pad_unref q; mret ZST_OK
    else
      r ← run q (Some b) ZST_PAD_PROBE_PRE_BUFFER;
      if is_probe_drop r then _ ← zst_pad_unref q; mret ZST_OK
      else
        y ← get_pad q;
        ret ← (if is_some (pad_push_op y) then call q b else mret ZST_ERROR);
        _ ← (if ret =? ZST_OK then
               _ ← run q (Some b) ZST_PAD_PROBE_POST_BUFFER;
               _ ← run p (Some b) ZST_PAD_PROBE_POST_BUFFER;
               mret tt
             else mret tt);
        _ ← zst_pad_unref q;
        mret ret.

Definition push_with (call : nat -> nat -> M zst_result_t) (p b : nat) : M zst_result_t :=
  x ← get_pad p;
  if negb (is_src (pad_direction x)) then mret ZST_ERROR
  else
    peer ← zst_pad_get_peer p;
    found ← match peer with Some q => mret (inr q) | None => push_unlinked p end;
    match found with
    | inl ret => mret ret
    | inr q => push_to_peer call p q b
    end.

(** A reference to the element's first pad, if it has one. *)
Definition first_pad_ref (pads : zst_element -> list nat) (e : nat) : M (option nat) :=
  el ← get_elem e;
  match pads el with
  | p :: _ => _ ← zst_pad_ref p; mret (Some p)
  | [] => mret None
  end.

Definition zst_element_get_first_src_pad_ref : nat -> M (option nat) := first_pad_ref el_src_pads.
Definition zst_element_get_first_sink_pad_ref : nat -> M (option nat) := first_pad_ref el_sink_pads.

Definition unref_opt (p : option nat) : M unit := match p with Some p => zst_pad_unref p | None => mret tt end.

Definition post_if_bus (e : nat) (ev : bus_event) : M unit :=
  el ← get_elem e;
  if el_bus el then zst_bus_post ev else mret tt.

Definition update_sizing (e : nat) : M unit :=
  el ← get_elem e;
  match el_pipeline el with Some k => env_pool_sizing E k e | None => mret tt end.

(** The results that are not reported as errors. *)
Definition expected (ret : zst_result_t) : bool :=
  (ret =? ZST_OK) || (ret =? ZST_EOF) || (ret =? ZST_TIMEOUT) || (ret =? ZST_AGAIN).

(** A sink waits for an early buffer's time and drops a late one: whether it is dropped. *)
Definition sync_sink (e : nat) (first : option nat) (b : nat) : M bool :=
  el ← get_elem e;
  y ← get_buf b;
  let pts := buf_pts (zb_buffer y) in
  match first, el_clock el with
  | None, Some c =>
      if pts <=? 0 then mret false
      else
        current ← env_time E c;
        if u64 (current + 5000000) <? pts then
          _ ← (if u64 (pts - current) <? 5000000000 then env_clock_wait E c (u64 (pts - current)) else mret tt);
          mret false
        else if (pts <? u64 (current - 100000000)) && (u64 (current - pts) <? 5000000000) then
          _ ← set_flag b ZST_BUFFER_FLAG_DROP;
          _ ← post_if_bus e (EventWarning e ZST_ERROR);
          mret true
        else mret false
  | _, _ => mret false
  end.

Definition process (e : nat) (input : option nat) : M (zst_result_t * option nat) :=
  match op_process (env_ops E e) with Some f => f input | None => mret (ZST_OK, None) end.

(** What [process] gave is pushed on; the reference it came with is dropped. *)
Definition push_output (push : nat -> nat -> M zst_result_t) (s b out : nat) : M zst_result_t :=
  ret ← push s out;
  _ ← (if (out =? b)%nat then
         y ← get_buf out;
         if 1 <? zb_refcount y then zst_buffer_unref out else mret tt
       else zst_buffer_unref out);
  mret ret.

Definition default_sink_pad_push (push : nat -> nat -> M zst_result_t) (p b : nat) : M zst_result_t :=
  x ← get_pad p;
  match pad_parent x with
  | None => mret ZST_ERROR
  | Some e =>
      first ← zst_element_get_first_src_pad_ref e;
      drop ← buffer_flag b ZST_BUFFER_FLAG_DROP;
      eos ← buffer_flag b ZST_BUFFER_FLAG_EOS;
      if drop || eos then
        match first with
        | Some s => ret ← push s b; _ ← zst_pad_unref s; mret ret
        | None => _ ← (if drop : bool then mret tt else post_if_bus e (EventEos e)); mret ZST_OK
        end
      else
        late ← sync_sink e first b;
        if late : bool then mret ZST_OK
        else
          _ ← update_sizing e;
          '(ret, out) ← process e (Some b);
          ret ← match out, first with
                | Some o, Some s => if ret =? ZST_OK then push_output push s b o else mret ret
                | _, _ => mret ret
                end;
          _ ← unref_opt first;
          _ ← (if ret =? ZST_OK then update_sizing e else mret tt);
          _ ← (if expected ret then mret tt else post_if_bus e (EventError e ret));
          mret ret
  end.

(** ** Ghost pads *)

Definition ghost_eos (p : nat) : M bool :=
  x ← get_pad p;
  match pad_private x with
  | GhostPriv _ _ eos => mret eos
  | ProxyOf g => _ ← get_pad g; mret true
  | NoPriv => mret true
  end.

Fixpoint all_eos (ps : list nat) : M bool :=
  match ps with [] => mret true | p :: ps => eos ← ghost_eos p; if eos : bool then all_eos ps else mret false end.

Definition bin_all_sink_ghosts_eos (e : nat) : M bool := el ← get_elem e; all_eos (el_sink_pads el).

Definition put_bin (e : nat) (b : zst_bin_priv_t) : M unit :=
  el ← get_elem e;
  set_elem e (mk_element (el_state el) (el_src_pads el) (el_sink_pads el) (el_bus el) (el_pipeline el) (el_clock el)
                (el_parent_bin el) (Some b)).

Definition bin_post_eos_once (parent : option nat) : M unit :=
  match parent with
  | None => mret tt
  | Some e =>
      el ← get_elem e;
      match el_bin el with
      | Some b =>
          if bin_eos_posted b then mret tt
          else
            _ ← put_bin e (mk_bin (bin_children b) true (bin_eos_forwarded b));
            post_if_bus e (EventEos e)
      | None => mret tt
      end
  end.

(** The end of the stream goes to each branch; the first error is the result. *)
Fixpoint push_branches (call : nat -> nat -> M zst_result_t) (ps : list nat) (b : nat) (first_error : zst_result_t)
    : M zst_result_t :=
  match ps with
  | [] => mret first_error
  | p :: ps =>
      t ← zst_ghost_pad_get_target p;
      match t with
      | None => push_branches call ps b first_error
      | Some t =>
          y ← get_pad t;
          if is_some (pad_push_op y) then
            ret ← call t b;
            push_branches call ps b (if negb (ret =? ZST_OK) && (first_error =? ZST_OK) then ret else first_error)
          else push_branches call ps b first_error
      end
  end.

Definition set_eos_seen (p : nat) (seen : bool) : M unit :=
  modify_pad p (fun x =>
    match pad_private x with
    | GhostPriv target proxy _ => with_ops x (pad_push_op x) (pad_pull_op x) (GhostPriv target proxy seen)
    | _ => x
    end).

Definition ghost_sink_eos (call : nat -> nat -> M zst_result_t) (p b : nat) : M zst_result_t :=
  _ ← set_eos_seen p true;
  x ← get_pad p;
  match pad_parent x with
  | None => mret ZST_ERROR
  | Some e =>
      all ← bin_all_sink_ghosts_eos e;
      if negb all then mret ZST_OK
      else
        el ← get_elem e;
        match el_bin el with
        | None => mret ZST_ERROR
        | Some bp =>
            if bin_eos_forwarded bp then mret ZST_OK
            else
              _ ← put_bin e (mk_bin (bin_children bp) (bin_eos_posted bp) true);
              ret ← push_branches call (el_sink_pads el) b ZST_OK;
              el ← get_elem e;
              _ ← (if (ret =? ZST_OK) && (zlen (el_src_pads el) =? 0) then bin_post_eos_once (Some e) else mret tt);
              mret ret
        end
  end.

Definition ghost_sink_push (call : nat -> nat -> M zst_result_t) (p b : nat) : M zst_result_t :=
  t ← zst_ghost_pad_get_target p;
  match t with
  | None => mret ZST_ERROR
  | Some t =>
      y ← get_pad t;
      if is_src (pad_direction y) || negb (is_some (pad_push_op y)) then mret ZST_ERROR
      else
        eos ← buffer_flag b ZST_BUFFER_FLAG_EOS;
        if eos : bool then ghost_sink_eos call p b else call t b
  end.

Definition ghost_src_proxy_push (push : nat -> nat -> M zst_result_t) (proxy b : nat) : M zst_result_t :=
  x ← get_pad proxy;
  match pad_private x with
  | ProxyOf g =>
      y ← get_pad g;
      match pad_private y with
      | GhostPriv _ _ _ =>
          eos ← buffer_flag b ZST_BUFFER_FLAG_EOS;
          if pad_linked y then
            ret ← push g b;
            eos ← (if ret =? ZST_OK then buffer_flag b ZST_BUFFER_FLAG_EOS else mret false);
            y ← get_pad g;
            _ ← (if (ret =? ZST_OK) && eos then bin_post_eos_once (pad_parent y) else mret tt);
            mret ret
          else if eos : bool then _ ← bin_post_eos_once (pad_parent y); mret ZST_OK
          else mret ZST_ERROR
      | _ => mret ZST_ERROR
      end
  | _ => mret ZST_ERROR
  end.

(** A pad's [push] member. *)
Fixpoint call_push (n : nat) (p b : nat) : M zst_result_t :=
  match n with
  | O => stuck
  | S n =>
      x ← get_pad p;
      match pad_push_op x with
      | None => fault
      | Some DefaultSinkPush => default_sink_pad_push (push_with (call_push n)) p b
      | Some GhostSinkPush => ghost_sink_push (call_push n) p b
      | Some GhostProxyPush => ghost_src_proxy_push (push_with (call_push n)) p b
      | Some ElementPush => env_push E p b
      end
  end.

Definition zst_pad_push (n : nat) (p b : nat) : M zst_result_t := push_with (call_push n) p b.

(** ** Pull *)

(** The probes and segments a pulled buffer passes: whether it is refused. *)
Definition pull_refused (p q b : nat) : M bool :=
  in_q ← pad_buffer_in_segment q b;
  in_p ← (if in_q : bool then pad_buffer_in_segment p b else mret false);
  if negb in_p then mret true
  else
    r ← run q (Some b) ZST_PAD_PROBE_PRE_BUFFER;
    if is_probe_drop r then mret true
    else
      r ← run p (Some b) ZST_PAD_PROBE_PRE_BUFFER;
      if is_probe_drop r then mret true
      else
        r ← run p (Some b) ZST_PAD_PROBE_POST_BUFFER;
        if is_probe_drop r then mret true
        else
          r ← run q (Some b) ZST_PAD_PROBE_POST_BUFFER;
          mret (is_probe_drop r).

Definition pull_with (call : nat -> M (zst_result_t * option nat)) (p : nat) : M (zst_result_t * option nat) :=
  x ← get_pad p;
  if is_src (pad_direction x) then mret (ZST_ERROR, None)
  else
    peer ← zst_pad_get_peer p;
    match peer with
    | None => mret (ZST_ERROR, None)
    | Some q =>
        y ← get_pad q;
        if negb (is_some (pad_pull_op y)) then _ ← zst_pad_unref q; mret (ZST_ERROR, None)
        else
          '(ret, out) ← call q;
          match out with
          | Some b =>
              if negb (ret =? ZST_OK) then _ ← zst_pad_unref q; mret (ret, Some b)
              else
                refused ← pull_refused p q b;
                if refused : bool then
                  _ ← zst_buffer_unref b;
                  _ ← zst_pad_unref q;
                  mret (ZST_AGAIN, None)
                else _ ← zst_pad_unref q; mret (ret, Some b)
          | None => _ ← zst_pad_unref q; mret (ret, None)
          end
    end.

Definition pull_done (e : nat) (ret : zst_result_t) (out : option nat) : M (zst_result_t * option nat) :=
  if ret =? ZST_OK then _ ← update_sizing e; mret (ret, out)
  else _ ← (if expected ret then mret tt else post_if_bus e (EventError e ret)); mret (ret, None).

Definition default_src_pad_pull (pull : nat -> M (zst_result_t * option nat)) (p : nat) : M (zst_result_t * option nat) :=
  x ← get_pad p;
  match pad_parent x with
  | None => mret (ZST_ERROR, None)
  | Some e =>
      _ ← update_sizing e;
      first ← zst_element_get_first_sink_pad_ref e;
      match first with
      | None =>
          '(ret, out) ← process e None;
          pull_done e ret out
      | Some s =>
          '(ret, input) ← pull s;
          if negb (ret =? ZST_OK) then
            _ ← (if expected ret then mret tt else post_if_bus e (EventError e ret));
            _ ← zst_pad_unref s;
            mret (ret, None)
          else
            eos ← match input with Some b => buffer_flag b ZST_BUFFER_FLAG_EOS | None => mret false end;
            if eos : bool then _ ← zst_pad_unref s; mret (ZST_OK, input)
            else
              '(ret, out) ← process e input;
              _ ← match input with Some b => zst_buffer_unref b | None => mret tt end;
              _ ← zst_pad_unref s;
              pull_done e ret out
      end
  end.

Definition ghost_src_pull (call : nat -> M (zst_result_t * option nat)) (p : nat) : M (zst_result_t * option nat) :=
  t ← zst_ghost_pad_get_target p;
  match t with
  | None => mret (ZST_ERROR, None)
  | Some t =>
      y ← get_pad t;
      if negb (is_src (pad_direction y)) || negb (is_some (pad_pull_op y)) then mret (ZST_ERROR, None)
      else
        '(ret, out) ← call t;
        eos ← match out with
              | Some b => if ret =? ZST_OK then buffer_flag b ZST_BUFFER_FLAG_EOS else mret false
              | None => mret false
              end;
        x ← get_pad p;
        _ ← (if eos : bool then bin_post_eos_once (pad_parent x) else mret tt);
        mret (ret, out)
  end.

(** A pad's [pull] member. *)
Fixpoint call_pull (n : nat) (p : nat) : M (zst_result_t * option nat) :=
  match n with
  | O => stuck
  | S n =>
      x ← get_pad p;
      match pad_pull_op x with
      | None => fault
      | Some DefaultSrcPull => default_src_pad_pull (pull_with (call_pull n)) p
      | Some GhostSrcPull => ghost_src_pull (call_pull n) p
      | Some ElementPull => env_pull E p
      end
  end.

Definition zst_pad_pull (n : nat) (p : nat) : M (zst_result_t * option nat) := pull_with (call_pull n) p.

(** ** Creating ghost pads *)

Definition set_ghost (p : nat) (target proxy : option nat) (eos : bool) : M unit :=
  modify_pad p (fun x => with_ops x (pad_push_op x) (pad_pull_op x) (GhostPriv target proxy eos)).

Definition zst_ghost_pad_set_target (g target : nat) : M zst_result_t :=
  x ← get_pad g;
  y ← get_pad target;
  match pad_private x with
  | GhostPriv old proxy eos =>
      if bool_decide (pad_direction x = pad_direction y) then
        _ ← match proxy with Some q => _ ← zst_pad_unref q; set_ghost g old None eos | None => mret tt end;
        _ ← set_ghost g (Some target) None false;
        if is_src (pad_direction y) then
          proxy ← zst_pad_create (Some "ghost-proxy-sink"%string) ZST_PAD_SINK;
          match proxy with
          | None => _ ← set_ghost g None None false; mret ZST_ERROR
          | Some q =>
              _ ← modify_pad q (fun z => with_ops z (Some GhostProxyPush) None (ProxyOf g));
              ret ← zst_pad_link stale_size E rounds target q;
              if ret =? ZST_OK then _ ← set_ghost g (Some target) (Some q) false; mret ZST_OK
              else
                _ ← modify_pad q (fun z => with_ops z (pad_push_op z) (pad_pull_op z) NoPriv);
                _ ← zst_pad_unref q;
                _ ← set_ghost g None None false;
                mret ZST_ERROR
          end
        else mret ZST_OK
      else mret ZST_ERROR
  | ProxyOf o => _ ← get_pad o; mret ZST_ERROR
  | NoPriv => mret ZST_ERROR
  end.

Definition SIZEOF_GHOST_PRIV : Z := 32.

Definition zst_ghost_pad_create (name : option string) (target : nat) : M (option nat) :=
  y ← get_pad target;
  pad ← zst_pad_create name (pad_direction y);
  match pad with
  | None => mret None
  | Some g =>
      if negb (malloc_ok SIZEOF_GHOST_PRIV) then _ ← zst_pad_unref g; mret None
      else
        _ ← modify_pad g (fun x =>
              match pad_direction x with
              | ZST_PAD_SINK => with_ops x (Some GhostSinkPush) None (GhostPriv None None false)
              | ZST_PAD_SRC => with_ops x None (Some GhostSrcPull) (GhostPriv None None false)
              end);
        ret ← zst_ghost_pad_set_target g target;
        if ret =? ZST_OK then mret (Some g) else _ ← zst_pad_unref g; mret None
  end.
End push.
