(* ===== verification/Element.v ===== *)
(** * Elements and bins: [src/zst_element.c], [src/zst_bin.c]

    The state machine NULL - READY - PAUSED - PLAYING, which bins pass on to their
    children, the pads of an element, membership in bins, seeking, destruction.  [n]
    bounds the nesting of calls, bins within bins included.  Reference counts of clocks
    and plugins, and the elements' private data, are not part of the model. *)

From Stdlib Require Import String SpecFloat.
From S2P Require Import Prelude CLib Pad Caps Graph PadOps PadFlow PadPush.

Local Open Scope Z_scope.

Section elements.
Context {U : Type} `{CMemory} (stale_size : caps_value -> Z) (E : env U) (rounds : nat).
Local Notation M := (M U).

(** ** Stores to the members *)

Definition with_state (x : zst_element) (s : zst_state_t) : zst_element :=
  mk_element s (el_src_pads x) (el_sink_pads x) (el_bus x) (el_pipeline x) (el_clock x) (el_parent_bin x) (el_bin x).
Definition with_pads (x : zst_element) (srcs sinks : list nat) : zst_element :=
  mk_element (el_state x) srcs sinks (el_bus x) (el_pipeline x) (el_clock x) (el_parent_bin x) (el_bin x).
Definition with_context (x : zst_element) (bus : bool) (pipeline clock : option nat) : zst_element :=
  mk_element (el_state x) (el_src_pads x) (el_sink_pads x) bus pipeline clock (el_parent_bin x) (el_bin x).
Definition with_parent_bin (x : zst_element) (parent : option nat) : zst_element :=
  mk_element (el_state x) (el_src_pads x) (el_sink_pads x) (el_bus x) (el_pipeline x) (el_clock x) parent (el_bin x).

Definition modify_elem (e : nat) (f : zst_element -> zst_element) : M unit := x ← get_elem e; set_elem e (f x).

Definition SIZEOF_ELEMENT : Z := 320.

(** Creation, with the token the scheduler uses. *)
Definition zst_element_create : M (option nat) :=
  if malloc_ok SIZEOF_ELEMENT && malloc_ok SIZEOF_BUFFER then
    e ← fresh;
    _ ← set_elem e (mk_element ZST_STATE_NULL [] [] false None None None None);
    mret (Some e)
  else mret None.

Definition zst_element_set_clock (e : nat) (clock : option nat) : M unit :=
  modify_elem e (fun x => with_context x (el_bus x) (el_pipeline x) clock).

(** ** Pads of an element *)

Definition zst_element_add_pad (e p : nat) : M zst_result_t :=
  _ ← modify_pad p (fun x => with_parent x (Some e));
  x ← get_pad p;
  el ← get_elem e;
  if is_src (pad_direction x) then
    if malloc_ok ((zlen (el_src_pads el) + 1) * SIZEOF_POINTER) then
      _ ← set_elem e (with_pads el (el_src_pads el ++ [p]) (el_sink_pads el)); mret ZST_OK
    else mret ZST_ERROR
  else
    if malloc_ok ((zlen (el_sink_pads el) + 1) * SIZEOF_POINTER) then
      _ ← set_elem e (with_pads el (el_src_pads el) (el_sink_pads el ++ [p])); mret ZST_OK
    else mret ZST_ERROR.

(** The list without the first occurrence of [p], if there is one. *)
Fixpoint remove_first (p : nat) (l : list nat) : option (list nat) :=
  match l with
  | [] => None
  | q :: l => if (q =? p)%nat then Some l else cons q <$> remove_first p l
  end.

Definition zst_element_remove_pad (e p : nat) : M zst_result_t :=
  x ← get_pad p;
  el ← get_elem e;
  let rest := if is_src (pad_direction x)
              then (fun l => with_pads el l (el_sink_pads el)) <$> remove_first p (el_src_pads el)
              else (fun l => with_pads el (el_src_pads el) l) <$> remove_first p (el_sink_pads el) in
  match rest with
  | None => mret ZST_ERROR
  | Some el =>
      _ ← set_elem e el;
      _ ← zst_pad_unlink p;
      _ ← modify_pad p (fun x => with_parent x None);
      _ ← zst_pad_unref p;
      mret ZST_OK
  end.

(** The first pad of that name, source pads first. *)
Fixpoint find_pad (name : string) (ps : list nat) : M (option nat) :=
  match ps with
  | [] => mret None
  | p :: ps =>
      x ← get_pad p;
      match pad_name x with
      | Some n => if streq n name then mret (Some p) else find_pad name ps
      | None => find_pad name ps
      end
  end.

Definition zst_element_get_pad (e : nat) (name : string) : M (option nat) :=
  el ← get_elem e;
  p ← find_pad name (el_src_pads el);
  if is_some p then mret p else find_pad name (el_sink_pads el).

(** ** The state machine *)

Inductive hook := OPEN | CLOSE | START | STOP | PREROLL | UNPREROLL.

(** The hook of a step between neighbouring states. *)
Definition step_hook (old new : zst_state_t) : option hook :=
  match old, new with
  | ZST_STATE_NULL, ZST_STATE_READY => Some OPEN
  | ZST_STATE_READY, ZST_STATE_PAUSED => Some PREROLL
  | ZST_STATE_PAUSED, ZST_STATE_PLAYING => Some START
  | ZST_STATE_PLAYING, ZST_STATE_PAUSED => Some STOP
  | ZST_STATE_PAUSED, ZST_STATE_READY => Some UNPREROLL
  | ZST_STATE_READY, ZST_STATE_NULL => Some CLOSE
  | _, _ => None
  end.

Definition hook_op (ops : zst_element_ops_t U) (h : hook) : option (M zst_result_t) :=
  match h with
  | OPEN => op_open ops
  | CLOSE => op_close ops
  | START => op_start ops
  | STOP => op_stop ops
  | PREROLL => op_preroll ops
  | UNPREROLL => op_unpreroll ops
  end.

(** A hook that is NULL succeeds. *)
Definition run_hook (e : nat) (h : option hook) : M zst_result_t :=
  match h with
  | None => mret ZST_OK
  | Some h => match hook_op (env_ops E e) h with Some f => f | None => mret ZST_OK end
  end.

Definition bin_sync_child_context (bin child : nat) : M unit :=
  b ← get_elem bin;
  modify_elem child (fun x => with_context x (el_bus b) (el_pipeline b) (el_clock b)).

Fixpoint sync_children (bin : nat) (cs : list nat) : M unit :=
  match cs with [] => mret tt | c :: cs => _ ← bin_sync_child_context bin c; sync_children bin cs end.

Fixpoint reset_ghosts (ps : list nat) : M unit :=
  match ps with
  | [] => mret tt
  | p :: ps =>
      _ ← zst_ghost_pad_get_target p;
      _ ← set_eos_seen p false;
      reset_ghosts ps
  end.

Definition bin_reset_eos (e : nat) : M unit :=
  el ← get_elem e;
  _ ← match el_bin el with
      | Some b => put_bin e (mk_bin (bin_children b) false false)
      | None => mret tt
      end;
  reset_ghosts (el_sink_pads el).

(** The children one after the other; when one fails, those before it go back. *)
Fixpoint change_children (set_state : nat -> zst_state_t -> M zst_result_t) (bin : nat) (old new : zst_state_t)
    (before cs : list nat) : M zst_result_t :=
  match cs with
  | [] => mret ZST_OK
  | c :: cs =>
      ret ← set_state c new;
      if ret =? ZST_OK then change_children set_state bin old new (before ++ [c]) cs
      else
        _ ← each_pad (fun d => set_state d old) before;
        _ ← post_if_bus bin (EventError c ret);
        mret ret
  end.

Definition bin_change_state (set_state : nat -> zst_state_t -> M zst_result_t) (e : nat) (old new : zst_state_t)
    (b : zst_bin_priv_t) : M zst_result_t :=
  _ ← sync_children e (bin_children b);
  _ ← (if state_num ZST_STATE_READY <=? state_num new then bin_reset_eos e else mret tt);
  change_children set_state e old new [] (bin_children b).

(** A step between neighbouring states. *)
Definition single_step (set_state : nat -> zst_state_t -> M zst_result_t) (e : nat) (old new : zst_state_t)
    : M zst_result_t :=
  ret ← run_hook e (step_hook old new);
  if negb (ret =? ZST_OK) then mret ret
  else
    el ← get_elem e;
    ret ← match el_bin el with
          | None => mret ZST_OK
          | Some b =>
              ret ← bin_change_state set_state e old new b;
              if ret =? ZST_OK then mret ZST_OK
              else _ ← run_hook e (step_hook new old); mret ret
          end;
    if negb (ret =? ZST_OK) then mret ret
    else
      _ ← modify_elem e (fun x => with_state x new);
      el ← get_elem e;
      _ ← (match new, el_pipeline el with
           | ZST_STATE_PLAYING, Some k => env_scheduler_wake E k
           | _, _ => mret tt
           end);
      _ ← post_if_bus e (EventStateChanged e old new);
      mret ZST_OK.

(** Upwards over [mid]: back to the start when the second part fails. *)
Definition climb (set_state : nat -> zst_state_t -> M zst_result_t) (e : nat) (old mid new : zst_state_t)
    : M zst_result_t :=
  ret ← set_state e mid;
  if negb (ret =? ZST_OK) then mret ret
  else
    ret ← set_state e new;
    if ret =? ZST_OK then mret ret else _ ← set_state e old; mret ret.

(** Downwards over [mid]. *)
Definition descend (set_state : nat -> zst_state_t -> M zst_result_t) (e : nat) (mid new : zst_state_t)
    : M zst_result_t :=
  ret ← set_state e mid;
  if negb (ret =? ZST_OK) then mret ret else set_state e new.

Fixpoint zst_element_set_state (n : nat) (e : nat) (state : zst_state_t) : M zst_result_t :=
  match n with
  | O => stuck
  | S n =>
      el ← get_elem e;
      let self := zst_element_set_state n in
      match el_state el, state with
      | ZST_STATE_NULL, ZST_STATE_NULL | ZST_STATE_READY, ZST_STATE_READY
      | ZST_STATE_PAUSED, ZST_STATE_PAUSED | ZST_STATE_PLAYING, ZST_STATE_PLAYING => mret ZST_OK
      | ZST_STATE_NULL, (ZST_STATE_PAUSED | ZST_STATE_PLAYING) => climb self e ZST_STATE_NULL ZST_STATE_READY state
      | ZST_STATE_READY, ZST_STATE_PLAYING => climb self e ZST_STATE_READY ZST_STATE_PAUSED state
      | ZST_STATE_PLAYING, (ZST_STATE_NULL | ZST_STATE_READY) => descend self e ZST_STATE_PAUSED state
      | ZST_STATE_PAUSED, ZST_STATE_NULL => descend self e ZST_STATE_READY state
      | old, new => single_step self e old new
      end
  end.

(** ** Bins *)

Definition zst_bin_create (name : option string) : M (option nat) :=
  if negb (malloc_ok 40) then mret None
  else
    e ← zst_element_create;
    match e with
    | None => mret None
    | Some e => _ ← put_bin e (mk_bin [] false false); mret (Some e)
    end.

Definition clear_context (e : nat) : M unit :=
  modify_elem e (fun x => with_parent_bin (with_context x false None None) None).

Definition put_children (e : nat) (b : zst_bin_priv_t) (cs : list nat) : M unit :=
  put_bin e (mk_bin cs (bin_eos_posted b) (bin_eos_forwarded b)).

(** [grow_ok] is the answer of [realloc], when the array is full. *)
Definition zst_bin_add (n : nat) (grow_ok : bool) (bin child : nat) : M zst_result_t :=
  el ← get_elem bin;
  match el_bin el with
  | None => mret ZST_ERROR
  | Some b =>
      if existsb (Nat.eqb child) (bin_children b) then mret ZST_ERROR
      else if negb grow_ok then mret ZST_ERROR
      else
        _ ← modify_elem child (fun x => with_parent_bin x (Some bin));
        _ ← bin_sync_child_context bin child;
        _ ← put_children bin b (bin_children b ++ [child]);
        el ← get_elem bin;
        match el_state el with
        | ZST_STATE_NULL => mret ZST_OK
        | state =>
            ret ← zst_element_set_state n child state;
            if ret =? ZST_OK then mret ZST_OK
            else
              el ← get_elem bin;
              _ ← match el_bin el with
                  | Some b => put_children bin b (take (length (bin_children b) - 1) (bin_children b))
                  | None => mret tt
                  end;
              _ ← clear_context child;
              mret ret
        end
  end.

Definition zst_bin_remove (n : nat) (bin child : nat) : M zst_result_t :=
  el ← get_elem bin;
  match el_bin el with
  | None => mret ZST_ERROR
  | Some b =>
      if negb (existsb (Nat.eqb child) (bin_children b)) then mret ZST_ERROR
      else
        _ ← zst_element_set_state n child ZST_STATE_NULL;
        _ ← clear_context child;
        el ← get_elem bin;
        _ ← match el_bin el with
            | Some b => put_children bin b (default (bin_children b) (remove_first child (bin_children b)))
            | None => mret tt
            end;
        mret ZST_OK
  end.

Definition zst_bin_get_child_count (bin : nat) : M Z :=
  el ← get_elem bin; mret (match el_bin el with Some b => zlen (bin_children b) | None => 0 end).

Definition zst_bin_get_child (bin : nat) (index : nat) : M (option nat) :=
  el ← get_elem bin; mret (match el_bin el with Some b => bin_children b !! index | None => None end).

Definition zst_bin_add_ghost_pad (bin g : nat) : M zst_result_t :=
  el ← get_elem bin;
  x ← get_pad g;
  match el_bin el, pad_private x with
  | Some _, GhostPriv _ _ _ => zst_element_add_pad bin g
  | _, ProxyOf o => _ ← get_pad o; mret ZST_ERROR
  | _, _ => mret ZST_ERROR
  end.

(** ** Destruction *)

Fixpoint release_pads (ps : list nat) : M unit :=
  match ps with
  | [] => mret tt
  | p :: ps => _ ← zst_pad_unlink p; _ ← zst_pad_unref p; release_pads ps
  end.

Definition drop_elem (e : nat) : M unit := fun w => Done (tt, put_elems w (base.delete e (w_elems w))).

(** The children of a bin, the last one first. *)
Fixpoint destroy_children (n : nat) (destroy : nat -> M unit) (cs : list nat) : M unit :=
  match cs with
  | [] => mret tt
  | c :: cs =>
      _ ← zst_element_set_state n c ZST_STATE_NULL;
      _ ← modify_elem c (fun x => with_context x false None (el_clock x));
      _ ← destroy c;
      destroy_children n destroy cs
  end.

Fixpoint zst_element_destroy (n : nat) (e : nat) : M unit :=
  match n with
  | O => stuck
  | S n =>
      el ← get_elem e;
      _ ← (match el_state el with
           | ZST_STATE_NULL => mret tt
           | _ => _ ← zst_element_set_state n e ZST_STATE_NULL; mret tt
           end);
      el ← get_elem e;
      _ ← release_pads (el_src_pads el);
      el ← get_elem e;
      _ ← release_pads (el_sink_pads el);
      el ← get_elem e;
      _ ← match el_bin el with
          | Some b => destroy_children n (zst_element_destroy n) (rev (bin_children b))
          | None => mret tt
          end;
      drop_elem e
  end.

(** ** Seeking *)

(** [set_property e name value] is the element's handler; [None] when it has none. *)
Definition zst_element_seek (set_property : option (string -> string -> M zst_result_t)) (e : nat) (rate : cdouble)
    (segment : zst_segment_t) : M zst_result_t :=
  if deq rate d_zero then mret ZST_ERROR
  else if negb (seg_stop segment =? ZST_SEGMENT_STOP_NONE) && (seg_stop segment <? seg_start segment) then mret ZST_ERROR
  else
    let applied := mk_seg (seg_start segment) (seg_stop segment) rate (seg_base segment) (seg_position segment) in
    let start := seg_start applied in
    let stop := seg_stop applied in
    byte_seek ← match set_property with
                | None => mret false
                | Some set =>
                    if start <=? 9223372036854775807 then
                      ret ← set "offset"%string (show_Z start);
                      if ret =? ZST_OK then
                        _ ← (if stop =? ZST_SEGMENT_STOP_NONE then _ ← set "length"%string "-1"%string; mret tt
                             else if (start <=? stop) && (stop - start <=? 9223372036854775807) then
                               _ ← set "length"%string (show_Z (stop - start)); mret tt
                             else mret tt);
                        mret true
                      else mret false
                    else mret false
                end;
    _ ← (if byte_seek : bool then mret tt
         else
           el ← get_elem e;
           _ ← each_pad (fun p => zst_pad_set_segment p applied) (el_sink_pads el);
           el ← get_elem e;
           each_pad (fun p => zst_pad_push_segment E rounds p applied) (el_src_pads el));
    _ ← post_if_bus e (EventSegment e applied);
    mret ZST_OK.
End elements.
