(* ===== verification/ElementSpec.v ===== *)
(** * Properties of the element state machine and of bins

    A plain element walks its states hook by hook; a failing hook leaves it where it
    was, or, on the way up, back where it started.  A bin brings all elements below it
    to the state it is given. *)

From Stdlib Require Import String SpecFloat.
From S2P Require Import Prelude CLib Pad Caps Graph PadOps PadFlow PadPush Element.

Local Open Scope Z_scope.

Ltac munfold := unfold mbind, M_bind, mret, M_ret in *.

Section walk.
Context {U : Type} (E : env U).

Definition put_user (w : world U) (u : U) : world U :=
  mk_world (w_next w) (w_pads w) (w_elems w) (w_bufs w) (w_bus w) (w_dirty w) u.

(** The hooks read and write nothing but the state outside, as [f] says; the scheduler
    is woken without effect. *)
Context (f : nat -> hook -> U -> zst_result_t * U).
Definition calm_hooks : Prop :=
  forall e h m, hook_op (env_ops E e) h = Some m ->
    forall w, m w = Done ((f e h (w_user w)).1, put_user w (f e h (w_user w)).2).
Definition calm_scheduler : Prop := forall k w, env_scheduler_wake E k w = Done (tt, w).

(** ** Walks *)

(** What a hook does to the outside, if there is one. *)
Definition hook_effect (e : nat) (h : option hook) (u : U) : zst_result_t * U :=
  match h with
  | Some h => if is_some (hook_op (env_ops E e) h) then f e h u else (ZST_OK, u)
  | None => (ZST_OK, u)
  end.

(** The states passed from one state to another. *)
Definition route (old new : zst_state_t) : list zst_state_t :=
  match old, new with
  | ZST_STATE_NULL, ZST_STATE_READY => [ZST_STATE_READY]
  | ZST_STATE_NULL, ZST_STATE_PAUSED => [ZST_STATE_READY; ZST_STATE_PAUSED]
  | ZST_STATE_NULL, ZST_STATE_PLAYING => [ZST_STATE_READY; ZST_STATE_PAUSED; ZST_STATE_PLAYING]
  | ZST_STATE_READY, ZST_STATE_NULL => [ZST_STATE_NULL]
  | ZST_STATE_READY, ZST_STATE_PAUSED => [ZST_STATE_PAUSED]
  | ZST_STATE_READY, ZST_STATE_PLAYING => [ZST_STATE_PAUSED; ZST_STATE_PLAYING]
  | ZST_STATE_PAUSED, ZST_STATE_NULL => [ZST_STATE_READY; ZST_STATE_NULL]
  | ZST_STATE_PAUSED, ZST_STATE_READY => [ZST_STATE_READY]
  | ZST_STATE_PAUSED, ZST_STATE_PLAYING => [ZST_STATE_PLAYING]
  | ZST_STATE_PLAYING, ZST_STATE_NULL => [ZST_STATE_PAUSED; ZST_STATE_READY; ZST_STATE_NULL]
  | ZST_STATE_PLAYING, ZST_STATE_READY => [ZST_STATE_PAUSED; ZST_STATE_READY]
  | ZST_STATE_PLAYING, ZST_STATE_PAUSED => [ZST_STATE_PAUSED]
  | _, _ => []
  end.

(** The hooks along a route, up to the first that fails: its result, the state reached,
    the steps made, and the state outside. *)
Fixpoint walk (e : nat) (cur : zst_state_t) (to : list zst_state_t) (u : U)
    : zst_result_t * zst_state_t * list (zst_state_t * zst_state_t) * U :=
  match to with
  | [] => (ZST_OK, cur, [], u)
  | s :: to =>
      let '(ret, u) := hook_effect e (step_hook cur s) u in
      if ret =? ZST_OK then
        let '(ret, reached, steps, u) := walk e s to u in (ret, reached, (cur, s) :: steps, u)
      else (ret, cur, [], u)
  end.

(** The world after an element has made [steps]. *)
Definition after_steps (w : world U) (e : nat) (x : zst_element) (reached : zst_state_t)
    (steps : list (zst_state_t * zst_state_t)) (u : U) : world U :=
  mk_world (w_next w) (w_pads w) (<[e := with_state x reached]> (w_elems w)) (w_bufs w)
    (w_bus w ++ if el_bus x then map (fun s => EventStateChanged e s.1 s.2) steps else []) (w_dirty w) u.

Lemma after_no_steps w e x u : w_elems w !! e = Some x -> after_steps w e x (el_state x) [] u = put_user w u.
Proof.
  intros Hx. unfold after_steps, put_user. assert (with_state x (el_state x) = x) as -> by (by destruct x).
  rewrite insert_id by done. destruct (el_bus x); by rewrite app_nil_r.
Qed.

Lemma after_after w e x r1 l1 u1 r2 l2 u2 :
  after_steps (after_steps w e x r1 l1 u1) e (with_state x r1) r2 l2 u2 = after_steps w e x r2 (l1 ++ l2) u2.
Proof.
  unfold after_steps. cbn [w_next w_pads w_elems w_bufs w_bus w_dirty el_bus with_state]. f_equal.
  - apply insert_insert_eq.
  - rewrite <-app_assoc. f_equal. destruct (el_bus x); [|done]. by rewrite map_app.
Qed.

Context (Hhooks : calm_hooks) (Hwake : calm_scheduler).

Lemma run_hook_effect e h w :
  run_hook E e h w = Done ((hook_effect e h (w_user w)).1, put_user w (hook_effect e h (w_user w)).2).
Proof.
  unfold run_hook, hook_effect. munfold. destruct h as [h|]; [|by destruct w].
  destruct (hook_op _ h) as [m|] eqn:Em; cbn [is_some]; [|by destruct w]. by apply Hhooks.
Qed.

(** One step of a plain element. *)
Lemma single_step_plain self e old new w x :
  w_elems w !! e = Some x -> el_bin x = None ->
  single_step E self e old new w =
    (let '(ret, u) := hook_effect e (step_hook old new) (w_user w) in
     if ret =? ZST_OK then Done (ZST_OK, after_steps w e x new [(old, new)] u) else Done (ret, put_user w u)).
Proof.
  intros Hx Hb. unfold single_step. munfold. rewrite run_hook_effect.
  destruct (hook_effect e (step_hook old new) (w_user w)) as [ret u]. cbn [fst snd].
  destruct (ret =? ZST_OK) eqn:Er; cbn [negb]; [|done].
  unfold get_elem. cbn [w_elems put_user]. rewrite Hx, Hb. change (negb (ZST_OK =? ZST_OK)) with false. cbv iota.
  unfold modify_elem, get_elem, set_elem. munfold. cbn [w_elems put_user put_elems]. rewrite Hx.
  cbn [w_elems put_user put_elems]. rewrite lookup_insert_eq. cbn [el_pipeline with_state].
  assert (Hw : forall (k : option nat) v, match new, k with
    | ZST_STATE_PLAYING, Some k => env_scheduler_wake E k | _, _ => fun w => Done (tt, w) end v = Done (tt, v)).
  { intros k v. by destruct new, k; try apply Hwake. }
  rewrite Hw. unfold post_if_bus, get_elem, zst_bus_post. munfold. cbn [w_elems put_user put_elems].
  rewrite lookup_insert_eq. cbn [el_bus with_state]. unfold after_steps. cbn [map].
  destruct (el_bus x); cbn; by rewrite ?app_nil_r.
Qed.

Lemma walk_app e cur l1 l2 u :
  walk e cur (l1 ++ l2) u =
    (let '(ret, reached, steps, u) := walk e cur l1 u in
     if ret =? ZST_OK then
       let '(ret, reached, more, u) := walk e reached l2 u in (ret, reached, steps ++ more, u)
     else (ret, reached, steps, u)).
Proof.
  revert cur u. induction l1 as [|s l1 IH]; intros cur u; cbn [app walk].
  - change (ZST_OK =? ZST_OK) with true. cbv iota. by destruct (walk e cur l2 u) as [[[? ?] ?] ?].
  - destruct (hook_effect _ _ _) as [ret u']. destruct (ret =? ZST_OK) eqn:Er; [|by rewrite Er].
    rewrite IH. destruct (walk e s l1 u') as [[[r1 s1] k1] u1]. destruct (r1 =? ZST_OK); [|done].
    by destruct (walk e s1 l2 u1) as [[[r2 s2] k2] u2].
Qed.

(** ** The state machine of a plain element *)

Section plain.
Context `{CMemory} (e : nat) (x : zst_element) (Hbin : el_bin x = None).

(** The element is as [x] says, but in state [cur]. *)
Definition stands (w : world U) (cur : zst_state_t) : Prop := w_elems w !! e = Some (with_state x cur).

Definition moved (w : world U) (reached : zst_state_t) (steps : list (zst_state_t * zst_state_t)) (u : U) : world U :=
  after_steps w e x reached steps u.

Lemma stands_moved w cur steps u : stands (moved w cur steps u) cur.
Proof. apply lookup_insert_eq. Qed.

Lemma moved_moved w r1 l1 u1 r2 l2 u2 : moved (moved w r1 l1 u1) r2 l2 u2 = moved w r2 (l1 ++ l2) u2.
Proof. apply (after_after w e x r1 l1 u1 r2 l2 u2). Qed.

Lemma moved_none w cur u : stands w cur -> moved w cur [] u = put_user w u.
Proof. intros Hw. apply (after_no_steps w e (with_state x cur) u Hw). Qed.

Lemma user_moved w cur steps u : w_user (moved w cur steps u) = u.
Proof. done. Qed.

Lemma set_same n w s : stands w s -> zst_element_set_state E (S n) e s w = Done (ZST_OK, w).
Proof. intros Hw. cbn [zst_element_set_state]. munfold. unfold get_elem. rewrite Hw. by destruct s. Qed.

(** A call that only moves between neighbours. *)
Lemma set_neighbour n w cur s h :
  stands w cur -> step_hook cur s = Some h ->
  zst_element_set_state E (S n) e s w =
    (let '(ret, u) := hook_effect e (Some h) (w_user w) in
     if ret =? ZST_OK then Done (ZST_OK, moved w s [(cur, s)] u) else Done (ret, moved w cur [] u)).
Proof.
  intros Hw Hh. pose proof (single_step_plain (zst_element_set_state E n) e cur s w _ Hw Hbin) as Hs.
  rewrite Hh in Hs. destruct (hook_effect e (Some h) (w_user w)) as [ret u] eqn:Eh.
  rewrite (moved_none w cur u Hw). unfold moved. change (after_steps w e x s) with (after_steps w e (with_state x cur) s).
  rewrite <-Hs. cbn [zst_element_set_state]. munfold. unfold get_elem at 1. rewrite Hw. cbn [el_state with_state].
  destruct cur, s; discriminate || done.
Qed.

Lemma set_climb n w cur mid s :
  stands w cur -> (cur = ZST_STATE_NULL /\ mid = ZST_STATE_READY /\ (s = ZST_STATE_PAUSED \/ s = ZST_STATE_PLAYING)) \/
    (cur = ZST_STATE_READY /\ mid = ZST_STATE_PAUSED /\ s = ZST_STATE_PLAYING) ->
  zst_element_set_state E (S n) e s w = climb (zst_element_set_state E n) e cur mid s w.
Proof.
  intros Hw Hc. cbn [zst_element_set_state]. munfold. unfold get_elem at 1. rewrite Hw. cbn [el_state with_state].
  by destruct Hc as [(-> & -> & [->| ->])|(-> & -> & ->)].
Qed.

Lemma set_descend n w cur mid s :
  stands w cur -> (cur = ZST_STATE_PLAYING /\ mid = ZST_STATE_PAUSED /\ (s = ZST_STATE_READY \/ s = ZST_STATE_NULL)) \/
    (cur = ZST_STATE_PAUSED /\ mid = ZST_STATE_READY /\ s = ZST_STATE_NULL) ->
  zst_element_set_state E (S n) e s w = descend (zst_element_set_state E n) e mid s w.
Proof.
  intros Hw Hc. cbn [zst_element_set_state]. munfold. unfold get_elem at 1. rewrite Hw. cbn [el_state with_state].
  by destruct Hc as [(-> & -> & [->| ->])|(-> & -> & ->)].
Qed.

Ltac stands_now := first [eassumption | apply stands_moved].
Ltac one_hook :=
  erewrite set_neighbour by (first [stands_now | reflexivity]);
  rewrite ?user_moved;
  repeat match goal with H : hook_effect _ _ _ = _ |- _ => rewrite H end;
  repeat match goal with H : (_ =? ZST_OK) = _ |- _ => rewrite H end;
  change (ZST_OK =? ZST_OK) with true; cbn [negb]; cbv beta iota;
  repeat match goal with H : (_ =? ZST_OK) = _ |- _ => rewrite H end; cbn [negb]; cbv beta iota;
  rewrite ?moved_moved; cbn [app].
Ltac one_call :=
  first
    [ one_hook
    | erewrite set_climb by (first [stands_now | solve [auto 8]]); unfold climb at 1; munfold
    | erewrite set_descend by (first [stands_now | solve [auto 8]]); unfold descend at 1; munfold ].
Ltac split_hooks :=
  repeat match goal with
  | |- context [hook_effect e ?h ?u] =>
      let r := fresh "r" in let v := fresh "v" in let Eh := fresh "Eh" in let Er := fresh "Er" in
      destruct (hook_effect e h u) as [r v] eqn:Eh; destruct (r =? ZST_OK) eqn:Er
  end.

Lemma walk_route_aux n w cur s :
  (4 <= n)%nat -> stands w cur ->
  let '(ret, reached, steps, u) := walk e cur (route cur s) (w_user w) in
  (ret = ZST_OK \/ state_num s < state_num cur ->
     zst_element_set_state E n e s w = Done (ret, moved w reached steps u)) /\
  (ret <> ZST_OK -> state_num cur < state_num s ->
     let '(back, _, more, v) := walk e reached (route reached cur) u in
     back = ZST_OK -> zst_element_set_state E n e s w = Done (ret, moved w cur (steps ++ more) v)).
Proof.
  intros Hn Hw. do 4 (destruct n as [|n]; [lia|]).
  destruct (decide (cur = s)) as [->|Hne].
  { assert (route s s = []) as -> by (by destruct s). cbn [walk]. split; [|done].
    intros _. rewrite (moved_none w s _ Hw), (set_same _ w s Hw). by destruct w. }
  destruct cur, s; try done; cbn [route walk step_hook]; split_hooks;
    (split; [intros Hok | intros Hfail Hup; try (cbn in Hup; lia); cbn [route walk step_hook]; split_hooks; intros Hback]);
    try (destruct Hok as [->|Hok]; [done|cbn in Hok; lia]); try done;
    try (rewrite Hback in *; discriminate); repeat one_call; done.
Qed.
End plain.
End walk.

(** Setting the state of a plain element runs the hooks between its state and the new
    one, each once and in order, and posts each step on the bus.  A hook that fails ends
    the walk with its error: on the way down the element stays where it got to, on the
    way up it walks back to where it started. *)
Theorem state_walk {U} `{CMemory} (E : env U) f n e x (w : world U) s :
  calm_hooks E f -> calm_scheduler E -> el_bin x = None -> w_elems w !! e = Some x -> (4 <= n)%nat ->
  let cur := el_state x in
  let '(ret, reached, steps, u) := walk E f e cur (route cur s) (w_user w) in
  (ret = ZST_OK \/ state_num s < state_num cur ->
     zst_element_set_state E n e s w = Done (ret, after_steps w e x reached steps u)) /\
  (ret <> ZST_OK -> state_num cur < state_num s ->
     let '(back, _, more, v) := walk E f e reached (route reached cur) u in
     back = ZST_OK -> zst_element_set_state E n e s w = Done (ret, after_steps w e x cur (steps ++ more) v)).
Proof.
  intros Hh Hw Hb Hx Hn. apply (walk_route_aux E f Hh Hw e x Hb n w (el_state x) s Hn).
  unfold stands. rewrite Hx. by destruct x.
Qed.

(** ** Hooks that keep a log *)

Section example.

Definition log := list (nat * hook).

Definition log_hook (fails : nat -> hook -> bool) (e : nat) (h : hook) (u : log) : zst_result_t * log :=
  (if fails e h then ZST_ERROR else ZST_OK, u ++ [(e, h)]).

Definition log_op (fails : nat -> hook -> bool) (e : nat) (h : hook) : option (M log zst_result_t) :=
  Some (fun w => Done ((log_hook fails e h (w_user w)).1, put_user w (log_hook fails e h (w_user w)).2)).

(** Elements whose hooks are logged; they have no other handlers, and nobody waits. *)
Definition log_env (fails : nat -> hook -> bool) : env log :=
  mk_env
    (fun e => mk_ops (log_op fails e OPEN) (log_op fails e CLOSE) (log_op fails e START) (log_op fails e STOP)
                (log_op fails e PREROLL) (log_op fails e UNPREROLL) None None None)
    (fun _ _ => mret ZST_ERROR) (fun _ => mret (ZST_ERROR, None)) (fun _ _ _ _ => mret ZST_PAD_PROBE_OK)
    (fun _ => mret 0) (fun _ _ => mret tt) (fun _ => mret tt) (fun _ => mret false) (fun _ _ => mret tt) (fun _ => mret tt).

Lemma log_calm fails : calm_hooks (log_env fails) (log_hook fails).
Proof. intros e h m Hm w. destruct h; injection Hm as <-; reflexivity. Qed.

Lemma log_scheduler fails : calm_scheduler (log_env fails).
Proof. done. Qed.

Definition plain_element : zst_element := mk_element ZST_STATE_NULL [] [] true None None None None.
Definition one_element : world log := mk_world 2 ∅ {[1%nat := plain_element]} ∅ [] [] [].

#[local] Existing Instance ample_memory.

Lemma state_walk_witness :
  zst_element_set_state (log_env (fun _ _ => false)) 4 1 ZST_STATE_PLAYING one_element =
    Done (ZST_OK, after_steps one_element 1 plain_element ZST_STATE_PLAYING
                    [(ZST_STATE_NULL, ZST_STATE_READY); (ZST_STATE_READY, ZST_STATE_PAUSED);
                     (ZST_STATE_PAUSED, ZST_STATE_PLAYING)]
                    [(1%nat, OPEN); (1%nat, PREROLL); (1%nat, START)]).
Proof.
  apply (state_walk (log_env (fun _ _ => false)) (log_hook (fun _ _ => false)) 4 1 plain_element one_element
           ZST_STATE_PLAYING); [apply log_calm|apply log_scheduler|reflexivity|reflexivity|lia|by left].
Defined.
End example.
