(* ===== verification/BinSpec.v ===== *)
(** * Bins bring their elements along

    A bin and everything in it, bins within bins included, stand in one state; a change
    of the bin's state brings them all to the new one and leaves the rest alone, if no
    hook fails. *)

From Stdlib Require Import String SpecFloat.
From S2P Require Import Prelude CLib Pad Caps Graph PadOps PadFlow PadPush Element ElementSpec.

Local Open Scope Z_scope.

Section bins.
Context {U : Type} `{CMemory} (E : env U) (f : nat -> hook -> U -> zst_result_t * U).
Context (Hhooks : calm_hooks E f) (Hwake : calm_scheduler E).
Implicit Types (w v : world U) (d e : nat) (ds : list nat).

(** The elements of [e], itself first: [k] bounds the depth of bins. *)
Inductive family (els : gmap nat zst_element) : nat -> nat -> list nat -> Prop :=
| family_plain k e x : els !! e = Some x -> el_bin x = None -> family els k e [e]
| family_bin k e x b dss :
    els !! e = Some x -> el_bin x = Some b -> Forall2 (family els k) (bin_children b) dss ->
    family els (S k) e (e :: concat dss).

Lemma family_inv els k e ds :
  family els k e ds ->
  (exists x, els !! e = Some x /\ el_bin x = None /\ ds = [e]) \/
  (exists k' x b dss, k = S k' /\ els !! e = Some x /\ el_bin x = Some b /\ ds = e :: concat dss /\
     Forall2 (family els k') (bin_children b) dss).
Proof. intros Hf. inversion Hf; subst; [left; by eexists|right; eauto 10]. Qed.

Definition same_shape (x y : zst_element) : Prop :=
  bin_children <$> el_bin y = bin_children <$> el_bin x /\ el_sink_pads y = el_sink_pads x.

Definition pads_keep w v : Prop :=
  forall p x, w_pads w !! p = Some x ->
    exists y, w_pads v !! p = Some y /\ forall g, pad_private y = ProxyOf g -> pad_private x = ProxyOf g.

(** From [w] to [v] the elements [ds] go where [to] says and the others stay. *)
Definition moves (to : zst_element -> zst_state_t) ds w v : Prop :=
  pads_keep w v /\ (forall d, d ∉ ds -> w_elems v !! d = w_elems w !! d) /\
  (forall d x, w_elems w !! d = Some x ->
     exists y, w_elems v !! d = Some y /\ same_shape x y /\ (d ∈ ds -> el_state y = to x)).

(** The ghost pads a bin resets can be read. *)
Definition readable w (p : nat) : Prop :=
  exists x, w_pads w !! p = Some x /\ forall g, pad_private x = ProxyOf g -> is_Some (w_pads w !! g).

Definition bins_ok w ds : Prop :=
  forall d x, d ∈ ds -> w_elems w !! d = Some x -> Forall (readable w) (el_sink_pads x).

Definition all_in w ds (s : zst_state_t) : Prop :=
  forall d, d ∈ ds -> exists x, w_elems w !! d = Some x /\ el_state x = s.

(** ** The relation *)

Lemma pads_keep_refl w : pads_keep w w.
Proof. intros p x Hx. by exists x. Qed.

Lemma pads_keep_same w v : w_pads v = w_pads w -> pads_keep w v.
Proof. intros Hv p x Hx. exists x. by rewrite Hv. Qed.

Lemma pads_keep_trans w v u : pads_keep w v -> pads_keep v u -> pads_keep w u.
Proof.
  intros H1 H2 p x Hx. destruct (H1 p x Hx) as (y & Hy & Hp1). destruct (H2 p y Hy) as (z & Hz & Hp2).
  exists z. split; [done|]. auto.
Qed.

Lemma same_shape_refl x : same_shape x x.
Proof. done. Qed.

Lemma same_shape_trans x y z : same_shape x y -> same_shape y z -> same_shape x z.
Proof. unfold same_shape. intros [-> ->] [-> ->]. done. Qed.

Lemma moves_refl ds w : moves el_state ds w w.
Proof. split; [apply pads_keep_refl|]. split; [done|]. intros d x Hx. exists x. by split_and!. Qed.

Lemma family_moves to es w v k e ds : moves to es w v -> family (w_elems w) k e ds -> family (w_elems v) k e ds.
Proof.
  intros (_ & _ & Hm). revert e ds. induction k as [|k IH]; intros e ds Hf;
    apply family_inv in Hf as [(x & Hx & Hb & ->)|(k' & x & b & dss & Hk & Hx & Hb & -> & Hc)]; try done;
    destruct (Hm e x Hx) as (y & Hy & [Hs _] & _); rewrite Hb in Hs; destruct (el_bin y) as [b'|] eqn:Eb; try done.
  - by apply family_plain with y.
  - by apply family_plain with y.
  - injection Hk as <-. injection Hs as Hs. apply family_bin with y b'; [done|done|]. rewrite Hs.
    eapply Forall2_impl; [done|]. intros. by apply IH.
Qed.

Lemma readable_keep w v p : pads_keep w v -> readable w p -> readable v p.
Proof.
  intros Hk (x & Hx & Hg). destruct (Hk p x Hx) as (y & Hy & Hp). exists y. split; [done|]. intros g Eg.
  destruct (Hg g (Hp g Eg)) as [z Hz]. destruct (Hk g z Hz) as (z' & Hz' & _). by eexists.
Qed.

Lemma bins_ok_moves to es w v ds :
  moves to es w v -> (forall d, d ∈ ds -> is_Some (w_elems w !! d)) -> bins_ok w ds -> bins_ok v ds.
Proof.
  intros (Hk & _ & Hm) Hin Hok d y Hd Hy. destruct (Hin d Hd) as [x Hx].
  destruct (Hm d x Hx) as (y' & Hy' & [_ Hs] & _). rewrite Hy in Hy'. injection Hy' as <-. rewrite Hs.
  eapply Forall_impl; [by apply (Hok d x)|]. intros p. by apply readable_keep.
Qed.

Lemma family_in els k e ds d : family els k e ds -> d ∈ ds -> is_Some (els !! d).
Proof.
  revert e ds. induction k as [|k IH]; intros e ds Hf Hd;
    apply family_inv in Hf as [(x & Hx & _ & ->)|(k' & x & b & dss & Hk & Hx & _ & -> & Hc)]; try done.
  - apply list_elem_of_singleton in Hd as ->. by eexists.
  - apply list_elem_of_singleton in Hd as ->. by eexists.
  - injection Hk as <-. apply elem_of_cons in Hd as [->|Hd]; [by eexists|].
    apply list_elem_of_In, in_concat in Hd as (l & Hl & Hd). apply list_elem_of_In in Hl, Hd.
    apply list_elem_of_lookup in Hl as [i Hi].
    destruct (Forall2_lookup_r _ _ _ _ _ Hc Hi) as (c & _ & Hfc). by eapply IH.
Qed.

Lemma family_self els k e ds : family els k e ds -> e ∈ ds.
Proof. clear f Hhooks Hwake E. intros [(x & _ & _ & ->)|(k' & x & b & dss & _ & _ & _ & -> & _)]%family_inv; set_solver. Qed.

(** Two changes of disjoint sets of elements. *)
Lemma moves_app s es ds w v u :
  moves (fun _ => s) es w v -> moves (fun _ => s) ds v u -> (forall d, d ∈ es -> d ∉ ds) ->
  moves (fun _ => s) (es ++ ds) w u.
Proof.
  clear f Hhooks Hwake E.
  intros (K1 & O1 & M1) (K2 & O2 & M2) Hdis. split; [by eapply pads_keep_trans|]. split.
  - intros d Hd. rewrite O2, O1; [done|set_solver..].
  - intros d x Hx. destruct (M1 d x Hx) as (y & Hy & Sy & Ty). destruct (M2 d y Hy) as (z & Hz & Sz & Tz).
    exists z. split; [done|]. split; [by eapply same_shape_trans|]. intros [Hd|Hd]%elem_of_app; [|by apply Tz].
    rewrite O2 in Hz by auto. rewrite Hy in Hz. injection Hz as <-. by apply Ty.
Qed.


(** A change that leaves the states alone, before one of more elements. *)
Lemma moves_before to es ds w v u :
  moves el_state es w v -> moves to ds v u -> (forall x y, el_state x = el_state y -> to x = to y) ->
  (forall d, d ∈ es -> d ∈ ds) -> moves to ds w u.
Proof.
  intros (K1 & O1 & M1) (K2 & O2 & M2) Hto Hsub. split; [by eapply pads_keep_trans|]. split.
  - intros d Hd. rewrite O2, O1; [done|auto|done].
  - intros d x Hx. destruct (M1 d x Hx) as (y & Hy & Sy & Ty). destruct (M2 d y Hy) as (z & Hz & Sz & Tz).
    exists z. split; [done|]. split; [by eapply same_shape_trans|]. intros Hd. rewrite (Tz Hd). apply Hto.
    destruct (decide (d ∈ es)) as [He|He]; [by apply Ty|]. rewrite O1 in Hy by done. congruence.
Qed.

Lemma moves_elem to w v e x y :
  w_elems w !! e = Some x -> pads_keep w v -> w_elems v = <[e := y]> (w_elems w) -> same_shape x y ->
  el_state y = to x -> moves to [e] w v.
Proof.
  clear f Hhooks Hwake E.
  intros Hx Hk Hv Hs Ht. split; [done|]. rewrite Hv. split.
  - intros d Hd. apply lookup_insert_ne. set_solver.
  - intros d x' Hx'. destruct (decide (d = e)) as [->|Hne].
    + exists y. rewrite lookup_insert_eq. rewrite Hx in Hx'. injection Hx' as <-. done.
    + exists x'. rewrite lookup_insert_ne by done. split_and!; [done|done|set_solver].
Qed.

Lemma all_in_moves s to es ds w v :
  moves to es w v -> (forall x, el_state x = s -> to x = s) -> (forall d, d ∈ ds -> d ∈ es) -> all_in w ds s -> all_in v ds s.
Proof.
  intros (_ & _ & Hm) Hto Hsub Ha d Hd. destruct (Ha d Hd) as (x & Hx & Es).
  destruct (Hm d x Hx) as (y & Hy & _ & Hst). exists y. split; [done|]. rewrite Hst by auto. by apply Hto.
Qed.

(** ** The steps of a bin *)

Lemma sync_moves bin cs w :
  is_Some (w_elems w !! bin) -> (forall c, c ∈ cs -> is_Some (w_elems w !! c)) ->
  exists v, sync_children bin cs w = Done (tt, v) /\ moves el_state cs w v.
Proof.
  revert w. induction cs as [|c cs IH]; intros w [b Hb] Hcs; cbn [sync_children].
  - exists w. split; [done|apply moves_refl].
  - destruct (Hcs c) as [x Hx]; [set_solver|]. unfold bin_sync_child_context, modify_elem, get_elem, set_elem. munfold.
    rewrite Hb, Hx. set (y := with_context x _ _ _). set (w1 := put_elems _ _).
    assert (M1 : moves el_state [c] w w1) by (by eapply moves_elem; [done|by apply pads_keep_same|..]).
    destruct (IH w1) as (v & -> & M2).
    + unfold w1. cbn. destruct (decide (c = bin)) as [->|]; [rewrite lookup_insert_eq|rewrite lookup_insert_ne by done]; by eexists.
    + intros d Hd. unfold w1. cbn. destruct (decide (c = d)) as [->|]; [rewrite lookup_insert_eq; by eexists|].
      rewrite lookup_insert_ne by done. apply Hcs. set_solver.
    + exists v. split; [done|]. destruct M1 as (K1 & O1 & M1), M2 as (K2 & O2 & M2). split; [exact (pads_keep_trans _ _ _ K1 K2)|]. split.
      * intros d Hd. rewrite O2, O1; [done|set_solver..].
      * intros d z Hz. destruct (M1 d z Hz) as (z1 & Hz1 & S1 & T1). destruct (M2 d z1 Hz1) as (z2 & Hz2 & S2 & T2).
        exists z2. split; [done|]. split; [by eapply same_shape_trans|]. intros Hd.
        assert (el_state z1 = el_state z).
        { destruct (decide (d = c)) as [->|]; [apply T1; set_solver|]. rewrite O1 in Hz1 by set_solver. congruence. }
        destruct (decide (d ∈ cs)) as [Hin|Hin]; [by rewrite T2|]. rewrite O2 in Hz2 by done. congruence.
Qed.

Lemma target_readable w p : readable w p -> exists t, zst_ghost_pad_get_target p w = Done (t, w).
Proof.
  intros (x & Hx & Hg). unfold zst_ghost_pad_get_target, get_pad. munfold. rewrite Hx.
  destruct (pad_private x) as [| |g]; [by eexists..|]. destruct (Hg g eq_refl) as [y Hy]. rewrite Hy. by eexists.
Qed.

Lemma set_eos_keeps w p seen :
  readable w p -> exists v, set_eos_seen p seen w = Done (tt, v) /\ w_elems v = w_elems w /\ pads_keep w v.
Proof.
  intros (x & Hx & _). unfold set_eos_seen, modify_pad, get_pad, set_pad. munfold. rewrite Hx.
  eexists. split; [done|]. split; [done|]. intros q z Hz. cbn. destruct (decide (p = q)) as [->|].
  - rewrite lookup_insert_eq. rewrite Hx in Hz. injection Hz as <-. eexists. split; [done|]. intros g.
    destruct (pad_private x) eqn:Ep; cbn; congruence.
  - rewrite lookup_insert_ne by done. by exists z.
Qed.

Lemma reset_ghosts_moves ps w :
  Forall (readable w) ps ->
  exists v, reset_ghosts ps w = Done (tt, v) /\ w_elems v = w_elems w /\ pads_keep w v.
Proof.
  revert w. induction ps as [|p ps IH]; intros w Hps; cbn [reset_ghosts].
  - exists w. split_and!; [done|done|apply pads_keep_refl].
  - apply Forall_cons in Hps as [Hp Hps]. destruct (target_readable w p Hp) as (t & Ht).
    destruct (set_eos_keeps w p false Hp) as (w1 & Hs & He & K1). munfold. rewrite Ht, Hs.
    destruct (IH w1) as (v & -> & Hv & K2).
    { eapply Forall_impl; [done|]. intros q. by apply readable_keep. }
    exists v. split_and!; [done|by rewrite Hv|exact (pads_keep_trans _ _ _ K1 K2)].
Qed.

Lemma reset_eos_moves e x w :
  w_elems w !! e = Some x -> Forall (readable w) (el_sink_pads x) ->
  exists v, bin_reset_eos e w = Done (tt, v) /\ moves el_state [e] w v.
Proof.
  intros Hx Hps. unfold bin_reset_eos, put_bin, get_elem, set_elem. munfold. rewrite Hx.
  destruct (el_bin x) as [b|] eqn:Eb.
  - rewrite Hx. set (y := mk_element _ _ _ _ _ _ _ _). set (w1 := put_elems _ _).
    destruct (reset_ghosts_moves (el_sink_pads x) w1) as (v & -> & Hv & Hk).
    { eapply Forall_impl; [done|]. intros q. by apply readable_keep, pads_keep_same. }
    exists v. split; [done|]. apply (moves_elem el_state w v e x y); try done. by split; [cbn; rewrite Eb|].
  - destruct (reset_ghosts_moves (el_sink_pads x) w Hps) as (v & -> & Hv & Hk). exists v. split; [done|].
    apply (moves_elem el_state w v e x x); try done. rewrite Hv. symmetry. by apply insert_id.
Qed.

(** ** One step of a whole family *)

(** No hook of these elements fails. *)
Definition sound ds : Prop := forall d h u, d ∈ ds -> (f d h u).1 = ZST_OK.

Lemma hook_ok ds e h w : sound ds -> e ∈ ds -> exists u, run_hook E e h w = Done (ZST_OK, put_user w u).
Proof.
  intros Hok He. rewrite (run_hook_effect E f Hhooks). exists (hook_effect E f e h (w_user w)).2.
  assert ((hook_effect E f e h (w_user w)).1 = ZST_OK) as ->; [|done].
  unfold hook_effect. destruct h; [|done]. destruct (is_some _); [by apply Hok|done].
Qed.

Lemma moves_user to ds w u : (forall x, to x = el_state x) -> moves to ds w (put_user w u).
Proof. intros Hto. split; [by apply pads_keep_same|]. split; [done|]. intros d x Hx. exists x. by rewrite Hto. Qed.

Lemma set_is_single n e w x cur s h :
  w_elems w !! e = Some x -> el_state x = cur -> step_hook cur s = Some h ->
  zst_element_set_state E (S n) e s w = single_step E (zst_element_set_state E n) e cur s w.
Proof.
  intros Hx Hc Hh. cbn [zst_element_set_state]. munfold. unfold get_elem at 1. rewrite Hx, Hc.
  by destruct cur, s.
Qed.

(** What a call that moves a family does. *)
Definition brings (call : nat -> zst_state_t -> M U zst_result_t) (k : nat) (old s : zst_state_t) : Prop :=
  forall e ds w, sound ds -> family (w_elems w) k e ds -> NoDup ds -> all_in w ds old -> bins_ok w ds ->
    exists v, call e s w = Done (ZST_OK, v) /\ moves (fun _ => s) ds w v.

(** Children brought to [s] one by one, before those that are left. *)
Lemma children_prefix self k bin old s cs rest dss before w :
  brings self k old s -> sound (concat dss) ->
  Forall2 (family (w_elems w) k) cs dss -> NoDup (concat dss) -> all_in w (concat dss) old -> bins_ok w (concat dss) ->
  exists v, change_children self bin old s before (cs ++ rest) w = change_children self bin old s (before ++ cs) rest v /\
    moves (fun _ => s) (concat dss) w v.
Proof.
  intros Hself. revert dss before w. induction cs as [|c cs IH]; intros dss before w Hok Hf Hnd Ha Hb;
    inversion Hf as [|? ds ? dss' Hfc Hfs]; subst; cbn [app concat].
  - exists w. rewrite app_nil_r. split; [done|]. split; [apply pads_keep_refl|]. split; [done|]. intros d x Hx. exists x.
    split_and!; [done|done|set_solver].
  - cbn [concat] in Hnd, Ha, Hb. apply NoDup_app in Hnd as (Hn1 & Hdis & Hn2).
    destruct (Hself c ds w) as (w1 & E1 & M1); [intros d h u Hd; apply Hok; set_solver|done|done|..].
    { intros d Hd. apply Ha. set_solver. }
    { intros d x Hd. apply Hb. set_solver. }
    cbn [change_children]. munfold. rewrite E1. change (ZST_OK =? ZST_OK) with true. cbv iota.
    assert (Hin : forall d, d ∈ concat dss' -> is_Some (w_elems w !! d)).
    { intros d Hd. destruct (Ha d) as (x & Hx & _); [set_solver|]. by eexists. }
    destruct (IH dss' (before ++ [c]) w1) as (v & E2 & M2).
    + intros d h u Hd. apply Hok. set_solver.
    + eapply Forall2_impl; [done|]. intros. by eapply family_moves.
    + done.
    + intros d Hd. destruct (Ha d) as (x & Hx & Es); [set_solver|]. destruct M1 as (_ & O1 & _).
      exists x. rewrite O1 by (intros Hd'; by apply (Hdis d)). done.
    + eapply bins_ok_moves; [done|done|]. intros d x Hd. apply Hb. set_solver.
    + exists v. rewrite <-app_assoc in E2. split; [done|]. by eapply moves_app.
Qed.

Lemma children_moves self k bin old s cs dss w :
  brings self k old s -> sound (concat dss) ->
  Forall2 (family (w_elems w) k) cs dss -> NoDup (concat dss) -> all_in w (concat dss) old -> bins_ok w (concat dss) ->
  exists v, change_children self bin old s [] cs w = Done (ZST_OK, v) /\ moves (fun _ => s) (concat dss) w v.
Proof.
  intros Hself Hok Hf Hnd Ha Hb. destruct (children_prefix self k bin old s cs [] dss [] w) as (v & E1 & M); try done.
  rewrite app_nil_r in E1. by exists v.
Qed.

(** The same calls when their results are not looked at. *)
Lemma each_moves self k old s cs dss w :
  brings self k old s -> sound (concat dss) ->
  Forall2 (family (w_elems w) k) cs dss -> NoDup (concat dss) -> all_in w (concat dss) old -> bins_ok w (concat dss) ->
  exists v, each_pad (fun d => self d s) cs w = Done (tt, v) /\ moves (fun _ => s) (concat dss) w v.
Proof.
  intros Hself Hok Hf Hnd Ha Hb.
  destruct (children_moves self k 0%nat old s cs dss w Hself Hok Hf Hnd Ha Hb) as (v & Ev & M). exists v. split; [|done].
  clear M Hf Hnd Ha Hb. revert w Ev. generalize (@nil nat). induction cs as [|c cs IH]; intros before w Ev;
    cbn [change_children each_pad] in *; munfold; [by injection Ev as ->|].
  destruct (self c s w) as [[ret w1]| |] eqn:Ec; try done. destruct (ret =? ZST_OK) eqn:Er; [by eapply IH|].
  exfalso. destruct (each_pad _ before w1) as [[[] w2]| |]; try done. unfold post_if_bus, get_elem, zst_bus_post in Ev. munfold.
  destruct (w_elems w2 !! 0%nat) as [y|]; [|done]. destruct (el_bus y); injection Ev as Ev; subst; discriminate.
Qed.

(** After the children: the element's own state, the scheduler, the bus. *)
Lemma finish_moves e old s x w :
  w_elems w !! e = Some x ->
  exists v, (_ ← modify_elem e (fun x => with_state x s);
             el ← get_elem e;
             _ ← (match s, el_pipeline el with
                  | ZST_STATE_PLAYING, Some k => env_scheduler_wake E k
                  | _, _ => mret tt
                  end);
             _ ← post_if_bus e (EventStateChanged e old s);
             mret ZST_OK) w = Done (ZST_OK, v) /\ moves (fun _ => s) [e] w v.
Proof.
  intros Hx. unfold modify_elem, get_elem, set_elem. munfold. rewrite Hx. cbn [w_elems put_elems].
  rewrite lookup_insert_eq. set (w1 := put_elems _ _). set (y := with_state x s) in *.
  assert (Hw : forall (k : option nat) v, match s, k with
    | ZST_STATE_PLAYING, Some k => env_scheduler_wake E k | _, _ => fun w => Done (tt, w) end v = Done (tt, v)).
  { intros k v. by destruct s, k; try apply Hwake. }
  rewrite Hw. unfold post_if_bus, get_elem, zst_bus_post. munfold. unfold w1 at 1. cbn [w_elems put_elems].
  rewrite lookup_insert_eq. destruct (el_bus y); eexists; (split; [done|]);
    (eapply (moves_elem _ w _ e x y); [done|by apply pads_keep_same|done|done|done]).
Qed.

Lemma moves_join s e ds w v u :
  moves (fun _ => s) ds w v -> moves (fun _ => s) [e] v u -> e ∉ ds -> moves (fun _ => s) (e :: ds) w u.
Proof.
  intros H1 H2 He. assert (Hm : moves (fun _ => s) (ds ++ [e]) w u) by (eapply moves_app; [done|done|set_solver]).
  destruct Hm as (K & O & Hm). split; [done|]. split; [intros d Hd; apply O; set_solver|].
  intros d x Hx. destruct (Hm d x Hx) as (y & Hy & Hs & Ht). exists y. split_and!; [done|done|]. intros Hd. apply Ht. set_solver.
Qed.

Lemma families_in els k cs dss c : Forall2 (family els k) cs dss -> c ∈ cs -> c ∈ concat dss.
Proof.
  clear f Hhooks Hwake E.
  intros Hf [i Hi]%list_elem_of_lookup. destruct (Forall2_lookup_l _ _ _ _ _ Hf Hi) as (ds & Hds & Hfc).
  apply list_elem_of_In, in_concat. exists ds. split; apply list_elem_of_In.
  - by eapply list_elem_of_lookup_2.
  - by eapply family_self.
Qed.

(** Before the children: their context, and the bin's marks of ended streams. *)
Lemma prepare_moves e x b s es w :
  w_elems w !! e = Some x -> Forall (readable w) (el_sink_pads x) ->
  (forall c, c ∈ bin_children b -> c ∈ es /\ is_Some (w_elems w !! c)) ->
  exists v, (_ ← sync_children e (bin_children b);
             if state_num ZST_STATE_READY <=? state_num s then bin_reset_eos e else mret tt) w = Done (tt, v) /\
    moves el_state (e :: es) w v.
Proof.
  intros Hx Hps Hcs. destruct (sync_moves e (bin_children b) w) as (w1 & E1 & M1); [by eexists|by apply Hcs|].
  munfold. rewrite E1.
  assert (M1' : moves el_state (e :: es) w w1).
  { destruct M1 as (K & O & Hm). split; [done|]. split.
    - intros d Hd. apply O. intros Hd'. destruct (Hcs d Hd'). set_solver.
    - intros d z Hz. destruct (Hm d z Hz) as (y & Hy & Hs & Ht). exists y. split_and!; [done|done|]. intros Hd.
      destruct (decide (d ∈ bin_children b)) as [|Hn]; [by apply Ht|]. rewrite O in Hy by done. congruence. }
  destruct (_ <=? _); [|by exists w1].
  destruct M1 as (K1 & O1 & Hm1). destruct (Hm1 e x Hx) as (y & Hy & [_ Hs] & _).
  destruct (reset_eos_moves e y w1 Hy) as (v & E2 & M2).
  { rewrite Hs. eapply Forall_impl; [done|]. intros q. by apply readable_keep. }
  exists v. split; [done|]. eapply moves_before; [exact M1'| |done|done].
  destruct M2 as (K2 & O2 & Hm2). split; [done|]. split; [intros d Hd; apply O2; set_solver|].
  intros d z Hz. destruct (Hm2 d z Hz) as (z' & Hz' & Hs' & Ht). exists z'. split_and!; [done|done|]. intros Hd.
  destruct (decide (d = e)) as [->|]; [apply Ht; set_solver|]. rewrite O2 in Hz' by set_solver. congruence.
Qed.

(** Between neighbouring states, [k] deep. *)
Lemma neighbours k n old s h : step_hook old s = Some h -> (k < n)%nat -> brings (zst_element_set_state E n) k old s.
Proof.
  intros Hh. revert n. induction k as [|k IH]; intros n Hn e ds w Hok Hf Hnd Ha Hb; (destruct n as [|n]; [lia|]);
    apply family_inv in Hf as [(x & Hx & Hp & ->)|(k' & x & b & dss & Hk & Hx & Hp & -> & Hc)]; try done;
    (assert (Hold : el_state x = old) by (destruct (Ha e ltac:(set_solver)) as (x' & Hx' & <-); congruence));
    rewrite (set_is_single n e w x old s h Hx Hold Hh).
  1,2: rewrite (single_step_plain E f Hhooks Hwake _ e old s w x Hx Hp);
    assert (Hr : (hook_effect E f e (step_hook old s) (w_user w)).1 = ZST_OK)
      by (unfold hook_effect; destruct (step_hook old s); [|done]; destruct (is_some _); [apply Hok; set_solver|done]);
    destruct (hook_effect E f e (step_hook old s) (w_user w)) as [ret u]; cbn in Hr; subst ret;
    change (ZST_OK =? ZST_OK) with true; cbv iota; eexists; (split; [done|]);
    by eapply (moves_elem _ w _ e x (with_state x s)); [done|apply pads_keep_same|..].
  injection Hk as <-. apply NoDup_cons in Hnd as [He Hnd]. unfold single_step. munfold.
  destruct (hook_ok _ e (step_hook old s) w Hok) as (u & ->); [set_solver|]. change (negb (ZST_OK =? ZST_OK)) with false. cbv iota.
  unfold get_elem at 1. cbn [w_elems put_user]. rewrite Hx, Hp. unfold bin_change_state. munfold.
  assert (Hin : forall d, d ∈ e :: concat dss -> is_Some (w_elems w !! d)).
  { intros d Hd. destruct (Ha d Hd) as (z & Hz & _). by eexists. }
  destruct (prepare_moves e x b s (concat dss) (put_user w u) Hx) as (w2 & E2 & M2).
  { apply (Hb e x); [set_solver|done]. }
  { intros c Hcb. assert (c ∈ concat dss) by (by eapply families_in). split; [done|]. apply Hin. set_solver. }
  munfold. destruct (sync_children e (bin_children b) (put_user w u)) as [[[] w1]| |]; try done. rewrite E2.
  assert (M2' : moves el_state (e :: concat dss) w w2) by exact M2.
  destruct (children_moves (zst_element_set_state E n) k e old s (bin_children b) dss w2) as (w3 & E3 & M3).
  { apply IH. lia. }
  { intros d h' u' Hd. apply Hok. set_solver. }
  { eapply Forall2_impl; [done|]. intros. by eapply family_moves. }
  { done. }
  { eapply all_in_moves; [done|done| |]; [set_solver|]. intros d Hd. apply Ha. set_solver. }
  { intros d z Hd. eapply bins_ok_moves; [done|done|done|set_solver]. }
  rewrite E3. change (ZST_OK =? ZST_OK) with true. cbv beta iota. change (negb (ZST_OK =? ZST_OK)) with false. cbv iota.
  destruct M2' as (K2 & O2 & Hm2) eqn:EM. clear EM. destruct (Hm2 e x Hx) as (y & Hy & _).
  destruct M3 as (K3 & O3 & Hm3) eqn:EM. clear EM. destruct (Hm3 e y Hy) as (z & Hz & _).
  destruct (finish_moves e old s z w3 Hz) as (v & E4 & M4). munfold. exists v. split; [exact E4|].
  eapply (moves_before _ (e :: concat dss)); [exact M2|by eapply moves_join|done|done].
Qed.

(** ** Any change of state *)

Lemma brings_same n k s : brings (zst_element_set_state E (S n)) k s s.
Proof.
  intros e ds w _ Hf _ Ha _. destruct (Ha e (family_self _ _ _ _ Hf)) as (x & Hx & Hs). exists w. split.
  - cbn [zst_element_set_state]. munfold. unfold get_elem. rewrite Hx, Hs. by destruct s.
  - split; [apply pads_keep_refl|]. split; [done|]. intros d y Hy. exists y. split_and!; [done|done|]. intros Hd.
    destruct (Ha d Hd) as (y' & Hy' & <-). congruence.
Qed.

Lemma moves_again s t ds w v u : moves (fun _ => s) ds w v -> moves (fun _ => t) ds v u -> moves (fun _ => t) ds w u.
Proof.
  intros (K1 & O1 & M1) (K2 & O2 & M2). split; [by eapply pads_keep_trans|]. split.
  - intros d Hd. by rewrite O2, O1.
  - intros d x Hx. destruct (M1 d x Hx) as (y & Hy & Sy & Ty). destruct (M2 d y Hy) as (z & Hz & Sz & Tz).
    exists z. split; [done|]. by split; [eapply same_shape_trans|].
Qed.

(** Two calls one after the other. *)
Lemma brings_two call call' k old mid s :
  brings call k old mid -> brings call' k mid s ->
  forall e ds w, sound ds -> family (w_elems w) k e ds -> NoDup ds -> all_in w ds old -> bins_ok w ds ->
    exists w1 v, call e mid w = Done (ZST_OK, w1) /\ call' e s w1 = Done (ZST_OK, v) /\ moves (fun _ => s) ds w v.
Proof.
  intros H1 H2 e ds w Hok Hf Hnd Ha Hb. destruct (H1 e ds w Hok Hf Hnd Ha Hb) as (w1 & E1 & M1).
  assert (Hin : forall d, d ∈ ds -> is_Some (w_elems w !! d)) by (intros d Hd; by eapply family_in).
  destruct (H2 e ds w1 Hok) as (v & E2 & M2).
  - by eapply family_moves.
  - done.
  - intros d Hd. destruct (Hin d Hd) as [x Hx]. destruct M1 as (_ & _ & M1). destruct (M1 d x Hx) as (y & Hy & _ & Hs). eauto.
  - by eapply bins_ok_moves.
  - exists w1, v. split_and!; [done|done|]. by eapply moves_again.
Qed.

Lemma set_over n k old mid s :
  brings (zst_element_set_state E n) k old mid -> brings (zst_element_set_state E n) k mid s ->
  forall e ds w x, w_elems w !! e = Some x -> el_state x = old ->
  (forall v, (w_elems v !! e = Some x ->
     zst_element_set_state E (S n) e s v = climb (zst_element_set_state E n) e old mid s v \/
     zst_element_set_state E (S n) e s v = descend (zst_element_set_state E n) e mid s v)) ->
  sound ds -> family (w_elems w) k e ds -> NoDup ds -> all_in w ds old -> bins_ok w ds ->
  exists v, zst_element_set_state E (S n) e s w = Done (ZST_OK, v) /\ moves (fun _ => s) ds w v.
Proof.
  intros H1 H2 e ds w x Hx Hs Hset Hok Hf Hnd Ha Hb.
  destruct (brings_two _ _ k old mid s H1 H2 e ds w Hok Hf Hnd Ha Hb) as (w1 & v & E1 & E2 & M). exists v. split; [|done].
  destruct (Hset w Hx) as [-> | ->]; unfold climb, descend; munfold; rewrite E1;
    change (negb (ZST_OK =? ZST_OK)) with false; cbv beta iota; rewrite E2; done.
Qed.

(** From any state to any other. *)
Lemma all_brought n k old s : (k + 3 < n)%nat -> brings (zst_element_set_state E n) k old s.
Proof.
  intros Hn. do 4 (destruct n as [|n]; [lia|]).
  assert (Hover : forall m o mid t, brings (zst_element_set_state E m) k o mid -> brings (zst_element_set_state E m) k mid t ->
    step_hook o t = None -> o <> t -> (is_some (step_hook o mid) = true) ->
    (state_num o < state_num mid < state_num t \/ state_num t < state_num mid < state_num o) ->
    brings (zst_element_set_state E (S m)) k o t).
  { intros m o mid t H1 H2 Hno Hne Hmid Hord e ds w Hok Hf Hnd Ha Hb.
    destruct (Ha e (family_self _ _ _ _ Hf)) as (x & Hx & Hs).
    eapply (set_over m k o mid t H1 H2); try done. intros v Hv.
    cbn [zst_element_set_state]. munfold. unfold get_elem. rewrite Hv, Hs.
    destruct o, mid, t; cbn in Hno, Hmid, Hord; try done; try lia; auto. }
  assert (Hstep : forall m o t h, (k < m)%nat -> step_hook o t = Some h -> brings (zst_element_set_state E m) k o t)
    by (intros; by eapply neighbours).
  destruct (decide (old = s)) as [->|Hne]; [apply brings_same|].
  destruct (step_hook old s) as [h|] eqn:Eh; [eapply Hstep; [lia|done]|].
  destruct old, s; try done.
  - apply (Hover _ _ ZST_STATE_READY _); try done; [eapply Hstep; [lia|done]|eapply Hstep; [lia|done]|left; cbn; lia].
  - apply (Hover _ _ ZST_STATE_READY _); try done; [eapply Hstep; [lia|done]| |left; cbn; lia].
    apply (Hover _ _ ZST_STATE_PAUSED _); try done; [eapply Hstep; [lia|done]|eapply Hstep; [lia|done]|left; cbn; lia].
  - apply (Hover _ _ ZST_STATE_PAUSED _); try done; [eapply Hstep; [lia|done]|eapply Hstep; [lia|done]|left; cbn; lia].
  - apply (Hover _ _ ZST_STATE_READY _); try done; [eapply Hstep; [lia|done]|eapply Hstep; [lia|done]|right; cbn; lia].
  - apply (Hover _ _ ZST_STATE_PAUSED _); try done; [eapply Hstep; [lia|done]| |right; cbn; lia].
    apply (Hover _ _ ZST_STATE_READY _); try done; [eapply Hstep; [lia|done]|eapply Hstep; [lia|done]|right; cbn; lia].
  - apply (Hover _ _ ZST_STATE_PAUSED _); try done; [eapply Hstep; [lia|done]|eapply Hstep; [lia|done]|right; cbn; lia].
Qed.
End bins.

(** C20. Setting the state of a bin, nested to any depth, when it and everything in it are in
    one state, brings every element in it to the new state and touches no other element, if no
    hook fails; bins stay as they were built. *)
Theorem bin_brings_all {U} `{CMemory} (E : env U) f n k e ds (w : world U) cur s :
  calm_hooks E f -> calm_scheduler E -> sound f ds ->
  family (w_elems w) k e ds -> NoDup ds -> all_in w ds cur -> bins_ok w ds -> (k + 3 < n)%nat ->
  exists v, zst_element_set_state E n e s w = Done (ZST_OK, v) /\ all_in v ds s /\
    (forall d, d ∉ ds -> w_elems v !! d = w_elems w !! d) /\ family (w_elems v) k e ds.
Proof.
  intros Hh Hw Hok Hf Hnd Ha Hb Hn.
  destruct (all_brought E f Hh Hw n k cur s Hn e ds w Hok Hf Hnd Ha Hb) as (v & Ev & M). exists v.
  split_and!; [done| |by apply M|by eapply family_moves].
  intros d Hd. destruct (Ha d Hd) as (x & Hx & _). destruct M as (_ & _ & M).
  destruct (M d x Hx) as (y & Hy & _ & Hs). eauto.
Qed.

(** ** A child that fails *)

Section rollback.
Context {U : Type} `{CMemory} (E : env U) (f : nat -> hook -> U -> zst_result_t * U).
Context (Hhooks : calm_hooks E f) (Hwake : calm_scheduler E).

Lemma step_back old s h : step_hook old s = Some h -> exists h', step_hook s old = Some h'.
Proof. destruct old, s; try done; by eexists. Qed.

(** A plain child whose hook fails stays in its state. *)
Lemma child_fails n c y w old s h r :
  w_elems w !! c = Some y -> el_state y = old -> el_bin y = None -> step_hook old s = Some h ->
  is_some (hook_op (env_ops E c) h) = true -> (forall u, (f c h u).1 = r) -> r <> ZST_OK ->
  exists u, zst_element_set_state E (S n) c s w = Done (r, put_user w u).
Proof.
  intros Hy Hs Hb Hh Hop Hr Hne. rewrite (set_is_single E n c w y old s h Hy Hs Hh).
  rewrite (single_step_plain E f Hhooks Hwake _ c old s w y Hy Hb), Hh. unfold hook_effect. rewrite Hop.
  specialize (Hr (w_user w)). destruct (f c h (w_user w)) as [ret u]. cbn in Hr. subst ret.
  rewrite (proj2 (Z.eqb_neq r ZST_OK)) by done. by exists u.
Qed.

Lemma post_moves e ev x (w : world U) :
  w_elems w !! e = Some x ->
  exists v, post_if_bus e ev w = Done (tt, v) /\ w_elems v = w_elems w /\ w_pads v = w_pads w.
Proof.
  intros Hx. unfold post_if_bus, get_elem, zst_bus_post. munfold. rewrite Hx.
  destruct (el_bus x); by eexists.
Qed.

Lemma moves_same ds (w v : world U) : w_elems v = w_elems w -> w_pads v = w_pads w -> moves el_state ds w v.
Proof.
  intros He Hp. split; [by apply pads_keep_same|]. rewrite He. split; [done|]. intros d x Hx. by exists x.
Qed.

(** The children's part when [c] fails: those before it are back. *)
Lemma children_fail n k bin old s h cs1 c cs2 dss w x y r :
  (k < n)%nat -> step_hook old s = Some h -> w_elems w !! bin = Some x -> sound f (concat dss) ->
  Forall2 (family (w_elems w) k) cs1 dss -> NoDup (concat dss) -> all_in w (concat dss) old -> bins_ok w (concat dss) ->
  w_elems w !! c = Some y -> el_state y = old -> el_bin y = None -> c ∉ concat dss ->
  is_some (hook_op (env_ops E c) h) = true -> (forall u, (f c h u).1 = r) -> r <> ZST_OK ->
  exists v, change_children (zst_element_set_state E n) bin old s [] (cs1 ++ c :: cs2) w = Done (r, v) /\
    moves (fun _ => old) (concat dss) w v.
Proof.
  intros Hn Hh Hbin Hok Hf Hnd Ha Hb Hy Hs Hp Hc Hop Hr Hne. destruct (step_back old s h Hh) as (h' & Hh').
  destruct (children_prefix E f Hhooks Hwake (zst_element_set_state E n) k bin old s cs1 (c :: cs2) dss [] w) as (w1 & -> & M1);
    try done; [by eapply neighbours|].
  cbn [app change_children]. munfold. destruct n as [|n]; [lia|].
  destruct (child_fails n c y w1 old s h r) as (u & ->); try done.
  { destruct M1 as (_ & O1 & _). by rewrite O1. }
  rewrite (proj2 (Z.eqb_neq r ZST_OK)) by done. set (w2 := put_user w1 u).
  assert (M2 : moves (fun _ => s) (concat dss) w w2) by exact M1.
  assert (Hin : forall d, d ∈ concat dss -> is_Some (w_elems w !! d)).
  { intros d Hd. destruct (Ha d Hd) as (z & Hz & _). by eexists. }
  destruct (each_moves E f Hhooks Hwake (zst_element_set_state E (S n)) k s old cs1 dss w2) as (w3 & E3 & M3); try done.
  { by eapply neighbours. }
  { eapply Forall2_impl; [done|]. intros. by eapply family_moves. }
  { intros d Hd. destruct (Hin d Hd) as [z Hz]. destruct M2 as (_ & _ & M2). destruct (M2 d z Hz) as (z' & ? & _ & ?). eauto. }
  { by eapply bins_ok_moves. }
  rewrite E3. assert (M4 : moves (fun _ => old) (concat dss) w w3) by (by eapply moves_again).
  destruct M4 as (K4 & O4 & Hm4) eqn:EM. destruct (Hm4 bin x Hbin) as (x' & Hx' & _).
  destruct (post_moves bin (EventError c r) x' w3 Hx') as (v & -> & He & Hpd). exists v. split; [done|].
  clear EM. split; [intros q z Hz; rewrite Hpd; by apply K4|]. rewrite He. by split.
Qed.
End rollback.

(** When a child of a bin refuses to move, the bin's change of state fails with the
    child's error and every element is back where it was: the children moved before,
    with everything in them, and the bin. *)
Theorem bin_rolls_back {U} `{CMemory} (E : env U) f n k e x b cs1 c cs2 dss (w : world U) y old s h r :
  calm_hooks E f -> calm_scheduler E -> (k + 1 < n)%nat ->
  w_elems w !! e = Some x -> el_state x = old -> el_bin x = Some b -> bin_children b = cs1 ++ c :: cs2 ->
  Forall2 (family (w_elems w) k) cs1 dss -> NoDup (e :: c :: concat dss) -> all_in w (concat dss) old ->
  bins_ok w (e :: concat dss) -> (forall d, d ∈ cs2 -> is_Some (w_elems w !! d)) -> sound f (e :: concat dss) ->
  w_elems w !! c = Some y -> el_state y = old -> el_bin y = None ->
  step_hook old s = Some h -> is_some (hook_op (env_ops E c) h) = true -> (forall u, (f c h u).1 = r) -> r <> ZST_OK ->
  exists v, zst_element_set_state E n e s w = Done (r, v) /\
    forall d z, w_elems w !! d = Some z -> exists z', w_elems v !! d = Some z' /\ el_state z' = el_state z.
Proof.
  intros Hh Hw Hn Hx Hs Hbin Hcs Hf Hnd Ha Hb Hcs2 Hok Hy Hys Hyb Hstep Hop Hr Hne.
  destruct n as [|n]; [lia|]. apply NoDup_cons in Hnd as [He Hnd]. apply NoDup_cons in Hnd as [Hc Hnd].
  rewrite (set_is_single E n e w x old s h Hx Hs Hstep). unfold single_step. munfold.
  destruct (hook_ok E f Hh _ e (step_hook old s) w Hok) as (u & ->); [set_solver|].
  change (negb (ZST_OK =? ZST_OK)) with false. cbv iota. unfold get_elem at 1. cbn [w_elems put_user].
  rewrite Hx, Hbin. unfold bin_change_state. munfold.
  assert (Hkids : forall d, d ∈ bin_children b -> d ∈ concat dss ++ c :: cs2 /\ is_Some (w_elems w !! d)).
  { intros d. rewrite Hcs. intros [Hd|[->|Hd]%elem_of_cons]%elem_of_app.
    - assert (d ∈ concat dss) by (by eapply families_in). destruct (Ha d) as (z & Hz & _); [done|]. split; [set_solver|by eexists].
    - split; [set_solver|by eexists].
    - split; [set_solver|by apply Hcs2]. }
  destruct (prepare_moves E f Hh Hw e x b s (concat dss ++ c :: cs2) (put_user w u) Hx) as (w2 & E2 & M2); [by apply (Hb e x); [set_solver|]|done|].
  munfold. destruct (sync_children e (bin_children b) (put_user w u)) as [[[] w1]| |]; try done. rewrite E2.
  assert (M2' : moves el_state (e :: concat dss ++ c :: cs2) w w2) by exact M2. clear M2 E2.
  destruct M2' as (K2 & O2 & Hm2) eqn:EM. clear EM. destruct (Hm2 e x Hx) as (x2 & Hx2 & _).
  destruct (Hm2 c y Hy) as (y2 & Hy2 & [Sb _] & St). rewrite Hyb in Sb.
  rewrite Hcs. destruct (children_fail E f Hh Hw n k e old s h cs1 c cs2 dss w2 x2 y2 r) as (w3 & -> & M3); try done.
  { lia. }
  { intros d h0 u0 Hd. apply Hok. by right. }
  { eapply Forall2_impl; [done|]. intros. by eapply family_moves. }
  { eapply (all_in_moves old el_state (e :: concat dss ++ c :: cs2)); [exact M2'|done| |done].
    intros d Hd. right. apply elem_of_app. by left. }
  { intros d z Hd. eapply bins_ok_moves; [exact M2'| | |done].
    - intros d' Hd'. destruct (Ha d' Hd') as (z' & Hz' & _). by eexists.
    - intros d' z' Hd'. apply Hb. by right. }
  { rewrite St; [done|]. right. apply elem_of_app. right. left. }
  { by destruct (el_bin y2). }
  rewrite (proj2 (Z.eqb_neq r ZST_OK)) by done. cbn [negb].
  destruct (hook_ok E f Hh _ e (step_hook s old) w3 Hok) as (u' & ->); [set_solver|].
  rewrite (proj2 (Z.eqb_neq r ZST_OK)) by done. eexists. split; [done|]. intros d z Hz. cbn [w_elems put_user].
  destruct (Hm2 d z Hz) as (z2 & Hz2 & _ & T2). destruct M3 as (K3 & O3 & Hm3).
  destruct (Hm3 d z2 Hz2) as (z3 & Hz3 & _ & T3). exists z3. split; [done|].
  assert (Hz2s : el_state z2 = el_state z).
  { destruct (decide (d ∈ e :: concat dss ++ c :: cs2)) as [Hd|Hd]; [by apply T2|]. rewrite O2 in Hz2 by done. congruence. }
  destruct (decide (d ∈ concat dss)) as [Hd|Hd].
  - rewrite T3 by done. destruct (Ha d Hd) as (z' & Hz' & <-). congruence.
  - rewrite O3 in Hz3 by done. congruence.
Qed.

(** ** The theorems at concrete inputs *)

Section examples.
#[local] Existing Instance ample_memory.

(** Bin 1 holds the elements 2 and 3. *)
Definition bin_element : zst_element :=
  mk_element ZST_STATE_NULL [] [] true None None None (Some (mk_bin [2%nat; 3%nat] false false)).
Definition small_bin : world log :=
  mk_world 4 ∅ (<[1%nat := bin_element]> (<[2%nat := plain_element]> {[3%nat := plain_element]})) ∅ [] [] [].

Lemma bin_brings_all_witness :
  exists v, zst_element_set_state (log_env (fun _ _ => false)) 5 1 ZST_STATE_PLAYING small_bin = Done (ZST_OK, v) /\
    all_in v [1%nat; 2%nat; 3%nat] ZST_STATE_PLAYING.
Proof.
  destruct (bin_brings_all (log_env (fun _ _ => false)) (log_hook (fun _ _ => false)) 5 1 1 [1%nat; 2%nat; 3%nat]
              small_bin ZST_STATE_NULL ZST_STATE_PLAYING) as (v & Ev & Ha & _).
  - apply log_calm.
  - apply log_scheduler.
  - intros d h u _. reflexivity.
  - apply (family_bin _ 0 1 bin_element (mk_bin [2%nat; 3%nat] false false) [[2%nat]; [3%nat]]); [reflexivity|reflexivity|].
    constructor; [by eapply family_plain|]. constructor; [by eapply family_plain|constructor].
  - apply NoDup_cons. split; [set_solver|]. apply NoDup_cons. split; [set_solver|]. apply NoDup_singleton.
  - intros d Hd. repeat (apply elem_of_cons in Hd as [->|Hd]; [by eexists|]). by apply not_elem_of_nil in Hd.
  - intros d x Hd Hx. repeat (apply elem_of_cons in Hd as [->|Hd]; [injection Hx as <-; constructor|]).
    by apply not_elem_of_nil in Hd.
  - lia.
  - exists v. by split.
Defined.

Lemma bin_rolls_back_witness :
  exists v, zst_element_set_state (log_env (fun e _ => Nat.eqb e 3)) 3 1 ZST_STATE_READY small_bin = Done (ZST_ERROR, v).
Proof.
  destruct (bin_rolls_back (log_env (fun e _ => Nat.eqb e 3)) (log_hook (fun e _ => Nat.eqb e 3)) 3 0 1 bin_element
              (mk_bin [2%nat; 3%nat] false false) [2%nat] 3 [] [[2%nat]] small_bin plain_element ZST_STATE_NULL
              ZST_STATE_READY OPEN ZST_ERROR) as (v & Ev & _); try reflexivity.
  - apply log_calm.
  - apply log_scheduler.
  - lia.
  - constructor; [by eapply family_plain|constructor].
  - apply NoDup_cons. split; [set_solver|]. apply NoDup_cons. split; [set_solver|]. apply NoDup_singleton.
  - intros d Hd. apply list_elem_of_singleton in Hd as ->. by eexists.
  - intros d x Hd Hx. repeat (apply elem_of_cons in Hd as [->|Hd]; [injection Hx as <-; constructor|]).
    by apply not_elem_of_nil in Hd.
  - intros d Hd. by apply not_elem_of_nil in Hd.
  - intros d h u Hd. repeat (apply elem_of_cons in Hd as [->|Hd]; [reflexivity|]). by apply not_elem_of_nil in Hd.
  - discriminate.
  - by exists v.
Defined.
End examples.
