(* ===== verification/GraphSpec.v ===== *)
(** * References and links of the pad graph stay sound

    In a graph without ghost pads: every pad is referenced once by each holder and once
    by its peer, peers point at each other and face each other, elements hold the pads
    they list.  Every operation keeps this, never uses a freed pad, and ends, unless a
    pad is blocked or has probes. *)

From Stdlib Require Import String SpecFloat.
From S2P Require Import Prelude CLib Pad Caps Graph PadOps PadFlow Element.

Local Open Scope Z_scope.

(** ** Triples *)

Section triples.
Context {U : Type} (may_wait : bool).
Local Notation M := (M U).

(** From a world in [P], [m] does not use freed memory and ends in [Q]; it runs for
    ever only if that is allowed. *)
Definition holds {A} (P : world U -> Prop) (m : M A) (Q : A -> world U -> Prop) : Prop :=
  forall w, P w -> match m w with Done (a, v) => Q a v | Fault => False | Unfinished => may_wait = true end.

Lemma holds_ret {A} P (a : A) (Q : A -> world U -> Prop) : (forall w, P w -> Q a w) -> holds P (mret a) Q.
Proof. intros HQ w Hw. by apply HQ. Qed.

Lemma holds_bind {A B} P (m : M A) (k : A -> M B) R Q :
  holds P m R -> (forall a, holds (R a) (k a) Q) -> holds P (mbind k m) Q.
Proof.
  intros Hm Hk w Hw. specialize (Hm w Hw). unfold mbind, M_bind. destruct (m w) as [[a v]| |]; try done. by apply Hk.
Qed.

Lemma holds_weaken {A} (P P' : world U -> Prop) (m : M A) (Q Q' : A -> world U -> Prop) :
  holds P m Q -> (forall w, P' w -> P w) -> (forall a w, Q a w -> Q' a w) -> holds P' m Q'.
Proof.
  intros Hm HP HQ w Hw. specialize (Hm w (HP w Hw)). destruct (m w) as [[a v]| |]; try done. by apply HQ.
Qed.

Lemma holds_pre {A} (P : world U -> Prop) (m : M A) Q :
  (forall w, P w -> holds (fun v => v = w) m Q) -> holds P m Q.
Proof. intros Hm w Hw. by apply (Hm w Hw w). Qed.

Lemma holds_assoc {A B C} P (m : M A) (k : A -> M B) (l : B -> M C) Q :
  holds P (mbind l (mbind k m)) Q -> holds P (mbind (fun a => mbind l (k a)) m) Q.
Proof. intros Hm w Hw. specialize (Hm w Hw). unfold mbind, M_bind in *. by destruct (m w) as [[a v]| |]. Qed.

Lemma holds_from {A} (P : world U -> Prop) w (m : M A) Q : P w -> holds P m Q -> holds (fun v => v = w) m Q.
Proof. intros Hw Hm v ->. by apply Hm. Qed.

Lemma holds_if {A} (b : bool) P (m1 m2 : M A) Q :
  (b = true -> holds P m1 Q) -> (b = false -> holds P m2 Q) -> holds P (if b then m1 else m2) Q.
Proof. destruct b; auto. Qed.

Lemma holds_stuck {A} (P : world U -> Prop) (Q : A -> world U -> Prop) :
  (forall w, P w -> may_wait = true) -> holds P stuck Q.
Proof. intros Hp w Hw. by apply (Hp w). Qed.

Lemma holds_at {A} P (m : world U -> M A) Q :
  (forall w, P w -> holds P (m w) Q) -> holds P (fun w => m w w) Q.
Proof. intros Hm w Hw. by apply (Hm w Hw w). Qed.
End triples.

(** The rule for a sequence, [t] for its first part. *)
Tactic Notation "hbind" tactic3(t) := (eapply holds_bind; [t|cbn beta]).

Section sound.
Context {U : Type} (may_wait : bool) (K : Z) (HK : 2 <= K) (D : nat -> Prop) (dir : nat -> zst_pad_direction_t).
Local Notation M := (M U).
Implicit Types (w v : world U) (own tmp f : nat -> Z) (p q e : nat).

(** ** The invariant *)

(** [D] are the elements that live as long as the calls, [dir] gives the directions.
    [own p] counts the references to [p] of its owners, [tmp p] those of the calls under
    way; the peer's reference is a further one. *)
Record pad_ok own tmp w p (x : zst_pad) : Prop := {
  po_plain : pad_private x = NoPriv;
  po_linked : pad_linked x = is_some (pad_peer x);
  po_count : pad_refcount x = own p + tmp p + (if is_some (pad_peer x) then 1 else 0);
  po_live : 0 < pad_refcount x;
  po_parent : forall e, pad_parent x = Some e -> D e;
  po_dir : pad_direction x = dir p;
  po_peer : forall q, pad_peer x = Some q ->
    exists y, w_pads w !! q = Some y /\ pad_peer y = Some p /\ dir q <> dir p;
}.

(** An element owns the pads it lists; their number is below [K]. *)
Record elem_ok own (el : zst_element) : Prop := {
  eo_src : Forall (fun p => 0 < own p) (el_src_pads el);
  eo_sink : Forall (fun p => 0 < own p) (el_sink_pads el);
  eo_many : zlen (el_src_pads el) + 2 <= K /\ zlen (el_sink_pads el) + 2 <= K;
  eo_bin : forall b, el_parent_bin el = Some b -> D b;
}.

Definition quiet w : Prop :=
  forall p x, w_pads w !! p = Some x -> blocked (pad_probes x) = false /\ has_probes (pad_probes x) = 0.

Record sound own tmp w : Prop := {
  so_pads : forall p x, w_pads w !! p = Some x -> pad_ok own tmp w p x;
  so_held : forall p, 0 < own p + tmp p -> is_Some (w_pads w !! p);
  so_counts : forall p, 0 <= own p /\ 0 <= tmp p;
  so_elems : forall e el, w_elems w !! e = Some el -> elem_ok own el;
  so_alive : forall e, D e -> is_Some (w_elems w !! e);
  so_next : forall p, is_Some (w_pads w !! p) -> (p < w_next w)%nat;
  so_quiet : may_wait = false -> quiet w;
}.

(** Room for [n] more nested calls below the largest [int]. *)
Definition fits (n : nat) own tmp : Prop := forall p, own p + tmp p + Z.of_nat n * K < 2147483646.

(** One more, or one less, at [p]. *)
Definition add_at (p : nat) (k : Z) (f : nat -> Z) : nat -> Z := fun q => if decide (q = p) then f q + k else f q.
Definition bump p f : nat -> Z := add_at p 1 f.

Fixpoint bumps (ps : list nat) f : nat -> Z := match ps with [] => f | p :: ps => bumps ps (bump p f) end.

Lemma add_at_same p k f : add_at p k f p = f p + k.
Proof. unfold add_at. by rewrite decide_True. Qed.

Lemma add_at_other p k f q : q <> p -> add_at p k f q = f q.
Proof. unfold add_at. intros. by rewrite decide_False. Qed.

Lemma bump_ge p f q : f q <= bump p f q <= f q + 1.
Proof. unfold bump, add_at. destruct (decide _); lia. Qed.

Lemma bump_held p f : f p < bump p f p.
Proof. unfold bump. rewrite add_at_same. lia. Qed.

Lemma bumps_ge ps f q : f q <= bumps ps f q <= f q + zlen ps.
Proof.
  revert f. induction ps as [|p ps IH]; intros f; cbn [bumps]; [rewrite zlen_nil; lia|].
  rewrite zlen_cons. pose proof (IH (bump p f)). pose proof (bump_ge p f q). lia.
Qed.

Lemma bumps_held ps f q : q ∈ ps -> f q < bumps ps f q.
Proof.
  revert f. induction ps as [|p ps IH]; intros f Hq; [by apply not_elem_of_nil in Hq|]. cbn [bumps].
  apply elem_of_cons in Hq as [->|Hq].
  - pose proof (bumps_ge ps (bump p f) p). pose proof (bump_held p f). lia.
  - pose proof (IH (bump p f) Hq). pose proof (bump_ge p f q). lia.
Qed.

(** ** Stores that leave references alone *)

(** Two pads that differ only in what the invariant does not look at. *)
Definition same_links (x y : zst_pad) : Prop :=
  pad_private y = pad_private x /\ pad_linked y = pad_linked x /\ pad_refcount y = pad_refcount x /\
  pad_peer y = pad_peer x /\ (forall e, pad_parent y = Some e -> pad_parent x = Some e \/ D e) /\ pad_direction y = pad_direction x /\
  (may_wait = false -> blocked (pad_probes x) = false -> has_probes (pad_probes x) = 0 ->
     blocked (pad_probes y) = false /\ has_probes (pad_probes y) = 0).

Lemma put_pad_sound own tmp w p x y :
  sound own tmp w -> w_pads w !! p = Some x -> same_links x y -> sound own tmp (put_pads w (<[p := y]> (w_pads w))).
Proof.
  intros [Hp Hh Hc He Ha Hn Hq] Hx (S1 & S2 & S3 & S4 & S5 & S6 & S7). constructor; cbn [w_pads w_elems w_next put_pads].
  - intros q z Hz.
    assert (exists z0, w_pads w !! q = Some z0 /\ pad_private z = pad_private z0 /\ pad_linked z = pad_linked z0 /\
      pad_refcount z = pad_refcount z0 /\ pad_peer z = pad_peer z0 /\ (forall e, pad_parent z = Some e -> pad_parent z0 = Some e \/ D e) /\
      pad_direction z = pad_direction z0) as (z0 & Hz0 & E1 & E2 & E3 & E4 & E5 & E6).
    { destruct (decide (p = q)) as [->|]; [rewrite lookup_insert_eq in Hz; injection Hz as <-; by exists x|].
      rewrite lookup_insert_ne in Hz by done. exists z. repeat split; try done. by left. }
    destruct (Hp q z0 Hz0) as [P1 P2 P3 P5 P6 P8 P7].
    constructor; cbn [w_pads w_elems put_pads]; rewrite ?E1, ?E2, ?E3, ?E4, ?E6; try done.
    { intros e He'. destruct (E5 e He') as [H0|]; [by apply P6|done]. }
    intros r Hr. destruct (P7 r Hr) as (t & Ht & Hpt & Hd). destruct (decide (p = r)) as [->|].
    + exists y. rewrite lookup_insert_eq. rewrite Hx in Ht. injection Ht as <-. by rewrite S4.
    + exists t. by rewrite lookup_insert_ne.
  - intros q Hq0. destruct (Hh q Hq0) as [z Hz]. destruct (decide (p = q)) as [->|].
    + rewrite lookup_insert_eq. by eexists.
    + rewrite lookup_insert_ne by done. by eexists.
  - done.
  - done.
  - done.
  - intros q [z Hz]. apply Hn. destruct (decide (p = q)) as [->|]; [by eexists|]. rewrite lookup_insert_ne in Hz by done. by eexists.
  - intros Hm q z. cbn [w_pads put_pads]. intros Hz. destruct (decide (p = q)) as [->|]; [|rewrite lookup_insert_ne in Hz by done; by apply (Hq Hm q z)].
    rewrite lookup_insert_eq in Hz. injection Hz as <-. destruct (Hq Hm q x Hx). by apply S7.
Qed.

Lemma put_elem_sound own tmp w e el :
  sound own tmp w -> elem_ok own el -> sound own tmp (put_elems w (<[e := el]> (w_elems w))).
Proof.
  intros [Hp Hh Hc He Ha Hn Hq] Hel. constructor; cbn; try done.
  - intros p x Hx. by destruct (Hp p x Hx).
  - intros d y Hy. destruct (decide (e = d)) as [->|]; [rewrite lookup_insert_eq in Hy; by injection Hy as <-|].
    rewrite lookup_insert_ne in Hy by done. by apply (He d).
  - intros d Hd. destruct (decide (e = d)) as [->|]; [rewrite lookup_insert_eq; by eexists|]. rewrite lookup_insert_ne by done. by apply Ha.
Qed.

Lemma holds_get own tmp p (Q : zst_pad -> world U -> Prop) :
  (forall w x, sound own tmp w -> w_pads w !! p = Some x -> Q x w) -> 0 < own p + tmp p -> holds may_wait (sound own tmp) (get_pad p) Q.
Proof.
  intros HQ Hp w Hw. unfold get_pad. destruct (so_held _ _ _ Hw p Hp) as [x Hx]. rewrite Hx. by apply HQ.
Qed.

Lemma modify_holds own tmp p (g : zst_pad -> zst_pad) :
  (forall x, same_links x (g x)) -> 0 < own p + tmp p -> holds may_wait (sound own tmp) (modify_pad p g) (fun _ => sound own tmp).
Proof.
  intros Hf Hp w Hw. unfold modify_pad, get_pad, set_pad, mbind, M_bind.
  destruct (so_held _ _ _ Hw p Hp) as [x Hx]. rewrite Hx. by eapply put_pad_sound.
Qed.

(** ** References *)

(** The counts of all pads but [p] are the same. *)
Definition same_but p own tmp own' tmp' : Prop := forall q, q <> p -> own' q = own q /\ tmp' q = tmp q.

Lemma same_but_tmp p k own tmp : same_but p own tmp own (add_at p k tmp).
Proof. intros q Hq. by rewrite add_at_other. Qed.

Lemma same_but_own p k own tmp : same_but p own tmp (add_at p k own) tmp.
Proof. intros q Hq. by rewrite add_at_other. Qed.

(** No element lists a pad that it would no longer own. *)
Definition lists_ok own w : Prop := forall e el, w_elems w !! e = Some el -> elem_ok own el.

Lemma recount_sound own tmp own' tmp' w p x y :
  sound own tmp w -> w_pads w !! p = Some x -> same_but p own tmp own' tmp' -> lists_ok own' w ->
  y = with_link x (pad_peer x) (pad_linked x) (own' p + tmp' p + (if is_some (pad_peer x) then 1 else 0)) ->
  0 <= own' p -> 0 <= tmp' p -> 0 < pad_refcount y -> sound own' tmp' (put_pads w (<[p := y]> (w_pads w))).
Proof.
  intros [Hp Hh Hc He Ha Hn Hq] Hx Hsame Hl -> Ho Ht Hlive. constructor; cbn [w_pads w_elems w_next put_pads].
  - intros q z Hz. destruct (decide (p = q)) as [->|Hne].
    + rewrite lookup_insert_eq in Hz. injection Hz as <-. destruct (Hp q x Hx) as [P1 P2 P3 P5 P6 P8 P7].
      constructor; cbn [w_pads w_elems put_pads]; try done.
      intros r Hr. destruct (P7 r Hr) as (t & Hpt & Hback & Hd). assert (r <> q) by congruence.
      exists t. rewrite lookup_insert_ne by done. done.
    + rewrite lookup_insert_ne in Hz by done. destruct (Hp q z Hz) as [P1 P2 P3 P5 P6 P8 P7].
      destruct (Hsame q ltac:(congruence)) as [Eo Et].
      constructor; cbn [w_pads w_elems put_pads]; rewrite ?Eo, ?Et; try done.
      intros r Hr. destruct (P7 r Hr) as (t & Hpt & Hback & Hd). destruct (decide (p = r)) as [->|].
      * eexists. rewrite lookup_insert_eq. split; [done|]. rewrite Hx in Hpt. injection Hpt as <-. done.
      * exists t. by rewrite lookup_insert_ne.
  - intros q Hq0. destruct (decide (p = q)) as [->|Hne]; [rewrite lookup_insert_eq; by eexists|].
    rewrite lookup_insert_ne by done. apply Hh. destruct (Hsame q) as [<- <-]; congruence.
  - intros q. destruct (decide (p = q)) as [->|Hne]; [done|]. destruct (Hsame q) as [-> ->]; [congruence|apply Hc].
  - done.
  - done.
  - intros q [z Hz]. apply Hn. destruct (decide (p = q)) as [->|]; [by eexists|].
    rewrite lookup_insert_ne in Hz by done. by eexists.
  - intros Hm q z. cbn [w_pads put_pads]. intros Hz.
    destruct (decide (p = q)) as [->|]; [|rewrite lookup_insert_ne in Hz by done; by apply (Hq Hm q z)].
    rewrite lookup_insert_eq in Hz. injection Hz as <-. by apply (Hq Hm q x).
Qed.

Lemma ref_holds own tmp p :
  0 < own p + tmp p -> own p + tmp p < 2147483646 ->
  holds may_wait (sound own tmp) (zst_pad_ref p) (fun _ => sound own (bump p tmp)).
Proof.
  intros Hp Hfit w Hw. unfold zst_pad_ref, modify_pad, get_pad, set_pad, mbind, M_bind.
  destruct (so_held _ _ _ Hw p Hp) as [x Hx]. rewrite Hx. pose proof (so_pads _ _ _ Hw p x Hx) as Hok.
  pose proof (po_count _ _ _ _ _ Hok). pose proof (po_live _ _ _ _ _ Hok). pose proof (so_counts _ _ _ Hw p).
  rewrite s32_small by (destruct (is_some _); lia).
  eapply (recount_sound own tmp own (bump p tmp)); try done.
  - apply same_but_tmp.
  - exact (so_elems _ _ _ Hw).
  - unfold bump. rewrite add_at_same. f_equal. lia.
  - lia.
  - unfold bump. rewrite add_at_same. lia.
  - cbn. lia.
Qed.

(** The counts matter pad by pad. *)
#[local] Instance sound_proper :
  Proper (pointwise_relation nat eq ==> pointwise_relation nat eq ==> eq ==> iff) sound.
Proof.
  assert (Hone : forall own own' tmp tmp' w, pointwise_relation nat eq own own' -> pointwise_relation nat eq tmp tmp' ->
    sound own tmp w -> sound own' tmp' w).
  { intros own own' tmp tmp' w Eo Et [Hp Hh Hc He Ha Hn Hq]. constructor; try done.
    - intros p x Hx. destruct (Hp p x Hx). constructor; try done. by rewrite <- Eo, <- Et.
    - intros p. rewrite <- Eo, <- Et. apply Hh.
    - intros p. rewrite <- Eo, <- Et. apply Hc.
    - intros e el Hel. destruct (He e el Hel) as [Hs Hk Hm Hb]. constructor; try done.
      + eapply Forall_impl; [exact Hs|]. cbn. intros p. by rewrite Eo.
      + eapply Forall_impl; [exact Hk|]. cbn. intros p. by rewrite Eo. }
  intros own own' Eo tmp tmp' Et w w' <-. split; apply Hone; done.
Qed.

Lemma bump_comm p q f : pointwise_relation nat eq (bump p (bump q f)) (bump q (bump p f)).
Proof. intros r. unfold bump, add_at. repeat destruct (decide _); lia. Qed.

#[local] Instance bump_proper : Proper (eq ==> pointwise_relation nat eq ==> pointwise_relation nat eq) bump.
Proof. intros p q <- f g Hf r. unfold bump, add_at. by rewrite (Hf r). Qed.

#[local] Instance bumps_proper : Proper (eq ==> pointwise_relation nat eq ==> pointwise_relation nat eq) bumps.
Proof.
  intros ps qs <-. induction ps as [|p ps IH]; intros f g Hf; cbn [bumps]; [done|]. apply IH. by rewrite Hf.
Qed.

Lemma bumps_bump ps p f : pointwise_relation nat eq (bumps ps (bump p f)) (bump p (bumps ps f)).
Proof.
  revert f. induction ps as [|q ps IH]; intros f; cbn [bumps]; [done|]. rewrite (bump_comm q p). apply IH.
Qed.

(** A pad that nobody holds any more can go. *)
Lemma drop_sound own tmp own' tmp' w p x :
  sound own tmp w -> w_pads w !! p = Some x -> pad_peer x = None ->
  same_but p own tmp own' tmp' -> own' p = 0 -> tmp' p = 0 -> lists_ok own' w ->
  sound own' tmp' (put_pads w (base.delete p (w_pads w))).
Proof.
  intros [Hp Hh Hc He Ha Hn Hq] Hx Hpeer Hsame Eo Et Hl. constructor; cbn [w_pads w_elems w_next put_pads].
  - intros q z Hz. apply lookup_delete_Some in Hz as [Hne Hz]. destruct (Hp q z Hz) as [P1 P2 P3 P5 P6 P8 P7].
    destruct (Hsame q ltac:(congruence)) as [Eo' Et'].
    constructor; cbn [w_pads w_elems put_pads]; rewrite ?Eo', ?Et'; try done.
    intros r Hr. destruct (P7 r Hr) as (t & Hpt & Hback & Hd). exists t. rewrite lookup_delete_ne; [done|]. congruence.
  - intros q Hq0. assert (q <> p) as Hne by (intros ->; lia). rewrite lookup_delete_ne by done. apply Hh.
    by destruct (Hsame q Hne) as [<- <-].
  - intros q. destruct (decide (q = p)) as [->|Hne]; [lia|]. destruct (Hsame q Hne) as [-> ->]. apply Hc.
  - done.
  - done.
  - intros q [z Hz]. apply lookup_delete_Some in Hz as [_ Hz]. apply Hn. by eexists.
  - intros Hm q z Hz. cbn [w_pads put_pads] in Hz. apply lookup_delete_Some in Hz as [_ Hz]. by apply (Hq Hm q z).
Qed.

Lemma unref_pad_alive n p (w : world U) x :
  w_pads w !! p = Some x -> pad_refcount x <> 1 -> 
  unref_pad (S n) p w =
  Done (tt, put_pads w (<[p := with_link x (pad_peer x) (pad_linked x) (s32 (pad_refcount x - 1))]> (w_pads w))).
Proof.
  intros Hx Hr. cbn [unref_pad]. unfold get_pad, set_pad, mbind, M_bind. rewrite Hx. destruct (Z.eqb_spec (pad_refcount x) 1); done.
Qed.

Lemma unref_pad_last n p (w : world U) x :
  w_pads w !! p = Some x -> pad_refcount x = 1 -> pad_peer x = None -> pad_private x = NoPriv ->
  unref_pad (S n) p w = Done (tt, put_pads w (base.delete p (w_pads w))).
Proof.
  intros Hx Hr Hpeer Hpriv. cbn [unref_pad]. unfold zst_pad_finalize, drop_pad, get_pad, set_pad, mbind, M_bind, mret, M_ret.
  rewrite Hx, Hr. cbn [Z.eqb Pos.eqb put_pads w_pads w_next w_elems w_bufs w_bus w_dirty w_user].
  rewrite lookup_insert_eq. cbn [with_link pad_peer]. rewrite Hpeer. cbn [put_pads w_pads].
  rewrite lookup_insert_eq. cbn [with_link pad_private]. rewrite Hpriv.
  unfold put_pads. cbn [w_pads w_next w_elems w_bufs w_bus w_dirty w_user].
  by rewrite !delete_insert_eq.
Qed.

Lemma unref_general own tmp own' tmp' p :
  same_but p own tmp own' tmp' -> own' p + tmp' p = own p + tmp p - 1 -> 0 <= own' p -> 0 <= tmp' p ->
  own p + tmp p < 2147483647 ->
  holds may_wait (fun w => sound own tmp w /\ lists_ok own' w) (zst_pad_unref p) (fun _ => sound own' tmp').
Proof.
  intros Hsame Hsum Ho Ht Hfit w [Hw Hl]. unfold zst_pad_unref.
  destruct (so_held _ _ _ Hw p ltac:(lia)) as [x Hx]. pose proof (so_pads _ _ _ Hw p x Hx) as Hok.
  pose proof (po_count _ _ _ _ _ Hok) as Hcount. pose proof (po_live _ _ _ _ _ Hok) as Hlive.
  destruct (decide (pad_refcount x = 1)) as [Hone|Hmore].
  - assert (pad_peer x = None) as Hpeer by (destruct (pad_peer x); [cbn in Hcount; lia|done]).
    rewrite Hpeer in Hcount. cbn in Hcount.
    rewrite (unref_pad_last _ _ _ x) by (try done; apply Hok).
    eapply drop_sound; try done; lia.
  - rewrite (unref_pad_alive _ _ _ x) by done.
    rewrite s32_small by (destruct (is_some _); lia).
    eapply (recount_sound own tmp); try done; [f_equal; lia|]. cbn. lia.
Qed.

(** A call drops the reference it took. *)
Lemma unref_holds own tmp p :
  0 <= tmp p -> own p + tmp p < 2147483646 ->
  holds may_wait (sound own (bump p tmp)) (zst_pad_unref p) (fun _ => sound own tmp).
Proof.
  intros Ht Hfit w Hw. pose proof (so_counts _ _ _ Hw p).
  apply (unref_general own (bump p tmp) own tmp p); [..|split; [exact Hw|exact (so_elems _ _ _ Hw)]];
    try (unfold bump; rewrite add_at_same); try lia.
  intros q Hq. unfold bump. by rewrite add_at_other.
Qed.

(** ** Reading a pad *)

(** Between a read and the next store, the pad is the one that was read. *)
Definition at_pad own tmp p (x : zst_pad) (w : world U) : Prop := sound own tmp w /\ w_pads w !! p = Some x.

Lemma read_holds {A} own tmp p (k : zst_pad -> M A) Q :
  0 < own p + tmp p -> (forall x, holds may_wait (at_pad own tmp p x) (k x) Q) ->
  holds may_wait (sound own tmp) (mbind k (get_pad p)) Q.
Proof.
  intros Hp Hk w Hw. unfold mbind, M_bind, get_pad. destruct (so_held _ _ _ Hw p Hp) as [x Hx]. rewrite Hx. by apply Hk.
Qed.

Lemma forget_holds {A} own tmp p x (m : M A) Q : holds may_wait (sound own tmp) m Q -> holds may_wait (at_pad own tmp p x) m Q.
Proof. intros Hm w [Hw _]. by apply Hm. Qed.

Lemma store_holds own tmp p x y :
  same_links x y -> holds may_wait (at_pad own tmp p x) (set_pad p y) (fun _ => sound own tmp).
Proof. intros Hs w [Hw Hx]. cbn. by eapply put_pad_sound. Qed.

Lemma known_holds {A} own tmp p x (m : M A) Q :
  (forall w, pad_ok own tmp w p x -> (may_wait = false -> blocked (pad_probes x) = false /\ has_probes (pad_probes x) = 0) ->
     holds may_wait (at_pad own tmp p x) m Q) ->
  holds may_wait (at_pad own tmp p x) m Q.
Proof.
  intros Hm w [Hw Hx]. apply (Hm w); [by apply (so_pads _ _ _ Hw)| |done]. intros Hf. by apply (so_quiet _ _ _ Hw Hf p).
Qed.

Lemma elem_holds {A} own tmp e (k : zst_element -> M A) Q :
  D e -> (forall el, elem_ok own el -> holds may_wait (sound own tmp) (k el) Q) ->
  holds may_wait (sound own tmp) (mbind k (get_elem e)) Q.
Proof.
  intros He Hk w Hw. unfold mbind, M_bind, get_elem. destruct (so_alive _ _ _ Hw e He) as [el Hel]. rewrite Hel.
  apply Hk; [by apply (so_elems _ _ _ Hw e)|done].
Qed.

Lemma counts_holds {A} own tmp (m : M A) Q :
  ((forall q, 0 <= own q /\ 0 <= tmp q) -> holds may_wait (sound own tmp) m Q) -> holds may_wait (sound own tmp) m Q.
Proof. intros Hm w Hw. apply Hm; [exact (so_counts _ _ _ Hw)|done]. Qed.

(** ** Peers, elements, snapshots *)

Lemma peer_holds own tmp p :
  0 < own p + tmp p -> (forall q, own q + tmp q < 2147483646) ->
  holds may_wait (sound own tmp) (zst_pad_get_peer p)
    (fun r w => match r with Some q => sound own (bump q tmp) w /\ dir q <> dir p | None => sound own tmp w end).
Proof.
  intros Hp Hfit w Hw. unfold zst_pad_get_peer, get_pad, mbind, M_bind.
  destruct (so_held _ _ _ Hw p Hp) as [x Hx]. rewrite Hx. destruct (pad_peer x) as [q|] eqn:Hpeer; [|done].
  destruct (po_peer _ _ _ _ _ (so_pads _ _ _ Hw p x Hx) q Hpeer) as (y & Hy & Hback & Hdir).
  pose proof (so_pads _ _ _ Hw q y Hy) as Hok.
  (* The peer may be held by its link alone. *)
  unfold zst_pad_ref, modify_pad, get_pad, set_pad, mbind, M_bind. rewrite Hy. cbn [mret M_ret].
  pose proof (po_count _ _ _ _ _ Hok) as Hc. rewrite Hback in Hc. cbn [is_some] in Hc.
  pose proof (so_counts _ _ _ Hw q). pose proof (Hfit q). rewrite s32_small by lia. split; [|done].
  eapply (recount_sound own tmp own (bump q tmp)); try done.
  - apply same_but_tmp.
  - exact (so_elems _ _ _ Hw).
  - rewrite Hback. cbn [is_some]. unfold bump. rewrite add_at_same. f_equal. lia.
  - lia.
  - unfold bump. rewrite add_at_same. lia.
  - cbn. lia.
Qed.

Lemma fits_bump n p own tmp : fits (S n) own tmp -> fits n own (bump p tmp).
Proof. intros Hf q. pose proof (Hf q). pose proof (bump_ge p tmp q). nia. Qed.

Lemma fits_le n own tmp q : fits n own tmp -> own q + tmp q < 2147483646.
Proof. intros Hf. pose proof (Hf q). nia. Qed.

Lemma ref_all_holds own tmp ps :
  Forall (fun p => 0 < own p) ps -> (forall q, 0 <= tmp q) -> (forall q, own q + tmp q + zlen ps < 2147483647) ->
  holds may_wait (sound own tmp) (ref_all ps) (fun _ => sound own (bumps ps tmp)).
Proof.
  intros Hps. revert tmp. induction Hps as [|p ps Hp Hps IH]; intros tmp Ht Hfit; cbn [ref_all bumps]; [by apply holds_ret|].
  assert (forall q, own q + tmp q + zlen ps < 2147483646) as Hfit' by (intros q; specialize (Hfit q); rewrite zlen_cons in Hfit; lia).
  pose proof (zlen_nonneg ps).
  hbind (apply ref_holds; [pose proof (Ht p); lia|pose proof (Hfit' p); lia]). intros _. apply IH.
  - intros q. pose proof (Ht q). pose proof (bump_ge p tmp q). lia.
  - intros q. pose proof (Hfit' q). pose proof (bump_ge p tmp q). lia.
Qed.

Lemma free_holds own tmp ps :
  (forall q, 0 <= tmp q) -> (forall q, own q + tmp q + zlen ps < 2147483647) ->
  holds may_wait (sound own (bumps ps tmp)) (zst_element_pad_snapshot_free ps) (fun _ => sound own tmp).
Proof.
  induction ps as [|p ps IH]; intros Ht Hfit; cbn [zst_element_pad_snapshot_free bumps]; [by apply holds_ret|].
  assert (forall q, own q + tmp q + zlen ps < 2147483646) as Hfit' by (intros q; specialize (Hfit q); rewrite zlen_cons in Hfit; lia).
  hbind idtac; [|intros ?; apply IH; [done|intros q; pose proof (Hfit' q); lia]].
  eapply holds_weaken; [apply unref_holds|intros w; by rewrite bumps_bump|done].
  - pose proof (Ht p). pose proof (bumps_ge ps tmp p). lia.
  - pose proof (Hfit' p). pose proof (bumps_ge ps tmp p). lia.
Qed.

Lemma each_holds own tmp (f : nat -> M zst_result_t) ps :
  Forall (fun p => holds may_wait (sound own tmp) (f p) (fun _ => sound own tmp)) ps ->
  holds may_wait (sound own tmp) (each_pad f ps) (fun _ => sound own tmp).
Proof.
  induction 1 as [|p ps Hp Hps IH]; cbn [each_pad]; [by apply holds_ret|]. hbind (exact Hp); intros ?; exact IH.
Qed.

(** What a snapshot gives: the pads, each referenced once more. *)
Definition taken own tmp (r : option (list nat)) w : Prop :=
  match r with
  | Some ps => (Forall (fun p => 0 < own p) ps /\ zlen ps + 2 <= K) /\ sound own (bumps ps tmp) w
  | None => sound own tmp w
  end.

Lemma snapshot_holds `{CMemory} own tmp pads e :
  D e -> (forall el, elem_ok own el -> Forall (fun p => 0 < own p) (pads el) /\ zlen (pads el) + 2 <= K) ->
  (forall q, 0 <= tmp q) -> (forall q, own q + tmp q + K < 2147483647) ->
  holds may_wait (sound own tmp) (snapshot pads e) (taken own tmp).
Proof.
  intros He Hpads Ht Hfit. unfold snapshot. apply elem_holds; [done|]. intros el Hel.
  destruct (Hpads el Hel) as [Hown Hlen]. destruct (pads el) as [|p ps] eqn:Eps.
  - apply holds_ret. intros w Hw. unfold taken. cbn [bumps]. done.
  - apply holds_if; intros _; [|by apply holds_ret].
    hbind (apply ref_all_holds; [done|done|intros q; specialize (Hfit q); lia]).
    intros _. apply holds_ret. intros w Hw. done.
Qed.

(** ** Outside code *)

(** Handlers and probes give back what they borrow; while this thread waits, the others
    leave the owners' references in place. *)
Record calm (E : env U) : Prop := {
  calm_probe : forall own tmp c p b t,
    holds may_wait (sound own tmp) (env_probe E c p b t) (fun _ => sound own tmp);
  calm_caps : forall own tmp e h p, op_get_caps (env_ops E e) = Some h ->
    holds may_wait (sound own tmp) (h p) (fun _ => sound own tmp);
  calm_event : forall own tmp e h p ev, op_event (env_ops E e) = Some h ->
    holds may_wait (sound own tmp) (h p ev) (fun _ => sound own tmp);
  calm_unblocked : forall own tmp p, holds may_wait (sound own tmp) (env_unblocked E p) (fun _ => sound own tmp);
}.

(** ** Probes *)

(** [m] keeps the graph sound, with the same counts. *)
Definition keeps {A} own tmp (m : M A) : Prop := holds may_wait (sound own tmp) m (fun _ => sound own tmp).

Lemma keeps_ret {A} own tmp (a : A) : keeps own tmp (mret a).
Proof. by apply holds_ret. Qed.

Lemma keeps_bind {A B} own tmp (m : M A) (k : A -> M B) :
  keeps own tmp m -> (forall a, keeps own tmp (k a)) -> keeps own tmp (mbind k m).
Proof. apply holds_bind. Qed.

Lemma keeps_if {A} own tmp (b : bool) (m1 m2 : M A) : keeps own tmp m1 -> keeps own tmp m2 -> keeps own tmp (if b then m1 else m2).
Proof. by destruct b. Qed.

Lemma keeps_read {A} own tmp p (k : zst_pad -> M A) :
  0 < own p + tmp p -> (forall x, keeps own tmp (k x)) -> keeps own tmp (mbind k (get_pad p)).
Proof. intros Hp Hk. apply read_holds; [done|]. intros x. apply forget_holds, Hk. Qed.

Lemma probing_keeps own tmp p (g : pad_probing -> pad_probing) :
  may_wait = true -> 0 < own p + tmp p -> keeps own tmp (modify_probing p g).
Proof. intros Hm Hp. apply modify_holds; [|done]. intros x. repeat split; first [congruence | intros; by left]. Qed.

Lemma stuck_keeps {A} own tmp : may_wait = true -> keeps own tmp (stuck : M A).
Proof. intros Hm. by apply holds_stuck. Qed.

(** One step along the code: a sequence, a test, a read, a result. *)
Ltac keep :=
  repeat match goal with
  | |- keeps _ _ (mret _) => apply keeps_ret
  | |- keeps _ _ (if _ then _ else _) => apply keeps_if
  | |- keeps _ _ (mbind _ (get_pad _)) => apply keeps_read; [done|intros ?]
  | |- keeps _ _ (mbind _ _) => apply keeps_bind; [|intros ?]
  end.

Lemma block_keeps own tmp E n p buf type :
  calm E -> may_wait = true -> 0 < own p + tmp p -> keeps own tmp (pad_handle_block E n p buf type).
Proof.
  intros Hcalm Hm Hp. induction n as [|n IH]; cbn [pad_handle_block]; [by apply stuck_keeps|].
  assert (keeps own tmp (_ ← wait_unblocked E p; pad_handle_block E n p buf type)) as Hwait.
  { unfold wait_unblocked. keep; first [exact IH | by apply calm_unblocked | by apply stuck_keeps | by apply probing_keeps]. }
  apply keeps_read; [done|]. intros x. cbn zeta. keep.
  - by apply probing_keeps.
  - destruct (block_callback _) as [c|]; keep; first [by apply probing_keeps | by apply calm_probe].
  - destruct a as [[]|]; try exact Hwait; unfold zst_pad_unblock; keep. by apply probing_keeps.
Qed.

Lemma call_probes_keeps own tmp E rounds cs p buf type :
  calm E -> may_wait = true -> 0 < own p + tmp p -> keeps own tmp (call_probes E rounds cs p buf type).
Proof.
  intros Hcalm Hm Hp. induction cs as [|c cs IH]; cbn [call_probes]; [apply keeps_ret|].
  apply keeps_bind; [by apply calm_probe|].
  assert (keeps own tmp (_ ← zst_pad_block p; r ← pad_handle_block E rounds p buf type;
            if is_probe_ok r then call_probes E rounds cs p buf type else mret r)) as Hblock
    by (unfold zst_pad_block; keep; first [by apply probing_keeps | by apply block_keeps | done]).
  intros []; try exact Hblock; [exact IH|apply keeps_ret].
Qed.

Lemma probes_keeps `{CMemory} own tmp E rounds p buf type :
  calm E -> 0 < own p + tmp p -> keeps own tmp (pad_run_probes E rounds p buf type).
Proof.
  intros Hcalm Hp. unfold pad_run_probes. apply read_holds; [done|]. intros x. apply known_holds. intros _ _ Hquiet.
  apply holds_if; intros Hfast; apply forget_holds; [apply keeps_ret|].
  assert (may_wait = true) as Hm.
  { destruct may_wait; [done|]. destruct Hquiet as [Eb Eh]; [done|]. by rewrite Eb, Eh in Hfast. }
  change (keeps own tmp (run_probes_slow E rounds p buf type)).
  unfold run_probes_slow. cbn zeta. keep; [by apply block_keeps|by apply call_probes_keeps].
Qed.

(** ** Capabilities, segments and events at one pad *)

Ltac same := repeat split; cbn; first [congruence | intros; by left | intros; right; congruence].

Lemma target_holds own tmp p :
  0 < own p + tmp p ->
  holds may_wait (sound own tmp) (zst_ghost_pad_get_target p) (fun r w => r = None /\ sound own tmp w).
Proof.
  intros Hp. unfold zst_ghost_pad_get_target. apply read_holds; [done|]. intros x. apply known_holds.
  intros w Hok _. rewrite (po_plain _ _ _ _ _ Hok). apply forget_holds. by apply holds_ret.
Qed.

Lemma get_caps_keeps `{CMemory} stale_size own tmp E p :
  calm E -> 0 < own p + tmp p -> keeps own tmp (zst_pad_get_caps stale_size E p).
Proof.
  intros Hcalm Hp. apply (holds_at may_wait _ (fun w => get_caps stale_size E (S (size (w_pads w))) p)). intros w _. cbn [get_caps].
  apply read_holds; [done|]. intros x. apply known_holds. intros w' Hok _. apply forget_holds.
  apply keeps_if; [apply keeps_ret|].
  apply keeps_bind; [|intros offered; keep].
  destruct (pad_parent x) as [e|] eqn:He; [|apply keeps_ret].
  apply elem_holds; [by apply (po_parent _ _ _ _ _ Hok)|]. intros el _. destruct (el_bin el).
  - hbind (by apply target_holds). intros r. apply holds_pre. intros v [-> Hv]. intros v' ->. done.
  - destruct (op_get_caps _) eqn:Eo; [by eapply calm_caps|apply keeps_ret].
Qed.

Lemma set_caps_keeps `{CMemory} stale_size own tmp p caps :
  0 < own p + tmp p -> keeps own tmp (zst_pad_set_caps stale_size p caps).
Proof. intros Hp. unfold zst_pad_set_caps. cbn zeta. keep. apply modify_holds; [intros; same|done]. Qed.

Lemma negotiate_keeps `{CMemory} stale_size own tmp E src sink :
  calm E -> 0 < own src + tmp src -> 0 < own sink + tmp sink -> keeps own tmp (zst_pad_negotiate stale_size E src sink).
Proof.
  intros Hcalm Hsrc Hsink. unfold zst_pad_negotiate. do 2 (apply keeps_bind; [by apply get_caps_keeps|intros ?]).
  apply keeps_if; [apply keeps_ret|]. destruct (zst_caps_intersect _ _ _) as [c|]; [|apply keeps_ret].
  destruct (if zst_caps_is_fixed _ then _ else _) as [ret fixed]. keep; by apply set_caps_keeps.
Qed.

Lemma set_segment_keeps own tmp p seg : 0 < own p + tmp p -> keeps own tmp (zst_pad_set_segment p seg).
Proof.
  intros Hp. unfold zst_pad_set_segment. apply read_holds; [done|]. intros x. cbn zeta.
  apply holds_if; intros _; (hbind (apply store_holds; same)); intros _; by apply holds_ret.
Qed.

Lemma store_sticky_keeps `{CMemory} stale_size own tmp p ev : 0 < own p + tmp p -> keeps own tmp (store_sticky stale_size p ev).
Proof.
  intros Hp. unfold store_sticky. apply read_holds; [done|]. intros x. cbn zeta.
  destruct ev; try (apply forget_holds; apply keeps_ret); try (apply store_holds; same).
  hbind (apply store_holds; same). intros _. change (@keeps unit own tmp (if is_some caps then _ ← zst_pad_set_caps stale_size p caps; mret tt else mret tt)).
  keep. by apply set_caps_keeps.
Qed.

Lemma apply_event_keeps `{CMemory} stale_size own tmp p ev : 0 < own p + tmp p -> keeps own tmp (apply_event stale_size p ev).
Proof.
  intros Hp. destruct ev; cbn [apply_event]; keep; [by apply set_caps_keeps|]. apply modify_holds; [intros; same|done].
Qed.

Lemma resolve_holds own tmp visit p :
  0 < own p + tmp p -> keeps own tmp (visit p) ->
  holds may_wait (sound own tmp) (resolve visit p) (fun r w => r = p /\ sound own tmp w).
Proof.
  intros Hp Hv. apply (holds_at may_wait _ (fun w => resolve_ghosts (S (size (w_pads w))) visit p)). intros w _. cbn [resolve_ghosts].
  hbind (exact Hv). intros _. hbind (by apply target_holds). intros r. apply holds_pre. intros v [-> Hs]. by intros ? ->.
Qed.

Lemma proxy_holds own tmp p :
  0 < own p + tmp p -> holds may_wait (sound own tmp) (proxy_ghost p) (fun r w => r = None /\ sound own tmp w).
Proof.
  intros Hp. unfold proxy_ghost. apply read_holds; [done|]. intros x. apply known_holds. intros w Hok _.
  rewrite (po_plain _ _ _ _ _ Hok). apply forget_holds. destruct (pad_parent x), (pad_name x); by apply holds_ret.
Qed.

Lemma parent_holds {A} own tmp p (k : zst_pad -> M A) Q :
  0 < own p + tmp p -> (forall x, (forall e, pad_parent x = Some e -> D e) -> holds may_wait (sound own tmp) (k x) Q) ->
  holds may_wait (sound own tmp) (mbind k (get_pad p)) Q.
Proof.
  intros Hp Hk. apply read_holds; [done|]. intros x. apply known_holds. intros w Hok _. apply forget_holds, Hk, Hok.
Qed.

(** ** Events spread over the graph *)

Lemma src_pads_ok own el : elem_ok own el -> Forall (fun p => 0 < own p) (el_src_pads el) /\ zlen (el_src_pads el) + 2 <= K.
Proof. intros Hel. split; apply Hel. Qed.

Lemma sink_pads_ok own el : elem_ok own el -> Forall (fun p => 0 < own p) (el_sink_pads el) /\ zlen (el_sink_pads el) + 2 <= K.
Proof. intros Hel. split; apply Hel. Qed.

(** Each pad of the element in turn, with fewer levels left; [m] ends with the release. *)
Lemma spread_keeps `{CMemory} {A} own tmp q n e pads (g : nat -> M zst_result_t) (k : M A) (m : list nat -> M A) :
  D e -> (forall el, elem_ok own el -> Forall (fun p => 0 < own p) (pads el) /\ zlen (pads el) + 2 <= K) ->
  (forall q, 0 <= tmp q) -> fits (S n) own tmp ->
  (forall tmp' s, fits n own tmp' -> 0 < own s + tmp' s -> keeps own tmp' (g s)) -> keeps own (bump q tmp) k ->
  (forall ps, holds may_wait (sound own (bumps ps (bump q tmp))) (zst_element_pad_snapshot_free ps) (fun _ => sound own (bump q tmp)) ->
     holds may_wait (sound own (bumps ps (bump q tmp))) (m ps) (fun _ => sound own (bump q tmp))) ->
  keeps own (bump q tmp) (ps ← snapshot pads e; match ps with None => k | Some ps => _ ← each_pad g ps; m ps end).
Proof.
  intros He Hpads Ht Hfit Hf Hk Hm.
  assert (forall r, 0 <= bump q tmp r) as Ht' by (intros r; pose proof (Ht r); pose proof (bump_ge q tmp r); lia).
  hbind (apply snapshot_holds; [done|done|done|intros r; pose proof (Hfit r); pose proof (bump_ge q tmp r); nia]).
  intros [ps|]; [|exact Hk]. apply holds_pre. intros w [[Hown Hlen] Hw].
  assert (forall r, 0 <= bumps ps (bump q tmp) r) as Ht'' by (intros r; pose proof (Ht' r); pose proof (bumps_ge ps (bump q tmp) r); lia).
  apply (holds_from _ _ _ _ _ Hw). hbind (apply each_holds).
  - eapply Forall_impl; [exact Hown|]. cbn. intros s Hs. apply Hf; [|pose proof (Ht'' s); lia].
    intros r. pose proof (Hfit r). pose proof (bump_ge q tmp r). pose proof (bumps_ge ps (bump q tmp) r). nia.
  - intros _. apply Hm, free_holds; [exact Ht'|]. intros r. pose proof (Hfit r). pose proof (bump_ge q tmp r). nia.
Qed.

Section events.
Context `{CMemory} (stale_size : caps_value -> Z) (E : env U) (rounds : nat) (Hcalm : calm E).

Lemma post_keeps own tmp p : 0 < own p + tmp p ->
  keeps own tmp (_ ← pad_run_probes E rounds p None ZST_PAD_PROBE_POST_EVENT; mret ZST_OK).
Proof. intros Hp. keep. by apply probes_keeps. Qed.

(** From a pad to its peer, which the call then holds. *)
Lemma to_peer_keeps {A} own tmp p (k : option nat -> M A) n :
  fits n own tmp -> 0 < own p + tmp p -> keeps own tmp (k None) ->
  (forall q, (forall r, 0 <= tmp r) -> 0 < own q + bump q tmp q -> dir q <> dir p ->
     holds may_wait (sound own (bump q tmp)) (k (Some q)) (fun _ => sound own tmp)) ->
  keeps own tmp (mbind k (zst_pad_get_peer p)).
Proof.
  intros Hfit Hp Hnone Hsome. apply counts_holds. intros Hc.
  hbind (apply peer_holds; [done|intros q; eapply fits_le, Hfit]). intros [q|]; [|exact Hnone].
  apply holds_pre. intros w [Hw Hdir]. apply (holds_from _ _ _ _ _ Hw).
  apply Hsome; [apply Hc| |done]. pose proof (Hc q). pose proof (bump_held q tmp). lia.
Qed.

(** The end of a call that holds [q]. *)
Lemma release_holds {A} own tmp q n (k : M A) :
  fits n own tmp -> (forall r, 0 <= tmp r) -> keeps own tmp k ->
  holds may_wait (sound own (bump q tmp)) (_ ← zst_pad_unref q; k) (fun _ => sound own tmp).
Proof.
  intros Hfit Ht Hk. hbind (apply unref_holds; [apply Ht|eapply fits_le, Hfit]). intros _. exact Hk.
Qed.

(** What is the same in [Q] as in [P]. *)
Lemma inside_holds {A B} own tmp q (m : M A) (k : A -> M B) :
  keeps own (bump q tmp) m -> (forall a, holds may_wait (sound own (bump q tmp)) (k a) (fun _ => sound own tmp)) ->
  holds may_wait (sound own (bump q tmp)) (mbind k m) (fun _ => sound own tmp).
Proof. apply holds_bind. Qed.

Lemma push_event_keeps room own tmp src ev :
  fits room own tmp -> 0 < own src + tmp src ->
  keeps own tmp (zst_pad_push_event_internal stale_size E rounds room src ev).
Proof.
  revert own tmp src. induction room as [|room IH]; intros own tmp src Hfit Hsrc; cbn [zst_pad_push_event_internal]; [apply keeps_ret|].
  apply keeps_read; [done|]. intros x. apply keeps_if; [apply keeps_ret|].
  apply keeps_bind; [by apply store_sticky_keeps|]. intros _. apply keeps_bind; [by apply probes_keeps|]. intros r.
  apply keeps_if; [apply keeps_ret|]. cbn zeta. pose proof (post_keeps own tmp src Hsrc) as Hpost.
  eapply to_peer_keeps; [exact Hfit|done|exact Hpost|]. intros q Ht Hq _.
  hbind (by apply proxy_holds). intros g. apply holds_pre. intros w [-> Hw]. apply (holds_from _ _ _ _ _ Hw).
  clear w Hw. hbind (apply resolve_holds; [done|by apply apply_event_keeps]). intros q'. apply holds_pre. intros w [-> Hw].
  apply (holds_from _ _ _ _ _ Hw). clear w Hw.
  apply inside_holds; [by apply probes_keeps|]. intros r'. apply holds_if; intros _; [by eapply release_holds|].
  apply parent_holds; [done|]. intros y Hparent. apply inside_holds.
  - destruct (pad_parent y) as [e|]; [|apply keeps_ret]. destruct (op_event _) eqn:Eh; [by eapply calm_event|].
    eapply (spread_keeps own tmp q room e el_src_pads); [by apply Hparent|apply src_pads_ok|done|done| |apply keeps_ret|].
    + intros tmp' s Hfit' Hs. by apply IH.
    + intros ps Hfree. hbind (exact Hfree). intros _. by apply holds_ret.
  - intros ret. apply inside_holds; [by apply probes_keeps|]. intros _. eapply release_holds; [done|done|].
    by apply keeps_if; [|apply keeps_ret].
Qed.

Lemma propagate_keeps room own tmp p seg :
  fits room own tmp -> 0 < own p + tmp p -> keeps own tmp (pad_propagate_segment E rounds room p seg).
Proof.
  revert own tmp p. induction room as [|room IH]; intros own tmp p Hfit Hp; cbn [pad_propagate_segment]; [apply keeps_ret|].
  apply keeps_bind; [by apply probes_keeps|]. intros r. apply keeps_if; [apply keeps_ret|].
  apply keeps_bind; [by apply set_segment_keeps|]. intros _. apply keeps_read; [done|]. intros x.
  apply keeps_bind; [|intros _; by apply post_keeps]. apply keeps_if; [|apply keeps_ret].
  eapply to_peer_keeps; [exact Hfit|done|apply keeps_ret|]. intros q Ht Hq _.
  apply inside_holds; [by apply probes_keeps|]. intros r'.
  apply inside_holds; [keep; first [by apply set_segment_keeps|by apply probes_keeps]|]. intros _.
  apply parent_holds; [done|]. intros y Hparent. apply inside_holds.
  - destruct (pad_parent y) as [e|]; [|apply keeps_ret].
    eapply (spread_keeps own tmp q room e el_src_pads); [by apply Hparent|apply src_pads_ok|done|done| |apply keeps_ret|done].
    intros tmp' s Hfit' Hs. by apply IH.
  - intros _. apply unref_holds; [apply Ht|eapply fits_le, Hfit].
Qed.

Lemma find_ghost_keeps own tmp sink ps :
  Forall (fun p => 0 < own p) ps ->
  holds may_wait (sound own tmp) (find_ghost sink ps) (fun r w => r = None /\ sound own tmp w).
Proof.
  intros Hps. apply counts_holds. intros Hc. induction Hps as [|p ps Hp Hps IH]; cbn [find_ghost]; [by apply holds_ret|].
  hbind (apply target_holds; pose proof (Hc p); lia). intros t. apply holds_pre. intros w [-> Hw].
  apply (holds_from _ _ _ _ _ Hw). rewrite decide_False by done. exact IH.
Qed.

Lemma bin_ghost_holds own tmp sink :
  0 < own sink + tmp sink -> holds may_wait (sound own tmp) (bin_ghost sink) (fun r w => r = None /\ sound own tmp w).
Proof.
  intros Hp. unfold bin_ghost. apply parent_holds; [done|]. intros x Hparent.
  destruct (pad_parent x) as [e|]; [|by apply holds_ret]. apply elem_holds; [by apply Hparent|]. intros el Hel.
  destruct (el_parent_bin el) as [b|] eqn:Eb; [|by apply holds_ret].
  apply elem_holds; [by apply (eo_bin _ _ Hel)|]. intros bin Hbin. apply find_ghost_keeps, Hbin.
Qed.

Lemma upstream_keeps room own tmp sink ev :
  fits room own tmp -> 0 < own sink + tmp sink ->
  keeps own tmp (zst_pad_push_event_upstream_internal E rounds room sink ev).
Proof.
  revert own tmp sink. induction room as [|room IH]; intros own tmp sink Hfit Hp; cbn [zst_pad_push_event_upstream_internal]; [apply keeps_ret|].
  apply keeps_read; [done|]. intros x. apply keeps_if; [apply keeps_ret|].
  apply keeps_bind; [by apply probes_keeps|]. intros r. apply keeps_if; [apply keeps_ret|]. cbn zeta.
  pose proof (post_keeps own tmp sink Hp) as Hpost.
  eapply to_peer_keeps; [exact Hfit|done| |].
  { hbind (by apply bin_ghost_holds). intros g. apply holds_pre. intros w [-> Hw]. by apply (holds_from _ _ _ _ _ Hw). }
  intros q Ht Hq _. hbind (by apply (holds_ret may_wait _ _ (fun r w => r = None /\ sound own (bump q tmp) w))).
  intros g. apply holds_pre. intros w [-> Hw]. apply (holds_from _ _ _ _ _ Hw). clear w Hw.
  hbind (apply resolve_holds; [done|apply keeps_ret]). intros q'. apply holds_pre. intros w [-> Hw].
  apply (holds_from _ _ _ _ _ Hw). clear w Hw.
  apply inside_holds; [by apply probes_keeps|]. intros r'. apply holds_if; intros _; [by eapply release_holds|].
  apply parent_holds; [done|]. intros y Hparent. apply inside_holds.
  - destruct (pad_parent y) as [e|]; [|apply keeps_ret].
    apply keeps_bind; [destruct (op_event _) eqn:Eh; [by eapply calm_event|apply keeps_ret]|]. intros ret.
    apply keeps_if; [apply keeps_ret|].
    assert (keeps own (bump q tmp) (ps ← zst_element_snapshot_sink_pads e;
      match ps with
      | None => mret tt
      | Some ps => _ ← each_pad (fun s => zst_pad_push_event_upstream_internal E rounds room s ev) ps; zst_element_pad_snapshot_free ps
      end)) as Hspread.
    { eapply (spread_keeps own tmp q room e el_sink_pads); [by apply Hparent|apply sink_pads_ok|done|done| |apply keeps_ret|done].
      intros tmp' s Hfit' Hs. by apply IH. }
    apply holds_assoc. apply keeps_bind; [exact Hspread|intros _; apply keeps_ret].
  - intros ret. apply inside_holds; [by apply probes_keeps|]. intros _. eapply release_holds; [done|done|].
    by apply keeps_if; [|apply keeps_ret].
Qed.

(** ** Links *)

Lemma pipeline_keeps own tmp p : 0 < own p + tmp p -> keeps own tmp (pad_pipeline p).
Proof.
  intros Hp. unfold pad_pipeline. apply parent_holds; [done|]. intros x Hparent.
  destruct (pad_parent x) as [e|]; [|apply keeps_ret]. apply elem_holds; [by apply Hparent|]. intros el _. apply keeps_ret.
Qed.

Lemma dirty_keeps own tmp pipe : keeps own tmp (mark_dirty pipe).
Proof. destruct pipe; [|apply keeps_ret]. intros w [Hp Hh Hc He Ha Hn Hq]. constructor; try done. intros p x Hx. by destruct (Hp p x Hx). Qed.

Lemma sticky_keeps own tmp (f : zst_pad_event_t -> M zst_result_t) p :
  0 < own p + tmp p -> (forall ev, keeps own tmp (f ev)) -> keeps own tmp (push_stickies f p).
Proof.
  intros Hp Hf. unfold push_stickies, push_sticky. keep;
    (match goal with |- keeps _ _ (match ?o with _ => _ end) => destruct o end; keep; apply Hf).
Qed.

(** Two pads become each other's peers ([b]), or stop being so. *)
Definition relink (b : bool) own tmp (x : zst_pad) p q : zst_pad :=
  with_link x (if b then Some q else None) b (own p + tmp p + (if b then 1 else 0)).

Lemma relink_sound own tmp tmp' w p q (x y : zst_pad) (b : bool) :
  sound own tmp w -> p <> q -> dir p <> dir q -> w_pads w !! p = Some x -> w_pads w !! q = Some y ->
  (forall r, pad_peer x = Some r -> r = q) -> (forall r, pad_peer y = Some r -> r = p) ->
  (forall r, r <> p -> r <> q -> tmp' r = tmp r) -> 0 <= tmp' p -> 0 <= tmp' q ->
  0 < own p + tmp' p + (if b then 1 else 0) -> 0 < own q + tmp' q + (if b then 1 else 0) ->
  sound own tmp' (put_pads w (<[q := relink b own tmp' y q p]> (<[p := relink b own tmp' x p q]> (w_pads w)))).
Proof.
  intros [Hp Hh Hc He Ha Hn Hq] Hne Hdir Hx Hy Hpx Hpy Hother Htp Htq Hlp Hlq.
  set (m := <[q := relink b own tmp' y q p]> (<[p := relink b own tmp' x p q]> (w_pads w))).
  assert (m !! q = Some (relink b own tmp' y q p)) as Emq by apply lookup_insert_eq.
  assert (m !! p = Some (relink b own tmp' x p q)) as Emp by (unfold m; rewrite lookup_insert_ne by done; apply lookup_insert_eq).
  assert (forall r, r <> p -> r <> q -> m !! r = w_pads w !! r) as Emr
    by (intros r Hrp Hrq; unfold m; rewrite !lookup_insert_ne; congruence).
  assert (forall r, is_Some (m !! r) <-> is_Some (w_pads w !! r)) as Hdom.
  { intros r. destruct (decide (r = q)) as [->|]; [rewrite Emq, Hy; split; by eexists|].
    destruct (decide (r = p)) as [->|]; [rewrite Emp, Hx; split; by eexists|]. by rewrite Emr. }
  constructor; cbn [w_pads w_elems w_next put_pads].
  - intros r z Hz. destruct (decide (r = q)) as [->|Hrq]; [|destruct (decide (r = p)) as [->|Hrp]].
    + rewrite Emq in Hz. injection Hz as <-. destruct (Hp q y Hy) as [P1 P2 P3 P5 P6 P8 P7].
      constructor; cbn; try done; [by destruct b|by destruct b|].
      destruct b; [|done]. intros s [= <-]. exists (relink true own tmp' x p q). rewrite Emp. done.
    + rewrite Emp in Hz. injection Hz as <-. destruct (Hp p x Hx) as [P1 P2 P3 P5 P6 P8 P7].
      constructor; cbn; try done; [by destruct b|by destruct b|].
      destruct b; [|done]. intros s [= <-]. exists (relink true own tmp' y q p). rewrite Emq. done.
    + rewrite Emr in Hz by done. destruct (Hp r z Hz) as [P1 P2 P3 P5 P6 P8 P7].
      constructor; cbn; rewrite ?Hother by done; try done.
      intros s Hs. destruct (P7 s Hs) as (t & Hst & Hback & Hd). exists t. rewrite Emr; [done| |].
      * intros ->. rewrite Hx in Hst. injection Hst as <-. by apply Hrq, Hpx.
      * intros ->. rewrite Hy in Hst. injection Hst as <-. by apply Hrp, Hpy.
  - intros r Hr. apply Hdom. destruct (decide (r = q)) as [->|]; [by eexists|]. destruct (decide (r = p)) as [->|]; [by eexists|].
    apply Hh. by rewrite <- (Hother r).
  - intros r. destruct (decide (r = q)) as [->|]; [split; [apply Hc|done]|]. destruct (decide (r = p)) as [->|]; [split; [apply Hc|done]|].
    rewrite (Hother r) by done. apply Hc.
  - done.
  - done.
  - intros r Hr. apply Hn. by apply Hdom.
  - intros Hm r z Hz. cbn [w_pads put_pads] in Hz. destruct (decide (r = q)) as [->|]; [|destruct (decide (r = p)) as [->|]].
    + rewrite Emq in Hz. injection Hz as <-. by apply (Hq Hm q y).
    + rewrite Emp in Hz. injection Hz as <-. by apply (Hq Hm p x).
    + rewrite Emr in Hz by done. by apply (Hq Hm r z).
Qed.

Lemma link_pair_keeps own tmp src sink :
  0 < own src + tmp src -> 0 < own sink + tmp sink -> dir src <> dir sink -> fits 1 own tmp -> keeps own tmp (link_pair src sink).
Proof.
  intros Hsrc Hsink Hdir Hfit w Hw. assert (sink <> src) as Hne by congruence.
  destruct (so_held _ _ _ Hw src Hsrc) as [x Hx]. destruct (so_held _ _ _ Hw sink Hsink) as [y Hy].
  pose proof (po_count _ _ _ _ _ (so_pads _ _ _ Hw src x Hx)) as Cx. pose proof (po_count _ _ _ _ _ (so_pads _ _ _ Hw sink y Hy)) as Cy.
  pose proof (Hfit src). pose proof (Hfit sink). pose proof (so_counts _ _ _ Hw src). pose proof (so_counts _ _ _ Hw sink).
  unfold link_pair, zst_pad_ref, modify_pad, get_pad, set_pad, mbind, M_bind. rewrite Hx, Hy.
  destruct (pad_peer x) eqn:Hpx; [done|]. destruct (pad_peer y) eqn:Hpy; [done|]. cbn [is_some orb] in *. rewrite Hy.
  cbn [w_pads put_pads]. rewrite lookup_insert_ne, Hx by done. cbn [w_pads put_pads]. rewrite lookup_insert_eq.
  cbn [w_pads put_pads]. rewrite !(lookup_insert_ne _ src sink), lookup_insert_eq by done. cbn [mret M_ret].
  unfold put_pads. cbn [w_pads w_next w_elems w_bufs w_bus w_dirty w_user with_link pad_refcount].
  rewrite !s32_small by lia. rewrite insert_insert_eq. rewrite (insert_insert_ne _ src sink), insert_insert_eq by done.
  assert (forall z r k, with_link (with_link z (pad_peer z) (pad_linked z) k) r true k = with_link z r true k) as Ew by done.
  pose proof (relink_sound own tmp tmp w src sink x y true Hw) as Hs. unfold relink, put_pads in Hs.
  replace (pad_refcount x + 1) with (own src + tmp src + 1) by lia. replace (pad_refcount y + 1) with (own sink + tmp sink + 1) by lia.
  apply Hs; try done; try lia; congruence.
Qed.

Lemma link_keeps own tmp src sink :
  0 < own src + tmp src -> 0 < own sink + tmp sink -> fits 257 own tmp -> keeps own tmp (zst_pad_link stale_size E rounds src sink).
Proof.
  intros Hsrc Hsink Hfit. unfold zst_pad_link.
  assert (fits 1 own tmp) as Hfit1 by (intros r; pose proof (Hfit r); nia).
  apply read_holds; [done|]. intros x. apply known_holds. intros w Hx _. apply forget_holds.
  apply read_holds; [done|]. intros y. apply known_holds. intros w' Hy _. apply forget_holds.
  apply holds_if; intros Hdir; [apply keeps_ret|].
  apply keeps_bind; [by apply negotiate_keeps|]. intros ret. apply keeps_if; [apply keeps_ret|].
  apply keeps_bind.
  { apply link_pair_keeps; try done. rewrite <- (po_dir _ _ _ _ _ Hx), <- (po_dir _ _ _ _ _ Hy).
    destruct (pad_direction x), (pad_direction y); done. }
  intros ok. apply keeps_if; [apply keeps_ret|].
  apply keeps_bind; [apply sticky_keeps; [done|intros ev; by apply push_event_keeps]|]. intros _.
  keep; first [by apply pipeline_keeps | apply dirty_keeps].
Qed.

(** Both ends let go; the references of the link become the call's. *)
Lemma cut_holds {A} own tmp p q x (rest : M A) Q :
  p <> q -> dir p <> dir q -> pad_peer x = Some q -> (forall r, 0 <= tmp r) ->
  holds may_wait (sound own (bump p (bump q tmp))) rest Q ->
  holds may_wait (at_pad own tmp p x)
    (_ ← set_pad p (with_link x None false (pad_refcount x));
     y ← get_pad q;
     _ ← (if decide (pad_peer y = Some p) then set_pad q (with_link y None false (pad_refcount y)) else mret tt);
     rest) Q.
Proof.
  intros Hne Hdir Hpeer Ht Hrest w [Hw Hx].
  pose proof (so_pads _ _ _ Hw p x Hx) as Hpx. destruct (po_peer _ _ _ _ _ Hpx q Hpeer) as (y & Hy & Hback & _).
  pose proof (so_pads _ _ _ Hw q y Hy) as Hqy.
  pose proof (po_count _ _ _ _ _ Hpx) as Cx. pose proof (po_count _ _ _ _ _ Hqy) as Cy. rewrite Hpeer in Cx. rewrite Hback in Cy.
  pose proof (po_live _ _ _ _ _ Hpx). pose proof (po_live _ _ _ _ _ Hqy). cbn [is_some] in *.
  pose proof (so_counts _ _ _ Hw p). pose proof (so_counts _ _ _ Hw q).
  assert (bump p (bump q tmp) p = tmp p + 1) as Ep by (unfold bump; rewrite add_at_same, add_at_other; done).
  assert (bump p (bump q tmp) q = tmp q + 1) as Eq by (unfold bump; rewrite add_at_other, add_at_same; congruence).
  pose proof (relink_sound own tmp (bump p (bump q tmp)) w p q x y false Hw Hne Hdir Hx Hy) as Hs.
  unfold set_pad, get_pad, mbind, M_bind, mret, M_ret. cbn [w_pads put_pads]. rewrite lookup_insert_ne, Hy by done.
  rewrite decide_True by done. apply Hrest. unfold relink in Hs. rewrite Ep, Eq in Hs.
  replace (own p + (tmp p + 1) + 0) with (pad_refcount x) in Hs by lia. replace (own q + (tmp q + 1) + 0) with (pad_refcount y) in Hs by lia.
  apply Hs; try lia; [congruence|congruence|]. intros r Hrp Hrq. unfold bump. by rewrite !add_at_other.
Qed.

Lemma unlink_keeps own tmp p : 0 < own p + tmp p -> fits 2 own tmp -> keeps own tmp (zst_pad_unlink p).
Proof.
  intros Hp Hfit. unfold zst_pad_unlink. eapply to_peer_keeps; [exact Hfit|done|apply keeps_ret|]. intros q Ht Hq Hdir.
  assert (p <> q) as Hne by congruence.
  assert (0 < own p + bump q tmp p) as Hp' by (pose proof (bump_ge q tmp p); lia).
  assert (forall r, 0 <= bump q tmp r) as Ht' by (intros r; pose proof (Ht r); pose proof (bump_ge q tmp r); lia).
  apply inside_holds; [by apply pipeline_keeps|]. intros pp. apply inside_holds; [by apply pipeline_keeps|]. intros qp.
  assert (forall r, own r + bump p (bump q tmp) r < 2147483646) as Hroom.
  { intros r. pose proof (Hfit r). pose proof (bump_ge p (bump q tmp) r). pose proof (bump_ge q tmp r). nia. }
  apply read_holds; [done|]. intros x.
  eapply (holds_bind _ _ _ _ (fun _ => sound own (bump q tmp)));
    [|intros _; apply unref_holds; [apply Ht|eapply fits_le, Hfit]].
  destruct (decide (pad_peer x = Some q)) as [Hpeer|_]; [|apply forget_holds; by apply holds_ret].
  apply cut_holds; try done. set (held := bump p (bump q (bump q tmp))).
  hbind (apply (dirty_keeps own held)). intros _.
  hbind (apply (keeps_if own held _ _ (mark_dirty qp)); [apply keeps_ret|apply dirty_keeps]). intros _.
  eapply (holds_bind _ _ _ _ (fun _ => sound own (bump p (bump q tmp)))).
  - eapply holds_weaken; [apply unref_holds|intros v; unfold held; by rewrite bump_comm|exact (fun _ _ Hv => Hv)].
    + pose proof (bump_ge p (bump q tmp) q). pose proof (Ht' q). lia.
    + apply Hroom.
  - intros _. apply unref_holds; [apply Ht'|]. pose proof (Hroom p). pose proof (bump_ge p (bump q tmp) p). lia.
Qed.

(** ** The operations of an application *)

Lemma create_sound own tmp w name d :
  sound own tmp w -> dir (w_next w) = d ->
  match zst_pad_create name d w with
  | Done (r, v) => sound (match r with Some p => bump p own | None => own end) tmp v
  | _ => False
  end.
Proof.
  intros Hw Hd. unfold zst_pad_create. destruct (malloc_ok SIZEOF_PAD); [|exact Hw].
  unfold fresh, set_pad, mbind, M_bind, mret, M_ret. cbn. destruct Hw as [Hp Hh Hc He Ha Hn Hq].
  set (p := w_next w) in *.
  assert (w_pads w !! p = None) as Hfresh by (destruct (w_pads w !! p) eqn:Ep; [specialize (Hn p ltac:(by eexists)); lia|done]).
  assert (own p + tmp p <= 0) as Hzero.
  { destruct (decide (0 < own p + tmp p)) as [Hpos|]; [|lia]. destruct (Hh p Hpos) as [z Hz]. congruence. }
  pose proof (Hc p). constructor; cbn.
  - intros q z Hz. destruct (decide (p = q)) as [<-|Hne].
    + rewrite lookup_insert_eq in Hz. injection Hz as <-. unfold bump.
      constructor; cbn; try rewrite add_at_same; try done; try lia.
    + rewrite lookup_insert_ne in Hz by done. destruct (Hp q z Hz) as [P1 P2 P3 P5 P6 P8 P7].
      constructor; cbn; try done; [unfold bump; by rewrite add_at_other|].
      intros r Hr. destruct (P7 r Hr) as (t & Ht & Hback). exists t. rewrite lookup_insert_ne; [done|congruence].
  - intros q Hq0. destruct (decide (p = q)) as [<-|Hne]; [rewrite lookup_insert_eq; by eexists|].
    rewrite lookup_insert_ne by done. apply Hh. unfold bump in Hq0. by rewrite add_at_other in Hq0.
  - intros q. pose proof (Hc q). pose proof (bump_ge p own q). lia.
  - intros e el Hel. destruct (He e el Hel) as [Hs Hk Hm Hb].
    constructor; try done; (eapply Forall_impl; [eassumption|]); cbn; intros q Hown; pose proof (bump_ge p own q); lia.
  - done.
  - intros q [z Hz]. destruct (decide (p = q)) as [<-|Hne]; [lia|]. rewrite lookup_insert_ne in Hz by done.
    specialize (Hn q ltac:(by eexists)). lia.
  - intros Hm q z Hz. cbn in Hz. destruct (decide (p = q)) as [<-|]; [|rewrite lookup_insert_ne in Hz by done; by apply (Hq Hm q z)].
    rewrite lookup_insert_eq in Hz. injection Hz as <-. done.
Qed.

(** [own] counts the references of the application and of the elements. *)
Inductive graph_op :=
| OpCreate (name : option string) (d : zst_pad_direction_t)
| OpRef (p : nat)
| OpUnref (p : nat)
| OpAddPad (e p : nat)
| OpLink (src sink : nat)
| OpUnlink (p : nat)
| OpSetCaps (p : nat) (caps : option zst_caps_t)
| OpEvent (p : nat) (ev : zst_pad_event_t)
| OpEventUpstream (p : nat) (ev : zst_pad_event_t)
| OpSegment (p : nat) (segment : zst_segment_t).

Definition run_op (op : graph_op) : M (option nat) :=
  match op with
  | OpCreate name d => zst_pad_create name d
  | OpRef p => _ ← zst_pad_ref p; mret None
  | OpUnref p => _ ← zst_pad_unref p; mret None
  | OpAddPad e p => _ ← zst_element_add_pad e p; mret None
  | OpLink src sink => _ ← zst_pad_link stale_size E rounds src sink; mret None
  | OpUnlink p => _ ← zst_pad_unlink p; mret None
  | OpSetCaps p caps => _ ← zst_pad_set_caps stale_size p caps; mret None
  | OpEvent p ev => _ ← zst_pad_push_event stale_size E rounds p ev; mret None
  | OpEventUpstream p ev => _ ← zst_pad_push_event_upstream E rounds p ev; mret None
  | OpSegment p segment => _ ← zst_pad_push_segment E rounds p segment; mret None
  end.

(** The owners' references after the operation. *)
Definition owned (op : graph_op) (created : option nat) own : nat -> Z :=
  match op with
  | OpCreate _ _ => match created with Some p => bump p own | None => own end
  | OpRef p => bump p own
  | OpUnref p => add_at p (-1) own
  | _ => own
  end.

(** What the caller of the operation must hold; the reference an element holds for a
    pad is not the application's to drop. *)
Definition legal own w (op : graph_op) : Prop :=
  match op with
  | OpCreate _ d => dir (w_next w) = d
  | OpRef p | OpUnlink p | OpSetCaps p _ | OpEvent p _ | OpEventUpstream p _ | OpSegment p _ => 0 < own p
  | OpUnref p => 0 < own p /\ lists_ok (add_at p (-1) own) w
  | OpAddPad e p => 0 < own p /\ D e /\
      (forall el, w_elems w !! e = Some el -> zlen (el_src_pads el) + 3 <= K /\ zlen (el_sink_pads el) + 3 <= K)
  | OpLink src sink => 0 < own src /\ 0 < own sink
  end.

Lemma add_pad_sound own tmp w e p :
  sound own tmp w -> legal own w (OpAddPad e p) ->
  match zst_element_add_pad e p w with Done (_, v) => sound own tmp v | _ => False end.
Proof.
  intros Hw (Hp & He & Hlen). unfold zst_element_add_pad, modify_pad, get_pad, set_pad, mbind, M_bind.
  destruct (so_held _ _ _ Hw p ltac:(pose proof (so_counts _ _ _ Hw p); lia)) as [x Hx]. rewrite Hx. cbn [w_pads put_pads].
  rewrite lookup_insert_eq.
  assert (sound own tmp (put_pads w (<[p := with_parent x (Some e)]> (w_pads w)))) as Hv
    by (eapply put_pad_sound; [exact Hw|exact Hx|same]).
  destruct (so_alive _ _ _ Hv e He) as [el Hel]. unfold get_elem. cbn [w_elems put_pads] in *. rewrite Hel.
  pose proof (so_elems _ _ _ Hv e el Hel) as Hok. destruct (Hlen el Hel) as [Hsrc Hsink].
  assert (forall l, Forall (fun p => 0 < own p) l -> Forall (fun p => 0 < own p) (l ++ [p])) as Happ
    by (intros l Hl; apply Forall_app; split; [done|by repeat constructor]).
  destruct (is_src _); destruct (malloc_ok _); try exact Hv; unfold set_elem, mret, M_ret;
    (apply put_elem_sound; [exact Hv|]); destruct Hok as [Os Ok Om Ob]; constructor; cbn [with_pads el_src_pads el_sink_pads el_parent_bin];
    try done; try (by apply Happ); rewrite zlen_app, zlen_cons, zlen_nil; lia.
Qed.

Lemma keeps_done {A} own tmp (m : M A) (Q : option nat -> world U -> Prop) w :
  keeps own tmp m -> sound own tmp w -> (forall v, sound own tmp v -> Q None v) ->
  match (_ ← m; mret (None : option nat)) w with Done (r, v) => Q r v | Fault => False | Unfinished => may_wait = true end.
Proof.
  intros Hm Hw HQ. specialize (Hm w Hw). unfold mbind, M_bind, mret, M_ret. destruct (m w) as [[a v]| |]; [by apply HQ|done|done].
Qed.

(** A call's reference becomes the application's. *)
Lemma hand_over own tmp w p :
  (forall q, 0 <= own q /\ 0 <= tmp q) -> sound own (bump p tmp) w -> sound (bump p own) tmp w.
Proof.
  intros Hc [Hp Hh _ He Ha Hn Hq].
  assert (forall q, bump p own q + tmp q = own q + bump p tmp q) as Esum by (intros q; unfold bump, add_at; destruct (decide _); lia).
  constructor; try done.
  - intros q z Hz. destruct (Hp q z Hz). constructor; try done. by rewrite Esum.
  - intros q. rewrite Esum. apply Hh.
  - intros q. pose proof (Hc q). pose proof (bump_ge p own q). lia.
  - intros e el Hel. destruct (He e el Hel) as [Hs Hk Hm Hb].
    constructor; try done; (eapply Forall_impl; [eassumption|]); cbn; intros q Hown; pose proof (bump_ge p own q); lia.
Qed.

Lemma op_sound own tmp w op :
  fits 257 own tmp -> sound own tmp w -> legal own w op ->
  match run_op op w with
  | Done (r, v) => sound (owned op r own) tmp v
  | Fault => False
  | Unfinished => may_wait = true
  end.
Proof.
  intros Hfit Hw Hlegal. pose proof (so_counts _ _ _ Hw) as Hc.
  assert (forall q, own q + tmp q < 2147483646) as Hroom by (intros q; eapply fits_le, Hfit).
  assert (forall q, 0 < own q -> 0 < own q + tmp q) as Hheld by (intros q; pose proof (Hc q); lia).
  destruct op as [name d|p|p|e p|src sink|p|p caps|p ev|p ev|p segment]; cbn [run_op owned];
    [| | | |eapply (keeps_done own tmp _ (fun _ v => sound own tmp v)); [|exact Hw|done]..].
  - pose proof (create_sound own tmp w name d Hw Hlegal) as Hs. by destruct (zst_pad_create name d w) as [[r v]| |].
  - pose proof (ref_holds own tmp p (Hheld p Hlegal) (Hroom p) w Hw) as Hs. unfold mbind, M_bind, mret, M_ret.
    destruct (zst_pad_ref p w) as [[r v]| |]; try done. by apply hand_over.
  - destruct Hlegal as [Hp Hlists].
    assert (holds may_wait (fun w => sound own tmp w /\ lists_ok (add_at p (-1) own) w) (zst_pad_unref p)
              (fun _ => sound (add_at p (-1) own) tmp)) as Hu.
    { apply unref_general; [apply same_but_own|rewrite add_at_same; lia|rewrite add_at_same; lia|apply Hc|pose proof (Hroom p); lia]. }
    specialize (Hu w (conj Hw Hlists)). unfold mbind, M_bind, mret, M_ret. by destruct (zst_pad_unref p w) as [[r v]| |].
  - pose proof (add_pad_sound own tmp w e p Hw Hlegal) as Hs. unfold mbind, M_bind, mret, M_ret.
    by destruct (zst_element_add_pad e p w) as [[r v]| |].
  - destruct Hlegal. apply link_keeps; auto.
  - apply unlink_keeps; [by apply Hheld|]. intros q. pose proof (Hfit q). nia.
  - apply set_caps_keeps. by apply Hheld.
  - apply push_event_keeps; [done|]. by apply Hheld.
  - apply upstream_keeps; [done|]. by apply Hheld.
  - unfold zst_pad_push_segment. pose proof (Hheld p Hlegal). keep; by apply propagate_keeps.
Qed.

(** A history: operations one after the other, each allowed when its turn comes. *)
Fixpoint run_ops (ops : list graph_op) own : M (nat -> Z) :=
  match ops with
  | [] => mret own
  | op :: ops => r ← run_op op; run_ops ops (owned op r own)
  end.

Fixpoint legal_run (ops : list graph_op) own w : Prop :=
  match ops with
  | [] => True
  | op :: ops =>
      fits 257 own (fun _ => 0) /\ legal own w op /\
      match run_op op w with Done (r, v) => legal_run ops (owned op r own) v | _ => True end
  end.
End events.
End sound.

(** C18. Whatever an application does with pads it holds - create, reference, release,
    hand to elements, link, unlink, negotiate, send events and segments both ways - no
    freed pad is used, each reference count is the number of owners plus one for a
    peer, peers point at each other in opposite directions, and elements hold the pads
    they list; the calls end even if links form a cycle, unless a pad is blocked or
    probed.  (Graphs without ghost pads.) *)
Theorem graph_stays_sound {U : Type} `{CMemory} (may_wait : bool) (K : Z) (D : nat -> Prop) (dir : nat -> zst_pad_direction_t)
    (stale_size : caps_value -> Z) (E : env U) (rounds : nat) (ops : list graph_op) (own : nat -> Z) (w : world U) :
  2 <= K -> calm may_wait K D dir E -> sound may_wait K D dir own (fun _ => 0) w ->
  legal_run K D dir stale_size E rounds ops own w ->
  match run_ops stale_size E rounds ops own w with
  | Done (own', v) => sound may_wait K D dir own' (fun _ => 0) v
  | Fault => False
  | Unfinished => may_wait = true
  end.
Proof.
  intros HK Hcalm. revert own w. induction ops as [|op ops IH]; intros own w Hw Hlegal; [exact Hw|].
  cbn [run_ops legal_run] in *. destruct Hlegal as (Hfit & Hl & Hrest).
  pose proof (op_sound may_wait K HK D dir stale_size E rounds Hcalm own (fun _ => 0) w op Hfit Hw Hl) as Hs.
  unfold mbind, M_bind. destruct (run_op stale_size E rounds op w) as [[r v]| |]; try done. by apply IH.
Qed.

(** ** A cycle *)

Section example.
#[local] Existing Instance ample_memory.

(** Nothing is called outside. *)
Definition still_env : env unit :=
  mk_env (fun _ => mk_ops None None None None None None None None None)
    (fun _ _ => mret ZST_ERROR) (fun _ => mret (ZST_ERROR, None)) (fun _ _ _ _ => mret ZST_PAD_PROBE_OK)
    (fun _ => mret 0) (fun _ _ => mret tt) (fun _ => mret tt) (fun _ => mret false) (fun _ _ => mret tt) (fun _ => mret tt).

Lemma still_calm may_wait K D dir : calm may_wait K D dir still_env.
Proof. constructor; try done; intros; by apply keeps_ret. Qed.

Definition two_elements : world unit :=
  let el := mk_element ZST_STATE_NULL [] [] false None None None None in
  mk_world 2 ∅ (<[0%nat := el]> {[1%nat := el]}) ∅ [] [] tt.

Definition even_dir (p : nat) : zst_pad_direction_t := if Nat.even p then ZST_PAD_SRC else ZST_PAD_SINK.

(** Two elements feed each other; an event goes round until the depth is 256. *)
Definition cycle_ops : list graph_op :=
  [OpCreate None ZST_PAD_SRC; OpCreate None ZST_PAD_SINK; OpCreate None ZST_PAD_SRC; OpCreate None ZST_PAD_SINK;
   OpAddPad 0 2; OpAddPad 1 3; OpAddPad 1 4; OpAddPad 0 5; OpLink 2 3; OpLink 4 5; OpEvent 2 ZST_PAD_EVENT_EOS; OpUnlink 5].

Definition few (e : nat) : Prop := (e < 2)%nat.

Lemma legal_step K D dir stale_size E rounds op ops own (w v : world unit) r :
  run_op stale_size E rounds op w = Done (r, v) -> fits K 257 own (fun _ => 0) -> legal K D dir own w op ->
  legal_run K D dir stale_size E rounds ops (owned op r own) v -> legal_run K D dir stale_size E rounds (op :: ops) own w.
Proof. intros Hr Hf Hl Hrest. cbn [legal_run]. by rewrite Hr. Qed.

Lemma graph_stays_sound_witness :
  match run_ops (fun _ => 0) still_env 1 cycle_ops (fun _ => 0) two_elements with
  | Done (own', v) => sound false 8 few even_dir own' (fun _ => 0) v
  | Fault => False
  | Unfinished => false = true
  end.
Proof.
  apply (graph_stays_sound false 8 few even_dir); [lia|apply still_calm| |].
  - constructor; cbn; try done; try lia.
    + intros e el Hel.
      assert (el = mk_element ZST_STATE_NULL [] [] false None None None None) as ->.
      { destruct (decide (0%nat = e)) as [<-|]; [rewrite lookup_insert_eq in Hel; by injection Hel|].
        rewrite lookup_insert_ne in Hel by done. by apply lookup_singleton_Some in Hel as [_ <-]. }
      constructor; cbn; try done; try (unfold zlen; cbn; lia); constructor.
    + intros [|[|e]] He; [by eexists|by eexists|unfold few in He; lia].
    + by intros p [x Hx].
  - repeat (eapply legal_step;
      [vm_compute; reflexivity
      |intros q; cbn [owned]; unfold bump, add_at; repeat destruct (decide _); cbn; lia
      |cbn [legal]; split_and?;
       first [vm_compute; reflexivity | unfold few; lia
             |intros el Hel; vm_compute in Hel; injection Hel as <-; unfold zlen; cbn; split; lia]
      |]).
    exact I.
Defined.
End example.
