(* ===== verification/FlowSpec.v ===== *)
(** * Links, probes, segments and ghost pads: what the calls do

    The fast exit of the probes against the path it skips, negotiation when pads are
    linked, buffers outside a segment, and what becomes of a ghost pad's target. *)

From Stdlib Require Import String SpecFloat.
From S2P Require Import Prelude CLib Pad Caps CapsSpec Graph PadOps PadFlow PadPush Element GraphSpec.

Local Open Scope Z_scope.

(** ** Probes *)

Section probes.
Context {U : Type} `{CMemory} (E : env U) (rounds : nat).
Local Notation M := (M U).

(** The counter is the number of probes, and the block callback is ready to fire again
    once the pad is not blocked. *)
Record probing_ok (g : pad_probing) : Prop := {
  pr_count : has_probes g = zlen (probes g);
  pr_ready : blocked g = false -> block_callback_fired g = false;
}.

Inductive probe_op :=
| AddProbe (types : Z) (callback : option nat)
| RemoveProbe (id : Z)
| Block
| Unblock
| SetBlockCallback (callback : option nat).

Definition run_probe_op (p : nat) (op : probe_op) : M unit :=
  match op with
  | AddProbe types callback => _ ← zst_pad_add_probe p types callback; mret tt
  | RemoveProbe id => _ ← zst_pad_remove_probe p id; mret tt
  | Block => _ ← zst_pad_block p; mret tt
  | Unblock => _ ← zst_pad_unblock p; mret tt
  | SetBlockCallback callback => _ ← zst_pad_set_block_callback p callback; mret tt
  end.

Fixpoint run_probe_ops (p : nat) (ops : list probe_op) : M unit :=
  match ops with [] => mret tt | op :: ops => _ ← run_probe_op p op; run_probe_ops p ops end.

Lemma remove_probe_length id l l' : remove_probe id l = Some l' -> zlen l = zlen l' + 1.
Proof.
  revert l'. induction l as [|b l IH]; intros l'; cbn [remove_probe]; [done|].
  destruct (_ =? _); [intros [= <-]; by rewrite zlen_cons, Z.add_comm|].
  destruct (remove_probe id l) as [k|]; cbn; [|done]. intros [= <-]. rewrite !zlen_cons, (IH k) by done. lia.
Qed.

(** One operation, on a pad with fewer than 2^32 - 1 probes. *)
Lemma probe_op_ok p op (w : world U) x :
  w_pads w !! p = Some x -> probing_ok (pad_probes x) -> zlen (probes (pad_probes x)) < 4294967295 ->
  exists v y, run_probe_op p op w = Done (tt, v) /\ w_pads v !! p = Some y /\ probing_ok (pad_probes y) /\
    zlen (probes (pad_probes y)) <= zlen (probes (pad_probes x)) + 1.
Proof.
  intros Hx [Hcount Hready] Hfew. pose proof (zlen_nonneg (probes (pad_probes x))).
  assert (forall g, probing_ok g -> zlen (probes g) <= zlen (probes (pad_probes x)) + 1 ->
    exists v y, @Done (unit * world U) (tt, put_pads w (<[p := with_probing x g]> (w_pads w))) = Done (tt, v) /\ w_pads v !! p = Some y /\
      probing_ok (pad_probes y) /\ zlen (probes (pad_probes y)) <= zlen (probes (pad_probes x)) + 1) as Hput.
  { intros g Hg Hlen. eexists _, _. split; [done|]. cbn. rewrite lookup_insert_eq. split; [done|]. by split. }
  assert (exists v y, @Done (unit * world U) (tt, w) = Done (tt, v) /\ w_pads v !! p = Some y /\
      probing_ok (pad_probes y) /\ zlen (probes (pad_probes y)) <= zlen (probes (pad_probes x)) + 1) as Hsame.
  { exists w, x. split_and!; try done. lia. }
  destruct op as [types [c|]|id| | |c]; cbn [run_probe_op];
    unfold zst_pad_add_probe, zst_pad_remove_probe, zst_pad_block, zst_pad_unblock, zst_pad_set_block_callback, set_block,
      modify_probing, modify_pad, get_pad, set_pad, mbind, M_bind, mret, M_ret; rewrite ?Hx.
  - destruct (types =? 0); [exact Hsame|]. destruct (malloc_ok _); [|exact Hsame]. cbn [negb]. rewrite Hx. cbn zeta.
    destruct (if next_probe_id _ =? 0 then _ else _) as [id next]. apply Hput; [|cbn [probes]; rewrite zlen_cons; lia].
    constructor; cbn [has_probes probes blocked block_callback_fired]; [|done]. rewrite zlen_cons, u32_small by lia. lia.
  - exact Hsame.
  - destruct (id =? 0); [exact Hsame|]. rewrite Hx. cbn zeta. destruct (remove_probe _ _) as [l|] eqn:El; [|exact Hsame].
    apply remove_probe_length in El. pose proof (zlen_nonneg l). apply Hput; cbn [probes]; [|lia].
    constructor; cbn [has_probes probes blocked block_callback_fired]; [|done]. rewrite u32_small by lia. lia.
  - apply Hput; cbn [probes]; [|lia]. by constructor.
  - apply Hput; cbn [probes]; [|lia]. by constructor.
  - apply Hput; cbn [probes]; [|lia]. by constructor.
Qed.

Lemma probe_ops_ok p ops (w : world U) x :
  w_pads w !! p = Some x -> probing_ok (pad_probes x) -> zlen (probes (pad_probes x)) + zlen ops < 4294967295 ->
  exists v y, run_probe_ops p ops w = Done (tt, v) /\ w_pads v !! p = Some y /\ probing_ok (pad_probes y).
Proof.
  revert w x. induction ops as [|op ops IH]; intros w x Hx Hok Hlen; cbn [run_probe_ops]; [by exists w, x|].
  rewrite zlen_cons in Hlen. pose proof (zlen_nonneg ops). destruct (probe_op_ok p op w x Hx Hok) as (v & y & Hrun & Hy & Hoky & Hmore); [lia|].
  unfold mbind, M_bind. rewrite Hrun. by apply (IH v y); [| |lia].
Qed.

Lemma with_probing_id x : with_probing x (pad_probes x) = x.
Proof. by destruct x. Qed.

Lemma put_same (w : world U) p x : w_pads w !! p = Some x -> put_pads w (<[p := x]> (w_pads w)) = w.
Proof. intros Hx. unfold put_pads. rewrite insert_id by done. by destruct w. Qed.

(** The pad itself is not blocked and has no probes: the long way does nothing either. *)
Lemma slow_same p buf type (w : world U) x :
  w_pads w !! p = Some x -> probing_ok (pad_probes x) -> (0 < rounds)%nat ->
  pad_run_probes E rounds p buf type w = run_probes_slow E rounds p buf type w.
Proof.
  intros Hx [Hcount Hready] Hrounds. unfold pad_run_probes, get_pad, mbind, M_bind. rewrite Hx.
  destruct (negb (blocked (pad_probes x)) && (has_probes (pad_probes x) =? 0)) eqn:Hfast; [|done].
  apply andb_prop in Hfast as [Hb Hn]. apply negb_true_iff in Hb. apply Z.eqb_eq in Hn.
  assert (probes (pad_probes x) = []) as Hnil by (destruct (probes (pad_probes x)) as [|b l]; [done|]; rewrite zlen_cons in Hcount; pose proof (zlen_nonneg l); lia).
  destruct rounds as [|r]; [lia|]. unfold run_probes_slow. cbn [pad_handle_block].
  unfold set_fired, modify_probing, modify_pad, get_pad, set_pad, mbind, M_bind, mret, M_ret. rewrite Hx. cbn zeta. rewrite Hb.
  cbn [negb]. rewrite Hx.
  assert (mk_probing (has_probes (pad_probes x)) (probes (pad_probes x)) (next_probe_id (pad_probes x))
            (blocked (pad_probes x)) false (block_callback (pad_probes x)) = pad_probes x) as Eg.
  { specialize (Hready Hb). destruct (pad_probes x); cbn in *. by rewrite Hready. }
  rewrite Eg, with_probing_id, (put_same w p x Hx). cbn [is_probe_ok negb]. rewrite Hx.
  unfold matching_probes. by rewrite Hnil.
Qed.
End probes.

(** The lock-free exit of the probe runner gives what the full path would give:
    whatever probes were added and removed and however the pad was blocked before, the
    answer and the pad are those of checking the block and running the probes. *)
Theorem fast_exit_equivalent {U : Type} `{CMemory} (E : env U) (rounds : nat) name d (w v : world U) p ops buf type :
  zst_pad_create name d w = Done (Some p, v) -> zlen ops < 4294967295 -> (0 < rounds)%nat ->
  exists u, run_probe_ops p ops v = Done (tt, u) /\
    pad_run_probes E rounds p buf type u = run_probes_slow E rounds p buf type u.
Proof.
  intros Hcreate Hops Hrounds.
  assert (exists x, w_pads v !! p = Some x /\ pad_probes x = mk_probing 0 [] 1 false false None) as (x & Hx & Hg).
  { revert Hcreate. unfold zst_pad_create. destruct (malloc_ok _); [|done].
    unfold fresh, set_pad, mbind, M_bind, mret, M_ret. cbn. intros [= <- <-]. cbn. rewrite lookup_insert_eq. by eexists. }
  destruct (probe_ops_ok p ops v x Hx) as (u & y & Hrun & Hy & Hok); rewrite ?Hg; [by constructor|cbn; rewrite zlen_nil; lia|].
  exists u. split; [done|]. by apply (slow_same E rounds p buf type u y).
Qed.

(** ** Links and capabilities *)

Section negotiation.
Context {U : Type} `{CMemoryOk} (stale_size : caps_value -> Z) (E : env U) (rounds : nat).
Local Notation M := (M U).

(** Equal but for the unused room in the arrays of fields. *)
Definition same_struct (s s' : zst_caps_struct_t) : Prop := exists cap, s' = with_fields s (cs_fields s) cap.

Lemma same_struct_accepts s s' m : same_struct s s' -> accepts s' m <-> accepts s m.
Proof. intros [cap ->]. done. Qed.

Lemma copy_structs_spec c : caps_ok c -> exists c', copy_structs stale_size c = Some c' /\ Forall2 same_struct c c'.
Proof.
  induction 1 as [|s c Hs Hc IH]; [by exists []|]. destruct IH as (c' & Hcopy & Hsame).
  destruct (struct_copy_spec stale_size s Hs) as [cap Hcap]. exists (with_fields s (cs_fields s) cap :: c').
  cbn [copy_structs]. rewrite Hcap, Hcopy. split; [done|]. constructor; [by exists cap|done].
Qed.

Lemma copy_spec c : caps_ok c -> exists c', zst_caps_copy stale_size (Some c) = Some c' /\ Forall2 same_struct c c'.
Proof. intros Hc. unfold zst_caps_copy. rewrite malloc_total. by apply copy_structs_spec. Qed.

Lemma same_caps_accept c c' m : Forall2 same_struct c c' -> caps_accept c' m <-> caps_accept c m.
Proof.
  intros Hs. split; intros (s & Hin & Ha); apply list_elem_of_lookup in Hin as [i Hi].
  - destruct (Forall2_lookup_r _ _ _ _ _ Hs Hi) as (s0 & Hi0 & Hsame). exists s0. split; [by eapply list_elem_of_lookup_2|].
    by apply (same_struct_accepts s0 s m Hsame).
  - destruct (Forall2_lookup_l _ _ _ _ _ Hs Hi) as (s0 & Hi0 & Hsame). exists s0. split; [by eapply list_elem_of_lookup_2|].
    by apply (same_struct_accepts s s0 m Hsame).
Qed.

Lemma same_caps_ok c c' : caps_ok c -> Forall2 same_struct c c' -> caps_ok c'.
Proof.
  intros Hc Hs. induction Hs as [|s s' c c' [cap ->] Hs IH]; [constructor|]. apply Forall_cons in Hc as [Hs0 Hc].
  constructor; [|by apply IH]. destruct Hs0. by constructor.
Qed.

(** What two ends agree on: one structure, without wildcards, that accepts only what
    both accept. *)
Definition agreed (cs ck c : zst_caps_t) : Prop :=
  exists s, c = [s] /\ struct_ok s /\ (cs_media_type s <> "" -> zst_caps_struct_is_fixed s = true) /\
    forall m, accepts s m -> caps_accept cs m /\ caps_accept ck m.

Lemma agreed_copy cs ck c : agreed cs ck c -> exists c', zst_caps_copy stale_size (Some c) = Some c' /\ agreed cs ck c'.
Proof.
  intros (s & -> & Hs & Hfix & Hacc). destruct (copy_spec [s]) as (c' & Hcopy & Hsame); [by constructor|].
  exists c'. split; [done|]. inversion Hsame as [|? s' ? c0 [cap ->] Hnil]; subst. inversion Hnil; subst.
  exists (with_fields s (cs_fields s) cap). split; [done|]. split; [by apply with_capacity_ok|]. split; [exact Hfix|exact Hacc].
Qed.

Lemma get_caps_known p x c (w : world U) :
  w_pads w !! p = Some x -> pad_caps x = Some c -> zst_pad_get_caps stale_size E p w = Done (zst_caps_copy stale_size (Some c), w).
Proof.
  intros Hx Hc. unfold zst_pad_get_caps. cbn [get_caps]. unfold get_pad, mbind, M_bind. rewrite Hx, Hc. done.
Qed.

Lemma set_caps_known p x c c' (w : world U) :
  w_pads w !! p = Some x -> zst_caps_copy stale_size (Some c) = Some c' ->
  zst_pad_set_caps stale_size p (Some c) w = Done (ZST_OK, put_pads w (<[p := with_caps x (Some c') (pad_template_caps x)]> (w_pads w))).
Proof.
  intros Hx Hc. unfold zst_pad_set_caps, modify_pad, get_pad, set_pad, mbind, M_bind. rewrite Hx, Hc. done.
Qed.

(** [src] and [sink] with the capabilities [cx] and [cy]. *)
Definition with_both (w : world U) src sink (x y : zst_pad) (cx cy : zst_caps_t) : world U :=
  put_pads w (<[sink := with_caps y (Some cy) (pad_template_caps y)]>
             (<[src := with_caps x (Some cx) (pad_template_caps x)]> (w_pads w))).

(** Either nothing is acceptable to both, or both get what they agree on. *)
Lemma negotiate_spec src sink x y cs ck (w : world U) :
  src <> sink -> w_pads w !! src = Some x -> w_pads w !! sink = Some y -> pad_caps x = Some cs -> pad_caps y = Some ck ->
  caps_ok cs -> caps_ok ck ->
  (zst_pad_negotiate stale_size E src sink w = Done (ZST_ERROR, w) /\
   forall m, ~ (caps_accept cs m /\ caps_accept ck m)) \/
  (exists cx cy, zst_pad_negotiate stale_size E src sink w = Done (ZST_OK, with_both w src sink x y cx cy) /\
     agreed cs ck cx /\ agreed cs ck cy).
Proof.
  intros Hne Hx Hy Hcs Hck Hok1 Hok2. unfold zst_pad_negotiate, mbind, M_bind.
  rewrite (get_caps_known src x cs w), (get_caps_known sink y ck w) by done.
  destruct (copy_spec cs Hok1) as (cs' & -> & Hs1). destruct (copy_spec ck Hok2) as (ck' & -> & Hs2). cbn [is_some negb orb].
  destruct (intersect_spec stale_size cs' ck') as (r & Hr & Hrok & Hacc); [exact (same_caps_ok _ _ Hok1 Hs1)|exact (same_caps_ok _ _ Hok2 Hs2)|].
  rewrite Hr. destruct r as [|first rest].
  - left. split; [done|]. intros m Hm. rewrite <- (same_caps_accept cs cs' m Hs1), <- (same_caps_accept ck ck' m Hs2) in Hm.
    apply Hacc in Hm as (s & Hs & _). by apply elem_of_nil in Hs.
  - right. apply Forall_cons in Hrok as [Hfirst Hrest].
    assert (exists c : zst_caps_t, (if zst_caps_is_fixed (@Some zst_caps_t (first :: rest)) then (ZST_OK, @Some zst_caps_t (first :: rest))
                       else zst_caps_fixate stale_size (@Some zst_caps_t (first :: rest))) = (ZST_OK, Some c) /\ agreed cs ck c)
      as (c & Hfix & Hagree).
    { assert (forall m, accepts first m -> caps_accept cs m /\ caps_accept ck m) as Hnarrow.
      { intros m Hm. rewrite <- (same_caps_accept cs cs' m Hs1), <- (same_caps_accept ck ck' m Hs2). apply Hacc.
        exists first. split; [by left|done]. }
      destruct (zst_caps_is_fixed (@Some zst_caps_t (first :: rest))) eqn:Hf.
      - destruct rest; [|discriminate Hf]. exists [first]. split; [done|]. exists first. split_and!; try done.
      - destruct (fixate_spec stale_size first rest Hfirst) as (s & Hs & [Hok Hfixed Hnar _]). exists [s]. split; [done|].
        exists s. split_and!; try done. intros m Hm. by apply Hnarrow, Hnar. }
    cbn beta iota. rewrite Hfix. rewrite Z.eqb_refl. cbn beta iota. destruct (agreed_copy cs ck c Hagree) as (c' & Hcopy & Hagree').
    rewrite (set_caps_known src x c c' w Hx Hcopy). rewrite Z.eqb_refl. cbn beta iota.
    rewrite (set_caps_known sink y c c'); [|cbn; by rewrite lookup_insert_ne|done].
    exists c', c'. done.
Qed.

(** Two distinct pads with capabilities, between which nothing is sent yet. *)
Record to_link (src sink : nat) (x y : zst_pad) (cs ck : zst_caps_t) (w : world U) : Prop := {
  tl_src : w_pads w !! src = Some x;
  tl_sink : w_pads w !! sink = Some y;
  tl_dirs : pad_direction x = ZST_PAD_SRC /\ pad_direction y = ZST_PAD_SINK;
  tl_caps : pad_caps x = Some cs /\ pad_caps y = Some ck;
  tl_ok : caps_ok cs /\ caps_ok ck;
  tl_sticky : pad_stickies x = mk_sticky None None None;
  tl_counts : 0 <= pad_refcount x < 2147483647 /\ 0 <= pad_refcount y < 2147483647;
  tl_parents : (forall e, pad_parent x = Some e -> is_Some (w_elems w !! e)) /\
               (forall e, pad_parent y = Some e -> is_Some (w_elems w !! e));
}.

(** [src] and [sink] linked, with the capabilities [cx] and [cy]. *)
Definition linked (w v : world U) src sink (x y : zst_pad) (cx cy : zst_caps_t) : Prop :=
  w_pads v = <[sink := with_link (with_caps y (Some cy) (pad_template_caps y)) (Some src) true (pad_refcount y + 1)]>
            (<[src := with_link (with_caps x (Some cx) (pad_template_caps x)) (Some sink) true (pad_refcount x + 1)]> (w_pads w)) /\
  w_elems v = w_elems w /\ w_bufs v = w_bufs w /\ w_bus v = w_bus w /\ w_user v = w_user w.

Lemma pipeline_reads p x (w : world U) :
  w_pads w !! p = Some x -> (forall e, pad_parent x = Some e -> is_Some (w_elems w !! e)) ->
  exists k, pad_pipeline p w = Done (k, w).
Proof.
  intros Hx He. unfold pad_pipeline, get_pad, get_elem, mbind, M_bind. rewrite Hx.
  destruct (pad_parent x) as [e|]; [|by eexists]. destruct (He e eq_refl) as [el Hel]. rewrite Hel. by eexists.
Qed.

Lemma mark_dirty_same k (w : world U) :
  exists d, mark_dirty k w = Done (tt, mk_world (w_next w) (w_pads w) (w_elems w) (w_bufs w) (w_bus w) d (w_user w)).
Proof. destruct k; [by eexists|]. exists (w_dirty w). by destruct w. Qed.

Lemma no_stickies f p x (w : world U) :
  w_pads w !! p = Some x -> pad_stickies x = mk_sticky None None None -> push_stickies f p w = Done (tt, w).
Proof.
  intros Hx Hs. unfold push_stickies, push_sticky, get_pad, mbind, M_bind. rewrite Hx, Hs. cbn. rewrite Hx, Hs. cbn.
  by rewrite Hx, Hs.
Qed.

Lemma bind_done {A B} (m : M A) (k : A -> M B) (w v : world U) a : m w = Done (a, v) -> mbind k m w = k a v.
Proof. intros Hm. unfold mbind, M_bind. by rewrite Hm. Qed.

Lemma get_done p x (w : world U) : w_pads w !! p = Some x -> get_pad p w = Done (x, w).
Proof. intros Hx. unfold get_pad. by rewrite Hx. Qed.

Lemma link_pair_done src sink x y (w : world U) :
  src <> sink -> w_pads w !! src = Some x -> w_pads w !! sink = Some y -> pad_peer x = None -> pad_peer y = None ->
  0 <= pad_refcount x < 2147483647 -> 0 <= pad_refcount y < 2147483647 ->
  link_pair src sink w = Done (true, put_pads w (<[sink := with_link y (Some src) true (pad_refcount y + 1)]>
                                               (<[src := with_link x (Some sink) true (pad_refcount x + 1)]> (w_pads w)))).
Proof.
  intros Hne Hx Hy Hnx Hny Hrx Hry.
  unfold link_pair, zst_pad_ref, modify_pad, get_pad, set_pad, mbind, M_bind, mret, M_ret. rewrite Hx, Hy, Hnx, Hny.
  cbn [is_some orb]. rewrite Hy. cbn [w_pads put_pads]. rewrite lookup_insert_ne, Hx by done. cbn [w_pads put_pads].
  rewrite lookup_insert_eq. cbn [w_pads put_pads]. rewrite !(lookup_insert_ne _ src sink), lookup_insert_eq by done.
  unfold put_pads. cbn [w_pads w_next w_elems w_bufs w_bus w_dirty w_user with_link pad_refcount].
  rewrite !s32_small by lia. rewrite insert_insert_eq. rewrite (insert_insert_ne _ src sink), insert_insert_eq by done. done.
Qed.

Lemma link_spec src sink x y cs ck (w : world U) :
  to_link src sink x y cs ck w -> pad_peer x = None -> pad_peer y = None ->
  (zst_pad_link stale_size E rounds src sink w = Done (ZST_ERROR, w) /\ forall m, ~ (caps_accept cs m /\ caps_accept ck m)) \/
  (exists v cx cy, zst_pad_link stale_size E rounds src sink w = Done (ZST_OK, v) /\
     agreed cs ck cx /\ agreed cs ck cy /\ linked w v src sink x y cx cy).
Proof.
  intros [Hx Hy [Hdx Hdy] [Hcs Hck] [Hok1 Hok2] Hsticky [Hrx Hry] [Hpx Hpy]] Hnx Hny.
  assert (src <> sink) as Hne by (intros ->; congruence).
  unfold zst_pad_link. rewrite (bind_done _ _ _ _ _ (get_done src x w Hx)), (bind_done _ _ _ _ _ (get_done sink y w Hy)).
  rewrite Hdx, Hdy. cbn [is_src negb orb].
  destruct (negotiate_spec src sink x y cs ck w Hne Hx Hy Hcs Hck Hok1 Hok2) as [[Hneg Hnone]|(cx & cy & Hneg & Hax & Hay)];
    rewrite (bind_done _ _ _ _ _ Hneg); [by left|]. right. rewrite Z.eqb_refl. cbn [negb].
  set (x1 := with_caps x (Some cx) (pad_template_caps x)). set (y1 := with_caps y (Some cy) (pad_template_caps y)).
  assert (w_pads (with_both w src sink x y cx cy) !! src = Some x1) as Hx1
    by (cbn; rewrite lookup_insert_ne by done; apply lookup_insert_eq).
  assert (w_pads (with_both w src sink x y cx cy) !! sink = Some y1) as Hy1 by (cbn; apply lookup_insert_eq).
  rewrite (bind_done _ _ _ _ _ (link_pair_done src sink x1 y1 _ Hne Hx1 Hy1 Hnx Hny Hrx Hry)). cbn [negb].
  set (v := put_pads _ _).
  assert (w_pads v !! src = Some (with_link x1 (Some sink) true (pad_refcount x1 + 1))) as Hxv
    by (cbn; rewrite lookup_insert_ne by done; apply lookup_insert_eq).
  assert (w_pads v !! sink = Some (with_link y1 (Some src) true (pad_refcount y1 + 1))) as Hyv by (cbn; apply lookup_insert_eq).
  rewrite (bind_done _ _ _ _ _ (no_stickies _ src _ v Hxv Hsticky)).
  destruct (pipeline_reads src _ v Hxv Hpx) as [k1 Hk1]. rewrite (bind_done _ _ _ _ _ Hk1).
  destruct (mark_dirty_same k1 v) as [d1 Hd1]. rewrite (bind_done _ _ _ _ _ Hd1). set (v1 := mk_world _ _ _ _ _ d1 _).
  destruct (pipeline_reads sink _ v1 Hyv Hpy) as [k2 Hk2]. rewrite (bind_done _ _ _ _ _ Hk2).
  rewrite (bind_done _ _ _ _ _ (get_done src _ v1 Hxv)).
  assert (w_pads v = <[sink := with_link y1 (Some src) true (pad_refcount y + 1)]>
                    (<[src := with_link x1 (Some sink) true (pad_refcount x + 1)]> (w_pads w))) as Hpads.
  { cbn. by rewrite (insert_insert_ne _ src sink), !insert_insert_eq by done. }
  destruct (is_some _ && _).
  - eexists _, cx, cy. split; [by unfold mbind, M_bind, mret, M_ret|]. repeat split; done.
  - destruct (mark_dirty_same k2 v1) as [d2 Hd2]. rewrite (bind_done _ _ _ _ _ Hd2).
    eexists _, cx, cy. split; [done|]. repeat split; done.
Qed.
End negotiation.

(** C19. Linking two unlinked pads that both have (well-formed) capabilities, when the source
    pad holds no sticky events yet: if no media is accepted by both, the link is refused and
    nothing changes; otherwise it succeeds, the pads are each other's peers with one reference
    more, both carry capabilities without wildcards that accept only media both accepted, and
    no other pad, element or buffer changes. *)
Theorem link_negotiates {U : Type} `{CMemoryOk} stale_size (E : env U) rounds src sink x y cs ck (w : world U) :
  to_link src sink x y cs ck w -> pad_peer x = None -> pad_peer y = None ->
  match zst_pad_link stale_size E rounds src sink w with
  | Done (ret, v) =>
      if ret =? ZST_OK then exists cx cy, agreed cs ck cx /\ agreed cs ck cy /\ linked w v src sink x y cx cy
      else v = w /\ forall m, ~ (caps_accept cs m /\ caps_accept ck m)
  | _ => False
  end.
Proof.
  intros Htl Hnx Hny. destruct (link_spec stale_size E rounds src sink x y cs ck w Htl Hnx Hny)
    as [[-> Hnone]|(v & cx & cy & -> & Hax & Hay & Hl)]; [done|]. rewrite Z.eqb_refl. by exists cx, cy.
Qed.

(** A source pad that has a peer already is negotiated before the link is refused: it
    and the new sink keep the new capabilities, and its stream goes on to the old peer. *)
Theorem refused_link_renegotiates {U : Type} `{CMemoryOk} stale_size (E : env U) rounds src sink x y cs ck q (w : world U) :
  to_link src sink x y cs ck w -> pad_peer x = Some q ->
  (exists m, caps_accept cs m /\ caps_accept ck m) ->
  exists cx cy, zst_pad_link stale_size E rounds src sink w = Done (ZST_ERROR, with_both w src sink x y cx cy) /\
    agreed cs ck cx /\ agreed cs ck cy.
Proof.
  intros [Hx Hy [Hdx Hdy] [Hcs Hck] [Hok1 Hok2] _ _ _] Hpeer [m Hm].
  assert (src <> sink) as Hne by (intros ->; congruence).
  unfold zst_pad_link. rewrite (bind_done _ _ _ _ _ (get_done src x w Hx)), (bind_done _ _ _ _ _ (get_done sink y w Hy)).
  rewrite Hdx, Hdy. cbn [is_src negb orb].
  destruct (negotiate_spec stale_size E src sink x y cs ck w Hne Hx Hy Hcs Hck Hok1 Hok2) as [[Hneg Hnone]|(cx & cy & Hneg & Hax & Hay)];
    [by destruct (Hnone m)|]. rewrite (bind_done _ _ _ _ _ Hneg), Z.eqb_refl. cbn [negb].
  exists cx, cy. split; [|done]. unfold link_pair.
  assert (w_pads (with_both w src sink x y cx cy) !! src = Some (with_caps x (Some cx) (pad_template_caps x))) as Hx1
    by (cbn; rewrite lookup_insert_ne by done; apply lookup_insert_eq).
  assert (w_pads (with_both w src sink x y cx cy) !! sink = Some (with_caps y (Some cy) (pad_template_caps y))) as Hy1
    by (cbn; apply lookup_insert_eq).
  unfold mbind, M_bind. rewrite (get_done src _ _ Hx1), (get_done sink _ _ Hy1). cbn [pad_peer with_caps]. rewrite Hpeer. done.
Qed.

(** ** Buffers outside the segment *)

(** The buffer's time lies in the segment, in part at least. *)
Definition plays (segment : zst_segment_t) (v : zst_buffer) : Prop :=
  (if 0 <? buf_duration v then seg_start segment < buf_pts v + buf_duration v else seg_start segment <= buf_pts v) /\
  (seg_stop segment = ZST_SEGMENT_STOP_NONE \/ buf_pts v < seg_stop segment).

Lemma in_segment_spec has segment v :
  0 <= buf_pts v -> 0 <= buf_duration v -> buf_pts v + buf_duration v < 18446744073709551616 ->
  in_segment has segment v = true <->
  has_flag (buf_flags v) ZST_BUFFER_FLAG_EOS = true \/ has = false \/ plays segment v.
Proof.
  intros Hp Hd Hsum. unfold in_segment, plays. destruct (has_flag _ _); [by split; [left|]|].
  destruct has; cbn [negb]; [|split; [by right; left|done]].
  assert (negb (negb (seg_stop segment =? ZST_SEGMENT_STOP_NONE) && (seg_stop segment <=? buf_pts v)) = true <->
    seg_stop segment = ZST_SEGMENT_STOP_NONE \/ buf_pts v < seg_stop segment) as Hstop.
  { destruct (Z.eqb_spec (seg_stop segment) ZST_SEGMENT_STOP_NONE); cbn; [split; [by left|done]|].
    destruct (Z.leb_spec (seg_stop segment) (buf_pts v)); cbn; split; try done; [intros [|]; [done|lia]|by right]. }
  destruct (0 <? buf_duration v); rewrite ?u64_small by lia.
  - destruct (Z.leb_spec (buf_pts v + buf_duration v) (seg_start segment)).
    + split; [done|]. intros [|[|[? _]]]; [done|done|lia].
    + rewrite Hstop. split; [intros; right; right; by split|]. by intros [|[|[_ ?]]].
  - destruct (Z.ltb_spec (buf_pts v) (seg_start segment)).
    + split; [done|]. intros [|[|[? _]]]; [done|done|lia].
    + rewrite Hstop. split; [intros; right; right; by split|]. by intros [|[|[_ ?]]].
Qed.

(** A buffer that ends before the segment of either pad or begins after it goes
    nowhere: the push succeeds, the peer is not called and nothing changes; a buffer
    with the end-of-stream flag is never dropped so. *)
Theorem segment_filter {U : Type} `{CMemory} (E : env U) rounds n p q x y b buf (w : world U) :
  w_pads w !! p = Some x -> w_pads w !! q = Some y -> w_bufs w !! b = Some buf ->
  pad_direction x = ZST_PAD_SRC -> pad_peer x = Some q -> p <> q -> 1 <= pad_refcount y < 2147483647 ->
  let v := zb_buffer buf in
  0 <= buf_pts v -> 0 <= buf_duration v -> buf_pts v + buf_duration v < 18446744073709551616 ->
  has_flag (buf_flags v) ZST_BUFFER_FLAG_EOS = false ->
  (pad_has_segment x = true /\ ~ plays (pad_segment x) v) \/ (pad_has_segment y = true /\ ~ plays (pad_segment y) v) ->
  zst_pad_push E rounds n p b w = Done (ZST_OK, w).
Proof.
  intros Hx Hy Hb Hdir Hpeer Hne Hr v Hpts Hdur Hsum Heos Hout.
  assert (in_segment (pad_has_segment x) (pad_segment x) v && in_segment (pad_has_segment y) (pad_segment y) v = false) as Hin.
  { apply not_true_iff_false. intros [Hi1 Hi2]%andb_prop. rewrite in_segment_spec in Hi1, Hi2 by done.
    destruct Hout as [[Hh Hn]|[Hh Hn]]; [destruct Hi1 as [|[|]]|destruct Hi2 as [|[|]]]; congruence. }
  set (y1 := with_link y (pad_peer y) (pad_linked y) (pad_refcount y + 1)).
  assert (zst_pad_get_peer p w = Done (Some q, put_pads w (<[q := y1]> (w_pads w)))) as Hget.
  { unfold zst_pad_get_peer, zst_pad_ref, modify_pad, get_pad, set_pad, mbind, M_bind. rewrite Hx, Hpeer, Hy.
    rewrite s32_small by lia. done. }
  unfold zst_pad_push, push_with. rewrite (bind_done _ _ _ _ _ (get_done p x w Hx)), Hdir. cbn [is_src negb].
  rewrite (bind_done _ _ _ _ _ Hget). set (w1 := put_pads _ _).
  change (push_to_peer E rounds (call_push E rounds n) p q b w1 = Done (ZST_OK, w)).
  assert (w_pads w1 !! p = Some x) as Hx1 by (cbn; by rewrite lookup_insert_ne).
  assert (w_pads w1 !! q = Some y1) as Hy1 by (cbn; apply lookup_insert_eq).
  assert (zst_pad_unref q w1 = Done (tt, w)) as Hunref.
  { unfold zst_pad_unref. rewrite (GraphSpec.unref_pad_alive _ q w1 y1 Hy1) by (cbn; lia).
    unfold y1. cbn [with_link pad_refcount pad_peer pad_linked]. rewrite s32_small by lia.
    unfold w1, put_pads. cbn [w_pads w_next w_elems w_bufs w_bus w_dirty w_user]. rewrite insert_insert_eq.
    replace (with_link y1 _ _ _) with y by (destruct y; unfold y1, with_link; cbn; f_equal; lia). pose proof (put_same w q y Hy) as Es. unfold put_pads in Es. by rewrite Es. }
  assert (forall r z, w_pads w1 !! r = Some z -> pad_buffer_in_segment r b w1 = Done (in_segment (pad_has_segment z) (pad_segment z) v, w1)) as Hseg.
  { intros r z Hz. unfold pad_buffer_in_segment, get_buf, get_pad, mbind, M_bind. cbn [w_bufs w1 put_pads]. rewrite Hb.
    cbn [w_pads put_pads] in *. rewrite Hz. done. }
  unfold push_to_peer. rewrite (bind_done _ _ _ _ _ (Hseg p x Hx1)).
  destruct (in_segment (pad_has_segment x) (pad_segment x) v).
  - rewrite (bind_done _ _ _ _ _ (Hseg q y1 Hy1)). cbn [andb] in Hin. change (pad_has_segment y1) with (pad_has_segment y).
    change (pad_segment y1) with (pad_segment y). rewrite Hin. cbn [negb]. by rewrite (bind_done _ _ _ _ _ Hunref).
  - unfold mbind at 1, M_bind at 1, mret, M_ret. cbn [negb]. by rewrite (bind_done _ _ _ _ _ Hunref).
Qed.

(** ** A ghost pad goes, its proxy stays *)

Section examples.
#[local] Existing Instance ample_memory.

(** Sinks note the buffers they get. *)
Definition noting_env : env (list (nat * nat)) :=
  mk_env (fun _ => mk_ops None None None None None None None None None)
    (fun p b w => Done (ZST_OK, mk_world (w_next w) (w_pads w) (w_elems w) (w_bufs w) (w_bus w) (w_dirty w) (w_user w ++ [(p, b)])))
    (fun _ => mret (ZST_ERROR, None)) (fun _ _ _ _ => mret ZST_PAD_PROBE_OK)
    (fun _ => mret 0) (fun _ _ => mret tt) (fun _ => mret tt) (fun _ => mret false) (fun _ _ => mret tt) (fun _ => mret tt).

Definition need {A} (m : M (list (nat * nat)) (option A)) : M (list (nat * nat)) A :=
  r ← m; match r with Some a => mret a | None => fault end.

Definition one_buffer : world (list (nat * nat)) :=
  mk_world 0 ∅ ∅ {[100%nat := mk_zbuf (mk_buffer 0 0 0 0 0 None 0) 1]} [] [] [].

(** A source pad behind a ghost pad that is linked to a sink. *)
Definition ghosted : M (list (nat * nat)) (nat * nat * nat) :=
  t ← need (zst_pad_create None ZST_PAD_SRC);
  g ← need (zst_ghost_pad_create no_stale noting_env 1 None t);
  s ← need (zst_pad_create None ZST_PAD_SINK);
  _ ← modify_pad s (fun x => with_ops x (Some ElementPush) None NoPriv);
  _ ← zst_pad_link no_stale noting_env 1 g s;
  mret (t, g, s).

Definition heard : M (list (nat * nat)) (list (nat * nat)) := fun w => Done (w_user w, w).

Definition push_through (t : nat) : M (list (nat * nat)) (zst_result_t * list (nat * nat)) :=
  ret ← zst_pad_push noting_env 1 8 t 100; l ← heard; mret (ret, l).

Definition answer {A} (o : outcome (A * world (list (nat * nat)))) : outcome A :=
  match o with Done (a, _) => Done a | Fault => Fault | Unfinished => Unfinished end.

(** A source pad reaches the sink through its ghost pad.  When the ghost pad gets
    another target, the old target still feeds the sink; when the ghost pad is freed,
    the old target's next push uses the freed ghost pad: of the two references to the
    proxy, the link's is never dropped. *)
Theorem ghost_leaves_proxy :
  answer ((('(t, g, s) ← ghosted; push_through t) : M _ _) one_buffer) = Done (ZST_OK, [(3, 100)]%nat) /\
  answer ((('(t, g, s) ← ghosted;
           u ← need (zst_pad_create None ZST_PAD_SRC);
           _ ← zst_ghost_pad_set_target no_stale noting_env 1 g u;
           push_through t) : M _ _) one_buffer) = Done (ZST_OK, [(3, 100)]%nat) /\
  answer ((('(t, g, s) ← ghosted; _ ← zst_pad_unlink g; _ ← zst_pad_unref g; push_through t) : M _ _) one_buffer) = Fault.
Proof. vm_compute. done. Qed.

(** ** The theorems at concrete inputs *)

Definition probe_story : list probe_op := [AddProbe 3 (Some 7%nat); Block; RemoveProbe 1; Unblock].

Lemma fast_exit_equivalent_witness :
  exists u, run_probe_ops 0 probe_story (mk_world 1 {[0%nat := new_pad None ZST_PAD_SRC]} ∅ ∅ [] [] tt) = Done (tt, u) /\
    pad_run_probes still_env 1 0 None 1 u = run_probes_slow still_env 1 0 None 1 u.
Proof.
  apply (fast_exit_equivalent still_env 1 None ZST_PAD_SRC (mk_world 0 ∅ ∅ ∅ [] [] tt)); [reflexivity|reflexivity|lia].
Defined.

Definition vga : media :=
  mk_media "video/x-raw" ZST_CAPS_VIDEO 640 480 d_30 "YUV420P" 0 0 ""
    (fun k => if streq k "profile" then Some (ZST_CAPS_FIELD_STRING (Some "main"%string)) else None).

Lemma vga_accepted w h : w = 0 \/ w = 640 -> h = 0 \/ h = 480 -> accepts (sample_video w h "main") vga.
Proof.
  intros Hw Hh. split_and!; try done.
  - unfold members_accept. cbn. split_and!; [exact Hw|exact Hh|by left|by left].
  - intros f [Hf _]. apply list_elem_of_singleton in Hf as ->. by eexists.
Qed.

Definition offering (d : zst_pad_direction_t) (peer : option nat) (s : zst_caps_struct_t) : zst_pad :=
  with_caps (with_link (new_pad None d) peer (is_some peer) (if is_some peer then 2 else 1)) (Some [s]) None.

(** A source of any height, a sink of any width. *)
Definition half_known (peer : option nat) : world unit :=
  mk_world 3 (<[0%nat := offering ZST_PAD_SRC peer (sample_video 640 0 "main")]>
             {[1%nat := offering ZST_PAD_SINK None (sample_video 0 480 "main")]}) ∅ ∅ [] [] tt.

Lemma half_known_to_link peer :
  to_link 0 1 (offering ZST_PAD_SRC peer (sample_video 640 0 "main")) (offering ZST_PAD_SINK None (sample_video 0 480 "main"))
    [sample_video 640 0 "main"] [sample_video 0 480 "main"] (half_known peer).
Proof.
  constructor; try done.
  - split; (constructor; [apply sample_video_ok|constructor]).
  - by destruct peer; cbn; split; lia.
Qed.

Lemma link_negotiates_witness :
  match zst_pad_link no_stale still_env 1 0 1 (half_known None) with
  | Done (ret, v) =>
      if ret =? ZST_OK
      then exists cx cy, agreed [sample_video 640 0 "main"] [sample_video 0 480 "main"] cx /\
             agreed [sample_video 640 0 "main"] [sample_video 0 480 "main"] cy /\
             linked (half_known None) v 0 1 (offering ZST_PAD_SRC None (sample_video 640 0 "main"))
               (offering ZST_PAD_SINK None (sample_video 0 480 "main")) cx cy
      else v = half_known None /\
           forall m, ~ (caps_accept [sample_video 640 0 "main"] m /\ caps_accept [sample_video 0 480 "main"] m)
  | _ => False
  end.
Proof.
  apply (@link_negotiates unit ample_memory ample_memory_ok); [apply half_known_to_link|reflexivity|reflexivity].
Defined.

Lemma refused_link_renegotiates_witness :
  exists cx cy, zst_pad_link no_stale still_env 1 0 1 (half_known (Some 2%nat)) =
      Done (ZST_ERROR, with_both (half_known (Some 2%nat)) 0 1 (offering ZST_PAD_SRC (Some 2%nat) (sample_video 640 0 "main"))
                         (offering ZST_PAD_SINK None (sample_video 0 480 "main")) cx cy) /\
    agreed [sample_video 640 0 "main"] [sample_video 0 480 "main"] cx /\
    agreed [sample_video 640 0 "main"] [sample_video 0 480 "main"] cy.
Proof.
  apply (@refused_link_renegotiates unit ample_memory ample_memory_ok no_stale still_env 1 0 1 _ _ _ _ 2);
    [apply half_known_to_link|reflexivity|].
  exists vga. split; (eexists; split; [left|apply vga_accepted]); by auto.
Defined.

Definition late_pair : world unit :=
  mk_world 2 (<[0%nat := with_segment (with_link (new_pad None ZST_PAD_SRC) (Some 1%nat) true 2) true (mk_seg 1000 2000 d_one 0 0)]>
             {[1%nat := with_link (new_pad None ZST_PAD_SINK) (Some 0%nat) true 2]}) ∅
    {[7%nat := mk_zbuf (mk_buffer 0 0 900 0 100 None 0) 1]} [] [] tt.

Lemma segment_filter_witness : zst_pad_push still_env 1 4 0 7 late_pair = Done (ZST_OK, late_pair).
Proof.
  apply (segment_filter still_env 1 4 0 1 (with_segment (with_link (new_pad None ZST_PAD_SRC) (Some 1%nat) true 2) true (mk_seg 1000 2000 d_one 0 0))
           (with_link (new_pad None ZST_PAD_SINK) (Some 0%nat) true 2) 7 (mk_zbuf (mk_buffer 0 0 900 0 100 None 0) 1));
    [reflexivity|reflexivity|reflexivity|reflexivity|reflexivity|lia|cbn; lia|cbn; lia|cbn; lia|cbn; lia|reflexivity|].
  left. split; [reflexivity|]. unfold plays. cbn. lia.
Defined.
End examples.
