(* ===== verification/H26xBits.v ===== *)
(** * Bit fields of H.264 and H.265 headers: [src/h26x_parser.c]

    Parameter sets are read bit by bit from the raw payload of a NAL unit, once the
    emulation prevention bytes are out.  A reader takes the bits that are left and fails
    where the code returns 0; after a failure no caller reads on. *)

From Stdlib Require Import SpecFloat.
From S2P Require Import Prelude CLib Pad Caps.

Local Open Scope Z_scope.

(** [len] is the number of bytes of [data]. *)
Record h26x_bits_t := mk_bits { bits_data : bytes; bits_bit : Z }.

Definition reader (A : Type) : Type := h26x_bits_t -> option (A * h26x_bits_t).

#[export] Instance reader_ret : MRet reader := fun A a b => Some (a, b).
#[export] Instance reader_bind : MBind reader := fun A B f m b =>
  match m b with Some (a, b) => f a b | None => None end.
Definition rfail {A} : reader A := fun _ => None.

(** ** Fields *)

Fixpoint read_loop (n : nat) (data : bytes) (bit v : Z) : Z :=
  match n with
  | O => v
  | S n =>
      let byte := rd data (Z.shiftr bit 3) in
      let next := Z.land (Z.shiftr byte (7 - Z.land bit 7)) 1 in
      read_loop n data (bit + 1) (Z.lor (u32 (Z.shiftl v 1)) next)
  end.

Definition bits_read (n : Z) : reader Z := fun b =>
  let total := zlen (bits_data b) * 8 in
  if (32 <? n) || (total <? bits_bit b) || (total - bits_bit b <? n) then None
  else Some (read_loop (Z.to_nat n) (bits_data b) (bits_bit b) 0, mk_bits (bits_data b) (bits_bit b + n)).

Fixpoint ue_zeros (n : nat) (zeros : Z) : reader Z :=
  match n with
  | O => mret zeros
  | S n => bit ← bits_read 1; if negb (bit =? 0) then mret zeros else ue_zeros n (zeros + 1)
  end.

Definition bits_ue : reader Z :=
  zeros ← ue_zeros 31 0;
  if zeros =? 31 then rfail
  else suffix ← bits_read zeros; mret (u32 (u32 (Z.shiftl 1 zeros - 1) + suffix)).

(** Reads that are only checked for success. *)
Fixpoint skip_bits (ns : list Z) : reader unit :=
  match ns with [] => mret tt | n :: ns => _ ← bits_read n; skip_bits ns end.
Fixpoint skip_ues (n : nat) : reader unit :=
  match n with O => mret tt | S n => _ ← bits_ue; skip_ues n end.

(** ** Emulation prevention *)

Section rbsp.
Context `{CMemory}.

Fixpoint unescape (zeros : Z) (l : bytes) : bytes :=
  match l with
  | [] => []
  | b :: l =>
      if (2 <=? zeros) && (b =? 3) && match l with c :: _ => c <=? 3 | [] => false end then unescape 0 l
      else b :: unescape (if b =? 0 then zeros + 1 else 0) l
  end.

Definition rbsp_from_nal (nal : bytes) (header : Z) : option bytes :=
  if zlen nal <=? header then None
  else if malloc_ok (zlen nal - header) then Some (unescape 0 (drop (Z.to_nat header) nal))
  else None.

(** Reads the payload after the NAL header. *)
Definition read_rbsp {A} (nal : bytes) (header : Z) (m : reader A) : option A :=
  rbsp ← rbsp_from_nal nal header;
  match m (mk_bits rbsp 0) with Some (a, _) => Some a | None => None end.

(** ** Sequence parameter sets of H.264 *)

Definition vui_framerate : reader cdouble :=
  present ← bits_read 1;
  if present =? 0 then mret d_zero
  else
    aspect ← bits_read 1;
    _ ← (if negb (aspect =? 0) then value ← bits_read 8; if value =? 255 then skip_bits [16; 16] else mret tt
         else mret tt);
    overscan ← bits_read 1;
    _ ← (if negb (overscan =? 0) then skip_bits [1] else mret tt);
    video_signal ← bits_read 1;
    _ ← (if negb (video_signal =? 0) then
           _ ← skip_bits [3; 1];
           colour ← bits_read 1;
           if negb (colour =? 0) then skip_bits [8; 8; 8] else mret tt
         else mret tt);
    chroma_loc ← bits_read 1;
    _ ← (if negb (chroma_loc =? 0) then skip_ues 2 else mret tt);
    timing ← bits_read 1;
    if timing =? 0 then mret d_zero
    else
      num_units ← bits_read 32;
      time_scale ← bits_read 32;
      _ ← skip_bits [1];
      if num_units =? 0 then mret d_zero
      else mret (d_div (d_of_Z time_scale) (d_mul (d_of_Z 2) (d_of_Z num_units))).

(** No rate can be read: 0. *)
Definition parse_h264_vui_framerate (b : h26x_bits_t) : cdouble :=
  match vui_framerate b with Some (rate, _) => rate | None => d_zero end.

Record h264_sps_t := mk_sps {
  sps_nal : option bytes;
  sps_width : Z;
  sps_height : Z;
  sps_coded_width : Z;
  sps_coded_height : Z;
  sps_profile : Z;
  sps_level : Z;
  sps_bit_depth : Z;
  sps_framerate : cdouble;
  sps_version : Z;
  sps_valid : bool;
}.

Definition sps_zero : h264_sps_t := mk_sps None 0 0 0 0 0 0 0 d_zero 0 false.

Definition high_profiles : list Z := [100; 110; 122; 244; 44; 83; 86; 118; 128; 138; 139; 134].

(** No scaling list is accepted, only the flags that say there is none. *)
Fixpoint no_scaling_lists (count : nat) : reader unit :=
  match count with
  | O => mret tt
  | S n => t ← bits_read 1; if negb (t =? 0) then rfail else no_scaling_lists n
  end.

(** The chroma format of the high profiles, 1 for the others. *)
Definition sps_chroma (profile : Z) : reader Z :=
  if existsb (Z.eqb profile) high_profiles then
    chroma ← bits_ue;
    _ ← (if chroma =? 3 then skip_bits [1] else mret tt);
    _ ← skip_ues 2;
    _ ← skip_bits [1];
    t ← bits_read 1;
    _ ← (if negb (t =? 0) then no_scaling_lists (if chroma =? 3 then 12%nat else 8%nat) else mret tt);
    mret chroma
  else mret 1.

Definition crop_offsets (crop : Z) : reader (Z * Z * Z * Z) :=
  if negb (crop =? 0) then
    l ← bits_ue; r ← bits_ue; t ← bits_ue; bot ← bits_ue; mret (l, r, t, bot)
  else mret (0, 0, 0, 0).

(** The fields up to the cropping, and what the code derives from them. *)
Definition sps_fields : reader (h264_sps_t * Z) :=
  profile ← bits_read 8;
  _ ← skip_bits [8];
  level ← bits_read 8;
  id ← bits_ue;
  chroma ← sps_chroma profile;
  _ ← skip_ues 4;
  _ ← skip_bits [1];
  width_mbs ← bits_ue;
  height_map ← bits_ue;
  frame_mbs ← bits_read 1;
  _ ← (if frame_mbs =? 0 then skip_bits [1] else mret tt);
  _ ← skip_bits [1];
  crop ← bits_read 1;
  '(l, r, top, bot) ← crop_offsets crop;
  let coded_width := u32 (u32 (width_mbs + 1) * 16) in
  let coded_height := u32 (u32 (u32 (height_map + 1) * 16) * (2 - frame_mbs)) in
  let sub_w := if chroma =? 3 then 1 else 2 in
  let sub_h := if chroma =? 1 then 2 else 1 in
  let crop_x := u32 (u32 (l + r) * sub_w) in
  let crop_y := u32 (u32 (u32 (top + bot) * sub_h) * (2 - frame_mbs)) in
  if (coded_width <=? crop_x) || (coded_height <=? crop_y) then rfail
  else mret (mk_sps None (coded_width - crop_x) (coded_height - crop_y) coded_width coded_height
               profile level 8 d_zero 0 false, id).

Definition with_framerate (s : h264_sps_t) (rate : cdouble) : h264_sps_t :=
  mk_sps (sps_nal s) (sps_width s) (sps_height s) (sps_coded_width s) (sps_coded_height s) (sps_profile s)
    (sps_level s) (sps_bit_depth s) rate (sps_version s) (sps_valid s).

(** The parsed set and its id. *)
Definition parse_h264_sps (nal : bytes) : option (h264_sps_t * Z) :=
  read_rbsp nal 1 (fun b =>
    match sps_fields b with
    | Some ((sps, id), b) => Some ((with_framerate sps (parse_h264_vui_framerate b), id), b)
    | None => None
    end).

(** ** Sequence parameter sets of H.265 *)

(** The flags of the sub-layers, [p[i]] and [p[i + 1]] as they are read. *)
Fixpoint sub_layer_flags (n : nat) (i : nat) (p : list Z) : reader (list Z) :=
  match n with
  | O => mret p
  | S n => a ← bits_read 1; b ← bits_read 1; sub_layer_flags n (S i) (<[S i := b]> (<[i := a]> p))
  end.

Fixpoint sub_layer_levels (n : nat) (i : nat) (p : list Z) : reader unit :=
  match n with
  | O => mret tt
  | S n =>
      _ ← (if negb (rd p (Z.of_nat i) =? 0) then skip_bits (repeat 1 88) else mret tt);
      _ ← (if negb (rd p (Z.of_nat (S i)) =? 0) then skip_bits [8] else mret tt);
      sub_layer_levels n (S i) p
  end.

(** [p] has seven entries; an index beyond is never reached, see the theorem
    [h265_sps_rejected]. *)
Definition skip_h265_ptl (max_sub_layers : Z) : reader unit :=
  _ ← skip_bits [2; 1; 5; 32; 48; 8];
  p ← sub_layer_flags (Z.to_nat max_sub_layers) 0 (repeat 0 7);
  _ ← skip_bits (repeat 2 (Z.to_nat (8 - max_sub_layers)));
  sub_layer_levels (Z.to_nat max_sub_layers) 0 p.

(** What an H.265 sequence parameter set would give. *)
Record h265_format := mk_h265_format {
  f5_coded_width : Z; f5_coded_height : Z; f5_width : Z; f5_height : Z; f5_bit_depth : Z;
}.

Definition parse_h265_sps (nal : bytes) : option h265_format :=
  read_rbsp nal 2 (
    _ ← skip_bits [4];
    sublayers ← bits_read 3;
    _ ← skip_bits [1];
    _ ← skip_h265_ptl sublayers;
    _ ← bits_ue;
    chroma ← bits_ue;
    _ ← (if chroma =? 3 then skip_bits [1] else mret tt);
    width ← bits_ue;
    height ← bits_ue;
    conf ← bits_read 1;
    '(l, r, t, bot) ← crop_offsets conf;
    bitdepth ← bits_ue;
    _ ← bits_ue;
    let sub_w := if chroma =? 3 then 1 else 2 in
    let sub_h := if chroma =? 1 then 2 else 1 in
    let crop_x := u32 (u32 (l + r) * sub_w) in
    let crop_y := u32 (u32 (t + bot) * sub_h) in
    if (width <=? crop_x) || (height <=? crop_y) then rfail
    else mret (mk_h265_format width height (width - crop_x) (height - crop_y) (u32 (bitdepth + 8)))).

(** ** Picture parameter sets and slice headers of H.264 *)

Definition H264_MAX_SPS : Z := 32.
Definition H264_MAX_PPS : Z := 256.

(** The ids of the picture parameter set and of its sequence parameter set. *)
Definition parse_h264_pps (nal : bytes) : option (Z * Z) :=
  '(pps_id, sps_id) ← read_rbsp nal 1 (p ← bits_ue; s ← bits_ue; mret (p, s));
  if (pps_id <? H264_MAX_PPS) && (sps_id <? H264_MAX_SPS) then Some (pps_id, sps_id) else None.

(** The first macroblock and the picture parameter set. *)
Definition parse_h264_slice (nal : bytes) : option (Z * Z) :=
  '(first_mb, pps_id) ← read_rbsp nal 1 (f ← bits_ue; _ ← bits_ue; p ← bits_ue; mret (f, p));
  if pps_id <? H264_MAX_PPS then Some (first_mb, pps_id) else None.
End rbsp.
