(* ===== verification/H26xBitsSpec.v ===== *)
(** * Parameter sets, against reference encoders: [H26xBits]

    A payload is a list of bits.  [reads m l a] says that the reader [m] takes exactly
    the bits [l] off the front and gives [a], whatever follows; the readers of the
    parser are proved against encoders of the same syntax. *)

From Stdlib Require Import SpecFloat.
From S2P Require Import Prelude CLib Pad Caps MediaUtils H26xBits.

Local Open Scope Z_scope.

(** ** Bytes as bits *)

Definition byte_bits (b : Z) : list bool := map (fun k => Z.testbit b (7 - Z.of_nat k)) (seq 0 8).
Definition bits_of (data : bytes) : list bool := concat (map byte_bits data).

Lemma bits_of_cons b data : bits_of (b :: data) = byte_bits b ++ bits_of data.
Proof. done. Qed.

Lemma length_bits_of data : length (bits_of data) = (8 * length data)%nat.
Proof.
  induction data as [|b data IH]; [done|]. rewrite bits_of_cons, length_app, IH.
  unfold byte_bits. rewrite length_map, length_seq. cbn [length]. lia.
Qed.

Lemma lookup_byte_bits b k : (k < 8)%nat -> byte_bits b !! k = Some (Z.testbit b (7 - Z.of_nat k)).
Proof. intros Hk. unfold byte_bits. rewrite list_lookup_fmap, (lookup_seq_lt _ _ _ Hk). done. Qed.

Lemma lookup_bits_of data i x :
  bits_of data !! i = Some x ->
  x = Z.testbit (rd data (Z.of_nat i / 8)) (7 - Z.of_nat i mod 8).
Proof.
  revert i. induction data as [|b data IH]; intros i Hi; [done|]. rewrite bits_of_cons in Hi.
  assert (length (byte_bits b) = 8%nat) as Hl by done.
  destruct (decide (i < 8)%nat) as [Hlt|Hge].
  - rewrite lookup_app_l, lookup_byte_bits in Hi by lia. injection Hi as <-.
    rewrite Z.div_small, Z.mod_small by lia. done.
  - rewrite lookup_app_r, Hl in Hi by lia. apply IH in Hi as ->.
    replace (Z.of_nat i) with (Z.of_nat (i - 8) + 1 * 8) by lia.
    rewrite Z.div_add, Z.mod_add by lia. f_equal. unfold rd.
    rewrite Z2Nat.inj_add by (try apply Z.div_pos; lia). change (Z.to_nat 1) with 1%nat.
    by rewrite Nat.add_comm.
Qed.

(** The number the bits write, after the number [v]. *)
Definition value_from (v : Z) (l : list bool) : Z := fold_left (fun v b => 2 * v + Z.b2z b) l v.
Definition value (l : list bool) : Z := value_from 0 l.

Lemma value_from_add v l : value_from v l = v * 2 ^ Z.of_nat (length l) + value l.
Proof.
  revert v. induction l as [|b l IH]; intros v; cbn [value_from fold_left length]; [cbn; lia|].
  change (fold_left _ l (2 * v + Z.b2z b)) with (value_from (2 * v + Z.b2z b) l).
  unfold value, value_from at 2. cbn [fold_left].
  change (fold_left _ l (2 * 0 + Z.b2z b)) with (value_from (2 * 0 + Z.b2z b) l).
  rewrite (IH (2 * v + _)), (IH (2 * 0 + _)), Nat2Z.inj_succ, Z.pow_succ_r by lia. lia.
Qed.

Lemma value_range l : 0 <= value l < 2 ^ Z.of_nat (length l).
Proof.
  induction l as [|b l IH]; [done|]. unfold value, value_from. cbn [fold_left length].
  change (fold_left _ l (2 * 0 + Z.b2z b)) with (value_from (2 * 0 + Z.b2z b) l).
  rewrite value_from_add, Nat2Z.inj_succ, Z.pow_succ_r by lia. destruct b; cbn [Z.b2z]; lia.
Qed.

(** The [n] low bits of [v], the highest first. *)
Fixpoint put (n : nat) (v : Z) : list bool :=
  match n with O => [] | S n => Z.testbit v (Z.of_nat n) :: put n v end.

Lemma length_put n v : length (put n v) = n.
Proof. induction n; cbn; congruence. Qed.

Lemma value_put n v : value (put n v) = v mod 2 ^ Z.of_nat n.
Proof.
  induction n as [|n IH]; cbn [put]; [by rewrite Z.mod_1_r|].
  unfold value, value_from. cbn [fold_left].
  change (fold_left _ (put n v) (2 * 0 + Z.b2z (Z.testbit v (Z.of_nat n))))
    with (value_from (2 * 0 + Z.b2z (Z.testbit v (Z.of_nat n))) (put n v)).
  rewrite value_from_add, length_put, IH, Z.testbit_spec' by lia.
  rewrite Nat2Z.inj_succ, Z.pow_succ_r, (Z.mul_comm 2 (2 ^ _)), Z.rem_mul_r by lia. lia.
Qed.

Lemma value_put_small n v : 0 <= v < 2 ^ Z.of_nat n -> value (put n v) = v.
Proof. intros. rewrite value_put. by apply Z.mod_small. Qed.

Lemma put_mod n v : put n v = put n (v mod 2 ^ Z.of_nat n).
Proof.
  assert (forall k, (k <= n)%nat -> put k v = put k (v mod 2 ^ Z.of_nat n)) as Hk; [|by apply Hk].
  induction k as [|k IH]; intros Hk; [done|]. cbn [put]. rewrite Z.mod_pow2_bits_low by lia. f_equal. apply IH. lia.
Qed.

Lemma put_value l : put (length l) (value l) = l.
Proof.
  induction l as [|b l IH]; [done|]. cbn [length put].
  assert (value (b :: l) = Z.b2z b * 2 ^ Z.of_nat (length l) + value l) as ->
    by (unfold value at 1, value_from; cbn [fold_left]; change (fold_left _ l ?v) with (value_from v l);
        rewrite value_from_add; f_equal; lia).
  pose proof (value_range l). f_equal.
  - apply Z.b2z_inj. rewrite Z.testbit_spec', Z.div_add_l, Z.div_small, Z.add_0_r by lia. by destruct b.
  - rewrite put_mod, Z.add_comm, Z.mod_add, <-put_mod by lia. done.
Qed.

(** ** Readers *)

(** The bits that are left. *)
Definition at_bits (b : h26x_bits_t) (l : list bool) : Prop :=
  0 <= bits_bit b <= zlen (bits_data b) * 8 /\ drop (Z.to_nat (bits_bit b)) (bits_of (bits_data b)) = l.

Definition reads {A} (m : reader A) (l : list bool) (a : A) : Prop :=
  forall b rest, at_bits b (l ++ rest) -> exists b', m b = Some (a, b') /\ at_bits b' rest.

Lemma reads_ret {A} (a : A) : reads (mret a) [] a.
Proof. intros b rest Hb. by exists b. Qed.

Lemma reads_bind {A B} (m : reader A) (f : A -> reader B) l k a c :
  reads m l a -> reads (f a) k c -> reads (m ≫= f) (l ++ k) c.
Proof.
  intros Hm Hf b rest Hb. rewrite <-app_assoc in Hb. destruct (Hm b _ Hb) as (b1 & E1 & Hb1).
  destruct (Hf b1 _ Hb1) as (b2 & E2 & Hb2). exists b2. split; [|done]. unfold mbind, reader_bind. by rewrite E1.
Qed.

Lemma at_bits_room b l : at_bits b l -> bits_bit b + zlen l = zlen (bits_data b) * 8.
Proof.
  intros [H0 Hd]. assert (length l = length (bits_of (bits_data b)) - Z.to_nat (bits_bit b))%nat as E
    by (by rewrite <-Hd, length_drop).
  rewrite length_bits_of in E. unfold zlen in *. lia.
Qed.

Lemma at_bits_app b l rest :
  at_bits b (l ++ rest) -> at_bits (mk_bits (bits_data b) (bits_bit b + zlen l)) rest.
Proof.
  intros Hb. pose proof (at_bits_room b _ Hb) as Hr. destruct Hb as [H0 Hd]. rewrite zlen_app in Hr.
  pose proof (zlen_nonneg l). pose proof (zlen_nonneg rest). split; cbn [bits_bit bits_data]; [lia|].
  rewrite Z2Nat.inj_add by lia. rewrite <-drop_drop, Hd. unfold zlen. rewrite Nat2Z.id. apply drop_app_length.
Qed.

Lemma next_bit data bit x rest :
  0 <= bit -> drop (Z.to_nat bit) (bits_of data) = x :: rest ->
  Z.land (Z.shiftr (rd data (Z.shiftr bit 3)) (7 - Z.land bit 7)) 1 = Z.b2z x.
Proof.
  intros H0 Hd. assert (bits_of data !! Z.to_nat bit = Some x) as Hx.
  { rewrite <-(take_drop (Z.to_nat bit) (bits_of data)), Hd, lookup_app_r by (rewrite length_take; lia).
    rewrite length_take. replace (Z.to_nat bit - _)%nat with 0%nat; [done|].
    assert (length (drop (Z.to_nat bit) (bits_of data)) <> 0%nat) by (by rewrite Hd). rewrite length_drop in *. lia. }
  apply lookup_bits_of in Hx. rewrite Z2Nat.id in Hx by done. subst x.
  rewrite (shiftr_div bit 3 8), (land_ones_mod bit 3) by (lia || done). change (2 ^ 3) with 8.
  rewrite (land_ones_mod _ 1 1) by (lia || done). change (2 ^ 1) with 2.
  assert (0 <= 7 - bit mod 8) by (pose proof (Z.mod_pos_bound bit 8); lia).
  by rewrite Z.testbit_spec', Z.shiftr_div_pow2 by lia.
Qed.

Lemma read_loop_value l rest data bit v :
  0 <= bit -> drop (Z.to_nat bit) (bits_of data) = l ++ rest ->
  0 <= v -> v * 2 ^ zlen l + 2 ^ zlen l <= 4294967296 ->
  read_loop (length l) data bit v = value_from v l.
Proof.
  revert bit v. induction l as [|x l IH]; intros bit v H0 Hd Hv Hr; [done|]. cbn [length read_loop value_from fold_left].
  rewrite (next_bit data bit x (l ++ rest)) by done.
  rewrite zlen_cons, Z.pow_add_r in Hr by (try apply zlen_nonneg; lia).
  assert (0 < 2 ^ zlen l) by (apply Z.pow_pos_nonneg; [lia|apply zlen_nonneg]).
  rewrite Z.shiftl_mul_pow2, u32_small by nia.
  replace (Z.lor (v * 2 ^ 1) (Z.b2z x)) with (2 * v + Z.b2z x).
  2:{ rewrite <-Z.shiftl_mul_pow2, lor_shiftl_add by (destruct x; cbn; lia). lia. }
  apply IH; [lia| |destruct x; cbn; lia|destruct x; cbn [Z.b2z]; nia].
  rewrite Z2Nat.inj_add by lia. by rewrite <-drop_drop, Hd.
Qed.

Lemma reads_bits n v : (n <= 32)%nat -> reads (bits_read (Z.of_nat n)) (put n v) (v mod 2 ^ Z.of_nat n).
Proof.
  intros Hn b rest Hb. exists (mk_bits (bits_data b) (bits_bit b + Z.of_nat n)).
  assert (zlen (put n v) = Z.of_nat n) as Hl by (unfold zlen; by rewrite length_put).
  pose proof (at_bits_app b _ _ Hb) as Hrest. rewrite Hl in Hrest. split; [|done].
  pose proof (at_bits_room b _ Hb) as Hr. rewrite zlen_app, Hl in Hr. pose proof (zlen_nonneg rest).
  destruct Hb as [H0 Hd]. unfold bits_read.
  rewrite (proj2 (Z.ltb_ge 32 _)), (proj2 (Z.ltb_ge _ (bits_bit b))), (proj2 (Z.ltb_ge _ (Z.of_nat n))) by lia.
  cbn [orb]. do 2 f_equal. rewrite Nat2Z.id, <-value_put. rewrite <-(length_put n v) at 1.
  apply (read_loop_value _ rest); [lia|done|lia|].
  rewrite Hl. change 4294967296 with (2 ^ 32). rewrite Z.mul_0_l, Z.add_0_l. apply Z.pow_le_mono_r; lia.
Qed.

(** A flag, and a field of [n] bits with its value. *)
Lemma reads_field (n v : Z) : 0 <= n <= 32 -> 0 <= v < 2 ^ n -> reads (bits_read n) (put (Z.to_nat n) v) v.
Proof.
  intros Hn Hv. pose proof (reads_bits (Z.to_nat n) v) as Hr. rewrite Z2Nat.id in Hr by lia.
  rewrite Z.mod_small in Hr by done. apply Hr. lia.
Qed.

Lemma reads_flag (x : bool) : reads (bits_read 1) [x] (Z.b2z x).
Proof. destruct x; [apply (reads_field 1 1)|apply (reads_field 1 0)]; lia. Qed.

Lemma reads_skip ns : Forall (fun n => 0 <= n <= 32) ns -> forall l, zlen l = fold_right Z.add 0 ns -> reads (skip_bits ns) l tt.
Proof.
  induction 1 as [|n ns Hn Hns IH]; intros l Hl; cbn [fold_right skip_bits] in *.
  - apply zlen_0 in Hl as ->. apply reads_ret.
  - assert (0 <= fold_right Z.add 0 ns) by (clear -Hns; induction Hns; cbn; lia).
    rewrite <-(take_drop (Z.to_nat n) l).
    eapply (reads_bind _ _ _ _ (value (take (Z.to_nat n) l))); [|apply IH; unfold zlen in *; rewrite length_drop; lia].
    assert (length (take (Z.to_nat n) l) = Z.to_nat n) as E by (rewrite length_take; unfold zlen in Hl; lia).
    generalize dependent (take (Z.to_nat n) l). intros l1 E. rewrite <-(put_value l1) at 1. rewrite E.
    apply reads_field; [done|]. pose proof (value_range l1) as Hr. rewrite E, Z2Nat.id in Hr by lia. done.
Qed.

(** ** Exponential Golomb codes *)

Definition ue (v : Z) : list bool :=
  let k := Z.to_nat (Z.log2 (v + 1)) in repeat false k ++ put (S k) (v + 1).

Lemma reads_zeros k n z : (k < n)%nat -> reads (ue_zeros n z) (repeat false k ++ [true]) (z + Z.of_nat k).
Proof.
  revert n z. induction k as [|k IH]; intros [|n] z Hk; try lia; cbn [repeat app ue_zeros].
  - apply (reads_bind _ _ [true] [] 1); [apply (reads_flag true)|]. cbn. rewrite Z.add_0_r. apply reads_ret.
  - apply (reads_bind _ _ [false] _ 0); [apply (reads_flag false)|]. cbn [Z.eqb negb].
    replace (z + Z.of_nat (S k)) with (z + 1 + Z.of_nat k) by lia. apply IH. lia.
Qed.

(** A code of at most 30 zeros, which is every number below 2^31 - 1. *)
Lemma reads_ue v : 0 <= v < 2147483647 -> reads bits_ue (ue v) v.
Proof.
  intros Hv. unfold ue. set (k := Z.to_nat (Z.log2 (v + 1))).
  assert (0 <= Z.log2 (v + 1) < 31) as Hk by (split; [apply Z.log2_nonneg|apply Z.log2_lt_pow2; lia]).
  pose proof (Z.log2_spec (v + 1)) as Hp. rewrite Z.pow_succ_r in Hp by lia.
  assert (Z.of_nat k = Z.log2 (v + 1)) as Ek by (unfold k; lia). rewrite <-Ek in *.
  cbn [put]. replace (Z.testbit (v + 1) (Z.of_nat k)) with true.
  2:{ symmetry. apply Z.b2z_inj. rewrite Z.testbit_spec' by lia. cbn [Z.b2z].
      replace ((v + 1) / 2 ^ Z.of_nat k) with 1; [done|]. apply (Z.div_unique _ _ 1 (v + 1 - 2 ^ Z.of_nat k)); lia. }
  change (true :: put k (v + 1)) with ([true] ++ put k (v + 1)). rewrite app_assoc.
  unfold bits_ue. eapply (reads_bind _ _ _ _ (0 + Z.of_nat k)); [apply reads_zeros; lia|]. rewrite Z.add_0_l.
  rewrite (proj2 (Z.eqb_neq (Z.of_nat k) 31)) by lia. rewrite <-(app_nil_r (put k (v + 1))).
  eapply reads_bind; [apply reads_bits; lia|].
  replace (u32 (u32 (Z.shiftl 1 (Z.of_nat k) - 1) + (v + 1) mod 2 ^ Z.of_nat k)) with v; [apply reads_ret|].
  rewrite Z.shiftl_mul_pow2, Z.mul_1_l, (u32_small (2 ^ _ - 1)) by lia.
  rewrite (Z.mod_eq (v + 1)) by lia. replace ((v + 1) / 2 ^ Z.of_nat k) with 1; [rewrite u32_small; lia|].
  apply (Z.div_unique _ _ 1 (v + 1 - 2 ^ Z.of_nat k)); lia.
Qed.

Lemma reads_skip_ues vs :
  Forall (fun v => 0 <= v < 2147483647) vs -> reads (skip_ues (length vs)) (concat (map ue vs)) tt.
Proof.
  induction 1 as [|v vs Hv Hvs IH]; cbn [length skip_ues map concat]; [apply reads_ret|].
  eapply reads_bind; [by apply reads_ue|done].
Qed.

(** ** Emulation prevention *)

(** What an encoder writes for a payload: a 3 between two zeros and a byte up to 3. *)
Fixpoint escape (zeros : Z) (l : bytes) : bytes :=
  match l with
  | [] => []
  | b :: l =>
      if (2 <=? zeros) && (b <=? 3) then 3 :: b :: escape (if b =? 0 then 1 else 0) l
      else b :: escape (if b =? 0 then zeros + 1 else 0) l
  end.

Lemma unescape_escape zeros l : unescape zeros (escape zeros l) = l.
Proof.
  revert zeros. induction l as [|b l IH]; intros zeros; [done|]. cbn [escape].
  destruct (Z.leb_spec 2 zeros) as [H2|H2]; cbn [andb].
  - destruct (Z.leb_spec b 3) as [H3|H3].
    + cbn [unescape]. rewrite (proj2 (Z.leb_le 2 zeros)), (proj2 (Z.leb_le b 3)) by lia. cbn [andb Z.eqb Pos.eqb].
      change (2 <=? 0) with false. cbn [andb]. f_equal. destruct (Z.eqb_spec b 0); apply IH.
    + cbn [unescape]. rewrite (proj2 (Z.eqb_neq b 3)) by lia. rewrite andb_false_r. cbn [andb]. f_equal. apply IH.
  - cbn [unescape]. rewrite (proj2 (Z.leb_gt 2 zeros)) by lia. cbn [andb]. f_equal. apply IH.
Qed.

(** No start code is in an escaped payload: no two zeros before a byte up to 2. *)
Fixpoint code_free (zeros : Z) (l : bytes) : bool :=
  match l with
  | [] => true
  | b :: l => negb ((2 <=? zeros) && (b <=? 2)) && code_free (if b =? 0 then zeros + 1 else 0) l
  end.

Lemma escape_code_free zeros l : bytes_ok l -> zeros <= 2 -> code_free zeros (escape zeros l) = true.
Proof.
  intros Hl. revert zeros. induction Hl as [|b l Hb Hl IH]; intros zeros Hz; [done|]. cbn [escape].
  destruct (Z.leb_spec 2 zeros) as [H2|H2]; cbn [andb].
  - destruct (Z.leb_spec b 3) as [H3|H3]; cbn [code_free].
    + rewrite (proj2 (Z.leb_le 2 zeros)) by lia. cbn. destruct (Z.eqb_spec b 0); apply IH; lia.
    + rewrite (proj2 (Z.leb_gt b 2)) by lia. rewrite andb_false_r. cbn [negb andb].
      destruct (Z.eqb_spec b 0); [lia|apply IH; lia].
  - cbn [code_free]. rewrite (proj2 (Z.leb_gt 2 zeros)) by lia. cbn [negb andb].
    destruct (Z.eqb_spec b 0); apply IH; lia.
Qed.

(** ** Bits as bytes *)

(** Eight bits to a byte, for a number of bits that eight divides. *)
Fixpoint pack (n : nat) (l : list bool) : bytes :=
  match n with O => [] | S n => value (take 8 l) :: pack n (drop 8 l) end.

Definition to_bytes (l : list bool) : bytes := pack (length l / 8) l.

Lemma byte_bits_value l : length l = 8%nat -> byte_bits (value l) = l.
Proof. intros Hl. rewrite <-(put_value l) at 2. by rewrite Hl. Qed.

Lemma bits_of_pack n l : length l = (n * 8)%nat -> bits_of (pack n l) = l.
Proof.
  revert l. induction n as [|n IH]; intros l Hl; cbn [pack]; [by destruct l|].
  rewrite bits_of_cons, byte_bits_value, IH by (rewrite ?length_take, ?length_drop; lia). apply take_drop.
Qed.

Lemma bits_of_to_bytes l : (length l mod 8 = 0)%nat -> bits_of (to_bytes l) = l.
Proof.
  intros Hl. apply bits_of_pack. pose proof (Nat.div_mod_eq (length l) 8). lia.
Qed.

Lemma pack_ok n l : bytes_ok (pack n l).
Proof.
  revert l. induction n as [|n IH]; intros l; cbn [pack]; [constructor|]. constructor; [|apply IH].
  pose proof (value_range (take 8 l)) as Hv. unfold is_byte.
  assert (2 ^ Z.of_nat (length (take 8 l)) <= 2 ^ 8) by (apply Z.pow_le_mono_r; rewrite ?length_take; lia). lia.
Qed.

(** A NAL unit with this header byte and payload. *)
Definition nal_of (header : Z) (l : list bool) : bytes := header :: escape 0 (to_bytes l).

Lemma escape_length zeros l : (length l <= length (escape zeros l))%nat.
Proof.
  revert zeros. induction l as [|b l IH]; intros zeros; cbn [escape length]; [lia|].
  destruct ((2 <=? zeros) && (b <=? 3)); cbn [length]; [specialize (IH (if b =? 0 then 1 else 0))|specialize (IH (if b =? 0 then zeros + 1 else 0))]; lia.
Qed.

(** What a reader gets from the payload it gets from the NAL unit. *)
Lemma read_rbsp_of `{CMemoryOk} {A} header l (m : reader A) a :
  (forall b, at_bits b l -> exists b', m b = Some (a, b')) -> (length l mod 8 = 0)%nat -> l <> [] ->
  read_rbsp (nal_of header l) 1 m = Some a.
Proof.
  intros Hm Hl Hne. unfold read_rbsp, rbsp_from_nal, nal_of.
  assert (1 < zlen (header :: escape 0 (to_bytes l))) as Hz.
  { pose proof (escape_length 0 (to_bytes l)). pose proof (length_bits_of (to_bytes l)) as Hb.
    rewrite bits_of_to_bytes in Hb by done. destruct l; [done|]. cbn [length] in Hb.
    rewrite zlen_cons. unfold zlen. lia. }
  rewrite (proj2 (Z.leb_gt _ 1)), malloc_total by lia. change (Z.to_nat 1) with 1%nat. cbn [skipn].
  rewrite drop_0, unescape_escape. unfold mbind, option_bind.
  destruct (Hm (mk_bits (to_bytes l) 0)) as (b & ->); [|done].
  split; cbn [bits_bit bits_data]; [pose proof (zlen_nonneg (to_bytes l)); lia|]. by apply bits_of_to_bytes.
Qed.

(** ** Sequence parameter sets of H.264 *)

(** The syntax of the standard, its names shortened.  The fields of pictures in order of
    type 1 are left out, and so are the elements after the timing of the usability
    information, which end the payload. *)
Record vui_syntax := mk_vui {
  v_aspect : option (Z * option (Z * Z));
  v_overscan : option bool;
  v_signal : option (Z * bool * option (Z * Z * Z));
  v_chroma : option (Z * Z);
  v_timing : option (Z * Z * bool);
}.

Inductive picture_order := Poc0 (log2_max_lsb : Z) | Poc2.

Record sps_syntax := mk_syntax {
  y_profile : Z;
  y_constraints : Z;
  y_level : Z;
  y_id : Z;
  y_chroma : Z;
  y_separate : bool;
  y_depths : Z * Z;
  y_bypass : bool;
  y_scaling : option (list bool);
  y_frame_num : Z;
  y_order : picture_order;
  y_refs : Z;
  y_gaps : bool;
  y_width_mbs : Z;
  y_height_units : Z;
  y_frame_mbs : bool;
  y_adaptive : bool;
  y_direct : bool;
  y_crop : option (Z * Z * Z * Z);
  y_vui : option vui_syntax;
}.

Definition opt_bits {A} (o : option A) (f : A -> list bool) : list bool :=
  match o with Some a => true :: f a | None => [false] end.

Definition vui_bits (v : vui_syntax) : list bool :=
  opt_bits (v_aspect v) (fun a => put 8 a.1 ++ match a.2 with Some wh => put 16 wh.1 ++ put 16 wh.2 | None => [] end) ++
  opt_bits (v_overscan v) (fun x => [x]) ++
  opt_bits (v_signal v) (fun s => put 3 s.1.1 ++ [s.1.2] ++
     opt_bits s.2 (fun c => put 8 c.1.1 ++ put 8 c.1.2 ++ put 8 c.2)) ++
  opt_bits (v_chroma v) (fun c => ue c.1 ++ ue c.2) ++
  opt_bits (v_timing v) (fun t => put 32 t.1.1 ++ put 32 t.1.2 ++ [t.2]).

Definition is_high (y : sps_syntax) : bool := existsb (Z.eqb (y_profile y)) high_profiles.

Definition sps_head (y : sps_syntax) : list bool :=
  put 8 (y_profile y) ++ put 8 (y_constraints y) ++ put 8 (y_level y) ++ ue (y_id y).

Definition sps_high (y : sps_syntax) : list bool :=
  if is_high y then
    ue (y_chroma y) ++ (if y_chroma y =? 3 then [y_separate y] else []) ++
    ue (y_depths y).1 ++ ue (y_depths y).2 ++ [y_bypass y] ++ opt_bits (y_scaling y) id
  else [].

Definition sps_order (y : sps_syntax) : list bool :=
  ue (y_frame_num y) ++ match y_order y with Poc0 n => ue 0 ++ ue n | Poc2 => ue 2 end ++ ue (y_refs y) ++ [y_gaps y].

Definition sps_size (y : sps_syntax) : list bool :=
  ue (y_width_mbs y) ++ ue (y_height_units y) ++ (if y_frame_mbs y then [true] else [false; y_adaptive y]) ++ [y_direct y] ++
  opt_bits (y_crop y) (fun c => let '(l, r, t, b) := c in ue l ++ ue r ++ ue t ++ ue b).

Definition sps_vui (y : sps_syntax) : list bool := opt_bits (y_vui y) vui_bits.

Definition sps_bits (y : sps_syntax) : list bool := sps_head y ++ sps_high y ++ sps_order y ++ sps_size y ++ sps_vui y.

(** What the standard derives: [ChromaArrayType], [CropUnitX], [CropUnitY]. *)
Definition chroma_array_type (y : sps_syntax) : Z :=
  if is_high y then if y_separate y && (y_chroma y =? 3) then 0 else y_chroma y else 1.
Definition crop_unit_x (y : sps_syntax) : Z := match chroma_array_type y with 1 | 2 => 2 | _ => 1 end.
Definition frame_factor (y : sps_syntax) : Z := if y_frame_mbs y then 1 else 2.
Definition crop_unit_y (y : sps_syntax) : Z := (if chroma_array_type y =? 1 then 2 else 1) * frame_factor y.
Definition luma_width (y : sps_syntax) : Z := (y_width_mbs y + 1) * 16.
Definition luma_height (y : sps_syntax) : Z := (y_height_units y + 1) * 16 * frame_factor y.
Definition cropped_x (y : sps_syntax) : Z :=
  match y_crop y with Some (l, r, _, _) => (l + r) * crop_unit_x y | None => 0 end.
Definition cropped_y (y : sps_syntax) : Z :=
  match y_crop y with Some (_, _, t, b) => (t + b) * crop_unit_y y | None => 0 end.

Definition frame_rate (y : sps_syntax) : cdouble :=
  match y_vui y with
  | Some v => match v_timing v with
              | Some (units, scale, _) => d_div (d_of_Z scale) (d_mul (d_of_Z 2) (d_of_Z units))
              | None => d_zero
              end
  | None => d_zero
  end.

(** *** Well-formed parameters *)

Definition ue_ok (v : Z) : Prop := 0 <= v < 2147483647.
Definition field_ok (n v : Z) : Prop := 0 <= v < 2 ^ n.

Record vui_ok (v : vui_syntax) : Prop := {
  vk_aspect : forall idc wh, v_aspect v = Some (idc, wh) -> field_ok 8 idc /\ (idc = 255 <-> is_some wh = true);
  vk_chroma : forall a b, v_chroma v = Some (a, b) -> ue_ok a /\ ue_ok b;
  vk_timing : forall units scale fixed, v_timing v = Some (units, scale, fixed) ->
    0 < units < 4294967296 /\ field_ok 32 scale;
}.

(** Cropping leaves part of the picture; no scaling lists; pictures in order of type 0;
    colour in high profiles. *)
Record sps_ok (y : sps_syntax) : Prop := {
  yk_bytes : field_ok 8 (y_profile y) /\ field_ok 8 (y_level y);
  yk_id : ue_ok (y_id y);
  yk_chroma : is_high y = true -> 0 < y_chroma y <= 3;
  yk_depths : ue_ok (y_depths y).1 /\ ue_ok (y_depths y).2;
  yk_scaling : forall l, y_scaling y = Some l -> l = repeat false (if y_chroma y =? 3 then 12 else 8);
  yk_frame_num : ue_ok (y_frame_num y);
  yk_order : exists n, y_order y = Poc0 n /\ ue_ok n;
  yk_refs : ue_ok (y_refs y);
  yk_size : 0 <= y_width_mbs y < 65536 /\ 0 <= y_height_units y < 65536;
  yk_crop : forall l r t b, y_crop y = Some (l, r, t, b) -> 0 <= l /\ 0 <= r /\ 0 <= t /\ 0 <= b;
  yk_cropped : cropped_x y < luma_width y /\ cropped_y y < luma_height y;
  yk_vui : forall v, y_vui y = Some v -> vui_ok v;
}.

(** *** Reading the parts *)

Lemma reads_opt {A B} (o : option A) f (m : reader unit) (k : reader B) l c :
  (forall a, o = Some a -> reads m (f a) tt) -> reads k l c ->
  reads (x ← bits_read 1; _ ← (if negb (x =? 0) then m else mret tt); k) (opt_bits o f ++ l) c.
Proof.
  intros Hm Hk. destruct o as [a|]; cbn [opt_bits app].
  - apply (reads_bind _ _ [true] (f a ++ l) 1); [apply (reads_flag true)|]. cbn [Z.eqb negb].
    eapply reads_bind; [by apply Hm|done].
  - apply (reads_bind _ _ [false] l 0); [apply (reads_flag false)|]. cbn [Z.eqb negb].
    apply (reads_bind _ _ [] l tt); [apply reads_ret|done].
Qed.

Lemma reads_opt_last {A} (o : option A) f (m : reader unit) :
  (forall a, o = Some a -> reads m (f a) tt) ->
  reads (x ← bits_read 1; if negb (x =? 0) then m else mret tt) (opt_bits o f) tt.
Proof.
  intros Hm. destruct o as [a|]; cbn [opt_bits].
  - apply (reads_bind _ _ [true] (f a) 1); [apply (reads_flag true)|by apply Hm].
  - apply (reads_bind _ _ [false] [] 0); [apply (reads_flag false)|apply reads_ret].
Qed.

Lemma reads_skip_app ns l : Forall (fun n => 0 <= n <= 32) ns -> zlen l = fold_right Z.add 0 ns -> reads (skip_bits ns) l tt.
Proof. intros. by apply reads_skip. Qed.

Lemma zlen_put n v : 0 <= n -> zlen (put (Z.to_nat n) v) = n.
Proof. intros. unfold zlen. rewrite length_put. lia. Qed.

Ltac skip_ok := apply reads_skip_app; [repeat constructor; lia|
  rewrite ?zlen_app, ?zlen_cons, ?zlen_nil; unfold zlen; rewrite ?length_put; cbn; lia].

Definition vui_rate (v : option vui_syntax) : cdouble :=
  match v with
  | Some v => match v_timing v with
              | Some (units, scale, _) => d_div (d_of_Z scale) (d_mul (d_of_Z 2) (d_of_Z units))
              | None => d_zero
              end
  | None => d_zero
  end.

Lemma reads_vui v : (forall u, v = Some u -> vui_ok u) -> reads vui_framerate (opt_bits v vui_bits) (vui_rate v).
Proof.
  intros Hok. destruct v as [v|]; cbn [opt_bits].
  2:{ apply (reads_bind _ _ [false] [] 0); [apply (reads_flag false)|apply reads_ret]. }
  specialize (Hok v eq_refl) as [Ha Hc Ht].
  change (true :: vui_bits v) with ([true] ++ vui_bits v).
  apply (reads_bind _ _ [true] _ 1); [apply (reads_flag true)|]. cbn [Z.eqb].
  unfold vui_bits. apply reads_opt.
  { intros [idc wh] E. destruct (Ha idc wh E) as [Hidc Hwh]. cbn [fst snd].
    apply (reads_bind _ _ (put 8 idc) _ idc); [apply (reads_field 8); [lia|done]|].
    destruct wh as [[w h]|]; cbn [is_some] in Hwh.
    - rewrite (proj2 (Z.eqb_eq idc 255)) by tauto. skip_ok.
    - rewrite (proj2 (Z.eqb_neq idc 255)) by (intros Ei; apply Hwh in Ei; done). apply reads_ret. }
  apply reads_opt; [intros x _; skip_ok|].
  apply reads_opt.
  { intros [[format full] colour] _. cbn [fst snd]. rewrite app_assoc.
    eapply reads_bind; [skip_ok|]. apply reads_opt_last. intros; skip_ok. }
  apply reads_opt.
  { intros [a b] E. cbn [fst snd]. destruct (Hc a b E). rewrite <-(app_nil_r (ue b)).
    apply (reads_skip_ues [a; b]). by apply Forall_cons; split; [|apply Forall_singleton]. }
  cbn [vui_rate]. destruct (v_timing v) as [[[units scale] fixed]|] eqn:E; cbn [opt_bits].
  2:{ rewrite <-(app_nil_r [false]). eapply reads_bind; [apply (reads_flag false)|apply reads_ret]. }
  destruct (Ht _ _ _ eq_refl) as [Hu Hs]. apply (reads_bind _ _ [true] _ 1); [apply (reads_flag true)|]. cbn [Z.eqb fst snd].
  eapply reads_bind; [apply (reads_field 32 units); [lia|change (2 ^ 32) with 4294967296; lia]|].
  eapply reads_bind; [apply (reads_field 32 scale); [lia|done]|].
  rewrite <-(app_nil_r [fixed]). eapply reads_bind; [skip_ok|].
  rewrite (proj2 (Z.eqb_neq units 0)) by lia. apply reads_ret.
Qed.

Lemma reads_no_lists n : reads (no_scaling_lists n) (repeat false n) tt.
Proof.
  induction n as [|n IH]; cbn [no_scaling_lists repeat]; [apply reads_ret|].
  apply (reads_bind _ _ [false] _ 0); [apply (reads_flag false)|done].
Qed.

Lemma reads_chroma y :
  sps_ok y -> reads (sps_chroma (y_profile y)) (sps_high y) (if is_high y then y_chroma y else 1).
Proof.
  intros Hok. unfold sps_chroma, sps_high, is_high.
  destruct (existsb _ _) eqn:Eh; [|apply reads_ret]. pose proof (yk_chroma y Hok Eh) as Hc. destruct (yk_depths y Hok).
  eapply reads_bind; [apply reads_ue; lia|].
  eapply (reads_bind _ _ _ _ tt).
  { destruct (y_chroma y =? 3); [skip_ok|apply reads_ret]. }
  rewrite app_assoc. eapply (reads_bind _ _ _ _ tt).
  { rewrite <-(app_nil_r (ue (y_depths y).2)). apply (reads_skip_ues [_; _]).
    by apply Forall_cons; split; [|apply Forall_singleton]. }
  eapply (reads_bind _ _ _ _ tt); [skip_ok|]. rewrite <-(app_nil_r (opt_bits _ _)). apply reads_opt; [|apply reads_ret].
  intros l El. rewrite (yk_scaling y Hok l El). destruct (y_chroma y =? 3); apply reads_no_lists.
Qed.

Lemma reads_order y : sps_ok y -> reads (_ ← skip_ues 4; skip_bits [1]) (sps_order y) tt.
Proof.
  intros Hok. destruct (yk_order y Hok) as (n & En & Hn). unfold sps_order. rewrite En.
  replace (ue (y_frame_num y) ++ (ue 0 ++ ue n) ++ ue (y_refs y) ++ [y_gaps y])
    with (concat (map ue [y_frame_num y; 0; n; y_refs y]) ++ [y_gaps y]) by (cbn; by rewrite app_nil_r, <-!app_assoc).
  eapply (reads_bind _ _ _ _ tt); [|skip_ok]. apply (reads_skip_ues [_; _; _; _]).
  repeat (apply Forall_cons; split); [apply Hok|lia|done|apply Hok|constructor].
Qed.

Definition crop_of (y : sps_syntax) : Z * Z * Z * Z := default (0, 0, 0, 0) (y_crop y).

Lemma reads_crop y :
  (forall l r t b, y_crop y = Some (l, r, t, b) -> ue_ok l /\ ue_ok r /\ ue_ok t /\ ue_ok b) ->
  reads (crop ← bits_read 1; crop_offsets crop)
    (opt_bits (y_crop y) (fun c => let '(l, r, t, b) := c in ue l ++ ue r ++ ue t ++ ue b)) (crop_of y).
Proof.
  intros Hok. unfold crop_of, crop_offsets. destruct (y_crop y) as [[[[l r] t] b]|]; cbn [opt_bits default].
  - destruct (Hok _ _ _ _ eq_refl) as (? & ? & ? & ?). apply (reads_bind _ _ [true] _ 1); [apply (reads_flag true)|].
    cbn [Z.eqb negb]. rewrite <-(app_nil_r (ue b)). do 4 (eapply reads_bind; [by apply reads_ue|]). apply reads_ret.
  - apply (reads_bind _ _ [false] [] 0); [apply (reads_flag false)|apply reads_ret].
Qed.

Lemma reads_assoc {A B C} (m : reader A) (f : A -> reader B) (g : B -> reader C) l c :
  reads (y ← (x ← m; f x); g y) l c -> reads (x ← m; y ← f x; g y) l c.
Proof.
  intros Hr b rest Hb. destruct (Hr b rest Hb) as (b' & E & Hb'). exists b'. split; [|done].
  revert E. unfold mbind, reader_bind. by destruct (m b) as [[a b1]|].
Qed.

(** The structure the code fills in: the size of the picture before and after the cropping. *)
Definition sps_of (y : sps_syntax) : h264_sps_t :=
  mk_sps None (luma_width y - cropped_x y) (luma_height y - cropped_y y) (luma_width y) (luma_height y)
    (y_profile y) (y_level y) 8 d_zero 0 false.

Lemma crop_unit_code y : sps_ok y ->
  let chroma := if is_high y then y_chroma y else 1 in
  crop_unit_x y = (if chroma =? 3 then 1 else 2) /\
  crop_unit_y y = (if chroma =? 1 then 2 else 1) * frame_factor y.
Proof.
  intros Hok. unfold crop_unit_x, crop_unit_y, chroma_array_type. pose proof (yk_chroma y Hok) as Hc.
  destruct (is_high y); [|done]. specialize (Hc eq_refl).
  assert (y_chroma y = 1 \/ y_chroma y = 2 \/ y_chroma y = 3) as [-> | [-> | ->]] by lia;
    by destruct (y_separate y).
Qed.

(** The sizes of a well-formed set fit, so that the arithmetic of the code is exact. *)
Lemma crop_fits y : sps_ok y ->
  let '(l, r, t, b) := crop_of y in
  0 <= l + r < 1048576 /\ 0 <= l /\ 0 <= r /\ 0 <= t + b < 2097152 /\ 0 <= t /\ 0 <= b /\
  cropped_x y = (l + r) * crop_unit_x y /\ cropped_y y = (t + b) * crop_unit_y y.
Proof.
  intros Hok. pose proof (yk_size y Hok) as [Hw Hh]. pose proof (yk_cropped y Hok) as [Hx Hy].
  unfold crop_of, cropped_x, cropped_y, luma_width, luma_height, frame_factor in *.
  destruct (y_crop y) as [[[[l r] t] b]|] eqn:E; cbn [default]; [|lia].
  destruct (yk_crop y Hok _ _ _ _ E) as (? & ? & ? & ?).
  assert (1 <= crop_unit_x y) by (unfold crop_unit_x; repeat case_match; lia).
  assert (1 <= crop_unit_y y) by (unfold crop_unit_y, frame_factor; repeat case_match; lia).
  destruct (y_frame_mbs y); split_and!; try lia; nia.
Qed.

Lemma reads_frame {A} (frame adaptive : bool) (k : Z -> reader A) l c :
  reads (k (Z.b2z frame)) l c ->
  reads (x ← bits_read 1; _ ← (if x =? 0 then skip_bits [1] else mret tt); k x)
    ((if frame then [true] else [false; adaptive]) ++ l) c.
Proof.
  intros Hk. destruct frame.
  - apply (reads_bind _ _ [true] l 1); [apply (reads_flag true)|]. apply (reads_bind _ _ [] l tt); [apply reads_ret|done].
  - apply (reads_bind _ _ [false] (adaptive :: l) 0); [apply (reads_flag false)|].
    apply (reads_bind _ _ [adaptive] l tt); [skip_ok|done].
Qed.

Lemma reads_sps y : sps_ok y ->
  reads sps_fields (sps_head y ++ sps_high y ++ sps_order y ++ sps_size y) (sps_of y, y_id y).
Proof.
  intros Hok. pose proof (yk_size y Hok) as [Hw Hh]. pose proof (crop_fits y Hok) as Hcrop.
  pose proof (yk_cropped y Hok) as [Hx Hy]. pose proof (crop_unit_code y Hok) as [Hux Huy].
  unfold sps_fields, sps_head. rewrite <-!app_assoc. destruct (yk_bytes y Hok) as [Hp Hl].
  eapply reads_bind; [apply (reads_field 8); [lia|done]|].
  eapply (reads_bind _ _ _ _ tt); [skip_ok|].
  eapply reads_bind; [apply (reads_field 8); [lia|done]|].
  eapply reads_bind; [apply reads_ue, Hok|].
  eapply reads_bind; [by apply reads_chroma|].
  apply reads_assoc. eapply reads_bind; [by apply reads_order|].
  unfold sps_size. eapply reads_bind; [apply reads_ue; lia|]. eapply reads_bind; [apply reads_ue; lia|].
  apply reads_frame. eapply (reads_bind _ _ _ _ tt); [skip_ok|].
  apply reads_assoc. rewrite <-(app_nil_r (opt_bits _ _)). eapply reads_bind.
  { apply reads_crop. intros l r t b E. unfold crop_of in Hcrop. rewrite E in Hcrop. unfold ue_ok. cbn [from_option id] in Hcrop. lia. }
  destruct (crop_of y) as [[[l r] t] b]. destruct Hcrop as (? & ? & ? & ? & ? & ? & Ex & Ey).
  assert (2 - Z.b2z (y_frame_mbs y) = frame_factor y) as -> by (unfold frame_factor; by destruct (y_frame_mbs y)).
  assert (1 <= frame_factor y <= 2) as Hff by (unfold frame_factor; destruct (y_frame_mbs y); lia).
  rewrite Hux in Ex. rewrite Huy, Z.mul_assoc in Ey. unfold luma_width, luma_height in *.
  set (cx := if _ =? 3 then 1 else 2) in *. set (cy := if _ =? 1 then 2 else 1) in *.
  assert (1 <= cx <= 2) by (unfold cx; case_match; lia). assert (1 <= cy <= 2) by (unfold cy; case_match; lia).
  assert (0 <= (l + r) * cx <= 2097152) by nia. assert (0 <= (t + b) * cy <= 4194304) by nia.
  assert (0 <= (t + b) * cy * frame_factor y <= 8388608) by nia.
  assert (0 <= (y_height_units y + 1) * 16 * frame_factor y <= 2097152) by nia.
  rewrite !(u32_small (y_width_mbs y + 1)), !(u32_small ((y_width_mbs y + 1) * 16)), !(u32_small (y_height_units y + 1)),
    !(u32_small ((y_height_units y + 1) * 16)), !(u32_small (l + r)), !(u32_small (t + b)), !(u32_small ((t + b) * cy)),
    !(u32_small ((y_height_units y + 1) * 16 * frame_factor y)), !(u32_small ((l + r) * cx)),
    !(u32_small ((t + b) * cy * frame_factor y)) by lia.
  rewrite <-Ex, <-Ey, (proj2 (Z.leb_gt _ (cropped_x y))), (proj2 (Z.leb_gt _ (cropped_y y))) by lia.
  apply reads_ret.
Qed.

Lemma length_opt_bits {A} (o : option A) f : opt_bits o f <> [].
Proof. by destruct o. Qed.

Lemma parse_sps_of `{CMemoryOk} header y rest :
  sps_ok y -> (length (sps_bits y ++ rest) mod 8 = 0)%nat ->
  parse_h264_sps (nal_of header (sps_bits y ++ rest)) = Some (with_framerate (sps_of y) (frame_rate y), y_id y).
Proof.
  intros Hok Hl. apply read_rbsp_of; [|done|].
  - intros b Hb. replace (sps_bits y ++ rest)
      with ((sps_head y ++ sps_high y ++ sps_order y ++ sps_size y) ++ sps_vui y ++ rest) in Hb
      by (unfold sps_bits; by rewrite <-!app_assoc).
    destruct (reads_sps y Hok b _ Hb) as (b1 & -> & Hb1). exists b1. do 3 f_equal.
    assert (forall u, y_vui y = Some u -> vui_ok u) as Hv by apply Hok.
    destruct (reads_vui (y_vui y) Hv b1 _ Hb1) as (b2 & E & _). unfold parse_h264_vui_framerate. by rewrite E.
  - unfold sps_bits, sps_head. cbn. done.
Qed.

(** The bits that end a payload: a one, and zeros to the end of its byte. *)
Definition rbsp_trailing (l : list bool) : list bool := true :: repeat false (7 - length l mod 8).

Lemma trailing_aligned l : (length (l ++ rbsp_trailing l) mod 8 = 0)%nat.
Proof.
  unfold rbsp_trailing. rewrite length_app. cbn [length]. rewrite repeat_length.
  pose proof (Nat.mod_upper_bound (length l) 8). pose proof (Nat.div_mod_eq (length l) 8).
  replace (length l + S (7 - length l mod 8))%nat with ((length l / 8 + 1) * 8)%nat by lia. apply Nat.Div0.mod_mul.
Qed.

Lemma parse_pps_of `{CMemoryOk} header p s rest :
  0 <= p < H264_MAX_PPS -> 0 <= s < H264_MAX_SPS -> (length (ue p ++ ue s ++ rest) mod 8 = 0)%nat ->
  parse_h264_pps (nal_of header (ue p ++ ue s ++ rest)) = Some (p, s).
Proof.
  unfold H264_MAX_PPS, H264_MAX_SPS. intros Hp Hs Hl. unfold parse_h264_pps. rewrite (read_rbsp_of header _ _ (p, s)); [|idtac|done|].
  - unfold mbind, option_bind, H264_MAX_PPS, H264_MAX_SPS. by rewrite (proj2 (Z.ltb_lt p 256)), (proj2 (Z.ltb_lt s 32)) by lia.
  - intros b Hb. rewrite app_assoc, <-(app_nil_r (ue p ++ ue s)), <-!app_assoc in Hb.
    destruct (reads_bind bits_ue (fun p => s ← bits_ue; mret (p, s)) (ue p) (ue s ++ []) p (p, s)) with (b := b) (rest := rest)
      as (b' & E & _); [apply reads_ue; lia| |by rewrite <-!app_assoc|by exists b'].
    eapply reads_bind; [apply reads_ue; lia|apply reads_ret].
  - unfold ue at 1. cbn [put]. destruct (repeat _ _); done.
Qed.

(** ** Theorems *)

(** C8. A sequence parameter set written as the standard says (pictures in order of type 0,
    no scaling lists, colour, cropping that leaves some of the picture), with the
    emulation prevention of its NAL unit, is parsed to its id, profile and level, the
    size of the picture before and after the cropping, and the frame rate of its timing
    information. *)
Theorem sps_roundtrip `{CMemoryOk} header y rest :
  sps_ok y -> (length (sps_bits y ++ rest) mod 8 = 0)%nat ->
  parse_h264_sps (nal_of header (sps_bits y ++ rest)) =
  Some (mk_sps None (luma_width y - cropped_x y) (luma_height y - cropped_y y) (luma_width y) (luma_height y)
          (y_profile y) (y_level y) 8 (frame_rate y) 0 false, y_id y).
Proof. intros Hok Hl. by rewrite parse_sps_of. Qed.

(** No sequence parameter set of H.265 is accepted: the profile's 48 reserved bits are
    asked for at once, and no field may have more than 32. *)
Theorem h265_sps_rejected `{CMemory} nal : parse_h265_sps nal = None.
Proof.
  unfold parse_h265_sps, read_rbsp. destruct (rbsp_from_nal nal 2) as [rbsp|]; [|done].
  assert (forall n b, skip_h265_ptl n b = None) as Hptl.
  { intros n b. unfold skip_h265_ptl, mbind, reader_bind.
    assert (forall b, skip_bits [48; 8] b = None) as H48 by done.
    cbn [skip_bits]. unfold mbind, reader_bind. cbn [skip_bits] in H48. unfold mbind, reader_bind in H48.
    do 4 (destruct (bits_read _ _) as [[??]|]; [|done]). by rewrite H48. }
  unfold mbind, option_bind, reader_bind.
  destruct (skip_bits [4] _) as [[_ b1]|]; [|done]. destruct (bits_read 3 b1) as [[n b2]|]; [|done].
  destruct (skip_bits [1] b2) as [[_ b3]|]; [|done]. by rewrite Hptl.
Qed.

#[local] Existing Instances ample_memory ample_memory_ok.

(** 1920 x 1080 in 68 rows of macroblocks, 25 frames a second. *)
Definition full_hd : sps_syntax :=
  mk_syntax 100 0 40 0 1 false (0, 0) false None 4 (Poc0 4) 4 false 119 67 true false true (Some (0, 0, 0, 4))
    (Some (mk_vui (Some (1, None)) None (Some (5, true, Some (1, 1, 1))) None (Some (1, 50, true)))).

Lemma full_hd_ok : sps_ok full_hd.
Proof.
  constructor; try done; unfold ue_ok, field_ok; cbn; try lia.
  - by exists 4.
  - intros ???? [= <- <- <- <-]. lia.
  - intros v [= <-]. constructor; cbn; unfold field_ok, ue_ok; try done.
    + intros ?? [= <- <-]. split; [lia|]. split; [lia|done].
    + intros ??? [= <- <- <-]. lia.
Qed.

Lemma sps_roundtrip_witness :
  parse_h264_sps (nal_of 103 (sps_bits full_hd ++ rbsp_trailing (sps_bits full_hd))) =
  Some (mk_sps None 1920 1080 1920 1088 100 40 8 (d_of_Z 25) 0 false, 0).
Proof. apply (sps_roundtrip 103 full_hd); [exact full_hd_ok|reflexivity]. Defined.

(** 1280 x 720, the pictures in order of either type. *)
Definition hd_ready (order : picture_order) : sps_syntax :=
  mk_syntax 66 0 31 0 1 false (0, 0) false None 4 order 4 false 79 44 true false true None None.

Definition parsed_size (y : sps_syntax) : option (Z * Z) :=
  (fun p => (sps_width p.1, sps_height p.1)) <$>
  parse_h264_sps (nal_of 103 (sps_bits y ++ rbsp_trailing (sps_bits y))).

(** A set whose pictures are in order of type 2 has one number less, but the parser
    always reads four: the same picture of 1280 x 720 is taken for one of 176 x 48. *)
Theorem output_order_misread :
  parsed_size (hd_ready (Poc0 4)) = Some (1280, 720) /\ parsed_size (hd_ready Poc2) = Some (176, 48).
Proof. split; reflexivity. Qed.
