(* ===== verification/H26xParser.v ===== *)
(** * The H.264 and H.265 stream parser: [src/h26x_parser.c]

    Bytes come in on the sink pad, cut anywhere; NAL units or access units go out on the
    source pad, each unit behind a four-byte start code, after the capabilities that
    describe them.  The element's private structure is [h26x_parser_t], in groups of
    fields; what it does to its source pad is the class [SrcPad]. *)

From Stdlib Require Import String SpecFloat.
From S2P Require Import Prelude CLib Pad Caps Graph PadOps H26xBits.

Local Open Scope Z_scope.

Definition H26X_DEFAULT_MAX_NAL : Z := 16 * 1024 * 1024.
Definition H26X_DEFAULT_MAX_BUFFERED : Z := 64 * 1024 * 1024.
Definition ZST_H26X_PARSER_CAPS_AVCC : string := "codec_data-avcc".
Definition ZST_H26X_PARSER_CAPS_FRAMERATE : string := "framerate".
(** [sizeof(h26x_parser_t)] *)
Definition SIZEOF_H26X_PARSER : Z := 12864.

(** ** The source pad of an element *)

Class SrcPad (D : Type) := {
  src_linked : D -> bool;
  src_push : D -> zst_buffer -> zst_result_t * D;
  src_event : D -> zst_pad_event_t -> zst_result_t * D;
  src_get_caps : D -> option zst_caps_t;
  src_caps_changed : D -> option zst_caps_t -> option zst_caps_t -> D;
}.

(** ** The state *)

Inductive h26x_codec_t := H26X_CODEC_AUTO | H26X_CODEC_H264 | H26X_CODEC_H265.
Inductive h26x_format_t := H26X_FMT_AUTO | H26X_FMT_ANNEXB | H26X_FMT_LENGTH.
Inductive h26x_policy_t := H26X_ERROR | H26X_DROP | H26X_WARN_DROP.

#[export] Instance h26x_codec_eq : EqDecision h26x_codec_t.
Proof. solve_decision. Defined.
#[export] Instance h26x_format_eq : EqDecision h26x_format_t.
Proof. solve_decision. Defined.
#[export] Instance h26x_policy_eq : EqDecision h26x_policy_t.
Proof. solve_decision. Defined.

Record h264_pps_t := mk_pps { pps_nal : option bytes; pps_sps_id : Z; pps_version : Z; pps_valid : bool }.
Definition pps_zero : h264_pps_t := mk_pps None 0 0 false.

Record h26x_config := mk_config {
  codec : h26x_codec_t;
  input_format : h26x_format_t;
  nal_length_size : Z;
  aggregate_au : bool;
  policy : h26x_policy_t;
  max_nal_size : Z;
  max_au_size : Z;
  max_buffered_bytes : Z;
}.

(** [adapter]: the block's first [adapter_len] bytes wait to be parsed. *)
Record h26x_adapter := mk_adapter {
  adapter : option bytes;
  adapter_len : Z;
  adapter_cap : Z;
  adapter_pts : Z;
  adapter_dts : Z;
  adapter_duration : Z;
  have_timestamp : bool;
}.

Record h264_activation := mk_activation {
  h264_active : bool;
  h264_active_sps : Z;
  h264_active_pps : Z;
  h264_active_sps_version : Z;
  h264_active_pps_version : Z;
}.

Record h26x_format := mk_format {
  fm_width : Z;
  fm_height : Z;
  fm_coded_width : Z;
  fm_coded_height : Z;
  fm_profile : Z;
  fm_level : Z;
  fm_bit_depth : Z;
  fm_framerate : cdouble;
  format_valid : bool;
  format_dirty : bool;
}.

Record h26x_counts := mk_counts {
  generation : Z;
  parsed_nals : Z;
  output_buffers : Z;
  parse_errors : Z;
  dropped_nals : Z;
}.

(** The access unit being gathered. *)
Record h26x_au := mk_hau {
  hau : option bytes;
  hau_len : Z;
  hau_cap : Z;
  hau_pts : Z;
  hau_dts : Z;
  hau_duration : Z;
  hau_flags : Z;
  hau_has_vcl : bool;
}.

(** [ps] are the H.265 sets: video, sequence, picture ([ps_len] is their length). *)
Record h26x_parser_t := mk_parser {
  hp_config : h26x_config;
  hp_adapter : h26x_adapter;
  hp_ps : list (option bytes);
  h264_sps : list h264_sps_t;
  h264_pps : list h264_pps_t;
  hp_active : h264_activation;
  hp_format : h26x_format;
  hp_counts : h26x_counts;
  hp_au : h26x_au;
}.

Definition set_config (s : h26x_parser_t) c :=
  mk_parser c (hp_adapter s) (hp_ps s) (h264_sps s) (h264_pps s) (hp_active s) (hp_format s) (hp_counts s) (hp_au s).
Definition set_adapter (s : h26x_parser_t) a :=
  mk_parser (hp_config s) a (hp_ps s) (h264_sps s) (h264_pps s) (hp_active s) (hp_format s) (hp_counts s) (hp_au s).
Definition set_sets (s : h26x_parser_t) ps sps pps :=
  mk_parser (hp_config s) (hp_adapter s) ps sps pps (hp_active s) (hp_format s) (hp_counts s) (hp_au s).
Definition set_active (s : h26x_parser_t) a f :=
  mk_parser (hp_config s) (hp_adapter s) (hp_ps s) (h264_sps s) (h264_pps s) a f (hp_counts s) (hp_au s).
Definition set_counts (s : h26x_parser_t) c :=
  mk_parser (hp_config s) (hp_adapter s) (hp_ps s) (h264_sps s) (h264_pps s) (hp_active s) (hp_format s) c (hp_au s).
Definition set_au (s : h26x_parser_t) u :=
  mk_parser (hp_config s) (hp_adapter s) (hp_ps s) (h264_sps s) (h264_pps s) (hp_active s) (hp_format s) (hp_counts s) u.

Definition with_input (c : h26x_config) (k : h26x_codec_t) (f : h26x_format_t) : h26x_config :=
  mk_config k f (nal_length_size c) (aggregate_au c) (policy c) (max_nal_size c) (max_au_size c) (max_buffered_bytes c).
Definition with_valid (f : h26x_format) (valid dirty : bool) : h26x_format :=
  mk_format (fm_width f) (fm_height f) (fm_coded_width f) (fm_coded_height f) (fm_profile f) (fm_level f)
    (fm_bit_depth f) (fm_framerate f) valid dirty.
Definition set_dirty (s : h26x_parser_t) (dirty : bool) : h26x_parser_t :=
  set_active s (hp_active s) (with_valid (hp_format s) (format_valid (hp_format s)) dirty).

(** The counters, one of them a step further. *)
Definition count_generation (s : h26x_parser_t) : h26x_parser_t :=
  let c := hp_counts s in
  set_counts s (mk_counts (u64 (generation c + 1)) (parsed_nals c) (output_buffers c) (parse_errors c) (dropped_nals c)).
Definition count_nal (s : h26x_parser_t) : h26x_parser_t :=
  let c := hp_counts s in
  set_counts s (mk_counts (generation c) (u64 (parsed_nals c + 1)) (output_buffers c) (parse_errors c) (dropped_nals c)).
Definition count_output (s : h26x_parser_t) : h26x_parser_t :=
  let c := hp_counts s in
  set_counts s (mk_counts (generation c) (parsed_nals c) (u64 (output_buffers c + 1)) (parse_errors c) (dropped_nals c)).
Definition count_error (s : h26x_parser_t) : h26x_parser_t :=
  let c := hp_counts s in
  set_counts s (mk_counts (generation c) (parsed_nals c) (output_buffers c) (u64 (parse_errors c + 1)) (dropped_nals c)).
Definition count_dropped (s : h26x_parser_t) : h26x_parser_t :=
  let c := hp_counts s in
  set_counts s (mk_counts (generation c) (parsed_nals c) (output_buffers c) (parse_errors c) (u64 (dropped_nals c + 1))).

(** ** Growing blocks *)

(** [limit] is below 2^32 and a block has 256 bytes or more, so 32 rounds are enough. *)
Fixpoint double_until (n : nat) (next need limit : Z) : Z :=
  match n with
  | O => next
  | S n => if (next <? need) && (next <=? limit / 2) then double_until n (next * 2) need limit else next
  end.

Section parser.
Context {D : Type} `{SrcPad D} `{CMemory} (stale_size : caps_value -> Z).
Implicit Type s : h26x_parser_t.
Implicit Type d : D.

(** The block and its capacity with room for [add] bytes after [have]. *)
Definition reserve (block : option bytes) (cap have add limit : Z) : option (option bytes * Z) :=
  if u64 (limit - have) <? add then None
  else
    let need := u64 (have + add) in
    if need <=? cap then Some (block, cap)
    else
      let next := double_until 32 (if cap =? 0 then 256 else cap) need limit in
      let next := if next <? need then need else next in
      if malloc_ok next then Some (Some (default [] block), next) else None.

(** Bytes after the first [len] of a block, which must have room for them; the bytes
    before must have been written. *)
Definition append (block : option bytes) (cap len : Z) (data : bytes) : outcome (option bytes) :=
  if cap <? len + zlen data then Fault
  else match block with
  | Some p => if zlen p <? len then Fault else Done (Some (sub_bytes 0 len p ++ data))
  | None => match data with [] => Done None | _ => Fault end
  end.

Definition clear_au s : h26x_parser_t :=
  let u := hp_au s in set_au s (mk_hau None 0 0 (hau_pts u) (hau_dts u) (hau_duration u) 0 false).

Definition clear_adapter s : h26x_parser_t :=
  let a := hp_adapter s in
  set_adapter s (mk_adapter (adapter a) 0 (adapter_cap a) (adapter_pts a) (adapter_dts a) (adapter_duration a) false).

Definition free_adapter s (len : Z) : h26x_parser_t :=
  let a := hp_adapter s in
  set_adapter s (mk_adapter None len 0 (adapter_pts a) (adapter_dts a) (adapter_duration a) (have_timestamp a)).

Definition clear_ps s : h26x_parser_t :=
  let s := set_sets s (repeat None 3) (repeat sps_zero (Z.to_nat H264_MAX_SPS)) (repeat pps_zero (Z.to_nat H264_MAX_PPS)) in
  let a := hp_active s in
  let f := hp_format s in
  set_active s
    (mk_activation false (h264_active_sps a) (h264_active_pps a) (h264_active_sps_version a) (h264_active_pps_version a))
    (mk_format (fm_width f) (fm_height f) (fm_coded_width f) (fm_coded_height f) (fm_profile f) (fm_level f)
       (fm_bit_depth f) d_zero (format_valid f) (format_dirty f)).

Definition parser_pad_destroy s : h26x_parser_t := clear_ps (clear_au (free_adapter s 0)).

(** ** Capabilities *)

Definition get_sps s (id : Z) : h264_sps_t := default sps_zero (h264_sps s !! Z.to_nat id).
Definition get_pps s (id : Z) : h264_pps_t := default pps_zero (h264_pps s !! Z.to_nat id).
Definition nal_bytes (nal : option bytes) : bytes := default [] nal.

Definition START4 : bytes := [0; 0; 0; 1].

Definition media_name s : string :=
  match codec (hp_config s) with H26X_CODEC_H264 => "video/x-h264" | _ => "video/x-h265" end.

(** The members every stream has. *)
Definition describe s (caps : option zst_caps_t) : option zst_caps_t :=
  let f := hp_format s in
  let caps := (zst_caps_set_string stale_size caps "stream-format" (Some "byte-stream"%string)).2 in
  let caps := (zst_caps_set_string stale_size caps "alignment"
                 (Some (if aggregate_au (hp_config s) then "au"%string else "nal"%string))).2 in
  let caps := (zst_caps_set_uint stale_size caps "width" (fm_width f)).2 in
  let caps := (zst_caps_set_uint stale_size caps "height" (fm_height f)).2 in
  let caps := (zst_caps_set_uint stale_size caps "coded-width" (fm_coded_width f)).2 in
  let caps := (zst_caps_set_uint stale_size caps "coded-height" (fm_coded_height f)).2 in
  let caps := (zst_caps_set_uint stale_size caps "profile-idc" (fm_profile f)).2 in
  let caps := (zst_caps_set_uint stale_size caps "level-idc" (fm_level f)).2 in
  let caps := (zst_caps_set_uint stale_size caps "bit-depth-luma" (fm_bit_depth f)).2 in
  (zst_caps_set_uint stale_size caps "bit-depth-chroma" (fm_bit_depth f)).2.

(** The AVC decoder configuration record. *)
Definition avcc (sps pps : bytes) : bytes :=
  [1; rd sps 1; rd sps 2; rd sps 3; 255; 225; u8 (Z.shiftr (zlen sps) 8); u8 (zlen sps)] ++ sps ++
  [1; u8 (Z.shiftr (zlen pps) 8); u8 (zlen pps)] ++ pps.

(** Adds the rate and the configuration record of the active H.264 sets. *)
Definition describe_h264 s (caps : option zst_caps_t) : zst_result_t * option zst_caps_t :=
  let sps := nal_bytes (sps_nal (get_sps s (h264_active_sps (hp_active s)))) in
  let pps := nal_bytes (pps_nal (get_pps s (h264_active_pps (hp_active s)))) in
  let rate := fm_framerate (hp_format s) in
  let caps := if SFltb d_zero rate
              then (zst_caps_set_double stale_size caps ZST_H26X_PARSER_CAPS_FRAMERATE rate).2 else caps in
  if (4 <=? zlen sps) && (zlen sps <=? UINT16_MAX) && (0 <? zlen pps) && (zlen pps <=? UINT16_MAX) then
    let record := avcc sps pps in
    if malloc_ok (zlen record) then
      zst_caps_set_buffer stale_size caps ZST_H26X_PARSER_CAPS_AVCC (Some record) (zlen record)
    else (ZST_ERROR, caps)
  else (ZST_OK, caps).

(** The parameter sets, each behind a start code. *)
Definition codec_data s : bytes :=
  match codec (hp_config s) with
  | H26X_CODEC_H264 =>
      START4 ++ nal_bytes (sps_nal (get_sps s (h264_active_sps (hp_active s)))) ++
      START4 ++ nal_bytes (pps_nal (get_pps s (h264_active_pps (hp_active s))))
  | _ => concat (map (fun nal => match nal_bytes nal with [] => [] | p => START4 ++ p end) (hp_ps s))
  end.

Definition is_h264 s : bool := bool_decide (codec (hp_config s) = H26X_CODEC_H264).

Definition push_caps s d : zst_result_t * h26x_parser_t * D :=
  if negb (format_valid (hp_format s)) || negb (format_dirty (hp_format s)) then (ZST_OK, s, d)
  else if is_h264 s && negb (h264_active (hp_active s)) then (ZST_OK, s, d)
  else match zst_caps_new_simple (Some (media_name s)) with
  | None => (ZST_ERROR, s, d)
  | Some caps =>
      let caps := describe s (Some caps) in
      let '(ret, caps) := if is_h264 s then describe_h264 s caps else (ZST_OK, caps) in
      if negb (ret =? ZST_OK) then (ret, s, d)
      else
        let data := codec_data s in
        let total := zlen data in
        if negb (total =? 0) && negb (malloc_ok total) then (ZST_ERROR, s, d)
        else
          let caps := if total =? 0 then caps
                      else (zst_caps_set_buffer stale_size caps "codec_data" (Some data) total).2 in
          let s := count_generation s in
          let caps := (zst_caps_set_uint stale_size caps "format-generation" (u32 (generation (hp_counts s)))).2 in
          let old := src_get_caps d in
          match zst_pad_event_new_caps stale_size caps with
          | None => (ZST_ERROR, s, d)
          | Some event =>
              let '(_, d) := src_event d event in
              let d := src_caps_changed d old caps in
              (ZST_OK, set_dirty s false, d)
          end
  end.

(** ** Output *)

Definition push_out s d (out : zst_buffer) : zst_result_t * h26x_parser_t * D :=
  let s := count_output s in
  if src_linked d then let '(ret, d) := src_push d out in (ret, s, d) else (ZST_OK, s, d).

Definition emit s d (nal : bytes) (pts dts duration flags : Z) : zst_result_t * h26x_parser_t * D :=
  let '(ret, s, d) := push_caps s d in
  if negb (ret =? ZST_OK) then (ZST_ERROR, s, d)
  else if negb (malloc_ok (zlen nal + 4)) || negb (malloc_ok SIZEOF_BUFFER) then (ZST_ERROR, s, d)
  else push_out s d (mk_buffer ZST_BUFFER_VIDEO_PACKET flags pts dts duration (Some (START4 ++ nal)) (zlen nal + 4)).

Definition flush_au s d : zst_result_t * h26x_parser_t * D :=
  if hau_len (hp_au s) =? 0 then (ZST_OK, s, d)
  else
    let '(ret, s, d) := push_caps s d in
    if negb (ret =? ZST_OK) then (ZST_ERROR, s, d)
    else
      let u := hp_au s in
      let s := set_au s (mk_hau None 0 0 (hau_pts u) (hau_dts u) (hau_duration u) (hau_flags u) false) in
      if negb (malloc_ok SIZEOF_BUFFER) then (ZST_ERROR, s, d)
      else
        let s := set_au s (mk_hau None 0 0 (hau_pts u) (hau_dts u) (hau_duration u) 0 false) in
        push_out s d (mk_buffer ZST_BUFFER_VIDEO_PACKET (hau_flags u) (hau_pts u) (hau_dts u) (hau_duration u)
                        (hau u) (hau_len u)).

(** ** Parameter sets *)

Definition same_nal (old : option bytes) (nal : bytes) : bool :=
  match old with Some p => bool_decide (p = nal) | None => false end.

(** 1 when the set is stored, 0 when it is malformed, -1 when there is no memory. *)
Definition cache_h264_sps s (nal : bytes) : Z * h26x_parser_t :=
  match parse_h264_sps nal with
  | None => (0, s)
  | Some (parsed, id) =>
      if H264_MAX_SPS <=? id then (0, s)
      else
        let entry := get_sps s id in
        if sps_valid entry && same_nal (sps_nal entry) nal then (1, s)
        else if negb (malloc_ok (zlen nal)) then (-1, s)
        else
          let parsed := mk_sps (Some nal) (sps_width parsed) (sps_height parsed) (sps_coded_width parsed)
                          (sps_coded_height parsed) (sps_profile parsed) (sps_level parsed) (sps_bit_depth parsed)
                          (sps_framerate parsed) (u64 (sps_version entry + 1)) true in
          (1, set_sets s (hp_ps s) (<[Z.to_nat id := parsed]> (h264_sps s)) (h264_pps s))
  end.

Definition cache_h264_pps s (nal : bytes) : Z * h26x_parser_t :=
  match parse_h264_pps nal with
  | None => (0, s)
  | Some (pps_id, sps_id) =>
      let entry := get_pps s pps_id in
      if pps_valid entry && same_nal (pps_nal entry) nal then (1, s)
      else if negb (malloc_ok (zlen nal)) then (-1, s)
      else
        let entry := mk_pps (Some nal) sps_id (u64 (pps_version entry + 1)) true in
        (1, set_sets s (hp_ps s) (h264_sps s) (<[Z.to_nat pps_id := entry]> (h264_pps s)))
  end.

Definition activate_h264_config s (pps_id : Z) : h26x_parser_t :=
  let pps := get_pps s pps_id in
  let sps := get_sps s (pps_sps_id pps) in
  if (H264_MAX_PPS <=? pps_id) || negb (pps_valid pps) || negb (sps_valid sps) then s
  else
    let a := hp_active s in
    if h264_active a && (h264_active_sps a =? pps_sps_id pps) && (h264_active_pps a =? pps_id) &&
       (h264_active_sps_version a =? sps_version sps) && (h264_active_pps_version a =? pps_version pps) then s
    else
      set_active s (mk_activation true (pps_sps_id pps) pps_id (sps_version sps) (pps_version pps))
        (mk_format (sps_width sps) (sps_height sps) (sps_coded_width sps) (sps_coded_height sps) (sps_profile sps)
           (sps_level sps) (sps_bit_depth sps) (sps_framerate sps) true true).

(** The H.265 set is stored as it is, and dirties the format when it is new. *)
Definition cache_h265_ps s (ps : nat) (nal : bytes) : option h26x_parser_t :=
  if negb (malloc_ok (zlen nal)) then None
  else if same_nal (default None (hp_ps s !! ps)) nal then Some s
  else Some (set_dirty (set_sets s (<[ps := Some nal]> (hp_ps s)) (h264_sps s) (h264_pps s)) true).

(** The format a sequence parameter set of H.265 gives. *)
Definition parse_h265_format s (nal : bytes) : option h26x_parser_t :=
  match parse_h265_sps nal with
  | Some v =>
      let f := hp_format s in
      Some (set_active s (hp_active s)
              (mk_format (f5_width v) (f5_height v) (f5_coded_width v) (f5_coded_height v) (fm_profile f)
                 (fm_level f) (f5_bit_depth v) (fm_framerate f) true true))
  | None => None
  end.

(** ** NAL units *)

(** What a unit is: the index of its parameter set, whether it is a slice, of a key
    picture, and whether it begins a picture. *)
Record nal_kind := mk_kind {
  nk_type : Z;
  nk_vcl : bool;
  nk_key : bool;
  nk_ps : option nat;
  nk_slice : option (Z * Z);
  nk_first : bool;
}.

Definition classify_h264 (nal : bytes) : nal_kind :=
  let type := Z.land (rd nal 0) 31 in
  let vcl := (1 <=? type) && (type <=? 5) in
  let slice := if vcl then parse_h264_slice nal else None in
  mk_kind type vcl (type =? 5) (if type =? 7 then Some 0%nat else if type =? 8 then Some 1%nat else None) slice
    (match slice with Some (first_mb, _) => first_mb =? 0 | None => false end).

Definition classify_h265 (nal : bytes) : nal_kind :=
  let type := Z.land (Z.shiftr (rd nal 0) 1) 63 in
  let vcl := type <=? 31 in
  mk_kind type vcl ((16 <=? type) && (type <=? 21))
    (if type =? 32 then Some 0%nat else if type =? 33 then Some 1%nat else if type =? 34 then Some 2%nat else None)
    None (vcl && (2 <? zlen nal) && negb (Z.land (rd nal 2) 128 =? 0)).

Definition classify s (nal : bytes) : nal_kind := if is_h264 s then classify_h264 nal else classify_h265 nal.

(** Stores a parameter set; the result is false when there is no memory. *)
Definition store_ps s (k : nal_kind) (nal : bytes) : bool * h26x_parser_t :=
  match nk_ps k with
  | None => (true, s)
  | Some ps =>
      if is_h264 s then
        let '(valid, s) := if nk_type k =? 7 then cache_h264_sps s nal else cache_h264_pps s nal in
        if valid =? 0 then (true, count_error s) else if valid <? 0 then (false, s) else (true, s)
      else
        match cache_h265_ps s ps nal with
        | None => (false, s)
        | Some s =>
            if bool_decide (codec (hp_config s) = H26X_CODEC_H265) && (nk_type k =? 33) then
              match parse_h265_format s nal with Some s => (true, s) | None => (true, count_error s) end
            else (true, s)
        end
  end.

(** Before these units of H.264 a picture is complete. *)
Definition starts_au s (k : nal_kind) : bool :=
  let type := nk_type k in
  aggregate_au (hp_config s) && hau_has_vcl (hp_au s) && is_h264 s &&
  (((6 <=? type) && (type <=? 9)) || ((14 <=? type) && (type <=? 18))).

(** The unit behind those gathered so far. *)
Definition append_au s (k : nal_kind) (nal : bytes) (flags : Z) : outcome (zst_result_t * h26x_parser_t) :=
  let a := hp_adapter s in
  let u := hp_au s in
  let u := if hau_len u =? 0
           then mk_hau (hau u) (hau_len u) (hau_cap u) (adapter_pts a) (adapter_dts a) (adapter_duration a)
                  (hau_flags u) (hau_has_vcl u)
           else u in
  match reserve (hau u) (hau_cap u) (hau_len u) (zlen nal + 4) (max_au_size (hp_config s)) with
  | None => Done (ZST_ERROR, set_au s u)
  | Some (block, cap) =>
      block ← append block cap (hau_len u) (START4 ++ nal);
      Done (ZST_OK, set_au s (mk_hau block (hau_len u + 4 + zlen nal) cap (hau_pts u) (hau_dts u) (hau_duration u)
                                (Z.lor (hau_flags u) flags) (hau_has_vcl u || nk_vcl k)))
  end.

Definition handle_nal s d (nal : bytes) (input_flags : Z) : outcome (zst_result_t * h26x_parser_t * D) :=
  if zlen nal =? 0 then Done (ZST_OK, s, d)
  else
    let k := classify s nal in
    let '(ret, s, d) := if starts_au s k then flush_au s d else (ZST_OK, s, d) in
    if negb (ret =? ZST_OK) then Done (ret, s, d)
    else
      let '(ok, s) := store_ps s k nal in
      if negb ok then Done (ZST_ERROR, s, d)
      else
        let flags := Z.land input_flags ZST_BUFFER_FLAG_EOS in
        let flags := if nk_key k then Z.lor flags ZST_BUFFER_FLAG_KEYFRAME else flags in
        let s := count_nal s in
        let '(ret, s, d) := if nk_vcl k && nk_first k && hau_has_vcl (hp_au s) then flush_au s d else (ZST_OK, s, d) in
        if negb (ret =? ZST_OK) then Done (ret, s, d)
        else
          let s := match nk_slice k with
                   | Some (_, pps_id) => if is_h264 s && nk_first k then activate_h264_config s pps_id else s
                   | None => s
                   end in
          if negb (aggregate_au (hp_config s)) then
            let a := hp_adapter s in
            Done (emit s d nal (adapter_pts a) (adapter_dts a) (adapter_duration a) flags)
          else '(ret, s) ← append_au s k nal flags; Done (ret, s, d).

(** ** Framing *)

(** The test of [start_code] at [i]: the length of the code, 0 when there is none. *)
Definition code_at (p : bytes) (n i : Z) : Z :=
  if (rd p i =? 0) && (rd p (i + 1) =? 0) then
    if rd p (i + 2) =? 1 then 3
    else if (i + 3 <? n) && (rd p (i + 2) =? 0) && (rd p (i + 3) =? 1) then 4 else 0
  else 0.

(** The scan from [i]; each round is one position, so [fuel = n] rounds are enough. *)
Fixpoint scan_code (fuel : nat) (p : bytes) (n i : Z) : option (Z * Z) :=
  match fuel with
  | O => None
  | S fuel =>
      if i + 3 <=? n then
        let size := code_at p n i in
        if negb (size =? 0) then Some (i, size) else scan_code fuel p n (i + 1)
      else None
  end.

(** The position and the length of the next start code. *)
Definition start_code (p : option bytes) (n from : Z) : outcome (option (Z * Z)) :=
  if n <? from + 3 then Done None
  else match p with
  | Some p => Done (scan_code (Z.to_nat n) p n from)
  | None => Fault
  end.

(** The bytes [p + off .. p + off + n] of the adapter. *)
Definition adapter_bytes s (off n : Z) : outcome bytes := read_bytes (adapter (hp_adapter s)) off n.

(** The loop over start codes; it returns where it stopped, with the code's length there.
    A round goes at least three bytes further. *)
Fixpoint annexb_loop (fuel : nat) (len off sc_len : Z) s d
    : outcome (zst_result_t * h26x_parser_t * D * Z * Z) :=
  match fuel with
  | O => Unfinished
  | S fuel =>
      code ← start_code (adapter (hp_adapter s)) len (off + sc_len);
      match code with
      | None => Done (ZST_OK, s, d, off, sc_len)
      | Some (next, next_len) =>
          '(ret, s, d) ← (if off + sc_len <? next then
                            nal ← adapter_bytes s (off + sc_len) (next - off - sc_len); handle_nal s d nal 0
                          else Done (ZST_OK, s, d));
          if negb (ret =? ZST_OK) then Done (ret, s, d, off, sc_len)
          else annexb_loop fuel len next next_len s d
      end
  end.

(** The result, with the bytes consumed: 0 when a unit was refused. *)
Definition parse_annexb s d (eos : bool) : outcome (zst_result_t * h26x_parser_t * D * Z) :=
  let len := adapter_len (hp_adapter s) in
  code ← start_code (adapter (hp_adapter s)) len 0;
  match code with
  | None => Done (if max_buffered_bytes (hp_config s) <? len then ZST_ERROR else ZST_OK, s, d, 0)
  | Some (sc, sc_len) =>
      '(ret, s, d, off, sc_len) ← annexb_loop (S (Z.to_nat len)) len sc sc_len s d;
      if negb (ret =? ZST_OK) then Done (ret, s, d, 0)
      else if eos && (off + sc_len <? len) then
        nal ← adapter_bytes s (off + sc_len) (len - off - sc_len);
        '(ret, s, d) ← handle_nal s d nal ZST_BUFFER_FLAG_EOS;
        if negb (ret =? ZST_OK) then Done (ret, s, d, 0) else Done (ZST_OK, s, d, len)
      else Done (ZST_OK, s, d, off)
  end.

(** The big-endian number of these bytes. *)
Definition prefix_value (l : bytes) : Z := fold_left (fun n b => Z.lor (u32 (Z.shiftl n 8)) b) l 0.

(** The loop over length prefixes.  A prefix that counts a unit too long or empty is
    refused; a unit that has not arrived stops the loop. *)
Fixpoint length_loop (fuel : nat) (len off : Z) (eos : bool) s d
    : outcome (zst_result_t * h26x_parser_t * D * Z) :=
  match fuel with
  | O => Unfinished
  | S fuel =>
      let size := nal_length_size (hp_config s) in
      if len - off <? size then Done (ZST_OK, s, d, off)
      else
        prefix ← adapter_bytes s off size;
        let n := prefix_value prefix in
        if (n =? 0) || (max_nal_size (hp_config s) <? n) then Done (ZST_ERROR, s, d, off)
        else if len - off - size <? n then Done (ZST_OK, s, d, off)
        else
          let flags := if eos && (off + size + n =? len) then ZST_BUFFER_FLAG_EOS else 0 in
          nal ← adapter_bytes s (off + size) n;
          '(ret, s, d) ← handle_nal s d nal flags;
          if negb (ret =? ZST_OK) then Done (ret, s, d, off)
          else length_loop fuel len (off + (size + n)) eos s d
  end.

Definition parse_length s d (eos : bool) : outcome (zst_result_t * h26x_parser_t * D * Z) :=
  let len := adapter_len (hp_adapter s) in
  '(ret, s, d, off) ← length_loop (S (Z.to_nat len)) len 0 eos s d;
  if negb (ret =? ZST_OK) then Done (ret, s, d, 0)
  else if eos && negb (off =? len) then
    let s := count_error s in
    if bool_decide (policy (hp_config s) = H26X_ERROR) then Done (ZST_ERROR, s, d, 0)
    else Done (ZST_OK, count_dropped s, d, len)
  else Done (ZST_OK, s, d, off).

(** The format of a stream is settled by its first four bytes. *)
Definition detect_format s : outcome h26x_parser_t :=
  let c := hp_config s in
  let len := adapter_len (hp_adapter s) in
  if bool_decide (input_format c = H26X_FMT_AUTO) && (4 <=? len) then
    code ← start_code (adapter (hp_adapter s)) len 0;
    let format := match code with Some (0, _) => H26X_FMT_ANNEXB | _ => H26X_FMT_LENGTH end in
    Done (set_config s (with_input c (codec c) format))
  else Done s.

(** [memmove] of what is left to the front. *)
Definition consume s (off : Z) : outcome h26x_parser_t :=
  if off =? 0 then Done s
  else
    let a := hp_adapter s in
    rest ← adapter_bytes s off (adapter_len a - off);
    Done (set_adapter s (mk_adapter (Some rest) (adapter_len a - off) (adapter_cap a) (adapter_pts a) (adapter_dts a)
                           (adapter_duration a) (have_timestamp a))).

Definition parse_adapter s d (eos : bool) : outcome (zst_result_t * h26x_parser_t * D) :=
  s ← detect_format s;
  '(ret, s, d, off) ← match input_format (hp_config s) with
                      | H26X_FMT_ANNEXB => parse_annexb s d eos
                      | H26X_FMT_LENGTH => parse_length s d eos
                      | H26X_FMT_AUTO => Done (ZST_OK, s, d, 0)
                      end;
  if negb (ret =? ZST_OK) then Done (ret, s, d)
  else s ← consume s off; Done (ZST_OK, s, d).

(** ** The pad and the events *)

Definition or_flags s (flags : Z) : h26x_parser_t :=
  let u := hp_au s in
  set_au s (mk_hau (hau u) (hau_len u) (hau_cap u) (hau_pts u) (hau_dts u) (hau_duration u)
              (Z.lor (hau_flags u) flags) (hau_has_vcl u)).

(** The first buffer's times, kept until the adapter is cleared. *)
Definition take_times s (buf : zst_buffer) : h26x_parser_t :=
  let a := hp_adapter s in
  if have_timestamp a then s
  else set_adapter s (mk_adapter (adapter a) (adapter_len a) (adapter_cap a) (buf_pts buf) (buf_dts buf)
                        (buf_duration buf) true).

Definition parser_push s d (memory_type : Z) (buf : zst_buffer) : outcome (zst_result_t * h26x_parser_t * D) :=
  if negb (memory_type =? ZST_MEMORY_CPU) || (negb (is_some (mem_data buf)) && negb (mem_size buf =? 0)) then
    Done (ZST_ERROR, s, d)
  else if has_flag (buf_flags buf) ZST_BUFFER_FLAG_DROP then
    let s := clear_au (clear_adapter s) in
    if src_linked d then let '(ret, d) := src_push d buf in Done (ret, s, d) else Done (ZST_OK, s, d)
  else
    let s := take_times s buf in
    let a := hp_adapter s in
    match reserve (adapter a) (adapter_cap a) (adapter_len a) (mem_size buf) (max_buffered_bytes (hp_config s)) with
    | None => Done (ZST_ERROR, s, d)
    | Some (block, cap) =>
        block ← append block cap (adapter_len a) (buf_bytes buf);
        let s := set_adapter s (mk_adapter block (adapter_len a + mem_size buf) cap (adapter_pts a) (adapter_dts a)
                                  (adapter_duration a) (have_timestamp a)) in
        let eos := has_flag (buf_flags buf) ZST_BUFFER_FLAG_EOS in
        '(ret, s, d) ← parse_adapter s d eos;
        if negb (ret =? ZST_OK) then Done (ret, count_error s, d)
        else if eos then Done (flush_au (or_flags s ZST_BUFFER_FLAG_EOS) d)
        else Done (ZST_OK, s, d)
    end.

(** The capabilities of the stream: the codec, and the format if they name one. *)
Definition take_caps s (caps : option zst_caps_t) : outcome (zst_result_t * h26x_parser_t) :=
  match caps with
  | Some (first :: _) =>
      let media := cs_media_type first in
      let k := if streq media "video/x-h264" then Some H26X_CODEC_H264
               else if streq media "video/x-h265" then Some H26X_CODEC_H265 else None in
      match k with
      | None => Done (ZST_ERROR, s)
      | Some k =>
          let c := hp_config s in
          match zst_caps_get_string caps "stream-format" with
          | None => Done (ZST_OK, set_config s (with_input c k (input_format c)))
          | Some None => Fault
          | Some (Some format) =>
              let f := if streq format "byte-stream" then H26X_FMT_ANNEXB else H26X_FMT_LENGTH in
              Done (ZST_OK, set_config s (with_input c k f))
          end
      end
  | _ => Done (ZST_ERROR, s)
  end.

Definition start_stream s : h26x_parser_t :=
  let s := clear_ps s in
  let s := set_active s (hp_active s) (with_valid (hp_format s) false false) in
  let c := hp_counts s in
  let s := set_counts s (mk_counts 0 (parsed_nals c) (output_buffers c) (parse_errors c) (dropped_nals c)) in
  set_config s (with_input (hp_config s) H26X_CODEC_AUTO H26X_FMT_AUTO).

Definition forward s d (ev : zst_pad_event_t) : outcome (zst_result_t * h26x_parser_t * D) :=
  let '(ret, d) := src_event d ev in Done (ret, s, d).

Definition parser_event s d (ev : zst_pad_event_t) : outcome (zst_result_t * h26x_parser_t * D) :=
  match ev with
  | ZST_PAD_EVENT_CAPS caps => '(ret, s) ← take_caps s caps; Done (ret, s, d)
  | ZST_PAD_EVENT_EOS =>
      '(ret, s, d) ← parse_adapter s d true;
      let '(ret, s, d) := if ret =? ZST_OK then flush_au (or_flags s ZST_BUFFER_FLAG_EOS) d else (ret, s, d) in
      if negb (ret =? ZST_OK) then Done (ret, s, d) else forward s d ev
  | ZST_PAD_EVENT_STREAM_START _ => forward (start_stream (clear_au (clear_adapter s))) d ev
  | ZST_PAD_EVENT_FLUSH_START | ZST_PAD_EVENT_DISCONT => forward (clear_au (clear_adapter s)) d ev
  | _ => forward s d ev
  end.

(** ** Life and properties *)

Definition parser_open s : zst_result_t * h26x_parser_t := (ZST_OK, clear_au (clear_adapter s)).
Definition parser_close s : zst_result_t * h26x_parser_t :=
  (ZST_OK, clear_ps (clear_au (free_adapter s (adapter_len (hp_adapter s))))).

Definition set_limits s (size nal au buffered : Z) : h26x_parser_t :=
  let c := hp_config s in
  set_config s (mk_config (codec c) (input_format c) size (aggregate_au c) (policy c) nal au buffered).

Definition parser_set_property s (name value : string) : zst_result_t * h26x_parser_t :=
  let c := hp_config s in
  let same := strcaseeq value in
  let answer (o : option h26x_config) := match o with Some c => (ZST_OK, set_config s c) | None => (ZST_ERROR, s) end in
  if streq name "codec" then
    answer (if same "auto"%string then Some (with_input c H26X_CODEC_AUTO (input_format c))
            else if same "h264"%string then Some (with_input c H26X_CODEC_H264 (input_format c))
            else if same "h265"%string then Some (with_input c H26X_CODEC_H265 (input_format c)) else None)
  else if streq name "input-stream-format" then
    answer (if same "auto"%string then Some (with_input c (codec c) H26X_FMT_AUTO)
            else if same "byte-stream"%string then Some (with_input c (codec c) H26X_FMT_ANNEXB)
            else if same "avc"%string || same "hvc1"%string || same "hev1"%string then Some (with_input c (codec c) H26X_FMT_LENGTH)
            else None)
  else if streq name "aggregate-au" then
    let with_aggregate on := mk_config (codec c) (input_format c) (nal_length_size c) on (policy c) (max_nal_size c)
                               (max_au_size c) (max_buffered_bytes c) in
    answer (if same "true"%string || streq value "1" then Some (with_aggregate true)
            else if same "false"%string || streq value "0" then Some (with_aggregate false) else None)
  else if streq name "malformed-policy" then
    let with_policy p := mk_config (codec c) (input_format c) (nal_length_size c) (aggregate_au c) p (max_nal_size c)
                           (max_au_size c) (max_buffered_bytes c) in
    answer (if streq value "error" then Some (with_policy H26X_ERROR)
            else if streq value "drop" then Some (with_policy H26X_DROP)
            else if streq value "warn-drop" then Some (with_policy H26X_WARN_DROP) else None)
  else
    let n := strtoul10 value in
    if n =? 0 then (ZST_ERROR, s)
    else if streq name "nal-length-size" && (n <=? 4) then
      (ZST_OK, set_limits s n (max_nal_size c) (max_au_size c) (max_buffered_bytes c))
    else if streq name "max-nal-size" then
      (ZST_OK, set_limits s (nal_length_size c) (u32 n) (max_au_size c) (max_buffered_bytes c))
    else if streq name "max-au-size" then
      (ZST_OK, set_limits s (nal_length_size c) (max_nal_size c) (u32 n) (max_buffered_bytes c))
    else if streq name "max-buffered-bytes" then
      (ZST_OK, set_limits s (nal_length_size c) (max_nal_size c) (max_au_size c) (u32 n))
    else (ZST_ERROR, s).

(** [None] stands for [ZST_ERROR]; [size] is the room at [out]. *)
Definition parser_get_property s (name : string) (size : Z) : option string :=
  let c := hp_counts s in
  let out text := Some (snprintf size text) in
  if size =? 0 then None
  else if streq name "codec" then
    out (match codec (hp_config s) with
         | H26X_CODEC_H264 => "h264"%string | H26X_CODEC_H265 => "h265"%string | H26X_CODEC_AUTO => "auto"%string
         end)
  else if streq name "parsed-nals" then out (show_Z (parsed_nals c))
  else if streq name "output-buffers" then out (show_Z (output_buffers c))
  else if streq name "parse-errors" then out (show_Z (parse_errors c))
  else if streq name "dropped-nals" then out (show_Z (dropped_nals c))
  else if streq name "format-generation" then out (show_Z (generation c))
  else None.

(** The zeroed structure with the defaults. *)
Definition zst_h26x_parser_create : option h26x_parser_t :=
  if malloc_ok SIZEOF_H26X_PARSER then
    Some (mk_parser
      (mk_config H26X_CODEC_AUTO H26X_FMT_AUTO 4 false H26X_ERROR H26X_DEFAULT_MAX_NAL H26X_DEFAULT_MAX_BUFFERED
         H26X_DEFAULT_MAX_BUFFERED)
      (mk_adapter None 0 0 0 0 0 false)
      (repeat None 3) (repeat sps_zero (Z.to_nat H264_MAX_SPS)) (repeat pps_zero (Z.to_nat H264_MAX_PPS))
      (mk_activation false 0 0 0 0)
      (mk_format 0 0 0 0 0 0 0 d_zero false false)
      (mk_counts 0 0 0 0 0)
      (mk_hau None 0 0 0 0 0 0 false))
  else None.
End parser.
