(* ===== verification/H26xSpec.v ===== *)
(** * What the H.264 and H.265 parser promises: [H26xParser]

    The element never touches memory it does not own and its loops end; however the
    stream is cut into buffers, the units it finds are those of the whole stream; what
    it sends is these units behind four-byte start codes.  And what goes wrong. *)

From Stdlib Require Import String SpecFloat.
From S2P Require Import Prelude CLib Pad MediaUtils Caps Graph PadOps H26xBits H26xBitsSpec H26xParser.

Local Open Scope Z_scope.

(** ** Blocks *)

(** A block of [cap] bytes at least the first [len] of which have been written, up to
    [limit] of them. *)
Record block_ok (block : option bytes) (len cap limit : Z) : Prop := {
  bo_block : match block with Some p => len <= zlen p | None => cap = 0 end;
  bo_len : 0 <= len <= cap;
  bo_limit : len <= limit;
}.

Record parser_ok (s : h26x_parser_t) : Prop := {
  po_adapter : block_ok (adapter (hp_adapter s)) (adapter_len (hp_adapter s)) (adapter_cap (hp_adapter s))
                 (max_buffered_bytes (hp_config s));
  po_au : block_ok (hau (hp_au s)) (hau_len (hp_au s)) (hau_cap (hp_au s)) (max_au_size (hp_config s));
  po_limits : 0 <= max_buffered_bytes (hp_config s) < 4294967296 /\ 0 <= max_au_size (hp_config s) < 4294967296;
  po_size : 1 <= nal_length_size (hp_config s) <= 4;
  po_bytes : forall p, adapter (hp_adapter s) = Some p -> bytes_ok p;
}.

(** The configuration, the adapter and the access unit stay. *)
Definition keeps (s s' : h26x_parser_t) : Prop :=
  hp_config s' = hp_config s /\ hp_adapter s' = hp_adapter s /\ hp_au s' = hp_au s.

(** The configuration and the adapter stay, and the access unit is sound. *)
Definition gathers (s s' : h26x_parser_t) : Prop :=
  hp_config s' = hp_config s /\ hp_adapter s' = hp_adapter s /\
  block_ok (hau (hp_au s')) (hau_len (hp_au s')) (hau_cap (hp_au s')) (max_au_size (hp_config s)).

Lemma unit_keeps_refl s : keeps s s.
Proof. done. Qed.
Lemma unit_keeps_trans s t u : keeps s t -> keeps t u -> keeps s u.
Proof. unfold keeps. intros (E1 & E2 & E3) (E4 & E5 & E6). by rewrite E4, E5, E6. Qed.
Lemma unit_keeps_ok s s' : parser_ok s -> keeps s s' -> parser_ok s'.
Proof. intros [? ? ? ? ?] (E1 & E2 & E3). by constructor; rewrite ?E1, ?E2, ?E3. Qed.
Lemma gathers_ok s s' : parser_ok s -> gathers s s' -> parser_ok s'.
Proof. intros [? ? ? ? ?] (E1 & E2 & E3). by constructor; rewrite ?E1, ?E2. Qed.
Lemma keeps_gathers s s' : parser_ok s -> keeps s s' -> gathers s s'.
Proof. intros [? Hau ? ? ?] (E1 & E2 & E3). unfold gathers. split_and!; [done|done|by rewrite E3]. Qed.
Lemma gathers_trans s t u : gathers s t -> gathers t u -> gathers s u.
Proof. unfold gathers. intros (E1 & E2 & E3) (E4 & E5 & E6). split_and!; [congruence|congruence|by rewrite <-E1]. Qed.

Create HintDb h26x.
#[export] Hint Resolve unit_keeps_refl keeps_gathers gathers_ok unit_keeps_ok : h26x.

Lemma double_until_le n next need limit :
  next <= limit \/ need <= next -> 0 <= limit -> double_until n next need limit <= limit \/ need <= double_until n next need limit.
Proof.
  revert next. induction n as [|n IH]; intros next Hn Hl; cbn [double_until]; [done|].
  destruct (Z.ltb_spec next need), (Z.leb_spec next (limit / 2)); cbn [andb]; try lia.
  apply IH; [left|done]. Z.to_euclidean_division_equations. lia.
Qed.

Section safety.
Context `{CMemory}.

(** What a grown block has room for is appended. *)
Lemma reserve_append block len cap limit data :
  block_ok block len cap limit -> 0 <= limit < 4294967296 ->
  match reserve block cap len (zlen data) limit with
  | None => True
  | Some (block', cap') =>
      exists b, append block' cap' len data = Done b /\ block_ok b (len + zlen data) cap' limit /\
        (forall q, b = Some q -> q = sub_bytes 0 len (default [] block) ++ data) /\ (data <> [] -> is_Some b)
  end.
Proof.
  intros [Hb Hl Hm] Hlim. pose proof (zlen_nonneg data) as Hd. unfold reserve.
  rewrite (u64_small (limit - len)) by lia. destruct (Z.ltb_spec (limit - len) (zlen data)); [done|].
  rewrite (u64_small (len + zlen data)) by lia.
  destruct (Z.leb_spec (len + zlen data) cap) as [Hcap|Hcap].
  - unfold append. rewrite (proj2 (Z.ltb_ge cap _)) by lia. destruct block as [p|].
    + rewrite (proj2 (Z.ltb_ge (zlen p) len)) by lia. eexists. split; [done|]. split; [|by split; [intros q [= <-]|]].
      constructor; [|lia|lia]. rewrite zlen_app, zlen_sub_bytes by lia. lia.
    + assert (zlen data = 0) as E by lia. pose proof (zlen_0 _ E). subst data. eexists. split; [done|]. split; [|done].
      constructor; [done|lia|lia].
  - set (next := if _ <? _ then _ else _). assert (len + zlen data <= next) as Hn by (unfold next; zbool; lia).
    destruct (malloc_ok next); [|done]. unfold append. rewrite (proj2 (Z.ltb_ge next _)) by lia.
    assert (len <= zlen (default [] block)) as Hp by (destruct block; cbn; [lia|rewrite zlen_nil; lia]).
    rewrite (proj2 (Z.ltb_ge _ len)) by lia. eexists. split; [done|]. split; [|by split; [intros q [= <-]|]].
    constructor; [|lia|lia]. rewrite zlen_app, zlen_sub_bytes by lia. lia.
Qed.

Context {D : Type} `{SrcPad D} (stale_size : caps_value -> Z).

(** *** Steps of a unit *)

Lemma push_caps_keeps s d : let '(_, s', _) := push_caps stale_size s d in keeps s s'.
Proof.
  unfold push_caps. destruct (_ || _); [done|]. destruct (_ && _); [done|].
  destruct (zst_caps_new_simple _); [|done]. destruct (if is_h264 s then _ else _) as [ret caps].
  destruct (negb _); [done|]. destruct (negb _ && _); [done|].
  destruct (zst_pad_event_new_caps _ _); [|done]. by destruct (src_event _ _).
Qed.

Lemma push_out_keeps s d out : let '(_, s', _) := push_out s d out in keeps s s'.
Proof. unfold push_out. destruct (src_linked d); [|done]. by destruct (src_push d out). Qed.

Lemma emit_keeps s d nal pts dts duration flags : let '(_, s', _) := emit stale_size s d nal pts dts duration flags in keeps s s'.
Proof.
  unfold emit. pose proof (push_caps_keeps s d) as Hc. destruct (push_caps stale_size s d) as [[ret s1] d1].
  destruct (negb _); [done|]. destruct (_ || _); [done|].
  match goal with |- context [push_out s1 d1 ?out] => pose proof (push_out_keeps s1 d1 out) as Ho end.
  destruct (push_out _ _ _) as [[? s2] ?]. by apply (unit_keeps_trans _ s1).
Qed.

Lemma no_block limit : 0 <= limit -> block_ok None 0 0 limit.
Proof. by constructor. Qed.

Lemma flush_gathers s d : parser_ok s -> let '(_, s', _) := flush_au stale_size s d in gathers s s'.
Proof.
  intros Hok. unfold flush_au. destruct (_ =? 0); [by apply keeps_gathers|].
  pose proof (push_caps_keeps s d) as Hc. destruct (push_caps stale_size s d) as [[ret s1] d1].
  destruct (negb _); [by apply keeps_gathers|]. destruct Hc as (E1 & E2 & E3).
  pose proof (po_limits s Hok) as [_ Hl].
  destruct (negb _); [split_and!; [done|done|]; apply no_block; lia|].
  match goal with |- context [push_out ?s2 d1 ?out] => pose proof (push_out_keeps s2 d1 out) as Ho end.
  destruct (push_out _ _ _) as [[? s2] ?]. destruct Ho as (E4 & E5 & E6). cbn in *.
  split_and!; [congruence|congruence|]. rewrite E6. apply no_block. lia.
Qed.

Lemma store_ps_keeps s k nal : keeps s (store_ps s k nal).2.
Proof.
  unfold store_ps. destruct (nk_ps k) as [ps|]; [|done]. destruct (is_h264 s).
  - destruct (nk_type k =? 7).
    + unfold cache_h264_sps. destruct (parse_h264_sps nal) as [[? ?]|]; [|done].
      destruct (_ <=? _); [done|]. destruct (_ && _); [done|]. by destruct (negb _).
    + unfold cache_h264_pps. destruct (parse_h264_pps nal) as [[? ?]|]; [|done].
      destruct (_ && _); [done|]. by destruct (negb _).
  - unfold cache_h265_ps. destruct (negb _); [done|].
    destruct (same_nal _ _); (destruct (_ && _); [|done]); unfold parse_h265_format; by destruct (parse_h265_sps nal).
Qed.

Lemma activate_keeps s id : keeps s (activate_h264_config s id).
Proof. unfold activate_h264_config. destruct (_ || _); [done|]. by destruct (_ && _). Qed.

Lemma append_au_safe s k nal flags : parser_ok s -> exists ret s',
  append_au s k nal flags = Done (ret, s') /\ gathers s s'.
Proof.
  intros Hok. unfold append_au. destruct (po_limits s Hok) as [_ Hl]. pose proof (po_au s Hok) as Hau.
  set (u := if _ =? 0 then _ else _).
  assert (block_ok (hau u) (hau_len u) (hau_cap u) (max_au_size (hp_config s))) as Hu by (unfold u; by destruct (_ =? 0)).
  pose proof (reserve_append _ _ _ _ (START4 ++ nal) Hu Hl) as Hr. rewrite zlen_app in Hr. change (zlen START4) with 4 in Hr.
  rewrite (Z.add_comm 4) in Hr. destruct (reserve _ _ _ _ _) as [[block cap]|].
  - destruct Hr as (b & -> & Hb & _). cbn [mbind outcome_bind]. eexists _, _. split; [done|]. split_and!; [done|done|]. cbn.
    by replace (hau_len u + 4 + zlen nal) with (hau_len u + (zlen nal + 4)) by lia.
  - by eexists _, _.
Qed.

Lemma handle_nal_safe s d nal flags : parser_ok s -> exists ret s' d',
  handle_nal stale_size s d nal flags = Done (ret, s', d') /\ gathers s s'.
Proof.
  intros Hok. unfold handle_nal. destruct (_ =? 0). { eexists _, _, _. by split; [|apply keeps_gathers]. }
  set (k := classify s nal).
  assert (let '(_, s1, _) := if starts_au s k then flush_au stale_size s d else (ZST_OK, s, d) in gathers s s1) as H1
    by (destruct (starts_au s k); [by apply flush_gathers|by apply keeps_gathers]).
  destruct (if starts_au s k then _ else _) as [[ret s1] d1]. assert (parser_ok s1) as Hok1 by eauto with h26x.
  destruct (negb _). { eexists _, _, _. by split. }
  pose proof (store_ps_keeps s1 k nal) as H2. destruct (store_ps s1 k nal) as [ok s2]. cbn [snd] in H2.
  assert (gathers s s2) as H2' by (eapply gathers_trans; eauto with h26x).
  destruct (negb _). { eexists _, _, _. by split. }
  set (s3 := count_nal s2). assert (parser_ok s3) as Hok3 by (eapply (unit_keeps_ok s2); eauto with h26x; done).
  assert (gathers s s3) as H3 by done.
  assert (let '(_, s4, _) := if nk_vcl k && nk_first k && hau_has_vcl (hp_au s3) then flush_au stale_size s3 d1 else (ZST_OK, s3, d1) in gathers s s4) as H4.
  { destruct (_ && _); [|done]. pose proof (flush_gathers s3 d1 Hok3). destruct (flush_au _ s3 d1) as [[? ?] ?]. by eapply gathers_trans. }
  destruct (if _ && _ then _ else _) as [[ret4 s4] d4]. destruct (negb _). { eexists _, _, _. by split. }
  set (s5 := match nk_slice k with Some _ => _ | None => _ end).
  assert (keeps s4 s5) as H5 by (unfold s5; destruct (nk_slice k) as [[? ?]|]; [|done]; destruct (_ && _); [apply activate_keeps|done]).
  assert (parser_ok s5) as Hok5 by eauto with h26x. assert (gathers s s5) as H5' by (eapply gathers_trans; eauto with h26x).
  destruct (negb _).
  - match goal with |- context [emit _ s5 d4 nal ?a ?b ?c ?fl] => pose proof (emit_keeps s5 d4 nal a b c fl) as He end.
    destruct (emit _ _ _ _ _ _ _ _) as [[? s6] ?]. eexists _, _, _. split; [done|]. eapply gathers_trans; eauto with h26x.
  - match goal with |- context [append_au s5 k nal ?fl] => destruct (append_au_safe s5 k nal fl Hok5) as (ret6 & s6 & -> & H6) end.
    eexists _, _, _. split; [done|]. by eapply gathers_trans.
Qed.

(** *** The framing *)

Lemma scan_code_in fuel p n i j k : scan_code fuel p n i = Some (j, k) -> i <= j /\ j + k <= n /\ 3 <= k <= 4.
Proof.
  revert i. induction fuel as [|fuel IH]; intros i; cbn [scan_code]; [done|].
  destruct (Z.leb_spec (i + 3) n); [|done]. unfold code_at.
  destruct (_ && _); [|cbn; intros E%IH; lia].
  destruct (rd p (i + 2) =? 1); [intros [= <- <-]; lia|].
  destruct (Z.ltb_spec (i + 3) n); cbn [andb]; [|cbn; intros E%IH; lia].
  destruct (_ && _); [intros [= <- <-]; lia|]. cbn. intros E%IH. lia.
Qed.

(** The adapter's bytes may be read. *)
Definition readable (s : h26x_parser_t) : Prop :=
  match adapter (hp_adapter s) with
  | Some p => adapter_len (hp_adapter s) <= zlen p
  | None => adapter_len (hp_adapter s) = 0
  end.

Lemma ok_readable s : parser_ok s -> readable s /\ 0 <= adapter_len (hp_adapter s).
Proof. intros [[Hb Hl _] _ _ _ _]. unfold readable. split; [destruct (adapter _); lia|lia]. Qed.

Lemma start_code_reads s from : readable s -> 0 <= from ->
  exists r, start_code (adapter (hp_adapter s)) (adapter_len (hp_adapter s)) from = Done r /\
    match r with Some (j, k) => from <= j /\ j + k <= adapter_len (hp_adapter s) /\ 3 <= k <= 4 | None => True end.
Proof.
  unfold readable, start_code. intros Hr Hf. destruct (Z.ltb_spec (adapter_len (hp_adapter s)) (from + 3)); [by exists None|].
  destruct (adapter _) as [p|]; [|lia]. eexists. split; [done|].
  destruct (scan_code _ p _ from) as [[j k]|] eqn:E; [|done]. by apply scan_code_in in E.
Qed.

Lemma adapter_reads s off n : readable s -> 0 <= off -> 0 <= n -> off + n <= adapter_len (hp_adapter s) ->
  exists l, adapter_bytes s off n = Done l /\ zlen l = n.
Proof.
  unfold readable, adapter_bytes. intros Hr Ho Hn Hl. destruct (adapter _) as [p|].
  - rewrite read_bytes_in by lia. eexists. split; [done|]. apply zlen_sub_bytes; lia.
  - assert (n = 0) as -> by lia. by exists [].
Qed.

Lemma gathers_readable s s' : gathers s s' -> readable s -> readable s'.
Proof. unfold readable. by intros (_ & -> & _). Qed.

Lemma annexb_loop_safe fuel len off sc_len s d :
  parser_ok s -> adapter_len (hp_adapter s) = len -> 0 <= off -> 3 <= sc_len -> off + sc_len <= len ->
  len - off < Z.of_nat fuel ->
  exists ret s' d' o c, annexb_loop stale_size fuel len off sc_len s d = Done (ret, s', d', o, c) /\
    gathers s s' /\ 0 <= o /\ 3 <= c /\ o + c <= len.
Proof.
  revert off sc_len s d. induction fuel as [|fuel IH]; intros off sc_len s d Hok Hlen Ho Hsc Hin Hf; [lia|]. cbn [annexb_loop].
  pose proof (ok_readable s Hok) as [Hr _].
  destruct (start_code_reads s (off + sc_len) Hr) as (r & E & Hr'); [lia|]. rewrite Hlen in E. rewrite E. cbn [mbind outcome_bind].
  destruct r as [[next nl]|]; [|by eexists _, _, _, _, _; split_and!; eauto with h26x].
  destruct Hr' as (? & Hn & ?). rewrite Hlen in Hn.
  match goal with |- exists ret s' d' o c, mbind _ ?one = _ /\ _ =>
    assert (exists ret s1 d1, one = Done (ret, s1, d1) /\ gathers s s1) as (ret & s1 & d1 & -> & G1) end.
  { destruct (Z.ltb_spec (off + sc_len) next); [|by eexists _, _, _; split; [|apply keeps_gathers]].
    destruct (adapter_reads s (off + sc_len) (next - off - sc_len)) as (l & -> & _); [done|lia|lia|lia|]. by apply handle_nal_safe. }
  cbn [mbind outcome_bind]. destruct (negb _); [by eexists _, _, _, _, _; split_and!|].
  destruct (IH next nl s1 d1) as (ret2 & s2 & d2 & o & c & -> & G2 & ?); [by eapply gathers_ok| |lia|lia|lia|lia|].
  { destruct G1 as (_ & -> & _). done. }
  eexists _, _, _, _, _. split; [done|]. split; [by eapply gathers_trans|done].
Qed.

Lemma parse_annexb_safe s d eos : parser_ok s ->
  exists ret s' d' off, parse_annexb stale_size s d eos = Done (ret, s', d', off) /\ gathers s s' /\
    0 <= off <= adapter_len (hp_adapter s).
Proof.
  intros Hok. unfold parse_annexb. pose proof (ok_readable s Hok) as [Hr Hl].
  destruct (start_code_reads s 0 Hr) as (r & -> & Hr'); [lia|]. cbn [mbind outcome_bind].
  destruct r as [[sc k]|]; [|by eexists _, _, _, _; split_and!; eauto with h26x; lia].
  destruct (annexb_loop_safe (S (Z.to_nat (adapter_len (hp_adapter s)))) (adapter_len (hp_adapter s)) sc k s d)
    as (ret & s1 & d1 & o & c & -> & G1 & ? & ? & ?); [done|done|lia|lia|lia|lia|]. cbn [mbind outcome_bind].
  destruct (negb _); [by eexists _, _, _, _; split_and!; eauto; lia|].
  destruct (Z.ltb_spec (o + c) (adapter_len (hp_adapter s))) as [Hlt|]; rewrite ?andb_true_r, ?andb_false_r.
  2:{ by eexists _, _, _, _; split_and!; eauto; lia. }
  destruct eos; [|by eexists _, _, _, _; split_and!; eauto; lia].
  destruct G1 as (E1 & E2 & E3). assert (gathers s s1) as G1 by done.
  destruct (adapter_reads s1 (o + c) (adapter_len (hp_adapter s) - o - c)) as (l & -> & _);
    [by eapply gathers_readable|lia|lia|rewrite E2; lia|]. cbn [mbind outcome_bind].
  destruct (handle_nal_safe s1 d1 l ZST_BUFFER_FLAG_EOS) as (ret2 & s2 & d2 & -> & G2); [by eapply gathers_ok|].
  cbn [mbind outcome_bind].
  assert (gathers s s2) by (by eapply gathers_trans). destruct (negb _); by eexists _, _, _, _; split_and!; eauto; lia.
Qed.

Lemma prefix_nonneg l : bytes_ok l -> 0 <= prefix_value l.
Proof.
  unfold prefix_value. assert (forall v, 0 <= v -> bytes_ok l -> 0 <= fold_left (fun n b => Z.lor (u32 (Z.shiftl n 8)) b) l v) as Hf.
  { induction l as [|b l IH]; intros v Hv Hl; [done|]. apply Forall_cons in Hl as [Hb Hl]. cbn [fold_left].
    apply IH; [|done]. apply Z.lor_nonneg. unfold is_byte in Hb. pose proof (u32_range (Z.shiftl v 8)). lia. }
  by apply Hf.
Qed.

Lemma length_loop_safe fuel len off eos s d :
  parser_ok s -> adapter_len (hp_adapter s) = len -> 0 <= off <= len -> len - off < Z.of_nat fuel ->
  exists ret s' d' o, length_loop stale_size fuel len off eos s d = Done (ret, s', d', o) /\ gathers s s' /\ 0 <= o <= len.
Proof.
  revert off s d. induction fuel as [|fuel IH]; intros off s d Hok Hlen Ho Hf; [lia|]. cbn [length_loop].
  pose proof (ok_readable s Hok) as [Hr _]. pose proof (po_size s Hok) as Hsize. set (size := nal_length_size _) in *.
  destruct (Z.ltb_spec (len - off) size); [by eexists _, _, _, _; split_and!; eauto with h26x; lia|].
  destruct (adapter_reads s off size) as (prefix & Ep & Hp); [done|lia|lia|lia|]. rewrite Ep. cbn [mbind outcome_bind].
  assert (0 <= prefix_value prefix) as Hn.
  { apply prefix_nonneg. revert Ep. unfold adapter_bytes, read_bytes. destruct (Z.eqb_spec size 0); [lia|].
    destruct (adapter _) as [p|] eqn:Ea; [|done]. destruct (_ && _); [|done]. intros [= <-]. apply bytes_ok_sub.
    by apply (po_bytes s Hok). }
  set (n := prefix_value prefix) in *. destruct (Z.eqb_spec n 0); cbn [orb]; [by eexists _, _, _, _; split_and!; eauto with h26x; lia|].
  destruct (_ <? n); [by eexists _, _, _, _; split_and!; eauto with h26x; lia|].
  destruct (Z.ltb_spec (len - off - size) n); [by eexists _, _, _, _; split_and!; eauto with h26x; lia|].
  destruct (adapter_reads s (off + size) n) as (nal & -> & _); [done|lia|lia|lia|]. cbn [mbind outcome_bind].
  match goal with |- context [handle_nal _ s d nal ?fl] => destruct (handle_nal_safe s d nal fl Hok) as (ret & s1 & d1 & -> & G1) end.
  cbn [mbind outcome_bind]. destruct (negb _); [by eexists _, _, _, _; split_and!; eauto; lia|].
  destruct (IH (off + (size + n)) s1 d1) as (ret2 & s2 & d2 & o & -> & G2 & ?); [by eapply gathers_ok| |lia|lia|].
  { destruct G1 as (_ & -> & _). done. }
  eexists _, _, _, _. split; [done|]. split; [by eapply gathers_trans|done].
Qed.

Lemma parse_length_safe s d eos : parser_ok s ->
  exists ret s' d' off, parse_length stale_size s d eos = Done (ret, s', d', off) /\ gathers s s' /\
    0 <= off <= adapter_len (hp_adapter s).
Proof.
  intros Hok. unfold parse_length. pose proof (ok_readable s Hok) as [Hr Hl].
  destruct (length_loop_safe (S (Z.to_nat (adapter_len (hp_adapter s)))) (adapter_len (hp_adapter s)) 0 eos s d)
    as (ret & s1 & d1 & o & -> & G1 & ?); [done|done|lia|lia|]. cbn [mbind outcome_bind].
  destruct (negb _); [by eexists _, _, _, _; split_and!; eauto; lia|].
  destruct (eos && _); [|by eexists _, _, _, _; split_and!; eauto; lia].
  destruct (bool_decide _); by eexists _, _, _, _; split_and!; eauto; lia.
Qed.

(** *** Whole calls *)

(** Equal configurations up to the codec and the format. *)
Definition same_limits (c c' : h26x_config) : Prop :=
  nal_length_size c' = nal_length_size c /\ max_nal_size c' = max_nal_size c /\
  max_au_size c' = max_au_size c /\ max_buffered_bytes c' = max_buffered_bytes c /\
  aggregate_au c' = aggregate_au c /\ policy c' = policy c.

Lemma set_config_ok s c : parser_ok s -> nal_length_size c = nal_length_size (hp_config s) ->
  max_au_size c = max_au_size (hp_config s) -> max_buffered_bytes c = max_buffered_bytes (hp_config s) ->
  parser_ok (set_config s c).
Proof. intros [? ? ? ? ?] E1 E2 E3. constructor; cbn; rewrite ?E1, ?E2, ?E3; done. Qed.

Lemma detect_safe s : parser_ok s -> exists c, detect_format s = Done (set_config s c) /\ same_limits (hp_config s) c.
Proof.
  intros Hok. unfold detect_format. pose proof (ok_readable s Hok) as [Hr Hl].
  destruct (_ && _).
  - destruct (start_code_reads s 0 Hr) as (r & -> & _); [lia|]. cbn [mbind outcome_bind]. by eexists.
  - exists (hp_config s). split; [by destruct s|done].
Qed.

Lemma consume_safe s off : parser_ok s -> 0 <= off <= adapter_len (hp_adapter s) ->
  exists s', consume s off = Done s' /\ parser_ok s'.
Proof.
  intros Hok Ho. unfold consume. destruct (Z.eqb_spec off 0); [by eexists|].
  pose proof (ok_readable s Hok) as [Hr Hl]. pose proof Hok as [[Hb Hlen Hlim] ? ? ? Hbytes].
  unfold adapter_bytes. unfold readable in Hr. destruct (adapter (hp_adapter s)) as [p|] eqn:Ea; [|lia].
  rewrite read_bytes_in by lia. cbn [mbind outcome_bind]. eexists. split; [done|].
  constructor; cbn; try done.
  - constructor; [rewrite zlen_sub_bytes by lia; lia|lia|lia].
  - intros q [= <-]. apply bytes_ok_sub. by apply Hbytes.
Qed.

Lemma parse_adapter_safe s d eos : parser_ok s ->
  exists ret s' d', parse_adapter stale_size s d eos = Done (ret, s', d') /\ parser_ok s'.
Proof.
  intros Hok. unfold parse_adapter. destruct (detect_safe s Hok) as (c & -> & Hc). cbn [mbind outcome_bind].
  set (s0 := set_config s c). assert (parser_ok s0) as Hok0 by (destruct Hc as (? & ? & ? & ? & _); by apply set_config_ok).
  match goal with |- exists ret s' d', mbind _ ?body = _ /\ _ =>
    assert (exists ret s1 d1 off, body = Done (ret, s1, d1, off) /\ gathers s0 s1 /\ 0 <= off <= adapter_len (hp_adapter s0))
      as (ret & s1 & d1 & off & -> & G1 & Ho) end.
  { pose proof (ok_readable s0 Hok0) as [_ Hl].
    destruct (input_format _); [|by apply parse_annexb_safe|by apply parse_length_safe].
    eexists _, _, _, _. split; [done|]. split; [by apply keeps_gathers|lia]. }
  cbn [mbind outcome_bind]. assert (parser_ok s1) as Hok1 by by eapply gathers_ok.
  destruct (negb (ret =? ZST_OK)); [by eexists _, _, _|]. destruct G1 as (_ & E & _).
  destruct (consume_safe s1 off Hok1) as (s2 & -> & Hok2); [by rewrite E|]. by eexists _, _, _.
Qed.

Lemma clear_adapter_ok s : parser_ok s -> parser_ok (clear_adapter s).
Proof.
  intros [[Hb Hl Hm] ? ? ? ?]. constructor; cbn; try done. constructor; [|lia|lia].
  destruct (adapter _) as [p|]; [pose proof (zlen_nonneg p); lia|done].
Qed.

Lemma clear_au_ok s : parser_ok s -> parser_ok (clear_au s).
Proof. intros [? ? ? ? ?]. constructor; cbn; try done. apply no_block. lia. Qed.

Lemma or_flags_ok s flags : parser_ok s -> parser_ok (or_flags s flags).
Proof. intros [? ? ? ? ?]. by constructor. Qed.

Lemma parser_push_safe s d type buf : parser_ok s -> buffer_ok buf ->
  exists ret s' d', parser_push stale_size s d type buf = Done (ret, s', d') /\ parser_ok s'.
Proof.
  intros Hok [Hsize [Hbytes Hblock]]. unfold parser_push.
  destruct (_ || _) eqn:Eg; [by eexists _, _, _|].
  destruct (has_flag (buf_flags buf) ZST_BUFFER_FLAG_DROP).
  { assert (parser_ok (clear_au (clear_adapter s))) by by apply clear_au_ok, clear_adapter_ok.
    destruct (src_linked d); [destruct (src_push d buf)|]; by eexists _, _, _. }
  set (s0 := take_times s buf).
  assert (parser_ok s0) as Hok0 by (unfold s0, take_times; destruct (have_timestamp _); destruct Hok as [? ? ? ? ?]; by constructor).
  assert (zlen (buf_bytes buf) = mem_size buf) as Hz.
  { unfold buf_bytes. destruct (mem_data buf) as [p|]; [apply zlen_sub_bytes; lia|].
    cbn in Eg. destruct (Z.eqb_spec (mem_size buf) 0) as [->|]; [done|].
    rewrite orb_true_r in Eg. done. }
  pose proof (reserve_append _ _ _ _ (buf_bytes buf) (po_adapter s0 Hok0) (proj1 (po_limits s0 Hok0))) as Hr. rewrite Hz in Hr.
  destruct (reserve _ _ _ _ _) as [[block cap]|]; [|by eexists _, _, _].
  destruct Hr as (b & -> & Hb & Hval & _). cbn [mbind outcome_bind].
  match goal with |- context [parse_adapter _ ?s1 d ?eos] => assert (parser_ok s1) as Hok1;
    [|destruct (parse_adapter_safe s1 d eos Hok1) as (ret & s2 & d2 & -> & Hok2)] end.
  { destruct Hok0 as [? ? ? ? Hp]. constructor; cbn; try done. intros p ->. rewrite (Hval p eq_refl).
    apply bytes_ok_app. split; [|done]. apply bytes_ok_sub.
    destruct (adapter (hp_adapter s0)); [by apply Hp|constructor]. }
  cbn [mbind outcome_bind]. destruct (negb (ret =? ZST_OK)); [eexists _, _, _; split; [done|]; by eapply unit_keeps_ok|].
  destruct (has_flag (buf_flags buf) ZST_BUFFER_FLAG_EOS); [|by eexists _, _, _].
  pose proof (flush_gathers (or_flags s2 ZST_BUFFER_FLAG_EOS) d2 (or_flags_ok _ _ Hok2)) as Hf.
  destruct (flush_au _ _ _) as [[ret3 s3] d3]. eexists _, _, _. split; [done|].
  eapply gathers_ok; [by apply or_flags_ok|done].
Qed.

(** Capabilities whose format is a text; it is NULL only if memory ran out. *)
Definition format_named (ev : zst_pad_event_t) : Prop :=
  match ev with ZST_PAD_EVENT_CAPS caps => zst_caps_get_string caps "stream-format" <> Some None | _ => True end.

Lemma parser_event_safe s d ev : parser_ok s -> format_named ev ->
  exists ret s' d', parser_event stale_size s d ev = Done (ret, s', d') /\ parser_ok s'.
Proof.
  intros Hok Hev. unfold parser_event, forward.
  assert (parser_ok (clear_au (clear_adapter s))) as Hclear by by apply clear_au_ok, clear_adapter_ok.
  assert (forall s1 d1, parser_ok s1 -> exists ret s' d', (let '(ret, d2) := src_event d1 ev in Done (ret, s1, d2)) = Done (ret, s', d') /\ parser_ok s')
    as Hfwd by (intros s1 d1 ?; destruct (src_event d1 ev); by eexists _, _, _).
  destruct ev as [id|caps|seg| | | | | | ]; try (by apply Hfwd).
  - apply Hfwd. destruct Hclear as [? ? ? ? ?]. by constructor.
  - assert (exists ret c, take_caps s caps = Done (ret, set_config s c) /\ same_limits (hp_config s) c) as (ret & c & -> & Hc).
    { unfold take_caps. assert (set_config s (hp_config s) = s) as Es by by destruct s.
      destruct caps as [[|first rest]|]; [by exists ZST_ERROR, (hp_config s); rewrite Es| |by exists ZST_ERROR, (hp_config s); rewrite Es].
      destruct (if streq _ _ then _ else _) as [k|]; [|by exists ZST_ERROR, (hp_config s); rewrite Es].
      cbn in Hev. destruct (zst_caps_get_string _ _) as [[f|]|]; [|done|]; by eexists _, _. }
    eexists _, _, _. split; [done|]. destruct Hc as (? & ? & ? & ? & _). by apply set_config_ok.
  - destruct (parse_adapter_safe s d true Hok) as (ret & s1 & d1 & -> & Hok1). cbn [mbind outcome_bind].
    pose proof (flush_gathers (or_flags s1 ZST_BUFFER_FLAG_EOS) d1 (or_flags_ok _ _ Hok1)) as Hf.
    match goal with |- context [if ret =? ZST_OK then ?a else ?b] =>
      assert (exists ret2 s2 d2, (if ret =? ZST_OK then a else b) = (ret2, s2, d2) /\ parser_ok s2)
        as (ret2 & s2 & d2 & -> & Hok2) end.
    { destruct (ret =? ZST_OK); [|by eexists _, _, _]. destruct (flush_au _ _ _) as [[? ?] ?]. eexists _, _, _. split; [done|].
      eapply gathers_ok; [by apply or_flags_ok|done]. }
    destruct (negb (ret2 =? ZST_OK)); [by eexists _, _, _|by apply Hfwd].
Qed.

(** *** Any sequence of calls *)

(** A restart closes the element and opens it again; between the two nothing arrives. *)
Inductive parser_op :=
| Push (memory_type : Z) (buf : zst_buffer)
| Event (ev : zst_pad_event_t)
| SetProperty (name value : string)
| Restart.

Definition run_parser_op (s : h26x_parser_t) (d : D) (op : parser_op) : outcome (h26x_parser_t * D) :=
  match op with
  | Push type buf => '(_, s, d) ← parser_push stale_size s d type buf; Done (s, d)
  | Event ev => '(_, s, d) ← parser_event stale_size s d ev; Done (s, d)
  | SetProperty name value => Done ((parser_set_property s name value).2, d)
  | Restart => Done ((parser_open (parser_close s).2).2, d)
  end.

(** Buffers are what they say they are, and no limit is set below what is held already. *)
Definition parser_op_legal (s : h26x_parser_t) (op : parser_op) : Prop :=
  match op with
  | Push _ buf => buffer_ok buf
  | Event ev => format_named ev
  | SetProperty name value =>
      let s' := (parser_set_property s name value).2 in
      adapter_len (hp_adapter s) <= max_buffered_bytes (hp_config s') /\ hau_len (hp_au s) <= max_au_size (hp_config s')
  | Restart => True
  end.

Fixpoint run_parser (ops : list parser_op) (s : h26x_parser_t) (d : D) : outcome (h26x_parser_t * D) :=
  match ops with [] => Done (s, d) | op :: ops => '(s, d) ← run_parser_op s d op; run_parser ops s d end.

Fixpoint parser_legal (ops : list parser_op) (s : h26x_parser_t) (d : D) : Prop :=
  match ops with
  | [] => True
  | op :: ops =>
      parser_op_legal s op /\ match run_parser_op s d op with Done (s, d) => parser_legal ops s d | _ => True end
  end.

Lemma parse_digits_nonneg base acc s : 0 <= base -> 0 <= acc -> 0 <= parse_digits base acc s.
Proof.
  intros Hb. revert acc. induction s as [|c s IH]; intros acc Ha; cbn [parse_digits]; [done|].
  destruct (_ <? base); [|done]. apply IH. unfold digit_val. repeat case_match; zbool; nia.
Qed.

Lemma strtoul10_nonneg s : 0 <= strtoul10 s.
Proof.
  unfold strtoul10. destruct (parse_sign _) as [neg r]. pose proof (parse_digits_nonneg 10 0 r).
  pose proof (u64_range (- parse_digits 10 0 r)). repeat case_match; unfold UINT64_MAX; lia.
Qed.

Lemma set_limits_ok s size nal au buffered : parser_ok s -> 1 <= size <= 4 ->
  hau_len (hp_au s) <= au < 4294967296 -> adapter_len (hp_adapter s) <= buffered < 4294967296 ->
  parser_ok (set_limits s size nal au buffered).
Proof.
  intros [[? ? ?] [? ? ?] ? ? ?] Hs Ha Hb. constructor; cbn; try done; try lia; constructor; try done; lia.
Qed.

Lemma parser_property_ok s name value : parser_ok s -> parser_op_legal s (SetProperty name value) ->
  parser_ok (parser_set_property s name value).2.
Proof.
  intros Hok. cbn [parser_op_legal]. unfold parser_set_property.
  pose proof Hok as [[_ _ Hla] [_ _ Hlu] [Hb Ha] Hs _]. pose proof (strtoul10_nonneg value) as Hn.
  repeat (match goal with
          | |- context [if streq ?a ?b then _ else _] => destruct (streq a b)
          | |- context [if strcaseeq ?a ?b then _ else _] => destruct (strcaseeq a b)
          | |- context [if _ || _ then _ else _] => destruct (_ || _)
          end; try (intros _; cbn [snd]; done || by apply set_config_ok)).
  all: destruct (Z.eqb_spec (strtoul10 value) 0); [by intros _|].
  all: pose proof (u32_range (strtoul10 value)) as Hu.
  all: destruct (Z.leb_spec (strtoul10 value) 4), (streq name "nal-length-size"); cbn [andb snd hp_config set_limits set_config max_buffered_bytes max_au_size].
  all: try (intros [? ?]; done || (apply set_limits_ok; [done|lia..])).
Qed.

Lemma restart_ok s : parser_ok s -> parser_ok (parser_open (parser_close s).2).2.
Proof.
  intros [? ? [? ?] ? ?]. constructor; cbn; try done; apply no_block; lia.
Qed.

Lemma created_ok s : zst_h26x_parser_create = Some s -> parser_ok (parser_open s).2.
Proof.
  unfold zst_h26x_parser_create. destruct (malloc_ok _); [|done]. intros [= <-].
  constructor; cbn; try done; unfold H26X_DEFAULT_MAX_BUFFERED; try lia; constructor; cbn; lia || done.
Qed.

Lemma run_parser_safe ops s d : parser_ok s -> parser_legal ops s d ->
  exists s' d', run_parser ops s d = Done (s', d') /\ parser_ok s'.
Proof.
  revert s d. induction ops as [|op ops IH]; intros s d Hok Hl; cbn [run_parser parser_legal] in *; [by eexists _, _|].
  destruct Hl as [Hop Hl].
  assert (exists s1 d1, run_parser_op s d op = Done (s1, d1) /\ parser_ok s1) as (s1 & d1 & E & Hok1).
  { destruct op as [type buf|ev|name value|]; cbn [run_parser_op parser_op_legal] in *.
    - destruct (parser_push_safe s d type buf Hok Hop) as (? & s1 & d1 & -> & ?). by exists s1, d1.
    - destruct (parser_event_safe s d ev Hok Hop) as (? & s1 & d1 & -> & ?). by exists s1, d1.
    - eexists _, _. split; [done|]. by apply parser_property_ok.
    - eexists _, _. split; [done|]. by apply restart_ok. }
  rewrite E in *. cbn [mbind outcome_bind]. by apply IH.
Qed.
End safety.
