(* ===== verification/H26xStream.v ===== *)
(** * The units of an Annex B stream, however it is cut: [H26xParser]

    The reference splits the whole stream at its start codes.  The parser sees the
    stream a piece at a time and keeps what follows the last start code; the pieces'
    splits together are the split of the whole. *)

From Stdlib Require Import String SpecFloat.
From S2P Require Import Prelude CLib Pad MediaUtils Caps Graph PadOps H26xBits H26xBitsSpec H26xParser H26xSpec.

Local Open Scope Z_scope.

(** ** The next start code *)

Definition find (p : bytes) (i : Z) : option (Z * Z) := scan_code (Z.to_nat (zlen p)) p (zlen p) i.
Definition code_in (p : bytes) (i : Z) : Z := code_at p (zlen p) i.

(** [j] is the first start code from [i] on, of length [k]. *)
Record found (p : bytes) (i j k : Z) : Prop := {
  fd_from : i <= j;
  fd_in : j + 3 <= zlen p;
  fd_code : code_in p j = k;
  fd_some : k <> 0;
  fd_first : forall m, i <= m < j -> code_in p m = 0;
}.

Lemma scan_found fuel p n i : n - i < Z.of_nat fuel + 3 -> n = zlen p ->
  match scan_code fuel p n i with
  | Some (j, k) => found p i j k
  | None => forall m, i <= m -> m + 3 <= n -> code_in p m = 0
  end.
Proof.
  intros Hf Hn. revert i Hf. induction fuel as [|fuel IH]; intros i Hf; cbn [scan_code]; [lia|].
  destruct (Z.leb_spec (i + 3) n); [|lia].
  destruct (Z.eqb_spec (code_at p n i) 0) as [E|E]; cbn [negb].
  - subst n. specialize (IH (i + 1)). destruct (scan_code fuel p (zlen p) (i + 1)) as [[j k]|].
    + destruct IH as [H1 H2 H3 H4 H5]; [lia|]. constructor; try done; [lia|].
      intros m Hm. destruct (Z.eq_dec m i) as [->|]; [done|]. apply H5. lia.
    + intros m Hm1 Hm2. destruct (Z.eq_dec m i) as [->|]; [done|]. apply IH; lia.
  - subst n. constructor; try done; lia.
Qed.

Lemma find_spec p i : 0 <= i ->
  match find p i with
  | Some (j, k) => found p i j k
  | None => forall m, i <= m -> m + 3 <= zlen p -> code_in p m = 0
  end.
Proof. intros Hi. unfold find. apply scan_found; [|done]. pose proof (zlen_nonneg p). lia. Qed.

Lemma found_unique p i j k j' k' : found p i j k -> found p i j' k' -> j = j' /\ k = k'.
Proof.
  intros [A1 A2 A3 A4 A5] [B1 B2 B3 B4 B5]. assert (j = j') as <-; [|by subst].
  destruct (Z.lt_trichotomy j j') as [Hlt|[->|Hlt]]; [|done|].
  - exfalso. apply A4. rewrite <-A3. apply B5. lia.
  - exfalso. apply B4. rewrite <-B3. apply A5. lia.
Qed.

Lemma found_find p i j k : 0 <= i -> found p i j k -> find p i = Some (j, k).
Proof.
  intros Hi Hf. pose proof (find_spec p i Hi) as Hs. destruct (find p i) as [[j' k']|].
  - by destruct (found_unique _ _ _ _ _ _ Hf Hs) as [<- <-].
  - destruct Hf as [? ? Hc Hk _]. exfalso. apply Hk. rewrite <-Hc. by apply Hs.
Qed.

Lemma code_cases p i : code_in p i = 0 \/ code_in p i = 3 \/ (code_in p i = 4 /\ i + 3 < zlen p).
Proof. unfold code_in, code_at. repeat case_match; auto. right. right. split; [done|]. by destruct (Z.ltb_spec (i + 3) (zlen p)). Qed.

(** More bytes after it do not move a start code, and make none before the last three. *)
Lemma code_app_some p q i : 0 <= i -> i + 3 <= zlen p -> code_in p i <> 0 -> code_in (p ++ q) i = code_in p i.
Proof.
  intros Hi Hin. pose proof (zlen_nonneg q). unfold code_in, code_at. rewrite zlen_app, !(rd_app_l p q) by lia.
  destruct (_ && _); [|done]. destruct (rd p (i + 2) =? 1); [done|].
  destruct (Z.ltb_spec (i + 3) (zlen p)); [|done]. rewrite (proj2 (Z.ltb_lt (i + 3) _)), rd_app_l by lia. done.
Qed.

Lemma code_app_none p q i : 0 <= i -> i + 3 < zlen p -> code_in (p ++ q) i = code_in p i.
Proof.
  intros Hi Hin. pose proof (zlen_nonneg q). unfold code_in, code_at. rewrite zlen_app, !(rd_app_l p q) by lia.
  by rewrite !(proj2 (Z.ltb_lt (i + 3) _)) by lia.
Qed.

Lemma find_app p q i j k : 0 <= i -> find p i = Some (j, k) -> find (p ++ q) i = Some (j, k).
Proof.
  intros Hi E. pose proof (find_spec p i Hi) as Hs. rewrite E in Hs. destruct Hs as [H1 H2 H3 H4 H5].
  apply found_find; [done|]. pose proof (zlen_nonneg q). constructor; [done|rewrite zlen_app; lia| |done|].
  - rewrite code_app_some; [done|lia|done|congruence].
  - intros m Hm. rewrite code_app_none by lia. by apply H5.
Qed.

Lemma code_shift p q i : 0 <= i -> code_in (p ++ q) (zlen p + i) = code_in q i.
Proof.
  intros Hi. pose proof (zlen_nonneg p). unfold code_in, code_at. rewrite <-!Z.add_assoc, !rd_app_r, zlen_app by lia.
  replace (zlen p + i - zlen p) with i by lia. replace (zlen p + (i + 1) - zlen p) with (i + 1) by lia.
  replace (zlen p + (i + 2) - zlen p) with (i + 2) by lia. replace (zlen p + (i + 3) - zlen p) with (i + 3) by lia.
  replace (zlen p + (i + 3) <? zlen p + zlen q) with (i + 3 <? zlen q) by (zbool; lia). done.
Qed.

Lemma find_shift p q i : 0 <= i -> find (p ++ q) (zlen p + i) = (fun r => (zlen p + r.1, r.2)) <$> find q i.
Proof.
  intros Hi. pose proof (zlen_nonneg p) as Hp. pose proof (find_spec q i Hi) as Hs.
  destruct (find q i) as [[j k]|]; cbn [fmap option_fmap option_map fst snd].
  - destruct Hs as [H1 H2 H3 H4 H5]. apply found_find; [lia|]. constructor; [lia|rewrite zlen_app; lia| |done|].
    + rewrite code_shift by lia. done.
    + intros m Hm. replace m with (zlen p + (m - zlen p)) by lia. rewrite code_shift by lia. apply H5. lia.
  - pose proof (find_spec (p ++ q) (zlen p + i) ltac:(lia)) as Ht. destruct (find (p ++ q) (zlen p + i)) as [[j k]|]; [|done].
    destruct Ht as [H1 H2 H3 H4 H5]. exfalso. apply H4. rewrite <-H3.
    replace j with (zlen p + (j - zlen p)) by lia. rewrite code_shift by lia. rewrite zlen_app in H2. apply Hs; lia.
Qed.

(** ** Splits *)

(** The bytes between two positions, if there are any. *)
Definition between (p : bytes) (a b : Z) : list bytes := if a <? b then [sub_bytes a (b - a) p] else [].

(** From the start code at [off] of length [c] to the last one, at [o] of length [c']. *)
Inductive cuts (p : bytes) : Z -> Z -> list bytes -> Z -> Z -> Prop :=
| cuts_end off c : find p (off + c) = None -> cuts p off c [] off c
| cuts_next off c n k us o c' :
    find p (off + c) = Some (n, k) -> cuts p n k us o c' -> cuts p off c (between p (off + c) n ++ us) o c'.

Lemma find_range p i j k : 0 <= i -> find p i = Some (j, k) -> i <= j /\ 3 <= k /\ j + k <= zlen p.
Proof.
  intros Hi E. pose proof (find_spec p i Hi) as Hs. rewrite E in Hs. destruct Hs as [? ? Hc Hk _].
  pose proof (code_cases p j). lia.
Qed.

Lemma cuts_exist p off c : 0 <= off -> 3 <= c -> exists us o c', cuts p off c us o c'.
Proof.
  remember (Z.to_nat (zlen p - off)) as n eqn:En. revert off c En.
  induction n as [n IH] using lt_wf_ind. intros off c -> Ho Hc.
  destruct (find p (off + c)) as [[m k]|] eqn:E; [|by eexists _, _, _; constructor].
  pose proof (find_range p (off + c) m k) as Hr. specialize (Hr ltac:(lia) E).
  destruct (IH (Z.to_nat (zlen p - m)) ltac:(lia) m k) as (us & o & c' & Hcuts); [done|lia|lia|].
  eexists _, _, _. by eapply cuts_next.
Qed.

Lemma cuts_range p off c us o c' : cuts p off c us o c' -> 0 <= off -> 3 <= c -> off + c <= zlen p ->
  off <= o /\ 3 <= c' /\ o + c' <= zlen p.
Proof.
  induction 1 as [off c|off c n k us o c' E Hc IH]; intros Ho H3 Hin; [lia|].
  pose proof (find_range p (off + c) n k ltac:(lia) E). lia.
Qed.

Lemma between_app p q a b : 0 <= a -> b <= zlen p -> between (p ++ q) a b = between p a b.
Proof.
  intros Ha Hb. unfold between. destruct (Z.ltb_spec a b); [|done]. f_equal. unfold sub_bytes, zlen in *.
  rewrite drop_app_le by lia. rewrite take_app_le; [done|]. rewrite length_drop. lia.
Qed.

Lemma cuts_app p q off c us o c' vs o2 c2 :
  cuts p off c us o c' -> cuts (p ++ q) o c' vs o2 c2 -> 0 <= off -> 3 <= c -> cuts (p ++ q) off c (us ++ vs) o2 c2.
Proof.
  intros Hc Hv. induction Hc as [off c|off c n k us o c' E Hc IH]; intros Ho H3; [done|].
  pose proof (find_range p (off + c) n k ltac:(lia) E). rewrite <-app_assoc, <-(between_app p q) by lia.
  eapply cuts_next; [apply find_app; [lia|done]|]. apply IH; [done|lia|lia].
Qed.

Lemma between_shift p q a b : 0 <= a -> between (p ++ q) (zlen p + a) (zlen p + b) = between q a b.
Proof.
  intros Ha. unfold between. replace (zlen p + a <? zlen p + b) with (a <? b) by (zbool; lia).
  destruct (a <? b); [|done]. f_equal. replace (zlen p + b - (zlen p + a)) with (b - a) by lia.
  unfold sub_bytes, zlen. rewrite Z2Nat.inj_add, Nat2Z.id by lia. by rewrite <-drop_drop, drop_app_length.
Qed.

Lemma cuts_shift p q off c us o c' :
  cuts q off c us o c' -> 0 <= off -> 3 <= c -> cuts (p ++ q) (zlen p + off) c us (zlen p + o) c'.
Proof.
  intros Hc. induction Hc as [off c E|off c n k us o c' E Hc IH]; intros Ho H3.
  - apply cuts_end. rewrite <-Z.add_assoc, find_shift, E by lia. done.
  - pose proof (find_range q (off + c) n k ltac:(lia) E).
    rewrite <-(between_shift p q (off + c)) by lia. rewrite Z.add_assoc. eapply cuts_next.
    + rewrite <-Z.add_assoc, find_shift, E by lia. done.
    + apply IH; lia.
Qed.

(** The complete units of [p], and the bytes from the last start code on. *)
Inductive splits (p : bytes) : list bytes -> bytes -> Prop :=
| splits_none : find p 0 = None -> splits p [] p
| splits_some sc k us o c' : find p 0 = Some (sc, k) -> cuts p sc k us o c' -> splits p us (drop (Z.to_nat o) p).

(** The start code at the end of a cut is the first one of what is left. *)
Lemma cuts_last p off c us o c' : cuts p off c us o c' -> 0 <= off -> 3 <= c -> off + 3 <= zlen p ->
  code_in p off = c -> code_in p o = c' /\ o + 3 <= zlen p.
Proof.
  induction 1 as [off c|off c n k us o c' E Hc IH]; intros Ho H3 Hin Hcode; [done|].
  pose proof (find_range p (off + c) n k ltac:(lia) E). pose proof (find_spec p (off + c) ltac:(lia)) as Hs. rewrite E in Hs.
  apply IH; try lia. apply Hs.
Qed.

Lemma find_at p : forall k, code_in p 0 = k -> k <> 0 -> 3 <= zlen p -> find p 0 = Some (0, k).
Proof. intros k E Hk Hl. apply found_find; [lia|]. constructor; [done|lia|done|done|lia]. Qed.

Lemma find_code p i j k : 0 <= i -> find p i = Some (j, k) -> code_in p j = k /\ k <> 0.
Proof. intros Hi E. pose proof (find_spec p i Hi) as Hs. rewrite E in Hs. by destruct Hs. Qed.

(** What a cut of [p] leaves begins with the start code of length [c']. *)
Lemma cuts_rest p sc k us o c' q : find p 0 = Some (sc, k) -> cuts p sc k us o c' ->
  let r := drop (Z.to_nat o) p in 0 <= o <= zlen p /\ p = take (Z.to_nat o) p ++ r /\ zlen (take (Z.to_nat o) p) = o /\
  find (r ++ q) 0 = Some (0, c').
Proof.
  intros E Hc r. pose proof (find_range p 0 sc k ltac:(lia) E) as (? & ? & ?). destruct (find_code p 0 sc k ltac:(lia) E) as [Hcode Hk].
  pose proof (cuts_range p sc k us o c' Hc ltac:(lia) ltac:(lia) ltac:(lia)) as (? & ? & ?).
  destruct (cuts_last p sc k us o c' Hc ltac:(lia) ltac:(lia) ltac:(lia) Hcode) as [Hlast ?].
  assert (p = take (Z.to_nat o) p ++ r) as Ep by (symmetry; apply take_drop).
  assert (zlen (take (Z.to_nat o) p) = o) as El by (unfold zlen in *; rewrite length_take; lia).
  split_and!; [lia|lia|done|done|]. apply find_app; [lia|].
  assert (zlen p = o + zlen r) by (rewrite Ep at 1; rewrite zlen_app; lia).
  apply find_at; [|lia|lia]. rewrite <-(code_shift (take (Z.to_nat o) p)) by lia. by rewrite <-Ep, El, Z.add_0_r.
Qed.

(** Splitting a stream is splitting a front of it, then what that leaves with the rest. *)
Lemma splits_app p q us r vs t : splits p us r -> splits (r ++ q) vs t -> splits (p ++ q) (us ++ vs) t.
Proof.
  intros Hp Hq. destruct Hp as [E|sc k us o c' E Hc]; [done|].
  destruct (cuts_rest p sc k us o c' q E Hc) as (Ho & Ep & El & Hr). set (r := drop (Z.to_nat o) p) in *.
  pose proof (find_range p 0 sc k ltac:(lia) E) as (? & ? & ?).
  pose proof (cuts_range p sc k us o c' Hc ltac:(lia) ltac:(lia) ltac:(lia)) as (? & ? & ?).
  destruct Hq as [E2|sc2 k2 vs o2 c2 E2 Hc2]; [congruence|]. rewrite Hr in E2. injection E2 as <- <-.
  pose proof (cuts_range (r ++ q) 0 c' vs o2 c2 Hc2 ltac:(lia) ltac:(lia)) as Hrange.
  apply (cuts_shift (take (Z.to_nat o) p)) in Hc2; [|lia|lia]. rewrite El, app_assoc, <-Ep, Z.add_0_r in Hc2.
  replace (drop (Z.to_nat o2) (r ++ q)) with (drop (Z.to_nat (o + o2)) (p ++ q)).
  - eapply splits_some; [by apply find_app; [lia|exact E]|]. eapply cuts_app; [done|done|lia|lia].
  - assert (0 <= o2) as Ho2.
    { apply Hrange. pose proof (find_range (r ++ q) 0 0 c' ltac:(lia) Hr). lia. }
    rewrite Z2Nat.inj_add, <-drop_drop by lia. f_equal. unfold r. unfold zlen in Ho. by rewrite drop_app_le by lia.
Qed.

Lemma splits_exist p : exists us r, splits p us r.
Proof.
  destruct (find p 0) as [[sc k]|] eqn:E; [|by eexists _, _; constructor].
  pose proof (find_range p 0 sc k ltac:(lia) E) as (? & ? & ?).
  destruct (cuts_exist p sc k) as (us & o & c' & Hc); [lia|lia|]. eexists _, _. by eapply splits_some.
Qed.

(** What is left of a stream holds no complete unit. *)
Lemma splits_rest p us r : splits p us r -> splits r [] r.
Proof.
  intros [E|sc k us' o c' E Hc]; [by apply splits_none|].
  destruct (cuts_rest p sc k us' o c' [] E Hc) as (Ho & Ep & El & Hr). rewrite app_nil_r in Hr.
  set (r0 := drop (Z.to_nat o) p) in *. rewrite <-(drop_0 r0) at 2. change 0%nat with (Z.to_nat 0).
  eapply splits_some; [exact Hr|]. apply cuts_end.
  pose proof (find_range p 0 sc k ltac:(lia) E) as (? & ? & ?).
  pose proof (cuts_range p sc k us' o c' Hc ltac:(lia) ltac:(lia) ltac:(lia)) as (? & ? & ?).
  assert (find p (o + c') = None) as Eend by (clear -Hc; induction Hc; done).
  pose proof (find_shift (take (Z.to_nat o) p) r0 c' ltac:(lia)) as Es. rewrite <-Ep, El, Eend in Es. rewrite Z.add_0_l. by destruct (find r0 c').
Qed.

Lemma splits_le p us r : splits p us r -> zlen r <= zlen p.
Proof. intros [E|sc k us' o c' E Hc]; [lia|]. unfold zlen. rewrite length_drop. lia. Qed.

(** ** The reference *)

(** Units behind the start code at [off], the last of them to the end of the stream;
    each goes with the flags it is handled with. *)
Fixpoint cut_units (fuel : nat) (p : bytes) (off c : Z) : list (bytes * Z) :=
  match fuel with
  | O => []
  | S fuel =>
      match find p (off + c) with
      | Some (n, k) => map (fun u => (u, 0)) (between p (off + c) n) ++ cut_units fuel p n k
      | None => map (fun u => (u, ZST_BUFFER_FLAG_EOS)) (between p (off + c) (zlen p))
      end
  end.

Definition annexb_units (p : bytes) : list (bytes * Z) :=
  match find p 0 with Some (sc, k) => cut_units (length p) p sc k | None => [] end.

Lemma cut_units_cuts fuel p off c us o c' : cuts p off c us o c' -> 0 <= off -> 3 <= c -> off + c <= zlen p ->
  zlen p - off < Z.of_nat fuel + 3 ->
  cut_units fuel p off c = map (fun u => (u, 0)) us ++ map (fun u => (u, ZST_BUFFER_FLAG_EOS)) (between p (o + c') (zlen p)).
Proof.
  intros Hc. revert fuel. induction Hc as [off c E|off c n k us o c' E Hc IH]; intros fuel Ho H3 Hin Hf; (destruct fuel as [|fuel]; [lia|]);
    cbn [cut_units]; rewrite E; [done|].
  pose proof (find_range p (off + c) n k ltac:(lia) E). rewrite IH by lia. by rewrite map_app, <-app_assoc.
Qed.

(** What the end of the stream gives. *)
Definition last_unit (r : bytes) : list bytes :=
  match find r 0 with Some (_, k) => between r k (zlen r) | None => [] end.

Lemma last_unit_cut p sc k us o c' : find p 0 = Some (sc, k) -> cuts p sc k us o c' ->
  last_unit (drop (Z.to_nat o) p) = between p (o + c') (zlen p).
Proof.
  intros E Hc. pose proof (find_range p 0 sc k ltac:(lia) E) as (? & ? & ?). unfold last_unit.
  destruct (cuts_rest p sc k us o c' [] E Hc) as (Ho & Ep & El & Hr). rewrite app_nil_r in Hr. rewrite Hr.
  pose proof (cuts_range p sc k us o c' Hc ltac:(lia) ltac:(lia) ltac:(lia)) as (? & ? & ?).
  assert (zlen p = o + zlen (drop (Z.to_nat o) p)) as Elen by (rewrite Ep at 1; rewrite zlen_app; lia).
  pose proof (between_shift (take (Z.to_nat o) p) (drop (Z.to_nat o) p) c' (zlen (drop (Z.to_nat o) p)) ltac:(lia)) as Hb.
  by rewrite El, <-Ep, <-Elen in Hb.
Qed.

Lemma cuts_det p off c us o c' vs o2 c2 : cuts p off c us o c' -> cuts p off c vs o2 c2 -> us = vs /\ o = o2 /\ c' = c2.
Proof.
  intros Hc. revert vs o2 c2. induction Hc as [off c E|off c n k us o c' E Hc IH]; intros vs o2 c2 Hv; inversion Hv; subst.
  - done.
  - congruence.
  - congruence.
  - assert (n0 = n) as -> by congruence. assert (k0 = k) as -> by congruence.
    match goal with Hx : cuts p n k _ _ _ |- _ => destruct (IH _ _ _ Hx) as (-> & -> & ->) end. done.
Qed.

Lemma splits_det p us r vs t : splits p us r -> splits p vs t -> us = vs /\ r = t.
Proof.
  intros [E|sc k us' o c' E Hc] Hv; destruct Hv as [E2|sc2 k2 vs o2 c2 E2 Hc2]; try congruence; [done|].
  rewrite E in E2. injection E2 as <- <-. by destruct (cuts_det _ _ _ _ _ _ _ _ _ Hc Hc2) as (-> & -> & _).
Qed.

Lemma units_splits p us r : splits p us r ->
  annexb_units p = map (fun u => (u, 0)) us ++ map (fun u => (u, ZST_BUFFER_FLAG_EOS)) (last_unit r).
Proof.
  unfold annexb_units. intros Hp. destruct Hp as [E|sc k us o c' E Hc]; [unfold last_unit; by rewrite E|].
  rewrite E, (last_unit_cut p sc k us o c' E Hc). pose proof (find_range p 0 sc k ltac:(lia) E) as (? & ? & ?).
  apply (cut_units_cuts _ p sc k us o c' Hc); unfold zlen in *; lia.
Qed.

(** ** Units do not depend on the adapter *)

Definition same_times (a b : h26x_adapter) : Prop :=
  adapter_pts a = adapter_pts b /\ adapter_dts a = adapter_dts b /\ adapter_duration a = adapter_duration b.

Section stream.
Context `{CMemory} {D : Type} `{SrcPad D} (stale_size : caps_value -> Z).
Local Abbreviation result := (zst_result_t * h26x_parser_t * D)%type.

(** The same result with another adapter in the state. *)
Definition put_adapter (a : h26x_adapter) (r : result) : result := let '(ret, s, d) := r in (ret, set_adapter s a, d).
Definition map_outcome (f : result -> result) (o : outcome result) : outcome result := r ← o; Done (f r).

Lemma describe_adapter a s : describe stale_size (set_adapter s a) = describe stale_size s.
Proof. unfold describe. reflexivity. Qed.
Lemma describe_h264_adapter a s : describe_h264 stale_size (set_adapter s a) = describe_h264 stale_size s.
Proof. unfold describe_h264. reflexivity. Qed.
Lemma codec_data_adapter a s : codec_data (set_adapter s a) = codec_data s.
Proof. unfold codec_data. reflexivity. Qed.

Lemma push_caps_adapter a s d : push_caps stale_size (set_adapter s a) d = put_adapter a (push_caps stale_size s d).
Proof.
  unfold push_caps.
  rewrite describe_adapter, describe_h264_adapter, codec_data_adapter. change (media_name (set_adapter s a)) with (media_name s).
  change (is_h264 (set_adapter s a)) with (is_h264 s). change (hp_format (set_adapter s a)) with (hp_format s).
  change (hp_active (set_adapter s a)) with (hp_active s).
  change (count_generation (set_adapter s a)) with (set_adapter (count_generation s) a).
  change (hp_counts (set_adapter (count_generation s) a)) with (hp_counts (count_generation s)).
  destruct (_ || _); [done|]. destruct (_ && _); [done|]. destruct (zst_caps_new_simple _) as [caps|]; [|done].
  destruct (if is_h264 s then _ else _) as [ret c]. destruct (negb (ret =? ZST_OK)); [done|].
  destruct (_ && _); [done|]. destruct (zst_pad_event_new_caps _ _); [|done]. by destruct (src_event _ _).
Qed.

Lemma push_out_adapter a s d out : push_out (set_adapter s a) d out = put_adapter a (push_out s d out).
Proof. unfold push_out. destruct (src_linked d); [|done]. by destruct (src_push d out). Qed.

Lemma emit_adapter a s d nal pts dts dur flags :
  emit stale_size (set_adapter s a) d nal pts dts dur flags = put_adapter a (emit stale_size s d nal pts dts dur flags).
Proof.
  unfold emit. rewrite push_caps_adapter. destruct (push_caps stale_size s d) as [[ret s1] d1]. cbn [put_adapter].
  destruct (negb _); [done|]. destruct (_ || _); [done|]. apply push_out_adapter.
Qed.

Lemma flush_adapter a s d : flush_au stale_size (set_adapter s a) d = put_adapter a (flush_au stale_size s d).
Proof.
  unfold flush_au. change (hp_au (set_adapter s a)) with (hp_au s). destruct (_ =? 0); [done|].
  rewrite push_caps_adapter. destruct (push_caps stale_size s d) as [[ret s1] d1]. cbn [put_adapter].
  destruct (negb _); [done|]. change (hp_au (set_adapter s1 a)) with (hp_au s1). destruct (negb _); [done|].
  apply (push_out_adapter a (set_au s1 (mk_hau None 0 0 (hau_pts (hp_au s1)) (hau_dts (hp_au s1)) (hau_duration (hp_au s1)) 0 false))).
Qed.

Lemma store_ps_adapter a s k nal : store_ps (set_adapter s a) k nal = ((store_ps s k nal).1, set_adapter (store_ps s k nal).2 a).
Proof.
  unfold store_ps. destruct (nk_ps k) as [ps|]; [|done]. change (is_h264 (set_adapter s a)) with (is_h264 s). destruct (is_h264 s).
  - assert (forall nal, cache_h264_sps (set_adapter s a) nal = ((cache_h264_sps s nal).1, set_adapter (cache_h264_sps s nal).2 a)) as E1.
    { intros n. unfold cache_h264_sps. destruct (parse_h264_sps n) as [[v id]|]; [|done].
      change (get_sps (set_adapter s a) id) with (get_sps s id).
      destruct (_ <=? _); [done|]. destruct (_ && _); [done|]. by destruct (negb _). }
    assert (forall nal, cache_h264_pps (set_adapter s a) nal = ((cache_h264_pps s nal).1, set_adapter (cache_h264_pps s nal).2 a)) as E2.
    { intros n. unfold cache_h264_pps. destruct (parse_h264_pps n) as [[id sid]|]; [|done].
      change (get_pps (set_adapter s a) id) with (get_pps s id). destruct (_ && _); [done|]. by destruct (negb _). }
    rewrite E1, E2. destruct (nk_type k =? 7).
    + destruct (cache_h264_sps s nal) as [v s1]. cbn [fst snd]. destruct (v =? 0); [done|]. by destruct (v <? 0).
    + destruct (cache_h264_pps s nal) as [v s1]. cbn [fst snd]. destruct (v =? 0); [done|]. by destruct (v <? 0).
  - unfold cache_h265_ps. destruct (negb _); [done|]. change (hp_ps (set_adapter s a)) with (hp_ps s).
    destruct (same_nal _ _); cbn [hp_config set_adapter set_dirty set_active set_sets];
      (destruct (_ && _); [|done]); unfold parse_h265_format; by destruct (parse_h265_sps nal).
Qed.

Lemma activate_adapter a s id : activate_h264_config (set_adapter s a) id = set_adapter (activate_h264_config s id) a.
Proof.
  unfold activate_h264_config. change (get_pps (set_adapter s a) id) with (get_pps s id).
  change (get_sps (set_adapter s a)) with (get_sps s). change (hp_active (set_adapter s a)) with (hp_active s).
  destruct (_ || _); [done|]. by destruct (_ && _).
Qed.

Lemma append_au_adapter a s k nal flags : same_times a (hp_adapter s) ->
  append_au (set_adapter s a) k nal flags = (r ← append_au s k nal flags; Done (r.1, set_adapter r.2 a)).
Proof.
  intros (E1 & E2 & E3). unfold append_au.
  change (hp_au (set_adapter s a)) with (hp_au s). change (hp_config (set_adapter s a)) with (hp_config s).
  change (hp_adapter (set_adapter s a)) with a. rewrite E1, E2, E3.
  destruct (reserve _ _ _ _ _) as [[block cap]|]; [|done]. cbn [mbind outcome_bind].
  by destruct (append _ _ _ _).
Qed.

Lemma handle_nal_adapter a s d nal flags : same_times a (hp_adapter s) -> parser_ok s ->
  handle_nal stale_size (set_adapter s a) d nal flags = map_outcome (put_adapter a) (handle_nal stale_size s d nal flags).
Proof.
  intros Ht Hok. unfold handle_nal. destruct (_ =? 0); [done|].
  change (classify (set_adapter s a) nal) with (classify s nal). set (k := classify s nal).
  change (starts_au (set_adapter s a) k) with (starts_au s k). rewrite flush_adapter.
  assert (let '(_, s1, _) := if starts_au s k then flush_au stale_size s d else (ZST_OK, s, d) in gathers s s1) as G1
    by (destruct (starts_au s k); [by apply flush_gathers|by apply keeps_gathers]).
  replace (if starts_au s k then put_adapter a (flush_au stale_size s d) else (ZST_OK, set_adapter s a, d))
    with (put_adapter a (if starts_au s k then flush_au stale_size s d else (ZST_OK, s, d))) by by destruct (starts_au s k).
  destruct (if starts_au s k then _ else _) as [[ret s1] d1]. cbn [put_adapter]. destruct (negb (ret =? ZST_OK)); [done|].
  assert (parser_ok s1) as Hok1 by by eapply gathers_ok.
  rewrite store_ps_adapter. pose proof (store_ps_keeps s1 k nal) as G2. destruct (store_ps s1 k nal) as [ok s2]. cbn [fst snd] in *.
  destruct (negb ok); [done|]. set (flags' := if nk_key k then _ else _).
  change (count_nal (set_adapter s2 a)) with (set_adapter (count_nal s2) a). set (s3 := count_nal s2).
  assert (parser_ok s3) as Hok3 by (eapply (unit_keeps_ok s2); [eauto with h26x|done]).
  assert (hp_adapter s3 = hp_adapter s) as Ea by (destruct G1 as (_ & G1 & _), G2 as (_ & G2 & _); by rewrite <-G1, <-G2).
  change (hp_au (set_adapter s3 a)) with (hp_au s3). set (c := nk_vcl k && nk_first k && hau_has_vcl (hp_au s3)).
  rewrite flush_adapter.
  replace (if c then put_adapter a (flush_au stale_size s3 d1) else (ZST_OK, set_adapter s3 a, d1))
    with (put_adapter a (if c then flush_au stale_size s3 d1 else (ZST_OK, s3, d1))) by by destruct c.
  assert (let '(_, s4, _) := if c then flush_au stale_size s3 d1 else (ZST_OK, s3, d1) in gathers s3 s4) as G4
    by (destruct c; [by apply flush_gathers|by apply keeps_gathers]).
  destruct (if c then _ else _) as [[ret4 s4] d4]. cbn [put_adapter]. destruct (negb (ret4 =? ZST_OK)); [done|].
  set (f := fun s => match nk_slice k with Some (_, pps_id) => if is_h264 s && nk_first k then activate_h264_config s pps_id else s | None => s end).
  change (match nk_slice k with Some (_, pps_id) => if is_h264 (set_adapter s4 a) && nk_first k then activate_h264_config (set_adapter s4 a) pps_id else set_adapter s4 a | None => set_adapter s4 a end)
    with (f (set_adapter s4 a)).
  change (match nk_slice k with Some (_, pps_id) => if is_h264 s4 && nk_first k then activate_h264_config s4 pps_id else s4 | None => s4 end) with (f s4).
  assert (f (set_adapter s4 a) = set_adapter (f s4) a /\ hp_adapter (f s4) = hp_adapter s4) as [-> Ef].
  { unfold f. cbv beta. clear f. destruct (nk_slice k) as [[m id]|]; [|done]. change (is_h264 (set_adapter s4 a)) with (is_h264 s4).
    destruct (is_h264 s4 && nk_first k); [|by split]. rewrite activate_adapter. split; [done|]. by destruct (activate_keeps s4 id) as (_ & -> & _). }
  change (hp_config (set_adapter (f s4) a)) with (hp_config (f s4)). change (hp_adapter (set_adapter (f s4) a)) with a.
  assert (hp_adapter (f s4) = hp_adapter s) as Ea5 by (destruct G4 as (_ & G4 & _); congruence).
  destruct (negb _).
  - destruct Ht as (-> & -> & ->). rewrite emit_adapter, Ea5. cbn [map_outcome mbind outcome_bind]. done.
  - rewrite append_au_adapter by by rewrite Ea5. by destruct (append_au _ _ _ _) as [[? ?]| |].
Qed.

(** ** The units in order *)

Fixpoint run_units (us : list (bytes * Z)) (s : h26x_parser_t) (d : D) : outcome result :=
  match us with
  | [] => Done (ZST_OK, s, d)
  | (u, flags) :: us =>
      '(ret, s, d) ← handle_nal stale_size s d u flags;
      if negb (ret =? ZST_OK) then Done (ret, s, d) else run_units us s d
  end.

Definition plain (us : list bytes) : list (bytes * Z) := map (fun u => (u, 0)) us.

Lemma run_units_app us vs s d :
  run_units (us ++ vs) s d =
  ('(ret, s, d) ← run_units us s d; if negb (ret =? ZST_OK) then Done (ret, s, d) else run_units vs s d).
Proof.
  unfold mbind, outcome_bind. revert s d. induction us as [|[u flags] us IH]; intros s d; cbn [app run_units]; [done|].
  unfold mbind, outcome_bind. destruct (handle_nal _ _ _ _ _) as [[[ret s1] d1]| |]; [|done|done].
  destruct (ret =? ZST_OK) eqn:E; cbn [negb]; [apply IH|]. by rewrite E.
Qed.

Lemma run_units_gathers us s d ret s' d' : parser_ok s -> run_units us s d = Done (ret, s', d') -> gathers s s'.
Proof.
  revert s d. induction us as [|[u flags] us IH]; intros s d Hok; cbn [run_units].
  - intros [= <- <- <-]. by apply keeps_gathers.
  - destruct (handle_nal_safe stale_size s d u flags Hok) as (r1 & s1 & d1 & -> & G1). cbn [mbind outcome_bind].
    destruct (negb _); [by intros [= <- <- <-]|]. intros Hr. eapply gathers_trans; [done|]. eapply IH; [by eapply gathers_ok|done].
Qed.

(** Successful runs, with another adapter of the same times. *)
Lemma run_units_adapter a us s d s' d' : same_times a (hp_adapter s) -> parser_ok s ->
  run_units us s d = Done (ZST_OK, s', d') -> run_units us (set_adapter s a) d = Done (ZST_OK, set_adapter s' a, d').
Proof.
  revert s d. induction us as [|[u flags] us IH]; intros s d Ht Hok; cbn [run_units].
  - by intros [= <- <-].
  - rewrite handle_nal_adapter by done. destruct (handle_nal_safe stale_size s d u flags Hok) as (r1 & s1 & d1 & -> & G1).
    unfold map_outcome. cbn [mbind outcome_bind put_adapter]. destruct (negb (r1 =? ZST_OK)) eqn:E; [by intros [= -> ? ?]|].
    apply IH; [|by eapply gathers_ok]. by destruct G1 as (_ & -> & _).
Qed.

(** ** One piece of the stream *)

(** The adapter holds exactly [p]. *)
Definition holds_bytes (s : h26x_parser_t) (p : bytes) : Prop :=
  adapter_len (hp_adapter s) = zlen p /\ match adapter (hp_adapter s) with Some q => q = p | None => p = [] end.

Lemma start_code_find s p i : holds_bytes s p -> 0 <= i ->
  start_code (adapter (hp_adapter s)) (adapter_len (hp_adapter s)) i = Done (find p i).
Proof.
  intros [El Ea] Hi. unfold start_code. rewrite El. destruct (Z.ltb_spec (zlen p) (i + 3)).
  - pose proof (find_spec p i Hi) as Hs. destruct (find p i) as [[j k]|]; [|done]. destruct Hs. lia.
  - destruct (adapter _) as [q|]; [by subst|]. subst p. rewrite zlen_nil in *. lia.
Qed.

Lemma adapter_between s p a b : holds_bytes s p -> 0 <= a -> a <= b <= zlen p ->
  adapter_bytes s a (b - a) = Done (concat (between p a b)).
Proof.
  intros [El Ea] Ha Hb. unfold adapter_bytes, between. destruct (Z.ltb_spec a b); cbn [concat]; rewrite ?app_nil_r.
  - destruct (adapter _) as [q|]; [subst q; apply read_bytes_in; lia|]. subst p. rewrite zlen_nil in *. lia.
  - replace (b - a) with 0 by lia. done.
Qed.

Lemma holds_gathers s s' p : gathers s s' -> holds_bytes s p -> holds_bytes s' p.
Proof. unfold holds_bytes. by intros (_ & -> & _). Qed.

Lemma annexb_loop_cuts fuel p off c us o c' s d s' d' : cuts p off c us o c' ->
  parser_ok s -> holds_bytes s p -> 0 <= off -> 3 <= c -> off + c <= zlen p -> zlen p - off < Z.of_nat fuel ->
  run_units (plain us) s d = Done (ZST_OK, s', d') ->
  annexb_loop stale_size fuel (zlen p) off c s d = Done (ZST_OK, s', d', o, c').
Proof.
  intros Hc. revert fuel s d. induction Hc as [off c E|off c n k us o c' E Hc IH];
    intros fuel s d Hok Hp Ho H3 Hin Hf Hr; (destruct fuel as [|fuel]; [lia|]); cbn [annexb_loop];
    pose proof (start_code_find s p (off + c) Hp ltac:(lia)) as Es; destruct Hp as [El Ea]; rewrite El in Es; rewrite Es, E;
    cbn [mbind outcome_bind]; assert (holds_bytes s p) as Hp by by split.
  - cbn in Hr. by injection Hr as <- <-.
  - pose proof (find_range p (off + c) n k ltac:(lia) E) as (? & ? & ?).
    replace (n - off - c) with (n - (off + c)) by lia. rewrite (adapter_between s p) by (done || lia).
    unfold between in *. destruct (Z.ltb_spec (off + c) n); cbn [app concat plain map run_units] in *.
    + rewrite app_nil_r. cbn [mbind outcome_bind]. destruct (handle_nal_safe stale_size s d (sub_bytes (off + c) (n - (off + c)) p) 0 Hok) as (r1 & s1 & d1 & E1 & G1).
      rewrite E1 in *. cbn [mbind outcome_bind] in *. destruct (negb (r1 =? ZST_OK)) eqn:E2; [by injection Hr as -> -> ->|].
      apply IH; [by eapply gathers_ok|by eapply holds_gathers|lia|lia|lia|lia|done].
    + cbn [mbind outcome_bind]. change (negb (ZST_OK =? ZST_OK)) with false. cbv iota. by apply IH; try lia.
Qed.

Lemma parse_adapter_annexb s d eos : input_format (hp_config s) = H26X_FMT_ANNEXB ->
  parse_adapter stale_size s d eos =
  ('(ret, s, d, off) ← parse_annexb stale_size s d eos;
   if negb (ret =? ZST_OK) then Done (ret, s, d) else s ← consume s off; Done (ZST_OK, s, d)).
Proof.
  intros Hf. unfold parse_adapter, detect_format. rewrite Hf.
  rewrite bool_decide_eq_false_2 by done. cbn [andb]. unfold mbind at 1, outcome_bind at 1. by rewrite Hf.
Qed.

(** A piece that ends no stream: the units complete in it are handled, the rest is left. *)
Lemma parse_piece p us r s d s' d' : splits p us r -> parser_ok s -> holds_bytes s p ->
  input_format (hp_config s) = H26X_FMT_ANNEXB -> run_units (plain us) s d = Done (ZST_OK, s', d') ->
  exists a, parse_adapter stale_size s d false = Done (ZST_OK, set_adapter s' a, d') /\ same_times a (hp_adapter s) /\
    holds_bytes (set_adapter s' a) r /\ adapter_cap a = adapter_cap (hp_adapter s) /\ have_timestamp a = have_timestamp (hp_adapter s).
Proof.
  intros Hs Hok Hp Hfmt Hr. pose proof (run_units_gathers _ _ _ _ _ _ Hok Hr) as G. pose proof Hp as [El Ea].
  rewrite parse_adapter_annexb by done. unfold parse_annexb. rewrite (start_code_find s p 0 Hp) by lia. cbn [mbind outcome_bind].
  destruct Hs as [E|sc k us o c' E Hc]; rewrite E.
  - cbn in Hr. injection Hr as <- <-. rewrite (proj2 (Z.ltb_ge _ (adapter_len _))) by (destruct (po_adapter s Hok); lia).
    cbn. exists (hp_adapter s). unfold consume. cbn. destruct s. cbn. by split_and!.
  - pose proof (find_range p 0 sc k ltac:(lia) E) as (? & ? & ?). rewrite El.
    pose proof (cuts_range p sc k us o c' Hc ltac:(lia) ltac:(lia) ltac:(lia)) as (? & ? & ?).
    rewrite (annexb_loop_cuts _ p sc k us o c' s d s' d' Hc) by (done || lia). cbn.
    unfold consume. pose proof (holds_gathers _ _ _ G Hp) as [El' Ea']. destruct G as (_ & Eh & _). rewrite Eh in *.
    destruct (Z.eqb_spec o 0) as [->|].
    + cbn. exists (hp_adapter s). rewrite <-Eh at 1. split; [by destruct s'|]. rewrite drop_0. by split_and!.
    + unfold adapter_bytes. rewrite Eh. destruct (adapter (hp_adapter s)) as [q|] eqn:Eq; [|subst p; rewrite zlen_nil in *; lia]. subst q.
      rewrite read_bytes_in by lia. cbn. eexists. split; [done|]. split_and!; try done.
      assert (sub_bytes o (adapter_len (hp_adapter s) - o) p = drop (Z.to_nat o) p) as Ed.
      { unfold sub_bytes. rewrite El. apply firstn_all2. rewrite length_drop. unfold zlen. lia. }
      split; cbn; [|done]. rewrite El. unfold zlen. rewrite length_drop. unfold zlen in *. lia.
Qed.

Lemma consume_done s p off : holds_bytes s p -> 0 <= off <= zlen p -> exists a, consume s off = Done (set_adapter s a).
Proof.
  intros [El Ea] Ho. unfold consume, adapter_bytes. destruct (Z.eqb_spec off 0); [exists (hp_adapter s); by destruct s|].
  destruct (adapter _) as [q|]; [|subst p; unfold zlen in Ho; cbn in Ho; lia]. subst q. rewrite read_bytes_in by lia. by eexists.
Qed.

(** The piece that ends the stream: its last unit is handled too, with the flag. *)
Lemma parse_end p us r s d s' d' : splits p us r -> parser_ok s -> holds_bytes s p ->
  input_format (hp_config s) = H26X_FMT_ANNEXB ->
  run_units (plain us ++ map (fun u => (u, ZST_BUFFER_FLAG_EOS)) (last_unit r)) s d = Done (ZST_OK, s', d') ->
  exists a, parse_adapter stale_size s d true = Done (ZST_OK, set_adapter s' a, d').
Proof.
  intros Hs Hok Hp Hfmt Hr. pose proof Hp as [El Ea].
  rewrite parse_adapter_annexb by done. unfold parse_annexb. rewrite (start_code_find s p 0 Hp) by lia. cbn [mbind outcome_bind].
  destruct Hs as [E|sc k us o c' E Hc]; rewrite E.
  - unfold last_unit in Hr. rewrite E in Hr. cbn in Hr. injection Hr as <- <-.
    rewrite (proj2 (Z.ltb_ge _ (adapter_len _))) by (destruct (po_adapter s Hok); lia).
    cbn. exists (hp_adapter s). unfold consume. cbn. by destruct s.
  - pose proof (find_range p 0 sc k ltac:(lia) E) as (? & ? & ?). rewrite El.
    pose proof (cuts_range p sc k us o c' Hc ltac:(lia) ltac:(lia) ltac:(lia)) as (? & ? & ?).
    rewrite (last_unit_cut p sc k us o c' E Hc), run_units_app in Hr.
    destruct (run_units (plain us) s d) as [[[ret1 s1] d1]| |] eqn:E1; [|done|done]. unfold mbind at 1, outcome_bind at 1 in Hr.
    destruct (Z.eqb_spec ret1 ZST_OK) as [->|]; cbn [negb] in Hr; [|by injection Hr as -> ? ?].
    pose proof (run_units_gathers _ _ _ _ _ _ Hok E1) as G1. pose proof (holds_gathers _ _ _ G1 Hp) as Hp1.
    rewrite (annexb_loop_cuts _ p sc k us o c' s d s1 d1 Hc) by (done || lia).
    unfold mbind, outcome_bind. cbn [negb Z.eqb ZST_OK].
    change (negb (ZST_OK =? ZST_OK)) with false. cbn [andb]. cbv iota.
    unfold between in Hr. destruct (Z.ltb_spec (o + c') (zlen p)) as [Hlt|Hge]; cbn [map run_units] in Hr.
    + replace (zlen p - o - c') with (zlen p - (o + c')) by lia. rewrite (adapter_between s1 p) by (done || lia).
      unfold between. rewrite (proj2 (Z.ltb_lt (o + c') (zlen p))) by lia. cbn [concat]. rewrite app_nil_r.
      unfold mbind, outcome_bind in Hr.
      destruct (handle_nal_safe stale_size s1 d1 (sub_bytes (o + c') (zlen p - (o + c')) p) ZST_BUFFER_FLAG_EOS) as (r2 & s2 & d2 & E2 & G2);
        [by eapply gathers_ok|]. rewrite E2 in *. destruct (negb (r2 =? ZST_OK)) eqn:E3; [by injection Hr as -> ? ?|].
      injection Hr as -> ->. destruct (consume_done s' p (zlen p)) as (a & Ec); [by eapply holds_gathers|lia|].
      exists a. change (negb (ZST_OK =? ZST_OK)) with false. cbv iota. by rewrite Ec.
    + injection Hr as -> ->. destruct (consume_done s' p o) as (a & Ec); [done|lia|].
      exists a. change (negb (ZST_OK =? ZST_OK)) with false. cbv iota. by rewrite Ec.
Qed.

(** ** Buffers *)

(** What the adapter still holds is [r]; the block may be longer. *)
Definition holds_rest (s : h26x_parser_t) (r : bytes) : Prop :=
  adapter_len (hp_adapter s) = zlen r /\
  match adapter (hp_adapter s) with Some q => sub_bytes 0 (zlen r) q = r | None => r = [] end.

Lemma holds_bytes_rest s p : holds_bytes s p -> holds_rest s p.
Proof. intros [El Ea]. split; [done|]. destruct (adapter _); [subst; by apply sub_bytes_all|done]. Qed.

(** A buffer of the stream, not a notice that something was dropped. *)
Definition ordinary (eos : bool) (b : zst_buffer) : Prop :=
  buffer_ok b /\ has_flag (buf_flags b) ZST_BUFFER_FLAG_DROP = false /\ has_flag (buf_flags b) ZST_BUFFER_FLAG_EOS = eos.

Lemma buffer_bytes_len b : buffer_ok b -> negb (is_some (mem_data b)) && negb (mem_size b =? 0) = false ->
  zlen (buf_bytes b) = mem_size b.
Proof.
  intros [Hsize [_ Hblock]] E. unfold buf_bytes. destruct (mem_data b); [apply zlen_sub_bytes; lia|].
  cbn in E. apply negb_false_iff, Z.eqb_eq in E as ->. done.
Qed.

(** The bytes of a buffer, with the block they came with. *)
Definition has_block (b : zst_buffer) : Prop := negb (is_some (mem_data b)) && negb (mem_size b =? 0) = false.

Lemma push_fills `{!CMemoryOk} s d b r eos : parser_ok s -> ordinary eos b -> has_block b -> holds_rest s r ->
  zlen r + zlen (buf_bytes b) <= max_buffered_bytes (hp_config s) ->
  exists a, let s1 := set_adapter s a in
    parser_push stale_size s d ZST_MEMORY_CPU b =
      ('(ret, s2, d2) ← parse_adapter stale_size s1 d eos;
       if negb (ret =? ZST_OK) then Done (ret, count_error s2, d2)
       else if eos then Done (flush_au stale_size (or_flags s2 ZST_BUFFER_FLAG_EOS) d2) else Done (ZST_OK, s2, d2)) /\
    holds_bytes s1 (r ++ buf_bytes b) /\ same_times a (hp_adapter (take_times s b)) /\ have_timestamp a = true /\ parser_ok s1.
Proof.
  intros Hok (Hb & Hdrop & Heos) Hblock [El Ea] Hlim. pose proof (buffer_bytes_len b Hb Hblock) as Hz.
  unfold parser_push. rewrite Hblock, Hdrop. change (negb (ZST_MEMORY_CPU =? ZST_MEMORY_CPU) || false) with false. cbv iota.
  set (t := take_times s b).
  assert (parser_ok t) as Hokt by (unfold t, take_times; destruct (have_timestamp _); destruct Hok as [? ? ? ? ?]; by constructor).
  assert (adapter (hp_adapter t) = adapter (hp_adapter s) /\ adapter_len (hp_adapter t) = adapter_len (hp_adapter s) /\
    hp_config t = hp_config s /\ have_timestamp (hp_adapter t) = true /\ forall a, set_adapter t a = set_adapter s a) as (Et1 & Et2 & Et3 & Et4 & Et5).
  { unfold t, take_times. destruct (have_timestamp (hp_adapter s)) eqn:E; by split_and!. }
  pose proof (reserve_append _ _ _ _ (buf_bytes b) (po_adapter t Hokt) (proj1 (po_limits t Hokt))) as Hr. rewrite Hz in Hr.
  destruct (po_limits t Hokt) as [Hl1 _]. pose proof (zlen_nonneg r). pose proof (zlen_nonneg (buf_bytes b)). destruct Hb as [Hsize [Hbytes _]].
  destruct (reserve _ _ _ _ _) as [[block cap]|] eqn:Er.
  2:{ exfalso. revert Er. unfold reserve. rewrite Et2, Et3, El in *.
      rewrite (u64_small (_ - _)), (proj2 (Z.ltb_ge _ (mem_size b))) by lia. destruct (_ <=? _); [done|]. by rewrite malloc_total. }
  destruct Hr as (block' & Happ & Hbo & Hval & Hsome). rewrite Happ. cbn [mbind outcome_bind]. rewrite Et5, Heos.
  eexists. split; [done|]. split_and!; try done.
  - split; cbn; [rewrite zlen_app; lia|]. destruct block' as [q|].
    + rewrite (Hval q eq_refl), Et1, Et2, El. f_equal. destruct (adapter (hp_adapter s)); cbn; [done|]. subst r. done.
    + destruct (buf_bytes b) as [|x l]; [|by destruct Hsome]. destruct Hbo as [Hcap Hcl _]. rewrite Et2, El in Hcl.
      by rewrite (zlen_0 r) by lia.
  - destruct Hokt as [? ? ? ? Hp]. constructor; cbn; rewrite <-?Et3; try done.
    + rewrite Et3. apply Hok.
    + intros q ->. rewrite (Hval q eq_refl). apply bytes_ok_app. split; [|done]. apply bytes_ok_sub.
      destruct (adapter (hp_adapter t)); [by apply Hp|constructor].
Qed.

(** ** The whole stream *)

Fixpoint feed (bs : list zst_buffer) (s : h26x_parser_t) (d : D) : outcome result :=
  match bs with
  | [] => Done (ZST_OK, s, d)
  | b :: bs =>
      '(ret, s, d) ← parser_push stale_size s d ZST_MEMORY_CPU b;
      if negb (ret =? ZST_OK) then Done (ret, s, d) else feed bs s d
  end.

Definition bytes_of (bs : list zst_buffer) : bytes := concat (map buf_bytes bs).

Lemma feed_app bs cs s d s' d' : feed bs s d = Done (ZST_OK, s', d') -> feed (bs ++ cs) s d = feed cs s' d'.
Proof.
  revert s d. induction bs as [|b bs IH]; intros s d; cbn [app feed]; [by intros [= -> ->]|].
  unfold mbind, outcome_bind. destruct (parser_push _ _ _ _ _) as [[[ret s1] d1]| |]; [|done|done].
  destruct (negb (ret =? ZST_OK)) eqn:E; [by intros [= -> ? ?]|]. apply IH.
Qed.

Lemma take_times_done s b : have_timestamp (hp_adapter s) = true -> take_times s b = s.
Proof. unfold take_times. by intros ->. Qed.

Lemma feed_pieces `{!CMemoryOk} bs : forall s d r us t s' d',
  Forall (fun b => ordinary false b /\ has_block b) bs -> parser_ok s -> holds_rest s r ->
  have_timestamp (hp_adapter s) = true -> input_format (hp_config s) = H26X_FMT_ANNEXB ->
  zlen r + zlen (bytes_of bs) <= max_buffered_bytes (hp_config s) ->
  splits (r ++ bytes_of bs) us t -> splits r [] r -> run_units (plain us) s d = Done (ZST_OK, s', d') ->
  exists a, feed bs s d = Done (ZST_OK, set_adapter s' a, d') /\ same_times a (hp_adapter s) /\
    have_timestamp a = true /\ holds_rest (set_adapter s' a) t /\ parser_ok (set_adapter s' a).
Proof.
  induction bs as [|b bs IH]; intros s d r us t s' d' Hbs Hok Hr Hts Hfmt Hlim Hsplit Hself Hrun; cbn [feed].
  - unfold bytes_of in Hsplit. cbn in Hsplit. rewrite app_nil_r in Hsplit.
    destruct (splits_det _ _ _ _ _ Hsplit Hself) as [-> ->]. cbn in Hrun. injection Hrun as <- <-.
    assert (set_adapter s (hp_adapter s) = s) as Es by by destruct s.
    exists (hp_adapter s). rewrite Es. by split_and!.
  - apply Forall_cons in Hbs as [[Hb Hblk] Hbs]. unfold bytes_of in *. cbn [map concat] in *.
    rewrite zlen_app in Hlim. pose proof (zlen_nonneg (concat (map buf_bytes bs))).
    destruct (push_fills s d b r false Hok Hb Hblk Hr) as (a & -> & Hp & Ht & Hta & Hok1); [lia|].
    rewrite (take_times_done s b Hts) in Ht. set (s1 := set_adapter s a) in *.
    destruct (splits_exist (r ++ buf_bytes b)) as (us1 & r1 & Hs1).
    destruct (splits_exist (r1 ++ concat (map buf_bytes bs))) as (vs & t2 & Hs2).
    pose proof (splits_app _ _ _ _ _ _ Hs1 Hs2) as Hall. rewrite <-app_assoc in Hall.
    destruct (splits_det _ _ _ _ _ Hsplit Hall) as [-> ->]. unfold plain in Hrun. rewrite map_app, run_units_app in Hrun.
    destruct (run_units (map _ us1) s d) as [[[ret1 s2] d2]| |] eqn:E1; [|done|done]. unfold mbind, outcome_bind in Hrun.
    destruct (Z.eqb_spec ret1 ZST_OK) as [->|]; cbn [negb] in Hrun; [|by injection Hrun as -> ? ?].
    pose proof (run_units_gathers _ _ _ _ _ _ Hok E1) as G1.
    assert (same_times a (hp_adapter s)) as Hta' by done.
    apply (run_units_adapter a) in E1; [|done|done].
    destruct (parse_piece (r ++ buf_bytes b) us1 r1 s1 d (set_adapter s2 a) d2 Hs1 Hok1 Hp) as (a2 & Epa & Ht2 & Hp2 & _ & Hts2); [done|done|].
    rewrite Epa.
    unfold mbind, outcome_bind. rewrite Z.eqb_refl. cbn [negb].
    change (set_adapter (set_adapter s2 a) a2) with (set_adapter s2 a2) in *.
    change (hp_adapter s1) with a in Ht2, Hts2.
    assert (same_times a2 (hp_adapter s)) as Ht2' by (destruct Ht as (? & ? & ?), Ht2 as (? & ? & ?); repeat split; cbn in *; congruence).
    pose proof (gathers_ok s s2 Hok G1) as Hok2. pose proof G1 as (Ec2 & Ea2 & _).
    assert (parser_ok (set_adapter s2 a2)) as Hok3.
    { destruct (parse_adapter_safe stale_size s1 d false Hok1) as (? & ? & ? & Ep & ?). congruence. }
    destruct (IH (set_adapter s2 a2) d2 r1 vs t2 (set_adapter s' a2) d') as (a3 & -> & Ht3 & Hts3 & Hr3 & Hok5); try done.
    + by apply holds_bytes_rest.
    + cbn. by rewrite Hts2.
    + cbn. by rewrite Ec2.
    + cbn. rewrite Ec2. pose proof (splits_le _ _ _ Hs1) as Hle. rewrite zlen_app in Hle. unfold bytes_of. lia.
    + by eapply splits_rest.
    + apply run_units_adapter; [by rewrite Ea2|done|done].
    + exists a3. split_and!; try done. destruct Ht3 as (? & ? & ?), Ht2' as (? & ? & ?). repeat split; cbn in *; congruence.
Qed.

(** Ready for a stream in the byte-stream format: nothing is held and no time is set. *)
Definition ready (s : h26x_parser_t) : Prop :=
  parser_ok s /\ input_format (hp_config s) = H26X_FMT_ANNEXB /\ adapter_len (hp_adapter s) = 0 /\
  have_timestamp (hp_adapter s) = false.

(** Buffers that carry one stream: the last one, and no other, ends it. *)
Definition stream_of (bs : list zst_buffer) : Prop :=
  exists init last, bs = init ++ [last] /\ Forall (fun b => ordinary false b /\ has_block b) init /\
    ordinary true last /\ has_block last.

Lemma push_timed s d b eos : ordinary eos b -> has_block b ->
  parser_push stale_size s d ZST_MEMORY_CPU b = parser_push stale_size (take_times s b) d ZST_MEMORY_CPU b.
Proof.
  intros (_ & Hdrop & _) Hblk. unfold parser_push. rewrite Hblk, Hdrop.
  by replace (take_times (take_times s b) b) with (take_times s b) by (unfold take_times; by destruct (have_timestamp (hp_adapter s)) eqn:E; rewrite ?E).
Qed.

Lemma run_units_ok_app us vs s d s' d' : run_units (us ++ vs) s d = Done (ZST_OK, s', d') ->
  exists s1 d1, run_units us s d = Done (ZST_OK, s1, d1) /\ run_units vs s1 d1 = Done (ZST_OK, s', d').
Proof.
  rewrite run_units_app. destruct (run_units us s d) as [[[ret s1] d1]| |]; [|done|done]. unfold mbind, outcome_bind.
  destruct (Z.eqb_spec ret ZST_OK) as [->|]; cbn [negb]; [by eexists _, _|by intros [= -> ? ?]].
Qed.

Lemma feed_stream `{!CMemoryOk} f bs s d s1 d1 : ready s -> stream_of (f :: bs) ->
  zlen (bytes_of (f :: bs)) <= max_buffered_bytes (hp_config s) ->
  run_units (annexb_units (bytes_of (f :: bs))) (take_times s f) d = Done (ZST_OK, s1, d1) ->
  exists a, feed (f :: bs) s d = Done (put_adapter a (flush_au stale_size (or_flags s1 ZST_BUFFER_FLAG_EOS) d1)).
Proof.
  intros (Hok & Hfmt & Hlen & Hts) (init & last & Ebs & Hinit & Hlast & Hblk) Hlim Hrun.
  set (s0 := take_times s f) in *.
  assert (feed (f :: bs) s d = feed (f :: bs) s0 d) as ->.
  { cbn [feed]. f_equal. apply (push_timed s d f (match init with [] => true | _ => false end));
      destruct init as [|g init]; injection Ebs as -> ->; try done; by apply Forall_cons in Hinit as [[? ?] _]. }
  assert (parser_ok s0 /\ holds_rest s0 [] /\ have_timestamp (hp_adapter s0) = true /\ hp_config s0 = hp_config s) as (Hok0 & Hr0 & Hts0 & Ec0).
  { unfold s0, take_times. rewrite Hts. split_and!; [destruct Hok as [? ? ? ? ?]; by constructor| |done|done].
    split; cbn; [by rewrite zlen_nil|]. by destruct (adapter (hp_adapter s)). }
  rewrite Ebs in *. clearbody s0. clear Ebs. unfold bytes_of in *. rewrite map_app, concat_app in *. cbn [map concat] in *. rewrite app_nil_r in *.
  destruct (splits_exist (bytes_of init)) as (us & r & Hs1). destruct (splits_exist (r ++ buf_bytes last)) as (vs & t & Hs2).
  pose proof (splits_app _ _ _ _ _ _ Hs1 Hs2) as Hall. unfold bytes_of in *. rewrite (units_splits _ _ _ Hall) in Hrun.
  rewrite map_app, <-app_assoc in Hrun. apply run_units_ok_app in Hrun as (s2 & d2 & E1 & E2).
  rewrite zlen_app in Hlim. pose proof (zlen_nonneg (buf_bytes last)).
  destruct (feed_pieces init s0 d [] us r s2 d2) as (a & Ef & Ht & Hta & Hr & Hok3); try done;
    [by rewrite Ec0|rewrite Ec0, zlen_nil; unfold bytes_of; lia|by apply splits_none|].
  rewrite (feed_app init [last] s0 d _ _ Ef). cbn [feed].
  pose proof (run_units_gathers _ _ _ _ _ _ Hok0 E1) as G1. pose proof (gathers_ok _ _ Hok0 G1) as Hok2. pose proof G1 as (Ec2 & Ea2 & _).
  pose proof (splits_le _ _ _ Hs1) as Hle. unfold bytes_of in Hle.
  destruct (push_fills (set_adapter s2 a) d2 last r true Hok3 Hlast Hblk Hr) as (a2 & -> & Hp & Ht2 & _ & Hok4); [cbn; rewrite Ec2, Ec0; lia|].
  rewrite (take_times_done (set_adapter s2 a) last Hta) in Ht2. change (set_adapter (set_adapter s2 a) a2) with (set_adapter s2 a2) in *.
  destruct (parse_end (r ++ buf_bytes last) vs t (set_adapter s2 a2) d2 (set_adapter s1 a2) d1 Hs2 Hok4 Hp) as (a3 & ->);
    [cbn; by rewrite Ec2, Ec0| |].
  { apply run_units_adapter; [|done|done]. rewrite Ea2. destruct Ht as (? & ? & ?), Ht2 as (? & ? & ?). repeat split; cbn in *; congruence. }
  exists a3. unfold mbind, outcome_bind. rewrite Z.eqb_refl. cbn [negb]. change (set_adapter (set_adapter s1 a2) a3) with (set_adapter s1 a3).
  change (or_flags (set_adapter s1 a3) ZST_BUFFER_FLAG_EOS) with (set_adapter (or_flags s1 ZST_BUFFER_FLAG_EOS) a3).
  rewrite flush_adapter. destruct (flush_au _ _ _) as [[ret s5] d5]. cbn [put_adapter].
  by destruct (Z.eqb_spec ret ZST_OK) as [->|].
Qed.
End stream.
