(* ===== verification/H26xOutput.v ===== *)
(** * What the H.264 and H.265 parser sends: [H26xParser]

    A source pad that keeps what it is given; the theorems of the parser; and the inputs
    it does not handle as its documentation says. *)

From Stdlib Require Import String SpecFloat.
From S2P Require Import Prelude CLib Pad MediaUtils Caps CapsSpec Graph PadOps H26xBits H26xBitsSpec H26xParser H26xSpec H26xStream.

Local Open Scope Z_scope.

(** ** A source pad that keeps what is sent *)

Inductive sent := SentBuffer (b : zst_buffer) | SentEvent (ev : zst_pad_event_t).

#[export] Instance sent_pad : SrcPad (list sent) := {|
  src_linked _ := true;
  src_push d b := (ZST_OK, d ++ [SentBuffer b]);
  src_event d ev := (ZST_OK, d ++ [SentEvent ev]);
  src_get_caps _ := None;
  src_caps_changed d _ _ := d;
|}.

Definition buffers_of (d : list sent) : list zst_buffer :=
  omap (fun x => match x with SentBuffer b => Some b | SentEvent _ => None end) d.

(** The bytes of the buffers sent, in order. *)
Definition payload_of (d : list sent) : bytes := concat (map buf_bytes (buffers_of d)).

Lemma buffers_of_app d e : buffers_of (d ++ e) = buffers_of d ++ buffers_of e.
Proof. apply omap_app. Qed.

Lemma payload_of_app d e : payload_of (d ++ e) = payload_of d ++ payload_of e.
Proof. unfold payload_of. by rewrite buffers_of_app, map_app, concat_app. Qed.

(** ** With memory, capabilities are always sent *)

Section output.
Context `{CMemoryOk} (stale_size : caps_value -> Z).

Definition single (caps : option zst_caps_t) : Prop := exists s, caps = Some [s].

Lemma copied_field_ok dest src : (caps_field_copy stale_size dest src).1 = ZST_OK.
Proof.
  unfold caps_field_copy. rewrite ?malloc_total.
  destruct (f_value src) as [| | |[v|]| |[data|] size]; try done. destruct (0 <? size); [|done]. by rewrite malloc_total.
Qed.

Lemma set_first_single upd key v caps : single caps ->
  (set_first stale_size upd key v caps).1 = ZST_OK /\ single (set_first stale_size upd key v caps).2.
Proof.
  intros [s ->]. unfold set_first, caps_struct_set_field. rewrite malloc_total, andb_false_r.
  destruct (find_index _ _) as [i|].
  - match goal with |- context [caps_field_copy _ ?a ?b] => pose proof (copied_field_ok a b) as E; destruct (caps_field_copy _ a b) as [ret f] end.
    cbn in *. split; [done|by eexists].
  - match goal with |- context [caps_field_copy _ ?a ?b] => pose proof (copied_field_ok a b) as E; destruct (caps_field_copy _ a b) as [ret f] end.
    cbn in E. subst ret. cbn. split; [done|by eexists].
Qed.

Lemma describe_single s caps : single caps -> single (describe stale_size s caps).
Proof. intros Hc. unfold describe. by repeat apply set_first_single. Qed.

Lemma describe_h264_single s caps : single caps ->
  (describe_h264 stale_size s caps).1 = ZST_OK /\ single (describe_h264 stale_size s caps).2.
Proof.
  intros Hc. unfold describe_h264.
  set (caps1 := if SFltb _ _ then _ else _). assert (single caps1) as H1 by (unfold caps1; destruct (SFltb _ _); [by apply set_first_single|done]).
  destruct (_ && _); [|done]. rewrite malloc_total. by apply set_first_single.
Qed.

Lemma push_caps_sends s (d : list sent) : exists s' d', push_caps stale_size s d = (ZST_OK, s', d') /\ keeps s s' /\ buffers_of d' = buffers_of d.
Proof.
  pose proof (push_caps_keeps stale_size s d) as Hk. revert Hk. unfold push_caps.
  destruct (_ || _); [by eexists _, _|]. destruct (_ && _); [by eexists _, _|].
  unfold zst_caps_new_simple. rewrite !malloc_total. cbn [andb].
  match goal with |- context [describe stale_size s (Some ?c)] => assert (single (describe stale_size s (Some c))) as Hd by (apply describe_single; by eexists) end.
  set (caps := describe _ _ _) in *.
  assert ((if is_h264 s then describe_h264 stale_size s caps else (ZST_OK, caps)).1 = ZST_OK) as Hr
    by (destruct (is_h264 s); [by apply describe_h264_single|done]).
  destruct (if is_h264 s then _ else _) as [ret c]. cbn in Hr. subst ret. rewrite Z.eqb_refl. cbn [negb].
  rewrite ?malloc_total. cbn [negb]. rewrite andb_false_r. unfold zst_pad_event_new_caps, new_event. rewrite malloc_total.
  cbn [src_event sent_pad src_caps_changed]. intros Hk. eexists _, _. split; [done|]. split; [done|].
  rewrite buffers_of_app. cbn. by rewrite app_nil_r.
Qed.

(** ** The bytes a unit adds *)

(** The bytes gathered, not sent yet. *)
Definition gathered (s : h26x_parser_t) : bytes := sub_bytes 0 (hau_len (hp_au s)) (default [] (hau (hp_au s))).

(** What is sent and what is gathered, as one stream. *)
Definition stream_so_far (s : h26x_parser_t) (d : list sent) : bytes := payload_of d ++ gathered s.

Lemma keeps_gathered s s' : keeps s s' -> gathered s' = gathered s.
Proof. unfold gathered. by intros (_ & _ & ->). Qed.

Lemma payload_same d d' : buffers_of d' = buffers_of d -> payload_of d' = payload_of d.
Proof. unfold payload_of. by intros ->. Qed.

Lemma flush_sends s (d : list sent) : parser_ok s -> exists s' d', flush_au stale_size s d = (ZST_OK, s', d') /\
  stream_so_far s' d' = stream_so_far s d /\ gathered s' = [] /\ hau_len (hp_au s') = 0 /\
  (hau_len (hp_au s) = 0 -> s' = s /\ d' = d).
Proof.
  intros Hok. unfold flush_au, stream_so_far. destruct (Z.eqb_spec (hau_len (hp_au s)) 0) as [E|E].
  { assert (gathered s = []) as Eg by (unfold gathered; by rewrite E). exists s, d. by rewrite Eg. }
  destruct (push_caps_sends s d) as (s1 & d1 & -> & Hk & Hb). rewrite Z.eqb_refl. cbn [negb].
  rewrite malloc_total. cbn [negb]. unfold push_out. cbn [src_linked sent_pad src_push].
  eexists _, _. split; [done|]. destruct Hk as (_ & _ & Ea). split; [|by split_and!].
  unfold gathered at 1. cbn. rewrite app_nil_r, payload_of_app, (payload_same _ _ Hb). f_equal.
  unfold payload_of. cbn. rewrite app_nil_r. unfold buf_bytes, gathered. cbn. rewrite Ea.
  pose proof (bo_block _ _ _ _ (po_au s Hok)) as Hau. destruct (hau (hp_au s)); [done|].
  pose proof (bo_len _ _ _ _ (po_au s Hok)). lia.
Qed.

Lemma append_au_sends s k nal flags : parser_ok s -> hau_len (hp_au s) + zlen nal + 4 <= max_au_size (hp_config s) ->
  exists s', append_au s k nal flags = Done (ZST_OK, s') /\ gathered s' = gathered s ++ START4 ++ nal /\
    hau_len (hp_au s') = hau_len (hp_au s) + zlen nal + 4.
Proof.
  intros Hok Hroom. unfold append_au. set (u := if _ =? 0 then _ else _).
  assert (hau u = hau (hp_au s) /\ hau_len u = hau_len (hp_au s) /\ hau_cap u = hau_cap (hp_au s)) as (Eu1 & Eu2 & Eu3)
    by (unfold u; by destruct (_ =? 0)).
  rewrite Eu1, Eu2, Eu3. destruct (po_limits s Hok) as [_ Hl]. pose proof (bo_len _ _ _ _ (po_au s Hok)). pose proof (zlen_nonneg nal).
  pose proof (reserve_append _ _ _ _ (START4 ++ nal) (po_au s Hok) Hl) as Hr.
  assert (zlen (START4 ++ nal) = zlen nal + 4) as Ez by (rewrite zlen_app; change (zlen START4) with 4; lia). rewrite Ez in Hr.
  destruct (reserve _ _ _ _ _) as [[block cap]|] eqn:Er.
  2:{ exfalso. revert Er. unfold reserve. rewrite (u64_small (_ - _)), (proj2 (Z.ltb_ge _ (zlen nal + 4))) by lia.
      destruct (_ <=? _); [done|]. by rewrite malloc_total. }
  destruct Hr as (b & Happ & Hbo & Hval & Hsome). rewrite Happ. cbn [mbind outcome_bind].
  eexists. split; [done|]. unfold gathered. cbn [hp_au set_au hau_len hau]. split; [|lia]. destruct b as [q|]; [|by destruct Hsome].
  cbn [from_option id]. rewrite (Hval q eq_refl). apply sub_bytes_all. rewrite zlen_app, Ez, zlen_sub_bytes; [lia|lia|lia|].
  pose proof (bo_block _ _ _ _ (po_au s Hok)). destruct (hau (hp_au s)); cbn [from_option id]; [lia|]. unfold zlen. cbn. lia.
Qed.

Lemma emit_sends s (d : list sent) nal pts dts duration flags : exists s' d',
  emit stale_size s d nal pts dts duration flags = (ZST_OK, s', d') /\ keeps s s' /\
  buffers_of d' = buffers_of d ++ [mk_buffer ZST_BUFFER_VIDEO_PACKET flags pts dts duration (Some (START4 ++ nal)) (zlen nal + 4)].
Proof.
  unfold emit. destruct (push_caps_sends s d) as (s1 & d1 & -> & Hk & Hb). rewrite Z.eqb_refl. cbn [negb].
  rewrite !malloc_total. cbn [negb orb]. unfold push_out. cbn [src_linked sent_pad src_push].
  eexists _, _. split; [done|]. split; [done|]. by rewrite buffers_of_app, Hb.
Qed.

(** A unit as a buffer of its own, with the times of the adapter. *)
Definition unit_buffer (a : h26x_adapter) (nal : bytes) (flags : Z) : zst_buffer :=
  mk_buffer ZST_BUFFER_VIDEO_PACKET flags (adapter_pts a) (adapter_dts a) (adapter_duration a) (Some (START4 ++ nal)) (zlen nal + 4).

Lemma unit_buffer_bytes a nal flags : buf_bytes (unit_buffer a nal flags) = START4 ++ nal.
Proof. apply sub_bytes_all. cbn [mem_size unit_buffer]. unfold zlen. rewrite length_app. cbn [length START4]. lia. Qed.

Lemma store_ps_ok s k nal : (store_ps s k nal).1 = true.
Proof.
  unfold store_ps. destruct (nk_ps k) as [ps|]; [|done]. destruct (is_h264 s).
  - assert (0 <= (if nk_type k =? 7 then cache_h264_sps s nal else cache_h264_pps s nal).1) as Hv.
    { destruct (nk_type k =? 7).
      - unfold cache_h264_sps. destruct (parse_h264_sps nal) as [[? ?]|]; [|done]. destruct (_ <=? _); [done|].
        destruct (_ && _); [done|]. by rewrite malloc_total.
      - unfold cache_h264_pps. destruct (parse_h264_pps nal) as [[? ?]|]; [|done].
        destruct (_ && _); [done|]. by rewrite malloc_total. }
    destruct (if nk_type k =? 7 then _ else _) as [v s1]. cbn in Hv. destruct (v =? 0); [done|].
    by rewrite (proj2 (Z.ltb_ge v 0)).
  - unfold cache_h265_ps. rewrite malloc_total. cbn [negb].
    destruct (same_nal _ _); (destruct (_ && _); [|done]); by destruct (parse_h265_format _ _).
Qed.

Lemma handle_nal_sends s (d : list sent) nal flags : parser_ok s -> 0 < zlen nal ->
  hau_len (hp_au s) + zlen nal + 4 <= max_au_size (hp_config s) ->
  (aggregate_au (hp_config s) = false -> hau_len (hp_au s) = 0) ->
  exists s' d', handle_nal stale_size s d nal flags = Done (ZST_OK, s', d') /\ gathers s s' /\
    stream_so_far s' d' = stream_so_far s d ++ START4 ++ nal /\ hau_len (hp_au s') <= hau_len (hp_au s) + zlen nal + 4 /\
    (aggregate_au (hp_config s) = false -> hau_len (hp_au s') = 0 /\
       exists fl, buffers_of d' = buffers_of d ++ [unit_buffer (hp_adapter s) nal fl]).
Proof.
  intros Hok Hn Hroom Hagg. unfold handle_nal. rewrite (proj2 (Z.eqb_neq (zlen nal) 0)) by lia.
  set (k := classify s nal). pose proof (bo_len _ _ _ _ (po_au s Hok)) as Hlen.
  (* a flush, at either place *)
  assert (forall (c : bool) s1 d1, parser_ok s1 -> gathers s s1 -> hau_len (hp_au s1) <= hau_len (hp_au s) -> exists s' d',
    (if c then flush_au stale_size s1 d1 else (ZST_OK, s1, d1)) = (ZST_OK, s', d') /\ gathers s s' /\
    stream_so_far s' d' = stream_so_far s1 d1 /\ hau_len (hp_au s') <= hau_len (hp_au s) /\
    (hau_len (hp_au s1) = 0 -> hau_len (hp_au s') = 0 /\ d' = d1)) as Hflush.
  { intros c s1 d1 Hok1 G1 Hl1. destruct c; [|exists s1, d1; by split_and!].
    destruct (flush_sends s1 d1 Hok1) as (s' & d' & E & Hs & _ & Hz & Hsame). pose proof (flush_gathers stale_size s1 d1 Hok1) as Hg.
    rewrite E in *. exists s', d'. split_and!; try done; [by eapply gathers_trans|lia|]. intros E0. by destruct (Hsame E0) as [-> ->]. }
  destruct (Hflush (starts_au s k) s d Hok ltac:(by apply keeps_gathers) ltac:(lia)) as (s1 & d1 & -> & G1 & Hs1 & Hl1 & H01).
  rewrite Z.eqb_refl. cbn [negb].
  pose proof (store_ps_keeps s1 k nal) as Hk2. destruct (store_ps s1 k nal) as [ok s2] eqn:Est. cbn [snd] in Hk2.
  assert (ok = true) as -> by (change ok with ((ok, s2).1); rewrite <-Est; apply store_ps_ok). cbn [negb].
  set (s3 := count_nal s2). assert (keeps s1 s3) as Hk3 by done.
  pose proof (gathers_ok _ _ Hok G1) as Hok1. pose proof (unit_keeps_ok _ _ Hok1 Hk3) as Hok3.
  assert (gathers s s3) as G3 by (eapply gathers_trans; [done|by apply keeps_gathers]).
  assert (hau_len (hp_au s3) = hau_len (hp_au s1)) as E3 by (by destruct Hk3 as (_ & _ & ->)).
  destruct (Hflush (nk_vcl k && nk_first k && hau_has_vcl (hp_au s3)) s3 d1 Hok3 G3 ltac:(lia)) as (s4 & d4 & -> & G4 & Hs4 & Hl4 & H04).
  rewrite Z.eqb_refl. cbn [negb]. set (s5 := match nk_slice k with Some _ => _ | None => _ end).
  assert (keeps s4 s5) as Hk5 by (unfold s5; destruct (nk_slice k) as [[m id]|]; [|done]; destruct (is_h264 s4 && nk_first k); [apply activate_keeps|done]).
  pose proof (gathers_ok _ _ Hok G4) as Hok4. pose proof (unit_keeps_ok _ _ Hok4 Hk5) as Hok5.
  assert (gathers s s5) as G5 by (eapply gathers_trans; [done|by apply keeps_gathers]). pose proof G5 as (Ec5 & Ea5 & _).
  assert (stream_so_far s5 d4 = stream_so_far s d) as Hs5.
  { unfold stream_so_far in *. rewrite (keeps_gathered _ _ Hk5), Hs4, (keeps_gathered _ _ Hk3). done. }
  assert (hau_len (hp_au s5) = hau_len (hp_au s4)) as E5 by (by destruct Hk5 as (_ & _ & ->)).
  rewrite Ec5. destruct (aggregate_au (hp_config s)) eqn:Eagg; cbn [negb].
  - destruct (append_au_sends s5 k nal (if nk_key k then Z.lor (Z.land flags ZST_BUFFER_FLAG_EOS) ZST_BUFFER_FLAG_KEYFRAME else Z.land flags ZST_BUFFER_FLAG_EOS) Hok5)
      as (s6 & E6 & Hg6 & Hl6); [rewrite Ec5; lia|].
    destruct (append_au_safe s5 k nal (if nk_key k then Z.lor (Z.land flags ZST_BUFFER_FLAG_EOS) ZST_BUFFER_FLAG_KEYFRAME else Z.land flags ZST_BUFFER_FLAG_EOS) Hok5)
      as (r7 & s7 & E7 & G7). rewrite E6 in E7. injection E7 as <- <-. rewrite E6. cbn [mbind outcome_bind].
    eexists _, _. split; [done|]. split; [by eapply gathers_trans|]. split; [|split; [lia|done]].
    unfold stream_so_far in *. by rewrite Hg6, app_assoc, Hs5.
  - match goal with |- context [emit _ s5 d4 nal ?a ?b ?c ?fl] => destruct (emit_sends s5 d4 nal a b c fl) as (s6 & d6 & E6 & Hk6 & Hb6) end.
    rewrite E6. eexists _, _. split; [done|]. specialize (Hagg eq_refl). destruct (H01 Hagg) as [E1 ->].
    destruct H04 as [E4 ->]; [lia|]. assert (hau_len (hp_au s6) = 0) as E60 by (destruct Hk6 as (_ & _ & ->); lia).
    split; [eapply gathers_trans; [done|by apply keeps_gathers]|]. split; [|split; [lia|intros _; split; [done|]]].
    + assert (forall s, hau_len (hp_au s) = 0 -> gathered s = []) as Hempty by (intros x E; unfold gathered; by rewrite E).
      unfold stream_so_far. rewrite (Hempty s6), (Hempty s), !app_nil_r by lia. unfold payload_of. rewrite Hb6, map_app, concat_app.
      f_equal. cbn [map concat]. rewrite app_nil_r. apply (unit_buffer_bytes (hp_adapter s5)).
    + rewrite Ea5 in Hb6. by eexists.
Qed.

(** ** All units of a stream *)

(** A stream behind four-byte start codes. *)
Definition normalized (nals : list bytes) : bytes := concat (map (fun nal => START4 ++ nal) nals).

Lemma run_units_sends us : forall s (d : list sent), parser_ok s -> Forall (fun u => 0 < zlen u.1) us ->
  hau_len (hp_au s) + zlen (normalized (map fst us)) <= max_au_size (hp_config s) ->
  (aggregate_au (hp_config s) = false -> hau_len (hp_au s) = 0) ->
  exists s' d', run_units stale_size us s d = Done (ZST_OK, s', d') /\ gathers s s' /\
    stream_so_far s' d' = stream_so_far s d ++ normalized (map fst us) /\
    (aggregate_au (hp_config s) = false -> hau_len (hp_au s') = 0 /\
       exists bs, buffers_of d' = buffers_of d ++ bs /\
         Forall2 (fun u b => exists fl, b = unit_buffer (hp_adapter s) u.1 fl) us bs).
Proof.
  induction us as [|[nal flags] us IH]; intros s d Hok Hus Hroom Hagg; cbn [run_units map fst] in *.
  - exists s, d. split; [done|]. split; [by apply keeps_gathers|]. split; [by rewrite app_nil_r|].
    intros E. split; [by apply Hagg|]. exists []. by rewrite app_nil_r.
  - apply Forall_cons in Hus as [Hn Hus]. unfold normalized in Hroom. cbn [map concat fst] in *.
    rewrite !zlen_app in Hroom. change (zlen START4) with 4 in Hroom. pose proof (zlen_nonneg (concat (map (fun nal => START4 ++ nal) (map fst us)))).
    destruct (handle_nal_sends s d nal flags Hok Hn) as (s1 & d1 & -> & G1 & Hs1 & Hl1 & Hb1); [lia|done|].
    unfold mbind, outcome_bind. rewrite Z.eqb_refl. cbn [negb]. pose proof G1 as (Ec & Ea & _).
    destruct (IH s1 d1) as (s2 & d2 & -> & G2 & Hs2 & Hb2); [by eapply gathers_ok|done|rewrite Ec; unfold normalized; lia| |].
    { rewrite Ec. intros E. by apply Hb1. }
    exists s2, d2. split; [done|]. split; [by eapply gathers_trans|]. split.
    + rewrite Hs2, Hs1. unfold normalized. cbn [map concat]. by rewrite <-!app_assoc.
    + intros E. rewrite Ec, Ea in Hb2. destruct (Hb1 E) as (_ & fl & E1). destruct (Hb2 E) as (Hz & bs & E2 & Hbs).
      split; [done|]. exists (unit_buffer (hp_adapter s) nal fl :: bs). split; [by rewrite E2, E1, <-app_assoc|].
      constructor; [by exists fl|done].
Qed.
End output.

(** The units of a stream an encoder wrote are its NAL units. *)
Lemma code_in_at p i : i + 3 <= zlen p -> code_in p i = start_code_at p (zlen p) i.
Proof.
  intros Hi. unfold code_in, code_at, start_code_at. rewrite (proj2 (Z.ltb_lt (i + 2) (zlen p))) by lia.
  destruct (_ && _); cbn [andb]; [|done]. destruct (_ =? 1); [done|]. by rewrite (andb_comm (i + 3 <? _)).
Qed.

Lemma find_zst p i : 0 <= i -> find p i =
  let '(j, k) := zst_find_start_code p (zlen p) i in if j =? -1 then None else Some (j, k).
Proof.
  intros Hi. pose proof (find_spec p i Hi) as Hs. destruct (find p i) as [[j k]|].
  - destruct Hs as [H1 H2 H3 H4 H5]. rewrite (find_start_code_leftmost p (zlen p) i j k Hi).
    + by rewrite (proj2 (Z.eqb_neq j (-1))) by lia.
    + rewrite code_in_at in H3 by done. pose proof (start_code_at_cases p (zlen p) j). split_and!; [done|done|lia|].
      intros m Hm. destruct (Z.leb_spec (m + 3) (zlen p)); [|apply start_code_at_end; lia]. rewrite <-code_in_at by done. by apply H5.
  - rewrite find_start_code_none; [done|done|]. intros m Hm.
    destruct (Z.leb_spec (m + 3) (zlen p)); [|apply start_code_at_end; lia]. rewrite <-code_in_at by done. by apply Hs.
Qed.

Lemma between_nal pre nal rest : 0 < zlen nal -> between (pre ++ nal ++ rest) (zlen pre) (zlen pre + zlen nal) = [nal].
Proof.
  intros Hn. pose proof (between_shift pre (nal ++ rest) 0 (zlen nal) ltac:(lia)) as Hb. rewrite Z.add_0_r in Hb. rewrite Hb.
  rewrite between_app by lia. unfold between. rewrite (proj2 (Z.ltb_lt 0 _)) by lia. by rewrite sub_bytes_all by lia.
Qed.

Lemma cut_annexb l : forall pre long nal fuel, nal_ok nal -> Forall (fun x => nal_ok x.2) l ->
  zlen (MediaUtils.start_code long ++ nal ++ annexb l) < Z.of_nat fuel + 3 ->
  map fst (cut_units fuel (pre ++ MediaUtils.start_code long ++ nal ++ annexb l) (zlen pre) (zlen (MediaUtils.start_code long))) =
  nal :: map snd l.
Proof.
  induction l as [|[long2 nal2] l IH]; intros pre long nal fuel Hn Hl Hf; pose proof (zlen_start_code long) as Hlong;
    pose proof (nal_nonempty nal Hn) as Hpos; rewrite !zlen_app in Hf; 
    (destruct fuel as [|fuel]; [match type of Hf with context [annexb ?x] => pose proof (zlen_nonneg (annexb x)) end; lia|]);
    cbn [cut_units]; rewrite (app_assoc pre), <-(zlen_app pre).
  - rewrite find_zst by apply zlen_nonneg. rewrite (find_after_nal _ nal [] Hn). cbn [Z.eqb Pos.eqb annexb map].
    generalize (pre ++ MediaUtils.start_code long). intros q. rewrite !zlen_app. change (zlen (@nil Z)) with 0. rewrite Z.add_0_r. by rewrite (between_nal q nal []).
  - apply Forall_cons in Hl as [Hn2 Hl]. rewrite find_zst by apply zlen_nonneg. rewrite (find_after_nal _ nal ((long2, nal2) :: l) Hn).
    generalize (pre ++ MediaUtils.start_code long). intros q. pose proof (zlen_nonneg q). rewrite (proj2 (Z.eqb_neq _ (-1))) by lia.
    rewrite map_app, (between_nal q nal) by done. cbn [map fst snd app]. f_equal. rewrite <-zlen_app.
    cbn [annexb]. rewrite (app_assoc q nal). apply IH; [done|done|]. cbn [annexb] in Hf. rewrite !zlen_app in *. lia.
Qed.

Lemma units_annexb l : Forall (fun x => nal_ok x.2) l -> map fst (annexb_units (annexb l)) = map snd l.
Proof.
  intros Hl. destruct l as [|[long nal] l]; [done|]. apply Forall_cons in Hl as [Hn Hl].
  unfold annexb_units. rewrite find_zst, find_first by lia. cbn [Z.eqb map snd].
  change (annexb ((long, nal) :: l)) with ([] ++ MediaUtils.start_code long ++ nal ++ annexb l). change 0 with (zlen (@nil Z)) at 1.
  apply cut_annexb; [done|done|]. unfold zlen. cbn [app]. lia.
Qed.

(** ** Theorems

    The time a unit is sent with is that of the first buffer of what is in the adapter; the
    theorems are about streams all of whose pieces carry one time, where this is the time
    of the buffer in which the unit begins. *)

Definition same_times (f b : zst_buffer) : Prop :=
  buf_pts b = buf_pts f /\ buf_dts b = buf_dts f /\ buf_duration b = buf_duration f.

(** C7. However a stream in the byte-stream format is cut into buffers that all carry the same
    times, the parser does what handling the units of the whole stream in order does, the last
    of them with the end-of-stream flag, and then sends what is gathered. The parser is opened
    and holds nothing, the format is set, the stream is not longer than max-buffered-bytes,
    every unit is accepted (none is refused by the pad behind), and memory does not fail. *)
Theorem any_cut_same `{CMemoryOk} {D} `{SrcPad D} stale_size f bs s (d : D) s1 d1 :
  ready s -> stream_of (f :: bs) -> Forall (same_times f) bs ->
  zlen (bytes_of (f :: bs)) <= max_buffered_bytes (hp_config s) ->
  run_units stale_size (annexb_units (bytes_of (f :: bs))) (take_times s f) d = Done (ZST_OK, s1, d1) ->
  exists a, feed stale_size (f :: bs) s d =
    Done (put_adapter a (flush_au stale_size (or_flags s1 ZST_BUFFER_FLAG_EOS) d1)).
Proof. intros. by apply feed_stream. Qed.

(** C24. NAL units behind start codes of three or four bytes, cut anywhere into buffers that
    all carry the same times, come out in order, each behind four bytes; none is lost, whether
    the parser sends units or gathers access units. Sent by units, each is a buffer with these
    times. The stream fits max-buffered-bytes and what comes out fits the limit of an access
    unit; the pad behind accepts every buffer, and memory does not fail. *)
Theorem stream_normalized `{CMemoryOk} stale_size f bs s (d : list sent) l :
  ready s -> hau_len (hp_au s) = 0 -> stream_of (f :: bs) -> Forall (same_times f) bs -> bytes_of (f :: bs) = annexb l -> Forall (fun x => nal_ok x.2) l ->
  zlen (annexb l) <= max_buffered_bytes (hp_config s) -> zlen (normalized (map snd l)) <= max_au_size (hp_config s) ->
  exists s' d', feed stale_size (f :: bs) s d = Done (ZST_OK, s', d') /\
    payload_of d' = payload_of d ++ normalized (map snd l) /\
    (aggregate_au (hp_config s) = false -> exists out, buffers_of d' = buffers_of d ++ out /\
       Forall2 (fun nal b => exists flags, b = mk_buffer ZST_BUFFER_VIDEO_PACKET flags (buf_pts f) (buf_dts f)
                                                 (buf_duration f) (Some (START4 ++ nal)) (zlen nal + 4)) (map snd l) out).
Proof.
  intros Hready Hau Hstream _ Hbytes Hl Hlim1 Hlim2. pose proof Hready as (Hok & _ & _ & Hts).
  set (s0 := take_times s f). assert (parser_ok s0 /\ hp_au s0 = hp_au s /\ hp_config s0 = hp_config s /\
    adapter_pts (hp_adapter s0) = buf_pts f /\ adapter_dts (hp_adapter s0) = buf_dts f /\ adapter_duration (hp_adapter s0) = buf_duration f)
    as (Hok0 & Eu & Ec & Et1 & Et2 & Et3).
  { unfold s0, take_times. rewrite Hts. split_and!; try done. destruct Hok as [? ? ? ? ?]. by constructor. }
  pose proof (units_annexb l Hl) as Hunits.
  assert (gathered s0 = []) as Eg by (unfold gathered; by rewrite Eu, Hau).
  destruct (run_units_sends stale_size (annexb_units (annexb l)) s0 d Hok0) as (s1 & d1 & Hrun & G1 & Hs1 & Hb1).
  - assert (Forall (fun u => 0 < zlen u) (map fst (annexb_units (annexb l)))) as Hf.
    { rewrite Hunits. clear -Hl. induction Hl as [|x l Hx Hl IH]; constructor; [apply Hx|done]. }
    by rewrite Forall_map in Hf.
  - rewrite Hunits, Eu, Hau, Ec. lia.
  - by rewrite Eu.
  - rewrite Hunits in Hs1. rewrite <-Hbytes in Hrun.
    destruct (feed_stream stale_size f bs s d s1 d1 Hready Hstream) as (a & ->); [by rewrite Hbytes|done|].
    pose proof (or_flags_ok s1 ZST_BUFFER_FLAG_EOS (gathers_ok _ _ Hok0 G1)) as Hok1.
    destruct (flush_sends stale_size (or_flags s1 ZST_BUFFER_FLAG_EOS) d1 Hok1) as (s2 & d2 & -> & Hs2 & Hg2 & _ & Hsame).
    cbn [put_adapter]. eexists _, _. split; [done|]. split.
    + unfold stream_so_far in *. rewrite Hg2, app_nil_r in Hs2. rewrite Hs2. change (gathered (or_flags s1 _)) with (gathered s1).
      by rewrite Hs1, Eg, app_nil_r.
    + rewrite Ec in Hb1. intros E. destruct (Hb1 E) as (Hz & out & Eout & Hout). destruct (Hsame Hz) as [_ ->].
      exists out. split; [done|]. rewrite <-Hunits, Forall2_fmap_l. eapply Forall2_impl; [done|].
      intros u b (fl & ->). exists fl. unfold unit_buffer. by rewrite Et1, Et2, Et3.
Qed.


(** ** Witnesses: a stream of two units cut in the middle of a start code *)

(** The created parser, told that the stream is H.264 behind start codes. *)
Definition opened : h26x_parser_t :=
  let s := default (mk_parser (mk_config H26X_CODEC_AUTO H26X_FMT_AUTO 4 false H26X_ERROR 0 0 0) (mk_adapter None 0 0 0 0 0 false)
                      [] [] [] (mk_activation false 0 0 0 0) (mk_format 0 0 0 0 0 0 0 d_zero false false)
                      (mk_counts 0 0 0 0 0) (mk_hau None 0 0 0 0 0 0 false)) (@zst_h26x_parser_create ample_memory) in
  let s := (parser_open s).2 in
  (parser_set_property (parser_set_property s "codec" "h264").2 "input-stream-format" "byte-stream").2.

Definition piece (flags pts : Z) (p : bytes) : zst_buffer := mk_buffer ZST_BUFFER_VIDEO_PACKET flags pts pts 40 (Some p) (zlen p).

(** An access unit delimiter and a slice; the second start code is cut after two bytes. *)
Definition two_units : list (bool * bytes) := [(true, [9; 16]); (false, [101; 136; 132; 1])].
Definition first_piece : zst_buffer := piece 0 1000 [0; 0; 0; 1; 9; 16; 0; 0].
Definition last_piece : zst_buffer := piece ZST_BUFFER_FLAG_EOS 1000 [1; 101; 136; 132; 1].

Lemma opened_ready : ready opened.
Proof.
  assert (parser_ok opened) as Hok.
  { apply (parser_property_ok (parser_set_property (parser_open (default opened (@zst_h26x_parser_create ample_memory))).2 "codec" "h264").2).
    2: { vm_compute. done. }
    apply parser_property_ok; [|vm_compute; done]. by apply (@created_ok ample_memory). }
  by split.
Qed.

Lemma two_pieces : stream_of [first_piece; last_piece].
Proof.
  exists [first_piece], last_piece. split; [done|]. split.
  - constructor; [|constructor]. split; [|done]. split; [|done]. split; [vm_compute; done|]. split; [by repeat constructor|by vm_compute].
  - split; [|done]. split; [|done]. split; [vm_compute; done|]. split; [by repeat constructor|by vm_compute].
Qed.

(** The two units, whatever the cut: an access unit delimiter, then a key picture. *)
Lemma any_cut_same_witness : exists s1 d1 a,
  annexb_units (bytes_of [first_piece; last_piece]) = [([9; 16], 0); ([101; 136; 132; 1], ZST_BUFFER_FLAG_EOS)] /\
  @run_units ample_memory (list sent) sent_pad no_stale (annexb_units (bytes_of [first_piece; last_piece])) (take_times opened first_piece) [] =
    Done (ZST_OK, s1, d1) /\ buffers_of d1 <> [] /\
  @feed ample_memory (list sent) sent_pad no_stale [first_piece; last_piece] opened [] =
    Done (put_adapter a (@flush_au (list sent) sent_pad ample_memory no_stale (or_flags s1 ZST_BUFFER_FLAG_EOS) d1)).
Proof.
  assert (exists s1 d1, @run_units ample_memory (list sent) sent_pad no_stale (annexb_units (bytes_of [first_piece; last_piece])) (take_times opened first_piece) [] =
            Done (ZST_OK, s1, d1) /\ buffers_of d1 <> []) as (s1 & d1 & E & Hne).
  { eexists _, _. split; [vm_compute; reflexivity|by vm_compute]. }
  destruct (@any_cut_same ample_memory ample_memory_ok (list sent) sent_pad no_stale first_piece [last_piece] opened [] s1 d1
              opened_ready two_pieces ltac:(by repeat constructor) ltac:(by vm_compute) E) as (a & Ef).
  exists s1, d1, a. exact (conj eq_refl (conj E (conj Hne Ef))).
Defined.

Lemma stream_normalized_witness : exists s' d',
  @feed ample_memory (list sent) sent_pad no_stale [first_piece; last_piece] opened [] = Done (ZST_OK, s', d') /\
  payload_of d' = [0; 0; 0; 1; 9; 16; 0; 0; 0; 1; 101; 136; 132; 1].
Proof.
  destruct (@stream_normalized ample_memory ample_memory_ok no_stale first_piece [last_piece] opened [] two_units
              opened_ready eq_refl two_pieces ltac:(by repeat constructor) eq_refl) as (s' & d' & E & Ep & _).
  - repeat constructor; by apply nal_okb_ok.
  - by vm_compute.
  - by vm_compute.
  - exists s', d'. exact (conj E Ep).
Defined.


