(* ===== verification/Pipeline.v ===== *)
(** * Pipelines: [src/zst_pipeline.c], [include/zst_pipeline.h]

    The elements of a pipeline, their states, their clock, their order along the links,
    the sizing of their buffer pools, and changes to the graph while it runs.  The
    functions are those of one thread, [self]; the pipeline's own structure is part of
    the state outside ([HasPipeline]), so that what an element calls back sees it.

    The lock of the elements is that of glibc: who holds it for writing and asks for it
    again gets an error, which the code ignores, and the next unlock gives up the one
    lock that is held.  To wait for another thread is [Unfinished]. *)

From Stdlib Require Import String SpecFloat.
From S2P Require Import Prelude CLib Pad Caps BufferPool Graph PadOps PadFlow PadPush Element.

Local Open Scope Z_scope.

(** ** The structure *)

Inductive rwlock := Unlocked | ReadLocked (readers : nat) | WriteLocked (thread : nat).

(** What was seen of an element's pool when the pools were last sized. *)
Record pool_seen := mk_seen {
  seen_pool : option nat;
  seen_generation : Z;
  seen_min_buffers : Z;
  seen_max_buffers : Z;
  seen_buffer_size : Z;
  seen_buffer_type : Z;
}.

(** [pl_sized] is the version of the graph for which the pools were sized last
    ([buffer_pool_sizing_dirty] is set while the graph has a later one); [pl_owner] is
    the thread of [reconfiguration_owner] while [reconfiguration_active].  [graph_rank]
    and the [pool_sizing_seen] members of the elements are kept here by element. *)
Record zst_pipeline := mk_pipeline {
  pl_self : nat;
  pl_elements : list nat;
  pl_capacity : Z;
  pl_state : zst_state_t;
  pl_bus : bool;
  pl_clock : option nat;
  pl_clock_sync : bool;
  pl_base_time : Z;
  pl_scheduler : bool;
  pl_lock : rwlock;
  pl_owner : option nat;
  pl_sized : Z;
  pl_ranks : gmap nat Z;
  pl_seen : gmap nat pool_seen;
}.

Definition with_elements (p : zst_pipeline) (els : list nat) (capacity : Z) : zst_pipeline :=
  mk_pipeline (pl_self p) els capacity (pl_state p) (pl_bus p) (pl_clock p) (pl_clock_sync p) (pl_base_time p)
    (pl_scheduler p) (pl_lock p) (pl_owner p) (pl_sized p) (pl_ranks p) (pl_seen p).
Definition with_pipeline_state (p : zst_pipeline) (s : zst_state_t) : zst_pipeline :=
  mk_pipeline (pl_self p) (pl_elements p) (pl_capacity p) s (pl_bus p) (pl_clock p) (pl_clock_sync p) (pl_base_time p)
    (pl_scheduler p) (pl_lock p) (pl_owner p) (pl_sized p) (pl_ranks p) (pl_seen p).
Definition with_clock (p : zst_pipeline) (clock : option nat) (sync : bool) (base : Z) : zst_pipeline :=
  mk_pipeline (pl_self p) (pl_elements p) (pl_capacity p) (pl_state p) (pl_bus p) clock sync base
    (pl_scheduler p) (pl_lock p) (pl_owner p) (pl_sized p) (pl_ranks p) (pl_seen p).
Definition with_lock (p : zst_pipeline) (l : rwlock) (owner : option nat) : zst_pipeline :=
  mk_pipeline (pl_self p) (pl_elements p) (pl_capacity p) (pl_state p) (pl_bus p) (pl_clock p) (pl_clock_sync p)
    (pl_base_time p) (pl_scheduler p) l owner (pl_sized p) (pl_ranks p) (pl_seen p).
Definition with_sizing (p : zst_pipeline) (sized : Z) (seen : gmap nat pool_seen) : zst_pipeline :=
  mk_pipeline (pl_self p) (pl_elements p) (pl_capacity p) (pl_state p) (pl_bus p) (pl_clock p) (pl_clock_sync p)
    (pl_base_time p) (pl_scheduler p) (pl_lock p) (pl_owner p) sized (pl_ranks p) seen.
Definition with_ranks (p : zst_pipeline) (ranks : gmap nat Z) : zst_pipeline :=
  mk_pipeline (pl_self p) (pl_elements p) (pl_capacity p) (pl_state p) (pl_bus p) (pl_clock p) (pl_clock_sync p)
    (pl_base_time p) (pl_scheduler p) (pl_lock p) (pl_owner p) (pl_sized p) ranks (pl_seen p).

(** The state outside holds a pipeline. *)
Class HasPipeline (U : Type) := {
  pipe_in : U -> zst_pipeline;
  put_pipe_in : zst_pipeline -> U -> U;
  pipe_put : forall p u, pipe_in (put_pipe_in p u) = p;
  put_pipe : forall u, put_pipe_in (pipe_in u) u = u;
  put_put : forall p q u, put_pipe_in p (put_pipe_in q u) = put_pipe_in p u;
}.

(** The pools of the elements ([po_get e] is [None] when the element has no
    [get_pool]), and clocks: [src/zst_buffer_pool.c], [src/zst_clock.c]. *)
Record pool_ops (U : Type) := mk_pool_ops {
  po_get : nat -> option (M U (option nat));
  po_config : nat -> M U zst_buffer_pool_config_t;
  po_generation : nat -> M U Z;
  po_set_config : nat -> zst_buffer_pool_config_t -> M U zst_result_t;
}.
Arguments po_get {U}.
Arguments po_config {U}.
Arguments po_generation {U}.
Arguments po_set_config {U}.

Record clock_ops (U : Type) := mk_clock_ops {
  co_provide : nat -> option (M U (option nat));
  co_system : M U (option nat);
  co_slave : nat -> nat -> M U (option nat);
  co_monotonic : M U Z;
}.
Arguments co_provide {U}.
Arguments co_system {U}.
Arguments co_slave {U}.
Arguments co_monotonic {U}.

(** The index of the first occurrence. *)
Fixpoint index_of (e : nat) (l : list nat) : option nat :=
  match l with
  | [] => None
  | x :: l => if (x =? e)%nat then Some 0%nat else S <$> index_of e l
  end.

Definition flagged (visited : list bool) (i : nat) : bool := default false (visited !! i).

(** The flags of visited elements, and the part of [temp] that is filled: its end. *)
Record sorting := mk_sorting { visited : list bool; temp : list nat }.

Definition SIZEOF_PIPELINE : Z := 320.

Section pipeline.
Context {U : Type} `{HasPipeline U} `{CMemory} (stale_size : caps_value -> Z) (E : env U) (rounds : nat).
Context (pools : pool_ops U) (clocks : clock_ops U) (type_name : nat -> option string) (self : nat).
Local Notation M := (M U).

Definition get_pipe : M zst_pipeline := fun w => Done (pipe_in (w_user w), w).
Definition set_pipe (p : zst_pipeline) : M unit := fun w =>
  Done (tt, mk_world (w_next w) (w_pads w) (w_elems w) (w_bufs w) (w_bus w) (w_dirty w) (put_pipe_in p (w_user w))).
Definition modify_pipe (f : zst_pipeline -> zst_pipeline) : M unit := p ← get_pipe; set_pipe (f p).

(** ** The lock *)

Definition rdlock : M unit :=
  p ← get_pipe;
  match pl_lock p with
  | Unlocked => set_pipe (with_lock p (ReadLocked 1) (pl_owner p))
  | ReadLocked n => set_pipe (with_lock p (ReadLocked (S n)) (pl_owner p))
  | WriteLocked t => if (t =? self)%nat then mret tt else stuck
  end.

Definition wrlock : M unit :=
  p ← get_pipe;
  match pl_lock p with
  | Unlocked => set_pipe (with_lock p (WriteLocked self) (pl_owner p))
  | ReadLocked _ => stuck
  | WriteLocked t => if (t =? self)%nat then mret tt else stuck
  end.

Definition unlock : M unit :=
  p ← get_pipe;
  match pl_lock p with
  | Unlocked => fault
  | ReadLocked (S (S n)) => set_pipe (with_lock p (ReadLocked (S n)) (pl_owner p))
  | ReadLocked _ => set_pipe (with_lock p Unlocked (pl_owner p))
  | WriteLocked t => if (t =? self)%nat then set_pipe (with_lock p Unlocked (pl_owner p)) else fault
  end.

(** ** Creation, members *)

(** [bus]: whether the bus could be created. *)
Definition zst_pipeline_create (bus : bool) : option (nat -> zst_pipeline) :=
  if malloc_ok SIZEOF_PIPELINE then
    Some (fun address => mk_pipeline address [] 0 ZST_STATE_NULL bus None false 0 false Unlocked None 0 ∅ ∅)
  else None.

Definition zst_pipeline_get_clock : M (option nat) := p ← get_pipe; mret (pl_clock p).
Definition zst_pipeline_get_clock_sync : M bool := p ← get_pipe; mret (pl_clock_sync p).
Definition zst_pipeline_set_clock_sync (enabled : bool) : M zst_result_t :=
  _ ← modify_pipe (fun p => with_clock p (pl_clock p) enabled (pl_base_time p)); mret ZST_OK.

Fixpoint for_each (f : nat -> M unit) (els : list nat) : M unit :=
  match els with [] => mret tt | e :: els => _ ← f e; for_each f els end.

Definition zst_pipeline_foreach_element (f : nat -> M unit) : M unit :=
  _ ← rdlock;
  p ← get_pipe;
  _ ← for_each f (pl_elements p);
  unlock.

Definition zst_pipeline_set_clock (clock : option nat) : M unit :=
  p ← get_pipe;
  if decide (pl_clock p = clock) then mret tt
  else
    _ ← set_pipe (with_clock p clock (pl_clock_sync p) (pl_base_time p));
    zst_pipeline_foreach_element (fun e => zst_element_set_clock e clock).

(** The elements, the last one first. *)
Definition zst_pipeline_destroy (n : nat) : M unit :=
  p ← get_pipe; for_each (zst_element_destroy E n) (rev (pl_elements p)).

Definition mark_pipeline_dirty : M unit := p ← get_pipe; zst_pipeline_mark_buffer_pool_sizing_dirty (pl_self p).

Definition pipeline_add_locked (e : nat) : M zst_result_t :=
  p ← get_pipe;
  let full := pl_capacity p <=? zlen (pl_elements p) in
  let new_cap := if pl_capacity p =? 0 then 8 else u32 (pl_capacity p * 2) in
  if full && negb (malloc_ok (new_cap * SIZEOF_POINTER)) then mret ZST_ERROR
  else
    _ ← set_pipe (with_elements p (pl_elements p ++ [e]) (if full then new_cap else pl_capacity p));
    _ ← modify_elem e (fun x => with_context x (pl_bus p) (Some (pl_self p)) (el_clock x));
    _ ← zst_element_set_clock e (pl_clock p);
    _ ← mark_pipeline_dirty;
    mret ZST_OK.

Definition pipeline_remove_locked (e : nat) : M zst_result_t :=
  p ← get_pipe;
  match remove_first e (pl_elements p) with
  | None => mret ZST_ERROR
  | Some els =>
      _ ← set_pipe (with_elements p els (pl_capacity p));
      _ ← modify_elem e (fun x => with_context x false None (el_clock x));
      _ ← mark_pipeline_dirty;
      mret ZST_OK
  end.

Definition zst_pipeline_add (e : nat) : M zst_result_t :=
  _ ← wrlock; r ← pipeline_add_locked e; _ ← unlock; mret r.
Definition zst_pipeline_remove (e : nat) : M zst_result_t :=
  _ ← wrlock; r ← pipeline_remove_locked e; _ ← unlock; mret r.

(** ** Walks along the links *)

(** The element behind a source pad. *)
Definition child_of (p : nat) : M (option nat) :=
  peer ← zst_pad_get_peer p;
  match peer with
  | None => mret None
  | Some q => x ← get_pad q; _ ← zst_pad_unref q; mret (pad_parent x)
  end.

Section walks.
Context {S : Type}.

Fixpoint through_pads (f : nat -> S -> M S) (ps : list nat) (s : S) : M S :=
  match ps with
  | [] => mret s
  | p :: ps =>
      child ← child_of p;
      s ← match child with Some c => f c s | None => mret s end;
      through_pads f ps s
  end.

(** [f] for the child behind each source pad of [e], a snapshot of which is taken. *)
Definition walk_children (f : nat -> S -> M S) (e : nat) (s : S) : M S :=
  ps ← zst_element_snapshot_src_pads e;
  match ps with
  | None => mret s
  | Some ps => s ← through_pads f ps s; _ ← zst_element_pad_snapshot_free ps; mret s
  end.
End walks.

Definition pipeline_element_is_type (e : nat) (name : string) : bool :=
  match type_name e with Some t => streq t name | None => false end.

(** [els] are the elements of the pipeline; the state is the flags and the count.  [n]
    bounds the depth of the calls, one more than the elements is enough. *)
Fixpoint pipeline_count_downstream_type_dfs (n : nat) (els : list nat) (name : string) (e : nat) (s : list bool * Z)
    : M (list bool * Z) :=
  match n with
  | O => stuck
  | S n =>
      walk_children (fun child s =>
        match index_of child els with
        | None => mret s
        | Some i =>
            if flagged s.1 i then mret s
            else
              let s := (<[i := true]> s.1, s.2 + (if pipeline_element_is_type child name then 1 else 0)) in
              pipeline_count_downstream_type_dfs n els name child s
        end) e s
  end.

Definition zst_pipeline_count_downstream_elements_of_type (start : nat) (name : string) : M Z :=
  p ← get_pipe;
  let els := pl_elements p in
  if negb (malloc_ok (zlen els * 4)) then mret 0
  else
    let visited := repeat false (length els) in
    let visited := match index_of start els with Some i => <[i := true]> visited | None => visited end in
    s ← pipeline_count_downstream_type_dfs (S (length els)) els name start (visited, 0);
    mret s.2.

Definition zst_pipeline_count_elements_of_type (name : string) : M Z :=
  _ ← rdlock;
  p ← get_pipe;
  let count := zlen (List.filter (fun e => pipeline_element_is_type e name) (pl_elements p)) in
  _ ← unlock;
  mret count.

(** ** The order of the elements *)

Fixpoint dfs_sort (n : nat) (els : list nat) (e : nat) (s : sorting) : M sorting :=
  match n with
  | O => stuck
  | S n =>
      match index_of e els with
      | None => mret s
      | Some i =>
          if flagged (visited s) i then mret s
          else
            s ← walk_children (dfs_sort n els) e (mk_sorting (<[i := true]> (visited s)) (temp s));
            if (length (temp s) <? length els)%nat then mret (mk_sorting (visited s) (e :: temp s)) else fault
      end
  end.

(** First the elements without sink pads, then those that are not visited yet. *)
Fixpoint sort_sources (n : nat) (els rest : list nat) (s : sorting) : M sorting :=
  match rest with
  | [] => mret s
  | e :: rest =>
      x ← get_elem e;
      s ← match el_sink_pads x with [] => dfs_sort n els e s | _ => mret s end;
      sort_sources n els rest s
  end.

Fixpoint sort_rest (n : nat) (els : list nat) (i : nat) (rest : list nat) (s : sorting) : M sorting :=
  match rest with
  | [] => mret s
  | e :: rest =>
      s ← (if flagged (visited s) i then mret s else dfs_sort n els e s);
      sort_rest n els (S i) rest s
  end.

(** Reading what is not filled of [temp] is a fault. *)
Definition pipeline_topological_sort_locked : M unit :=
  p ← get_pipe;
  let els := pl_elements p in
  if (length els <=? 1)%nat then mret tt
  else if negb (malloc_ok (zlen els * SIZEOF_POINTER)) || negb (malloc_ok (zlen els * 4)) then mret tt
  else
    let n := S (length els) in
    s ← sort_sources n els els (mk_sorting (repeat false (length els)) []);
    s ← sort_rest n els 0 els s;
    if (length (temp s) <? length els)%nat then fault
    else modify_pipe (fun p => with_elements p (temp s) (pl_capacity p)).

Definition zst_pipeline_topological_sort : M unit :=
  p ← get_pipe;
  if (length (pl_elements p) <=? 1)%nat then mret tt
  else _ ← wrlock; _ ← pipeline_topological_sort_locked; unlock.

(** ** Ranks *)

Definition get_rank (ranks : gmap nat Z) (e : nat) : Z := default 0 (ranks !! e).

(** The flags are those of the path the walk is on, so that it ends in a cycle. *)
Fixpoint update_ranks_dfs (n : nat) (els : list nat) (e : nat) (current_rank : Z) (s : list bool * gmap nat Z)
    : M (list bool * gmap nat Z) :=
  match n with
  | O => stuck
  | S n =>
      match index_of e els with
      | None => mret s
      | Some i =>
          let ranks := if get_rank s.2 e <? current_rank then <[e := current_rank]> s.2 else s.2 in
          if flagged s.1 i then mret (s.1, ranks)
          else
            s ← walk_children (fun child s => update_ranks_dfs n els child (u32 (get_rank s.2 e + 1)) s) e
                  (<[i := true]> s.1, ranks);
            mret (<[i := false]> s.1, s.2)
      end
  end.

Definition zst_pipeline_update_ranks_from (start : nat) : M unit :=
  p ← get_pipe;
  let els := pl_elements p in
  if negb (malloc_ok (zlen els * 4)) then mret tt
  else
    s ← update_ranks_dfs (S (length els)) els start (get_rank (pl_ranks p) start)
          (repeat false (length els), pl_ranks p);
    modify_pipe (fun p => with_ranks p s.2).

Fixpoint any_linked (ps : list nat) : M bool :=
  match ps with
  | [] => mret false
  | p :: ps => l ← zst_pad_is_linked p; if l : bool then mret true else any_linked ps
  end.

(** An element none of whose sink pads is linked. *)
Definition is_source (e : nat) : M bool :=
  ps ← zst_element_snapshot_sink_pads e;
  match ps with
  | None => mret true
  | Some ps => l ← any_linked ps; _ ← zst_element_pad_snapshot_free ps; mret (negb l)
  end.

Definition pipeline_recalculate_ranks_locked : M unit :=
  _ ← modify_pipe (fun p => with_ranks p (foldr (fun e m => <[e := 0]> m) (pl_ranks p) (pl_elements p)));
  p ← get_pipe;
  for_each (fun e => src ← is_source e; if src : bool then zst_pipeline_update_ranks_from e else mret tt) (pl_elements p).

(** ** Pool sizes *)

(** The version of the graph: one more than the marks of the pipeline. *)
Definition graph_version : M Z := fun w =>
  let pipe := pl_self (pipe_in (w_user w)) in
  Done (u64 (1 + Z.of_nat (length (List.filter (Nat.eqb pipe) (w_dirty w)))), w).

Definition is_dirty : M bool := p ← get_pipe; v ← graph_version; mret (negb (pl_sized p =? v)).
Definition clear_dirty : M unit := v ← graph_version; modify_pipe (fun p => with_sizing p v (pl_seen p)).

Definition pool_config_default_size_for_queue_count (config : zst_buffer_pool_config_t) (n_queues : Z)
    : zst_buffer_pool_config_t :=
  if n_queues <=? 0 then config
  else if pc_min_buffers config <? u32 (n_queues + 2) then
    let least := u32 (n_queues + 2) in
    mk_pcfg least (if pc_max_buffers config <? least then u32 (least * 2) else pc_max_buffers config)
      (pc_buffer_size config) (pc_buffer_type config) (pc_low_watermark config) (pc_high_watermark config)
      (pc_watermark_cb config)
  else config.

Definition see (e : nat) (s : pool_seen) : M unit := modify_pipe (fun p => with_sizing p (pl_sized p) (<[e := s]> (pl_seen p))).

Definition zst_element_get_pool (e : nat) : M (option nat) :=
  match po_get pools e with Some m => m | None => mret None end.

Definition apply_pool_config_cb (e : nat) : M unit :=
  pool ← zst_element_get_pool e;
  match pool with
  | None => see e (mk_seen None 0 0 0 0 0)
  | Some k =>
      old ← po_config pools k;
      n_queues ← zst_pipeline_count_downstream_elements_of_type e "queue";
      let new := pool_config_default_size_for_queue_count old n_queues in
      config ← (if negb (pc_min_buffers new =? pc_min_buffers old) || negb (pc_max_buffers new =? pc_max_buffers old) then
                  ret ← po_set_config pools k new;
                  if ret =? ZST_OK then mret new else po_config pools k
                else mret old);
      generation ← po_generation pools k;
      see e (mk_seen (Some k) generation (pc_min_buffers config) (pc_max_buffers config) (pc_buffer_size config)
               (pc_buffer_type config))
  end.

Definition zst_pipeline_update_buffer_pool_sizing : M unit :=
  _ ← clear_dirty; zst_pipeline_foreach_element apply_pool_config_cb.

Definition pipeline_element_pool_snapshot_changed (e : nat) : M bool :=
  match po_get pools e with
  | None => mret false
  | Some get =>
      pool ← get;
      p ← get_pipe;
      let seen := default (mk_seen None 0 0 0 0 0) (pl_seen p !! e) in
      match pool with
      | None => mret (is_some (seen_pool seen))
      | Some k =>
          if decide (seen_pool seen = Some k) then
            generation ← po_generation pools k; mret (negb (generation =? seen_generation seen))
          else mret true
      end
  end.

(** Tested again under the lock of the sizing; alone, the answers are the same. *)
Definition zst_pipeline_update_buffer_pool_sizing_if_needed (e : nat) : M unit :=
  dirty ← is_dirty;
  changed ← pipeline_element_pool_snapshot_changed e;
  if negb dirty && negb changed then mret tt else zst_pipeline_update_buffer_pool_sizing.

(** ** States *)

(** The elements one after the other; when one fails, those before it go back, the last
    one first.  The result names the one that failed. *)
Fixpoint change_states (set_state : nat -> zst_state_t -> M zst_result_t) (old new : zst_state_t)
    (before els : list nat) : M (option (nat * zst_result_t)) :=
  match els with
  | [] => mret None
  | e :: els =>
      ret ← set_state e new;
      if ret =? ZST_OK then change_states set_state old new (e :: before) els
      else _ ← each_pad (fun d => set_state d old) before; mret (Some (e, ret))
  end.

Fixpoint first_clock (els : list nat) : M (option nat) :=
  match els with
  | [] => mret None
  | e :: els =>
      clock ← match co_provide clocks e with Some m => m | None => mret None end;
      match clock with Some c => mret (Some c) | None => first_clock els end
  end.

(** On the way to PLAYING without a clock: the first an element provides, with the
    system clock as its slave's reference, or the system clock alone. *)
Definition select_clock : M unit :=
  _ ← rdlock;
  p ← get_pipe;
  master ← first_clock (pl_elements p);
  _ ← unlock;
  system ← co_system clocks;
  _ ← match master, system with
      | Some m, Some s =>
          slave ← co_slave clocks m s;
          match slave with Some c => zst_pipeline_set_clock (Some c) | None => zst_pipeline_set_clock (Some s) end
      | None, Some s => zst_pipeline_set_clock (Some s)
      | _, None => mret tt
      end;
  t ← co_monotonic clocks;
  modify_pipe (fun p => with_clock p (pl_clock p) (pl_clock_sync p) t).

Definition post_on (ev : bus_event) : M unit := p ← get_pipe; if pl_bus p then zst_bus_post ev else mret tt.

(** A step between neighbouring states. *)
Definition pipeline_step (n : nat) (old state : zst_state_t) : M zst_result_t :=
  p ← get_pipe;
  _ ← (match state with
       | ZST_STATE_PLAYING =>
           _ ← zst_pipeline_update_buffer_pool_sizing;
           p ← get_pipe;
           match pl_clock p with None => select_clock | Some _ => mret tt end
       | _ => mret tt
       end);
  _ ← rdlock;
  p ← get_pipe;
  failed ← change_states (zst_element_set_state E n) old state []
             (if state_num old <? state_num state then pl_elements p else rev (pl_elements p));
  _ ← unlock;
  match failed with
  | Some (e, ret) => _ ← post_on (EventError e ret); mret ret
  | None =>
      _ ← modify_pipe (fun p => with_pipeline_state p state);
      _ ← post_on (EventPipelineState old state);
      mret ZST_OK
  end.

(** The state next to [old] on the way to [state]. *)
Definition toward (old state : zst_state_t) : zst_state_t :=
  match old with
  | ZST_STATE_NULL => ZST_STATE_READY
  | ZST_STATE_READY => if state_num old <? state_num state then ZST_STATE_PAUSED else ZST_STATE_NULL
  | ZST_STATE_PAUSED => if state_num old <? state_num state then ZST_STATE_PLAYING else ZST_STATE_READY
  | ZST_STATE_PLAYING => ZST_STATE_PAUSED
  end.

(** [m] bounds the steps; 4 are enough, see the theorem [pipeline_brings_all]. *)
Fixpoint zst_pipeline_set_state (m n : nat) (state : zst_state_t) : M zst_result_t :=
  match m with
  | O => stuck
  | S m =>
      p ← get_pipe;
      let old := pl_state p in
      if decide (old = state) then mret ZST_OK
      else if decide (toward old state = state) then pipeline_step n old state
      else
        ret ← zst_pipeline_set_state m n (toward old state);
        if negb (ret =? ZST_OK) then mret ret
        else
          ret ← zst_pipeline_set_state m n state;
          if ret =? ZST_OK then mret ret
          else _ ← zst_pipeline_set_state m n old; mret ret
  end.

Definition zst_pipeline_start (m n : nat) : M zst_result_t := zst_pipeline_set_state m n ZST_STATE_PLAYING.
Definition zst_pipeline_stop (m n : nat) : M zst_result_t := zst_pipeline_set_state m n ZST_STATE_NULL.

(** ** Changes while the pipeline runs *)

Definition owned_here (p : zst_pipeline) : bool := match pl_owner p with Some t => (t =? self)%nat | None => false end.

Definition pipeline_wait_for_foreign_reconfiguration : M unit :=
  p ← get_pipe; if is_some (pl_owner p) && negb (owned_here p) then stuck else mret tt.

(** [zst_scheduler_wake]: [queue_roots] queues the source elements, with the lock of the
    elements held for reading. *)
Definition scheduler_wake (queue_roots : M unit) : M unit := _ ← rdlock; _ ← queue_roots; unlock.

(** What an element does when it gets to PLAYING, [env_scheduler_wake]. *)
Definition element_wake (queue_roots : M unit) : M unit :=
  p ← get_pipe; if pl_scheduler p && negb (owned_here p) then scheduler_wake queue_roots else mret tt.

Context (queue_roots : M unit) (wait_tasks : nat -> M unit).

Definition pipeline_reconfiguration_finish_locked : M unit :=
  _ ← pipeline_recalculate_ranks_locked;
  _ ← pipeline_topological_sort_locked;
  _ ← mark_pipeline_dirty;
  _ ← unlock;
  p ← get_pipe;
  _ ← (if pl_scheduler p then scheduler_wake queue_roots else mret tt);
  zst_pipeline_update_buffer_pool_sizing.

Definition zst_pipeline_reconfigure_begin : M zst_result_t :=
  p ← get_pipe;
  if owned_here p then mret ZST_ERROR
  else
    _ ← pipeline_wait_for_foreign_reconfiguration;
    _ ← wrlock;
    _ ← modify_pipe (fun p => with_lock p (pl_lock p) (Some self));
    mret ZST_OK.

Definition zst_pipeline_reconfigure_end : M zst_result_t :=
  p ← get_pipe;
  if negb (owned_here p) then mret ZST_ERROR
  else
    _ ← set_pipe (with_lock p (pl_lock p) None);
    _ ← pipeline_reconfiguration_finish_locked;
    mret ZST_OK.

(** Inside a transaction the lock is held already. *)
Definition enter (in_transaction : bool) : M unit :=
  if in_transaction then mret tt else _ ← pipeline_wait_for_foreign_reconfiguration; wrlock.
Definition leave_failed (in_transaction : bool) : M unit := if in_transaction then mret tt else unlock.
Definition leave (in_transaction : bool) : M unit :=
  if in_transaction then mret tt else pipeline_reconfiguration_finish_locked.

Definition zst_pipeline_add_element_dynamic (n : nat) (e : nat) : M zst_result_t :=
  p ← get_pipe;
  let inside := owned_here p in
  _ ← enter inside;
  r ← pipeline_add_locked e;
  if negb (r =? ZST_OK) then _ ← leave_failed inside; mret r
  else
    p ← get_pipe;
    r ← match pl_state p with
        | ZST_STATE_NULL => mret ZST_OK
        | state =>
            r ← zst_element_set_state E n e ZST_STATE_READY;
            if negb (r =? ZST_OK) then _ ← pipeline_remove_locked e; mret r
            else match state with
                 | ZST_STATE_PLAYING =>
                     r ← zst_element_set_state E n e ZST_STATE_PLAYING;
                     if negb (r =? ZST_OK) then
                       _ ← zst_element_set_state E n e ZST_STATE_NULL;
                       _ ← pipeline_remove_locked e;
                       mret r
                     else mret ZST_OK
                 | _ => mret ZST_OK
                 end
        end;
    if negb (r =? ZST_OK) then _ ← leave_failed inside; mret r
    else _ ← leave inside; mret ZST_OK.

Fixpoint unlink_all (ps : list nat) : M unit :=
  match ps with [] => mret tt | p :: ps => _ ← zst_pad_unlink p; unlink_all ps end.

Definition unlink_snapshot (snapshot : nat -> M (option (list nat))) (e : nat) : M unit :=
  ps ← snapshot e;
  match ps with
  | None => mret tt
  | Some ps => _ ← unlink_all ps; zst_element_pad_snapshot_free ps
  end.

(** [wait_tasks e] returns when no task of the scheduler refers to [e]. *)
Definition zst_pipeline_remove_element_dynamic (n : nat) (e : nat) : M zst_result_t :=
  p ← get_pipe;
  let inside := owned_here p in
  x ← get_elem e;
  _ ← match el_state x with
      | ZST_STATE_PLAYING => _ ← zst_element_set_state E n e ZST_STATE_PAUSED; mret tt
      | _ => mret tt
      end;
  _ ← (if inside then unlock else pipeline_wait_for_foreign_reconfiguration);
  _ ← wait_tasks e;
  _ ← wrlock;
  _ ← zst_element_set_state E n e ZST_STATE_NULL;
  _ ← unlink_snapshot zst_element_snapshot_sink_pads e;
  _ ← unlink_snapshot zst_element_snapshot_src_pads e;
  r ← pipeline_remove_locked e;
  _ ← leave inside;
  mret r.

Definition zst_pipeline_link_pads_dynamic (src sink : nat) : M zst_result_t :=
  p ← get_pipe;
  let inside := owned_here p in
  _ ← enter inside;
  r ← zst_pad_link stale_size E rounds src sink;
  if r =? ZST_OK then
    x ← get_pad src;
    _ ← match pad_parent x with Some e => zst_pipeline_update_ranks_from e | None => mret tt end;
    _ ← mark_pipeline_dirty;
    _ ← leave inside;
    mret r
  else _ ← leave_failed inside; mret r.

Definition zst_pipeline_unlink_pads_dynamic (src sink : nat) : M zst_result_t :=
  p ← get_pipe;
  let inside := owned_here p in
  _ ← enter inside;
  peer ← zst_pad_get_peer src;
  if decide (peer = Some sink) then
    _ ← zst_pad_unref sink;
    _ ← zst_pad_unlink src;
    _ ← pipeline_recalculate_ranks_locked;
    _ ← mark_pipeline_dirty;
    _ ← leave inside;
    mret ZST_OK
  else
    _ ← match peer with Some q => zst_pad_unref q | None => mret tt end;
    _ ← leave_failed inside;
    mret ZST_ERROR.
End pipeline.
