(* ===== verification/PipelineWalk.v ===== *)
(** * Walks along the links leave the graph as it was: [Pipeline]

    A walk holds references to the pads of its snapshots while it calls on, and gives
    them back in the end.  In a world where no reference count can run over, each walk
    of a pipeline is a function of the children of its elements alone. *)

From Stdlib Require Import String SpecFloat.
From S2P Require Import Prelude CLib Pad Caps BufferPool Graph PadOps PadFlow PadPush Element Pipeline.

Local Open Scope Z_scope.

(** ** Folds that may fail *)

Fixpoint ofold {S} (g : nat -> S -> option S) (cs : list nat) (s : S) : option S :=
  match cs with [] => Some s | c :: cs => s ← g c s; ofold g cs s end.

Lemma ofold_ext {S} (g h : nat -> S -> option S) cs s : (forall c s, c ∈ cs -> g c s = h c s) -> ofold g cs s = ofold h cs s.
Proof.
  revert s. induction cs as [|c cs IH]; intros s Hgh; cbn [ofold]; [done|]. rewrite Hgh by set_solver.
  destruct (h c s) as [s1|]; cbn; [|done]. apply IH. set_solver.
Qed.

Lemma ofold_app {S} (g : nat -> S -> option S) cs ds s : ofold g (cs ++ ds) s = ofold g cs s ≫= ofold g ds.
Proof. revert s. induction cs as [|c cs IH]; intros s; cbn [app ofold]; [done|]. destruct (g c s); cbn; [apply IH|done]. Qed.

Section walk.
Context {U : Type} `{CMemoryOk}.
Implicit Types (w v : world U) (p q e : nat).

(** ** References *)

Definition up (x : zst_pad) : zst_pad := with_link x (pad_peer x) (pad_linked x) (s32 (pad_refcount x + 1)).

(** A reference more on [p], on each of [ps]. *)
Definition lift p w : world U := put_pads w (alter up p (w_pads w)).
Definition lifts (ps : list nat) w : world U := foldr lift w ps.

(** There is room for [k] references more. *)
Definition roomy (k : Z) w p : Prop :=
  exists x, w_pads w !! p = Some x /\ 1 <= pad_refcount x /\ pad_refcount x + k <= INT32_MAX.

Lemma lift_comm p q w : lift p (lift q w) = lift q (lift p w).
Proof.
  unfold lift, put_pads. cbn. f_equal. destruct (decide (p = q)) as [->|Hne]; [done|]. by apply alter_alter_ne.
Qed.

Lemma lifts_lift p ps w : lifts ps (lift p w) = lift p (lifts ps w).
Proof. induction ps as [|q ps IH]; cbn [lifts foldr]; [done|]. unfold lifts in IH. rewrite IH. apply lift_comm. Qed.

Lemma ref_lift p w : is_Some (w_pads w !! p) -> zst_pad_ref p w = Done (tt, lift p w).
Proof.
  intros [x Hx]. unfold zst_pad_ref, modify_pad, get_pad, set_pad, mbind, M_bind. rewrite Hx. unfold lift.
  assert (alter up p (w_pads w) = <[p := up x]> (w_pads w)) as ->; [|done].
  apply map_eq. intros q. destruct (decide (q = p)) as [->|Hne].
  - by rewrite lookup_alter_eq, Hx, lookup_insert_eq.
  - by rewrite lookup_alter_ne, lookup_insert_ne.
Qed.

Lemma unref_lift p w : roomy 1 w p -> zst_pad_unref p (lift p w) = Done (tt, w).
Proof.
  intros (x & Hx & Hpos & Hroom). unfold zst_pad_unref, INT32_MAX in *. unfold lift at 2. cbn [unref_pad w_pads put_pads].
  unfold get_pad, set_pad, mbind, M_bind. cbn [lift w_pads put_pads]. rewrite lookup_alter_eq, Hx. cbn [fmap option_fmap option_map].
  unfold up. cbn [with_link pad_refcount pad_peer pad_linked]. rewrite (s32_small (pad_refcount x + 1)) by lia.
  destruct (Z.eqb_spec (pad_refcount x + 1) 1); [lia|].
  replace (pad_refcount x + 1 - 1) with (pad_refcount x) by lia. rewrite s32_small by lia. unfold put_pads, mret, M_ret. cbn.
  do 2 f_equal. destruct w as [? pads ? ? ? ? ?]. cbn in *. f_equal. apply map_eq. intros q.
  destruct (decide (q = p)) as [->|Hne]; [rewrite lookup_insert_eq, Hx; by destruct x|].
  by rewrite lookup_insert_ne, lookup_alter_ne.
Qed.

Lemma lift_lookup q p w : w_pads (lift p w) !! q = (if decide (q = p) then up <$> w_pads w !! q else w_pads w !! q).
Proof.
  unfold lift. cbn. destruct (decide (q = p)) as [->|Hne]; [by rewrite lookup_alter_eq|by rewrite lookup_alter_ne].
Qed.

Lemma lift_some p q w : is_Some (w_pads (lift p w) !! q) <-> is_Some (w_pads w !! q).
Proof. rewrite lift_lookup. destruct (decide _); [by rewrite fmap_is_Some|done]. Qed.

Lemma roomy_lift k p q w : roomy (k + 1) w q -> 0 <= k -> roomy k (lift p w) q.
Proof.
  intros (x & Hx & Hpos & Hroom) Hk. unfold roomy, INT32_MAX in *. rewrite lift_lookup, Hx. destruct (decide (q = p)); cbn; eexists; (split; [done|]).
  - unfold up. cbn. rewrite s32_small by lia. lia.
  - lia.
Qed.

Lemma roomy_less k j w p : roomy k w p -> j <= k -> roomy j w p.
Proof. intros (x & Hx & ? & ?) Hj. exists x. split; [done|]. lia. Qed.

Lemma roomy_lift_ne k p q w : roomy k w q -> q <> p -> roomy k (lift p w) q.
Proof. intros (x & Hx & ? & ?) Hne. exists x. split; [|done]. rewrite lift_lookup. by rewrite decide_False. Qed.

Lemma roomy_lifts k ps q w : NoDup ps -> 0 <= k -> roomy (k + 1) w q -> roomy k (lifts ps w) q.
Proof.
  intros Hnd Hk Hr. destruct (decide (q ∈ ps)) as [Hq|Hq].
  - apply list_elem_of_split in Hq as (l1 & l2 & ->). apply NoDup_app in Hnd as (Hn1 & Hdis & Hn2). apply NoDup_cons in Hn2 as [Hq2 _].
    assert (q ∉ l1) as Hq1 by (intros Hin; apply (Hdis q Hin); set_solver). clear Hdis Hn1.
    unfold lifts. rewrite foldr_app. cbn [foldr]. fold (lifts l2 w).
    assert (roomy k (lift q (lifts l2 w)) q) as Hl.
    { apply roomy_lift; [|done]. clear Hq1. induction l2 as [|p l2 IH]; [done|]. cbn [lifts foldr]. apply roomy_lift_ne; [apply IH|]; set_solver. }
    induction l1 as [|p l1 IH]; [done|]. cbn [foldr]. apply roomy_lift_ne; [apply IH|]; set_solver.
  - assert (roomy (k + 1) (lifts ps w) q) as Hl; [|eapply roomy_less; [done|lia]].
    clear Hnd. induction ps as [|p ps IH]; [done|]. cbn [lifts foldr]. apply roomy_lift_ne; [apply IH|]; set_solver.
Qed.

(** ** Children *)

Definition child w p : option nat :=
  x ← w_pads w !! p; q ← pad_peer x; y ← w_pads w !! q; pad_parent y.

(** The elements behind the source pads of [e], in their order. *)
Definition children w e : list nat :=
  match w_elems w !! e with Some x => omap (child w) (el_src_pads x) | None => [] end.

Lemma child_lift p w q : child (lift p w) q = child w q.
Proof.
  unfold child. rewrite lift_lookup. destruct (w_pads w !! q) as [x|] eqn:Ex; [|by destruct (decide _)].
  replace (if decide (q = p) then up <$> Some x else Some x) with (Some (if decide (q = p) then up x else x)) by by destruct (decide _).
  cbn [mbind option_bind]. replace (pad_peer (if decide (q = p) then up x else x)) with (pad_peer x) by by destruct (decide _).
  destruct (pad_peer x) as [r|]; cbn [mbind option_bind]; [|done]. rewrite lift_lookup. destruct (w_pads w !! r) as [y|]; [|by destruct (decide _)].
  by destruct (decide _).
Qed.

Lemma child_lifts ps w q : child (lifts ps w) q = child w q.
Proof. induction ps as [|p ps IH]; [done|]. cbn [lifts foldr]. by rewrite child_lift. Qed.

Lemma childs_lifts ps w (l : list nat) : omap (child (lifts ps w)) l = omap (child w) l.
Proof. induction l as [|q l IH]; [done|]. cbn [omap list_omap]. by rewrite child_lifts, IH. Qed.

Lemma elems_lifts ps w : w_elems (lifts ps w) = w_elems w.
Proof. by induction ps. Qed.

Lemma children_lifts ps w e : children (lifts ps w) e = children w e.
Proof. unfold children. rewrite elems_lifts. destruct (w_elems w !! e) as [x|]; [apply childs_lifts|done]. Qed.

(** The elements [es] can be walked, [k] deep. *)
Record walkable (es : list nat) (k : Z) w : Prop := {
  wk_elem : forall e, e ∈ es -> is_Some (w_elems w !! e);
  wk_nodup : forall e x, e ∈ es -> w_elems w !! e = Some x -> NoDup (el_src_pads x);
  wk_pads : forall e x p, e ∈ es -> w_elems w !! e = Some x -> p ∈ el_src_pads x -> roomy k w p;
  wk_peer : forall e x p y q, e ∈ es -> w_elems w !! e = Some x -> p ∈ el_src_pads x ->
    w_pads w !! p = Some y -> pad_peer y = Some q -> roomy k w q;
}.

Lemma walkable_lifts es k ps w : walkable es (k + 1) w -> 0 <= k -> NoDup ps -> walkable es k (lifts ps w).
Proof.
  intros [He Hn Hp Hq] Hk Hnd. pose proof (elems_lifts ps w) as Ee.
  constructor; rewrite ?Ee; [done|done| |].
  - intros e x p Hin Hx Hpin. apply roomy_lifts; [done|done|]. by eapply Hp.
  - intros e x p y q Hin Hx Hpin Hy Epeer. apply roomy_lifts; [done|done|].
    destruct (Hp e x p Hin Hx Hpin) as (z & Hz & _). eapply Hq; [done|done|done|done|].
    revert y Hy Epeer. clear -Hz. induction ps as [|r ps IH]; cbn [lifts foldr]; intros y Hy Epeer; [congruence|].
    rewrite lift_lookup in Hy. destruct (decide _); [|by apply (IH y)].
    destruct (w_pads (foldr lift w ps) !! p) as [y'|] eqn:Ey; [|done]. injection Hy as <-. by apply (IH y').
Qed.

Lemma child_of_pure w p : roomy 1 w p -> (forall y q, w_pads w !! p = Some y -> pad_peer y = Some q -> roomy 1 w q) ->
  child_of p w = Done (child w p, w).
Proof.
  intros (x & Hx & _) Hpeer. unfold child_of, zst_pad_get_peer, child. unfold mbind at 1, M_bind at 1.
  unfold mbind at 1, M_bind at 1. unfold get_pad at 1. rewrite Hx. cbn [mbind option_bind].
  destruct (pad_peer x) as [q|] eqn:Eq; [|done]. pose proof (Hpeer x q Hx Eq) as Hr. pose proof Hr as (y & Hy & _).
  unfold mbind, M_bind, mret, M_ret. rewrite (ref_lift q w) by by eexists. unfold get_pad. rewrite lift_lookup, decide_True by done.
  rewrite Hy. cbn [fmap option_fmap option_map]. rewrite unref_lift by done. cbn [option_bind]. by rewrite Hy.
Qed.

(** ** Walks *)

Context {S : Type}.
Implicit Type s : S.

Lemma through_pure (f : nat -> S -> M U S) (g : nat -> S -> option S) w ps s s' :
  (forall p, p ∈ ps -> child_of p w = Done (child w p, w)) ->
  (forall c s s', g c s = Some s' -> f c s w = Done (s', w)) ->
  ofold g (omap (child w) ps) s = Some s' -> through_pads f ps s w = Done (s', w).
Proof.
  revert s. induction ps as [|p ps IH]; intros s Hps Hf Hg; cbn [through_pads].
  - by injection Hg as ->.
  - unfold mbind, M_bind, mret, M_ret. rewrite Hps by set_solver. cbn in Hg. destruct (child w p) as [c|].
    + cbn [ofold] in Hg. destruct (g c s) as [s1|] eqn:E1; [|done]. cbn in Hg. rewrite (Hf c s s1 E1). apply IH; [set_solver|done|done].
    + apply IH; [set_solver|done|done].
Qed.

Lemma ref_all_lifts ps w : (forall p, p ∈ ps -> is_Some (w_pads w !! p)) -> ref_all ps w = Done (tt, lifts ps w).
Proof.
  revert w. induction ps as [|p ps IH]; intros w Hps; cbn [ref_all]; [done|]. unfold mbind, M_bind.
  rewrite ref_lift by set_solver. rewrite IH; [by rewrite lifts_lift|]. intros q Hq. apply lift_some. set_solver.
Qed.

Lemma free_lifts ps w : NoDup ps -> (forall p, p ∈ ps -> roomy 1 w p) -> zst_element_pad_snapshot_free ps (lifts ps w) = Done (tt, w).
Proof.
  induction ps as [|p ps IH]; intros Hnd Hps; cbn [zst_element_pad_snapshot_free lifts foldr]; [done|]. apply NoDup_cons in Hnd as [Hp Hnd].
  unfold mbind, M_bind. fold (lifts ps w). rewrite unref_lift; [apply IH; [done|set_solver]|].
  assert (roomy 1 w p) as Hr by set_solver. clear -Hr Hp.
  induction ps as [|q ps IH]; [done|]. cbn [lifts foldr]. apply roomy_lift_ne; [apply IH|]; set_solver.
Qed.

(** A walk is a fold over the children, and gives its references back. *)
Lemma walk_pure es k (f : nat -> S -> M U S) (g : nat -> S -> option S) e w s s' :
  walkable es (k + 1) w -> 1 <= k -> e ∈ es ->
  (forall v, walkable es k v -> (forall d, children v d = children w d) -> w_elems v = w_elems w ->
     forall c s s', g c s = Some s' -> f c s v = Done (s', v)) ->
  ofold g (children w e) s = Some s' -> walk_children f e s w = Done (s', w).
Proof.
  intros Hw Hk He Hf Hg. pose proof Hw as [Hse Hnd Hp Hq]. destruct (Hse e He) as [x Hx].
  unfold walk_children, zst_element_snapshot_src_pads, snapshot, mbind, M_bind, mret, M_ret. unfold get_elem at 1. rewrite Hx.
  unfold children in Hg. rewrite Hx in Hg. destruct (el_src_pads x) as [|p0 ps0] eqn:Eps.
  - by injection Hg as ->.
  - rewrite malloc_total. rewrite <-Eps in *. clear Eps p0 ps0. set (ps := el_src_pads x) in *.
    assert (forall p, p ∈ ps -> roomy (k + 1) w p) as Hps by (intros p Hin; by eapply Hp).
    rewrite (ref_all_lifts ps w) by (intros p Hin; destruct (Hps p Hin) as (y & Hy & _); by eexists).
    pose proof (walkable_lifts es k ps w Hw ltac:(lia) (Hnd e x He Hx)) as Hw1.
    pose proof (elems_lifts ps w) as Ee.
    rewrite (through_pure f g (lifts ps w) ps s s').
    + rewrite free_lifts; [done|by apply (Hnd e x)|]. intros p Hin. eapply roomy_less; [by apply Hps|lia].
    + intros p Hin. destruct Hw1 as [_ _ Hp1 Hq1]. rewrite Ee in *. apply child_of_pure.
      * eapply roomy_less; [by eapply Hp1|lia].
      * intros y q Hy Epeer. eapply roomy_less; [by eapply Hq1|lia].
    + intros c t t' Et. apply (Hf (lifts ps w)); [done|intros d; apply children_lifts|done|done].
    + by rewrite childs_lifts.
Qed.
End walk.
