(* ===== verification/PipelineSort.v ===== *)
(** * The order and the ranks of a pipeline's elements: [Pipeline]

    The depth-first walks of the pipeline as functions of the graph alone, and what they
    compute: an order in which every link points forward, ranks that are the lengths of
    the longest ways from the sources, the number of elements downstream. *)

From Stdlib Require Import String SpecFloat.
From stdpp Require Import relations.
From S2P Require Import Prelude CLib Pad Caps BufferPool Graph PadOps PadFlow PadPush Element Pipeline PipelineWalk.

Local Open Scope Z_scope.

(** ** Indices and flags *)

Lemma index_of_lookup e l i : index_of e l = Some i -> l !! i = Some e.
Proof.
  revert i. induction l as [|x l IH]; intros i; cbn [index_of]; [done|]. destruct (Nat.eqb_spec x e) as [->|].
  - by intros [= <-].
  - destruct (index_of e l) as [j|] eqn:Ej; [|done]. intros [= <-]. by apply IH.
Qed.

Lemma index_of_in e l : e ∈ l <-> is_Some (index_of e l).
Proof.
  split.
  - induction l as [|x l IH]; intros He; [by apply not_elem_of_nil in He|]. cbn [index_of]. destruct (Nat.eqb_spec x e); [by eexists|].
    apply elem_of_cons in He as [->|He]; [done|]. destruct (IH He) as [i ->]. by eexists.
  - intros [i Hi%index_of_lookup]. by eapply list_elem_of_lookup_2.
Qed.

Lemma index_of_nodup e l i : NoDup l -> l !! i = Some e -> index_of e l = Some i.
Proof.
  intros Hnd Hi. destruct (proj1 (index_of_in e l)) as [j Hj]; [by eapply list_elem_of_lookup_2|].
  rewrite Hj. f_equal. eapply NoDup_lookup; [done|by apply index_of_lookup|done].
Qed.

(** The flag of an element. *)
Definition seen (els : list nat) (v : list bool) (e : nat) : Prop := exists i, index_of e els = Some i /\ flagged v i = true.

Lemma flagged_insert v i j b : (i < length v)%nat -> flagged (<[i := b]> v) j = if decide (j = i) then b else flagged v j.
Proof.
  intros Hi. unfold flagged. destruct (decide (j = i)) as [->|Hne]; [by rewrite list_lookup_insert_eq|by rewrite list_lookup_insert_ne].
Qed.

Lemma seen_insert els v e i x : index_of e els = Some i -> length v = length els ->
  seen els (<[i := true]> v) x <-> seen els v x \/ x = e.
Proof.
  intros Hi Hl. assert (i < length v)%nat as Hlt by (rewrite Hl; by eapply lookup_lt_Some, index_of_lookup). unfold seen. split.
  - intros (j & Hj & Hf). rewrite flagged_insert in Hf by done. destruct (decide (j = i)) as [->|]; [|left; by exists j].
    right. apply index_of_lookup in Hi, Hj. congruence.
  - intros [(j & Hj & Hf)| ->]; [exists j|exists i]; rewrite flagged_insert by done; (split; [done|]); [by destruct (decide _)|by rewrite decide_True].
Qed.

Lemma seen_none els x : ~ seen els (repeat false (length els)) x.
Proof.
  intros (i & Hi & Hf). unfold flagged in Hf. apply index_of_lookup, lookup_lt_Some in Hi.
  destruct (repeat _ _ !! i) as [b|] eqn:E; [|done]. cbn in Hf. subst b. apply list_elem_of_lookup_2, list_elem_of_In, repeat_spec in E. done.
Qed.

Section dfs.
Context (els : list nat) (succ : nat -> list nat).

(** A link between two elements of the pipeline. *)
Definition edge (u v : nat) : Prop := v ∈ succ u /\ v ∈ els.
Definition acyclic : Prop := forall x, ~ tc edge x x.

(** ** The sort *)

Fixpoint psort (n : nat) (e : nat) (s : sorting) : option sorting :=
  match n with
  | O => None
  | S n =>
      match index_of e els with
      | None => Some s
      | Some i =>
          if flagged (visited s) i then Some s
          else
            s ← ofold (psort n) (succ e) (mk_sorting (<[i := true]> (visited s)) (temp s));
            if (length (temp s) <? length els)%nat then Some (mk_sorting (visited s) (e :: temp s)) else None
      end
  end.

(** Every link from an element of the list leads to a later one. *)
Fixpoint ordered (l : list nat) : Prop :=
  match l with [] => True | u :: l => (forall v, edge u v -> v ∈ l) /\ ordered l end.

(** [G] is the way the walk has come; what is visited is on it or sorted. *)
Record sorted_to (G : list nat) (s : sorting) : Prop := {
  st_length : length (visited s) = length els;
  st_first : forall i, flagged (visited s) i = true -> exists e, index_of e els = Some i;
  st_seen : forall x, seen els (visited s) x <-> x ∈ G \/ x ∈ temp s;
  st_nodup : NoDup (G ++ temp s);
  st_in : forall x, x ∈ G \/ x ∈ temp s -> x ∈ els;
}.

Definition grows (s s' : sorting) : Prop := exists new, temp s' = new ++ temp s.

Lemma grows_refl s : grows s s.
Proof. by exists []. Qed.
Lemma grows_trans s1 s2 s3 : grows s1 s2 -> grows s2 s3 -> grows s1 s3.
Proof. intros [l1 E1] [l2 E2]. exists (l2 ++ l1). by rewrite E2, E1, app_assoc. Qed.
Lemma grows_in s s' x : grows s s' -> x ∈ temp s -> x ∈ temp s'.
Proof. intros [l ->] Hx. set_solver. Qed.

(** What a call of the walk does. *)
Definition sorts (G : list nat) (e : nat) (s s' : sorting) : Prop :=
  sorted_to G s' /\ grows s s' /\ (e ∈ els -> e ∈ G \/ e ∈ temp s') /\
  (acyclic -> (e ∈ els -> forall g, g ∈ G -> tc edge g e) -> ordered (temp s) -> ordered (temp s')).

Lemma sorts_fold n G cs s :
  (forall c s, c ∈ cs -> sorted_to G s -> exists s', psort n c s = Some s' /\ sorts G c s s') -> sorted_to G s ->
  exists s', ofold (psort n) cs s = Some s' /\ sorted_to G s' /\ grows s s' /\
    (forall c, c ∈ cs -> c ∈ els -> c ∈ G \/ c ∈ temp s') /\
    (acyclic -> (forall c, c ∈ cs -> c ∈ els -> forall g, g ∈ G -> tc edge g c) -> ordered (temp s) -> ordered (temp s')).
Proof.
  revert s. induction cs as [|c cs IH]; intros s Hcs Hs; cbn [ofold].
  - exists s. split_and!; [done|done|apply grows_refl|set_solver|done].
  - destruct (Hcs c s) as (s1 & -> & Hs1 & G1 & In1 & Or1); [set_solver|done|]. cbn [mbind option_bind].
    destruct (IH s1) as (s2 & -> & Hs2 & G2 & In2 & Or2); [intros; apply Hcs; [set_solver|done]|done|].
    exists s2. split_and!; [done|done|by eapply grows_trans| |].
    + intros d [->|Hd]%elem_of_cons He; [|by apply In2]. destruct (In1 He) as [?|?]; [by left|right; by eapply grows_in].
    + intros Ha Hp Ho. apply Or2; [done|intros d Hd; apply Hp; set_solver|]. apply Or1; [done| |done]. intros He. apply Hp; [set_solver|done].
Qed.

Lemma psort_ok n e s G : (length els < n + length G)%nat -> sorted_to G s -> exists s', psort n e s = Some s' /\ sorts G e s s'.
Proof.
  revert e s G. induction n as [|n IH]; intros e s G Hn Hs; pose proof Hs as [Hlen Hfirst Hseen Hnd Hin].
  - exfalso. assert (length G <= length els)%nat; [|lia]. apply NoDup_app in Hnd as (Hnd & _ & _). apply submseteq_length, NoDup_submseteq; [done|].
    intros x Hx. apply Hin. by left.
  - cbn [psort]. destruct (index_of e els) as [i|] eqn:Ei.
    2: { exists s. split; [done|]. split_and!; [done|apply grows_refl| |done]. intros He%index_of_in. rewrite Ei in He. by destruct He. }
    assert (e ∈ els) as He by (apply index_of_in; by eexists).
    destruct (flagged (visited s) i) eqn:Ef.
    { exists s. split; [done|]. split_and!; [done|apply grows_refl| |done]. intros _. apply Hseen. by exists i. }
    assert ((e ∉ G) /\ (e ∉ temp s)) as [HeG Het].
    { split; intros Hx; assert (seen els (visited s) e) as (j & Hj & Hf) by (apply Hseen; auto); rewrite Ei in Hj; injection Hj as <-; congruence. }
    set (s0 := mk_sorting (<[i := true]> (visited s)) (temp s)).
    assert (sorted_to (e :: G) s0) as Hs0.
    { constructor; cbn [visited temp s0].
      - by rewrite length_insert.
      - intros j. rewrite flagged_insert by (rewrite Hlen; by eapply lookup_lt_Some, index_of_lookup).
        destruct (decide (j = i)) as [->|]; [by exists e|apply Hfirst].
      - intros x. rewrite (seen_insert _ _ e) by done. rewrite Hseen, elem_of_cons. tauto.
      - rewrite <-app_comm_cons. apply NoDup_cons. split; [|done]. rewrite elem_of_app. tauto.
      - intros x [[->|Hx]%elem_of_cons|Hx]; [done|apply Hin; by left|apply Hin; by right]. }
    destruct (sorts_fold n (e :: G) (succ e) s0) as (s1 & -> & Hs1 & G1 & In1 & Or1); [|done|].
    { intros c t _ Ht. apply IH; [cbn [length]; lia|done]. }
    cbn [mbind option_bind]. pose proof Hs1 as [Hlen1 Hfirst1 Hseen1 Hnd1 Hin1].
    assert (length (temp s1) < length els)%nat as Hlt.
    { assert (length (e :: temp s1) <= length els)%nat as Hle; [|cbn in Hle; lia]. apply submseteq_length, NoDup_submseteq.
      - rewrite <-app_comm_cons in Hnd1. apply NoDup_cons in Hnd1 as [He1 Hnd1]. apply NoDup_app in Hnd1 as (_ & _ & Hnd1).
        apply NoDup_cons. split; [|done]. intros Hx. apply He1, elem_of_app. by right.
      - intros x [->|Hx]%elem_of_cons; [done|]. apply Hin1. by right. }
    rewrite (proj2 (Nat.ltb_lt _ _)) by done. eexists. split; [done|]. split_and!.
    + constructor; cbn [visited temp].
      * done.
      * done.
      * intros x. rewrite Hseen1, !elem_of_cons. tauto.
      * rewrite <-app_comm_cons in Hnd1. apply NoDup_cons in Hnd1 as [He1 Hnd1]. apply NoDup_app in Hnd1 as (N1 & N2 & N3).
        apply NoDup_app. split_and!; [done| |apply NoDup_cons; split; [set_solver|done]].
        intros x Hx [->|Hx']%elem_of_cons; [done|]. by apply (N2 x).
      * intros x [Hx|[->|Hx]%elem_of_cons]; [apply Hin1; set_solver|done|apply Hin1; by right].
    + eapply grows_trans; [exact G1|]. by exists [e].
    + intros _. right. cbn. set_solver.
    + intros Ha Hp Ho. cbn [temp ordered].
      assert (forall c, edge e c -> forall g, g ∈ e :: G -> tc edge g c) as Hway.
      { intros c Hc g [->|Hg]%elem_of_cons; [by apply tc_once|]. eapply tc_r; [by apply Hp|done]. }
      split.
      * intros v [Hv1 Hv2]. destruct (In1 v Hv1 Hv2) as [Hg|]; [|done]. exfalso. apply (Ha v). by eapply Hway.
      * apply Or1; [done| |done]. intros c Hc Hce. by apply Hway.
Qed.

Lemma sorted_start : sorted_to [] (mk_sorting (repeat false (length els)) []).
Proof.
  constructor; cbn [visited temp].
  - by rewrite repeat_length.
  - intros i Hf. unfold flagged in Hf. destruct (repeat _ _ !! i) as [b|] eqn:E; [|done]. cbn in Hf. subst b.
    apply list_elem_of_lookup_2, list_elem_of_In, repeat_spec in E. done.
  - intros x. split; [intros Hx; by apply seen_none in Hx|]. intros [Hx|Hx]; by apply not_elem_of_nil in Hx.
  - constructor.
  - intros x [Hx|Hx]; by apply not_elem_of_nil in Hx.
Qed.

(** All elements sorted, in the order in which the walks are begun. *)
Lemma psort_all l : els ⊆ l ->
  exists s, ofold (psort (S (length els))) l (mk_sorting (repeat false (length els)) []) = Some s /\
    sorted_to [] s /\ (forall e, e ∈ els -> e ∈ temp s) /\ (acyclic -> ordered (temp s)).
Proof.
  intros Hl. destruct (sorts_fold (S (length els)) [] l (mk_sorting (repeat false (length els)) [])) as (s & -> & Hs & _ & Hin & Ho).
  - intros c s _ Hs. apply psort_ok; [cbn; lia|done].
  - apply sorted_start.
  - exists s. split_and!; [done|done| |].
    + intros e He. destruct (Hin e) as [Hx|]; [by apply Hl|done|by apply not_elem_of_nil in Hx|done].
    + intros Ha. apply Ho; [done| |done]. intros c _ _ g Hg. by apply not_elem_of_nil in Hg.
Qed.

(** Each link leads from an element to a later one. *)
Lemma ordered_forward l i j u v : ordered l -> NoDup l -> l !! i = Some u -> l !! j = Some v -> edge u v -> (i < j)%nat.
Proof.
  revert i j. induction l as [|x l IH]; intros i j Ho Hnd Hi Hj He; [done|]. destruct Ho as [Hx Ho]. apply NoDup_cons in Hnd as [Hn Hnd].
  destruct i as [|i], j as [|j]; cbn in Hi, Hj.
  - injection Hi as ->. injection Hj as ->. exfalso. by apply Hn, Hx.
  - lia.
  - injection Hj as ->. exfalso. apply Hn. assert (forall k w, l !! k = Some w -> edge w v -> v ∈ l) as Hk; [|by eapply Hk].
    clear -Ho. induction l as [|y l IH]; intros k w Hk Hw; [done|]. destruct Ho as [Hy Ho]. destruct k as [|k]; cbn in Hk.
    + injection Hk as ->. apply elem_of_cons. right. by apply Hy.
    + apply elem_of_cons. right. by eapply IH.
  - assert (i < j)%nat; [by eapply IH|lia].
Qed.
End dfs.

(** ** The sort in the world *)

Section world_sort.
Context {U : Type} `{HasPipeline U} `{CMemoryOk} (self : nat).
Implicit Types (w v : world U).

Lemma dfs_sort_pure els n e s s' w : walkable els (Z.of_nat n + 1) w -> psort els (children w) n e s = Some s' ->
  dfs_sort n els e s w = Done (s', w).
Proof.
  intros Hw Hp. revert e s s' w Hw Hp. induction n as [|n IH]; intros e s s' w Hw; cbn [psort dfs_sort]; [done|].
  destruct (index_of e els) as [i|] eqn:Ei; [|by intros [= ->]]. destruct (flagged (visited s) i); [by intros [= ->]|].
  destruct (ofold _ _ _) as [s1|] eqn:E1; [|done]. cbn [mbind option_bind]. intros Hlt. unfold mbind, M_bind.
  rewrite (walk_pure els (Z.of_nat n + 1) _ (psort els (children w) n) e w _ s1).
  - destruct (_ <? _)%nat; [by injection Hlt as <-|done].
  - replace (Z.of_nat n + 1 + 1) with (Z.of_nat (S n) + 1) by lia. done.
  - lia.
  - apply index_of_in. by eexists.
  - intros v Hv Hch _ c t t' Et. apply IH; [done|]. rewrite <-Et. clear -Hch. revert c t. induction n as [|n IH]; intros c t; cbn [psort]; [done|].
    destruct (index_of c els); [|done]. destruct (flagged _ _); [done|]. rewrite Hch. f_equal. apply ofold_ext. intros; apply IH.
  - done.
Qed.

(** The elements without sink pads. *)
Definition no_sinks w (e : nat) : bool :=
  match w_elems w !! e with Some x => match el_sink_pads x with [] => true | _ => false end | None => false end.

Lemma sort_sources_pure els n rest s s' w : walkable els (Z.of_nat n + 1) w -> rest ⊆ els ->
  ofold (psort els (children w) n) (List.filter (no_sinks w) rest) s = Some s' -> sort_sources n els rest s w = Done (s', w).
Proof.
  intros Hw. revert s. induction rest as [|e rest IH]; intros s Hsub; cbn [sort_sources List.filter ofold]; [by intros [= ->]|].
  unfold mbind, M_bind, mret, M_ret. destruct (wk_elem _ _ _ Hw e) as [x Hx]; [set_solver|]. unfold get_elem. rewrite Hx. unfold no_sinks at 1. rewrite Hx.
  assert (rest ⊆ els) as Hsub' by set_solver. destruct (el_sink_pads x); [|by apply IH].
  cbn [ofold]. destruct (psort _ _ n e s) as [s1|] eqn:E1; [|done]. rewrite (dfs_sort_pure _ _ _ _ s1 w Hw E1). by apply IH.
Qed.

Lemma sort_rest_pure els n i rest s s' w : walkable els (Z.of_nat n + 1) w -> (length els < n)%nat -> sorted_to els [] s ->
  drop i els = rest ->
  ofold (psort els (children w) n) rest s = Some s' -> sort_rest n els i rest s w = Done (s', w).
Proof.
  intros Hw Hn. revert i s. induction rest as [|e rest IH]; intros i s Hs Hd; cbn [sort_rest ofold]; [by intros [= ->]|].
  assert (els !! i = Some e) as Hi by (rewrite <-(Nat.add_0_r i), <-lookup_drop, Hd; done).
  assert (drop (S i) els = rest) as Hd' by (by rewrite <-Nat.add_1_r, <-drop_drop, Hd).
  destruct (psort_ok els (children w) n e s []) as (s1 & E1 & Hs1); [cbn; lia|done|]. rewrite E1. cbn [mbind option_bind].
  unfold mbind, M_bind, mret, M_ret. destruct (flagged (visited s) i) eqn:Ef; [|rewrite (dfs_sort_pure _ _ _ _ s1 w Hw E1); apply IH; [by destruct Hs1|done]].
  assert (s1 = s) as ->; [|by apply IH]. destruct n as [|n]; [lia|]. cbn [psort] in E1.
  destruct (st_first _ _ _ Hs i Ef) as (e' & He'). pose proof (index_of_lookup _ _ _ He') as Hi'. rewrite Hi in Hi'. injection Hi' as <-.
  rewrite He', Ef in E1. by injection E1.
Qed.

Lemma sort_all_pure els w : walkable els (zlen els + 2) w ->
  exists s s1, sort_sources (S (length els)) els els (mk_sorting (repeat false (length els)) []) w = Done (s1, w) /\
    sort_rest (S (length els)) els 0 els s1 w = Done (s, w) /\
    NoDup (temp s) /\ (forall e, e ∈ temp s <-> e ∈ els) /\ (acyclic els (children w) -> ordered els (children w) (temp s)).
Proof.
  intros Hw. set (n := S (length els)). assert (walkable els (Z.of_nat n + 1) w) as Hw1.
  { replace (Z.of_nat n + 1) with (zlen els + 2) by (unfold n, zlen; lia). done. }
  set (srcs := List.filter (no_sinks w) els). destruct (psort_all els (children w) (srcs ++ els)) as (s & Es & Hs & Hall & Ho); [set_solver|].
  fold n in Es. rewrite ofold_app in Es. destruct (ofold _ srcs _) as [s1|] eqn:E1; [|done]. cbn [mbind option_bind] in Es.
  destruct (sorts_fold els (children w) n [] srcs _ ltac:(intros; apply psort_ok; [cbn; lia|done]) (sorted_start els)) as (s2 & E2 & Hs1 & _).
  rewrite E1 in E2. injection E2 as <-. exists s, s1. split; [by apply sort_sources_pure|]. split; [apply sort_rest_pure; try done; unfold n; lia|].
  destruct Hs as [_ _ _ Hnd Hin]. split; [done|]. split; [|done]. intros e. split; [|apply Hall]. intros He. apply Hin. by right.
Qed.
End world_sort.

(** ** Ranks *)

Section ranks.
Context (els : list nat) (succ : nat -> list nat).
Local Notation edge := (edge els succ).

Fixpoint pranks (n : nat) (e : nat) (r : Z) (s : list bool * gmap nat Z) : option (list bool * gmap nat Z) :=
  match n with
  | O => None
  | S n =>
      match index_of e els with
      | None => Some s
      | Some i =>
          let ranks := if get_rank s.2 e <? r then <[e := r]> s.2 else s.2 in
          if flagged s.1 i then Some (s.1, ranks)
          else
            s ← ofold (fun c s => pranks n c (u32 (get_rank s.2 e + 1)) s) (succ e) (<[i := true]> s.1, ranks);
            Some (<[i := false]> s.1, s.2)
      end
  end.

(** A bound of the ranks that grows along every link: there is one when no way along the
    links is closed. *)
Record height (L : nat -> Z) : Prop := {
  hg_range : forall x, 0 <= L x < UINT32_MAX;
  hg_edge : forall u v, u ∈ els -> edge u v -> L u < L v;
}.

Definition bounded (L : nat -> Z) (ranks : gmap nat Z) : Prop := forall x, x ∈ els -> 0 <= get_rank ranks x <= L x.

(** Every element behind [x] has a greater rank. *)
Definition settled (ranks : gmap nat Z) (x : nat) : Prop := forall y, edge x y -> get_rank ranks x < get_rank ranks y.

Definition raised (ranks ranks' : gmap nat Z) : Prop := forall x, get_rank ranks x <= get_rank ranks' x.

(** The flags are those of the way [G]. *)
Record on_way (G : list nat) (v : list bool) : Prop := {
  ow_length : length v = length els;
  ow_seen : forall x, seen els v x <-> x ∈ G;
  ow_nodup : NoDup G;
  ow_in : G ⊆ els;
}.

(** The elements reached from [e], itself included. *)
Definition reached (e x : nat) : Prop := e ∈ els /\ rtc edge e x.

Lemma reached_in e x : reached e x -> x ∈ els.
Proof. intros [He Hr]. induction Hr as [|e y x [_ Hy] _ IH]; [done|by apply IH]. Qed.

Lemma height_reached L e x : height L -> reached e x -> L e <= L x.
Proof.
  intros HL [He Hr]. induction Hr as [|e y x Hy _ IH]; [lia|]. pose proof (hg_edge _ HL e y He Hy). destruct Hy as [_ Hy]. specialize (IH Hy). lia.
Qed.

(** What a call that starts with [e] at rank [r] does to the ranks. *)
Record ranked (L : nat -> Z) (e : nat) (r : Z) (ranks ranks' : gmap nat Z) : Prop := {
  rk_bounded : bounded L ranks';
  rk_raised : raised ranks ranks';
  rk_start : e ∈ els -> r <= get_rank ranks' e;
  rk_settled : forall x, reached e x -> settled ranks' x;
  rk_other : forall x, reached e x \/ get_rank ranks' x = get_rank ranks x;
}.

Lemma raised_refl ranks : raised ranks ranks.
Proof. intros x. lia. Qed.
Lemma raised_trans r1 r2 r3 : raised r1 r2 -> raised r2 r3 -> raised r1 r3.
Proof. intros H1 H2 x. specialize (H1 x). specialize (H2 x). lia. Qed.

Lemma settled_kept (P : nat -> Prop) ranks ranks' x :
  raised ranks ranks' -> (forall x, P x -> settled ranks' x) -> (forall x, P x \/ get_rank ranks' x = get_rank ranks x) ->
  settled ranks x -> settled ranks' x.
Proof.
  intros Hr Hs Ho Hx. destruct (Ho x) as [Hp|Heq]; [by apply Hs|]. intros y Hy. rewrite Heq. specialize (Hx y Hy). specialize (Hr y). lia.
Qed.

(** The children of [e], one after the other; [R] is its own rank. *)
Lemma ranks_fold L n G e R cs v ranks :
  (forall c r v ranks, c ∈ cs -> on_way G v -> bounded L ranks -> 0 <= r -> (c ∈ els -> r <= L c) ->
     exists v' ranks', pranks n c r (v, ranks) = Some (v', ranks') /\ on_way G v' /\ ranked L c r ranks ranks') ->
  height L -> (forall c, c ∈ cs -> c ∈ els -> L e < L c) -> R < UINT32_MAX -> 0 <= R ->
  (forall c, c ∈ cs -> c ∈ els -> R < L c) ->
  on_way G v -> bounded L ranks -> get_rank ranks e = R ->
  exists v' ranks', ofold (fun c s => pranks n c (u32 (get_rank s.2 e + 1)) s) cs (v, ranks) = Some (v', ranks') /\
    on_way G v' /\ bounded L ranks' /\ raised ranks ranks' /\ get_rank ranks' e = R /\
    (forall c, c ∈ cs -> c ∈ els -> R < get_rank ranks' c) /\
    (forall x, (exists c, c ∈ cs /\ reached c x) -> settled ranks' x) /\
    (forall x, (exists c, c ∈ cs /\ reached c x) \/ get_rank ranks' x = get_rank ranks x).
Proof.
  intros Hcs HL Hlt HR HR0 Hroom. revert v ranks. induction cs as [|c cs IH]; intros v ranks Hw Hb He; cbn [ofold].
  - exists v, ranks. split_and!; [done|done|done|apply raised_refl|done|set_solver|set_solver|by right].
  - cbn [snd]. rewrite He, u32_small by (unfold UINT32_MAX in *; lia).
    destruct (Hcs c (R + 1) v ranks) as (v1 & r1 & -> & Hw1 & [B1 U1 S1 T1 O1]); [set_solver|done|done|lia| |].
    { intros Hce. specialize (Hroom c ltac:(set_solver) Hce). lia. }
    cbn [mbind option_bind].
    assert (get_rank r1 e = R) as He1.
    { destruct (O1 e) as [Hr| ->]; [|done]. exfalso. pose proof (height_reached L c e HL Hr). destruct Hr as [Hce _].
      specialize (Hlt c ltac:(set_solver) Hce). lia. }
    destruct IH with (v := v1) (ranks := r1) as (v2 & r2 & -> & Hw2 & B2 & U2 & He2 & S2 & T2 & O2); try done.
    { intros. apply Hcs; try done. set_solver. } { intros d Hd. apply Hlt. set_solver. } { intros d Hd. apply Hroom. set_solver. }
    exists v2, r2. split_and!; [done|done|done|by eapply raised_trans|done| | |].
    + intros d [->|Hd]%elem_of_cons Hde; [|by apply S2]. specialize (S1 Hde). specialize (U2 c). lia.
    + intros x (d & [->|Hd]%elem_of_cons & Hx); [|apply T2; by exists d].
      eapply (settled_kept _ r1 r2 x U2 T2 O2). by apply T1.
    + intros x. destruct (O2 x) as [(d & Hd & Hx)|E2]; [left; exists d; set_solver|]. destruct (O1 x) as [Hx|E1]; [left; exists c; set_solver|].
      right. congruence.
Qed.

Lemma pranks_ok L n e r v ranks G : height L ->
  (length els < n + length G)%nat -> on_way G v -> (e ∈ els -> forall g, g ∈ G -> L g < L e) ->
  bounded L ranks -> 0 <= r -> (e ∈ els -> r <= L e) ->
  exists v' ranks', pranks n e r (v, ranks) = Some (v', ranks') /\ on_way G v' /\ ranked L e r ranks ranks'.
Proof.
  intros HL. revert e r v ranks G. induction n as [|n IH]; intros e r v ranks G Hn Hw HG Hb Hr0 Hr; pose proof Hw as [Hlen Hseen Hnd Hin].
  { exfalso. assert (length G <= length els)%nat; [|lia]. by apply submseteq_length, NoDup_submseteq. }
  cbn [pranks fst snd]. destruct (index_of e els) as [i|] eqn:Ei.
  2: { assert (~ (e ∈ els)) as He by (rewrite index_of_in, Ei; by intros [? ?]). exists v, ranks. split; [done|]. split; [done|].
       constructor; [done|apply raised_refl|done|by intros x [? _]|by right]. }
  assert (e ∈ els) as He by (apply index_of_in; by eexists).
  assert (flagged v i = false) as ->.
  { destruct (flagged v i) eqn:Ef; [|done]. exfalso. assert (e ∈ G) as Hg by (apply Hseen; by exists i). specialize (HG He e Hg). lia. }
  set (ranks0 := if get_rank ranks e <? r then <[e := r]> ranks else ranks). set (R := get_rank ranks0 e).
  assert (forall x, get_rank ranks0 x = if decide (x = e) then Z.max r (get_rank ranks e) else get_rank ranks x) as Hr0x.
  { intros x. unfold ranks0, get_rank. destruct (Z.ltb_spec (default 0 (ranks !! e)) r), (decide (x = e)) as [->|Hne].
    - rewrite lookup_insert_eq. cbn. lia.
    - by rewrite lookup_insert_ne.
    - lia.
    - done. }
  assert (bounded L ranks0) as Hb0.
  { intros x Hx. rewrite Hr0x. specialize (Hr He). specialize (Hb x Hx). destruct (decide (x = e)) as [-> |]; lia. }
  assert (i < length v)%nat as Hi by (rewrite Hlen; by eapply lookup_lt_Some, index_of_lookup).
  assert (~ (e ∈ G)) as HeG by (intros Hg; specialize (HG He e Hg); lia).
  assert (on_way (e :: G) (<[i := true]> v)) as Hw0.
  { constructor; [by rewrite length_insert| |by apply NoDup_cons|set_solver]. intros x. rewrite (seen_insert _ _ e) by done. rewrite Hseen, elem_of_cons. tauto. }
  destruct (ranks_fold L n (e :: G) e R (succ e) (<[i := true]> v) ranks0) as (v1 & r1 & -> & [Hlen1 Hseen1 _ _] & B1 & U1 & He1 & S1 & T1 & O1); try done.
  { intros c r' v' ranks' Hc Hw' Hb' Hr' Hrc. apply IH; try done; [cbn; lia|]. intros Hce g [->|Hg]%elem_of_cons.
    - by apply (hg_edge _ HL).
    - specialize (HG He g Hg). pose proof (hg_edge _ HL e c He (conj Hc Hce)). lia. }
  { intros c Hc Hce. by apply (hg_edge _ HL). } { specialize (Hb0 e He). pose proof (hg_range _ HL e). unfold R. lia. } { by apply Hb0. }
  { intros c Hc Hce. specialize (Hb0 e He). pose proof (hg_edge _ HL e c He (conj Hc Hce)). unfold R. lia. }
  cbn [mbind option_bind fst snd]. eexists _, _. split; [done|].
  assert (raised ranks ranks0) as U0 by (intros x; rewrite Hr0x; destruct (decide _) as [->|]; lia). split.
  - constructor; [by rewrite length_insert| |done|done]. intros x. split.
    + intros (j & Hj & Hf). rewrite flagged_insert in Hf by (by rewrite Hlen1, <-Hlen). destruct (decide (j = i)) as [->|Hne]; [done|].
      assert (x ∈ e :: G) as [->|]%elem_of_cons by (apply Hseen1; by exists j); [congruence|done].
    + intros Hx. assert (seen els v1 x) as (j & Hj & Hf) by (apply Hseen1; set_solver). exists j. split; [done|].
      rewrite flagged_insert by (by rewrite Hlen1, <-Hlen). destruct (decide (j = i)) as [->|]; [|done].
      apply index_of_lookup in Hj, Ei. congruence.
  - constructor.
    + done.
    + by eapply raised_trans.
    + intros _. rewrite He1. unfold R. rewrite Hr0x, decide_True by done. lia.
    + intros x [_ Hx]. inversion Hx as [|? y ? Hy Hyx]; subst.
      * intros y [Hy1 Hy2]. rewrite He1. by apply S1.
      * apply T1. exists y. destruct Hy as [Hy1 Hy2]. done.
    + intros x. destruct (O1 x) as [(c & Hc & [Hce Hx])| ->]; [left; split; [done|]; by eapply rtc_l|].
      rewrite Hr0x. destruct (decide (x = e)) as [->|]; [left; by split|by right].
Qed.
End ranks.

(** ** Elements downstream *)

Section count.
Context (els : list nat) (succ : nat -> list nat) (is_type : nat -> bool).
Local Notation edge := (edge els succ).

Fixpoint pcount (n : nat) (e : nat) (s : list bool * Z) : option (list bool * Z) :=
  match n with
  | O => None
  | S n =>
      ofold (fun child s =>
        match index_of child els with
        | None => Some s
        | Some i =>
            if flagged s.1 i then Some s
            else pcount n child (<[i := true]> s.1, s.2 + (if is_type child then 1 else 0))
        end) (succ e) s
  end.

(** The flags are those of the elements [V]. *)
Definition marks (V : list nat) (v : list bool) : Prop :=
  length v = length els /\ (forall x, seen els v x <-> x ∈ V) /\ NoDup V /\ V ⊆ els.

Definition of_type (l : list nat) : Z := zlen (List.filter is_type l).

Lemma of_type_app l1 l2 : of_type (l1 ++ l2) = of_type l1 + of_type l2.
Proof. unfold of_type. by rewrite List.filter_app, zlen_app. Qed.

Lemma of_type_cons e l : of_type (e :: l) = (if is_type e then 1 else 0) + of_type l.
Proof. unfold of_type. cbn [List.filter]. destruct (is_type e); [|done]. unfold zlen. cbn [length]. lia. Qed.

(** What a walk from [e] marks: [new], all behind [e], and all that is behind them. *)
Record marked (V new : list nat) (e : nat) (v v' : list bool) (k k' : Z) : Prop := {
  mk_marks : marks (V ++ new) v';
  mk_count : k' = k + of_type new;
  mk_reached : forall x, x ∈ new -> tc edge e x;
  mk_children : forall c, edge e c -> c ∈ V ++ new;
  mk_closed : forall x y, x ∈ new -> edge x y -> y ∈ V ++ new;
}.

Lemma pcount_ok n e v k V : (length els < n + length V)%nat -> marks V v ->
  exists new v' k', pcount n e (v, k) = Some (v', k') /\ marked V new e v v' k k'.
Proof.
  revert e v k V. induction n as [|n IH]; intros e v k V Hn Hm.
  { exfalso. destruct Hm as (_ & _ & Hnd & Hin). assert (length V <= length els)%nat; [|lia]. by apply submseteq_length, NoDup_submseteq. }
  cbn [pcount]. assert (forall cs, (forall c, c ∈ cs -> c ∈ succ e) -> forall v k V, (length els < S n + length V)%nat -> marks V v ->
    exists new v' k', ofold (fun child s => match index_of child els with
        | None => Some s
        | Some i => if flagged s.1 i then Some s
                    else pcount n child (<[i := true]> s.1, s.2 + (if is_type child then 1 else 0)) end) cs (v, k) = Some (v', k') /\
      marks (V ++ new) v' /\ k' = k + of_type new /\ (forall x, x ∈ new -> tc edge e x) /\
      (forall c, c ∈ cs -> c ∈ els -> c ∈ V ++ new) /\ (forall x y, x ∈ new -> edge x y -> y ∈ V ++ new)) as Hfold.
  2: { destruct (Hfold (succ e) ltac:(done) v k V Hn Hm) as (new & v' & k' & -> & H1 & H2 & H3 & H4 & H5).
       exists new, v', k'. split; [done|]. constructor; try done. intros c [Hc Hce]. by apply H4. }
  clear v k V Hn Hm. induction cs as [|c cs IHcs]; intros Hcs v k V Hn Hm; cbn [ofold].
  { exists [], v, k. rewrite app_nil_r. split; [done|]. split; [done|]. split; [change (of_type []) with 0; lia|].
    split; [by intros x Hx%elem_of_nil|]. split; [by intros c Hc%elem_of_nil|by intros x y Hx%elem_of_nil]. }
  cbn [fst snd]. pose proof Hm as (Hlen & Hseen & Hnd & Hin).
  destruct (index_of c els) as [i|] eqn:Ei; cbn [mbind option_bind].
  2: { destruct (IHcs ltac:(set_solver) v k V Hn Hm) as (new & v' & k' & -> & H1 & H2 & H3 & H4 & H5). exists new, v', k'. split_and!; try done.
       intros d [->|Hd]%elem_of_cons Hde; [|by apply H4]. apply index_of_in in Hde as [? ?]. congruence. }
  assert (c ∈ els) as Hce by (apply index_of_in; by eexists).
  destruct (flagged v i) eqn:Ef; cbn [mbind option_bind].
  { destruct (IHcs ltac:(set_solver) v k V Hn Hm) as (new & v' & k' & -> & H1 & H2 & H3 & H4 & H5). exists new, v', k'. split_and!; try done.
    intros d [->|Hd]%elem_of_cons Hde; [|by apply H4]. apply elem_of_app. left. apply Hseen. by exists i. }
  assert (~ (c ∈ V)) as HcV by (intros (j & Hj & Hf)%Hseen; rewrite Ei in Hj; injection Hj as <-; congruence).
  destruct (IH c (<[i := true]> v) (k + (if is_type c then 1 else 0)) (V ++ [c])) as (new1 & v1 & k1 & -> & [M1 C1 R1 D1 F1]).
  { rewrite length_app. cbn. lia. }
  { split_and!; [by rewrite length_insert| |apply NoDup_app; split_and!; [done|set_solver|apply NoDup_singleton]|set_solver].
    intros x. rewrite (seen_insert _ _ c) by done. rewrite Hseen. set_solver. }
  cbn [mbind option_bind]. rewrite <-app_assoc in M1, D1, F1. cbn [app] in *.
  destruct (IHcs ltac:(set_solver) v1 k1 (V ++ c :: new1)) as (new2 & v2 & k2 & -> & H1 & H2 & H3 & H4 & H5); [rewrite length_app; lia|done|].
  exists (c :: new1 ++ new2), v2, k2. replace (V ++ c :: new1 ++ new2) with ((V ++ c :: new1) ++ new2) by (by rewrite <-app_assoc).
  assert (edge e c) as Hec by (split; [set_solver|done]).
  split_and!; [done|done| | | |].
  - rewrite of_type_cons, of_type_app. lia.
  - intros x [->|[Hx|Hx]%elem_of_app]%elem_of_cons; [by apply tc_once|eapply tc_l; [done|by apply R1]|by apply H3].
  - intros d [->|Hd]%elem_of_cons Hde; [set_solver|by apply H4].
  - intros x y [->|[Hx|Hx]%elem_of_app]%elem_of_cons Hxy; [apply elem_of_app; left; by apply D1|apply elem_of_app; left; by eapply F1|by eapply H5].
Qed.

Lemma tc_last x y : tc edge x y -> exists z, rtc edge x z /\ edge z y.
Proof.
  induction 1 as [x y Hxy|x y z Hxy _ (t & Ht & Htz)]; [by exists x|]. exists t. split; [by eapply rtc_l|done].
Qed.

(** From outside, or from an element that is marked alone: what is marked is what is
    reached, the start excepted. *)
Lemma pcount_all start v V : marks V v -> (forall x, x ∈ V -> x = start) -> (start ∈ els -> start ∈ V) ->
  exists ds v', pcount (S (length els)) start (v, 0) = Some (v', of_type ds) /\ NoDup ds /\
    forall x, x ∈ ds <-> x <> start /\ tc edge start x.
Proof.
  intros Hm HV Hs. destruct (pcount_ok (S (length els)) start v 0 V) as (ds & v' & k' & -> & [M C R D F]); [lia|done|].
  exists ds, v'. rewrite C. split; [done|]. destruct M as (_ & _ & Hnd & Hin). apply NoDup_app in Hnd as (_ & Hdis & Hnd). split; [done|].
  intros x. split.
  - intros Hx. split; [|by apply R]. intros ->. apply (Hdis start); [|done]. apply Hs, Hin. set_solver.
  - intros [Hne Hr]. assert (x ∈ V ++ ds) as [Hx|Hx]%elem_of_app; [|by apply HV in Hx|done].
    clear Hne. destruct (tc_last _ _ Hr) as (y & Hr' & Hyx). clear Hr.
    assert (y = start \/ y ∈ ds) as [->|Hy]; [|by apply D|by eapply F].
    clear Hyx. revert y Hr'. apply rtc_ind_r; [by left|]. intros a b _ Hab [->|Ha].
    + assert (b ∈ V ++ ds) as [?%HV|?]%elem_of_app by (by apply D); auto.
    + assert (b ∈ V ++ ds) as [?%HV|?]%elem_of_app by (by eapply F); auto.
Qed.
End count.
