(* ===== verification/PipelineSpec.v ===== *)
(** * Properties of pipelines: [Pipeline]

    The elements are ordered along their links, the ranks are the lengths of the longest
    ways from the sources, the queues behind an element are counted once each; what goes
    wrong when an element is added twice, or to a pipeline that is playing. *)

From Stdlib Require Import String SpecFloat.
From stdpp Require Import relations.
From S2P Require Import Prelude CLib Pad Caps BufferPool Graph PadOps PadFlow PadPush Element ElementSpec Pipeline PipelineWalk PipelineSort.

Local Open Scope Z_scope.

Section world.
Context {U : Type} `{HasPipeline U} `{CMemoryOk} (self : nat).
Implicit Types (w v : world U) (p : zst_pipeline).

(** The pipeline of a world, and a world with another. *)
Definition pipe w : zst_pipeline := pipe_in (w_user w).
Definition to_pipe p w : world U := put_user w (put_pipe_in p (w_user w)).

Lemma pipe_to p w : pipe (to_pipe p w) = p.
Proof. apply pipe_put. Qed.
Lemma to_to p q w : to_pipe p (to_pipe q w) = to_pipe p w.
Proof. unfold to_pipe, put_user. cbn. by rewrite put_put. Qed.
Lemma to_same w : to_pipe (pipe w) w = w.
Proof. unfold to_pipe, pipe, put_user. rewrite put_pipe. by destruct w. Qed.
Lemma get_pipe_done w : get_pipe w = Done (pipe w, w).
Proof. done. Qed.
Lemma set_pipe_done p w : set_pipe p w = Done (tt, to_pipe p w).
Proof. done. Qed.

Lemma with_same_lock p : with_lock p (pl_lock p) (pl_owner p) = p.
Proof. by destruct p. Qed.

Lemma walkable_pipe es k p w : walkable es k w -> walkable es k (to_pipe p w).
Proof. intros [? ? ? ?]. by constructor. Qed.

Definition locked_pipe p : zst_pipeline := with_lock p (WriteLocked self) (pl_owner p).

Lemma wrlock_free w : pl_lock (pipe w) = Unlocked -> wrlock self w = Done (tt, to_pipe (locked_pipe (pipe w)) w).
Proof. intros Hl. unfold wrlock. munfold. rewrite get_pipe_done, Hl. apply set_pipe_done. Qed.

Lemma unlock_mine w p : pl_lock p = WriteLocked self ->
  unlock self (to_pipe p w) = Done (tt, to_pipe (with_lock p Unlocked (pl_owner p)) w).
Proof. intros Hl. unfold unlock. munfold. rewrite get_pipe_done, pipe_to, Hl, Nat.eqb_refl, set_pipe_done. by rewrite to_to. Qed.

Lemma rdlock_free w : pl_lock (pipe w) = Unlocked ->
  rdlock self w = Done (tt, to_pipe (with_lock (pipe w) (ReadLocked 1) (pl_owner (pipe w))) w).
Proof. intros Hl. unfold rdlock. munfold. rewrite get_pipe_done, Hl. apply set_pipe_done. Qed.

Lemma unlock_read w p : pl_lock p = ReadLocked 1 ->
  unlock self (to_pipe p w) = Done (tt, to_pipe (with_lock p Unlocked (pl_owner p)) w).
Proof. intros Hl. unfold unlock. munfold. rewrite get_pipe_done, pipe_to, Hl, set_pipe_done. by rewrite to_to. Qed.
End world.

(** The sort itself, whoever holds the lock. *)
Lemma sort_locked_done {U} `{HasPipeline U} `{CMemoryOk} (w : world U) : let els := pl_elements (pipe w) in
  NoDup els -> walkable els (zlen els + 2) w ->
  exists els', pipeline_topological_sort_locked w = Done (tt, to_pipe (with_elements (pipe w) els' (pl_capacity (pipe w))) w) /\
    els' ≡ₚ els /\ (acyclic els (children w) -> forall i j u v,
       els' !! i = Some u -> els' !! j = Some v -> v ∈ children w u -> (i < j)%nat).
Proof.
  intros els Hnd Hw. unfold pipeline_topological_sort_locked. munfold. rewrite get_pipe_done. fold els.
  destruct (Nat.leb_spec (length els) 1) as [Hle|Hgt].
  - exists els. split_and!; [|done|].
    + assert (with_elements (pipe w) els (pl_capacity (pipe w)) = pipe w) as -> by (unfold els; by destruct (pipe w)). by rewrite to_same.
    + intros Ha i j u v Hi Hj Huv. exfalso. apply (Ha u). apply tc_once. apply lookup_lt_Some in Hi as Hi', Hj as Hj'.
      assert (i = 0%nat) as -> by lia. assert (j = 0%nat) as -> by lia. rewrite Hi in Hj. injection Hj as ->.
      split; [done|]. by eapply list_elem_of_lookup_2.
  - destruct (sort_all_pure els w Hw) as (s & s1 & E1 & E2 & Hn & Hin & Ho). exists (temp s).
    assert (temp s ≡ₚ els) as Hperm by (by apply NoDup_Permutation). split_and!; [|done|].
    + rewrite !malloc_total. cbn [negb orb]. rewrite E1, E2, (Permutation_length Hperm), Nat.ltb_irrefl.
      unfold modify_pipe. munfold. by rewrite get_pipe_done, set_pipe_done.
    + intros Ha i j u v Hi Hj Huv. eapply (ordered_forward els (children w)); [by apply Ho|done|done|done|].
      split; [done|]. apply Hin. by eapply list_elem_of_lookup_2.
Qed.

(** C23. The elements come into an order in which every link between two of them points
    forward, if no way along the links is closed; none is lost, and nothing else changes. *)
Theorem sort_orders {U} `{HasPipeline U} `{CMemoryOk} self (w : world U) :
  let els := pl_elements (pipe w) in
  pl_lock (pipe w) = Unlocked -> NoDup els -> walkable els (zlen els + 2) w ->
  exists els', zst_pipeline_topological_sort self w = Done (tt, to_pipe (with_elements (pipe w) els' (pl_capacity (pipe w))) w) /\
    els' ≡ₚ els /\
    (acyclic els (children w) -> forall i j u v,
       els' !! i = Some u -> els' !! j = Some v -> v ∈ children w u -> (i < j)%nat).
Proof.
  intros els Hl Hnd Hw. pose proof (sort_locked_done w Hnd Hw) as Hsame. fold els in Hsame.
  unfold zst_pipeline_topological_sort. munfold. rewrite get_pipe_done. fold els.
  destruct (Nat.leb_spec (length els) 1) as [Hle|Hgt].
  - destruct Hsame as (els' & E & Hrest). exists els'. split; [|exact Hrest].
    revert E. unfold pipeline_topological_sort_locked. munfold. rewrite get_pipe_done. fold els. by rewrite (proj2 (Nat.leb_le _ _)).
  - set (w1 := to_pipe (locked_pipe self (pipe w)) w). assert (pipe w1 = locked_pipe self (pipe w)) as Ep by apply pipe_to.
    pose proof (sort_locked_done w1) as Hs. rewrite Ep in Hs. destruct (Hs Hnd (walkable_pipe _ _ _ _ Hw)) as (els' & E & Hrest).
    exists els'. split; [|exact Hrest]. rewrite wrlock_free by done. fold w1. rewrite E. unfold w1. rewrite to_to.
    rewrite unlock_mine by done. rewrite <-Hl. by destruct (pipe w).
Qed.

(** ** An element added twice *)

Section twice.
Context {U : Type} `{HasPipeline U} `{CMemoryOk} (self : nat).
Implicit Types (w v : world U).

(** With an element twice, a place of the new order is never filled. *)
Lemma twice_faults w : pl_lock (pipe w) = Unlocked -> ~ NoDup (pl_elements (pipe w)) ->
  walkable (pl_elements (pipe w)) (zlen (pl_elements (pipe w)) + 2) w -> zst_pipeline_topological_sort self w = Fault.
Proof.
  intros Hl Hnd Hw. set (els := pl_elements (pipe w)) in *. unfold zst_pipeline_topological_sort. munfold. rewrite get_pipe_done. fold els.
  destruct (Nat.leb_spec (length els) 1) as [Hle|Hgt].
  { exfalso. apply Hnd. destruct els as [|x [|y els]]; [constructor|apply NoDup_singleton|cbn in Hle; lia]. }
  set (w1 := to_pipe (locked_pipe self (pipe w)) w).
  destruct (sort_all_pure els w1 (walkable_pipe _ _ _ _ Hw)) as (s & s1 & E1 & E2 & Hn & Hin & _).
  rewrite wrlock_free by done. fold w1. unfold pipeline_topological_sort_locked. munfold. rewrite get_pipe_done.
  assert (pipe w1 = locked_pipe self (pipe w)) as Ep by apply pipe_to. rewrite Ep.
  change (pl_elements (locked_pipe self (pipe w))) with els. rewrite (proj2 (Nat.leb_gt (length els) 1)) by lia.
  rewrite !malloc_total. cbn [negb orb]. rewrite E1, E2. destruct (Nat.ltb_spec (length (temp s)) (length els)) as [|Hlen]; [done|].
  exfalso. apply Hnd. assert (temp s ⊆+ els) as Hsub by (apply NoDup_submseteq; [done|intros x Hx; by apply Hin]).
  eapply submseteq_length_Permutation in Hsub; [|done]. by rewrite <-Hsub.
Qed.

(** Changes of the members that are no pads do not matter for walks. *)
Lemma walkable_elems es k w v : w_pads v = w_pads w ->
  (forall e x, w_elems w !! e = Some x -> exists y, w_elems v !! e = Some y /\ el_src_pads y = el_src_pads x) ->
  walkable es k w -> walkable es k v.
Proof.
  intros Hp He [W1 W2 W3 W4].
  assert (forall e y, e ∈ es -> w_elems v !! e = Some y -> exists x, w_elems w !! e = Some x /\ el_src_pads y = el_src_pads x) as Hback.
  { intros e y Hin Hy. destruct (W1 e Hin) as [x Hx]. destruct (He e x Hx) as (y' & Hy' & Es). rewrite Hy in Hy'. injection Hy' as <-. by exists x. }
  constructor.
  - intros e Hin. destruct (W1 e Hin) as [x Hx]. destruct (He e x Hx) as (y & Hy & _). by eexists.
  - intros e y Hin Hy. destruct (Hback e y Hin Hy) as (x & Hx & ->). by eapply W2.
  - intros e y p Hin Hy Hpin. destruct (Hback e y Hin Hy) as (x & Hx & Es). rewrite Es in Hpin. unfold roomy. rewrite Hp. by eapply W3.
  - intros e y p z q Hin Hy Hpin Hz Hpeer. destruct (Hback e y Hin Hy) as (x & Hx & Es). rewrite Es in Hpin. unfold roomy. rewrite Hp in *. by eapply W4.
Qed.

Lemma walkable_more es fs k j w : walkable es k w -> fs ⊆ es -> j <= k -> walkable fs j w.
Proof.
  intros [W1 W2 W3 W4] Hsub Hj. constructor.
  - intros e He. apply W1. by apply Hsub.
  - intros e x He. apply W2. by apply Hsub.
  - intros e x p He Hx Hp. eapply roomy_less; [by eapply W3; [apply Hsub| |]|done].
  - intros e x p y q He Hx Hp Hy Hq. eapply roomy_less; [by eapply W4; [apply Hsub| | | |]|done].
Qed.

(** What adding an element does, whoever holds the lock. *)
Lemma add_locked_done w e x : w_elems w !! e = Some x ->
  exists v cap, pipeline_add_locked e w = Done (ZST_OK, v) /\
    pipe v = with_elements (pipe w) (pl_elements (pipe w) ++ [e]) cap /\ w_pads v = w_pads w /\
    w_elems v = <[e := with_context x (pl_bus (pipe w)) (Some (pl_self (pipe w))) (pl_clock (pipe w))]> (w_elems w).
Proof.
  intros Hx. unfold pipeline_add_locked. munfold. rewrite get_pipe_done, malloc_total, andb_false_r, set_pipe_done.
  match goal with |- context [with_elements _ _ ?c] => set (cap := c) end.
  unfold modify_elem, get_elem, set_elem. munfold. cbn [w_elems to_pipe put_user]. rewrite Hx.
  unfold zst_element_set_clock, modify_elem, get_elem, set_elem. munfold. cbn [w_elems put_elems]. rewrite lookup_insert_eq.
  eexists _, cap. split; [reflexivity|]. split_and!; [apply pipe_put|done|]. cbn. by rewrite insert_insert_eq.
Qed.

Lemma add_done w e x : pl_lock (pipe w) = Unlocked -> w_elems w !! e = Some x ->
  exists v cap, zst_pipeline_add self e w = Done (ZST_OK, v) /\
    pipe v = with_elements (pipe w) (pl_elements (pipe w) ++ [e]) cap /\ w_pads v = w_pads w /\
    w_elems v = <[e := with_context x (pl_bus (pipe w)) (Some (pl_self (pipe w))) (pl_clock (pipe w))]> (w_elems w).
Proof.
  intros Hl Hx. set (w1 := to_pipe (locked_pipe self (pipe w)) w). assert (pipe w1 = locked_pipe self (pipe w)) as Ep1 by apply pipe_to.
  destruct (add_locked_done w1 e x Hx) as (v & cap & E & Ep & Hp & He). rewrite Ep1 in Ep, He.
  unfold zst_pipeline_add. munfold. rewrite wrlock_free by done. fold w1. rewrite E.
  pose proof (unlock_mine self v (pipe v)) as Hu. rewrite to_same in Hu. rewrite Hu by by rewrite Ep.
  eexists _, cap. split; [done|]. rewrite pipe_to, Ep. split_and!; [|done|done]. rewrite <-Hl. by destruct (pipe w).
Qed.
End twice.

(** [zst_pipeline_add] takes an element that is in the pipeline already; the next sort
    then copies places of its array that nothing was written to. *)
Theorem added_twice_faults {U} `{HasPipeline U} `{CMemoryOk} self (w : world U) e :
  let els := pl_elements (pipe w) in
  pl_lock (pipe w) = Unlocked -> e ∈ els -> walkable els (zlen els + 3) w ->
  exists v, zst_pipeline_add self e w = Done (ZST_OK, v) /\ zst_pipeline_topological_sort self v = Fault.
Proof.
  intros els Hl He Hw. destruct (wk_elem _ _ _ Hw e He) as [x Hx]. destruct (add_done self w e x Hl Hx) as (v & cap & -> & Ep & Hp & Hel).
  exists v. split; [done|]. apply twice_faults; rewrite Ep; cbn [with_elements pl_elements pl_lock]; fold els.
  - done.
  - intros Hnd. apply NoDup_app in Hnd as (_ & Hdis & _). apply (Hdis e He). set_solver.
  - eapply walkable_elems; [exact Hp| |].
    + intros d y Hy. rewrite Hel. destruct (decide (d = e)) as [->|Hne]; [rewrite lookup_insert_eq|rewrite lookup_insert_ne by done; by exists y].
      eexists. split; [done|]. rewrite Hx in Hy. by injection Hy as <-.
    + eapply walkable_more; [exact Hw|set_solver|]. rewrite zlen_app. unfold zlen. cbn [length]. lia.
Qed.

(** ** Ranks *)

Section ranks.
Context {U : Type} `{HasPipeline U} `{CMemoryOk} (self : nat).
Implicit Types (w v : world U).

Lemma update_ranks_pure els n e r s s' w : walkable els (Z.of_nat n + 1) w -> pranks els (children w) n e r s = Some s' ->
  update_ranks_dfs n els e r s w = Done (s', w).
Proof.
  intros Hw Hp. revert e r s s' w Hw Hp. induction n as [|n IH]; intros e r s s' w Hw; cbn [pranks update_ranks_dfs]; [done|].
  destruct (index_of e els) as [i|] eqn:Ei; [|by intros [= ->]]. destruct (flagged s.1 i); [by intros [= <-]|].
  destruct (ofold _ _ _) as [s1|] eqn:E1; [|done]. cbn [mbind option_bind]. intros [= <-]. unfold mbind, M_bind.
  rewrite (walk_pure els (Z.of_nat n + 1) _ (fun c s => pranks els (children w) n c (u32 (get_rank s.2 e + 1)) s) e w _ s1).
  - done.
  - replace (Z.of_nat n + 1 + 1) with (Z.of_nat (S n) + 1) by lia. done.
  - lia.
  - apply index_of_in. by eexists.
  - intros v Hv Hch _ c t t' Et. apply IH; [done|]. rewrite <-Et. clear -Hch. generalize (u32 (get_rank t.2 e + 1)). intros r0. revert c r0 t.
    induction n as [|n IH]; intros c r0 t; cbn [pranks]; [done|].
    destruct (index_of c els); [|done]. destruct (flagged _ _); [done|]. rewrite Hch. f_equal. apply ofold_ext. intros; apply IH.
  - done.
Qed.

(** The sink pads can be looked at. *)
Definition sinks_ok (es : list nat) w : Prop := forall e x, e ∈ es -> w_elems w !! e = Some x ->
  NoDup (el_sink_pads x) /\ forall p, p ∈ el_sink_pads x -> roomy 1 w p.

Definition unlinked w (p : nat) : bool := match w_pads w !! p with Some x => negb (pad_linked x) | None => true end.

(** A source: none of its sink pads is linked. *)
Definition source w (e : nat) : bool := match w_elems w !! e with Some x => forallb (unlinked w) (el_sink_pads x) | None => false end.

Lemma any_linked_done ps w : (forall p, p ∈ ps -> is_Some (w_pads w !! p)) -> any_linked ps w = Done (negb (forallb (unlinked w) ps), w).
Proof.
  induction ps as [|p ps IH]; intros Hps; cbn [any_linked forallb]; [done|]. unfold zst_pad_is_linked. munfold. unfold get_pad, unlinked at 1.
  destruct (Hps p) as [x Hx]; [set_solver|]. rewrite Hx. destruct (pad_linked x); [done|]. cbn [negb andb]. apply IH. set_solver.
Qed.

Lemma unlinked_lifts ps w p : unlinked (lifts ps w) p = unlinked w p.
Proof.
  induction ps as [|q ps IH]; [done|]. rewrite <-IH. unfold unlinked. cbn [lifts foldr]. rewrite lift_lookup. destruct (decide _); [|done].
  by destruct (w_pads _ !! p).
Qed.

Lemma unlinked_all ps w l : forallb (unlinked (lifts ps w)) l = forallb (unlinked w) l.
Proof. induction l as [|p l IH]; cbn [forallb]; [done|]. by rewrite unlinked_lifts, IH. Qed.

Lemma lifts_some ps w q : is_Some (w_pads (lifts ps w) !! q) <-> is_Some (w_pads w !! q).
Proof. induction ps as [|p ps IH]; [done|]. cbn [lifts foldr]. rewrite lift_some. apply IH. Qed.

Lemma is_source_done es e w : walkable es 1 w -> sinks_ok es w -> e ∈ es -> is_source e w = Done (source w e, w).
Proof.
  intros Hw Hs He. destruct (wk_elem _ _ _ Hw e He) as [x Hx]. destruct (Hs e x He Hx) as [Hnd Hp].
  unfold is_source, zst_element_snapshot_sink_pads, snapshot, source. munfold. unfold get_elem. rewrite Hx.
  destruct (el_sink_pads x) as [|p ps] eqn:Ep; [done|]. rewrite <-Ep in *. rewrite malloc_total.
  assert (forall q, q ∈ el_sink_pads x -> is_Some (w_pads w !! q)) as Hsome by (intros q Hq; destruct (Hp q Hq) as (y & Hy & _); by eexists).
  rewrite ref_all_lifts by done. rewrite any_linked_done by (intros q Hq; apply lifts_some; by apply Hsome).
  rewrite free_lifts by done. by rewrite negb_involutive, unlinked_all.
Qed.

Definition ranks_pipe w (r : gmap nat Z) : world U := to_pipe (with_ranks (pipe w) r) w.

Lemma pipe_ranks w r : pipe (ranks_pipe w r) = with_ranks (pipe w) r.
Proof. apply pipe_to. Qed.

Lemma no_way els : on_way els [] (repeat false (length els)).
Proof. constructor; [by rewrite repeat_length| |constructor|set_solver]. intros x. split; [intros Hx; by apply seen_none in Hx|set_solver]. Qed.

Lemma update_from_done w r L e : let els := pl_elements (pipe w) in
  walkable els (zlen els + 2) w -> height els (children w) L -> bounded els L r -> e ∈ els ->
  exists r', zst_pipeline_update_ranks_from e (ranks_pipe w r) = Done (tt, ranks_pipe w r') /\
    ranked els (children w) L e (get_rank r e) r r'.
Proof.
  intros els Hw HL Hb He. unfold zst_pipeline_update_ranks_from. munfold. rewrite get_pipe_done, pipe_ranks. cbn [with_ranks pl_elements pl_ranks].
  fold els. rewrite malloc_total. cbn [negb]. set (n := S (length els)).
  destruct (pranks_ok els (children w) L n e (get_rank r e) (repeat false (length els)) r [] HL) as (v' & r' & Ep & _ & Hr).
  { unfold n. cbn. lia. } { apply no_way. } { intros _ g Hg. by apply elem_of_nil in Hg. } { done. } { by apply Hb. } { intros _. by apply Hb. }
  rewrite (update_ranks_pure els n e (get_rank r e) (repeat false (length els), r) (v', r') (ranks_pipe w r)).
  - unfold modify_pipe. munfold. rewrite get_pipe_done, pipe_ranks, set_pipe_done. unfold ranks_pipe. rewrite to_to. exists r'. split; [by do 3 f_equal|done].
  - apply walkable_pipe. replace (Z.of_nat n + 1) with (zlen els + 2) by (unfold n, zlen; lia). done.
  - exact Ep.
Qed.

(** Sources one after the other. *)
Record recalculated w (L : nat -> Z) (l : list nat) (r r' : gmap nat Z) : Prop := {
  rc_bounded : bounded (pl_elements (pipe w)) L r';
  rc_raised : raised r r';
  rc_settled : forall e x, e ∈ l -> source w e = true -> reached (pl_elements (pipe w)) (children w) e x ->
    settled (pl_elements (pipe w)) (children w) r' x;
  rc_other : forall x, (exists e, e ∈ l /\ source w e = true /\ reached (pl_elements (pipe w)) (children w) e x) \/
    get_rank r' x = get_rank r x;
}.

Definition recalculate_one (e : nat) : M U unit :=
  src ← is_source e; if src : bool then zst_pipeline_update_ranks_from e else mret tt.

Lemma recalculate_one_done w L e r : let els := pl_elements (pipe w) in
  walkable els (zlen els + 2) w -> sinks_ok els w -> height els (children w) L -> e ∈ els -> bounded els L r ->
  exists r', recalculate_one e (ranks_pipe w r) = Done (tt, ranks_pipe w r') /\ recalculated w L [e] r r'.
Proof.
  intros els Hw Hs HL He Hb. unfold recalculate_one. munfold.
  rewrite (is_source_done els e (ranks_pipe w r)); [|apply walkable_pipe; eapply walkable_more; [exact Hw|done|unfold zlen; lia]|exact Hs|done].
  change (source (ranks_pipe w r) e) with (source w e). destruct (source w e) eqn:Es.
  - destruct (update_from_done w r L e Hw HL Hb He) as (r1 & -> & [B U0 S T O]). exists r1. split; [done|]. constructor; try done.
    + intros d x ->%list_elem_of_singleton _. apply T.
    + intros x. destruct (O x) as [Hx|Hx]; [left|by right]. exists e. split; [set_solver|done].
  - exists r. split; [done|]. constructor; [done|apply raised_refl| |by right]. intros d x ->%list_elem_of_singleton. congruence.
Qed.

Lemma recalculate_fold w L l r : let els := pl_elements (pipe w) in
  walkable els (zlen els + 2) w -> sinks_ok els w -> height els (children w) L -> l ⊆ els -> bounded els L r ->
  exists r', for_each recalculate_one l (ranks_pipe w r) = Done (tt, ranks_pipe w r') /\ recalculated w L l r r'.
Proof.
  intros els Hw Hs HL Hl. revert r. induction l as [|e l IH]; intros r Hb; cbn [for_each].
  { exists r. split; [done|]. constructor; [done|apply raised_refl|set_solver|by right]. }
  unfold mbind, M_bind. destruct (recalculate_one_done w L e r Hw Hs HL ltac:(set_solver) Hb) as (r1 & -> & [B1 U1 T1 O1]).
  destruct (IH ltac:(set_solver) r1 B1) as (r2 & -> & [B2 U2 T2 O2]). exists r2. split; [done|]. constructor.
  - done.
  - by eapply raised_trans.
  - intros d x [->|Hd]%elem_of_cons Hsrc Hx; [|by eapply T2]. eapply (settled_kept _ _ _ r1 r2 x U2); [|exact O2|].
    + by intros y (d & Hd & Hds & Hy); eapply T2.
    + by eapply (T1 e); [apply list_elem_of_singleton| |].
  - intros x. destruct (O2 x) as [(d & Hd & Hx)|E2]; [left; exists d; set_solver|].
    destruct (O1 x) as [(d & Hd & Hx)|E1]; [left; exists d; set_solver|right; congruence].
Qed.

(** Closed ways excluded, the place in a sorted order is a height. *)
Lemma acyclic_height els succ : acyclic els succ -> zlen els < UINT32_MAX -> exists L, height els succ L.
Proof.
  intros Ha Hlen. destruct (psort_all els succ els ltac:(done)) as (s & _ & [_ _ _ Hnd Hin] & Hall & Ho). cbn [app] in Hnd.
  exists (fun e => match index_of e (temp s) with Some i => Z.of_nat i | None => 0 end). constructor.
  - intros x. destruct (index_of x (temp s)) as [i|] eqn:Ei; [|unfold UINT32_MAX; lia]. apply index_of_lookup, lookup_lt_Some in Ei.
    assert (length (temp s) <= length els)%nat by (apply submseteq_length, NoDup_submseteq; [done|]; intros y Hy; apply Hin; by right).
    unfold zlen in Hlen. lia.
  - intros x y Hx Hxy. destruct (proj1 (index_of_in x (temp s)) (Hall x Hx)) as [i Hi]. destruct (proj1 (index_of_in y (temp s)) (Hall y (proj2 Hxy))) as [j Hj].
    rewrite Hi, Hj. assert (i < j)%nat; [|lia]. eapply (ordered_forward els succ); [by apply Ho|done|by apply index_of_lookup|by apply index_of_lookup|done].
Qed.
End ranks.

Section least.
Context {U : Type} `{HasPipeline U} `{CMemoryOk}.
Implicit Types (w : world U).

Definition no_ranks (els : list nat) (r : gmap nat Z) : gmap nat Z := foldr (fun e m => <[e := 0]> m) r els.

Lemma no_ranks_zero els r x : x ∈ els -> get_rank (no_ranks els r) x = 0.
Proof.
  induction els as [|e els IH]; intros Hx; [by apply elem_of_nil in Hx|]. unfold get_rank in *. cbn [no_ranks foldr].
  destruct (decide (x = e)) as [->|Hne]; [by rewrite lookup_insert_eq|]. rewrite lookup_insert_ne by done. apply IH. set_solver.
Qed.

Lemma recalculate_done w L : let els := pl_elements (pipe w) in
  walkable els (zlen els + 2) w -> sinks_ok els w -> height els (children w) L ->
  exists r', pipeline_recalculate_ranks_locked w = Done (tt, ranks_pipe w r') /\
    recalculated w L els (no_ranks els (pl_ranks (pipe w))) r'.
Proof.
  intros els Hw Hs HL. destruct (recalculate_fold w L els (no_ranks els (pl_ranks (pipe w))) Hw Hs HL ltac:(done)) as (r' & E & Hr).
  { intros x Hx. rewrite no_ranks_zero by done. pose proof (hg_range _ _ _ HL x). lia. }
  exists r'. split; [|done]. unfold pipeline_recalculate_ranks_locked, modify_pipe. munfold. rewrite get_pipe_done, set_pipe_done, get_pipe_done, pipe_to.
  exact E.
Qed.

(** Along the links the ranks grow. *)
Lemma nsteps_rank els succ r e x k : (forall y, reached els succ e y -> settled els succ r y) -> e ∈ els -> 0 <= get_rank r e ->
  nsteps (edge els succ) k e x -> Z.of_nat k <= get_rank r x.
Proof.
  intros Hs He Hr Hn. assert (forall j y, nsteps (edge els succ) j e y -> get_rank r e + Z.of_nat j <= get_rank r y) as Hj; [|specialize (Hj k x Hn); lia].
  clear k x Hn. induction j as [|j IH]; intros y Hn.
  - inversion Hn; subst. lia.
  - apply nsteps_inv_r in Hn as (z & Hz & Hzy). specialize (IH z Hz).
    assert (settled els succ r z) as Hsz. { apply Hs. split; [done|]. apply rtc_nsteps. by exists j. } specialize (Hsz y Hzy). lia.
Qed.
End least.

(** In a graph without closed ways the ranks come to be the lengths of the longest ways
    from the sources: no way from a source is longer, and no numbering that grows along
    the links is smaller anywhere. *)
Theorem ranks_longest {U} `{HasPipeline U} `{CMemoryOk} (w : world U) :
  let els := pl_elements (pipe w) in
  walkable els (zlen els + 2) w -> sinks_ok els w -> acyclic els (children w) -> zlen els < UINT32_MAX ->
  exists r, pipeline_recalculate_ranks_locked w = Done (tt, ranks_pipe w r) /\
    (forall e x k, e ∈ els -> source w e = true -> nsteps (edge els (children w)) k e x -> Z.of_nat k <= get_rank r x) /\
    (forall L x, height els (children w) L -> x ∈ els -> get_rank r x <= L x).
Proof.
  intros els Hw Hs Ha Hlen. destruct (acyclic_height els (children w) Ha Hlen) as [L HL].
  destruct (recalculate_done w L Hw Hs HL) as (r & E & [B _ T _]). exists r. split; [done|]. split.
  - intros e x k He Hsrc. apply nsteps_rank; [|done|by apply B]. intros y Hy. by eapply T.
  - intros L' x HL' Hx. destruct (recalculate_done w L' Hw Hs HL') as (r' & E' & [B' _ _ _]). assert (ranks_pipe w r = ranks_pipe w r') as Ew by congruence.
    apply (f_equal pipe) in Ew. rewrite !pipe_ranks in Ew. apply (f_equal pl_ranks) in Ew. cbn in Ew. rewrite Ew. by apply B'.
Qed.

(** ** Elements downstream *)

Section downstream.
Context {U : Type} `{HasPipeline U} `{CMemoryOk} (type_name : nat -> option string).
Implicit Types (w : world U).

Lemma count_pure els es n name e s s' w : walkable es (Z.of_nat n + 1) w -> els ⊆ es -> e ∈ es ->
  pcount els (children w) (fun c => pipeline_element_is_type type_name c name) n e s = Some s' ->
  pipeline_count_downstream_type_dfs type_name n els name e s w = Done (s', w).
Proof.
  intros Hw Hsub. revert e s s' w Hw. induction n as [|n IH]; intros e s s' w Hw He; cbn [pcount pipeline_count_downstream_type_dfs]; [done|].
  apply (walk_pure es (Z.of_nat n + 1)); [|lia|done|].
  - replace (Z.of_nat n + 1 + 1) with (Z.of_nat (S n) + 1) by lia. done.
  - intros v Hv Hch _ c t t'. destruct (index_of c els) as [i|] eqn:Ei; [|by intros [= ->]]. destruct (flagged t.1 i); [by intros [= ->]|].
    intros Et. apply IH; [done| |].
    + apply Hsub, index_of_in. by eexists.
    + rewrite <-Et. clear -Hch. generalize (<[i := true]> t.1, t.2 + (if pipeline_element_is_type type_name c name then 1 else 0)). clear t.
      revert c. induction n as [|n IH]; intros c t; cbn [pcount]; [done|]. rewrite Hch. apply ofold_ext. intros d u _.
      destruct (index_of d els); [|done]. destruct (flagged _ _); [done|]. apply IH.
Qed.
End downstream.

(** The elements of a type behind an element are counted once each, the element itself
    not, however many ways lead to them; the graph is as it was. *)
Theorem downstream_count {U} `{HasPipeline U} `{CMemoryOk} type_name (w : world U) start name :
  let els := pl_elements (pipe w) in
  walkable (start :: els) (zlen els + 2) w ->
  exists ds, zst_pipeline_count_downstream_elements_of_type type_name start name w =
      Done (of_type (fun e => pipeline_element_is_type type_name e name) ds, w) /\
    NoDup ds /\ forall x, x ∈ ds <-> x <> start /\ tc (edge els (children w)) start x.
Proof.
  intros els Hw. set (v := match index_of start els with Some i => <[i := true]> (repeat false (length els)) | None => repeat false (length els) end).
  assert (marks els (match index_of start els with Some _ => [start] | None => [] end) v) as Hm.
  { unfold v. destruct (index_of start els) as [i|] eqn:Ei; split_and!.
    - by rewrite length_insert, repeat_length.
    - intros x. rewrite (seen_insert _ _ start) by (done || by rewrite repeat_length). rewrite list_elem_of_singleton. split; [|by right].
      intros [Hx| ->]; [by apply seen_none in Hx|done].
    - apply NoDup_singleton.
    - intros x ->%list_elem_of_singleton. apply index_of_in. by eexists.
    - by rewrite repeat_length.
    - intros x. split; [intros Hx; by apply seen_none in Hx|by intros Hx%elem_of_nil].
    - constructor.
    - by intros x Hx%elem_of_nil. }
  destruct (pcount_all els (children w) (fun e => pipeline_element_is_type type_name e name) start v _ Hm) as (ds & v' & Ep & Hds).
  - intros x. destruct (index_of start els); [by intros ->%list_elem_of_singleton|by intros Hx%elem_of_nil].
  - intros Hs%index_of_in. destruct Hs as [i ->]. by apply list_elem_of_singleton.
  - exists ds. split; [|done]. unfold zst_pipeline_count_downstream_elements_of_type. munfold. rewrite get_pipe_done. fold els.
    rewrite malloc_total. cbn [negb]. fold v.
    rewrite (count_pure type_name els (start :: els) (S (length els)) name start (v, 0) (v', of_type (fun e => pipeline_element_is_type type_name e name) ds) w); [done| |set_solver|set_solver|done].
    replace (Z.of_nat (S (length els)) + 1) with (zlen els + 2) by (unfold zlen; lia). done.
Qed.
