(* ===== verification/PipelineState.v ===== *)
(** * A pipeline brings its elements along: [Pipeline]

    A change of the pipeline's state brings all elements, bins with everything in them
    included, to the new state, if no hook fails; if one does, they are all brought back. *)

From Stdlib Require Import String SpecFloat.
From S2P Require Import Prelude CLib Pad Caps BufferPool Graph PadOps PadFlow PadPush Element ElementSpec BinSpec Pipeline PipelineWalk PipelineSort PipelineSpec.

Local Open Scope Z_scope.

(** ** What a change of state does not touch *)

Section links.
Context {U : Type} `{HasPipeline U}.
Implicit Types (w v : world U).

Definition link_of (x : zst_pad) : option nat * option nat * Z := (pad_parent x, pad_peer x, pad_refcount x).

(** The pads as far as links go, and the source pads of the elements. *)
Record same_links w v : Prop := {
  sl_elems : forall e x, w_elems w !! e = Some x -> exists y, w_elems v !! e = Some y /\ el_src_pads y = el_src_pads x;
  sl_pads : forall p, link_of <$> w_pads v !! p = link_of <$> w_pads w !! p;
}.

Lemma same_links_refl w : same_links w w.
Proof. constructor; [|done]. intros e x Hx. by exists x. Qed.

Lemma same_links_trans w v (u : world U) : same_links w v -> same_links v u -> same_links w u.
Proof.
  intros [E1 P1] [E2 P2]. constructor.
  - intros e x Hx. destruct (E1 e x Hx) as (y & Hy & Ey). destruct (E2 e y Hy) as (z & Hz & Ez). exists z. split; [done|congruence].
  - intros p. by rewrite P2.
Qed.

Lemma links_roomy w v k p : same_links w v -> roomy k w p -> roomy k v p.
Proof.
  intros [_ Hp] (x & Hx & Hr). specialize (Hp p). rewrite Hx in Hp. destruct (w_pads v !! p) as [y|] eqn:Ey; [|done]. cbn in Hp.
  injection Hp as _ _ Ec. exists y. rewrite Ec. by split.
Qed.

Lemma links_walkable es k w v : same_links w v -> walkable es k w -> walkable es k v.
Proof.
  intros Hl [W1 W2 W3 W4]. pose proof Hl as [He Hp].
  assert (forall e y, e ∈ es -> w_elems v !! e = Some y -> exists x, w_elems w !! e = Some x /\ el_src_pads y = el_src_pads x) as Hback.
  { intros e y Hin Hy. destruct (W1 e Hin) as [x Hx]. destruct (He e x Hx) as (y' & Hy' & Es). rewrite Hy in Hy'. injection Hy' as <-. by exists x. }
  constructor.
  - intros e Hin. destruct (W1 e Hin) as [x Hx]. destruct (He e x Hx) as (y & Hy & _). by eexists.
  - intros e y Hin Hy. destruct (Hback e y Hin Hy) as (x & Hx & ->). by eapply W2.
  - intros e y p Hin Hy Hpin. destruct (Hback e y Hin Hy) as (x & Hx & Es). rewrite Es in Hpin. eapply links_roomy; [done|]. by eapply W3.
  - intros e y p z q Hin Hy Hpin Hz Hpeer. destruct (Hback e y Hin Hy) as (x & Hx & Es). rewrite Es in Hpin. eapply links_roomy; [done|].
    specialize (Hp p). rewrite Hz in Hp. destruct (w_pads w !! p) as [z'|] eqn:Ez; [|done]. cbn in Hp. injection Hp as _ Ep _.
    eapply W4; [done|done|done|done|congruence].
Qed.

(** ** What the change of an element's state keeps *)

Definition same_graph w v : Prop := same_links w v /\ pipe v = pipe w.
Definition keeps {A} (m : M U A) : Prop := forall w a v, m w = Done (a, v) -> same_graph w v.

Lemma keeps_both {A B} (m : M U A) (k : A -> M U B) : keeps m -> (forall a, keeps (k a)) -> keeps (m ≫= k).
Proof.
  intros Hm Hk w b v. unfold mbind, M_bind. destruct (m w) as [[a w1]| |] eqn:E1; try done. intros E2.
  destruct (Hm w a w1 E1) as [L1 P1]. destruct (Hk a w1 b v E2) as [L2 P2]. split; [by eapply same_links_trans|congruence].
Qed.

Lemma keeps_value {A} (a : A) : keeps (mret a).
Proof. intros w b v [= _ <-]. split; [apply same_links_refl|done]. Qed.
Lemma keeps_stuck {A} : keeps (stuck : M U A).
Proof. done. Qed.
Lemma keeps_get_elem e : keeps (get_elem e : M U _).
Proof. intros w a v. unfold get_elem. destruct (w_elems w !! e); [|done]. intros [= _ <-]. split; [apply same_links_refl|done]. Qed.
Lemma keeps_get_pad p : keeps (get_pad p : M U _).
Proof. intros w a v. unfold get_pad. destruct (w_pads w !! p); [|done]. intros [= _ <-]. split; [apply same_links_refl|done]. Qed.
Lemma keeps_post ev : keeps (zst_bus_post ev : M U _).
Proof. intros w a v [= _ <-]. split; [by split; [intros e x Hx; exists x|]|done]. Qed.

Lemma keeps_modify_elem e g : (forall x, el_src_pads (g x) = el_src_pads x) -> keeps (modify_elem e g : M U _).
Proof.
  intros Hg w a v. unfold modify_elem, get_elem, set_elem. munfold. destruct (w_elems w !! e) as [x|] eqn:Ex; [|done].
  intros [= _ <-]. split; [|done]. constructor; [|done]. intros d y Hy. cbn. destruct (decide (e = d)) as [->|Hne].
  - rewrite lookup_insert_eq. eexists. split; [done|]. rewrite Hg. congruence.
  - rewrite lookup_insert_ne by done. by exists y.
Qed.

Lemma keeps_modify_pad p g : (forall x, link_of (g x) = link_of x) -> keeps (modify_pad p g : M U _).
Proof.
  intros Hg w a v. unfold modify_pad, get_pad, set_pad. munfold. destruct (w_pads w !! p) as [x|] eqn:Ex; [|done].
  intros [= _ <-]. split; [|done]. constructor; [intros e y Hy; by exists y|]. intros q. cbn. destruct (decide (p = q)) as [->|Hne].
  - rewrite lookup_insert_eq, Ex. cbn. by rewrite Hg.
  - by rewrite lookup_insert_ne.
Qed.

Lemma keeps_put_bin e b : keeps (put_bin e b : M U _).
Proof. apply (keeps_modify_elem e (fun el => mk_element _ _ _ _ _ _ _ _)). done. Qed.

Context (E : env U) (f : nat -> hook -> U -> zst_result_t * U).
Context (Hhooks : calm_hooks E f) (Hwake : calm_scheduler E).
Context (Hpipe : forall e h u, pipe_in (f e h u).2 = pipe_in u).

Lemma keeps_hook e h : keeps (run_hook E e h).
Proof.
  intros w a v. rewrite (run_hook_effect E f Hhooks). intros [= _ <-]. split; [by split; [intros d x Hx; exists x|]|].
  unfold pipe, hook_effect. cbn. destruct h as [h|]; [|done]. destruct (is_some _); [apply Hpipe|done].
Qed.

Lemma keeps_wake k : keeps (env_scheduler_wake E k).
Proof. intros w a v. rewrite Hwake. intros [= _ <-]. split; [apply same_links_refl|done]. Qed.

Ltac keep :=
  repeat match goal with
  | |- forall _, _ => intros ?
  | |- keeps (_ ≫= _) => apply keeps_both
  | |- keeps (mret _) => apply keeps_value
  | |- keeps (M_ret _) => apply keeps_value
  | |- keeps stuck => apply keeps_stuck
  | |- keeps (get_elem _) => apply keeps_get_elem
  | |- keeps (get_pad _) => apply keeps_get_pad
  | |- keeps (zst_bus_post _) => apply keeps_post
  | |- keeps (run_hook _ _ _) => apply keeps_hook
  | |- keeps (env_scheduler_wake _ _) => apply keeps_wake
  | |- keeps (put_bin _ _) => apply keeps_put_bin
  | |- keeps (modify_elem _ _) => apply keeps_modify_elem
  | H : context [keeps (?g _ _)] |- keeps (?g _ _) => apply H
  | H : context [keeps (?g _)] |- keeps (?g _) => apply H
  | |- keeps (match ?x with _ => _ end) => destruct x
  | |- keeps (if ?x then _ else _) => destruct x
  | |- _ = _ => done
  end.

Lemma keeps_post_if_bus e ev : keeps (post_if_bus e ev : M U _).
Proof. unfold post_if_bus. keep. Qed.

Lemma keeps_set_eos p seen : keeps (set_eos_seen p seen : M U _).
Proof. apply keeps_modify_pad. intros x. by destruct (pad_private x). Qed.

Lemma keeps_target p : keeps (zst_ghost_pad_get_target p : M U _).
Proof. unfold zst_ghost_pad_get_target. keep. Qed.

Lemma keeps_reset_ghosts ps : keeps (reset_ghosts ps : M U _).
Proof.
  pose proof keeps_target. pose proof keeps_set_eos. induction ps as [|p ps IH]; cbn [reset_ghosts]; keep.
Qed.

Lemma keeps_reset_eos e : keeps (bin_reset_eos e : M U _).
Proof. pose proof keeps_reset_ghosts. unfold bin_reset_eos. keep. Qed.

Lemma keeps_sync bin cs : keeps (sync_children bin cs : M U _).
Proof. induction cs as [|c cs IH]; cbn [sync_children]; unfold bin_sync_child_context; keep. Qed.

Lemma keeps_each (g : nat -> M U zst_result_t) ps : (forall p, keeps (g p)) -> keeps (each_pad g ps).
Proof. intros Hg. induction ps as [|p ps IH]; cbn [each_pad]; keep. Qed.

Lemma keeps_change_children (set_state : nat -> zst_state_t -> M U zst_result_t) bin old new before cs :
  (forall e s, keeps (set_state e s)) -> keeps (change_children set_state bin old new before cs).
Proof.
  intros Hs. pose proof keeps_post_if_bus. revert before. induction cs as [|c cs IH]; intros before; cbn [change_children]; keep.
  apply keeps_each. keep.
Qed.

Lemma set_state_keeps n e s : keeps (zst_element_set_state E n e s).
Proof.
  pose proof keeps_sync. pose proof keeps_reset_eos. pose proof keeps_change_children. pose proof keeps_post_if_bus.
  revert e s. induction n as [|n IH]; intros e s; cbn [zst_element_set_state]; [keep|].
  unfold single_step, climb, descend, bin_change_state. keep; eauto.
Qed.

Lemma keeps_change_states (set_state : nat -> zst_state_t -> M U zst_result_t) old new before els :
  (forall e s, keeps (set_state e s)) -> keeps (change_states set_state old new before els).
Proof.
  intros Hs. revert before. induction els as [|e els IH]; intros before; cbn [change_states]; keep. apply keeps_each. keep.
Qed.
End links.

(** ** What precedes a change: pool sizes, a clock *)

Section quiet.
Context {U : Type} `{HasPipeline U} `{CMemoryOk} (pools : pool_ops U) (clocks : clock_ops U) (type_name : nat -> option string) (self : nat).
Implicit Types (w v : world U) (p q : zst_pipeline) (ds : list nat).

(** What the clocks and the sizes of pools do not reach. *)
Record upkeep p q : Prop := {
  uk_elements : pl_elements q = pl_elements p;
  uk_state : pl_state q = pl_state p;
  uk_bus : pl_bus q = pl_bus p;
  uk_lock : pl_lock q = pl_lock p;
  uk_owner : pl_owner q = pl_owner p;
  uk_self : pl_self q = pl_self p;
  uk_scheduler : pl_scheduler q = pl_scheduler p;
}.

Record tends ds w v : Prop := {
  td_moves : moves el_state ds w v;
  td_links : same_links w v;
  td_pipe : upkeep (pipe w) (pipe v);
}.

Lemma upkeep_refl p : upkeep p p.
Proof. done. Qed.
Lemma upkeep_trans p q r : upkeep p q -> upkeep q r -> upkeep p r.
Proof. intros [] []. constructor; congruence. Qed.

Lemma moves_states ds w v (u : world U) : moves el_state ds w v -> moves el_state ds v u -> moves el_state ds w u.
Proof. intros H1' H2'. by eapply moves_before. Qed.

Lemma tends_refl ds w : tends ds w w.
Proof. constructor; [apply moves_refl|apply same_links_refl|apply upkeep_refl]. Qed.
Lemma tends_trans ds w v (u : world U) : tends ds w v -> tends ds v u -> tends ds w u.
Proof.
  intros [M1 L1 P1] [M2 L2 P2]. constructor; [by eapply moves_states|by eapply same_links_trans|by eapply upkeep_trans].
Qed.

(** Only the state outside changes. *)
Lemma tends_user ds w (u : U) : upkeep (pipe w) (pipe_in u) -> tends ds w (put_user w u).
Proof. intros Hu. constructor; [by apply moves_user|split; [intros e x Hx; by exists x|done]|done]. Qed.

Definition runs {A} ds (m : M U A) w : Prop := exists a v, m w = Done (a, v) /\ tends ds w v.

Lemma runs_ret {A} ds (a : A) w : runs ds (mret a) w.
Proof. exists a, w. split; [done|apply tends_refl]. Qed.

Lemma runs_bind {A B} ds (m : M U A) (k : A -> M U B) w :
  runs ds m w -> (forall a v, m w = Done (a, v) -> tends ds w v -> runs ds (k a) v) -> runs ds (m ≫= k) w.
Proof.
  intros (a & v & E1 & T1) Hk. destruct (Hk a v E1 T1) as (b & u & E2 & T2). exists b, u. split; [|by eapply tends_trans].
  unfold mbind, M_bind. by rewrite E1.
Qed.

(** The clocks and the pools do their work outside, and leave the pipeline alone. *)
Definition calm {A} (m : M U A) : Prop := forall w, exists a u, m w = Done (a, put_user w u) /\ pipe_in u = pipe w.
Record calm_pools : Prop := {
  cp_get : forall e m, po_get pools e = Some m -> calm m;
  cp_config : forall k, calm (po_config pools k);
  cp_generation : forall k, calm (po_generation pools k);
  cp_set : forall k c, calm (po_set_config pools k c);
}.
Record calm_clocks : Prop := {
  cc_provide : forall e m, co_provide clocks e = Some m -> calm m;
  cc_system : calm (co_system clocks);
  cc_slave : forall m s, calm (co_slave clocks m s);
  cc_monotonic : calm (co_monotonic clocks);
}.
Context (Hpools : calm_pools) (Hclocks : calm_clocks).

Lemma runs_calm {A} ds (m : M U A) w : calm m -> runs ds m w.
Proof. intros Hm. destruct (Hm w) as (a & u & E & Hp). exists a, (put_user w u). split; [done|]. apply tends_user. by rewrite Hp. Qed.

Lemma runs_get_pipe ds w : runs ds get_pipe w.
Proof. exists (pipe w), w. split; [done|apply tends_refl]. Qed.

Lemma runs_modify ds g w : upkeep (pipe w) (g (pipe w)) -> runs ds (modify_pipe g) w.
Proof.
  intros Hg. exists tt, (to_pipe (g (pipe w)) w). split; [done|]. apply tends_user. by rewrite pipe_put.
Qed.

Lemma runs_for_each ds (g : nat -> M U unit) l w :
  (forall e v, e ∈ l -> tends ds w v -> runs ds (g e) v) -> runs ds (for_each g l) w.
Proof.
  revert w. induction l as [|e l IH]; intros w Hg; cbn [for_each]; [apply runs_ret|]. apply runs_bind.
  - apply Hg; [set_solver|apply tends_refl].
  - intros a v _ Hv. apply IH. intros d u Hd Hu. apply Hg; [set_solver|by eapply tends_trans].
Qed.

(** With the lock held for reading. *)
Definition reading w : world U := to_pipe (with_lock (pipe w) (ReadLocked 1) (pl_owner (pipe w))) w.

Lemma unlock_reading ds w v : pl_lock (pipe w) = Unlocked -> tends ds (reading w) v ->
  exists u, unlock self v = Done (tt, u) /\ tends ds w u /\ pipe u = with_lock (pipe v) Unlocked (pl_owner (pipe v)).
Proof.
  intros Hl [M L P]. unfold reading in P. rewrite pipe_to in P. exists (to_pipe (with_lock (pipe v) Unlocked (pl_owner (pipe v))) v). split_and!.
  - rewrite <-(to_same v) at 1. apply unlock_read. apply P.
  - constructor.
    + eapply moves_states; [|apply moves_user; done]. exact M.
    + destruct L as [LE LP]. by split.
    + rewrite pipe_to. destruct P. cbn in *. by split.
  - apply pipe_to.
Qed.

Lemma foreach_runs ds (g : nat -> M U unit) w : pl_lock (pipe w) = Unlocked ->
  (forall e v, e ∈ pl_elements (pipe w) -> tends ds (reading w) v -> runs ds (g e) v) ->
  runs ds (zst_pipeline_foreach_element self g) w.
Proof.
  intros Hl Hg. destruct (runs_for_each ds g (pl_elements (pipe w)) (reading w) Hg) as ([] & v & E1 & T1).
  destruct (unlock_reading ds w v Hl T1) as (u & E2 & T2 & _). exists tt, u. split; [|done].
  unfold zst_pipeline_foreach_element. munfold. rewrite rdlock_free, get_pipe_done, pipe_to by done. cbn [with_lock pl_elements].
  unfold reading in E1. by rewrite E1.
Qed.

Lemma sizing_runs ds e w : walkable (e :: pl_elements (pipe w)) (zlen (pl_elements (pipe w)) + 2) w ->
  runs ds (apply_pool_config_cb pools type_name e) w.
Proof.
  intros Hw. unfold apply_pool_config_cb, zst_element_get_pool.
  assert (runs ds (match po_get pools e with Some m => m | None => mret None end) w) as Hget.
  { destruct (po_get pools e) eqn:Eg; [by eapply runs_calm, cp_get|apply runs_ret]. }
  apply runs_bind; [exact Hget|]. intros pool w1 _ T1. destruct pool as [k|]; [|by apply runs_modify].
  apply runs_bind; [by apply runs_calm, cp_config|]. intros old w2 _ T2. assert (tends ds w w2) as T by (by eapply tends_trans).
  assert (pl_elements (pipe w2) = pl_elements (pipe w)) as Ee by apply T.
  destruct (downstream_count type_name w2 e "queue"%string) as (qs & Eq & _).
  { rewrite Ee. eapply links_walkable; [apply T|done]. }
  apply runs_bind; [exists (of_type (fun e0 => pipeline_element_is_type type_name e0 "queue"%string) qs), w2; split; [exact Eq|apply tends_refl]|].
  intros n w3 _ T3. apply runs_bind.
  - destruct (_ || _); [|apply runs_ret]. apply runs_bind; [by apply runs_calm, cp_set|]. intros ret w4 _ _.
    destruct (ret =? ZST_OK); [apply runs_ret|by apply runs_calm, cp_config].
  - intros config w4 _ _. apply runs_bind; [by apply runs_calm, cp_generation|]. intros g w5 _ _. by apply runs_modify.
Qed.

Lemma update_runs ds w : let els := pl_elements (pipe w) in
  pl_lock (pipe w) = Unlocked -> walkable els (zlen els + 2) w ->
  runs ds (zst_pipeline_update_buffer_pool_sizing pools type_name self) w.
Proof.
  intros els Hl Hw. unfold zst_pipeline_update_buffer_pool_sizing, clear_dirty.
  apply runs_bind; [apply runs_bind; [by eexists _, _; split; [done|apply tends_refl]|]; intros a v _ _; by apply runs_modify|].
  intros [] v _ T. assert (pl_elements (pipe v) = els) as Ee by apply T.
  apply foreach_runs; [by rewrite (uk_lock _ _ (td_pipe _ _ _ T))|]. rewrite Ee. intros e u He Tu. apply sizing_runs.
  assert (pl_elements (pipe u) = els) as Eu.
  { rewrite (uk_elements _ _ (td_pipe _ _ _ Tu)). unfold reading. by rewrite pipe_to. }
  rewrite Eu. eapply links_walkable; [apply Tu|]. apply walkable_pipe. eapply links_walkable; [apply T|].
  eapply walkable_more; [exact Hw|set_solver|lia].
Qed.

Lemma set_clock_runs ds e c w : e ∈ ds -> is_Some (w_elems w !! e) -> runs ds (zst_element_set_clock e c) w.
Proof.
  intros He [x Hx]. assert (zst_element_set_clock e c w = Done (tt, put_elems w (<[e := with_context x (el_bus x) (el_pipeline x) c]> (w_elems w)))) as E.
  { unfold zst_element_set_clock, modify_elem, get_elem, set_elem. munfold. by rewrite Hx. }
  exists tt. eexists. split; [exact E|]. constructor.
  - assert (moves el_state [e] w (put_elems w (<[e := with_context x (el_bus x) (el_pipeline x) c]> (w_elems w)))) as (K & O & Hm).
    { eapply (moves_elem el_state w _ e x); [done|by apply pads_keep_same|done|done|done]. }
    split; [done|]. split; [intros d Hd; apply O; set_solver|]. intros d y Hy. destruct (Hm d y Hy) as (z & Hz & Sz & Tz). exists z.
    split_and!; [done|done|]. intros _. destruct (decide (d = e)) as [->|Hne]; [apply Tz; set_solver|].
    rewrite O in Hz by set_solver. congruence.
  - eapply (keeps_modify_elem e (fun x => with_context x (el_bus x) (el_pipeline x) c)); [done|exact E].
  - apply upkeep_refl.
Qed.

Lemma tends_in ds w v e : tends ds w v -> is_Some (w_elems w !! e) -> is_Some (w_elems v !! e).
Proof. intros [_ [HE _] _] [x Hx]. destruct (HE e x Hx) as (y & Hy & _). by eexists. Qed.

Lemma pipeline_clock_runs ds c w : let els := pl_elements (pipe w) in
  pl_lock (pipe w) = Unlocked -> els ⊆ ds -> (forall e, e ∈ els -> is_Some (w_elems w !! e)) ->
  runs ds (zst_pipeline_set_clock self c) w.
Proof.
  intros els Hl Hsub Hin. unfold zst_pipeline_set_clock. apply runs_bind; [apply runs_get_pipe|]. intros p v [= <- <-] _. fold (pipe w).
  destruct (decide _); [apply runs_ret|]. set (q := with_clock (pipe w) c _ _).
  apply runs_bind; [by exists tt, (to_pipe q w); split; [done|apply tends_user; rewrite pipe_put]|].
  intros a v Ev _. rewrite set_pipe_done in Ev. injection Ev as _ Ev. change (to_pipe q w = v) in Ev. subst v.
  apply foreach_runs; [by rewrite pipe_to|]. rewrite pipe_to.
  intros e u He Tu. apply set_clock_runs; [by apply Hsub|]. eapply tends_in; [exact Tu|]. by apply Hin.
Qed.

Lemma first_clock_runs ds es w : runs ds (first_clock clocks es) w.
Proof.
  revert w. induction es as [|e es IH]; intros w; cbn [first_clock]; [apply runs_ret|]. apply runs_bind.
  - destruct (co_provide clocks e) eqn:Ep; [by eapply runs_calm, cc_provide|apply runs_ret].
  - intros [c|] v _ _; [apply runs_ret|apply IH].
Qed.

Lemma select_runs ds w : let els := pl_elements (pipe w) in
  pl_lock (pipe w) = Unlocked -> els ⊆ ds -> (forall e, e ∈ els -> is_Some (w_elems w !! e)) ->
  runs ds (select_clock clocks self) w.
Proof.
  intros els Hl Hsub Hin. unfold select_clock.
  destruct (first_clock_runs ds els (reading w)) as (master & w1 & E1 & T1).
  destruct (unlock_reading ds w w1 Hl T1) as (w2 & E2 & T2 & _).
  assert (forall A (k : option nat -> M U A) a v, k master w2 = Done (a, v) ->
    (_ ← rdlock self; p ← get_pipe; master ← first_clock clocks (pl_elements p); _ ← unlock self; k master) w = Done (a, v)) as Hpre.
  { intros A k a v Ek. munfold. rewrite rdlock_free, get_pipe_done, pipe_to by done. cbn [with_lock pl_elements].
    fold els. unfold reading in E1. by rewrite E1, E2. }
  match goal with |- runs _ (_ ← rdlock self; p ← get_pipe; master ← first_clock clocks (pl_elements p); _ ← unlock self; @?k master) w =>
    assert (runs ds (k master) w2) as (a & v & Ek & Tk) end.
  2: { exists a, v. split; [apply (Hpre _ _ _ _ Ek)|by eapply tends_trans]. }
  cbn beta. assert (pl_lock (pipe w2) = Unlocked) as Hl2 by (by rewrite (uk_lock _ _ (td_pipe _ _ _ T2))).
  assert (pl_elements (pipe w2) = els) as Ee2 by apply T2.
  apply runs_bind; [by apply runs_calm, cc_system|]. intros system w3 _ T3. assert (tends ds w2 w3) as T23 by done.
  assert (forall c v, tends ds w2 v -> runs ds (zst_pipeline_set_clock self c) v) as Hset.
  { intros c v Tv. apply pipeline_clock_runs; [by rewrite (uk_lock _ _ (td_pipe _ _ _ Tv))|by rewrite (uk_elements _ _ (td_pipe _ _ _ Tv)), Ee2|].
    rewrite (uk_elements _ _ (td_pipe _ _ _ Tv)), Ee2. intros e He. eapply tends_in; [exact Tv|]. eapply tends_in; [exact T2|]. by apply Hin. }
  apply runs_bind.
  - destruct master as [m|], system as [s|]; [|apply runs_ret|by apply Hset|apply runs_ret].
    apply runs_bind; [by apply runs_calm, cc_slave|]. intros [c|] w4 _ T4; apply Hset; by eapply tends_trans.
  - intros [] w4 _ _. apply runs_bind; [by apply runs_calm, cc_monotonic|]. intros t w5 _ _. by apply runs_modify.
Qed.
End quiet.

(** ** The change itself *)

Section change.
Context {U : Type} `{HasPipeline U} `{CMemoryOk}.
Context (E : env U) (f : nat -> hook -> U -> zst_result_t * U).
Context (pools : pool_ops U) (clocks : clock_ops U) (type_name : nat -> option string) (self : nat).
Context (Hhooks : calm_hooks E f) (Hwake : calm_scheduler E) (Hpipe : forall e h u, pipe_in (f e h u).2 = pipe_in u).
Context (Hpools : calm_pools pools) (Hclocks : calm_clocks clocks) (n k : nat).
Implicit Types (w v : world U) (dss : list (list nat)) (es : list nat).
Local Notation set_state := (zst_element_set_state E n).

(** The pipeline stands in [s] with everything in it: [dss] are the families of its
    elements. *)
Record standing (s : zst_state_t) dss w : Prop := {
  sd_state : pl_state (pipe w) = s;
  sd_lock : pl_lock (pipe w) = Unlocked;
  sd_families : Forall2 (family (w_elems w) k) (pl_elements (pipe w)) dss;
  sd_nodup : NoDup (concat dss);
  sd_in : all_in w (concat dss) s;
  sd_bins : bins_ok w (concat dss);
  sd_walk : walkable (pl_elements (pipe w)) (zlen (pl_elements (pipe w)) + 2) w;
}.

Lemma moves_equiv to (ds ds' : list nat) w v : moves to ds w v -> (forall d, d ∈ ds <-> d ∈ ds') -> moves to ds' w v.
Proof.
  intros (K & O & Hm) He. split; [done|]. split; [intros d Hd; apply O; by rewrite He|].
  intros d x Hx. destruct (Hm d x Hx) as (y & Hy & Hs & Ht). exists y. split_and!; [done|done|]. by rewrite <-He.
Qed.

Lemma families_moves to es w v cs dss : moves to es w v -> Forall2 (family (w_elems w) k) cs dss -> Forall2 (family (w_elems v) k) cs dss.
Proof. intros Hm Hf. eapply Forall2_impl; [exact Hf|]. intros. by eapply family_moves. Qed.

Lemma all_present w ds s : all_in w ds s -> forall d, d ∈ ds -> is_Some (w_elems w !! d).
Proof. intros Ha d Hd. destruct (Ha d Hd) as (x & Hx & _). by eexists. Qed.

Lemma all_moved s ds w v : (forall d, d ∈ ds -> is_Some (w_elems w !! d)) -> moves (fun _ => s) ds w v -> all_in v ds s.
Proof. intros Hin (_ & _ & Hm) d Hd. destruct (Hin d Hd) as [x Hx]. destruct (Hm d x Hx) as (y & Hy & _ & Ht). eauto. Qed.

(** Elements brought to [s] one by one, before those that are left. *)
Lemma states_prefix call old s es rest dss before w :
  brings f call k old s -> sound f (concat dss) ->
  Forall2 (family (w_elems w) k) es dss -> NoDup (concat dss) -> all_in w (concat dss) old -> bins_ok w (concat dss) ->
  exists v, change_states call old s before (es ++ rest) w = change_states call old s (rev es ++ before) rest v /\
    moves (fun _ => s) (concat dss) w v.
Proof.
  intros Hcall. revert dss before w. induction es as [|c es IH]; intros dss before w Hok Hf Hnd Ha Hb;
    inversion Hf as [|? ds ? dss' Hfc Hfs]; subst; cbn [app concat].
  - exists w. split; [done|]. split; [apply pads_keep_refl|]. split; [done|]. intros d x Hx. exists x. split_and!; [done|done|set_solver].
  - cbn [concat] in Hnd, Ha, Hb. apply NoDup_app in Hnd as (Hn1 & Hdis & Hn2).
    destruct (Hcall c ds w) as (w1 & E1 & M1); [intros d h u Hd; apply Hok; set_solver|done|done|..].
    { intros d Hd. apply Ha. set_solver. } { intros d x Hd. apply Hb. set_solver. }
    cbn [change_states]. munfold. rewrite E1. change (ZST_OK =? ZST_OK) with true. cbv iota.
    destruct (IH dss' (c :: before) w1) as (v & E2 & M2).
    + intros d h u Hd. apply Hok. set_solver.
    + by eapply families_moves.
    + done.
    + intros d Hd. destruct (Ha d) as (x & Hx & Es); [set_solver|]. destruct M1 as (_ & O1 & _).
      exists x. rewrite O1 by (intros Hd'; by apply (Hdis d)). done.
    + eapply bins_ok_moves; [done|eapply all_present; intros d Hd; apply Ha; set_solver|]. intros d x Hd. apply Hb. set_solver.
    + exists v. cbn [rev]. rewrite <-app_assoc. split; [exact E2|by eapply moves_app].
Qed.

Lemma standing_tends old dss w v : standing old dss w -> tends (concat dss) w v -> standing old dss v.
Proof.
  intros [S1 S2 S3 S4 S5 S6 S7] [M L [U1 U2 U3 U4 U5]]. constructor; rewrite ?U1, ?U2, ?U4; try done.
  - by eapply families_moves.
  - eapply all_in_moves; [exact M|done|done|done].
  - eapply bins_ok_moves; [exact M|by eapply all_present|done].
  - by eapply links_walkable.
Qed.

(** The elements in the order of the change: upstream ones last on the way down. *)
Definition change_order {A} (old s : zst_state_t) (l : list A) : list A := if state_num old <? state_num s then l else rev l.

Lemma in_order {A} old s (l : list A) x : x ∈ change_order old s l <-> x ∈ l.
Proof. unfold change_order. destruct (_ <? _); [done|]. by rewrite !list_elem_of_In, <-in_rev. Qed.

Lemma concat_in (dss : list (list nat)) d : d ∈ concat dss <-> exists ds, ds ∈ dss /\ d ∈ ds.
Proof. rewrite list_elem_of_In, in_concat. split; intros (ds & ? & ?); exists ds; by rewrite ?list_elem_of_In in *. Qed.

Lemma concat_order old s dss d : d ∈ concat (change_order old s dss) <-> d ∈ concat dss.
Proof. rewrite !concat_in. split; intros (ds & Hds & Hd); exists ds; by rewrite ?in_order in *. Qed.

Lemma concat_perm (l l' : list (list nat)) : l ≡ₚ l' -> concat l ≡ₚ concat l'.
Proof.
  induction 1 as [|x l l' _ IH|x y l|l1 l2 l3 _ IH1 _ IH2]; cbn [concat]; [done|by rewrite IH| |by etransitivity].
  by rewrite !app_assoc, (Permutation_app_comm x y).
Qed.

Lemma nodup_order old s dss : NoDup (concat dss) -> NoDup (concat (change_order old s dss)).
Proof.
  unfold change_order. destruct (_ <? _); [done|]. intros Hnd. erewrite concat_perm; [exact Hnd|]. symmetry. apply Permutation_rev.
Qed.

Lemma families_order old s w es dss : Forall2 (family (w_elems w) k) es dss ->
  Forall2 (family (w_elems w) k) (change_order old s es) (change_order old s dss).
Proof.
  unfold change_order. destruct (_ <? _); [done|]. intros Hf. rewrite !rev_alt. by apply Forall2_reverse.
Qed.

(** The step after its preparations. *)
Definition step_end (old s : zst_state_t) (failed : option (nat * zst_result_t)) : M U zst_result_t :=
  match failed with
  | Some (e, ret) => _ ← post_on (EventError e ret); mret ret
  | None => _ ← modify_pipe (fun p => with_pipeline_state p s); _ ← post_on (EventPipelineState old s); mret ZST_OK
  end.
Definition step_rest (old s : zst_state_t) : M U zst_result_t :=
  _ ← rdlock self;
  p ← get_pipe;
  failed ← change_states set_state old s [] (change_order old s (pl_elements p));
  _ ← unlock self;
  step_end old s failed.

Lemma standing_members s dss w : standing s dss w ->
  pl_elements (pipe w) ⊆ concat dss /\ forall e, e ∈ pl_elements (pipe w) -> is_Some (w_elems w !! e).
Proof.
  intros Hs. assert (pl_elements (pipe w) ⊆ concat dss) as Hsub by (intros e He; eapply families_in; [apply Hs|done]).
  split; [done|]. intros e He. eapply all_present; [apply Hs|by apply Hsub].
Qed.

Lemma step_prepared old s dss w : standing old dss w ->
  exists v, tends (concat dss) w v /\ pipeline_step E pools clocks type_name self n old s w = step_rest old s v.
Proof.
  intros Hs. destruct (standing_members _ _ _ Hs) as [Hsub Hin].
  assert (exists v, tends (concat dss) w v /\
    (match s with
     | ZST_STATE_PLAYING =>
         _ ← zst_pipeline_update_buffer_pool_sizing pools type_name self;
         p ← get_pipe;
         match pl_clock p with None => select_clock clocks self | Some _ => mret tt end
     | _ => mret tt
     end : M U unit) w = Done (tt, v)) as (v & Tv & Ev).
  - destruct s; try (exists w; split; [apply tends_refl|done]).
    destruct (update_runs pools clocks type_name self Hpools Hclocks (concat dss) w) as ([] & w1 & E1 & T1); [apply Hs|apply Hs|].
    pose proof (standing_tends _ _ _ _ Hs T1) as Hs1. munfold. rewrite E1, get_pipe_done.
    destruct (pl_clock (pipe w1)); [by exists w1|]. destruct (standing_members _ _ _ Hs1) as [Hsub1 Hin1].
    destruct (select_runs pools clocks type_name self Hpools Hclocks (concat dss) w1) as ([] & w2 & E2 & T2); [apply Hs1|done|done|].
    exists w2. split; [by eapply tends_trans|done].
  - exists v. split; [done|]. unfold pipeline_step, step_rest. munfold. rewrite get_pipe_done. destruct s; rewrite ?Ev; try done.
    all: cbn in Ev; injection Ev as ->; done.
Qed.

Lemma step_locked old s w failed v : pl_lock (pipe w) = Unlocked ->
  change_states set_state old s [] (change_order old s (pl_elements (pipe w))) (reading w) = Done (failed, v) ->
  step_rest old s w = step_end old s failed (to_pipe (pipe w) v) /\ same_links w (to_pipe (pipe w) v).
Proof.
  intros Hl Ec. destruct (keeps_change_states set_state old s [] _ (set_state_keeps E f Hhooks Hwake Hpipe n) _ _ _ Ec) as [[LE LP] Ep].
  split; [|by split]. unfold step_rest. munfold. rewrite rdlock_free, get_pipe_done, pipe_to by done. cbn [with_lock pl_elements].
  unfold reading in Ec. rewrite Ec. unfold reading in Ep. rewrite pipe_to in Ep.
  pose proof (unlock_read self v (pipe v)) as Hu. rewrite to_same, Ep in Hu. rewrite Hu by done.
  assert (with_lock (with_lock (pipe w) (ReadLocked 1) (pl_owner (pipe w))) Unlocked (pl_owner (pipe w)) = pipe w) as Ew; [|cbn [with_lock pl_owner]; by rewrite Ew].
  rewrite <-Hl. by destruct (pipe w).
Qed.

Lemma posts_on ev w : exists v, post_on ev w = Done (tt, v) /\ w_elems v = w_elems w /\ w_pads v = w_pads w /\ pipe v = pipe w.
Proof. unfold post_on. munfold. rewrite get_pipe_done. destruct (pl_bus (pipe w)); by eexists. Qed.

(** From [w] to [v] the pipeline and all in it got to [s], and nothing else did. *)
Record brought (s : zst_state_t) dss w v : Prop := {
  br_standing : standing s dss v;
  br_moves : moves (fun _ => s) (concat dss) w v;
  br_elements : pl_elements (pipe v) = pl_elements (pipe w);
}.

Lemma change_order_all old s dss w : standing old dss w -> brings f set_state k old s -> sound f (concat dss) ->
  exists v, change_states set_state old s [] (change_order old s (pl_elements (pipe w))) (reading w) = Done (None, v) /\
    moves (fun _ => s) (concat dss) w v.
Proof.
  intros [S1 S2 S3 S4 S5 S6 S7] Hb Hok.
  destruct (states_prefix set_state old s (change_order old s (pl_elements (pipe w))) [] (change_order old s dss) [] (reading w))
    as (v & E1 & M1); try done.
  - intros d h u Hd. apply Hok. by rewrite concat_order in Hd.
  - by apply families_order.
  - by apply nodup_order.
  - intros d Hd. rewrite concat_order in Hd. by apply S5.
  - intros d x Hd. rewrite concat_order in Hd. by apply S6.
  - exists v. rewrite app_nil_r in E1. split; [exact E1|]. eapply moves_equiv; [exact M1|]. intros d. apply concat_order.
Qed.

Lemma step_brings old s h dss w : (k < n)%nat -> step_hook old s = Some h -> standing old dss w -> sound f (concat dss) ->
  exists v, pipeline_step E pools clocks type_name self n old s w = Done (ZST_OK, v) /\ brought s dss w v.
Proof.
  intros Hn Hh Hs Hok. destruct (step_prepared old s dss w Hs) as (w1 & T1 & ->). pose proof (standing_tends _ _ _ _ Hs T1) as Hs1.
  destruct (change_order_all old s dss w1 Hs1) as (w2 & E2 & M2); [by eapply neighbours|done|].
  destruct (step_locked old s w1 _ _ (sd_lock _ _ _ Hs1) E2) as [-> L2]. set (w3 := to_pipe (pipe w1) w2) in *.
  unfold step_end. munfold. set (w4 := to_pipe (with_pipeline_state (pipe w1) s) w2).
  assert (modify_pipe (fun p => with_pipeline_state p s) w3 = Done (tt, w4)) as ->.
  { unfold modify_pipe. munfold. rewrite get_pipe_done, set_pipe_done. unfold w3, w4. by rewrite to_to, pipe_to. }
  destruct (posts_on (EventPipelineState old s) w4) as (v & -> & Ee & Ep & Epi). exists v. split; [done|].
  assert (moves (fun _ => s) (concat dss) w v) as M.
  { eapply moves_before; [apply T1| |done|done]. destruct M2 as (K & O & Hm). split; [intros p x Hx; rewrite Ep; by apply K|]. rewrite Ee. by split. }
  assert (pipe v = with_pipeline_state (pipe w1) s) as Epv by (rewrite Epi; apply pipe_to).
  constructor; [|done|rewrite Epv; apply T1]. pose proof Hs as [S1 S2 S3 S4 S5 S6 S7]. pose proof (all_present _ _ _ S5) as Hin.
  constructor; rewrite ?Epv; cbn [with_pipeline_state pl_elements pl_state pl_lock]; rewrite ?(uk_elements _ _ (td_pipe _ _ _ T1)); try done.
  - apply Hs1.
  - by eapply families_moves.
  - by eapply all_moved.
  - by eapply bins_ok_moves.
  - eapply links_walkable; [|exact S7]. eapply same_links_trans; [apply T1|]. eapply same_links_trans; [exact L2|].
    split; [intros e x Hx; exists x; by rewrite Ee|intros p; by rewrite Ep].
Qed.

Definition distance (old s : zst_state_t) : Z := Z.abs (state_num s - state_num old).

Lemma toward_hook old s : old <> s -> exists h, step_hook old (toward old s) = Some h.
Proof. by destruct old, s; try (by eexists). Qed.
Lemma toward_near old s : old <> s -> toward old s <> old /\ distance (toward old s) s = distance old s - 1 /\ distance old (toward old s) = 1.
Proof. by destruct old, s. Qed.
Lemma toward_twice old s : old <> s -> toward old (toward old s) = toward old s.
Proof. by destruct old, s. Qed.

Lemma brought_again s t dss w v (u : world U) : brought s dss w v -> brought t dss v u -> brought t dss w u.
Proof.
  intros [_ M1 P1] [S2 M2 P2]. constructor; [done|by eapply moves_again|congruence].
Qed.

Lemma pipeline_brought m old s dss w : (k < n)%nat -> distance old s < Z.of_nat m -> standing old dss w -> sound f (concat dss) ->
  exists v, zst_pipeline_set_state E pools clocks type_name self m n s w = Done (ZST_OK, v) /\ brought s dss w v.
Proof.
  intros Hn. revert old s w. induction m as [|m IH]; intros old s w Hm Hs Hok.
  { unfold distance in Hm. lia. }
  cbn [zst_pipeline_set_state]. munfold. rewrite get_pipe_done, (sd_state _ _ _ Hs). destruct (decide (old = s)) as [->|Hne].
  { exists w. split; [done|]. constructor; [done| |done]. split; [apply pads_keep_refl|]. split; [done|]. intros d x Hx. exists x.
    split_and!; [done|done|]. intros Hd. destruct (sd_in _ _ _ Hs d Hd) as (y & Hy & <-). congruence. }
  destruct (toward_near old s Hne) as (Hne' & Hd1 & Hd2). destruct (toward_hook old s Hne) as [h Hh].
  destruct (decide (toward old s = s)) as [Ht|Ht]; [rewrite Ht in Hh; by eapply step_brings|].
  assert (0 < distance (toward old s) s) as Hpos by (unfold distance; destruct (toward old s), s; cbn in *; done || lia).
  destruct (IH old (toward old s) w) as (v & -> & B1); [lia|done|done|]. change (negb (ZST_OK =? ZST_OK)) with false. cbv iota.
  destruct (IH (toward old s) s v) as (u & -> & B2); [lia|apply B1|done|]. change (ZST_OK =? ZST_OK) with true. cbv iota.
  exists u. split; [done|]. by eapply brought_again.
Qed.
End change.

(** C21. A change of the state of a pipeline that stands, with everything in it, in one state
    brings the pipeline and every element in it, bins with everything in them included, over
    whatever states lie between, to the new state, and touches no other element, if no hook
    fails; the lock is free in the end and the pipeline's elements are the same. *)
Theorem pipeline_brings_all {U} `{HasPipeline U} `{CMemoryOk} (E : env U) f pools clocks type_name self n k (w : world U) old s dss :
  calm_hooks E f -> calm_scheduler E -> (forall e h u, pipe_in (f e h u).2 = pipe_in u) ->
  calm_pools pools -> calm_clocks clocks -> (k < n)%nat ->
  standing k old dss w -> sound f (concat dss) ->
  exists v, zst_pipeline_set_state E pools clocks type_name self 4 n s w = Done (ZST_OK, v) /\
    standing k s dss v /\ pl_elements (pipe v) = pl_elements (pipe w) /\
    forall d, d ∉ concat dss -> w_elems v !! d = w_elems w !! d.
Proof.
  intros Hh Hw Hp Hpools Hclocks Hn Hs Hok.
  destruct (pipeline_brought E f pools clocks type_name self Hh Hw Hp Hpools Hclocks n k 4 old s dss w Hn) as (v & E1 & [S1 M1 P1]); [|done|done|].
  - unfold distance. by destruct old, s.
  - exists v. split_and!; [done|done|done|apply M1].
Qed.

(** ** An element that refuses *)

Section refusal.
Context {U : Type} `{HasPipeline U} `{CMemoryOk}.
Context (E : env U) (f : nat -> hook -> U -> zst_result_t * U).
Context (pools : pool_ops U) (clocks : clock_ops U) (type_name : nat -> option string) (self : nat).
Context (Hhooks : calm_hooks E f) (Hwake : calm_scheduler E) (Hpipe : forall e h u, pipe_in (f e h u).2 = pipe_in u).
Context (Hpools : calm_pools pools) (Hclocks : calm_clocks clocks) (n k : nat).
Implicit Types (w v : world U).
Local Notation set_state := (zst_element_set_state E n).

(** The elements before [c] in the order of the change are moved, and moved back. *)
Lemma states_fail old s h es1 c es2 dss1 w y r :
  (k < n)%nat -> step_hook old s = Some h -> sound f (concat dss1) ->
  Forall2 (family (w_elems w) k) es1 dss1 -> NoDup (concat dss1) -> all_in w (concat dss1) old -> bins_ok w (concat dss1) ->
  w_elems w !! c = Some y -> el_state y = old -> el_bin y = None -> c ∉ concat dss1 ->
  is_some (hook_op (env_ops E c) h) = true -> (forall u, (f c h u).1 = r) -> r <> ZST_OK ->
  exists v, change_states set_state old s [] (es1 ++ c :: es2) w = Done (Some (c, r), v) /\
    moves (fun _ => old) (concat dss1) w v.
Proof.
  intros Hn Hh Hok Hf Hnd Ha Hb Hy Hs Hp Hc Hop Hr Hne. assert (exists h', step_hook s old = Some h') as [h' Hh'] by (destruct old, s; try done; by eexists).
  destruct (states_prefix E f pools clocks type_name Hhooks Hwake Hpipe Hpools Hclocks k set_state old s es1 (c :: es2) dss1 [] w) as (w1 & -> & M1); try done; [by eapply neighbours|].
  rewrite app_nil_r. cbn [change_states]. munfold. destruct n as [|n']; [lia|].
  destruct (child_fails E f Hhooks Hwake n' c y w1 old s h r) as (u & ->); try done.
  { destruct M1 as (_ & O1 & _). by rewrite O1. }
  rewrite (proj2 (Z.eqb_neq r ZST_OK)) by done. set (w2 := put_user w1 u).
  assert (M2 : moves (fun _ => s) (concat dss1) w w2) by exact M1. pose proof (all_present _ _ _ Ha) as Hin.
  destruct (each_moves E f Hhooks Hwake (zst_element_set_state E (S n')) k s old (rev es1) (rev dss1) w2) as (w3 & E3 & M3).
  - by eapply neighbours.
  - intros d h0 u0 Hd. apply Hok. by rewrite (concat_perm _ _ (Permutation_rev dss1)).
  - rewrite !rev_alt. apply Forall2_reverse. by eapply families_moves.
  - erewrite concat_perm; [exact Hnd|]. symmetry. apply Permutation_rev.
  - intros d Hd. eapply all_moved; [exact Hin|exact M2|]. by rewrite (concat_perm _ _ (Permutation_rev dss1)).
  - intros d x Hd. rewrite <-(concat_perm _ _ (Permutation_rev dss1)) in Hd. revert d x Hd. by eapply bins_ok_moves.
  - rewrite E3. exists w3. split; [done|]. eapply moves_again; [exact M2|]. eapply moves_equiv; [exact M3|].
    intros d. by rewrite <-(concat_perm _ _ (Permutation_rev dss1)).
Qed.
End refusal.

(** C37. When an element of a pipeline refuses a step (an element that is no bin, in a
    pipeline that stands, with everything in it, in one state), the step fails with the
    element's error, which is posted last on the bus, and every element is in the state it was
    in, as is the pipeline, and the lock is free. The hooks of the elements that were changed
    before it, with everything in them, do not fail, neither on the way nor on the way back,
    where the code does not look at their results. *)
Theorem pipeline_rolls_back {U} `{HasPipeline U} `{CMemoryOk} (E : env U) f pools clocks type_name self m n k (w : world U)
    old s h dss es1 c es2 dss1 y r :
  calm_hooks E f -> calm_scheduler E -> (forall e h u, pipe_in (f e h u).2 = pipe_in u) ->
  calm_pools pools -> calm_clocks clocks -> (k < n)%nat ->
  step_hook old s = Some h -> standing k old dss w ->
  change_order old s (pl_elements (pipe w)) = es1 ++ c :: es2 -> Forall2 (family (w_elems w) k) es1 dss1 -> sound f (concat dss1) ->
  NoDup (c :: concat dss1) -> (forall d, d ∈ concat dss1 -> d ∈ concat dss) ->
  w_elems w !! c = Some y -> el_state y = old -> el_bin y = None ->
  is_some (hook_op (env_ops E c) h) = true -> (forall u, (f c h u).1 = r) -> r <> ZST_OK ->
  exists v, zst_pipeline_set_state E pools clocks type_name self (S m) n s w = Done (r, v) /\
    (forall d z, w_elems w !! d = Some z -> exists z', w_elems v !! d = Some z' /\ el_state z' = el_state z) /\
    pl_state (pipe v) = old /\ pl_lock (pipe v) = Unlocked /\ pl_elements (pipe v) = pl_elements (pipe w) /\
    (pl_bus (pipe w) = true -> last (w_bus v) = Some (EventError c r)).
Proof.
  intros Hh Hw Hp Hpools Hclocks Hn Hstep Hs Hes Hf Hok Hnd Hsub Hy Hys Hyb Hop Hr Hne. apply NoDup_cons in Hnd as [Hc Hnd].
  assert (old <> s /\ toward old s = s) as [Hos Ht] by (by destruct old, s).
  cbn [zst_pipeline_set_state]. munfold. rewrite get_pipe_done, (sd_state _ _ _ _ Hs). rewrite decide_False, decide_True by done.
  destruct (step_prepared E pools clocks type_name self Hpools Hclocks n k old s dss w Hs) as (w1 & T1 & ->).
  pose proof (standing_tends _ _ _ _ _ Hs T1) as Hs1. pose proof T1 as [M1 L1 P1]. pose proof M1 as (K1 & O1 & Hm1).
  destruct (Hm1 c y Hy) as (y1 & Hy1 & [Sb _] & St). rewrite Hyb in Sb.
  assert (all_in w (concat dss1) old) as Ha by (intros d Hd; apply (sd_in _ _ _ _ Hs); by apply Hsub).
  assert (c ∈ pl_elements (pipe w)) as Hce by (rewrite <-(in_order old s), Hes; set_solver).
  assert (c ∈ concat dss) as Hcd by (eapply families_in; [apply Hs|done]).
  destruct (states_fail E f pools clocks type_name Hh Hw Hp Hpools Hclocks n k old s h es1 c es2 dss1 (reading w1) y1 r) as (w2 & E2 & M2); try done.
  { by eapply families_moves. }
  { eapply all_in_moves; [exact M1|done|done|done]. }
  { eapply bins_ok_moves; [exact M1|by eapply all_present|]. intros d x Hd. apply (sd_bins _ _ _ _ Hs). by apply Hsub. }
  { by rewrite (St Hcd). }
  { by destruct (el_bin y1). }
  rewrite <-Hes, <-(uk_elements _ _ P1) in E2.
  destruct (step_locked E f self Hh Hw Hp n old s w1 _ _ (sd_lock _ _ _ _ Hs1) E2) as [-> _]. unfold step_end. munfold.
  set (w3 := to_pipe (pipe w1) w2). destruct (posts_on (EventError c r) w3) as (v & Ev & Ee & Ep & Epi). rewrite Ev. exists v. split; [done|].
  assert (pipe v = pipe w1) as Epv by (rewrite Epi; apply pipe_to). rewrite Epv. split_and!.
  - intros d z Hz. rewrite Ee. destruct (Hm1 d z Hz) as (z1 & Hz1 & _ & Tz1). destruct M2 as (_ & O2 & Hm2).
    destruct (Hm2 d z1 Hz1) as (z2 & Hz2 & _ & Tz2). exists z2. split; [done|].
    assert (el_state z1 = el_state z) as E1.
    { destruct (decide (d ∈ concat dss)) as [Hd|Hd]; [by apply Tz1|]. rewrite O1 in Hz1 by done. congruence. }
    destruct (decide (d ∈ concat dss1)) as [Hd|Hd]; [|rewrite O2 in Hz2 by done; cbn in Hz2; congruence].
    rewrite Tz2 by done. destruct (Ha d Hd) as (z' & Hz' & <-). congruence.
  - apply (sd_state _ _ _ _ Hs1).
  - apply (sd_lock _ _ _ _ Hs1).
  - apply P1.
  - intros Hbus. unfold post_on in Ev. munfold. rewrite get_pipe_done in Ev. assert (pl_bus (pipe w3) = true) as Hb3.
    { unfold w3. rewrite pipe_to. by rewrite (uk_bus _ _ P1). }
    rewrite Hb3 in Ev. injection Ev as <-. cbn. apply last_snoc.
Qed.
