(* ===== verification/PipelineLive.v ===== *)
(** * Elements added to a pipeline that is playing: [Pipeline]

    The thread that adds an element to a playing pipeline, outside a transaction, holds
    the lock of the elements for writing while it brings the element to PLAYING.  The
    element then wakes the scheduler, which locks for reading and unlocks: the thread's
    one lock is gone, and the unlock that follows the change has nothing to give up. *)

From Stdlib Require Import String SpecFloat.
From S2P Require Import Prelude CLib Pad Caps BufferPool Graph PadOps PadFlow PadPush Element ElementSpec BinSpec Pipeline PipelineWalk PipelineSort PipelineSpec PipelineState.

Local Open Scope Z_scope.

Section live.
Context {U : Type} `{HasPipeline U} `{CMemoryOk} (self : nat).
Implicit Types (w v : world U).

(** The links, and the sink pads too. *)
Definition same_shapes w v : Prop :=
  same_links w v /\ forall e y, w_elems v !! e = Some y -> exists x, w_elems w !! e = Some x /\ el_sink_pads y = el_sink_pads x.

Lemma same_shapes_refl w : same_shapes w w.
Proof. split; [apply same_links_refl|]. intros e x Hx. by exists x. Qed.

Lemma same_shapes_trans w v (u : world U) : same_shapes w v -> same_shapes v u -> same_shapes w u.
Proof.
  intros [L1 S1] [L2 S2]. split; [by eapply same_links_trans|]. intros e z Hz. destruct (S2 e z Hz) as (y & Hy & Ey).
  destruct (S1 e y Hy) as (x & Hx & Ex). exists x. split; [done|congruence].
Qed.

Lemma same_shapes_elem w e x y (v : world U) : w_elems w !! e = Some x -> el_src_pads y = el_src_pads x -> el_sink_pads y = el_sink_pads x ->
  w_elems v = <[e := y]> (w_elems w) -> w_pads v = w_pads w -> same_shapes w v.
Proof.
  intros Hx Hs Hk He Hp. split; [constructor; [|intros p; by rewrite Hp]|]; rewrite He.
  - intros d z Hz. destruct (decide (e = d)) as [->|Hne]; [rewrite lookup_insert_eq|rewrite lookup_insert_ne by done; by exists z].
    exists y. split; [done|congruence].
  - intros d z. destruct (decide (e = d)) as [->|Hne]; [rewrite lookup_insert_eq|rewrite lookup_insert_ne by done; intros Hz; by exists z].
    intros [= <-]. by exists x.
Qed.

Lemma shapes_sinks es w v : same_shapes w v -> sinks_ok es w -> sinks_ok es v.
Proof.
  intros [L S] Hs e y He Hy. destruct (S e y Hy) as (x & Hx & Ex). destruct (Hs e x He Hx) as [Hn Hp]. rewrite Ex. split; [done|].
  intros p Hin. eapply links_roomy; [exact L|]. by apply Hp.
Qed.

Lemma links_child w v p : same_links w v -> child v p = child w p.
Proof.
  intros [_ Hp]. pose proof (Hp p) as E1. unfold child. destruct (w_pads w !! p) as [x|], (w_pads v !! p) as [y|]; try done.
  injection E1 as _ Epeer _. cbn [mbind option_bind]. rewrite Epeer. destruct (pad_peer x) as [q|]; [|done]. cbn [mbind option_bind].
  pose proof (Hp q) as E2. destruct (w_pads w !! q) as [z|], (w_pads v !! q) as [t|]; try done. by injection E2.
Qed.

Lemma links_children w v e : same_links w v -> is_Some (w_elems w !! e) -> children v e = children w e.
Proof.
  intros Hl [x Hx]. destruct (sl_elems _ _ Hl e x Hx) as (y & Hy & Es). unfold children. rewrite Hx, Hy, Es.
  clear Hy Es Hx. induction (el_src_pads x) as [|p ps IH]; [done|]. cbn [omap list_omap]. rewrite (links_child w v p Hl). destruct (child w p); [f_equal|]; exact IH.
Qed.

Lemma links_acyclic es w v : same_links w v -> acyclic es (children w) -> (forall e, is_Some (w_elems v !! e) -> is_Some (w_elems w !! e)) ->
  acyclic es (children v).
Proof.
  intros Hl Ha Hback x Hx. apply (Ha x). revert Hx. apply tc_congruence with (f := id). intros a b [Hb1 Hb2]. split; [|done].
  change (b ∈ children w a). rewrite <-(links_children w v a Hl); [done|]. apply Hback. unfold children in Hb1. destruct (w_elems v !! a); [by eexists|by apply elem_of_nil in Hb1].
Qed.

(** What follows a change, when nothing is locked any more. *)
Lemma finish_faults (pools : pool_ops U) type_name queue_roots w : let els := pl_elements (pipe w) in
  pl_lock (pipe w) = Unlocked -> NoDup els -> walkable els (zlen els + 2) w -> sinks_ok els w ->
  acyclic els (children w) -> zlen els < UINT32_MAX ->
  pipeline_reconfiguration_finish_locked pools type_name self queue_roots w = Fault.
Proof.
  intros els Hl Hnd Hw Hs Ha Hlen. destruct (acyclic_height els (children w) Ha Hlen) as [L HL].
  destruct (recalculate_done w L Hw Hs HL) as (r & E & _). unfold pipeline_reconfiguration_finish_locked. munfold. rewrite E.
  set (w1 := ranks_pipe w r). assert (pipe w1 = with_ranks (pipe w) r) as Ep1 by apply pipe_ranks.
  destruct (sort_locked_done w1) as (els' & E2 & _); rewrite ?Ep1; [done|by apply walkable_pipe|]. rewrite E2, Ep1.
  set (w2 := to_pipe _ w1). assert (pipe w2 = with_elements (with_ranks (pipe w) r) els' (pl_capacity (with_ranks (pipe w) r))) as Ep2 by apply pipe_to.
  unfold mark_pipeline_dirty, zst_pipeline_mark_buffer_pool_sizing_dirty. munfold. rewrite get_pipe_done. unfold unlock. munfold. rewrite get_pipe_done.
  assert (forall d, pipe (mk_world (w_next w2) (w_pads w2) (w_elems w2) (w_bufs w2) (w_bus w2) d (w_user w2)) = pipe w2) as Ed by done.
  match goal with |- context [pipe ?w3] => replace (pipe w3) with (pipe w2) by done end. rewrite Ep2. cbn [pl_lock with_elements with_ranks]. by rewrite Hl.
Qed.
End live.

Section waking.
Context {U : Type} `{HasPipeline U} `{CMemoryOk} (self : nat).
Context (E : env U) (f : nat -> hook -> U -> zst_result_t * U) (queue_roots : M U unit).
Context (Hhooks : calm_hooks E f) (Hpipe : forall e h u, pipe_in (f e h u).2 = pipe_in u) (Hroots : calm queue_roots).
Context (Hwake : forall k, env_scheduler_wake E k = element_wake self queue_roots).
Implicit Types (w v : world U).

(** The element [e], once [x], is in state [s]; the rest of the graph is as it was. *)
Record changed w v (e : nat) (x : zst_element) (s : zst_state_t) : Prop := {
  ch_elems : w_elems v = <[e := with_state x s]> (w_elems w);
  ch_pads : w_pads v = w_pads w;
}.

Lemma posts_keep e ev w x : w_elems w !! e = Some x ->
  exists v, post_if_bus e ev w = Done (tt, v) /\ w_elems v = w_elems w /\ w_pads v = w_pads w /\ pipe v = pipe w.
Proof. intros Hx. unfold post_if_bus, get_elem, zst_bus_post. munfold. rewrite Hx. destruct (el_bus x); by eexists. Qed.

(** A step of a plain element up to the point where it wakes the scheduler. *)
Lemma step_then_wake call e old new w x : w_elems w !! e = Some x -> el_bin x = None -> sound f [e] ->
  exists v, pipe v = pipe w /\ changed w v e x new /\
    single_step E call e old new w =
      (_ ← (match new, el_pipeline x with ZST_STATE_PLAYING, Some k => env_scheduler_wake E k | _, _ => mret tt end);
       _ ← post_if_bus e (EventStateChanged e old new); mret ZST_OK) v.
Proof.
  intros Hx Hb Hok. unfold single_step. munfold. rewrite (run_hook_effect E f Hhooks).
  assert ((hook_effect E f e (step_hook old new) (w_user w)).1 = ZST_OK /\ pipe_in (hook_effect E f e (step_hook old new) (w_user w)).2 = pipe w) as [-> Hp].
  { unfold hook_effect. destruct (step_hook old new); [|done]. destruct (is_some _); [|done]. split; [apply Hok; set_solver|apply Hpipe]. }
  change (negb (ZST_OK =? ZST_OK)) with false. cbv iota. unfold get_elem at 1. cbn [w_elems put_user]. rewrite Hx, Hb.
  change (negb (ZST_OK =? ZST_OK)) with false. cbv iota. unfold modify_elem, get_elem at 1, set_elem. munfold. cbn [w_elems put_user]. rewrite Hx.
  unfold get_elem at 1. cbn [w_elems put_elems]. rewrite lookup_insert_eq. cbn [el_pipeline with_state].
  eexists. split; [|split; [|reflexivity]]; [exact Hp|by constructor].
Qed.

Lemma step_below call e old new w x : w_elems w !! e = Some x -> el_bin x = None -> sound f [e] -> new <> ZST_STATE_PLAYING ->
  exists v, single_step E call e old new w = Done (ZST_OK, v) /\ pipe v = pipe w /\ changed w v e x new.
Proof.
  intros Hx Hb Hok Hne. destruct (step_then_wake call e old new w x Hx Hb Hok) as (v1 & Hp1 & [C1 D1] & ->).
  assert (w_elems v1 !! e = Some (with_state x new)) as Hv by (by rewrite C1, lookup_insert_eq).
  destruct (posts_keep e (EventStateChanged e old new) v1 _ Hv) as (v & E2 & Ee & Ep & Epi). exists v.
  split_and!; [|congruence|constructor; congruence]. munfold. destruct new; try done; by rewrite E2.
Qed.

(** Who holds the lock for writing outside a transaction wakes, and holds nothing. *)
Lemma wake_unlocks k w : pl_scheduler (pipe w) = true -> pl_owner (pipe w) = None -> pl_lock (pipe w) = WriteLocked self ->
  exists u, env_scheduler_wake E k w = Done (tt, put_user w u) /\ pipe_in u = with_lock (pipe w) Unlocked None.
Proof.
  intros Hs Ho Hl. rewrite Hwake. unfold element_wake, owned_here, scheduler_wake. munfold. rewrite get_pipe_done, Hs, Ho. cbn [andb negb].
  assert (rdlock self w = Done (tt, w)) as ->. { unfold rdlock. munfold. by rewrite get_pipe_done, Hl, Nat.eqb_refl. }
  destruct (Hroots w) as (a & u & -> & Hu). unfold unlock. munfold. rewrite get_pipe_done.
  assert (pipe (put_user w u) = pipe w) as -> by exact Hu. rewrite Hl, Nat.eqb_refl, set_pipe_done, Ho.
  eexists. split; [done|]. apply pipe_put.
Qed.

Lemma step_playing call e old w x k : w_elems w !! e = Some x -> el_bin x = None -> sound f [e] -> el_pipeline x = Some k ->
  pl_scheduler (pipe w) = true -> pl_owner (pipe w) = None -> pl_lock (pipe w) = WriteLocked self ->
  exists v, single_step E call e old ZST_STATE_PLAYING w = Done (ZST_OK, v) /\ pipe v = with_lock (pipe w) Unlocked None /\
    changed w v e x ZST_STATE_PLAYING.
Proof.
  intros Hx Hb Hok Hk Hs Ho Hl. destruct (step_then_wake call e old ZST_STATE_PLAYING w x Hx Hb Hok) as (v1 & Hp1 & [C1 D1] & ->).
  rewrite Hk. destruct (wake_unlocks k v1) as (u & Ew & Hu); rewrite ?Hp1; try done. munfold. rewrite Ew. set (v2 := put_user v1 u).
  assert (w_elems v2 !! e = Some (with_state x ZST_STATE_PLAYING)) as Hv by (unfold v2; cbn; by rewrite C1, lookup_insert_eq).
  destruct (posts_keep e (EventStateChanged e old ZST_STATE_PLAYING) v2 _ Hv) as (v & -> & Ee & Ep & Epi). exists v.
  split_and!; [done| |constructor; [by rewrite Ee|by rewrite Ep]]. rewrite Epi. unfold v2, pipe at 1. cbn. by rewrite Hu, Hp1.
Qed.

Lemma changed_again w v (u : world U) e x s t : changed w v e x s -> changed v u e (with_state x s) t -> changed w u e x t.
Proof. intros [C1 D1] [C2 D2]. constructor; [by rewrite C2, C1, insert_insert_eq|congruence]. Qed.

Lemma changed_elem w v e x s : changed w v e x s -> w_elems v !! e = Some (with_state x s).
Proof. intros [-> _]. apply lookup_insert_eq. Qed.

(** From NULL to READY, and on to PLAYING. *)
Lemma set_ready n e w x : w_elems w !! e = Some x -> el_bin x = None -> sound f [e] -> el_state x = ZST_STATE_NULL ->
  exists v, zst_element_set_state E (S n) e ZST_STATE_READY w = Done (ZST_OK, v) /\ pipe v = pipe w /\ changed w v e x ZST_STATE_READY.
Proof.
  intros Hx Hb Hok Hs. rewrite (set_is_single E n e w x ZST_STATE_NULL ZST_STATE_READY OPEN Hx Hs eq_refl). by apply step_below.
Qed.

Lemma set_playing n e w x k : w_elems w !! e = Some x -> el_bin x = None -> sound f [e] -> el_state x = ZST_STATE_READY ->
  el_pipeline x = Some k -> pl_scheduler (pipe w) = true -> pl_owner (pipe w) = None -> pl_lock (pipe w) = WriteLocked self ->
  exists v, zst_element_set_state E (S (S n)) e ZST_STATE_PLAYING w = Done (ZST_OK, v) /\
    pipe v = with_lock (pipe w) Unlocked None /\ changed w v e x ZST_STATE_PLAYING.
Proof.
  intros Hx Hb Hok Hs Hk Hsch Ho Hl.
  destruct (step_below (zst_element_set_state E n) e ZST_STATE_READY ZST_STATE_PAUSED w x Hx Hb Hok ltac:(done)) as (v1 & E1 & P1 & C1).
  pose proof (changed_elem _ _ _ _ _ C1) as Hx1.
  destruct (step_playing (zst_element_set_state E n) e ZST_STATE_PAUSED v1 _ k Hx1) as (v2 & E2 & P2 & C2); rewrite ?P1; try done.
  exists v2. split_and!; [|by rewrite P2, P1|by eapply changed_again].
  assert (zst_element_set_state E (S (S n)) e ZST_STATE_PLAYING w =
    climb (zst_element_set_state E (S n)) e ZST_STATE_READY ZST_STATE_PAUSED ZST_STATE_PLAYING w) as ->.
  { cbn [zst_element_set_state]. munfold. unfold get_elem at 1. by rewrite Hx, Hs. }
  unfold climb. munfold. rewrite (set_is_single E n e w x ZST_STATE_READY ZST_STATE_PAUSED PREROLL Hx Hs eq_refl), E1.
  change (negb (ZST_OK =? ZST_OK)) with false. cbv beta iota.
  by rewrite (set_is_single E n e v1 _ ZST_STATE_PAUSED ZST_STATE_PLAYING START Hx1 eq_refl eq_refl), E2.
Qed.
End waking.

(** A sound element added to a playing pipeline with a running scheduler, outside a
    transaction: it gets to PLAYING, and then the pipeline gives up a lock that nobody
    holds. *)
Theorem live_add_faults {U} `{HasPipeline U} `{CMemoryOk} self (E : env U) f pools type_name queue_roots n (w : world U) e x :
  let els := pl_elements (pipe w) ++ [e] in
  calm_hooks E f -> (forall e h u, pipe_in (f e h u).2 = pipe_in u) -> calm queue_roots ->
  (forall k, env_scheduler_wake E k = element_wake self queue_roots) ->
  pl_state (pipe w) = ZST_STATE_PLAYING -> pl_scheduler (pipe w) = true -> pl_owner (pipe w) = None -> pl_lock (pipe w) = Unlocked ->
  w_elems w !! e = Some x -> el_bin x = None -> el_state x = ZST_STATE_NULL -> sound f [e] ->
  NoDup els -> walkable els (zlen els + 2) w -> sinks_ok els w -> acyclic els (children w) -> zlen els < UINT32_MAX ->
  zst_pipeline_add_element_dynamic E pools type_name self queue_roots (S (S n)) e w = Fault.
Proof.
  intros els Hh Hp Hq Hwake Hstate Hsch Ho Hl Hx Hb Hs Hok Hnd Hw Hsi Ha Hlen.
  unfold zst_pipeline_add_element_dynamic. munfold. rewrite get_pipe_done. unfold owned_here at 1. rewrite Ho.
  unfold enter, pipeline_wait_for_foreign_reconfiguration. munfold. rewrite get_pipe_done, Ho. cbn [is_some andb].
  rewrite wrlock_free by done. set (w0 := to_pipe (locked_pipe self (pipe w)) w).
  assert (pipe w0 = locked_pipe self (pipe w)) as Ep0 by apply pipe_to.
  destruct (add_locked_done w0 e x Hx) as (w1 & cap & -> & Ep1 & Hp1 & He1). rewrite Ep0 in Ep1, He1.
  change (negb (ZST_OK =? ZST_OK)) with false. cbv beta iota. rewrite get_pipe_done, Ep1. cbn [with_elements locked_pipe with_lock pl_state]. rewrite Hstate.
  set (x1 := with_context x _ _ _) in He1. assert (w_elems w1 !! e = Some x1) as Hx1 by (rewrite He1; apply lookup_insert_eq).
  destruct (set_ready self E f queue_roots Hh Hp Hq Hwake (S n) e w1 x1 Hx1 Hb Hok Hs) as (w2 & -> & Ep2 & C2).
  change (negb (ZST_OK =? ZST_OK)) with false. cbv beta iota.
  destruct (set_playing self E f queue_roots Hh Hp Hq Hwake n e w2 _ _ (changed_elem _ _ _ _ _ C2) Hb Hok eq_refl eq_refl) as (w3 & -> & Ep3 & C3);
    rewrite ?Ep2, ?Ep1; try done.
  change (negb (ZST_OK =? ZST_OK)) with false. cbv beta iota.
  pose proof (changed_again _ _ _ _ _ _ _ C2 C3) as [Ce Cp].
  assert (same_shapes w w3) as Hshape.
  { apply (same_shapes_elem w e x (with_state x1 ZST_STATE_PLAYING)); [done|done|done| |].
    - rewrite Ce, He1. apply insert_insert_eq.
    - by rewrite Cp, Hp1. }
  change (negb (ZST_OK =? ZST_OK)) with false. unfold owned_here, leave. rewrite Ho. cbv iota.
  rewrite (finish_faults self pools type_name queue_roots w3); rewrite ?Ep3, ?Ep2, ?Ep1; try done; cbn [with_lock with_elements locked_pipe pl_elements]; fold els.
  - eapply links_walkable; [apply Hshape|done].
  - eapply shapes_sinks; [exact Hshape|done].
  - eapply links_acyclic; [apply Hshape|done|]. intros d [y Hy]. destruct (proj2 Hshape d y Hy) as (z & Hz & _). by eexists.
Qed.
