(* ===== verification/PipelineExamples.v ===== *)
(** * Pipelines at concrete inputs

    Three elements in a row, and what the theorems on pipelines say of them. *)

From Stdlib Require Import String SpecFloat.
From stdpp Require Import relations.
From S2P Require Import Prelude CLib Pad Caps BufferPool Graph PadOps PadFlow PadPush Element ElementSpec BinSpec Pipeline PipelineWalk PipelineSort PipelineSpec PipelineState PipelineLive.

Local Open Scope Z_scope.

Section examples.
#[local] Existing Instance ample_memory.

(** The state outside: a pipeline, and a log of hooks. *)
Definition outside : Type := zst_pipeline * log.
#[local] Instance outside_pipeline : HasPipeline outside.
Proof. refine {| pipe_in := fst; put_pipe_in := fun p u => (p, u.2) |}; [by intros|by intros []|by intros]. Defined.

Definition out_hook (fails : nat -> hook -> bool) (e : nat) (h : hook) (u : outside) : zst_result_t * outside :=
  (if fails e h then ZST_ERROR else ZST_OK, (u.1, u.2 ++ [(e, h)])).
Definition out_op (fails : nat -> hook -> bool) (e : nat) (h : hook) : option (M outside zst_result_t) :=
  Some (fun w => Done ((out_hook fails e h (w_user w)).1, put_user w (out_hook fails e h (w_user w)).2)).
Definition out_env (fails : nat -> hook -> bool) (wake : M outside unit) : env outside :=
  mk_env
    (fun e => mk_ops (out_op fails e OPEN) (out_op fails e CLOSE) (out_op fails e START) (out_op fails e STOP)
                (out_op fails e PREROLL) (out_op fails e UNPREROLL) None None None)
    (fun _ _ => mret ZST_ERROR) (fun _ => mret (ZST_ERROR, None)) (fun _ _ _ _ => mret ZST_PAD_PROBE_OK)
    (fun _ => mret 0) (fun _ _ => mret tt) (fun _ => mret tt) (fun _ => mret false) (fun _ _ => mret tt) (fun _ => wake).

Lemma out_calm fails wake : calm_hooks (out_env fails wake) (out_hook fails).
Proof. intros e h m Hm w. destruct h; injection Hm as <-; reflexivity. Qed.

(** No element has a pool; the system clock is clock 7. *)
Definition no_pools : pool_ops outside :=
  mk_pool_ops outside (fun _ => None) (fun _ => mret (mk_pcfg 0 0 0 0 0 0 false)) (fun _ => mret 0) (fun _ _ => mret ZST_OK).
Definition system_clock : clock_ops outside :=
  mk_clock_ops outside (fun _ => None) (mret (Some 7%nat)) (fun _ _ => mret None) (mret 1000).

Lemma calm_ret {A} (a : A) : calm (mret a : M outside A).
Proof. intros w. exists a, (w_user w). by destruct w. Qed.

Lemma no_pools_calm : calm_pools no_pools.
Proof. constructor; [done|intros; apply calm_ret..]. Qed.
Lemma system_calm : calm_clocks system_clock.
Proof. constructor; [done|intros; apply calm_ret..]. Qed.

(** Element 1 feeds 2, which feeds 3; [els] are the pipeline's. *)
Definition row_pad (d : zst_pad_direction_t) (peer parent : nat) : zst_pad := with_parent (with_link (new_pad None d) (Some peer) true 2) (Some parent).
Definition row_elem (s : zst_state_t) (srcs sinks : list nat) : zst_element := mk_element s srcs sinks true (Some 0%nat) None None None.
Definition row (els : list nat) (state s3 : zst_state_t) : world outside :=
  mk_world 20
    (<[11%nat := row_pad ZST_PAD_SRC 12 1]> (<[12%nat := row_pad ZST_PAD_SINK 11 2]>
      (<[13%nat := row_pad ZST_PAD_SRC 14 2]> {[14%nat := row_pad ZST_PAD_SINK 13 3]})))
    (<[1%nat := row_elem state [11%nat] []]> (<[2%nat := row_elem state [13%nat] [12%nat]]> {[3%nat := row_elem s3 [] [14%nat]]}))
    ∅ [] []
    (mk_pipeline 0 els 8 state true None false 0 true Unlocked None 0 ∅ ∅, []).

Ltac members := repeat match goal with
  | Hx : _ ∈ _ :: _ |- _ => apply elem_of_cons in Hx as [->|Hx]
  | Hx : _ ∈ [] |- _ => by apply elem_of_nil in Hx
  end.

Lemma row_elems els state s3 e x : w_elems (row els state s3) !! e = Some x ->
  (e = 1%nat /\ x = row_elem state [11%nat] []) \/ (e = 2%nat /\ x = row_elem state [13%nat] [12%nat]) \/ (e = 3%nat /\ x = row_elem s3 [] [14%nat]).
Proof.
  cbn. intros [[<- <-]|[_ [[<- <-]|[_ [<- <-]%lookup_singleton_Some]]%lookup_insert_Some]]%lookup_insert_Some; auto.
Qed.

Lemma row_pads els state s3 p : In p [11%nat; 12%nat; 13%nat; 14%nat] ->
  exists y, w_pads (row els state s3) !! p = Some y /\ pad_refcount y = 2 /\ forall q, pad_peer y = Some q -> In q [11%nat; 12%nat; 13%nat; 14%nat].
Proof. intros Hp. repeat (destruct Hp as [<-|Hp]; [by eexists; split; [reflexivity|split; [reflexivity|intros q [= <-]; cbn; auto 6]]|]). done. Qed.

Lemma row_roomy els state s3 p : In p [11%nat; 12%nat; 13%nat; 14%nat] -> roomy 100 (row els state s3) p.
Proof. intros Hp. destruct (row_pads els state s3 p Hp) as (y & Hy & Hr & _). exists y. split; [exact Hy|]. rewrite Hr. unfold INT32_MAX. lia. Qed.

Lemma row_elem_pads els state s3 e x p : w_elems (row els state s3) !! e = Some x -> p ∈ el_src_pads x ++ el_sink_pads x ->
  In p [11%nat; 12%nat; 13%nat; 14%nat].
Proof. intros Hx Hp. apply row_elems in Hx as [[-> ->]|[[-> ->]|[-> ->]]]; cbn in Hp; members; cbn; auto 6. Qed.

Lemma row_nodup els state s3 e x : w_elems (row els state s3) !! e = Some x -> NoDup (el_src_pads x) /\ NoDup (el_sink_pads x).
Proof. intros Hx. apply row_elems in Hx as [[-> ->]|[[-> ->]|[-> ->]]]; cbn; split; repeat constructor; set_solver. Qed.

Lemma row_walkable els state s3 : els ⊆ [1%nat; 2%nat; 3%nat] -> walkable els 100 (row els state s3).
Proof.
  intros Hsub. constructor.
  - intros e He%Hsub. members; by eexists.
  - intros e x _ Hx. by eapply row_nodup.
  - intros e x p _ Hx Hp. eapply row_roomy, row_elem_pads; [exact Hx|set_solver].
  - intros e x p y q _ Hx Hp Hy Hq. assert (In p [11%nat; 12%nat; 13%nat; 14%nat]) as Hin by (eapply row_elem_pads; [exact Hx|set_solver]).
    destruct (row_pads els state s3 p Hin) as (y' & Hy' & _ & Hpeer). rewrite Hy in Hy'. injection Hy' as <-. by apply row_roomy, Hpeer.
Qed.

Lemma row_sinks els state s3 : sinks_ok els (row els state s3).
Proof.
  intros e x _ Hx. split; [by eapply row_nodup|]. intros p Hp. eapply roomy_less; [eapply row_roomy, row_elem_pads; [exact Hx|set_solver]|lia].
Qed.

Lemma height_acyclic els succ (L : nat -> Z) : (forall u v, edge els succ u v -> L u < L v) -> acyclic els succ.
Proof.
  intros HL x Hx. assert (forall y, tc (edge els succ) x y -> L x < L y) as Hy; [|specialize (Hy x Hx); lia].
  intros y. clear Hx. induction 1 as [a b Hab|a b c Hab _ IH]; [by apply HL|]. pose proof (HL a b Hab). lia.
Qed.

Lemma row_edge els state s3 u v : v ∈ children (row els state s3) u -> (u = 1%nat /\ v = 2%nat) \/ (u = 2%nat /\ v = 3%nat).
Proof.
  unfold children. destruct (w_elems (row els state s3) !! u) as [x|] eqn:Hx; [|by intros Hv%elem_of_nil].
  apply row_elems in Hx as [[-> ->]|[[-> ->]|[-> ->]]]; intros Hv.
  - change (v ∈ [2%nat]) in Hv. apply list_elem_of_singleton in Hv. auto.
  - change (v ∈ [3%nat]) in Hv. apply list_elem_of_singleton in Hv. auto.
  - by apply elem_of_nil in Hv.
Qed.

Lemma row_acyclic els state s3 : acyclic els (children (row els state s3)).
Proof. apply (height_acyclic _ _ Z.of_nat). intros u v [Hv _]. apply row_edge in Hv as [[-> ->]|[-> ->]]; lia. Qed.

(** ** The theorems *)

#[local] Existing Instance ample_memory_ok.

Definition backwards : world outside := row [3%nat; 2%nat; 1%nat] ZST_STATE_NULL ZST_STATE_NULL.

Lemma sub_row els : forallb (fun e => (e =? 1)%nat || (e =? 2)%nat || (e =? 3)%nat) els = true -> els ⊆ [1%nat; 2%nat; 3%nat].
Proof.
  intros Hb e He. rewrite forallb_forall in Hb. apply list_elem_of_In, Hb in He. apply orb_prop in He as [He|He]; [apply orb_prop in He as [He|He]|];
    apply Nat.eqb_eq in He as ->; set_solver.
Qed.

Lemma row_walk els state s3 k : els ⊆ [1%nat; 2%nat; 3%nat] -> k <= 100 -> walkable els k (row els state s3).
Proof. intros Hsub Hk. by eapply walkable_more; [apply row_walkable| |]. Qed.

Lemma sort_orders_witness :
  exists els', zst_pipeline_topological_sort 1 backwards = Done (tt, to_pipe (with_elements (pipe backwards) els' 8) backwards) /\
    els' ≡ₚ [3%nat; 2%nat; 1%nat].
Proof.
  destruct (sort_orders 1 backwards) as (els' & E & Hp & _).
  - reflexivity.
  - by apply (bool_decide_unpack (NoDup [3%nat; 2%nat; 1%nat])).
  - apply row_walk; [by apply sub_row|unfold zlen; cbn; lia].
  - exists els'. by split.
Defined.

Lemma added_twice_faults_witness :
  exists v, zst_pipeline_add 1 2 backwards = Done (ZST_OK, v) /\ zst_pipeline_topological_sort 1 v = Fault.
Proof.
  apply (added_twice_faults 1 backwards 2).
  - reflexivity.
  - set_solver.
  - apply row_walk; [by apply sub_row|unfold zlen; cbn; lia].
Defined.

Lemma ranks_longest_witness :
  exists r, pipeline_recalculate_ranks_locked backwards = Done (tt, ranks_pipe backwards r) /\ 2 <= get_rank r 3 /\ get_rank r 3 <= 3.
Proof.
  destruct (ranks_longest backwards) as (r & E & Hlow & Hhigh).
  - apply row_walk; [by apply sub_row|unfold zlen; cbn; lia].
  - apply row_sinks.
  - apply row_acyclic.
  - unfold zlen, UINT32_MAX. cbn. lia.
  - exists r. split; [exact E|]. split.
    + apply (Hlow 1%nat 3%nat 2%nat); [set_solver|reflexivity|].
      apply (nsteps_l _ 1 1%nat 2%nat 3%nat); [|apply nsteps_once]; (split; [apply list_elem_of_lookup; by exists 0%nat|set_solver]).
    + apply (Hhigh (fun e => Z.min (Z.of_nat e) 3)); [|set_solver]. constructor; [intros x; unfold UINT32_MAX; lia|].
      intros u v _ [Hv _]. apply row_edge in Hv as [[-> ->]|[-> ->]]; lia.
Defined.

Definition row_types (e : nat) : option string := if (e =? 1)%nat then Some "testsrc"%string else Some "queue"%string.

Lemma downstream_count_witness :
  zst_pipeline_count_downstream_elements_of_type row_types 1 "queue" backwards = Done (2, backwards) /\
  exists ds, zst_pipeline_count_downstream_elements_of_type row_types 1 "queue" backwards =
    Done (of_type (fun e => pipeline_element_is_type row_types e "queue") ds, backwards) /\ NoDup ds.
Proof.
  split; [vm_compute; reflexivity|]. destruct (downstream_count row_types backwards 1 "queue"%string) as (ds & E & Hn & _).
  - eapply walkable_more; [|apply (sub_row [1%nat; 3%nat; 2%nat; 1%nat]); reflexivity|].
    + exact (walkable_elems [1%nat; 2%nat; 3%nat] 100 (row [1%nat; 2%nat; 3%nat] ZST_STATE_NULL ZST_STATE_NULL) backwards eq_refl
               (fun e x Hx => ex_intro _ x (conj Hx eq_refl)) (row_walkable [1%nat; 2%nat; 3%nat] ZST_STATE_NULL ZST_STATE_NULL ltac:(done))).
    + unfold zlen. cbn. lia.
  - exists ds. by split.
Defined.

Definition silent (_ : nat) (_ : hook) : bool := false.

Lemma row_standing s : standing 0 s [[1%nat]; [2%nat]; [3%nat]] (row [1%nat; 2%nat; 3%nat] s s).
Proof.
  constructor; try reflexivity.
  - repeat constructor; by eapply family_plain.
  - by apply (bool_decide_unpack (NoDup [1%nat; 2%nat; 3%nat])).
  - intros d Hd. cbn in Hd. members; by eexists.
  - intros d x Hd Hx. cbn in Hd. members; injection Hx as <-; cbn; repeat constructor; eexists; (split; [reflexivity|done]).
  - apply row_walk; [by apply sub_row|unfold zlen; cbn; lia].
Qed.

Lemma pipeline_brings_all_witness :
  exists v, zst_pipeline_set_state (out_env silent (mret tt)) no_pools system_clock row_types 1 4 5 ZST_STATE_PLAYING
      (row [1%nat; 2%nat; 3%nat] ZST_STATE_NULL ZST_STATE_NULL) = Done (ZST_OK, v) /\ pl_state (pipe v) = ZST_STATE_PLAYING.
Proof.
  destruct (pipeline_brings_all (out_env silent (mret tt)) (out_hook silent) no_pools system_clock row_types 1 5 0
              (row [1%nat; 2%nat; 3%nat] ZST_STATE_NULL ZST_STATE_NULL) ZST_STATE_NULL ZST_STATE_PLAYING [[1%nat]; [2%nat]; [3%nat]])
    as (v & E & Hs & _).
  - apply out_calm.
  - intros k w. reflexivity.
  - intros e h u. reflexivity.
  - apply no_pools_calm.
  - apply system_calm.
  - lia.
  - apply row_standing.
  - intros d h u _. reflexivity.
  - exists v. split; [exact E|]. apply Hs.
Defined.

Definition third_fails (e : nat) (h : hook) : bool := (e =? 2)%nat.

Lemma pipeline_rolls_back_witness :
  exists v, zst_pipeline_set_state (out_env third_fails (mret tt)) no_pools system_clock row_types 1 1 5 ZST_STATE_READY
      (row [1%nat; 2%nat; 3%nat] ZST_STATE_NULL ZST_STATE_NULL) = Done (ZST_ERROR, v) /\ last (w_bus v) = Some (EventError 2 ZST_ERROR).
Proof.
  destruct (pipeline_rolls_back (out_env third_fails (mret tt)) (out_hook third_fails) no_pools system_clock row_types 1 0 5 0
              (row [1%nat; 2%nat; 3%nat] ZST_STATE_NULL ZST_STATE_NULL) ZST_STATE_NULL ZST_STATE_READY OPEN [[1%nat]; [2%nat]; [3%nat]]
              [1%nat] 2 [3%nat] [[1%nat]] (row_elem ZST_STATE_NULL [13%nat] [12%nat]) ZST_ERROR) as (v & E & _ & _ & _ & _ & Hb); try (intros; reflexivity).
  - apply out_calm.
  - intros k w. reflexivity.
  - apply no_pools_calm.
  - apply system_calm.
  - lia.
  - apply row_standing.
  - repeat constructor; by eapply family_plain.
  - intros d h u Hd. cbn in Hd. members; reflexivity.
  - by apply (bool_decide_unpack (NoDup [2%nat; 1%nat])).
  - intros d Hd. cbn in *. members; set_solver.
  - discriminate.
  - exists v. split; [exact E|]. by apply Hb.
Defined.

Definition playing_row : world outside := row [1%nat; 2%nat] ZST_STATE_PLAYING ZST_STATE_NULL.
Definition wakes : M outside unit := element_wake 1 (mret tt).

Lemma live_add_faults_witness :
  zst_pipeline_add_element_dynamic (out_env silent wakes) no_pools row_types 1 (mret tt) 3 3 playing_row = Fault.
Proof.
  apply (live_add_faults 1 (out_env silent wakes) (out_hook silent) no_pools row_types (mret tt) 1 playing_row 3
           (row_elem ZST_STATE_NULL [] [14%nat])); try (intros; reflexivity).
  - apply out_calm.
  - apply calm_ret.
  - intros d h u _. reflexivity.
  - by apply (bool_decide_unpack (NoDup [1%nat; 2%nat; 3%nat])).
  - exact (walkable_elems [1%nat; 2%nat; 3%nat] 5 (row [1%nat; 2%nat; 3%nat] ZST_STATE_PLAYING ZST_STATE_NULL) playing_row eq_refl
             (fun e x Hx => ex_intro _ x (conj Hx eq_refl)) (row_walk [1%nat; 2%nat; 3%nat] ZST_STATE_PLAYING ZST_STATE_NULL 5 ltac:(done) ltac:(lia))).
  - exact (row_sinks [1%nat; 2%nat; 3%nat] ZST_STATE_PLAYING ZST_STATE_NULL).
  - exact (row_acyclic [1%nat; 2%nat; 3%nat] ZST_STATE_PLAYING ZST_STATE_NULL).
Defined.
End examples.
