(* ===== verification/Scheduler.v ===== *)
(** * The scheduler: [src/zst_scheduler.c]

    First what a worker does with one task, as a function of the world.  Then how tasks
    are queued, taken and given up by any number of threads, as a relation: the flag
    [is_queued] and the count [sched_task_refs] of each element, the ready queue, the
    lock of the elements, and the thread that removes an element meanwhile
    ([zst_pipeline_remove_element_dynamic] outside a transaction).  Each constructor is
    one access to what threads share; the memory is sequentially consistent.  The ready
    queue is taken as the first-in first-out list that [Queue] is shown to be; a push
    may fail at any time.  A task's token names its element until the element leaves the
    pipeline ([pipeline_remove_locked] in [zst_pipeline.c] clears it); what a worker
    pushes runs the elements behind in the same thread ([default_sink_pad_push] in
    [zst_pad.c]), whichever they are: the links are not part of this model. *)

From Stdlib Require Import String SpecFloat.
From S2P Require Import Prelude CLib Pad Caps BufferPool Graph PadOps PadFlow PadPush Element Pipeline.

Local Open Scope Z_scope.

(** ** Pacing *)

(** How long a worker waits before it pushes a buffer of time [pts] when the clock says
    [now]: [None] is no wait. *)
Definition task_wait (is_ptp : bool) (now base_time pts : Z) : option Z :=
  if is_ptp then (if now <? pts then Some (u64 (pts - now)) else None)
  else if 0 <? base_time then
    let run_time := if base_time <? now then u64 (now - base_time) else 0 in
    if u64 (run_time + 5000000) <? pts then Some (u64 (pts - run_time)) else None
  else None.

(** ** One task *)

(** How a task ends: the element's task is queued again at once, or not. *)
Inductive task_end := TASK_AGAIN | TASK_DONE.

Section task.
Context {U : Type} `{HasPipeline U} `{CMemory} (E : env U) (rounds n : nat) (is_ptp : nat -> bool).
Local Notation M := (M U).

Definition zst_buffer_create_user : M (option nat) :=
  if malloc_ok SIZEOF_BUFFER then
    b ← fresh; _ ← set_buf b (mk_zbuf (mk_buffer ZST_BUFFER_USER 0 0 0 0 None 0) 1); mret (Some b)
  else mret None.

(** The pools are looked at by the scheduler's pipeline. *)
Definition task_sizing (e : nat) : M unit := p ← get_pipe; env_pool_sizing E (pl_self p) e.

(** With [clock_sync] the worker waits for the buffer's time. *)
Definition pace (e b : nat) : M unit :=
  p ← get_pipe;
  el ← get_elem e;
  eos ← buffer_flag b ZST_BUFFER_FLAG_EOS;
  drop ← buffer_flag b ZST_BUFFER_FLAG_DROP;
  match el_clock el with
  | Some c =>
      if pl_clock_sync p && negb (eos || drop) then
        now ← env_time E c;
        y ← get_buf b;
        match task_wait (is_ptp c) now (pl_base_time p) (buf_pts (zb_buffer y)) with
        | Some d => env_clock_wait E c d
        | None => mret tt
        end
      else mret tt
  | None => mret tt
  end.

(** What [process] gave goes out of the first source pad. *)
Definition push_processed (e b : nat) : M unit :=
  s ← zst_element_get_first_src_pad_ref e;
  match s with
  | None => mret tt
  | Some s => _ ← pace e b; _ ← zst_pad_push E rounds n s b; zst_pad_unref s
  end.

(** The end of the stream: a buffer that says so, or a message. *)
Definition task_eof (e : nat) : M unit :=
  b ← zst_buffer_create_user;
  match b with
  | None => mret tt
  | Some b =>
      _ ← set_flag b ZST_BUFFER_FLAG_EOS;
      s ← zst_element_get_first_src_pad_ref e;
      _ ← match s with
          | Some s => _ ← zst_pad_push E rounds n s b; zst_pad_unref s
          | None => post_if_bus e (EventEos e)
          end;
      zst_buffer_unref b
  end.

Definition execute_element_task (e : nat) : M task_end :=
  el ← get_elem e;
  match el_state el with
  | ZST_STATE_PLAYING =>
      let is_source := match el_sink_pads el with [] => true | _ => false end in
      match op_process (env_ops E e) with
      | None => mret TASK_DONE
      | Some process =>
          _ ← task_sizing e;
          '(ret, out) ← process None;
          if ret =? ZST_OK then
            _ ← task_sizing e;
            _ ← match out with
                | Some b => _ ← push_processed e b; zst_buffer_unref b
                | None => mret tt
                end;
            mret (if is_source then TASK_AGAIN else TASK_DONE)
          else if ret =? ZST_EOF then
            _ ← task_eof e;
            _ ← modify_elem e (fun x => with_state x ZST_STATE_READY);
            mret TASK_DONE
          else if (ret =? ZST_AGAIN) || (ret =? ZST_TIMEOUT) then mret TASK_AGAIN
          else _ ← post_if_bus e (EventError e ret); mret TASK_DONE
      end
  | _ => mret TASK_DONE
  end.
End task.

(** ** Tasks of many threads *)

(** Where [zst_scheduler_queue_task] returns to: the other roots, or the end of a task. *)
Inductive return_to := ToRoots (es : list nat) (worker : bool) | ToRun (es : list nat) | ToRelease (e : nat).

(** [worker] of the roots: whether a worker queues them, or a thread from outside. *)
Inductive spc :=
| Outside
| Top                                      (* a worker: about to test [running] *)
| Taking                                   (* about to pop a task *)
| RootsLock (worker : bool)                (* about to lock the elements for reading *)
| Roots (es : list nat) (worker : bool)    (* about to test the state of the next root *)
| RunLock                                  (* [zst_scheduler_run]: about to lock for reading *)
| RunSources (es : list nat)               (* and to queue the sources, whatever their state *)
| QRun (e : nat) (r : return_to)           (* about to test [running] *)
| QTake (e : nat) (r : return_to)          (* about to exchange [is_queued] *)
| QRef (e : nat) (r : return_to)           (* about to add to [sched_task_refs] *)
| QPush (e : nat) (r : return_to)          (* about to push the token *)
| QFail (e : nat) (r : return_to)          (* full: about to subtract *)
| QClear (e : nat) (r : return_to)         (* about to clear [is_queued] *)
| Took (e : nat)                           (* about to read the token's element *)
| Exec (e : nat)                           (* about to test the state *)
| Process (e : nat) (ds : list nat)        (* in [process], or in the push of its output: in the [process]
                                              of the elements [ds] that it reaches, the innermost first *)
| Eof (e : nat)                            (* about to set the state to READY *)
| Clear (e : nat) (again : bool)           (* about to clear [is_queued] *)
| Release (e : nat)                        (* about to read the token's element again *)
| Subtract (e : nat)                       (* about to subtract *)
| Ended
| RmPause (e : nat)                        (* removing: about to pause the element *)
| RmWait (e : nat)                         (* about to test [sched_task_refs] *)
| RmLock (e : nat)                         (* about to lock the elements for writing *)
| RmClose (e : nat)                        (* about to set the state to NULL, and to leave the list *)
| RmUnlock (e : nat)
| StopJoin                                 (* waits for the workers *)
| StopDrain                                (* about to pop a task that is left *)
| StopRead (e : nat)                       (* about to read the token's element *)
| StopReset (e : nat)                      (* about to clear [is_queued] *)
| StopRelease (e : nat).                   (* about to subtract *)

Definition is_worker (c : spc) : bool :=
  match c with
  | Top | Taking | RootsLock true | Roots _ true | Took _ | Exec _ | Process _ _ | Eof _ | Clear _ _ | Release _ | Subtract _ => true
  | QRun _ r | QTake _ r | QRef _ r | QPush _ r | QFail _ r | QClear _ r => match r with ToRoots _ w => w | ToRun _ => false | ToRelease _ => true end
  | _ => false
  end.

(** How far the removal of an element is: asked for, past the wait for its tasks, out of
    the pipeline. *)
Inductive removal := Member | Draining | Drained | Gone.

Record sched := mk_sched {
  sc_running : bool;
  sc_queued : nat -> bool;
  sc_refs : nat -> Z;
  sc_state : nat -> zst_state_t;
  sc_removal : nat -> removal;
  sc_ready : list nat;
  sc_readers : nat;
  sc_writer : option nat;
  sc_threads : list spc;
}.

Definition upd {A} (e : nat) (a : A) (f : nat -> A) : nat -> A := fun d => if (d =? e)%nat then a else f d.

(** Thread [t] goes on at [c]. *)
Definition goes (s : sched) (t : nat) (c : spc) : sched :=
  mk_sched (sc_running s) (sc_queued s) (sc_refs s) (sc_state s) (sc_removal s) (sc_ready s) (sc_readers s) (sc_writer s)
    (<[t := c]> (sc_threads s)).
Definition set_running (s : sched) (b : bool) : sched :=
  mk_sched b (sc_queued s) (sc_refs s) (sc_state s) (sc_removal s) (sc_ready s) (sc_readers s) (sc_writer s) (sc_threads s).
Definition set_queued (s : sched) (e : nat) (b : bool) : sched :=
  mk_sched (sc_running s) (upd e b (sc_queued s)) (sc_refs s) (sc_state s) (sc_removal s) (sc_ready s) (sc_readers s) (sc_writer s)
    (sc_threads s).
Definition add_refs (s : sched) (e : nat) (k : Z) : sched :=
  mk_sched (sc_running s) (sc_queued s) (upd e (sc_refs s e + k) (sc_refs s)) (sc_state s) (sc_removal s) (sc_ready s) (sc_readers s)
    (sc_writer s) (sc_threads s).
Definition set_elem_state (s : sched) (e : nat) (x : zst_state_t) : sched :=
  mk_sched (sc_running s) (sc_queued s) (sc_refs s) (upd e x (sc_state s)) (sc_removal s) (sc_ready s) (sc_readers s) (sc_writer s)
    (sc_threads s).
Definition set_removal (s : sched) (e : nat) (r : removal) : sched :=
  mk_sched (sc_running s) (sc_queued s) (sc_refs s) (sc_state s) (upd e r (sc_removal s)) (sc_ready s) (sc_readers s) (sc_writer s)
    (sc_threads s).
Definition set_ready (s : sched) (l : list nat) : sched :=
  mk_sched (sc_running s) (sc_queued s) (sc_refs s) (sc_state s) (sc_removal s) l (sc_readers s) (sc_writer s) (sc_threads s).
Definition set_lock (s : sched) (readers : nat) (writer : option nat) : sched :=
  mk_sched (sc_running s) (sc_queued s) (sc_refs s) (sc_state s) (sc_removal s) (sc_ready s) readers writer (sc_threads s).

Definition returned (r : return_to) : spc := match r with ToRoots es w => Roots es w | ToRun es => RunSources es | ToRelease e => Release e end.

Section steps.
(** Whether the pipeline's element has a [process] operation. *)
Context (has_process : nat -> bool).

Inductive sstep (t : nat) (s : sched) : sched -> Prop :=
(* the application: [zst_scheduler_run], [zst_scheduler_wake], states, removal, [zst_scheduler_stop] *)
| s_run : sc_threads s !! t = Some Outside -> sc_running s = false ->
    sstep t s (goes (set_running s true) t RunLock)
| s_run_lock es : sc_threads s !! t = Some RunLock -> sc_writer s = None -> (forall e, e ∈ es -> sc_removal s e <> Gone) ->
    sstep t s (goes (set_lock s (S (sc_readers s)) None) t (RunSources es))
| s_run_source e es : sc_threads s !! t = Some (RunSources (e :: es)) -> sstep t s (goes s t (QRun e (ToRun es)))
| s_run_end : sc_threads s !! t = Some (RunSources []) ->
    sstep t s (goes (set_lock s (pred (sc_readers s)) (sc_writer s)) t Outside)
| s_worker : sc_threads s !! t = Some Outside -> sc_running s = true -> sstep t s (goes s t Top)
| s_wake : sc_threads s !! t = Some Outside -> sc_running s = true -> sstep t s (goes s t (RootsLock false))
| s_state e x : sc_threads s !! t = Some Outside -> sc_removal s e = Member ->
    sstep t s (goes (set_elem_state s e x) t Outside)
| s_remove e : sc_threads s !! t = Some Outside -> sc_removal s e = Member -> sstep t s (goes s t (RmPause e))
| s_stop : sc_threads s !! t = Some Outside -> sc_running s = true ->
    sstep t s (goes (set_running s false) t StopJoin)
(* [worker_pool_loop] *)
| s_top : sc_threads s !! t = Some Top -> sc_running s = true -> sstep t s (goes s t Taking)
| s_end : sc_threads s !! t = Some Top -> sc_running s = false -> sstep t s (goes s t Ended)
| s_take e l : sc_threads s !! t = Some Taking -> sc_ready s = e :: l -> sstep t s (goes (set_ready s l) t (Took e))
| s_took e : sc_threads s !! t = Some (Took e) -> sc_removal s e <> Gone -> sstep t s (goes s t (Exec e))
(* the token of an element that has left the pipeline: neither the flag nor the count is given back *)
| s_took_gone e : sc_threads s !! t = Some (Took e) -> sc_removal s e = Gone -> sstep t s (goes s t (Release e))
| s_idle : sc_threads s !! t = Some Taking -> sstep t s (goes s t (RootsLock true))
(* [scheduler_queue_source_roots]: the roots are those of the elements that are members *)
| s_roots w es : sc_threads s !! t = Some (RootsLock w) -> sc_writer s = None -> (forall e, e ∈ es -> sc_removal s e <> Gone) ->
    sstep t s (goes (set_lock s (S (sc_readers s)) None) t (Roots es w))
| s_root e es w : sc_threads s !! t = Some (Roots (e :: es) w) -> sc_state s e = ZST_STATE_PLAYING ->
    sstep t s (goes s t (QRun e (ToRoots es w)))
| s_root_skip e es w : sc_threads s !! t = Some (Roots (e :: es) w) -> sc_state s e <> ZST_STATE_PLAYING ->
    sstep t s (goes s t (Roots es w))
| s_roots_end w : sc_threads s !! t = Some (Roots [] w) ->
    sstep t s (goes (set_lock s (pred (sc_readers s)) (sc_writer s)) t (if w then Top else Outside))
(* [zst_scheduler_queue_task] *)
| s_run_yes e r : sc_threads s !! t = Some (QRun e r) -> sc_running s = true -> sstep t s (goes s t (QTake e r))
| s_run_no e r : sc_threads s !! t = Some (QRun e r) -> sc_running s = false -> sstep t s (goes s t (returned r))
| s_taken e r : sc_threads s !! t = Some (QTake e r) -> sc_queued s e = true -> sstep t s (goes s t (returned r))
| s_flag e r : sc_threads s !! t = Some (QTake e r) -> sc_queued s e = false ->
    sstep t s (goes (set_queued s e true) t (QRef e r))
| s_ref e r : sc_threads s !! t = Some (QRef e r) -> sstep t s (goes (add_refs s e 1) t (QPush e r))
| s_push e r : sc_threads s !! t = Some (QPush e r) -> sstep t s (goes (set_ready s (sc_ready s ++ [e])) t (returned r))
| s_push_full e r : sc_threads s !! t = Some (QPush e r) -> sstep t s (goes s t (QFail e r))
| s_fail e r : sc_threads s !! t = Some (QFail e r) -> sstep t s (goes (add_refs s e (-1)) t (QClear e r))
| s_clear e r : sc_threads s !! t = Some (QClear e r) -> sstep t s (goes (set_queued s e false) t (returned r))
(* [execute_element_task] *)
| s_exec e : sc_threads s !! t = Some (Exec e) -> sc_state s e = ZST_STATE_PLAYING -> has_process e = true ->
    sstep t s (goes s t (Process e []))
| s_exec_none e : sc_threads s !! t = Some (Exec e) -> sc_state s e <> ZST_STATE_PLAYING \/ has_process e = false ->
    sstep t s (goes s t (Clear e false))
(* [default_sink_pad_push]: what is pushed runs the next element's [process], in this thread *)
| s_down e d ds : sc_threads s !! t = Some (Process e ds) -> has_process d = true -> sstep t s (goes s t (Process e (d :: ds)))
| s_up e d ds : sc_threads s !! t = Some (Process e (d :: ds)) -> sstep t s (goes s t (Process e ds))
| s_processed e again : sc_threads s !! t = Some (Process e []) -> sstep t s (goes s t (Clear e again))
| s_eof e : sc_threads s !! t = Some (Process e []) -> sstep t s (goes s t (Eof e))
| s_ready e : sc_threads s !! t = Some (Eof e) -> sstep t s (goes (set_elem_state s e ZST_STATE_READY) t (Clear e false))
| s_done e : sc_threads s !! t = Some (Clear e false) -> sstep t s (goes (set_queued s e false) t (Release e))
| s_again e : sc_threads s !! t = Some (Clear e true) -> sstep t s (goes (set_queued s e false) t (QRun e (ToRelease e)))
(* [zst_scheduler_release_task_buffer] *)
| s_release e : sc_threads s !! t = Some (Release e) -> sc_removal s e <> Gone -> sstep t s (goes s t (Subtract e))
| s_release_gone e : sc_threads s !! t = Some (Release e) -> sc_removal s e = Gone -> sstep t s (goes s t Top)
| s_subtract e : sc_threads s !! t = Some (Subtract e) -> sstep t s (goes (add_refs s e (-1)) t Top)
(* [zst_pipeline_remove_element_dynamic] *)
| s_rm_pause e : sc_threads s !! t = Some (RmPause e) -> sc_removal s e = Member ->
    sstep t s (goes (set_removal (set_elem_state s e ZST_STATE_PAUSED) e Draining) t (RmWait e))
| s_rm_wait e : sc_threads s !! t = Some (RmWait e) -> sc_removal s e = Draining -> sc_refs s e <= 0 ->
    sstep t s (goes (set_removal s e Drained) t (RmLock e))
| s_rm_lock e : sc_threads s !! t = Some (RmLock e) -> sc_readers s = 0%nat -> sc_writer s = None ->
    sstep t s (goes (set_lock s 0 (Some t)) t (RmClose e))
| s_rm_close e : sc_threads s !! t = Some (RmClose e) -> 
    sstep t s (goes (set_removal (set_elem_state s e ZST_STATE_NULL) e Gone) t (RmUnlock e))
| s_rm_unlock e : sc_threads s !! t = Some (RmUnlock e) -> sstep t s (goes (set_lock s (sc_readers s) None) t Outside)
(* [zst_scheduler_stop] *)
| s_join : sc_threads s !! t = Some StopJoin -> forallb (fun c => negb (is_worker c)) (sc_threads s) = true ->
    sstep t s (goes s t StopDrain)
| s_drain e l : sc_threads s !! t = Some StopDrain -> sc_ready s = e :: l -> sstep t s (goes (set_ready s l) t (StopRead e))
| s_left e : sc_threads s !! t = Some (StopRead e) -> sc_removal s e <> Gone -> sstep t s (goes s t (StopReset e))
| s_left_gone e : sc_threads s !! t = Some (StopRead e) -> sc_removal s e = Gone -> sstep t s (goes s t StopDrain)
| s_drained : sc_threads s !! t = Some StopDrain -> sc_ready s = [] -> sstep t s (goes s t Outside)
| s_reset e : sc_threads s !! t = Some (StopReset e) -> sstep t s (goes (set_queued s e false) t (StopRelease e))
| s_stop_release e : sc_threads s !! t = Some (StopRelease e) -> sstep t s (goes (add_refs s e (-1)) t StopDrain).

(** [k] threads, all elements where they are at the start. *)
Definition sched_start (k : nat) (state : nat -> zst_state_t) : sched :=
  mk_sched false (fun _ => false) (fun _ => 0) state (fun _ => Member) [] 0 None (repeat Outside k).

Inductive sched_reach (k : nat) (state : nat -> zst_state_t) : sched -> Prop :=
| sr_start : sched_reach k state (sched_start k state)
| sr_step t s s' : sched_reach k state s -> sstep t s s' -> sched_reach k state s'.
End steps.
