(* ===== verification/SchedulerSpec.v ===== *)
(** * Tasks under any interleaving: [Scheduler]

    An invariant of the steps: the flag of an element stands for exactly one task, queued
    or in the hands of a thread; its count is the number of tasks that refer to it (once
    the element has left its pipeline, there are at most as many).  From it: the
    scheduler's task of an element is run by one worker at a time, no task is lost, and
    none runs once the removal of its element has seen the count at zero; but a task may
    be queued after that, and what workers push runs elements behind no flag. *)

From Stdlib Require Import String SpecFloat.
From S2P Require Import Prelude CLib Pad Caps BufferPool Graph PadOps PadFlow PadPush Element ElementSpec Pipeline PipelineExamples Scheduler.

Local Open Scope Z_scope.

(** ** Sums over threads *)

Fixpoint sumz {A} (f : A -> Z) (l : list A) : Z := match l with [] => 0 | c :: l => f c + sumz f l end.

Lemma sumz_app {A} (f : A -> Z) l1 l2 : sumz f (l1 ++ l2) = sumz f l1 + sumz f l2.
Proof. induction l1 as [|c l1 IH]; cbn in *; lia. Qed.

Lemma sumz_set {A} (f : A -> Z) l t c c' : l !! t = Some c -> sumz f (<[t := c']> l) = sumz f l - f c + f c'.
Proof.
  revert t. induction l as [|d l IH]; intros [|t] Ht; try done; cbn in *.
  - injection Ht as ->. lia.
  - change (f d + sumz f (<[t := c']> l) = f d + sumz f l - f c + f c'). rewrite (IH t Ht). lia.
Qed.

Lemma sumz_ge {A} (f : A -> Z) l t c : (forall d, 0 <= f d) -> l !! t = Some c -> f c <= sumz f l.
Proof.
  intros Hf. assert (forall l, 0 <= sumz f l) as Hp by (induction l0 as [|d l0 IH]; cbn; [lia|specialize (Hf d); lia]).
  revert t. induction l as [|d l IH]; intros [|t] Ht; try done; cbn in *.
  - injection Ht as ->. specialize (Hp l). lia.
  - specialize (IH t Ht). specialize (Hf d). lia.
Qed.

Lemma sumz_two {A} (f : A -> Z) l t1 t2 c1 c2 : (forall d, 0 <= f d) -> t1 <> t2 -> l !! t1 = Some c1 -> l !! t2 = Some c2 ->
  f c1 + f c2 <= sumz f l.
Proof.
  intros Hf. revert t1 t2. induction l as [|d l IH]; intros [|t1] [|t2] Hne H1 H2; try done; cbn in *.
  - injection H1 as ->. pose proof (sumz_ge f l t2 c2 Hf H2). lia.
  - injection H2 as ->. pose proof (sumz_ge f l t1 c1 Hf H1). lia.
  - specialize (IH t1 t2 ltac:(congruence) H1 H2). specialize (Hf d). lia.
Qed.

Lemma sumz_some {A} (f : A -> Z) l : (forall d, 0 <= f d) -> 0 < sumz f l -> exists t c, l !! t = Some c /\ 0 < f c.
Proof.
  intros Hf. induction l as [|d l IH]; cbn; [lia|]. intros Hs. destruct (decide (0 < f d)); [by exists 0%nat, d|].
  specialize (Hf d). destruct IH as (t & c & Ht & Hc); [lia|]. by exists (S t), c.
Qed.

(** ** What a thread holds *)

Definition at_e (e d : nat) : Z := if (d =? e)%nat then 1 else 0.

(** The element's flag: it was set for the task this thread brings or works on. *)
Definition flag_of (e : nat) (c : spc) : Z :=
  match c with
  | QRef d _ | QPush d _ | QFail d _ | QClear d _ | Took d | Exec d | Process d _ | Eof d | Clear d _ | StopRead d | StopReset d => at_e e d
  | _ => 0
  end.

Definition return_ref (e : nat) (r : return_to) : Z := match r with ToRelease d => at_e e d | _ => 0 end.

(** The counted references to the element. *)
Definition ref_of (e : nat) (c : spc) : Z :=
  match c with
  | QPush d r | QFail d r => at_e e d + return_ref e r
  | QRun _ r | QTake _ r | QRef _ r | QClear _ r => return_ref e r
  | Took d | Exec d | Process d _ | Eof d | Clear d _ | Release d | Subtract d | StopRead d | StopReset d | StopRelease d => at_e e d
  | _ => 0
  end.

(** The worker runs the element's task, or is about to write its state. *)
Definition work_of (e : nat) (c : spc) : Z := match c with Process d _ | Eof d => at_e e d | _ => 0 end.

Definition asked (r : removal) : Prop := r <> Member.
Definition past (r : removal) : Prop := match r with Drained | Gone => True | _ => False end.

Definition removing_ok (s : sched) (c : spc) : Prop :=
  match c with
  | RmWait e => asked (sc_removal s e)
  | RmLock e | RmClose e => past (sc_removal s e)
  | _ => True
  end.

(** There are [k] of what [n] counts; once the element is gone, tokens are dropped without
    being counted off. *)
Definition counts (r : removal) (k n : Z) : Prop := k <= n /\ (r <> Gone -> k = n).

Record sched_inv (s : sched) : Prop := {
  si_flag : forall e, counts (sc_removal s e) (sumz (at_e e) (sc_ready s) + sumz (flag_of e) (sc_threads s)) (Z.b2z (sc_queued s e));
  si_refs : forall e, counts (sc_removal s e) (sumz (at_e e) (sc_ready s) + sumz (ref_of e) (sc_threads s)) (sc_refs s e);
  si_quiet : forall e, asked (sc_removal s e) -> sc_state s e <> ZST_STATE_PLAYING;
  si_drained : forall e, past (sc_removal s e) -> sumz (work_of e) (sc_threads s) = 0;
  si_removing : forall t c, sc_threads s !! t = Some c -> removing_ok s c;
}.

Lemma at_e_range e d : 0 <= at_e e d.
Proof. unfold at_e. destruct (_ =? _)%nat; lia. Qed.
Lemma return_ref_range e r : 0 <= return_ref e r.
Proof. destruct r; cbn; [lia..|apply at_e_range]. Qed.
Lemma flag_range e c : 0 <= flag_of e c.
Proof. destruct c; cbn; try lia; apply at_e_range. Qed.
Lemma ref_range e c : 0 <= ref_of e c.
Proof.
  destruct c as [| | | | | | |d r|d r|d r|d r|d r|d r|d|d|d ds|d|d g|d|d| |d|d|d|d|d| | |d|d|d]; cbn; try lia; try apply at_e_range;
    pose proof (at_e_range e d); pose proof (return_ref_range e r); lia.
Qed.
Lemma work_range e c : 0 <= work_of e c.
Proof. destruct c; cbn; try lia; apply at_e_range. Qed.
Lemma work_ref e c : work_of e c <= ref_of e c.
Proof. pose proof (ref_range e c). destruct c; cbn in *; try lia. Qed.

Lemma sumz_le {A} (f g : A -> Z) l : (forall c, f c <= g c) -> sumz f l <= sumz g l.
Proof. intros Hf. induction l as [|c l IH]; cbn; [lia|]. specialize (Hf c). lia. Qed.
Lemma sumz_nonneg {A} (f : A -> Z) l : (forall c, 0 <= f c) -> 0 <= sumz f l.
Proof. intros Hf. induction l as [|c l IH]; cbn; [lia|]. specialize (Hf c). lia. Qed.

Lemma flag_returned e r : flag_of e (returned r) = 0.
Proof. by destruct r. Qed.
Lemma ref_returned e r : ref_of e (returned r) = return_ref e r.
Proof. by destruct r. Qed.
Lemma work_returned e r : work_of e (returned r) = 0.
Proof. by destruct r. Qed.
Lemma removing_returned s r : removing_ok s (returned r).
Proof. by destruct r. Qed.

Lemma sumz_repeat_outside (f : spc -> Z) k : f Outside = 0 -> sumz f (repeat Outside k) = 0.
Proof. intros Hf. induction k as [|k IH]; cbn; [done|]. lia. Qed.

Lemma start_inv k state : sched_inv (sched_start k state).
Proof.
  constructor; cbn.
  - intros e. by rewrite sumz_repeat_outside.
  - intros e. by rewrite sumz_repeat_outside.
  - by intros e [].
  - by intros e.
  - intros t c Hc. apply list_elem_of_lookup_2, list_elem_of_In, repeat_spec in Hc as ->. done.
Qed.

(** ** The steps *)

Section steps.
Context (has_process : nat -> bool).

(** Everyone else's place is as before. *)
Lemma removing_goes (s s' : sched) t c : sc_threads s' = <[t := c]> (sc_threads s) -> removing_ok s' c ->
  (forall e, asked (sc_removal s e) -> asked (sc_removal s' e)) -> (forall e, past (sc_removal s e) -> past (sc_removal s' e)) ->
  (forall t c, sc_threads s !! t = Some c -> removing_ok s c) -> forall t c, sc_threads s' !! t = Some c -> removing_ok s' c.
Proof.
  intros Ht Hc Ha Hp Hs t' c' Hc'. rewrite Ht in Hc'. destruct (decide (t = t')) as [->|Hne].
  - apply list_lookup_insert_Some in Hc' as [(_ & -> & _)|[? _]]; done.
  - rewrite list_lookup_insert_ne in Hc' by done. specialize (Hs t' c' Hc'). destruct c'; cbn in *; auto.
Qed.

Lemma past_asked r : past r -> asked r.
Proof. by destruct r. Qed.

(** The cases of a step. *)
Ltac cases Hs :=
  destruct Hs as [Hc Hr|es Hc Hw Hg|d es Hc|Hc|Hc Hr|Hc Hr|d x Hc Hm|d Hc Hm|Hc Hr|Hc Hr|Hc Hr|d l Hc Hl|d Hc Hg|d Hc Hg|Hc|w es Hc Hw Hg
    |d es w Hc Hp|d es w Hc Hp|[] Hc|d r Hc Hr|d r Hc Hr|d r Hc Hq|d r Hc Hq|d r Hc|d r Hc|d r Hc|d r Hc|d r Hc|d Hc Hp Hh|d Hc Hp|d x ds Hc Hh|d x ds Hc|d g Hc|d Hc|d Hc|d Hc|d Hc
    |d Hc Hg|d Hc Hg|d Hc|d Hc Hm|d Hc Hm Hr|d Hc Hr Hw|d Hc|d Hc|Hc Hf|d l Hc Hl|d Hc Hg|d Hc Hg|Hc Hl|d Hc|d Hc].

(** What a step does to the sums, and to the elements' members. *)
Ltac count :=
  match goal with Hc : sc_threads _ !! _ = Some _ |- _ =>
    cbn [sc_threads sc_ready sc_queued sc_refs sc_state sc_removal goes set_running set_queued add_refs set_elem_state set_removal set_ready set_lock];
    unfold upd; rewrite ?(sumz_set _ _ _ _ _ Hc), ?flag_returned, ?ref_returned, ?work_returned, ?sumz_app;
    cbn [flag_of ref_of work_of sumz at_e return_ref]
  end.
Ltac split_ids :=
  repeat match goal with
  | |- context [(?a =? ?b)%nat] => destruct (Nat.eqb_spec a b); subst
  | H : context [(?a =? ?b)%nat] |- _ => destruct (Nat.eqb_spec a b); subst
  end.

Lemma step_flag t s s' e : sched_inv s -> sstep has_process t s s' ->
  counts (sc_removal s' e) (sumz (at_e e) (sc_ready s') + sumz (flag_of e) (sc_threads s')) (Z.b2z (sc_queued s' e)).
Proof.
  intros [I _ _ _ _] Hs. specialize (I e). pose proof (sumz_nonneg (at_e e) (sc_ready s) (at_e_range e)) as Hpos. unfold counts in *.
  cases Hs; pose proof (sumz_ge (flag_of e) _ _ _ (flag_range e) Hc) as Hge; count; try rewrite Hl in *;
    cbn [flag_of sumz] in *; unfold at_e in *; split_ids; try congruence;
    try match type of I with context [sc_queued s ?x] => destruct (sc_queued s x) eqn:Eq end; cbn [Z.b2z] in *; try congruence;
    (split; [lia|intros Hr'; apply proj2 in I; first [congruence | (specialize (I Hr'); lia) | (specialize (I ltac:(congruence)); lia)]]).
Qed.

Lemma step_refs t s s' e : sched_inv s -> sstep has_process t s s' ->
  counts (sc_removal s' e) (sumz (at_e e) (sc_ready s') + sumz (ref_of e) (sc_threads s')) (sc_refs s' e).
Proof.
  intros [_ I _ _ _] Hs. specialize (I e). unfold counts in *.
  cases Hs; count; try rewrite Hl in *; cbn [ref_of return_ref sumz] in *; unfold at_e in *; split_ids; try congruence;
    (split; [lia|intros Hr'; apply proj2 in I; first [congruence | (specialize (I Hr'); lia) | (specialize (I ltac:(congruence)); lia)]]).
Qed.

Lemma step_quiet t s s' e : sched_inv s -> sstep has_process t s s' -> asked (sc_removal s' e) -> sc_state s' e <> ZST_STATE_PLAYING.
Proof.
  intros [_ _ I _ Ir] Hs. specialize (I e).
  cases Hs; count; try exact I; split_ids; try exact I; try done; try (rewrite Hm; by intros []).
  intros _. apply I. exact (Ir t _ Hc).
Qed.

Lemma step_drained t s s' e : sched_inv s -> sstep has_process t s s' -> past (sc_removal s' e) -> sumz (work_of e) (sc_threads s') = 0.
Proof.
  intros [_ I2 I3 I Ir] Hs. specialize (I e).
  cases Hs; pose proof (sumz_ge (work_of e) _ _ _ (work_range e) Hc) as Hge; count; cbn [work_of] in *; unfold at_e in Hge |- *;
    try (intros Hp'; specialize (I Hp'); split_ids; try lia; exfalso; by apply (I3 _ (past_asked _ Hp'))).
  - split_ids; [done|]. intros Hp'. specialize (I Hp'). lia.
  - split_ids; [|intros Hp'; specialize (I Hp'); lia]. intros _.
    pose proof (sumz_le _ _ (sc_threads s) (work_ref d)). pose proof (sumz_nonneg _ (sc_threads s) (work_range d)).
    pose proof (sumz_nonneg _ (sc_ready s) (at_e_range d)). destruct (I2 d) as [I2' _]. lia.
  - split_ids; [|intros Hp'; specialize (I Hp'); lia]. intros _. specialize (I (Ir t _ Hc)). lia.
Qed.

Lemma step_removing t s s' : sched_inv s -> sstep has_process t s s' -> forall t c, sc_threads s' !! t = Some c -> removing_ok s' c.
Proof.
  intros [_ _ _ _ Ir] Hs. cases Hs; (eapply (removing_goes s); [reflexivity| | | |exact Ir]); try done; try apply removing_returned; cbn; unfold upd;
    try (intros e; split_ids; done || (by intros ?) || (rewrite ?Hm; by intros [])); split_ids; first [done | exact (Ir t _ Hc)].
Qed.

Lemma sstep_inv t s s' : sched_inv s -> sstep has_process t s s' -> sched_inv s'.
Proof.
  intros Hi Hs. constructor; intros *; [by eapply step_flag|by eapply step_refs|by eapply step_quiet|by eapply step_drained|by eapply step_removing].
Qed.

Lemma sched_reach_inv k state s : sched_reach has_process k state s -> sched_inv s.
Proof. induction 1 as [|t s s' _ IH Hs]; [apply start_inv|by eapply sstep_inv]. Qed.
End steps.

(** The worker has the element's task in hand: from the test of its state to the clearing
    of its flag, everything it pushes meanwhile included. *)
Definition runs_task (e : nat) (c : spc) : bool :=
  match c with Exec d | Process d _ | Eof d | Clear d _ => (d =? e)%nat | _ => false end.

(** C22. However the threads interleave, with elements removed and the scheduler stopped at any
    time, the task that the scheduler keeps for an element is in the hands of one worker at
    a time, and while it is, no token of the element is queued. (The theorem is about the scheduler's own
    tasks: what another worker pushes into the element runs its [process] in that worker.) *)
Theorem one_worker has_process k state s e t1 c1 : sched_reach has_process k state s ->
  sc_threads s !! t1 = Some c1 -> runs_task e c1 = true ->
  e ∉ sc_ready s /\ forall t2 c2, sc_threads s !! t2 = Some c2 -> runs_task e c2 = true -> t1 = t2.
Proof.
  intros Hr H1 R1. apply sched_reach_inv in Hr as [I _ _ _ _]. destruct (I e) as [Hle _].
  assert (forall c, runs_task e c = true -> flag_of e c = 1) as Hf.
  { intros c Hc. unfold runs_task in Hc. destruct c; try done; cbn [flag_of]; unfold at_e; by rewrite Hc. }
  assert (Z.b2z (sc_queued s e) <= 1) by (destruct (sc_queued s e); cbn; lia).
  pose proof (sumz_nonneg (at_e e) (sc_ready s) (at_e_range e)). split.
  - intros [i Hi]%list_elem_of_lookup. pose proof (sumz_ge (at_e e) _ _ _ (at_e_range e) Hi) as Hq. unfold at_e at 1 in Hq.
    rewrite Nat.eqb_refl in Hq. pose proof (sumz_ge (flag_of e) _ _ _ (flag_range e) H1). rewrite Hf in * by done. lia.
  - intros t2 c2 H2 R2. destruct (decide (t1 = t2)); [done|]. exfalso.
    pose proof (sumz_two (flag_of e) _ t1 t2 _ _ (flag_range e) n H1 H2). rewrite !Hf in * by done. lia.
Qed.

(** The flag [is_queued] is never stale while the element is in its pipeline: when it is
    set a task for the element is in the ready queue, once, or a thread has it; and the
    count [sched_task_refs] is the number of tasks in the queue and in hand. *)
Theorem tasks_accounted has_process k state s e : sched_reach has_process k state s -> sc_removal s e <> Gone ->
  sc_refs s e = sumz (at_e e) (sc_ready s) + sumz (ref_of e) (sc_threads s) /\
  sumz (at_e e) (sc_ready s) + sumz (flag_of e) (sc_threads s) = Z.b2z (sc_queued s e) /\
  (sc_queued s e = true -> e ∈ sc_ready s \/ exists t c, sc_threads s !! t = Some c /\ 0 < flag_of e c).
Proof.
  intros Hr Hg. apply sched_reach_inv in Hr as [I1 I2 _ _ _]. destruct (I1 e) as [_ J1], (I2 e) as [_ J2].
  specialize (J1 Hg). specialize (J2 Hg). split; [done|]. split; [done|]. intros Hq. rewrite Hq in J1.
  destruct (decide (e ∈ sc_ready s)) as [|Hn]; [by left|]. right. apply sumz_some; [apply flag_range|].
  assert (sumz (at_e e) (sc_ready s) = 0) as Hz; [|cbn in J1; lia]. clear -Hn. induction (sc_ready s) as [|d l IH]; [done|]. cbn.
  unfold at_e at 1. destruct (Nat.eqb_spec d e) as [->|]; [set_solver|]. rewrite IH; [done|set_solver].
Qed.

(** Once the thread that removes an element has seen the count at zero, no worker is in
    the element's task and none will be. *)
Theorem drained_stays_quiet has_process k state s e : sched_reach has_process k state s -> past (sc_removal s e) ->
  sc_state s e <> ZST_STATE_PLAYING /\ forall t, (forall ds, sc_threads s !! t <> Some (Process e ds)) /\ sc_threads s !! t <> Some (Eof e).
Proof.
  intros Hr Hp. apply sched_reach_inv in Hr as [_ _ I3 I4 _]. split; [by apply I3, past_asked|]. specialize (I4 e Hp).
  intros t. split; [intros ds Ht|intros Ht]; pose proof (sumz_ge (work_of e) _ _ _ (work_range e) Ht) as Hge; cbn [work_of] in Hge; unfold at_e in Hge;
    rewrite Nat.eqb_refl in Hge; lia.
Qed.

(** ** A task that is queued too late *)

Tactic Notation "next" constr(t) uconstr(c) :=
  match goal with R : sched_reach ?hp ?k ?st ?s |- _ =>
    let R' := fresh "R" in
    eassert (sched_reach hp k st _) as R' by
      (eapply (sr_step hp k st t s _ R); eapply c; first [reflexivity | discriminate | (by intros ? ?) | (cbn; lia)]);
    clear R; rename R' into R
  end.

(** The wait for the tasks of an element ends before the elements are locked: a thread
    that has seen the element PLAYING may still queue its task, and a worker that takes
    it before the element leaves the pipeline goes on with the element when it has left
    and may have been destroyed. *)
Theorem task_outlives_removal : exists s, sched_reach (fun _ => true) 3 (fun _ => ZST_STATE_PLAYING) s /\
  sc_removal s 5 = Gone /\ sc_state s 5 = ZST_STATE_NULL /\ sc_threads s = [Outside; Exec 5; Outside].
Proof.
  pose proof (sr_start (fun _ => true) 3 (fun _ => ZST_STATE_PLAYING)) as R.
  next 0%nat s_run. next 0%nat (s_run_lock _ _ _ []). next 0%nat s_run_end. next 1%nat s_worker. next 1%nat s_top.
  next 1%nat s_idle. next 1%nat (s_roots _ _ _ true [5%nat]). next 1%nat s_root. next 1%nat s_run_yes.
  next 2%nat (s_remove _ _ _ 5). next 2%nat s_rm_pause. next 2%nat s_rm_wait. next 1%nat s_flag. next 1%nat s_ref.
  next 1%nat s_push. next 1%nat s_roots_end. next 1%nat s_top. next 1%nat s_take. next 1%nat s_took.
  next 2%nat s_rm_lock. next 2%nat s_rm_close. next 2%nat s_rm_unlock.
  eexists. split; [exact R|]. by split_and!.
Qed.

(** A worker that takes it afterwards finds no element in the token, and gives back neither
    the flag nor the count: should the element be added again, it is never queued. *)
Theorem task_dropped_keeps_flag : exists s, sched_reach (fun _ => true) 3 (fun _ => ZST_STATE_PLAYING) s /\
  sc_removal s 5 = Gone /\ sc_queued s 5 = true /\ sc_refs s 5 = 1 /\ sc_ready s = [] /\ sc_threads s = [Outside; Top; Outside].
Proof.
  pose proof (sr_start (fun _ => true) 3 (fun _ => ZST_STATE_PLAYING)) as R.
  next 0%nat s_run. next 0%nat (s_run_lock _ _ _ []). next 0%nat s_run_end. next 1%nat s_worker. next 1%nat s_top.
  next 1%nat s_idle. next 1%nat (s_roots _ _ _ true [5%nat]). next 1%nat s_root. next 1%nat s_run_yes.
  next 2%nat (s_remove _ _ _ 5). next 2%nat s_rm_pause. next 2%nat s_rm_wait. next 1%nat s_flag. next 1%nat s_ref.
  next 1%nat s_push. next 1%nat s_roots_end. next 2%nat s_rm_lock. next 2%nat s_rm_close. next 2%nat s_rm_unlock.
  next 1%nat s_top. next 1%nat s_take. next 1%nat s_took_gone. next 1%nat s_release_gone.
  eexists. split; [exact R|]. by split_and!.
Qed.

(** ** Two workers in one element *)

(** The flag guards the scheduler's tasks only: two workers whose sources feed one element
    are in its [process] at once. *)
Theorem pushes_overlap : exists s, sched_reach (fun _ => true) 3 (fun _ => ZST_STATE_PLAYING) s /\
  sc_threads s = [Outside; Process 5 [7%nat]; Process 6 [7%nat]].
Proof.
  pose proof (sr_start (fun _ => true) 3 (fun _ => ZST_STATE_PLAYING)) as R.
  next 0%nat s_run. next 0%nat (s_run_lock _ _ _ [5%nat; 6%nat]).
  next 0%nat s_run_source. next 0%nat s_run_yes. next 0%nat s_flag. next 0%nat s_ref. next 0%nat s_push.
  next 0%nat s_run_source. next 0%nat s_run_yes. next 0%nat s_flag. next 0%nat s_ref. next 0%nat s_push. next 0%nat s_run_end.
  next 1%nat s_worker. next 1%nat s_top. next 1%nat s_take. next 1%nat s_took. next 1%nat s_exec. next 1%nat (s_down _ _ _ 5 7).
  next 2%nat s_worker. next 2%nat s_top. next 2%nat s_take. next 2%nat s_took. next 2%nat s_exec. next 2%nat (s_down _ _ _ 6 7).
  eexists. split; [exact R|]. done.
Qed.

(** ** The end of a stream *)

Section eof.
Context {U : Type} `{HasPipeline U} `{CMemory} (E : env U) (rounds n : nat) (is_ptp : nat -> bool).

(** What a task of an element that says its stream is over leaves behind: the element
    is READY, and neither [stop] nor [unpreroll] has run. *)
Lemma eof_ready e x w w1 w2 process out : w_elems w !! e = Some x -> el_state x = ZST_STATE_PLAYING -> op_process (env_ops E e) = Some process ->
  task_sizing E e w = Done (tt, w1) -> process None w1 = Done ((ZST_EOF, out), w2) -> forall v, task_eof E rounds n e w2 = Done (tt, v) ->
  forall y, w_elems v !! e = Some y ->
  execute_element_task E rounds n is_ptp e w = Done (TASK_DONE, put_elems v (<[e := with_state y ZST_STATE_READY]> (w_elems v))).
Proof.
  intros Hx Hs Hp Hu Hproc v Ht y Hy. unfold execute_element_task. munfold. unfold get_elem at 1. rewrite Hx, Hs, Hp, Hu, Hproc.
  change (ZST_EOF =? ZST_OK) with false. change (ZST_EOF =? ZST_EOF) with true. cbv beta iota. rewrite Ht.
  unfold modify_elem, get_elem, set_elem. munfold. by rewrite Hy.
Qed.
End eof.

(** A plain element whose stream ends in a task was started and prerolled; brought to
    NULL afterwards, it is closed, but neither its [stop] nor its [unpreroll] runs. *)
Theorem eof_skips_stop {U} `{HasPipeline U} `{CMemory} (E : env U) f rounds n m is_ptp e x (w w1 w2 v : world U) process out y :
  calm_hooks E f -> calm_scheduler E -> (4 <= m)%nat ->
  w_elems w !! e = Some x -> el_state x = ZST_STATE_PLAYING -> op_process (env_ops E e) = Some process ->
  task_sizing E e w = Done (tt, w1) -> process None w1 = Done ((ZST_EOF, out), w2) ->
  task_eof E rounds n e w2 = Done (tt, v) -> w_elems v !! e = Some y -> el_bin y = None ->
  let '(r, u) := hook_effect E f e (Some CLOSE) (w_user v) in
  exists v', (_ ← execute_element_task E rounds n is_ptp e; zst_element_set_state E m e ZST_STATE_NULL) w = Done (r, v') /\ w_user v' = u.
Proof.
  intros Hh Hw Hm Hx Hs Hp Hu Hproc Ht Hy Hb. munfold.
  rewrite (eof_ready E rounds n is_ptp e x w w1 w2 process out Hx Hs Hp Hu Hproc v Ht y Hy). set (v1 := put_elems _ _).
  pose proof (walk_route_aux E f Hh Hw e y Hb m v1 ZST_STATE_READY ZST_STATE_NULL Hm) as Hwalk.
  assert (stands e y v1 ZST_STATE_READY) as Hst by apply lookup_insert_eq. specialize (Hwalk Hst).
  cbn [route walk step_hook] in Hwalk. change (w_user v1) with (w_user v) in Hwalk.
  destruct (hook_effect E f e (Some CLOSE) (w_user v)) as [r u]. destruct (r =? ZST_OK) eqn:Er; destruct Hwalk as [Hwalk _].
  - apply Z.eqb_eq in Er as ->. rewrite Hwalk by (by left). by eexists.
  - rewrite Hwalk by (right; cbn; lia). by eexists.
Qed.

(** ** Pacing *)

(** A worker that waits pushes a buffer when its time has come, counted from the base
    time, or on a PTP clock by the clock itself; it does not wait for a buffer that is
    late, nor, counting from the base time, for one that is early by 5 ms or less. *)
Theorem pace_on_time is_ptp now base pts : 0 <= now <= UINT64_MAX -> 0 <= base <= UINT64_MAX -> 0 <= pts <= UINT64_MAX - 5000000 ->
  now <= UINT64_MAX - 5000000 ->
  let run := Z.max 0 (now - base) in
  task_wait is_ptp now base pts =
    (if is_ptp then (if now <? pts then Some (pts - now) else None)
     else if (0 <? base) && (run + 5000000 <? pts) then Some (pts - run) else None).
Proof.
  intros Hn Hb Hp Hn' run. unfold task_wait, UINT64_MAX, run in *. destruct is_ptp.
  - destruct (Z.ltb_spec now pts); [|done]. rewrite u64_small by lia. done.
  - destruct (Z.ltb_spec 0 base); cbn [andb]; [|done]. set (r := if base <? now then u64 (now - base) else 0).
    assert (r = Z.max 0 (now - base)) as -> by (unfold r; destruct (Z.ltb_spec base now); [rewrite u64_small by lia|]; lia).
    rewrite u64_small by lia. destruct (Z.ltb_spec (Z.max 0 (now - base) + 5000000) pts); [|done].
    rewrite u64_small by lia. done.
Qed.

(** ** The theorems at concrete inputs *)

Lemma pace_on_time_witness : task_wait false 3000000000 1000000000 2040000000 = Some 40000000.
Proof. apply (pace_on_time false 3000000000 1000000000 2040000000); unfold UINT64_MAX; lia. Defined.

Ltac busy :=
  pose proof (sr_start (fun _ => true) 2 (fun _ => ZST_STATE_PLAYING)) as R;
  next 0%nat s_run; next 0%nat (s_run_lock _ _ _ [5%nat]); next 0%nat s_run_source; next 0%nat s_run_yes; next 0%nat s_flag;
  next 0%nat s_ref; next 0%nat s_push; next 0%nat s_run_end; next 1%nat s_worker; next 1%nat s_top; next 1%nat s_take; next 1%nat s_took; next 1%nat s_exec.

(** The worker is in an element behind the one whose task it runs. *)
Lemma one_worker_witness : exists s, sched_reach (fun _ => true) 2 (fun _ => ZST_STATE_PLAYING) s /\
  sc_threads s !! 1%nat = Some (Process 5 [7%nat]) /\ 5%nat ∉ sc_ready s.
Proof.
  busy. next 1%nat (s_down _ _ _ 5 7). eexists. split; [exact R|]. split; [reflexivity|].
  exact (proj1 (one_worker _ _ _ _ 5 1 (Process 5 [7%nat]) R eq_refl eq_refl)).
Defined.

Lemma tasks_accounted_witness : exists s, sched_reach (fun _ => true) 2 (fun _ => ZST_STATE_PLAYING) s /\
  sc_queued s 5 = true /\ (5%nat ∈ sc_ready s \/ exists t c, sc_threads s !! t = Some c /\ 0 < flag_of 5 c).
Proof. busy. eexists. split; [exact R|]. split; [reflexivity|]. refine (proj2 (proj2 (tasks_accounted _ _ _ _ 5 R _)) eq_refl). discriminate. Defined.

Lemma drained_stays_quiet_witness : exists s, sched_reach (fun _ => true) 1 (fun _ => ZST_STATE_PLAYING) s /\
  past (sc_removal s 5) /\ sc_state s 5 <> ZST_STATE_PLAYING.
Proof.
  pose proof (sr_start (fun _ => true) 1 (fun _ => ZST_STATE_PLAYING)) as R.
  next 0%nat (s_remove _ _ _ 5). next 0%nat s_rm_pause. next 0%nat s_rm_wait.
  eexists. split; [exact R|]. split; [exact I|]. exact (proj1 (drained_stays_quiet _ _ _ _ 5 R I)).
Defined.

Section example.
#[local] Existing Instance ample_memory.
#[local] Existing Instance outside_pipeline.

(** A source whose stream is over at once; it has no pads. *)
Definition ended_env : env outside :=
  mk_env (fun e => mk_ops (out_op silent e OPEN) (out_op silent e CLOSE) (out_op silent e START) (out_op silent e STOP)
                     (out_op silent e PREROLL) (out_op silent e UNPREROLL) (Some (fun _ => mret (ZST_EOF, None))) None None)
    (fun _ _ => mret ZST_ERROR) (fun _ => mret (ZST_ERROR, None)) (fun _ _ _ _ => mret ZST_PAD_PROBE_OK)
    (fun _ => mret 0) (fun _ _ => mret tt) (fun _ => mret tt) (fun _ => mret false) (fun _ _ => mret tt) (fun _ => mret tt).

Definition ended_source : zst_element := mk_element ZST_STATE_PLAYING [] [] true None None None None.
Definition ended_world : world outside :=
  mk_world 2 ∅ {[1%nat := ended_source]} ∅ [] [] (mk_pipeline 0 [1%nat] 8 ZST_STATE_PLAYING true None false 0 true Unlocked None 0 ∅ ∅, []).

Lemma eof_skips_stop_witness :
  exists v', (_ ← execute_element_task ended_env 0 1 (fun _ => false) 1; zst_element_set_state ended_env 4 1 ZST_STATE_NULL) ended_world =
    Done (ZST_OK, v') /\ (w_user v').2 = [(1%nat, CLOSE)].
Proof.
  assert (exists v, task_eof ended_env 0 1 1 ended_world = Done (tt, v) /\ w_elems v !! 1%nat = Some ended_source /\ w_user v = w_user ended_world)
    as (v & Ev & Hy & Hu) by (eexists; split; [reflexivity|split; reflexivity]).
  pose proof (eof_skips_stop ended_env (out_hook silent) 0 1 4 (fun _ => false) 1 ended_source ended_world ended_world ended_world v (fun _ => mret (ZST_EOF, None))
    None ended_source) as Hs.
  rewrite Hu in Hs. change (hook_effect ended_env (out_hook silent) 1 (Some CLOSE) (w_user ended_world)) with
    (ZST_OK, ((w_user ended_world).1, [(1%nat, CLOSE)])) in Hs. cbv beta iota in Hs.
  destruct Hs as (v' & E' & Eu).
  - intros e h m Hm w. destruct h; injection Hm as <-; reflexivity.
  - intros k w. reflexivity.
  - lia.
  - reflexivity.
  - reflexivity.
  - reflexivity.
  - reflexivity.
  - reflexivity.
  - exact Ev.
  - exact Hy.
  - reflexivity.
  - exists v'. split; [exact E'|]. by rewrite Eu.
Defined.
End example.
