(* ===== verification/Bus.v ===== *)
(** * The bus: [src/zst_bus.c]

    What each function does while it holds the lock, as a function of the bus; then how
    any number of threads run them, as a relation: the application's threads, the
    dispatch threads that [zst_bus_set_handler] starts, and handlers, which run on a
    dispatch thread and may call the bus themselves.  Each constructor is one critical
    section, or one access outside of any.  An event is a number here; what it owns is
    the matter of [BusEvent].

    [rules] are the conditions under which the bus is meant to be used: handlers are set
    and the bus is destroyed by one thread, not from a handler; no thread of the
    application is inside a call (waiting in [zst_bus_pop], say) when the bus is destroyed
    ([alone]), and nothing is called once it is being destroyed. *)

From S2P Require Import Prelude.

Local Open Scope Z_scope.

(** ** Critical sections *)

(** The nodes from [head] to [tail] are a list; [bus_thread] is meaningful while
    [bus_has_thread]. *)
Record zst_bus := mk_bus {
  bus_queue : list nat;
  bus_count : Z;
  bus_flushing : bool;
  bus_thread : nat;
  bus_has_thread : bool;
  bus_handler : option nat;
  bus_user_data : nat;
}.

Definition zst_bus_create (alloc_ok : bool) : option zst_bus :=
  if alloc_ok then Some (mk_bus [] 0 false 0 false None 0) else None.

Definition with_flushing (b : zst_bus) (f : bool) : zst_bus :=
  mk_bus (bus_queue b) (bus_count b) f (bus_thread b) (bus_has_thread b) (bus_handler b) (bus_user_data b).
Definition with_queue (b : zst_bus) (q : list nat) (count : Z) : zst_bus :=
  mk_bus q count (bus_flushing b) (bus_thread b) (bus_has_thread b) (bus_handler b) (bus_user_data b).
Definition with_thread (b : zst_bus) (thread : nat) (has : bool) : zst_bus :=
  mk_bus (bus_queue b) (bus_count b) (bus_flushing b) thread has (bus_handler b) (bus_user_data b).
Definition with_handler (b : zst_bus) (handler : option nat) (user_data : nat) : zst_bus :=
  mk_bus (bus_queue b) (bus_count b) (bus_flushing b) (bus_thread b) (bus_has_thread b) handler user_data.

(** [node_ok]: whether the node could be allocated. *)
Definition zst_bus_post (node_ok : bool) (bus : zst_bus) (event : option nat) : zst_result_t * zst_bus :=
  match event with
  | None => (ZST_ERROR, bus)
  | Some e =>
      if bus_flushing bus then (ZST_ERROR, bus)
      else if node_ok then (ZST_OK, with_queue bus (bus_queue bus ++ [e]) (u32 (bus_count bus + 1)))
      else (ZST_ERROR, bus)
  end.

(** What [zst_bus_pop] does each time it has the lock: it may have to wait on the
    condition. *)
Inductive pop_look := PopWaits | PopReturns (r : zst_result_t) (event : option nat) (bus : zst_bus).

Definition zst_bus_pop (bus : zst_bus) (timeout_ms : Z) : pop_look :=
  match bus_queue bus, bus_flushing bus with
  | [], false => if timeout_ms =? 0 then PopReturns ZST_TIMEOUT None bus else PopWaits
  | _, true => PopReturns ZST_ERROR None bus
  | e :: q, false => PopReturns ZST_OK (Some e) (with_queue bus q (u32 (bus_count bus - 1)))
  end.

(** [zst_bus_set_handler] up to the wait for the dispatch thread; [None] when there is none. *)
Definition stop_dispatch (bus : zst_bus) : option (nat * zst_bus) :=
  if bus_has_thread bus then Some (bus_thread bus, with_flushing bus true) else None.

(** After the wait. *)
Definition dispatch_stopped (bus : zst_bus) : zst_bus := with_flushing (with_thread bus (bus_thread bus) false) false.

(** The rest of it: [create_ok] says whether the thread could be created, under the name
    [next].  The flag tells whether it was. *)
Definition start_dispatch (create_ok : bool) (next : nat) (bus : zst_bus) (handler : option nat) (user_data : nat)
    : zst_result_t * zst_bus * bool :=
  let bus := with_handler bus handler user_data in
  match handler with
  | None => (ZST_OK, bus, false)
  | Some _ => if create_ok then (ZST_OK, with_thread bus next true, true) else (ZST_ERROR, bus, false)
  end.

(** ** Threads *)

(** Whose code runs: the application's, or a handler that was given an event. *)
Inductive owner := App | Handler (event handler user_data : nat).

Inductive bpc :=
| Code (k : owner)                                     (* outside of the bus *)
| PopWait (k : owner) (timeout_ms : Z)                 (* waits in [zst_bus_pop] *)
| SetJoin (k : owner) (old : nat) (handler : option nat) (user_data : nat)
| DestroyJoin (k : owner) (old : option nat)
| DestroyDrain (k : owner)                             (* about to free the queued events *)
| DestroyFree (k : owner)                              (* about to free the bus *)
| LoopPop                                              (* [bus_dispatch_loop], about to pop *)
| LoopWait                                             (* waits in its pop *)
| LoopTook (event : nat)                               (* about to read the handler *)
| LoopFree (event : nat)                               (* about to destroy the event *)
| LoopTest                                             (* about to read [flushing] *)
| LoopEnded.

Inductive phase := Live | Dying | Drained | Freed.

(** [sb_posted], [sb_taken]: the events accepted and popped, in this order; [sb_given]:
    those given to the application's own pops; [sb_destroyed]: those destroyed by the bus. *)
Record bsys := mk_bsys {
  sb_bus : zst_bus;
  sb_phase : phase;
  sb_threads : list bpc;
  sb_posted : list nat;
  sb_taken : list nat;
  sb_given : list nat;
  sb_destroyed : list nat;
}.

Definition moves (s : bsys) (t : nat) (c : bpc) : bsys :=
  mk_bsys (sb_bus s) (sb_phase s) (<[t := c]> (sb_threads s)) (sb_posted s) (sb_taken s) (sb_given s) (sb_destroyed s).
Definition set_bus (s : bsys) (b : zst_bus) : bsys :=
  mk_bsys b (sb_phase s) (sb_threads s) (sb_posted s) (sb_taken s) (sb_given s) (sb_destroyed s).
Definition set_phase (s : bsys) (p : phase) : bsys :=
  mk_bsys (sb_bus s) p (sb_threads s) (sb_posted s) (sb_taken s) (sb_given s) (sb_destroyed s).
Definition spawn (s : bsys) : bsys :=
  mk_bsys (sb_bus s) (sb_phase s) (sb_threads s ++ [LoopPop]) (sb_posted s) (sb_taken s) (sb_given s) (sb_destroyed s).
Definition log_posted (s : bsys) (e : nat) : bsys :=
  mk_bsys (sb_bus s) (sb_phase s) (sb_threads s) (sb_posted s ++ [e]) (sb_taken s) (sb_given s) (sb_destroyed s).
Definition log_taken (s : bsys) (e : nat) (to_app : bool) : bsys :=
  mk_bsys (sb_bus s) (sb_phase s) (sb_threads s) (sb_posted s) (sb_taken s ++ [e])
    (if to_app then sb_given s ++ [e] else sb_given s) (sb_destroyed s).
Definition log_destroyed (s : bsys) (es : list nat) : bsys :=
  mk_bsys (sb_bus s) (sb_phase s) (sb_threads s) (sb_posted s) (sb_taken s) (sb_given s) (sb_destroyed s ++ es).

Definition dispatches (c : bpc) : bool :=
  match c with LoopPop | LoopWait | LoopTook _ | LoopFree _ | LoopTest => true
  | Code (Handler _ _ _) | PopWait (Handler _ _ _) _ | SetJoin (Handler _ _ _) _ _ _ | DestroyJoin (Handler _ _ _) _
  | DestroyDrain (Handler _ _ _) | DestroyFree (Handler _ _ _) => true
  | _ => false end.

(** What [zst_bus_set_handler] does after the lock is taken again. *)
Definition set_rest (s : bsys) (t : nat) (k : owner) (create_ok : bool) (b : zst_bus) (handler : option nat) (user_data : nat)
    : zst_result_t * bsys :=
  let '(r, b, created) := start_dispatch create_ok (length (sb_threads s)) b handler user_data in
  let s := moves (set_bus s b) t (Code k) in
  (r, if created then spawn s else s).

Section steps.
(** Whether the bus is used by the rules; thread 0 sets the handlers. *)
Context (rules : bool).

Definition controls (t : nat) (k : owner) : Prop := rules = true -> t = 0%nat /\ k = App.
(** The application does not call a bus that is being destroyed; a handler may. *)
Definition may_call (s : bsys) (k : owner) : Prop := rules = true -> k = App -> sb_phase s = Live.
Definition alone (s : bsys) (t : nat) : Prop :=
  rules = true -> forall t' c, sb_threads s !! t' = Some c -> t' <> t -> dispatches c = true \/ c = Code App \/ c = LoopEnded.

Inductive bstep (t : nat) (s : bsys) : bsys -> Prop :=
(* [zst_bus_post], of an event of the caller's *)
| b_post k e ok r b : sb_threads s !! t = Some (Code k) -> may_call s k -> e ∉ sb_posted s ->
    zst_bus_post ok (sb_bus s) (Some e) = (r, b) ->
    bstep t s (if r =? ZST_OK then log_posted (moves (set_bus s b) t (Code k)) e else moves (set_bus s b) t (Code k))
(* [zst_bus_pop]: when called, when woken, and at the end of its time *)
| b_pop k ms : sb_threads s !! t = Some (Code k) -> may_call s k -> zst_bus_pop (sb_bus s) ms = PopWaits ->
    bstep t s (moves s t (PopWait k ms))
| b_pop_got k ms r e b : sb_threads s !! t = Some (Code k) -> may_call s k -> zst_bus_pop (sb_bus s) ms = PopReturns r (Some e) b ->
    bstep t s (log_taken (moves (set_bus s b) t (Code k)) e true)
| b_pop_none k ms r b : sb_threads s !! t = Some (Code k) -> may_call s k -> zst_bus_pop (sb_bus s) ms = PopReturns r None b ->
    bstep t s (moves (set_bus s b) t (Code k))
| b_wake_got k ms r e b : sb_threads s !! t = Some (PopWait k ms) -> zst_bus_pop (sb_bus s) ms = PopReturns r (Some e) b ->
    bstep t s (log_taken (moves (set_bus s b) t (Code k)) e true)
| b_wake_none k ms r b : sb_threads s !! t = Some (PopWait k ms) -> zst_bus_pop (sb_bus s) ms = PopReturns r None b ->
    bstep t s (moves (set_bus s b) t (Code k))
| b_timeout k ms : sb_threads s !! t = Some (PopWait k ms) -> ms <> UINT32_MAX -> bstep t s (moves s t (Code k))
(* [bus_dispatch_loop] *)
| b_loop_wait : sb_threads s !! t = Some LoopPop -> zst_bus_pop (sb_bus s) UINT32_MAX = PopWaits -> bstep t s (moves s t LoopWait)
| b_loop_got c r e b : sb_threads s !! t = Some c -> c = LoopPop \/ c = LoopWait ->
    zst_bus_pop (sb_bus s) UINT32_MAX = PopReturns r (Some e) b ->
    bstep t s (log_taken (moves (set_bus s b) t (LoopTook e)) e false)
| b_loop_none c r b : sb_threads s !! t = Some c -> c = LoopPop \/ c = LoopWait ->
    zst_bus_pop (sb_bus s) UINT32_MAX = PopReturns r None b -> bstep t s (moves (set_bus s b) t LoopTest)
| b_handle e h : sb_threads s !! t = Some (LoopTook e) -> bus_handler (sb_bus s) = Some h ->
    bstep t s (moves s t (Code (Handler e h (bus_user_data (sb_bus s)))))
| b_handle_none e : sb_threads s !! t = Some (LoopTook e) -> bus_handler (sb_bus s) = None -> bstep t s (moves s t (LoopFree e))
| b_handled e h u : sb_threads s !! t = Some (Code (Handler e h u)) -> bstep t s (moves s t (LoopFree e))
| b_free e : sb_threads s !! t = Some (LoopFree e) -> bstep t s (log_destroyed (moves s t LoopPop) [e])
| b_test : sb_threads s !! t = Some LoopTest ->
    bstep t s (moves s t (if bus_flushing (sb_bus s) then LoopEnded else LoopPop))
(* [zst_bus_set_handler] *)
| b_set k h u old b : sb_threads s !! t = Some (Code k) -> controls t k -> may_call s k -> stop_dispatch (sb_bus s) = Some (old, b) ->
    bstep t s (moves (set_bus s b) t (SetJoin k old h u))
| b_set_first k h u ok r s' : sb_threads s !! t = Some (Code k) -> controls t k -> may_call s k -> stop_dispatch (sb_bus s) = None ->
    set_rest s t k ok (sb_bus s) h u = (r, s') -> bstep t s s'
(* a thread that joins itself is told so at once, and goes on *)
| b_set_joined k old h u ok r s' : sb_threads s !! t = Some (SetJoin k old h u) -> sb_threads s !! old = Some LoopEnded \/ old = t ->
    set_rest s t k ok (dispatch_stopped (sb_bus s)) h u = (r, s') -> bstep t s s'
(* [zst_bus_destroy] *)
| b_destroy k : sb_threads s !! t = Some (Code k) -> controls t k -> may_call s k -> alone s t ->
    bstep t s (set_phase (moves (set_bus s (with_flushing (sb_bus s) true)) t
      (DestroyJoin k (if bus_has_thread (sb_bus s) then Some (bus_thread (sb_bus s)) else None))) Dying)
| b_joined k old : sb_threads s !! t = Some (DestroyJoin k old) ->
    match old with None => True | Some o => sb_threads s !! o = Some LoopEnded \/ o = t end ->
    bstep t s (moves s t (DestroyDrain k))
| b_drain k : sb_threads s !! t = Some (DestroyDrain k) ->
    bstep t s (set_phase (log_destroyed (moves s t (DestroyFree k)) (bus_queue (sb_bus s))) Drained)
| b_freed k : sb_threads s !! t = Some (DestroyFree k) -> bstep t s (set_phase (moves s t (Code k)) Freed).

(** [n] threads of the application, around a new bus. *)
Definition bus_start (n : nat) : bsys :=
  mk_bsys (mk_bus [] 0 false 0 false None 0) Live (repeat (Code App) n) [] [] [] [].

Inductive bus_reach (n : nat) : bsys -> Prop :=
| br_start : bus_reach n (bus_start n)
| br_step t s s' : bus_reach n s -> bstep t s s' -> bus_reach n s'.
End steps.
