(* ===== verification/BusSpec.v ===== *)
(** * What the bus promises: [Bus]

    Without any rules, events are popped in the order they were posted.  Under the rules
    there is one dispatch thread at a time, which calls only the handler that is set; a
    flushed dispatch thread ends; and a destroyed bus is used by nobody and has given
    away or destroyed each event once. *)

From S2P Require Import Prelude Bus.

Local Open Scope Z_scope.

(** ** Order *)

Lemma post_result ok b e r b' : zst_bus_post ok b (Some e) = (r, b') ->
  (r = ZST_OK /\ b' = with_queue b (bus_queue b ++ [e]) (u32 (bus_count b + 1)) /\ bus_flushing b = false) \/ (r <> ZST_OK /\ b' = b).
Proof. unfold zst_bus_post. destruct (bus_flushing b) eqn:Ef, ok; intros [= <- <-]; (right; split; [discriminate|done]) || (left; done). Qed.

Lemma pop_result b ms r e b' : zst_bus_pop b ms = PopReturns r e b' ->
  match e with
  | Some e => exists q, bus_queue b = e :: q /\ bus_flushing b = false /\ r = ZST_OK /\ b' = with_queue b q (u32 (bus_count b - 1))
  | None => b' = b /\ r <> ZST_OK
  end.
Proof.
  unfold zst_bus_pop. destruct (bus_queue b) as [|f q] eqn:Eq, (bus_flushing b) eqn:Ef; try destruct (ms =? 0);
    intros [= <- <- <-]; try (split; [done|discriminate]); by eexists.
Qed.

Record fifo (s : bsys) : Prop := {
  ff_order : sb_posted s = sb_taken s ++ bus_queue (sb_bus s);
  ff_count : bus_count (sb_bus s) = u32 (zlen (bus_queue (sb_bus s)));
  ff_once : NoDup (sb_posted s);
}.

Section order.
Context (rules : bool).

Lemma fifo_same s s' : fifo s -> sb_posted s' = sb_posted s -> sb_taken s' = sb_taken s ->
  bus_queue (sb_bus s') = bus_queue (sb_bus s) -> bus_count (sb_bus s') = bus_count (sb_bus s) -> fifo s'.
Proof. intros [? ? ?] E1 E2 E3 E4. constructor; rewrite ?E1, ?E2, ?E3, ?E4; done. Qed.

Lemma fifo_took s b ms r e b' t c app : fifo s -> b = sb_bus s -> zst_bus_pop b ms = PopReturns r (Some e) b' ->
  fifo (log_taken (moves (set_bus s b') t c) e app).
Proof.
  intros [Ho Hc Hn] -> Hp. apply pop_result in Hp as (q & Hq & _ & _ & ->). constructor; cbn; [|rewrite Hc, Hq|done].
  - by rewrite Ho, Hq, <- app_assoc.
  - unfold zlen. cbn [length]. rewrite Nat2Z.inj_succ. cint.
Qed.

Lemma set_rest_bus s t k ok b h u r s' : set_rest s t k ok b h u = (r, s') ->
  sb_posted s' = sb_posted s /\ sb_taken s' = sb_taken s /\ bus_queue (sb_bus s') = bus_queue b /\ bus_count (sb_bus s') = bus_count b.
Proof. unfold set_rest, start_dispatch. destruct h; [destruct ok|]; intros [= <- <-]; done. Qed.

Lemma fifo_step t s s' : fifo s -> bstep rules t s s' -> fifo s'.
Proof.
  intros F Hs.
  destruct Hs as [k e ok r b Hc Hm He Hp|k ms Hc Hm Hp|k ms r e b Hc Hm Hp|k ms r b Hc Hm Hp|k ms r e b Hc Hp|k ms r b Hc Hp|k ms Hc Hms
    |Hc Hp|c r e b Hc Hl Hp|c r b Hc Hl Hp|e h Hc Hh|e Hc Hh|e h u Hc|e Hc|Hc|k h u old b Hc Hk Hm Hst|k h u ok r s' Hc Hk Hm Hst Hr
    |k old h u ok r s' Hc Hj Hr|k Hc Hk Hm Ha|k old Hc Hj|k Hc|k Hc];
    try (by eapply fifo_took); try (apply pop_result in Hp as [-> _]); try (by eapply fifo_same).
  - apply post_result in Hp as [(-> & -> & Hfl)|[Hr ->]].
    + destruct F as [Ho Hc' Hn]. constructor; cbn; [by rewrite Ho, app_assoc| |].
      * rewrite Hc'. unfold zlen. rewrite length_app, Nat2Z.inj_add. cbn [length]. cint.
      * apply NoDup_app. split; [done|]. split; [|apply NoDup_singleton]. intros x Hx ->%list_elem_of_singleton. done.
    + rewrite (proj2 (Z.eqb_neq r ZST_OK)) by done. by eapply fifo_same.
  - unfold stop_dispatch in Hst. destruct (bus_has_thread _); [|discriminate]. injection Hst as <- <-. by eapply fifo_same.
  - apply set_rest_bus in Hr as (? & ? & ? & ?). by eapply fifo_same.
  - apply set_rest_bus in Hr as (? & ? & ? & ?). by eapply fifo_same.
Qed.

(** However the bus is used, by any threads at once: the events popped, by dispatch
    threads and by [zst_bus_pop], are the ones posted and accepted, each once and in the
    order they were accepted; the others are in the queue, whose length modulo 2^32 is
    [count]. *)
Theorem bus_fifo n s : bus_reach rules n s ->
  sb_posted s = sb_taken s ++ bus_queue (sb_bus s) /\ NoDup (sb_taken s) /\
  bus_count (sb_bus s) = u32 (zlen (bus_queue (sb_bus s))).
Proof.
  intros Hr. enough (fifo s) as [Ho Hc Hn].
  { split; [done|]. split; [|done]. rewrite Ho in Hn. apply NoDup_app in Hn as [? _]. done. }
  induction Hr as [|t s s' _ IH Hs]; [|by eapply fifo_step]. constructor; [done|done|constructor].
Qed.
End order.

(** ** The rules *)

Definition bookkeeping_ok (s : bsys) (t : nat) (c : bpc) : Prop :=
  let b := sb_bus s in
  match c with
  | Code (Handler e h u) | PopWait (Handler e h u) _ => bus_handler b = Some h /\ bus_user_data b = u
  | PopWait App _ => sb_phase s = Live
  | SetJoin k old _ _ => t = 0%nat /\ k = App /\ sb_phase s = Live /\ bus_has_thread b = true /\ old = bus_thread b
  | DestroyJoin k old =>
      t = 0%nat /\ k = App /\ sb_phase s = Dying /\ old = (if bus_has_thread b then Some (bus_thread b) else None)
  | DestroyDrain k => t = 0%nat /\ k = App /\ sb_phase s = Dying
  | DestroyFree k => t = 0%nat /\ k = App /\ sb_phase s = Drained
  | _ => True
  end.

(** Which thread 0 is at what when the bus is being destroyed. *)
Definition phase_ok (s : bsys) : Prop :=
  match sb_phase s with
  | Live => True
  | Dying => exists c, sb_threads s !! 0%nat = Some c /\ match c with DestroyJoin _ _ | DestroyDrain _ => True | _ => False end
  | Drained => exists k, sb_threads s !! 0%nat = Some (DestroyFree k)
  | Freed => sb_threads s !! 0%nat = Some (Code App)
  end.

Definition no_dispatch (s : bsys) : Prop := forall t c, sb_threads s !! t = Some c -> dispatches c = false.

Record bus_inv (s : bsys) : Prop := {
  bi_one : forall t c, sb_threads s !! t = Some c -> dispatches c = true ->
    bus_has_thread (sb_bus s) = true /\ bus_thread (sb_bus s) = t;
  bi_zero : bus_has_thread (sb_bus s) = true -> bus_thread (sb_bus s) <> 0%nat;
  bi_ok : forall t c, sb_threads s !! t = Some c -> bookkeeping_ok s t c;
  bi_phase : phase_ok s;
  bi_quiet : sb_phase s <> Live -> bus_flushing (sb_bus s) = true /\
    forall t c, sb_threads s !! t = Some c -> t <> 0%nat -> dispatches c = true \/ c = Code App \/ c = LoopEnded;
  bi_gone : (exists k, sb_threads s !! 0%nat = Some (DestroyDrain k)) \/ sb_phase s = Drained \/ sb_phase s = Freed -> no_dispatch s;
}.

Lemma bus_start_inv n : bus_inv (bus_start n).
Proof.
  assert (forall t c, sb_threads (bus_start n) !! t = Some c -> c = Code App) as Hall.
  { intros t c Hc. cbn in Hc. by apply list_elem_of_lookup_2, list_elem_of_In, repeat_spec in Hc. }
  constructor; try done.
  - by intros t c ->%Hall.
  - by intros t c ->%Hall.
  - intros _ t c Hc%Hall. by subst.
Qed.

(** The bus kept its dispatch thread and its handler. *)
Definition same_setup (b b' : zst_bus) : Prop :=
  bus_has_thread b' = bus_has_thread b /\ bus_thread b' = bus_thread b /\ bus_handler b' = bus_handler b /\ bus_user_data b' = bus_user_data b.

Definition gone (s : bsys) : Prop :=
  (exists k, sb_threads s !! 0%nat = Some (DestroyDrain k)) \/ sb_phase s = Drained \/ sb_phase s = Freed.
Definition resting (c : bpc) : Prop := dispatches c = true \/ c = Code App \/ c = LoopEnded.

(** One thread moved. *)
Lemma inv_gen s s' t c c' : bus_inv s -> sb_threads s !! t = Some c -> sb_threads s' = <[t := c']> (sb_threads s) ->
  same_setup (sb_bus s) (sb_bus s') -> (dispatches c' = true -> dispatches c = true) -> bookkeeping_ok s' t c' ->
  (forall t' d, t' <> t -> sb_threads s !! t' = Some d -> bookkeeping_ok s' t' d) -> phase_ok s' ->
  (sb_phase s' <> Live -> bus_flushing (sb_bus s') = true /\ (t <> 0%nat -> resting c') /\
    forall t' d, sb_threads s !! t' = Some d -> t' <> t -> t' <> 0%nat -> resting d) ->
  (gone s' -> no_dispatch s) -> bus_inv s'.
Proof.
  intros [I1 I2 I3 I4 I5 I6] Hc Ht (E1 & E2 & E3 & E4) Hd Hb Ho Hph Hq Hg.
  assert (forall t' d, sb_threads s' !! t' = Some d -> (t' = t /\ d = c') \/ (t' <> t /\ sb_threads s !! t' = Some d)) as Hl.
  { intros t' d Hd'. rewrite Ht in Hd'. apply list_lookup_insert_Some in Hd' as [(? & ? & _)|[? ?]]; auto. }
  constructor; rewrite ?E1, ?E2; try done.
  - intros t' d [(-> & ->)|(? & Hd')]%Hl Hdis; [apply (I1 t c); auto|by apply (I1 t' d)].
  - intros t' d [(-> & ->)|(? & Hd')]%Hl; [done|by apply Ho].
  - intros Hp. destruct (Hq Hp) as (Hf & H1 & H2). split; [done|]. intros t' d [(-> & ->)|(? & Hd')]%Hl Hne; [by apply H1|by eapply H2].
  - intros G t' d [(-> & ->)|(? & Hd')]%Hl; [|by eapply Hg].
    destruct (dispatches c') eqn:Ed; [|done]. rewrite <- (Hd eq_refl). by eapply Hg.
Qed.

Lemma other_ok s s' t d : bookkeeping_ok s t d -> same_setup (sb_bus s) (sb_bus s') -> sb_phase s' = sb_phase s -> bookkeeping_ok s' t d.
Proof. unfold bookkeeping_ok. intros Hb (E1 & E2 & E3 & E4) Ep. by rewrite Ep, E1, E2, E3, E4. Qed.

(** An ordinary step: the phase is as before, and of a thread other than the one that destroys. *)
Lemma inv_moves s s' t c c' : bus_inv s -> sb_threads s !! t = Some c -> sb_threads s' = <[t := c']> (sb_threads s) ->
  sb_phase s' = sb_phase s -> same_setup (sb_bus s) (sb_bus s') -> (sb_phase s <> Live -> bus_flushing (sb_bus s') = bus_flushing (sb_bus s)) ->
  (dispatches c' = true -> dispatches c = true) -> bookkeeping_ok s' t c' -> (sb_phase s <> Live -> c' = c \/ t <> 0%nat /\ resting c') ->
  (forall k, c' <> DestroyDrain k) -> bus_inv s'.
Proof.
  intros I Hc Ht Hp E Hf Hd Hb H0 Hnd. pose proof I as [I1 I2 I3 I4 I5 I6].
  assert (t < length (sb_threads s))%nat as Hlt by by apply lookup_lt_is_Some_1; eexists.
  eapply inv_gen; try done.
  - intros t' d _ Hd'. by eapply other_ok; [apply I3|..].
  - unfold phase_ok in *. rewrite Hp. destruct (sb_phase s) eqn:Ep; [done|..];
      (destruct (H0 ltac:(done)) as [->|[Hne _]]; [rewrite Ht, list_insert_id by done; done|rewrite Ht, list_lookup_insert_ne by done; done]).
  - rewrite Hp. intros Hne. destruct (I5 Hne) as [Hfl Hall]. rewrite (Hf Hne). split; [done|]. split; [|intros; by eapply Hall].
    intros Ht0. destruct (H0 Hne) as [->|[_ ?]]; [by eapply Hall|done].
  - intros G. apply I6. unfold gone in G. rewrite Hp, Ht in G. destruct G as [[k Hk]|?]; [|by right]. left. exists k.
    apply list_lookup_insert_Some in Hk as [(_ & Hk & _)|[_ ?]]; [by destruct (Hnd k)|done].
Qed.

Lemma dispatch_nonzero s t c : bus_inv s -> sb_threads s !! t = Some c -> dispatches c = true -> t <> 0%nat.
Proof. intros I Hc Hd. destruct (bi_one _ I t c Hc Hd) as [Hh <-]. by apply I. Qed.

Section inv.
Notation step := (bstep true).

(** Code that calls the bus finds it live, or is a handler's. *)
Lemma code_calls s t k : bus_inv s -> sb_threads s !! t = Some (Code k) -> may_call true s k -> sb_phase s <> Live ->
  t <> 0%nat /\ dispatches (Code k) = true.
Proof.
  intros I Hc Hm Hp. destruct k as [|e h u]; [by destruct Hp; apply Hm|]. split; [by eapply dispatch_nonzero|done].
Qed.

Lemma keep_setup b q c : same_setup b (with_queue b q c).
Proof. done. Qed.
Lemma same_setup_refl b : same_setup b b.
Proof. done. Qed.

(** Code and its waits in the bus. *)
Lemma inv_code s s' t k c c' : bus_inv s -> sb_threads s !! t = Some c -> c = Code k \/ (exists ms, c = PopWait k ms) ->
  c' = Code k \/ (exists ms, c' = PopWait k ms /\ may_call true s k /\ c = Code k) ->
  sb_threads s' = <[t := c']> (sb_threads s) -> sb_phase s' = sb_phase s -> same_setup (sb_bus s) (sb_bus s') ->
  bus_flushing (sb_bus s') = bus_flushing (sb_bus s) -> bus_inv s'.
Proof.
  intros I Hc Hk Hk' Ht Hp E Hf. pose proof (bi_ok _ I t c Hc) as Hb. eapply inv_moves; try done.
  - destruct Hk as [->|[? ->]], Hk' as [->|(? & -> & ?)]; done.
  - destruct E as (E1 & E2 & E3 & E4). unfold bookkeeping_ok in *. rewrite Hp, E3, E4.
    destruct Hk' as [->|(ms & -> & Hm & _)], k as [|e h u]; try done; try by apply Hm. all: by destruct Hk as [->|[? ->]].
  - intros Hne. destruct k as [|e h u].
    + destruct Hk as [->|[? ->]]; [|by destruct Hne; apply Hb]. destruct Hk' as [->|(ms & -> & Hm & _)]; [by left|by destruct Hne; apply Hm].
    + right. split; [eapply dispatch_nonzero; [done|done|by destruct Hk as [->|[? ->]]]|]. left. by destruct Hk' as [->|(? & -> & ?)].
  - destruct Hk' as [->|(? & -> & ?)]; done.
Qed.

(** A dispatch thread. *)
Lemma inv_loop s s' t c c' : bus_inv s -> sb_threads s !! t = Some c -> dispatches c = true -> resting c' -> c' <> Code App ->
  bookkeeping_ok s' t c' -> (forall k, c' <> DestroyDrain k) ->
  sb_threads s' = <[t := c']> (sb_threads s) -> sb_phase s' = sb_phase s -> same_setup (sb_bus s) (sb_bus s') ->
  bus_flushing (sb_bus s') = bus_flushing (sb_bus s) -> bus_inv s'.
Proof.
  intros I Hc Hd Hr Hn Hb Hdd Ht Hp E Hf. eapply inv_moves; try done. intros _. right. split; [by eapply dispatch_nonzero|done].
Qed.

(** The new dispatch thread of [zst_bus_set_handler]. *)
Lemma set_rest_inv s c ok b h u r s' : bus_inv s -> sb_threads s !! 0%nat = Some c -> dispatches c = false -> sb_phase s = Live ->
  no_dispatch s -> bus_has_thread b = false -> set_rest s 0 App ok b h u = (r, s') -> bus_inv s'.
Proof.
  intros I Hc Hcd Hp Hnd Hb Hr. assert (0 < length (sb_threads s))%nat as Hlt by by apply lookup_lt_is_Some_1; eexists.
  assert (forall t d, <[0%nat := Code App]> (sb_threads s) !! t = Some d ->
    d = Code App \/ (t <> 0%nat /\ sb_threads s !! t = Some d /\ dispatches d = false)) as Hall.
  { intros t d [(<- & <- & _)|[Hne Hd]]%list_lookup_insert_Some; [by left|]. right. split; [done|]. split; [done|]. by eapply Hnd. }
  assert (forall s1, sb_phase s1 = Live -> forall t d, d = Code App \/ (t <> 0%nat /\ sb_threads s !! t = Some d /\ dispatches d = false) ->
    bookkeeping_ok s1 t d) as Hbook.
  { intros s1 Hp1 t d [->|(Hne & Hd & Hdd)]; [done|]. pose proof (bi_ok _ I t d Hd) as Hk. unfold bookkeeping_ok in *.
    destruct d as [[]|[]|[]|[]|[]|[]| | | | | | ]; try discriminate Hdd; try done; try (destruct Hk as (? & _); done). }
  unfold set_rest, start_dispatch in Hr.
  assert (bus_inv (moves (set_bus s (with_handler b h u)) 0 (Code App))) as Hquiet.
  { constructor; cbn; rewrite ?Hb; try done.
    - intros t d [->|(_ & _ & Hdd)]%Hall Hd; [done|congruence].
    - intros t d Hd%Hall. by apply Hbook.
    - unfold phase_ok. cbn. by rewrite Hp.
    - intros _ t d [->|(_ & _ & Hdd)]%Hall; done. }
  destruct h as [h|]; [|by injection Hr as <- <-]. destruct ok; [|by injection Hr as <- <-]. injection Hr as <- <-.
  assert (forall t d, (<[0%nat := Code App]> (sb_threads s) ++ [LoopPop]) !! t = Some d ->
    (t = length (sb_threads s) /\ d = LoopPop) \/ d = Code App \/ (t <> 0%nat /\ sb_threads s !! t = Some d /\ dispatches d = false)) as Hall'.
  { intros t d Hd. apply lookup_app_Some in Hd as [Hd|[Hge Hd]]; [right; by apply Hall|]. left. rewrite length_insert in *.
    apply list_lookup_singleton_Some in Hd as [? <-]. split; [lia|done]. }
  constructor; cbn; try done.
  - intros t d [(-> & ->)|[->|(_ & _ & Hdd)]]%Hall' Hd; [done|done|congruence].
  - lia.
  - intros t d [(-> & ->)|Hd]%Hall'; [done|by apply Hbook].
  - unfold phase_ok. cbn. by rewrite Hp.
  - rewrite Hp. intros [[k Hk]|[?|?]]; [|done|done]. cbn in Hk. rewrite lookup_app_l in Hk by (rewrite length_insert; lia).
    by rewrite list_lookup_insert_eq in Hk.
Qed.

(** Who controls the bus is thread 0, and no dispatch thread. *)
Lemma set_join_facts s t k old h u : bus_inv s -> sb_threads s !! t = Some (SetJoin k old h u) -> sb_threads s !! old = Some LoopEnded \/ old = t ->
  t = 0%nat /\ k = App /\ sb_phase s = Live /\ no_dispatch s.
Proof.
  intros I Hc Hj. destruct (bi_ok _ I t _ Hc) as (-> & -> & Hp & Hh & ->). split; [done|]. split; [done|]. split; [done|].
  intros t' d Hd. destruct (dispatches d) eqn:Ed; [|done]. destruct (bi_one _ I t' d Hd Ed) as [_ Et].
  destruct Hj as [Hj|Hj]; [rewrite Et in Hj; rewrite Hd in Hj; by injection Hj as ->|]. by destruct (bi_zero _ I Hh).
Qed.

Lemma destroy_facts s t k old : bus_inv s -> sb_threads s !! t = Some (DestroyJoin k old) ->
  match old with None => True | Some o => sb_threads s !! o = Some LoopEnded \/ o = t end -> no_dispatch s.
Proof.
  intros I Hc Hj. destruct (bi_ok _ I t _ Hc) as (-> & -> & Hp & ->). intros t' d Hd. destruct (dispatches d) eqn:Ed; [|done].
  destruct (bi_one _ I t' d Hd Ed) as [Hh Et]. rewrite Hh in Hj.
  destruct Hj as [Hj|Hj]; [rewrite Et in Hj; rewrite Hd in Hj; by injection Hj as ->|]. by destruct (bi_zero _ I Hh).
Qed.

Lemma no_thread s : stop_dispatch (sb_bus s) = None -> bus_inv s -> bus_has_thread (sb_bus s) = false /\ no_dispatch s.
Proof.
  intros Hst I. unfold stop_dispatch in Hst. destruct (bus_has_thread (sb_bus s)) eqn:Eh; [discriminate|]. split; [done|].
  intros t d Hd. destruct (dispatches d) eqn:Ed; [|done]. destruct (bi_one _ I t d Hd Ed). congruence.
Qed.

(** A step of thread 0 while it destroys the bus. *)
Lemma inv_destroy s s' c c' : bus_inv s -> sb_threads s !! 0%nat = Some c -> sb_threads s' = <[0%nat := c']> (sb_threads s) ->
  same_setup (sb_bus s) (sb_bus s') -> dispatches c' = false -> bookkeeping_ok s' 0 c' ->
  (forall t d, t <> 0%nat -> sb_threads s !! t = Some d -> resting d) -> bus_flushing (sb_bus s') = true -> phase_ok s' ->
  (gone s' -> no_dispatch s) -> bus_inv s'.
Proof.
  intros I Hc Ht E Hd Hb Hall Hf Hph Hg. eapply inv_gen; try done.
  - by rewrite Hd.
  - intros t d Hne Hd'. pose proof (bi_ok _ I t d Hd') as Hk. destruct (Hall t d Hne Hd') as [Hdis|[->| ->]]; [|done..].
    destruct E as (E1 & E2 & E3 & E4). unfold bookkeeping_ok in *. rewrite E3, E4.
    destruct d as [[]|[]|[]|[]|[]|[]| | | | | | ]; try discriminate Hdis; try done; by destruct Hk as (? & _).
  - intros _. split; [done|]. split; [done|]. intros t d Hd' _ Hne. by eapply Hall.
Qed.

Lemma bus_step_inv t s s' : bus_inv s -> step t s s' -> bus_inv s'.
Proof.
  intros I Hs.
  destruct Hs as [k e ok r b Hc Hm He Hp|k ms Hc Hm Hp|k ms r e b Hc Hm Hp|k ms r b Hc Hm Hp|k ms r e b Hc Hp|k ms r b Hc Hp|k ms Hc Hms
    |Hc Hp|c r e b Hc Hl Hp|c r b Hc Hl Hp|e h Hc Hh|e Hc Hh|e h u Hc|e Hc|Hc|k h u old b Hc Hk Hm Hst|k h u ok r s' Hc Hk Hm Hst Hr
    |k old h u ok r s' Hc Hj Hr|k Hc Hk Hm Ha|k old Hc Hj|k Hc|k Hc].
  - apply post_result in Hp as [(-> & -> & Hfl)|[Hr ->]]; [|rewrite (proj2 (Z.eqb_neq r ZST_OK)) by done];
      (eapply inv_code; [done|exact Hc|by left|by left|done..]).
  - eapply inv_code; [done|exact Hc|by left|right; by eexists|done..].
  - apply pop_result in Hp as (q & Hq & Hf & _ & ->). eapply inv_code; [done|exact Hc|by left|by left|done..].
  - apply pop_result in Hp as [-> _]. eapply inv_code; [done|exact Hc|by left|by left|done..].
  - apply pop_result in Hp as (q & Hq & Hf & _ & ->). eapply inv_code; [done|exact Hc|right; by eexists|by left|done..].
  - apply pop_result in Hp as [-> _]. eapply inv_code; [done|exact Hc|right; by eexists|by left|done..].
  - eapply inv_code; [done|exact Hc|right; by eexists|by left|done..].
  - eapply (inv_loop s _ t _ LoopWait); [done|exact Hc|done|by left|done..].
  - apply pop_result in Hp as (q & Hq & Hf & _ & ->). eapply (inv_loop s _ t _ (LoopTook e)); [done|exact Hc|by destruct Hl as [->| ->]|by left|done..].
  - apply pop_result in Hp as [-> _]. eapply (inv_loop s _ t _ LoopTest); [done|exact Hc|by destruct Hl as [->| ->]|by left|done..].
  - eapply (inv_loop s _ t _ (Code (Handler e h (bus_user_data (sb_bus s))))); [done|exact Hc|done|by left|done..].
  - eapply (inv_loop s _ t _ (LoopFree e)); [done|exact Hc|done|by left|done..].
  - eapply (inv_loop s _ t _ (LoopFree e)); [done|exact Hc|done|by left|done..].
  - eapply (inv_loop s _ t _ LoopPop); [done|exact Hc|done|by left|done..].
  - eapply (inv_loop s _ t _ (if bus_flushing (sb_bus s) then LoopEnded else LoopPop)); [done|exact Hc|done|..|reflexivity|done|done|done];
      destruct (bus_flushing _); try done; [right; by right|by left].
  - destruct (Hk eq_refl) as [-> ->]. specialize (Hm eq_refl eq_refl). unfold stop_dispatch in Hst.
    destruct (bus_has_thread (sb_bus s)) eqn:Eh; [|discriminate]. injection Hst as <- <-.
    eapply (inv_moves s _ 0 _ (SetJoin App (bus_thread (sb_bus s)) h u)); [done|exact Hc|done..].
  - destruct (Hk eq_refl) as [-> ->]. specialize (Hm eq_refl eq_refl). destruct (no_thread s Hst I) as [Hb Hnd].
    eapply set_rest_inv; [exact I|exact Hc|done|exact Hm|exact Hnd|exact Hb|exact Hr].
  - destruct (set_join_facts s t k old h u I Hc Hj) as (-> & -> & Hp & Hnd).
    eapply (set_rest_inv s _ ok (dispatch_stopped (sb_bus s))); [exact I|exact Hc|done|exact Hp|exact Hnd|done|exact Hr].
  - destruct (Hk eq_refl) as [-> ->]. specialize (Hm eq_refl eq_refl). pose proof (Ha eq_refl) as Hal.
    assert (0 < length (sb_threads s))%nat as Hlt by by apply lookup_lt_is_Some_1; eexists.
    eapply inv_destroy; [done|exact Hc|done..| | | |]; cbn; try done.
    + intros t d Hne Hd. by eapply Hal.
    + unfold phase_ok. cbn. rewrite list_lookup_insert_eq by done. by eexists.
    + intros [[k Hk']|[?|?]]; [|done|done]. cbn in Hk'. by rewrite list_lookup_insert_eq in Hk'.
  - pose proof (destroy_facts s t k old I Hc Hj) as Hnd. destruct (bi_ok _ I t _ Hc) as (-> & -> & Hp & ->).
    destruct (bi_quiet _ I) as [Hf Hall]; [by rewrite Hp|].
    assert (0 < length (sb_threads s))%nat as Hlt by by apply lookup_lt_is_Some_1; eexists.
    eapply inv_destroy; [done|exact Hc|done..| | | |]; try done.
    + intros t d Hne Hd. by eapply Hall.
    + unfold phase_ok. cbn. rewrite Hp, list_lookup_insert_eq by done. by eexists.
  - destruct (bi_ok _ I t _ Hc) as (-> & -> & Hp). destruct (bi_quiet _ I) as [Hf Hall]; [by rewrite Hp|].
    assert (0 < length (sb_threads s))%nat as Hlt by by apply lookup_lt_is_Some_1; eexists.
    eapply inv_destroy; [done|exact Hc|done..| | | |]; try done.
    + intros t d Hne Hd. by eapply Hall.
    + unfold phase_ok. cbn. rewrite list_lookup_insert_eq by done. by eexists.
    + intros _. apply I. left. by eexists.
  - destruct (bi_ok _ I t _ Hc) as (-> & -> & Hp). destruct (bi_quiet _ I) as [Hf Hall]; [by rewrite Hp|].
    assert (0 < length (sb_threads s))%nat as Hlt by by apply lookup_lt_is_Some_1; eexists.
    eapply inv_destroy; [done|exact Hc|done..| | | |]; try done.
    + intros t d Hne Hd. by eapply Hall.
    + unfold phase_ok. cbn. by rewrite list_lookup_insert_eq by done.
    + intros _. apply I. right. by left.
Qed.

Lemma bus_reach_inv n s : bus_reach true n s -> bus_inv s.
Proof. induction 1 as [|t s s' _ IH Hs]; [apply bus_start_inv|by eapply bus_step_inv]. Qed.
End inv.

(** ** Handlers *)

(** C26. Under the rules there is at most one dispatch thread, and only while the bus has a
    thread ([bus_has_thread], which setting no handler clears); the handler that runs is the
    one that is set, with its own data, so that after [zst_bus_set_handler] has returned the
    old one is not called any more; and no thread is in the bus when it has been freed. *)
Theorem bus_one_handler n s : bus_reach true n s ->
  (forall t1 t2 c1 c2, sb_threads s !! t1 = Some c1 -> sb_threads s !! t2 = Some c2 ->
     dispatches c1 = true -> dispatches c2 = true -> t1 = t2) /\
  (forall t c, sb_threads s !! t = Some c -> dispatches c = true -> bus_has_thread (sb_bus s) = true) /\
  (forall t e h u, sb_threads s !! t = Some (Code (Handler e h u)) -> bus_handler (sb_bus s) = Some h /\ bus_user_data (sb_bus s) = u) /\
  (sb_phase s = Freed -> forall t c, sb_threads s !! t = Some c -> c = Code App \/ c = LoopEnded).
Proof.
  intros I%bus_reach_inv. split; [|split; [|split]].
  - intros t1 t2 c1 c2 H1 H2 D1 D2. destruct (bi_one _ I _ _ H1 D1) as [_ <-]. by destruct (bi_one _ I _ _ H2 D2) as [_ <-].
  - intros t c Hc Hd. by apply (bi_one _ I t c).
  - intros t e h u Hc. exact (bi_ok _ I t _ Hc).
  - intros Hp t c Hc. assert (dispatches c = false) as Hd by (eapply (bi_gone _ I); [by right; right|done]).
    destruct (decide (t = 0%nat)) as [->|Hne].
    + pose proof (bi_phase _ I) as H0. unfold phase_ok in H0. rewrite Hp, Hc in H0. injection H0 as ->. by left.
    + destruct (bi_quiet _ I) as [_ Hall]; [by rewrite Hp|]. destruct (Hall t c Hc Hne) as [?|?]; [congruence|done].
Qed.

(** ** Every event once *)

(** The event a dispatch thread has in hand. *)
Definition owner_hand (k : owner) : list nat := match k with Handler e _ _ => [e] | App => [] end.
Definition hand (c : bpc) : list nat :=
  match c with
  | LoopTook e | LoopFree e => [e]
  | Code k | PopWait k _ | SetJoin k _ _ _ | DestroyJoin k _ | DestroyDrain k | DestroyFree k => owner_hand k
  | _ => []
  end.
Definition hands (l : list bpc) : list nat := concat (map hand l).
Definition left_over (s : bsys) : list nat :=
  match sb_phase s with Drained | Freed => [] | _ => bus_queue (sb_bus s) end.

Notation cnt := (count_occ Nat.eq_dec).

Definition accounted (s : bsys) : Prop := forall x,
  cnt (sb_posted s) x = (cnt (sb_given s) x + cnt (hands (sb_threads s)) x + cnt (sb_destroyed s) x + cnt (left_over s) x)%nat.

Lemma hands_set l t c c' x : l !! t = Some c -> (cnt (hands (<[t := c']> l)) x + cnt (hand c) x = cnt (hands l) x + cnt (hand c') x)%nat.
Proof.
  revert t. induction l as [|d l IH]; intros [|t] Ht; try discriminate Ht.
  - injection Ht as ->. change (hands (<[0%nat := c']> (c :: l))) with (hand c' ++ hands l). change (hands (c :: l)) with (hand c ++ hands l).
    rewrite !count_occ_app. lia.
  - specialize (IH t Ht). change (<[S t := c']> (d :: l)) with (d :: <[t := c']> l).
    change (hands (d :: ?k)) with (hand d ++ hands k). change (hands (d :: <[t := c']> l)) with (hand d ++ hands (<[t := c']> l)).
    change (hands (d :: l)) with (hand d ++ hands l). rewrite !count_occ_app. lia.
Qed.

Lemma hands_spawn l x : cnt (hands (l ++ [LoopPop])) x = cnt (hands l) x.
Proof. unfold hands. rewrite map_app, concat_app, count_occ_app. cbn. lia. Qed.

Lemma hands_none l : (forall t c, l !! t = Some c -> dispatches c = false) -> hands l = [].
Proof.
  induction l as [|c l IH]; intros Hl; [done|]. change (hands (c :: l)) with (hand c ++ hands l).
  rewrite IH by (intros t d Hd; by apply (Hl (S t) d)). specialize (Hl 0%nat c eq_refl).
  destruct c as [[]|[]|[]|[]|[]|[]| | | | | | ]; try discriminate Hl; done.
Qed.

Lemma flushed_live s : bus_inv s -> bus_flushing (sb_bus s) = false -> sb_phase s = Live.
Proof. intros I Hf. destruct (sb_phase s) eqn:Ep; [done|..]; (destruct (bi_quiet _ I) as [? _]; [by rewrite Ep|congruence]). Qed.

(** One thread moved, and nothing was posted, popped or destroyed. *)
Lemma accounted_same s s' t c c' : accounted s -> sb_threads s !! t = Some c -> hand c' = hand c -> sb_threads s' = <[t := c']> (sb_threads s) ->
  sb_posted s' = sb_posted s -> sb_given s' = sb_given s -> sb_destroyed s' = sb_destroyed s -> left_over s' = left_over s -> accounted s'.
Proof.
  intros F Hc Hh Ht E1 E2 E3 E4 x. specialize (F x). pose proof (hands_set _ t c c' x Hc). rewrite Hh, Ht, E1, E2, E3, E4 in *. lia.
Qed.

(** An event leaves the queue. *)
Lemma accounted_took s t c c' r e b ms (app : bool) : bus_inv s -> accounted s -> sb_threads s !! t = Some c -> zst_bus_pop (sb_bus s) ms = PopReturns r (Some e) b ->
  (forall x, (cnt (hand c') x + (if app then cnt [e] x else 0) = cnt (hand c) x + cnt [e] x)%nat) ->
  accounted (log_taken (moves (set_bus s b) t c') e app).
Proof.
  intros I F Hc (q & Hq & Hf & _ & ->)%pop_result Hh x. specialize (F x). specialize (Hh x). pose proof (flushed_live s I Hf) as Hp.
  pose proof (hands_set _ t c c' x Hc) as Hs. unfold left_over in *. cbn [log_taken moves set_bus with_queue sb_posted sb_given sb_threads sb_destroyed sb_phase sb_bus bus_queue].
  rewrite Hp in *. rewrite Hq in F. change (e :: q) with ([e] ++ q) in F. rewrite count_occ_app in F.
  destruct app; rewrite ?count_occ_app; lia.
Qed.

Lemma accounted_rest s t k c ok b h u r s' : accounted s -> sb_threads s !! t = Some c -> hand c = owner_hand k ->
  bus_queue b = bus_queue (sb_bus s) -> set_rest s t k ok b h u = (r, s') -> accounted s'.
Proof.
  intros F Hc Hh Hq Hr x. specialize (F x). pose proof (hands_set _ t c (Code k) x Hc) as Hs. rewrite Hh in Hs. cbn [hand] in Hs.
  unfold set_rest, start_dispatch in Hr. destruct h as [h|]; [destruct ok|]; injection Hr as <- <-; unfold left_over in *;
    cbn [spawn moves set_bus with_handler with_thread sb_posted sb_given sb_threads sb_destroyed sb_phase sb_bus bus_queue];
    rewrite ?hands_spawn, ?Hq; destruct (sb_phase s); lia.
Qed.

Lemma accounted_step t s s' : bus_inv s -> accounted s -> bstep true t s s' -> accounted s'.
Proof.
  intros I F Hs.
  destruct Hs as [k e ok r b Hc Hm He Hp|k ms Hc Hm Hp|k ms r e b Hc Hm Hp|k ms r b Hc Hm Hp|k ms r e b Hc Hp|k ms r b Hc Hp|k ms Hc Hms
    |Hc Hp|c r e b Hc Hl Hp|c r b Hc Hl Hp|e h Hc Hh|e Hc Hh|e h u Hc|e Hc|Hc|k h u old b Hc Hk Hm Hst|k h u ok r s' Hc Hk Hm Hst Hr
    |k old h u ok r s' Hc Hj Hr|k Hc Hk Hm Ha|k old Hc Hj|k Hc|k Hc].
  - apply post_result in Hp as [(-> & -> & Hfl)|[Hr ->]].
    + intros x. specialize (F x). pose proof (flushed_live s I Hfl) as Hp. pose proof (hands_set _ t _ (Code k) x Hc) as Hs. unfold left_over in *.
      cbn [Z.eqb ZST_OK log_posted moves set_bus with_queue sb_posted sb_given sb_threads sb_destroyed sb_phase sb_bus bus_queue].
      rewrite Hp in *. rewrite !count_occ_app. lia.
    + rewrite (proj2 (Z.eqb_neq r ZST_OK)) by done. by eapply (accounted_same s _ t _ (Code k)).
  - by eapply (accounted_same s _ t _ (PopWait k ms)).
  - eapply accounted_took; [done|done|exact Hc|exact Hp|done].
  - apply pop_result in Hp as [-> _]. by eapply (accounted_same s _ t _ (Code k)).
  - eapply accounted_took; [done|done|exact Hc|exact Hp|done].
  - apply pop_result in Hp as [-> _]. by eapply (accounted_same s _ t _ (Code k)).
  - by eapply (accounted_same s _ t _ (Code k)).
  - by eapply (accounted_same s _ t _ LoopWait).
  - eapply accounted_took; [done|done|exact Hc|exact Hp|]. intros x. by destruct Hl as [->| ->].
  - apply pop_result in Hp as [-> _]. eapply (accounted_same s _ t _ LoopTest); [done|exact Hc|by destruct Hl as [->| ->]|done..].
  - by eapply (accounted_same s _ t _ (Code (Handler e h (bus_user_data (sb_bus s))))).
  - by eapply (accounted_same s _ t _ (LoopFree e)).
  - by eapply (accounted_same s _ t _ (LoopFree e)).
  - intros x. specialize (F x). pose proof (hands_set _ t _ LoopPop x Hc) as Hs. unfold left_over in *.
    cbn [log_destroyed moves sb_posted sb_given sb_threads sb_destroyed sb_phase sb_bus bus_queue hand] in *. rewrite !count_occ_app. cbn [count_occ] in *. lia.
  - eapply (accounted_same s _ t _ (if bus_flushing (sb_bus s) then LoopEnded else LoopPop)); [done|exact Hc|by destruct (bus_flushing _)|done..].
  - unfold stop_dispatch in Hst. destruct (bus_has_thread _); [|discriminate]. injection Hst as <- <-.
    by eapply (accounted_same s _ t _ (SetJoin k _ h u)).
  - by eapply (accounted_rest s t k _ ok (sb_bus s)).
  - by eapply (accounted_rest s t k _ ok (dispatch_stopped (sb_bus s))).
  - destruct (Hk eq_refl) as [-> ->]. specialize (Hm eq_refl eq_refl).
    eapply (accounted_same s _ 0%nat _ (DestroyJoin App _)); [done|exact Hc|done..|]. unfold left_over. cbn. by rewrite Hm.
  - by eapply (accounted_same s _ t _ (DestroyDrain k)).
  - intros x. specialize (F x). pose proof (hands_set _ t _ (DestroyFree k) x Hc) as Hs. destruct (bi_ok _ I t _ Hc) as (_ & _ & Hp).
    unfold left_over in *. cbn [set_phase log_destroyed moves sb_posted sb_given sb_threads sb_destroyed sb_phase sb_bus bus_queue hand] in *.
    rewrite Hp in F. rewrite !count_occ_app. cbn [count_occ]. lia.
  - destruct (bi_ok _ I t _ Hc) as (_ & _ & Hp). eapply (accounted_same s _ t _ (Code k)); [done|exact Hc|done..|].
    unfold left_over. cbn. by rewrite Hp.
Qed.

Lemma reach_accounted n s : bus_reach true n s -> accounted s.
Proof.
  induction 1 as [|t s s' Hr IH Hs]; [|by eapply accounted_step; [eapply bus_reach_inv| |]].
  intros x. unfold accounted, left_over. cbn [bus_start sb_posted sb_given sb_threads sb_destroyed sb_phase sb_bus bus_queue].
  rewrite hands_none; [done|]. intros t c Hc. by apply list_elem_of_lookup_2, list_elem_of_In, repeat_spec in Hc as ->.
Qed.

(** C27. Under the rules each event that was accepted is at one place: given to a caller of
    [zst_bus_pop], in the hands of a dispatch thread, destroyed by the bus, or queued.
    When the bus has been freed, those that no caller has were destroyed, once each. *)
Theorem bus_accounts n s : bus_reach true n s ->
  Permutation (sb_posted s) (sb_given s ++ hands (sb_threads s) ++ sb_destroyed s ++ left_over s) /\
  (sb_phase s = Freed -> Permutation (sb_posted s) (sb_given s ++ sb_destroyed s)) /\ NoDup (sb_destroyed s).
Proof.
  intros Hr. pose proof (reach_accounted n s Hr) as F. pose proof (bus_reach_inv n s Hr) as I. destruct (bus_fifo true n s Hr) as (Ho & _ & _).
  assert (NoDup (sb_posted s)) as Hn.
  { clear Ho I F. induction Hr as [|t s s' Hr IH Hs]; [constructor|]. enough (fifo s') as [] by done. eapply fifo_step; [|done].
    destruct (bus_fifo true n s Hr) as (? & ? & ?). by constructor. }
  assert (Permutation (sb_posted s) (sb_given s ++ hands (sb_threads s) ++ sb_destroyed s ++ left_over s)) as Hp.
  { apply (Permutation_count_occ Nat.eq_dec). intros x. rewrite !count_occ_app, F. lia. }
  split; [done|]. split.
  - intros Hf. rewrite Hp. unfold left_over. rewrite Hf. rewrite hands_none, app_nil_r; [done|]. intros t c. apply (bi_gone _ I). by right; right.
  - rewrite Hp in Hn. apply NoDup_app in Hn as (_ & _ & Hn). apply NoDup_app in Hn as (_ & _ & Hn). by apply NoDup_app in Hn as [? _].
Qed.

(** ** Dispatch threads end *)

Lemma waits_not_flushed b ms : zst_bus_pop b ms = PopWaits -> bus_flushing b = false /\ bus_queue b = [].
Proof. unfold zst_bus_pop. destruct (bus_queue b), (bus_flushing b); try destruct (ms =? 0); done. Qed.

(** How many steps of its own a dispatch thread has left in a flushed bus, where the
    handler's call counts as one. *)
Definition to_go (c : bpc) : nat :=
  match c with LoopTook _ => 6 | Code (Handler _ _ _) => 5 | PopWait (Handler _ _ _) _ => 6 | LoopFree _ => 4 | LoopPop | LoopWait => 3 | LoopTest => 1 | _ => 0 end.

(** While the bus is flushed, as it is once [zst_bus_set_handler] or [zst_bus_destroy]
    waits for the dispatch thread, that thread always has a step to take, takes no
    further event, and with each of its steps outside of the handler comes nearer to its
    end, at most six steps away; the steps of others do not set it back, and the bus
    stays flushed until it has ended.  So the wait ends if handlers return. *)
Theorem dispatch_stops n s t c : bus_reach true n s -> bus_flushing (sb_bus s) = true -> sb_threads s !! t = Some c -> dispatches c = true ->
  (to_go c <= 6)%nat /\ (exists s', bstep true t s s' /\ exists c', sb_threads s' !! t = Some c' /\ (to_go c' < to_go c)%nat) /\
  (forall s', bstep true t s s' -> sb_taken s' = sb_taken s /\ bus_flushing (sb_bus s') = true /\
     exists c', sb_threads s' !! t = Some c' /\ (dispatches c' = true \/ c' = LoopEnded) /\
       ((forall e h u, c <> Code (Handler e h u)) -> (to_go c' < to_go c)%nat)) /\
  (forall t' s', t' <> t -> bstep true t' s s' -> sb_threads s' !! t = Some c /\ bus_flushing (sb_bus s') = true).
Proof.
  intros I%bus_reach_inv Hf Hc Hd.
  assert (t < length (sb_threads s))%nat as Hlt by by apply lookup_lt_is_Some_1; eexists.
  assert (forall ms, exists r, zst_bus_pop (sb_bus s) ms = PopReturns r None (sb_bus s)) as Hpop.
  { intros ms. exists ZST_ERROR. unfold zst_bus_pop. rewrite Hf. by destruct (bus_queue _). }
  assert (forall c', sb_threads (moves s t c') !! t = Some c') as Hset by (intros c'; by apply list_lookup_insert_eq).
  split; [destruct c as [[]|[]|[]|[]|[]|[]| | | | | | ]; cbn; lia|]. split; [|split].
  - destruct (Hpop UINT32_MAX) as [r Hp].
    destruct c as [[|e h u]|[|e h u] ms|[|e h u] ? ? ?|[|e h u] ?|[|e h u]|[|e h u]| | |e|e| | ]; try discriminate Hd;
      try (destruct (bi_ok _ I t _ Hc) as (_ & ? & _); done).
    + eexists. split; [by eapply b_handled|]. eexists. split; [apply Hset|cbn; lia].
    + destruct (Hpop ms) as [r' Hp']. eexists. split; [by eapply b_wake_none|]. eexists. split; [by apply list_lookup_insert_eq|cbn; lia].
    + eexists. split; [eapply b_loop_none; [done|by left|done]|]. eexists. split; [by apply list_lookup_insert_eq|cbn; lia].
    + eexists. split; [eapply b_loop_none; [done|by right|done]|]. eexists. split; [by apply list_lookup_insert_eq|cbn; lia].
    + destruct (bus_handler (sb_bus s)) as [h|] eqn:Eh; eexists; (split; [first [by eapply b_handle|by eapply b_handle_none]|]);
        eexists; (split; [apply Hset|cbn; lia]).
    + eexists. split; [by eapply b_free|]. eexists. split; [by apply list_lookup_insert_eq|cbn; lia].
    + eexists. split; [by eapply b_test|]. eexists. split; [apply Hset|]. rewrite Hf. cbn. lia.
  - intros s' Hs. pose proof (dispatch_nonzero s t c I Hc Hd) as Hz. destruct Hs as [k e ok r b Hc' Hm He Hp|k ms Hc' Hm Hp|k ms r e b Hc' Hm Hp|k ms r b Hc' Hm Hp|k ms r e b Hc' Hp|k ms r b Hc' Hp|k ms Hc' Hms
      |Hc' Hp|c1 r e b Hc' Hl Hp|c1 r b Hc' Hl Hp|e h Hc' Hh|e Hc' Hh|e h u Hc'|e Hc'|Hc'|k h u old b Hc' Hk Hm Hst|k h u ok r s' Hc' Hk Hm Hst Hr
      |k old h u ok r s' Hc' Hj Hr|k Hc' Hk Hm Ha|k old Hc' Hj|k Hc'|k Hc'];
      rewrite Hc in Hc'; injection Hc' as ->;
      try (apply post_result in Hp as [(_ & _ & ?)|[Hr ->]]; [congruence|rewrite (proj2 (Z.eqb_neq r ZST_OK)) by done]);
      try (apply pop_result in Hp as (q & _ & ? & _); congruence); try (apply pop_result in Hp as [-> _]);
      try (destruct (Hk eq_refl) as [? _]; done);
      try (destruct (bi_ok _ I t _ Hc) as (? & _); done);
      try (rewrite (proj1 (waits_not_flushed _ _ Hp)) in Hf; discriminate Hf);
      (split; [done|]; split; [done|]; eexists; split; [by apply list_lookup_insert_eq|]).
    all: try (destruct k as [|e1 h1 u1]; [discriminate Hd|]).
    all: try (destruct Hl as [->| ->]). all: rewrite ?Hf.
    all: (split; [(by left) || (by right)|intros Hno; (by destruct (Hno _ _ _ eq_refl)) || (cbn; lia)]).
  - intros t' s' Hne Hs. destruct (bi_one _ I t c Hc Hd) as [Hhas _].
    destruct Hs as [k e ok r b Hc' Hm He Hp|k ms Hc' Hm Hp|k ms r e b Hc' Hm Hp|k ms r b Hc' Hm Hp|k ms r e b Hc' Hp|k ms r b Hc' Hp|k ms Hc' Hms
      |Hc' Hp|c1 r e b Hc' Hl Hp|c1 r b Hc' Hl Hp|e h Hc' Hh|e Hc' Hh|e h u Hc'|e Hc'|Hc'|k h u old b Hc' Hk Hm Hst|k h u ok r s' Hc' Hk Hm Hst Hr
      |k old h u ok r s' Hc' Hj Hr|k Hc' Hk Hm Ha|k old Hc' Hj|k Hc'|k Hc']; cbn; try (rewrite list_lookup_insert_ne by done; done).
    + apply post_result in Hp as [(_ & _ & ?)|[Hr ->]]; [congruence|]. rewrite (proj2 (Z.eqb_neq r ZST_OK)) by done. cbn.
      by rewrite list_lookup_insert_ne.
    + apply pop_result in Hp as (q & _ & ? & _). congruence.
    + apply pop_result in Hp as [-> _]. by rewrite list_lookup_insert_ne.
    + apply pop_result in Hp as (q & _ & ? & _). congruence.
    + apply pop_result in Hp as [-> _]. by rewrite list_lookup_insert_ne.
    + apply pop_result in Hp as (q & _ & ? & _). congruence.
    + apply pop_result in Hp as [-> _]. by rewrite list_lookup_insert_ne.
    + unfold stop_dispatch in Hst. rewrite Hhas in Hst. injection Hst as <- <-. by rewrite list_lookup_insert_ne.
    + destruct (no_thread s Hst I). congruence.
    + destruct (set_join_facts s t' k old h u I Hc' Hj) as (_ & _ & _ & Hnd). rewrite (Hnd t c Hc) in Hd. discriminate Hd.
Qed.

(** ** A run *)


Lemma take_step rules n s t s' : bus_reach rules n s -> bstep rules t s s' -> forall s'', s'' = s' -> bus_reach rules n s''.
Proof. intros Hr Hs ? ->. by eapply br_step. Qed.

(** Thread 0 sets a handler and posts event 5, which the handler is given. *)
Definition handling : bsys :=
  mk_bsys (mk_bus [] 0 false 1 true (Some 7%nat) 9) Live [Code App; Code (Handler 5 7 9)] [5%nat] [5%nat] [] [].

Lemma handling_reached rules : bus_reach rules 1 handling.
Proof.
  eapply take_step; [eapply take_step; [eapply take_step; [eapply take_step; [apply br_start| |]| |]| |]| |].
  - by eapply (b_set_first _ 0%nat _ App (Some 7%nat) 9%nat true).
  - reflexivity.
  - eapply (b_post _ 0%nat _ App 5%nat true); [done|done|cbn; set_solver|reflexivity].
  - reflexivity.
  - eapply (b_loop_got _ 1%nat _ LoopPop); [done|by left|reflexivity].
  - reflexivity.
  - by eapply (b_handle _ 1%nat).
  - reflexivity.
Qed.

(** Then it destroys the bus. *)
Definition joining : bsys :=
  mk_bsys (mk_bus [] 0 true 1 true (Some 7%nat) 9) Dying [DestroyJoin App (Some 1%nat); LoopFree 5] [5%nat] [5%nat] [] [].
Definition freed : bsys :=
  mk_bsys (mk_bus [] 0 true 1 true (Some 7%nat) 9) Freed [Code App; LoopEnded] [5%nat] [5%nat] [] [5%nat].

Lemma joining_reached : bus_reach true 1 joining.
Proof.
  eapply take_step; [eapply take_step; [apply handling_reached| |]| |].
  - by eapply (b_handled true 1%nat).
  - reflexivity.
  - eapply (b_destroy true 0%nat _ App); [done|done|done|]. intros _ [|[|t]] c Hc Hne; [done| |discriminate Hc].
    injection Hc as <-. by left.
  - reflexivity.
Qed.

Lemma freed_reached : bus_reach true 1 freed.
Proof.
  eapply take_step; [eapply take_step; [eapply take_step; [eapply take_step; [eapply take_step; [eapply take_step; [apply joining_reached| |]| |]| |]| |]| |]| |].
  - by eapply (b_free true 1%nat).
  - reflexivity.
  - eapply (b_loop_none true 1%nat _ LoopPop); [done|by left|reflexivity].
  - reflexivity.
  - by eapply (b_test true 1%nat).
  - reflexivity.
  - eapply (b_joined true 0%nat); [done|by left].
  - reflexivity.
  - by eapply (b_drain true 0%nat).
  - reflexivity.
  - by eapply (b_freed true 0%nat).
  - reflexivity.
Qed.

Lemma bus_fifo_witness : sb_posted handling = sb_taken handling ++ [] /\ NoDup (sb_taken handling).
Proof. destruct (bus_fifo false 1 handling (handling_reached false)) as (Ho & Hn & _). by split. Defined.

Lemma bus_one_handler_witness : bus_handler (sb_bus handling) = Some 7%nat /\ sb_threads freed !! 1%nat = Some LoopEnded.
Proof.
  split.
  - by destruct (proj1 (proj2 (proj2 (bus_one_handler 1 handling (handling_reached true)))) 1%nat 5%nat 7%nat 9%nat eq_refl).
  - by destruct (proj2 (proj2 (proj2 (bus_one_handler 1 freed freed_reached))) eq_refl 1%nat LoopEnded eq_refl) as [|].
Defined.

Lemma bus_accounts_witness : Permutation [5%nat] ([] ++ [5%nat]).
Proof. exact (proj1 (proj2 (bus_accounts 1 freed freed_reached)) eq_refl). Defined.

Lemma dispatch_stops_witness : exists s', bstep true 1 joining s'.
Proof.
  destruct (dispatch_stops 1 joining 1%nat (LoopFree 5) joining_reached eq_refl eq_refl eq_refl) as (_ & (s' & Hs & _) & _).
  by exists s'.
Defined.

(** ** Out of the rules *)

(** A handler that sets the handler anew joins its own thread, which fails unseen; its
    dispatch loop goes on beside the new one. *)
Lemma set_from_handler_doubles : exists s, bus_reach false 1 s /\
  sb_threads s = [Code App; LoopPop; LoopPop] /\ bus_flushing (sb_bus s) = false.
Proof.
  eexists. split.
  - eapply take_step; [eapply take_step; [eapply take_step; [eapply take_step; [apply handling_reached| |]| |]| |]| |].
    + by eapply (b_set false 1%nat _ (Handler 5 7 9) (Some 8%nat) 9%nat).
    + reflexivity.
    + eapply (b_set_joined false 1%nat _ (Handler 5 7 9) 1%nat (Some 8%nat) 9%nat true); [done|by right|reflexivity].
    + reflexivity.
    + by eapply (b_handled false 1%nat).
    + reflexivity.
    + by eapply (b_free false 1%nat).
    + reflexivity.
  - by split.
Qed.

(** A handler that destroys the bus frees it under its own dispatch loop. *)
Lemma destroy_from_handler_dangles : exists s, bus_reach false 1 s /\ sb_phase s = Freed /\ sb_threads s !! 1%nat = Some LoopPop.
Proof.
  eexists. split.
  - eapply take_step; [eapply take_step; [eapply take_step; [eapply take_step; [eapply take_step; [eapply take_step;
      [apply handling_reached| |]| |]| |]| |]| |]| |].
    + by eapply (b_destroy false 1%nat _ (Handler 5 7 9)).
    + reflexivity.
    + eapply (b_joined false 1%nat); [done|by right].
    + reflexivity.
    + by eapply (b_drain false 1%nat).
    + reflexivity.
    + by eapply (b_freed false 1%nat).
    + reflexivity.
    + by eapply (b_handled false 1%nat).
    + reflexivity.
    + by eapply (b_free false 1%nat).
    + reflexivity.
  - by split.
Qed.
