(* ===== verification/BusEvent.v ===== *)
(** * Bus events: the constructors and [zst_event_destroy] of [src/zst_bus.c]

    The memory an event owns is a heap of numbered blocks beside the pads: the strings,
    the capabilities and the events themselves.  A pointer is a number or NULL ([None]),
    so that a copied structure shares what its members point to until the code replaces
    them.  Reading or freeing what is not allocated is a fault.  Each allocation has an
    answer of its own, so an event may be built with any of its parts missing. *)

From Stdlib Require Import String SpecFloat.
From S2P Require Import Prelude CLib Pad Caps BufferPool Graph PadOps.

Local Open Scope Z_scope.

(** ** Data: [include/zst_bus.h], [include/zst_stream.h] *)

Inductive zst_event_type_t :=
| ZST_EVENT_EOS | ZST_EVENT_ERROR | ZST_EVENT_STATE_CHANGED | ZST_EVENT_WARNING | ZST_EVENT_SEGMENT
| ZST_EVENT_PAD_ADDED | ZST_EVENT_PAD_REMOVED | ZST_EVENT_STREAM_ADDED | ZST_EVENT_STREAM_REMOVED
| ZST_EVENT_STREAM_CHANGED | ZST_EVENT_STREAM_STATUS | ZST_EVENT_CAPS_CHANGED | ZST_EVENT_NO_MORE_PADS
| ZST_EVENT_CLOCK_SYNC | ZST_EVENT_REDUNDANCY_FAILOVER | ZST_EVENT_REDUNDANCY_RECOVERY
| ZST_EVENT_SIGNAL_PRESENT | ZST_EVENT_SIGNAL_LOST | ZST_EVENT_KEY_PRESS | ZST_EVENT_MOUSE_BUTTON
| ZST_EVENT_MOUSE_MOTION | ZST_EVENT_WEBRTC_LOCAL_DESCRIPTION | ZST_EVENT_WEBRTC_ICE_CANDIDATE
| ZST_EVENT_WEBRTC_PLI | ZST_EVENT_WEBRTC_REMB | ZST_EVENT_DANTE_CONNECTED | ZST_EVENT_DANTE_DISCONNECTED
| ZST_EVENT_DANTE_CONFIGURATION_REQUESTED | ZST_EVENT_DANTE_FLOW_CREATED | ZST_EVENT_DANTE_FLOW_DELETED
| ZST_EVENT_DANTE_RX_CHANNEL_STATUS.

#[export] Instance event_type_dec : EqDecision zst_event_type_t.
Proof. solve_decision. Defined.

Inductive zst_media_kind_t := ZST_MEDIA_UNKNOWN | ZST_MEDIA_VIDEO | ZST_MEDIA_AUDIO | ZST_MEDIA_TEXT | ZST_MEDIA_DATA.
Inductive zst_stream_status_t :=
  ZST_STREAM_STATUS_PRESENT | ZST_STREAM_STATUS_LOST | ZST_STREAM_STATUS_REMOVED | ZST_STREAM_STATUS_CHANGED.

Record zst_stream_info_t := mk_stream_info {
  stream_struct_size : Z;
  stream_id : Z;
  stream_program_id : Z;
  stream_index : Z;
  stream_kind : zst_media_kind_t;
  stream_status : zst_stream_status_t;
  stream_name : option nat;
  stream_language : option nat;
  stream_caps : option nat;
  stream_first_pts : Z;
  stream_last_seen_pts : Z;
  stream_flags : Z;
}.

Definition stream_zero : zst_stream_info_t :=
  mk_stream_info 0 0 0 0 ZST_MEDIA_UNKNOWN ZST_STREAM_STATUS_PRESENT None None None 0 0 0.
Definition with_pointers (s : zst_stream_info_t) (name language caps : option nat) : zst_stream_info_t :=
  mk_stream_info (stream_struct_size s) (stream_id s) (stream_program_id s) (stream_index s) (stream_kind s)
    (stream_status s) name language caps (stream_first_pts s) (stream_last_seen_pts s) (stream_flags s).

Inductive zst_dante_flow_direction_t := ZST_DANTE_FLOW_TX | ZST_DANTE_FLOW_RX.
Inductive zst_dante_flow_transport_t := ZST_DANTE_FLOW_UNICAST | ZST_DANTE_FLOW_MULTICAST.
Inductive zst_dante_tx_channel_status_t :=
| ZST_DANTE_TX_STATUS_OK | ZST_DANTE_TX_STATUS_EXT_NOT_CONNECTED | ZST_DANTE_TX_STATUS_EXT_NOT_READY
| ZST_DANTE_TX_STATUS_EXT_CONNECTION_BAD | ZST_DANTE_TX_STATUS_EXT_CONNECTION_UNSUPPORTED
| ZST_DANTE_TX_STATUS_EXT_INVALID_CONFIGURATION | ZST_DANTE_TX_STATUS_EXT_SYSTEM_FAILURE.

Record zst_dante_flow_t := mk_flow {
  flow_direction : zst_dante_flow_direction_t;
  flow_transport : zst_dante_flow_transport_t;
  flow_index : Z;
  flow_channel_index : Z;
  flow_port : Z;
  flow_receiver : option nat;
  flow_multicast : option nat;
  flow_transmitter : option nat;
  flow_video_subtype : bytes;
}.

Definition with_addresses (f : zst_dante_flow_t) (receiver multicast transmitter : option nat) : zst_dante_flow_t :=
  mk_flow (flow_direction f) (flow_transport f) (flow_index f) (flow_channel_index f) (flow_port f)
    receiver multicast transmitter (flow_video_subtype f).

(** The member of the union that is in use; [AsZero] is the zeroes of [calloc]. *)
Inductive event_as :=
| AsZero
| AsError (result : zst_result_t) (message : option nat)
| AsWarning (result : zst_result_t) (message : option nat)
| AsStateChanged (old_state new_state : zst_state_t)
| AsSegment (segment : zst_segment_t)
| AsPadAdded (pad : option nat) (stream : zst_stream_info_t)
| AsPadRemoved (pad : option nat) (stream_id : Z)
| AsCapsChanged (pad old_caps new_caps : option nat)
| AsStreamStatus (stream : zst_stream_info_t)
| AsStreamRemoved (stream_id : Z)
| AsKeyPress (key_sym key_code : Z) (key_str : string)
| AsMouseButton (button pressed x y : Z)
| AsMouseMotion (x y : Z)
| AsLocalDescription (type sdp : option nat)
| AsIceCandidate (mid : option nat) (mlineindex : Z) (candidate : option nat)
| AsPli (track_id : Z)
| AsRemb (track_id bitrate : Z)
| AsDanteFlow (flow : zst_dante_flow_t)
| AsDanteRxStatus (channel_index : Z) (status : zst_dante_tx_channel_status_t).

Record zst_event := mk_event { ev_type : zst_event_type_t; ev_src : option nat; ev_as : event_as }.

(** ** The heap *)

Inductive block := BString (s : string) | BCaps (c : zst_caps_t) | BEvent (e : zst_event).

Record evmem := mk_evmem { em_next : nat; em_heap : gmap nat block }.

Definition SIZEOF_KEY_STR : Z := 16.

Definition put_user {U} (w : world U) (u : U) : world U :=
  mk_world (w_next w) (w_pads w) (w_elems w) (w_bufs w) (w_bus w) (w_dirty w) u.
Definition heap_of (w : world evmem) : gmap nat block := em_heap (w_user w).
Definition put_heap (w : world evmem) (h : gmap nat block) : world evmem := put_user w (mk_evmem (em_next (w_user w)) h).

Section events.
(** [ok k] is the answer to the [k]-th allocation. *)
Context `{CMemory} (stale_size : caps_value -> Z) (ok : nat -> bool).
Local Notation M := (M evmem).

Definition malloc (b : block) : M (option nat) := fun w =>
  let k := em_next (w_user w) in
  let w' h := put_user w (mk_evmem (S k) h) in
  if ok k then Done (Some k, w' (<[k := b]> (heap_of w))) else Done (None, w' (heap_of w)).

Definition load (a : nat) : M block := fun w => match heap_of w !! a with Some b => Done (b, w) | None => Fault end.
Definition store (a : nat) (b : block) : M unit := fun w =>
  match heap_of w !! a with Some _ => Done (tt, put_heap w (<[a := b]> (heap_of w))) | None => Fault end.

(** [free] *)
Definition free (a : option nat) : M unit :=
  match a with
  | None => mret tt
  | Some a => fun w => match heap_of w !! a with
                       | Some _ => Done (tt, put_heap w (base.delete a (heap_of w)))
                       | None => Fault
                       end
  end.

(** [p ? strdup(p) : NULL] *)
Definition strdup (p : option nat) : M (option nat) :=
  match p with
  | None => mret None
  | Some a => b ← load a; match b with BString s => malloc (BString s) | _ => fault end
  end.

(** [p ? zst_caps_copy(p) : NULL], all of whose memory is one block here: it is there
    when [Caps.zst_caps_copy] gives a copy. *)
Definition copy_caps (p : option nat) : M (option nat) :=
  match p with
  | None => mret None
  | Some a =>
      b ← load a;
      match b with
      | BCaps c => match zst_caps_copy stale_size (Some c) with Some c => malloc (BCaps c) | None => mret None end
      | _ => fault
      end
  end.

(** The test for NULL and [zst_pad_ref], [zst_pad_unref]. *)
Definition take_pad_ref (p : option nat) : M (option nat) :=
  match p with Some q => _ ← zst_pad_ref q; mret p | None => mret None end.
Definition drop_pad_ref (p : option nat) : M unit := match p with Some q => zst_pad_unref q | None => mret tt end.

(** ** Constructors *)

(** [calloc], the type and the source, then what [fill] stores in the union. *)
Definition event_with (type : zst_event_type_t) (src : option nat) (fill : M event_as) : M (option nat) :=
  a ← malloc (BEvent (mk_event type src AsZero));
  match a with
  | None => mret None
  | Some a => x ← fill; _ ← store a (BEvent (mk_event type src x)); mret (Some a)
  end.
Definition plain_event (type : zst_event_type_t) (src : option nat) : M (option nat) := event_with type src (mret AsZero).

Definition zst_event_new_redundancy_failover := plain_event ZST_EVENT_REDUNDANCY_FAILOVER.
Definition zst_event_new_redundancy_recovery := plain_event ZST_EVENT_REDUNDANCY_RECOVERY.
Definition zst_event_new_eos := plain_event ZST_EVENT_EOS.
Definition zst_event_new_no_more_pads := plain_event ZST_EVENT_NO_MORE_PADS.
Definition zst_event_new_clock_sync := plain_event ZST_EVENT_CLOCK_SYNC.
Definition zst_event_new_signal_lost := plain_event ZST_EVENT_SIGNAL_LOST.
Definition zst_event_new_signal_present := plain_event ZST_EVENT_SIGNAL_PRESENT.

(** The members of [src] are copied, then its pointers replaced by copies. *)
Definition copy_stream_info (src : option zst_stream_info_t) : M zst_stream_info_t :=
  match src with
  | None => mret stream_zero
  | Some s =>
      name ← strdup (stream_name s);
      language ← strdup (stream_language s);
      caps ← copy_caps (stream_caps s);
      mret (with_pointers s name language caps)
  end.

Definition with_stream (type : zst_event_type_t) (src : option nat) (stream : option zst_stream_info_t) : M (option nat) :=
  event_with type src (s ← copy_stream_info stream; mret (AsStreamStatus s)).
Definition zst_event_new_stream_added := with_stream ZST_EVENT_STREAM_ADDED.
Definition zst_event_new_stream_changed := with_stream ZST_EVENT_STREAM_CHANGED.
Definition zst_event_new_stream_status := with_stream ZST_EVENT_STREAM_STATUS.

Definition zst_event_new_stream_removed (src : option nat) (stream_id : Z) : M (option nat) :=
  event_with ZST_EVENT_STREAM_REMOVED src (mret (AsStreamRemoved stream_id)).
Definition zst_event_new_error (src : option nat) (result : zst_result_t) (message : option nat) : M (option nat) :=
  event_with ZST_EVENT_ERROR src (m ← strdup message; mret (AsError result m)).
Definition zst_event_new_warning (src : option nat) (result : zst_result_t) (message : option nat) : M (option nat) :=
  event_with ZST_EVENT_WARNING src (m ← strdup message; mret (AsWarning result m)).
Definition zst_event_new_state_changed (src : option nat) (old_state new_state : zst_state_t) : M (option nat) :=
  event_with ZST_EVENT_STATE_CHANGED src (mret (AsStateChanged old_state new_state)).
Definition zst_event_new_segment (src : option nat) (segment : option zst_segment_t) : M (option nat) :=
  event_with ZST_EVENT_SEGMENT src (mret (match segment with Some s => AsSegment s | None => AsZero end)).

Definition zst_event_new_pad_added (src pad : option nat) (stream : option zst_stream_info_t) : M (option nat) :=
  event_with ZST_EVENT_PAD_ADDED src (p ← take_pad_ref pad; s ← copy_stream_info stream; mret (AsPadAdded p s)).
Definition zst_event_new_pad_removed (src pad : option nat) (stream_id : Z) : M (option nat) :=
  event_with ZST_EVENT_PAD_REMOVED src (p ← take_pad_ref pad; mret (AsPadRemoved p stream_id)).
Definition zst_event_new_caps_changed (src pad old_caps new_caps : option nat) : M (option nat) :=
  event_with ZST_EVENT_CAPS_CHANGED src
    (p ← take_pad_ref pad; c ← copy_caps old_caps; d ← copy_caps new_caps; mret (AsCapsChanged p c d)).

Definition zst_event_new_key_press (src : option nat) (key_sym key_code : Z) (key_str : option nat) : M (option nat) :=
  event_with ZST_EVENT_KEY_PRESS src
    match key_str with
    | None => mret (AsKeyPress key_sym key_code "")
    | Some a =>
        b ← load a;
        match b with BString s => mret (AsKeyPress key_sym key_code (snprintf SIZEOF_KEY_STR s)) | _ => fault end
    end.
Definition zst_event_new_mouse_button (src : option nat) (button pressed x y : Z) : M (option nat) :=
  event_with ZST_EVENT_MOUSE_BUTTON src (mret (AsMouseButton button pressed x y)).
Definition zst_event_new_mouse_motion (src : option nat) (x y : Z) : M (option nat) :=
  event_with ZST_EVENT_MOUSE_MOTION src (mret (AsMouseMotion x y)).

Definition zst_event_new_webrtc_local_description (src type sdp : option nat) : M (option nat) :=
  event_with ZST_EVENT_WEBRTC_LOCAL_DESCRIPTION src (t ← strdup type; s ← strdup sdp; mret (AsLocalDescription t s)).
Definition zst_event_new_webrtc_ice_candidate (src mid : option nat) (mlineindex : Z) (candidate : option nat)
    : M (option nat) :=
  event_with ZST_EVENT_WEBRTC_ICE_CANDIDATE src
    (m ← strdup mid; c ← strdup candidate; mret (AsIceCandidate m mlineindex c)).
Definition zst_event_new_webrtc_pli (src : option nat) (track_id : Z) : M (option nat) :=
  event_with ZST_EVENT_WEBRTC_PLI src (mret (AsPli track_id)).
Definition zst_event_new_webrtc_remb (src : option nat) (track_id bitrate : Z) : M (option nat) :=
  event_with ZST_EVENT_WEBRTC_REMB src (mret (AsRemb track_id bitrate)).

(** [None] when a string could not be copied: the copies that were made are freed. *)
Definition copy_dante_flow (src : zst_dante_flow_t) : M (option zst_dante_flow_t) :=
  r ← strdup (flow_receiver src);
  m ← strdup (flow_multicast src);
  t ← strdup (flow_transmitter src);
  let lost (from to : option nat) := match from, to with Some _, None => true | _, _ => false end in
  if lost (flow_receiver src) r || lost (flow_multicast src) m || lost (flow_transmitter src) t then
    _ ← free r; _ ← free m; _ ← free t; mret None
  else mret (Some (with_addresses src r m t)).

Definition new_dante_simple_event (src : option nat) (type : zst_event_type_t) : M (option nat) := plain_event type src.
Definition zst_event_new_dante_connected (src : option nat) := new_dante_simple_event src ZST_EVENT_DANTE_CONNECTED.
Definition zst_event_new_dante_disconnected (src : option nat) := new_dante_simple_event src ZST_EVENT_DANTE_DISCONNECTED.
Definition zst_event_new_dante_configuration_requested (src : option nat) :=
  new_dante_simple_event src ZST_EVENT_DANTE_CONFIGURATION_REQUESTED.

Definition new_dante_flow_event (src : option nat) (type : zst_event_type_t) (flow : option zst_dante_flow_t)
    : M (option nat) :=
  match flow with
  | None => mret None
  | Some f =>
      a ← new_dante_simple_event src type;
      match a with
      | None => mret None
      | Some a =>
          copy ← copy_dante_flow f;
          match copy with
          | None => _ ← free (Some a); mret None
          | Some g => _ ← store a (BEvent (mk_event type src (AsDanteFlow g))); mret (Some a)
          end
      end
  end.
Definition zst_event_new_dante_flow_created (src : option nat) := new_dante_flow_event src ZST_EVENT_DANTE_FLOW_CREATED.
Definition zst_event_new_dante_flow_deleted (src : option nat) := new_dante_flow_event src ZST_EVENT_DANTE_FLOW_DELETED.

Definition zst_event_new_dante_rx_channel_status (src : option nat) (channel_index : Z)
    (status : zst_dante_tx_channel_status_t) : M (option nat) :=
  a ← new_dante_simple_event src ZST_EVENT_DANTE_RX_CHANNEL_STATUS;
  match a with
  | None => mret None
  | Some a =>
      _ ← store a (BEvent (mk_event ZST_EVENT_DANTE_RX_CHANNEL_STATUS src (AsDanteRxStatus channel_index status)));
      mret (Some a)
  end.

(** ** Destruction *)

(** [zst_stream_info_clear], and its like in [zst_event_destroy]. *)
Definition zst_stream_info_clear (info : zst_stream_info_t) : M zst_stream_info_t :=
  _ ← free (stream_name info); _ ← free (stream_language info); _ ← free (stream_caps info); mret stream_zero.

(** A member read as another one than was stored is a fault; zeroes read as NULLs. *)
Definition zst_event_destroy (event : option nat) : M unit :=
  match event with
  | None => mret tt
  | Some a =>
      b ← load a;
      match b with
      | BEvent e =>
          _ ← match ev_type e with
              | ZST_EVENT_ERROR => match ev_as e with AsError _ m => free m | AsZero => mret tt | _ => fault end
              | ZST_EVENT_WARNING => match ev_as e with AsWarning _ m => free m | AsZero => mret tt | _ => fault end
              | ZST_EVENT_PAD_ADDED =>
                  match ev_as e with
                  | AsPadAdded p s =>
                      _ ← drop_pad_ref p; _ ← free (stream_name s); _ ← free (stream_language s); free (stream_caps s)
                  | AsZero => mret tt
                  | _ => fault
                  end
              | ZST_EVENT_PAD_REMOVED => match ev_as e with AsPadRemoved p _ => drop_pad_ref p | AsZero => mret tt | _ => fault end
              | ZST_EVENT_CAPS_CHANGED =>
                  match ev_as e with
                  | AsCapsChanged p c d => _ ← drop_pad_ref p; _ ← free c; free d
                  | AsZero => mret tt
                  | _ => fault
                  end
              | ZST_EVENT_STREAM_STATUS | ZST_EVENT_STREAM_ADDED | ZST_EVENT_STREAM_CHANGED =>
                  match ev_as e with
                  | AsStreamStatus s => _ ← free (stream_name s); _ ← free (stream_language s); free (stream_caps s)
                  | AsZero => mret tt
                  | _ => fault
                  end
              | ZST_EVENT_WEBRTC_LOCAL_DESCRIPTION =>
                  match ev_as e with AsLocalDescription t s => _ ← free t; free s | AsZero => mret tt | _ => fault end
              | ZST_EVENT_WEBRTC_ICE_CANDIDATE =>
                  match ev_as e with AsIceCandidate m _ c => _ ← free m; free c | AsZero => mret tt | _ => fault end
              | ZST_EVENT_DANTE_FLOW_CREATED | ZST_EVENT_DANTE_FLOW_DELETED =>
                  match ev_as e with
                  | AsDanteFlow f => _ ← free (flow_receiver f); _ ← free (flow_multicast f); free (flow_transmitter f)
                  | AsZero => mret tt
                  | _ => fault
                  end
              | _ => mret tt
              end;
          free (Some a)
      | _ => fault
      end
  end.
End events.
