(* ===== verification/BusEventSpec.v ===== *)
(** * Bus events own what they point to: [BusEvent]

    An event built by any constructor points only to blocks allocated for it, whichever
    of its allocations fail, and holds one reference on its pad.  [zst_event_destroy]
    frees exactly these, at any later time, whatever the caller did with its own. *)

From Stdlib Require Import String SpecFloat.
From S2P Require Import Prelude CLib Pad Caps BufferPool Graph PadOps PadFlow PadPush Element Pipeline PipelineWalk BusEvent.

Local Open Scope Z_scope.

(** ** What an event owns *)

Definition here (ps : list (option nat)) : list nat := omap id ps.

Definition stream_blocks (s : zst_stream_info_t) : list nat := here [stream_name s; stream_language s; stream_caps s].

Definition as_blocks (x : event_as) : list nat :=
  match x with
  | AsError _ m | AsWarning _ m => here [m]
  | AsPadAdded _ s | AsStreamStatus s => stream_blocks s
  | AsCapsChanged _ c d => here [c; d]
  | AsLocalDescription t s => here [t; s]
  | AsIceCandidate m _ c => here [m; c]
  | AsDanteFlow f => here [flow_receiver f; flow_multicast f; flow_transmitter f]
  | _ => []
  end.

Definition as_pad (x : event_as) : option nat :=
  match x with AsPadAdded p _ | AsPadRemoved p _ | AsCapsChanged p _ _ => p | _ => None end.

(** The member in use is the one of the type. *)
Definition fits (t : zst_event_type_t) (x : event_as) : bool :=
  match t, x with
  | _, AsZero => true
  | ZST_EVENT_ERROR, AsError _ _ | ZST_EVENT_WARNING, AsWarning _ _ | ZST_EVENT_STATE_CHANGED, AsStateChanged _ _
  | ZST_EVENT_SEGMENT, AsSegment _ | ZST_EVENT_PAD_ADDED, AsPadAdded _ _ | ZST_EVENT_PAD_REMOVED, AsPadRemoved _ _
  | ZST_EVENT_CAPS_CHANGED, AsCapsChanged _ _ _
  | (ZST_EVENT_STREAM_ADDED | ZST_EVENT_STREAM_CHANGED | ZST_EVENT_STREAM_STATUS), AsStreamStatus _
  | ZST_EVENT_STREAM_REMOVED, AsStreamRemoved _ | ZST_EVENT_KEY_PRESS, AsKeyPress _ _ _
  | ZST_EVENT_MOUSE_BUTTON, AsMouseButton _ _ _ _ | ZST_EVENT_MOUSE_MOTION, AsMouseMotion _ _
  | ZST_EVENT_WEBRTC_LOCAL_DESCRIPTION, AsLocalDescription _ _ | ZST_EVENT_WEBRTC_ICE_CANDIDATE, AsIceCandidate _ _ _
  | ZST_EVENT_WEBRTC_PLI, AsPli _ | ZST_EVENT_WEBRTC_REMB, AsRemb _ _
  | (ZST_EVENT_DANTE_FLOW_CREATED | ZST_EVENT_DANTE_FLOW_DELETED), AsDanteFlow _
  | ZST_EVENT_DANTE_RX_CHANNEL_STATUS, AsDanteRxStatus _ _ => true
  | _, _ => false
  end.

Definition erase (bs : list nat) (h : gmap nat block) : gmap nat block := foldr base.delete h bs.

Lemma erase_app bs cs h : erase (bs ++ cs) h = erase bs (erase cs h).
Proof. apply foldr_app. Qed.
Lemma erase_lookup bs h a : erase bs h !! a = (if decide (a ∈ bs) then None else h !! a).
Proof.
  induction bs as [|b bs IH]; cbn [erase foldr]; [done|]. destruct (decide (a = b)) as [->|Hne].
  - rewrite lookup_delete_eq, decide_True by set_solver. done.
  - rewrite lookup_delete_ne by done. fold (erase bs h). rewrite IH. destruct (decide (a ∈ bs)); [rewrite decide_True by set_solver|rewrite decide_False by set_solver]; done.
Qed.
Lemma erase_swap bs cs h : erase (bs ++ cs) h = erase (cs ++ bs) h.
Proof.
  apply map_eq. intros a. rewrite !erase_lookup. destruct (decide (a ∈ bs ++ cs)) as [H1|H1], (decide (a ∈ cs ++ bs)) as [H2|H2]; try done;
    exfalso; rewrite !elem_of_app in *; tauto.
Qed.
Lemma erase_delete a bs h : erase bs (base.delete a h) = base.delete a (erase bs h).
Proof. induction bs as [|b bs IH]; [done|]. cbn [erase foldr]. fold (erase bs (base.delete a h)). rewrite IH. apply delete_delete. Qed.

(** ** Steps that allocate *)

Definition next_of (w : world evmem) : nat := em_next (w_user w).

(** Nothing is allocated above the next address. *)
Definition tidy (w : world evmem) : Prop := forall a, is_Some (heap_of w !! a) -> (a < next_of w)%nat.

(** From [w] to [w'] the blocks [bs] were allocated, and nothing else happened. *)
Record gives (bs : list nat) (w w' : world evmem) : Prop := {
  gv_world : w' = put_user w (w_user w');
  gv_next : (next_of w <= next_of w')%nat;
  gv_nodup : NoDup bs;
  gv_new : forall b, b ∈ bs -> (next_of w <= b < next_of w')%nat /\ is_Some (heap_of w' !! b);
  gv_heap : erase bs (heap_of w') = heap_of w;
}.

Lemma put_user_id (w : world evmem) : put_user w (w_user w) = w.
Proof. by destruct w. Qed.

Lemma gives_refl w : gives [] w w.
Proof. constructor; [by rewrite put_user_id|lia|constructor|set_solver|done]. Qed.

Lemma gives_old bs w w' a b : gives bs w w' -> heap_of w !! a = Some b -> heap_of w' !! a = Some b.
Proof. intros [_ _ _ _ Hh] Ha. rewrite <- Hh, erase_lookup in Ha. by destruct (decide _). Qed.

Lemma gives_tidy bs w w' : gives bs w w' -> tidy w -> tidy w'.
Proof.
  intros G Ht a Ha. destruct (decide (a ∈ bs)) as [Hin|Hin]; [by apply (gv_new _ _ _ G)|].
  pose proof (gv_next _ _ _ G). enough (a < next_of w)%nat by lia. apply Ht. rewrite <- (gv_heap _ _ _ G), erase_lookup. by rewrite decide_False.
Qed.

Lemma gives_trans bs cs w v u : gives bs w v -> gives cs v u -> gives (bs ++ cs) w u.
Proof.
  intros G1 G2. constructor.
  - rewrite (gv_world _ _ _ G2), (gv_world _ _ _ G1). done.
  - pose proof (gv_next _ _ _ G1). pose proof (gv_next _ _ _ G2). lia.
  - apply NoDup_app. split; [apply G1|split; [|apply G2]]. intros b H1 H2.
    apply (gv_new _ _ _ G1) in H1 as [? _]. apply (gv_new _ _ _ G2) in H2 as [? _]. lia.
  - pose proof (gv_next _ _ _ G1). pose proof (gv_next _ _ _ G2). intros b [Hb|Hb]%elem_of_app.
    + apply (gv_new _ _ _ G1) in Hb as [? [x Hx]]. split; [lia|]. exists x. by eapply gives_old.
    + apply (gv_new _ _ _ G2) in Hb as [? ?]. split; [lia|done].
  - by rewrite erase_app, (gv_heap _ _ _ G2), (gv_heap _ _ _ G1).
Qed.

Lemma gives_perm bs cs w v : Permutation bs cs -> gives bs w v -> gives cs w v.
Proof.
  intros Hp [? ? Hn Hnew Hh]. constructor; [done|done|by rewrite <- Hp| |].
  - intros b. rewrite <- Hp. apply Hnew.
  - rewrite <- Hh. apply map_eq. intros a. rewrite !erase_lookup. by rewrite (decide_ext _ _ _ _ (elem_of_Permutation_proper a _ _ Hp)).
Qed.

Section spec.
Context `{CMemory} (stale_size : caps_value -> Z) (ok : nat -> bool).
Implicit Types (w v : world evmem).

(** [m] ends, and what it allocates is related to its result by [P]. *)
Definition builds {A} (m : M evmem A) w (P : A -> list nat -> Prop) : Prop :=
  exists x bs w', m w = Done (x, w') /\ P x bs /\ gives bs w w'.

Lemma builds_ret {A} (a : A) w (P : A -> list nat -> Prop) : P a [] -> builds (mret a) w P.
Proof. intros HP. exists a, [], w. split; [done|]. split; [done|apply gives_refl]. Qed.

Lemma builds_bind {A B} (m : M evmem A) (k : A -> M evmem B) w P Q : tidy w -> builds m w P ->
  (forall x bs w', P x bs -> gives bs w w' -> tidy w' -> builds (k x) w' (fun y cs => Q y (bs ++ cs))) ->
  builds (m ≫= k) w Q.
Proof.
  intros Ht (x & bs & w' & Em & HP & G) Hk. destruct (Hk x bs w' HP G (gives_tidy _ _ _ G Ht)) as (y & cs & w2 & Ek & HQ & G2).
  exists y, (bs ++ cs), w2. split; [|split; [done|by eapply gives_trans]]. unfold mbind, M_bind. by rewrite Em.
Qed.

Lemma builds_malloc b w : tidy w -> builds (malloc ok b) w (fun r bs => bs = here [r]).
Proof.
  intros Ht. unfold builds, malloc. cbv beta zeta. destruct (ok (em_next (w_user w))) eqn:Ek.
  - assert (heap_of w !! next_of w = None) as Hnew.
    { destruct (heap_of w !! next_of w) eqn:E; [|done]. assert (next_of w < next_of w)%nat by by apply Ht. lia. }
    do 3 eexists. split; [reflexivity|]. split; [done|]. constructor; cbn.
    + done.
    + unfold next_of. cbn. lia.
    + apply NoDup_singleton.
    + intros c ->%list_elem_of_singleton. unfold next_of, heap_of. cbn. rewrite lookup_insert_eq. split; [lia|by eexists].
    + unfold heap_of at 1. cbn. unfold heap_of, next_of in *. by rewrite delete_insert_id.
  - do 3 eexists. split; [reflexivity|]. split; [done|]. constructor; cbn; [done|unfold next_of; cbn; lia|constructor|set_solver|done].
Qed.

Definition string_at w (p : option nat) : Prop := match p with Some a => exists s, heap_of w !! a = Some (BString s) | None => True end.
Definition caps_at w (p : option nat) : Prop := match p with Some a => exists c, heap_of w !! a = Some (BCaps c) | None => True end.

Lemma string_later bs w w' p : gives bs w w' -> string_at w p -> string_at w' p.
Proof. intros G. destruct p as [a|]; [|done]. intros [s Hs]. exists s. by eapply gives_old. Qed.
Lemma caps_later bs w w' p : gives bs w w' -> caps_at w p -> caps_at w' p.
Proof. intros G. destruct p as [a|]; [|done]. intros [s Hs]. exists s. by eapply gives_old. Qed.

Lemma builds_strdup p w : tidy w -> string_at w p -> builds (strdup ok p) w (fun r bs => bs = here [r]).
Proof.
  intros Ht Hp. destruct p as [a|]; cbn [strdup]; [|by apply builds_ret]. destruct Hp as [s Hs].
  unfold mbind, M_bind, builds, load. rewrite Hs. by apply builds_malloc.
Qed.

Lemma builds_caps p w : tidy w -> caps_at w p -> builds (copy_caps stale_size ok p) w (fun r bs => bs = here [r]).
Proof.
  intros Ht Hp. destruct p as [a|]; cbn [copy_caps]; [|by apply builds_ret]. destruct Hp as [c Hc].
  unfold mbind, M_bind, builds, load. rewrite Hc. destruct (zst_caps_copy _ _); [by apply builds_malloc|by apply builds_ret].
Qed.

Definition stream_at w (s : zst_stream_info_t) : Prop :=
  string_at w (stream_name s) /\ string_at w (stream_language s) /\ caps_at w (stream_caps s).
Definition stream_in w (s : option zst_stream_info_t) : Prop := match s with Some s => stream_at w s | None => True end.

Lemma stream_later bs w w' s : gives bs w w' -> stream_in w s -> stream_in w' s.
Proof. intros G. destruct s as [s|]; [|done]. intros (? & ? & ?). repeat split; (by eapply string_later) || by eapply caps_later. Qed.

Lemma here_cons p ps : here (p :: ps) = here [p] ++ here ps.
Proof. by destruct p. Qed.
Lemma here_app ps qs : here (ps ++ qs) = here ps ++ here qs.
Proof. apply omap_app. Qed.

Tactic Notation "builds_step" tactic(tac) := eapply builds_bind; [done|tac|cbv beta; intros ? ? ? -> ?G ?].

Lemma builds_stream s w : tidy w -> stream_in w s ->
  builds (copy_stream_info stale_size ok s) w (fun r bs => bs = stream_blocks r).
Proof.
  intros Ht Hs. destruct s as [s|]; cbn [copy_stream_info]; [|by apply builds_ret]. destruct Hs as (H1 & H2 & H3).
  builds_step (by apply builds_strdup). builds_step (apply builds_strdup; [done|by eapply string_later]).
  builds_step (apply builds_caps; [done|]; by do 2 (eapply caps_later; [done|])).
  apply builds_ret. cbn [with_pointers]. unfold stream_blocks. cbn. by destruct x, x0, x1.
Qed.

(** ** Constructors *)

Definition lift_opt (p : option nat) w : world evmem := match p with Some q => lift q w | None => w end.
Definition pad_at w (p : option nat) : Prop := match p with Some q => is_Some (w_pads w !! q) | None => True end.

Lemma lift_opt_user p w u : lift_opt p (put_user w u) = put_user (lift_opt p w) u.
Proof. by destruct p. Qed.
Lemma user_lift_opt p w : w_user (lift_opt p w) = w_user w.
Proof. by destruct p. Qed.
Lemma heap_lift_opt p w : heap_of (lift_opt p w) = heap_of w.
Proof. unfold heap_of. by rewrite user_lift_opt. Qed.
Lemma tidy_lift p w : tidy w -> tidy (lift_opt p w).
Proof. unfold tidy, next_of. by rewrite heap_lift_opt, user_lift_opt. Qed.
Lemma gives_lift p bs w w' : gives bs w w' -> gives bs (lift_opt p w) (lift_opt p w').
Proof.
  intros [Hw ? ? ? ?]. constructor; unfold next_of in *; rewrite ?heap_lift_opt, ?user_lift_opt; try done.
  rewrite Hw at 1. by rewrite lift_opt_user.
Qed.
Lemma string_lift p w q : string_at (lift_opt p w) q <-> string_at w q.
Proof. unfold string_at. by rewrite heap_lift_opt. Qed.
Lemma caps_lift p w q : caps_at (lift_opt p w) q <-> caps_at w q.
Proof. unfold caps_at. by rewrite heap_lift_opt. Qed.
Lemma stream_lift p w s : stream_in (lift_opt p w) s <-> stream_in w s.
Proof. destruct s as [s|]; [|done]. cbn. unfold stream_at. by rewrite !string_lift, caps_lift. Qed.

Lemma take_pad_ref_done p w : pad_at w p -> take_pad_ref p w = Done (p, lift_opt p w).
Proof. destruct p as [q|]; [|done]. intros Hp. unfold take_pad_ref, mbind, M_bind. by rewrite ref_lift. Qed.

Lemma pad_later bs w w' p : gives bs w w' -> pad_at w p -> pad_at w' p.
Proof. intros G. destruct p as [q|]; [|done]. cbn. by rewrite (gv_world _ _ _ G). Qed.

(** The result of a constructor: NULL and nothing allocated, or an event whose blocks
    are the new ones and which holds the pad [p]. *)
Definition new_spec (m : M evmem (option nat)) w (type : zst_event_type_t) (src p : option nat) : Prop :=
  exists r w', m w = Done (r, w') /\
    match r with
    | None => gives [] w w'
    | Some a => exists x, heap_of w' !! a = Some (BEvent (mk_event type src x)) /\ fits type x = true /\ as_pad x = p /\
        gives (a :: as_blocks x) (lift_opt p w) w'
    end.

(** What is stored in the union after the pad is referenced. *)
Definition fills (type : zst_event_type_t) (p : option nat) (fill : M evmem event_as) w : Prop :=
  exists x bs w', fill w = Done (x, w') /\ fits type x = true /\ as_pad x = p /\ as_blocks x = bs /\ gives bs (lift_opt p w) w'.

Lemma fills_builds type fill w : tidy w ->
  builds fill w (fun x bs => fits type x = true /\ as_pad x = None /\ as_blocks x = bs) -> fills type None fill w.
Proof. intros _ (x & bs & w' & E & (? & ? & ?) & G). by exists x, bs, w'. Qed.

Lemma fills_pad type p (fill : option nat -> M evmem event_as) w : pad_at w p ->
  builds (fill p) (lift_opt p w) (fun x bs => fits type x = true /\ as_pad x = p /\ as_blocks x = bs) ->
  fills type p (q ← take_pad_ref p; fill q) w.
Proof.
  intros Hp (x & bs & w' & E & (? & ? & ?) & G). exists x, bs, w'. split; [|done].
  unfold mbind, M_bind. by rewrite take_pad_ref_done.
Qed.

Lemma store_gives a bs w w' b : gives (a :: bs) w w' -> gives (a :: bs) w (put_heap w' (<[a := b]> (heap_of w'))).
Proof.
  intros [Hw ? ? Hnew Hh]. constructor; cbn; [rewrite Hw; done|done|done| |].
  - intros c Hc. unfold heap_of, next_of in *. cbn. destruct (Hnew c Hc) as [? ?]. split; [done|].
    destruct (decide (c = a)) as [->|Hne]; [rewrite lookup_insert_eq; by eexists|by rewrite lookup_insert_ne].
  - change (erase (a :: bs) (<[a := b]> (heap_of w')) = heap_of w). rewrite <- Hh. apply map_eq. intros c. rewrite !erase_lookup.
    destruct (decide (c ∈ a :: bs)) as [|Hc]; [done|]. rewrite lookup_insert_ne; [done|]. intros ->. apply Hc. by left.
Qed.

Lemma event_with_spec type src p fill w : tidy w ->
  (forall w', gives [next_of w] w w' -> tidy w' -> fills type p fill w') -> new_spec (event_with ok type src fill) w type src p.
Proof.
  intros Ht Hf. destruct (builds_malloc (BEvent (mk_event type src AsZero)) w Ht) as (r & bs & w1 & E & -> & G).
  unfold new_spec, event_with, mbind, M_bind. rewrite E. destruct r as [a|]; cbn [here omap list_omap id] in G.
  - assert (a = next_of w) as ->.
    { revert E. unfold malloc. destruct (ok _); [|done]. by intros [= <- _]. }
    destruct (Hf w1 G (gives_tidy _ _ _ G Ht)) as (x & bs & w2 & Ex & Hfit & Hpad & Hbs & G2). rewrite Ex.
    assert (gives ([next_of w] ++ bs) (lift_opt p w) w2) as G3 by (eapply gives_trans; [by apply gives_lift|done]).
    assert (is_Some (heap_of w2 !! next_of w)) as [b Hb] by (apply (gv_new _ _ _ G3); set_solver).
    unfold store. rewrite Hb. do 2 eexists. split; [reflexivity|]. exists x. split; [|split; [done|split; [done|]]].
    + unfold heap_of. cbn. by rewrite lookup_insert_eq.
    + rewrite Hbs. by apply store_gives.
  - do 2 eexists. split; [reflexivity|done].
Qed.

(** A call of a constructor. *)
Inductive event_call :=
| NewPlain (type : zst_event_type_t)
| NewStream (type : zst_event_type_t) (stream : option zst_stream_info_t)
| NewStreamRemoved (stream_id : Z)
| NewError (result : zst_result_t) (message : option nat)
| NewWarning (result : zst_result_t) (message : option nat)
| NewStateChanged (old_state new_state : zst_state_t)
| NewSegment (segment : option zst_segment_t)
| NewPadAdded (pad : option nat) (stream : option zst_stream_info_t)
| NewPadRemoved (pad : option nat) (stream_id : Z)
| NewCapsChanged (pad old_caps new_caps : option nat)
| NewKeyPress (key_sym key_code : Z) (key_str : option nat)
| NewMouseButton (button pressed x y : Z)
| NewMouseMotion (x y : Z)
| NewLocalDescription (type sdp : option nat)
| NewIceCandidate (mid : option nat) (mlineindex : Z) (candidate : option nat)
| NewPli (track_id : Z)
| NewRemb (track_id bitrate : Z)
| NewDanteFlow (created : bool) (flow : option zst_dante_flow_t)
| NewDanteRxStatus (channel_index : Z) (status : zst_dante_tx_channel_status_t).

Definition run_call (src : option nat) (c : event_call) : M evmem (option nat) :=
  match c with
  | NewPlain ZST_EVENT_REDUNDANCY_FAILOVER => zst_event_new_redundancy_failover ok src
  | NewPlain ZST_EVENT_REDUNDANCY_RECOVERY => zst_event_new_redundancy_recovery ok src
  | NewPlain ZST_EVENT_NO_MORE_PADS => zst_event_new_no_more_pads ok src
  | NewPlain ZST_EVENT_CLOCK_SYNC => zst_event_new_clock_sync ok src
  | NewPlain ZST_EVENT_SIGNAL_LOST => zst_event_new_signal_lost ok src
  | NewPlain ZST_EVENT_SIGNAL_PRESENT => zst_event_new_signal_present ok src
  | NewPlain ZST_EVENT_DANTE_CONNECTED => zst_event_new_dante_connected ok src
  | NewPlain ZST_EVENT_DANTE_DISCONNECTED => zst_event_new_dante_disconnected ok src
  | NewPlain ZST_EVENT_DANTE_CONFIGURATION_REQUESTED => zst_event_new_dante_configuration_requested ok src
  | NewPlain _ => zst_event_new_eos ok src
  | NewStream ZST_EVENT_STREAM_ADDED s => zst_event_new_stream_added stale_size ok src s
  | NewStream ZST_EVENT_STREAM_CHANGED s => zst_event_new_stream_changed stale_size ok src s
  | NewStream _ s => zst_event_new_stream_status stale_size ok src s
  | NewStreamRemoved i => zst_event_new_stream_removed ok src i
  | NewError r m => zst_event_new_error ok src r m
  | NewWarning r m => zst_event_new_warning ok src r m
  | NewStateChanged a b => zst_event_new_state_changed ok src a b
  | NewSegment s => zst_event_new_segment ok src s
  | NewPadAdded p s => zst_event_new_pad_added stale_size ok src p s
  | NewPadRemoved p i => zst_event_new_pad_removed ok src p i
  | NewCapsChanged p c d => zst_event_new_caps_changed stale_size ok src p c d
  | NewKeyPress k c s => zst_event_new_key_press ok src k c s
  | NewMouseButton b d x y => zst_event_new_mouse_button ok src b d x y
  | NewMouseMotion x y => zst_event_new_mouse_motion ok src x y
  | NewLocalDescription t s => zst_event_new_webrtc_local_description ok src t s
  | NewIceCandidate m i c => zst_event_new_webrtc_ice_candidate ok src m i c
  | NewPli i => zst_event_new_webrtc_pli ok src i
  | NewRemb i b => zst_event_new_webrtc_remb ok src i b
  | NewDanteFlow true f => zst_event_new_dante_flow_created ok src f
  | NewDanteFlow false f => zst_event_new_dante_flow_deleted ok src f
  | NewDanteRxStatus i s => zst_event_new_dante_rx_channel_status ok src i s
  end.

Definition call_pad (c : event_call) : option nat :=
  match c with NewPadAdded p _ | NewPadRemoved p _ | NewCapsChanged p _ _ => p | _ => None end.

(** The arguments point to what the constructor takes them for. *)
Definition call_ok (c : event_call) w : Prop :=
  pad_at w (call_pad c) /\
  match c with
  | NewStream _ s | NewPadAdded _ s => stream_in w s
  | NewError _ m | NewWarning _ m | NewKeyPress _ _ m => string_at w m
  | NewCapsChanged _ c d => caps_at w c /\ caps_at w d
  | NewLocalDescription s t | NewIceCandidate s _ t => string_at w s /\ string_at w t
  | NewDanteFlow _ (Some f) => string_at w (flow_receiver f) /\ string_at w (flow_multicast f) /\ string_at w (flow_transmitter f)
  | _ => True
  end.

Lemma plain_event_spec type src w : tidy w -> new_spec (plain_event ok type src) w type src None.
Proof.
  intros Ht. apply event_with_spec; [done|]. intros w' G Ht'. apply fills_builds; [done|]. apply builds_ret. by destruct type.
Qed.

Ltac value_spec := apply event_with_spec; [done|]; intros w' G Ht'; apply fills_builds; [done|]; apply builds_ret; done.

Lemma with_stream_spec type src s w : tidy w -> stream_in w s ->
  type ∈ [ZST_EVENT_STREAM_ADDED; ZST_EVENT_STREAM_CHANGED; ZST_EVENT_STREAM_STATUS] ->
  new_spec (with_stream stale_size ok type src s) w type src None.
Proof.
  intros Ht Hs Hin. apply event_with_spec; [done|]. intros w' G Ht'. apply fills_builds; [done|].
  builds_step (apply builds_stream; [done|by eapply stream_later]). apply builds_ret. rewrite app_nil_r.
  split; [|done]. repeat (apply elem_of_cons in Hin as [->|Hin]; [done|]). by apply elem_of_nil in Hin.
Qed.

Lemma message_spec type src m (f : option nat -> event_as) w : tidy w -> string_at w m ->
  (forall r, fits type (f r) = true /\ as_pad (f r) = None /\ as_blocks (f r) = here [r]) ->
  new_spec (event_with ok type src (r ← strdup ok m; mret (f r))) w type src None.
Proof.
  intros Ht Hm Hf. apply event_with_spec; [done|]. intros w' G Ht'. apply fills_builds; [done|].
  builds_step (apply builds_strdup; [done|by eapply string_later]). apply builds_ret. rewrite app_nil_r. apply Hf.
Qed.

Lemma two_strings_spec type src m c (f : option nat -> option nat -> event_as) w : tidy w -> string_at w m -> string_at w c ->
  (forall r q, fits type (f r q) = true /\ as_pad (f r q) = None /\ as_blocks (f r q) = here [r; q]) ->
  new_spec (event_with ok type src (r ← strdup ok m; q ← strdup ok c; mret (f r q))) w type src None.
Proof.
  intros Ht Hm Hc Hf. apply event_with_spec; [done|]. intros w' G Ht'. apply fills_builds; [done|].
  builds_step (apply builds_strdup; [done|by eapply string_later]).
  builds_step (apply builds_strdup; [done|]; by do 2 (eapply string_later; [done|])). apply builds_ret.
  rewrite app_nil_r, <- here_cons. apply Hf.
Qed.

Lemma pad_added_spec src p s w : tidy w -> pad_at w p -> stream_in w s ->
  new_spec (zst_event_new_pad_added stale_size ok src p s) w ZST_EVENT_PAD_ADDED src p.
Proof.
  intros Ht Hp Hs. apply event_with_spec; [done|]. intros w' G Ht'. apply fills_pad; [by eapply pad_later|].
  eapply builds_bind; [by apply tidy_lift|apply builds_stream; [by apply tidy_lift|]|].
  - rewrite stream_lift. by eapply stream_later.
  - cbv beta. intros r ? v -> Gv _. apply builds_ret. by rewrite app_nil_r.
Qed.

Lemma pad_removed_spec src p i w : tidy w -> pad_at w p ->
  new_spec (zst_event_new_pad_removed ok src p i) w ZST_EVENT_PAD_REMOVED src p.
Proof.
  intros Ht Hp. apply event_with_spec; [done|]. intros w' G Ht'. apply fills_pad; [by eapply pad_later|]. by apply builds_ret.
Qed.

Lemma caps_changed_spec src p c d w : tidy w -> pad_at w p -> caps_at w c -> caps_at w d ->
  new_spec (zst_event_new_caps_changed stale_size ok src p c d) w ZST_EVENT_CAPS_CHANGED src p.
Proof.
  intros Ht Hp Hc Hd. apply event_with_spec; [done|]. intros w' G Ht'. apply fills_pad; [by eapply pad_later|].
  eapply builds_bind; [by apply tidy_lift|apply builds_caps; [by apply tidy_lift|]; rewrite caps_lift; by eapply caps_later|].
  cbv beta. intros r ? v -> Gv Hv. builds_step (apply builds_caps; [done|]; eapply caps_later; [done|]; rewrite caps_lift; by eapply caps_later).
  apply builds_ret. by rewrite app_nil_r, <- here_cons.
Qed.

(** ** Releasing blocks *)

Definition live w (bs : list nat) : Prop := NoDup bs /\ forall b, b ∈ bs -> is_Some (heap_of w !! b).

Lemma put_heap_twice w h h' : put_heap (put_heap w h) h' = put_heap w h'.
Proof. done. Qed.
Lemma heap_put w h : heap_of (put_heap w h) = h.
Proof. done. Qed.
Lemma put_heap_same w : put_heap w (heap_of w) = w.
Proof. destruct w as [? ? ? ? ? ? []]. done. Qed.

Lemma free_done q ps w : live w (here (q :: ps)) ->
  free q w = Done (tt, put_heap w (erase (here [q]) (heap_of w))) /\ live (put_heap w (erase (here [q]) (heap_of w))) (here ps).
Proof.
  intros [Hn Hl]. destruct q as [a|]; cbn [here omap list_omap id] in Hn, Hl; fold here in Hn, Hl.
  - apply NoDup_cons in Hn as [Ha Hn]. unfold free. destruct (Hl a) as [b Hb]; [by left|]. rewrite Hb. split; [done|].
    split; [done|]. intros c Hc. unfold heap_of. cbn. rewrite lookup_delete_ne by (intros ->; done). apply Hl. by right.
  - cbn. rewrite put_heap_same. split; [done|]. by split.
Qed.

(** The frees of [ps], one after the other. *)
Fixpoint free_list (ps : list (option nat)) : M evmem unit :=
  match ps with [] => mret tt | [p] => free p | p :: ps => _ ← free p; free_list ps end.

Lemma free_list_done ps w : live w (here ps) -> free_list ps w = Done (tt, put_heap w (erase (here ps) (heap_of w))).
Proof.
  revert w. induction ps as [|q ps IH]; intros w Hl; cbn [free_list]; [by rewrite put_heap_same|].
  destruct (free_done q ps w Hl) as [E Hl']. destruct ps as [|r ps]; [exact E|]. unfold mbind, M_bind. rewrite E. rewrite (IH _ Hl').
  rewrite put_heap_twice, heap_put, (here_cons q (r :: ps)), <- erase_app. by rewrite (erase_swap (here [q])).

Qed.

Lemma gives_live bs w w' : gives bs w w' -> live w' bs.
Proof. intros G. split; [apply G|]. intros b Hb. by apply (gv_new _ _ _ G). Qed.

Lemma erased_gives bs w w' : gives bs w w' -> gives [] w (put_heap w' (erase bs (heap_of w'))).
Proof.
  intros [Hw ? ? ? Hh]. constructor; [rewrite Hw; done|done|constructor|set_solver|]. by rewrite Hh.
Qed.

Lemma copy_flow_spec f w : tidy w -> string_at w (flow_receiver f) -> string_at w (flow_multicast f) -> string_at w (flow_transmitter f) ->
  builds (copy_dante_flow ok f) w (fun r bs => match r with Some g => bs = as_blocks (AsDanteFlow g) | None => bs = [] end).
Proof.
  intros Ht H1 H2 H3. unfold copy_dante_flow.
  destruct (builds_strdup (flow_receiver f) w Ht H1) as (r & b1 & w1 & E1 & -> & G1).
  destruct (builds_strdup (flow_multicast f) w1 (gives_tidy _ _ _ G1 Ht) (string_later _ _ _ _ G1 H2)) as (m & b2 & w2 & E2 & -> & G2).
  pose proof (gives_trans _ _ _ _ _ G1 G2) as G12. rewrite <- here_cons in G12.
  destruct (builds_strdup (flow_transmitter f) w2 (gives_tidy _ _ _ G12 Ht) (string_later _ _ _ _ G12 H3)) as (t & b3 & w3 & E3 & -> & G3).
  pose proof (gives_trans _ _ _ _ _ G12 G3) as G. rewrite <- here_app in G. cbn [app] in G.
  unfold builds. unfold mbind at 1 2 3, M_bind. rewrite E1, E2, E3. cbv zeta. destruct (_ || _).
  - pose proof (free_list_done [r; m; t] w3 (gives_live _ _ _ G)) as Ef. cbn [free_list] in Ef. unfold mbind, M_bind in Ef |- *.
    destruct (free r w3) as [[[] v1]| |]; try discriminate Ef. destruct (free m v1) as [[[] v2]| |]; try discriminate Ef.
    rewrite Ef. do 3 eexists. split; [reflexivity|]. split; [done|]. by apply erased_gives.
  - do 3 eexists. split; [reflexivity|]. split; [done|]. done.
Qed.

Lemma dante_flow_spec src type f w : tidy w -> type ∈ [ZST_EVENT_DANTE_FLOW_CREATED; ZST_EVENT_DANTE_FLOW_DELETED] ->
  call_ok (NewDanteFlow true f) w -> new_spec (new_dante_flow_event ok src type f) w type src None.
Proof.
  intros Ht Hty [_ Hf]. destruct f as [f|]; cbn [new_dante_flow_event].
  2: { do 2 eexists. split; [reflexivity|apply gives_refl]. }
  destruct Hf as (H1 & H2 & H3). destruct (plain_event_spec type src w Ht) as (r & w1 & E & Hr).
  unfold new_spec, new_dante_simple_event, mbind, M_bind. rewrite E. destruct r as [a|].
  2: { do 2 eexists. split; [reflexivity|done]. }
  destruct Hr as (x & Hx & _ & _ & G0). assert (x = AsZero /\ as_blocks x = []) as [-> _].
  { revert E. unfold plain_event, event_with, mbind, M_bind. destruct (malloc _ _ _) as [[[b|] v]| |]; [|discriminate..].
    cbn. unfold store. destruct (_ !! b); [|discriminate]. intros [= -> <-]. revert Hx. unfold heap_of. cbn. rewrite lookup_insert_eq. by intros [= <-]. }
  cbn in G0. pose proof (gives_tidy _ _ _ G0 Ht) as Ht1.
  destruct (copy_flow_spec f w1 Ht1) as (c & bs & w2 & Ec & Hc & G); [by eapply string_later..|]. rewrite Ec.
  pose proof (gives_trans _ _ _ _ _ G0 G) as G2. destruct c as [g|]; subst bs.
  - destruct (gv_new _ _ _ G2 a) as [_ [b Hb]]; [set_solver|]. unfold store. rewrite Hb. do 2 eexists. split; [reflexivity|].
    exists (AsDanteFlow g). split; [unfold heap_of; cbn; by rewrite lookup_insert_eq|]. split; [|split; [done|]].
    + repeat (apply elem_of_cons in Hty as [->|Hty]; [done|]). by apply elem_of_nil in Hty.
    + cbn [lift_opt]. by apply store_gives.
  - destruct (free_done (Some a) [] w2) as [Ef _]; [by eapply gives_live|]. rewrite Ef. do 2 eexists. split; [reflexivity|].
    by apply (erased_gives [a]).
Qed.

Lemma dante_rx_spec src i st w : tidy w ->
  new_spec (zst_event_new_dante_rx_channel_status ok src i st) w ZST_EVENT_DANTE_RX_CHANNEL_STATUS src None.
Proof.
  intros Ht. destruct (plain_event_spec ZST_EVENT_DANTE_RX_CHANNEL_STATUS src w Ht) as (r & w1 & E & Hr).
  unfold new_spec, zst_event_new_dante_rx_channel_status, new_dante_simple_event, mbind, M_bind. rewrite E. destruct r as [a|].
  2: { do 2 eexists. split; [reflexivity|done]. }
  destruct Hr as (x & Hx & Hfit & Hp & G0). unfold store. rewrite Hx. do 2 eexists. split; [reflexivity|].
  eexists. split; [unfold heap_of; cbn; by rewrite lookup_insert_eq|]. split; [done|]. split; [done|].
  assert (as_blocks x = []) as Eb by by destruct x. rewrite Eb in G0. by apply store_gives.
Qed.

Lemma key_press_spec src k c s w : tidy w -> string_at w s ->
  new_spec (zst_event_new_key_press ok src k c s) w ZST_EVENT_KEY_PRESS src None.
Proof.
  intros Ht Hs. apply event_with_spec; [done|]. intros w' G Ht'. apply fills_builds; [done|].
  pose proof (string_later _ _ _ _ G Hs) as Hs'. destruct s as [a|]; [|by apply builds_ret]. destruct Hs' as [s Hs'].
  unfold mbind, M_bind, builds, load. rewrite Hs'. by apply builds_ret.
Qed.

Definition call_type (c : event_call) : zst_event_type_t :=
  match c with
  | NewPlain ((ZST_EVENT_REDUNDANCY_FAILOVER | ZST_EVENT_REDUNDANCY_RECOVERY | ZST_EVENT_NO_MORE_PADS | ZST_EVENT_CLOCK_SYNC
      | ZST_EVENT_SIGNAL_LOST | ZST_EVENT_SIGNAL_PRESENT | ZST_EVENT_DANTE_CONNECTED | ZST_EVENT_DANTE_DISCONNECTED
      | ZST_EVENT_DANTE_CONFIGURATION_REQUESTED) as t) => t
  | NewPlain _ => ZST_EVENT_EOS
  | NewStream ((ZST_EVENT_STREAM_ADDED | ZST_EVENT_STREAM_CHANGED) as t) _ => t
  | NewStream _ _ => ZST_EVENT_STREAM_STATUS
  | NewStreamRemoved _ => ZST_EVENT_STREAM_REMOVED
  | NewError _ _ => ZST_EVENT_ERROR
  | NewWarning _ _ => ZST_EVENT_WARNING
  | NewStateChanged _ _ => ZST_EVENT_STATE_CHANGED
  | NewSegment _ => ZST_EVENT_SEGMENT
  | NewPadAdded _ _ => ZST_EVENT_PAD_ADDED
  | NewPadRemoved _ _ => ZST_EVENT_PAD_REMOVED
  | NewCapsChanged _ _ _ => ZST_EVENT_CAPS_CHANGED
  | NewKeyPress _ _ _ => ZST_EVENT_KEY_PRESS
  | NewMouseButton _ _ _ _ => ZST_EVENT_MOUSE_BUTTON
  | NewMouseMotion _ _ => ZST_EVENT_MOUSE_MOTION
  | NewLocalDescription _ _ => ZST_EVENT_WEBRTC_LOCAL_DESCRIPTION
  | NewIceCandidate _ _ _ => ZST_EVENT_WEBRTC_ICE_CANDIDATE
  | NewPli _ => ZST_EVENT_WEBRTC_PLI
  | NewRemb _ _ => ZST_EVENT_WEBRTC_REMB
  | NewDanteFlow created _ => if created then ZST_EVENT_DANTE_FLOW_CREATED else ZST_EVENT_DANTE_FLOW_DELETED
  | NewDanteRxStatus _ _ => ZST_EVENT_DANTE_RX_CHANNEL_STATUS
  end.

Lemma run_call_spec src c w : tidy w -> call_ok c w -> new_spec (run_call src c) w (call_type c) src (call_pad c).
Proof.
  intros Ht [Hp Hc]. destruct c as [t|t s|i|r m|r m|a b|s|p s|p i|p c d|k c s|b d x y|x y|t s|m i c|i|i b|created f|i st];
    cbn [call_pad call_type run_call] in *; try solve [value_spec].
  - destruct t; apply plain_event_spec; done.
  - destruct t; apply with_stream_spec; try done; set_solver.
  - by apply message_spec.
  - by apply message_spec.
  - apply event_with_spec; [done|]. intros w' G Ht'. apply fills_builds; [done|]. apply builds_ret. by destruct s.
  - by apply pad_added_spec.
  - by apply pad_removed_spec.
  - destruct Hc. by apply caps_changed_spec.
  - by apply key_press_spec.
  - destruct Hc. by apply two_strings_spec.
  - destruct Hc. apply two_strings_spec; try done. 
  - destruct created; (apply dante_flow_spec; [done|set_solver|]); by split.
  - by apply dante_rx_spec.
Qed.

(** ** Destruction *)

(** Steps that leave the heap of the events alone. *)
Definition quiet {A} (m : M evmem A) : Prop := forall w a w', m w = Done (a, w') -> w_user w' = w_user w.

Lemma quiet_bind {A B} (m : M evmem A) (k : A -> M evmem B) : quiet m -> (forall a, quiet (k a)) -> quiet (m ≫= k).
Proof.
  intros Hm Hk w b w' E. unfold mbind, M_bind in E. destruct (m w) as [[a w1]| |] eqn:Em; try discriminate E.
  rewrite (Hk a w1 b w' E). by apply (Hm w a).
Qed.
Lemma quiet_ret {A} (a : A) : quiet (mret a).
Proof. by intros w b w' [= _ <-]. Qed.
Lemma quiet_get p : quiet (get_pad p).
Proof. intros w a w'. unfold get_pad. destruct (w_pads w !! p); [|discriminate]. by intros [= _ <-]. Qed.
Lemma quiet_set p x : quiet (set_pad p x).
Proof. by intros w a w' [= _ <-]. Qed.

Lemma quiet_finalize unref p : (forall q, quiet (unref q)) -> quiet (zst_pad_finalize unref p).
Proof.
  intros Hu. unfold zst_pad_finalize, modify_pad. repeat (apply quiet_bind; [|intros ?]); try apply quiet_get; try apply quiet_set.
  - destruct (pad_peer a) as [q|]; [|apply quiet_ret]. apply quiet_bind; [apply quiet_get|]. intros y.
    destruct (decide _); [apply quiet_set|apply quiet_ret].
  - destruct (pad_private a2); try apply quiet_ret. apply quiet_bind; [by case_match; [apply Hu|apply quiet_ret]|]. intros _.
    apply quiet_bind; [apply quiet_get|]. intros ?. apply quiet_set.
  - by intros w b w' [= _ <-].
Qed.

Lemma quiet_unref n p : quiet (unref_pad n p).
Proof.
  revert p. induction n as [|n IH]; intros p; [by intros w a w'|]. cbn [unref_pad].
  repeat (apply quiet_bind; [|intros ?]); try apply quiet_get; try apply quiet_set.
  destruct (_ =? 1); [by apply quiet_finalize|apply quiet_ret].
Qed.

Lemma unref_user p w w' : drop_pad_ref p w = Done (tt, w') -> w_user w' = w_user w.
Proof. destruct p as [q|]; cbn [drop_pad_ref]; [apply quiet_unref|by intros [= <-]]. Qed.

Lemma bind_result {A B} (m : M evmem A) (k : A -> M evmem B) w a w' : m w = Done (a, w') -> (m ≫= k) w = k a w'.
Proof. intros E. unfold mbind, M_bind. by rewrite E. Qed.

Lemma bind_bind_done {A B C} (m : M evmem A) (k : A -> M evmem B) (f : B -> M evmem C) w a w' :
  m w = Done (a, w') -> ((m ≫= k) ≫= f) w = (k a ≫= f) w'.
Proof. intros E. unfold mbind, M_bind. by rewrite E. Qed.

Lemma event_destroy_spec a e v v1 : heap_of v !! a = Some (BEvent e) -> fits (ev_type e) (ev_as e) = true ->
  live v (a :: as_blocks (ev_as e)) -> drop_pad_ref (as_pad (ev_as e)) v = Done (tt, v1) ->
  zst_event_destroy (Some a) v = Done (tt, put_heap v1 (erase (a :: as_blocks (ev_as e)) (heap_of v))).
Proof.
  intros Ha Hfit Hl Hu. pose proof (unref_user _ _ _ Hu) as Hus. assert (heap_of v1 = heap_of v) as Hh by (unfold heap_of; by rewrite Hus).
  assert (forall ps, here ps = as_blocks (ev_as e) ->
    (_ ← free_list ps; free (Some a)) v1 = Done (tt, put_heap v1 (erase (a :: as_blocks (ev_as e)) (heap_of v)))) as Hfree.
  { intros ps Hps. rewrite <- Hps in *. destruct Hl as [[Hna Hn]%NoDup_cons Hl].
    erewrite bind_result; [|apply free_list_done; split; [done|]; intros b Hb; rewrite Hh; apply Hl; by right].
    destruct (free_done (Some a) [] (put_heap v1 (erase (here ps) (heap_of v1)))) as [Ef _].
    - split; [apply NoDup_singleton|]. intros b ->%list_elem_of_singleton. rewrite heap_put, erase_lookup, decide_False by done.
      rewrite Hh. apply Hl. by left.
    - rewrite Ef, put_heap_twice, heap_put, Hh. done. }
  unfold zst_event_destroy. erewrite bind_result; [|unfold load; by rewrite Ha]. cbv beta match.
  destruct e as [t src x]. cbn [ev_type ev_as] in *.
  destruct t; destruct x; try discriminate Hfit; cbn [as_pad as_blocks drop_pad_ref] in *;
    try (injection Hu as <-); try (erewrite bind_bind_done; [|exact Hu]); try (erewrite bind_result; [|exact Hu]);
    first [exact (Hfree [] eq_refl)|exact (Hfree [_] eq_refl)|exact (Hfree [_; _] eq_refl)|exact (Hfree [_; _; _] eq_refl)].
Qed.

(** ** The life of an event *)

Lemma erase_lookup_some bs h (a : nat) b : erase bs h !! a = Some b -> h !! a = Some b.
Proof. rewrite erase_lookup. by destruct (decide _). Qed.

(** The new blocks are the ones that were not there. *)
Lemma gives_new bs w w' p b : gives bs (lift_opt p w) w' ->
  b ∈ bs <-> (heap_of w !! b = None /\ is_Some (heap_of w' !! b)).
Proof.
  intros G. pose proof (gv_heap _ _ _ G) as Hh. rewrite heap_lift_opt in Hh. rewrite <- Hh, erase_lookup.
  destruct (decide (b ∈ bs)) as [Hb|Hb]; split; try done.
  - intros _. split; [done|]. by apply (gv_new _ _ _ G).
  - intros [Hn [x Hx]]. congruence.
Qed.

(** C28. An event constructor with any allocations failing returns NULL having left nothing
    behind, or an event: the caller's blocks are untouched, the pad given has one
    reference more, and destroying the event, at any later time at which its own blocks
    are as they were built, takes one reference from the pad and frees exactly the
    blocks the constructor allocated. *)
Theorem event_lifetime src c w : tidy w -> call_ok c w ->
  exists r w1, run_call src c w = Done (r, w1) /\
  match r with
  | None => heap_of w1 = heap_of w /\ w_pads w1 = w_pads w
  | Some a =>
      (forall b x, heap_of w !! b = Some x -> heap_of w1 !! b = Some x) /\
      w_pads w1 = w_pads (lift_opt (call_pad c) w) /\
      forall v v', (forall b, heap_of w !! b = None -> is_Some (heap_of w1 !! b) -> heap_of v !! b = heap_of w1 !! b) ->
        drop_pad_ref (call_pad c) v = Done (tt, v') ->
        exists v'', zst_event_destroy (Some a) v = Done (tt, v'') /\ w_pads v'' = w_pads v' /\
          forall b, heap_of v'' !! b =
            (if decide (heap_of w !! b = None /\ is_Some (heap_of w1 !! b)) then None else heap_of v !! b)
  end.
Proof.
  intros Ht Hc. destruct (run_call_spec src c w Ht Hc) as (r & w1 & E & Hr). exists r, w1. split; [done|].
  destruct r as [a|]; [|split; [exact (gv_heap _ _ _ Hr)|by rewrite (gv_world _ _ _ Hr)]].
  destruct Hr as (x & Ha & Hfit & Hpad & G). pose proof (gives_new _ _ _ _ a G) as Hnew.
  split; [intros b y Hb; eapply gives_old; [done|]; by rewrite heap_lift_opt|]. split; [by rewrite (gv_world _ _ _ G)|].
  intros v v' Hv Hu.
  assert (forall b, b ∈ a :: as_blocks x -> heap_of v !! b = heap_of w1 !! b) as Hin.
  { intros b Hb. apply (gives_new _ _ _ _ b G) in Hb as [? ?]. by apply Hv. }
  eexists. split; [apply (event_destroy_spec a (mk_event (call_type c) src x) v v'); cbn [ev_type ev_as]|].
  - rewrite Hin by (by left). done.
  - done.
  - split; [apply G|]. intros b Hb. rewrite Hin by done. by apply (gv_new _ _ _ G).
  - by rewrite Hpad.
  - split; [done|]. intros b. rewrite heap_put, erase_lookup. cbn [ev_as].
    pose proof (gives_new _ _ _ _ b G) as Hb. destruct (decide (b ∈ _)), (decide (_ /\ _)); tauto.
Qed.
End spec.

(** A pad's announcement with a stream's name and capabilities; the copy of the name fails. *)
Definition example_world : world evmem :=
  mk_world 6 {[5%nat := new_pad (H := ample_memory) (Some "video_0") ZST_PAD_SRC]} ∅ ∅ [] []
    (mk_evmem 10 {[0%nat := BString "camera"; 1%nat := BCaps []]}).
Definition example_call : event_call :=
  NewPadAdded (Some 5%nat) (Some (with_pointers stream_zero (Some 0%nat) (Some 0%nat) (Some 1%nat))).

Lemma example_tidy : tidy example_world.
Proof.
  intros a [b Hb]. unfold heap_of in Hb. cbn [w_user example_world em_heap] in Hb. unfold next_of. cbn. destruct (decide (a = 0%nat)) as [->|]; [lia|].
  destruct (decide (a = 1%nat)) as [->|]; [lia|]. rewrite lookup_insert_ne, lookup_singleton_ne in Hb by done. done.
Qed.

Lemma event_lifetime_witness :
  exists r w1, run_call (H := ample_memory) (fun _ => 0) (fun k => negb (k =? 11)%nat) (Some 3%nat) example_call example_world = Done (r, w1) /\
    r = Some 10%nat /\ heap_of w1 !! 12%nat = Some (BString "camera").
Proof.
  destruct (event_lifetime (H := ample_memory) (fun _ => 0) (fun k => negb (k =? 11)%nat) (Some 3%nat) example_call example_world
    example_tidy ltac:(split; [by eexists|repeat split; by eexists])) as (r & w1 & E & _).
  exists r, w1. split; [exact E|]. vm_compute in E. injection E as <- <-. by split.
Defined.
