(* ===== verification/Twcc.v ===== *)
(** * Transport-wide congestion control: [src/zst_webrtc_twcc.c]

    The header extension put on outgoing RTP packets, the parser of the receiver's
    feedback, the two estimators of the bit rate and their combination, and the two
    functions that work on SDP texts.  Single-precision arithmetic is the standard
    library's [spec_float] at 24 bits, every operation rounded to nearest even (no
    contraction to fused operations).  The clock's reading is an argument; each call is
    one step.  A text is a list of characters without its final 0. *)

From Stdlib Require Import Ascii String SpecFloat.
From S2P Require Import Prelude CLib Pad.

Local Open Scope Z_scope.

(** ** Single precision *)

Definition cfloat := spec_float.
Definition f_zero : cfloat := S754_zero false.
Definition f_add (a b : cfloat) : cfloat := SFadd 24 128 a b.
Definition f_sub (a b : cfloat) : cfloat := SFsub 24 128 a b.
Definition f_mul (a b : cfloat) : cfloat := SFmul 24 128 a b.
Definition f_div (a b : cfloat) : cfloat := SFdiv 24 128 a b.
Definition f_lt (a b : cfloat) : bool := SFltb a b.
Definition f_of_Z (z : Z) : cfloat := binary_normalize 24 128 z 0 false.
Definition f_const (m : positive) (e : Z) : cfloat := S754_finite false m e.

(** [(uint64_t)x], for [x] in the range of the type. *)
Definition f_to_u64 (x : cfloat) : Z :=
  match x with
  | S754_finite s m e => let v := Z.shiftl (Zpos m) e in u64 (if s then - v else v)
  | _ => 0
  end.

(** ** Constants *)

Definition TWCC_HISTORY_SIZE : Z := 8192.
Definition TWCC_MIN_BITRATE : Z := 100000.
Definition TWCC_MAX_BITRATE : Z := 8000000.
Definition TWCC_INIT_BITRATE : Z := 2000000.
Definition TWCC_UPDATE_INTERVAL_US : Z := 100000.

Definition f_one : cfloat := f_const 8388608 (-23).
Definition GCC_GAMMA : cfloat := f_const 15099494 (-24).
Definition GCC_OVERUSE_TH : cfloat := f_const 13107200 (-20).
Definition GCC_BETA : cfloat := f_const 14260634 (-24).
Definition GCC_ALPHA_INC : cfloat := f_const 10737418 (-27).
Definition f_0_01 : cfloat := f_const 10737418 (-30).
Definition f_0_1 : cfloat := f_const 13421773 (-27).
Definition f_0_02 : cfloat := f_const 10737418 (-29).
Definition f_0_5 : cfloat := f_const 8388608 (-24).
Definition f_0_8 : cfloat := f_const 13421773 (-24).
Definition f_1_05 : cfloat := f_const 8808038 (-23).
Definition f_6 : cfloat := f_const 12582912 (-21).
Definition f_600 : cfloat := f_const 9830400 (-14).
Definition f_1000 : cfloat := f_const 16384000 (-14).

(** ** State *)

Inductive twcc_bw_state_t := TWCC_STATE_NORMAL | TWCC_STATE_UNDERUSE | TWCC_STATE_OVERUSE.

Record twcc_sent_packet_t := mk_sent { sent_seq_num : Z; sent_send_time_us : Z; sent_packet_size : Z }.

(** [tw_posted]: the bit rates of the events posted, [tw_pc_id] being their track. *)
Record zst_webrtc_twcc := mk_twcc {
  tw_pc_id : Z;
  tw_extmap_id : Z;
  tw_seq_num : Z;
  tw_history : gmap Z twcc_sent_packet_t;
  tw_delay_gradient : cfloat;
  tw_delay_threshold : cfloat;
  tw_bw_state : twcc_bw_state_t;
  tw_last_recv_time_us : Z;
  tw_last_send_time_us : Z;
  tw_have_prev_ref : bool;
  tw_loss_rate : cfloat;
  tw_delay_estimate_bps : Z;
  tw_loss_estimate_bps : Z;
  tw_current_bitrate_bps : Z;
  tw_last_update_us : Z;
  tw_last_emitted_bps : Z;
  tw_posted : list Z;
}.

(** A slot of the history that was not written holds zeroes. *)
Definition history_at (t : zst_webrtc_twcc) (idx : Z) : twcc_sent_packet_t := default (mk_sent 0 0 0) (tw_history t !! idx).

Definition with_extmap (t : zst_webrtc_twcc) (id : Z) : zst_webrtc_twcc :=
  mk_twcc (tw_pc_id t) id (tw_seq_num t) (tw_history t) (tw_delay_gradient t) (tw_delay_threshold t) (tw_bw_state t)
    (tw_last_recv_time_us t) (tw_last_send_time_us t) (tw_have_prev_ref t) (tw_loss_rate t) (tw_delay_estimate_bps t)
    (tw_loss_estimate_bps t) (tw_current_bitrate_bps t) (tw_last_update_us t) (tw_last_emitted_bps t) (tw_posted t).
Definition with_sent (t : zst_webrtc_twcc) (seq : Z) (history : gmap Z twcc_sent_packet_t) : zst_webrtc_twcc :=
  mk_twcc (tw_pc_id t) (tw_extmap_id t) seq history (tw_delay_gradient t) (tw_delay_threshold t) (tw_bw_state t)
    (tw_last_recv_time_us t) (tw_last_send_time_us t) (tw_have_prev_ref t) (tw_loss_rate t) (tw_delay_estimate_bps t)
    (tw_loss_estimate_bps t) (tw_current_bitrate_bps t) (tw_last_update_us t) (tw_last_emitted_bps t) (tw_posted t).
Definition with_delay (t : zst_webrtc_twcc) (gradient threshold : cfloat) (state : twcc_bw_state_t) : zst_webrtc_twcc :=
  mk_twcc (tw_pc_id t) (tw_extmap_id t) (tw_seq_num t) (tw_history t) gradient threshold state
    (tw_last_recv_time_us t) (tw_last_send_time_us t) (tw_have_prev_ref t) (tw_loss_rate t) (tw_delay_estimate_bps t)
    (tw_loss_estimate_bps t) (tw_current_bitrate_bps t) (tw_last_update_us t) (tw_last_emitted_bps t) (tw_posted t).
Definition with_prev (t : zst_webrtc_twcc) (recv send : Z) : zst_webrtc_twcc :=
  mk_twcc (tw_pc_id t) (tw_extmap_id t) (tw_seq_num t) (tw_history t) (tw_delay_gradient t) (tw_delay_threshold t) (tw_bw_state t)
    recv send true (tw_loss_rate t) (tw_delay_estimate_bps t)
    (tw_loss_estimate_bps t) (tw_current_bitrate_bps t) (tw_last_update_us t) (tw_last_emitted_bps t) (tw_posted t).
Definition with_delay_estimate (t : zst_webrtc_twcc) (bps : Z) : zst_webrtc_twcc :=
  mk_twcc (tw_pc_id t) (tw_extmap_id t) (tw_seq_num t) (tw_history t) (tw_delay_gradient t) (tw_delay_threshold t) (tw_bw_state t)
    (tw_last_recv_time_us t) (tw_last_send_time_us t) (tw_have_prev_ref t) (tw_loss_rate t) bps
    (tw_loss_estimate_bps t) (tw_current_bitrate_bps t) (tw_last_update_us t) (tw_last_emitted_bps t) (tw_posted t).
Definition with_loss (t : zst_webrtc_twcc) (rate : cfloat) (bps : Z) : zst_webrtc_twcc :=
  mk_twcc (tw_pc_id t) (tw_extmap_id t) (tw_seq_num t) (tw_history t) (tw_delay_gradient t) (tw_delay_threshold t) (tw_bw_state t)
    (tw_last_recv_time_us t) (tw_last_send_time_us t) (tw_have_prev_ref t) rate (tw_delay_estimate_bps t)
    bps (tw_current_bitrate_bps t) (tw_last_update_us t) (tw_last_emitted_bps t) (tw_posted t).
Definition with_update (t : zst_webrtc_twcc) (current updated emitted : Z) (posted : list Z) : zst_webrtc_twcc :=
  mk_twcc (tw_pc_id t) (tw_extmap_id t) (tw_seq_num t) (tw_history t) (tw_delay_gradient t) (tw_delay_threshold t) (tw_bw_state t)
    (tw_last_recv_time_us t) (tw_last_send_time_us t) (tw_have_prev_ref t) (tw_loss_rate t) (tw_delay_estimate_bps t)
    (tw_loss_estimate_bps t) current updated emitted posted.

Definition zst_webrtc_twcc_create (alloc_ok : bool) (now_us pc_id : Z) : option zst_webrtc_twcc :=
  if alloc_ok then
    Some (mk_twcc pc_id (-1) 1 ∅ f_zero GCC_OVERUSE_TH TWCC_STATE_NORMAL 0 0 false f_zero TWCC_INIT_BITRATE TWCC_INIT_BITRATE
      TWCC_INIT_BITRATE now_us 0 [])
  else None.

Definition twcc_clamp_bps (bps : Z) : Z :=
  if bps <? TWCC_MIN_BITRATE then TWCC_MIN_BITRATE
  else if TWCC_MAX_BITRATE <? bps then TWCC_MAX_BITRATE else bps.

(** ** The delay-based estimator *)

Definition gcc_delay_update (t : zst_webrtc_twcc) (delta_delay_ms : cfloat) : zst_webrtc_twcc :=
  let gradient := f_add (f_mul GCC_GAMMA (tw_delay_gradient t)) (f_mul (f_sub f_one GCC_GAMMA) delta_delay_ms) in
  let abs_grad := SFabs gradient in
  let threshold := tw_delay_threshold t in
  let threshold :=
    if f_lt threshold abs_grad then f_add threshold (f_mul f_0_01 (f_sub abs_grad threshold))
    else f_sub threshold (f_mul (f_mul f_0_01 f_0_1) threshold) in
  let threshold := if f_lt threshold f_6 then f_6 else threshold in
  let threshold := if f_lt f_600 threshold then f_600 else threshold in
  with_delay t gradient threshold
    (if f_lt threshold gradient then TWCC_STATE_OVERUSE
     else if f_lt gradient (SFopp threshold) then TWCC_STATE_UNDERUSE else TWCC_STATE_NORMAL).

Definition gcc_delay_adapt (t : zst_webrtc_twcc) : zst_webrtc_twcc :=
  let bps := tw_delay_estimate_bps t in
  with_delay_estimate t (twcc_clamp_bps
    match tw_bw_state t with
    | TWCC_STATE_OVERUSE => f_to_u64 (f_mul (f_of_Z bps) GCC_BETA)
    | TWCC_STATE_NORMAL => u64 (bps + f_to_u64 (f_mul (f_of_Z bps) GCC_ALPHA_INC))
    | TWCC_STATE_UNDERUSE => bps
    end).

(** ** The loss-based estimator *)

Definition gcc_loss_adapt (t : zst_webrtc_twcc) (loss_rate : cfloat) : zst_webrtc_twcc :=
  let rate := f_add (f_mul f_0_5 (tw_loss_rate t)) (f_mul f_0_5 loss_rate) in
  let bps := tw_loss_estimate_bps t in
  with_loss t rate (twcc_clamp_bps
    (if f_lt f_0_1 rate then f_to_u64 (f_mul (f_of_Z bps) f_0_8)
     else if f_lt f_0_02 rate then bps
     else f_to_u64 (f_mul (f_of_Z bps) f_1_05))).

(** ** Feedback *)

(** Room for one more status: [status_count] of them are announced, the array holds 1024. *)
Definition room (status_count : Z) (statuses : list Z) : bool := (zlen statuses <? status_count) && (zlen statuses <? 1024).

Fixpoint put_run (status_count : Z) (run : nat) (st : Z) (statuses : list Z) : list Z :=
  match run with
  | O => statuses
  | S run => if room status_count statuses then put_run status_count run st (statuses ++ [st]) else statuses
  end.

(** Symbols [i], [i + 1], ..., [i + n - 1] of a vector chunk. *)
Fixpoint put_symbols (status_count : Z) (n : nat) (i sym_size chunk : Z) (statuses : list Z) : list Z :=
  match n with
  | O => statuses
  | S n =>
      if room status_count statuses then
        let shift := if sym_size =? 1 then 13 - i else 12 - i * 2 in
        let st := Z.land (Z.shiftr chunk shift) (Z.shiftl 1 sym_size - 1) in
        put_symbols status_count n (i + 1) sym_size chunk (statuses ++ [st])
      else statuses
  end.

Definition put_chunk (status_count chunk : Z) (statuses : list Z) : list Z :=
  if Z.land chunk 32768 =? 0 then
    put_run status_count (Z.to_nat (Z.land chunk 8191)) (Z.land (Z.shiftr chunk 13) 3) statuses
  else
    let sym_size := if negb (Z.land chunk 16384 =? 0) then 2 else 1 in
    put_symbols status_count (if sym_size =? 1 then 14 else 7) 0 sym_size chunk statuses.

(** The chunks from [offset]; each takes two bytes, so [size] rounds are enough. *)
Fixpoint parse_chunks (rounds : nat) (msg : bytes) (size status_count offset : Z) (statuses : list Z) : Z * list Z :=
  match rounds with
  | O => (offset, statuses)
  | S rounds =>
      if (offset + 2 <=? size) && room status_count statuses then
        let chunk := be16 (rd msg offset) (rd msg (offset + 1)) in
        parse_chunks rounds msg size status_count (offset + 2) (put_chunk status_count chunk statuses)
      else (offset, statuses)
  end.

Record feedback := mk_feedback { fb_lost : Z; fb_received : Z; fb_deltas : list cfloat }.

(** The arrival time of the next received packet, and where its delta ends; [None]
    when the message ends before. *)
Definition read_delta (msg : bytes) (size st offset recv_time : Z) : option (Z * Z) :=
  if st =? 1 then
    if size <? offset + 1 then None else Some (u64 (recv_time + u64 (rd msg offset) * 250), offset + 1)
  else
    if size <? offset + 2 then None
    else Some (u64 (recv_time + u64 (u64 (s16 (be16 (rd msg offset) (rd msg (offset + 1)))) * 250)), offset + 2).

(** The delay's change since the previous packet found in the history. *)
Definition note_arrival (t : zst_webrtc_twcc) (seq recv_time : Z) (deltas : list cfloat) : zst_webrtc_twcc * list cfloat :=
  let h := history_at t (seq mod TWCC_HISTORY_SIZE) in
  if (sent_seq_num h =? seq) && negb (sent_send_time_us h =? 0) then
    let deltas :=
      if tw_have_prev_ref t && (zlen deltas <? 64) then
        let send_delta := s64 (sent_send_time_us h - tw_last_send_time_us t) in
        let recv_delta := s64 (recv_time - tw_last_recv_time_us t) in
        deltas ++ [f_div (f_of_Z (s64 (recv_delta - send_delta))) f_1000]
      else deltas in
    (with_prev t recv_time (sent_send_time_us h), deltas)
  else (t, deltas).

Fixpoint parse_deltas (msg : bytes) (size base_seq : Z) (statuses : list Z) (i offset recv_time : Z) (t : zst_webrtc_twcc) (fb : feedback)
    : zst_webrtc_twcc * feedback :=
  match statuses with
  | [] => (t, fb)
  | st :: statuses =>
      let seq := u16 (base_seq + u16 i) in
      if st =? 0 then
        parse_deltas msg size base_seq statuses (i + 1) offset recv_time t (mk_feedback (fb_lost fb + 1) (fb_received fb) (fb_deltas fb))
      else
        let fb := mk_feedback (fb_lost fb) (fb_received fb + 1) (fb_deltas fb) in
        match read_delta msg size st offset recv_time with
        | None => (t, fb)
        | Some (recv_time, offset) =>
            let '(t, deltas) := note_arrival t seq recv_time (fb_deltas fb) in
            parse_deltas msg size base_seq statuses (i + 1) offset recv_time t (mk_feedback (fb_lost fb) (fb_received fb) deltas)
        end
  end.

(** The bit rate is taken anew, and posted when it changed enough. *)
Definition gcc_update (t : zst_webrtc_twcc) (now_us : Z) (event_ok : bool) (fb : feedback) : zst_webrtc_twcc :=
  if u64 (now_us - tw_last_update_us t) <? TWCC_UPDATE_INTERVAL_US then t
  else
    let total := fb_lost fb + fb_received fb in
    let lr := if 0 <? total then f_div (f_of_Z (fb_lost fb)) (f_of_Z total) else f_zero in
    let t := gcc_delay_adapt (gcc_loss_adapt t lr) in
    let combined :=
      if tw_delay_estimate_bps t <? tw_loss_estimate_bps t then tw_delay_estimate_bps t else tw_loss_estimate_bps t in
    let prev := tw_last_emitted_bps t in
    let diff := if prev <? combined then combined - prev else prev - combined in
    if (prev =? 0) || (3 <? u64 (diff * 100) / prev) then
      with_update t combined now_us combined (if event_ok then tw_posted t ++ [u32 combined] else tw_posted t)
    else with_update t combined now_us prev (tw_posted t).

Definition twcc_parse_ccfb (t : zst_webrtc_twcc) (now_us : Z) (event_ok : bool) (msg : bytes) (size : Z) : zst_webrtc_twcc :=
  if size <? 20 then t
  else
    let base_seq := be16 (rd msg 12) (rd msg 13) in
    let status_count := be16 (rd msg 14) (rd msg 15) in
    let ref_time_64ms := Z.lor (Z.lor (Z.shiftl (rd msg 16) 16) (Z.shiftl (rd msg 17) 8)) (rd msg 18) in
    let recv_ref_us := u64 (ref_time_64ms * 64000) in
    if status_count =? 0 then t
    else
      let '(offset, statuses) := parse_chunks (Z.to_nat size) msg size status_count 20 [] in
      let '(t, fb) := parse_deltas msg size base_seq statuses 0 offset recv_ref_us t (mk_feedback 0 0 []) in
      gcc_update (fold_left gcc_delay_update (fb_deltas fb) t) now_us event_ok fb.

(** The message itself is handed on as it is. *)
Definition zst_webrtc_twcc_process_incoming (t : zst_webrtc_twcc) (now_us : Z) (event_ok : bool) (msg : bytes) (size : Z)
    : zst_webrtc_twcc :=
  if size <? 4 then t
  else
    let pt := rd msg 1 in
    if (192 <=? pt) && (pt <=? 223) && (pt =? 205) && (Z.land (rd msg 0) 31 =? 15) then twcc_parse_ccfb t now_us event_ok msg size
    else t.

(** ** Outgoing packets *)

(** The new message, or [None] for the one given. *)
Definition zst_webrtc_twcc_process_outgoing (t : zst_webrtc_twcc) (now_us : Z) (msg : bytes) (size : Z)
    : zst_webrtc_twcc * option bytes :=
  if tw_extmap_id t <? 0 then (t, None)
  else if size <? 12 then (t, None)
  else if negb (Z.land (Z.shiftr (rd msg 0) 6) 3 =? 2) then (t, None)
  else
    let pt := Z.land (rd msg 1) 127 in
    if (64 <=? pt) && (pt <=? 95) then (t, None)
    else
      let x := Z.land (Z.shiftr (rd msg 0) 4) 1 in
      let csrc_len := Z.land (rd msg 0) 15 * 4 in
      if size <? 12 + csrc_len then (t, None)
      else if negb (x =? 0) then (t, None)
      else if 2048 <? size + 8 then (t, None)
      else
        let my_seq := tw_seq_num t in
        let t := with_sent t (u16 (my_seq + 1)) (<[my_seq mod TWCC_HISTORY_SIZE := mk_sent my_seq now_us size]> (tw_history t)) in
        let hdr_len := 12 + csrc_len in
        let header :=
          match sub_bytes 0 hdr_len msg with
          | b :: rest => u8 (Z.lor b 16) :: rest
          | [] => []
          end in
        let extension :=
          [190; 222; 0; 1; u8 (Z.lor (Z.shiftl (tw_extmap_id t) 4) 1); Z.land (Z.shiftr my_seq 8) 255; Z.land my_seq 255; 0] in
        (t, Some (header ++ extension ++ sub_bytes hdr_len (size - hdr_len) msg)).

(** ** Session descriptions *)

Definition chars (s : string) : list ascii := list_ascii_of_string s.
Definition nl : ascii := "010".
Definition cr : ascii := "013".

Definition ext_uri : list ascii := chars "http://www.ietf.org/id/draft-holmer-rmcat-transport-wide-cc-extensions-01".
Definition extmap_str : list ascii := chars "a=extmap:".

(** [strncmp(l, p, strlen(p)) == 0] *)
Fixpoint starts (p l : list ascii) : bool :=
  match p, l with
  | [], _ => true
  | c :: p, d :: l => Ascii.eqb c d && starts p l
  | _, [] => false
  end.

(** [strstr(l, p)], as an offset. *)
Fixpoint strstr (p l : list ascii) : option nat :=
  if starts p l then Some 0%nat
  else match l with [] => None | _ :: l => S <$> strstr p l end.

(** Back to the start of the line: [while (start > offer && *start != '\n') start--] *)
Fixpoint line_start (l : list ascii) (i : nat) : nat :=
  match i with
  | O => O
  | S j => if decide (l !! i = Some nl) then i else line_start l j
  end.

Definition zst_webrtc_twcc_parse_offer (t : zst_webrtc_twcc) (offer : list ascii) : zst_webrtc_twcc * Z :=
  match strstr ext_uri offer with
  | None => (with_extmap t (-1), -1)
  | Some p =>
      let i := line_start offer p in
      let i := if decide (offer !! i = Some nl) then S i else i in
      let line := drop i offer in
      if starts extmap_str line then
        let id := atoi (string_of_list_ascii (drop (length extmap_str) line)) in
        (with_extmap t id, id)
      else (t, -1)
  end.

Definition inj_line (id : Z) : list ascii :=
  chars (snprintf 256 ("a=extmap:" ++ show_Z id ++
    " http://www.ietf.org/id/draft-holmer-rmcat-transport-wide-cc-extensions-01" ++ String cr (String nl ""))).

(** [p += strspn(p, "\r\n")] *)
Fixpoint skip_breaks (p : list ascii) : list ascii :=
  match p with
  | c :: p' => if Ascii.eqb c cr || Ascii.eqb c nl then skip_breaks p' else p
  | [] => []
  end.

(** The text up to the next line feed, and what follows it, if there is one. *)
Fixpoint cut_line (p : list ascii) : list ascii * option (list ascii) :=
  match p with
  | [] => ([], None)
  | c :: p => if Ascii.eqb c nl then ([], Some p) else let '(l, r) := cut_line p in (c :: l, r)
  end.

Definition drop_cr (l : list ascii) : list ascii :=
  match last l with Some c => if Ascii.eqb c cr then removelast l else l | None => l end.

(** The lines of [p] are copied to [temp], with [inj] after each that starts with
    [c=IN ]; [None] when they do not fit.  Each round drops a character at least. *)
Fixpoint inject_loop (rounds : nat) (max_len : Z) (inj p temp : list ascii) : option (list ascii) :=
  match rounds with
  | O => None
  | S rounds =>
      match p with
      | [] => Some temp
      | _ =>
          match skip_breaks p with
          | [] => Some temp
          | p =>
              let '(raw, rest) := cut_line p in
              let line := drop_cr raw in
              if max_len <=? zlen temp + zlen line + 2 then None
              else
                let temp := temp ++ line ++ [cr; nl] in
                let temp :=
                  if (5 <=? zlen line) && starts (chars "c=IN ") p then
                    if max_len <=? zlen temp + zlen inj then None else Some (temp ++ inj)
                  else Some temp in
                match temp, rest with
                | None, _ => None
                | Some temp, None => Some temp
                | Some temp, Some p => inject_loop rounds max_len inj p temp
                end
          end
      end
  end.

(** The result, and the text afterwards. *)
Definition zst_webrtc_twcc_inject_answer (t : zst_webrtc_twcc) (alloc_ok : bool) (answer : list ascii) (max_len : Z) : Z * list ascii :=
  if tw_extmap_id t <? 0 then (0, answer)
  else
    let inj := inj_line (tw_extmap_id t) in
    if max_len <? zlen answer + zlen inj + 1 then (-1, answer)
    else if negb alloc_ok then (-1, answer)
    else match inject_loop (S (length answer)) max_len inj answer [] with
         | None => (-1, answer)
         | Some temp => if max_len <=? zlen temp then (-1, answer) else (0, temp)
         end.
