(* ===== verification/TwccSpec.v ===== *)
(** * What congestion control promises: [Twcc] *)

From Stdlib Require Import Ascii String SpecFloat.
From S2P Require Import Prelude CLib Pad RtpDepay Twcc.

Local Open Scope Z_scope.

(** ** Session descriptions *)

(** The pieces between line feeds. *)
Fixpoint split_lf (l : list ascii) : list (list ascii) :=
  match l with
  | [] => [[]]
  | c :: l =>
      if Ascii.eqb c nl then [] :: split_lf l
      else match split_lf l with x :: xs => (c :: x) :: xs | [] => [[c]] end
  end.

Fixpoint skip_cr (l : list ascii) : list ascii :=
  match l with c :: l' => if Ascii.eqb c cr then skip_cr l' else l | [] => [] end.

(** A line as it is written: without what surrounds it, ended by CR LF, and with [inj]
    after a connection line.  An empty one is left out. *)
Definition written (inj : list ascii) (piece : list ascii) : list ascii :=
  match drop_cr (skip_cr piece) with
  | [] => []
  | line => line ++ [cr; nl] ++ (if starts (chars "c=IN ") line then inj else [])
  end.
Definition injected (inj answer : list ascii) : list ascii := concat (map (written inj) (split_lf answer)).

Lemma split_lf_cons l : exists x xs, split_lf l = x :: xs.
Proof. destruct l as [|c l]; cbn [split_lf]; [by eexists _, _|]. destruct (Ascii.eqb c nl); [by eexists _, _|]. destruct (split_lf l); by eexists _, _. Qed.

Lemma cut_line_split p raw rest : cut_line p = (raw, rest) ->
  split_lf p = raw :: match rest with Some r => split_lf r | None => [] end.
Proof.
  revert raw rest. induction p as [|c p IH]; intros raw rest; cbn [cut_line split_lf]; [by intros [= <- <-]|].
  destruct (Ascii.eqb c nl); [by intros [= <- <-]|]. destruct (cut_line p) as [l r]. intros [= <- <-]. by rewrite (IH _ _ eq_refl).
Qed.

Lemma cut_line_length p raw rest : cut_line p = (raw, Some rest) -> (length rest < length p)%nat.
Proof.
  revert raw rest. induction p as [|c p IH]; intros raw rest; cbn [cut_line]; [done|].
  destruct (Ascii.eqb c nl); [intros [= <- <-]; cbn; lia|]. destruct (cut_line p) as [l r]. intros [= <- ->]. specialize (IH _ _ eq_refl). cbn. lia.
Qed.

Lemma cut_line_prefix p raw rest : cut_line p = (raw, rest) -> exists q, p = raw ++ q.
Proof.
  revert raw rest. induction p as [|c p IH]; intros raw rest; cbn [cut_line]; [intros [= <- <-]; by exists []|].
  destruct (Ascii.eqb c nl); [intros [= <- <-]; by exists (c :: p)|]. destruct (cut_line p) as [l r]. intros [= <- <-].
  destruct (IH _ _ eq_refl) as [q ->]. by exists q.
Qed.

Lemma injected_cons inj c p : injected inj (c :: p) =
  if Ascii.eqb c nl then injected inj p
  else match split_lf p with x :: xs => written inj (c :: x) ++ concat (map (written inj) xs) | [] => [] end.
Proof. unfold injected. cbn [split_lf]. destruct (Ascii.eqb c nl); [done|]. destruct (split_lf_cons p) as (x & xs & ->). done. Qed.

Lemma injected_skip inj p : injected inj (skip_breaks p) = injected inj p.
Proof.
  induction p as [|c p IH]; [done|]. cbn [skip_breaks]. destruct (Ascii.eqb c nl) eqn:En; [|destruct (Ascii.eqb c cr) eqn:Ec; [|done]].
  - rewrite orb_true_r, IH, injected_cons. by rewrite En.
  - cbn [orb]. rewrite IH, injected_cons, En. unfold injected. destruct (split_lf_cons p) as (x & xs & ->). cbn [map concat].
    f_equal. unfold written. cbn [skip_cr]. by rewrite Ec.
Qed.

Lemma skip_breaks_head p c q : skip_breaks p = c :: q -> Ascii.eqb c cr = false /\ Ascii.eqb c nl = false.
Proof.
  induction p as [|d p IH]; cbn [skip_breaks]; [done|]. destruct (Ascii.eqb d cr || Ascii.eqb d nl) eqn:E; [done|].
  apply orb_false_iff in E. by intros [= <- <-].
Qed.

Lemma skip_breaks_length p : (length (skip_breaks p) <= length p)%nat.
Proof. induction p as [|c p IH]; cbn; [lia|]. destruct (_ || _); cbn; lia. Qed.

Lemma starts_spec p l : starts p l = true <-> exists k, l = p ++ k.
Proof.
  revert l. induction p as [|c p IH]; intros l; cbn [starts].
  - split; [intros _; by exists l|done].
  - destruct l as [|d l]; [split; [done|by intros [k Hk]]|]. rewrite andb_true_iff, Ascii.eqb_eq, IH. split.
    + intros [<- [k ->]]. by exists k.
    + intros [k [= -> ->]]. split; [done|]. by exists k.
Qed.

(** A test of five characters sees only the line. *)
Lemma starts_prefix p l q : (length p <= length l)%nat -> starts p (l ++ q) = starts p l.
Proof.
  revert l. induction p as [|c p IH]; intros l Hl; [done|]. destruct l as [|d l]; cbn in *; [lia|]. by rewrite IH by lia.
Qed.
Lemma starts_short p l : (length l < length p)%nat -> starts p l = false.
Proof. destruct (starts p l) eqn:E; [|done]. apply starts_spec in E as [k ->]. rewrite length_app. lia. Qed.

Lemma drop_cr_prefix l : exists k, l = drop_cr l ++ k.
Proof.
  unfold drop_cr. destruct (last l) as [c|] eqn:E; [|by exists []; rewrite app_nil_r]. destruct (Ascii.eqb c cr); [|by exists []; rewrite app_nil_r].
  exists [c]. apply last_Some in E as [k ->]. by rewrite removelast_last.
Qed.

Lemma drop_cr_cons c l : Ascii.eqb c cr = false -> exists k, drop_cr (c :: l) = c :: k.
Proof.
  intros Hc. unfold drop_cr. destruct (last (c :: l)) as [d|] eqn:E; [|by exists l]. destruct (Ascii.eqb d cr) eqn:Ed; [|by exists l].
  destruct l as [|e l]; [cbn in E; injection E as <-; congruence|]. by eexists.
Qed.

(** What a line adds, as the loop computes it. *)
Lemma written_line inj c raw p q : Ascii.eqb c cr = false -> p = (c :: raw) ++ q ->
  written inj (c :: raw) = drop_cr (c :: raw) ++ [cr; nl] ++
    (if (5 <=? zlen (drop_cr (c :: raw))) && starts (chars "c=IN ") p then inj else []).
Proof.
  intros Hc ->. unfold written. cbn [skip_cr]. rewrite Hc. destruct (drop_cr_prefix (c :: raw)) as [k Hk].
  destruct (drop_cr_cons c raw Hc) as [line El]. rewrite El in *. do 3 f_equal.
  rewrite Hk, <- app_assoc. destruct (Z.leb_spec 5 (zlen (c :: line))) as [Hle|Hlt]; unfold zlen in *; cbn [andb].
  - rewrite starts_prefix; [done|]. cbn in *. lia.
  - rewrite starts_short; [done|]. cbn in *. lia.
Qed.

Lemma inject_loop_spec max_len inj rounds p temp : (length p < rounds)%nat -> zlen temp < max_len ->
  inject_loop rounds max_len inj p temp =
    (if zlen (temp ++ injected inj p) <? max_len then Some (temp ++ injected inj p) else None).
Proof.
  revert p temp. induction rounds as [|rounds IH]; intros p temp Hp Hm; [lia|]. cbn [inject_loop].
  destruct p as [|c0 p0] eqn:Ep; [change (injected inj []) with (@nil ascii); rewrite app_nil_r; by destruct (Z.ltb_spec (zlen temp) max_len); [|lia]|].
  rewrite <- Ep in *. clear Ep c0 p0. rewrite <- (injected_skip inj p). pose proof (skip_breaks_length p) as Hlen.
  destruct (skip_breaks p) as [|c q] eqn:Es; [change (injected inj []) with (@nil ascii); rewrite app_nil_r; by destruct (Z.ltb_spec (zlen temp) max_len); [|lia]|].
  destruct (skip_breaks_head p c q Es) as [Hcr Hnl]. destruct (cut_line (c :: q)) as [raw rest] eqn:Ec.
  assert (exists raw', raw = c :: raw') as [raw' ->].
  { cbn [cut_line] in Ec. rewrite Hnl in Ec. destruct (cut_line q). injection Ec as <- _. by eexists. }
  destruct (cut_line_prefix _ _ _ Ec) as [tail Htail].
  assert (injected inj (c :: q) = written inj (c :: raw') ++ match rest with Some r => injected inj r | None => [] end) as ->.
  { unfold injected at 1. rewrite (cut_line_split _ _ _ Ec). cbn [map concat]. by destruct rest. }
  rewrite (written_line inj c raw' (c :: q) tail Hcr Htail).
  set (line := drop_cr (c :: raw')). set (extra := if (5 <=? zlen line) && starts (chars "c=IN ") (c :: q) then inj else []).
  set (after := match rest with Some r => injected inj r | None => [] end).
  assert (zlen (temp ++ (line ++ [cr; nl] ++ extra) ++ after) = zlen temp + zlen line + 2 + zlen extra + zlen after) as Elen
    by (rewrite !zlen_app, !zlen_cons, zlen_nil; lia).
  pose proof (zlen_nonneg extra). pose proof (zlen_nonneg after).
  destruct (Z.leb_spec max_len (zlen temp + zlen line + 2)); [by destruct (Z.ltb_spec (zlen (temp ++ (line ++ [cr; nl] ++ extra) ++ after)) max_len); [lia|]|].
  assert (zlen (temp ++ line ++ [cr; nl]) = zlen temp + zlen line + 2) as Et by (rewrite !zlen_app, !zlen_cons, zlen_nil; lia).
  assert ((if (5 <=? zlen line) && starts (chars "c=IN ") (c :: q)
     then if max_len <=? zlen (temp ++ line ++ [cr; nl]) + zlen inj then None else Some ((temp ++ line ++ [cr; nl]) ++ inj)
     else Some (temp ++ line ++ [cr; nl])) =
    if max_len <=? zlen temp + zlen line + 2 + zlen extra then None else Some ((temp ++ line ++ [cr; nl]) ++ extra)) as ->.
  { subst extra. destruct (_ && _); rewrite ?Et; [done|]. rewrite app_nil_r. change (zlen (@nil ascii)) with 0.
    by destruct (Z.leb_spec max_len (zlen temp + zlen line + 2 + 0)); [lia|]. }
  destruct (Z.leb_spec max_len (zlen temp + zlen line + 2 + zlen extra)); [by destruct (Z.ltb_spec (zlen (temp ++ (line ++ [cr; nl] ++ extra) ++ after)) max_len); [lia|]|].
  replace (temp ++ (line ++ [cr; nl] ++ extra) ++ after) with (((temp ++ line ++ [cr; nl]) ++ extra) ++ after) by by rewrite <- !app_assoc.
  destruct rest as [r|]; subst after.
  - rewrite IH; [done| |].
    + apply cut_line_length in Ec. cbn [length] in *. lia.
    + rewrite zlen_app, Et. lia.
  - rewrite app_nil_r in *. rewrite zlen_app, Et. by destruct (Z.ltb_spec (zlen temp + zlen line + 2 + zlen extra) max_len); [|lia].
Qed.

(** For an answer that can carry the extension: every line of it is kept, in order,
    empty ones apart, ended by CR LF, with the line that announces the extension after
    each connection line; the buffer of [max_len] bytes is never overrun, and what does
    not fit is refused and leaves the answer as it was. *)
Theorem inject_answer_exact t answer max_len : 0 <= tw_extmap_id t -> 
  let inj := inj_line (tw_extmap_id t) in
  zst_webrtc_twcc_inject_answer t true answer max_len =
    if (zlen answer + zlen inj + 1 <=? max_len) && (zlen (injected inj answer) <? max_len)
    then (0, injected inj answer) else (-1, answer).
Proof.
  intros Hid inj. unfold zst_webrtc_twcc_inject_answer. destruct (Z.ltb_spec (tw_extmap_id t) 0); [lia|]. cbn [negb]. fold inj.
  pose proof (zlen_nonneg answer). pose proof (zlen_nonneg inj).
  destruct (Z.ltb_spec max_len (zlen answer + zlen inj + 1)), (Z.leb_spec (zlen answer + zlen inj + 1) max_len); try lia; [done|]. cbn [andb].
  rewrite inject_loop_spec by (first [lia|change (zlen (@nil ascii)) with 0; lia]). cbn [app].
  destruct (Z.ltb_spec (zlen (injected inj answer)) max_len); [|done]. by destruct (Z.leb_spec max_len (zlen (injected inj answer))); [lia|].
Qed.


(** ** Bit rates *)

Inductive twcc_call :=
| TwccIncoming (now_us : Z) (event_ok : bool) (msg : bytes)
| TwccOutgoing (now_us : Z) (msg : bytes)
| TwccOffer (offer : list ascii).

Definition twcc_run (t : zst_webrtc_twcc) (c : twcc_call) : zst_webrtc_twcc :=
  match c with
  | TwccIncoming now ok msg => zst_webrtc_twcc_process_incoming t now ok msg (zlen msg)
  | TwccOutgoing now msg => (zst_webrtc_twcc_process_outgoing t now msg (zlen msg)).1
  | TwccOffer offer => (zst_webrtc_twcc_parse_offer t offer).1
  end.

Inductive twcc_reach : zst_webrtc_twcc -> Prop :=
| twcc_created now pc t : zst_webrtc_twcc_create true now pc = Some t -> twcc_reach t
| twcc_called t c : twcc_reach t -> twcc_reach (twcc_run t c).

Definition rate_ok (bps : Z) : Prop := TWCC_MIN_BITRATE <= bps <= TWCC_MAX_BITRATE.

Record rates_ok (t : zst_webrtc_twcc) : Prop := {
  ro_delay : rate_ok (tw_delay_estimate_bps t);
  ro_loss : rate_ok (tw_loss_estimate_bps t);
  ro_current : tw_current_bitrate_bps t = Z.min (tw_delay_estimate_bps t) (tw_loss_estimate_bps t);
  ro_posted : Forall rate_ok (tw_posted t);
  ro_emitted : tw_last_emitted_bps t = 0 \/ rate_ok (tw_last_emitted_bps t);
}.

(** The estimates and what was made of them. *)
Definition rates (t : zst_webrtc_twcc) : Z * Z * Z * list Z * Z :=
  (tw_delay_estimate_bps t, tw_loss_estimate_bps t, tw_current_bitrate_bps t, tw_posted t, tw_last_emitted_bps t).

Lemma rates_same t t' : rates t' = rates t -> rates_ok t -> rates_ok t'.
Proof. intros [= E1 E2 E3 E4 E5] [? ? ? ? ?]. constructor; rewrite ?E1, ?E2, ?E3, ?E4, ?E5; done. Qed.

Lemma clamp_ok bps : rate_ok (twcc_clamp_bps bps).
Proof. unfold rate_ok, twcc_clamp_bps, TWCC_MIN_BITRATE, TWCC_MAX_BITRATE. zbool; lia. Qed.

Lemma note_arrival_rates t seq recv ds : rates (note_arrival t seq recv ds).1 = rates t.
Proof. unfold note_arrival. by destruct (_ && _). Qed.

Lemma parse_deltas_rates msg size base ss i off recv t fb : rates (parse_deltas msg size base ss i off recv t fb).1 = rates t.
Proof.
  revert i off recv t fb. induction ss as [|st ss IH]; intros i off recv t fb; cbn [parse_deltas]; [done|].
  destruct (st =? 0); [by rewrite IH|]. destruct (read_delta _ _ _ _ _) as [[recv' off']|]; [|done].
  destruct (note_arrival t _ recv' _) as [t' ds] eqn:E. rewrite IH.
  replace t' with (note_arrival t (u16 (base + u16 i)) recv' (fb_deltas (mk_feedback (fb_lost fb) (fb_received fb + 1) (fb_deltas fb)))).1 by by rewrite E.
  apply note_arrival_rates.
Qed.

Lemma updates_rates ds t : rates (fold_left gcc_delay_update ds t) = rates t.
Proof. revert t. induction ds as [|d ds IH]; intros t; [done|]. cbn [fold_left]. by rewrite IH. Qed.

Lemma gcc_update_ok t now ok fb : rates_ok t -> rates_ok (gcc_update t now ok fb).
Proof.
  intros [Hd Hl Hc Hp He]. unfold gcc_update. destruct (_ <? TWCC_UPDATE_INTERVAL_US); [by constructor|]. cbv zeta.
  set (lr := if 0 <? _ then _ else _). set (t1 := gcc_delay_adapt (gcc_loss_adapt t lr)).
  assert (rate_ok (tw_delay_estimate_bps t1)) as H1 by apply clamp_ok. assert (rate_ok (tw_loss_estimate_bps t1)) as H2 by apply clamp_ok.
  set (combined := if tw_delay_estimate_bps t1 <? tw_loss_estimate_bps t1 then tw_delay_estimate_bps t1 else tw_loss_estimate_bps t1). assert (combined = Z.min (tw_delay_estimate_bps t1) (tw_loss_estimate_bps t1)) as Ec.
  { subst combined. destruct (Z.ltb_spec (tw_delay_estimate_bps t1) (tw_loss_estimate_bps t1)); lia. }
  assert (rate_ok combined) as H3 by (rewrite Ec; unfold rate_ok in *; lia).
  clearbody combined. change (tw_posted t1) with (tw_posted t). change (tw_last_emitted_bps t1) with (tw_last_emitted_bps t).
  destruct (_ || _); (constructor; [done|done|exact Ec| |]).
  - cbn. destruct ok; [|done]. apply Forall_app. split; [done|]. constructor; [|done].
    unfold rate_ok, TWCC_MIN_BITRATE, TWCC_MAX_BITRATE in H3. rewrite u32_small by lia. done.
  - by right.
  - done.
  - done.
Qed.

Lemma incoming_ok t now ok msg size : rates_ok t -> rates_ok (zst_webrtc_twcc_process_incoming t now ok msg size).
Proof.
  intros Ht. unfold zst_webrtc_twcc_process_incoming. destruct (size <? 4); [done|]. destruct (_ && _ && _ && _); [|done].
  unfold twcc_parse_ccfb. destruct (size <? 20); [done|]. cbv zeta. destruct (_ =? 0); [done|]. destruct (parse_chunks _ _ _ _ _ _) as [off ss].
  destruct (parse_deltas _ _ _ _ _ _ _ _ _) as [t' fb] eqn:E. apply gcc_update_ok. eapply rates_same; [|exact Ht].
  rewrite updates_rates. pose proof (parse_deltas_rates msg size (be16 (rd msg 12) (rd msg 13)) ss 0 off
    (u64 (Z.lor (Z.lor (Z.shiftl (rd msg 16) 16) (Z.shiftl (rd msg 17) 8)) (rd msg 18) * 64000)) t (mk_feedback 0 0 [])) as Hr.
  by rewrite E in Hr.
Qed.

(** Whatever packets come in, of any length and content, and whatever is sent: both
    estimates stay between 100 kbit/s and 8 Mbit/s, the bit rate is the smaller of the
    two, and only bit rates in these limits are posted. *)
Theorem estimates_bounded t : twcc_reach t ->
  rate_ok (tw_delay_estimate_bps t) /\ rate_ok (tw_loss_estimate_bps t) /\
  tw_current_bitrate_bps t = Z.min (tw_delay_estimate_bps t) (tw_loss_estimate_bps t) /\ Forall rate_ok (tw_posted t).
Proof.
  intros Hr. enough (rates_ok t) as [? ? ? ? ?] by done. induction Hr as [now pc t E|t c _ IH].
  - injection E as <-. constructor; try done; cbn; unfold rate_ok, TWCC_INIT_BITRATE, TWCC_MIN_BITRATE, TWCC_MAX_BITRATE; auto; lia.
  - destruct c as [now ok msg|now msg|offer]; cbn [twcc_run]; [by apply incoming_ok|..]; (eapply rates_same; [|exact IH]).
    + unfold zst_webrtc_twcc_process_outgoing. by repeat case_match.
    + unfold zst_webrtc_twcc_parse_offer. by repeat case_match.
Qed.

(** ** The feedback message *)

(** The chunks a sender of feedback may use: a run of equal statuses, fourteen of one
    bit, seven of two. *)
Inductive status_chunk := RunOf (n st : Z) | Bits (l : list Z) | Pairs (l : list Z).

Definition chunk_ok (c : status_chunk) : Prop :=
  match c with
  | RunOf n st => 0 <= n < 8192 /\ 0 <= st < 4
  | Bits l => length l = 14%nat /\ Forall (fun b => 0 <= b < 2) l
  | Pairs l => length l = 7%nat /\ Forall (fun b => 0 <= b < 4) l
  end.

(** [l] as digits of [w] bits after [acc]. *)
Definition digits (w acc : Z) (l : list Z) : Z := fold_left (fun v d => v * 2 ^ w + d) l acc.

Definition chunk_code (c : status_chunk) : Z :=
  match c with RunOf n st => st * 8192 + n | Bits l => digits 1 2 l | Pairs l => digits 2 3 l end.
Definition symbols (c : status_chunk) : list Z :=
  match c with RunOf n st => repeat st (Z.to_nat n) | Bits l | Pairs l => l end.
Definition chunk_bytes (c : status_chunk) : bytes := [u8 (Z.shiftr (chunk_code c) 8); u8 (chunk_code c)].

Lemma digits_spec w l acc : 0 <= w -> Forall (fun b => 0 <= b < 2 ^ w) l ->
  exists r, digits w acc l = acc * 2 ^ (w * zlen l) + r /\ 0 <= r < 2 ^ (w * zlen l).
Proof.
  intros Hw. revert acc. induction l as [|d l IH]; intros acc Hl; cbn [digits fold_left].
  - exists 0. rewrite zlen_nil, Z.mul_0_r. lia.
  - apply Forall_cons in Hl as [Hd Hl]. destruct (IH (acc * 2 ^ w + d) Hl) as (r & E & Hr). fold (digits w (acc * 2 ^ w + d) l). rewrite E, zlen_cons.
    pose proof (zlen_nonneg l). rewrite Z.mul_add_distr_l, Z.mul_1_r, Z.pow_add_r by nia.
    exists (d * 2 ^ (w * zlen l) + r). split; [lia|]. nia.
Qed.

Lemma digits_nth w l acc i d : 0 <= w -> Forall (fun b => 0 <= b < 2 ^ w) l -> l !! i = Some d ->
  (digits w acc l / 2 ^ (w * (zlen l - 1 - Z.of_nat i))) mod 2 ^ w = d.
Proof.
  intros Hw Hl Hi. apply list_elem_of_split_length in Hi as (l1 & l2 & -> & ->). apply Forall_app in Hl as [H1 H2]. apply Forall_cons in H2 as [Hd H2].
  unfold digits. rewrite fold_left_app. cbn [fold_left]. fold (digits w acc l1). set (v := digits w acc l1). fold (digits w (v * 2 ^ w + d) l2).
  destruct (digits_spec w l2 (v * 2 ^ w + d) Hw H2) as (r & -> & Hr).
  replace (zlen (l1 ++ d :: l2) - 1 - Z.of_nat (length l1)) with (zlen l2) by (rewrite zlen_app, zlen_cons; unfold zlen; lia).
  rewrite Z.div_add_l, Z.div_small, Z.add_0_r by lia. rewrite Z.add_comm, Z.mod_add by lia. by apply Z.mod_small.
Qed.

(** The number of statuses that are kept. *)
Definition kept (status_count : Z) : nat := Z.to_nat (Z.min status_count 1024).

Lemma room_spec count ss : room count ss = true <-> (length ss < kept count)%nat.
Proof. unfold room, kept, zlen. rewrite andb_true_iff, !Z.ltb_lt. lia. Qed.
Lemma room_full count ss : room count ss = false <-> (kept count <= length ss)%nat.
Proof. rewrite <- not_true_iff_false, room_spec. lia. Qed.

Lemma put_run_spec count n st ss : put_run count n st ss = ss ++ take (kept count - length ss) (repeat st n).
Proof.
  revert ss. induction n as [|n IH]; intros ss; cbn [put_run repeat]; [by rewrite take_nil, app_nil_r|].
  destruct (room count ss) eqn:E; [apply room_spec in E|apply room_full in E].
  - rewrite IH, length_app, <- app_assoc. cbn [length]. replace (kept count - length ss)%nat with (S (kept count - (length ss + 1))) by lia. done.
  - replace (kept count - length ss)%nat with 0%nat by lia. by rewrite take_0, app_nil_r.
Qed.

Lemma symbol_at w l acc i d : 1 <= w <= 2 -> Forall (fun b => 0 <= b < 2 ^ w) l -> zlen l = 14 / w -> l !! i = Some d ->
  Z.land (Z.shiftr (digits w acc l) (if w =? 1 then 13 - Z.of_nat i else 12 - Z.of_nat i * 2)) (Z.shiftl 1 w - 1) = d.
Proof.
  intros Hw Hl Hlen Hi. assert (Z.of_nat i < zlen l) as Hlt by (apply lookup_lt_Some in Hi; unfold zlen; lia).
  assert ((if w =? 1 then 13 - Z.of_nat i else 12 - Z.of_nat i * 2) = w * (zlen l - 1 - Z.of_nat i)) as ->.
  { assert (w = 1 \/ w = 2) as [-> | ->] by lia; rewrite Hlen; [change (14 / 1) with 14|change (14 / 2) with 7]; cbn; lia. }
  rewrite (land_ones_mod _ w) by (rewrite ?Z.shiftl_mul_pow2 by lia; lia). rewrite Z.shiftr_div_pow2 by nia. by apply digits_nth; [lia|..].
Qed.

Lemma put_symbols_spec count w l acc n i ss : 1 <= w <= 2 -> Forall (fun b => 0 <= b < 2 ^ w) l -> zlen l = 14 / w ->
  (i + n = length l)%nat ->
  put_symbols count n (Z.of_nat i) w (digits w acc l) ss = ss ++ take (kept count - length ss) (drop i l).
Proof.
  intros Hw Hl Hlen. revert i ss. induction n as [|n IH]; intros i ss Hi; cbn [put_symbols].
  - rewrite drop_ge by lia. by rewrite take_nil, app_nil_r.
  - destruct (lookup_lt_is_Some_2 l i) as [d Hd]; [lia|]. rewrite (drop_S l d i Hd).
    destruct (room count ss) eqn:E; [apply room_spec in E|apply room_full in E].
    + cbv zeta. rewrite (symbol_at w l acc i d) by done. replace (Z.of_nat i + 1) with (Z.of_nat (S i)) by lia. rewrite IH by lia.
      rewrite length_app, <- app_assoc. cbn [length]. replace (kept count - length ss)%nat with (S (kept count - (length ss + 1))) by lia. done.
    + replace (kept count - length ss)%nat with 0%nat by lia. by rewrite take_0, app_nil_r.
Qed.

Lemma top_bit v r k m : 0 <= k -> m = 2 ^ k -> 0 <= r < m -> v = m + r -> Z.land v m = m.
Proof.
  intros Hk -> Hr ->. apply Z.bits_inj'. intros i Hi. rewrite Z.land_spec, Z.pow2_bits_eqb by lia.
  destruct (Z.eqb_spec k i) as [<-|]; [|by rewrite andb_false_r]. rewrite andb_true_r. apply Z.testbit_true; [lia|].
  replace (2 ^ k + r) with (1 * 2 ^ k + r) by lia. by rewrite Z.div_add_l, Z.div_small by lia.
Qed.

(** What a chunk adds. *)
Lemma put_chunk_spec count c ss : chunk_ok c ->
  put_chunk count (chunk_code c) ss = ss ++ take (kept count - length ss) (symbols c).
Proof.
  intros Hc. unfold put_chunk. destruct c as [n st|l|l]; cbn [chunk_ok chunk_code symbols] in *.
  - destruct Hc as [Hn Hst]. assert (Z.land (st * 8192 + n) 32768 = 0) as ->.
    { apply Z.bits_inj'. intros i Hi. rewrite Z.land_spec, Z.bits_0. change 32768 with (2 ^ 15). rewrite Z.pow2_bits_eqb by lia.
      destruct (Z.eqb_spec 15 i) as [<-|]; [|by rewrite andb_false_r]. rewrite <- (Z.mod_small (st * 8192 + n) (2 ^ 15)) by lia.
      by rewrite Z.mod_pow2_bits_high by lia. }
    cbn [Z.eqb]. rewrite (land_ones_mod _ 13 8191) by (done || lia). rewrite (land_ones_mod _ 2 3) by (done || lia).
    rewrite Z.shiftr_div_pow2 by lia. change (2 ^ 13) with 8192. change (2 ^ 2) with 4.
    replace ((st * 8192 + n) mod 8192) with n by (Z.to_euclidean_division_equations; lia).
    replace ((st * 8192 + n) / 8192 mod 4) with st by (Z.to_euclidean_division_equations; lia). apply put_run_spec.
  - destruct Hc as [Hlen Hl]. assert (zlen l = 14) as Hz by (unfold zlen; lia).
    destruct (digits_spec 1 l 2 ltac:(lia) Hl) as (r & E & Hr). rewrite Hz in E, Hr. change (2 ^ (1 * 14)) with 16384 in *.
    assert (Z.land (digits 1 2 l) 32768 = 32768) as ->.
    { rewrite E. apply (top_bit _ r 15); lia. }
    assert (Z.land (digits 1 2 l) 16384 = 0) as ->.
    { rewrite E. apply Z.bits_inj'. intros i Hi. rewrite Z.land_spec, Z.bits_0. change 16384 with (2 ^ 14) at 2. rewrite Z.pow2_bits_eqb by lia.
      destruct (Z.eqb_spec 14 i) as [<-|]; [|by rewrite andb_false_r]. rewrite andb_true_r. apply Z.testbit_false; [lia|]. change (2 ^ 14) with 16384.
      rewrite Z.div_add_l, (Z.div_small r) by lia. done. }
    cbn [Z.eqb negb]. rewrite (put_symbols_spec count 1 l 2 14 0) by (done || lia). done.
  - destruct Hc as [Hlen Hl]. assert (zlen l = 7) as Hz by (unfold zlen; lia).
    destruct (digits_spec 2 l 3 ltac:(lia) Hl) as (r & E & Hr). rewrite Hz in E, Hr. change (2 ^ (2 * 7)) with 16384 in *.
    assert (Z.land (digits 2 3 l) 32768 = 32768) as ->.
    { rewrite E. apply (top_bit _ (16384 + r) 15); lia. }
    assert (Z.land (digits 2 3 l) 16384 = 16384) as ->.
    { rewrite E. apply Z.bits_inj'. intros i Hi. rewrite Z.land_spec. change 16384 with (2 ^ 14) at 2 3. rewrite Z.pow2_bits_eqb by lia.
      destruct (Z.eqb_spec 14 i) as [<-|]; [|by rewrite andb_false_r]. rewrite andb_true_r. apply Z.testbit_true; [lia|]. change (2 ^ 14) with 16384.
      rewrite Z.div_add_l, (Z.div_small r) by lia. done. }
    cbn [Z.eqb negb]. rewrite (put_symbols_spec count 2 l 3 7 0) by (done || lia). done.
Qed.

Lemma chunk_code_range c : chunk_ok c -> 0 <= chunk_code c < 65536.
Proof.
  destruct c as [n st|l|l]; cbn [chunk_ok chunk_code]; [lia|..]; intros [Hlen Hl].
  - destruct (digits_spec 1 l 2 ltac:(lia) Hl) as (r & -> & Hr). replace (zlen l) with 14 in * by (unfold zlen; lia). change (2 ^ (1 * 14)) with 16384 in *. lia.
  - destruct (digits_spec 2 l 3 ltac:(lia) Hl) as (r & -> & Hr). replace (zlen l) with 7 in * by (unfold zlen; lia). change (2 ^ (2 * 7)) with 16384 in *. lia.
Qed.

(** The chunks say [k] more statuses, and none of them is for nothing. *)
Fixpoint says (k : nat) (cs : list status_chunk) : Prop :=
  match cs with [] => k = 0%nat | c :: cs => (0 < k)%nat /\ says (k - length (symbols c)) cs end.

Lemma rd_here pre a post : rd (pre ++ a :: post) (zlen pre) = a.
Proof. rewrite rd_app_r, Z.sub_diag by lia. done. Qed.

Lemma parse_chunks_spec rounds size count cs pre post ss : (length cs < rounds)%nat -> Forall chunk_ok cs ->
  size = zlen (pre ++ concat (map chunk_bytes cs) ++ post) -> (length ss <= kept count)%nat -> says (kept count - length ss) cs ->
  parse_chunks rounds (pre ++ concat (map chunk_bytes cs) ++ post) size count (zlen pre) ss =
    (zlen pre + 2 * zlen cs, take (kept count) (ss ++ concat (map symbols cs))).
Proof.
  intros Hr Hcs Hs. revert rounds pre ss Hr Hs. induction cs as [|c cs IH]; intros [|rounds] pre ss Hr Hs Hk Hsay; cbn [length says] in *; try lia.
  - cbn [parse_chunks]. rewrite (proj2 (room_full count ss)), andb_false_r by lia. cbn [map concat]. rewrite @zlen_nil, app_nil_r, Z.mul_0_r, Z.add_0_r.
    by rewrite take_ge by lia.
  - apply Forall_cons in Hcs as [Hc Hcs]. destruct Hsay as [Hpos Hsay]. cbn [parse_chunks map concat] in *. unfold chunk_bytes at 1 in Hs.
    rewrite !zlen_app, !zlen_cons in Hs. pose proof (zlen_nonneg (concat (map chunk_bytes cs))). pose proof (zlen_nonneg post).
    destruct (Z.leb_spec (zlen pre + 2) size); [|cbn [app] in *; rewrite ?@zlen_nil in *; lia]. cbn [andb].
    rewrite (proj2 (room_spec count ss)) by lia. cbv zeta.
    set (a := u8 (Z.shiftr (chunk_code c) 8)). set (b := u8 (chunk_code c)).
    replace (pre ++ (chunk_bytes c ++ concat (map chunk_bytes cs)) ++ post) with (pre ++ a :: b :: concat (map chunk_bytes cs) ++ post) by done.
    rewrite rd_here. replace (pre ++ a :: b :: concat (map chunk_bytes cs) ++ post) with ((pre ++ [a]) ++ b :: concat (map chunk_bytes cs) ++ post) by by rewrite <- app_assoc.
    replace (zlen pre + 1) with (zlen (pre ++ [a])) by (by rewrite zlen_app, zlen_cons, @zlen_nil). rewrite rd_here.
    subst a b. rewrite be16_u8 by by apply chunk_code_range. rewrite put_chunk_spec by done.
    replace ((pre ++ [u8 (Z.shiftr (chunk_code c) 8)]) ++ u8 (chunk_code c) :: concat (map chunk_bytes cs) ++ post)
      with ((pre ++ chunk_bytes c) ++ concat (map chunk_bytes cs) ++ post) by by rewrite <- !app_assoc.
    replace (zlen pre + 2) with (zlen (pre ++ chunk_bytes c)) by (rewrite zlen_app; done).
    rewrite IH; [|done|lia| | |].
    + f_equal; [rewrite zlen_app, zlen_cons; change (zlen (chunk_bytes c)) with 2; lia|]. rewrite <- app_assoc. set (k := (kept count - length ss)%nat).
      destruct (decide (length (symbols c) <= k)%nat) as [Hle|Hgt]; [by rewrite (take_ge (symbols c)) by done|].
      rewrite !take_app, firstn_firstn, !length_take, !(take_ge ss) by lia. replace (kept count - length ss)%nat with k by done.
      replace (k - Nat.min k (length (symbols c)))%nat with 0%nat by lia. replace (k - length (symbols c))%nat with 0%nat by lia.
      rewrite !take_0, !app_nil_r. by replace (Nat.min k k) with k by lia.
    + rewrite !zlen_app. change (zlen (chunk_bytes c)) with 2. cbn [app] in *. rewrite ?zlen_app, ?@zlen_nil in *. lia.
    + rewrite length_app, length_take. lia.
    + rewrite length_app, length_take. replace (kept count - (length ss + _))%nat with (kept count - length ss - length (symbols c))%nat by lia. done.
Qed.

(** A report on a packet: its status and, when it was received, its delta. *)
Definition report_ok (r : Z * Z) : Prop :=
  let '(st, d) := r in 0 <= st < 4 /\ (if st =? 1 then 0 <= d < 256 else -32768 <= d < 32768).
Definition delta_bytes (r : Z * Z) : bytes :=
  let '(st, d) := r in
  if st =? 0 then [] else if st =? 1 then [d] else [u8 (Z.shiftr (u16 d) 8); u8 (u16 d)].

(** Which packets arrived, and when: each delta counts from the one before. *)
Fixpoint arrivals (base i recv : Z) (rs : list (Z * Z)) : list (Z * Z) :=
  match rs with
  | [] => []
  | (st, d) :: rs =>
      if st =? 0 then arrivals base (i + 1) recv rs
      else (u16 (base + i), u64 (recv + d * 250)) :: arrivals base (i + 1) (u64 (recv + d * 250)) rs
  end.

Definition note_all (l : list (Z * Z)) (s : zst_webrtc_twcc * list cfloat) : zst_webrtc_twcc * list cfloat :=
  fold_left (fun '(t, ds) '(seq, time) => note_arrival t seq time ds) l s.

(** The packet of an arrival, if it is still in the history: when it was sent and came. *)
Definition found (t : zst_webrtc_twcc) (a : Z * Z) : option (Z * Z) :=
  let h := history_at t (a.1 mod TWCC_HISTORY_SIZE) in
  if (sent_seq_num h =? a.1) && negb (sent_send_time_us h =? 0) then Some (sent_send_time_us h, a.2) else None.

(** By how much more, in ms, the arrivals of two packets are apart than their departures. *)
Definition gap (p q : Z * Z) : cfloat := f_div (f_of_Z (s64 (s64 (q.2 - p.2) - s64 (q.1 - p.1)))) f_1000.
Fixpoint gaps (l : list (Z * Z)) : list cfloat :=
  match l with p :: ((q :: _) as rest) => gap p q :: gaps rest | _ => [] end.

(** The last packet found by the feedback before. *)
Definition previous (t : zst_webrtc_twcc) : list (Z * Z) :=
  if tw_have_prev_ref t then [(tw_last_send_time_us t, tw_last_recv_time_us t)] else [].
Definition remember (t : zst_webrtc_twcc) (l : list (Z * Z)) : zst_webrtc_twcc :=
  match last l with Some (send, recv) => with_prev t recv send | None => t end.

Lemma gaps_app l p q : gaps ((l ++ [p]) ++ [q]) = gaps (l ++ [p]) ++ [gap p q].
Proof. induction l as [|x [|y l] IH]; [done|done|]. cbn in *. by rewrite IH. Qed.

Lemma note_arrival_found t seq time pre ds : ds = take 64 (gaps (pre ++ previous t)) ->
  (pre = [] \/ tw_have_prev_ref t = true) ->
  let fs := from_option (fun p => [p]) [] (found t (seq, time)) in
  note_arrival t seq time ds = (remember t fs, take 64 (gaps (pre ++ previous t ++ fs))).
Proof.
  intros -> Hpre. unfold note_arrival, found. cbn [fst snd]. destruct (_ && _); cbn [from_option]; [|by rewrite app_nil_r].
  unfold remember, previous. cbn [last]. f_equal. destruct (tw_have_prev_ref t); cbn [andb].
  - rewrite !app_assoc, gaps_app. set (l := gaps _). fold (gap (tw_last_send_time_us t, tw_last_recv_time_us t) (sent_send_time_us (history_at t (seq mod TWCC_HISTORY_SIZE)), time)).
    unfold zlen. rewrite length_take. destruct (Z.ltb_spec (Z.of_nat (64 `min` length l)) 64).
    + rewrite !take_ge; [done|rewrite length_app; cbn; lia|lia].
    + rewrite take_app_le by lia. done.
  - destruct Hpre as [->|?]; [done|done].
Qed.

(** What the arrivals give: the first 64 differences, and the last packet found. *)
Lemma note_all_found l t pre : (pre = [] \/ tw_have_prev_ref t = true) ->
  note_all l (t, take 64 (gaps (pre ++ previous t))) =
    (remember t (omap (found t) l), take 64 (gaps (pre ++ previous t ++ omap (found t) l))).
Proof.
  revert t pre. induction l as [|[seq time] l IH]; intros t pre Hpre; [by rewrite app_nil_r|].
  unfold note_all. cbn [fold_left]. rewrite (note_arrival_found t seq time pre) by done. cbn [omap list_omap].
  fold (note_all l). destruct (found t (seq, time)) as [[s r]|] eqn:E; cbn [from_option].
  - change (remember t [(s, r)]) with (with_prev t r s).
    change (take 64 (gaps (pre ++ previous t ++ [(s, r)]))) with (take 64 (gaps (pre ++ previous t ++ previous (with_prev t r s)))).
    rewrite app_assoc, IH by (by right). change (previous (with_prev t r s)) with [(s, r)].
    change (omap (found (with_prev t r s)) l) with (omap (found t) l). rewrite <-!app_assoc. f_equal.
    unfold remember. destruct (omap (found t) l) as [|p fs] eqn:Ef; [done|]. rewrite last_cons_cons.
    destruct (last (p :: fs)) as [[s' r']|] eqn:El; [done|]. by apply last_None in El.
  - change (remember t []) with t. rewrite app_nil_r. by apply IH.
Qed.

Definition lost_in (rs : list (Z * Z)) : Z := zlen (filter (fun r => r.1 = 0) rs).
Definition received_in (rs : list (Z * Z)) : Z := zlen (filter (fun r => r.1 <> 0) rs).

Lemma lost_cons st d rs : lost_in ((st, d) :: rs) = (if st =? 0 then 1 else 0) + lost_in rs.
Proof. unfold lost_in. rewrite filter_cons. cbn [fst]. destruct (Z.eqb_spec st 0); [rewrite decide_True by done; rewrite zlen_cons; lia|by rewrite decide_False]. Qed.
Lemma received_cons st d rs : received_in ((st, d) :: rs) = (if st =? 0 then 0 else 1) + received_in rs.
Proof. unfold received_in. rewrite filter_cons. cbn [fst]. destruct (Z.eqb_spec st 0); [rewrite decide_False by (intros ?; done); done|rewrite decide_True by done; rewrite zlen_cons; lia]. Qed.

Lemma add_delta recv d : u64 (recv + u64 (u64 d * 250)) = u64 (recv + d * 250).
Proof. unfold u64. rewrite Zplus_mod_idemp_r, <- Zplus_mod_idemp_r, Zmult_mod_idemp_l, Zplus_mod_idemp_r. done. Qed.

Lemma read_delta_spec st d pre post recv size : report_ok (st, d) -> st <> 0 -> zlen (pre ++ delta_bytes (st, d)) <= size ->
  read_delta (pre ++ delta_bytes (st, d) ++ post) size st (zlen pre) recv = Some (u64 (recv + d * 250), zlen (pre ++ delta_bytes (st, d))).
Proof.
  intros [Hst Hd] Hne Hs. unfold read_delta, delta_bytes in *. destruct (Z.eqb_spec st 0); [done|]. destruct (Z.eqb_spec st 1) as [->|Hn1].
  - rewrite zlen_app, zlen_cons, @zlen_nil in *. destruct (Z.ltb_spec size (zlen pre + 1)); [lia|]. cbn [app]. rewrite rd_here. do 2 f_equal.
    by rewrite (u64_small d) by lia.
  - rewrite zlen_app, !zlen_cons, @zlen_nil in *. destruct (Z.ltb_spec size (zlen pre + 2)); [lia|]. cbn [app]. rewrite rd_here.
    replace (pre ++ u8 (Z.shiftr (u16 d) 8) :: u8 (u16 d) :: post) with ((pre ++ [u8 (Z.shiftr (u16 d) 8)]) ++ u8 (u16 d) :: post) by by rewrite <- app_assoc.
    replace (zlen pre + 1) with (zlen (pre ++ [u8 (Z.shiftr (u16 d) 8)])) by (by rewrite zlen_app, zlen_cons, @zlen_nil). rewrite rd_here.
    rewrite be16_u8 by apply u16_range. replace (s16 (u16 d)) with d by cint. by rewrite add_delta.
Qed.

Lemma parse_deltas_spec rs pre post size base i recv t fb : Forall report_ok rs -> 0 <= i -> i + zlen rs <= 65536 ->
  zlen (pre ++ concat (map delta_bytes rs)) <= size ->
  parse_deltas (pre ++ concat (map delta_bytes rs) ++ post) size base (map fst rs) i (zlen pre) recv t fb =
    let '(t', ds) := note_all (arrivals base i recv rs) (t, fb_deltas fb) in
    (t', mk_feedback (fb_lost fb + lost_in rs) (fb_received fb + received_in rs) ds).
Proof.
  revert pre i recv t fb. induction rs as [|[st d] rs IH]; intros pre i recv t fb Hok Hi Hlen Hs.
  - cbn. destruct fb as [l r ds]. cbn. unfold lost_in, received_in. cbn. by rewrite !Z.add_0_r.
  - apply Forall_cons in Hok as [Hr Hok]. rewrite zlen_cons in Hlen. cbn [map concat parse_deltas fst arrivals] in *. rewrite lost_cons, received_cons.
    pose proof (zlen_nonneg (concat (map delta_bytes rs))) as Hnn.
    destruct (Z.eqb_spec st 0) as [->|Hne].
    + change (delta_bytes (0, d)) with (@nil Z) in *. cbn [app] in *. rewrite IH by (done || lia). cbn [fb_deltas fb_lost fb_received].
      destruct (note_all _ _) as [t' ds]. do 2 f_equal; lia.
    + replace (pre ++ (delta_bytes (st, d) ++ concat (map delta_bytes rs)) ++ post)
        with (pre ++ delta_bytes (st, d) ++ concat (map delta_bytes rs) ++ post) by by rewrite <- !app_assoc.
      rewrite read_delta_spec; [|done|done|rewrite app_assoc, (zlen_app _ (concat _)) in Hs; lia]. cbn [fb_deltas fb_lost fb_received].
      replace (u16 (base + u16 i)) with (u16 (base + i)) by (rewrite (u16_small i) by (pose proof (zlen_nonneg rs); lia); done).
      unfold note_all. cbn [fold_left]. fold note_all. destruct (note_arrival t (u16 (base + i)) (u64 (recv + d * 250)) (fb_deltas fb)) as [t1 ds1].
      rewrite app_assoc. rewrite IH by (try done; rewrite <- ?app_assoc; try done; lia). cbn [fb_deltas fb_lost fb_received]. unfold note_all.
      destruct (fold_left _ _ _) as [t' ds]. do 2 f_equal; lia.
Qed.

Lemma be24_u8 v : 0 <= v < 16777216 -> Z.lor (Z.lor (Z.shiftl (u8 (Z.shiftr v 16)) 16) (Z.shiftl (u8 (Z.shiftr v 8)) 8)) (u8 v) = v.
Proof.
  intros Hv. rewrite <- (be32_u8 v) at 4 by lia. unfold be32. rewrite (shiftr_div v 24 16777216), Z.div_small by (done || lia). done.
Qed.

Lemma zlen_chunks cs : zlen (concat (map chunk_bytes cs)) = 2 * zlen cs.
Proof. induction cs as [|c cs IH]; [done|]. cbn [map concat]. rewrite zlen_app, zlen_cons, IH. change (zlen (chunk_bytes c)) with 2. lia. Qed.

(** A feedback message (RTCP 205, format 15). *)
Definition feedback_message (h0 l1 l2 : Z) (ssrcs : bytes) (base ref fb_count : Z) (cs : list status_chunk) (rs : list (Z * Z)) (padding : bytes) : bytes :=
  [h0; 205; l1; l2] ++ ssrcs ++ [u8 (Z.shiftr base 8); u8 base; u8 (Z.shiftr (zlen rs) 8); u8 (zlen rs)] ++
  [u8 (Z.shiftr ref 16); u8 (Z.shiftr ref 8); u8 ref; fb_count] ++ concat (map chunk_bytes cs) ++ concat (map delta_bytes rs) ++ padding.

(** C29. A feedback message on at most 1024 packets, however its statuses are cut into chunks,
    is read as it was meant: the arrival times are the reference time and the deltas summed
    up; of the packets that are still in the history, the last of the feedback before among
    them, each is held against the one before it, by how much more their arrivals are apart
    than their departures; the delay estimator gets the first 64 of these differences in this
    order, the last packet found is kept for the next feedback, and the loss estimator gets
    the numbers of packets lost and received. The layout is that of the draft whose extension
    the offer names (draft-holmer-rmcat-transport-wide-cc-extensions-01: counts from byte 12,
    64 ms units, chunks from byte 20), which the code follows; the offsets in the comment over
    [twcc_parse_ccfb] are four bytes off. *)
Theorem feedback_decodes t now ok h0 l1 l2 ssrcs base ref fb_count cs rs padding :
  Z.land h0 31 = 15 -> length ssrcs = 8%nat -> 0 <= base < 65536 -> 0 <= ref < 16777216 ->
  Forall chunk_ok cs -> Forall report_ok rs -> (0 < length rs <= 1024)%nat ->
  says (length rs) cs -> take (length rs) (concat (map symbols cs)) = map fst rs ->
  let msg := feedback_message h0 l1 l2 ssrcs base ref fb_count cs rs padding in
  zst_webrtc_twcc_process_incoming t now ok msg (zlen msg) =
    let seen := omap (found t) (arrivals base 0 (ref * 64000) rs) in
    let ds := take 64 (gaps (previous t ++ seen)) in
    gcc_update (fold_left gcc_delay_update ds (remember t seen)) now ok (mk_feedback (lost_in rs) (received_in rs) ds).
Proof.
  intros Hh0 Hss Hbase Href Hcs Hrs Hlen Hsays Hsym msg.
  set (hdr := [h0; 205; l1; l2] ++ ssrcs ++ [u8 (Z.shiftr base 8); u8 base; u8 (Z.shiftr (zlen rs) 8); u8 (zlen rs)] ++
    [u8 (Z.shiftr ref 16); u8 (Z.shiftr ref 8); u8 ref; fb_count]).
  assert (msg = hdr ++ concat (map chunk_bytes cs) ++ concat (map delta_bytes rs) ++ padding) as Emsg
    by (subst msg hdr; unfold feedback_message; by rewrite <- !app_assoc).
  assert (zlen hdr = 20) as Ehdr by (subst hdr; unfold zlen; rewrite !length_app, Hss; done).
  assert (forall k, 0 <= k < 20 -> rd msg k = rd hdr k) as Hrd by (intros k Hk; rewrite Emsg, rd_app_l; [done|lia]).
  assert (zlen rs = Z.of_nat (length rs)) as Ers by done. assert (kept (zlen rs) = length rs) as Ek by (unfold kept; lia).
  pose proof (zlen_nonneg padding). pose proof (zlen_nonneg (concat (map delta_bytes rs))). pose proof (zlen_nonneg cs).
  assert (zlen msg = 20 + 2 * zlen cs + zlen (concat (map delta_bytes rs)) + zlen padding) as Esize
    by (rewrite Emsg, !zlen_app, Ehdr, zlen_chunks; lia).
  do 9 (destruct ssrcs as [|? ssrcs]; try discriminate Hss).
  unfold zst_webrtc_twcc_process_incoming. destruct (Z.ltb_spec (zlen msg) 4); [lia|]. rewrite !(Hrd 1), (Hrd 0) by lia.
  change (rd hdr 1) with 205. change (rd hdr 0) with h0. rewrite Hh0. cbn [Z.leb Z.eqb andb Z.compare Pos.compare Pos.compare_cont Pos.eqb].
  unfold twcc_parse_ccfb. destruct (Z.ltb_spec (zlen msg) 20); [lia|]. rewrite !Hrd by lia.
  change (rd hdr 12) with (u8 (Z.shiftr base 8)). change (rd hdr 13) with (u8 base). change (rd hdr 14) with (u8 (Z.shiftr (zlen rs) 8)).
  change (rd hdr 15) with (u8 (zlen rs)). change (rd hdr 16) with (u8 (Z.shiftr ref 16)). change (rd hdr 17) with (u8 (Z.shiftr ref 8)).
  change (rd hdr 18) with (u8 ref). rewrite !be16_u8, be24_u8 by lia. cbv zeta. destruct (Z.eqb_spec (zlen rs) 0); [lia|].
  rewrite Emsg at 2. change 20 with 20 at 1. rewrite <- Ehdr.
  rewrite parse_chunks_spec; [|unfold zlen in *; lia|done|by rewrite Emsg|cbn; lia|by rewrite Ek, Nat.sub_0_r]. rewrite Ek. cbn [app]. rewrite Hsym.
  assert (zlen hdr + 2 * zlen cs = zlen (hdr ++ concat (map chunk_bytes cs))) as -> by (rewrite zlen_app, zlen_chunks; done).
  rewrite Emsg at 1. rewrite (app_assoc hdr). rewrite parse_deltas_spec; [|done|lia|lia|].
  - cbn [fb_lost fb_received fb_deltas]. rewrite (u64_small (ref * 64000)) by lia. rewrite !Z.add_0_l. 
    pose proof (note_all_found (arrivals base 0 (ref * 64000) rs) t [] ltac:(by left)) as En. cbn [app] in En.
    replace (take 64 (gaps (previous t))) with (@nil cfloat) in En by (unfold previous; by destruct (tw_have_prev_ref t)). by rewrite En.
  - rewrite !zlen_app, zlen_chunks, Ehdr. lia.
Qed.

(** ** Memory *)

Lemma put_chunk_length count chunk ss : (length ss <= kept count)%nat -> (length (put_chunk count chunk ss) <= kept count)%nat.
Proof.
  unfold put_chunk. intros Hs. destruct (_ =? 0).
  - rewrite put_run_spec, length_app, length_take. lia.
  - cbv zeta. match goal with |- context [put_symbols _ ?k 0 ?v _ _] => generalize k; intros n; generalize v; intros w end. generalize 0 as i. revert ss Hs.
    induction n as [|n IH]; intros ss Hs i; cbn [put_symbols]; [done|]. destruct (room count ss) eqn:E; [|done]. apply room_spec in E.
    apply IH. rewrite length_app. cbn. lia.
Qed.

Lemma parse_chunks_bounds rounds msg size count offset ss : offset <= size -> (length ss <= kept count)%nat ->
  let '(offset', ss') := parse_chunks rounds msg size count offset ss in offset <= offset' <= size /\ (length ss' <= kept count)%nat.
Proof.
  revert offset ss. induction rounds as [|rounds IH]; intros offset ss Ho Hs; cbn [parse_chunks]; [lia|].
  destruct (Z.leb_spec (offset + 2) size); cbn [andb]; [|lia]. destruct (room count ss); [|lia].
  specialize (IH (offset + 2) (put_chunk count (be16 (rd msg offset) (rd msg (offset + 1))) ss) ltac:(lia) (put_chunk_length _ _ _ Hs)).
  destruct (parse_chunks _ _ _ _ _ _). lia.
Qed.

Lemma note_arrival_length t seq recv ds : zlen ds <= 64 -> zlen (note_arrival t seq recv ds).2 <= 64.
Proof.
  intros Hd. unfold note_arrival. destruct (_ && negb _); [|done]. cbn [snd]. destruct (tw_have_prev_ref t); [|done]. cbn [andb].
  destruct (Z.ltb_spec (zlen ds) 64); [|done]. rewrite zlen_app, zlen_cons, @zlen_nil. lia.
Qed.

Lemma parse_deltas_length msg size base ss i off recv t fb : zlen (fb_deltas fb) <= 64 ->
  zlen (fb_deltas (parse_deltas msg size base ss i off recv t fb).2) <= 64.
Proof.
  revert i off recv t fb. induction ss as [|st ss IH]; intros i off recv t fb Hd; cbn [parse_deltas]; [done|].
  destruct (st =? 0); [by apply IH|]. destruct (read_delta _ _ _ _ _) as [[recv' off']|]; [|done]. cbn [fb_deltas].
  pose proof (note_arrival_length t (u16 (base + u16 i)) recv' (fb_deltas fb) Hd) as Hn. destruct (note_arrival _ _ _ _) as [t' ds]. by apply IH.
Qed.

(** [msg] and [msg'] hold the same [size] bytes. *)
Definition agree (size : Z) (msg msg' : bytes) : Prop := forall i, 0 <= i < size -> rd msg i = rd msg' i.

Lemma parse_chunks_agree rounds msg msg' size count offset ss : agree size msg msg' -> 0 <= offset ->
  parse_chunks rounds msg size count offset ss = parse_chunks rounds msg' size count offset ss.
Proof.
  intros Ha. revert offset ss. induction rounds as [|rounds IH]; intros offset ss Ho; cbn [parse_chunks]; [done|].
  destruct (Z.leb_spec (offset + 2) size); cbn [andb]; [|done]. destruct (room count ss); [|done].
  rewrite !Ha by lia. apply IH. lia.
Qed.

Lemma read_delta_agree msg msg' size st offset recv : agree size msg msg' -> 0 <= offset ->
  read_delta msg size st offset recv = read_delta msg' size st offset recv.
Proof.
  intros Ha Ho. unfold read_delta. destruct (st =? 1).
  - destruct (Z.ltb_spec size (offset + 1)); [done|]. by rewrite Ha by lia.
  - destruct (Z.ltb_spec size (offset + 2)); [done|]. by rewrite !Ha by lia.
Qed.

Lemma parse_deltas_agree msg msg' size base ss i offset recv t fb : agree size msg msg' -> 0 <= offset ->
  parse_deltas msg size base ss i offset recv t fb = parse_deltas msg' size base ss i offset recv t fb.
Proof.
  intros Ha. revert i offset recv t fb. induction ss as [|st ss IH]; intros i offset recv t fb Ho; cbn [parse_deltas]; [done|].
  destruct (st =? 0); [by apply IH|]. rewrite (read_delta_agree msg msg') by done.
  destruct (read_delta msg' size st offset recv) as [[recv' off']|] eqn:E; [|done]. destruct (note_arrival _ _ _ _) as [t' ds]. apply IH.
  unfold read_delta in E. destruct (st =? 1); (destruct (size <? _); [done|]); injection E as _ <-; lia.
Qed.

(** C30. Whatever a feedback message of [size] bytes holds, its parser uses no byte beyond
    them, and writes at most 1024 statuses and 64 differences, the sizes of its arrays. *)
Theorem feedback_in_bounds t now ok msg msg' size : agree size msg msg' ->
  zst_webrtc_twcc_process_incoming t now ok msg size = zst_webrtc_twcc_process_incoming t now ok msg' size /\
  (20 <= size -> forall count, let '(offset, ss) := parse_chunks (Z.to_nat size) msg size count 20 [] in
     zlen ss <= 1024 /\ offset <= size /\
     forall base recv, zlen (fb_deltas (parse_deltas msg size base ss 0 offset recv t (mk_feedback 0 0 [])).2) <= 64).
Proof.
  intros Ha. split.
  - unfold zst_webrtc_twcc_process_incoming. destruct (Z.ltb_spec size 4); [done|]. rewrite !(Ha 1), (Ha 0) by lia. destruct (_ && _ && _ && _); [|done].
    unfold twcc_parse_ccfb. destruct (Z.ltb_spec size 20); [done|]. rewrite !Ha by lia. cbv zeta. destruct (_ =? 0); [done|].
    rewrite (parse_chunks_agree _ msg msg') by done.
    pose proof (parse_chunks_bounds (Z.to_nat size) msg' size (be16 (rd msg' 14) (rd msg' 15)) 20 [] ltac:(lia) ltac:(cbn; lia)) as Hb.
    destruct (parse_chunks _ _ _ _ _ _) as [offset ss]. rewrite (parse_deltas_agree msg msg') by (done || lia). done.
  - intros Hs count. pose proof (parse_chunks_bounds (Z.to_nat size) msg size count 20 [] Hs ltac:(cbn; lia)) as Hb.
    destruct (parse_chunks _ _ _ _ _ _) as [offset ss]. split; [unfold kept, zlen in *; lia|]. split; [lia|].
    intros base recv. apply parse_deltas_length. done.
Qed.

(** ** Outgoing packets *)

(** The first byte of a packet: version 2, no extension, and what becomes of it. *)
Lemma first_byte b : is_byte b -> Z.land b 192 = 128 -> Z.land b 16 = 0 ->
  Z.land (Z.shiftr b 6) 3 = 2 /\ Z.land (Z.shiftr b 4) 1 = 0 /\ Z.land (u8 (Z.lor b 16)) 192 = 128 /\
  Z.land (u8 (Z.lor b 16)) 15 = Z.land b 15 /\ Z.land (u8 (Z.lor b 16)) 16 = 16 /\ 0 <= Z.land b 15 < 16.
Proof.
  intros Hb H1 H2. pose (P b := implb ((Z.land b 192 =? 128) && (Z.land b 16 =? 0))
    ((Z.land (Z.shiftr b 6) 3 =? 2) && (Z.land (Z.shiftr b 4) 1 =? 0) && (Z.land (u8 (Z.lor b 16)) 192 =? 128) &&
     (Z.land (u8 (Z.lor b 16)) 15 =? Z.land b 15) && (Z.land (u8 (Z.lor b 16)) 16 =? 16) && (0 <=? Z.land b 15) && (Z.land b 15 <? 16))).
  assert (P b = true) as HP by (apply byte_forall; [by vm_compute|done]). unfold P in HP.
  rewrite H1, H2 in HP. cbn [Z.eqb Pos.eqb andb implb] in HP. rewrite !andb_true_iff, !Z.eqb_eq, Z.leb_le, Z.ltb_lt in HP. tauto.
Qed.

Lemma extension_byte id : 0 <= id <= 14 ->
  Z.shiftr (u8 (Z.lor (Z.shiftl id 4) 1)) 4 = id /\ Z.land (u8 (Z.lor (Z.shiftl id 4) 1)) 15 = 1.
Proof.
  intros Hid. assert (id ∈ map Z.of_nat (seq 0 15)) as Hin.
  { apply list_elem_of_In, in_map_iff. exists (Z.to_nat id). split; [lia|]. apply in_seq. lia. }
  revert Hin. cbn [seq map]. intros Hin. repeat (apply elem_of_cons in Hin as [->|Hin]; [by vm_compute|]). by apply elem_of_nil in Hin.
Qed.

(** An RTP packet without a header extension goes out eight bytes longer, and the RTP
    parser of the depayloader reads from it what it read before: the same payload, times
    and numbers.  After the header it carries one extension word with the extension's
    number and the transport sequence number, which goes up by one for each packet and
    under which the time of sending is found. *)
Theorem outgoing_parses t now buf msg v : mem_data buf = Some msg -> mem_size buf = zlen msg -> bytes_ok msg ->
  rtp_depayloader_parse_rtp buf = Some v -> Z.land (rd msg 0) 16 = 0 -> zlen msg + 8 <= 2048 ->
  ~ 64 <= view_payload_type v <= 95 -> 0 <= tw_extmap_id t <= 14 -> 0 <= tw_seq_num t < 65536 ->
  exists out, let t' := (zst_webrtc_twcc_process_outgoing t now msg (zlen msg)).1 in
    (zst_webrtc_twcc_process_outgoing t now msg (zlen msg)).2 = Some out /\ zlen out = zlen msg + 8 /\
    (forall buf', mem_data buf' = Some out -> mem_size buf' = zlen out -> rtp_depayloader_parse_rtp buf' = Some v) /\
    (let h := 12 + 4 * Z.land (rd msg 0) 15 in
     sub_bytes h 4 out = [190; 222; 0; 1] /\ Z.shiftr (rd out (h + 4)) 4 = tw_extmap_id t /\ Z.land (rd out (h + 4)) 15 = 1 /\
     be16 (rd out (h + 5)) (rd out (h + 6)) = tw_seq_num t) /\
    tw_seq_num t' = u16 (tw_seq_num t + 1) /\
    history_at t' (tw_seq_num t mod TWCC_HISTORY_SIZE) = mk_sent (tw_seq_num t) now (zlen msg).
Proof.
  intros Hd Hsz Hok Hv Hx Hfit Hpt Hid Hseq. unfold rtp_depayloader_parse_rtp in Hv. rewrite Hd, Hsz in Hv. cbv zeta in Hv.
  destruct (Z.ltb_spec (zlen msg) 12); [discriminate Hv|]. cbn [orb] in Hv. destruct (RTP_DEPAYLOADER_MAX_PACKET <? zlen msg); [discriminate Hv|].
  destruct (Z.eqb_spec (Z.land (rd msg 0) 192) 128) as [Hver|]; [|discriminate Hv]. cbn [negb] in Hv.
  destruct (Z.ltb_spec (zlen msg) (12 + Z.land (rd msg 0) 15 * 4)); [discriminate Hv|]. rewrite Hx in Hv. cbn [Z.eqb negb] in Hv. injection Hv as <-.
  cbn [view_payload_type] in Hpt. destruct (first_byte (rd msg 0) (rd_byte msg 0 Hok) Hver Hx) as (B1 & B2 & B3 & B4 & B5 & Hcc).
  destruct (extension_byte (tw_extmap_id t) Hid) as [X1 X2].
  set (cc := Z.land (rd msg 0) 15) in *. set (h := 12 + cc * 4) in *.
  assert (exists b rest, sub_bytes 0 h msg = b :: rest /\ b = rd msg 0 /\ zlen rest = h - 1) as (b0 & rest & Esub & Hb0 & Hrest).
  { pose proof (zlen_sub_bytes 0 h msg ltac:(lia) ltac:(lia) ltac:(lia)) as Hl. destruct (sub_bytes 0 h msg) as [|b rest] eqn:E; [rewrite @zlen_nil in Hl; lia|].
    exists b, rest. split; [done|]. rewrite zlen_cons in Hl. split; [|lia]. destruct msg as [|b1 msg]; [rewrite @zlen_nil in *; lia|].
    unfold sub_bytes in E. replace (Z.to_nat h) with (S (Z.to_nat (h - 1))) in E by lia. by injection E as <- _. }
  set (pay := sub_bytes h (zlen msg - h) msg).
  assert (msg = b0 :: rest ++ pay) as Emsg.
  { change (b0 :: rest ++ pay) with ((b0 :: rest) ++ pay). rewrite <- Esub. unfold pay.
    rewrite <- (sub_bytes_all msg (h + (zlen msg - h))) at 1 by lia. rewrite sub_bytes_split by lia. done. }
  set (ext := [190; 222; 0; 1; u8 (Z.lor (Z.shiftl (tw_extmap_id t) 4) 1); Z.land (Z.shiftr (tw_seq_num t) 8) 255; Z.land (tw_seq_num t) 255; 0]).
  exists (u8 (Z.lor (rd msg 0) 16) :: rest ++ ext ++ pay). cbv zeta.
  unfold zst_webrtc_twcc_process_outgoing. destruct (Z.ltb_spec (tw_extmap_id t) 0); [lia|]. destruct (Z.ltb_spec (zlen msg) 12); [lia|].
  rewrite B1, B2. cbn [Z.eqb Pos.eqb negb]. replace ((64 <=? Z.land (rd msg 1) 127) && (Z.land (rd msg 1) 127 <=? 95)) with false
    by (symmetry; apply andb_false_iff; rewrite !Z.leb_gt; lia). fold cc. fold h. destruct (Z.ltb_spec (zlen msg) h); [lia|].
  destruct (Z.ltb_spec 2048 (zlen msg + 8)); [lia|]. rewrite Esub, Hb0. cbn [fst snd tw_seq_num with_sent]. fold ext. fold pay.
  assert (zlen pay = zlen msg - h) as Hpay by (apply zlen_sub_bytes; lia).
  assert (zlen (u8 (Z.lor (rd msg 0) 16) :: rest ++ ext ++ pay) = zlen msg + 8) as Hout
    by (rewrite zlen_cons, !zlen_app, Hpay, Hrest; change (zlen ext) with 8; lia).
  set (c0 := u8 (Z.lor (rd msg 0) 16)) in *. set (out := c0 :: rest ++ ext ++ pay) in *.
  assert (zlen (c0 :: rest) = h) as Hch by (rewrite zlen_cons; lia).
  assert (forall i, 1 <= i < 12 -> rd out i = rd msg i) as Hsame.
  { intros i Hi. rewrite Emsg. subst out. change (c0 :: ?l) with ([c0] ++ l). change (b0 :: ?l) with ([b0] ++ l).
    rewrite !(rd_app_r [_]) by (change (zlen [c0]) with 1; change (zlen [b0]) with 1; lia). change (zlen [c0]) with 1. change (zlen [b0]) with 1.
    by rewrite !rd_app_l by lia. }
  assert (forall j, 0 <= j < 8 -> rd out (h + j) = rd ext j) as Hext.
  { intros j Hj. subst out. change (c0 :: rest ++ ext ++ pay) with ((c0 :: rest) ++ ext ++ pay). rewrite rd_app_r by lia. rewrite Hch.
    replace (h + j - h) with j by lia. rewrite rd_app_l; [done|]. change (zlen ext) with 8. lia. }
  split; [done|]. split; [done|]. split; [|split; [|split; [done|]]].
  - intros buf' Hd' Hsz'. unfold rtp_depayloader_parse_rtp. rewrite Hd', Hsz', Hout. cbv zeta.
    destruct (Z.ltb_spec (zlen msg + 8) 12); [lia|]. destruct (Z.ltb_spec RTP_DEPAYLOADER_MAX_PACKET (zlen msg + 8)); [unfold RTP_DEPAYLOADER_MAX_PACKET in *; lia|].
    cbn [orb]. change (rd out 0) with c0. rewrite B3, B4, B5. fold h. cbn [Z.eqb Pos.eqb negb].
    destruct (Z.ltb_spec (zlen msg + 8) h); [lia|]. destruct (Z.ltb_spec (zlen msg + 8) (h + 4)); [lia|].
    rewrite (Hext 2), (Hext 3) by lia. change (be16 (rd ext 2) (rd ext 3)) with 1. change (4 + 1 * 4) with 8.
    destruct (Z.ltb_spec (zlen msg + 8) (h + 8)); [lia|]. rewrite !Hsame by lia. do 2 f_equal; [|lia..].
    replace (zlen msg + 8 - (h + 8)) with (zlen pay) by lia.
    replace out with (((c0 :: rest) ++ ext) ++ pay) by (subst out; by rewrite <- app_assoc).
    replace (h + 8) with (zlen ((c0 :: rest) ++ ext)) by (rewrite zlen_app, Hch; done). by apply sub_bytes_app_r.
  - replace (12 + 4 * cc) with h by (subst h; lia). split; [|split; [|split]].
    + replace out with ((c0 :: rest) ++ [190; 222; 0; 1] ++ drop 4 ext ++ pay) by done. unfold sub_bytes.
      replace (Z.to_nat h) with (length (c0 :: rest)) by (unfold zlen in Hch; lia). by rewrite drop_app_length.
    + by rewrite (Hext 4) by lia.
    + by rewrite (Hext 4) by lia.
    + rewrite (Hext 5), (Hext 6) by lia. change (rd ext 5) with (Z.land (Z.shiftr (tw_seq_num t) 8) 255). change (rd ext 6) with (Z.land (tw_seq_num t) 255).
      rewrite !(land_ones_mod _ 8 255) by (done || lia). change (2 ^ 8) with 256. by apply be16_u8.
  - unfold history_at. cbn [tw_history with_sent]. by rewrite lookup_insert_eq.
Qed.

(** ** Examples *)

Definition twcc_new : zst_webrtc_twcc := default (mk_twcc 0 0 0 ∅ f_zero f_zero TWCC_STATE_NORMAL 0 0 false f_zero 0 0 0 0 0 [])
  (zst_webrtc_twcc_create true 1000000 7).
Definition crlf : string := String cr (String nl "").
Definition example_offer : list ascii :=
  chars ("v=0" ++ crlf ++ "a=extmap:5 http://www.ietf.org/id/draft-holmer-rmcat-transport-wide-cc-extensions-01" ++ crlf).
Definition twcc_offered : zst_webrtc_twcc := (zst_webrtc_twcc_parse_offer twcc_new example_offer).1.
Definition example_rtp : bytes := [128; 96; 0; 9; 0; 0; 0; 1; 0; 0; 0; 2; 171; 172].
Definition rtp_buffer (l : bytes) : zst_buffer := mk_buffer ZST_BUFFER_USER 0 0 0 0 (Some l) (zlen l).

(** Two packets are sent; of the feedback on three, the second is missing. *)
Definition twcc_sent : zst_webrtc_twcc := twcc_run (twcc_run twcc_offered (TwccOutgoing 1000000 example_rtp)) (TwccOutgoing 1020000 example_rtp).
Definition example_reports : list (Z * Z) := [(1, 80); (0, 0); (2, -20)].
Definition example_chunks : list status_chunk := [Pairs [1; 0; 2; 0; 0; 0; 0]].
Definition example_feedback : bytes := feedback_message 143 0 5 [0;0;0;1;0;0;0;2] 1 10 1 example_chunks example_reports [0; 0; 0].

Example example_offer_found : tw_extmap_id twcc_offered = 5.
Proof. by vm_compute. Qed.

Lemma twcc_offered_reach : twcc_reach twcc_offered.
Proof. apply (twcc_called twcc_new (TwccOffer example_offer)). by apply (twcc_created 1000000 7). Qed.

Lemma inject_answer_exact_witness :
  zst_webrtc_twcc_inject_answer twcc_offered true (chars ("v=0" ++ crlf ++ crlf ++ "c=IN IP4 1.2.3.4" ++ crlf)) 200 =
    (0, chars ("v=0" ++ crlf ++ "c=IN IP4 1.2.3.4" ++ crlf) ++ inj_line 5).
Proof. rewrite (inject_answer_exact twcc_offered) by (vm_compute; discriminate). by vm_compute. Defined.

Lemma estimates_bounded_witness : rate_ok (tw_current_bitrate_bps (twcc_run twcc_sent (TwccIncoming 1200000 true example_feedback))).
Proof.
  pose proof (estimates_bounded (twcc_run twcc_sent (TwccIncoming 1200000 true example_feedback))) as (H1 & H2 & -> & _).
  - do 3 apply twcc_called. apply twcc_offered_reach.
  - unfold rate_ok in *. lia.
Defined.

(** Both packets that were sent: they came 5 ms apart, in the other order, and left 20 ms apart. *)
Definition both_reports : list (Z * Z) := [(1, 80); (2, -20); (0, 0); (1, 3)].
Definition both_feedback : bytes := feedback_message 143 0 5 [0;0;0;1;0;0;0;2] 1 10 1 [Pairs [1; 2; 0; 1; 0; 0; 0]] both_reports [0].

Lemma feedback_decodes_witness :
  omap (found twcc_sent) (arrivals 1 0 640000 both_reports) = [(1000000, 660000); (1020000, 655000)] /\
  let seen := omap (found twcc_sent) (arrivals 1 0 640000 both_reports) in
  zst_webrtc_twcc_process_incoming twcc_sent 1200000 true both_feedback (zlen both_feedback) =
    gcc_update (fold_left gcc_delay_update (take 64 (gaps seen)) (remember twcc_sent seen)) 1200000 true
      (mk_feedback 1 3 (take 64 (gaps seen))).
Proof.
  split; [by vm_compute|].
  unfold both_feedback.
  rewrite (feedback_decodes twcc_sent 1200000 true 143 0 5 [0;0;0;1;0;0;0;2] 1 10 1 [Pairs [1; 2; 0; 1; 0; 0; 0]] both_reports [0]); try done.
  all: try (vm_compute; by repeat constructor).
Defined.

Lemma feedback_in_bounds_witness :
  zst_webrtc_twcc_process_incoming twcc_sent 1200000 true (take 25 example_feedback) 25 =
  zst_webrtc_twcc_process_incoming twcc_sent 1200000 true example_feedback 25.
Proof.
  apply feedback_in_bounds. intros i Hi. unfold rd. by rewrite lookup_take_lt by lia.
Defined.

Lemma outgoing_parses_witness : exists out,
  (zst_webrtc_twcc_process_outgoing twcc_offered 1000000 example_rtp (zlen example_rtp)).2 = Some out /\
  rtp_depayloader_parse_rtp (rtp_buffer out) = rtp_depayloader_parse_rtp (rtp_buffer example_rtp).
Proof.
  destruct (outgoing_parses twcc_offered 1000000 (rtp_buffer example_rtp) example_rtp (mk_view [171; 172] 2 96 false 9 1 2))
    as (out & E & _ & Hp & _); try done; try (vm_compute; by repeat constructor); try (cbn [view_payload_type]; lia).
  exists out. split; [exact E|]. by rewrite (Hp (rtp_buffer out)).
Defined.

(** ** Feedback on more than 1024 packets

    The array of statuses is full after 1024, and the chunks that are left are read as if
    they were deltas: here runs of 1024 and of 6 received packets, whose second chunk (the
    bytes 32 and 6 at offset 22) is where the parser starts on the deltas.  The first
    delta is two bytes further on. *)
Lemma long_feedback_misread :
  let msg := feedback_message 143 0 5 [0;0;0;1;0;0;0;2] 1 10 1 [RunOf 1024 1; RunOf 6 1] (repeat (1, 4) 1030) [] in
  (parse_chunks (Z.to_nat (zlen msg)) msg (zlen msg) 1030 20 []).1 = 22 /\ rd msg 22 = 32 /\ rd msg 23 = 6 /\ rd msg 24 = 4.
Proof. by vm_compute. Qed.
