(* ===== verification/Sha1.v ===== *)
(** * SHA-1 and Base64 of the WebSocket handshake: [src/zst_ws_server.c]

    Also the Base64 decoder of [src/sdp_demuxer.c].  A [uint32_t] is a [Z], bytes and
    characters are their codes. *)

From Stdlib Require Import String Ascii.
From S2P Require Import Prelude CLib.

Local Open Scope Z_scope.

(** The characters of a literal, without the NUL. *)
Definition text (s : string) : bytes := map (fun c => Z.of_nat (nat_of_ascii c)) (list_ascii_of_string s).

Module Sha1.

(** ** [sha1_transform] *)

Record regs := mk_regs { ra : Z; rb : Z; rc : Z; rd_ : Z; re : Z }.

(** [(v << n) | (v >> (32 - n))] *)
Definition rotl (n v : Z) : Z := Z.lor (u32 (Z.shiftl v n)) (Z.shiftr v (32 - n)).

Definition word_at (buffer : bytes) (i : nat) : Z :=
  let k := 4 * Z.of_nat i in be32 (rd buffer k) (rd buffer (k + 1)) (rd buffer (k + 2)) (rd buffer (k + 3)).

(** [w], as far as it is filled in: [n] more words. *)
Fixpoint expand (n : nat) (w : list Z) : list Z :=
  match n with
  | O => w
  | S n =>
      let i := zlen w in
      let val := Z.lxor (Z.lxor (Z.lxor (rd w (i - 3)) (rd w (i - 8))) (rd w (i - 14))) (rd w (i - 16)) in
      expand n (w ++ [rotl 1 val])
  end.

Definition round_f (i : Z) (b c d : Z) : Z :=
  if i <? 20 then Z.lor (Z.land b c) (Z.land (u32 (Z.lnot b)) d)
  else if i <? 40 then Z.lxor (Z.lxor b c) d
  else if i <? 60 then Z.lor (Z.lor (Z.land b c) (Z.land b d)) (Z.land c d)
  else Z.lxor (Z.lxor b c) d.
Definition round_k (i : Z) : Z :=
  if i <? 20 then 1518500249 else if i <? 40 then 1859775393 else if i <? 60 then 2400959708 else 3395469782.

Definition round (w : list Z) (r : regs) (i : nat) : regs :=
  let z := Z.of_nat i in
  let temp := u32 (rotl 5 (ra r) + round_f z (rb r) (rc r) (rd_ r) + re r + round_k z + rd w z) in
  mk_regs temp (ra r) (rotl 30 (rb r)) (rc r) (rd_ r).

Definition sha1_transform (state : regs) (buffer : bytes) : regs :=
  let w := expand 64 (map (word_at buffer) (seq 0 16)) in
  let r := fold_left (round w) (seq 0 80) state in
  mk_regs (u32 (ra state + ra r)) (u32 (rb state + rb r)) (u32 (rc state + rc r)) (u32 (rd_ state + rd_ r)) (u32 (re state + re r)).

(** ** [sha1] *)

Definition init_state : regs := mk_regs 1732584193 4023233417 2562383102 271733878 3285377520.

(** The blocks that are full: [while (len - i >= 64)]. *)
Fixpoint full_blocks (rounds : nat) (data : bytes) (len i : Z) (state : regs) : Z * regs :=
  match rounds with
  | O => (i, state)
  | S rounds => if 64 <=? len - i then full_blocks rounds data len (i + 64) (sha1_transform state (sub_bytes i 64 data)) else (i, state)
  end.

Definition length_bytes (bits : Z) : bytes :=
  [u8 (Z.shiftr bits 56); u8 (Z.shiftr bits 48); u8 (Z.shiftr bits 40); u8 (Z.shiftr bits 32);
   u8 (Z.shiftr bits 24); u8 (Z.shiftr bits 16); u8 (Z.shiftr bits 8); u8 bits].

Definition put_word (v : Z) : bytes := [u8 (Z.shiftr v 24); u8 (Z.shiftr v 16); u8 (Z.shiftr v 8); u8 v].

Definition sha1 (data : bytes) (len : Z) : bytes :=
  let bits := u64 (len * 8) in
  let '(i, state) := full_blocks (Z.to_nat len) data len 0 init_state in
  let rem := len - i in
  let pad := sub_bytes i rem data ++ [128] ++ repeat 0 (Z.to_nat (63 - rem)) in
  let '(state, pad) := if 56 <=? rem then (sha1_transform state pad, repeat 0 64) else (state, pad) in
  let state := sha1_transform state (sub_bytes 0 56 pad ++ length_bytes bits) in
  put_word (ra state) ++ put_word (rb state) ++ put_word (rc state) ++ put_word (rd_ state) ++ put_word (re state).

End Sha1.

Module Base64.

Definition b64 : bytes := text "ABCDEFGHIJKLMNOPQRSTUVWXYZabcdefghijklmnopqrstuvwxyz0123456789+/".

(** Four characters for the next three bytes, fewer at the end; [j] is the length of
    what is written. *)
Fixpoint encode_loop (rounds : nat) (inp : bytes) (in_len out_cap i : Z) (out : bytes) : bytes :=
  match rounds with
  | O => out
  | S rounds =>
      if (i <? in_len) && (zlen out + 4 <? out_cap) then
        let val := Z.shiftl (rd inp i) 16 in
        let i := i + 1 in
        let '(val, i, count) := if i <? in_len then (Z.lor val (Z.shiftl (rd inp i) 8), i + 1, 2) else (val, i, 1) in
        let '(val, i, count) := if i <? in_len then (Z.lor val (rd inp i), i + 1, count + 1) else (val, i, count) in
        let c0 := rd b64 (Z.land (Z.shiftr val 18) 63) in
        let c1 := rd b64 (Z.land (Z.shiftr val 12) 63) in
        let c2 := if 2 <=? count then rd b64 (Z.land (Z.shiftr val 6) 63) else 61 in
        let c3 := if count =? 3 then rd b64 (Z.land val 63) else 61 in
        encode_loop rounds inp in_len out_cap i (out ++ [c0; c1; c2; c3])
      else out
  end.

(** The characters before the NUL. *)
Definition base64_encode (inp : bytes) (in_len out_cap : Z) : bytes := encode_loop (Z.to_nat in_len) inp in_len out_cap 0 [].

(** ** [sdp_base64_decode] *)

Definition sdp_base64_value (ch : Z) : Z :=
  if (65 <=? ch) && (ch <=? 90) then ch - 65
  else if (97 <=? ch) && (ch <=? 122) then ch - 97 + 26
  else if (48 <=? ch) && (ch <=? 57) then ch - 48 + 52
  else if ch =? 43 then 62
  else if ch =? 47 then 63
  else if ch =? 61 then -2
  else -1.

Definition isspace (ch : Z) : bool := (ch =? 32) || ((9 <=? ch) && (ch <=? 13)).

(** [val] is an [int]; the bits shifted out of it are lost.  [None] is -1. *)
Fixpoint decode_loop (inp : bytes) (out_cap val valb : Z) (out : bytes) : option bytes :=
  match inp with
  | [] => Some out
  | ch :: inp =>
      if ch =? 0 then Some out
      else if isspace ch then decode_loop inp out_cap val valb out
      else
        let d := sdp_base64_value ch in
        if d =? -2 then Some out
        else if d <? 0 then None
        else
          let val := s32 (Z.lor (Z.shiftl val 6) d) in
          let valb := valb + 6 in
          if 0 <=? valb then
            if out_cap <=? zlen out then None
            else decode_loop inp out_cap val (valb - 8) (out ++ [Z.land (Z.shiftr val valb) 255])
          else decode_loop inp out_cap val valb out
  end.

Definition sdp_base64_decode (inp : bytes) (out_cap : Z) : option bytes := decode_loop inp out_cap 0 (-8) [].

End Base64.
