(* ===== verification/Sha1Spec.v ===== *)
(** * SHA-1 and Base64 against their standards: [Sha1] *)

From Stdlib Require Import String Ascii.
From S2P Require Import Prelude CLib Sha1.
Import Sha1 Base64.

Local Open Scope Z_scope.

(** ** FIPS 180: the hash as the standard describes it

    A word is a number below 2^32; rotation and complement are written with arithmetic,
    the choice and majority functions with exclusive or, the schedule as a recursive
    function, and the message is padded before it is cut into blocks. *)
Module Fips.

Definition ROTL (n x : Z) : Z := (x * 2 ^ n) mod 2 ^ 32 + x / 2 ^ (32 - n).
Definition NOT (x : Z) : Z := 2 ^ 32 - 1 - x.
Definition Ch (x y z : Z) : Z := Z.lxor (Z.land x y) (Z.land (NOT x) z).
Definition Parity (x y z : Z) : Z := Z.lxor x (Z.lxor y z).
Definition Maj (x y z : Z) : Z := Z.lxor (Z.land x y) (Z.lxor (Z.land x z) (Z.land y z)).

Definition F (t : nat) : Z -> Z -> Z -> Z :=
  if Nat.leb t 19 then Ch else if Nat.leb t 39 then Parity else if Nat.leb t 59 then Maj else Parity.
Definition K (t : nat) : Z :=
  if Nat.leb t 19 then 0x5a827999 else if Nat.leb t 39 then 0x6ed9eba1 else if Nat.leb t 59 then 0x8f1bbcdc else 0xca62c1d6.

(** The word [t] of a block of 64 bytes. *)
Definition M (block : bytes) (t : nat) : Z :=
  fold_left (fun v b => v * 256 + b) (take 4 (drop (4 * t) block)) 0.

(** The schedule; a number of rounds above [t] is enough. *)
Fixpoint W_ (rounds : nat) (block : bytes) (t : nat) : Z :=
  match rounds with
  | O => 0
  | S n =>
      if Nat.ltb t 16 then M block t
      else ROTL 1 (Z.lxor (W_ n block (t - 3)) (Z.lxor (W_ n block (t - 8)) (Z.lxor (W_ n block (t - 14)) (W_ n block (t - 16)))))
  end.
Definition W (block : bytes) (t : nat) : Z := W_ (S t) block t.

Definition step (block : bytes) (r : regs) (t : nat) : regs :=
  let '(mk_regs a b c d e) := r in
  mk_regs ((ROTL 5 a + F t b c d + e + K t + W block t) mod 2 ^ 32) a (ROTL 30 b) c d.

Definition add (x y : regs) : regs :=
  mk_regs ((ra x + ra y) mod 2 ^ 32) ((rb x + rb y) mod 2 ^ 32) ((rc x + rc y) mod 2 ^ 32) ((rd_ x + rd_ y) mod 2 ^ 32) ((re x + re y) mod 2 ^ 32).

Definition hash_block (h : regs) (block : bytes) : regs := add h (fold_left (step block) (seq 0 80) h).

(** A number as [n] bytes, the first one the most significant. *)
Fixpoint be (n : nat) (v : Z) : bytes := match n with O => [] | S n => (v / 256 ^ Z.of_nat n) mod 256 :: be n v end.

(** A one bit, zeroes, and the length in bits make whole blocks. *)
Definition padded (m : bytes) : bytes := m ++ [128] ++ repeat 0 (Z.to_nat ((55 - zlen m) mod 64)) ++ be 8 (8 * zlen m).

Fixpoint hash_blocks (n : nat) (l : bytes) (h : regs) : regs :=
  match n with O => h | S n => hash_blocks n (drop 64 l) (hash_block h (take 64 l)) end.

Definition H0 : regs := mk_regs 0x67452301 0xefcdab89 0x98badcfe 0x10325476 0xc3d2e1f0.

Definition sha1 (m : bytes) : bytes :=
  let h := hash_blocks (length (padded m) / 64) (padded m) H0 in
  be 4 (ra h) ++ be 4 (rb h) ++ be 4 (rc h) ++ be 4 (rd_ h) ++ be 4 (re h).

End Fips.

(** ** RFC 4648, section 4: Base64

    Three octets are four groups of six bits, each written as a character; what is left
    over is filled up with zero bits, and [=] stands for the characters that are missing. *)
Module Rfc4648.

(** Table 1: the letters, the small letters, the digits, [+] and [/]. *)
Definition character (v : Z) : Z :=
  if v <? 26 then 65 + v else if v <? 52 then 97 + (v - 26) else if v <? 62 then 48 + (v - 52) else if v =? 62 then 43 else 47.

Fixpoint base64 (l : bytes) : bytes :=
  match l with
  | [] => []
  | [a] => [character (a / 4); character (a mod 4 * 16); 61; 61]
  | [a; b] => [character (a / 4); character (a mod 4 * 16 + b / 16); character (b mod 16 * 4); 61]
  | a :: b :: c :: l => character (a / 4) :: character (a mod 4 * 16 + b / 16) :: character (b mod 16 * 4 + c / 64) :: character (c mod 64) :: base64 l
  end.

End Rfc4648.

(** ** Words *)

Definition word (x : Z) : Prop := 0 <= x < 4294967296.

Lemma word_bits x : 0 <= x -> (forall i, 32 <= i -> Z.testbit x i = false) -> word x.
Proof.
  intros H0 H. split; [done|]. destruct (Z.eq_dec x 0) as [->|]; [lia|]. apply (Z.log2_lt_pow2 x 32); [lia|].
  destruct (Z.lt_ge_cases (Z.log2 x) 32); [done|]. pose proof (Z.bit_log2 x ltac:(lia)) as E. by rewrite H in E by lia.
Qed.

Lemma bits_word x i : word x -> 32 <= i -> Z.testbit x i = false.
Proof.
  intros [H1 H2] Hi. replace x with (x mod 2 ^ 32) by (apply Z.mod_small; lia). by apply Z.mod_pow2_bits_high.
Qed.

Lemma lxor_word x y : word x -> word y -> word (Z.lxor x y).
Proof.
  intros Hx Hy. apply word_bits; [apply Z.lxor_nonneg; unfold word in *; lia|].
  intros i Hi. by rewrite Z.lxor_spec, !bits_word.
Qed.

Lemma rotl_ROTL n v : 0 <= n <= 32 -> word v -> rotl n v = Fips.ROTL n v.
Proof.
  intros Hn [H1 H2]. unfold rotl, Fips.ROTL, u32. change 4294967296 with (2 ^ 32). rewrite Z.shiftl_mul_pow2, Z.shiftr_div_pow2 by lia.
  replace (2 ^ 32) with (2 ^ (32 - n) * 2 ^ n) by (rewrite <- Z.pow_add_r by lia; f_equal; lia).
  assert (0 < 2 ^ n) by (apply Z.pow_pos_nonneg; lia). assert (0 < 2 ^ (32 - n)) by (apply Z.pow_pos_nonneg; lia).
  rewrite Z.mul_mod_distr_r by lia. rewrite <- Z.shiftl_mul_pow2 by lia. rewrite lor_shiftl_add; [by rewrite Z.shiftl_mul_pow2 by lia|lia|].
  split; [apply Z.div_pos; lia|]. apply Z.div_lt_upper_bound; [lia|]. rewrite <- Z.pow_add_r by lia. by replace (32 - n + n) with 32 by lia.
Qed.

Lemma ROTL_word n v : 0 <= n <= 32 -> word v -> word (Fips.ROTL n v).
Proof.
  intros Hn [H1 H2]. unfold Fips.ROTL, word. change 4294967296 with (2 ^ 32).
  replace (2 ^ 32) with (2 ^ (32 - n) * 2 ^ n) by (rewrite <- Z.pow_add_r by lia; f_equal; lia).
  assert (0 < 2 ^ n) by (apply Z.pow_pos_nonneg; lia). assert (0 < 2 ^ (32 - n)) by (apply Z.pow_pos_nonneg; lia).
  rewrite Z.mul_mod_distr_r by lia. pose proof (Z.mod_pos_bound v (2 ^ (32 - n)) ltac:(lia)).
  assert (0 <= v / 2 ^ (32 - n) < 2 ^ n).
  { split; [apply Z.div_pos; lia|]. apply Z.div_lt_upper_bound; [lia|]. rewrite <- Z.pow_add_r by lia. by replace (32 - n + n) with 32 by lia. }
  nia.
Qed.

Lemma round_f_F t b c d : word b -> (t < 80)%nat -> round_f (Z.of_nat t) b c d = Fips.F t b c d.
Proof.
  intros Hb Ht. unfold round_f, Fips.F.
  assert (Z.lor (Z.land b c) (Z.land (u32 (Z.lnot b)) d) = Fips.Ch b c d) as HCh.
  { unfold Fips.Ch, Fips.NOT. replace (2 ^ 32 - 1 - b) with (u32 (Z.lnot b)) by (unfold Z.lnot, word in *; cint).
    apply Z.bits_inj'. intros i Hi. rewrite Z.lor_spec, Z.lxor_spec, !Z.land_spec. unfold u32. change 4294967296 with (2 ^ 32).
    destruct (Z.ltb_spec i 32).
    - rewrite Z.mod_pow2_bits_low, Z.lnot_spec by lia. by destruct (Z.testbit b i), (Z.testbit c i), (Z.testbit d i).
    - rewrite Z.mod_pow2_bits_high by lia. by destruct (Z.testbit b i && Z.testbit c i). }
  assert (Z.lor (Z.lor (Z.land b c) (Z.land b d)) (Z.land c d) = Fips.Maj b c d) as HMaj.
  { unfold Fips.Maj. apply Z.bits_inj'. intros i Hi. rewrite !Z.lor_spec, !Z.lxor_spec, !Z.land_spec.
    by destruct (Z.testbit b i), (Z.testbit c i), (Z.testbit d i). }
  rewrite HCh, HMaj, Z.lxor_assoc. fold (Fips.Parity b c d). zbool; destruct (Nat.leb_spec t 19), (Nat.leb_spec t 39), (Nat.leb_spec t 59); lia || done.
Qed.

Lemma round_k_K t : round_k (Z.of_nat t) = Fips.K t.
Proof. unfold round_k, Fips.K. zbool; destruct (Nat.leb_spec t 19), (Nat.leb_spec t 39), (Nat.leb_spec t 59); lia || done. Qed.

(** ** The schedule *)

Lemma W_rounds n block t : (t < n)%nat -> Fips.W_ n block t = Fips.W block t.
Proof.
  unfold Fips.W. revert t. enough (forall k t n, (t < k)%nat -> (t < n)%nat -> Fips.W_ n block t = Fips.W_ (S t) block t) by eauto.
  induction k as [|k IH]; intros t m Hk Hm; [lia|]. destruct m as [|m]; [lia|]. cbn [Fips.W_].
  destruct (Nat.ltb_spec t 16); [done|]. by rewrite !(IH _ m), !(IH _ t) by lia.
Qed.

Lemma W_step block t : (16 <= t)%nat ->
  Fips.W block t = Fips.ROTL 1 (Z.lxor (Fips.W block (t - 3)) (Z.lxor (Fips.W block (t - 8)) (Z.lxor (Fips.W block (t - 14)) (Fips.W block (t - 16))))).
Proof.
  intros Ht. unfold Fips.W at 1. cbn [Fips.W_]. destruct (Nat.ltb_spec t 16); [lia|]. by rewrite !W_rounds by lia.
Qed.

Lemma word_at_M block t : bytes_ok block -> (4 * t + 4 <= length block)%nat -> word_at block t = Fips.M block t /\ word (word_at block t).
Proof.
  intros Hok Hl. unfold word_at, Fips.M. set (k := 4 * Z.of_nat t).
  assert (forall j, (j < 4)%nat -> block !! (4 * t + j)%nat = Some (rd block (k + Z.of_nat j))) as Hj.
  { intros j Hj. unfold rd. replace (Z.to_nat (k + Z.of_nat j)) with (4 * t + j)%nat by (subst k; lia).
    destruct (lookup_lt_is_Some_2 block (4 * t + j)) as [x Hx]; [lia|]. by rewrite Hx. }
  assert (take 4 (drop (4 * t) block) = [rd block k; rd block (k + 1); rd block (k + 2); rd block (k + 3)]) as ->.
  { apply list_eq. intros i. destruct (decide (i < 4)%nat) as [Hi|Hi].
    - rewrite lookup_take_lt, lookup_drop, Hj by lia. do 4 (destruct i as [|i]; [cbn; f_equal; f_equal; lia|]). lia.
    - rewrite lookup_take_ge by lia. do 4 (destruct i as [|i]; [lia|]). done. }
  pose proof (rd_byte block k Hok). pose proof (rd_byte block (k + 1) Hok). pose proof (rd_byte block (k + 2) Hok). pose proof (rd_byte block (k + 3) Hok).
  rewrite be32_add by done. cbn [fold_left]. unfold is_byte, word in *. lia.
Qed.

Lemma W_word block t : bytes_ok block -> length block = 64%nat -> word (Fips.W block t).
Proof.
  intros Hok Hl. induction t as [t IH] using lt_wf_ind. destruct (Nat.lt_ge_cases t 16).
  - unfold Fips.W. cbn [Fips.W_]. destruct (Nat.ltb_spec t 16); [|lia]. destruct (word_at_M block t) as [<- ?]; [done|lia|done].
  - rewrite W_step by done. apply ROTL_word; [lia|]. repeat apply lxor_word; apply IH; lia.
Qed.

(** [l] holds the first words of the schedule. *)
Definition scheduled (block : bytes) (l : list Z) : Prop := l = map (Fips.W block) (seq 0 (length l)).

Lemma scheduled_rd block l i : scheduled block l -> (i < length l)%nat -> rd l (Z.of_nat i) = Fips.W block i.
Proof.
  intros -> Hi. rewrite length_map, length_seq in Hi. unfold rd. rewrite Nat2Z.id, list_lookup_fmap, lookup_seq_lt by lia. done.
Qed.

Lemma expand_scheduled block n l : bytes_ok block -> length block = 64%nat -> scheduled block l -> (16 <= length l)%nat ->
  scheduled block (expand n l) /\ length (expand n l) = (length l + n)%nat.
Proof.
  intros Hok Hb. revert l. induction n as [|n IH]; intros l Hs Hl; cbn [expand]; [split; [done|lia]|].
  set (v := rotl 1 _). assert (v = Fips.W block (length l)) as Hv.
  { subst v. unfold zlen. rewrite W_step by done.
    replace (Z.of_nat (length l) - 3) with (Z.of_nat (length l - 3)) by lia. replace (Z.of_nat (length l) - 8) with (Z.of_nat (length l - 8)) by lia.
    replace (Z.of_nat (length l) - 14) with (Z.of_nat (length l - 14)) by lia. replace (Z.of_nat (length l) - 16) with (Z.of_nat (length l - 16)) by lia.
    rewrite !(scheduled_rd block) by (done || lia). rewrite !Z.lxor_assoc. apply rotl_ROTL; [lia|]. repeat apply lxor_word; by apply W_word. }
  destruct (IH (l ++ [v])) as [H1 H2].
  - unfold scheduled in *. rewrite length_app. cbn [length]. rewrite Nat.add_1_r, seq_S, map_app, <- Hs. by rewrite Hv.
  - rewrite length_app. cbn. lia.
  - split; [done|]. rewrite H2, length_app. cbn. lia.
Qed.

Lemma schedule block : bytes_ok block -> length block = 64%nat ->
  forall t, (t < 80)%nat -> rd (expand 64 (map (word_at block) (seq 0 16))) (Z.of_nat t) = Fips.W block t.
Proof.
  intros Hok Hb t Ht. destruct (expand_scheduled block 64 (map (word_at block) (seq 0 16))) as [Hs Hl]; [done..| |by rewrite length_map|].
  - unfold scheduled. rewrite length_map, length_seq. apply map_ext_in. intros i Hi%in_seq.
    destruct (word_at_M block i) as [-> _]; [done|lia|]. unfold Fips.W. cbn [Fips.W_]. by destruct (Nat.ltb_spec i 16); [|lia].
  - apply (scheduled_rd block); [done|]. rewrite Hl, length_map. cbn [length seq]. lia.
Qed.

(** ** One block *)

Definition words (r : regs) : Prop := word (ra r) /\ word (rb r) /\ word (rc r) /\ word (rd_ r) /\ word (re r).

Lemma round_step block w t r : words r -> (t < 80)%nat -> rd w (Z.of_nat t) = Fips.W block t ->
  round w r t = Fips.step block r t /\ words (round w r t).
Proof.
  intros (Ha & Hb & Hc & Hd & He) Ht Hw. split.
  - destruct r as [a b c d e]. cbn [ra rb rc rd_ re] in *. unfold round, Fips.step. cbn [ra rb rc rd_ re].
    by rewrite Hw, round_f_F, round_k_K, !rotl_ROTL by (done || lia).
  - unfold round, words. cbn [ra rb rc rd_ re]. split; [apply u32_range|]. split; [done|]. split; [|done]. rewrite rotl_ROTL by (done || lia). apply ROTL_word; [lia|done].
Qed.

Lemma transform_hash h block : words h -> bytes_ok block -> length block = 64%nat ->
  sha1_transform h block = Fips.hash_block h block /\ words (sha1_transform h block).
Proof.
  intros Hh Hok Hl. unfold sha1_transform, Fips.hash_block, Fips.add. set (w := expand 64 _).
  assert (forall ts r, words r -> (forall t, t ∈ ts -> (t < 80)%nat) ->
    fold_left (round w) ts r = fold_left (Fips.step block) ts r) as Hf.
  { induction ts as [|t ts IH]; intros r Hr Hts; cbn [fold_left]; [done|].
    destruct (round_step block w t r) as [E Hw]; [done|apply Hts; left|apply schedule; [done..|apply Hts; left]|].
    rewrite <- E. apply IH; [done|]. intros t' Ht'. apply Hts. by right. }
  rewrite Hf; [|done|intros t Ht%list_elem_of_In%in_seq; lia]. split; [done|]. unfold words. cbn [ra rb rc rd_ re]. repeat split; apply u32_range.
Qed.

(** ** The whole message *)

Lemma hash_blocks_app q m l k h : length l = (64 * q)%nat ->
  Fips.hash_blocks (q + m) (l ++ k) h = Fips.hash_blocks m k (Fips.hash_blocks q l h).
Proof.
  revert l h. induction q as [|q IH]; intros l h Hl; cbn [Nat.add Fips.hash_blocks].
  - by destruct l; [|cbn in Hl; lia].
  - rewrite <- (take_drop 64 l) at 1 2. rewrite <- !app_assoc.
    assert (length (take 64 l) = 64%nat) as Ht by (rewrite length_take; lia).
    replace (drop 64 (take 64 l ++ drop 64 l ++ k)) with (drop 64 l ++ k) by (by rewrite drop_app_length').
    replace (take 64 (take 64 l ++ drop 64 l ++ k)) with (take 64 l) by (by rewrite take_app_length').
    apply IH. rewrite length_drop. lia.
Qed.

Lemma full_blocks_spec rounds data i h : bytes_ok data -> words h -> 0 <= i <= zlen data -> zlen data - i <= Z.of_nat rounds ->
  let q := Z.to_nat ((zlen data - i) / 64) in
  full_blocks rounds data (zlen data) i h = (i + 64 * Z.of_nat q, Fips.hash_blocks q (drop (Z.to_nat i) data) h) /\
  words (full_blocks rounds data (zlen data) i h).2.
Proof.
  intros Hok. revert i h. induction rounds as [|rounds IH]; intros i h Hh Hi Hr q; cbn [full_blocks].
  - assert (q = 0%nat) as -> by (subst q; replace (zlen data - i) with 0 by lia; done). cbn [Fips.hash_blocks snd]. by rewrite Z.add_0_r.
  - destruct (Z.leb_spec 64 (zlen data - i)).
    + assert (length (sub_bytes i 64 data) = 64%nat) as Hl by (pose proof (zlen_sub_bytes i 64 data); unfold zlen in *; lia).
      destruct (transform_hash h (sub_bytes i 64 data)) as [E Hw]; [done|by apply bytes_ok_sub|done|].
      destruct (IH (i + 64) (sha1_transform h (sub_bytes i 64 data))) as [E' Hw']; [done|lia..|]. rewrite E' in *. split; [|done].
      set (q' := Z.to_nat ((zlen data - (i + 64)) / 64)) in *.
      assert (q = S q') as -> by (subst q q'; replace (zlen data - i) with (zlen data - (i + 64) + 1 * 64) by lia; rewrite Z.div_add by lia;
        pose proof (Z.div_pos (zlen data - (i + 64)) 64 ltac:(lia) ltac:(lia)); lia).
      cbn [Fips.hash_blocks]. f_equal; [lia|]. rewrite drop_drop, E. f_equal. f_equal. lia.
    + assert (q = 0%nat) as -> by (subst q; rewrite Z.div_small by lia; done). cbn [Fips.hash_blocks snd]. by rewrite Z.add_0_r.
Qed.

Lemma put_word_be v : word v -> put_word v = Fips.be 4 v.
Proof.
  intros _. unfold put_word, u8. cbn [Fips.be]. rewrite !Z.shiftr_div_pow2 by lia. change (256 ^ Z.of_nat 0) with 1. by rewrite Z.div_1_r.
Qed.

Lemma length_bytes_be v : length_bytes v = Fips.be 8 v.
Proof. unfold length_bytes, u8. cbn [Fips.be]. rewrite !Z.shiftr_div_pow2 by lia. change (256 ^ Z.of_nat 0) with 1. by rewrite Z.div_1_r. Qed.

Lemma bytes_zeros n : bytes_ok (repeat 0 n).
Proof. apply Forall_forall. intros x Hx%list_elem_of_In%repeat_spec. unfold is_byte. lia. Qed.
Lemma bytes_be n v : bytes_ok (Fips.be n v) /\ length (Fips.be n v) = n.
Proof.
  induction n as [|n [IH Hl]]; cbn [Fips.be length]; [by split; [constructor|]|]. split; [|lia]. constructor; [|done]. apply Z.mod_pos_bound. lia.
Qed.

(** What follows the last full block, hashed: one block more, or two. *)
Definition tail (rest : bytes) (bits : Z) : bytes := rest ++ [128] ++ repeat 0 (Z.to_nat ((55 - zlen rest) mod 64)) ++ Fips.be 8 bits.

Lemma last_blocks rest bits h : bytes_ok rest -> words h -> zlen rest < 64 ->
  let pad := rest ++ [128] ++ repeat 0 (Z.to_nat (63 - zlen rest)) in
  let '(state, pad) := if 56 <=? zlen rest then (sha1_transform h pad, repeat 0 64) else (h, pad) in
  let state := sha1_transform state (sub_bytes 0 56 pad ++ length_bytes bits) in
  state = Fips.hash_blocks (length (tail rest bits) / 64) (tail rest bits) h /\ words state.
Proof.
  intros Hok Hh Hl pad. pose proof (zlen_nonneg rest). rewrite length_bytes_be. destruct (bytes_be 8 bits) as [Hb Hbl].
  destruct (Z.leb_spec 56 (zlen rest)).
  - assert (length pad = 64%nat) as Hpl by (subst pad; rewrite !length_app, repeat_length; unfold zlen in *; cbn; lia).
    assert (bytes_ok pad) as Hpo by (subst pad; apply bytes_ok_app; split; [done|]; apply bytes_ok_app; split; [by repeat constructor|apply bytes_zeros]).
    destruct (transform_hash h pad) as [E Hw]; [done..|].
    assert (tail rest bits = pad ++ repeat 0 56 ++ Fips.be 8 bits) as ->.
    { subst pad. unfold tail. rewrite <- !app_assoc. do 2 f_equal. rewrite app_assoc, <- repeat_app. do 2 f_equal.
      replace (55 - zlen rest) with (119 - zlen rest + (-1) * 64) by lia. rewrite Z.mod_add, Z.mod_small by lia. lia. }
    destruct (transform_hash (sha1_transform h pad) (repeat 0 56 ++ Fips.be 8 bits)) as [E2 Hw2];
      [done|apply bytes_ok_app; split; [apply bytes_zeros|done]|by rewrite length_app, Hbl|].
    change (sub_bytes 0 56 (repeat 0 64)) with (repeat 0 56). split; [|done].
    rewrite !length_app, Hpl, repeat_length, Hbl. change ((64 + (56 + 8)) / 64)%nat with (1 + 1)%nat.
    rewrite hash_blocks_app by lia. cbn [Fips.hash_blocks]. rewrite !take_ge by (rewrite ?length_app, ?Hpl, ?Hbl; cbn; lia). rewrite E2, E. reflexivity.
  - assert (tail rest bits = sub_bytes 0 56 pad ++ Fips.be 8 bits) as ->.
    { unfold tail. rewrite !app_assoc. f_equal. rewrite <- !app_assoc. unfold sub_bytes. cbn [drop]. rewrite Z.mod_small by lia. subst pad.
      change (Z.to_nat 0) with 0%nat. rewrite drop_0. replace (Z.to_nat (63 - zlen rest)) with (Z.to_nat (55 - zlen rest) + 8)%nat by lia.
      rewrite repeat_app, !app_assoc. rewrite take_app_le by (rewrite !length_app, repeat_length; unfold zlen in *; cbn; lia).
      rewrite take_ge; [done|]. rewrite !length_app, repeat_length; unfold zlen in *; cbn; lia. }
    assert (length (sub_bytes 0 56 pad) = 56%nat) as Hpl.
    { unfold sub_bytes. rewrite drop_0, length_take. subst pad. rewrite !length_app, repeat_length. unfold zlen in *. cbn [length]. lia. }
    assert (bytes_ok (sub_bytes 0 56 pad ++ Fips.be 8 bits)) as Hpo.
    { apply bytes_ok_app; split; [|done]. apply bytes_ok_sub. subst pad. apply bytes_ok_app; split; [done|]; apply bytes_ok_app; split; [by repeat constructor|apply bytes_zeros]. }
    destruct (transform_hash h (sub_bytes 0 56 pad ++ Fips.be 8 bits)) as [E Hw]; [done..|by rewrite length_app, Hpl, Hbl|]. split; [|done].
    rewrite length_app, Hpl, Hbl. change ((56 + 8) / 64)%nat with 1%nat. cbn [Fips.hash_blocks]. rewrite take_ge; [exact E|]. rewrite length_app; lia.
Qed.

Lemma sha1_fips data : bytes_ok data -> zlen data < 2 ^ 61 -> sha1 data (zlen data) = Fips.sha1 data.
Proof.
  intros Hok Hlen. pose proof (zlen_nonneg data) as Hl0. unfold sha1, Fips.sha1.
  replace (u64 (zlen data * 8)) with (8 * zlen data) by (change (2 ^ 61) with 2305843009213693952 in Hlen; cint).
  destruct (full_blocks_spec (Z.to_nat (zlen data)) data 0 init_state) as [E Hw]; [done|by repeat split|lia..|].
  rewrite E in *. cbn [snd] in Hw. rewrite Z.sub_0_r in *. rewrite drop_0 in *. set (q := Z.to_nat (zlen data / 64)) in *. rewrite Z.add_0_l.
  set (rest := sub_bytes (64 * Z.of_nat q) (zlen data - 64 * Z.of_nat q) data).
  assert (Z.of_nat q = zlen data / 64) as Hq by (subst q; pose proof (Z.div_pos (zlen data) 64 ltac:(lia) ltac:(lia)); lia).
  assert (64 * Z.of_nat q <= zlen data < 64 * Z.of_nat q + 64) as Hq' by (rewrite Hq; cint).
  assert (zlen rest = zlen data - 64 * Z.of_nat q) as Hr by (apply zlen_sub_bytes; lia).
  set (front := sub_bytes 0 (64 * Z.of_nat q) data).
  assert (length front = (64 * q)%nat) as Hf by (pose proof (zlen_sub_bytes 0 (64 * Z.of_nat q) data ltac:(lia) ltac:(lia) ltac:(lia)); fold front in H; unfold zlen in H; lia).
  assert (data = front ++ rest) as Ed.
  { subst front rest. rewrite <- (sub_bytes_all data (64 * Z.of_nat q + (zlen data - 64 * Z.of_nat q))) at 1 by lia. by rewrite sub_bytes_split by lia. }
  assert (Fips.hash_blocks q data init_state = Fips.hash_blocks q front init_state) as Eh.
  { rewrite Ed at 1. rewrite <- (Nat.add_0_r q) at 1. by rewrite hash_blocks_app. }
  pose proof (last_blocks rest (8 * zlen data) (Fips.hash_blocks q data init_state)) as HL.
  specialize (HL (bytes_ok_sub _ _ _ Hok) Hw ltac:(lia)). cbv zeta in HL. rewrite <- Hr. fold rest.
  assert (Fips.padded data = front ++ tail rest (8 * zlen data)) as ->.
  { unfold Fips.padded, tail. rewrite Ed at 1. rewrite <- !app_assoc. do 5 f_equal. rewrite Hr.
    replace (55 - (zlen data - 64 * Z.of_nat q)) with (55 - zlen data + Z.of_nat q * 64) by lia. by rewrite Z.mod_add by lia. }
  rewrite length_app, Hf, (Nat.mul_comm 64), Nat.div_add_l by lia. rewrite hash_blocks_app by done. change Fips.H0 with init_state. rewrite <- Eh.
  destruct (56 <=? zlen rest); destruct HL as [<- (?&?&?&?&?)]; by rewrite !put_word_be.
Qed.

(** C35. The code's hash is the standard's, for any message whose length in bits is a
    64-bit number. *)
Theorem sha1_standard data : bytes_ok data -> zlen data < 2 ^ 61 -> sha1 data (zlen data) = Fips.sha1 data.
Proof. apply sha1_fips. Qed.

(** ** Base64 *)

Lemma sextet d : 0 <= d < 64 ->
  let c := rd b64 d in c <> 0 /\ isspace c = false /\ sdp_base64_value c = d.
Proof.
  intros Hd. assert (d ∈ map Z.of_nat (seq 0 64)) as Hin.
  { apply list_elem_of_In, in_map_iff. exists (Z.to_nat d). split; [lia|]. apply in_seq. lia. }
  assert (Forall (fun d => let c := rd b64 d in (negb (c =? 0) && negb (isspace c) && (sdp_base64_value c =? d)) = true)
    (map Z.of_nat (seq 0 64))) as HF by (by repeat constructor).
  rewrite Forall_forall in HF. specialize (HF d Hin). cbn zeta in HF |- *.
  rewrite !andb_true_iff, !negb_true_iff, !Z.eqb_eq, Z.eqb_neq in HF. tauto.
Qed.

(** One character more: its bits go below the ones at hand. *)
Lemma decode_char d inp cap val valb out : 0 <= d < 64 ->
  decode_loop (rd b64 d :: inp) cap val valb out =
    let val := s32 (val * 64 + d) in
    if 0 <=? valb + 6 then
      if cap <=? zlen out then None else decode_loop inp cap val (valb - 2) (out ++ [Z.land (Z.shiftr val (valb + 6)) 255])
    else decode_loop inp cap val (valb + 6) out.
Proof.
  intros Hd. destruct (sextet d Hd) as (H0 & Hs & Hv). cbn [decode_loop]. rewrite (proj2 (Z.eqb_neq _ _) H0), Hs, Hv.
  destruct (Z.eqb_spec d (-2)); [lia|]. destruct (Z.ltb_spec d 0); [lia|]. rewrite lor_shiftl_add by lia. change (2 ^ 6) with 64.
  by replace (valb + 6 - 8) with (valb - 2) by lia.
Qed.

Definition group (a b c : Z) : Z := a * 65536 + b * 256 + c.

Lemma group_lor a b c : is_byte a -> is_byte b -> is_byte c ->
  Z.lor (Z.lor (Z.shiftl a 16) (Z.shiftl b 8)) c = group a b c /\ Z.lor (Z.shiftl a 16) (Z.shiftl b 8) = group a b 0 /\ Z.shiftl a 16 = group a 0 0.
Proof.
  unfold is_byte, group. intros Ha Hb Hc. assert (Z.lor (Z.shiftl a 16) (Z.shiftl b 8) = Z.shiftl (a * 256 + b) 8) as E.
  { rewrite lor_shiftl_add by (rewrite ?Z.shiftl_mul_pow2 by lia; lia). rewrite !Z.shiftl_mul_pow2 by lia. lia. }
  rewrite E. rewrite lor_shiftl_add by lia. rewrite !Z.shiftl_mul_pow2 by lia. lia.
Qed.

Lemma sextets v : Z.land (Z.shiftr v 18) 63 = v / 262144 mod 64 /\ Z.land (Z.shiftr v 12) 63 = v / 4096 mod 64 /\
  Z.land (Z.shiftr v 6) 63 = v / 64 mod 64 /\ Z.land v 63 = v mod 64.
Proof. rewrite !Z.shiftr_div_pow2 by lia. rewrite !(land_ones_mod _ 6 63) by (done || lia). done. Qed.

Lemma s32_shift a d : s32 (s32 a * 64 + d) = s32 (a * 64 + d).
Proof. cint. Qed.

(** Eight of the bits that were gathered. *)
Lemma gathered x k : 0 <= k <= 24 -> Z.land (Z.shiftr (s32 x) k) 255 = x / 2 ^ k mod 256.
Proof.
  intros Hk. rewrite (land_ones_mod _ 8 255), Z.shiftr_div_pow2 by (done || lia). change (2 ^ 8) with 256.
  assert (exists m, s32 x = x + m * 2 ^ 32) as [m ->] by (exists (- ((x + 2147483648) / 4294967296)); unfold s32; change (2 ^ 32) with 4294967296; cint).
  replace (2 ^ 32) with (2 ^ (24 - k) * 256 * 2 ^ k) by (change 256 with (2 ^ 8); rewrite <- !Z.pow_add_r by lia; f_equal; lia).
  assert (0 < 2 ^ k) by (apply Z.pow_pos_nonneg; lia). rewrite Z.mul_assoc, Z.div_add by lia. by rewrite Z.mul_assoc, Z.mod_add by lia.
Qed.

(** The states of the decoder: whole bytes, and 6, 4 and 2 bits at hand. *)
Lemma decode_first d inp cap x out : 0 <= d < 64 -> decode_loop (rd b64 d :: inp) cap x (-8) out = decode_loop inp cap (s32 (x * 64 + d)) (-2) out.
Proof. intros. by rewrite decode_char. Qed.
Lemma decode_next d inp cap x k out : 0 <= d < 64 -> (k = 4 \/ k = 2 \/ k = 0) -> zlen out < cap ->
  decode_loop (rd b64 d :: inp) cap (s32 x) (k - 6) out = decode_loop inp cap (s32 (x * 64 + d)) (k - 8) (out ++ [(x * 64 + d) / 2 ^ k mod 256]).
Proof.
  intros Hd Hk Ho. rewrite decode_char by done. cbv zeta. rewrite s32_shift. replace (k - 6 + 6) with k by lia. replace (k - 6 - 2) with (k - 8) by lia.
  destruct (Z.leb_spec 0 k); [|lia]. destruct (Z.leb_spec cap (zlen out)); [lia|]. by rewrite gathered by lia.
Qed.

(** The bytes of a group, from its sextets. *)
Lemma group_bytes x a b c : is_byte a -> is_byte b -> is_byte c ->
  let v := group a b c in
  let x1 := x * 64 + v / 262144 mod 64 in let x2 := x1 * 64 + v / 4096 mod 64 in
  let x3 := x2 * 64 + v / 64 mod 64 in let x4 := x3 * 64 + v mod 64 in
  x2 / 2 ^ 4 mod 256 = a /\ x3 / 2 ^ 2 mod 256 = b /\ x4 / 2 ^ 0 mod 256 = c.
Proof.
  intros Ha Hb Hc v x1 x2 x3 x4. unfold is_byte in *. change (2 ^ 4) with 16. change (2 ^ 2) with 4. change (2 ^ 0) with 1.
  assert (v / 262144 mod 64 = a / 4) as E1 by (subst v; unfold group; cint). assert (v / 4096 mod 64 = a mod 4 * 16 + b / 16) as E2 by (subst v; unfold group; cint).
  assert (v / 64 mod 64 = b mod 16 * 4 + c / 64) as E3 by (subst v; unfold group; cint). assert (v mod 64 = c mod 64) as E4 by (subst v; unfold group; cint).
  subst x1 x2 x3 x4. rewrite E1, E2, E3, E4. clear v E1 E2 E3 E4. split; [|split]; cint.
Qed.

(** Four characters give the three bytes back; two and three followed by a pad
    character the one and two that were there. *)
Lemma decode_group a b c inp cap x out : is_byte a -> is_byte b -> is_byte c -> zlen out + 3 <= cap ->
  let v := group a b c in
  exists x', decode_loop (rd b64 (v / 262144 mod 64) :: rd b64 (v / 4096 mod 64) :: rd b64 (v / 64 mod 64) :: rd b64 (v mod 64) :: inp)
    cap x (-8) out = decode_loop inp cap x' (-8) (out ++ [a; b; c]).
Proof.
  intros Ha Hb Hc Hcap v. eexists. destruct (group_bytes x a b c Ha Hb Hc) as (E1 & E2 & E3). fold v in E1, E2, E3.
  rewrite decode_first by (apply Z.mod_pos_bound; lia). change (-2) with (4 - 6).
  rewrite decode_next, E1 by (lia || apply Z.mod_pos_bound; lia). change (4 - 8) with (2 - 6).
  rewrite decode_next, E2 by (rewrite ?zlen_app; change (zlen [a]) with 1; lia || apply Z.mod_pos_bound; lia). change (2 - 8) with (0 - 6).
  rewrite decode_next, E3 by (rewrite ?zlen_app; change (zlen [a]) with 1; change (zlen [b]) with 1; lia || apply Z.mod_pos_bound; lia).
  rewrite <- !app_assoc. reflexivity.
Qed.

Lemma decode_two a b inp cap x out : is_byte a -> is_byte b -> zlen out + 2 <= cap ->
  let v := group a b 0 in
  decode_loop (rd b64 (v / 262144 mod 64) :: rd b64 (v / 4096 mod 64) :: rd b64 (v / 64 mod 64) :: 61 :: inp) cap x (-8) out = Some (out ++ [a; b]).
Proof.
  intros Ha Hb Hcap v. destruct (group_bytes x a b 0 Ha Hb) as (E1 & E2 & _); [unfold is_byte; lia|]. fold v in E1, E2.
  rewrite decode_first by (apply Z.mod_pos_bound; lia). change (-2) with (4 - 6).
  rewrite decode_next, E1 by (lia || apply Z.mod_pos_bound; lia). change (4 - 8) with (2 - 6).
  rewrite decode_next, E2 by (rewrite ?zlen_app; change (zlen [a]) with 1; lia || apply Z.mod_pos_bound; lia).
  rewrite <- !app_assoc. reflexivity.
Qed.

Lemma decode_one a inp cap x out : is_byte a -> zlen out + 1 <= cap ->
  let v := group a 0 0 in
  decode_loop (rd b64 (v / 262144 mod 64) :: rd b64 (v / 4096 mod 64) :: 61 :: inp) cap x (-8) out = Some (out ++ [a]).
Proof.
  intros Ha Hcap v. destruct (group_bytes x a 0 0 Ha) as (E1 & _); [unfold is_byte; lia..|]. fold v in E1.
  rewrite decode_first by (apply Z.mod_pos_bound; lia). change (-2) with (4 - 6).
  rewrite decode_next, E1 by (lia || apply Z.mod_pos_bound; lia). reflexivity.
Qed.

(** The encoding, group by group. *)
Fixpoint encoded (l : bytes) : bytes :=
  match l with
  | a :: b :: c :: l =>
      let v := group a b c in
      rd b64 (v / 262144 mod 64) :: rd b64 (v / 4096 mod 64) :: rd b64 (v / 64 mod 64) :: rd b64 (v mod 64) :: encoded l
  | [a; b] => let v := group a b 0 in [rd b64 (v / 262144 mod 64); rd b64 (v / 4096 mod 64); rd b64 (v / 64 mod 64); 61]
  | [a] => let v := group a 0 0 in [rd b64 (v / 262144 mod 64); rd b64 (v / 4096 mod 64); 61; 61]
  | [] => []
  end.

Lemma decode_encoded n l cap x out : (length l <= n)%nat -> bytes_ok l -> zlen out + zlen l <= cap ->
  decode_loop (encoded l) cap x (-8) out = Some (out ++ l).
Proof.
  revert l x out. induction n as [|n IH]; intros l x out Hn Hok Hcap.
  - destruct l; [|cbn in Hn; lia]. cbn. by rewrite app_nil_r.
  - destruct l as [|a [|b [|c l]]].
    + cbn. by rewrite app_nil_r.
    + apply Forall_cons_1 in Hok as [Ha _]. apply decode_one; [done|]. change (zlen [a]) with 1 in Hcap. lia.
    + unfold bytes_ok in Hok. rewrite !Forall_cons in Hok. destruct Hok as (Ha & Hb & _). apply decode_two; [done..|]. change (zlen [a; b]) with 2 in Hcap. lia.
    + unfold bytes_ok in Hok. rewrite !Forall_cons in Hok. destruct Hok as (Ha & Hb & Hc & Hok). rewrite !zlen_cons in Hcap. pose proof (zlen_nonneg l).
      cbn [encoded]. destruct (decode_group a b c (encoded l) cap x out) as [x' E]; [done..|lia|]. rewrite E.
      rewrite IH; [by rewrite <- app_assoc|cbn in Hn; lia|done|]. rewrite zlen_app. change (zlen [a; b; c]) with 3. lia.
Qed.

Lemma rd_after pre a post : rd (pre ++ a :: post) (zlen pre) = a.
Proof. unfold rd, zlen. by rewrite Nat2Z.id, list_lookup_middle. Qed.
Lemma rd_after1 pre a b post : rd (pre ++ a :: b :: post) (zlen pre + 1) = b.
Proof. replace (zlen pre + 1) with (zlen (pre ++ [a])) by (by rewrite zlen_app). change (a :: b :: post) with ([a] ++ b :: post). rewrite app_assoc. apply rd_after. Qed.
Lemma rd_after2 pre a b c post : rd (pre ++ a :: b :: c :: post) (zlen pre + 1 + 1) = c.
Proof.
  replace (zlen pre + 1 + 1) with (zlen (pre ++ [a; b])) by (rewrite zlen_app; change (zlen [a; b]) with 2; lia).
  change (a :: b :: c :: post) with ([a; b] ++ c :: post). rewrite app_assoc. apply rd_after.
Qed.

Lemma encode_loop_encoded rounds pre l cap out : (length l <= rounds)%nat -> bytes_ok l -> zlen out + zlen (encoded l) < cap ->
  encode_loop rounds (pre ++ l) (zlen (pre ++ l)) cap (zlen pre) out = out ++ encoded l.
Proof.
  revert pre l out. induction rounds as [|rounds IH]; intros pre l out Hr Hok Hcap.
  - destruct l; [|cbn in Hr; lia]. cbn. by rewrite app_nil_r.
  - cbn [encode_loop]. destruct l as [|a l]; [rewrite app_nil_r, Z.ltb_irrefl; cbn; by rewrite app_nil_r|].
    pose proof (zlen_nonneg pre). pose proof (zlen_nonneg l). apply Forall_cons_1 in Hok as [Ha Hok].
    assert (0 <= zlen (encoded l)) by apply zlen_nonneg.
    assert (4 <= zlen (encoded (a :: l))) by (destruct l as [|? [|? ?]]; cbn [encoded]; rewrite ?zlen_cons; unfold zlen; lia).
    rewrite zlen_app, zlen_cons. destruct (Z.ltb_spec (zlen pre) (zlen pre + (zlen l + 1))); [|lia].
    destruct (Z.ltb_spec (zlen out + 4) cap); [|lia]. cbn [andb]. rewrite rd_after.
    destruct l as [|b l].
    { rewrite zlen_nil. destruct (Z.ltb_spec (zlen pre + 1) (zlen pre + (0 + 1))); [lia|]. destruct (Z.ltb_spec (zlen pre + 1) (zlen pre + (0 + 1))); [lia|].
      destruct (group_lor a 0 0 Ha) as (_ & _ & ->); [unfold is_byte; lia..|]. destruct (sextets (group a 0 0)) as (-> & -> & _ & _).
      cbn [Z.leb Z.eqb Z.compare Pos.compare Pos.compare_cont Pos.eqb encoded].
      destruct rounds as [|rounds]; [done|]. cbn [encode_loop]. destruct (Z.ltb_spec (zlen pre + 1) (zlen pre + (0 + 1))); [lia|]. done. }
    apply Forall_cons_1 in Hok as [Hb Hok]. rewrite zlen_cons. pose proof (zlen_nonneg l).
    destruct (Z.ltb_spec (zlen pre + 1) (zlen pre + (zlen l + 1 + 1))); [|lia]. rewrite rd_after1.
    destruct l as [|c l].
    { rewrite zlen_nil. destruct (Z.ltb_spec (zlen pre + 1 + 1) (zlen pre + (0 + 1 + 1))); [lia|].
      destruct (group_lor a b 0 Ha Hb) as (_ & -> & _); [unfold is_byte; lia..|]. destruct (sextets (group a b 0)) as (-> & -> & -> & _).
      cbn [Z.leb Z.eqb Z.compare Pos.compare Pos.compare_cont Pos.eqb encoded].
      destruct rounds as [|rounds]; [done|]. cbn [encode_loop]. destruct (Z.ltb_spec (zlen pre + 1 + 1) (zlen pre + (0 + 1 + 1))); [lia|]. done. }
    apply Forall_cons_1 in Hok as [Hc Hok]. rewrite zlen_cons. pose proof (zlen_nonneg l).
    destruct (Z.ltb_spec (zlen pre + 1 + 1) (zlen pre + (zlen l + 1 + 1 + 1))); [|lia]. rewrite rd_after2.
    destruct (group_lor a b c Ha Hb Hc) as (-> & _ & _). destruct (sextets (group a b c)) as (-> & -> & -> & ->).
    cbn [Z.leb Z.eqb Z.compare Pos.compare Pos.compare_cont Pos.eqb Z.add Pos.add Pos.succ encoded].
    cbn [encoded] in Hcap. rewrite !zlen_cons in Hcap.
    specialize (IH (pre ++ [a; b; c]) l (out ++ [rd b64 (group a b c / 262144 mod 64); rd b64 (group a b c / 4096 mod 64);
      rd b64 (group a b c / 64 mod 64); rd b64 (group a b c mod 64)])).
    rewrite <- !app_assoc in IH. cbn [app] in IH. rewrite !zlen_app, !zlen_cons, @zlen_nil in IH.
    replace (zlen pre + 1 + 1 + 1) with (zlen pre + (0 + 1 + 1 + 1)) by lia. apply IH; [cbn in Hr; lia|done|lia].
Qed.

Lemma zlen_encoded l : zlen (encoded l) = 4 * ((zlen l + 2) / 3).
Proof.
  remember (length l) as n eqn:Hn. revert l Hn. induction n as [n IH] using lt_wf_ind. intros l ->.
  destruct l as [|a [|b [|c l]]]; try done. cbn [encoded]. rewrite !zlen_cons, (IH (length l)) by (cbn; lia).
  replace (zlen l + 1 + 1 + 1 + 2) with (zlen l + 2 + 1 * 3) by lia. rewrite Z.div_add by lia. lia.
Qed.

(** The group's characters are the standard's. *)
Lemma b64_character v : 0 <= v < 64 -> rd b64 v = Rfc4648.character v.
Proof.
  intros Hv. assert (v ∈ map Z.of_nat (seq 0 64)) as Hin.
  { apply list_elem_of_In, in_map_iff. exists (Z.to_nat v). split; [lia|]. apply in_seq. lia. }
  assert (Forall (fun v => rd b64 v = Rfc4648.character v) (map Z.of_nat (seq 0 64))) as HF by (by repeat constructor).
  rewrite Forall_forall in HF. by apply HF.
Qed.

Lemma group_sextets a b c : is_byte a -> is_byte b -> is_byte c ->
  let v := group a b c in
  v / 262144 mod 64 = a / 4 /\ v / 4096 mod 64 = a mod 4 * 16 + b / 16 /\ v / 64 mod 64 = b mod 16 * 4 + c / 64 /\ v mod 64 = c mod 64.
Proof. intros Ha Hb Hc v. subst v. unfold is_byte, group in *. repeat split; cint. Qed.

Lemma encoded_rfc l : bytes_ok l -> encoded l = Rfc4648.base64 l.
Proof.
  remember (length l) as n eqn:Hn. revert l Hn. induction n as [n IH] using lt_wf_ind. intros l -> Hok.
  destruct l as [|a [|b [|c l]]]; [done| | |]; repeat (apply Forall_cons_1 in Hok as [? Hok]); cbn [encoded Rfc4648.base64]; cbv zeta.
  - destruct (group_sextets a 0 0) as (-> & -> & _); [done|by split..|]. rewrite !b64_character by (unfold is_byte in *; cint). by rewrite Z.div_0_l, Z.add_0_r by lia.
  - destruct (group_sextets a b 0) as (-> & -> & -> & _); [done|done|by split|]. rewrite !b64_character by (unfold is_byte in *; cint). by rewrite Z.div_0_l, Z.add_0_r by lia.
  - destruct (group_sextets a b c) as (-> & -> & -> & ->); [done..|]. rewrite !b64_character by (unfold is_byte in *; cint). by rewrite (IH (length l)) by (done || cbn; lia).
Qed.

(** The encoder writes the standard's Base64, when its buffer has room for it and the NUL. *)
Lemma base64_rfc l cap : bytes_ok l -> 4 * ((zlen l + 2) / 3) < cap -> base64_encode l (zlen l) cap = Rfc4648.base64 l.
Proof.
  intros Hok Hc. rewrite <- encoded_rfc by done. unfold base64_encode.
  pose proof (encode_loop_encoded (Z.to_nat (zlen l)) [] l cap []) as E. cbn [app] in E. change (zlen []) with 0 in E. apply E; [unfold zlen; lia|done|rewrite zlen_encoded; lia].
Qed.

(** What the encoder writes, when the buffer has room for all of it and the NUL, the
    decoder of the SDP demultiplexer reads back. *)
Theorem base64_roundtrip l out_cap cap : bytes_ok l -> 4 * ((zlen l + 2) / 3) < out_cap -> zlen l <= cap ->
  sdp_base64_decode (base64_encode l (zlen l) out_cap) cap = Some l.
Proof.
  intros Hok Ho Hc. unfold sdp_base64_decode, base64_encode.
  pose proof (encode_loop_encoded (Z.to_nat (zlen l)) [] l out_cap []) as E. cbn [app] in E. change (zlen []) with 0 in E.
  rewrite E; [|unfold zlen; lia|done|rewrite zlen_encoded; lia]. apply (decode_encoded (length l)); [done..|]. rewrite @zlen_nil. lia.
Qed.

(** ** Examples *)

Lemma sha1_standard_witness :
  Fips.sha1 (text "abc") = [169; 153; 62; 54; 71; 6; 129; 106; 186; 62; 37; 113; 120; 80; 194; 108; 156; 208; 216; 157].
Proof. rewrite <- (sha1_standard (text "abc")) by (done || by repeat constructor). by vm_compute. Defined.

Lemma base64_roundtrip_witness : sdp_base64_decode (base64_encode [1; 2; 3; 200; 255] 5 64) 5 = Some [1; 2; 3; 200; 255].
Proof. apply (base64_roundtrip [1; 2; 3; 200; 255]); [by repeat constructor|done|done]. Defined.

(** The answer to the example key of RFC 6455, 1.3. *)
Example handshake_example :
  let key := text "dGhlIHNhbXBsZSBub25jZQ==258EAFA5-E914-47DA-95CA-C5AB0DC85B11" in
  base64_encode (sha1 key (zlen key)) 20 64 = text "s3pPLMBiTxaQ9kYGzzhZRbK+xOo=".
Proof. by vm_compute. Qed.
