(* ===== verification/WsServer.v ===== *)
(** * The WebSocket signalling server: [src/zst_ws_server.c]

    A connection is a number, the receive buffer of a client a block of bytes that may
    be NULL; writing or reading outside of it, or after it was freed, is a fault.  What
    the server does is recorded as it happens: the bytes a connection accepted, the
    connections closed, the callbacks made.  The lock is held except around a callback
    and in [poll]; what the callback and the other threads call then is given by
    [window], one list for each time.  A call made between the unlock and the start of
    the callback counts as made during it. *)

From Stdlib Require Import String Ascii.
From S2P Require Import Prelude CLib Sha1.
Import Sha1 Base64.

Local Open Scope Z_scope.

(** ** State *)

Definition MAX_CLIENTS : nat := 32.
Definition INITIAL_RX_CAP : Z := 4096.

(** [c_buf] has [c_cap + 1] bytes, the first [c_len] of them received. *)
Record ws_client_t := mk_client {
  c_id : Z;
  c_fd : Z;
  c_handshaked : bool;
  c_buf : option bytes;
  c_len : Z;
  c_cap : Z;
}.

(** The callbacks are names of functions, [None] being NULL. *)
Record zst_ws_server_t := mk_server {
  ws_port : Z;
  ws_listen_fd : Z;
  ws_running : bool;
  ws_clients : list ws_client_t;
  ws_next_client_id : Z;
  ws_on_connect : option nat;
  ws_on_message : option nat;
  ws_on_disconnect : option nat;
  ws_user_data : nat;
}.

Definition no_client : ws_client_t := mk_client (-1) (-1) false None 0 0.

Definition with_buf (c : ws_client_t) (buf : option bytes) (len cap : Z) : ws_client_t :=
  mk_client (c_id c) (c_fd c) (c_handshaked c) buf len cap.
Definition with_clients (s : zst_ws_server_t) (cs : list ws_client_t) (next : Z) : zst_ws_server_t :=
  mk_server (ws_port s) (ws_listen_fd s) (ws_running s) cs next (ws_on_connect s) (ws_on_message s) (ws_on_disconnect s) (ws_user_data s).
Definition with_listen (s : zst_ws_server_t) (fd : Z) (running : bool) : zst_ws_server_t :=
  mk_server (ws_port s) fd running (ws_clients s) (ws_next_client_id s) (ws_on_connect s) (ws_on_message s) (ws_on_disconnect s) (ws_user_data s).

(** What the outside sees; a callback comes with its function, its user data and the
    client's number. *)
Inductive action :=
| Sends (fd : Z) (data : bytes)
| Closes (fd : Z)
| OnConnect (cb ud : nat) (id : Z)
| OnMessage (cb ud : nat) (id : Z) (msg : bytes)
| OnDisconnect (cb ud : nat) (id : Z).

(** What is called while the lock is free.  [CallStop] is the server's own thread
    calling [zst_ws_server_stop] from a callback. *)
Inductive api_call :=
| CallSend (id : Z) (data : bytes)
| CallSetCallbacks (on_connect on_message on_disconnect : option nat) (user_data : nat)
| CallStop.

(** The server, the actions so far, and how often [send] was called and the lock was
    free. *)
Record ws_world := mk_ws { w_server : zst_ws_server_t; w_actions : list action; w_sends : nat; w_windows : nat }.

Definition W (A : Type) : Type := ws_world -> outcome (A * ws_world).
#[export] Instance W_ret : MRet W := fun A a w => Done (a, w).
#[export] Instance W_bind : MBind W := fun A B f m w =>
  match m w with Done (a, w) => f a w | Fault => Fault | Unfinished => Unfinished end.
Definition w_fault {A} : W A := fun _ => Fault.
Definition w_stuck {A} : W A := fun _ => Unfinished.

Definition server : W zst_ws_server_t := fun w => Done (w_server w, w).
Definition put_server (s : zst_ws_server_t) : W unit := fun w => Done (tt, mk_ws s (w_actions w) (w_sends w) (w_windows w)).
Definition act (a : action) : W unit := fun w => Done (tt, mk_ws (w_server w) (w_actions w ++ [a]) (w_sends w) (w_windows w)).

Definition client (idx : nat) : W ws_client_t := fun w =>
  match ws_clients (w_server w) !! idx with Some c => Done (c, w) | None => Fault end.
Definition put_client (idx : nat) (c : ws_client_t) : W unit :=
  s ← server; put_server (with_clients s (<[idx := c]> (ws_clients s)) (ws_next_client_id s)).

(** ** Blocks *)

Definition byte_at (buf : bytes) (i : Z) : W Z := if (0 <=? i) && (i <? zlen buf) then mret (rd buf i) else w_fault.
Definition store (buf : bytes) (i v : Z) : W bytes :=
  if (0 <=? i) && (i <? zlen buf) then mret (<[Z.to_nat i := v]> buf) else w_fault.
Definition buf_of (c : ws_client_t) : W bytes := match c_buf c with Some b => mret b | None => w_fault end.

(** [memmove(buf, buf + off, n)] *)
Definition move_front (buf : bytes) (off n : Z) : W bytes :=
  if n =? 0 then mret buf
  else if (0 <=? off) && (0 <=? n) && (off + n <=? zlen buf) then mret (sub_bytes off n buf ++ drop (Z.to_nat n) buf) else w_fault.

(** The string at the start of a block. *)
Fixpoint c_string (buf : bytes) : bytes :=
  match buf with b :: buf => if b =? 0 then [] else b :: c_string buf | [] => [] end.

Fixpoint begins (p l : bytes) : bool :=
  match p, l with [], _ => true | a :: p, b :: l => (a =? b) && begins p l | _, [] => false end.
(** [strstr], as an offset. *)
Fixpoint find_text (p l : bytes) : option nat :=
  if begins p l then Some 0%nat else match l with [] => None | _ :: l => S <$> find_text p l end.
(** [strspn] skipped, and what [strcspn] spans. *)
Fixpoint skip_any (set l : bytes) : bytes :=
  match l with b :: l' => if existsb (Z.eqb b) set then skip_any set l' else l | [] => [] end.
Fixpoint until_any (set l : bytes) : bytes :=
  match l with b :: l => if existsb (Z.eqb b) set then [] else b :: until_any set l | [] => [] end.

Definition crlf2 : bytes := [13; 10; 13; 10].
Definition key_header : bytes := text "Sec-WebSocket-Key:".
Definition ws_guid : bytes := text "258EAFA5-E914-47DA-95CA-C5AB0DC85B11".

(** [snprintf] of a text into [size] bytes. *)
Definition printed (size : nat) (l : bytes) : bytes := take (size - 1) l.

Definition accept_of (key : bytes) : bytes :=
  let concat := printed 256 (key ++ ws_guid) in
  base64_encode (sha1 concat (zlen concat)) 20 64.
Definition response (accept_b64 : bytes) : bytes :=
  printed 512 (text "HTTP/1.1 101 Switching Protocols" ++ [13; 10] ++ text "Upgrade: websocket" ++ [13; 10] ++
    text "Connection: Upgrade" ++ [13; 10] ++ text "Sec-WebSocket-Accept: " ++ accept_b64 ++ crlf2).

(** [payload[i] ^= mask_key[i % 4]] *)
Definition unmask (mask_key l : bytes) : bytes := imap (fun i b => Z.lxor b (rd mask_key (Z.of_nat i mod 4))) l.

(** The header of a frame sent. *)
Definition send_header (len : Z) : bytes :=
  if len <=? 125 then [129; u8 len]
  else if len <=? 65535 then [129; 126; Z.land (Z.shiftr len 8) 255; Z.land len 255]
  else 129 :: 127 :: map (fun i => Z.land (Z.shiftr len ((7 - Z.of_nat i) * 8)) 255) (seq 0 8).

(** [new_cap]: the power of two from [need] on. *)
Definition grown (need : Z) : Z :=
  let new_cap := u64 (smear [1; 2; 4; 8; 16; 32] (u64 (need - 1)) + 1) in
  if new_cap <? INITIAL_RX_CAP then INITIAL_RX_CAP else new_cap.

Section server.
(** What the n-th [send] of that many bytes answers: how many it took, or -1. *)
Context (send_answer : nat -> Z -> Z).
(** What is called while the lock is free for the n-th time. *)
Context (window : nat -> list api_call).
(** What [malloc] and [realloc] leave at each index of the memory they add. *)
Context (garbage : nat -> Z).

Definition send (fd : Z) (data : bytes) : W Z := fun w =>
  let r := send_answer (w_sends w) (zlen data) in
  let w := mk_ws (w_server w) (w_actions w) (S (w_sends w)) (w_windows w) in
  if r <? 0 then Done (r, w) else (_ ← act (Sends fd (take (Z.to_nat r) data)); mret r) w.

(** ** The calls of other threads *)

Fixpoint find_client (id : Z) (cs : list ws_client_t) : Z :=
  match cs with
  | c :: cs => if (c_id c =? id) && (0 <=? c_fd c) then c_fd c else find_client id cs
  | [] => -1
  end.

Definition zst_ws_send (id : Z) (data : bytes) : W zst_result_t :=
  s ← server;
  let fd := find_client id (ws_clients s) in
  if fd <? 0 then mret ZST_ERROR
  else
    let header := send_header (zlen data) in
    sent_hdr ← send fd header;
    sent_data ← send fd data;
    mret (if negb (sent_hdr =? zlen header) || negb (sent_data =? zlen data) then ZST_ERROR else ZST_OK).

Definition zst_ws_server_set_callbacks (c m d : option nat) (ud : nat) : W unit :=
  s ← server;
  put_server (mk_server (ws_port s) (ws_listen_fd s) (ws_running s) (ws_clients s) (ws_next_client_id s) c m d ud).

(** [unlocked] is what happens while the callback runs. *)
Definition disconnect_with (unlocked : W unit) (idx : nat) : W unit :=
  c ← client idx;
  if 0 <=? c_fd c then
    _ ← put_client idx no_client;
    _ ← act (Closes (c_fd c));
    s ← server;
    match ws_on_disconnect s with
    | Some cb => _ ← act (OnDisconnect cb (ws_user_data s) (c_id c)); unlocked
    | None => mret tt
    end
  else mret tt.

Fixpoint each_client (f : nat -> W unit) (n idx : nat) : W unit :=
  match n with O => mret tt | S n => _ ← f idx; each_client f n (S idx) end.

(** The part of [zst_ws_server_stop] after the thread was joined. *)
Definition stop_with (unlocked : W unit) : W unit :=
  _ ← each_client (disconnect_with unlocked) MAX_CLIENTS 0;
  s ← server;
  if 0 <=? ws_listen_fd s then
    _ ← act (Closes (ws_listen_fd s));
    put_server (with_listen s (-1) (ws_running s))
  else mret tt.

(** [zst_ws_server_stop] on the server's own thread: the join is refused and the rest
    is done all the same. *)
Definition self_stop (unlocked : W unit) : W unit :=
  s ← server;
  if ws_running s then _ ← put_server (with_listen s (ws_listen_fd s) false); stop_with unlocked else mret tt.

Definition next_window : W (list api_call) := fun w =>
  Done (window (w_windows w), mk_ws (w_server w) (w_actions w) (w_sends w) (S (w_windows w))).

(** The lock is free; a stop disconnects clients, which frees the lock again: [depth]
    bounds how deep. *)
Fixpoint unlocked (depth : nat) : W unit :=
  match depth with
  | O => w_stuck
  | S depth =>
      calls ← next_window;
      (fix go (calls : list api_call) : W unit :=
         match calls with
         | [] => mret tt
         | CallSend id data :: calls => _ ← zst_ws_send id data; go calls
         | CallSetCallbacks c m d ud :: calls => _ ← zst_ws_server_set_callbacks c m d ud; go calls
         | CallStop :: calls => _ ← self_stop (unlocked depth); go calls
         end) calls
  end.

Context (depth : nat).
Definition disconnect_client_unlocked : nat -> W unit := disconnect_with (unlocked depth).

(** ** [process_client_rx] *)

(** Each round says whether the loop goes on. *)
Definition handshake_round (idx : nat) (c : ws_client_t) : W bool :=
  buf ← buf_of c;
  buf ← store buf (c_len c) 0;
  _ ← put_client idx (with_buf c (Some buf) (c_len c) (c_cap c));
  let str := c_string buf in
  match find_text crlf2 str with
  | None => _ ← (if u64 (c_cap c - 1) <=? c_len c then disconnect_client_unlocked idx else mret tt); mret false
  | Some e =>
      let header_bytes := Z.of_nat e + 4 in
      match find_text key_header str with
      | None => _ ← disconnect_client_unlocked idx; mret false
      | Some k =>
          let key := until_any [13; 10] (skip_any [32; 9] (drop (k + 18) str)) in
          if 128 <=? zlen key then _ ← disconnect_client_unlocked idx; mret false
          else
            _ ← send (c_fd c) (response (accept_of key));
            let len := u64 (c_len c - header_bytes) in
            buf ← move_front buf header_bytes len;
            _ ← put_client idx (mk_client (c_id c) (c_fd c) true (Some buf) len (c_cap c));
            s ← server;
            _ ← match ws_on_connect s with
                | Some cb => _ ← act (OnConnect cb (ws_user_data s) (c_id c)); unlocked depth
                | None => mret tt
                end;
            mret true
      end
  end.

(** The length in the header, and how long the header is; [None] when it is not all
    there. *)
Definition payload_length (buf : bytes) (len : Z) : W (option (Z * Z)) :=
  b1 ← byte_at buf 1;
  let len7 := Z.land b1 127 in
  if len7 <=? 125 then mret (Some (len7, 2))
  else if len7 =? 126 then
    if len <? 4 then mret None
    else b2 ← byte_at buf 2; b3 ← byte_at buf 3; mret (Some (Z.lor (Z.shiftl b2 8) b3, 4))
  else
    if len <? 10 then mret None
    else
      _ ← byte_at buf 9;
      mret (Some (fold_left (fun v k => Z.lor (u64 (Z.shiftl v 8)) (rd buf (2 + Z.of_nat k))) (seq 0 8) 0, 10)).

(** [payload[i] ^= mask_key[i % 4]] for all of the payload, at [off]. *)
Definition unmask_payload (buf mask_key : bytes) (off len : Z) : W bytes :=
  if len =? 0 then mret buf
  else if (0 <=? off) && (off + len <=? zlen buf) then
    mret (sub_bytes 0 off buf ++ unmask mask_key (sub_bytes off len buf) ++ drop (Z.to_nat (off + len)) buf)
  else w_fault.

Definition deliver (idx : nat) (c : ws_client_t) (buf : bytes) (off payload_len : Z) : W unit :=
  s ← server;
  match ws_on_message s with
  | None => mret tt
  | Some cb =>
      saved ← byte_at buf (off + payload_len);
      buf ← store buf (off + payload_len) 0;
      _ ← put_client idx (with_buf c (Some buf) (c_len c) (c_cap c));
      _ ← act (OnMessage cb (ws_user_data s) (c_id c) (sub_bytes off payload_len buf));
      _ ← unlocked depth;
      c ← client idx;
      buf ← buf_of c;
      buf ← store buf (off + payload_len) saved;
      put_client idx (with_buf c (Some buf) (c_len c) (c_cap c))
  end.

Definition frame_round (idx : nat) (c : ws_client_t) : W bool :=
  if c_len c <? 2 then mret false
  else
    buf ← buf_of c;
    b0 ← byte_at buf 0;
    b1 ← byte_at buf 1;
    let opcode := Z.land b0 15 in
    let masked := negb (Z.land b1 128 =? 0) in
    pl ← payload_length buf (c_len c);
    match pl with
    | None => mret false
    | Some (payload_len, header_len) =>
        let total_required := u64 (header_len + (if masked then 4 else 0) + payload_len) in
        if c_len c <? total_required then mret false
        else
          _ ← (if masked then byte_at buf (header_len + 3) else mret 0);
          let mask_key := if masked then sub_bytes header_len 4 buf else [0; 0; 0; 0] in
          let off := header_len + (if masked then 4 else 0) in
          buf ← (if masked then unmask_payload buf mask_key off payload_len else mret buf);
          _ ← put_client idx (with_buf c (Some buf) (c_len c) (c_cap c));
          if opcode =? 8 then _ ← disconnect_client_unlocked idx; mret false
          else
            _ ← (if opcode =? 9 then _ ← send (c_fd c) [138; 0]; mret tt
                 else if opcode =? 1 then deliver idx c buf off payload_len
                 else mret tt);
            c ← client idx;
            buf ← buf_of c;
            let len := u64 (c_len c - total_required) in
            buf ← move_front buf total_required len;
            _ ← put_client idx (with_buf c (Some buf) len (c_cap c));
            mret true
    end.

(** Each round but the last takes at least two bytes from the buffer. *)
Fixpoint process_client_rx (rounds : nat) (idx : nat) : W unit :=
  match rounds with
  | O => w_stuck
  | S rounds =>
      c ← client idx;
      if 0 <=? c_fd c then
        more ← (if c_handshaked c then frame_round idx c else handshake_round idx c);
        if more : bool then process_client_rx rounds idx else mret tt
      else mret tt
  end.

(** ** The thread *)

Inductive received := Received (data : bytes) | RecvClosed | RecvAgain | RecvFailed.
(** What [poll] says of a client, and what happens to it then. *)
Record client_event := mk_event { ev_hup : bool; ev_in : bool; ev_realloc : bool; ev_recv : received }.

(** More than [PTRDIFF_MAX] bytes are refused always. *)
Definition PTRDIFF_MAX : Z := 9223372036854775807.
Definition ws_grow (c : ws_client_t) (realloc_ok : bool) : option ws_client_t :=
  if c_cap c <=? c_len c + 4096 then
    let new_cap := grown (c_len c + 4096) in
    if realloc_ok && (new_cap + 1 <=? PTRDIFF_MAX) then
      let old := default [] (c_buf c) in
      let n := Z.to_nat (new_cap + 1) in
      Some (with_buf c (Some (take n old ++ map garbage (seq (length old) (n - length old)))) (c_len c) new_cap)
    else None
  else Some c.

(** The bytes received are stored behind the ones at hand. *)
Definition receive (buf : bytes) (len : Z) (data : bytes) : W bytes :=
  if (0 <=? len) && (len + zlen data <=? zlen buf) then
    mret (sub_bytes 0 len buf ++ data ++ drop (Z.to_nat (len + zlen data)) buf)
  else w_fault.

(** [recv] takes what fits of the bytes that are there. *)
Definition client_ready (slot : nat) (ev : client_event) : W unit :=
  c ← client slot;
  if c_fd c <? 0 then mret tt
  else if ev_hup ev then disconnect_client_unlocked slot
  else if ev_in ev then
    match ws_grow c (ev_realloc ev) with
    | None => disconnect_client_unlocked slot
    | Some c =>
        _ ← put_client slot c;
        match ev_recv ev with
        | Received data =>
            let data := sub_bytes 0 (c_cap c - c_len c) data in
            let n := zlen data in
            if n =? 0 then disconnect_client_unlocked slot
            else
              buf ← buf_of c;
              buf ← receive buf (c_len c) data;
              _ ← put_client slot (with_buf c (Some buf) (c_len c + n) (c_cap c));
              process_client_rx (S (Z.to_nat (c_len c + n))) slot
        | RecvAgain => mret tt
        | RecvClosed | RecvFailed => disconnect_client_unlocked slot
        end
    end
  else mret tt.

(** The slots that are polled. *)
Definition client_map (cs : list ws_client_t) : list nat :=
  List.filter (fun i => match cs !! i with Some c => 0 <=? c_fd c | None => false end) (seq 0 (length cs)).

Fixpoint free_slot (cs : list ws_client_t) (i : nat) : option nat :=
  match cs with c :: cs => if c_fd c <? 0 then Some i else free_slot cs (S i) | [] => None end.

(** A connection is accepted, [malloc] succeeding or not. *)
Definition accept_client (fd : Z) (malloc_ok : bool) : W unit :=
  s ← server;
  match free_slot (ws_clients s) 0 with
  | Some slot =>
      let buf := if malloc_ok then Some (map garbage (seq 0 (Z.to_nat (INITIAL_RX_CAP + 1)))) else None in
      put_server (with_clients s (<[slot := mk_client (ws_next_client_id s) fd false buf 0 INITIAL_RX_CAP]> (ws_clients s))
        (s32 (ws_next_client_id s + 1)))
  | None => act (Closes fd)
  end.

Inductive polled :=
| PollInterrupted | PollFailed | PollTimeout
| PollReady (accepted : option (Z * bool)) (evs : list client_event).

Fixpoint ready_all (slots : list nat) (evs : list client_event) : W unit :=
  match slots, evs with
  | slot :: slots, ev :: evs => _ ← client_ready slot ev; ready_all slots evs
  | _, _ => mret tt
  end.

(** A round of [ws_server_thread] from [poll] on; the answer says whether the loop goes
    on.  [accepted] is the connection [accept] gave, if any. *)
Definition ws_round_body (p : polled) : W bool :=
  s ← server;
  let slots := client_map (ws_clients s) in
  _ ← unlocked depth;
  match p with
  | PollInterrupted | PollTimeout => mret true
  | PollFailed => mret false
  | PollReady accepted evs =>
      _ ← match accepted with
          | Some (fd, malloc_ok) => if 0 <=? fd then accept_client fd malloc_ok else mret tt
          | None => mret tt
          end;
      _ ← ready_all slots evs;
      mret true
  end.

Definition ws_server_round (p : polled) : W bool :=
  s ← server;
  if ws_running s then ws_round_body p else mret false.

(** ** The application's calls *)

Definition zst_ws_server_create (calloc_ok : bool) (port : Z) : option zst_ws_server_t :=
  if calloc_ok then Some (mk_server port (-1) false (repeat no_client MAX_CLIENTS) 1 None None None 0) else None.

(** The answers of [socket], [bind], [listen] and [pthread_create]. *)
Definition zst_ws_server_start (fd : Z) (bind_ok listen_ok thread_ok : bool) : W zst_result_t :=
  s ← server;
  if ws_running s then mret ZST_OK
  else if fd <? 0 then mret ZST_ERROR
  else if negb bind_ok then _ ← act (Closes fd); mret ZST_ERROR
  else if negb listen_ok then _ ← act (Closes fd); mret ZST_ERROR
  else
    _ ← put_server (with_listen s fd true);
    if negb thread_ok then
      _ ← act (Closes fd);
      _ ← put_server (with_listen s (-1) false);
      mret ZST_ERROR
    else mret ZST_OK.

(** [joining] is what the thread does until it is joined: nothing, or the rest of a round. *)
Definition joining (p : option polled) : W unit := match p with Some p => _ ← ws_round_body p; mret tt | None => mret tt end.
Definition zst_ws_server_stop (joining : W unit) : W zst_result_t :=
  s ← server;
  if ws_running s then
    _ ← put_server (with_listen s (ws_listen_fd s) false);
    _ ← joining;
    _ ← stop_with (unlocked depth);
    mret ZST_OK
  else mret ZST_OK.

(** ** The element *)

Record ws_server_priv_t := mk_ws_priv { priv_port : Z; priv_srv : option ws_world }.

Definition zst_ws_server_element_create (calloc_ok element_ok : bool) : option ws_server_priv_t :=
  if calloc_ok && element_ok then Some (mk_ws_priv 8000 None) else None.

Definition el_open (p : ws_server_priv_t) (calloc_ok : bool) : zst_result_t * ws_server_priv_t :=
  let srv := option_map (fun s => mk_ws s [] 0 0) (zst_ws_server_create calloc_ok (priv_port p)) in
  (if srv then ZST_OK else ZST_ERROR, mk_ws_priv (priv_port p) srv).

(** A call of the server, which is there from [open] to [close]. *)
Definition on_server (p : ws_server_priv_t) (call : W zst_result_t) : outcome (zst_result_t * ws_server_priv_t) :=
  match priv_srv p with
  | None => Done (ZST_ERROR, p)
  | Some w => '(r, w) ← call w; mret (r, mk_ws_priv (priv_port p) (Some w))
  end.
Definition el_start (p : ws_server_priv_t) (fd : Z) (bind_ok listen_ok thread_ok : bool) := on_server p (zst_ws_server_start fd bind_ok listen_ok thread_ok).
Definition el_stop (p : ws_server_priv_t) (joining : W unit) := on_server p (zst_ws_server_stop joining).

(** [zst_ws_server_free] stops the server first. *)
Definition el_close (p : ws_server_priv_t) (joining : W unit) : outcome (zst_result_t * list action * ws_server_priv_t) :=
  match priv_srv p with
  | None => Done (ZST_OK, [], p)
  | Some w => '(_, w) ← zst_ws_server_stop joining w; mret (ZST_OK, w_actions w, mk_ws_priv (priv_port p) None)
  end.

Definition el_set_prop (p : ws_server_priv_t) (name value : string) : zst_result_t * ws_server_priv_t :=
  if streq name "port" then (ZST_OK, mk_ws_priv (atoi value) (priv_srv p)) else (ZST_ERROR, p).
Definition el_get_prop (p : ws_server_priv_t) (name : string) (max : Z) : zst_result_t * option string :=
  if streq name "port" then (ZST_OK, Some (snprintf max (show_Z (priv_port p)))) else (ZST_ERROR, None).

End server.
