(* ===== verification/WsServerSpec.v ===== *)
(** * What the WebSocket server promises: [WsServer] *)

From Stdlib Require Import String Ascii.
From S2P Require Import Prelude CLib Sha1 Sha1Spec WsServer.

Local Open Scope Z_scope.

(** ** Frames, as RFC 6455 lays them out *)

Definition big (l : bytes) : Z := fold_left (fun v b => v * 256 + b) l 0.

(** The length of the payload and of the header before the mask. *)
Definition frame_length (l : bytes) : option (Z * Z) :=
  if zlen l <? 2 then None
  else
    let len7 := rd l 1 mod 128 in
    if len7 =? 126 then if zlen l <? 4 then None else Some (big (sub_bytes 2 2 l), 4)
    else if len7 =? 127 then if zlen l <? 10 then None else Some (big (sub_bytes 2 8 l), 10)
    else Some (len7, 2).

Inductive frame_result :=
| NeedMore
| Wraps                                          (* longer than 2^64 bytes *)
| Frame (opcode : Z) (payload : bytes) (total : Z).

(** RFC 6455, 5.3: each octet is combined with the first of the key, which then goes to
    its end. *)
Fixpoint mask_octets (key l : bytes) : bytes :=
  match l with
  | [] => []
  | b :: l => Z.lxor b (rd key 0) :: mask_octets (drop 1 key ++ [rd key 0]) l
  end.

Definition next_frame (l : bytes) : frame_result :=
  match frame_length l with
  | None => NeedMore
  | Some (n, h) =>
      let m := if rd l 1 <? 128 then 0 else 4 in
      if 2 ^ 64 <=? h + m + n then Wraps
      else if zlen l <? h + m + n then NeedMore
      else
        let payload := sub_bytes (h + m) n l in
        Frame (rd l 0 mod 16) (if m =? 0 then payload else mask_octets (sub_bytes h 4 l) payload) (h + m + n)
  end.

(** ** Running without a fault *)

Definition returns {A} (m : W A) (w : ws_world) (Q : A -> ws_world -> Prop) : Prop := exists a w', m w = Done (a, w') /\ Q a w'.

Lemma returns_ret {A} (a : A) w Q : Q a w -> returns (mret a) w Q.
Proof. intros H. by exists a, w. Qed.
Lemma returns_bind {A B} (m : W A) (f : A -> W B) w Q : returns m w (fun a w' => returns (f a) w' Q) -> returns (a ← m; f a) w Q.
Proof. intros (a & w' & E & (b & w'' & E' & HQ)). exists b, w''. split; [|done]. unfold mbind, W_bind. by rewrite E. Qed.
Lemma returns_mono {A} (m : W A) w (Q R : A -> ws_world -> Prop) : returns m w Q -> (forall a w', Q a w' -> R a w') -> returns m w R.
Proof. intros (a & w' & E & HQ) H. exists a, w'. eauto. Qed.
Lemma returns_server w Q : Q (w_server w) w -> returns server w Q.
Proof. intros H. by exists (w_server w), w. Qed.
Lemma returns_client idx c w Q : ws_clients (w_server w) !! idx = Some c -> Q c w -> returns (client idx) w Q.
Proof. intros Hc H. exists c, w. unfold client. by rewrite Hc. Qed.
Lemma returns_byte_at b i w Q : 0 <= i < zlen b -> Q (rd b i) w -> returns (byte_at b i) w Q.
Proof. intros Hi H. unfold byte_at. rewrite (proj2 (Z.leb_le 0 i)), (proj2 (Z.ltb_lt i _)) by lia. by apply returns_ret. Qed.
Lemma returns_store b i v w Q : 0 <= i < zlen b -> Q (<[Z.to_nat i := v]> b) w -> returns (store b i v) w Q.
Proof. intros Hi H. unfold store. rewrite (proj2 (Z.leb_le 0 i)), (proj2 (Z.ltb_lt i _)) by lia. by apply returns_ret. Qed.
Lemma returns_buf_of c b w Q : c_buf c = Some b -> Q b w -> returns (buf_of c) w Q.
Proof. intros Hb H. unfold buf_of. rewrite Hb. by apply returns_ret. Qed.

(** ** What changes from one state to another: the clients become [cs], and of the
    actions added the callbacks are [cbs] *)

Definition is_callback (a : action) : bool := match a with Sends _ _ | Closes _ => false | _ => true end.
Definition callbacks (tr : list action) : list action := List.filter is_callback tr.
Definition handlers (s : zst_ws_server_t) : option nat * option nat * option nat * nat :=
  (ws_on_connect s, ws_on_message s, ws_on_disconnect s, ws_user_data s).

Definition stop_free (call : api_call) : Prop := match call with CallStop => False | _ => True end.
Definition is_send (call : api_call) : Prop := match call with CallSend _ _ => True | _ => False end.

Section spec.
Context (send_answer : nat -> Z -> Z) (window : nat -> list api_call) (garbage : nat -> Z) (d : nat).
Hypothesis no_stop : forall n, Forall stop_free (window n).
Abbreviation depth := (S d).
Abbreviation unlocked := (WsServer.unlocked send_answer window depth).

Definition sends_only : Prop := forall n, Forall is_send (window n).

Definition change (w w' : ws_world) (cs : list ws_client_t) (cbs : list action) : Prop :=
  ws_clients (w_server w') = cs /\ ws_next_client_id (w_server w') = ws_next_client_id (w_server w) /\
  (exists tr, w_actions w' = w_actions w ++ tr /\ callbacks tr = cbs) /\
  (sends_only -> handlers (w_server w') = handlers (w_server w)).

Lemma change_same w w' : w_server w' = w_server w -> w_actions w' = w_actions w -> change w w' (ws_clients (w_server w)) [].
Proof. intros Es Ea. unfold change. rewrite Es, Ea. split; [done|]. split; [done|]. split; [|done]. exists []. by rewrite app_nil_r. Qed.
Lemma change_refl w : change w w (ws_clients (w_server w)) [].
Proof. by apply change_same. Qed.
Lemma change_trans w1 w2 w3 cs2 cs3 l1 l2 : change w1 w2 cs2 l1 -> change w2 w3 cs3 l2 -> change w1 w3 cs3 (l1 ++ l2).
Proof.
  intros (_ & N1 & (t1 & A1 & C1) & H1) (C2 & N2 & (t2 & A2 & C3) & H2). split; [done|]. split; [congruence|]. split.
  - exists (t1 ++ t2). rewrite A2, A1, app_assoc. split; [done|]. unfold callbacks in *. rewrite List.filter_app. congruence.
  - intros Hs. rewrite H2, H1 by done. done.
Qed.
Lemma change_trans0 w1 w2 w3 cs2 cs3 l : change w1 w2 cs2 [] -> change w2 w3 cs3 l -> change w1 w3 cs3 l.
Proof. apply (change_trans _ _ _ _ _ []). Qed.
Lemma change_trans1 w1 w2 w3 cs2 cs3 l : change w1 w2 cs2 l -> change w2 w3 cs3 [] -> change w1 w3 cs3 l.
Proof. intros H1 H2. rewrite <- (app_nil_r l). eauto using change_trans. Qed.

Lemma returns_act a w Q : (forall w', change w w' (ws_clients (w_server w)) (callbacks [a]) -> w_server w' = w_server w -> Q tt w') -> returns (act a) w Q.
Proof. intros H. eexists tt, _. split; [reflexivity|]. apply H; [|done]. split; [done|]. split; [done|]. split; [|done]. by exists [a]. Qed.

Lemma returns_put_client idx c w Q :
  (forall w', change w w' (<[idx := c]> (ws_clients (w_server w))) [] -> handlers (w_server w') = handlers (w_server w) -> Q tt w') ->
  returns (put_client idx c) w Q.
Proof.
  intros H. eexists tt, _. split; [reflexivity|]. apply H; [|done]. split; [done|]. split; [done|]. split; [|done]. exists []. by rewrite app_nil_r.
Qed.

Lemma returns_send fd data w Q :
  (forall r w', change w w' (ws_clients (w_server w)) [] -> w_server w' = w_server w -> Q r w') -> returns (send send_answer fd data) w Q.
Proof.
  intros H. unfold returns, send. destruct (_ <? 0); eexists _, _; (split; [reflexivity|]); apply H; try done;
    (split; [done|]); (split; [done|]); (split; [|done]); [exists []; by rewrite app_nil_r|by eexists [_]].
Qed.

Lemma zst_ws_send_quiet id data w Q :
  (forall r w', change w w' (ws_clients (w_server w)) [] -> w_server w' = w_server w -> Q r w') -> returns (zst_ws_send send_answer id data) w Q.
Proof.
  intros H. unfold zst_ws_send. apply returns_bind, returns_server. destruct (_ <? 0).
  - apply returns_ret, H; [apply change_refl|done].
  - apply returns_bind, returns_send. intros r1 w1 C1 E1. apply returns_bind, returns_send. intros r2 w2 C2 E2.
    apply returns_ret, H; [|congruence]. rewrite E1 in C2. eauto using change_trans0.
Qed.

(** While the lock is free the clients stay as they are. *)
Lemma unlocked_quiet w Q : (forall w', change w w' (ws_clients (w_server w)) [] -> Q tt w') -> returns unlocked w Q.
Proof.
  intros H. cbn [WsServer.unlocked]. apply returns_bind. eexists _, _. split; [reflexivity|]. cbn beta.
  set (w0 := mk_ws _ _ _ _). assert (change w w0 (ws_clients (w_server w)) []) as H0 by (by apply change_same).
  pose proof (no_stop (w_windows w)) as Hn. assert (sends_only -> Forall is_send (window (w_windows w))) as Hs by (intros Hs; apply Hs).
  revert Hn Hs. generalize (window (w_windows w)) as calls. clearbody w0. intros calls. revert w0 H0. induction calls as [|call calls IH]; intros w0 H0 Hn Hs.
  - by apply returns_ret, H.
  - apply Forall_cons_1 in Hn as [Hc Hn]. destruct call as [id data|c m dd ud|]; [| |done].
    + apply returns_bind, zst_ws_send_quiet. intros r w1 C1 E1. apply IH; [|done|].
      * pose proof (change_trans0 _ _ _ _ _ _ H0 C1) as C2. by rewrite (proj1 H0) in C2.
      * intros Hso. specialize (Hs Hso). by apply Forall_cons_1 in Hs as [_ Hs].
    + apply returns_bind. eexists tt, _. split; [reflexivity|]. apply IH; [|done|].
      * destruct H0 as (C & N & T & HH). split; [done|]. split; [done|]. split; [done|]. intros Hso. specialize (Hs Hso). by apply Forall_cons_1 in Hs as [? _].
      * intros Hso. specialize (Hs Hso). by apply Forall_cons_1 in Hs as [_ Hs].
Qed.

Lemma disconnect_change idx c w Q : ws_clients (w_server w) !! idx = Some c -> 0 <= c_fd c ->
  (forall w', change w w' (<[idx := no_client]> (ws_clients (w_server w)))
     (match ws_on_disconnect (w_server w) with Some cb => [OnDisconnect cb (ws_user_data (w_server w)) (c_id c)] | None => [] end) -> Q tt w') ->
  returns (disconnect_client_unlocked send_answer window depth idx) w Q.
Proof.
  intros Hc Hfd H. unfold disconnect_client_unlocked, disconnect_with. apply returns_bind, (returns_client idx c); [done|].
  rewrite (proj2 (Z.leb_le 0 (c_fd c)) Hfd). apply returns_bind, returns_put_client. intros w1 C1 H1.
  apply returns_bind, returns_act. intros w2 C2 E2. apply returns_bind, returns_server. rewrite E2.
  assert (ws_on_disconnect (w_server w1) = ws_on_disconnect (w_server w) /\ ws_user_data (w_server w1) = ws_user_data (w_server w)) as [-> ->]
    by (unfold handlers in H1; by injection H1).
  rewrite (proj1 C1) in C2. pose proof (change_trans0 _ _ _ _ _ _ C1 C2) as C.
  destruct (ws_on_disconnect (w_server w)) as [cb|]; [|by apply returns_ret, H].
  apply returns_bind, returns_act. intros w3 C3 E3. apply unlocked_quiet. intros w4 C4. apply H.
  rewrite (proj1 C) in C3. rewrite (proj1 C3) in C4.
  exact (change_trans1 _ _ _ _ _ _ (change_trans0 _ _ _ _ _ _ C C3) C4).
Qed.

(** ** A client's buffer *)

(** [l] are the bytes received and not consumed. *)
Definition holds (c : ws_client_t) (l : bytes) : Prop :=
  0 <= c_fd c /\ c_len c = zlen l /\ zlen l <= c_cap c <= 2 ^ 62 /\ bytes_ok l /\
  exists b, c_buf c = Some b /\ zlen b = c_cap c + 1 /\ sub_bytes 0 (zlen l) b = l.

Lemma sub_sub off n m l : 0 <= off -> 0 <= n -> off + n <= m -> sub_bytes off n (sub_bytes 0 m l) = sub_bytes off n l.
Proof.
  intros Ho Hn Hm. unfold sub_bytes. change (Z.to_nat 0) with 0%nat. rewrite drop_0, skipn_firstn_comm, take_take. f_equal. lia.
Qed.
Lemma rd_sub i m l : 0 <= i < m -> rd (sub_bytes 0 m l) i = rd l i.
Proof. intros Hi. unfold rd, sub_bytes. change (Z.to_nat 0) with 0%nat. rewrite drop_0, lookup_take_lt by lia. done. Qed.

(** The part of a block from [off] on replaced by as many bytes. *)
Lemma splice_len off x b : 0 <= off -> off + zlen x <= zlen b -> zlen (sub_bytes 0 off b ++ x ++ drop (Z.to_nat (off + zlen x)) b) = zlen b.
Proof.
  intros Ho Hx. pose proof (zlen_nonneg x). rewrite !zlen_app, zlen_sub_bytes by lia. unfold zlen in *. rewrite length_drop. lia.
Qed.
Lemma splice_here off x b : 0 <= off -> off + zlen x <= zlen b ->
  sub_bytes off (zlen x) (sub_bytes 0 off b ++ x ++ drop (Z.to_nat (off + zlen x)) b) = x.
Proof.
  intros Ho Hx. pose proof (zlen_nonneg x). set (p := sub_bytes 0 off b). assert (zlen p = off) as Hp by (apply zlen_sub_bytes; lia).
  unfold sub_bytes. rewrite (drop_app_length' p) by (unfold zlen in Hp; lia). by rewrite take_app_length' by (unfold zlen; lia).
Qed.
Lemma splice_after off x b n : 0 <= off -> off + zlen x <= zlen b ->
  sub_bytes (off + zlen x) n (sub_bytes 0 off b ++ x ++ drop (Z.to_nat (off + zlen x)) b) = sub_bytes (off + zlen x) n b.
Proof.
  intros Ho Hx. pose proof (zlen_nonneg x). set (p := sub_bytes 0 off b). assert (zlen p = off) as Hp by (apply zlen_sub_bytes; lia).
  unfold sub_bytes. rewrite app_assoc, drop_app_length'; [done|]. rewrite length_app. unfold zlen in *. lia.
Qed.

Lemma unmask_octets key l : zlen key = 4 -> unmask key l = mask_octets key l.
Proof.
  unfold zlen. destruct key as [|k0 [|k1 [|k2 [|k3 [|? ?]]]]]; cbn [length]; intros Hk; try lia. unfold unmask.
  enough (forall f, (forall i b, f i b = Z.lxor b (rd [k0; k1; k2; k3] (Z.of_nat i mod 4))) ->
    imap f l = mask_octets [k0; k1; k2; k3] l) as H by (by apply H).
  revert k0 k1 k2 k3. induction l as [|b l IH]; intros k0 k1 k2 k3 f Hf; [done|].
  rewrite imap_cons, Hf. cbn [mask_octets drop app]. f_equal. apply IH. intros i c. unfold compose. rewrite Hf. f_equal.
  rewrite Nat2Z.inj_succ, <- Z.add_1_r, <- Zplus_mod_idemp_l. pose proof (Z.mod_pos_bound (Z.of_nat i) 4).
  assert (Z.of_nat i mod 4 = 0 \/ Z.of_nat i mod 4 = 1 \/ Z.of_nat i mod 4 = 2 \/ Z.of_nat i mod 4 = 3) as Hc by lia.
  by destruct Hc as [->|[->|[->| ->]]].
Qed.

Lemma unmask_len k l : zlen (unmask k l) = zlen l.
Proof. unfold zlen, unmask. by rewrite length_imap. Qed.

Lemma move_front_tail c b off n : zlen b = c_cap c + 1 -> 0 <= off -> 0 <= n -> off + n <= zlen b -> forall w Q,
  (forall b', zlen b' = zlen b -> sub_bytes 0 n b' = sub_bytes off n b -> Q b' w) -> returns (move_front b off n) w Q.
Proof.
  intros Hb Ho Hn Hl w Q H. unfold move_front. destruct (Z.eqb_spec n 0) as [->|Hne]; [apply returns_ret, H; [done|by unfold sub_bytes]|].
  rewrite (proj2 (Z.leb_le 0 off)), (proj2 (Z.leb_le 0 n)), (proj2 (Z.leb_le (off + n) _)) by lia. apply returns_ret.
  pose proof (zlen_sub_bytes off n b Ho Hn Hl) as Hs. apply H.
  - rewrite zlen_app, Hs. unfold zlen in *. rewrite length_drop. lia.
  - unfold sub_bytes at 1. change (Z.to_nat 0) with 0%nat. rewrite drop_0. apply take_app_length'. unfold zlen in Hs. lia.
Qed.

(** ** The header of a frame *)

Lemma be_fold l v : bytes_ok l -> 0 <= v -> v * 256 ^ zlen l + 256 ^ zlen l <= 2 ^ 64 ->
  fold_left (fun v b => Z.lor (u64 (Z.shiftl v 8)) b) l v = fold_left (fun v b => v * 256 + b) l v.
Proof.
  revert v. induction l as [|b l IH]; intros v Hok Hv Hm; [done|]. cbn [fold_left]. apply Forall_cons_1 in Hok as [Hb Hok]. unfold is_byte in Hb.
  rewrite zlen_cons, Z.pow_add_r in Hm by (pose proof (zlen_nonneg l); lia). change (256 ^ 1) with 256 in Hm.
  assert (0 < 256 ^ zlen l) by (apply Z.pow_pos_nonneg; [lia|apply zlen_nonneg]).
  assert (v * 256 < 2 ^ 64) by nia. assert (u64 (Z.shiftl v 8) = Z.shiftl v 8) as ->.
  { apply u64_small. rewrite Z.shiftl_mul_pow2 by lia. change (2 ^ 8) with 256. change (2 ^ 64) with 18446744073709551616 in *. lia. }
  rewrite lor_shiftl_add by lia. change (2 ^ 8) with 256. apply IH; [done|lia|]. nia.
Qed.

Lemma sub_bytes_map l off (n : nat) : 0 <= off -> off + Z.of_nat n <= zlen l ->
  sub_bytes off (Z.of_nat n) l = map (fun k => rd l (off + Z.of_nat k)) (seq 0 n).
Proof.
  intros Ho Hl. apply list_eq. intros i. destruct (decide (i < n)%nat) as [Hi|Hi].
  - rewrite list_lookup_fmap, lookup_seq_lt by done. cbn. unfold sub_bytes, rd. rewrite lookup_take_lt, lookup_drop by lia.
    replace (Z.to_nat (off + Z.of_nat i)) with (Z.to_nat off + i)%nat by lia.
    destruct (lookup_lt_is_Some_2 l (Z.to_nat off + i)) as [x ->]; [unfold zlen in Hl; lia|done].
  - rewrite list_lookup_fmap, lookup_seq_ge by lia. apply lookup_take_ge. lia.
Qed.

Lemma payload_length_spec l b w : bytes_ok l -> 2 <= zlen l <= zlen b -> sub_bytes 0 (zlen l) b = l ->
  payload_length b (zlen l) w = Done (frame_length l, w).
Proof.
  intros Hok Hl Hb. assert (forall i, 0 <= i < zlen l -> rd b i = rd l i) as Hrd by (intros i Hi; rewrite <- Hb; by rewrite rd_sub by lia).
  unfold payload_length, frame_length. destruct (Z.ltb_spec (zlen l) 2); [lia|].
  unfold byte_at. rewrite (proj2 (Z.ltb_lt 1 (zlen b))) by lia. cbn [Z.leb Z.compare Pos.compare andb]. unfold mbind, W_bind, mret, W_ret.
  rewrite Hrd by lia. rewrite (land_ones_mod _ 7 127) by (done || lia). change (2 ^ 7) with 128. set (len7 := rd l 1 mod 128).
  assert (0 <= len7 < 128) by (apply Z.mod_pos_bound; lia).
  destruct (Z.leb_spec len7 125); [destruct (Z.eqb_spec len7 126); [lia|]; destruct (Z.eqb_spec len7 127); [lia|]; done|].
  destruct (Z.eqb_spec len7 126).
  - destruct (Z.ltb_spec (zlen l) 4); [done|]. rewrite (proj2 (Z.ltb_lt 2 (zlen b))), (proj2 (Z.ltb_lt 3 (zlen b))) by lia.
    cbn [Z.leb Z.compare Pos.compare andb]. do 3 f_equal. rewrite !Hrd by lia.
    pose proof (sub_bytes_map l 2 2) as E. change (Z.of_nat 2) with 2 in E. rewrite E by lia. cbn. rewrite lor_shiftl_add; [done|lia|]. apply (rd_byte l 3 Hok).
  - destruct (Z.eqb_spec len7 127); [|lia]. destruct (Z.ltb_spec (zlen l) 10); [done|]. rewrite (proj2 (Z.ltb_lt 9 (zlen b))) by lia.
    cbn [Z.leb Z.compare Pos.compare andb]. do 3 f_equal. unfold big. pose proof (sub_bytes_map l 2 8) as E. change (Z.of_nat 8) with 8 in E. rewrite E by lia.
    rewrite <- be_fold; [|apply Forall_forall; intros x Hx; apply list_elem_of_In, in_map_iff in Hx as (k & <- & _); by apply rd_byte|lia|done].
    cbn [seq map fold_left]. by rewrite !Hrd by lia.
Qed.

(** ** One frame *)

Definition disconnected (w : ws_world) (id : Z) : list action :=
  match ws_on_disconnect (w_server w) with Some cb => [OnDisconnect cb (ws_user_data (w_server w)) id] | None => [] end.
Definition delivered (w : ws_world) (id opcode : Z) (payload : bytes) : list action :=
  if opcode =? 1 then
    match ws_on_message (w_server w) with Some cb => [OnMessage cb (ws_user_data (w_server w)) id payload] | None => [] end
  else [].

Lemma handlers_eq s s' : handlers s' = handlers s ->
  ws_on_connect s' = ws_on_connect s /\ ws_on_message s' = ws_on_message s /\ ws_on_disconnect s' = ws_on_disconnect s /\ ws_user_data s' = ws_user_data s.
Proof. unfold handlers. intros [= -> -> -> ->]. done. Qed.

(** The byte behind the payload is put back after the callback. *)
Lemma deliver_spec idx c b off n w Q : ws_clients (w_server w) !! idx = Some (with_buf c (Some b) (c_len c) (c_cap c)) ->
  0 <= off -> 0 <= n -> off + n < zlen b ->
  (forall w', change w w' (ws_clients (w_server w)) (delivered w (c_id c) 1 (sub_bytes off n b)) -> Q tt w') ->
  returns (deliver send_answer window depth idx c b off n) w Q.
Proof.
  intros Hc Ho Hn Hb H. unfold deliver. apply returns_bind, returns_server. unfold delivered in H. cbn [Z.eqb Pos.eqb] in H.
  destruct (ws_on_message (w_server w)) as [cb|]; [|apply returns_ret, H, change_refl].
  apply returns_bind, returns_byte_at; [lia|]. apply returns_bind, returns_store; [lia|]. set (b0 := <[_ := 0]> b).
  apply returns_bind, returns_put_client. intros w1 C1 H1. apply returns_bind, returns_act. intros w2 C2 E2.
  apply returns_bind, unlocked_quiet. intros w3 C3. rewrite E2 in C3. rewrite (proj1 C1) in C2, C3.
  pose proof (change_trans1 _ _ _ _ _ _ (change_trans0 _ _ _ _ _ _ C1 C2) C3) as C.
  apply returns_bind, (returns_client idx (with_buf c (Some b0) (c_len c) (c_cap c))).
  { rewrite (proj1 C). apply list_lookup_insert_eq. by eapply lookup_lt_Some. }
  apply returns_bind, (returns_buf_of _ b0); [done|]. assert (zlen b0 = zlen b) as Hl by (unfold zlen, b0; by rewrite length_insert).
  apply returns_bind, returns_store; [lia|]. apply returns_put_client. intros w4 C4 H4. apply H.
  rewrite (proj1 C) in C4. pose proof (change_trans1 _ _ _ _ _ _ C C4) as C'. rewrite list_insert_insert_eq in C'.
  assert (<[Z.to_nat (off + n) := rd b (off + n)]> b0 = b) as Eb.
  { subst b0. rewrite list_insert_insert_eq. apply list_insert_id. unfold rd. destruct (lookup_lt_is_Some_2 b (Z.to_nat (off + n))) as [x Hx]; [unfold zlen in *; lia|]. by rewrite Hx. }
  rewrite Eb in C'. cbn [with_buf c_id c_fd c_handshaked c_buf c_len c_cap] in C'.
  rewrite list_insert_id in C' by done. assert (sub_bytes off n b0 = sub_bytes off n b) as <-; [|done].
  unfold sub_bytes. apply list_eq. intros i. destruct (decide (i < Z.to_nat n)%nat); [|by rewrite !lookup_take_ge by lia].
  rewrite !lookup_take_lt, !lookup_drop by lia. unfold b0. apply list_lookup_insert_ne. lia.
Qed.

Lemma mask_bit b : is_byte b -> negb (Z.land b 128 =? 0) = negb (b <? 128).
Proof.
  intros Hb. pose (P b := Bool.eqb (negb (Z.land b 128 =? 0)) (negb (b <? 128))).
  assert (P b = true) as HP by (apply byte_forall; [by vm_compute|done]). by apply Bool.eqb_prop in HP.
Qed.

Lemma frame_length_range l n h : frame_length l = Some (n, h) -> bytes_ok l -> 0 <= n < 2 ^ 64 /\ 2 <= h <= 10 /\ h <= zlen l.
Proof.
  intros E Hok. unfold frame_length in E. destruct (Z.ltb_spec (zlen l) 2); [done|].
  assert (forall off k, 0 <= off -> 0 <= k -> off + k <= zlen l -> 0 <= big (sub_bytes off k l) < 256 ^ k) as Hbig.
  { intros off k Ho Hk Hl. pose proof (bytes_ok_sub off k l Hok) as Hs. pose proof (zlen_sub_bytes off k l Ho Hk Hl) as Hz.
    revert Hs Hz. generalize (sub_bytes off k l). intros s Hs <-. unfold big.
    enough (forall v, 0 <= v -> 0 <= fold_left (fun v b => v * 256 + b) s v < (v + 1) * 256 ^ zlen s) as Hf by (specialize (Hf 0); lia).
    clear Hl Hk. induction s as [|b s IH]; intros v Hv; [rewrite @zlen_nil; cbn; lia|]. apply Forall_cons_1 in Hs as [Hb Hs]. cbn [fold_left]. unfold is_byte in Hb.
    specialize (IH Hs (v * 256 + b) ltac:(lia)). rewrite zlen_cons, Z.pow_add_r by (pose proof (zlen_nonneg s); lia).
    assert (0 < 256 ^ zlen s) by (apply Z.pow_pos_nonneg; [lia|apply zlen_nonneg]). nia. }
  set (len7 := rd l 1 mod 128) in *. assert (0 <= len7 < 128) by (apply Z.mod_pos_bound; lia).
  destruct (Z.eqb_spec len7 126).
  - destruct (Z.ltb_spec (zlen l) 4); [done|]. injection E as <- <-. specialize (Hbig 2 2). change (256 ^ 2) with 65536 in Hbig. change (2 ^ 64) with 18446744073709551616. lia.
  - destruct (Z.eqb_spec len7 127).
    + destruct (Z.ltb_spec (zlen l) 10); [done|]. injection E as <- <-. specialize (Hbig 2 8). change (2 ^ 64) with (256 ^ 8). lia.
    + injection E as <- <-. change (2 ^ 64) with 18446744073709551616. lia.
Qed.

Lemma holds_rd c l b i : bytes_ok l -> zlen l <= c_cap c -> zlen b = c_cap c + 1 -> sub_bytes 0 (zlen l) b = l -> 0 <= i < zlen l -> rd b i = rd l i /\ 0 <= i < zlen b.
Proof. intros Hok Hc Hb Hl Hi. split; [rewrite <- Hl; by rewrite rd_sub by lia|lia]. Qed.

(** The payload where it lies, without its mask. *)
Lemma unmask_payload_spec b key off n w Q : 0 <= off -> 0 <= n -> off + n <= zlen b ->
  (forall b', zlen b' = zlen b -> sub_bytes off n b' = unmask key (sub_bytes off n b) ->
     (forall k, sub_bytes (off + n) k b' = sub_bytes (off + n) k b) -> Q b' w) ->
  returns (unmask_payload b key off n) w Q.
Proof.
  intros Ho Hn Hl H. unfold unmask_payload. destruct (Z.eqb_spec n 0) as [->|Hne]; [apply returns_ret, H; done|].
  rewrite (proj2 (Z.leb_le 0 off)), (proj2 (Z.leb_le (off + n) _)) by lia. apply returns_ret. set (x := unmask key (sub_bytes off n b)).
  assert (zlen x = n) as Hx by (subst x; rewrite unmask_len; by apply zlen_sub_bytes). 
  pose proof (splice_len off x b) as H1. pose proof (splice_here off x b) as H2. pose proof (fun k => splice_after off x b k) as H3. rewrite Hx in H1, H2, H3.
  apply H; [by apply H1|by apply H2|intros k; by apply H3].
Qed.

(** What is left of the buffer when a frame of [total] bytes is done. *)
Lemma consumed c l b b' total w Q : holds c l -> zlen b = c_cap c + 1 -> sub_bytes 0 (zlen l) b = l -> 0 <= total <= zlen l ->
  zlen b' = zlen b -> (forall k, sub_bytes total k b' = sub_bytes total k b) ->
  (forall b2, holds (with_buf c (Some b2) (zlen l - total) (c_cap c)) (drop (Z.to_nat total) l) -> Q b2 w) ->
  returns (move_front b' total (zlen l - total)) w Q.
Proof.
  intros (Hfd & Hlen & Hcap & Hok & _) Hb Hl Ht Hb' Ha H. apply (move_front_tail c); [congruence|lia..|]. intros b2 Hz2 Hs2. apply H.
  assert (zlen (drop (Z.to_nat total) l) = zlen l - total) as Hd by (unfold zlen in *; rewrite length_drop; lia).
  split; [done|]. cbn [with_buf c_len c_cap c_buf]. rewrite Hd. split; [done|]. split; [lia|]. split; [by apply Forall_drop|]. exists b2. split; [done|]. split; [congruence|].
  rewrite Hs2, Ha. rewrite <- (sub_sub total (zlen l - total) (zlen l)) by lia. rewrite Hl. unfold sub_bytes. rewrite take_ge; [done|]. rewrite length_drop. unfold zlen. lia.
Qed.

Lemma next_frame_total l op p total : next_frame l = Frame op p total -> bytes_ok l -> 2 <= total <= zlen l.
Proof.
  unfold next_frame. destruct (frame_length l) as [[n h]|] eqn:E; [|done]. intros F Hok. destruct (frame_length_range _ _ _ E Hok) as (Hn & Hh & Hhl).
  set (m := if rd l 1 <? 128 then 0 else 4) in F. assert (0 <= m <= 4) by (subst m; destruct (_ <? _); lia).
  destruct (Z.leb_spec (2 ^ 64) (h + m + n)); [done|]. destruct (Z.ltb_spec (zlen l) (h + m + n)); [done|]. injection F as _ _ <-. lia.
Qed.

Lemma frame_round_spec idx c l w : ws_clients (w_server w) !! idx = Some c -> holds c l -> next_frame l <> Wraps ->
  returns (frame_round send_answer window depth idx c) w (fun more w' =>
    match next_frame l with
    | Frame op p total =>
        if op =? 8 then more = false /\ change w w' (<[idx := no_client]> (ws_clients (w_server w))) (disconnected w (c_id c))
        else more = true /\ exists b2, holds (with_buf c (Some b2) (zlen l - total) (c_cap c)) (drop (Z.to_nat total) l) /\
          change w w' (<[idx := with_buf c (Some b2) (zlen l - total) (c_cap c)]> (ws_clients (w_server w))) (delivered w (c_id c) op p)
    | _ => more = false /\ w' = w
    end).
Proof.
  intros Hc H Hnw. pose proof H as (Hfd & Hlen & Hcap & Hok & b & Hb & Hz & Hl). unfold frame_round. rewrite Hlen. unfold next_frame in *.
  destruct (Z.ltb_spec (zlen l) 2) as [Hs|Hs].
  { unfold frame_length. destruct (Z.ltb_spec (zlen l) 2); [|lia]. by apply returns_ret. }
  assert (forall i, 0 <= i < zlen l -> rd b i = rd l i /\ 0 <= i < zlen b) as Hrd by (intros i Hi; apply (holds_rd c); [done|lia|done..]).
  apply returns_bind, (returns_buf_of _ b); [done|]. apply returns_bind, returns_byte_at; [lia|]. apply returns_bind, returns_byte_at; [lia|].
  rewrite (proj1 (Hrd 0 ltac:(lia))), (proj1 (Hrd 1 ltac:(lia))). pose proof (rd_byte l 0 Hok) as Hb0. pose proof (rd_byte l 1 Hok) as Hb1.
  rewrite mask_bit by done. rewrite (land_ones_mod _ 4 15) by (done || lia). change (2 ^ 4) with 16.
  apply returns_bind. exists (frame_length l), w. split; [apply payload_length_spec; [done|lia|done]|].
  destruct (frame_length l) as [[n h]|] eqn:Efl; [|by apply returns_ret]. destruct (frame_length_range _ _ _ Efl Hok) as (Hn & Hh & Hhl).
  replace (if negb (rd l 1 <? 128) then 4 else 0) with (if rd l 1 <? 128 then 0 else 4) by (by destruct (rd l 1 <? 128)).
  set (m := if rd l 1 <? 128 then 0 else 4) in *. assert (m = 0 /\ (rd l 1 <? 128) = true \/ m = 4 /\ (rd l 1 <? 128) = false) as Hm by (subst m; destruct (rd l 1 <? 128); auto).
  destruct (Z.leb_spec (2 ^ 64) (h + m + n)) as [|Hw]; [done|]. clear Hnw. change (2 ^ 64) with 18446744073709551616 in *. rewrite (u64_small (h + m + n)) by lia.
  destruct (Z.ltb_spec (zlen l) (h + m + n)) as [Ht|Ht]; [by apply returns_ret|].
  apply returns_bind. enough (exists b', zlen b' = zlen b /\ (forall k, sub_bytes (h + m + n) k b' = sub_bytes (h + m + n) k b) /\
    sub_bytes (h + m) n b' = (if m =? 0 then sub_bytes (h + m) n l else mask_octets (sub_bytes h 4 l) (sub_bytes (h + m) n l)) /\
    (forall Q, Q b' w -> returns (if negb (rd l 1 <? 128) then byte_at b (h + 3) else mret 0) w (fun _ w' => w' = w /\
      returns (if negb (rd l 1 <? 128) then unmask_payload b (if negb (rd l 1 <? 128) then sub_bytes h 4 b else [0; 0; 0; 0]) (h + m) n else mret b) w Q)))
    as (b' & Hz' & Ha & Hp & Hun).
  - eapply returns_mono; [apply (Hun (fun b2 w2 => b2 = b' /\ w2 = w)); done|]. intros _ w0 [-> Hu]. apply returns_bind.
    eapply returns_mono; [exact Hu|]. intros ? ? [-> ->]. apply returns_bind, returns_put_client. intros w1 C1 H1.
    destruct (handlers_eq _ _ H1) as (_ & Em & Ed & Eu). destruct (Z.eqb_spec (rd l 0 mod 16) 8) as [E8|E8].
    + apply returns_bind, (disconnect_change idx (with_buf c (Some b') (zlen l) (c_cap c))).
      { rewrite (proj1 C1). apply list_lookup_insert_eq. by eapply lookup_lt_Some. }
      { done. }
      intros w2 C2. apply returns_ret. split; [done|]. rewrite (proj1 C1), list_insert_insert_eq, Ed, Eu in C2. exact (change_trans0 _ _ _ _ _ _ C1 C2).
    + apply returns_bind. eapply returns_mono with (Q := fun _ w2 => change w w2 (<[idx := with_buf c (Some b') (zlen l) (c_cap c)]> (ws_clients (w_server w)))
        (delivered w (c_id c) (rd l 0 mod 16) (sub_bytes (h + m) n b'))).
      { destruct (Z.eqb_spec (rd l 0 mod 16) 9) as [E9|E9].
        - apply returns_bind, returns_send. intros r w2 C2 E2. apply returns_ret. rewrite (proj1 C1) in C2. unfold delivered. rewrite E9. exact (change_trans0 _ _ _ _ _ _ C1 C2).
        - destruct (Z.eqb_spec (rd l 0 mod 16) 1) as [E1|E1]; [|apply returns_ret; unfold delivered; rewrite (proj2 (Z.eqb_neq _ 1) E1); exact C1].
          apply (deliver_spec _ _ b'); [rewrite (proj1 C1), Hlen; apply list_lookup_insert_eq; by eapply lookup_lt_Some|lia|lia|lia|].
          intros w2 C2. rewrite (proj1 C1) in C2. pose proof (change_trans0 _ _ _ _ _ _ C1 C2) as C. unfold delivered in *. rewrite E1. cbn [Z.eqb Pos.eqb] in *. by rewrite Em, Eu in C. }
      intros _ w2 C2. apply returns_bind, (returns_client idx (with_buf c (Some b') (zlen l) (c_cap c))).
      { rewrite (proj1 C2). apply list_lookup_insert_eq. by eapply lookup_lt_Some. }
      apply returns_bind, (returns_buf_of _ b'); [done|]. cbn [with_buf c_len c_cap c_buf c_id c_fd c_handshaked]. rewrite u64_small by lia.
      apply returns_bind, (consumed c l b); [done..|lia|done|done|]. intros b2 Hh2. apply returns_bind, returns_put_client. intros w3 C3 H3. apply returns_ret.
      split; [done|]. exists b2. split; [done|]. rewrite (proj1 C2), list_insert_insert_eq in C3. rewrite <- Hp. exact (change_trans1 _ _ _ _ _ _ C2 C3).
  - assert (sub_bytes (h + m) n b = sub_bytes (h + m) n l) as Hpay by (rewrite <- Hl; by rewrite (sub_sub (h + m) n (zlen l)) by lia).
    destruct Hm as [[Hm ->]|[Hm ->]]; cbn [negb].
    + exists b. rewrite Hm in *. rewrite Hpay. do 3 (split; [done|]). intros Q HQ. apply returns_ret. split; [done|]. by apply returns_ret.
    + assert (sub_bytes h 4 b = sub_bytes h 4 l) as Hkey by (rewrite <- Hl; by rewrite (sub_sub h 4 (zlen l)) by lia).
      destruct (unmask_payload_spec b (sub_bytes h 4 b) (h + m) n w (fun b' w' => w' = w /\ zlen b' = zlen b /\
        sub_bytes (h + m) n b' = unmask (sub_bytes h 4 l) (sub_bytes (h + m) n l) /\ (forall k, sub_bytes (h + m + n) k b' = sub_bytes (h + m + n) k b)))
        as (b' & w' & E & -> & Hz' & Hp & Ha); [lia..|by intros b' ? ? ?; rewrite <- Hkey, <- Hpay|].
      exists b'. split; [done|]. split; [done|]. split; [by rewrite Hp, Hm, unmask_octets by (apply zlen_sub_bytes; lia)|]. intros Q HQ. apply returns_byte_at; [lia|]. split; [done|]. by exists b', w.
Qed.

(** ** All the frames there are *)

(** The frames up to a close frame, what is left, and whether the client is still there;
    [None] when a header announces too much. *)
Fixpoint read_frames (rounds : nat) (l : bytes) : option (list (Z * bytes) * bytes * bool) :=
  match rounds with
  | O => None
  | S rounds =>
      match next_frame l with
      | NeedMore => Some ([], l, true)
      | Wraps => None
      | Frame op p total =>
          if op =? 8 then Some ([], [], false)
          else match read_frames rounds (drop (Z.to_nat total) l) with
               | Some (fs, rest, still) => Some ((op, p) :: fs, rest, still)
               | None => None
               end
      end
  end.
Definition frames (l : bytes) := read_frames (S (length l)) l.

Definition messages (w : ws_world) (id : Z) (fs : list (Z * bytes)) : list action := concat (map (fun f => delivered w id f.1 f.2) fs).

Lemma handlers_delivered w w' id op p : handlers (w_server w') = handlers (w_server w) -> delivered w' id op p = delivered w id op p.
Proof. intros H%handlers_eq. destruct H as (_ & Em & _ & Eu). unfold delivered. by rewrite Em, Eu. Qed.
Lemma handlers_disconnected w w' id : handlers (w_server w') = handlers (w_server w) -> disconnected w' id = disconnected w id.
Proof. intros H%handlers_eq. destruct H as (_ & _ & Ed & Eu). unfold disconnected. by rewrite Ed, Eu. Qed.
Lemma handlers_messages w w' id fs : handlers (w_server w') = handlers (w_server w) -> messages w' id fs = messages w id fs.
Proof. intros H. unfold messages. f_equal. apply map_ext. intros f. by apply handlers_delivered. Qed.

(** The callbacks made for a client: messages, and at the end that it is gone. *)
Definition message_of (id : Z) (a : action) : Prop := exists cb ud msg, a = OnMessage cb ud id msg.
Definition gone_of (id : Z) (l : list action) : Prop := l = [] \/ exists cb ud, l = [OnDisconnect cb ud id].

Lemma delivered_of w id op p : Forall (message_of id) (delivered w id op p).
Proof. unfold delivered. destruct (op =? 1); [|constructor]. destruct (ws_on_message _) as [cb|]; [|constructor]. constructor; [by eexists _, _, _|constructor]. Qed.
Lemma disconnected_of w id : gone_of id (disconnected w id).
Proof. unfold disconnected, gone_of. destruct (ws_on_disconnect _); eauto. Qed.

(** A client after its frames: [still] there, holding [rest], or gone. *)
Definition after (w w' : ws_world) (idx : nat) (c : ws_client_t) (rest : bytes) (still : bool) (pre : list action) : Prop :=
  if still then exists b, holds (with_buf c (Some b) (zlen rest) (c_cap c)) rest /\ change w w' (<[idx := with_buf c (Some b) (zlen rest) (c_cap c)]> (ws_clients (w_server w))) pre
  else exists ds, change w w' (<[idx := no_client]> (ws_clients (w_server w))) (pre ++ ds) /\ gone_of (c_id c) ds /\ (sends_only -> ds = disconnected w (c_id c)).

Lemma holds_again c b l : holds (with_buf c b (c_len c) (c_cap c)) l <-> holds (mk_client (c_id c) (c_fd c) (c_handshaked c) b (c_len c) (c_cap c)) l.
Proof. done. Qed.

Lemma after_trans w w1 w2 idx c b n rest still pre1 pre2 : change w w1 (<[idx := with_buf c b n (c_cap c)]> (ws_clients (w_server w))) pre1 ->
  after w1 w2 idx (with_buf c b n (c_cap c)) rest still pre2 -> after w w2 idx c rest still (pre1 ++ pre2).
Proof.
  intros C1. unfold after. destruct still.
  - intros (b' & Hh & C2). exists b'. split; [done|]. rewrite (proj1 C1), list_insert_insert_eq in C2. exact (change_trans _ _ _ _ _ _ _ C1 C2).
  - intros (ds & C2 & Hg & Hs). exists ds. rewrite (proj1 C1), list_insert_insert_eq in C2. rewrite <- app_assoc. split; [exact (change_trans _ _ _ _ _ _ _ C1 C2)|].
    split; [done|]. intros Hso. rewrite Hs by done. apply handlers_disconnected. by apply C1.
Qed.

Lemma process_frames rounds idx c l w fs rest still : ws_clients (w_server w) !! idx = Some c -> c_handshaked c = true -> holds c l ->
  read_frames rounds l = Some (fs, rest, still) ->
  returns (process_client_rx send_answer window depth rounds idx) w (fun _ w' =>
    exists pre, after w w' idx c rest still pre /\ Forall (message_of (c_id c)) pre /\ (sends_only -> pre = messages w (c_id c) fs)).
Proof.
  revert c l w fs. induction rounds as [|rounds IH]; intros c l w fs Hc Hs Hh E; [done|]. cbn [process_client_rx read_frames] in *.
  apply returns_bind, (returns_client idx c); [done|]. rewrite (proj2 (Z.leb_le 0 (c_fd c)) (proj1 Hh)), Hs.
  assert (next_frame l <> Wraps) as Hw by (intros Ew; by rewrite Ew in E).
  apply returns_bind. eapply returns_mono; [by apply frame_round_spec|]. cbn beta. intros more w1 H1.
  pose proof Hh as (Hfd & Hlen & Hcap & Hok & b & Hb & Hz & Hl).
  destruct (next_frame l) as [| |op p total] eqn:En; [|done|].
  - destruct H1 as [-> ->]. injection E as <- <- <-. apply returns_ret. exists []. split; [|by split; [constructor|]].
    exists b. assert (with_buf c (Some b) (zlen l) (c_cap c) = c) as -> by (rewrite <- Hlen, <- Hb; by destruct c). split; [done|]. rewrite list_insert_id by done. apply change_refl.
  - destruct (next_frame_total _ _ _ _ En Hok) as [Ht1 Ht2]. destruct (op =? 8) eqn:E8.
    + destruct H1 as [-> C1]. injection E as <- <- <-. apply returns_ret. exists []. split; [|by split; [constructor|]].
      exists (disconnected w (c_id c)). split; [done|]. split; [apply disconnected_of|done].
    + destruct H1 as (-> & b2 & Hh2 & C1). destruct (read_frames rounds _) as [[[fs' rest'] still']|] eqn:E'; [|done]. injection E as <- <- <-.
      set (c1 := with_buf c (Some b2) (zlen l - total) (c_cap c)) in *.
      eapply returns_mono; [apply (IH c1 (drop (Z.to_nat total) l)); [|done|done|exact E']|].
      { rewrite (proj1 C1). apply list_lookup_insert_eq. by eapply lookup_lt_Some. }
      cbn beta. intros _ w2 (pre & Ha & Hm & Hp). exists (delivered w (c_id c) op p ++ pre). split; [exact (after_trans _ _ _ _ _ _ _ _ _ _ _ C1 Ha)|].
      split; [apply Forall_app; split; [apply delivered_of|done]|]. intros Hso. rewrite Hp by done. unfold messages at 2. cbn [map concat fst snd]. f_equal. apply handlers_messages. by apply C1.
Qed.

(** Enough rounds. *)
Lemma read_frames_rounds n m l : (length l < n)%nat -> (length l < m)%nat -> bytes_ok l -> read_frames n l = read_frames m l.
Proof.
  revert m l. induction n as [|n IH]; intros m l Hn Hm Hok; [lia|]. destruct m as [|m]; [lia|]. cbn [read_frames].
  destruct (next_frame l) as [| |op p total] eqn:En; [done..|]. destruct (next_frame_total _ _ _ _ En Hok). destruct (op =? 8); [done|].
  by rewrite (IH m) by (try (rewrite length_drop; unfold zlen in *; lia); by apply Forall_drop).
Qed.

Lemma read_frames_rest n l fs rest still : read_frames n l = Some (fs, rest, still) -> exists k, rest = drop k l.
Proof.
  revert l fs. induction n as [|n IH]; intros l fs E; [done|]. cbn [read_frames] in E. destruct (next_frame l) as [| |op p total]; [|done|].
  - injection E as <- <- <-. by exists 0%nat.
  - destruct (op =? 8); [injection E as <- <- <-; exists (length l); by rewrite drop_all|].
    destruct (read_frames n _) as [[[fs1 rest1] still1]|] eqn:E1; [|done]. injection E as <- <- <-. destruct (IH _ _ E1) as [k ->]. rewrite drop_drop. by eexists.
Qed.

Lemma frames_rounds n l : frames l <> None -> bytes_ok l -> (length l < n)%nat -> exists fs k still, read_frames n l = Some (fs, drop k l, still).
Proof.
  intros Hf Hok Hn. unfold frames in Hf. rewrite (read_frames_rounds _ n) in Hf by (done || lia). destruct (read_frames n l) as [[[fs rest] still]|] eqn:E; [|done].
  destruct (read_frames_rest _ _ _ _ _ E) as [k ->]. by exists fs, k, still.
Qed.

(** ** The handshake *)

(** The request of [l]: not all there, refused, or its key and its length. *)
Inductive request := ReqMore | ReqRefused | ReqKey (key : bytes) (len : Z).
Definition handshake (l : bytes) : request :=
  let str := c_string l in
  match find_text crlf2 str with
  | None => ReqMore
  | Some e =>
      match find_text key_header str with
      | None => ReqRefused
      | Some k =>
          let key := until_any [13; 10] (skip_any [32; 9] (drop (k + 18) str)) in
          if 128 <=? zlen key then ReqRefused else ReqKey key (Z.of_nat e + 4)
      end
  end.

(** None of the frames that begin in [l], after the request if the client has not shaken
    hands, has a header that announces more than there can be; nor if only the first
    [j] bytes are there yet. *)
Definition no_wrap (handshaked : bool) (l : bytes) : Prop :=
  if handshaked then frames l <> None
  else match handshake l with ReqKey _ len => frames (drop (Z.to_nat len) l) <> None | _ => True end.
Definition never_wraps (handshaked : bool) (l : bytes) : Prop := forall j, no_wrap handshaked (take j l).

Lemma c_string_stop l rest : c_string (l ++ 0 :: rest) = c_string l.
Proof. induction l as [|b l IH]; [done|]. cbn [app c_string]. destruct (b =? 0); [done|]. by rewrite IH. Qed.
Lemma c_string_length l : (length (c_string l) <= length l)%nat.
Proof. induction l as [|b l IH]; [done|]. cbn [c_string length]. destruct (b =? 0); cbn; lia. Qed.
Lemma begins_length p l : begins p l = true -> (length p <= length l)%nat.
Proof. revert l. induction p as [|a p IH]; intros [|b l]; cbn; try done; try lia. intros [_ H]%andb_true_iff. apply IH in H. lia. Qed.
Lemma find_text_length p l e : find_text p l = Some e -> (e + length p <= length l)%nat.
Proof.
  revert e. induction l as [|b l IH]; intros e; cbn [find_text].
  - destruct (begins p []) eqn:E; [|done]. intros [= <-]. by apply begins_length in E.
  - destruct (begins p (b :: l)) eqn:E; [intros [= <-]; by apply begins_length in E|]. destruct (find_text p l) as [e'|] eqn:E'; [|done].
    intros [= <-]. specialize (IH e' eq_refl). cbn. lia.
Qed.

Lemma handshake_length l key len : handshake l = ReqKey key len -> 4 <= len <= zlen l.
Proof.
  unfold handshake. destruct (find_text crlf2 (c_string l)) as [e|] eqn:E; [|done]. destruct (find_text key_header _); [|done]. destruct (128 <=? _); [done|].
  intros [= _ <-]. apply find_text_length in E. pose proof (c_string_length l). cbn in E. unfold zlen. lia.
Qed.

(** What a [send] puts out. *)
Definition sent (w : ws_world) (fd : Z) (data : bytes) : list action :=
  let r := send_answer (w_sends w) (zlen data) in if r <? 0 then [] else [Sends fd (take (Z.to_nat r) data)].
Definition connected (w : ws_world) (id : Z) : list action :=
  match ws_on_connect (w_server w) with Some cb => [OnConnect cb (ws_user_data (w_server w)) id] | None => [] end.

Definition handshaken (c : ws_client_t) : ws_client_t := mk_client (c_id c) (c_fd c) true (c_buf c) (c_len c) (c_cap c).

Lemma handshake_round_spec idx c l w : ws_clients (w_server w) !! idx = Some c -> holds c l -> 4096 <= c_cap c ->
  returns (handshake_round send_answer window depth idx c) w (fun more w' =>
    match handshake l with
    | ReqMore => more = false /\ after w w' idx c l (zlen l <? c_cap c - 1) []
    | ReqRefused => more = false /\ after w w' idx c l false []
    | ReqKey key len =>
        more = true /\ exists b, holds (handshaken (with_buf c (Some b) (zlen l - len) (c_cap c))) (drop (Z.to_nat len) l) /\
          change w w' (<[idx := handshaken (with_buf c (Some b) (zlen l - len) (c_cap c))]> (ws_clients (w_server w))) (connected w (c_id c)) /\
          exists tr, w_actions w' = w_actions w ++ sent w (c_fd c) (response (accept_of key)) ++ tr
    end).
Proof.
  intros Hc Hh Hcap0. pose proof Hh as (Hfd & Hlen & Hcap & Hok & b & Hb & Hz & Hl). unfold handshake_round. pose proof (zlen_nonneg l).
  apply returns_bind, (returns_buf_of _ b); [done|]. rewrite Hlen. apply returns_bind, returns_store; [lia|]. set (b0 := <[_ := 0]> b).
  assert (sub_bytes 0 (zlen l) b0 = l) as Hl0.
  { rewrite <- Hl at 2. unfold sub_bytes. apply list_eq. intros i. destruct (decide (i < Z.to_nat (zlen l))%nat); [|by rewrite !lookup_take_ge by lia].
    rewrite !lookup_take_lt, !lookup_drop by lia. unfold b0. apply list_lookup_insert_ne. change (Z.to_nat 0) with 0%nat. lia. }
  assert (zlen b0 = zlen b) as Hz0 by (unfold zlen, b0; by rewrite length_insert).
  assert (c_string b0 = c_string l) as ->.
  { assert (b0 !! length l = Some 0) as H0 by (subst b0; unfold zlen at 1; rewrite Nat2Z.id; apply list_lookup_insert_eq; unfold zlen in *; lia).
    rewrite <- (take_drop_middle b0 (length l) 0 H0). rewrite c_string_stop. f_equal. rewrite <- Hl0 at 2. unfold sub_bytes, zlen. rewrite Nat2Z.id. done. }
  assert (holds (with_buf c (Some b0) (zlen l) (c_cap c)) l) as Hh0 by (split; [done|]; do 3 (split; [done|]); exists b0; split; [done|]; split; [by rewrite Hz0|done]).
  apply returns_bind. eexists tt, _. split; [reflexivity|]. set (w1 := mk_ws _ _ _ _).
  assert (change w w1 (<[idx := with_buf c (Some b0) (zlen l) (c_cap c)]> (ws_clients (w_server w))) []) as C1.
  { split; [done|]. split; [done|]. split; [|done]. exists []. by rewrite app_nil_r. }
  assert (handlers (w_server w1) = handlers (w_server w)) as H1 by done. pose proof (handlers_disconnected _ _ (c_id c) H1) as Ed.
  assert (w_sends w1 = w_sends w /\ w_actions w1 = w_actions w) as [Hn1 Ha1] by done. clearbody w1.
  assert (ws_clients (w_server w1) !! idx = Some (with_buf c (Some b0) (zlen l) (c_cap c))) as Hc1 by (rewrite (proj1 C1); apply list_lookup_insert_eq; by eapply lookup_lt_Some).
  assert (forall (Q : unit -> ws_world -> Prop), (forall w', after w w' idx c l false [] -> Q tt w') -> returns (disconnect_client_unlocked send_answer window depth idx) w1 Q) as Hdisc.
  { intros Q HQ. apply (disconnect_change _ (with_buf c (Some b0) (zlen l) (c_cap c))); [done..|]. intros w2 C2. apply HQ. cbn [with_buf c_id] in C2. fold (disconnected w1 (c_id c)) in C2.
    rewrite (proj1 C1), list_insert_insert_eq, Ed in C2. exists (disconnected w (c_id c)). split; [exact (change_trans0 _ _ _ _ _ _ C1 C2)|]. split; [apply disconnected_of|done]. }
  unfold handshake. destruct (find_text crlf2 (c_string l)) as [e|] eqn:Ee.
  2:{ apply returns_bind. rewrite u64_small by lia. destruct (Z.leb_spec (c_cap c - 1) (zlen l)); destruct (Z.ltb_spec (zlen l) (c_cap c - 1)); try lia.
      - apply Hdisc. intros w2 Hw2. by apply returns_ret.
      - apply returns_ret, returns_ret. split; [done|]. exists b0. by split. }
  destruct (find_text key_header (c_string l)) as [k|]; [|apply returns_bind, Hdisc; intros w2 Hw2; by apply returns_ret].
  set (key := until_any _ _). destruct (Z.leb_spec 128 (zlen key)); [apply returns_bind, Hdisc; intros w2 Hw2; by apply returns_ret|].
  apply find_text_length in Ee. pose proof (c_string_length l). change (length crlf2) with 4%nat in Ee.
  set (len := Z.of_nat e + 4) in *. assert (4 <= len <= zlen l) as Hlen' by (unfold zlen, len; lia). clearbody len.
  apply returns_bind. set (resp := response (accept_of key)). set (r := send_answer (w_sends w) (zlen resp)).
  exists r, (mk_ws (w_server w1) (w_actions w1 ++ sent w (c_fd c) resp) (S (w_sends w1)) (w_windows w1)). set (w2 := mk_ws _ _ _ _). split.
  { unfold send, w2, sent. rewrite Hn1. fold r. destruct (r <? 0); [by rewrite app_nil_r|done]. }
  assert (change w w2 (<[idx := with_buf c (Some b0) (zlen l) (c_cap c)]> (ws_clients (w_server w))) []) as C2.
  { rewrite <- (proj1 C1). apply (change_trans0 _ _ _ _ _ _ C1). split; [done|]. split; [done|]. split; [|done].
    exists (sent w (c_fd c) resp). split; [done|]. unfold sent. by destruct (_ <? 0). }
  assert (w_actions w2 = w_actions w ++ sent w (c_fd c) resp) as Ha2 by (cbn; by rewrite Ha1).
  assert (handlers (w_server w2) = handlers (w_server w)) as Eh2 by (cbn; done). clearbody w2.
  rewrite u64_small by (unfold zlen in *; change (2 ^ 62) with 4611686018427387904 in Hcap; lia).
  apply returns_bind, (consumed c l b0 b0); [done|congruence|done|lia|done|done|]. intros b2 Hh2.
  apply returns_bind, returns_put_client. intros w3 C3 H3. apply returns_bind, returns_server.
  destruct (handlers_eq _ _ (eq_trans H3 Eh2)) as (-> & _ & _ & ->). rewrite (proj1 C2), list_insert_insert_eq in C3.
  pose proof (change_trans0 _ _ _ _ _ _ C2 C3) as C. destruct C3 as (_ & _ & (t3 & Ha3 & _) & _).
  assert (forall w4, change w3 w4 (ws_clients (w_server w3)) (connected w (c_id c)) ->
    change w w4 (<[idx := handshaken (with_buf c (Some b2) (zlen l - len) (c_cap c))]> (ws_clients (w_server w))) (connected w (c_id c)) /\
    exists tr, w_actions w4 = w_actions w ++ sent w (c_fd c) resp ++ tr) as Hend.
  { intros w4 C4. split; [rewrite (proj1 C) in C4; exact (change_trans0 _ _ _ _ _ _ C C4)|].
    destruct C4 as (_ & _ & (t4 & Ha4 & _) & _). exists (t3 ++ t4). by rewrite Ha4, Ha3, Ha2, <- !app_assoc. }
  apply returns_bind. eapply returns_mono with (Q := fun _ w4 => change w3 w4 (ws_clients (w_server w3)) (connected w (c_id c))).
  { unfold connected. destruct (ws_on_connect (w_server w)) as [cb|]; [|apply returns_ret, change_refl].
    apply returns_bind, returns_act. intros w4 C4 E4. apply unlocked_quiet. intros w5 C5. rewrite E4 in C5. exact (change_trans1 _ _ _ _ _ _ C4 C5). }
  intros _ w4 C4. apply returns_ret. split; [done|]. exists b2. destruct (Hend w4 C4) as [C5 Ht]. split; [exact Hh2|]. by split.
Qed.

(** ** What becomes of a client when bytes arrive *)

(** [c'] is what the slot of [c] holds then, [tr] the callbacks made. *)
Definition served (c c' : ws_client_t) (l : bytes) (tr : list action) : Prop :=
  (c' = no_client \/ (c_id c' = c_id c /\ c_fd c' = c_fd c /\ c_cap c' = c_cap c /\ (c_handshaked c = true -> c_handshaked c' = true) /\ exists k, holds c' (drop k l))) /\
  exists cn ms ds, tr = cn ++ ms ++ ds /\ (cn = [] \/ exists cb ud, cn = [OnConnect cb ud (c_id c)]) /\ Forall (message_of (c_id c)) ms /\ gone_of (c_id c) ds /\
    (c_handshaked c = true -> cn = []) /\ (0 <= c_fd c' -> ds = [] /\ (c_handshaked c' = false -> cn = [] /\ ms = [])).

Lemma served_gone c l tr : gone_of (c_id c) tr -> served c no_client l tr.
Proof. intros H. split; [by left|]. exists [], [], tr. split; [done|]. split; [by left|]. split; [constructor|]. split; [done|]. split; [done|]. intros Hf. cbn in Hf. lia. Qed.

Lemma served_frames w w' idx c l rest still pre : c_handshaked c = true -> (still = true -> exists k, rest = drop k l) -> after w w' idx c rest still pre -> Forall (message_of (c_id c)) pre ->
  exists c' tr, change w w' (<[idx := c']> (ws_clients (w_server w))) tr /\ served c c' l tr.
Proof.
  intros Hs Hr Ha Hm. destruct still.
  - destruct (Hr eq_refl) as [k ->]. destruct Ha as (b & Hh & C). eexists _, pre. split; [exact C|]. split; [right; do 4 (split; [done|]); by exists k|].
    exists [], pre, []. rewrite app_nil_r. split; [done|]. split; [by left|]. split; [done|]. split; [by left|]. split; [done|]. intros _. split; [done|]. cbn. congruence.
  - destruct Ha as (ds & C & Hg & _). exists no_client, (pre ++ ds). split; [done|]. split; [by left|]. exists [], pre, ds.
    split; [done|]. split; [by left|]. split; [done|]. split; [done|]. split; [done|]. intros Hf. cbn in Hf. lia.
Qed.

Lemma process_served rounds idx c l w : ws_clients (w_server w) !! idx = Some c -> holds c l -> no_wrap (c_handshaked c) l -> 4096 <= c_cap c -> (length l < rounds)%nat ->
  returns (process_client_rx send_answer window depth rounds idx) w (fun _ w' =>
    exists c' tr, change w w' (<[idx := c']> (ws_clients (w_server w))) tr /\ served c c' l tr).
Proof.
  intros Hc Hh Hw Hcap Hr. pose proof Hh as (Hfd & Hlen & _ & Hok & _). destruct (c_handshaked c) eqn:Hs.
  - destruct (frames_rounds rounds l Hw Hok Hr) as (fs & k & still & E).
    eapply returns_mono; [eapply process_frames; [exact Hc|exact Hs|exact Hh|exact E]|]. cbn beta. intros _ w' (pre & Ha & Hm & _). eapply served_frames; [done| |exact Ha|done]. intros _. by exists k.
  - destruct rounds as [|rounds]; [lia|]. cbn [process_client_rx]. apply returns_bind, (returns_client idx c); [done|].
    rewrite (proj2 (Z.leb_le 0 (c_fd c)) Hfd), Hs. apply returns_bind. eapply returns_mono; [by apply handshake_round_spec|]. cbn beta. intros more w1 H1.
    unfold no_wrap in Hw. destruct (handshake l) as [| |key len] eqn:Eh.
    + destruct H1 as [-> Ha]. apply returns_ret. destruct (zlen l <? c_cap c - 1).
      * destruct Ha as (b & Hh' & C). eexists _, []. split; [exact C|]. split; [right; do 3 (split; [done|]); split; [done|]; exists 0%nat; by rewrite drop_0|].
        exists [], [], []. split; [done|]. split; [by left|]. split; [constructor|]. split; [by left|]. done.
      * destruct Ha as (ds & C & Hg & _). exists no_client, ds. split; [done|]. by apply served_gone.
    + destruct H1 as [-> Ha]. apply returns_ret. destruct Ha as (ds & C & Hg & _). exists no_client, ds. split; [done|]. by apply served_gone.
    + destruct (handshake_length _ _ _ Eh) as [Hl1 Hl2]. destruct H1 as (-> & b & Hh' & C1 & _). set (c1 := handshaken _) in *. set (l1 := drop (Z.to_nat len) l) in *.
      assert (length l1 < rounds)%nat as Hr1 by (subst l1; rewrite length_drop; unfold zlen in *; lia).
      assert (bytes_ok l1) as Hok1 by (by apply Forall_drop).
      destruct (frames_rounds rounds l1 Hw Hok1 Hr1) as (fs & k & still & E).
      eapply returns_mono; [eapply (process_frames rounds idx c1 l1 w1); [|done|exact Hh'|exact E]|].
      { rewrite (proj1 C1). apply list_lookup_insert_eq. by eapply lookup_lt_Some. }
      cbn beta. intros _ w2 (pre & Ha & Hm & _). destruct (served_frames w1 w2 idx c1 l1 (drop k l1) still pre) as (c' & tr & C2 & Hsv & Htr); [done|by exists k|done|done|].
      rewrite (proj1 C1), list_insert_insert_eq in C2. exists c', (connected w (c_id c) ++ tr). split; [exact (change_trans _ _ _ _ _ _ _ C1 C2)|].
      destruct Hsv as [->|(Hi & Hf & Hcp & Hk & j & Hj)].
      * split; [by left|]. destruct Htr as (cn & ms & ds & -> & _ & Hms & Hg & Hcn & _). rewrite (Hcn eq_refl). exists (connected w (c_id c)), ms, ds.
        split; [done|]. split; [unfold connected; destruct (ws_on_connect _); eauto|]. split; [done|]. split; [done|]. split; [congruence|]. intros Hf. cbn in Hf. lia.
      * split; [right; split; [done|]; split; [done|]; split; [done|]; split; [by rewrite Hk|]; exists (Z.to_nat len + j)%nat; by rewrite <- drop_drop|].
        destruct Htr as (cn & ms & ds & -> & _ & Hms & Hg & Hcn & Hop). rewrite (Hcn eq_refl) in *. exists (connected w (c_id c)), ms, ds.
        split; [done|]. split; [unfold connected; destruct (ws_on_connect _); eauto|]. split; [done|]. split; [done|]. split; [congruence|].
        intros Hf'. split; [by apply Hop|]. rewrite Hk by done. done.
Qed.

(** ** More bytes *)

Lemma sub_app off n l k : 0 <= off -> 0 <= n -> off + n <= zlen l -> sub_bytes off n (l ++ k) = sub_bytes off n l.
Proof.
  intros Ho Hn Hl. unfold sub_bytes, zlen in *. rewrite drop_app_le by lia. rewrite take_app_le; [done|]. rewrite length_drop. lia.
Qed.

Lemma frame_length_app l k r : frame_length l = Some r -> frame_length (l ++ k) = Some r.
Proof.
  unfold frame_length. rewrite zlen_app. pose proof (zlen_nonneg k). destruct (Z.ltb_spec (zlen l) 2); [done|]. destruct (Z.ltb_spec (zlen l + zlen k) 2); [lia|].
  rewrite rd_app_l by lia. destruct (rd l 1 mod 128 =? 126).
  - destruct (Z.ltb_spec (zlen l) 4); [done|]. destruct (Z.ltb_spec (zlen l + zlen k) 4); [lia|]. by rewrite sub_app by lia.
  - destruct (rd l 1 mod 128 =? 127); [|done]. destruct (Z.ltb_spec (zlen l) 10); [done|]. destruct (Z.ltb_spec (zlen l + zlen k) 10); [lia|]. by rewrite sub_app by lia.
Qed.

Lemma next_frame_app l k : bytes_ok l -> next_frame l <> NeedMore -> next_frame (l ++ k) = next_frame l.
Proof.
  intros Hok Hn. unfold next_frame in *. destruct (frame_length l) as [[n h]|] eqn:E; [|done]. rewrite (frame_length_app _ k _ E).
  destruct (frame_length_range _ _ _ E Hok) as (Hn' & Hh & Hhl). pose proof (zlen_nonneg k). rewrite zlen_app, rd_app_l, (rd_app_l l k 0) by lia.
  set (m := if rd l 1 <? 128 then 0 else 4) in *. assert (0 <= m <= 4) by (subst m; destruct (_ <? _); lia).
  destruct (2 ^ 64 <=? h + m + n); [done|]. destruct (Z.ltb_spec (zlen l) (h + m + n)); [done|]. destruct (Z.ltb_spec (zlen l + zlen k) (h + m + n)); [lia|].
  rewrite (sub_app (h + m)) by lia. destruct (Z.eqb_spec m 0); [done|]. rewrite sub_app; [done|lia|lia|]. assert (m = 4) by (subst m; destruct (_ <? _); lia). lia.
Qed.

(** The frames of a stream do not depend on where it is cut. *)
Lemma frames_app l k fs rest still : bytes_ok (l ++ k) -> frames l = Some (fs, rest, still) ->
  frames (l ++ k) =
    if still then match frames (rest ++ k) with Some (fs', rest', still') => Some (fs ++ fs', rest', still') | None => None end
    else Some (fs, [], false).
Proof.
  intros Hok. enough (forall n m l fs rest still, bytes_ok (l ++ k) -> (length l < n)%nat -> (length (l ++ k) < m)%nat -> read_frames n l = Some (fs, rest, still) ->
    read_frames m (l ++ k) = if still then match frames (rest ++ k) with Some (fs', rest', still') => Some (fs ++ fs', rest', still') | None => None end
                             else Some (fs, [], false)) as H by (apply H; [done|lia|lia]).
  clear l fs rest still Hok. induction n as [|n IH]; intros m l fs rest still Hok Hn Hm E; [lia|]. cbn [read_frames] in E. pose proof Hok as [Hokl Hokk]%bytes_ok_app.
  destruct (next_frame l) as [| |op p total] eqn:En; [|done|].
  - injection E as <- <- <-. unfold frames. rewrite (read_frames_rounds m (S (length (l ++ k)))) by (done || lia). by destruct (read_frames _ (l ++ k)) as [[[? ?] ?]|].
  - destruct m as [|m]; [lia|]. destruct (next_frame_total _ _ _ _ En Hokl) as [Ht1 Ht2]. cbn [read_frames]. rewrite next_frame_app, En by (done || by rewrite En).
    destruct (op =? 8) eqn:E8; [by injection E as <- <- <-|].
    destruct (read_frames n _) as [[[fs1 rest1] still1]|] eqn:E1; [|done]. injection E as <- <- <-. rewrite length_app in Hm.
    rewrite drop_app_le by (unfold zlen in *; lia). rewrite (IH m _ fs1 rest1 still1); [|apply bytes_ok_app; split; [by apply Forall_drop|done]|rewrite length_drop; unfold zlen in *; lia| |exact E1].
    + destruct still1; [|done]. by destruct (frames (rest1 ++ k)) as [[[? ?] ?]|].
    + rewrite length_app, length_drop. unfold zlen in *. lia.
Qed.

(** ** A client that is ready *)

Definition contents (c : ws_client_t) : bytes := sub_bytes 0 (c_len c) (default [] (c_buf c)).

Lemma holds_contents c l : holds c l -> contents c = l.
Proof. intros (_ & Hl & _ & _ & b & Hb & _ & H). unfold contents. by rewrite Hb, Hl. Qed.

(** A client in use: what it holds, or, fresh from [accept], that there is no buffer. *)
Definition in_use (c : ws_client_t) : Prop :=
  0 <= c_fd c /\ 4096 <= c_cap c /\
  (holds c (contents c) \/ (c_buf c = None /\ c_len c = 0 /\ c_cap c = 4096 /\ c_handshaked c = false)).

Lemma grown_spec need : 4096 <= need <= 2 ^ 62 + 4096 -> need <= grown need < 2 * need /\ (grown need + 1 <= PTRDIFF_MAX -> grown need <= 2 ^ 62).
Proof.
  intros Hn. change (2 ^ 62) with 4611686018427387904 in *. unfold grown. rewrite (u64_small (need - 1)) by lia. rewrite smear64 by lia.
  set (k := Z.log2 (need - 1) + 1). pose proof (round_up_pow2 need ltac:(lia)) as Hr. fold k in Hr. replace (2 ^ k - 1 + 1) with (2 ^ k) by lia. rewrite u64_small by lia.
  unfold INITIAL_RX_CAP, PTRDIFF_MAX. destruct (Z.ltb_spec (2 ^ k) 4096); [lia|]. split; [lia|]. intros Hp.
  destruct (Z.le_gt_cases k 62) as [Hk|Hk]; [apply (Z.pow_le_mono_r 2 k 62) in Hk; [|lia]; change (2 ^ 62) with 4611686018427387904 in Hk; lia|].
  assert (2 ^ 63 <= 2 ^ k) as H63 by (apply Z.pow_le_mono_r; lia). change (2 ^ 63) with 9223372036854775808 in H63. lia.
Qed.

Lemma ws_grow_spec c ok c' : in_use c -> ws_grow garbage c ok = Some c' ->
  c_id c' = c_id c /\ c_fd c' = c_fd c /\ c_handshaked c' = c_handshaked c /\ contents c' = contents c /\ holds c' (contents c) /\ c_len c + 4096 <= c_cap c'.
Proof.
  intros (Hfd & Hcap & Hh). unfold ws_grow. destruct (Z.leb_spec (c_cap c) (c_len c + 4096)) as [Hg|Hg].
  - destruct (ok && (grown (c_len c + 4096) + 1 <=? PTRDIFF_MAX)) eqn:E; [|done]. apply andb_true_iff in E as [_ E%Z.leb_le]. intros [= <-].
    set (old := default [] (c_buf c)). set (P := grown (c_len c + 4096)) in *.
    assert (0 <= c_len c <= c_cap c /\ c_cap c <= 2 ^ 62 /\ zlen old <= c_cap c + 1 /\ c_len c <= zlen old /\ bytes_ok (sub_bytes 0 (c_len c) old)) as (Hl1 & Hl2 & Hz & Hz2 & Hok).
    { destruct Hh as [(_ & Hl & Hc & Hok & b & Hb & Hzb & Hs)|(Hb & Hl & Hc & _)]; subst old; rewrite Hb in *; cbn [from_option id].
      - pose proof (zlen_nonneg (contents c)). rewrite Hl, Hs. split; [lia|]. split; [lia|]. split; [lia|]. split; [lia|done].
      - rewrite Hl, Hc. rewrite @zlen_nil. split; [lia|]. split; [done|]. split; [lia|]. split; [lia|]. constructor. }
    destruct (grown_spec (c_len c + 4096) ltac:(lia)) as [HP1 HP2]. fold P in HP1, HP2. specialize (HP2 E).
    set (nb := take _ old ++ _). assert (zlen nb = P + 1) as Hnb.
    { subst nb. unfold zlen. rewrite length_app, length_take, length_map, length_seq. unfold zlen in *. lia. }
    assert (sub_bytes 0 (c_len c) nb = sub_bytes 0 (c_len c) old) as Hsub.
    { subst nb. rewrite (take_ge old) by (unfold zlen in *; lia). by apply sub_app; lia. }
    assert (zlen (contents c) = c_len c) as Hzc by (unfold contents; fold old; apply zlen_sub_bytes; lia).
    do 3 (split; [done|]). split; [unfold contents; cbn [with_buf c_buf c_len default]; done|]. split; [|cbn [with_buf c_cap]; lia].
    split; [done|]. cbn [with_buf c_len c_cap c_buf]. rewrite Hzc. split; [done|]. split; [lia|]. split; [done|]. exists nb. split; [done|]. split; [lia|]. done.
  - intros [= <-]. do 4 (split; [done|]). split; [|lia]. destruct Hh as [Hh|(_ & Hl & Hc & _)]; [done|lia].
Qed.

Definition bytes_of (r : received) : bytes := match r with Received data => data | _ => [] end.

(** Bytes arrive: they follow what was there, and the loop runs. *)
Lemma client_ready_received slot ok data c c1 w Q : ws_clients (w_server w) !! slot = Some c -> in_use c -> ws_grow garbage c ok = Some c1 -> bytes_ok data -> data <> [] ->
  (forall w2 c2 k, c_id c2 = c_id c -> c_fd c2 = c_fd c -> c_handshaked c2 = c_handshaked c -> 4096 <= c_cap c2 ->
     k = Z.to_nat (c_cap c1 - c_len c1) -> holds c2 (contents c ++ take k data) -> change w w2 (<[slot := c2]> (ws_clients (w_server w))) [] ->
     returns (process_client_rx send_answer window depth (S (length (contents c ++ take k data))) slot) w2 Q) ->
  returns (client_ready send_answer window garbage depth slot (mk_event false true ok (Received data))) w Q.
Proof.
  intros Hc Hu Eg Hok Hne HQ. pose proof Hu as (Hfd & Hcap & Hh). unfold client_ready. apply returns_bind, (returns_client slot c); [done|].
  destruct (Z.ltb_spec (c_fd c) 0); [lia|]. cbn [ev_hup ev_in ev_realloc ev_recv]. rewrite Eg.
  destruct (ws_grow_spec _ _ _ Hu Eg) as (Hi & Hf & Hs & Hct & Hh1 & Hroom). apply returns_bind, returns_put_client. intros w1 C1 H1.
  pose proof Hh1 as (Hfd1 & Hlen1 & Hcap1 & Hok1 & b & Hb & Hz & Hl). pose proof (zlen_nonneg (contents c)) as Hz0.
  assert (c_len c = zlen (contents c)) as Hlc.
  { destruct Hh as [Hhc|(Hbn & Hln & _)]; [by apply Hhc|]. unfold contents. by rewrite Hbn, Hln. }
  assert (4096 <= c_cap c1) as Hcap1' by lia. set (k := Z.to_nat (c_cap c1 - c_len c1)).
  assert (sub_bytes 0 (c_cap c1 - c_len c1) data = take k data) as -> by (unfold sub_bytes; change (Z.to_nat 0) with 0%nat; by rewrite drop_0).
  assert (0 < zlen (take k data)) as Hd0 by (unfold zlen; rewrite length_take; destruct data; [done|cbn [length]; lia]).
  assert (zlen (take k data) <= c_cap c1 - c_len c1) as Hdt by (unfold zlen; rewrite length_take; lia).
  specialize (HQ) with (k := k). assert (bytes_ok (take k data)) as Hokd by (by apply Forall_take). assert (k = Z.to_nat (c_cap c1 - c_len c1)) as Hk by done. rewrite Hlen1 in Hk. clearbody k.
  set (dt := take k data) in *. destruct (Z.eqb_spec (zlen dt) 0); [lia|].
  apply returns_bind, (returns_buf_of _ b); [done|]. rewrite Hlen1 in *. unfold receive.
  rewrite (proj2 (Z.leb_le 0 (zlen (contents c)))), (proj2 (Z.leb_le (_ + zlen dt) (zlen b))) by lia. apply returns_bind, returns_ret.
  set (b1 := sub_bytes 0 _ b ++ dt ++ _). assert (zlen b1 = zlen b) as Hzb1 by (apply splice_len; lia).
  set (l := contents c ++ dt) in *. assert (zlen l = zlen (contents c) + zlen dt) as Hzl by apply zlen_app.
  assert (sub_bytes 0 (zlen l) b1 = l) as Hsl.
  { rewrite Hzl, sub_bytes_split by lia. subst l. f_equal; [|apply splice_here; lia]. subst b1. rewrite Hl, sub_app by lia. by apply sub_bytes_all. }
  assert (bytes_ok l) as Hokl by (by apply bytes_ok_app).
  set (c2 := with_buf c1 (Some b1) (zlen (contents c) + zlen dt) (c_cap c1)).
  assert (holds c2 l) as Hh2.
  { split; [done|]. cbn [c2 with_buf c_len c_cap c_buf]. split; [by rewrite Hzl|]. split; [lia|]. split; [done|]. exists b1. split; [done|]. split; [lia|done]. }
  apply returns_bind, returns_put_client. intros w2 C2 H2. rewrite (proj1 C1), list_insert_insert_eq in C2. pose proof (change_trans0 _ _ _ _ _ _ C1 C2) as C.
  replace (S (Z.to_nat (zlen (contents c) + zlen dt))) with (S (length l)) by (unfold zlen in *; lia). by apply (HQ w2 c2).
Qed.

Lemma client_ready_served slot ev c w : ws_clients (w_server w) !! slot = Some c -> in_use c -> bytes_ok (bytes_of (ev_recv ev)) -> never_wraps (c_handshaked c) (contents c ++ bytes_of (ev_recv ev)) ->
  returns (client_ready send_answer window garbage depth slot ev) w (fun _ w' =>
    exists c' tr l, change w w' (<[slot := c']> (ws_clients (w_server w))) tr /\ (c' = c /\ tr = [] \/
      exists c1, c_id c1 = c_id c /\ c_fd c1 = c_fd c /\ c_handshaked c1 = c_handshaked c /\ 4096 <= c_cap c1 /\ bytes_ok l /\ served c1 c' l tr)).
Proof.
  intros Hc Hu Hok Hw. pose proof Hu as (Hfd & Hcap & Hh). set (R := fun _ _ => _).
  assert (forall w1 c1, change w w1 (<[slot := c1]> (ws_clients (w_server w))) [] -> c_id c1 = c_id c -> c_fd c1 = c_fd c -> c_handshaked c1 = c_handshaked c -> 4096 <= c_cap c1 ->
    returns (disconnect_client_unlocked send_answer window depth slot) w1 R) as Hdisc.
  { intros w1 c1 C1 Hi Hf Hs Hc1. apply (disconnect_change slot c1); [rewrite (proj1 C1); apply list_lookup_insert_eq; by eapply lookup_lt_Some|lia|]. intros w2 C2.
    rewrite (proj1 C1), list_insert_insert_eq in C2. fold (disconnected w1 (c_id c1)) in C2. exists no_client, (disconnected w1 (c_id c1)), []. split; [exact (change_trans0 _ _ _ _ _ _ C1 C2)|].
    right. exists c1. do 4 (split; [done|]). split; [constructor|]. apply served_gone, disconnected_of. }
  assert (change w w (<[slot := c]> (ws_clients (w_server w))) []) as C0 by (rewrite list_insert_id by done; apply change_refl).
  destruct (ev_hup ev) eqn:Ehup; [|destruct (ev_in ev) eqn:Ein; [destruct (ws_grow garbage c (ev_realloc ev)) as [c1|] eqn:Eg|]].
  1, 3, 4: unfold client_ready; apply returns_bind, (returns_client slot c); [done|]; destruct (Z.ltb_spec (c_fd c) 0); [lia|]; rewrite Ehup, ?Ein, ?Eg.
  { by apply (Hdisc w c). }
  { by apply (Hdisc w c). }
  { apply returns_ret. exists c, [], []. split; [done|by left]. }
  destruct (ws_grow_spec _ _ _ Hu Eg) as (Hi & Hf & Hs & Hct & Hh1 & Hroom).
  assert ((exists data, ev_recv ev = Received data /\ data <> []) \/ bytes_of (ev_recv ev) = []) as [(data & Er & Hne)|Hno]
    by (destruct (ev_recv ev) as [[|x data]| | |]; [by right|left; by eexists|by right..]).
  - destruct ev as [hup inn ok recv]. cbn [ev_hup ev_in ev_realloc ev_recv] in *. subst hup inn recv. cbn [bytes_of] in *.
    apply (client_ready_received slot ok data c c1); [done..|]. intros w2 c2 k Hi2 Hf2 Hs2 Hcap2 _ Hh2 C. specialize (Hw (length (contents c) + k)%nat).
    rewrite take_app_add, <- Hs2 in Hw. eapply returns_mono; [apply (process_served _ slot c2 (contents c ++ take k data)); [rewrite (proj1 C); apply list_lookup_insert_eq; by eapply lookup_lt_Some|done|done|done|lia]|].
    cbn beta. intros u w3 (c' & tr & C3 & Hsv). rewrite (proj1 C), list_insert_insert_eq in C3. exists c', tr, (contents c ++ take k data). split; [exact (change_trans0 _ _ _ _ _ _ C C3)|].
    right. exists c2. do 4 (split; [done|]). split; [apply Hh2|done].
  - unfold client_ready. apply returns_bind, (returns_client slot c); [done|]. destruct (Z.ltb_spec (c_fd c) 0); [lia|]. rewrite Ehup, Ein, Eg.
    apply returns_bind, returns_put_client. intros w1 C1 H1. assert (4096 <= c_cap c1) as Hcap1 by (pose proof Hh1 as (_ & Hl1 & Hc1 & _); destruct Hh as [(_ & Hl0 & _)|(_ & Hl0 & _)]; pose proof (zlen_nonneg (contents c)); lia).
    destruct (ev_recv ev) as [data| | |] eqn:Er.
    + cbn [bytes_of] in Hno. rewrite Hno. assert (sub_bytes 0 (c_cap c1 - c_len c1) [] = []) as -> by (unfold sub_bytes; by rewrite !firstn_nil). by apply (Hdisc w1 c1).
    + by apply (Hdisc w1 c1).
    + apply returns_ret. exists c1, [], (contents c). split; [done|]. right. exists c1. do 4 (split; [done|]). split; [apply Hh1|]. split.
       * right. do 4 (split; [done|]). exists 0%nat. by rewrite drop_0.
       * exists [], [], []. split; [done|]. split; [by left|]. split; [constructor|]. split; [by left|]. done.
    + by apply (Hdisc w1 c1).
Qed.

(** ** The whole server *)

Definition about (id : Z) (a : action) : bool :=
  match a with OnConnect _ _ i | OnMessage _ _ i _ | OnDisconnect _ _ i => i =? id | _ => false end.
Definition of_id (id : Z) (tr : list action) : list action := List.filter (about id) tr.

Lemma of_id_callbacks id tr : of_id id (callbacks tr) = of_id id tr.
Proof. unfold of_id, callbacks. induction tr as [|a tr IH]; [done|]. by destruct a; cbn [List.filter is_callback about]; rewrite IH. Qed.
Lemma change_of_id w w' cs tr id : change w w' cs tr -> of_id id (w_actions w') = of_id id (w_actions w) ++ of_id id tr.
Proof. intros (_ & _ & (t & -> & <-) & _). unfold of_id at 1. rewrite List.filter_app. f_equal. symmetry. apply of_id_callbacks. Qed.

(** The callbacks for one client, while it is there and altogether. *)
Definition open_seq (id : Z) (l : list action) : Prop :=
  exists cn ms, l = cn ++ ms /\ (cn = [] \/ exists cb ud, cn = [OnConnect cb ud id]) /\ Forall (message_of id) ms.
Definition closed_seq (id : Z) (l : list action) : Prop := exists o ds, l = o ++ ds /\ open_seq id o /\ gone_of id ds.

Lemma of_id_all id l : Forall (fun a => about id a = true) l -> of_id id l = l.
Proof. induction 1 as [|a l Ha _ IH]; [done|]. unfold of_id in *. cbn. by rewrite Ha, IH. Qed.
Lemma of_id_none id l : Forall (fun a => about id a = false) l -> of_id id l = [].
Proof. induction 1 as [|a l Ha _ IH]; [done|]. unfold of_id in *. cbn. by rewrite Ha, IH. Qed.

Lemma callbacks_about id cn ms ds : (cn = [] \/ exists cb ud, cn = [OnConnect cb ud id]) -> Forall (message_of id) ms -> gone_of id ds ->
  (forall j, of_id j (cn ++ ms ++ ds) = if j =? id then cn ++ ms ++ ds else []).
Proof.
  intros Hc Hm Hd j. assert (forall b, (id =? j) = b -> Forall (fun a => about j a = b) (cn ++ ms ++ ds)) as H.
  { intros b Hb. apply Forall_app. split; [destruct Hc as [->|(cb & ud & ->)]; by repeat constructor|]. apply Forall_app. split.
    - eapply Forall_impl; [exact Hm|]. intros a (cb & ud & m & ->). done.
    - destruct Hd as [->|(cb & ud & ->)]; by repeat constructor. }
  rewrite Z.eqb_sym. destruct (id =? j) eqn:E; [by apply of_id_all, H|by apply of_id_none, H].
Qed.

Definition client_ok (next : Z) (c : ws_client_t) : Prop := c = no_client \/ (in_use c /\ 1 <= c_id c < next).

Record ws_inv (w : ws_world) : Prop := mk_ws_inv {
  wi_len : length (ws_clients (w_server w)) = MAX_CLIENTS;
  wi_next : 1 <= ws_next_client_id (w_server w);
  wi_clients : forall i c, ws_clients (w_server w) !! i = Some c -> client_ok (ws_next_client_id (w_server w)) c;
  wi_ids : forall i j ci cj, ws_clients (w_server w) !! i = Some ci -> ws_clients (w_server w) !! j = Some cj ->
    0 <= c_fd ci -> 0 <= c_fd cj -> c_id ci = c_id cj -> i = j;
  wi_new : forall id, ws_next_client_id (w_server w) <= id -> of_id id (w_actions w) = [];
  wi_open : forall i c, ws_clients (w_server w) !! i = Some c -> 0 <= c_fd c ->
    open_seq (c_id c) (of_id (c_id c) (w_actions w)) /\ (c_handshaked c = false -> of_id (c_id c) (w_actions w) = []);
  wi_seq : forall id, closed_seq id (of_id id (w_actions w));
}.

Lemma open_closed id l : open_seq id l -> closed_seq id l.
Proof. intros H. exists l, []. rewrite app_nil_r. split; [done|]. split; [done|by left]. Qed.

(** Nothing happens to the clients. *)
Lemma inv_quiet w w' : ws_inv w -> change w w' (ws_clients (w_server w)) [] -> ws_inv w'.
Proof.
  intros [I1 I2 I3 I4 I5 I6 I7] C. pose proof C as (Ec & En & _). assert (forall id, of_id id (w_actions w') = of_id id (w_actions w)) as Eo by (intros id; rewrite (change_of_id _ _ _ _ _ C); apply app_nil_r).
  split; rewrite ?Ec, ?En; [done..| | |].
  - intros id. rewrite Eo. apply I5.
  - intros i c. rewrite Eo. apply I6.
  - intros id. rewrite Eo. apply I7.
Qed.

Lemma served_in_use c c' l tr : served c c' l tr -> 0 <= c_fd c' -> 4096 <= c_cap c -> bytes_ok l -> c_id c' = c_id c /\ in_use c'.
Proof.
  intros [[->|(Hi & Hf & Hc & _ & k & Hk)] _] Hfd Hcap Hok; [cbn in Hfd; lia|]. split; [done|].
  split; [done|]. split; [lia|]. left. by rewrite (holds_contents _ _ Hk).
Qed.

Lemma inv_step w w' i c c1 c' l tr : ws_inv w -> ws_clients (w_server w) !! i = Some c -> 0 <= c_fd c -> change w w' (<[i := c']> (ws_clients (w_server w))) tr ->
  c_id c1 = c_id c -> c_fd c1 = c_fd c -> c_handshaked c1 = c_handshaked c -> 4096 <= c_cap c1 -> bytes_ok l -> served c1 c' l tr -> ws_inv w'.
Proof.
  intros [I1 I2 I3 I4 I5 I6 I7] Hc Hfd C Ei Ef Es Hcap Hok Hsv. pose proof C as (Ec & En & _).
  assert (1 <= c_id c < ws_next_client_id (w_server w)) as Hid by (destruct (I3 _ _ Hc) as [->|(_ & ?)]; [cbn in Hfd; lia|done]).
  pose proof (served_in_use _ _ _ _ Hsv) as Huse. destruct Hsv as [Hc' (cn & ms & ds & Etr & Hcn & Hms & Hds & Hcn' & Hst)]. rewrite Ei, Es in *.
  assert (forall id, of_id id (w_actions w') = of_id id (w_actions w) ++ (if id =? c_id c then tr else [])) as Eo.
  { intros id. rewrite (change_of_id _ _ _ _ _ C). f_equal. rewrite Etr. by apply callbacks_about. }
  destruct (I6 _ _ Hc Hfd) as [Hop Hnh].
  assert (forall j cj, <[i := c']> (ws_clients (w_server w)) !! j = Some cj -> j = i /\ cj = c' \/ j <> i /\ ws_clients (w_server w) !! j = Some cj) as Hlook.
  { intros j cj Hj. apply list_lookup_insert_Some in Hj as [(<- & -> & _)|[Hne Hj]]; [by left|right; by split]. }
  assert (open_seq (c_id c) (of_id (c_id c) (w_actions w) ++ cn ++ ms)) as Hop'.
  { destruct (c_handshaked c) eqn:Eh.
    - rewrite (Hcn' eq_refl). destruct Hop as (cn0 & ms0 & -> & Hcn0 & Hms0). exists cn0, (ms0 ++ ms). rewrite <- app_assoc. split; [done|]. split; [done|]. by apply Forall_app.
    - rewrite (Hnh eq_refl). by exists cn, ms. }
  split; rewrite ?Ec, ?En.
  - by rewrite length_insert.
  - done.
  - intros j cj Hj. destruct (Hlook _ _ Hj) as [[-> ->]|[_ Hj']]; [|by eapply I3]. destruct Hc' as [->|Hc']; [by left|]. right. destruct Hc' as (_ & Hf & _).
    destruct Huse as (Ei' & Hu); [lia|done..|]. split; [done|]. by rewrite Ei'.
  - intros j k cj ck Hj Hk Hfj Hfk Ejk. destruct (Hlook _ _ Hj) as [[-> ->]|[Hne Hj']], (Hlook _ _ Hk) as [[-> ->]|[Hne' Hk']]; [done| | |by eapply I4].
    + destruct Huse as [Ei' _]; [done..|]. symmetry. eapply I4; [exact Hk'|exact Hc|done|done|congruence].
    + destruct Huse as [Ei' _]; [done..|]. eapply I4; [exact Hj'|exact Hc|done|done|congruence].
  - intros id Hidn. rewrite Eo, I5 by done. destruct (Z.eqb_spec id (c_id c)); [lia|done].
  - intros j cj Hj Hfj. rewrite Eo. destruct (Hlook _ _ Hj) as [[-> ->]|[Hne Hj']].
    + destruct Huse as [Ei' _]; [done..|]. rewrite Ei', Z.eqb_refl, Etr. destruct (Hst Hfj) as [-> Hn]. rewrite app_nil_r. split; [done|]. intros Hs'. destruct (Hn Hs') as [-> ->].
      destruct Hc' as [->|(_ & _ & _ & Hk & _)]; [cbn in Hfj; lia|]. destruct (c_handshaked c); [by rewrite Hk in Hs'|]. by rewrite Hnh.
    + destruct (Z.eqb_spec (c_id cj) (c_id c)) as [E|]; [destruct Hne; eapply I4; eauto|]. rewrite app_nil_r. by eapply I6.
  - intros id. rewrite Eo. destruct (Z.eqb_spec id (c_id c)) as [->|]; [|rewrite app_nil_r; apply I7].
    exists (of_id (c_id c) (w_actions w) ++ cn ++ ms), ds. rewrite Etr, <- !app_assoc. done.
Qed.

(** What a round needs of the bytes that arrive, slot by slot. *)
Definition ready_ok (w : ws_world) (slots : list nat) (evs : list client_event) : Prop :=
  forall k slot ev, slots !! k = Some slot -> evs !! k = Some ev -> bytes_ok (bytes_of (ev_recv ev)) /\
    forall c, ws_clients (w_server w) !! slot = Some c -> 0 <= c_fd c -> never_wraps (c_handshaked c) (contents c ++ bytes_of (ev_recv ev)).

Lemma ready_all_inv slots evs w : ws_inv w -> NoDup slots -> (forall slot, slot ∈ slots -> (slot < MAX_CLIENTS)%nat) -> ready_ok w slots evs ->
  returns (ready_all send_answer window garbage depth slots evs) w (fun _ w' => ws_inv w').
Proof.
  revert evs w. induction slots as [|slot slots IH]; intros evs w Hi Hnd Hr Hok; [by apply returns_ret|]. destruct evs as [|ev evs]; [by apply returns_ret|].
  cbn [ready_all]. apply NoDup_cons in Hnd as [Hni Hnd]. destruct (Hok 0%nat slot ev eq_refl eq_refl) as [Hb Hw].
  destruct (lookup_lt_is_Some_2 (ws_clients (w_server w)) slot) as [c Hc]; [rewrite (wi_len _ Hi); apply Hr; left|].
  apply returns_bind. destruct (wi_clients _ Hi _ _ Hc) as [Hno|(Hu & Hid)].
  - exists tt, w. split.
    { unfold client_ready. assert (client slot w = Done (c, w)) as E by (unfold client; by rewrite Hc). unfold mbind, W_bind. by rewrite E, Hno. }
    apply IH; [done|done|intros s Hs; apply Hr; by right|]. intros k s e Hs He. by apply (Hok (S k)).
  - eapply returns_mono; [apply (client_ready_served _ _ c); [done|done|done|apply Hw; [done|apply Hu]]|]. cbn beta. intros _ w1 (c' & tr & l & C & Hsv).
    assert (ws_inv w1) as Hi1.
    { destruct Hsv as [[-> ->]|(c1 & Ei & Ef & Es & Hcap & Hokl & Hsv)].
      - rewrite list_insert_id in C by done. by eapply inv_quiet.
      - eapply inv_step; [exact Hi|exact Hc|apply Hu|exact C|exact Ei|exact Ef|exact Es|exact Hcap|exact Hokl|exact Hsv]. }
    apply IH; [done|done|intros s Hs; apply Hr; by right|]. intros k s e Hs He. destruct (Hok (S k) s e Hs He) as [Hb' Hw']. split; [done|].
    intros cs Hcs. rewrite (proj1 C), list_lookup_insert_ne in Hcs; [by apply Hw'|]. intros ->. apply Hni. by eapply list_elem_of_lookup_2.
Qed.

Lemma free_slot_spec cs i slot : free_slot cs i = Some slot -> exists j c, slot = (i + j)%nat /\ cs !! j = Some c /\ c_fd c < 0.
Proof.
  revert i. induction cs as [|c cs IH]; intros i E; [done|]. cbn [free_slot] in E. destruct (Z.ltb_spec (c_fd c) 0).
  - injection E as <-. exists 0%nat, c. split; [lia|done].
  - destruct (IH _ E) as (j & c' & -> & Hj & Hf). exists (S j), c'. split; [lia|done].
Qed.

(** A connection takes a free slot, under a number that was not used. *)
Lemma accept_inv fd ok w : ws_inv w -> 0 <= fd -> ws_next_client_id (w_server w) < 2 ^ 31 - 1 ->
  returns (accept_client garbage fd ok) w (fun _ w' => ws_inv w' /\
    forall i c, ws_clients (w_server w) !! i = Some c -> 0 <= c_fd c -> ws_clients (w_server w') !! i = Some c).
Proof.
  intros Hi Hfd Hn. unfold accept_client. apply returns_bind, returns_server. destruct (free_slot _ 0) as [slot|] eqn:Es.
  2: { apply returns_act. intros w' C E. split; [by eapply inv_quiet|]. by rewrite E. }
  destruct (free_slot_spec _ _ _ Es) as (j & c & -> & Hj & Hf). cbn [Nat.add]. set (s := w_server w) in *. set (c' := mk_client _ fd false _ 0 _).
  eexists tt, _. split; [reflexivity|]. set (w' := mk_ws _ _ _ _). change (2 ^ 31) with 2147483648 in Hn.
  assert (s32 (ws_next_client_id s + 1) = ws_next_client_id s + 1) as Es32 by (apply s32_small; pose proof (wi_next _ Hi); fold s in H; lia).
  assert (c_id c' = ws_next_client_id s /\ c_fd c' = fd /\ c_handshaked c' = false) as (Hci & Hcf & Hch) by done.
  assert (in_use c') as Hu.
  { split; [done|]. split; [by cbn|]. destruct ok; [left|by right]. assert (contents c' = []) as -> by done.
    split; [done|]. split; [done|]. split; [done|]. split; [constructor|]. eexists. split; [reflexivity|]. split; [|done]. unfold zlen. by rewrite length_map, length_seq. }
  clearbody c'. destruct Hi as [I1 I2 I3 I4 I5 I6 I7]. fold s in I1, I2, I3, I4, I5, I6.
  assert (forall k ck, <[j := c']> (ws_clients s) !! k = Some ck -> k = j /\ ck = c' \/ k <> j /\ ws_clients s !! k = Some ck) as Hlook.
  { intros k ck Hk. apply list_lookup_insert_Some in Hk as [(<- & -> & _)|[Hne Hk]]; [by left|right; by split]. }
  assert (forall k ck, ws_clients s !! k = Some ck -> 0 <= c_fd ck -> 1 <= c_id ck < ws_next_client_id s) as Hids.
  { intros k ck Hk Hfk. destruct (I3 _ _ Hk) as [->|(_ & ?)]; [cbn in Hfk; lia|done]. }
  split.
  - split; unfold w'; cbn [w_server with_clients ws_clients ws_next_client_id w_actions]; rewrite ?Es32.
    + by rewrite length_insert.
    + lia.
    + intros k ck Hk. destruct (Hlook _ _ Hk) as [[-> ->]|[_ Hk']]; [right; split; [done|]; lia|]. destruct (I3 _ _ Hk') as [->|(Hu' & Hid)]; [by left|right; split; [done|lia]].
    + intros k1 k2 c1 c2 H1 H2 F1 F2 E. destruct (Hlook _ _ H1) as [[-> ->]|[_ H1']], (Hlook _ _ H2) as [[-> ->]|[_ H2']]; [done| | |by eapply I4].
      * pose proof (Hids _ _ H2' F2). lia.
      * pose proof (Hids _ _ H1' F1). lia.
    + intros id Hid. apply I5. lia.
    + intros k ck Hk Hfk. destruct (Hlook _ _ Hk) as [[-> ->]|[_ Hk']]; [|by eapply I6]. rewrite I5 by lia. split; [|done]. by exists [], []; split; [|split; [left|constructor]].
    + apply I7.
  - intros i ci Hci' Hfi. unfold w'. cbn [w_server with_clients ws_clients]. rewrite list_lookup_insert_ne; [done|]. intros ->. rewrite Hj in Hci'. injection Hci' as ->. lia.
Qed.

Lemma client_map_spec cs slot : slot ∈ client_map cs <-> exists c, cs !! slot = Some c /\ 0 <= c_fd c.
Proof.
  unfold client_map. rewrite list_elem_of_In, filter_In, in_seq. split.
  - intros [_ H]. destruct (cs !! slot) as [c|]; [|done]. exists c. split; [done|]. by apply Z.leb_le.
  - intros (c & Hc & Hf). rewrite Hc. split; [|by apply Z.leb_le]. apply lookup_lt_Some in Hc. lia.
Qed.

Lemma client_map_nodup cs : NoDup (client_map cs).
Proof. unfold client_map. apply NoDup_ListNoDup, List.NoDup_filter, List.seq_NoDup. Qed.

(** The answers a round may get: fewer than 2^31 clients in all, and no header that
    announces 2^64 bytes. *)
Definition round_ok (w : ws_world) (p : polled) : Prop :=
  match p with
  | PollReady accepted evs =>
      match accepted with Some (fd, _) => 0 <= fd -> ws_next_client_id (w_server w) < 2 ^ 31 - 1 | None => True end /\
      ready_ok w (client_map (ws_clients (w_server w))) evs
  | _ => True
  end.

Lemma ready_ok_same w w' slots evs : ready_ok w slots evs ->
  (forall slot c', slot ∈ slots -> ws_clients (w_server w') !! slot = Some c' -> ws_clients (w_server w) !! slot = Some c') -> ready_ok w' slots evs.
Proof.
  intros H Hs k slot ev Hk He. destruct (H k slot ev Hk He) as [Hb Hw]. split; [done|]. intros c Hc. apply Hw. eapply Hs; [|exact Hc]. by eapply list_elem_of_lookup_2.
Qed.

Lemma round_inv p w : ws_inv w -> round_ok w p -> returns (ws_round_body send_answer window garbage depth p) w (fun _ w' => ws_inv w').
Proof.
  intros Hi Hok. unfold ws_round_body. apply returns_bind, returns_server. apply returns_bind, unlocked_quiet. intros w1 C1.
  pose proof (inv_quiet _ _ Hi C1) as Hi1. pose proof C1 as (Ec1 & En1 & _). set (slots := client_map (ws_clients (w_server w))) in *.
  assert (forall slot, slot ∈ slots -> (slot < MAX_CLIENTS)%nat) as Hr by (intros slot (c & Hc & _)%client_map_spec; rewrite <- (wi_len _ Hi); by eapply lookup_lt_Some).
  destruct p as [| | |accepted evs]; [by apply returns_ret..|]. destruct Hok as [Hacc Hev]. apply returns_bind.
  eapply returns_mono with (Q := fun _ w2 => ws_inv w2 /\ ready_ok w2 slots evs).
  - assert (ready_ok w1 slots evs) as Hev1 by (eapply ready_ok_same; [exact Hev|]; intros slot c' _; by rewrite Ec1).
    destruct accepted as [[fd ok]|]; [|by apply returns_ret]. destruct (Z.leb_spec 0 fd); [|by apply returns_ret].
    eapply returns_mono; [apply accept_inv; [done|done|rewrite En1; by apply Hacc]|]. cbn beta. intros _ w2 [Hi2 Hk]. split; [done|].
    eapply ready_ok_same; [exact Hev1|]. intros slot c' (c & Hc & Hf)%client_map_spec Hc'. rewrite <- Ec1 in Hc. rewrite (Hk _ _ Hc Hf) in Hc'. by injection Hc' as <-.
  - intros _ w2 [Hi2 Hev2]. apply returns_bind. eapply returns_mono; [apply ready_all_inv; [done|apply client_map_nodup|done|done]|]. cbn beta. intros _ w3 Hi3. by apply returns_ret.
Qed.

(** Stopping disconnects every client. *)
Lemma disconnect_inv idx w : ws_inv w -> (idx < MAX_CLIENTS)%nat ->
  returns (disconnect_client_unlocked send_answer window depth idx) w (fun _ w' => ws_inv w' /\
    ws_clients (w_server w') = <[idx := no_client]> (ws_clients (w_server w))).
Proof.
  intros Hi Hl. destruct (lookup_lt_is_Some_2 (ws_clients (w_server w)) idx) as [c Hc]; [by rewrite (wi_len _ Hi)|].
  destruct (wi_clients _ Hi _ _ Hc) as [Hno|(Hu & Hid)].
  - exists tt, w. split; [|split; [done|]; rewrite Hno in Hc; by rewrite list_insert_id].
    unfold disconnect_client_unlocked, disconnect_with. assert (client idx w = Done (c, w)) as E by (unfold client; by rewrite Hc). unfold mbind, W_bind. by rewrite E, Hno.
  - apply (disconnect_change idx c); [done|apply Hu|]. intros w' C. fold (disconnected w (c_id c)) in C. split; [|apply C].
    eapply (inv_step w w' idx c c no_client []); [done|done|apply Hu|exact C|done|done|done|apply Hu|constructor|apply served_gone, disconnected_of].
Qed.

Lemma each_disconnect n idx w : ws_inv w -> (idx + n <= MAX_CLIENTS)%nat ->
  returns (each_client (disconnect_client_unlocked send_answer window depth) n idx) w (fun _ w' => ws_inv w' /\
    forall j, (j < MAX_CLIENTS)%nat -> ws_clients (w_server w') !! j = if decide (idx <= j < idx + n)%nat then Some no_client else ws_clients (w_server w) !! j).
Proof.
  revert idx w. induction n as [|n IH]; intros idx w Hi Hl; cbn [each_client].
  - apply returns_ret. split; [done|]. intros j Hj. destruct (decide _); [lia|done].
  - apply returns_bind. eapply returns_mono; [apply disconnect_inv; [done|lia]|]. cbn beta. intros _ w1 [Hi1 E1].
    eapply returns_mono; [apply IH; [done|lia]|]. cbn beta. intros _ w2 [Hi2 E2]. split; [done|]. intros j Hj. rewrite E2 by done. rewrite E1.
    destruct (decide (S idx <= j < S idx + n)%nat), (decide (idx <= j < idx + S n)%nat); try lia; [done| |].
    + assert (j = idx) as -> by lia. apply list_lookup_insert_eq. by rewrite (wi_len _ Hi).
    + apply list_lookup_insert_ne. lia.
Qed.

Lemma inv_listen w fd running : ws_inv w -> ws_inv (mk_ws (with_listen (w_server w) fd running) (w_actions w) (w_sends w) (w_windows w)).
Proof. intros [I1 I2 I3 I4 I5 I6 I7]. by split. Qed.

Lemma stop_inv w : ws_inv w -> returns (stop_with (unlocked)) w (fun _ w' => ws_inv w' /\ ws_clients (w_server w') = repeat no_client MAX_CLIENTS /\ ws_listen_fd (w_server w') < 0).
Proof.
  intros Hi. unfold stop_with. fold (disconnect_client_unlocked send_answer window depth). apply returns_bind. eapply returns_mono; [apply each_disconnect; [done|lia]|].
  cbn beta. intros _ w1 [Hi1 E1]. assert (ws_clients (w_server w1) = repeat no_client MAX_CLIENTS) as Ec.
  { apply list_eq. intros j. destruct (decide (j < MAX_CLIENTS)%nat) as [Hj|Hj].
    - rewrite E1 by done. destruct (decide _); [|lia]. symmetry. by apply lookup_replicate_2 with (n := MAX_CLIENTS).
    - rewrite !lookup_ge_None_2; [done|rewrite repeat_length; lia|rewrite (wi_len _ Hi1); lia]. }
  apply returns_bind, returns_server. destruct (Z.leb_spec 0 (ws_listen_fd (w_server w1))); [|by apply returns_ret].
  apply returns_bind, returns_act. intros w2 C2 E2. eexists tt, _. split; [reflexivity|]. split; [|by split]. rewrite <- E2. apply inv_listen. by eapply inv_quiet.
Qed.

(** ** The calls of the application *)

Inductive ws_op :=
| OpCallbacks (c m dd : option nat) (ud : nat)
| OpSend (id : Z) (data : bytes)
| OpStart (fd : Z) (bind_ok listen_ok thread_ok : bool)
| OpRound (p : polled)
| OpStop (p : option polled).
Definition run_op (op : ws_op) : W unit :=
  match op with
  | OpCallbacks c m dd ud => zst_ws_server_set_callbacks c m dd ud
  | OpSend id data => _ ← zst_ws_send send_answer id data; mret tt
  | OpStart fd b l t => _ ← zst_ws_server_start fd b l t; mret tt
  | OpRound p => _ ← ws_server_round send_answer window garbage depth p; mret tt
  | OpStop p => _ ← zst_ws_server_stop send_answer window depth (joining send_answer window garbage depth p); mret tt
  end.
Definition op_ok (w : ws_world) (op : ws_op) : Prop :=
  match op with OpRound p | OpStop (Some p) => round_ok w p | _ => True end.

(** The states of a server. *)
Inductive ws_reach : ws_world -> Prop :=
| reach_created port s : zst_ws_server_create true port = Some s -> ws_reach (mk_ws s [] 0 0)
| reach_op w op w' : ws_reach w -> op_ok w op -> run_op op w = Done (tt, w') -> ws_reach w'.

Lemma op_inv w op : ws_inv w -> op_ok w op -> returns (run_op op) w (fun _ w' => ws_inv w').
Proof.
  intros Hi Hok. destruct op as [c m dd ud|id data|fd b l t|p|p]; cbn [run_op op_ok] in *.
  - eexists tt, _. split; [reflexivity|]. destruct Hi. by split.
  - apply returns_bind, zst_ws_send_quiet. intros r w' C _. apply returns_ret. by eapply inv_quiet.
  - apply returns_bind. unfold zst_ws_server_start. apply returns_bind, returns_server. destruct (ws_running _); [by apply returns_ret, returns_ret|].
    destruct (fd <? 0); [by apply returns_ret, returns_ret|]. destruct b; cbn [negb]; [|apply returns_bind, returns_act; intros w' C _; apply returns_ret, returns_ret; by eapply inv_quiet].
    destruct l; cbn [negb]; [|apply returns_bind, returns_act; intros w' C _; apply returns_ret, returns_ret; by eapply inv_quiet].
    apply returns_bind. eexists tt, _. split; [reflexivity|]. destruct t; cbn [negb]; [apply returns_ret, returns_ret; by apply inv_listen|].
    apply returns_bind. eexists tt, _. split; [reflexivity|]. apply returns_bind. eexists tt, _. split; [reflexivity|]. apply returns_ret, returns_ret.
    pose proof (inv_listen w (-1) false Hi) as [I1 I2 I3 I4 I5 I6 I7]. eapply (inv_quiet (mk_ws (with_listen (w_server w) (-1) false) (w_actions w) (w_sends w) (w_windows w))); [by split|].
    split; [done|]. split; [done|]. split; [by exists [Closes fd]|done].
  - apply returns_bind. unfold ws_server_round. apply returns_bind, returns_server. destruct (ws_running _); [|by apply returns_ret, returns_ret].
    eapply returns_mono; [by apply round_inv|]. intros b w' Hi'. by apply returns_ret.
  - apply returns_bind. unfold zst_ws_server_stop. apply returns_bind, returns_server. destruct (ws_running _); [|by apply returns_ret, returns_ret].
    apply returns_bind. eexists tt, _. split; [reflexivity|]. set (w1 := mk_ws _ _ _ _). assert (ws_inv w1) as Hi1 by (by apply inv_listen).
    apply returns_bind. eapply returns_mono with (Q := fun _ w2 => ws_inv w2).
    { destruct p as [p|]; [|by apply returns_ret]. cbn [joining]. apply returns_bind. eapply returns_mono; [by apply (round_inv p w1)|]. intros b w2 Hi2. by apply returns_ret. }
    intros _ w2 Hi2. apply returns_bind. eapply returns_mono; [by apply stop_inv|]. cbn beta. intros _ w3 [Hi3 _]. by apply returns_ret, returns_ret.
Qed.

Lemma ws_reach_inv w : ws_reach w -> ws_inv w.
Proof.
  induction 1 as [port s Es|w op w' Hr IH Hok E].
  - assert (ws_clients s = repeat no_client MAX_CLIENTS /\ ws_next_client_id s = 1) as [Ec En] by (by injection Es as <-).
    split; cbn [w_server w_actions]; rewrite ?Ec, ?En.
    + by rewrite repeat_length.
    + lia.
    + intros i c Hc. apply list_elem_of_lookup_2, list_elem_of_In, repeat_spec in Hc. by left.
    + intros i j ci cj Hci _ Hf. apply list_elem_of_lookup_2, list_elem_of_In, repeat_spec in Hci as ->. cbn in Hf. lia.
    + done.
    + intros i c Hc Hf. apply list_elem_of_lookup_2, list_elem_of_In, repeat_spec in Hc as ->. cbn in Hf. lia.
    + intros id. apply open_closed. by exists [], []; split; [|split; [left|constructor]].
  - destruct (op_inv w op IH Hok) as (a & w2 & E2 & H2). rewrite E in E2. by injection E2 as _ <-.
Qed.

(** ** Streams of frames *)

(** A frame as a client or the server writes it: [b0] holds the opcode, the payload is
    masked or not. *)
Definition frame_header (b0 m n : Z) : bytes :=
  if n <=? 125 then [b0; m + n] else if n <=? 65535 then [b0; m + 126; n / 256; n mod 256] else b0 :: m + 127 :: Fips.be 8 n.
Definition frame_of (f : Z * option bytes * bytes) : bytes :=
  let '(b0, mask, payload) := f in
  match mask with
  | Some key => frame_header b0 128 (zlen payload) ++ key ++ mask_octets key payload
  | None => frame_header b0 0 (zlen payload) ++ payload
  end.
Definition frame_ok (f : Z * option bytes * bytes) : Prop :=
  let '(b0, mask, payload) := f in
  is_byte b0 /\ bytes_ok payload /\ zlen payload <= 2 ^ 61 /\ match mask with Some key => zlen key = 4 /\ bytes_ok key | None => True end.

Lemma big_app l b : big (l ++ [b]) = big l * 256 + b.
Proof. unfold big. by rewrite fold_left_app. Qed.

Lemma big_be n v : 0 <= v -> big (Fips.be n v) = v mod 256 ^ Z.of_nat n.
Proof.
  intros Hv. assert (forall u, fold_left (fun v b => v * 256 + b) (Fips.be n v) u = u * 256 ^ Z.of_nat n + v mod 256 ^ Z.of_nat n) as H; [|apply H].
  induction n as [|n IH]; intros u; [cbn; rewrite Z.mod_1_r; lia|]. cbn [Fips.be fold_left]. rewrite IH, Nat2Z.inj_succ, Z.pow_succ_r by lia.
  rewrite (Z.mul_comm 256), Z.rem_mul_r by (try lia; apply Z.pow_nonzero; lia). lia.
Qed.

Lemma lxor_byte a b : is_byte a -> is_byte b -> is_byte (Z.lxor a b).
Proof.
  intros Ha Hb. unfold is_byte in *. split; [apply Z.lxor_nonneg; lia|]. destruct (Z.eq_dec (Z.lxor a b) 0) as [->|]; [lia|].
  assert (0 <= Z.lxor a b) by (apply Z.lxor_nonneg; lia). apply (Z.log2_lt_pow2 _ 8); [lia|].
  pose proof (Z.log2_lxor a b ltac:(lia) ltac:(lia)). assert (forall x, 0 <= x < 256 -> Z.log2 x < 8) as Hlog.
  { intros x Hx. destruct (Z.eq_dec x 0) as [->|]; [done|]. apply Z.log2_lt_pow2; [lia|]. change (2 ^ 8) with 256. lia. }
  pose proof (Hlog a Ha). pose proof (Hlog b Hb). lia.
Qed.

Lemma unmask_twice key l : unmask key (unmask key l) = l.
Proof.
  apply list_eq. intros i. unfold unmask. rewrite !list_lookup_imap. destruct (l !! i) as [b|]; [|done]. cbn. by rewrite Z.lxor_assoc, Z.lxor_nilpotent, Z.lxor_0_r.
Qed.

Lemma frame_header_len b0 m n : zlen (frame_header b0 m n) = if n <=? 125 then 2 else if n <=? 65535 then 4 else 10.
Proof. unfold frame_header. destruct (n <=? 125); [done|]. destruct (n <=? 65535); done. Qed.

Lemma frame_length_of b0 m n rest : (m = 0 \/ m = 128) -> 0 <= n <= 2 ^ 61 ->
  frame_length (frame_header b0 m n ++ rest) = Some (n, zlen (frame_header b0 m n)) /\ rd (frame_header b0 m n ++ rest) 0 = b0 /\
  (rd (frame_header b0 m n ++ rest) 1 <? 128) = (m =? 0).
Proof.
  clear no_stop window garbage d send_answer.
  intros Hm Hn. change (2 ^ 61) with 2305843009213693952 in Hn. pose proof (zlen_nonneg rest). unfold frame_length. rewrite frame_header_len, zlen_app, frame_header_len.
  rewrite !rd_app_l by (rewrite frame_header_len; repeat destruct (_ <=? _); lia). unfold frame_header.
  assert (forall x, 0 <= x < 128 -> (m + x) mod 128 = x /\ (m + x <? 128) = (m =? 0)) as Hx.
  { intros x Hx. destruct Hm as [->| ->]; [split; [by apply Z.mod_small|]; apply Z.ltb_lt; lia|]. split; [|apply Z.ltb_ge; lia]. replace (128 + x) with (x + 1 * 128) by lia. rewrite Z.mod_add by lia. by apply Z.mod_small. }
  destruct (Z.leb_spec n 125); [|destruct (Z.leb_spec n 65535)].
  - destruct (Z.ltb_spec (2 + zlen rest) 2); [lia|]. change (rd [b0; m + n] 1) with (m + n). destruct (Hx n) as [-> ->]; [lia|].
    destruct (Z.eqb_spec n 126); [lia|]. destruct (Z.eqb_spec n 127); [lia|]. done.
  - destruct (Z.ltb_spec (4 + zlen rest) 2); [lia|]. change (rd [b0; m + 126; n / 256; n mod 256] 1) with (m + 126). destruct (Hx 126) as [-> ->]; [lia|].
    cbn [Z.eqb Pos.eqb]. destruct (Z.ltb_spec (4 + zlen rest) 4); [lia|]. split; [|done]. do 2 f_equal. change (n / 256 * 256 + n mod 256 = n). cint.
  - destruct (Z.ltb_spec (10 + zlen rest) 2); [lia|]. change (rd (b0 :: m + 127 :: Fips.be 8 n) 1) with (m + 127). destruct (Hx 127) as [-> ->]; [lia|].
    cbn [Z.eqb Pos.eqb]. destruct (Z.ltb_spec (10 + zlen rest) 10); [lia|]. split; [|done]. do 2 f_equal. rewrite sub_app by done.
    change (sub_bytes 2 8 (b0 :: m + 127 :: Fips.be 8 n)) with (Fips.be 8 n). rewrite big_be by lia. apply Z.mod_small. change (256 ^ Z.of_nat 8) with 18446744073709551616. lia.
Qed.

Lemma next_frame_of f rest : frame_ok f -> next_frame (frame_of f ++ rest) = Frame (f.1.1 mod 16) f.2 (zlen (frame_of f)).
Proof.
  clear no_stop window garbage d send_answer.
  destruct f as [[b0 mask] p]. cbn [frame_ok fst snd]. intros (Hb & Hp & Hl & Hm). pose proof (zlen_nonneg p). pose proof (zlen_nonneg rest).
  unfold next_frame. change (2 ^ 61) with 2305843009213693952 in Hl. change (2 ^ 64) with 18446744073709551616.
  destruct mask as [key|]; cbn [frame_of]; rewrite <- app_assoc.
  - rewrite <- (unmask_octets key p) by apply Hm. destruct (frame_length_of b0 128 (zlen p) ((key ++ unmask key p) ++ rest)) as (-> & -> & ->); [by right|change (2 ^ 61) with 2305843009213693952; lia|].
    set (h := frame_header b0 128 (zlen p)). assert (2 <= zlen h <= 10) by (subst h; rewrite frame_header_len; repeat destruct (_ <=? _); lia).
    cbn [Z.eqb]. destruct Hm as [Hk4 Hk]. rewrite !zlen_app, unmask_len, Hk4.
    destruct (Z.leb_spec 18446744073709551616 (zlen h + 4 + zlen p)); [lia|]. destruct (Z.ltb_spec (zlen h + (4 + zlen p + zlen rest)) (zlen h + 4 + zlen p)); [lia|].
    assert (sub_bytes (zlen h) 4 (h ++ (key ++ unmask key p) ++ rest) = key) as ->.
    { unfold sub_bytes. rewrite drop_app_length' by (unfold zlen; lia). rewrite <- app_assoc. apply take_app_length'. unfold zlen in Hk4. lia. }
    assert (sub_bytes (zlen h + 4) (zlen p) (h ++ (key ++ unmask key p) ++ rest) = unmask key p) as ->.
    { unfold sub_bytes. rewrite <- app_assoc, app_assoc. rewrite drop_app_length' by (rewrite length_app; unfold zlen in *; lia). apply take_app_length'. pose proof (unmask_len key p). unfold zlen in *. lia. }
    by rewrite <- unmask_octets, unmask_twice, Z.add_assoc by done.
  - destruct (frame_length_of b0 0 (zlen p) (p ++ rest)) as (-> & -> & ->); [by left|change (2 ^ 61) with 2305843009213693952; lia|].
    set (h := frame_header b0 0 (zlen p)). assert (2 <= zlen h <= 10) by (subst h; rewrite frame_header_len; repeat destruct (_ <=? _); lia).
    cbn [Z.eqb]. rewrite Z.add_0_r, !zlen_app.
    destruct (Z.leb_spec 18446744073709551616 (zlen h + zlen p)); [lia|]. destruct (Z.ltb_spec (zlen h + (zlen p + zlen rest)) (zlen h + zlen p)); [lia|].
    assert (sub_bytes (zlen h) (zlen p) (h ++ p ++ rest) = p) as ->; [|done].
    unfold sub_bytes. rewrite drop_app_length' by (unfold zlen; lia). apply take_app_length'. unfold zlen. lia.
Qed.

Lemma frames_of fs : Forall frame_ok fs -> Forall (fun f => f.1.1 mod 16 <> 8) fs ->
  frames (concat (map frame_of fs)) = Some (map (fun f => (f.1.1 mod 16, f.2)) fs, [], true).
Proof.
  clear no_stop window garbage d send_answer.
  intros Hok H8. unfold frames. enough (forall n, (length (concat (map frame_of fs)) < n)%nat ->
    read_frames n (concat (map frame_of fs)) = Some (map (fun f => (f.1.1 mod 16, f.2)) fs, [], true)) as H by (apply H; lia).
  induction fs as [|f fs IH]; intros n Hn; (destruct n as [|n]; [lia|]); [done|].
  apply Forall_cons_1 in Hok as [Hf Hok]. apply Forall_cons_1 in H8 as [H8 H8s]. cbn [map concat read_frames] in *. rewrite next_frame_of by done.
  rewrite (proj2 (Z.eqb_neq _ 8) H8). rewrite drop_app_length' by (unfold zlen; lia). rewrite IH; [done|done|done|]. rewrite length_app in Hn.
  assert (2 <= zlen (frame_of f)); [|unfold zlen in *; lia]. destruct f as [[b0 [key|]] p]; cbn [frame_of]; rewrite zlen_app, frame_header_len.
  - pose proof (zlen_nonneg (key ++ mask_octets key p)). repeat destruct (_ <=? _); lia.
  - pose proof (zlen_nonneg p). repeat destruct (_ <=? _); lia.
Qed.

Lemma read_frames_last n l fs rest : read_frames n l = Some (fs, rest, true) -> next_frame rest = NeedMore.
Proof.
  revert l fs. induction n as [|n IH]; intros l fs E; [done|]. cbn [read_frames] in E. destruct (next_frame l) as [| |op p total] eqn:En; [|done|].
  - by injection E as _ <-.
  - destruct (op =? 8); [done|]. destruct (read_frames n _) as [[[fs1 rest1] still1]|] eqn:E1; [|done]. injection E as _ <- ->. by eapply IH.
Qed.

Lemma frames_none l k : bytes_ok (l ++ k) -> frames l = None -> frames (l ++ k) = None.
Proof.
  intros Hok. enough (forall n m l, bytes_ok (l ++ k) -> (length l < n)%nat -> (length (l ++ k) < m)%nat -> read_frames n l = None -> read_frames m (l ++ k) = None) as H
    by (apply H; [done|lia|lia]).
  clear l Hok. induction n as [|n IH]; intros m l Hok Hn Hm E; [lia|]. destruct m as [|m]; [lia|]. pose proof Hok as [Hokl Hokk]%bytes_ok_app. cbn [read_frames] in *.
  destruct (next_frame l) as [| |op p total] eqn:En; [done|by rewrite next_frame_app, En by (done || by rewrite En)|].
  rewrite next_frame_app, En by (done || by rewrite En). destruct (next_frame_total _ _ _ _ En Hokl). destruct (op =? 8); [done|].
  destruct (read_frames n _) as [[[fs1 rest1] still1]|] eqn:E1; [done|]. rewrite length_app in Hm. rewrite drop_app_le by (unfold zlen in *; lia).
  rewrite (IH m); [done|apply bytes_ok_app; split; [by apply Forall_drop|done]|rewrite length_drop; unfold zlen in *; lia|rewrite length_app, length_drop; unfold zlen in *; lia|done].
Qed.

(** A stream that the connection holds: the [recv] of each round gives at most as many
    bytes of it as [sizes] says, and no more than it is asked for. *)
Fixpoint feed (slot : nat) (sizes : list nat) (stream : bytes) : W unit :=
  match sizes, stream with
  | [], _ | _, [] => mret tt
  | n :: sizes, _ =>
      c ← client slot;
      match ws_grow garbage c true with
      | None => mret tt
      | Some c1 =>
          let n := Nat.min n (Z.to_nat (c_cap c1 - c_len c1)) in
          _ ← client_ready send_answer window garbage depth slot (mk_event false true true (Received (take n stream)));
          feed slot sizes (drop n stream)
      end
  end.

Lemma grow_ok c : in_use c -> c_len c <= 2 ^ 61 -> exists c1, ws_grow garbage c true = Some c1.
Proof.
  intros (Hfd & Hcap & Hh) Hl. change (2 ^ 61) with 2305843009213693952 in Hl. assert (0 <= c_len c) as H0.
  { destruct Hh as [(_ & -> & _)|(_ & -> & _)]; [apply zlen_nonneg|done]. }
  unfold ws_grow. destruct (Z.leb_spec (c_cap c) (c_len c + 4096)); [|by eexists]. destruct (grown_spec (c_len c + 4096)) as [[H1 H2] _].
  { change (2 ^ 62) with 4611686018427387904. lia. }
  unfold PTRDIFF_MAX. destruct (Z.leb_spec (grown (c_len c + 4096) + 1) 9223372036854775807); [|lia]. by eexists.
Qed.

Lemma feed_done sizes slot c l w fs rest : ws_clients (w_server w) !! slot = Some c -> holds c l -> c_handshaked c = true ->
  next_frame l = NeedMore -> frames l = Some (fs, rest, true) ->
  returns (feed slot sizes []) w (fun _ w' => exists c', change w w' (<[slot := c']> (ws_clients (w_server w))) (messages w (c_id c) fs) /\
    holds c' rest /\ c_id c' = c_id c /\ c_fd c' = c_fd c /\ c_handshaked c' = true).
Proof.
  intros Hc Hh Hs Hl E. unfold frames in E. cbn [read_frames] in E. rewrite Hl in E. injection E as <- <-.
  assert (feed slot sizes [] = mret tt) as -> by (by destruct sizes). apply returns_ret. exists c.
  rewrite list_insert_id by done. split; [apply change_refl|]. by split.
Qed.

Lemma feed_frames sizes slot c l stream w fs rest : sends_only -> ws_clients (w_server w) !! slot = Some c -> holds c l -> 4096 <= c_cap c -> c_handshaked c = true ->
  next_frame l = NeedMore -> bytes_ok (l ++ stream) -> zlen (l ++ stream) <= 2 ^ 61 -> Forall (fun n => 0 < n)%nat sizes -> (length stream <= length sizes)%nat ->
  frames (l ++ stream) = Some (fs, rest, true) ->
  returns (feed slot sizes stream) w (fun _ w' => exists c', change w w' (<[slot := c']> (ws_clients (w_server w))) (messages w (c_id c) fs) /\
    holds c' rest /\ c_id c' = c_id c /\ c_fd c' = c_fd c /\ c_handshaked c' = true).
Proof.
  intros Hso. revert c l stream w fs. induction sizes as [|n sizes IH]; intros c l stream w fs Hc Hh Hcap Hs Hl Hok Hz Hps Hlen E.
  - destruct stream; [|cbn in Hlen; lia]. apply (feed_done [] slot c l w fs rest); by rewrite app_nil_r in E.
  - apply Forall_cons_1 in Hps as [Hn Hps]. destruct stream as [|x stream']; [apply (feed_done (n :: sizes) slot c l w fs rest); by rewrite app_nil_r in E|]. cbn [feed].
    set (stream := x :: stream') in *. assert (stream <> []) as Hne by done. clearbody stream. pose proof (holds_contents _ _ Hh) as Hct.
    assert (in_use c) as Hu by (split; [apply Hh|]; split; [done|]; left; by rewrite Hct).
    destruct (grow_ok c Hu) as [c1 Eg].
    { destruct Hh as (_ & -> & _). rewrite zlen_app in Hz. pose proof (zlen_nonneg stream). lia. }
    apply returns_bind, (returns_client slot c); [done|]. rewrite Eg. destruct (ws_grow_spec _ _ _ Hu Eg) as (_ & _ & _ & _ & Hh1 & Hroom).
    assert (c_len c1 = c_len c) as Hlc by (rewrite (proj1 (proj2 Hh1)), Hct; symmetry; apply Hh).
    set (m := Nat.min n _). assert (0 < m)%nat as Hm by lia. assert (m <= Z.to_nat (c_cap c1 - c_len c1))%nat as Hm2 by lia. clearbody m.
    set (p := take m stream) in *. set (more := drop m stream) in *. assert (stream = p ++ more) as Est by (symmetry; apply take_drop).
    assert (p <> []) as Hpne by (subst p; destruct stream; [done|]; by destruct m; [lia|]). assert (length more <= length sizes)%nat as Hlen' by (subst more; rewrite length_drop; cbn in Hlen; lia).
    assert (length p <= m)%nat as Hlp by (subst p; rewrite length_take; lia). rewrite Est, app_assoc in *. clearbody p more. pose proof Hok as [Hokp Hokr]%bytes_ok_app.
    apply returns_bind, (client_ready_received slot true p c c1); [done..|by apply bytes_ok_app in Hokp as [_ ?]|done|].
    intros w1 c2 k Hi2 Hf2 Hs2 Hcap2 Hk Hh2 C1. rewrite (take_ge p) in * by lia. rewrite Hct in *.
    destruct (frames (l ++ p)) as [[[fs1 rest1] still1]|] eqn:E1; [|by rewrite frames_none in E]. rewrite (frames_app _ _ _ _ _ Hok E1) in E. destruct still1; [|done].
    destruct (frames (rest1 ++ more)) as [[[fs2 rest2] still2]|] eqn:E2; [|done]. injection E as <- -> ->.
    eapply returns_mono; [eapply (process_frames _ slot c2 (l ++ p) w1); [rewrite (proj1 C1); apply list_lookup_insert_eq; by eapply lookup_lt_Some|by rewrite Hs2|exact Hh2|exact E1]|].
    cbn beta. intros _ w2 (pre & (b & Hh3 & C2) & _ & Hpre). rewrite (proj1 C1), list_insert_insert_eq in C2. pose proof (change_trans0 _ _ _ _ _ _ C1 C2) as C.
    destruct (read_frames_rest _ _ _ _ _ E1) as [j Ej]. assert (zlen rest1 <= zlen (l ++ p)) as Hr1 by (rewrite Ej; unfold zlen; rewrite length_drop; lia).
    eapply returns_mono; [eapply (IH (with_buf c2 (Some b) (zlen rest1) (c_cap c2)) rest1 more w2 fs2)|].
    + rewrite (proj1 C). apply list_lookup_insert_eq. by eapply lookup_lt_Some.
    + done.
    + done.
    + cbn. by rewrite Hs2.
    + by eapply read_frames_last.
    + apply bytes_ok_app. split; [rewrite Ej; by apply Forall_drop|done].
    + rewrite zlen_app. rewrite (zlen_app (l ++ p)) in Hz. lia.
    + done.
    + done.
    + done.
    + cbn beta. intros _ w3 (c' & C3 & Hh' & Hi' & Hf' & Hs'). exists c'. rewrite (proj1 C), list_insert_insert_eq in C3. cbn [with_buf c_id c_fd] in *. rewrite Hi2, Hf2 in *.
      split; [|done]. pose proof (change_trans _ _ _ _ _ _ _ C C3) as CC. rewrite Hpre in CC by done.
      rewrite (handlers_messages w w1) in CC by (by apply C1). rewrite (handlers_messages w w2) in CC by (by apply C).
      unfold messages in *. by rewrite map_app, concat_app.
Qed.

(** ** The server's promises *)

(** C31. Whatever the clients send and however it is cut, every call of the application and
    every round of the thread comes to an end without touching memory that is not its own,
    from any state a server gets to; the other threads and the callbacks may send and change
    the callbacks meanwhile. Three things are excluded: a frame whose length, with its header,
    reaches 2^64 ([huge_frame_faults]); 2^31 - 1 or more clients accepted so far; a stop
    called from a callback ([stop_in_callback_faults]). *)
Theorem ws_never_faults w op : ws_reach w -> op_ok w op -> exists w', run_op op w = Done (tt, w').
Proof. intros Hr%ws_reach_inv Hok. destruct (op_inv w op Hr Hok) as ([] & w' & E & _). by exists w'. Qed.

(** C33. For each client number the callbacks come in order: at most one [on_connect], then
    messages, then at most one [on_disconnect], after which the number is not used any more;
    the clients that are there have numbers of their own. It holds in every state that calls
    and rounds lead to under the conditions of [ws_never_faults]: no frame's length reached
    2^64, fewer than 2^31 - 1 clients were accepted, and no callback stopped the server. *)
Theorem ws_callbacks_ordered w : ws_reach w ->
  (forall id, closed_seq id (of_id id (w_actions w))) /\
  (forall i c, ws_clients (w_server w) !! i = Some c -> 0 <= c_fd c -> open_seq (c_id c) (of_id (c_id c) (w_actions w))) /\
  (forall i j ci cj, ws_clients (w_server w) !! i = Some ci -> ws_clients (w_server w) !! j = Some cj -> 0 <= c_fd ci -> 0 <= c_fd cj -> c_id ci = c_id cj -> i = j).
Proof.
  intros I%ws_reach_inv. split; [exact (wi_seq _ I)|]. split; [|exact (wi_ids _ I)]. intros i c Hc Hf. by apply (wi_open _ I i c).
Qed.

(** C32. The frames of a client that has shaken hands, masked or not and of any length,
    however [recv] cuts them: the text frames are given to [on_message] one after the other,
    each without its mask, and nothing else is. No close frame is among them, all together
    have at most 2^61 bytes, the memory to grow the buffer is there, and the other threads
    only send meanwhile. *)
Theorem ws_frames_delivered slot c fs sizes w : sends_only -> ws_clients (w_server w) !! slot = Some c -> holds c [] -> 4096 <= c_cap c -> c_handshaked c = true ->
  Forall frame_ok fs -> Forall (fun f => f.1.1 mod 16 <> 8) fs ->
  let stream := concat (map frame_of fs) in
  bytes_ok stream -> zlen stream <= 2 ^ 61 -> Forall (fun n => 0 < n)%nat sizes -> (length stream <= length sizes)%nat ->
  exists w' c' tr, feed slot sizes stream w = Done (tt, w') /\ w_actions w' = w_actions w ++ tr /\
    callbacks tr = concat (map (fun f => if f.1.1 mod 16 =? 1 then
      match ws_on_message (w_server w) with Some cb => [OnMessage cb (ws_user_data (w_server w)) (c_id c) f.2] | None => [] end else []) fs) /\
    ws_clients (w_server w') = <[slot := c']> (ws_clients (w_server w)) /\ holds c' [] /\ c_id c' = c_id c.
Proof.
  intros Hso Hc Hh Hcap Hs Hf H8 stream Hok Hz Hps Hlen.
  destruct (feed_frames sizes slot c [] stream w (map (fun f => (f.1.1 mod 16, f.2)) fs) []) as ([] & w' & Ew & c' & (Ec & _ & (tr & Ha & Ht) & _) & Hh' & Hi & _); try done.
  { by apply frames_of. }
  exists w', c', tr. split; [done|]. split; [done|]. split; [|done]. rewrite Ht. unfold messages. by rewrite map_map.
Qed.

Lemma send_header_frame n : 0 <= n <= 2 ^ 61 -> send_header n = frame_header 129 0 n.
Proof.
  clear no_stop window garbage d send_answer.
  intros Hn. unfold send_header, frame_header. destruct (Z.leb_spec n 125); [by rewrite u8_small by lia|]. destruct (Z.leb_spec n 65535).
  - rewrite !(land_ones_mod _ 8 255), (shiftr_div n 8 256) by (done || lia). change (2 ^ 8) with 256. rewrite (Z.mod_small (n / 256)); [done|]. cint.
  - f_equal. cbn [seq map Fips.be]. rewrite !(land_ones_mod _ 8 255), !Z.shiftr_div_pow2 by (done || lia). reflexivity.
Qed.

Lemma send_eq fd data w : send send_answer fd data w =
  Done (send_answer (w_sends w) (zlen data), mk_ws (w_server w) (w_actions w ++ sent w fd data) (S (w_sends w)) (w_windows w)).
Proof. unfold send, sent. destruct (_ <? 0); [by rewrite app_nil_r|done]. Qed.

(** [zst_ws_send] to a number that no client has does nothing; otherwise the header and
    the data go out in this order, the answer is [ZST_OK] exactly when the connection took
    all of both, and the bytes are then one text frame. *)
Theorem ws_send_text id data w : bytes_ok data -> zlen data <= 2 ^ 61 ->
  let fd := find_client id (ws_clients (w_server w)) in
  let h := send_header (zlen data) in
  (fd < 0 -> zst_ws_send send_answer id data w = Done (ZST_ERROR, w)) /\
  (0 <= fd -> exists r w', zst_ws_send send_answer id data w = Done (r, w') /\ w_server w' = w_server w /\
     (r = ZST_OK \/ r = ZST_ERROR) /\
     (r = ZST_OK <-> send_answer (w_sends w) (zlen h) = zlen h /\ send_answer (S (w_sends w)) (zlen data) = zlen data) /\
     (r = ZST_OK -> w_actions w' = w_actions w ++ [Sends fd h; Sends fd data] /\
        frames (h ++ data) = Some ([(1, data)], [], true))).
Proof.
  clear no_stop window garbage d.
  intros Hok Hz fd h. pose proof (zlen_nonneg data). split; intros Hfd.
  - unfold zst_ws_send, server. unfold mbind, W_bind. fold fd. by destruct (Z.ltb_spec fd 0); [|lia].
  - set (r1 := send_answer (w_sends w) (zlen h)). set (r2 := send_answer (S (w_sends w)) (zlen data)).
    assert (0 <= zlen h) by apply zlen_nonneg.
    eexists _, _. split.
    { unfold zst_ws_send, server. unfold mbind, W_bind. fold fd. destruct (Z.ltb_spec fd 0); [lia|]. rewrite send_eq. cbv beta iota. rewrite send_eq. reflexivity. }
    cbn [w_server w_actions w_sends]. fold h r1. unfold sent. cbn [w_server w_actions w_sends]. fold h r1 r2.
    split; [done|]. split; [destruct (_ || _); auto|]. split.
    + destruct (Z.eqb_spec r1 (zlen h)), (Z.eqb_spec r2 (zlen data)); cbn; split; try done; intros [? ?]; congruence.
    + destruct (Z.eqb_spec r1 (zlen h)) as [->|]; [|done]. destruct (Z.eqb_spec r2 (zlen data)) as [->|]; [|done]. intros _.
      destruct (Z.ltb_spec (zlen h) 0); [lia|]. destruct (Z.ltb_spec (zlen data) 0); [lia|]. rewrite !take_ge by (unfold zlen; lia). split; [by rewrite <- app_assoc|].
      assert (h ++ data = concat (map frame_of [(129, None, data)])) as ->.
      { cbn [map concat frame_of]. rewrite app_nil_r. unfold h. by rewrite send_header_frame by lia. }
      rewrite frames_of; [done| |by repeat constructor]. constructor; [|constructor]. split; [done|]. by split.
Qed.

(** ** The answer to a handshake *)

Lemma bytes_until set l : bytes_ok l -> bytes_ok (until_any set l).
Proof. induction 1 as [|b l Hb Hl IH]; cbn [until_any]; [constructor|]. destruct (existsb _ set); [constructor|]. by constructor. Qed.
Lemma bytes_skip set l : bytes_ok l -> bytes_ok (skip_any set l).
Proof. induction 1 as [|b l Hb Hl IH]; cbn [skip_any]; [constructor|]. destruct (existsb _ set); [done|]. by constructor. Qed.
Lemma bytes_c_string l : bytes_ok l -> bytes_ok (c_string l).
Proof. induction 1 as [|b l Hb Hl IH]; cbn [c_string]; [constructor|]. destruct (b =? 0); [constructor|]. by constructor. Qed.

Lemma handshake_key l key len : bytes_ok l -> handshake l = ReqKey key len -> bytes_ok key /\ zlen key < 128.
Proof.
  intros Hok. unfold handshake. destruct (find_text crlf2 _) as [e|]; [|done]. destruct (find_text key_header _) as [k|]; [|done].
  destruct (Z.leb_spec 128 (zlen (until_any [13; 10] (skip_any [32; 9] (drop (k + 18) (c_string l)))))); [done|]. intros [= <- _].
  split; [|done]. apply bytes_until, bytes_skip. by apply Forall_drop, bytes_c_string.
Qed.

(** *** A request, as RFC 6455 lays it out: lines that end in CR LF, an empty one last; one
    of them has the key, and the ones before it do not mention it *)

Definition line_ok (l : bytes) : Prop := l <> [] /\ bytes_ok l /\ 0 ∉ l /\ 13 ∉ l /\ 10 ∉ l.
Definition lines (ls : list bytes) : bytes := concat (map (fun l => l ++ [13; 10]) ls).
Definition key_name : bytes := text "Sec-WebSocket-Key:".
Definition request_of (before : list bytes) (blanks key : bytes) (after : list bytes) : bytes :=
  lines (before ++ [key_name ++ blanks ++ key] ++ after) ++ [13; 10].
Definition request_ok (before : list bytes) (blanks key : bytes) (after : list bytes) : Prop :=
  Forall line_ok before /\ Forall line_ok after /\ Forall (fun l => forall x y, l <> x ++ key_name ++ y) before /\
  Forall (fun b => b = 32 \/ b = 9) blanks /\ line_ok key /\ head key <> Some 32 /\ head key <> Some 9 /\ zlen key < 128.

Lemma find_text_skip p a l : (forall m, (m < length a)%nat -> begins p (drop m (a ++ l)) = false) -> find_text p (a ++ l) = Nat.add (length a) <$> find_text p l.
Proof.
  induction a as [|x a IH]; intros H; cbn [app find_text length].
  - by destruct (find_text p l).
  - pose proof (H 0%nat ltac:(cbn; lia)) as H0. cbn [drop app] in H0. rewrite H0, IH; [by destruct (find_text p l)|]. intros m Hm. apply (H (S m)). cbn. lia.
Qed.
Lemma find_text_here p l : begins p l = true -> find_text p l = Some 0%nat.
Proof. intros H. by destruct l; cbn [find_text]; rewrite H. Qed.

(** What begins before [x] and does not have it ends before it. *)
Lemma begins_stop p a x s : x ∉ p -> begins p (a ++ x :: s) = true -> exists y, a = p ++ y.
Proof.
  revert a. induction p as [|b p IH]; intros a Hx Hb; [by exists a|]. apply not_elem_of_cons in Hx as [Hx Hp]. destruct a as [|c a]; cbn [app begins] in Hb.
  - apply andb_true_iff in Hb as [->%Z.eqb_eq _]. done.
  - apply andb_true_iff in Hb as [->%Z.eqb_eq Hb]. destruct (IH a Hp Hb) as [y ->]. by exists y.
Qed.

Lemma begins_head p b l : begins (b :: p) l = true -> head l = Some b.
Proof. destruct l as [|c l]; [done|]. cbn. by intros [->%Z.eqb_eq _]%andb_true_iff. Qed.

(** The blank line is not found inside a line, nor the key in a line without it. *)
Lemma blank_in_line l s : 13 ∉ l -> find_text crlf2 (l ++ s) = Nat.add (length l) <$> find_text crlf2 s.
Proof.
  intros H13. apply find_text_skip. intros m Hm. destruct (begins crlf2 _) eqn:E; [|done]. exfalso. rewrite drop_app_le in E by lia. apply begins_head in E.
  destruct (drop m l) as [|b r] eqn:Er; [apply (f_equal length) in Er; rewrite length_drop in Er; cbn in Er; lia|].
  injection E as ->. apply H13. rewrite <- (take_drop m l), Er. apply elem_of_app. right. left.
Qed.
Lemma key_skips l s : (forall x y, l <> x ++ key_name ++ y) -> find_text key_name (l ++ [13; 10] ++ s) = Nat.add (length (l ++ [13; 10])) <$> find_text key_name s.
Proof.
  intros Hk. rewrite app_assoc. apply find_text_skip. intros m Hm. rewrite length_app in Hm. cbn [length] in Hm. rewrite <- app_assoc.
  destruct (begins key_name _) eqn:E; [|done]. exfalso. destruct (Nat.le_gt_cases m (length l)).
  - rewrite drop_app_le in E by lia. apply begins_stop in E as [y Ey]; [|by apply (bool_decide_unpack _)]. apply (Hk (take m l) y). by rewrite <- Ey, take_drop.
  - rewrite drop_app_ge in E by lia. replace (m - length l)%nat with 1%nat in E by lia. by apply begins_head in E.
Qed.

Lemma blank_found ls s : ls <> [] -> Forall line_ok ls -> find_text crlf2 (lines ls ++ [13; 10] ++ s) = Some (length (lines ls) - 2)%nat.
Proof.
  intros Hne Hok. induction ls as [|l ls IH]; [done|]. clear Hne. apply Forall_cons_1 in Hok as [(_ & _ & _ & H13 & _) Hok]. unfold lines in *. cbn [map concat].
  rewrite <- !app_assoc, blank_in_line by done. destruct ls as [|l2 ls].
  - cbn [map concat app]. rewrite find_text_here by done. cbn. rewrite length_app. cbn. f_equal. lia.
  - specialize (IH ltac:(done) Hok). apply Forall_cons_1 in Hok as [(Hne2 & _ & _ & H132 & _) _]. cbn [map concat] in *. destruct l2 as [|b l2]; [done|]. apply not_elem_of_cons in H132 as [Hb _]. rewrite <- !app_assoc in IH |- *.
    assert (forall r, find_text crlf2 ([13; 10] ++ (b :: l2) ++ r) = Nat.add 2 <$> find_text crlf2 ((b :: l2) ++ r)) as ->.
    { intros r. apply find_text_skip. intros [|[|m]] Hm; [|done|cbn in Hm; lia]. unfold crlf2. cbn [drop app begins]. by rewrite !Z.eqb_refl, (proj2 (Z.eqb_neq 13 b)). }
    rewrite IH. cbn [fmap option_fmap option_map]. f_equal. rewrite !length_app. cbn [length]. lia.
Qed.

Lemma key_found before rest s : Forall (fun l => forall x y, l <> x ++ key_name ++ y) before ->
  find_text key_name (lines (before ++ [key_name ++ rest]) ++ s) = Some (length (lines before)).
Proof.
  unfold lines. induction 1 as [|l ls Hl _ IH]; cbn [map concat app].
  - rewrite <- !app_assoc. by apply find_text_here.
  - rewrite <- !app_assoc, key_skips by done. cbn [app] in IH |- *. rewrite IH. cbn [fmap option_fmap option_map]. f_equal. rewrite !length_app. cbn [length]. lia.
Qed.

Lemma c_string_app l s : 0 ∉ l -> c_string (l ++ s) = l ++ c_string s.
Proof. induction l as [|b l IH]; [done|]. intros [H0 H]%not_elem_of_cons. cbn [app c_string]. rewrite (proj2 (Z.eqb_neq b 0)) by done. by rewrite IH. Qed.
Lemma skip_blanks ws l : Forall (fun b => b = 32 \/ b = 9) ws -> head l <> Some 32 -> head l <> Some 9 -> skip_any [32; 9] (ws ++ l) = l.
Proof.
  intros Hw H1 H2. induction Hw as [|b ws Hb _ IH]; cbn [app].
  - destruct l as [|b l]; [done|]. cbn [skip_any existsb]. cbn [head] in *. rewrite (proj2 (Z.eqb_neq b 32)), (proj2 (Z.eqb_neq b 9)) by congruence. done.
  - cbn [skip_any]. destruct Hb as [-> | ->]; exact IH.
Qed.
Lemma until_line l s : 13 ∉ l -> 10 ∉ l -> until_any [13; 10] (l ++ 13 :: s) = l.
Proof.
  induction l as [|b l IH]; [done|]. intros [H1 H1']%not_elem_of_cons [H2 H2']%not_elem_of_cons. cbn [app until_any existsb].
  rewrite (proj2 (Z.eqb_neq b 13)), (proj2 (Z.eqb_neq b 10)) by congruence. cbn [orb]. by rewrite IH.
Qed.

Lemma lines_app a b : lines (a ++ b) = lines a ++ lines b.
Proof. unfold lines. by rewrite map_app, concat_app. Qed.
Lemma lines_bytes ls : Forall line_ok ls -> bytes_ok (lines ls) /\ 0 ∉ lines ls.
Proof.
  unfold lines. induction 1 as [|l ls (_ & Hb & H0 & _) _ [IH1 IH2]]; cbn [map concat]; [split; [constructor|by apply not_elem_of_nil]|].
  rewrite bytes_ok_app, !not_elem_of_app. split; [split; [|done]|split; [split; [done|]|done]].
  - apply bytes_ok_app. split; [done|]. by repeat constructor.
  - by apply (bool_decide_unpack _).
Qed.

Lemma key_line_ok blanks key : Forall (fun b => b = 32 \/ b = 9) blanks -> line_ok key -> line_ok (key_name ++ blanks ++ key).
Proof.
  intros Hb (_ & Hk & H0 & H13 & H10).
  assert (forall x, x <> 32 -> x <> 9 -> x ∉ blanks) as Hn by (intros x H1 H2 Hx; rewrite Forall_forall in Hb; by destruct (Hb x Hx)).
  split; [done|]. split.
  - apply bytes_ok_app. split; [by repeat constructor|]. apply bytes_ok_app. split; [|done]. eapply Forall_impl; [exact Hb|]. intros x [-> | ->]; by split.
  - rewrite !not_elem_of_app. repeat split; first [assumption | apply Hn; lia | by apply (bool_decide_unpack _)].
Qed.

(** The code finds the key of a request, and its end. *)
Lemma handshake_request before blanks key after more : request_ok before blanks key after ->
  bytes_ok (request_of before blanks key after) /\ handshake (request_of before blanks key after ++ more) = ReqKey key (zlen (request_of before blanks key after)).
Proof.
  clear no_stop window garbage d send_answer.
  intros (Hbf & Haf & Hno & Hbl & Hk & H32 & H9 & Hz). pose proof (key_line_ok _ _ Hbl Hk) as Hkl. unfold request_of. set (ls := before ++ _ ++ after).
  assert (Forall line_ok ls) as Hls by (apply Forall_app; split; [done|]; by constructor). destruct (lines_bytes ls Hls) as [Hlb Hl0].
  split; [apply bytes_ok_app; split; [done|]; by repeat constructor|]. unfold handshake.
  rewrite c_string_app by (rewrite not_elem_of_app; split; [done|]; by apply (bool_decide_unpack _)). set (s := c_string more). rewrite <- app_assoc.
  rewrite blank_found by (done || by destruct before).
  assert (lines ls = lines (before ++ [key_name ++ blanks ++ key]) ++ lines after) as El by (subst ls; by rewrite app_assoc, lines_app).
  change key_header with key_name. rewrite El, <- app_assoc, key_found by done. cbv zeta.
  assert (drop (length (lines before) + 18) (lines (before ++ [key_name ++ blanks ++ key]) ++ lines after ++ [13; 10] ++ s) = blanks ++ key ++ 13 :: [10] ++ lines after ++ [13; 10] ++ s) as ->.
  { rewrite lines_app, <- app_assoc, <- drop_drop, drop_app_length'; [|done]. unfold lines at 1. cbn [map concat]. rewrite app_nil_r, <- !app_assoc. by rewrite drop_app_length'. }
  rewrite skip_blanks by (try done; by destruct key; [destruct (proj1 Hk)|]). rewrite until_line by apply Hk.
  destruct (Z.leb_spec 128 (zlen key)); [lia|]. f_equal. rewrite <- El. rewrite zlen_app. change (zlen [13; 10]) with 2. unfold zlen.
  assert (2 <= length (lines ls))%nat; [|lia]. rewrite El, lines_app, !length_app. unfold lines at 2. cbn [map concat]. rewrite !length_app. cbn [length]. lia.
Qed.

Definition switching (accept : bytes) : bytes :=
  text "HTTP/1.1 101 Switching Protocols" ++ [13; 10] ++ text "Upgrade: websocket" ++ [13; 10] ++
  text "Connection: Upgrade" ++ [13; 10] ++ text "Sec-WebSocket-Accept: " ++ accept ++ [13; 10; 13; 10].

(** RFC 6455, 4.2.2: the key and a fixed text, hashed, in Base64. *)
Definition accept_value (key : bytes) : bytes := Rfc4648.base64 (Fips.sha1 (key ++ text "258EAFA5-E914-47DA-95CA-C5AB0DC85B11")).

Lemma response_all key : bytes_ok key -> zlen key < 128 -> response (accept_of key) = switching (accept_value key).
Proof.
  intros Hok Hl. unfold accept_of, accept_value, printed. change (text "258EAFA5-E914-47DA-95CA-C5AB0DC85B11") with ws_guid.
  assert (bytes_ok ws_guid) as Hg by (by repeat constructor). assert (length ws_guid = 36%nat) as Hgl by done.
  rewrite take_ge by (rewrite length_app, Hgl; unfold zlen in Hl; lia).
  rewrite sha1_fips by (try (by apply bytes_ok_app); rewrite zlen_app; unfold zlen in *; rewrite Hgl; lia).
  assert (bytes_ok (Fips.sha1 (key ++ ws_guid)) /\ zlen (Fips.sha1 (key ++ ws_guid)) = 20) as [Hso Hsl].
  { unfold Fips.sha1. set (h := Fips.hash_blocks _ _ _). destruct (bytes_be 4 (Sha1.ra h)), (bytes_be 4 (Sha1.rb h)), (bytes_be 4 (Sha1.rc h)), (bytes_be 4 (Sha1.rd_ h)), (bytes_be 4 (Sha1.re h)).
    split; [by repeat (apply bytes_ok_app; split)|]. unfold zlen. rewrite !length_app. lia. }
  set (sha := Fips.sha1 _) in *. clearbody sha. rewrite <- Hsl, base64_rfc by (try done; rewrite Hsl; by compute).
  unfold response, printed. fold (switching (Rfc4648.base64 sha)). apply take_ge.
  assert (length (Rfc4648.base64 sha) = 28%nat) as Hb by (pose proof (zlen_encoded sha) as Hz; rewrite Hsl, encoded_rfc in Hz by done; change (4 * ((20 + 2) / 3)) with 28 in Hz; unfold zlen in Hz; lia).
  unfold switching. rewrite !length_app, Hb. vm_compute. lia.
Qed.

Lemma request_served idx c l key len fs rest w : ws_clients (w_server w) !! idx = Some c -> c_handshaked c = false -> holds c l -> 4096 <= c_cap c ->
  handshake l = ReqKey key len -> frames (drop (Z.to_nat len) l) = Some (fs, rest, true) ->
  exists w' c' tr, process_client_rx send_answer window depth (S (length l)) idx w = Done (tt, w') /\ w_actions w' = w_actions w ++ tr /\
    ((forall n k, send_answer n k = k) -> exists tr', tr = Sends (c_fd c) (switching (accept_value key)) :: tr') /\
    (sends_only -> callbacks tr = connected w (c_id c) ++ messages w (c_id c) fs) /\
    ws_clients (w_server w') = <[idx := c']> (ws_clients (w_server w)) /\ c_handshaked c' = true /\ c_id c' = c_id c /\ holds c' rest.
Proof.
  intros Hc Hs Hh Hcap Eh Ef. pose proof Hh as (Hfd & _ & _ & Hok & _). destruct (handshake_length _ _ _ Eh) as [Hl1 Hl2].
  enough (returns (process_client_rx send_answer window depth (S (length l)) idx) w (fun _ w' => exists c' tr, w_actions w' = w_actions w ++ tr /\
    ((forall n k, send_answer n k = k) -> exists tr', tr = Sends (c_fd c) (switching (accept_value key)) :: tr') /\
    (sends_only -> callbacks tr = connected w (c_id c) ++ messages w (c_id c) fs) /\
    ws_clients (w_server w') = <[idx := c']> (ws_clients (w_server w)) /\ c_handshaked c' = true /\ c_id c' = c_id c /\ holds c' rest))
    as ([] & w' & E & c' & tr & H) by (by exists w', c', tr).
  cbn [process_client_rx]. apply returns_bind, (returns_client idx c); [done|]. rewrite (proj2 (Z.leb_le 0 (c_fd c)) Hfd), Hs.
  apply returns_bind. eapply returns_mono; [by apply handshake_round_spec|]. cbn beta. rewrite Eh. intros more w1 (-> & b & Hh1 & C1 & tr0 & Ha1).
  set (c1 := handshaken _) in *. set (l1 := drop (Z.to_nat len) l) in *. assert (bytes_ok l1) as Hok1 by (by apply Forall_drop).
  eapply returns_mono; [eapply (process_frames (length l) idx c1 l1 w1); [rewrite (proj1 C1); apply list_lookup_insert_eq; by eapply lookup_lt_Some|done|exact Hh1|]|].
  { rewrite <- Ef. apply read_frames_rounds; [subst l1; rewrite length_drop; unfold zlen in *; lia|lia|done]. }
  cbn beta. intros _ w2 (pre & (b2 & Hh2 & C2) & _ & Hpre). rewrite (proj1 C1), list_insert_insert_eq in C2. pose proof (change_trans _ _ _ _ _ _ _ C1 C2) as C.
  pose proof C as (Ec & _ & (tr & Ha & Ht) & _). destruct C2 as (_ & _ & (tr2 & Ha2 & _) & _).
  eexists _, tr. split; [done|]. split.
  { intros Hall. exists (tr0 ++ tr2). rewrite Ha1, <- !app_assoc in Ha2. rewrite Ha2 in Ha. apply app_inv_head in Ha. rewrite <- Ha.
    destruct (handshake_key _ _ _ Hok Eh) as [Hk1 Hk2]. unfold sent. rewrite Hall, response_all by done. set (m := switching _).
    destruct (Z.ltb_spec (zlen m) 0); [pose proof (zlen_nonneg m); lia|]. rewrite take_ge by (unfold zlen; lia). done. }
  split; [|by split].
  intros Hso. rewrite Ht, Hpre by done. f_equal. apply handlers_messages. by apply C1.
Qed.

(** C34. A request of RFC 6455, there as a whole, and whatever frames follow it at once, no
    close frame among them: if the connection takes all that is sent, the first that goes out
    is the answer with the key's accept value as the RFC defines it; if the other threads only
    send meanwhile, the callbacks are [on_connect] and those of the frames; the client has
    then shaken hands, and what is left over waits for more. The key has less than 128 bytes,
    the name of its line is spelled as in the RFC, and the lines before it do not mention it.
    *)
Theorem ws_handshake idx c before blanks key after more fs rest w : ws_clients (w_server w) !! idx = Some c -> c_handshaked c = false -> 4096 <= c_cap c ->
  let l := request_of before blanks key after ++ more in
  request_ok before blanks key after -> holds c l -> frames more = Some (fs, rest, true) ->
  exists w' c' tr, process_client_rx send_answer window depth (S (length l)) idx w = Done (tt, w') /\ w_actions w' = w_actions w ++ tr /\
    ((forall n k, send_answer n k = k) -> exists tr', tr = Sends (c_fd c) (switching (accept_value key)) :: tr') /\
    (sends_only -> callbacks tr = connected w (c_id c) ++ messages w (c_id c) fs) /\
    ws_clients (w_server w') = <[idx := c']> (ws_clients (w_server w)) /\ c_handshaked c' = true /\ c_id c' = c_id c /\ holds c' rest.
Proof.
  intros Hc Hs Hcap l Hreq Hh Ef. destruct (handshake_request _ _ _ _ more Hreq) as [_ Eh]. fold l in Eh.
  apply (request_served idx c l key (zlen (request_of before blanks key after)) fs rest w); [done..|].
  subst l. rewrite drop_app_length' by (unfold zlen; lia). done.
Qed.

(** After [zst_ws_server_stop] no client is left and nothing listens. *)
Theorem ws_stop_empties w p : ws_reach w -> ws_running (w_server w) = true -> match p with Some p => round_ok w p | None => True end ->
  exists w', zst_ws_server_stop send_answer window depth (joining send_answer window garbage depth p) w = Done (ZST_OK, w') /\
    ws_clients (w_server w') = repeat no_client MAX_CLIENTS /\ ws_listen_fd (w_server w') < 0.
Proof.
  intros Hi%ws_reach_inv Hrun Hok.
  enough (returns (zst_ws_server_stop send_answer window depth (joining send_answer window garbage depth p)) w (fun r w' => r = ZST_OK /\
    ws_clients (w_server w') = repeat no_client MAX_CLIENTS /\ ws_listen_fd (w_server w') < 0)) as (r & w' & E & -> & H) by (by exists w').
  unfold zst_ws_server_stop. apply returns_bind, returns_server. rewrite Hrun.
  apply returns_bind. eexists tt, _. split; [reflexivity|]. set (w1 := mk_ws _ _ _ _). assert (ws_inv w1) as Hi1 by (by apply inv_listen).
  apply returns_bind. eapply returns_mono with (Q := fun _ w2 => ws_inv w2).
  { destruct p as [p|]; [|by apply returns_ret]. cbn [joining]. apply returns_bind. eapply returns_mono; [by apply (round_inv p w1)|]. intros b w2 Hi2. by apply returns_ret. }
  intros _ w2 Hi2. apply returns_bind. eapply returns_mono; [by apply stop_inv|]. cbn beta. intros _ w3 [_ H3]. by apply returns_ret.
Qed.
End spec.
