(* ===== verification/WsServerEx.v ===== *)
(** * The WebSocket server on an example, and what it gets wrong

    One client connects, shakes hands with the key of RFC 6455, and sends frames. *)

From Stdlib Require Import String Ascii.
From S2P Require Import Prelude CLib Sha1 Sha1Spec WsServer WsServerSpec.

Local Open Scope Z_scope.

Definition all_sent (n : nat) (len : Z) : Z := len.
Definition no_calls (n : nat) : list api_call := [].
Definition noise (n : nat) : Z := 170.

Lemma calm : forall n, Forall stop_free (no_calls n).
Proof. constructor. Qed.
Lemma calm_sends : sends_only no_calls.
Proof. constructor. Qed.

(** The state after a call that came to an end. *)
Definition next (op : ws_op) (w : ws_world) : ws_world :=
  match run_op all_sent no_calls noise 0 op w with Done (_, w) => w | _ => w end.

Definition has_frames (l : bytes) : bool := match frames l with Some _ => true | None => false end.
Definition no_wrap_check (handshaked : bool) (l : bytes) : bool :=
  if handshaked then has_frames l else match handshake l with ReqKey _ len => has_frames (drop (Z.to_nat len) l) | _ => true end.
Definition never_wraps_check (handshaked : bool) (l : bytes) : bool :=
  forallb (fun j => no_wrap_check handshaked (take j l)) (seq 0 (S (length l))).
Lemma has_frames_ok l : has_frames l = true -> frames l <> None.
Proof. unfold has_frames. by destruct (frames l). Qed.
Lemma never_wraps_checked h l : never_wraps_check h l = true -> never_wraps h l.
Proof.
  intros H j. assert (no_wrap_check h (take j l) = true) as Hj.
  { unfold never_wraps_check in H. rewrite forallb_forall in H. destruct (Nat.le_gt_cases j (length l)); [apply H, in_seq; lia|].
    rewrite take_ge by lia. rewrite <- (firstn_all l). apply H, in_seq. lia. }
  unfold no_wrap_check in Hj. unfold no_wrap. destruct h; [by apply has_frames_ok|]. destruct (handshake _); [done..|by apply has_frames_ok].
Qed.

Definition arrives (data : bytes) : client_event := mk_event false true true (Received data).
Definition example_request : bytes :=
  text "GET /chat HTTP/1.1" ++ [13; 10] ++ text "Host: server.example.com" ++ [13; 10] ++ key_header ++ text " dGhlIHNhbXBsZSBub25jZQ==" ++ crlf2.
(** The text [Hi] with a mask, a ping, and a text of the server's own kind. *)
Definition example_frames : list (Z * option bytes * bytes) := [(129, Some [1; 2; 3; 4], text "Hi"); (137, Some [9; 9; 9; 9], []); (129, None, text "ok")].

Definition ws0 : ws_world := mk_ws (default (mk_server 0 0 false [] 0 None None None 0) (zst_ws_server_create true 8000)) [] 0 0.
Definition ws1 : ws_world := next (OpCallbacks (Some 1%nat) (Some 2%nat) (Some 3%nat) 7) ws0.
Definition ws2 : ws_world := next (OpStart 3 true true true) ws1.
Definition ws3 : ws_world := next (OpRound (PollReady (Some (5, true)) [])) ws2.
Definition ws4 : ws_world := next (OpRound (PollReady None [arrives example_request])) ws3.
Definition ws5 : ws_world := next (OpRound (PollReady None [arrives (concat (map frame_of example_frames))])) ws4.

Lemma step_reach w op : ws_reach all_sent no_calls noise 0 w -> op_ok w op ->
  match run_op all_sent no_calls noise 0 op w with Done _ => true | _ => false end = true -> ws_reach all_sent no_calls noise 0 (next op w).
Proof.
  intros Hr Hok H. apply (reach_op _ _ _ _ w op); [done|done|]. unfold next. by destruct (run_op _ _ _ _ op w) as [[[] w']| |].
Qed.

Definition line_okb (l : bytes) : bool :=
  negb (bool_decide (l = [])) && forallb (fun b => (0 <=? b) && (b <? 256) && negb ((b =? 0) || (b =? 13) || (b =? 10))) l.
Lemma line_ok_checked l : line_okb l = true -> line_ok l.
Proof.
  unfold line_okb. rewrite andb_true_iff, negb_true_iff, bool_decide_eq_false, forallb_forall. intros [Hne H].
  assert (forall b, b ∈ l -> 0 <= b < 256 /\ b <> 0 /\ b <> 13 /\ b <> 10) as Hb by (intros b Hin%list_elem_of_In; specialize (H b Hin); rewrite !andb_true_iff, negb_true_iff, !orb_false_iff, Z.leb_le, Z.ltb_lt, !Z.eqb_neq in H; tauto).
  split; [done|]. split; [apply Forall_forall; intros b Hin; apply Hb in Hin; unfold is_byte; lia|]. by repeat split; intros Hin; destruct (Hb _ Hin) as (_ & ? & ? & ?).
Qed.
(** A text that is not found at any place is no part of the line. *)
Lemma no_mention l : forallb (fun m => negb (begins key_name (drop m l))) (seq 0 (S (length l))) = true -> forall x y, l <> x ++ key_name ++ y.
Proof.
  intros H x y ->. rewrite forallb_forall in H. specialize (H (length x)). rewrite drop_app_length in H.
  assert (begins key_name (key_name ++ y) = true) as E by done. rewrite E in H. discriminate H. apply in_seq. rewrite length_app. lia.
Qed.

(** One client, on slot 0. *)
Lemma one_ready w data c : client_map (ws_clients (w_server w)) = [0%nat] -> ws_clients (w_server w) !! 0%nat = Some c -> bytes_ok data -> never_wraps_check (c_handshaked c) (contents c ++ data) = true ->
  op_ok w (OpRound (PollReady None [arrives data])).
Proof.
  intros Hm Hc Hd Hw. split; [done|]. rewrite Hm. intros k slot ev Hk He. destruct k as [|k]; [|done]. injection Hk as <-. injection He as <-.
  split; [done|]. intros c' Hc' _. rewrite Hc in Hc'. injection Hc' as <-. by apply never_wraps_checked.
Qed.

Definition client0 (w : ws_world) : ws_client_t := default no_client (ws_clients (w_server w) !! 0%nat).

Lemma ws3_reach : ws_reach all_sent no_calls noise 0 ws3.
Proof.
  apply step_reach; [apply step_reach; [apply step_reach; [by apply (reach_created _ _ _ _ 8000)|done|by vm_compute]|done|by vm_compute]| |by vm_compute].
  split; [by vm_compute|]. intros k slot ev Hk He. by destruct k.
Qed.
Lemma ws3_ready : op_ok ws3 (OpRound (PollReady None [arrives example_request])).
Proof. apply (one_ready _ _ (client0 ws3)); [by vm_compute|by vm_compute|vm_compute; by repeat constructor|by vm_compute]. Qed.
Lemma ws4_reach : ws_reach all_sent no_calls noise 0 ws4.
Proof. apply step_reach; [exact ws3_reach|exact ws3_ready|by vm_compute]. Qed.
Lemma ws4_ready : op_ok ws4 (OpRound (PollReady None [arrives (concat (map frame_of example_frames))])).
Proof. apply (one_ready _ _ (client0 ws4)); [by vm_compute|by vm_compute|vm_compute; by repeat constructor|by vm_compute]. Qed.
Lemma ws5_reach : ws_reach all_sent no_calls noise 0 ws5.
Proof. apply step_reach; [exact ws4_reach|exact ws4_ready|by vm_compute]. Qed.

(** What the client and the application saw. *)
Example ws5_actions : w_actions ws5 =
  [Sends 5 (switching (text "s3pPLMBiTxaQ9kYGzzhZRbK+xOo=")); OnConnect 1 7 1; OnMessage 2 7 1 (text "Hi"); Sends 5 [138; 0]; OnMessage 2 7 1 (text "ok")].
Proof. by vm_compute. Qed.

Lemma ws_never_faults_witness : exists w', run_op all_sent no_calls noise 0 (OpRound (PollReady None [arrives example_request])) ws3 = Done (tt, w').
Proof. apply (ws_never_faults all_sent no_calls noise 0 calm); [exact ws3_reach|exact ws3_ready]. Defined.

Lemma ws_callbacks_ordered_witness : closed_seq 1 [OnConnect 1 7 1; OnMessage 2 7 1 (text "Hi"); OnMessage 2 7 1 (text "ok")].
Proof.
  assert (of_id 1 (w_actions ws5) = [OnConnect 1 7 1; OnMessage 2 7 1 (text "Hi"); OnMessage 2 7 1 (text "ok")]) as <- by by vm_compute.
  exact (proj1 (ws_callbacks_ordered all_sent no_calls noise 0 calm ws5 ws5_reach) 1).
Defined.

(** The first client of a state, with nothing in its buffer. *)
Lemma holds_empty c : 0 <= c_fd c -> c_len c = 0 -> 0 <= c_cap c <= 2 ^ 62 -> match c_buf c with Some b => zlen b = c_cap c + 1 | None => False end -> holds c [].
Proof.
  intros Hf Hl Hc Hb. split; [done|]. split; [by rewrite Hl|]. split; [done|]. split; [constructor|]. destruct (c_buf c) as [b|]; [|done]. by exists b.
Qed.

Lemma ws_frames_delivered_witness : exists w' tr,
  feed all_sent no_calls noise 0 0 ([4; 3; 8]%nat ++ repeat 1%nat 20) (concat (map frame_of example_frames)) ws4 = Done (tt, w') /\
  callbacks tr = [OnMessage 2 7 1 (text "Hi"); OnMessage 2 7 1 (text "ok")].
Proof.
  destruct (ws_frames_delivered all_sent no_calls noise 0 calm 0 (client0 ws4) example_frames
    ([4; 3; 8]%nat ++ repeat 1%nat 20) ws4) as (w' & c' & tr & E & _ & Hcb & _).
  - exact calm_sends.
  - by vm_compute.
  - apply holds_empty; by vm_compute.
  - by vm_compute.
  - by vm_compute.
  - repeat constructor; by vm_compute.
  - repeat constructor; by vm_compute.
  - vm_compute; by repeat constructor.
  - by vm_compute.
  - repeat constructor.
  - vm_compute. lia.
  - exists w', tr. split; [exact E|]. rewrite Hcb. by vm_compute.
Defined.

Lemma ws_send_text_witness : exists w', zst_ws_send all_sent 1 (text "hello") ws4 = Done (ZST_OK, w') /\ w_actions w' = w_actions ws4 ++ [Sends 5 [129; 5]; Sends 5 (text "hello")].
Proof.
  destruct (ws_send_text all_sent 1 (text "hello") ws4) as [_ H]; [vm_compute; by repeat constructor|by vm_compute|].
  destruct H as (r & w' & E & _ & _ & Hr & Ha); [by vm_compute|]. assert (r = ZST_OK) as -> by (apply Hr; unfold all_sent; split; reflexivity). exists w'. split; [exact E|]. by rewrite (proj1 (Ha eq_refl)).
Defined.

Lemma example_request_ok : request_ok [text "GET /chat HTTP/1.1"; text "Host: server.example.com"] [32] (text "dGhlIHNhbXBsZSBub25jZQ==") [].
Proof.
  assert (Hl : forall l, line_okb l = true -> line_ok l) by apply line_ok_checked.
  split; [by repeat (constructor; [by apply Hl|])|]. split; [constructor|]. split.
  { repeat (constructor; [apply no_mention; by vm_compute|]). constructor. }
  split; [by repeat constructor; left|]. split; [by apply Hl|]. by repeat split.
Qed.

(** The request before it is looked at. *)
Definition waiting : ws_world :=
  let c := client0 ws3 in
  let buf := example_request ++ drop (length example_request) (default [] (c_buf c)) in
  mk_ws (with_clients (w_server ws3) (<[0%nat := with_buf c (Some buf) (zlen example_request) (c_cap c)]> (ws_clients (w_server ws3))) 2) (w_actions ws3) 0 0.

Lemma ws_handshake_witness : exists w' tr', process_client_rx all_sent no_calls 1 (S (length example_request)) 0 waiting = Done (tt, w') /\
  w_actions w' = w_actions waiting ++ Sends 5 (switching (text "s3pPLMBiTxaQ9kYGzzhZRbK+xOo=")) :: tr'.
Proof.
  destruct (ws_handshake all_sent no_calls 0 calm 0 (client0 waiting) [text "GET /chat HTTP/1.1"; text "Host: server.example.com"] [32] (text "dGhlIHNhbXBsZSBub25jZQ==") [] [] [] [] waiting)
    as (w' & c' & tr & E & Ha & Hs & _); [by vm_compute..|exact example_request_ok| |by vm_compute|].
  - split; [by vm_compute|]. split; [by vm_compute|]. split; [by vm_compute|]. split; [vm_compute; by repeat constructor|].
    eexists. split; [reflexivity|]. by vm_compute.
  - destruct (Hs (fun n k => eq_refl)) as [tr' ->]. exists w', tr'. split; [exact E|]. rewrite Ha.
    rewrite <- response_all by (first [by vm_compute | vm_compute; by repeat constructor]).
    assert (Sends (c_fd (client0 waiting)) (response (accept_of (text "dGhlIHNhbXBsZSBub25jZQ=="))) = Sends 5 (switching (text "s3pPLMBiTxaQ9kYGzzhZRbK+xOo="))) as -> by by vm_compute.
    reflexivity.
Defined.

Lemma ws_stop_empties_witness : exists w', zst_ws_server_stop all_sent no_calls 1 (joining all_sent no_calls noise 1 None) ws5 = Done (ZST_OK, w') /\
  ws_clients (w_server w') = repeat no_client MAX_CLIENTS /\ ws_listen_fd (w_server w') < 0.
Proof. apply (ws_stop_empties all_sent no_calls noise 0 calm); [exact ws5_reach|by vm_compute|done]. Defined.

(** ** Defects *)

(** A header that announces 2^64 - 14 bytes wraps the frame's length to 0: it passes the
    test, and the mask is applied to all the memory that follows. *)
Lemma huge_frame_faults :
  run_op all_sent no_calls noise 0 (OpRound (PollReady None [arrives [129; 255; 255; 255; 255; 255; 255; 255; 255; 242; 1; 2; 3; 4]])) ws4 = Fault.
Proof. by vm_compute. Qed.

(** A server stopped by its own [on_message] frees the buffer that the thread goes on to
    write to. *)
Lemma stop_in_callback_faults :
  run_op all_sent (fun n => if Nat.eqb n (w_windows ws4 + 1) then [CallStop] else []) noise 1 (OpRound (PollReady None [arrives (frame_of (129, None, text "quit"))])) ws4 = Fault.
Proof. by vm_compute. Qed.

(** A ping is answered without the payload it came with. *)
Lemma pong_loses_payload : drop (length (w_actions ws4))
  (w_actions (next (OpRound (PollReady None [arrives (frame_of (137, Some [1; 2; 3; 4], text "id-7"))])) ws4)) = [Sends 5 [138; 0]].
Proof. by vm_compute. Qed.

(** The first part of a fragmented message is handed on as if it were all of it, the rest
    is dropped. *)
Lemma fragments_torn : drop (length (w_actions ws4))
  (w_actions (next (OpRound (PollReady None [arrives (frame_of (1, None, text "he") ++ frame_of (128, None, text "llo"))])) ws4)) = [OnMessage 2 7 1 (text "he")].
Proof. by vm_compute. Qed.

(** A client that has not shaken hands yet can be sent to: the frame goes out before the
    answer to its request. *)
Lemma frame_before_handshake : w_actions (next (OpRound (PollReady None [arrives example_request])) (next (OpSend 1 (text "hi")) ws3)) =
  [Sends 5 [129; 2]; Sends 5 (text "hi"); Sends 5 (switching (text "s3pPLMBiTxaQ9kYGzzhZRbK+xOo=")); OnConnect 1 7 1].
Proof. by vm_compute. Qed.

(** A connection that goes away before its handshake is reported, though it never was. *)
Lemma disconnect_without_connect : w_actions (next (OpRound (PollReady None [mk_event false true true RecvClosed])) ws3) = [Closes 5; OnDisconnect 3 7 1].
Proof. by vm_compute. Qed.
