(* ===== verification/SdpReorder.v ===== *)
(** * The reorder buffer of the SDP demultiplexer: [src/sdp_demuxer.c]

    A ring of slots indexed by the low bits of the RTP sequence number.  A slot that is
    not [present] is [None]: its other fields are never read.  [slots] is [None] for
    the NULL pointer left by [reorder_destroy]; using it is a [Fault]. *)

From S2P Require Import Prelude Pad.

Local Open Scope Z_scope.

(** [slot_data] is the block of [slot_len] bytes the slot owns. *)
Record reorder_slot_t := mk_slot {
  slot_data : bytes;
  slot_len : Z;
  slot_timestamp : Z;
  slot_marker : Z;
}.

Record rtp_reorder_t := mk_reorder {
  slots : option (list (option reorder_slot_t));
  mask : Z;
  next_seq : Z;
  ro_count : Z;
  total_capacity : Z;
  last_drain_us : Z;
  ro_dropped : Z;
}.

(** [memset(r, 0, sizeof( *r))] *)
Definition reorder_zero : rtp_reorder_t := mk_reorder None 0 0 0 0 0 0.

(** [sizeof(reorder_slot_t)] *)
Definition SIZEOF_SLOT : Z := 24.

Definition with_next (r : rtp_reorder_t) (seq : Z) : rtp_reorder_t :=
  mk_reorder (slots r) (mask r) seq (ro_count r) (total_capacity r) (last_drain_us r) (ro_dropped r).
Definition with_slots (r : rtp_reorder_t) (ss : list (option reorder_slot_t)) (count : Z) : rtp_reorder_t :=
  mk_reorder (Some ss) (mask r) (next_seq r) count (total_capacity r) (last_drain_us r) (ro_dropped r).
Definition one_dropped (r : rtp_reorder_t) : rtp_reorder_t :=
  mk_reorder (slots r) (mask r) (next_seq r) (ro_count r) (total_capacity r) (last_drain_us r)
    (s32 (ro_dropped r + 1)).
Definition drained (r : rtp_reorder_t) (ss : list (option reorder_slot_t)) : rtp_reorder_t :=
  mk_reorder (Some ss) (mask r) (u16 (next_seq r + 1)) (ro_count r - 1) (total_capacity r) 0 (ro_dropped r).

Definition is_power_of_2 (v : Z) : bool := negb (v =? 0) && (Z.land v (u32 (v - 1)) =? 0).

(** [while (cap < capacity) cap <<= 1] on an [int]; the shift that overflows is a
    fault.  31 rounds reach every [int]. *)
Fixpoint round_cap (fuel : nat) (cap capacity : Z) : outcome Z :=
  if cap <? capacity then
    match fuel with
    | O => Unfinished
    | S fuel => if INT32_MAX <? 2 * cap then Fault else round_cap fuel (2 * cap) capacity
    end
  else Done cap.

Section Memory.
Context `{CMemory}.

(** The result 0 or -1, and the buffer. *)
Definition reorder_init (capacity : Z) : outcome (Z * rtp_reorder_t) :=
  cap ← round_cap 31 1 capacity;
  let cap := if 65536 <? cap then 65536 else cap in
  if malloc_ok (cap * SIZEOF_SLOT) then
    mret (0, mk_reorder (Some (replicate (Z.to_nat cap) None)) (u16 (cap - 1)) 0 0 cap 0 0)
  else mret (-1, reorder_zero).

Definition reorder_destroy (r : rtp_reorder_t) : rtp_reorder_t :=
  mk_reorder None (mask r) (next_seq r) (ro_count r) (total_capacity r) (last_drain_us r) (ro_dropped r).

(** [&r->slots[idx]], and what it holds. *)
Definition get_slot (r : rtp_reorder_t) (idx : Z) : outcome (list (option reorder_slot_t) * option reorder_slot_t) :=
  match slots r with
  | Some ss => match ss !! Z.to_nat idx with Some s => mret (ss, s) | None => Fault end
  | None => Fault
  end.

(** [memcmp(slot->data, data, len) == 0] once the lengths agree. *)
Definition same_packet (s : reorder_slot_t) (data : bytes) : bool :=
  (slot_len s =? zlen data) && bool_decide (slot_data s = data).

(** The packet is [data] with its length. *)
Definition reorder_insert (r : rtp_reorder_t) (seq ts marker : Z) (data : bytes) (max_lateness : Z)
  : outcome (Z * rtp_reorder_t) :=
  let r := if ro_count r =? 0 then with_next r seq else r in
  let diff := s16 (seq - next_seq r) in
  if diff <? - s16 max_lateness then mret (-2, one_dropped r)
  else if s16 (total_capacity r - 1) <? diff then mret (-2, one_dropped r)
  else
    let idx := Z.land seq (mask r) in
    '(ss, old) ← get_slot r idx;
    let store ss count :=
      if malloc_ok (zlen data) then
        (0, with_slots r (<[Z.to_nat idx := Some (mk_slot data (zlen data) ts marker)]> ss) (count + 1))
      else (-1, with_slots r ss count) in
    match old with
    | Some s =>
        if same_packet s data then mret (0, r)
        else mret (store (<[Z.to_nat idx := None]> ss) (ro_count r - 1))
    | None => mret (store ss (ro_count r))
    end.
End Memory.

(** The slot taken out, [None] for the result 0. *)
Definition reorder_drain (r : rtp_reorder_t) : outcome (option reorder_slot_t * rtp_reorder_t) :=
  if ro_count r =? 0 then mret (None, r)
  else
    let idx := Z.land (next_seq r) (mask r) in
    '(ss, s) ← get_slot r idx;
    match s with
    | None => mret (None, r)
    | Some s => mret (Some s, drained r (<[Z.to_nat idx := None]> ss))
    end.

Definition reorder_peek (r : rtp_reorder_t) : outcome bool :=
  if ro_count r =? 0 then mret false
  else '(_, s) ← get_slot r (Z.land (next_seq r) (mask r)); mret (bool_decide (is_Some s)).
