(* ===== verification/SdpReorderSpec.v ===== *)
(** * What the SDP demultiplexer's reorder buffer promises

    The abstract buffer is a window: the next sequence number and what has arrived of
    the packets from it on.  The ring of slots is the window rotated
    ([reorder_refines]).  A batch that begins with its lowest packet comes out in order
    ([batch_in_order]); packets that come one at a time are never reordered
    ([alone_never_reordered]), and a packet missing from a batch stops the track
    ([gap_stalls]). *)

From S2P Require Import Prelude Pad SdpReorder.

Local Open Scope Z_scope.

(** ** Operations, on the ring and on the window *)

Inductive reorder_op :=
| Insert (seq ts marker : Z) (data : bytes)
| Drain.

Inductive reorder_out :=
| Inserted (result : Z)
| Drained (packet : option reorder_slot_t).

Record window := mk_window { win_next : Z; win_slots : list (option reorder_slot_t) }.

Definition is_present (s : option reorder_slot_t) : bool := bool_decide (is_Some s).

Definition occupied (l : list (option reorder_slot_t)) : Z := zlen (filter is_Some l).

Definition empty_window (cap : Z) : window := mk_window 0 (replicate (Z.to_nat cap) None).

(** An empty window moves to whatever comes first. *)
Definition win_restart (w : window) (seq : Z) : window :=
  if occupied (win_slots w) =? 0 then mk_window seq (win_slots w) else w.

(** How far ahead of the window's start the packet is, modulo 2^16. *)
Definition ahead (w : window) (seq : Z) : Z := u16 (seq - win_next w).

Definition win_insert (w : window) (seq : Z) (p : reorder_slot_t) : Z * window :=
  let w := win_restart w seq in
  let o := ahead w seq in
  if zlen (win_slots w) <=? o then (-2, w)
  else match win_slots w !! Z.to_nat o with
  | Some (Some old) => if same_packet old (slot_data p) then (0, w)
      else (0, mk_window (win_next w) (<[Z.to_nat o := Some p]> (win_slots w)))
  | _ => (0, mk_window (win_next w) (<[Z.to_nat o := Some p]> (win_slots w)))
  end.

Definition win_drain (w : window) : option reorder_slot_t * window :=
  match win_slots w with
  | Some p :: l => (Some p, mk_window (u16 (win_next w + 1)) (l ++ [None]))
  | _ => (None, w)
  end.

Definition win_step (w : window) (op : reorder_op) : reorder_out * window :=
  match op with
  | Insert seq ts marker data =>
      let '(r, w) := win_insert w seq (mk_slot data (zlen data) ts marker) in (Inserted r, w)
  | Drain => let '(p, w) := win_drain w in (Drained p, w)
  end.

Fixpoint win_run (w : window) (ops : list reorder_op) : list reorder_out * window :=
  match ops with
  | [] => ([], w)
  | op :: ops =>
      let '(out, w) := win_step w op in
      let '(outs, w) := win_run w ops in (out :: outs, w)
  end.

Section Ring.
Context `{CMemory}.

Definition ring_step (late : Z) (r : rtp_reorder_t) (op : reorder_op) : outcome (reorder_out * rtp_reorder_t) :=
  match op with
  | Insert seq ts marker data => '(res, r) ← reorder_insert r seq ts marker data late; mret (Inserted res, r)
  | Drain => '(p, r) ← reorder_drain r; mret (Drained p, r)
  end.

Fixpoint ring_run (late : Z) (r : rtp_reorder_t) (ops : list reorder_op) : outcome (list reorder_out * rtp_reorder_t) :=
  match ops with
  | [] => mret ([], r)
  | op :: ops =>
      '(out, r) ← ring_step late r op;
      '(outs, r) ← ring_run late r ops; mret (out :: outs, r)
  end.
End Ring.

(** A packet that is behind the window is behind it by more than the tolerance.  The
    demultiplexer keeps those that are not, in slots of packets to come. *)
Definition on_time (late : Z) (w : window) (op : reorder_op) : Prop :=
  match op with
  | Insert seq _ _ _ =>
      0 <= seq < 65536 /\
      let diff := s16 (seq - win_next (win_restart w seq)) in 0 <= diff \/ diff < - late
  | Drain => True
  end.

Fixpoint all_on_time (late : Z) (w : window) (ops : list reorder_op) : Prop :=
  match ops with
  | [] => True
  | op :: ops => on_time late w op /\ all_on_time late (win_step w op).2 ops
  end.

(** ** The invariant of the ring, and what it stands for *)

Record ring (k : Z) (r : rtp_reorder_t) (ss : list (option reorder_slot_t)) : Prop := {
  ring_slots : slots r = Some ss;
  ring_k : 0 <= k <= 15;
  ring_len : zlen ss = 2 ^ k;
  ring_mask : mask r = 2 ^ k - 1;
  ring_cap : total_capacity r = 2 ^ k;
  ring_next : 0 <= next_seq r < 65536;
  ring_count : ro_count r = occupied ss;
}.

Definition window_of (r : rtp_reorder_t) (ss : list (option reorder_slot_t)) : window :=
  mk_window (next_seq r) (rotate (Z.to_nat (next_seq r)) ss).

Lemma cap_range k : 0 <= k <= 15 -> 1 <= 2 ^ k <= 32768.
Proof.
  intros. split.
  - change 1 with (2 ^ 0). apply Z.pow_le_mono_r; lia.
  - change 32768 with (2 ^ 15). apply Z.pow_le_mono_r; lia.
Qed.

Lemma cap_divides k : 0 <= k <= 15 -> (2 ^ k | 65536).
Proof. intros. exists (2 ^ (16 - k)). rewrite <-Z.pow_add_r by lia. by replace (16 - k + k) with 16 by lia. Qed.

Lemma mod_cap_u16 k z : 0 <= k <= 15 -> u16 z mod 2 ^ k = z mod 2 ^ k.
Proof.
  intros Hk. pose proof (cap_range k Hk). destruct (cap_divides k Hk) as [q E].
  unfold u16. rewrite (Z.mod_eq z 65536) by lia. rewrite E.
  replace (z - q * 2 ^ k * (z / (q * 2 ^ k))) with (z + (- q * (z / (q * 2 ^ k))) * 2 ^ k) by ring.
  by rewrite Z.mod_add by lia.
Qed.

(** Counting occupied slots *)

Lemma occupied_app l l' : occupied (l ++ l') = occupied l + occupied l'.
Proof. unfold occupied. by rewrite filter_app, zlen_app. Qed.

Lemma occupied_cons s l : occupied (s :: l) = (if is_present s then 1 else 0) + occupied l.
Proof.
  unfold occupied, is_present. rewrite filter_cons. case_decide; case_bool_decide; try done.
  rewrite zlen_cons. lia.
Qed.

Lemma occupied_nonneg l : 0 <= occupied l.
Proof. apply zlen_nonneg. Qed.

Lemma occupied_insert l i s t :
  l !! i = Some s ->
  occupied (<[i := t]> l) = occupied l - (if is_present s then 1 else 0) + (if is_present t then 1 else 0).
Proof.
  intros E. rewrite insert_take_drop by (by eapply lookup_lt_Some).
  assert (occupied l = occupied (take i l ++ s :: drop (S i) l)) as -> by by rewrite take_drop_middle.
  rewrite !occupied_app, !occupied_cons. lia.
Qed.

Lemma occupied_rotate n l : occupied (rotate n l) = occupied l.
Proof.
  assert (occupied l = occupied (take (n mod length l) l ++ drop (n mod length l) l)) as ->
    by by rewrite take_drop.
  unfold rotate. rewrite !occupied_app. lia.
Qed.

Lemma occupied_0 l : occupied l = 0 <-> l = replicate (length l) None.
Proof.
  induction l as [|s l IH]; [done|]. rewrite occupied_cons. pose proof (occupied_nonneg l).
  destruct s; unfold is_present; cbn; split.
  - lia.
  - discriminate.
  - intros. f_equal. apply IH. lia.
  - intros [= E]. apply IH in E. lia.
Qed.

Lemma rotate_empty n l : occupied l = 0 -> rotate n l = l.
Proof.
  intros E%occupied_0. rewrite E. unfold rotate. rewrite length_replicate, take_replicate, drop_replicate.
  rewrite <-replicate_add. f_equal.
  destruct (decide (length l = 0)%nat) as [E0|]; [rewrite E0; lia|].
  pose proof (Nat.mod_upper_bound n (length l)). lia.
Qed.

(** Looking through the rotation *)

Lemma rotate_slot k (ss : list (option reorder_slot_t)) next seq o :
  0 <= k <= 15 -> zlen ss = 2 ^ k -> 0 <= next < 65536 ->
  o = u16 (seq - next) -> o < 2 ^ k ->
  rotate_nat_add (Z.to_nat next) (Z.to_nat o) (length ss) = Z.to_nat (Z.land seq (2 ^ k - 1)).
Proof.
  intros Hk Hlen Hn Ho Hlt. unfold rotate_nat_add. fold (zlen ss). rewrite Hlen.
  pose proof (u16_range (seq - next)).
  rewrite (land_ones_mod seq k) by lia. rewrite !Z2Nat.id by lia. f_equal.
  rewrite <-Z.add_mod_idemp_r by (pose proof (cap_range k Hk); lia).
  rewrite Ho, (mod_cap_u16 k) by done. rewrite Z.add_mod_idemp_r by (pose proof (cap_range k Hk); lia).
  f_equal. lia.
Qed.

Lemma land_in_ring k (ss : list (option reorder_slot_t)) seq :
  0 <= k <= 15 -> zlen ss = 2 ^ k -> (Z.to_nat (Z.land seq (2 ^ k - 1)) < length ss)%nat.
Proof.
  intros Hk Hlen. pose proof (cap_range k Hk). rewrite (land_ones_mod seq k) by lia.
  pose proof (Z.mod_pos_bound seq (2 ^ k)). unfold zlen in Hlen. lia.
Qed.

Lemma rotate_cons n (l : list (option reorder_slot_t)) y t :
  rotate n l = y :: t -> rotate (S n) l = t ++ [y].
Proof.
  intros E. assert (0 < length l)%nat as Hl.
  { rewrite <-(length_rotate l n), E. simpl. lia. }
  unfold rotate in *. set (a := (n mod length l)%nat) in *.
  assert (a < length l)%nat as Ha by (apply Nat.mod_upper_bound; lia).
  destruct (lookup_lt_is_Some_2 l a Ha) as [x Hx].
  rewrite (drop_S l x a Hx) in E. injection E as -> <-.
  assert (S n mod length l = S a mod length l)%nat as ->.
  { unfold a. rewrite <-(Nat.add_1_r (n mod _)), Nat.Div0.add_mod_idemp_l. f_equal. lia. }
  destruct (decide (S a = length l)) as [Ea|].
  - rewrite Ea, Nat.Div0.mod_same, drop_0, take_0, app_nil_r, <-Ea, drop_ge, app_nil_l by lia.
    rewrite <-(take_S_r l a y Hx), Ea. symmetry. apply firstn_all.
  - rewrite Nat.mod_small by lia. by rewrite (take_S_r l a y Hx), app_assoc.
Qed.

Lemma rotate_mod n m (l : list (option reorder_slot_t)) :
  (n mod length l = m mod length l)%nat -> rotate n l = rotate m l.
Proof. unfold rotate. by intros ->. Qed.

Lemma rotate_next k (ss : list (option reorder_slot_t)) next :
  0 <= k <= 15 -> zlen ss = 2 ^ k -> 0 <= next ->
  rotate (Z.to_nat (u16 (next + 1))) ss = rotate (S (Z.to_nat next)) ss.
Proof.
  intros Hk Hlen Hn. pose proof (cap_range k Hk). apply rotate_mod.
  pose proof (u16_range (next + 1)). apply Nat2Z.inj. rewrite !Nat2Z.inj_mod.
  fold (zlen ss). rewrite Hlen, Z2Nat.id, (mod_cap_u16 k) by lia. f_equal. lia.
Qed.

(** ** The ring implements the window *)

Section Simulation.
Context `{CMemoryOk}.
Variable (late k : Z).
Hypothesis (Hlate : 0 <= late < 32768).

Lemma restart_ring r ss seq :
  ring k r ss -> 0 <= seq < 65536 ->
  let r1 := if ro_count r =? 0 then with_next r seq else r in
  ring k r1 ss /\ window_of r1 ss = win_restart (window_of r ss) seq.
Proof.
  intros [] Hs r1. unfold r1, win_restart, window_of. cbn [win_slots]. rewrite occupied_rotate, <-ring_count0.
  destruct (Z.eqb_spec (ro_count r) 0) as [E|]; [|by split].
  split; [by constructor|]. rewrite !rotate_empty by congruence. done.
Qed.

Lemma get_slot_ring r ss seq :
  ring k r ss ->
  exists s, ss !! Z.to_nat (Z.land seq (mask r)) = Some s /\ get_slot r (Z.land seq (mask r)) = Done (ss, s).
Proof.
  intros []. unfold get_slot. rewrite ring_slots0, ring_mask0.
  destruct (lookup_lt_is_Some_2 ss _ (land_in_ring k ss seq ring_k0 ring_len0)) as [s E].
  exists s. by rewrite E.
Qed.

Lemma window_slot r ss seq :
  ring k r ss -> ahead (window_of r ss) seq < 2 ^ k ->
  win_slots (window_of r ss) !! Z.to_nat (ahead (window_of r ss) seq) =
    ss !! Z.to_nat (Z.land seq (mask r)).
Proof.
  intros [] Ho. unfold window_of, ahead in *. cbn [win_slots win_next] in *.
  pose proof (u16_range (seq - next_seq r)).
  rewrite lookup_rotate_r by (unfold zlen in *; lia).
  by rewrite (rotate_slot k ss (next_seq r) seq), <-ring_mask0.
Qed.

Lemma store_window r ss seq p n :
  ring k r ss -> ahead (window_of r ss) seq < 2 ^ k ->
  window_of (with_slots r (<[Z.to_nat (Z.land seq (mask r)) := p]> ss) n)
    (<[Z.to_nat (Z.land seq (mask r)) := p]> ss) =
  mk_window (win_next (window_of r ss))
    (<[Z.to_nat (ahead (window_of r ss) seq) := p]> (win_slots (window_of r ss))).
Proof.
  intros [] Ho. unfold window_of, ahead in *. cbn [win_slots win_next next_seq with_slots] in *. f_equal.
  pose proof (u16_range (seq - next_seq r)).
  rewrite <-rotate_insert_l by (unfold zlen in *; lia).
  by rewrite (rotate_slot k ss (next_seq r) seq), <-ring_mask0.
Qed.

Lemma store_ring r ss i p s n :
  ring k r ss -> ss !! i = Some s ->
  n = occupied ss - (if is_present s then 1 else 0) + (if is_present p then 1 else 0) ->
  ring k (with_slots r (<[i := p]> ss) n) (<[i := p]> ss).
Proof.
  intros [] E Hn. constructor; try done; unfold zlen in *; cbn.
  - by rewrite length_insert.
  - by rewrite (occupied_insert ss i s p E).
Qed.

Lemma zlen_window r ss : ring k r ss -> zlen (win_slots (window_of r ss)) = 2 ^ k.
Proof. intros []. unfold zlen in *. cbn. by rewrite length_rotate. Qed.

Lemma insert_sim r ss seq ts marker data :
  ring k r ss -> on_time late (window_of r ss) (Insert seq ts marker data) ->
  exists r' ss' res, reorder_insert r seq ts marker data late = Done (res, r') /\ ring k r' ss' /\
    win_insert (window_of r ss) seq (mk_slot data (zlen data) ts marker) = (res, window_of r' ss').
Proof.
  intros Hr [Hseq Hon]. destruct (restart_ring r ss seq Hr Hseq) as [Hr1 E1].
  unfold reorder_insert, win_insert. cbv zeta in *. rewrite <-E1 in *. clear E1 Hr.
  set (r1 := if ro_count r =? 0 then _ else _) in *. clearbody r1. rewrite (zlen_window r1 ss Hr1).
  assert (win_next (window_of r1 ss) = next_seq r1) as Enext by done. rewrite Enext in Hon.
  pose proof (cap_range k (ring_k _ _ _ Hr1)). pose proof (ring_next _ _ _ Hr1).
  rewrite (ring_cap _ _ _ Hr1). rewrite (s16_small late) by lia. rewrite (s16_small (2 ^ k - 1)) by lia.
  assert (ahead (window_of r1 ss) seq = u16 (seq - next_seq r1)) as Ha by done.
  destruct Hon as [Hon|Hon].
  2: { rewrite (proj2 (Z.ltb_lt _ _) Hon). exists (one_dropped r1), ss, (-2).
    split; [done|]. split; [by destruct Hr1|].
    rewrite (proj2 (Z.leb_le _ _)); [done|]. rewrite Ha. revert Hon. clear -Hseq H2 H1 Hlate. intros. cint. }
  rewrite (proj2 (Z.ltb_ge _ _)) by lia.
  assert (s16 (seq - next_seq r1) = u16 (seq - next_seq r1)) as Es
    by (revert Hon; clear -Hseq H2; intros; cint).
  rewrite Es, <-Ha.
  destruct (Z.ltb_spec (2 ^ k - 1) (ahead (window_of r1 ss) seq)).
  { rewrite (proj2 (Z.leb_le _ _)) by lia. exists (one_dropped r1), ss, (-2).
    split; [done|]. split; [by destruct Hr1|done]. }
  rewrite (proj2 (Z.leb_gt _ _)) by lia.
  destruct (get_slot_ring r1 ss seq Hr1) as (s & Es1 & ->). cbn [mbind outcome_bind].
  rewrite (window_slot r1 ss seq Hr1), Es1 by lia. rewrite malloc_total.
  destruct s as [old|].
  - cbn [slot_data]. destruct (same_packet old data).
    { exists r1, ss, 0. done. }
    rewrite list_insert_insert_eq.
    eexists _, _, 0. split; [done|]. split.
    + apply (store_ring r1 ss _ _ (Some old)); [done..|]. rewrite (ring_count _ _ _ Hr1). cbn. lia.
    + f_equal. symmetry. apply store_window; [done|lia].
  - eexists _, _, 0. split; [done|]. split.
    + apply (store_ring r1 ss _ _ None); [done..|]. rewrite (ring_count _ _ _ Hr1). cbn. lia.
    + f_equal. symmetry. apply store_window; [done|lia].
Qed.

Lemma drain_sim r ss :
  ring k r ss ->
  exists r' ss' p, reorder_drain r = Done (p, r') /\ ring k r' ss' /\
    win_drain (window_of r ss) = (p, window_of r' ss').
Proof.
  intros Hr. unfold reorder_drain.
  destruct (Z.eqb_spec (ro_count r) 0) as [E|E].
  { exists r, ss, None. split; [done|]. split; [done|]. unfold win_drain, window_of. cbn [win_slots].
    destruct Hr. rewrite ring_count0 in E. rewrite rotate_empty by done. apply occupied_0 in E.
    rewrite E. by destruct (length ss). }
  destruct (get_slot_ring r ss (next_seq r) Hr) as (s & Es & ->). cbn [mbind outcome_bind].
  pose proof (cap_range k (ring_k _ _ _ Hr)). pose proof (ring_next _ _ _ Hr).
  assert (ahead (window_of r ss) (next_seq r) = 0) as Ea.
  { unfold ahead. cbn. by rewrite Z.sub_diag. }
  pose proof (window_slot r ss (next_seq r) Hr) as Ew. rewrite Ea, Es in Ew. specialize (Ew ltac:(lia)).
  unfold win_drain. destruct (win_slots (window_of r ss)) as [|s0 l] eqn:El; [done|]. injection Ew as ->.
  destruct s as [p|]; [|by exists r, ss, None].
  eexists _, _, (Some p). split; [done|].
  assert (ring k (drained r (<[Z.to_nat (Z.land (next_seq r) (mask r)) := None]> ss))
            (<[Z.to_nat (Z.land (next_seq r) (mask r)) := None]> ss)) as Hr'.
  { destruct Hr. constructor; cbn; try done.
    - unfold zlen in *. by rewrite length_insert.
    - apply u16_range.
    - rewrite (occupied_insert _ _ (Some p)) by done. cbn. lia. }
  split; [done|]. f_equal. pose proof (store_window r ss (next_seq r) None 0 Hr) as Ewin.
  rewrite Ea in Ewin. specialize (Ewin ltac:(lia)). rewrite El in Ewin.
  unfold window_of in *. cbn [win_slots win_next next_seq with_slots drained] in *. f_equal.
  injection Ewin as Erot. rewrite (rotate_next k); [|apply Hr|by destruct Hr'|lia].
  symmetry. by apply rotate_cons.
Qed.

Lemma step_sim r ss op :
  ring k r ss -> on_time late (window_of r ss) op ->
  exists r' ss' out, ring_step late r op = Done (out, r') /\ ring k r' ss' /\
    win_step (window_of r ss) op = (out, window_of r' ss').
Proof.
  intros Hr Hon. destruct op as [seq ts marker data|].
  - destruct (insert_sim r ss seq ts marker data Hr Hon) as (r' & ss' & res & E & ? & Ew).
    exists r', ss', (Inserted res). cbn. by rewrite E, Ew.
  - destruct (drain_sim r ss Hr) as (r' & ss' & p & E & ? & Ew).
    exists r', ss', (Drained p). cbn. by rewrite E, Ew.
Qed.

Lemma run_sim ops r ss :
  ring k r ss -> all_on_time late (window_of r ss) ops ->
  exists r' ss', ring_run late r ops = Done ((win_run (window_of r ss) ops).1, r') /\ ring k r' ss' /\
    window_of r' ss' = (win_run (window_of r ss) ops).2.
Proof.
  revert r ss. induction ops as [|op ops IH]; intros r ss Hr Hon; [by exists r, ss|].
  destruct Hon as [Hon Hons]. destruct (step_sim r ss op Hr Hon) as (r' & ss' & out & E & Hr' & Ew).
  rewrite Ew in Hons. cbn [snd] in Hons.
  destruct (IH r' ss' Hr' Hons) as (r'' & ss'' & Er & ? & Ew').
  exists r'', ss''. cbn [ring_run win_run]. rewrite E, Ew. cbn [mbind outcome_bind]. rewrite Er.
  destruct (win_run (window_of r' ss') ops) as [outs w']. cbn [mbind outcome_bind mret outcome_ret]. done.
Qed.
End Simulation.

(** ** The buffer made by [reorder_init] *)

Lemma round_cap_pow2 fuel j c :
  0 <= j -> j + Z.of_nat fuel >= 30 -> 1 <= c <= 2 ^ 30 ->
  j <= 30 -> (j = 0 \/ 2 ^ (j - 1) < c) ->
  exists k, round_cap fuel (2 ^ j) c = Done (2 ^ k) /\ 0 <= k <= 30 /\ c <= 2 ^ k /\ (k = 0 \/ 2 ^ (k - 1) < c).
Proof.
  intros Hj Hfuel Hc. revert j Hj Hfuel. induction fuel as [|fuel IH]; intros j Hj Hf Hj30 Hlow.
  - assert (j = 30) as -> by lia. cbn [round_cap]. rewrite (proj2 (Z.ltb_ge _ _)) by lia.
    exists 30. split; [done|]. split; [lia|]. by split; [lia|].
  - cbn [round_cap]. destruct (Z.ltb_spec (2 ^ j) c) as [Hlt|].
    + assert (j < 30) by (apply (Z.pow_lt_mono_r_iff 2); lia).
      replace (2 * 2 ^ j) with (2 ^ (j + 1)) by (rewrite Z.pow_add_r by lia; lia).
      assert (2 ^ (j + 1) <= 2 ^ 30) by (apply Z.pow_le_mono_r; lia).
      rewrite (proj2 (Z.ltb_ge _ _)) by (unfold INT32_MAX; lia).
      apply IH; try lia. right. by replace (j + 1 - 1) with j by lia.
    + exists j. split_and!; [done|lia..|done].
Qed.

Section Initial.
Context `{CMemoryOk}.

(** Every capacity up to 2^15 gives a ring of at least that size; a larger one up to
    2^30 is cut to 65536 slots, which the signed comparison of [reorder_insert] cannot use
    ([huge_ring_drops]). *)
Lemma reorder_init_ring c :
  1 <= c <= 32768 ->
  exists k r ss, reorder_init c = Done (0, r) /\ ring k r ss /\ c <= 2 ^ k /\ (c = 1 \/ 2 ^ k < 2 * c) /\
    window_of r ss = empty_window (2 ^ k) /\ ro_count r = 0.
Proof.
  intros Hc. destruct (round_cap_pow2 31 0 c) as (k & E & Hk & Hck & Hlow); [lia..|by left|].
  change (2 ^ 0) with 1 in E. unfold reorder_init. rewrite E. cbn [mbind outcome_bind].
  assert (k <= 15) as Hk15.
  { destruct (Z.leb_spec k 15); [done|]. destruct Hlow as [->|Hlow]; [done|].
    assert (2 ^ 15 <= 2 ^ (k - 1)) by (apply Z.pow_le_mono_r; lia). lia. }
  pose proof (cap_range k ltac:(lia)).
  rewrite (proj2 (Z.ltb_ge _ _)) by lia. rewrite malloc_total.
  eexists k, _, _. split; [done|]. split; [|split_and!].
  - constructor; cbn; [done|lia| | |done|lia|].
    + unfold zlen. rewrite length_replicate. lia.
    + by rewrite u16_small by lia.
    + symmetry. apply occupied_0. by rewrite length_replicate.
  - done.
  - destruct (Z.eqb_spec k 0) as [->|]; [left; lia|right]. destruct Hlow as [->|Hlow]; [done|].
    replace (2 ^ k) with (2 * 2 ^ (k - 1)); [lia|].
    rewrite <-Z.pow_succ_r by lia. f_equal. lia.
  - unfold window_of, empty_window. cbn. f_equal. apply rotate_replicate.
  - done.
Qed.

(** C17. The reorder buffer implements the window: whatever packets are inserted and
    whenever slots are drained, its answers are those of an unbounded-looking list that
    starts at the next sequence number, across any wrap of the 16-bit sequence number, as
    long as no packet arrives behind the window by less than the tolerance. *)
Theorem reorder_refines (late c : Z) (ops : list reorder_op) :
  0 <= late < 32768 -> 1 <= c <= 32768 ->
  exists k r0, reorder_init c = Done (0, r0) /\ c <= 2 ^ k /\
    (all_on_time late (empty_window (2 ^ k)) ops ->
     exists r, ring_run late r0 ops = Done ((win_run (empty_window (2 ^ k)) ops).1, r)).
Proof.
  intros Hl Hc. destruct (reorder_init_ring c Hc) as (k & r & ss & E & Hr & Hk & _ & Ew & _).
  exists k, r. split_and!; [done..|]. intros Hon. rewrite <-Ew in *.
  destruct (run_sim late k Hl ops r ss Hr Hon) as (r' & _ & Erun & _). eauto.
Qed.
End Initial.

(** ** Batches *)

(** The packets of [ps], numbered from [s], in the order of arrival [order]. *)
Definition insert_at (s : Z) (ps : list reorder_slot_t) (i : nat) : reorder_op :=
  match ps !! i with
  | Some p => Insert (u16 (s + Z.of_nat i)) (slot_timestamp p) (slot_marker p) (slot_data p)
  | None => Drain
  end.

Definition slot_ok (p : reorder_slot_t) : Prop := slot_len p = zlen (slot_data p).

(** What has arrived, by position. *)
Definition filled (cap : nat) (ps : list reorder_slot_t) (arrived : list nat) : list (option reorder_slot_t) :=
  (fun i => if decide (i ∈ arrived) then ps !! i else None) <$> seq 0 cap.

Lemma filled_insert cap ps arrived i :
  <[i := ps !! i]> (filled cap ps arrived) = filled cap ps (arrived ++ [i]).
Proof.
  apply list_eq. intros j. unfold filled. rewrite list_lookup_insert, !list_lookup_fmap, length_fmap, length_seq.
  destruct (decide (j < cap)%nat) as [Hj|Hj].
  - rewrite lookup_seq_lt by done. cbn. destruct (decide (i = j)) as [->|Hij].
    + rewrite decide_True by done. by rewrite decide_True by set_solver.
    + rewrite decide_False by tauto. f_equal. apply decide_ext. set_solver.
  - rewrite lookup_seq_ge by lia. by rewrite decide_False by lia.
Qed.

Lemma filled_all cap ps arrived :
  (length ps <= cap)%nat -> arrived ≡ₚ seq 0 (length ps) ->
  filled cap ps arrived = (Some <$> ps) ++ replicate (cap - length ps) None.
Proof.
  intros Hcap Harr. apply list_eq. intros j. unfold filled. rewrite list_lookup_fmap.
  destruct (decide (j < length ps)%nat) as [Hj|Hj].
  - rewrite lookup_seq_lt by lia. rewrite lookup_app_l by by rewrite length_fmap.
    rewrite list_lookup_fmap. cbn. rewrite decide_True by (rewrite Harr; apply elem_of_seq; lia).
    by destruct (lookup_lt_is_Some_2 ps j Hj) as [p ->].
  - rewrite lookup_app_r by (rewrite length_fmap; lia). rewrite length_fmap.
    destruct (decide (j < cap)%nat).
    + rewrite lookup_seq_lt by lia. cbn. rewrite lookup_replicate_2 by lia.
      by rewrite decide_False by (rewrite Harr, elem_of_seq; lia).
    + rewrite lookup_seq_ge by lia. cbn. symmetry. apply lookup_replicate_None. lia.
Qed.

Lemma occupied_filled_pos cap ps arrived :
  (0 < cap)%nat -> 0%nat ∈ arrived -> ps <> [] -> occupied (filled cap ps arrived) <> 0.
Proof.
  intros Hcap Hin Hps. unfold filled. destruct cap; [lia|]. cbn [seq]. rewrite fmap_cons.
  rewrite decide_True by done. destruct ps; [done|]. rewrite occupied_cons. cbn.
  pose proof (occupied_nonneg ((fun i => if decide (i ∈ arrived) then (r :: ps) !! i else None) <$> seq 1 cap)). lia.
Qed.

(** Draining what is in order at the front. *)
Lemma drain_run n qs m :
  0 <= n < 65536 ->
  win_run (mk_window n ((Some <$> qs) ++ replicate m None)) (replicate (length qs + 1) Drain) =
    ((Drained ∘ Some <$> qs) ++ [Drained None],
     mk_window (u16 (n + zlen qs)) (replicate (m + length qs) None)).
Proof.
  revert n m. induction qs as [|q qs IH]; intros n m Hn.
  - cbn [length replicate Nat.add win_run fmap list_fmap app].
    assert (win_step (mk_window n (replicate m None)) Drain = (Drained None, mk_window n (replicate m None))) as ->
      by by destruct m.
    rewrite Nat.add_0_r, zlen_nil, Z.add_0_r, u16_small by done. done.
  - cbn [length replicate Nat.add win_run fmap list_fmap app].
    change (win_step _ Drain) with (Drained (Some q), mk_window (u16 (n + 1)) (((Some <$> qs) ++ replicate m None) ++ [None])).
    rewrite <-app_assoc, <-(replicate_cons_app m). change (None :: replicate m None) with (replicate (S m) (@None reorder_slot_t)).
    rewrite IH by apply u16_range. rewrite zlen_cons. f_equal.
    replace (S m + length qs)%nat with (m + S (length qs))%nat by lia. f_equal. cint.
Qed.

Lemma win_run_app w ops ops' :
  win_run w (ops ++ ops') =
  (let '(outs, w) := win_run w ops in let '(outs', w) := win_run w ops' in (outs ++ outs', w)).
Proof.
  revert w. induction ops as [|op ops IH]; intros w; cbn [app win_run].
  - by destruct (win_run w ops').
  - destruct (win_step w op) as [out w1]. rewrite IH. destruct (win_run w1 ops) as [outs w2].
    by destruct (win_run w2 ops').
Qed.

Lemma all_on_time_app late w ops ops' :
  all_on_time late w (ops ++ ops') <-> all_on_time late w ops /\ all_on_time late (win_run w ops).2 ops'.
Proof.
  revert w. induction ops as [|op ops IH]; intros w; cbn [app all_on_time win_run]; [tauto|].
  rewrite IH. destruct (win_step w op) as [out w1]. cbn [snd]. destruct (win_run w1 ops). cbn. tauto.
Qed.

Lemma drains_on_time late w n : all_on_time late w (replicate n Drain).
Proof. revert w. induction n as [|n IH]; intros; [done|]. split; [done|]. apply IH. Qed.
Section Batch.
Variables (cap : nat) (s : Z) (ps : list reorder_slot_t).
Hypothesis (Hcap : 0 < Z.of_nat cap <= 32768) (Hs : 0 <= s < 65536) (Hps : (length ps <= cap)%nat).
Hypothesis (Hok : Forall slot_ok ps).

(** The window while the batch arrives: it starts at [s] once the first packet is in. *)
Definition arriving (n : Z) (arrived : list nat) (i : nat) : Prop :=
  arrived = [] /\ i = 0%nat \/ n = s /\ 0%nat ∈ arrived.

Lemma restart_arriving n arrived i :
  arriving n arrived i -> ps <> [] ->
  win_restart (mk_window n (filled cap ps arrived)) (u16 (s + Z.of_nat i)) = mk_window s (filled cap ps arrived).
Proof.
  intros Harr Hne. unfold win_restart. cbn [win_slots]. destruct Harr as [[-> ->]|[-> Hin]].
  - assert (occupied (filled cap ps []) = 0) as ->.
    { apply occupied_0. unfold filled. rewrite length_fmap, length_seq. apply list_eq. intros j.
      rewrite list_lookup_fmap. destruct (decide (j < cap)%nat).
      - by rewrite lookup_seq_lt, lookup_replicate_2 by done.
      - rewrite lookup_seq_ge by lia. symmetry. apply lookup_replicate_None. lia. }
    cbn. f_equal. rewrite Z.add_0_r. by apply u16_small.
  - by rewrite (proj2 (Z.eqb_neq _ _)) by (by apply occupied_filled_pos; [lia|..]).
Qed.

Lemma arriving_step late n arrived i :
  arriving n arrived i -> (i < length ps)%nat -> i ∉ arrived ->
  let w := mk_window n (filled cap ps arrived) in
  on_time late w (insert_at s ps i) /\
  win_step w (insert_at s ps i) = (Inserted 0, mk_window s (filled cap ps (arrived ++ [i]))).
Proof.
  intros Harr Hi Hnew w. destruct (lookup_lt_is_Some_2 ps i Hi) as [p Ep].
  assert (ps <> []) as Hne by by intros ->.
  pose proof (restart_arriving n arrived i Harr Hne) as Er. fold w in Er.
  unfold insert_at. rewrite Ep. split.
  - split; [apply u16_range|]. cbv zeta. left. rewrite Er. cbn [win_next].
    clear -Hs Hi Hps Hcap. cint.
  - cbn [win_step]. unfold win_insert. rewrite Er. unfold ahead. cbn [win_next win_slots].
    assert (u16 (u16 (s + Z.of_nat i) - s) = Z.of_nat i) as -> by (clear -Hs Hi Hps Hcap; cint).
    assert (zlen (filled cap ps arrived) = Z.of_nat cap) as ->.
    { unfold zlen, filled. by rewrite length_fmap, length_seq. }
    rewrite (proj2 (Z.leb_gt _ _)) by lia. rewrite Nat2Z.id.
    assert (filled cap ps arrived !! i = Some None) as ->.
    { unfold filled. rewrite list_lookup_fmap, lookup_seq_lt by lia. cbn. by rewrite decide_False. }
    assert (slot_ok p) as Hp by (by eapply Forall_lookup_1).
    rewrite <-Hp. rewrite <-filled_insert, Ep. by destruct p.
Qed.

Lemma arriving_run late order n arrived :
  NoDup (arrived ++ order) -> (forall i, i ∈ order -> (i < length ps)%nat) ->
  match order with i :: _ => arriving n arrived i | [] => n = s end ->
  let w := mk_window n (filled cap ps arrived) in
  all_on_time late w (insert_at s ps <$> order) /\
  win_run w (insert_at s ps <$> order) =
    ((fun _ => Inserted 0) <$> order, mk_window s (filled cap ps (arrived ++ order))).
Proof.
  revert n arrived. induction order as [|i order IH]; intros n arrived Hnd Hin Hstart w.
  { split; [done|]. cbn. by rewrite app_nil_r, <-Hstart. }
  assert (i ∉ arrived) as Hnew by (apply NoDup_app in Hnd as (_ & Hd & _); set_solver).
  destruct (arriving_step late n arrived i Hstart (Hin i ltac:(set_solver)) Hnew) as [Hon Estep].
  destruct (IH s (arrived ++ [i])) as [Hons Erun].
  { by rewrite <-app_assoc. }
  { set_solver. }
  { destruct order; [done|]. right. split; [done|].
    destruct Hstart as [[_ ->]|[_ ?]]; set_solver. }
  cbn [fmap list_fmap all_on_time win_run]. fold w in Hon, Estep. split.
  - split; [done|]. by rewrite Estep.
  - rewrite Estep. cbv zeta in Erun. rewrite Erun. by rewrite <-app_assoc.
Qed.

End Batch.

Section Properties.
Context `{CMemoryOk}.

Lemma empty_ring_window k r ss ps :
  ring k r ss -> ro_count r = 0 -> window_of r ss = mk_window (next_seq r) (filled (length ss) ps []).
Proof.
  intros [] E. unfold window_of. f_equal. rewrite ring_count0 in E. rewrite rotate_empty by done.
  apply occupied_0 in E. rewrite E at 1. apply list_eq. intros j. unfold filled. rewrite list_lookup_fmap.
  destruct (decide (j < length ss)%nat).
  - by rewrite lookup_seq_lt, lookup_replicate_2 by done.
  - rewrite lookup_seq_ge by lia. apply lookup_replicate_None. lia.
Qed.

(** What the ring holds once a batch has arrived. *)
Lemma batch_arrives late k r ss s ps order :
  ring k r ss -> ro_count r = 0 -> 0 <= late < 32768 -> 0 <= s < 65536 ->
  Forall slot_ok ps -> zlen ps <= 2 ^ k -> order ≡ₚ seq 0 (length ps) -> head order = Some 0%nat ->
  exists r' ss',
    ring_run late r (insert_at s ps <$> order) = Done ((fun _ => Inserted 0) <$> order, r') /\ ring k r' ss' /\
    window_of r' ss' = mk_window s ((Some <$> ps) ++ replicate (length ss - length ps) None).
Proof.
  intros Hr H0c Hl Hs Hok Hlen Hperm Hhead.
  pose proof (empty_ring_window k r ss ps Hr H0c) as Ew.
  pose proof (ring_len _ _ _ Hr) as Hss. pose proof (cap_range k (ring_k _ _ _ Hr)). unfold zlen in Hss, Hlen.
  destruct (arriving_run (length ss) s ps ltac:(lia) Hs ltac:(lia) Hok late order (next_seq r) []) as [Hon Erun].
  { cbn. rewrite Hperm. apply NoDup_ListNoDup, seq_NoDup. }
  { intros i Hi. rewrite Hperm, elem_of_seq in Hi. lia. }
  { destruct order as [|i order]; [done|]. injection Hhead as ->. by left. }
  cbv zeta in Hon, Erun. rewrite <-Ew in Hon, Erun. cbn [app] in Erun.
  rewrite (filled_all _ _ order) in Erun by (done || lia).
  destruct (run_sim late k Hl (insert_at s ps <$> order) r ss Hr Hon) as (r' & ss' & E & Hr' & Ew').
  exists r', ss'. rewrite Erun in E, Ew'. by split_and!.
Qed.

Lemma ring_run_app late r ops ops' :
  ring_run late r (ops ++ ops') =
  ('(outs, r) ← ring_run late r ops; '(outs', r) ← ring_run late r ops'; mret (outs ++ outs', r)).
Proof.
  revert r. induction ops as [|op ops IH]; intros r; cbn [app ring_run mbind outcome_bind mret outcome_ret].
  - by destruct (ring_run late r ops') as [[]| |].
  - destruct (ring_step late r op) as [[out r1]| |]; [|done..]. cbn [mbind outcome_bind]. rewrite IH.
    destruct (ring_run late r1 ops) as [[outs r2]| |]; [|done..]. cbn [mbind outcome_bind mret outcome_ret].
    by destruct (ring_run late r2 ops') as [[]| |].
Qed.

(** A batch of packets numbered from [s] that arrives in any order but with the lowest
    number first, into an empty buffer with room for it, is delivered once, complete and
    in order, and leaves the buffer empty at the number after the batch, for every [s]
    including those where the 16-bit sequence number wraps inside the batch. *)
Theorem batch_in_order late k r ss s ps order :
  ring k r ss -> ro_count r = 0 -> 0 <= late < 32768 -> 0 <= s < 65536 ->
  Forall slot_ok ps -> zlen ps <= 2 ^ k -> order ≡ₚ seq 0 (length ps) -> head order = Some 0%nat ->
  exists r' ss',
    ring_run late r ((insert_at s ps <$> order) ++ replicate (length ps + 1) Drain) =
      Done (((fun _ => Inserted 0) <$> order) ++ (Drained ∘ Some <$> ps) ++ [Drained None], r') /\
    ring k r' ss' /\ ro_count r' = 0 /\ next_seq r' = u16 (s + zlen ps).
Proof.
  intros Hr H0c Hl Hs Hok Hlen Hperm Hhead.
  destruct (batch_arrives late k r ss s ps order) as (r1 & ss1 & E1 & Hr1 & Ew1); try done.
  destruct (run_sim late k Hl (replicate (length ps + 1) Drain) r1 ss1 Hr1) as (r' & ss' & E & Hr' & Ew');
    [apply drains_on_time|].
  exists r', ss'. rewrite Ew1, drain_run in E, Ew' by done. cbn [fst snd] in E, Ew'.
  rewrite ring_run_app, E1. cbn [mbind outcome_bind]. rewrite E.
  split; [done|]. split; [done|]. injection Ew' as En Erot. split; [|by rewrite En].
  rewrite (ring_count _ _ _ Hr'), <-(occupied_rotate (Z.to_nat (next_seq r'))), Erot. apply occupied_0.
  by rewrite length_replicate.
Qed.

(** One packet and then everything that can be drained, as one push of one packet does. *)
Definition alone (a : Z * reorder_slot_t) : list reorder_op :=
  [Insert a.1 (slot_timestamp a.2) (slot_marker a.2) (slot_data a.2); Drain; Drain].

(** Packets that arrive one to a push are never reordered: each is delivered at once,
    in the order of arrival, whatever the sequence numbers are, duplicates included. *)
Theorem alone_never_reordered late k r ss (arrivals : list (Z * reorder_slot_t)) :
  ring k r ss -> ro_count r = 0 -> 0 <= late < 32768 ->
  Forall (fun a => 0 <= a.1 < 65536 /\ slot_ok a.2) arrivals ->
  exists r',
    ring_run late r (mjoin (alone <$> arrivals)) =
      Done (mjoin ((fun a => [Inserted 0; Drained (Some a.2); Drained None]) <$> arrivals), r') /\ ro_count r' = 0.
Proof.
  intros Hr Hc0 Hl Hok. revert r ss Hr Hc0. induction Hok as [|[seq p] arrivals [Hseq Hp] _ IH]; intros r ss Hr Hc0.
  { by exists r. }
  cbn [fst snd] in *. pose proof (cap_range k (ring_k _ _ _ Hr)).
  destruct (batch_in_order late k r ss seq [p] [0%nat]) as (r1 & ss1 & E & Hr1 & Hc1 & _); try done.
  { by constructor. }
  { rewrite zlen_cons, zlen_nil. lia. }
  destruct (IH r1 ss1 Hr1 Hc1) as (r' & E' & Hc').
  exists r'. split; [|done].
  change (mjoin (alone <$> _ :: arrivals)) with (alone (seq, p) ++ mjoin (alone <$> arrivals)).
  rewrite fmap_cons. change (mjoin (?x :: ?l)) with (x ++ mjoin l).
  revert E. unfold insert_at. cbn [fmap list_fmap list_lookup lookup length replicate Nat.add app compose].
  rewrite Z.add_0_r, u16_small by done. unfold alone at 1. cbn [fst snd]. intros E.
  rewrite ring_run_app, E. cbn [mbind outcome_bind]. by rewrite E'.
Qed.

(** A slot of the ring other than the next one. *)
Definition not_next (r : rtp_reorder_t) (op : reorder_op) : Prop :=
  match op with
  | Insert seq _ _ _ => Z.land seq (mask r) <> Z.land (next_seq r) (mask r)
  | Drain => True
  end.

(** Something is waiting for a packet that has not come. *)
Definition gap (r : rtp_reorder_t) (ss : list (option reorder_slot_t)) : Prop :=
  0 < ro_count r /\ ss !! Z.to_nat (Z.land (next_seq r) (mask r)) = Some None.

Lemma gap_drain k r ss : ring k r ss -> gap r ss -> reorder_drain r = Done (None, r).
Proof.
  intros Hr [Hc Hs]. unfold reorder_drain. rewrite (proj2 (Z.eqb_neq _ _)) by lia.
  unfold get_slot. by rewrite (ring_slots _ _ _ Hr), Hs.
Qed.

Lemma gap_insert k late r ss seq ts marker data :
  ring k r ss -> gap r ss -> Z.land seq (mask r) <> Z.land (next_seq r) (mask r) ->
  exists r' ss' res, reorder_insert r seq ts marker data late = Done (res, r') /\ ring k r' ss' /\ gap r' ss' /\
    next_seq r' = next_seq r /\ mask r' = mask r.
Proof.
  intros Hr [Hc Hs] Hne. unfold reorder_insert. rewrite (proj2 (Z.eqb_neq _ _)) by lia. cbv zeta.
  case (_ <? _); [exists (one_dropped r), ss, (-2); by destruct Hr|].
  case (_ <? _); [exists (one_dropped r), ss, (-2); by destruct Hr|].
  destruct (get_slot_ring k r ss seq Hr) as (s & Es & ->). cbn [mbind outcome_bind]. rewrite malloc_total.
  assert (Z.to_nat (Z.land seq (mask r)) <> Z.to_nat (Z.land (next_seq r) (mask r))) as Hi.
  { destruct Hr. pose proof (cap_range k ring_k0). intros E. apply Hne. rewrite ring_mask0 in *.
    rewrite !(land_ones_mod _ k) in * by lia.
    pose proof (Z.mod_pos_bound seq (2 ^ k)). pose proof (Z.mod_pos_bound (next_seq r) (2 ^ k)). lia. }
  assert (forall p n, n = occupied ss - (if is_present s then 1 else 0) + 1 -> 0 < n ->
    let ss' := <[Z.to_nat (Z.land seq (mask r)) := Some p]> ss in
    ring k (with_slots r ss' n) ss' /\ gap (with_slots r ss' n) ss') as Hstore.
  { intros p n Hn Hpos ss'. split; [by apply (store_ring k r ss _ _ s)|]. split; [done|].
    unfold ss'. by rewrite list_lookup_insert_ne. }
  destruct s as [old|].
  - destruct (same_packet old data); [by exists r, ss, 0|]. rewrite list_insert_insert_eq.
    eexists _, _, 0. split; [done|].
    split_and!; try done; apply Hstore; cbn; rewrite (ring_count _ _ _ Hr) in *; lia.
  - eexists _, _, 0. split; [done|].
    split_and!; try done; apply Hstore; cbn; rewrite (ring_count _ _ _ Hr) in *; lia.
Qed.

(** A packet lost from a batch stops the track: while packets wait behind the missing
    one, nothing is ever delivered again, whatever arrives and however long it goes on,
    unless the missing packet itself, or one a multiple of the capacity away, is sent. *)
Theorem gap_stalls late k r ss ops :
  ring k r ss -> gap r ss -> Forall (not_next r) ops ->
  exists outs r', ring_run late r ops = Done (outs, r') /\
    Forall (fun out => forall p, out <> Drained (Some p)) outs /\ next_seq r' = next_seq r.
Proof.
  intros Hr Hg Hops. revert ss Hr Hg. remember (next_seq r) as n eqn:En. remember (mask r) as m eqn:Em.
  revert r En Em Hops. induction ops as [|op ops IH]; intros r En Em Hops ss Hr Hg.
  { by exists [], r. }
  apply Forall_cons in Hops as [Hop Hops]. cbn [ring_run]. destruct op as [seq ts marker data|]; cbn [ring_step].
  - destruct (gap_insert k late r ss seq ts marker data Hr Hg Hop) as (r' & ss' & res & E & Hr' & Hg' & En' & Em').
    destruct (IH r' ltac:(congruence) ltac:(congruence)) with (ss := ss') as (outs & r'' & E' & ? & ?); try done.
    { eapply Forall_impl; [exact Hops|]. intros []; [|done]. cbn. by rewrite En', Em'. }
    rewrite E. cbn [mbind outcome_bind mret outcome_ret]. rewrite E'. cbn. eexists _, _.
    split; [done|]. split; [by constructor|done].
  - rewrite (gap_drain k r ss Hr Hg). cbn [mbind outcome_bind mret outcome_ret].
    destruct (IH r En Em Hops ss Hr Hg) as (outs & r'' & -> & ? & ?). cbn. eexists _, _.
    split; [done|]. split; [by constructor|done].
Qed.
End Properties.

(** ** On concrete packets *)

#[local] Existing Instance ample_memory.

Definition sample_ring : rtp_reorder_t :=
  match reorder_init 16 with Done (_, r) => r | _ => reorder_zero end.

Lemma sample_ring_ok : ring 4 sample_ring (replicate 16 None).
Proof. by constructor. Qed.

Definition sample_packet (b : Z) : reorder_slot_t := mk_slot [b; b] 2 1000 0.

Definition sample_batch : list reorder_slot_t := [sample_packet 1; sample_packet 2; sample_packet 3].

Lemma reorder_refines_witness :
  exists k r0, reorder_init 10 = Done (0, r0) /\ 10 <= 2 ^ k /\
    (all_on_time 500 (empty_window (2 ^ k)) (insert_at 65534 sample_batch <$> [0; 2; 1]%nat) ->
     exists r, ring_run 500 r0 (insert_at 65534 sample_batch <$> [0; 2; 1]%nat) =
       Done ((win_run (empty_window (2 ^ k)) (insert_at 65534 sample_batch <$> [0; 2; 1]%nat)).1, r)).
Proof. apply (@reorder_refines ample_memory ample_memory_ok); lia. Defined.

Lemma batch_in_order_witness :
  exists r' ss',
    ring_run 500 sample_ring ((insert_at 65534 sample_batch <$> [0; 2; 1]%nat) ++ replicate (length sample_batch + 1) Drain) =
      Done (((fun _ => Inserted 0) <$> [0; 2; 1]%nat) ++ (Drained ∘ Some <$> sample_batch) ++ [Drained None], r') /\
    ring 4 r' ss' /\ ro_count r' = 0 /\ next_seq r' = u16 (65534 + zlen sample_batch).
Proof.
  apply (@batch_in_order ample_memory ample_memory_ok 500 4 sample_ring (replicate 16 None) 65534
           sample_batch [0; 2; 1]%nat).
  - exact sample_ring_ok.
  - reflexivity.
  - lia.
  - lia.
  - repeat constructor.
  - vm_compute. discriminate.
  - apply perm_skip, perm_swap.
  - reflexivity.
Defined.

Lemma alone_never_reordered_witness :
  exists r',
    ring_run 500 sample_ring (mjoin (alone <$> [(7, sample_packet 7); (9, sample_packet 9); (8, sample_packet 8)])) =
      Done ([Inserted 0; Drained (Some (sample_packet 7)); Drained None; Inserted 0; Drained (Some (sample_packet 9));
             Drained None; Inserted 0; Drained (Some (sample_packet 8)); Drained None], r') /\ ro_count r' = 0.
Proof.
  apply (@alone_never_reordered ample_memory ample_memory_ok 500 4 sample_ring (replicate 16 None)
           [(7, sample_packet 7); (9, sample_packet 9); (8, sample_packet 8)]).
  - exact sample_ring_ok.
  - reflexivity.
  - lia.
  - repeat constructor; cbn; lia.
Defined.

(** Packets 7 and 9 came together and 7 was delivered: the ring waits for 8. *)
Definition waiting_ring : rtp_reorder_t :=
  match ring_run 500 sample_ring (insert_at 7 [sample_packet 7; sample_packet 8; sample_packet 9] <$> [0; 2]%nat) with
  | Done (_, r) => match reorder_drain r with Done (_, r) => r | _ => reorder_zero end
  | _ => reorder_zero
  end.

Definition waiting_slots : list (option reorder_slot_t) :=
  <[9%nat := Some (sample_packet 9)]> (replicate 16 None).

Lemma waiting_ring_ok : ring 4 waiting_ring waiting_slots /\ gap waiting_ring waiting_slots.
Proof. split; [by constructor|by split]. Qed.

Lemma gap_stalls_witness :
  exists outs r',
    ring_run 500 waiting_ring [Insert 10 0 0 [1]; Drain; Insert 30 0 0 [1]; Drain] = Done (outs, r') /\
    Forall (fun out => forall p, out <> Drained (Some p)) outs /\ next_seq r' = next_seq waiting_ring.
Proof.
  apply (@gap_stalls ample_memory ample_memory_ok 500 4 waiting_ring waiting_slots).
  - apply waiting_ring_ok.
  - apply waiting_ring_ok.
  - repeat constructor; vm_compute; discriminate.
Defined.

(** A packet behind the window but within the tolerance is stored in the slot of a packet
    to come, and delivered in its place: 65528 is 16 behind the awaited 8. *)
Example late_packet_delivered_as_new :
  exists r, ring_run 500 waiting_ring [Insert 65528 0 0 [99]; Drain; Drain] =
    Done ([Inserted 0; Drained (Some (mk_slot [99] 1 0 0)); Drained (Some (sample_packet 9))], r).
Proof. eexists. vm_compute. reflexivity. Qed.

(** With more than 32768 slots, [(int16_t)(total_capacity - 1)] is -1 and even the first
    packet is too far ahead; a tolerance of 32768 or more is negative as an [int16_t]. *)
Example huge_ring_drops :
  (exists r, reorder_insert (mk_reorder (Some []) 65535 0 0 65536 0 0) 5 0 0 [1] 500 = Done (-2, r)) /\
  (exists r, reorder_insert sample_ring 5 0 0 [1] 40000 = Done (-2, r)).
Proof. split; eexists; vm_compute; reflexivity. Qed.
