(* ===== verification/SdpTiming.v ===== *)
(** * Timestamps of the SDP demultiplexer: [src/sdp_demuxer.c]

    The phase-locked loop on the fill level of the reorder buffer, in the binary64
    arithmetic of [SpecFloat], and the conversion of RTP timestamps into nanoseconds.
    The readings of [CLOCK_MONOTONIC], in microseconds, are a function of the number of
    readings taken before. *)

From Stdlib Require Import SpecFloat.
From S2P Require Import Prelude Pad Caps.

Local Open Scope Z_scope.

(** ** Doubles *)

(** A decimal literal: the double nearest to [n / d]. *)
Definition d_lit (n d : Z) : cdouble := d_div (d_of_Z n) (d_of_Z d).

(** [a < b], false for a NaN *)
Definition d_lt (a b : cdouble) : bool := SFltb a b.
Definition d_le (a b : cdouble) : bool := SFleb a b.

(** [(uint64_t)d]: truncation.  Out of range, where C has no value, 0. *)
Definition u64_of_d (d : cdouble) : Z :=
  match d with
  | S754_finite false m e =>
      let v := if 0 <=? e then Z.pos m * 2 ^ e else Z.pos m / 2 ^ (- e) in
      if v <=? UINT64_MAX then v else 0
  | _ => 0
  end.

Definition SDP_DEMUXER_DPLL_KP : cdouble := d_lit 1 2.
Definition SDP_DEMUXER_DPLL_KI : cdouble := d_lit 1 10.
Definition SDP_DEMUXER_DPLL_WINDUP_LIMIT : cdouble := d_lit 5 100.
Definition SDP_DEMUXER_DPLL_DELTA_LIMIT : cdouble := d_lit 1 100.
Definition d_one : cdouble := d_of_Z 1.

(** ** The loop *)

Record dpll_context_t := mk_dpll {
  kp : cdouble;
  ki : cdouble;
  integral : cdouble;
  buffer_capacity : Z;
  target_level : Z;
  nominal_ratio : cdouble;
  phase_accumulator : cdouble;
  last_update_us : Z;
}.

Definition dpll_zero : dpll_context_t := mk_dpll d_zero d_zero d_zero 0 0 d_zero d_zero 0.

Definition dpll_init (capacity : Z) : dpll_context_t :=
  let target := capacity / 2 in
  mk_dpll SDP_DEMUXER_DPLL_KP SDP_DEMUXER_DPLL_KI d_zero capacity (if target <? 1 then 1 else target) d_one d_zero 0.

Definition with_target (ctx : dpll_context_t) (level : Z) : dpll_context_t :=
  mk_dpll (kp ctx) (ki ctx) (integral ctx) (buffer_capacity ctx) level (nominal_ratio ctx) (phase_accumulator ctx)
    (last_update_us ctx).

Definition dpll_reset (ctx : dpll_context_t) : dpll_context_t :=
  mk_dpll (kp ctx) (ki ctx) d_zero (buffer_capacity ctx) (target_level ctx) (nominal_ratio ctx) d_zero 0.

Definition with_update (ctx : dpll_context_t) (i : cdouble) (now : Z) : dpll_context_t :=
  mk_dpll (kp ctx) (ki ctx) i (buffer_capacity ctx) (target_level ctx) (nominal_ratio ctx) (phase_accumulator ctx) now.

(** [if (x > limit) x = limit; if (x < -limit) x = -limit;] *)
Definition d_clamp (limit x : cdouble) : cdouble :=
  let x := if d_lt limit x then limit else x in
  if d_lt x (SFopp limit) then SFopp limit else x.

Definition dpll_error (ctx : dpll_context_t) (current_level : Z) : cdouble :=
  d_div (d_sub (d_of_Z current_level) (d_of_Z (target_level ctx))) (d_of_Z (buffer_capacity ctx)).

(** The ratio, and the next state. *)
Definition dpll_update (ctx : dpll_context_t) (current_level now_us : Z) : cdouble * dpll_context_t :=
  if last_update_us ctx =? 0 then (nominal_ratio ctx, with_update ctx (integral ctx) now_us)
  else
    let dt := d_div (d_of_Z (u64 (now_us - last_update_us ctx))) (d_of_Z 1000000) in
    let dt := if d_le dt d_zero || d_lt d_one dt then d_lit 1 100 else dt in
    let error := dpll_error ctx current_level in
    let i := d_clamp SDP_DEMUXER_DPLL_WINDUP_LIMIT (d_add (integral ctx) (d_mul error dt)) in
    let delta_r := d_clamp SDP_DEMUXER_DPLL_DELTA_LIMIT (d_add (d_mul (kp ctx) error) (d_mul (ki ctx) i)) in
    (d_add (nominal_ratio ctx) delta_r, with_update ctx i now_us).

(** ** Timestamps of one track *)

Definition ntp_to_unix_ns (ntp : Z) : Z :=
  let sec := u32 (Z.shiftr ntp 32) in
  let frac := u32 (Z.land ntp 4294967295) in
  let unix_sec := if 2208988800 <=? sec then sec - 2208988800 else 0 in
  u64 (unix_sec * 1000000000 + Z.shiftr (frac * 1000000000) 32).

(** The fields of [sdp_track_t] under "PTS tracking" and "RTCP SR sync state", with the
    loop. *)
Record track_timing := mk_timing {
  base_pts : Z;
  base_rtp_ts : Z;
  has_base_pts : bool;
  has_sr : bool;
  last_ntp_time : Z;
  last_rtp_time : Z;
  dpll : dpll_context_t;
}.

Definition timing_zero : track_timing := mk_timing 0 0 false false 0 0 dpll_zero.

Definition with_base (t : track_timing) (pts ts : Z) : track_timing :=
  mk_timing pts ts true (has_sr t) (last_ntp_time t) (last_rtp_time t) (dpll t).
Definition with_sr (t : track_timing) (ntp rtp : Z) : track_timing :=
  mk_timing (base_pts t) (base_rtp_ts t) (has_base_pts t) true ntp rtp (dpll_reset (dpll t)).
Definition with_dpll (t : track_timing) (d : dpll_context_t) : track_timing :=
  mk_timing (base_pts t) (base_rtp_ts t) (has_base_pts t) (has_sr t) (last_ntp_time t) (last_rtp_time t) d.

Section Clock.
Variable monotonic_us : nat -> Z.

(** One reading, by [now_us]. *)
Definition now_us (n : nat) : Z * nat := (u64 (monotonic_us n), S n).

(** [(uint64_t)delta * 1000000000ULL / (uint64_t)clock_rate] *)
Definition ticks_to_ns (delta clock_rate : Z) : Z := u64 (u64 delta * 1000000000) / clock_rate.

(** [delta += (int32_t)0x100000000LL] adds nothing. *)
Definition signed_delta (rtp_ts base : Z) : Z :=
  let delta := s32 (rtp_ts - base) in
  if delta <? 0 then s32 (delta + s32 4294967296) else delta.

(** The presentation time; [count] is the fill level of the track's reorder buffer, [n]
    the number of clock readings so far. *)
Definition sdp_rtp_ts_to_pts (t : track_timing) (clock_rate count rtp_ts : Z) (n : nat)
  : Z * track_timing * nat :=
  let clock_rate := if 0 <? clock_rate then clock_rate else 90000 in
  if has_sr t then
    let delta := u32 (rtp_ts - last_rtp_time t) in
    (u64 (ntp_to_unix_ns (last_ntp_time t) + ticks_to_ns delta clock_rate), t, n)
  else if negb (has_base_pts t) then
    let '(now, n) := now_us n in
    let pts := u64 (now * 1000) in
    (pts, with_base t pts rtp_ts, n)
  else
    let delta := signed_delta rtp_ts (base_rtp_ts t) in
    let pts := u64 (base_pts t + ticks_to_ns delta clock_rate) in
    let '(now, n) := now_us n in
    let '(ratio, d) := dpll_update (dpll t) count now in
    let pts := if d_lt d_zero ratio && negb (deq ratio d_one) then u64_of_d (d_div (d_of_Z pts) ratio) else pts in
    (pts, with_dpll t d, n).
End Clock.
