(* ===== verification/SdpText.v ===== *)
(** * Parsing an SDP description: [src/sdp_demuxer.c]

    From [sdp_trim] to [sdp_demuxer_parse_sdp].  A pointer into a text is the text from
    there on; [sdp_trim] cuts the text it is given, which the parser never reads past the
    cut.  An [int] or [long] operation that overflows is a [Fault]. *)

From Stdlib Require Import Ascii String.
From S2P Require Import Prelude CLib Pad Sha1 Caps SdpReorder SdpTiming.

Local Open Scope string_scope.
Local Open Scope Z_scope.

Definition SDP_DEMUXER_MAX_TRACKS : Z := 8.
Definition SDP_DEMUXER_MAX_PT_PER_TRACK : Z := 16.
Definition SDP_DEMUXER_MAX_LINE : Z := 1024.

(** ** More of the C library *)

Fixpoint str_drop (n : nat) (s : string) : string :=
  match n, s with S n, String _ s => str_drop n s | _, _ => s end.

Definition str_len (s : string) : Z := Z.of_nat (String.length s).

(** The first characters, up to one that satisfies [stop], and the rest:
    [strcspn], [strchr]. *)
Fixpoint str_span (stop : ascii -> bool) (s : string) : string * string :=
  match s with
  | EmptyString => (EmptyString, EmptyString)
  | String c s' => if stop c then (EmptyString, s) else let '(a, b) := str_span stop s' in (String c a, b)
  end.

(** [strncasecmp(s, key, strlen(key)) == 0] *)
Definition has_prefix (key s : string) : bool := strcaseeq (str_take (String.length key) s) key.

Definition is_char (c d : ascii) : bool := Ascii.eqb c d.

(** [strtol(s, &end, 10)]: the value and [end], [None] when [end == s]. *)
Definition is_digit (c : ascii) : bool := digit_val c <? 10.

Definition strtol_end (s : string) : option (Z * string) :=
  let '(_, t) := parse_sign (skip_spaces s) in
  let '(ds, rest) := str_span (fun c => negb (is_digit c)) t in
  if str_len ds =? 0 then None else Some (strtol10 s, rest).

(** An [int] result. *)
Definition int_of (z : Z) : outcome Z := if (-2147483648 <=? z) && (z <=? INT32_MAX) then Done z else Fault.

(** ** [sdp_trim] *)

Fixpoint str_rtrim (s : string) : string :=
  match s with
  | EmptyString => EmptyString
  | String c s' =>
      match str_rtrim s' with
      | EmptyString => if is_space c then EmptyString else String c EmptyString
      | t => String c t
      end
  end.

Definition sdp_trim (s : string) : string := str_rtrim (skip_spaces s).

(** ** Tracks *)

Record src_pad_t := mk_src_pad { pad_name : string; pad_linked : bool }.

(** The reassembly buffer: the first [fu_accum_len] bytes. *)
Record fu_state := mk_fu { fu_accum : bytes; fu_accum_ts : Z; fu_accum_ssrc : Z }.

Record sdp_track_t := mk_track {
  tr_type : Z;
  tr_payload_type : Z;
  tr_payload_types : list Z;
  tr_encoding : string;
  tr_clock_rate : Z;
  tr_channels : Z;
  tr_fmtp : string;
  tr_ssrc : Z;
  tr_reorder : rtp_reorder_t;
  tr_fu : fu_state;
  tr_timing : track_timing;
  tr_extra : option bytes;
  tr_src_pad : option src_pad_t;
  tr_active : bool;
  tr_packets_processed : Z;
  tr_frames_pushed : Z;
}.

Definition no_fu : fu_state := mk_fu [] 0 0.

(** [memset(cur, 0, sizeof( *cur))] *)
Definition track_zero : sdp_track_t :=
  mk_track 0 0 [] "" 0 0 "" 0 reorder_zero no_fu timing_zero None None false 0 0.

Definition with_payloads (t : sdp_track_t) (pt : Z) (pts : list Z) : sdp_track_t :=
  mk_track (tr_type t) pt pts (tr_encoding t) (tr_clock_rate t) (tr_channels t) (tr_fmtp t) (tr_ssrc t)
    (tr_reorder t) (tr_fu t) (tr_timing t) (tr_extra t) (tr_src_pad t) (tr_active t)
    (tr_packets_processed t) (tr_frames_pushed t).
Definition with_extra (t : sdp_track_t) (x : option bytes) : sdp_track_t :=
  mk_track (tr_type t) (tr_payload_type t) (tr_payload_types t) (tr_encoding t) (tr_clock_rate t) (tr_channels t)
    (tr_fmtp t) (tr_ssrc t) (tr_reorder t) (tr_fu t) (tr_timing t) x (tr_src_pad t) (tr_active t)
    (tr_packets_processed t) (tr_frames_pushed t).
Definition with_rtpmap (t : sdp_track_t) (pt : Z) (enc : string) (rate ch : Z) : sdp_track_t :=
  mk_track (tr_type t) pt (tr_payload_types t) enc rate ch
    (tr_fmtp t) (tr_ssrc t) (tr_reorder t) (tr_fu t) (tr_timing t) (tr_extra t) (tr_src_pad t) (tr_active t)
    (tr_packets_processed t) (tr_frames_pushed t).
Definition with_fmtp (t : sdp_track_t) (pt : Z) (fmtp : string) : sdp_track_t :=
  mk_track (tr_type t) pt (tr_payload_types t) (tr_encoding t) (tr_clock_rate t) (tr_channels t)
    fmtp (tr_ssrc t) (tr_reorder t) (tr_fu t) (tr_timing t) (tr_extra t) (tr_src_pad t) (tr_active t)
    (tr_packets_processed t) (tr_frames_pushed t).
Definition with_active (t : sdp_track_t) (active : bool) : sdp_track_t :=
  mk_track (tr_type t) (tr_payload_type t) (tr_payload_types t) (tr_encoding t) (tr_clock_rate t) (tr_channels t)
    (tr_fmtp t) (tr_ssrc t) (tr_reorder t) (tr_fu t) (tr_timing t) (tr_extra t) (tr_src_pad t) active
    (tr_packets_processed t) (tr_frames_pushed t).
Definition with_reorder (t : sdp_track_t) (r : rtp_reorder_t) : sdp_track_t :=
  mk_track (tr_type t) (tr_payload_type t) (tr_payload_types t) (tr_encoding t) (tr_clock_rate t) (tr_channels t)
    (tr_fmtp t) (tr_ssrc t) r (tr_fu t) (tr_timing t) (tr_extra t) (tr_src_pad t) (tr_active t)
    (tr_packets_processed t) (tr_frames_pushed t).
Definition with_timing (t : sdp_track_t) (tm : track_timing) : sdp_track_t :=
  mk_track (tr_type t) (tr_payload_type t) (tr_payload_types t) (tr_encoding t) (tr_clock_rate t) (tr_channels t)
    (tr_fmtp t) (tr_ssrc t) (tr_reorder t) (tr_fu t) tm (tr_extra t) (tr_src_pad t) (tr_active t)
    (tr_packets_processed t) (tr_frames_pushed t).
Definition with_fu (t : sdp_track_t) (fu : fu_state) : sdp_track_t :=
  mk_track (tr_type t) (tr_payload_type t) (tr_payload_types t) (tr_encoding t) (tr_clock_rate t) (tr_channels t)
    (tr_fmtp t) (tr_ssrc t) (tr_reorder t) fu (tr_timing t) (tr_extra t) (tr_src_pad t) (tr_active t)
    (tr_packets_processed t) (tr_frames_pushed t).
Definition with_ssrc (t : sdp_track_t) (ssrc : Z) : sdp_track_t :=
  mk_track (tr_type t) (tr_payload_type t) (tr_payload_types t) (tr_encoding t) (tr_clock_rate t) (tr_channels t)
    (tr_fmtp t) ssrc (tr_reorder t) (tr_fu t) (tr_timing t) (tr_extra t) (tr_src_pad t) (tr_active t)
    (tr_packets_processed t) (tr_frames_pushed t).
Definition with_src_pad (t : sdp_track_t) (p : option src_pad_t) (active : bool) : sdp_track_t :=
  mk_track (tr_type t) (tr_payload_type t) (tr_payload_types t) (tr_encoding t) (tr_clock_rate t) (tr_channels t)
    (tr_fmtp t) (tr_ssrc t) (tr_reorder t) (tr_fu t) (tr_timing t) (tr_extra t) p active
    (tr_packets_processed t) (tr_frames_pushed t).
Definition with_counts (t : sdp_track_t) (packets frames : Z) : sdp_track_t :=
  mk_track (tr_type t) (tr_payload_type t) (tr_payload_types t) (tr_encoding t) (tr_clock_rate t) (tr_channels t)
    (tr_fmtp t) (tr_ssrc t) (tr_reorder t) (tr_fu t) (tr_timing t) (tr_extra t) (tr_src_pad t) (tr_active t)
    packets frames.

Definition sdp_demuxer_free_track (t : sdp_track_t) : sdp_track_t :=
  with_active (with_extra (with_reorder t (reorder_destroy (tr_reorder t))) None) false.

Definition sdp_track_has_payload_type (t : sdp_track_t) (pt : Z) : bool :=
  if pt <? 0 then false
  else existsb (Z.eqb pt) (tr_payload_types t) || (zlen (tr_payload_types t) =? 0) && (tr_payload_type t =? pt).

Definition sdp_track_add_payload_type (t : sdp_track_t) (pt : Z) : sdp_track_t :=
  if (pt <? 0) || (127 <? pt) || sdp_track_has_payload_type t pt then t
  else if zlen (tr_payload_types t) <? SDP_DEMUXER_MAX_PT_PER_TRACK then
    with_payloads t (if tr_payload_type t <? 0 then pt else tr_payload_type t) (tr_payload_types t ++ [pt])%list
  else t.

Definition sdp_encoding_is_h264 (enc : string) : bool := strcaseeq enc "H264".
Definition sdp_encoding_is_h265 (enc : string) : bool :=
  strcaseeq enc "H265" || strcaseeq enc "HEVC" || strcaseeq enc "HVC1".
Definition sdp_encoding_is_aac (enc : string) : bool := strcaseeq enc "MPEG4-GENERIC" || strcaseeq enc "AAC".

Definition sdp_track_codec_supported (t : sdp_track_t) : bool :=
  if tr_payload_type t <? 0 then false
  else if tr_type t =? 1 then sdp_encoding_is_h264 (tr_encoding t) || sdp_encoding_is_h265 (tr_encoding t)
  else if tr_type t =? 2 then sdp_encoding_is_aac (tr_encoding t)
  else false.

(** ** Format parameters *)

(** One token: [tok], without trailing spaces, against [key]. *)
Definition token_value (tok key : string) (out_cap : Z) : option string :=
  if (str_len key <? str_len tok) && has_prefix key tok then
    match skip_spaces (str_drop (String.length key) tok) with
    | String c val =>
        if is_char c "=" then Some (str_take (Z.to_nat (out_cap - 1)) (sdp_trim val)) else None
    | EmptyString => None
    end
  else None.

(** [fuel] counts rounds of [while ( *p)]; the length of the text and one more is enough. *)
Fixpoint fmtp_search (fuel : nat) (p key : string) (out_cap : Z) : option string :=
  match fuel with
  | O => None
  | S fuel =>
      match p with
      | EmptyString => None
      | _ =>
          let p := (str_span (fun c => negb (is_char c ";" || is_space c)) p).2 in
          let '(tok, p) := str_span (fun c => is_char c ";") p in
          match token_value (str_rtrim tok) key out_cap with
          | Some v => Some v
          | None => fmtp_search fuel p key out_cap
          end
      end
  end.

Definition sdp_fmtp_get_param (fmtp key : string) (out_cap : Z) : option string :=
  if out_cap =? 0 then None else fmtp_search (S (String.length fmtp)) fmtp key out_cap.

Section Memory.
Context `{CMemory}.

Definition sdp_append_extradata (t : sdp_track_t) (data : bytes) (annexb_start_code : bool) : sdp_track_t :=
  if zlen data <=? 0 then t
  else
    let old := default [] (tr_extra t) in
    let prefix := if annexb_start_code then [0; 0; 0; 1] else [] in
    if malloc_ok (zlen old + zlen prefix + zlen data) then with_extra t (Some (old ++ prefix ++ data)%list) else t.

(** One Base64 text decoded and appended, when it decodes to something. *)
Definition append_decoded (t : sdp_track_t) (value : string) : sdp_track_t :=
  match Base64.sdp_base64_decode (text value) 512 with
  | Some decoded => if 0 <? zlen decoded then sdp_append_extradata t decoded true else t
  | None => t
  end.

(** The loop over the parts between commas, which stops at an empty rest. *)
Fixpoint append_tokens (fuel : nat) (t : sdp_track_t) (token : string) : sdp_track_t :=
  match fuel, token with
  | S fuel, String _ _ =>
      let '(one, rest) := str_span (fun c => is_char c ",") token in
      let t := append_decoded t (sdp_trim one) in
      append_tokens fuel t (str_drop 1 rest)
  | _, _ => t
  end.

(** Pairs of hexadecimal digits, [cap] of them at most; [None] at another character. *)
Fixpoint hex_bytes (cap : nat) (value : string) : option bytes :=
  match cap, value with
  | S cap, String c (String d value) =>
      if (digit_val c <? 16) && (digit_val d <? 16) then
        cons (u8 (digit_val c * 16 + digit_val d)) <$> hex_bytes cap value
      else None
  | _, _ => Some []
  end.

Definition sdp_parse_fmtp_extradata (t : sdp_track_t) : sdp_track_t :=
  if streq (tr_fmtp t) "" then t
  else
    let t := with_extra t None in
    if sdp_encoding_is_h264 (tr_encoding t) then
      match sdp_fmtp_get_param (tr_fmtp t) "sprop-parameter-sets" 512 with
      | Some value => append_tokens (S (String.length value)) t value
      | None => t
      end
    else if sdp_encoding_is_h265 (tr_encoding t) then
      fold_left (fun t key =>
        match sdp_fmtp_get_param (tr_fmtp t) key 512 with
        | Some value => append_decoded t value
        | None => t
        end) ["sprop-vps"; "sprop-sps"; "sprop-pps"] t
    else if sdp_encoding_is_aac (tr_encoding t) then
      match sdp_fmtp_get_param (tr_fmtp t) "config" 256 with
      | Some value =>
          if Z.odd (str_len value) then t
          else match hex_bytes 128 value with
          | Some decoded => if 0 <? zlen decoded then sdp_append_extradata t decoded false else t
          | None => t
          end
      | None => t
      end
    else t.

(** ** Lines *)

(** The lines of a text, without their newline; nothing after a final newline. *)
Fixpoint split_lines (s : string) : list string :=
  match s with
  | EmptyString => []
  | String c s' =>
      if is_char c "010" then EmptyString :: split_lines s'
      else match split_lines s' with
      | [] => [String c EmptyString]
      | l :: ls => String c l :: ls
      end
  end.

(** [while (line_len > 0 && (p[line_len - 1] == '\r' ...)) line_len--;] *)
Fixpoint strip_cr (s : string) : string :=
  match s with
  | EmptyString => EmptyString
  | String c s' =>
      match strip_cr s' with
      | EmptyString => if is_char c "013" || is_char c "010" then EmptyString else String c EmptyString
      | t => String c t
      end
  end.

Definition line_of (l : string) : string := sdp_trim (str_take (Z.to_nat (SDP_DEMUXER_MAX_LINE - 1)) (strip_cr l)).

Definition is_blank (c : ascii) : bool := is_char c " " || is_char c "009".

(** The next word, and the text after it. *)
Definition next_word (s : string) : string * string :=
  str_span is_blank (str_span (fun c => negb (is_blank c)) s).2.

(** The digits at the front of a word, in a [long], and what follows them. *)
Fixpoint fmt_number (pt : Z) (s : string) : outcome (Z * string) :=
  match s with
  | String c s' =>
      if is_digit c then
        let pt := pt * 10 + digit_val c in
        if 9223372036854775807 <? pt then Fault else fmt_number pt s'
      else Done (pt, s)
  | EmptyString => Done (pt, s)
  end.

(** The payload types listed on a media line. *)
Fixpoint fmt_list (fuel : nat) (t : sdp_track_t) (rp : string) : outcome sdp_track_t :=
  match fuel with
  | O => Unfinished
  | S fuel =>
      match next_word rp with
      | (EmptyString, _) => mret t
      | (fmt, rp) =>
          '(pt, rest) ← fmt_number 0 fmt;
          let t := if (str_len rest =? 0) && (pt <=? 127) then sdp_track_add_payload_type t pt else t in
          fmt_list fuel t rp
      end
  end.

Record sdp_config := mk_config {
  jitter_buffer_ms : Z;
  reorder_capacity : Z;
  max_lateness_ms : Z;
  default_clock_video : Z;
  default_clock_audio : Z;
}.

Definition media_type_of (media : string) : Z :=
  if (str_len media =? 5) && has_prefix "video" media then 1
  else if (str_len media =? 5) && has_prefix "audio" media then 2
  else 0.

(** The reorder buffer and the loop of a new track. *)
Definition track_buffers (cfg : sdp_config) (t : sdp_track_t) : outcome (option sdp_track_t) :=
  '(ret, r) ← reorder_init (reorder_capacity cfg);
  if negb (ret =? 0) then mret None
  else
    product ← int_of (reorder_capacity cfg * jitter_buffer_ms cfg);
    total ← int_of (jitter_buffer_ms cfg + 100);
    let level := Z.quot product total in
    let d := with_target (dpll_init (reorder_capacity cfg)) (u64 level) in
    let d := with_target d (if target_level d <? 1 then 1 else target_level d) in
    mret (Some (with_active (with_timing (with_reorder t r) (with_dpll (tr_timing t) d)) true)).

(** An m= line, after [m=]: the track it opens, if it does. *)
Definition media_line (cfg : sdp_config) (rest : string) : outcome (option sdp_track_t) :=
  let '(media, rp) := next_word (sdp_trim rest) in
  let '(port, rp) := next_word rp in
  let '(proto, rp) := next_word rp in
  let ty := media_type_of media in
  if ty =? 0 then mret None
  else
    let t := with_rtpmap track_zero (-1) "" (if ty =? 1 then default_clock_video cfg else default_clock_audio cfg)
               (if ty =? 2 then 2 else 0) in
    let t := mk_track ty (tr_payload_type t) [] "" (tr_clock_rate t) (tr_channels t) "" 0
               reorder_zero no_fu timing_zero None None false 0 0 in
    t ← fmt_list (S (String.length rp)) t rp;
    if zlen (tr_payload_types t) =? 0 then mret None else track_buffers cfg t.

(** A payload type at the front of an attribute's value, known to the track. *)
Definition attribute_pt (t : sdp_track_t) (attr : string) : option (Z * string) :=
  match strtol_end attr with
  | Some (pt, rest) =>
      if (0 <=? pt) && (pt <=? 127) && sdp_track_has_payload_type t pt then Some (pt, sdp_trim rest) else None
  | None => None
  end.

Definition rtpmap_line (t : sdp_track_t) (attr : string) : sdp_track_t :=
  match attribute_pt t attr with
  | None => t
  | Some (pt, enc) =>
      let '(name, after) := str_span (fun c => is_char c "/") enc in
      match after with
      | EmptyString => t
      | String _ after =>
          let '(clock, more) := str_span (fun c => is_char c "/") after in
          if negb (sdp_track_codec_supported t) || (tr_payload_type t =? pt) then
            let rate := if 0 <? atoi clock then atoi clock else tr_clock_rate t in
            let ch :=
              match more with
              | String _ more => if 0 <? atoi more then atoi more else tr_channels t
              | EmptyString => if (tr_type t =? 2) && (tr_channels t <=? 0) then 1 else tr_channels t
              end in
            let t := with_rtpmap t pt (str_take 31 name) rate ch in
            if streq (tr_fmtp t) "" then t else sdp_parse_fmtp_extradata t
          else t
      end
  end.

Definition fmtp_line (t : sdp_track_t) (attr : string) : sdp_track_t :=
  match attribute_pt t attr with
  | None => t
  | Some (pt, fmtp) =>
      if (tr_payload_type t =? pt) || negb (sdp_track_codec_supported t) then
        sdp_parse_fmtp_extradata (with_fmtp t pt (strncpy_n 512 fmtp))
      else t
  end.

(** An a= line, after [a=]. *)
Definition attribute_line (t : sdp_track_t) (rest : string) : sdp_track_t :=
  let val := sdp_trim rest in
  if has_prefix "rtpmap:" val then rtpmap_line t (sdp_trim (str_drop 7 val))
  else if has_prefix "fmtp:" val then fmtp_line t (sdp_trim (str_drop 5 val))
  else if strcaseeq val "inactive" then with_active t false
  else t.

(** The tracks so far, and the one attributes apply to. *)
Definition parse_line (cfg : sdp_config) (st : list sdp_track_t * option nat) (l : string)
  : outcome (list sdp_track_t * option nat) :=
  let '(raw, track) := st in
  match line_of l with
  | String a (String b rest) =>
      if is_char a "m" && is_char b "=" then
        if SDP_DEMUXER_MAX_TRACKS <=? zlen raw then mret (raw, None)
        else
          cur ← media_line cfg rest;
          match cur with
          | Some t => mret (raw ++ [t], Some (length raw))%list
          | None => mret (raw, None)
          end
      else if is_char a "a" && is_char b "=" then
        match track with
        | Some i => mret (alter (fun t => attribute_line t rest) i raw, track)
        | None => mret (raw, track)
        end
      else mret (raw, track)
  | _ => mret (raw, track)
  end.

Fixpoint parse_lines (cfg : sdp_config) (st : list sdp_track_t * option nat) (ls : list string)
  : outcome (list sdp_track_t * option nat) :=
  match ls with
  | [] => mret st
  | l :: ls => st ← parse_line cfg st l; parse_lines cfg st ls
  end.

Definition kept_track (t : sdp_track_t) : bool := tr_active t && sdp_track_codec_supported t.

Definition has_pad (t : sdp_track_t) : bool := match tr_src_pad t with Some _ => true | None => false end.

(** Tracks are freed and cleared up to the first with a pad. *)
Fixpoint free_tracks (ts : list sdp_track_t) : list sdp_track_t :=
  match ts with
  | [] => []
  | t :: ts => if has_pad t then t :: ts else track_zero :: free_tracks ts
  end.

(** The result, the tracks and [sdp_parsed]; [tracks] are the present ones.  Refusing a
    text leaves [sdp_parsed] and the tracks from the first with a pad on as they are. *)
Definition sdp_demuxer_parse_sdp (cfg : sdp_config) (sdp_text : string) (tracks : list sdp_track_t) (parsed : bool)
  : outcome (Z * list sdp_track_t * bool) :=
  if streq sdp_text "" then mret (-1, tracks, parsed)
  else if existsb has_pad tracks then
    mret (-1, free_tracks tracks, parsed)
  else
    '(raw, _) ← parse_lines cfg ([], None) (split_lines sdp_text);
    let kept := filter kept_track raw in
    mret (zlen kept, kept, true).
End Memory.
