(* ===== verification/SdpDemux.v ===== *)
(** * The SDP/RTP demultiplexer: [src/sdp_demuxer.c]

    Depacketization, RTCP, the sink pad's handler, and the element's operations, over the
    tracks of [SdpText].  What is pushed on the source pads is a log: the result of
    [zst_pad_push] is ignored by the code.  Every call runs under the element's mutex and
    is one step.  A byte outside what a function is given, or a slice that reaches outside
    of it, is a [Fault] ([rd_in], [sub_in]). *)

From Stdlib Require Import Ascii String.
From S2P Require Import Prelude CLib Pad PadOps Caps SdpReorder SdpTiming SdpText.

Local Open Scope string_scope.
Local Open Scope Z_scope.

Definition SDP_DEMUXER_MAX_FU_ACCUM : Z := 150000.
Definition H264_NAL_SINGLE_MAX : Z := 23.
Definition H264_NAL_STAP_A : Z := 24.
Definition H264_NAL_FU_A : Z := 28.
Definition H265_NAL_AP : Z := 48.
Definition H265_NAL_FU : Z := 49.

(** A buffer pushed on the pad of that name, with the extradata its [payload] points to. *)
Record pushed := mk_pushed { pu_pad : string; pu_extra : option bytes; pu_buf : zst_buffer }.

(** One track, the clock readings taken, and what was pushed. *)
Record track_run := mk_run { run_track : sdp_track_t; run_clock : nat; run_out : list pushed }.

Definition on_track (f : sdp_track_t -> sdp_track_t) (s : track_run) : track_run :=
  mk_run (f (run_track s)) (run_clock s) (run_out s).

Definition linked_pad (t : sdp_track_t) : option string :=
  match tr_src_pad t with Some p => if pad_linked p then Some (pad_name p) else None | None => None end.

Definition one_frame (t : sdp_track_t) : sdp_track_t :=
  with_counts t (tr_packets_processed t) (u64 (tr_frames_pushed t + 1)).
Definition one_packet (t : sdp_track_t) : sdp_track_t :=
  with_counts t (u64 (tr_packets_processed t + 1)) (tr_frames_pushed t).

(** [data[i]], and [data + off] with a length, of the [zlen data] bytes at [data]. *)
Definition rd_in (data : bytes) (i : Z) : outcome Z :=
  if (0 <=? i) && (i <? zlen data) then Done (rd data i) else Fault.
Definition sub_in (off len : Z) (data : bytes) : outcome bytes :=
  if (0 <=? off) && (0 <=? len) && (off + len <=? zlen data) then Done (sub_bytes off len data) else Fault.

Definition be16_at (data : bytes) (i : Z) : outcome Z :=
  a ← rd_in data i; b ← rd_in data (i + 1); mret (be16 a b).
Definition be32_at (data : bytes) (i : Z) : outcome Z :=
  a ← rd_in data i; b ← rd_in data (i + 1); c ← rd_in data (i + 2); d ← rd_in data (i + 3); mret (be32 a b c d).

Section Demuxer.
Context `{CMemory} (monotonic_us : nat -> Z) (stale_size : caps_value -> Z).

Definition log_push (s : track_run) (pad : string) (extra : option bytes) (b : zst_buffer) : track_run :=
  mk_run (run_track s) (run_clock s) (run_out s ++ [mk_pushed pad extra b])%list.

Definition run_pts (s : track_run) (rtp_ts : Z) : Z * track_run :=
  let t := run_track s in
  let '(pts, tm, n) :=
    sdp_rtp_ts_to_pts monotonic_us (tr_timing t) (tr_clock_rate t) (ro_count (tr_reorder t)) rtp_ts (run_clock s) in
  (pts, mk_run (with_timing t tm) n (run_out s)).

(** ** Pushing *)

Definition sdp_push_buffer (s : track_run) (data : bytes) (pts : Z) (is_video : bool) : track_run :=
  match linked_pad (run_track s) with
  | None => s
  | Some pad =>
      let buf_type := if is_video then ZST_BUFFER_VIDEO_PACKET else ZST_BUFFER_AUDIO_PACKET in
      if malloc_ok SIZEOF_BUFFER && malloc_ok (zlen data) then
        let extra := match tr_extra (run_track s) with
                     | Some x => if 0 <? zlen x then Some x else None
                     | None => None
                     end in
        on_track one_frame (log_push s pad extra (buffer_of buf_type 0 pts pts 0 data))
      else s
  end.

Definition sdp_push_h264_nal (s : track_run) (data : bytes) (pts : Z) : track_run :=
  if malloc_ok (zlen data + 4) then sdp_push_buffer s ([0; 0; 0; 1] ++ data)%list pts true else s.

Definition sdp_push_h265_nal (s : track_run) (data : bytes) (pts : Z) : track_run :=
  if malloc_ok (zlen data + 4) then sdp_push_buffer s ([0; 0; 0; 1] ++ data)%list pts true else s.

Definition sdp_push_aac_frame (s : track_run) (data : bytes) (pts : Z) : track_run :=
  if malloc_ok (zlen data) && malloc_ok SIZEOF_BUFFER then
    on_track one_frame
      (match linked_pad (run_track s) with
       | Some pad => log_push s pad None (buffer_of ZST_BUFFER_AUDIO_PACKET 0 pts pts 0 data)
       | None => s
       end)
  else s.

(** ** Depacketization

    The payload [data] has [len = zlen data] bytes. *)

(** The units of an aggregation packet: a 16-bit size and that many bytes, from [offset]
    on. *)
Fixpoint push_units (push : track_run -> bytes -> Z -> track_run) (fuel : nat) (s : track_run) (data : bytes)
    (offset pts : Z) : outcome track_run :=
  if offset + 2 <=? zlen data then
    match fuel with
    | O => Unfinished
    | S fuel =>
        size ← be16_at data offset;
        let offset := offset + 2 in
        if zlen data <? offset + size then Done s
        else unit ← sub_in offset size data; push_units push fuel (push s unit pts) data (offset + size) pts
    end
  else Done s.

(** [memcpy] behind what is accumulated, if it fits. *)
Definition fu_append (fu : fu_state) (more : bytes) : fu_state :=
  if (0 <? zlen more) && (zlen (fu_accum fu) + zlen more <=? SDP_DEMUXER_MAX_FU_ACCUM)
  then mk_fu (fu_accum fu ++ more)%list (fu_accum_ts fu) (fu_accum_ssrc fu) else fu.

(** A fragment: at the start the header [header] replaces what is accumulated; the bytes
    after [skip] are added when the fragment belongs to the same timestamp and source; at
    the end the unit is pushed if it is longer than its header. *)
Definition fragment (push : track_run -> bytes -> Z -> track_run) (s : track_run) (data header : bytes)
    (skip rtp_ts : Z) (start_bit end_bit : bool) : outcome track_run :=
  let ssrc := tr_ssrc (run_track s) in
  let fu := tr_fu (run_track s) in
  let fu := if start_bit then mk_fu header rtp_ts ssrc else fu in
  fu ← (if (fu_accum_ssrc fu =? ssrc) && (fu_accum_ts fu =? rtp_ts)
        then more ← sub_in skip (zlen data - skip) data; mret (fu_append fu more) else mret fu);
  let s := on_track (fun t => with_fu t fu) s in
  if end_bit && (zlen header <? zlen (fu_accum fu)) then
    let '(pts, s) := run_pts s (fu_accum_ts fu) in
    mret (on_track (fun t => with_fu t (mk_fu [] (fu_accum_ts fu) (fu_accum_ssrc fu))) (push s (fu_accum fu) pts))
  else mret s.

Definition bit (b n : Z) : bool := Z.land (Z.shiftr b n) 1 =? 1.

Definition sdp_demuxer_depacketize_h264 (s : track_run) (data : bytes) (rtp_ts : Z) : outcome track_run :=
  if zlen data <? 1 then Done s
  else
    nal_header ← rd_in data 0;
    let nal_type := Z.land nal_header 31 in
    let '(pts, s) := run_pts s rtp_ts in
    if nal_type <=? H264_NAL_SINGLE_MAX then Done (sdp_push_h264_nal s data pts)
    else if (nal_type =? H264_NAL_FU_A) && (2 <=? zlen data) then
      fu_header ← rd_in data 1;
      let nri := Z.land (Z.shiftr nal_header 5) 3 in
      let header := [u8 (Z.lor (Z.shiftl nri 5) (Z.land fu_header 31))] in
      fragment sdp_push_h264_nal s data header 2 rtp_ts (bit fu_header 7) (bit fu_header 6)
    else if nal_type =? H264_NAL_STAP_A then
      push_units sdp_push_h264_nal (S (length data)) s data 1 pts
    else Done s.

Definition sdp_demuxer_depacketize_h265 (s : track_run) (data : bytes) (rtp_ts : Z) : outcome track_run :=
  if zlen data <? 2 then Done s
  else
    byte0 ← rd_in data 0; byte1 ← rd_in data 1;
    let nal_header := u16 (Z.lor (Z.shiftl byte0 8) byte1) in
    let nal_type := Z.land (Z.shiftr nal_header 9) 63 in
    let '(pts, s) := run_pts s rtp_ts in
    if nal_type =? H265_NAL_FU then
      if zlen data <? 3 then Done s
      else
        fu_header ← rd_in data 2;
        let fu_nal_type := Z.land fu_header 63 in
        let header := [u8 (Z.land (Z.shiftr nal_header 8) 255);
                       u8 (Z.lor (Z.land (u8 (Z.land nal_header 255)) 129) (Z.shiftl fu_nal_type 1))] in
        fragment sdp_push_h265_nal s data header 3 rtp_ts (bit fu_header 7) (bit fu_header 6)
    else if nal_type =? H265_NAL_AP then push_units sdp_push_h265_nal (S (length data)) s data 2 pts
    else Done (sdp_push_h265_nal s data pts).

(** Each header is read where the previous unit ended. *)
Fixpoint push_aus (fuel : nat) (s : track_run) (data : bytes) (offset pts : Z) : outcome track_run :=
  if offset + 2 <=? zlen data then
    match fuel with
    | O => Unfinished
    | S fuel =>
        byte0 ← rd_in data offset; byte1 ← rd_in data (offset + 1);
        let au_header := u16 (Z.lor (Z.shiftl byte0 8) byte1) in
        let offset := offset + 2 in
        let au_size := Z.land (Z.shiftr au_header 3) 8191 in
        if (0 <? au_size) && (offset + au_size <=? zlen data)
        then unit ← sub_in offset au_size data; push_aus fuel (sdp_push_aac_frame s unit pts) data (offset + au_size) pts
        else Done s
    end
  else Done s.

Definition sdp_demuxer_depacketize_aac (s : track_run) (data : bytes) (rtp_ts : Z) : outcome track_run :=
  if zlen data <? 4 then Done s
  else
    byte0 ← rd_in data 0; byte1 ← rd_in data 1;
    let bits := Z.lor (Z.shiftl byte0 8) byte1 in
    let au_headers_len_bytes := (bits + 7) / 8 in
    if zlen data <? au_headers_len_bytes + 2 then Done s
    else let '(pts, s) := run_pts s rtp_ts in push_aus (S (length data)) s data 2 pts.

Definition sdp_demuxer_depacketize (s : track_run) (payload : bytes) (rtp_ts : Z) : outcome track_run :=
  let s := on_track one_packet s in
  let t := run_track s in
  if tr_type t =? 1 then
    if sdp_encoding_is_h264 (tr_encoding t) then sdp_demuxer_depacketize_h264 s payload rtp_ts
    else if sdp_encoding_is_h265 (tr_encoding t) then sdp_demuxer_depacketize_h265 s payload rtp_ts
    else Done s
  else if tr_type t =? 2 then
    if sdp_encoding_is_aac (tr_encoding t) then sdp_demuxer_depacketize_aac s payload rtp_ts else Done s
  else Done s.

(** ** Draining a track *)

(** Each round takes a packet out, so [ro_count] rounds and one more are enough. *)
Fixpoint drain_track (fuel : nat) (s : track_run) : outcome track_run :=
  ready ← reorder_peek (tr_reorder (run_track s));
  if (ready : bool) then
    match fuel with
    | O => Unfinished
    | S fuel =>
        '(p, r) ← reorder_drain (tr_reorder (run_track s));
        match p with
        | None => mret s
        | Some p =>
            let s := on_track (fun t => with_reorder t r) s in
            if 0 <? slot_len p then
              s ← sdp_demuxer_depacketize s (slot_data p) (slot_timestamp p); drain_track fuel s
            else drain_track fuel s
        end
    end
  else mret s.

Definition sdp_demuxer_process_track (s : track_run) : outcome track_run :=
  match linked_pad (run_track s) with
  | Some _ =>
      if tr_active (run_track s) then drain_track (S (Z.to_nat (ro_count (tr_reorder (run_track s))))) s else mret s
  | None => mret s
  end.

(** ** The element *)

Record sdp_demuxer_t := mk_demuxer {
  sdp_text : string;
  sdp_parsed : bool;
  sd_tracks : list sdp_track_t;
  sd_config : sdp_config;
  sd_started : bool;
  sd_opened : bool;
  sd_eos_sent : bool;
}.

Definition with_tracks (s : sdp_demuxer_t) (ts : list sdp_track_t) : sdp_demuxer_t :=
  mk_demuxer (sdp_text s) (sdp_parsed s) ts (sd_config s) (sd_started s) (sd_opened s) (sd_eos_sent s).
Definition with_sdp (s : sdp_demuxer_t) (txt : string) (parsed : bool) (ts : list sdp_track_t) : sdp_demuxer_t :=
  mk_demuxer txt parsed ts (sd_config s) (sd_started s) (sd_opened s) (sd_eos_sent s).
Definition with_state (s : sdp_demuxer_t) (started opened eos : bool) : sdp_demuxer_t :=
  mk_demuxer (sdp_text s) (sdp_parsed s) (sd_tracks s) (sd_config s) started opened eos.
Definition with_config (s : sdp_demuxer_t) (cfg : sdp_config) : sdp_demuxer_t :=
  mk_demuxer (sdp_text s) (sdp_parsed s) (sd_tracks s) cfg (sd_started s) (sd_opened s) (sd_eos_sent s).

(** ** RTCP *)

(** The first track with this source, or without one. *)
Fixpoint sync_track (ssrc ntp rtp : Z) (ts : list sdp_track_t) : list sdp_track_t :=
  match ts with
  | [] => []
  | t :: ts =>
      if (tr_ssrc t =? ssrc) || (tr_ssrc t =? 0) then
        with_timing (with_ssrc t (if tr_ssrc t =? 0 then ssrc else tr_ssrc t)) (with_sr (tr_timing t) ntp rtp) :: ts
      else t :: sync_track ssrc ntp rtp ts
  end.

(** [len] is an [int]; every packet of a compound is at least 4 bytes long. *)
Fixpoint sdp_process_rtcp (fuel : nat) (ts : list sdp_track_t) (data : bytes) (off : Z) : outcome (list sdp_track_t) :=
  if off + 4 <=? zlen data then
    match fuel with
    | O => Unfinished
    | S fuel =>
        pt ← rd_in data (off + 1);
        words ← be16_at data (off + 2);
        let plen := (words + 1) * 4 in
        if (plen <=? 0) || (zlen data <? off + plen) then mret ts
        else
          ts ← (if (pt =? 200) && (28 <=? plen) then
                  ssrc ← be32_at data (off + 4);
                  ntp_msw ← be32_at data (off + 8); ntp_lsw ← be32_at data (off + 12);
                  rtp_ts ← be32_at data (off + 16);
                  mret (sync_track ssrc (Z.lor (Z.shiftl ntp_msw 32) ntp_lsw) rtp_ts ts)
                else mret ts);
          sdp_process_rtcp fuel ts data (off + plen)
    end
  else mret ts.

(** ** RTP *)

Fixpoint find_track (p : sdp_track_t -> bool) (i : nat) (ts : list sdp_track_t) : option nat :=
  match ts with
  | [] => None
  | t :: ts => if tr_active t && p t then Some i else find_track p (S i) ts
  end.

(** By source, else by payload type; a track without a source learns it then. *)
Definition route (ts : list sdp_track_t) (ssrc pt : Z) : option (nat * list sdp_track_t) :=
  match find_track (fun t => tr_ssrc t =? ssrc) 0 ts with
  | Some i => Some (i, ts)
  | None =>
      match find_track (fun t => tr_payload_type t =? pt) 0 ts with
      | Some i => Some (i, alter (fun t => if tr_ssrc t =? 0 then with_ssrc t ssrc else t) i ts)
      | None => None
      end
  end.

(** The offset of the payload behind the sources and the extension. *)
Definition payload_offset (rtp : bytes) : outcome Z :=
  b ← rd_in rtp 0;
  let cc := Z.land b 15 in
  let off := if 0 <? cc then 12 + cc * 4 else 12 in
  if bit b 4 && (off + 4 <=? zlen rtp) then words ← be16_at rtp (off + 2); mret (off + (4 + words * 4)) else mret off.

Definition sdp_process_rtp_packet (s : sdp_demuxer_t) (rtp : bytes) : outcome sdp_demuxer_t :=
  if zlen rtp <? 12 then mret s
  else
    byte1 ← rd_in rtp 1;
    let pt := Z.land byte1 127 in
    let marker := Z.shiftr byte1 7 in
    seq ← be16_at rtp 2;
    ts ← be32_at rtp 4;
    ssrc ← be32_at rtp 8;
    off ← payload_offset rtp;
    if zlen rtp <=? off then mret s
    else
      match route (sd_tracks s) ssrc pt with
      | None => mret s
      | Some (i, tracks) =>
          match tracks !! i with
          | None => Fault
          | Some t =>
              payload ← sub_in off (zlen rtp - off) rtp;
              '(_, r) ← reorder_insert (tr_reorder t) seq ts marker payload
                          (u16 (max_lateness_ms (sd_config s)));
              mret (with_tracks s (<[i := with_reorder t r]> tracks))
          end
      end.

(** ** The sink pad *)

(** The packets of a buffer: interleaved frames, RTCP, and raw RTP, whose length is taken
    from bytes 2 and 3. *)
Fixpoint sdp_split (fuel : nat) (s : sdp_demuxer_t) (data : bytes) (offset : Z) : outcome sdp_demuxer_t :=
  let size := zlen data in
  if offset <? size then
    match fuel with
    | O => Unfinished
    | S fuel =>
        first ← rd_in data offset;
        if negb (offset + 4 <=? size) then mret s
        else if first =? 36 then
          be ← be16_at data (offset + 2);
          let total := 4 + be in
          if size <? offset + total then mret s
          else
            s ← (if 12 <=? be then rtp ← sub_in (offset + 4) be data; sdp_process_rtp_packet s rtp else mret s);
            sdp_split fuel s data (offset + total)
        else
          pt ← rd_in data (offset + 1);
          be ← be16_at data (offset + 2);
          if (200 <=? pt) && (pt <=? 209) then
            let total := (be + 1) * 4 in
            let total := if size - offset <? total then size - offset else total in
            rtcp ← sub_in offset total data;
            ts ← sdp_process_rtcp (Z.to_nat total) (sd_tracks s) rtcp 0;
            sdp_split fuel (with_tracks s ts) data (offset + total)
          else if Z.land (Z.shiftr first 6) 3 =? 2 then
            let in_pkt_len := be + 12 in
            let in_pkt_len := if s32 (size - offset) <? in_pkt_len then s32 (size - offset) else in_pkt_len in
            rtp ← sub_in offset in_pkt_len data;
            s ← sdp_process_rtp_packet s rtp;
            sdp_split fuel s data (offset + in_pkt_len)
          else sdp_split fuel s data (offset + 1)
    end
  else mret s.

Fixpoint process_tracks (ts : list sdp_track_t) (clock : nat) (out : list pushed)
  : outcome (list sdp_track_t * nat * list pushed) :=
  match ts with
  | [] => mret ([], clock, out)
  | t :: ts =>
      s ← sdp_demuxer_process_track (mk_run t clock out);
      '(ts, clock, out) ← process_tracks ts (run_clock s) (run_out s);
      mret (run_track s :: ts, clock, out)
  end.

Definition eos_buffer : zst_buffer := mk_buffer ZST_BUFFER_VIDEO_PACKET ZST_BUFFER_FLAG_EOS 0 0 0 None 0.

Definition push_eos (ts : list sdp_track_t) : list pushed :=
  omap (fun t => pad ← linked_pad t;
                 if tr_active t && malloc_ok SIZEOF_BUFFER then Some (mk_pushed pad None eos_buffer) else None) ts.

(** The handler, with the clock readings taken and what is pushed. *)
Definition sdp_sink_push (s : sdp_demuxer_t) (buf : zst_buffer) (clock : nat)
  : outcome (zst_result_t * sdp_demuxer_t * nat * list pushed) :=
  if has_flag (buf_flags buf) ZST_BUFFER_FLAG_EOS then
    mret (ZST_OK, with_state s (sd_started s) (sd_opened s) true, clock, push_eos (sd_tracks s))
  else match mem_data buf with
  | None => mret (ZST_OK, s, clock, [])
  | Some _ =>
      if mem_size buf =? 0 then mret (ZST_OK, s, clock, [])
      else
        s ← sdp_split (S (length (buf_bytes buf))) s (buf_bytes buf) 0;
        '(ts, clock, out) ← process_tracks (sd_tracks s) clock [];
        mret (ZST_OK, with_tracks s ts, clock, out)
  end.

(** ** Source pads *)

Definition pad_prefix (t : sdp_track_t) : string := if tr_type t =? 1 then "video" else "audio".

(** [pads] is the number of source pads the element has. *)
Fixpoint sdp_demuxer_create_src_pads (ts : list sdp_track_t) (i pads : Z) : list sdp_track_t :=
  match ts with
  | [] => []
  | t :: ts =>
      if negb (tr_active t) then t :: sdp_demuxer_create_src_pads ts (i + 1) pads
      else
        let name := snprintf 32 (pad_prefix t ++ "_" ++ show_Z i) in
        if negb (malloc_ok SIZEOF_PAD) then with_src_pad t None false :: sdp_demuxer_create_src_pads ts (i + 1) pads
        else if negb (malloc_ok ((pads + 1) * SIZEOF_POINTER)) then
          with_src_pad t None false :: sdp_demuxer_create_src_pads ts (i + 1) pads
        else with_src_pad t (Some (mk_src_pad name false)) true :: sdp_demuxer_create_src_pads ts (i + 1) (pads + 1)
  end.

Definition raw_rtp_caps : option zst_caps_t :=
  caps ← zst_caps_create;
  let add caps mt := (zst_caps_append caps (zst_caps_struct_create_video stale_size (Some mt) 0 0 d_zero (Some ""))).2 in
  add (add (Some caps) "raw/rtp") "application/x-rtp".

Definition track_media_type (t : sdp_track_t) : string :=
  if sdp_encoding_is_h265 (tr_encoding t) then "video/x-h265" else "video/x-h264".

(** [None] asks for the sink pad, [Some i] for the source pad of track [i]. *)
Definition sdp_get_caps (s : sdp_demuxer_t) (pad : option nat) : option zst_caps_t :=
  match pad with
  | None => raw_rtp_caps
  | Some i =>
      t ← sd_tracks s !! i;
      caps ← zst_caps_create;
      if tr_type t =? 1 then
        (zst_caps_append (Some caps) (zst_caps_struct_create_video stale_size (Some (track_media_type t)) 0 0 d_zero (Some ""))).2
      else if tr_type t =? 2 then
        (zst_caps_append (Some caps) (zst_caps_struct_create_audio stale_size (Some "audio/aac") 0 0 (Some ""))).2
      else Some caps
  end.

(** ** Element operations *)

Definition run_parse (s : sdp_demuxer_t) : outcome (Z * sdp_demuxer_t) :=
  '(ret, ts, parsed) ← sdp_demuxer_parse_sdp (sd_config s) (sdp_text s) (sd_tracks s) (sdp_parsed s);
  mret (ret, with_sdp s (sdp_text s) parsed ts).

Definition count_pads (ts : list sdp_track_t) : Z := zlen (filter (fun t => has_pad t = true) ts).

Definition sdp_open (s : sdp_demuxer_t) : outcome (zst_result_t * sdp_demuxer_t) :=
  if sd_opened s then mret (ZST_OK, s)
  else
    '(ret, s) ← (if negb (sdp_parsed s) && negb (streq (sdp_text s) "") then run_parse s else mret (1, s));
    if ret <=? 0 then mret (ZST_ERROR, s)
    else
      let s :=
        match sd_tracks s with
        | t :: _ => if sdp_parsed s && negb (has_pad t) then
            with_tracks s (sdp_demuxer_create_src_pads (sd_tracks s) 0 (count_pads (sd_tracks s))) else s
        | [] => s
        end in
      mret (ZST_OK, with_state s (sd_started s) true false).

(** The tracks are freed and no longer counted. *)
Definition sdp_close (s : sdp_demuxer_t) : zst_result_t * sdp_demuxer_t :=
  (ZST_OK, with_state (with_sdp s (sdp_text s) false []) false false false).

Definition sdp_start (s : sdp_demuxer_t) : outcome (zst_result_t * sdp_demuxer_t) :=
  s ← (if sd_opened s then mret s else '(_, s) ← sdp_open s; mret s);
  if (zlen (sd_tracks s) =? 0) || negb (sdp_parsed s) then mret (ZST_ERROR, s)
  else mret (ZST_OK, with_state s true (sd_opened s) (sd_eos_sent s)).

Definition sdp_stop (s : sdp_demuxer_t) : zst_result_t * sdp_demuxer_t :=
  (ZST_OK, with_state s false (sd_opened s) (sd_eos_sent s)).

(** [file] is what [fopen] finds, up to the end of the file; a NUL in it ends the text. *)
Definition sdp_load_file (s : sdp_demuxer_t) (file : option string) : outcome (Z * sdp_demuxer_t) :=
  match file with
  | None => mret (-1, s)
  | Some content =>
      let txt := (str_span (fun c => is_char c "000") (str_take 4095 content)).1 in
      run_parse (with_sdp s txt (sdp_parsed s) (sd_tracks s))
  end.

Definition result_of (ret : Z) : zst_result_t := if 0 <=? ret then ZST_OK else ZST_ERROR.

(** Properties; [files] is the file system. *)
Definition sdp_set_property (files : string -> option string) (s : sdp_demuxer_t) (name value : string)
  : outcome (zst_result_t * sdp_demuxer_t) :=
  let cfg := sd_config s in
  let n := atoi value in
  let set cfg := mret (ZST_OK, with_config s cfg) in
  if streq name "sdp" then
    '(ret, s) ← run_parse (with_sdp s (strncpy_n 4096 value) false (sd_tracks s)); mret (result_of ret, s)
  else if name_in name ["sdp-file"; "sdp_file"] then
    '(ret, s) ← sdp_load_file s (files value); mret (result_of ret, s)
  else if name_in name ["jitter-buffer-ms"; "jitter_buffer_ms"] then
    set (mk_config (if n <? 1 then 1 else n) (reorder_capacity cfg) (max_lateness_ms cfg)
           (default_clock_video cfg) (default_clock_audio cfg))
  else if name_in name ["reorder-capacity"; "reorder_capacity"] then
    set (mk_config (jitter_buffer_ms cfg) (if 2048 <? n then 2048 else if n <? 16 then 16 else n) (max_lateness_ms cfg)
           (default_clock_video cfg) (default_clock_audio cfg))
  else if name_in name ["max-lateness-ms"; "max_lateness_ms"] then
    set (mk_config (jitter_buffer_ms cfg) (reorder_capacity cfg) (if n <? 1 then 1 else n)
           (default_clock_video cfg) (default_clock_audio cfg))
  else if name_in name ["clock-rate-video"; "clock_rate_video"] then
    set (mk_config (jitter_buffer_ms cfg) (reorder_capacity cfg) (max_lateness_ms cfg)
           (if n <? 1 then 90000 else n) (default_clock_audio cfg))
  else if name_in name ["clock-rate-audio"; "clock_rate_audio"] then
    set (mk_config (jitter_buffer_ms cfg) (reorder_capacity cfg) (max_lateness_ms cfg)
           (default_clock_video cfg) (if n <? 1 then 48000 else n))
  else mret (ZST_ERROR, s).

Definition sdp_get_property (s : sdp_demuxer_t) (name : string) (max_len : Z) : option string :=
  let cfg := sd_config s in
  if streq name "sdp" then Some (strncpy_n max_len (sdp_text s))
  else if name_in name ["jitter-buffer-ms"; "jitter_buffer_ms"] then Some (snprintf max_len (show_Z (jitter_buffer_ms cfg)))
  else if name_in name ["reorder-capacity"; "reorder_capacity"] then Some (snprintf max_len (show_Z (reorder_capacity cfg)))
  else if name_in name ["max-lateness-ms"; "max_lateness_ms"] then Some (snprintf max_len (show_Z (max_lateness_ms cfg)))
  else if name_in name ["clock-rate-video"; "clock_rate_video"] then
    Some (snprintf max_len (show_Z (default_clock_video cfg)))
  else if name_in name ["clock-rate-audio"; "clock_rate_audio"] then
    Some (snprintf max_len (show_Z (default_clock_audio cfg)))
  else None.

(** The state of a new element. *)
Definition zst_sdp_demuxer_create : sdp_demuxer_t :=
  mk_demuxer "" false [] (mk_config 200 256 500 90000 48000) false false false.
End Demuxer.
