(* ===== verification/SdpDemuxSpec.v ===== *)
(** * What the SDP demultiplexer promises

    Every call is safe: for any buffer the sink handler neither faults nor loops, keeps
    the reorder buffers consistent and the reassembly inside its array
    ([sdp_demuxer_safe]).  An H.264 access unit that the payloader of [RtpPay] sends, framed
    as interleaved data, comes out as its units, in order ([sdp_h264_interleaved]). *)

From Stdlib Require Import Ascii String.
From S2P Require Import Prelude CLib Pad PadOps Caps Sha1 MediaUtils RtpPay RtpPaySpec SdpReorder SdpReorderSpec SdpTiming SdpText SdpDemux.

Local Open Scope Z_scope.

(** ** Reads inside what is given *)

Lemma rd_in_ok data i : 0 <= i < zlen data -> rd_in data i = Done (rd data i).
Proof. intros Hi. unfold rd_in. by rewrite (proj2 (Z.leb_le _ _)), (proj2 (Z.ltb_lt _ _)) by lia. Qed.
Lemma sub_in_ok off len data : 0 <= off -> 0 <= len -> off + len <= zlen data -> sub_in off len data = Done (sub_bytes off len data).
Proof. intros. unfold sub_in. by rewrite !(proj2 (Z.leb_le _ _)) by lia. Qed.
Lemma be16_at_ok data i : 0 <= i -> i + 2 <= zlen data -> be16_at data i = Done (be16 (rd data i) (rd data (i + 1))).
Proof. intros. unfold be16_at. by rewrite !rd_in_ok by lia. Qed.
Lemma be32_at_ok data i : 0 <= i -> i + 4 <= zlen data ->
  be32_at data i = Done (be32 (rd data i) (rd data (i + 1)) (rd data (i + 2)) (rd data (i + 3))).
Proof. intros. unfold be32_at. by rewrite !rd_in_ok by lia. Qed.

(** The reads of a function whose bounds are in the context. *)
Ltac in_bounds := change (@zlen byte) with (@zlen Z) in *; lia.
Ltac read_in := match goal with
  | |- context [rd_in ?data ?i] => rewrite (rd_in_ok data i) by in_bounds
  | |- context [be16_at ?data ?i] => rewrite (be16_at_ok data i) by in_bounds
  | |- context [be32_at ?data ?i] => rewrite (be32_at_ok data i) by in_bounds
  | |- context [sub_in ?off ?len ?data] => rewrite (sub_in_ok off len data) by in_bounds
  end.
Ltac reads := repeat read_in; cbn [mbind outcome_bind mret outcome_ret]; cbv zeta.

(** ** What depacketizing keeps *)

Record same_track (t t' : sdp_track_t) : Prop := {
  same_type : tr_type t' = tr_type t;
  same_pt : tr_payload_type t' = tr_payload_type t;
  same_pts : tr_payload_types t' = tr_payload_types t;
  same_encoding : tr_encoding t' = tr_encoding t;
  same_rate : tr_clock_rate t' = tr_clock_rate t;
  same_ssrc : tr_ssrc t' = tr_ssrc t;
  same_reorder : tr_reorder t' = tr_reorder t;
  same_extra : tr_extra t' = tr_extra t;
  same_pad : tr_src_pad t' = tr_src_pad t;
  same_active : tr_active t' = tr_active t;
}.

#[export] Instance same_track_preorder : PreOrder same_track.
Proof.
  split; [by intros []; constructor|].
  intros t1 t2 t3 [] []. constructor; congruence.
Qed.

Definition fu_ok (t : sdp_track_t) : Prop := zlen (fu_accum (tr_fu t)) <= SDP_DEMUXER_MAX_FU_ACCUM.

Definition runs_to (s s' : track_run) : Prop :=
  same_track (run_track s) (run_track s') /\ (fu_ok (run_track s) -> fu_ok (run_track s')).

#[export] Instance runs_to_preorder : PreOrder runs_to.
Proof.
  split; [by split|]. intros s1 s2 s3 [H1 F1] [H2 F2]. split; [by etransitivity|auto].
Qed.

Lemma on_track_runs f s :
  same_track (run_track s) (f (run_track s)) -> (fu_ok (run_track s) -> fu_ok (f (run_track s))) ->
  runs_to s (on_track f s).
Proof. by split. Qed.

Lemma linked_same t t' : same_track t t' -> linked_pad t' = linked_pad t.
Proof. intros []. unfold linked_pad. by rewrite same_pad0. Qed.

Section Safety.
Context `{CMemory} (monotonic_us : nat -> Z).

Lemma run_pts_runs s ts pts s' : run_pts monotonic_us s ts = (pts, s') -> runs_to s s'.
Proof. unfold run_pts. destruct (sdp_rtp_ts_to_pts _ _ _ _ _) as [[]]. intros [= _ <-]. by split. Qed.

Lemma push_buffer_runs s data pts v : runs_to s (sdp_push_buffer s data pts v).
Proof.
  unfold sdp_push_buffer. destruct (linked_pad _); [|done]. by case_match.
Qed.

Lemma push_h264_runs s data pts : runs_to s (sdp_push_h264_nal s data pts).
Proof. unfold sdp_push_h264_nal. case_match; [apply push_buffer_runs|done]. Qed.

Lemma push_h265_runs s data pts : runs_to s (sdp_push_h265_nal s data pts).
Proof. unfold sdp_push_h265_nal. case_match; [apply push_buffer_runs|done]. Qed.

Lemma push_aac_runs s data pts : runs_to s (sdp_push_aac_frame s data pts).
Proof. unfold sdp_push_aac_frame. case_match; [|done]. by destruct (linked_pad _). Qed.

Lemma be16_rd data i j : bytes_ok data -> 0 <= be16 (rd data i) (rd data j) < 65536.
Proof.
  intros Hb. pose proof (rd_byte data i Hb). pose proof (rd_byte data j Hb). unfold is_byte in *.
  rewrite be16_add by done. lia.
Qed.

Lemma push_units_runs push fuel s data off pts :
  (forall s data pts, runs_to s (push s data pts)) -> bytes_ok data -> 0 <= off -> zlen data <= off + Z.of_nat fuel ->
  exists s', push_units push fuel s data off pts = Done s' /\ runs_to s s'.
Proof.
  intros Hp Hb. revert s off. induction fuel as [|fuel IH]; intros s off Hoff Hf; cbn [push_units].
  { rewrite (proj2 (Z.leb_gt _ _)) by lia. by exists s. }
  destruct (Z.leb_spec (off + 2) (zlen data)); [|by exists s]. reads. pose proof (be16_rd data off (off + 1) Hb).
  destruct (Z.ltb_spec (zlen data) (off + 2 + be16 (rd data off) (rd data (off + 1)))); [by exists s|]. reads. pose proof (be16_rd data off (off + 1) Hb) as Hbe.
  edestruct IH as (s' & E' & Hr); [| |exists s'; split; [exact E'|]]; [lia..|].
  etransitivity; [apply Hp|exact Hr].
Qed.

Lemma push_aus_runs fuel s data off pts :
  0 <= off -> zlen data <= off + Z.of_nat fuel ->
  exists s', push_aus fuel s data off pts = Done s' /\ runs_to s s'.
Proof.
  revert s off. induction fuel as [|fuel IH]; intros s off Hoff Hf; cbn [push_aus].
  { rewrite (proj2 (Z.leb_gt _ _)) by lia. by exists s. }
  destruct (Z.leb_spec (off + 2) (zlen data)); [|by exists s]. reads.
  set (size := Z.land _ 8191). destruct (Z.ltb_spec 0 size); cbn [andb]; [|by exists s].
  destruct (Z.leb_spec (off + 2 + size) (zlen data)); [|by exists s]. reads.
  edestruct IH as (s' & E' & Hr); [| |exists s'; split; [exact E'|]]; [lia..|].
  etransitivity; [apply push_aac_runs|exact Hr].
Qed.

Lemma fu_append_ok fu more :
  zlen (fu_accum fu) <= SDP_DEMUXER_MAX_FU_ACCUM -> zlen (fu_accum (fu_append fu more)) <= SDP_DEMUXER_MAX_FU_ACCUM.
Proof.
  intros Hfu. unfold fu_append. case_match eqn:E; [|done]. cbn [fu_accum]. rewrite zlen_app.
  apply andb_true_iff in E as [_ ?%Z.leb_le]. done.
Qed.

Lemma fragment_runs push s data header skip ts sb eb :
  (forall s data pts, runs_to s (push s data pts)) -> zlen header <= 2 -> 0 <= skip <= zlen data ->
  exists s', fragment monotonic_us push s data header skip ts sb eb = Done s' /\ runs_to s s'.
Proof.
  intros Hp Hh Hskip. unfold fragment. reads.
  set (fu1 := if sb then _ else _). set (fu2 := if (fu_accum_ssrc fu1 =? tr_ssrc (run_track s)) && (fu_accum_ts fu1 =? ts)
    then fu_append fu1 (sub_bytes skip (zlen data - skip) data) else fu1).
  replace (if _ && _ then Done (fu_append fu1 _) else Done fu1) with (Done fu2) by (unfold fu2; by case_match).
  cbn [mbind outcome_bind].
  assert (runs_to s (on_track (fun t => with_fu t fu2) s)) as H1.
  { apply on_track_runs; [by constructor|]. unfold fu_ok. cbn. intros Hok.
    assert (zlen (fu_accum fu1) <= SDP_DEMUXER_MAX_FU_ACCUM) as Hfu1.
    { unfold fu1. destruct sb; [|done]. cbn. unfold SDP_DEMUXER_MAX_FU_ACCUM. lia. }
    unfold fu2. case_match; [by apply fu_append_ok|done]. }
  case_match; [|by eexists].
  destruct (run_pts _ _ _) as [pts s2] eqn:E2. eexists. split; [done|].
  etransitivity; [exact H1|]. etransitivity; [by eapply run_pts_runs|].
  etransitivity; [apply Hp|]. apply on_track_runs; [by constructor|]. intros _. unfold fu_ok. cbn. by vm_compute.
Qed.

Lemma depacketize_h264_runs s data ts :
  bytes_ok data -> exists s', sdp_demuxer_depacketize_h264 monotonic_us s data ts = Done s' /\ runs_to s s'.
Proof.
  intros Hb. unfold sdp_demuxer_depacketize_h264. destruct (Z.ltb_spec (zlen data) 1); [by exists s|]. reads.
  destruct (run_pts _ _ _) as [pts s1] eqn:E1.
  assert (runs_to s s1) as H1 by (by eapply run_pts_runs).
  case (_ <=? _); [eexists; split; [done|]; etransitivity; [exact H1|apply push_h264_runs]|].
  case_match eqn:Efu.
  { apply andb_true_iff in Efu as [_ Efu%Z.leb_le]. reads. match goal with |- context [fragment _ _ _ _ ?h ?k _ ?sb ?eb] =>
      destruct (fragment_runs sdp_push_h264_nal s1 data h k ts sb eb (push_h264_runs)) as (s2 & -> & Hs2);
        [by rewrite ?zlen_cons, ?zlen_nil|in_bounds|] end.
    exists s2. split; [done|]. by etransitivity. }
  case (_ =? _); [|by exists s1].
  destruct (push_units_runs sdp_push_h264_nal (S (length data)) s1 data 1 pts) as (s2 & -> & Hs2);
    [apply push_h264_runs|done|lia|unfold zlen; lia|].
  exists s2. split; [done|]. by etransitivity.
Qed.

Lemma depacketize_h265_runs s data ts :
  bytes_ok data -> exists s', sdp_demuxer_depacketize_h265 monotonic_us s data ts = Done s' /\ runs_to s s'.
Proof.
  intros Hb. unfold sdp_demuxer_depacketize_h265. destruct (Z.ltb_spec (zlen data) 2); [by exists s|]. reads.
  destruct (run_pts _ _ _) as [pts s1] eqn:E1.
  assert (runs_to s s1) as H1 by (by eapply run_pts_runs).
  case (_ =? _).
  { destruct (Z.ltb_spec (zlen data) 3); [by exists s1|]. reads.
    match goal with |- context [fragment _ _ _ _ ?h ?k _ ?sb ?eb] =>
      destruct (fragment_runs sdp_push_h265_nal s1 data h k ts sb eb (push_h265_runs)) as (s2 & -> & Hs2);
        [by rewrite ?zlen_cons, ?zlen_nil|in_bounds|] end.
    exists s2. split; [done|]. by etransitivity. }
  case (_ =? _); [|eexists; split; [done|]; etransitivity; [exact H1|apply push_h265_runs]].
  destruct (push_units_runs sdp_push_h265_nal (S (length data)) s1 data 2 pts) as (s2 & -> & Hs2);
    [apply push_h265_runs|done|lia|unfold zlen; lia|].
  exists s2. split; [done|]. by etransitivity.
Qed.

Lemma depacketize_aac_runs s data ts :
  exists s', sdp_demuxer_depacketize_aac monotonic_us s data ts = Done s' /\ runs_to s s'.
Proof.
  unfold sdp_demuxer_depacketize_aac. destruct (Z.ltb_spec (zlen data) 4); [by exists s|]. reads. case (_ <? _); [by exists s|].
  destruct (run_pts _ _ _) as [pts s1] eqn:E1.
  assert (runs_to s s1) as H1 by (by eapply run_pts_runs).
  destruct (push_aus_runs (S (length data)) s1 data 2 pts) as (s2 & -> & Hs2); [lia|unfold zlen; lia|].
  exists s2. split; [done|]. by etransitivity.
Qed.

Lemma depacketize_runs s data ts :
  bytes_ok data -> exists s', sdp_demuxer_depacketize monotonic_us s data ts = Done s' /\ runs_to s s'.
Proof.
  intros Hb. unfold sdp_demuxer_depacketize.
  assert (runs_to s (on_track one_packet s)) as H1 by (by apply on_track_runs).
  repeat case_match; try (by eexists).
  - destruct (depacketize_h264_runs (on_track one_packet s) data ts Hb) as (s' & -> & ?).
    exists s'. split; [done|]. by etransitivity.
  - destruct (depacketize_h265_runs (on_track one_packet s) data ts Hb) as (s' & -> & ?).
    exists s'. split; [done|]. by etransitivity.
  - destruct (depacketize_aac_runs (on_track one_packet s) data ts) as (s' & -> & ?).
    exists s'. split; [done|]. by etransitivity.
Qed.

(** ** The reorder buffer, whatever the allocator answers *)

Definition packet_ok (p : reorder_slot_t) : Prop := slot_ok p /\ bytes_ok (slot_data p).

Definition slots_ok (ss : list (option reorder_slot_t)) : Prop := Forall (fun s => forall p, s = Some p -> packet_ok p) ss.

Definition buffer_ring (r : rtp_reorder_t) : Prop := exists k ss, ring k r ss /\ slots_ok ss.

Lemma slots_ok_insert ss i s : slots_ok ss -> (forall p, s = Some p -> packet_ok p) -> slots_ok (<[i := s]> ss).
Proof. intros. by apply Forall_insert. Qed.

Lemma slots_ok_none ss i : slots_ok ss -> slots_ok (<[i := None]> ss).
Proof. intros. by apply slots_ok_insert. Qed.

Lemma reorder_insert_safe r seq ts marker data late :
  buffer_ring r -> 0 <= seq < 65536 -> bytes_ok data ->
  exists res r', reorder_insert r seq ts marker data late = Done (res, r') /\ buffer_ring r'.
Proof.
  intros (k & ss & Hr & Hss) Hseq Hb.
  destruct (restart_ring k r ss seq Hr Hseq) as [Hr1 _]. unfold reorder_insert. cbv zeta in *.
  set (r1 := if ro_count r =? 0 then _ else _) in *. clearbody r1. clear Hr r.
  case (_ <? _); [eexists _, _; split; [done|]; exists k, ss; by destruct Hr1|].
  case (_ <? _); [eexists _, _; split; [done|]; exists k, ss; by destruct Hr1|].
  destruct (get_slot_ring k r1 ss seq Hr1) as (s & Es & ->). cbn [mbind outcome_bind].
  assert (forall n, n = occupied ss - (if is_present s then 1 else 0) -> exists res r',
    (if malloc_ok (zlen data)
     then (0, with_slots r1 (<[Z.to_nat (Z.land seq (mask r1)) := Some (mk_slot data (zlen data) ts marker)]>
                (<[Z.to_nat (Z.land seq (mask r1)) := None]> ss)) (n + 1))
     else (-1, with_slots r1 (<[Z.to_nat (Z.land seq (mask r1)) := None]> ss) n)) = (res, r') /\ buffer_ring r') as Hstore.
  { intros n Hn. case (malloc_ok (zlen data)); eexists _, _; (split; [done|]); eexists k, _.
    - rewrite list_insert_insert_eq. split.
      + apply (store_ring k r1 ss _ _ s); [done..|]. cbn. lia.
      + apply slots_ok_insert; [done|]. by intros p [= <-].
    - split; [apply (store_ring k r1 ss _ _ s); [done..|]; cbn; lia|by apply slots_ok_none]. }
  destruct s as [old|].
  - case (same_packet old data); [eexists _, _; split; [done|]; by exists k, ss|].
    destruct (Hstore (ro_count r1 - 1)) as (res & r' & -> & ?); [rewrite (ring_count _ _ _ Hr1); done|].
    eexists _, _. by split.
  - destruct (Hstore (ro_count r1)) as (res & r' & E & ?); [rewrite (ring_count _ _ _ Hr1); cbn; lia|].
    rewrite (list_insert_id ss _ None Es) in E. rewrite E. eexists _, _. by split.
Qed.

Lemma reorder_drain_safe r :
  buffer_ring r ->
  exists p r', reorder_drain r = Done (p, r') /\ buffer_ring r' /\
    match p with Some p => packet_ok p /\ ro_count r' = ro_count r - 1 | None => r' = r end.
Proof.
  intros (k & ss & Hr & Hss). unfold reorder_drain.
  destruct (ro_count r =? 0); [eexists None, r; split_and!; [done|by exists k, ss|done]|].
  destruct (get_slot_ring k r ss (next_seq r) Hr) as (s & Es & ->). cbn [mbind outcome_bind].
  destruct s as [p|]; [|eexists None, r; split_and!; [done|by exists k, ss|done]].
  eexists (Some p), _. split; [done|]. split.
  - eexists k, _. split; [|by apply slots_ok_none].
    destruct Hr. constructor; cbn; try done.
    + unfold zlen in *. by rewrite length_insert.
    + apply u16_range.
    + rewrite (occupied_insert _ _ (Some p)) by done. cbn. lia.
  - split; [|done]. pose proof (Forall_lookup_1 _ _ _ _ Hss Es) as Hp. by apply Hp.
Qed.

Lemma reorder_peek_safe r :
  buffer_ring r -> exists b, reorder_peek r = Done b /\ (b = true -> 0 < ro_count r).
Proof.
  intros (k & ss & Hr & Hss). unfold reorder_peek. destruct (Z.eqb_spec (ro_count r) 0); [by exists false|].
  destruct (get_slot_ring k r ss (next_seq r) Hr) as (s & Es & ->). eexists. split; [done|].
  intros _. pose proof (occupied_nonneg ss). rewrite <-(ring_count _ _ _ Hr) in *. lia.
Qed.

Lemma reorder_init_safe c r : 1 <= c <= 32768 -> reorder_init c = Done (0, r) -> buffer_ring r.
Proof.
  intros Hc. destruct (round_cap_pow2 31 0 c) as (k & E & Hk & Hck & Hlow); [lia..|by left|].
  change (2 ^ 0) with 1 in E. unfold reorder_init. rewrite E. cbn [mbind outcome_bind].
  assert (k <= 15) as Hk15.
  { destruct (Z.leb_spec k 15); [done|]. destruct Hlow as [->|Hlow]; [done|].
    assert (2 ^ 15 <= 2 ^ (k - 1)) by (apply Z.pow_le_mono_r; lia). lia. }
  pose proof (cap_range k ltac:(lia)). rewrite (proj2 (Z.ltb_ge _ _)) by lia.
  case (malloc_ok _); [|done]. intros [= <-]. eexists k, _. split.
  - constructor; cbn; [done|lia| | |done|lia|].
    + unfold zlen. rewrite length_replicate. lia.
    + by rewrite u16_small by lia.
    + symmetry. apply occupied_0. by rewrite length_replicate.
  - apply Forall_replicate. done.
Qed.

(** ** Tracks *)

(** The arrays [payload_types] and [fu_accum] are not overrun. *)
Definition track_ok (t : sdp_track_t) : Prop :=
  (tr_active t = true -> buffer_ring (tr_reorder t)) /\ fu_ok t /\
  zlen (tr_payload_types t) <= SDP_DEMUXER_MAX_PT_PER_TRACK.

Lemma drain_track_safe fuel s :
  buffer_ring (tr_reorder (run_track s)) -> fu_ok (run_track s) ->
  ro_count (tr_reorder (run_track s)) <= Z.of_nat fuel ->
  exists s', drain_track monotonic_us fuel s = Done s' /\ buffer_ring (tr_reorder (run_track s')) /\
    fu_ok (run_track s') /\ tr_payload_types (run_track s') = tr_payload_types (run_track s).
Proof.
  revert s. induction fuel as [|fuel IH]; intros s Hr Hfu Hc; cbn [drain_track];
    destruct (reorder_peek_safe _ Hr) as (b & -> & Hb); cbn [mbind outcome_bind]; (destruct b; [|by exists s]).
  { specialize (Hb eq_refl). lia. }
  destruct (reorder_drain_safe _ Hr) as (p & r' & -> & Hr' & Hp). cbn [mbind outcome_bind].
  destruct p as [p|]; [|by exists s]. destruct Hp as [[_ Hpb] Hc'].
  set (s1 := on_track _ s). destruct (0 <? slot_len p).
  - destruct (depacketize_runs s1 (slot_data p) (slot_timestamp p) Hpb) as (s2 & -> & [Hsame Hf]).
    cbn [mbind outcome_bind]. destruct Hsame.
    destruct (IH s2) as (s3 & E3 & ? & ? & Epts).
    + by rewrite same_reorder0.
    + by apply Hf.
    + rewrite same_reorder0. unfold s1. cbn. rewrite Hc'. lia.
    + exists s3. split_and!; [done..|]. by rewrite Epts, same_pts0.
  - apply (IH s1); [done..|]. unfold s1. cbn. rewrite Hc'. lia.
Qed.

Lemma process_track_safe s :
  track_ok (run_track s) -> exists s', sdp_demuxer_process_track monotonic_us s = Done s' /\ track_ok (run_track s').
Proof.
  intros Ht. pose proof Ht as (Hr & Hfu & Hpts). unfold sdp_demuxer_process_track. destruct (linked_pad _); [|by exists s].
  destruct (tr_active (run_track s)) eqn:Ea; [|by exists s].
  destruct (drain_track_safe (S (Z.to_nat (ro_count (tr_reorder (run_track s))))) s) as (s' & E & Hr' & Hf' & Ep);
    [by apply Hr|done|lia|]. exists s'. split; [done|]. split; [done|]. by rewrite Ep.
Qed.

Lemma process_tracks_safe ts clock out :
  Forall track_ok ts ->
  exists ts' clock' out', process_tracks monotonic_us ts clock out = Done (ts', clock', out') /\ Forall track_ok ts' /\
    zlen ts' = zlen ts.
Proof.
  intros Hts. revert clock out. induction Hts as [|t ts Ht _ IH]; intros clock out; [by eexists [], _, _|].
  cbn [process_tracks]. destruct (process_track_safe (mk_run t clock out) Ht) as (s & -> & Hs).
  cbn [mbind outcome_bind]. destruct (IH (run_clock s) (run_out s)) as (ts' & c' & o' & -> & ? & El).
  eexists _, _, _. split; [done|]. split; [by constructor|]. by rewrite !zlen_cons, El.
Qed.

(** ** Packets *)

Lemma find_track_ok p i ts j :
  find_track p i ts = Some j -> exists t, ts !! (j - i)%nat = Some t /\ tr_active t = true /\ (i <= j)%nat.
Proof.
  revert i. induction ts as [|t ts IH]; intros i; cbn [find_track]; [done|].
  case_match eqn:E.
  - intros [= ->]. apply andb_true_iff in E as [Ea _]. exists t. rewrite Nat.sub_diag. by split_and!.
  - intros Hf. destruct (IH _ Hf) as (u & Eu & ? & ?). exists u. split_and!; [|done|lia].
    by replace (j - i)%nat with (S (j - S i))%nat by lia.
Qed.

Lemma route_ok ts ssrc pt i ts' :
  route ts ssrc pt = Some (i, ts') -> Forall track_ok ts ->
  Forall track_ok ts' /\ zlen ts' = zlen ts /\ exists t, ts' !! i = Some t /\ tr_active t = true.
Proof.
  unfold route. intros Hroute Hts.
  assert (forall p j, find_track p 0 ts = Some j -> exists t, ts !! j = Some t /\ tr_active t = true) as Hfind.
  { intros p j (t & Et & ? & _)%find_track_ok. rewrite Nat.sub_0_r in Et. by exists t. }
  case_match eqn:E; [|case_match eqn:E'; [|done]]; injection Hroute as <- <-.
  - split_and!; [done..|]. by eapply Hfind.
  - destruct (Hfind _ _ E') as (t & Et & ?). split_and!.
    + apply Forall_alter; [done|]. intros u _ Hu. by case_match.
    + unfold zlen. by rewrite length_alter.
    + rewrite list_lookup_alter, Et, decide_True by done. eexists. split; [done|]. cbn. by case_match.
Qed.

Definition tracks_ok (s : sdp_demuxer_t) : Prop :=
  Forall track_ok (sd_tracks s) /\ zlen (sd_tracks s) <= SDP_DEMUXER_MAX_TRACKS.

Lemma payload_offset_ok rtp : bytes_ok rtp -> 12 <= zlen rtp -> exists off, payload_offset rtp = Done off /\ 12 <= off.
Proof.
  intros Hb Hl. unfold payload_offset. reads. set (off := if 0 <? _ then _ else 12).
  assert (12 <= off) as Hoff by (unfold off; zbool; lia). clearbody off.
  destruct (bit _ 4); cbn [andb]; [|by exists off].
  destruct (Z.leb_spec (off + 4) (zlen rtp)); [|by exists off]. reads. pose proof (be16_rd rtp (off + 2) (off + 2 + 1) Hb).
  eexists. split; [done|]. lia.
Qed.

Lemma process_rtp_safe s rtp :
  tracks_ok s -> bytes_ok rtp ->
  exists s', sdp_process_rtp_packet s rtp = Done s' /\ tracks_ok s' /\ sd_config s' = sd_config s.
Proof.
  intros Hs Hb. unfold sdp_process_rtp_packet. destruct (Z.ltb_spec (zlen rtp) 12); [by exists s|]. reads.
  destruct (payload_offset_ok rtp Hb) as (off & -> & Hoff); [lia|]. cbn [mbind outcome_bind].
  destruct (Z.leb_spec (zlen rtp) off); [by exists s|]. destruct (route _ _ _) as [[i ts]|] eqn:E; [|by exists s].
  destruct (route_ok _ _ _ _ _ E (proj1 Hs)) as (Hts & Hl & t & Et & Ha). rewrite Et. reads.
  destruct (Forall_lookup_1 _ _ _ _ Hts Et) as (Hr & Hfu & Hpts).
  match goal with |- context [reorder_insert (tr_reorder t) ?seq ?ts ?m ?p ?late] =>
    destruct (reorder_insert_safe (tr_reorder t) seq ts m p late) as (res & r' & -> & Hr');
      [by apply Hr|by apply be16_rd|by apply bytes_ok_sub|] end.
  eexists. split; [done|]. split; [|done]. split.
  - apply Forall_insert; [done|]. by split_and!.
  - cbn. revert Hl. unfold zlen. rewrite length_insert. intros ->. apply Hs.
Qed.

Lemma sync_track_ok ssrc ntp rtp ts : Forall track_ok ts -> Forall track_ok (sync_track ssrc ntp rtp ts).
Proof.
  induction 1 as [|t ts Ht Hts IH]; cbn [sync_track]; [done|]. case_match; constructor; done.
Qed.

Lemma sync_track_zlen ssrc ntp rtp ts : zlen (sync_track ssrc ntp rtp ts) = zlen ts.
Proof. induction ts as [|t ts IH]; cbn [sync_track]; [done|]. case_match; rewrite !zlen_cons; lia. Qed.

Lemma process_rtcp_safe fuel ts data off :
  Forall track_ok ts -> bytes_ok data -> 0 <= off -> zlen data <= off + Z.of_nat fuel ->
  exists ts', sdp_process_rtcp fuel ts data off = Done ts' /\ Forall track_ok ts' /\ zlen ts' = zlen ts.
Proof.
  intros Hts Hb. revert ts off Hts. induction fuel as [|fuel IH]; intros ts off Hts Hoff Hf; cbn [sdp_process_rtcp].
  { rewrite (proj2 (Z.leb_gt _ _)) by lia. by exists ts. }
  destruct (Z.leb_spec (off + 4) (zlen data)); [|by exists ts]. reads. pose proof (be16_rd data (off + 2) (off + 2 + 1) Hb).
  set (plen := (be16 _ _ + 1) * 4) in *. assert (0 < plen) by (unfold plen; lia). rewrite (proj2 (Z.leb_gt plen 0)) by done. cbn [orb].
  destruct (Z.ltb_spec (zlen data) (off + plen)); [by exists ts|].
  assert (exists ts1, (if (rd data (off + 1) =? 200) && (28 <=? plen) then
                  ssrc ← be32_at data (off + 4); ntp_msw ← be32_at data (off + 8); ntp_lsw ← be32_at data (off + 12);
                  rtp_ts ← be32_at data (off + 16); mret (sync_track ssrc (Z.lor (Z.shiftl ntp_msw 32) ntp_lsw) rtp_ts ts)
                else mret ts) = Done ts1 /\ Forall track_ok ts1 /\ zlen ts1 = zlen ts) as (ts1 & -> & Hts1 & <-).
  { destruct (_ =? 200); cbn [andb]; [|by exists ts]. destruct (Z.leb_spec 28 plen); [|by exists ts]. reads.
    eexists. split; [done|]. split; [by apply sync_track_ok|apply sync_track_zlen]. }
  cbn [mbind outcome_bind]. apply IH; [done|lia..].
Qed.

Lemma sdp_split_safe fuel s data off :
  tracks_ok s -> bytes_ok data -> zlen data < 2147483648 -> 0 <= off -> zlen data < off + Z.of_nat fuel ->
  exists s', sdp_split fuel s data off = Done s' /\ tracks_ok s' /\ sd_config s' = sd_config s.
Proof.
  intros Hs Hb Hsize. revert s off Hs. induction fuel as [|fuel IH]; intros s off Hs Hoff Hf; cbn [sdp_split].
  { rewrite (proj2 (Z.ltb_ge _ _)) by lia. by exists s. }
  destruct (Z.ltb_spec off (zlen data)) as [Hlt|]; [|by exists s]. reads.
  destruct (Z.leb_spec (off + 4) (zlen data)); cbn [negb]; [|by exists s]. reads.
  pose proof (be16_rd data (off + 2) (off + 2 + 1) Hb) as Hbe. set (be := be16 _ _) in *.
  case (rd data off =? 36).
  { destruct (Z.ltb_spec (zlen data) (off + (4 + be))); [by exists s|]. reads.
    assert (exists s1, (if 12 <=? be then sdp_process_rtp_packet s (sub_bytes (off + 4) be data) else mret s) = Done s1 /\
      tracks_ok s1 /\ sd_config s1 = sd_config s) as (s1 & -> & Hs1 & <-).
    { case (12 <=? be); [|by exists s]. apply process_rtp_safe; [done|by apply bytes_ok_sub]. }
    cbn [mbind outcome_bind]. apply (IH s1); [done|lia..]. }
  case (_ && _).
  { set (total := if _ <? _ then _ else _).
    assert (0 < total /\ total <= zlen data - off) as [Ht1 Ht2] by (unfold total; zbool; lia). reads.
    destruct (process_rtcp_safe (Z.to_nat total) (sd_tracks s) (sub_bytes off total data) 0) as (ts & -> & Hts & Hl);
      [apply Hs|by apply bytes_ok_sub|lia|rewrite zlen_sub_bytes; lia|].
    cbn [mbind outcome_bind]. apply (IH (with_tracks s ts)); [|lia..].
    split; [done|]. cbn. rewrite Hl. apply Hs. }
  rewrite (s32_small (zlen data - off)) by lia. case (_ =? _).
  - set (n := if _ <? _ then _ else _). assert (0 < n /\ off + n <= zlen data) as [Hn Hn'] by (unfold n; zbool; lia). reads.
    destruct (process_rtp_safe s (sub_bytes off n data) Hs) as (s1 & -> & Hs1 & <-); [by apply bytes_ok_sub|].
    cbn [mbind outcome_bind]. apply (IH s1); [done|lia..].
  - apply IH; [done|lia..].
Qed.

Lemma sink_push_safe s buf clock :
  tracks_ok s -> buffer_ok buf -> mem_size buf < 2147483648 ->
  exists s' clock' out, sdp_sink_push monotonic_us s buf clock = Done (ZST_OK, s', clock', out) /\
    tracks_ok s' /\ sd_config s' = sd_config s.
Proof.
  intros Hs (Hm & Hb & Hd) Hsize. unfold sdp_sink_push.
  case (has_flag _ _); [by eexists _, _, _|]. destruct (mem_data buf) as [d|] eqn:Ed; [|by eexists _, _, _].
  case (_ =? _); [by eexists _, _, _|].
  assert (zlen (buf_bytes buf) = mem_size buf) as Hlen.
  { unfold buf_bytes. rewrite Ed. apply zlen_sub_bytes; lia. }
  destruct (sdp_split_safe (S (length (buf_bytes buf))) s (buf_bytes buf) 0) as (s1 & -> & Hs1 & Hc1);
    [done|done|lia|lia|unfold zlen; lia|].
  cbn [mbind outcome_bind].
  destruct (process_tracks_safe (sd_tracks s1) clock []) as (ts & c & out & -> & Hts & Hl); [apply Hs1|].
  eexists _, _, _. split; [done|]. split; [|done]. split; [done|]. cbn. rewrite Hl. apply Hs1.
Qed.
End Safety.

(** ** Parsing keeps the tracks well formed *)

Section Parsing.
Context `{CMemory}.

Definition config_ok (cfg : sdp_config) : Prop := 16 <= reorder_capacity cfg <= 2048.

(** What an attribute may change: codec, format, extradata, and [active] off. *)
Definition attribute_change (t t' : sdp_track_t) : Prop :=
  tr_reorder t' = tr_reorder t /\ tr_fu t' = tr_fu t /\ tr_payload_types t' = tr_payload_types t /\
  (tr_active t' = true -> tr_active t = true).

#[local] Instance attribute_change_preorder : PreOrder attribute_change.
Proof.
  split; [by intros t; split_and!|]. intros t1 t2 t3 (?&?&?&?) (?&?&?&?). split_and!; [congruence..|auto].
Qed.

Lemma append_extradata_change t data b : attribute_change t (sdp_append_extradata t data b).
Proof. unfold sdp_append_extradata. case (_ <=? _); [done|]. by case (malloc_ok _). Qed.

Lemma append_decoded_change t v : attribute_change t (append_decoded t v).
Proof.
  unfold append_decoded. destruct (Base64.sdp_base64_decode _ _); [|done].
  case (_ <? _); [apply append_extradata_change|done].
Qed.

Lemma append_tokens_change fuel t v : attribute_change t (append_tokens fuel t v).
Proof.
  revert t v. induction fuel as [|fuel IH]; intros t v; [done|]. destruct v as [|c v]; [done|]. cbn [append_tokens].
  destruct (str_span _ _) as [one rest]. etransitivity; [apply append_decoded_change|apply IH].
Qed.

Lemma parse_extradata_change t : attribute_change t (sdp_parse_fmtp_extradata t).
Proof.
  unfold sdp_parse_fmtp_extradata. case (streq _ _); [done|]. cbv zeta.
  transitivity (with_extra t None); [done|]. set (t0 := with_extra t None). clearbody t0. clear t.
  case (sdp_encoding_is_h264 _); [case_match; [apply append_tokens_change|done]|].
  case (sdp_encoding_is_h265 _).
  { generalize ["sprop-vps"; "sprop-sps"; "sprop-pps"]%string. intros keys. revert t0.
    induction keys as [|key keys IH]; intros t; [done|]. cbn [fold_left].
    etransitivity; [|apply IH]. case_match; [apply append_decoded_change|done]. }
  case (sdp_encoding_is_aac _); [|done]. case_match; [|done]. case (Z.odd _); [done|]. case_match; [|done].
  case (_ <? _); [apply append_extradata_change|done].
Qed.

Lemma attribute_line_change t rest : attribute_change t (attribute_line t rest).
Proof.
  unfold attribute_line. cbv zeta. case (has_prefix _ _).
  { unfold rtpmap_line. destruct (attribute_pt _ _) as [[pt enc]|]; [|done].
    destruct (str_span _ enc) as [name after]. destruct after as [|? after]; [done|].
    destruct (str_span _ after) as [clock more]. case (_ || _); [|done]. cbv zeta.
    match goal with |- context [with_rtpmap t pt ?e ?r ?c] => transitivity (with_rtpmap t pt e r c); [done|] end.
    case (streq _ _); [done|apply parse_extradata_change]. }
  case (has_prefix _ _).
  { unfold fmtp_line. destruct (attribute_pt _ _) as [[pt fmtp]|]; [|done]. case (_ || _); [|done].
    etransitivity; [|apply parse_extradata_change]. done. }
  case (strcaseeq _ _); done.
Qed.

Lemma attribute_change_ok t t' : attribute_change t t' -> track_ok t -> track_ok t'.
Proof.
  intros (Er & Ef & Ep & Ha) (Hr & Hf & Hp). unfold track_ok, fu_ok. rewrite Er, Ef, Ep. split_and!; auto.
Qed.

Lemma add_payload_type_types t pt :
  zlen (tr_payload_types t) <= 16 ->
  zlen (tr_payload_types (sdp_track_add_payload_type t pt)) <= 16 /\
  tr_fu (sdp_track_add_payload_type t pt) = tr_fu t.
Proof.
  intros Hl. unfold sdp_track_add_payload_type. case (_ || _); [done|].
  unfold SDP_DEMUXER_MAX_PT_PER_TRACK. destruct (Z.ltb_spec (zlen (tr_payload_types t)) 16); [|done].
  split; [|done]. cbn. rewrite zlen_app, zlen_cons, zlen_nil. lia.
Qed.

Lemma fmt_list_types fuel t rp t' :
  fmt_list fuel t rp = Done t' -> zlen (tr_payload_types t) <= 16 ->
  zlen (tr_payload_types t') <= 16 /\ tr_fu t' = tr_fu t.
Proof.
  revert t rp. induction fuel as [|fuel IH]; intros t rp; cbn [fmt_list]; [done|].
  destruct (next_word rp) as [[|c w] rp']; [by intros [= <-]|].
  destruct (fmt_number _ _) as [[pt rest]| |]; cbn [mbind outcome_bind]; try done.
  intros E Hl. destruct (IH _ _ E) as [? Ef]; [|split; [done|]].
  - case_match; [by apply add_payload_type_types|done].
  - rewrite Ef. case_match; [by apply add_payload_type_types|done].
Qed.

Lemma media_line_ok cfg rest t : config_ok cfg -> media_line cfg rest = Done (Some t) -> track_ok t.
Proof.
  intros Hcfg. unfold media_line. repeat destruct (next_word _) as [? ?]. cbv zeta. case (_ =? 0); [done|].
  destruct (fmt_list _ _ _) as [t1| |] eqn:Ef; cbn [mbind outcome_bind]; try done.
  apply fmt_list_types in Ef as [Hl Efu]; [|cbn; rewrite zlen_nil; lia].
  case (_ =? _); [done|]. unfold track_buffers.
  destruct (reorder_init _) as [[ret r]| |] eqn:Ei; cbn [mbind outcome_bind]; try done.
  destruct (Z.eqb_spec ret 0) as [->|]; cbn [negb]; [|done].
  destruct (int_of (reorder_capacity cfg * _)) as [product| |]; cbn [mbind outcome_bind]; try done.
  destruct (int_of (jitter_buffer_ms cfg + _)) as [total| |]; cbn [mbind outcome_bind]; try done.
  intros [= <-]. split_and!; [|unfold fu_ok; cbn; rewrite Efu; by vm_compute|done].
  intros _. cbn. unfold config_ok in Hcfg. eapply reorder_init_safe; [|done]. lia.
Qed.

Lemma parse_line_ok cfg raw track l raw' track' :
  config_ok cfg -> parse_line cfg (raw, track) l = Done (raw', track') ->
  Forall track_ok raw /\ zlen raw <= 8 -> Forall track_ok raw' /\ zlen raw' <= 8.
Proof.
  intros Hcfg. unfold parse_line. destruct (line_of l) as [|a [|b rest]]; [by intros [= <- _]..|].
  case (_ && _).
  { unfold SDP_DEMUXER_MAX_TRACKS. destruct (Z.leb_spec 8 (zlen raw)); [by intros [= <- _]|].
    destruct (media_line cfg rest) as [[t|]| |] eqn:E; cbn [mbind outcome_bind]; try done; [|by intros [= <- _]].
    intros [= <- _] [Hraw _]. split.
    - apply Forall_app. split; [done|]. constructor; [|done]. by eapply media_line_ok.
    - rewrite zlen_app, zlen_cons, zlen_nil. lia. }
  case (_ && _); [|by intros [= <- _]]. destruct track as [i|]; [|by intros [= <- _]].
  intros [= <- _] [Hraw Hl]. split; [|unfold zlen in *; by rewrite length_alter].
  apply Forall_alter; [done|]. intros t _ Ht. eapply attribute_change_ok; [apply attribute_line_change|done].
Qed.

Lemma parse_lines_ok cfg st ls st' :
  config_ok cfg -> parse_lines cfg st ls = Done st' ->
  Forall track_ok st.1 /\ zlen st.1 <= 8 -> Forall track_ok st'.1 /\ zlen st'.1 <= 8.
Proof.
  intros Hcfg. revert st. induction ls as [|l ls IH]; intros [raw track]; cbn [parse_lines]; [by intros [= <-]|].
  destruct (parse_line cfg (raw, track) l) as [[raw' track']| |] eqn:E; cbn [mbind outcome_bind]; try done.
  intros E' Hraw. apply (IH _ E'). by eapply parse_line_ok.
Qed.

Lemma track_zero_ok : track_ok track_zero.
Proof. split_and!; [done|by vm_compute..]. Qed.

Lemma free_tracks_ok ts : Forall track_ok ts -> Forall track_ok (free_tracks ts).
Proof.
  induction 1 as [|t ts Ht Hts IH]; cbn [free_tracks]; [done|].
  case (has_pad t); constructor; done || apply track_zero_ok.
Qed.

Lemma free_tracks_zlen ts : zlen (free_tracks ts) = zlen ts.
Proof. induction ts as [|t ts IH]; cbn [free_tracks]; [done|]. case (has_pad t); rewrite !zlen_cons; lia. Qed.

Lemma zlen_filter_le {A} (P : A -> bool) (l : list A) : zlen (filter P l) <= zlen l.
Proof. unfold zlen. pose proof (length_filter P l). lia. Qed.

Lemma parse_sdp_ok cfg txt ts parsed ret ts' parsed' :
  config_ok cfg -> sdp_demuxer_parse_sdp cfg txt ts parsed = Done (ret, ts', parsed') ->
  Forall track_ok ts /\ zlen ts <= 8 -> Forall track_ok ts' /\ zlen ts' <= 8.
Proof.
  intros Hcfg. unfold sdp_demuxer_parse_sdp. case (streq _ _); [by intros [= _ <- _]|].
  case (existsb _ _).
  - intros [= _ <- _] [Hts Hl]. split; [by apply free_tracks_ok|]. by rewrite free_tracks_zlen.
  - destruct (parse_lines _ _ _) as [[raw track]| |] eqn:E; cbn [mbind outcome_bind]; try done.
    intros [= _ <- _] _. apply parse_lines_ok in E as [Hraw Hl]; [|done|by split].
    cbn in Hraw, Hl. split.
    { apply list.Forall_forall. intros t [_ Hin]%list_elem_of_filter. revert t Hin. by apply list.Forall_forall. }
    pose proof (zlen_filter_le kept_track raw). lia.
Qed.
End Parsing.

(** ** The element over its whole life *)

Section Life.
Context `{CMemory} (monotonic_us : nat -> Z) (files : string -> option string).

Definition link_pad (t : sdp_track_t) : sdp_track_t :=
  with_src_pad t ((fun p => mk_src_pad (pad_name p) true) <$> tr_src_pad t) (tr_active t).

Definition demuxer_ok (s : sdp_demuxer_t) : Prop := tracks_ok s /\ config_ok (sd_config s).

Lemma run_parse_ok s ret s' : run_parse s = Done (ret, s') -> demuxer_ok s -> demuxer_ok s'.
Proof.
  unfold run_parse. destruct (sdp_demuxer_parse_sdp _ _ _ _) as [[[r ts] p]| |] eqn:E; cbn [mbind outcome_bind]; try done.
  intros [= _ <-] [Ht Hc]. split; [|done]. by eapply parse_sdp_ok.
Qed.

Lemma create_pads_ok ts i pads :
  Forall track_ok ts -> Forall track_ok (sdp_demuxer_create_src_pads ts i pads) /\
  zlen (sdp_demuxer_create_src_pads ts i pads) = zlen ts.
Proof.
  intros Hts. revert i pads. induction Hts as [|t ts (Hr & Hf & Hp) Hts IH]; intros i pads; [done|].
  cbn [sdp_demuxer_create_src_pads]. cbv zeta. destruct (tr_active t) eqn:Ea; cbn [negb].
  2: { destruct (IH (i + 1) pads). rewrite !zlen_cons. split; [constructor; [|done]|lia]. by split_and!; [rewrite Ea|..]. }
  case (negb (malloc_ok SIZEOF_PAD)).
  { destruct (IH (i + 1) pads). rewrite !zlen_cons. split; [by constructor|lia]. }
  case (negb (malloc_ok _)).
  { destruct (IH (i + 1) pads). rewrite !zlen_cons. split; [by constructor|lia]. }
  destruct (IH (i + 1) (pads + 1)). rewrite !zlen_cons. split; [|lia]. constructor; [|done].
  split_and!; [|done..]. intros _. by apply Hr.
Qed.

Lemma open_ok s r s' : sdp_open s = Done (r, s') -> demuxer_ok s -> demuxer_ok s'.
Proof.
  unfold sdp_open. case (sd_opened s); [by intros [= _ <-]|]. intros E Hs.
  destruct (if negb (sdp_parsed s) && negb (streq (sdp_text s) "") then run_parse s else mret (1, s))
    as [[ret s1]| |] eqn:E1; cbn [mbind outcome_bind] in E; try done.
  assert (demuxer_ok s1) as Hs1.
  { clear E. revert E1. case_match; intros E1; [exact (run_parse_ok _ _ _ E1 Hs)|]. injection E1 as _ <-. exact Hs. }
  revert E. case (ret <=? 0); [by intros [= _ <-]|]. intros [= _ <-].
  destruct Hs1 as [[Ht Hl] Hc]. destruct (sd_tracks s1) as [|t ts] eqn:Ets; [split; [split; cbn; rewrite Ets; assumption|exact Hc]|].
  destruct (sdp_parsed s1 && negb (has_pad t)); [|split; [split; cbn; rewrite Ets; assumption|exact Hc]].
  pose proof (create_pads_ok (t :: ts) 0 (count_pads (t :: ts)) Ht) as [Ht' Hl'].
  split; [|done]. split; cbn [sd_tracks with_state with_tracks]; [done|]. by rewrite Hl'.
Qed.

Lemma demux_set_property_ok s name value r s' :
  sdp_set_property files s name value = Done (r, s') -> demuxer_ok s -> demuxer_ok s'.
Proof.
  intros E Hs. revert E. unfold sdp_set_property. cbv zeta.
  case (streq name "sdp").
  { destruct (run_parse _) as [[ret s1]| |] eqn:E1; cbn [mbind outcome_bind]; try done. intros [= _ <-].
    eapply run_parse_ok; [eassumption|]. done. }
  case (name_in _ _).
  { unfold sdp_load_file. destruct (files value); cbn [mbind outcome_bind]; [|by intros [= _ <-]].
    destruct (run_parse _) as [[ret s1]| |] eqn:E1; cbn [mbind outcome_bind]; try done. intros [= _ <-].
    eapply run_parse_ok; [eassumption|]. done. }
  destruct Hs as [Ht Hc].
  case (name_in _ _); [by intros [= _ <-]|].
  case (name_in _ _); [intros [= _ <-]; split; [done|]|].
  { unfold config_ok in *. cbn. zbool; lia. }
  repeat (case (name_in _ _); [by intros [= _ <-]|]). by intros [= _ <-].
Qed.

Lemma start_ok s r s' : sdp_start s = Done (r, s') -> demuxer_ok s -> demuxer_ok s'.
Proof.
  unfold sdp_start. intros E Hs. revert E.
  destruct (if sd_opened s then mret s else _) as [s1| |] eqn:E1; cbn [mbind outcome_bind]; try done.
  assert (demuxer_ok s1) as Hs1.
  { revert E1. case_match; [by intros [= <-]|].
    destruct (sdp_open s) as [[r1 s2]| |] eqn:E2; cbn [mbind outcome_bind]; try done. intros [= <-].
    eapply open_ok; eassumption. }
  case (_ || _); by intros [= _ <-].
Qed.

Lemma push_ok s buf clock r s' clock' out : buffer_ok buf -> mem_size buf < 2147483648 ->
  sdp_sink_push monotonic_us s buf clock = Done (r, s', clock', out) -> demuxer_ok s -> demuxer_ok s'.
Proof.
  intros Hb Hm E [Ht Hc]. destruct (sink_push_safe monotonic_us s buf clock Ht Hb Hm) as (s1 & c1 & o1 & E1 & Ht1 & Hc1).
  rewrite E1 in E. injection E as <- <- <- <-. split; [done|]. by rewrite Hc1.
Qed.
End Life.

Section Reach.
Context (monotonic_us : nat -> Z) (files : string -> option string).

(** The calls on the element, each with an allocator of its own; a source pad may be
    linked at any time. *)
Inductive demux_step : sdp_demuxer_t -> sdp_demuxer_t -> Prop :=
| step_set (M : CMemory) s name value r s' : sdp_set_property files s name value = Done (r, s') -> demux_step s s'
| step_open (M : CMemory) s r s' : sdp_open s = Done (r, s') -> demux_step s s'
| step_start (M : CMemory) s r s' : sdp_start s = Done (r, s') -> demux_step s s'
| step_stop s : demux_step s (sdp_stop s).2
| step_close s : demux_step s (sdp_close s).2
| step_link s i : demux_step s (with_tracks s (alter link_pad i (sd_tracks s)))
| step_push (M : CMemory) s buf clock r s' clock' out :
    buffer_ok buf -> mem_size buf < 2147483648 ->
    sdp_sink_push monotonic_us s buf clock = Done (r, s', clock', out) -> demux_step s s'.

Lemma step_ok s s' : demuxer_ok s -> demux_step s s' -> demuxer_ok s'.
Proof.
  intros Hs Hstep. destruct Hstep as [M s name value r s' E|M s r s' E|M s r s' E|s|s|s i|M s buf clock r s' c o Hb Hm E].
  - by eapply demux_set_property_ok.
  - by eapply open_ok.
  - by eapply start_ok.
  - done.
  - split; [by split|apply Hs].
  - destruct Hs as [[Ht Hl] Hc]. split; [split|done]; cbn.
    + apply Forall_alter; [done|]. intros t _ Htr. exact Htr.
    + unfold zlen in *. by rewrite length_alter.
  - by eapply push_ok.
Qed.

(** C10. The sink handler is safe in every state the element can reach, by any sequence of
    property settings, openings, closings, links and pushes, each with any answers of the
    allocator (within one call they depend on the size asked for): for any buffer below 2 GiB it returns [ZST_OK] without reading a byte outside
    the buffer, or outside the packet or payload a function is given, without overrunning an array, using a freed reorder buffer or looping; there are at most 8 tracks,
    16 payload types each, and the reassembled unit stays in its 150000 bytes. *)
Theorem sdp_demuxer_safe `{CMemory} s buf clock :
  reach demux_step zst_sdp_demuxer_create s -> buffer_ok buf -> mem_size buf < 2147483648 ->
  exists s' clock' out, sdp_sink_push monotonic_us s buf clock = Done (ZST_OK, s', clock', out) /\
    zlen (sd_tracks s') <= SDP_DEMUXER_MAX_TRACKS /\
    Forall (fun t => zlen (tr_payload_types t) <= SDP_DEMUXER_MAX_PT_PER_TRACK /\
                     zlen (fu_accum (tr_fu t)) <= SDP_DEMUXER_MAX_FU_ACCUM) (sd_tracks s').
Proof.
  intros Hreach Hb Hm. assert (demuxer_ok s) as [Ht _].
  { eapply (reach_inv demux_step demuxer_ok); [|apply step_ok|exact Hreach]. by split; [split|]. }
  destruct (sink_push_safe monotonic_us s buf clock Ht Hb Hm) as (s' & c & o & E & [Ht' Hl] & _).
  exists s', c, o. split_and!; [done..|]. eapply Forall_impl; [exact Ht'|]. by intros t (_ & ? & ?).
Qed.
End Reach.
