(* ===== verification/SdpFlow.v ===== *)
(** * From the payloader to the SDP demultiplexer

    An H.264 access unit pushed into the payloader of [RtpPay], its packets framed as RTSP
    interleaved data in one buffer, comes out of the demultiplexer as its NAL units, each
    behind a start code, in order ([sdp_h264_interleaved]). *)

From Stdlib Require Import Ascii String.
From S2P Require Import Prelude CLib Pad Caps MediaUtils RtpPay RtpPaySpec RtpRoundtrip SdpReorder SdpReorderSpec SdpTiming SdpText SdpDemux SdpDemuxSpec.

Local Open Scope Z_scope.

(** ** One fragment *)

(** The header byte an FU-A carries comes back, but for its forbidden bit. *)
Lemma demux_fu_byte b first last :
  0 <= b < 128 ->
  let ind := u8 (Z.lor (Z.land b 224) 28) in let hdr := fu_bits (Z.land b 31) first last in
  Z.land ind 31 = 28 /\ bit hdr 7 = first /\ bit hdr 6 = last /\
  u8 (Z.lor (Z.shiftl (Z.land (Z.shiftr ind 5) 3) 5) (Z.land hdr 31)) = b.
Proof.
  intros Hb ind hdr.
  set (P := fun b => negb (b <? 128) ||
    let ind := u8 (Z.lor (Z.land b 224) 28) in let hdr := fu_bits (Z.land b 31) first last in
    (Z.land ind 31 =? 28) && Bool.eqb (bit hdr 7) first && Bool.eqb (bit hdr 6) last &&
    (u8 (Z.lor (Z.shiftl (Z.land (Z.shiftr ind 5) 3) 5) (Z.land hdr 31)) =? b)).
  assert (P b = true) as HP by (apply byte_forall; [by destruct first, last; vm_compute|unfold is_byte; lia]).
  unfold P in HP. destruct (Z.ltb_spec b 128); [|lia]. cbn [negb orb] in HP. cbv zeta in HP.
  rewrite !andb_true_iff, !Z.eqb_eq, !eqb_true_iff in HP. by destruct HP as [[[? ?] ?] ?].
Qed.

Section Flow.
Context `{CMemoryOk} (monotonic_us : nat -> Z).

(** An H.264 track that can push. *)
Record h264_track (pad : string) (ssrc : Z) (t : sdp_track_t) : Prop := {
  ht_pad : linked_pad t = Some pad;
  ht_type : tr_type t = 1;
  ht_encoding : sdp_encoding_is_h264 (tr_encoding t) = true;
  ht_ssrc : tr_ssrc t = ssrc;
}.

(** The reassembly holds [X], begun at this timestamp by this source. *)
Definition holding (X : bytes) (ts : Z) (t : sdp_track_t) : Prop :=
  fu_accum (tr_fu t) = X /\ (X <> [] -> fu_accum_ts (tr_fu t) = ts /\ fu_accum_ssrc (tr_fu t) = tr_ssrc t).

Definition datas (ps : list pushed) : list bytes := (fun p => buf_bytes (pu_buf p)) <$> ps.

Definition video_on (pad : string) (p : pushed) : Prop :=
  pu_pad p = pad /\ buf_type (pu_buf p) = ZST_BUFFER_VIDEO_PACKET.

(** From [s] to [s'] the units [ds] were pushed on [pad]. *)
Definition sent (pad : string) (ds : list bytes) (s s' : track_run) : Prop :=
  exists ps, run_out s' = (run_out s ++ ps)%list /\ datas ps = ds /\ Forall (video_on pad) ps.

Lemma sent_nil pad s s' : run_out s' = run_out s -> sent pad [] s s'.
Proof. intros E. exists []. by rewrite app_nil_r. Qed.

Lemma sent_app pad ds es s1 s2 s3 : sent pad ds s1 s2 -> sent pad es s2 s3 -> sent pad (ds ++ es) s1 s3.
Proof.
  intros (ps & E1 & <- & F1) (qs & E2 & <- & F2). exists (ps ++ qs)%list. split_and!.
  - by rewrite E2, E1, app_assoc.
  - unfold datas. by rewrite fmap_app.
  - by apply Forall_app.
Qed.

Lemma push_nal_sent pad ssrc s nal pts :
  h264_track pad ssrc (run_track s) ->
  sent pad [sc4 ++ nal]%list s (sdp_push_h264_nal s nal pts) /\
  tr_fu (run_track (sdp_push_h264_nal s nal pts)) = tr_fu (run_track s).
Proof.
  intros []. unfold sdp_push_h264_nal, sdp_push_buffer. rewrite !malloc_total, ht_pad0. cbn [andb]. split; [|done].
  eexists [_]. split; [done|]. split; [|by constructor].
  unfold datas. cbn [fmap list_fmap pu_buf]. by rewrite buf_bytes_of.
Qed.

Lemma h264_track_runs pad ssrc s s' : runs_to s s' -> h264_track pad ssrc (run_track s) -> h264_track pad ssrc (run_track s').
Proof.
  intros [Hs _] []. pose proof (linked_same _ _ Hs) as El. destruct Hs. constructor; congruence.
Qed.

(** What one payload does: the reassembly goes from [X] to [Y] and [ds] are pushed. *)
Definition body_step (ts : Z) (body X Y : bytes) (ds : list bytes) : Prop :=
  forall pad ssrc s, h264_track pad ssrc (run_track s) -> holding X ts (run_track s) ->
  exists s', sdp_demuxer_depacketize monotonic_us s body ts = Done s' /\ runs_to s s' /\
    holding Y ts (run_track s') /\ sent pad ds s s'.

Lemma run_pts_keeps s ts pts s' :
  run_pts monotonic_us s ts = (pts, s') -> run_out s' = run_out s /\ tr_fu (run_track s') = tr_fu (run_track s).
Proof. unfold run_pts. destruct (sdp_rtp_ts_to_pts _ _ _ _ _) as [[]]. by intros [= _ <-]. Qed.

(** The common start: the packet is counted and stamped. *)
Lemma depacketize_start pad ssrc s body ts X :
  h264_track pad ssrc (run_track s) -> holding X ts (run_track s) -> bytes_ok body ->
  exists s1, sdp_demuxer_depacketize monotonic_us s body ts = sdp_demuxer_depacketize_h264 monotonic_us s1 body ts /\
    runs_to s s1 /\ h264_track pad ssrc (run_track s1) /\ holding X ts (run_track s1) /\ run_out s1 = run_out s.
Proof.
  intros Ht Hh Hb. exists (on_track one_packet s).
  assert (runs_to s (on_track one_packet s)) as Hr by (by apply on_track_runs).
  split; [|by split_and!; [|apply (h264_track_runs _ _ s)|..]].
  unfold sdp_demuxer_depacketize. destruct Ht. cbv zeta.
  change (tr_type (run_track (on_track one_packet s))) with (tr_type (run_track s)).
  change (tr_encoding (run_track (on_track one_packet s))) with (tr_encoding (run_track s)).
  by rewrite ht_type0, ht_encoding0.
Qed.

Lemma single_step ts nal :
  bytes_ok nal -> 0 < zlen nal -> Z.land (rd nal 0) 31 <= 23 ->
  body_step ts nal [] [] [sc4 ++ nal]%list.
Proof.
  intros Hb Hl Ht pad ssrc s Htr Hh.
  destruct (depacketize_start pad ssrc s nal ts [] Htr Hh Hb) as (s1 & E & Hr & Htr1 & Hh1 & Eo).
  rewrite E. unfold sdp_demuxer_depacketize_h264. rewrite (proj2 (Z.ltb_ge _ _)) by lia. reads.
  destruct (run_pts monotonic_us s1 ts) as [pts s2] eqn:E2.
  rewrite (proj2 (Z.leb_le (Z.land _ _) _)) by done.
  assert (runs_to s1 s2) as Hr2 by (by eapply run_pts_runs).
  pose proof (h264_track_runs _ _ _ _ Hr2 Htr1) as Htr2.
  destruct (push_nal_sent pad ssrc s2 nal pts Htr2) as [Hs Hfu].
  destruct (run_pts_keeps _ _ _ _ E2) as [Eo2 Efu2].
  eexists. split; [done|]. split_and!.
  - etransitivity; [exact Hr|]. etransitivity; [exact Hr2|]. apply push_h264_runs.
  - destruct Hh1 as [E1 _]. split; [by rewrite Hfu, Efu2|done].
  - destruct Hs as (ps & ? & ? & ?). exists ps. by rewrite <-Eo, <-Eo2.
Qed.

Lemma fu_step ts b first last c X :
  0 <= b < 128 -> bytes_ok c -> 0 < zlen c -> (first = false -> X <> []) ->
  zlen (if first then [b] else X) + zlen c <= SDP_DEMUXER_MAX_FU_ACCUM ->
  let Y := ((if first then [b] else X) ++ c)%list in
  body_step ts (h264_fu_hdr b first last ++ c) X (if last then [] else Y) (if last then [sc4 ++ Y]%list else []).
Proof.
  intros Hbyte Hc Hlen HX Hmax Y pad ssrc s Htr Hh. unfold SDP_DEMUXER_MAX_FU_ACCUM in *.
  destruct (demux_fu_byte b first last Hbyte) as (H28 & Hfirst & Hlast & Hnal).
  destruct (h264_fu_byte b first last) as (_ & _ & _ & Hi & Hd); [unfold is_byte; lia|].
  set (body := (h264_fu_hdr b first last ++ c)%list).
  assert (bytes_ok body) as Hb by (apply bytes_ok_app; split; [|done]; constructor; [exact Hi|constructor; [exact Hd|constructor]]).
  assert (zlen body = 2 + zlen c) as Hbl by (unfold body; by rewrite zlen_app).
  destruct (depacketize_start pad ssrc s body ts X Htr Hh Hb) as (s1 & E & Hr & Htr1 & Hh1 & Eo).
  rewrite E. unfold sdp_demuxer_depacketize_h264. rewrite Hbl, (proj2 (Z.ltb_ge _ _)) by lia. reads.
  destruct (run_pts monotonic_us s1 ts) as [pts s2] eqn:E2.
  change (rd body 0) with (u8 (Z.lor (Z.land b 224) 28)). change (rd body 1) with (fu_bits (Z.land b 31) first last).
  rewrite H28, Hnal, Hfirst, Hlast. change (28 <=? H264_NAL_SINGLE_MAX) with false.
  change (28 =? H264_NAL_FU_A) with true. rewrite (proj2 (Z.leb_le 2 _)) by lia. cbn [andb].
  assert (runs_to s1 s2) as Hr2 by (by eapply run_pts_runs).
  pose proof (h264_track_runs _ _ _ _ Hr2 Htr1) as Htr2.
  destruct (run_pts_keeps _ _ _ _ E2) as [Eo2 Efu2]. destruct Hh1 as [EX Hts].
  assert (sub_bytes 2 (zlen body - 2) body = c) as Hsub by apply (zlen_hdr_app (h264_fu_hdr b first last)).
  unfold fragment. rewrite (sub_in_ok 2), Hsub, Efu2 by lia. cbn [mbind outcome_bind]. cbv zeta.
  set (fu0 := tr_fu (run_track s1)) in *.
  assert (tr_ssrc (run_track s2) = tr_ssrc (run_track s1)) as Es by (by destruct Hr2 as [[] _]). rewrite Es.
  set (fu1 := if first then mk_fu [b] ts (tr_ssrc (run_track s1)) else fu0).
  assert (fu_accum fu1 = (if first then [b] else X) /\ fu_accum_ts fu1 = ts /\
          fu_accum_ssrc fu1 = tr_ssrc (run_track s1)) as (EA & ET & ES).
  { unfold fu1. destruct first; [done|]. split; [done|]. by apply Hts, HX. }
  rewrite ET, ES, !Z.eqb_refl. cbn [andb]. cbn [mbind outcome_bind mret outcome_ret].
  assert (fu_append fu1 c = mk_fu Y ts (tr_ssrc (run_track s1))) as ->.
  { unfold fu_append. rewrite EA, ET, ES, (proj2 (Z.ltb_lt _ _)) by lia. cbn [andb].
    by rewrite (proj2 (Z.leb_le _ _)). }
  cbn [fu_accum fu_accum_ts fu_accum_ssrc]. change (zlen [b]) with 1.
  set (s3 := on_track _ s2).
  assert (runs_to s2 s3) as Hr3.
  { apply on_track_runs; [by constructor|]. intros _. unfold fu_ok, Y. cbn. rewrite zlen_app.
    exact Hmax. }
  assert (1 < zlen Y) as HY.
  { unfold Y. rewrite zlen_app. destruct first; [rewrite zlen_cons, zlen_nil; lia|].
    specialize (HX eq_refl). destruct X; [done|]. rewrite zlen_cons. pose proof (zlen_nonneg X). lia. }
  destruct last; cbn [andb].
  - rewrite (proj2 (Z.ltb_lt _ _) HY). destruct (run_pts monotonic_us s3 ts) as [pts4 s4] eqn:E4.
    assert (runs_to s3 s4) as Hr4 by (by eapply run_pts_runs).
    destruct (run_pts_keeps _ _ _ _ E4) as [Eo4 _].
    pose proof (h264_track_runs _ _ _ _ Hr4 (h264_track_runs _ _ _ _ Hr3 Htr2)) as Htr4.
    destruct (push_nal_sent pad ssrc s4 Y pts4 Htr4) as [(ps & Ep & ? & ?) _].
    eexists. split; [done|]. split_and!.
    + etransitivity; [exact Hr|]. etransitivity; [exact Hr2|]. etransitivity; [exact Hr3|].
      etransitivity; [exact Hr4|]. etransitivity; [apply push_h264_runs|]. apply on_track_runs; [by constructor|].
      intros _. by vm_compute.
    + by split.
    + exists ps. split_and!; [|done..]. cbn [run_out on_track]. rewrite Ep, Eo4. unfold s3. cbn. by rewrite Eo2, Eo.
  - eexists. split; [done|]. split_and!.
    + etransitivity; [exact Hr|]. etransitivity; [exact Hr2|]. exact Hr3.
    + split; [done|]. intros _. cbn. by rewrite Es.
    + apply sent_nil. unfold s3. cbn. by rewrite Eo2, Eo.
Qed.

(** ** Runs of payloads *)

Inductive steps (ts : Z) : list bytes -> bytes -> bytes -> list bytes -> Prop :=
| steps_nil X : steps ts [] X X []
| steps_cons body bodies X Y Z ds es :
    body_step ts body X Y ds -> steps ts bodies Y Z es -> steps ts (body :: bodies) X Z (ds ++ es).

Lemma steps_app ts bs cs X Y Z ds es : steps ts bs X Y ds -> steps ts cs Y Z es -> steps ts (bs ++ cs) X Z (ds ++ es).
Proof. induction 1; intros; [done|]. cbn [app]. rewrite <-app_assoc. by econstructor; eauto. Qed.

Lemma fu_list_steps ts b m first cs X :
  0 <= b < 128 -> cs <> [] -> (first = false -> X <> []) -> (first = true -> X = []) ->
  Forall (fun c => bytes_ok c /\ 0 < zlen c) cs ->
  zlen (if first then [b] else X) + zlen (concat cs) <= SDP_DEMUXER_MAX_FU_ACCUM ->
  steps ts (fr_body <$> fu_list (h264_fu_hdr b) ts m first cs) X []
    [sc4 ++ (if first then [b] else X) ++ concat cs]%list.
Proof.
  intros Hb Hne HX Hf Hcs. revert first X Hne HX Hf. induction Hcs as [|c cs [Hc Hl] Hcs IH];
    intros first X Hne HX Hf Hmax; [done|]. cbn [fu_list fmap list_fmap fr_body concat] in *.
  rewrite zlen_app in Hmax. pose proof (zlen_nonneg (concat cs)).
  destruct cs as [|c' cs].
  - cbn [fu_list concat]. rewrite app_nil_r.
    apply (steps_cons ts _ [] X [] [] [sc4 ++ (if first then [b] else X) ++ c]%list []); [|constructor].
    apply (fu_step ts b first true c X); try done. lia.
  - eapply (steps_cons ts _ _ X _ [] []); [apply (fu_step ts b first false c X); try done; lia|].
    cbv zeta. cbn [negb].
    assert (Hn : ((if first then [b] else X) ++ c)%list <> []) by (destruct first; [done|by destruct X; [specialize (HX eq_refl)|]]).
    specialize (IH false ((if first then [b] else X) ++ c)%list). cbv iota in IH. rewrite <-app_assoc in IH.
    apply IH; try done. rewrite zlen_app. lia.
Qed.

(** A NAL unit the demultiplexer can carry. *)
Definition demux_nal (nal : bytes) : Prop :=
  bytes_ok nal /\ 0 < zlen nal < SDP_DEMUXER_MAX_FU_ACCUM /\ 0 <= rd nal 0 < 128 /\ Z.land (rd nal 0) 31 <= 23.

Lemma nal_steps mtu nal ts m :
  15 <= mtu -> demux_nal nal -> steps ts (fr_body <$> h264_frags mtu nal ts m) [] [] [sc4 ++ nal]%list.
Proof.
  intros Hm (Hb & Hl & Hbyte & Ht). unfold h264_frags. destruct (Z.leb_spec (zlen nal) (mtu - 12)).
  { apply (steps_cons ts nal [] [] [] [] [sc4 ++ nal]%list []); [apply single_step; (done || lia)|constructor]. }
  destruct nal as [|b rest]; [rewrite zlen_nil in *; lia|]. rewrite zlen_cons in *.
  assert (drop 1 (b :: rest) = rest) as Ed by (cbn [drop]; apply drop_0). rewrite Ed.
  assert (zlen rest <= Z.of_nat (length (b :: rest))) as Hch by (unfold zlen; simpl; lia).
  pose proof (chunks_concat (length (b :: rest)) (mtu - 14) rest ltac:(lia) Hch) as Hc.
  pose proof (fun c => chunks_bounds (length (b :: rest)) (mtu - 14) rest c ltac:(lia)) as Hcb.
  set (cs := chunks (length (b :: rest)) (mtu - 14) rest) in *.
  assert (bytes_ok rest) as Hrest by (by apply Forall_cons in Hb as [_ ?]).
  change (rd (b :: rest) 0) with b in *.
  replace (sc4 ++ b :: rest)%list with (sc4 ++ [b] ++ concat cs)%list by by rewrite Hc.
  apply (fu_list_steps ts b m true cs []); try done.
  - intros E. rewrite E in Hc. cbn in Hc. subst rest. rewrite zlen_nil in *. lia.
  - apply list.Forall_forall. intros c Hin. split; [|by apply Hcb].
    rewrite <-Hc in Hrest. clear -Hin Hrest. induction Hin as [|? ? ? Hin IH];
      cbn [concat] in Hrest; apply bytes_ok_app in Hrest as [? ?]; [done|by apply IH].
  - rewrite Hc, zlen_cons, zlen_nil. lia.
Qed.

Lemma au_steps mtu nals ts :
  15 <= mtu -> Forall demux_nal nals ->
  steps ts (fr_body <$> au_frags (h264_frags mtu) ts nals) [] [] (app sc4 <$> nals).
Proof.
  intros Hm. induction 1 as [|nal nals Hn Hnals IH]; cbn [au_frags]; [constructor|].
  rewrite fmap_app. change (app sc4 <$> nal :: nals) with ([sc4 ++ nal]%list ++ (app sc4 <$> nals))%list.
  eapply steps_app; [by apply nal_steps|done].
Qed.

(** ** Draining them *)

Lemma peek_of_drain r p r' : reorder_drain r = Done (p, r') -> reorder_peek r = Done (bool_decide (is_Some p)).
Proof.
  unfold reorder_drain, reorder_peek. case (ro_count r =? 0); [by intros [= <- _]|].
  destruct (get_slot _ _) as [[ss s]| |]; cbn [mbind outcome_bind]; try done.
  destruct s; intros [= <- _]; done.
Qed.

Definition frag_slot (ts : Z) (q : reorder_slot_t) : Prop := slot_timestamp q = ts /\ 0 < slot_len q.

Lemma drain_steps pad ssrc ts k qs m nx X Y ds fuel s ss :
  steps ts (slot_data <$> qs) X Y ds -> Forall (frag_slot ts) qs ->
  h264_track pad ssrc (run_track s) -> holding X ts (run_track s) ->
  ring k (tr_reorder (run_track s)) ss ->
  window_of (tr_reorder (run_track s)) ss = mk_window nx ((Some <$> qs) ++ replicate m None) ->
  (length qs <= fuel)%nat ->
  exists s', drain_track monotonic_us fuel s = Done s' /\ h264_track pad ssrc (run_track s') /\
    holding Y ts (run_track s') /\ sent pad ds s s'.
Proof.
  revert m nx X ds fuel s ss. induction qs as [|q qs IH]; intros m nx X ds fuel s ss Hst Hqs Htr Hh Hr Hw Hf.
  - cbn in Hst. inversion Hst; subst. destruct (drain_sim k _ ss Hr) as (r' & ss' & p & E & _ & Ew).
    rewrite Hw in Ew. assert (p = None) as -> by (destruct m; cbn in Ew; by injection Ew).
    exists s. split; [|by split_and!; [..|apply sent_nil]].
    pose proof (peek_of_drain _ _ _ E) as Ep. destruct fuel; cbn [drain_track]; by rewrite Ep.
  - cbn [fmap list_fmap] in Hst. inversion Hst as [|body bodies X1 Y1 Z1 ds1 es1 Hbody Hrest]; subst.
    apply Forall_cons in Hqs as [[Hts Hlen] Hqs]. destruct fuel as [|fuel]; [simpl in Hf; lia|].
    destruct (drain_sim k _ ss Hr) as (r' & ss' & p & E & Hr' & Ew).
    rewrite Hw in Ew. pose proof (f_equal fst Ew) as Ep0. apply (f_equal snd) in Ew. cbn [fst snd] in Ep0, Ew.
    change (Some q = p) in Ep0. subst p.
    change (mk_window (u16 (nx + 1)) (((Some <$> qs) ++ replicate m None) ++ [None]) = window_of r' ss') in Ew.
    cbn [drain_track]. rewrite (peek_of_drain _ _ _ E). cbn [mbind outcome_bind bool_decide]. rewrite E.
    cbn [mbind outcome_bind]. rewrite (proj2 (Z.ltb_lt _ _) Hlen), Hts.
    set (s1 := on_track (fun t => with_reorder t r') s).
    destruct (Hbody pad ssrc s1) as (s2 & E2 & Hr2 & Hh2 & Hs2); [by destruct Htr; constructor|done|].
    rewrite E2. cbn [mbind outcome_bind]. pose proof (same_reorder _ _ (proj1 Hr2)) as Er.
    destruct (IH (m + 1)%nat (u16 (nx + 1)) Y1 es1 fuel s2 ss') as (s3 & E3 & Htr3 & Hh3 & Hs3); try done.
    + apply (h264_track_runs pad ssrc s1 s2 Hr2). by destruct Htr; constructor.
    + by rewrite Er.
    + rewrite Er. change (tr_reorder (run_track s1)) with r'. rewrite <-Ew. f_equal. rewrite <-app_assoc. f_equal.
      by rewrite replicate_add.
    + simpl in Hf. lia.
    + exists s3. split_and!; [done..|]. destruct Hs2 as (ps & Ep & ? & ?).
      eapply sent_app; [|exact Hs3]. by exists ps.
Qed.

(** ** Packets of the payloader *)

(** The demultiplexer's only track takes the payloader's packets. *)
Definition accepts (t : sdp_track_t) (pay : rtp_payloader_t) : Prop :=
  tr_active t = true /\
  (tr_ssrc t = pay_ssrc pay \/ tr_ssrc t = 0 /\ tr_payload_type t = pay_payload_type pay).

Lemma route_single t pay :
  accepts t pay -> route [t] (pay_ssrc pay) (pay_payload_type pay) = Some (0%nat, [with_ssrc t (pay_ssrc pay)]).
Proof.
  intros [Ha Hs]. unfold route. cbn [find_track]. rewrite Ha. cbn [andb].
  destruct (Z.eqb_spec (tr_ssrc t) (pay_ssrc pay)) as [E|E].
  - rewrite <-E. by destruct t.
  - destruct Hs as [?|[E0 Ep]]; [done|]. rewrite Ep, Z.eqb_refl. cbn [alter list_alter]. by rewrite E0.
Qed.

Definition marker_of (f : frag) : Z := if fr_marker f then 1 else 0.

Lemma marker_shift (m : bool) pt :
  0 <= pt < 128 -> Z.shiftr (u8 (Z.lor (if m then 128 else 0) (Z.land pt 127))) 7 = if m then 1 else 0.
Proof.
  intros Hpt.
  set (P := fun pt => negb (pt <? 128) || (Z.shiftr (u8 (Z.lor (if m then 128 else 0) (Z.land pt 127))) 7 =? (if m then 1 else 0))).
  assert (P pt = true) as HP by (apply byte_forall; [by destruct m; vm_compute|unfold is_byte; lia]).
  unfold P in HP. destruct (Z.ltb_spec pt 128); [|lia]. by apply Z.eqb_eq in HP.
Qed.

Lemma process_packet s t pay pts f :
  sd_tracks s = [t] -> accepts t pay -> pay_ok pay -> 0 <= fr_ts f < 4294967296 -> 0 < zlen (fr_body f) ->
  sdp_process_rtp_packet s (buf_bytes (packet_of pay pts f)) =
    ('(_, r) ← reorder_insert (tr_reorder t) (pay_seq pay) (fr_ts f) (marker_of f) (fr_body f)
                 (u16 (max_lateness_ms (sd_config s)));
     mret (with_tracks s [with_reorder (with_ssrc t (pay_ssrc pay)) r])).
Proof.
  intros Es Ha Hok Hts Hl. unfold packet_of. rewrite buf_bytes_of.
  set (p := (rtp_header pay (fr_ts f) (fr_marker f) ++ fr_body f)%list).
  assert (zlen p = 12 + zlen (fr_body f)) as Hp by (unfold p; by rewrite zlen_app).
  unfold sdp_process_rtp_packet. rewrite (proj2 (Z.ltb_ge _ _)) by lia. reads.
  assert (payload_offset p = Done 12) as ->.
  { unfold payload_offset. rewrite (rd_in_ok p 0) by lia. done. }
  cbn [mbind outcome_bind]. rewrite (proj2 (Z.leb_gt _ _)) by lia.
  change (rd p 1) with (u8 (Z.lor (if fr_marker f then 128 else 0) (Z.land (pay_payload_type pay) 127))).
  destruct (marker_byte (fr_marker f) _ (ok_pt pay Hok)) as [-> _].
  rewrite marker_shift by apply Hok.
  change (be32 (rd p 8) (rd p (8 + 1)) (rd p (8 + 2)) (rd p (8 + 3))) with (be32 (u8 (Z.shiftr (pay_ssrc pay) 24)) (u8 (Z.shiftr (pay_ssrc pay) 16))
    (u8 (Z.shiftr (pay_ssrc pay) 8)) (u8 (pay_ssrc pay))).
  rewrite be32_u8 by apply Hok.
  change (be32 (rd p 4) (rd p (4 + 1)) (rd p (4 + 2)) (rd p (4 + 3))) with (be32 (u8 (Z.shiftr (fr_ts f) 24)) (u8 (Z.shiftr (fr_ts f) 16))
    (u8 (Z.shiftr (fr_ts f) 8)) (u8 (fr_ts f))).
  rewrite be32_u8 by done.
  assert (be16 (rd p 2) (rd p (2 + 1)) = pay_seq pay) as ->.
  { change (be16 (u8 (Z.shiftr (pay_seq pay) 8)) (u8 (Z.land (pay_seq pay) 255)) = pay_seq pay).
    rewrite land_255 by apply (ok_seq pay Hok). by apply be16_u8, ok_seq. }
  rewrite Es, (route_single t pay Ha). cbn [lookup list_lookup]. rewrite (sub_in_ok 12) by lia. cbn [mbind outcome_bind].
  assert (sub_bytes 12 (zlen p - 12) p = fr_body f) as ->.
  { rewrite Hp. apply (sub_bytes_app_r (rtp_header pay (fr_ts f) (fr_marker f))). lia. }
  by destruct (reorder_insert _ _ _ _ _ _) as [[]| |].
Qed.

(** ** Interleaved frames *)

Definition frame (packet : bytes) : bytes :=
  ([36; 0; u8 (Z.shiftr (zlen packet) 8); u8 (zlen packet)] ++ packet)%list.

Definition interleaved (bs : list zst_buffer) : bytes := concat (frame ∘ buf_bytes <$> bs).

Fixpoint inserts (pay : rtp_payloader_t) (fs : list frag) : list reorder_op :=
  match fs with
  | [] => []
  | f :: fs => Insert (pay_seq pay) (fr_ts f) (marker_of f) (fr_body f) :: inserts (pay_count pay (zlen (fr_body f) + 12)) fs
  end.

Definition frag_ok (f : frag) : Prop :=
  0 <= fr_ts f < 4294967296 /\ 0 < zlen (fr_body f) <= RTP_PAYLOADER_MAX_PAYLOAD.

Lemma split_frames fs : forall pay pts s t pre fuel outs r,
  sd_tracks s = [t] -> accepts t pay -> pay_ok pay -> Forall frag_ok fs -> fs <> [] ->
  ring_run (u16 (max_lateness_ms (sd_config s))) (tr_reorder t) (inserts pay fs) = Done (outs, r) ->
  (length fs <= fuel)%nat ->
  sdp_split fuel s (pre ++ interleaved (emit pay pts fs)) (zlen pre) =
    Done (with_tracks s [with_reorder (with_ssrc t (pay_ssrc pay)) r]).
Proof.
  induction fs as [|f fs IH]; intros pay pts s t pre fuel outs r Es Ha Hok Hfs Hne Hrun Hf; [done|].
  apply Forall_cons in Hfs as [[Hts [Hl Hmax]] Hfs]. unfold RTP_PAYLOADER_MAX_PAYLOAD in Hmax.
  destruct fuel as [|fuel]; [simpl in Hf; lia|].
  set (p := buf_bytes (packet_of pay pts f)).
  assert (zlen p = 12 + zlen (fr_body f)) as Hp.
  { unfold p, packet_of. by rewrite buf_bytes_of, zlen_app. }
  cbn [emit]. unfold interleaved. cbn [fmap list_fmap concat compose]. fold p.
  fold (interleaved (emit (pay_count pay (zlen (fr_body f) + 12)) pts fs)).
  set (rest := interleaved _). set (data := (pre ++ frame p ++ rest)%list).
  assert (zlen data = zlen pre + 4 + zlen p + zlen rest) as Hd.
  { unfold data, frame. rewrite !zlen_app. change (zlen [36; 0; _; _]) with 4. lia. }
  pose proof (zlen_nonneg pre). pose proof (zlen_nonneg rest).
  assert (forall i, 0 <= i -> rd data (zlen pre + i) = rd (frame p ++ rest) i) as Hrd.
  { intros i Hi. unfold data. rewrite rd_app_r by lia. f_equal. lia. }
  cbn [sdp_split]. rewrite (proj2 (Z.ltb_lt _ _)), (proj2 (Z.leb_le _ _)) by lia. cbn [negb]. reads.
  assert (rd data (zlen pre) = 36) as ->.
  { replace (zlen pre) with (zlen pre + 0) by lia. by rewrite Hrd. }
  assert (be16 (rd data (zlen pre + 2)) (rd data (zlen pre + 2 + 1)) = zlen p) as ->.
  { rewrite <-(Z.add_assoc _ 2 1), !Hrd by lia. apply be16_u8. lia. }
  change (36 =? 36) with true. cbv iota.
  rewrite (proj2 (Z.ltb_ge _ _)), (proj2 (Z.leb_le _ _)) by lia. reads.
  assert (sub_bytes (zlen pre + 4) (zlen p) data = p) as ->.
  { unfold data, frame. rewrite <-app_assoc, app_assoc.
    assert (zlen pre + 4 = zlen (pre ++ [36; 0; u8 (zlen p ≫ 8); u8 (zlen p)])) as ->.
    { by rewrite zlen_app. }
    unfold sub_bytes. set (h := (pre ++ _)%list). unfold zlen. rewrite !Nat2Z.id, drop_app_length.
    apply take_app_length. }
  unfold p. rewrite (process_packet s t pay pts f Es Ha Hok Hts Hl). fold p.
  cbn [inserts ring_run ring_step] in Hrun.
  destruct (reorder_insert _ _ _ _ _ _) as [[res r1]| |]; cbn [mbind outcome_bind mret outcome_ret] in Hrun |- *; try done.
  set (s1 := with_tracks s _). set (pay' := pay_count pay (zlen (fr_body f) + 12)) in *.
  destruct (ring_run _ r1 _) as [[outs1 r2]| |] eqn:E1; cbn [mbind outcome_bind mret outcome_ret] in Hrun; try done.
  injection Hrun as _ ->.
  assert (data = ((pre ++ frame p) ++ rest)%list) as -> by (unfold data; by rewrite app_assoc).
  assert (zlen pre + (4 + zlen p) = zlen (pre ++ frame p)) as ->.
  { unfold frame. rewrite !zlen_app. done. }
  destruct fs as [|f' fs].
  - cbn in E1. injection E1 as _ <-. unfold rest, interleaved. cbn [emit fmap list_fmap concat]. rewrite app_nil_r.
    destruct fuel; cbn [sdp_split]; by rewrite Z.ltb_irrefl.
  - unfold rest. rewrite (IH pay' pts s1 (with_reorder (with_ssrc t (pay_ssrc pay)) r1) _ fuel outs1 r); try done.
    + split; [apply Ha|]. by left.
    + by apply pay_count_ok.
    + simpl in Hf |- *. lia.
Qed.

Definition slot_of (f : frag) : reorder_slot_t := mk_slot (fr_body f) (zlen (fr_body f)) (fr_ts f) (marker_of f).

Lemma inserts_at fs : forall pre pay s,
  pay_ok pay -> pay_seq pay = u16 (s + zlen pre) ->
  inserts pay fs = insert_at s (slot_of <$> pre ++ fs) <$> seq (length pre) (length fs).
Proof.
  induction fs as [|f fs IH]; intros pre pay s Hok Hseq; [done|]. cbn [inserts length seq fmap list_fmap]. f_equal.
  - unfold insert_at. rewrite list_lookup_fmap, lookup_app_r, Nat.sub_diag by done. cbn. by rewrite Hseq.
  - specialize (IH (pre ++ [f])%list (pay_count pay (zlen (fr_body f) + 12)) s).
    rewrite <-app_assoc, length_app, Nat.add_1_r in IH. apply IH; [by apply pay_count_ok|].
    cbn. rewrite Hseq, zlen_app, zlen_cons, zlen_nil. clear. cint.
Qed.

Lemma frags_ok pay nal ts m :
  pay_ok pay -> 15 <= pay_mtu pay -> 0 <= ts < 4294967296 -> 0 < zlen nal ->
  Forall (fun f => frag_ok f /\ fr_ts f = ts) (h264_frags (pay_mtu pay) nal ts m).
Proof.
  intros Hok Hm Hts Hn. pose proof (ok_mtu pay Hok). unfold RTP_PAYLOADER_MAX_PAYLOAD in *.
  pose proof (h264_frags_fits pay nal ts m Hok Hm) as Hfit.
  assert (Forall (fun f => fr_ts f = ts /\ 0 < zlen (fr_body f)) (h264_frags (pay_mtu pay) nal ts m)) as Hpos.
  { unfold h264_frags. case (_ <=? _); [by repeat constructor|]. generalize true at 1 as first.
    generalize (chunks (length nal) (pay_mtu pay - 14) (drop 1 nal)) as cs.
    induction cs as [|c cs IH]; intros first; cbn [fu_list]; constructor; [|apply IH].
    split; [done|]. cbn [fr_body]. rewrite zlen_app. pose proof (zlen_nonneg c). change (zlen (h264_fu_hdr _ _ _)) with 2. lia. }
  revert Hfit Hpos. rewrite !list.Forall_forall. intros Hfit Hpos f Hin.
  destruct (Hfit f Hin) as [Hmax _], (Hpos f Hin) as [E ?]. split; [|done].
  split; [by rewrite E|]. unfold RTP_PAYLOADER_MAX_PAYLOAD in *. lia.
Qed.

Lemma au_frags_ok pay nals ts :
  pay_ok pay -> 15 <= pay_mtu pay -> 0 <= ts < 4294967296 -> Forall demux_nal nals ->
  Forall (fun f => frag_ok f /\ fr_ts f = ts) (au_frags (h264_frags (pay_mtu pay)) ts nals).
Proof.
  intros Hok Hm Hts. induction 1 as [|nal nals (_ & [Hl _] & _) Hn IH]; cbn [au_frags]; [constructor|].
  apply Forall_app. split; [by apply frags_ok|done].
Qed.

Lemma occupied_some (ps : list reorder_slot_t) : occupied (Some <$> ps) = zlen ps.
Proof. induction ps as [|p ps IH]; [done|]. cbn [fmap list_fmap]. rewrite occupied_cons, zlen_cons, IH. cbn. lia. Qed.

Lemma frames_length bs : (length bs <= length (interleaved bs))%nat.
Proof.
  induction bs as [|b bs IH]; [simpl; lia|]. unfold interleaved in *. cbn [fmap list_fmap concat length].
  rewrite length_app. assert (4 <= length ((frame ∘ buf_bytes) b))%nat by (unfold compose, frame; simpl; lia). lia.
Qed.

(** What the payloader sends for the fragments of an access unit, framed. *)
Lemma frames_arrive s t pad pay pts ts nals k ss clock :
  sd_tracks s = [t] -> accepts t pay -> linked_pad t = Some pad -> tr_type t = 1 ->
  sdp_encoding_is_h264 (tr_encoding t) = true -> tr_fu t = no_fu ->
  ring k (tr_reorder t) ss -> ro_count (tr_reorder t) = 0 -> 0 <= max_lateness_ms (sd_config s) < 32768 ->
  pay_ok pay -> 15 <= pay_mtu pay -> 0 <= ts < 4294967296 -> nals <> [] -> Forall demux_nal nals ->
  let fs := au_frags (h264_frags (pay_mtu pay)) ts nals in
  zlen fs <= 2 ^ k ->
  exists s' clock' out,
    sdp_sink_push monotonic_us s (buffer_of ZST_BUFFER_USER 0 pts pts 0 (interleaved (emit pay pts fs))) clock =
      Done (ZST_OK, s', clock', out) /\
    datas out = (app sc4 <$> nals) /\ Forall (video_on pad) out.
Proof.
  intros Es Ha Hpad Hty Henc Hfu Hr Hc Hlate Hok Hmtu Hts Hne Hnals fs Hcap.
  pose proof (au_steps (pay_mtu pay) nals ts Hmtu Hnals) as Hsteps. fold fs in Hsteps.
  pose proof (au_frags_ok pay nals ts Hok Hmtu Hts Hnals) as Hfok. fold fs in Hfok. clearbody fs.
  assert (fs <> []) as Hfs.
  { intros E. rewrite E in Hsteps. cbn in Hsteps. destruct nals; [done|]. inversion Hsteps. }
  assert (zlen (slot_of <$> fs) = zlen fs) as Hzl by (unfold zlen; by rewrite length_fmap).
  assert (inserts pay fs = insert_at (pay_seq pay) (slot_of <$> fs) <$> seq 0 (length fs)) as Eins.
  { apply (inserts_at fs [] pay (pay_seq pay) Hok). rewrite zlen_nil, Z.add_0_r. symmetry. apply u16_small, Hok. }
  assert (u16 (max_lateness_ms (sd_config s)) = max_lateness_ms (sd_config s)) as El by (apply u16_small; lia).
  destruct (batch_arrives (u16 (max_lateness_ms (sd_config s))) k (tr_reorder t) ss (pay_seq pay) (slot_of <$> fs)
    (seq 0 (length fs))) as (r & ss' & Erun & Hr' & Ew); try done.
  { by rewrite El. }
  { apply Hok. }
  { apply list.Forall_forall. by intros p (f & -> & _)%list_elem_of_fmap. }
  { by rewrite Hzl. }
  { by rewrite length_fmap. }
  { by destruct fs. }
  rewrite <-Eins in Erun. set (t1 := with_reorder (with_ssrc t (pay_ssrc pay)) r).
  assert (Forall frag_ok fs) as Hfrag by (eapply Forall_impl; [exact Hfok|by intros f []]).
  pose proof (split_frames fs pay pts s t [] (S (length (interleaved (emit pay pts fs)))) _ r Es Ha Hok Hfrag Hfs Erun) as Esplit.
  cbn [app] in Esplit. rewrite zlen_nil in Esplit. specialize (Esplit ltac:(pose proof (frames_length (emit pay pts fs)) as Hl; rewrite emit_length in Hl; lia)).
  destruct (drain_steps pad (pay_ssrc pay) ts k (slot_of <$> fs) (length ss - length (slot_of <$> fs)) (pay_seq pay)
    [] [] (app sc4 <$> nals) (S (Z.to_nat (ro_count r))) (mk_run t1 clock []) ss') as (s2 & E2 & _ & _ & (ps & Ep & Ed & Ev)).
  - rewrite <-list_fmap_compose. exact Hsteps.
  - apply list.Forall_forall. intros q (f & -> & Hin)%list_elem_of_fmap.
    destruct (proj1 (list.Forall_forall _ _) Hfok f Hin) as [[_ [? _]] ?]. by split.
  - constructor; done.
  - split; [by cbn; rewrite Hfu|done].
  - done.
  - done.
  - rewrite (ring_count _ _ _ Hr'), <-(occupied_rotate (Z.to_nat (next_seq r))).
    assert (rotate (Z.to_nat (next_seq r)) ss' = ((Some <$> (slot_of <$> fs)) ++ replicate (length ss - length (slot_of <$> fs)) None)%list) as ->
      by (by injection Ew).
    rewrite occupied_app, occupied_some. pose proof (occupied_nonneg (replicate (length ss - length (slot_of <$> fs)) None)).
    unfold zlen in *. lia.
  - exists (with_tracks s [run_track s2]), (run_clock s2), ps. split; [|by split].
    unfold sdp_sink_push, buffer_of. cbn [buf_flags mem_data mem_size].
    change (has_flag 0 ZST_BUFFER_FLAG_EOS) with false. cbv iota.
    pose proof (frames_length (emit pay pts fs)) as Hl. rewrite emit_length in Hl.
    assert (0 < zlen (interleaved (emit pay pts fs))) as Hpos.
    { assert (0 < length fs)%nat by (destruct fs; [done|simpl; lia]). unfold zlen. lia. }
    rewrite (proj2 (Z.eqb_neq _ _)) by lia.
    fold (buffer_of ZST_BUFFER_USER 0 pts pts 0 (interleaved (emit pay pts fs))). rewrite buf_bytes_of, Esplit.
    cbn [mbind outcome_bind]. change (sd_tracks (with_tracks s _)) with [t1]. cbn [process_tracks].
    assert (sdp_demuxer_process_track monotonic_us (mk_run t1 clock []) = Done s2) as ->.
    { unfold sdp_demuxer_process_track. cbn [run_track]. 
      assert (linked_pad t1 = Some pad) as -> by done. assert (tr_active t1 = true) as -> by apply Ha. exact E2. }
    cbn [mbind outcome_bind mret outcome_ret]. by rewrite Ep.
Qed.

(** C9. An H.264 access unit pushed into the payloader, the packets it sends framed as interleaved data in one
    buffer and pushed into the demultiplexer, comes out as exactly its NAL units, each once, in order,
    behind a start code, on the video pad, for every MTU from 15 and at every sequence number.
    The demultiplexer has one track, H.264 and linked, that takes these packets (by source, or by payload type), with no fragment
    pending and an empty reorder buffer that has a slot for each packet; the units have fewer than 150000 bytes
    and a type of at most 23; memory does not fail. *)
Theorem sdp_h264_interleaved fuel s t pad pay l pts dts dur flags k ss clock :
  sd_tracks s = [t] -> accepts t pay -> linked_pad t = Some pad -> tr_type t = 1 ->
  sdp_encoding_is_h264 (tr_encoding t) = true -> tr_fu t = no_fu ->
  ring k (tr_reorder t) ss -> ro_count (tr_reorder t) = 0 -> 0 <= max_lateness_ms (sd_config s) < 32768 ->
  pay_ok pay -> pay_codec pay = RTP_PAYLOADER_CODEC_H264 -> 15 <= pay_mtu pay ->
  has_flag flags ZST_BUFFER_FLAG_EOS = false -> l <> [] -> Forall (fun ln => nal_ok ln.2 /\ demux_nal ln.2) l ->
  zlen (annexb l) <= INT32_MAX -> zlen (annexb l) < Z.of_nat fuel ->
  exists pay' packets,
    rtp_payloader_pad_push fuel (Some pay) (Some ([] : trace)) (Some (buffer_of ZST_BUFFER_VIDEO_PACKET flags pts dts dur (annexb l))) =
      Some (ZST_OK, Some pay', Some packets) /\
    (zlen packets <= 2 ^ k -> exists s' clock' out,
       sdp_sink_push monotonic_us s (buffer_of ZST_BUFFER_USER 0 pts pts 0 (interleaved packets)) clock = Done (ZST_OK, s', clock', out) /\
       datas out = (app sc4 <$> map snd l) /\ Forall (video_on pad) out).
Proof.
  intros Es Ha Hpad Hty Henc Hfu Hr Hc Hlate Hok Hcodec Hmtu Hflag Hne Hl Hmax Hfuel.
  set (ts := rtp_payloader_pts_to_rtp_ts pts 90000). set (fs := au_frags (h264_frags (pay_mtu pay)) ts (map snd l)).
  exists (count_all pay fs), (emit pay pts fs). split.
  - unfold rtp_payloader_pad_push, buffer_of. cbn [mem_data mem_size buf_flags buf_pts]. rewrite Hflag, Hcodec.
    assert (0 < zlen (annexb l)).
    { destruct l as [|[long nal] l]; [done|]. cbn [annexb]. rewrite zlen_app.
      pose proof (zlen_start_code long). pose proof (zlen_nonneg (nal ++ annexb l)). lia. }
    destruct (Z.eqb_spec (zlen (annexb l)) 0); [lia|]. cbn [orb].
    destruct (Z.ltb_spec INT32_MAX (zlen (annexb l))); [lia|]. cbv zeta.
    rewrite packetize_h264_spec; try done; [|eapply Forall_impl; [exact Hl|by intros ? []]].
    unfold send_all. rewrite push_all_trace. done.
  - intros Hcap. apply (frames_arrive s t pad pay pts ts (map snd l) k ss clock); try done.
    + apply u32_range.
    + by destruct l.
    + apply Forall_map. eapply Forall_impl; [exact Hl|by intros ? []].
    + unfold zlen in *. by rewrite emit_length in Hcap.
Qed.
End Flow.
