(* ===== verification/SdpDemuxEx.v ===== *)
(** * The SDP demultiplexer on concrete inputs

    The theorems of [SdpDemuxSpec] and [SdpFlow] at one element, set up by its properties,
    and what it does to inputs it gets wrong. *)

From Stdlib Require Import Ascii String.
From S2P Require Import Prelude CLib Pad Caps MediaUtils RtpPay RtpPaySpec RtpRoundtrip SdpReorder SdpReorderSpec SdpTiming SdpText SdpDemux SdpDemuxSpec SdpFlow.

Local Open Scope string_scope.
Local Open Scope Z_scope.

#[local] Existing Instance ample_memory.

(** An hour after boot, one reading per millisecond. *)
Definition hour_clock (n : nat) : Z := 3600000000 + 1000 * Z.of_nat n.

Definition no_files (_ : string) : option string := None.

Definition crlf : string := String "013" (String "010" EmptyString).

Definition video_sdp (codec : string) : string :=
  "v=0" ++ crlf ++ "m=video 5004 RTP/AVP 96" ++ crlf ++ "a=rtpmap:96 " ++ codec ++ "/90000" ++ crlf.

Definition audio_sdp : string :=
  "m=audio 5006 RTP/AVP 97" ++ crlf ++ "a=rtpmap:97 MPEG4-GENERIC/44100/2" ++ crlf.

(** Configured with a text, opened, and every pad linked. *)
Definition opened (sdp : string) : sdp_demuxer_t :=
  match sdp_set_property no_files zst_sdp_demuxer_create "sdp" sdp with
  | Done (_, s) => match sdp_open s with Done (_, s) => with_tracks s (link_pad <$> sd_tracks s) | _ => s end
  | _ => zst_sdp_demuxer_create
  end.

Definition h264_element : sdp_demuxer_t := opened (video_sdp "H264").

Definition the_track (s : sdp_demuxer_t) : sdp_track_t := default track_zero (head (sd_tracks s)).

(** What a push sends, as (pad, timestamp, bytes). *)
Definition sends (s : sdp_demuxer_t) (data : bytes) : option (list (string * Z * bytes)) :=
  match sdp_sink_push hour_clock s (buffer_of ZST_BUFFER_USER 0 0 0 0 data) 0%nat with
  | Done (_, _, _, out) => Some ((fun p => (pu_pad p, buf_pts (pu_buf p), buf_bytes (pu_buf p))) <$> out)
  | _ => None
  end.

(** An RTP packet of source 1. *)
Definition rtp (pt seq ts : Z) (body : bytes) : bytes :=
  ([128; pt; u8 (Z.shiftr seq 8); u8 seq; u8 (Z.shiftr ts 24); u8 (Z.shiftr ts 16); u8 (Z.shiftr ts 8); u8 ts; 0; 0; 0; 1]
   ++ body)%list.

Example parsed_track :
  tr_type (the_track h264_element) = 1 /\ tr_payload_type (the_track h264_element) = 96 /\
  tr_clock_rate (the_track h264_element) = 90000 /\ linked_pad (the_track h264_element) = Some "video_0".
Proof. vm_compute. done. Qed.

Example one_unit :
  sends h264_element (frame (rtp 96 1 1000 [101; 1; 2])) = Some [("video_0", 3600000000000, [0; 0; 0; 1; 101; 1; 2])].
Proof. vm_compute. reflexivity. Qed.

(** ** The theorems at this element *)

Definition sample_pay : rtp_payloader_t := small_payloader RTP_PAYLOADER_CODEC_H264.

Definition sample_units : list bytes := [[103; 66; 0; 10]; [101; 136; 0; 1; 2; 3; 4; 5; 6; 7; 8; 9]].

Lemma sample_demux_nals : Forall demux_nal sample_units.
Proof.
  repeat (constructor; [split_and!; [repeat (constructor; [unfold is_byte; lia|]); constructor|vm_compute; done..]|]). constructor.
Qed.

Definition sample_stream : list (bool * bytes) := [(true, [103; 66; 0; 10]); (false, [101; 136; 0; 1; 2; 3; 4; 5; 6; 7; 8; 9])].

Lemma sdp_h264_interleaved_witness :
  exists pay' packets,
    rtp_payloader_pad_push 40 (Some sample_pay) (Some ([] : trace))
      (Some (buffer_of ZST_BUFFER_VIDEO_PACKET 0 1000000000 1000000000 0 (annexb sample_stream))) =
      Some (ZST_OK, Some pay', Some packets) /\
    (zlen packets <= 2 ^ 8 -> exists s' clock' out,
       sdp_sink_push hour_clock h264_element (buffer_of ZST_BUFFER_USER 0 1000000000 1000000000 0 (interleaved packets)) 0%nat =
         Done (ZST_OK, s', clock', out) /\
       datas out = (app sc4 <$> sample_units) /\ Forall (video_on "video_0") out).
Proof.
  apply (@sdp_h264_interleaved ample_memory ample_memory_ok hour_clock 40 h264_element (the_track h264_element)
           "video_0" sample_pay sample_stream 1000000000 1000000000 0 0 8 (replicate 256 None) 0%nat).
  - vm_compute. reflexivity.
  - split; [vm_compute; reflexivity|right; vm_compute; split; reflexivity].
  - vm_compute. reflexivity.
  - vm_compute. reflexivity.
  - vm_compute. reflexivity.
  - vm_compute. reflexivity.
  - constructor; vm_compute; try reflexivity; split; congruence.
  - vm_compute. reflexivity.
  - vm_compute. split; congruence.
  - apply small_payloader_ok.
  - reflexivity.
  - vm_compute. congruence.
  - reflexivity.
  - discriminate.
  - pose proof sample_demux_nals as Hn. repeat (apply Forall_cons in Hn as [? Hn]).
    repeat (constructor; [split; [by apply nal_okb_ok; vm_compute|assumption]|]). constructor.
  - vm_compute. congruence.
  - vm_compute. reflexivity.
Defined.

(** Three packets: the second unit is sent in two fragments. *)
Example sample_packets :
  match rtp_payloader_pad_push 40 (Some sample_pay) (Some ([] : trace))
      (Some (buffer_of ZST_BUFFER_VIDEO_PACKET 0 1000000000 1000000000 0 (annexb sample_stream))) with
  | Some (_, _, Some packets) => length packets
  | _ => 0%nat
  end = 3%nat.
Proof. vm_compute. reflexivity. Qed.

Lemma h264_element_reached : reach (demux_step hour_clock no_files) zst_sdp_demuxer_create h264_element.
Proof.
  destruct (sdp_set_property no_files zst_sdp_demuxer_create "sdp" (video_sdp "H264")) as [[r1 s1]| |] eqn:E1; [|by vm_compute in E1..].
  destruct (sdp_open s1) as [[r2 s2]| |] eqn:E2; cycle 1.
  { vm_compute in E1. injection E1 as _ <-. by vm_compute in E2. }
  { vm_compute in E1. injection E1 as _ <-. by vm_compute in E2. }
  assert (h264_element = with_tracks s2 (alter link_pad 0%nat (sd_tracks s2))) as ->.
  { unfold h264_element, opened. rewrite E1, E2. clear -E1 E2. vm_compute in E1. injection E1 as _ <-. vm_compute in E2. injection E2 as _ <-. by vm_compute. }
  eapply reach_step; [|apply step_link]. eapply reach_step; [|by eapply step_open].
  eapply reach_step; [|by eapply step_set]. apply reach_refl.
Qed.

(** An element with a linked track, and a packet that starts a fragmented unit, followed by
    an interleaved frame that announces more bytes than there are. *)
Definition rough_data : bytes := (frame (rtp 96 1 1000 [124; 133; 1; 2]) ++ [36; 0; 0; 200; 128])%list.

Lemma sdp_demuxer_safe_witness :
  exists s' clock' out,
    sdp_sink_push hour_clock h264_element (buffer_of ZST_BUFFER_USER 0 0 0 0 rough_data) 0%nat = Done (ZST_OK, s', clock', out) /\
    zlen (sd_tracks s') <= SDP_DEMUXER_MAX_TRACKS /\
    Forall (fun t => zlen (tr_payload_types t) <= SDP_DEMUXER_MAX_PT_PER_TRACK /\
                     zlen (fu_accum (tr_fu t)) <= SDP_DEMUXER_MAX_FU_ACCUM) (sd_tracks s').
Proof.
  apply (@sdp_demuxer_safe hour_clock no_files ample_memory).
  - apply h264_element_reached.
  - split_and!; [vm_compute; congruence|vm_compute; congruence| |vm_compute; congruence].
    repeat (constructor; [unfold is_byte; vm_compute; split; congruence|]). constructor.
  - vm_compute. reflexivity.
Defined.

(** The fragment is held, and nothing is pushed. *)
Example rough_data_held :
  match sdp_sink_push hour_clock h264_element (buffer_of ZST_BUFFER_USER 0 0 0 0 rough_data) 0%nat with
  | Done (_, s', _, out) => fu_accum (tr_fu (the_track s')) = [101; 1; 2] /\ out = []
  | _ => False
  end.
Proof. vm_compute. done. Qed.

(** ** Inputs it gets wrong *)

(** The length of a raw RTP packet is taken from its sequence number: this single unit of
    ten bytes, number 3, is cut to three. *)
Example raw_packet_cut :
  sends h264_element (rtp 96 3 1000 [101; 1; 2; 3; 4; 5; 6; 7; 8; 9]) =
  Some [("video_0", 3600000000000, [0; 0; 0; 1; 101; 1; 2])].
Proof. vm_compute. reflexivity. Qed.

(** The type of a fragmented H.265 unit (an IDR, 19) is written into the second header
    byte: the unit comes out with type 49 in its first byte. *)
Example h265_fragments_mangled :
  sends (opened (video_sdp "H265"))
    (frame (rtp 96 1 1000 [98; 1; 147; 7]) ++ frame (rtp 96 2 1000 [98; 1; 83; 8]))%list =
  Some [("video_0", 3636363636363, [0; 0; 0; 1; 98; 39; 7; 8])].
Proof. vm_compute. reflexivity. Qed.

(** Two AAC units in one packet: the second header is read as the first unit's data. *)
Example aac_units_shifted :
  sends (opened audio_sdp) (frame (rtp 97 1 1000 [0; 32; 0; 16; 0; 16; 11; 12; 21; 22])) =
  Some [("audio_0", 3600000000000, [0; 16])].
Proof. vm_compute. reflexivity. Qed.

(** The last fragment of a unit whose first one was lost is pushed as a unit. *)
Example headless_fragment_pushed :
  sends h264_element
    (frame (rtp 96 1 0 [124; 133; 1]) ++ frame (rtp 96 2 0 [124; 69; 2]) ++ frame (rtp 96 3 0 [124; 69; 3; 4]))%list =
  Some [("video_0", 3636363636363, [0; 0; 0; 1; 101; 1; 2]); ("video_0", 3636363636363, [0; 0; 0; 1; 3; 4])].
Proof. vm_compute. reflexivity. Qed.

(** The loop's ratio divides the time since boot: an hour after boot the third frame is
    36 seconds ahead of the second, one frame of 40 ms before it. *)
Example ratio_scales_uptime :
  sends h264_element
    (frame (rtp 96 1 90000 [101]) ++ frame (rtp 96 2 93600 [101]) ++ frame (rtp 96 3 97200 [101]))%list =
  Some [("video_0", 3600000000000, [0; 0; 0; 1; 101]); ("video_0", 3600040000000, [0; 0; 0; 1; 101]);
        ("video_0", 3636444444444, [0; 0; 0; 1; 101])].
Proof. vm_compute. reflexivity. Qed.

(** A timestamp before the first one, or half the range after it, is not brought into
    range: the difference is converted as an unsigned 64-bit number. *)
Example earlier_timestamp_garbage :
  signed_delta 86400 90000 = -3600 /\ ticks_to_ns (-3600) 90000 = 204963783041217.
Proof. vm_compute. done. Qed.

(** After a sender report, a frame sampled just before it is dated 13 hours later. *)
Example frame_before_report :
  let t := with_sr timing_zero (Z.shiftl 2208988800 32) 90000 in
  (sdp_rtp_ts_to_pts hour_clock t 90000 0 86400 0).1.1 = 47721818844444.
Proof. vm_compute. reflexivity. Qed.

(** A report for the second track is taken by the first, which has no source yet. *)
Example report_misattributed :
  let ts := [track_zero; with_ssrc track_zero 7] in
  (fun t => (tr_ssrc t, has_sr (tr_timing t))) <$> sync_track 7 1 2 ts = [(7, true); (7, false)].
Proof. vm_compute. reflexivity. Qed.

(** A text set while the pads exist is refused, but the element then refuses to start. *)
Example refused_text_stops :
  match sdp_set_property no_files h264_element "sdp" (video_sdp "H264") with
  | Done (r, s) => r = ZST_ERROR /\
      match sdp_start s with Done (r, _) => r = ZST_ERROR | _ => False end
  | _ => False
  end.
Proof. vm_compute. done. Qed.

(** A format of 20 digits overflows a [long], and a jitter buffer of 140 minutes an [int]. *)
Example number_overflows :
  fmt_number 0 "99999999999999999999" = Fault /\
  match sdp_set_property no_files zst_sdp_demuxer_create "jitter-buffer-ms" "8400000" with
  | Done (_, s) => sdp_set_property no_files s "sdp" (video_sdp "H264") = Fault
  | _ => False
  end.
Proof. vm_compute. done. Qed.
