(* ===== verification/SdpMux.v ===== *)
(** * The SDP generator: [src/sdp_muxer.c]

    The text is generated line by line into an array of 4096 characters.  The private
    structure is [sdp_muxer_t], in groups of fields; an array with its length is a list.
    The time of day and what the file system does are arguments; what is written to the
    file and pushed on the source pad is a log. *)

From Stdlib Require Import Ascii String.
From S2P Require Import Prelude CLib Pad PadOps Caps MediaUtils Sha1 SdpText.

Local Open Scope string_scope.
Local Open Scope Z_scope.

Definition SDP_MUXER_TEXT_MAX : Z := 4096.
Definition SDP_MUXER_EXTRA_MAX : Z := 512.
Definition SDP_MUXER_DEFAULT_AUDIO_RATE : Z := 48000.
Definition SDP_MUXER_DEFAULT_AUDIO_CH : Z := 2.

(** ** State *)

Record mux_session := mk_session {
  ms_address : string;
  ms_name : string;
  ms_file : string;
  ms_mode : string;
  ms_ptp_version : Z;
  ms_ptp_address : string;
  ms_ptp_domain : Z;
}.

Record mux_video := mk_mux_video {
  mv_codec : string;
  mv_enabled : bool;
  mv_port : Z;
  mv_pt : Z;
  mv_width : Z;
  mv_height : Z;
  mv_format : string;
}.

Record mux_h264 := mk_mux_h264 {
  h264_sps : bytes;
  h264_pps : bytes;
  h264_sprop : string;
  h264_profile_level_id : string;
}.

Record mux_h265 := mk_mux_h265 {
  h265_vps : bytes;
  h265_sps : bytes;
  h265_pps : bytes;
  h265_sprop_vps : string;
  h265_sprop_sps : string;
  h265_sprop_pps : string;
}.

Record mux_audio := mk_mux_audio {
  ma_codec : string;
  ma_enabled : bool;
  ma_port : Z;
  ma_pt : Z;
  ma_rate : Z;
  ma_channels : Z;
  ma_config : bytes;
}.

Record sdp_muxer_t := mk_muxer {
  mx_session : mux_session;
  mx_video : mux_video;
  mx_h264 : mux_h264;
  mx_h265 : mux_h265;
  mx_audio : mux_audio;
  mx_emit_once : bool;
  mx_text : string;
  mx_valid : bool;
  mx_emitted : bool;
}.

Definition with_session (s : sdp_muxer_t) (x : mux_session) : sdp_muxer_t :=
  mk_muxer x (mx_video s) (mx_h264 s) (mx_h265 s) (mx_audio s) (mx_emit_once s) (mx_text s) (mx_valid s) (mx_emitted s).
Definition with_mux_video (s : sdp_muxer_t) (x : mux_video) : sdp_muxer_t :=
  mk_muxer (mx_session s) x (mx_h264 s) (mx_h265 s) (mx_audio s) (mx_emit_once s) (mx_text s) (mx_valid s) (mx_emitted s).
Definition with_h264 (s : sdp_muxer_t) (x : mux_h264) : sdp_muxer_t :=
  mk_muxer (mx_session s) (mx_video s) x (mx_h265 s) (mx_audio s) (mx_emit_once s) (mx_text s) (mx_valid s) (mx_emitted s).
Definition with_h265 (s : sdp_muxer_t) (x : mux_h265) : sdp_muxer_t :=
  mk_muxer (mx_session s) (mx_video s) (mx_h264 s) x (mx_audio s) (mx_emit_once s) (mx_text s) (mx_valid s) (mx_emitted s).
Definition with_mux_audio (s : sdp_muxer_t) (x : mux_audio) : sdp_muxer_t :=
  mk_muxer (mx_session s) (mx_video s) (mx_h264 s) (mx_h265 s) x (mx_emit_once s) (mx_text s) (mx_valid s) (mx_emitted s).
Definition with_once (s : sdp_muxer_t) (once : bool) : sdp_muxer_t :=
  mk_muxer (mx_session s) (mx_video s) (mx_h264 s) (mx_h265 s) (mx_audio s) once (mx_text s) (mx_valid s) (mx_emitted s).
Definition with_text (s : sdp_muxer_t) (text : string) : sdp_muxer_t :=
  mk_muxer (mx_session s) (mx_video s) (mx_h264 s) (mx_h265 s) (mx_audio s) (mx_emit_once s) text true (mx_emitted s).
Definition with_text_valid (s : sdp_muxer_t) (valid emitted : bool) : sdp_muxer_t :=
  mk_muxer (mx_session s) (mx_video s) (mx_h264 s) (mx_h265 s) (mx_audio s) (mx_emit_once s) (mx_text s) valid emitted.

(** ** Codecs *)

Definition sdp_muxer_is_h265 (s : sdp_muxer_t) : bool :=
  let c := mv_codec (mx_video s) in strcaseeq c "h265" || strcaseeq c "hevc" || strcaseeq c "hvc1".
Definition sdp_muxer_is_h264 (s : sdp_muxer_t) : bool :=
  let c := mv_codec (mx_video s) in strcaseeq c "h264" || strcaseeq c "avc".
Definition sdp_muxer_is_video_codec (s : sdp_muxer_t) (codec : string) : bool := strcaseeq (mv_codec (mx_video s)) codec.
Definition sdp_muxer_is_audio_codec (s : sdp_muxer_t) (codec : string) : bool := strcaseeq (ma_codec (mx_audio s)) codec.

(** ** Parameter sets in the stream *)

Definition sdp_muxer_copy_limited (dst src : bytes) : bytes :=
  if zlen src <=? 0 then dst else take (Z.to_nat SDP_MUXER_EXTRA_MAX) src.

(** The loop over the NAL units; each round begins behind a start code further on, so as
    many rounds as there are bytes are enough. *)
Fixpoint note_units {A} (fuel : nat) (note : A -> bytes -> A) (s : A) (data : bytes) (size pos code_size : Z) : outcome A :=
  if (0 <=? pos) && (pos <? size) then
    match fuel with
    | O => Unfinished
    | S fuel =>
        let nal_start := pos + code_size in
        let '(next, next_code) := zst_find_start_code data size nal_start in
        let nal_end := if 0 <=? next then next else size in
        let nal_end := if nal_start <? nal_end then trim_zeros (Z.to_nat (nal_end - nal_start)) data nal_start else nal_end in
        let s := if 0 <? nal_end - nal_start then note s (sub_bytes nal_start (nal_end - nal_start) data) else s in
        if next <? 0 then Done s else note_units fuel note s data size next next_code
    end
  else Done s.

Definition note_h264 (s : mux_h264) (nal : bytes) : mux_h264 :=
  let nal_type := Z.land (rd nal 0) 31 in
  if (nal_type =? 7) && (zlen (h264_sps s) =? 0) then
    mk_mux_h264 (sdp_muxer_copy_limited (h264_sps s) nal) (h264_pps s) (h264_sprop s) (h264_profile_level_id s)
  else if (nal_type =? 8) && (zlen (h264_pps s) =? 0) then
    mk_mux_h264 (h264_sps s) (sdp_muxer_copy_limited (h264_pps s) nal) (h264_sprop s) (h264_profile_level_id s)
  else s.

Definition note_h265 (s : mux_h265) (nal : bytes) : mux_h265 :=
  if zlen nal <? 2 then s
  else
    let nal_type := Z.land (Z.shiftr (rd nal 0) 1) 63 in
    if (nal_type =? 32) && (zlen (h265_vps s) =? 0) then
      mk_mux_h265 (sdp_muxer_copy_limited (h265_vps s) nal) (h265_sps s) (h265_pps s)
        (h265_sprop_vps s) (h265_sprop_sps s) (h265_sprop_pps s)
    else if (nal_type =? 33) && (zlen (h265_sps s) =? 0) then
      mk_mux_h265 (h265_vps s) (sdp_muxer_copy_limited (h265_sps s) nal) (h265_pps s)
        (h265_sprop_vps s) (h265_sprop_sps s) (h265_sprop_pps s)
    else if (nal_type =? 34) && (zlen (h265_pps s) =? 0) then
      mk_mux_h265 (h265_vps s) (h265_sps s) (sdp_muxer_copy_limited (h265_pps s) nal)
        (h265_sprop_vps s) (h265_sprop_sps s) (h265_sprop_pps s)
    else s.

Definition sdp_muxer_parse_h264_annexb (s : sdp_muxer_t) (data : bytes) (size : Z) : outcome sdp_muxer_t :=
  let '(pos, code_size) := zst_find_start_code data size 0 in
  h ← note_units (Z.to_nat size) note_h264 (mx_h264 s) data size pos code_size; mret (with_h264 s h).

Definition sdp_muxer_parse_h265_annexb (s : sdp_muxer_t) (data : bytes) (size : Z) : outcome sdp_muxer_t :=
  let '(pos, code_size) := zst_find_start_code data size 0 in
  h ← note_units (Z.to_nat size) note_h265 (mx_h265 s) data size pos code_size; mret (with_h265 s h).

(** ** AAC *)

Definition sdp_muxer_aac_rates : list Z :=
  [96000; 88200; 64000; 48000; 44100; 32000; 24000; 22050; 16000; 12000; 11025; 8000; 7350].

Fixpoint rate_index (i : Z) (rates : list Z) (sample_rate : Z) : Z :=
  match rates with
  | [] => 3
  | r :: rates => if r =? sample_rate then i else rate_index (i + 1) rates sample_rate
  end.
Definition sdp_muxer_aac_freq_index (sample_rate : Z) : Z := rate_index 0 sdp_muxer_aac_rates sample_rate.
Definition sdp_muxer_aac_rate_from_index (idx : Z) : Z :=
  default SDP_MUXER_DEFAULT_AUDIO_RATE (sdp_muxer_aac_rates !! Z.to_nat idx).

(** The two bytes of an AudioSpecificConfig. *)
Definition asc_bytes (profile freq_idx channels : Z) : bytes :=
  [u8 (Z.lor (Z.shiftl profile 3) (Z.shiftr freq_idx 1));
   u8 (Z.lor (Z.shiftl (Z.land freq_idx 1) 7) (Z.shiftl channels 3))].

Definition with_aac (a : mux_audio) (rate channels : Z) (config : bytes) : mux_audio :=
  mk_mux_audio (ma_codec a) (ma_enabled a) (ma_port a) (ma_pt a) rate channels config.

Definition make_aac_config (a : mux_audio) : mux_audio :=
  if 0 <? zlen (ma_config a) then a
  else
    let channels := if 0 <? ma_channels a then ma_channels a else 2 in
    with_aac a (ma_rate a) (ma_channels a) (asc_bytes 2 (sdp_muxer_aac_freq_index (ma_rate a)) channels).
Definition sdp_muxer_make_aac_config (s : sdp_muxer_t) : sdp_muxer_t := with_mux_audio s (make_aac_config (mx_audio s)).

(** [data] holds at least [size] bytes. *)
Definition sdp_muxer_parse_aac_config (a : mux_audio) (data : bytes) (size : Z) : outcome mux_audio :=
  if size <? 2 then mret a
  else if zlen data <? 2 then Fault
  else
    let audio_object_type := Z.land (Z.shiftr (rd data 0) 3) 31 in
    let freq_idx := Z.lor (Z.shiftl (Z.land (rd data 0) 7) 1) (Z.land (Z.shiftr (rd data 1) 7) 1) in
    let channels := Z.land (Z.shiftr (rd data 1) 3) 15 in
    if (audio_object_type <=? 0) || (freq_idx =? 15) then mret a
    else
      let copy := if 8 <? size then 8 else size in
      if zlen data <? copy then Fault
      else
        mret (with_aac a (sdp_muxer_aac_rate_from_index freq_idx)
                (if 0 <? channels then channels else ma_channels a) (sub_bytes 0 copy data)).

Definition sdp_muxer_parse_aac_adts (a : mux_audio) (data : bytes) (size : Z) : mux_audio :=
  if size <? 7 then a
  else if negb (rd data 0 =? 255) || negb (Z.land (rd data 1) 240 =? 240) then a
  else
    let profile_minus1 := Z.land (Z.shiftr (rd data 2) 6) 3 in
    let freq_idx := Z.land (Z.shiftr (rd data 2) 2) 15 in
    let channels := Z.lor (Z.shiftl (Z.land (rd data 2) 1) 2) (Z.land (Z.shiftr (rd data 3) 6) 3) in
    with_aac a (sdp_muxer_aac_rate_from_index freq_idx) (if 0 <? channels then channels else ma_channels a)
      (asc_bytes (profile_minus1 + 1) freq_idx channels).

(** ** Base64 and hexadecimal *)

Definition char_of (b : Z) : ascii := ascii_of_nat (Z.to_nat b).

Definition sdp_muxer_b64_len (len : Z) : Z := (len + 2) / 3 * 4.

(** From byte [i] on, three bytes a round. *)
Fixpoint base64_loop (rounds : nat) (inp : bytes) (i : Z) : string :=
  match rounds with
  | O => EmptyString
  | S rounds =>
      if i <? zlen inp then
        let rem := zlen inp - i in
        let v := Z.lor (Z.lor (u32 (Z.shiftl (rd inp i) 16)) (Z.shiftl (if 1 <? rem then rd inp (i + 1) else 0) 8))
                   (if 2 <? rem then rd inp (i + 2) else 0) in
        let digit v := char_of (rd Base64.b64 v) in
        String (digit (Z.land (Z.shiftr v 18) 63)) (String (digit (Z.land (Z.shiftr v 12) 63))
          (String (if 1 <? rem then digit (Z.land (Z.shiftr v 6) 63) else "="%char)
            (String (if 2 <? rem then digit (Z.land v 63) else "="%char) (base64_loop rounds inp (i + 3)))))
      else EmptyString
  end.

(** [None] is the result -1, which writes nothing. *)
Definition sdp_muxer_base64 (inp : bytes) (out_cap : Z) : option string :=
  if out_cap <? sdp_muxer_b64_len (zlen inp) + 1 then None else Some (base64_loop (length inp) inp 0).

Definition hex_digit (v : Z) : ascii := if v <? 10 then digit_char v else char_of (55 + v).

Fixpoint hex_loop (inp : bytes) (p out_cap : Z) : string :=
  match inp with
  | b :: inp =>
      if p + 2 <? out_cap then
        String (hex_digit (Z.land (Z.shiftr b 4) 15)) (String (hex_digit (Z.land b 15)) (hex_loop inp (p + 2) out_cap))
      else EmptyString
  | [] => EmptyString
  end.
Definition sdp_muxer_hex (inp : bytes) (out_cap : Z) : string := hex_loop inp 0 out_cap.

Definition sdp_muxer_hex_value (c : ascii) : Z := if digit_val c <? 16 then digit_val c else -1.

(** Each round takes two characters and leaves a byte. *)
Fixpoint sdp_muxer_parse_hex (out_cap : nat) (inp : string) : bytes :=
  match out_cap, skip_spaces inp with
  | S out_cap, String h (String l inp) =>
      let hi := sdp_muxer_hex_value h in
      let lo := sdp_muxer_hex_value l in
      if (hi <? 0) || (lo <? 0) then [] else u8 (Z.lor (Z.shiftl hi 4) lo) :: sdp_muxer_parse_hex out_cap inp
  | _, _ => []
  end.

(** ** The text *)

(** [sdp_muxer_append] with the formatted text: the text so far and [rem]. *)
Definition sdp_muxer_append (o : string * Z) (s : string) : string * Z :=
  let '(out, rem) := o in
  if rem =? 0 then o
  else
    let n := str_len s in
    if rem <=? n then (out ++ str_take (Z.to_nat (rem - 1)) s, 1) else (out ++ s, rem - n).

Definition crlf : string := String "013" (String "010" EmptyString).

Definition nonempty (s : string) : bool := negb (streq s "").

(** The texts appended for the session, in order; [sid] is the time in seconds. *)
Definition session_texts (x : mux_session) (sid : Z) : list string :=
  if streq (ms_mode x) "st2110" then
    ["o=" ++ ms_name x ++ " " ++ show_Z sid ++ " 1 IN IP4 " ++ ms_address x ++ crlf;
     "s=" ++ ms_name x ++ crlf;
     "c=IN IP4 " ++ ms_address x ++ crlf;
     "t=0 0" ++ crlf;
     "a=tool:zstreamer" ++ crlf;
     "a=keywait:70" ++ crlf;
     "a=ts-refclk:ptp=IEEE1588-2019:" ++ ms_ptp_address x ++ ":" ++ show_Z (ms_ptp_domain x) ++ crlf]
  else
    ["o=- " ++ show_Z sid ++ " 1 IN IP4 " ++ ms_address x ++ crlf;
     "s=" ++ ms_name x ++ crlf;
     "c=IN IP4 " ++ ms_address x ++ crlf;
     "t=0 0" ++ crlf;
     "a=tool:zstreamer" ++ crlf].

Definition media_texts (media : string) (port pt : Z) : list string :=
  ["m=" ++ media ++ " " ++ show_Z port ++ " RTP/AVP " ++ show_Z pt ++ crlf].

Definition rtpmap_text (pt : Z) (map : string) : string := "a=rtpmap:" ++ show_Z pt ++ " " ++ map ++ crlf.

Definition control_text (track : string) : string := "a=control:trackID=" ++ track ++ crlf.

(** A local array of 768 characters: the property's text, else the set in Base64. *)
Definition sprop_or (sprop : string) (data : bytes) : string :=
  if nonempty sprop then strncpy_n 768 sprop
  else if 0 <? zlen data then default "" (sdp_muxer_base64 data 768) else "".

Definition h265_texts (s : sdp_muxer_t) : list string :=
  let v := mx_video s in
  let h := mx_h265 s in
  let vps := sprop_or (h265_sprop_vps h) (h265_vps h) in
  let sps := sprop_or (h265_sprop_sps h) (h265_sps h) in
  let pps := sprop_or (h265_sprop_pps h) (h265_pps h) in
  (media_texts "video" (mv_port v) (mv_pt v) ++ [rtpmap_text (mv_pt v) "H265/90000"] ++
   (if nonempty vps || nonempty sps || nonempty pps then
      ["a=fmtp:" ++ show_Z (mv_pt v)]%string ++
      (if nonempty vps then [" sprop-vps=" ++ vps]%string else []) ++
      (if nonempty sps then [(if nonempty vps then ";" else " ") ++ "sprop-sps=" ++ sps]%string else []) ++
      (if nonempty pps then [(if nonempty vps || nonempty sps then ";" else " ") ++ "sprop-pps=" ++ pps]%string else []) ++
      [crlf]
    else []) ++
   [control_text "0"])%list.

(** The two halves of [h264_sprop], around its first comma. *)
Definition sprop_halves (sprop : string) : string * string :=
  match str_span (fun c => is_char c ",") sprop with
  | (a, String _ b) => (str_take 767 a, strncpy_n 768 b)
  | _ => ("", "")
  end.

Definition h264_sets (h : mux_h264) : string * string :=
  let '(sps, pps) := if nonempty (h264_sprop h) then sprop_halves (h264_sprop h) else ("", "") in
  let or64 cur data := if negb (nonempty cur) && (0 <? zlen data) then default "" (sdp_muxer_base64 data 768) else cur in
  (or64 sps (h264_sps h), or64 pps (h264_pps h)).

Definition h264_texts (s : sdp_muxer_t) : list string :=
  let v := mx_video s in
  let h := mx_h264 s in
  let '(sps, pps) := h264_sets h in
  (media_texts "video" (mv_port v) (mv_pt v) ++
   [rtpmap_text (mv_pt v) "H264/90000"; "a=fmtp:" ++ show_Z (mv_pt v) ++ " packetization-mode=1"]%string ++
   (if nonempty (h264_profile_level_id h) then [";profile-level-id=" ++ h264_profile_level_id h]%string else []) ++
   (if nonempty sps && nonempty pps then [";sprop-parameter-sets=" ++ sps ++ "," ++ pps]%string else []) ++
   [crlf; control_text "0"])%list.

(** The format's text gives sampling and depth. *)
Definition raw_fmtp (v : mux_video) : string :=
  let f := mv_format v in
  let sampling := if nonempty f && str_contains "444" f then "YCbCr-4:4:4" else "YCbCr-4:2:2" in
  let sampling := if nonempty f && str_contains "RGB" f then "RGB" else sampling in
  let depth := if nonempty f then if str_contains "8" f then 8 else if str_contains "12" f then 12 else 10 else 10 in
  let w := if 0 <? mv_width v then mv_width v else 1920 in
  let h := if 0 <? mv_height v then mv_height v else 1080 in
  "a=fmtp:" ++ show_Z (mv_pt v) ++ " sampling=" ++ sampling ++ ";width=" ++ show_Z w ++ ";height=" ++ show_Z h ++
  ";depth=" ++ show_Z depth ++ ";interlace" ++ crlf.

Definition simple_texts (v : mux_video) (map : string) : list string :=
  (media_texts "video" (mv_port v) (mv_pt v) ++ [rtpmap_text (mv_pt v) map; control_text "0"])%list.

Definition video_texts (s : sdp_muxer_t) : list string :=
  let v := mx_video s in
  if sdp_muxer_is_h265 s then h265_texts s
  else if sdp_muxer_is_h264 s then h264_texts s
  else if sdp_muxer_is_video_codec s "vp8" then simple_texts v "VP8/90000"
  else if sdp_muxer_is_video_codec s "vp9" then simple_texts v "VP9/90000"
  else if sdp_muxer_is_video_codec s "av1" then simple_texts v "AV1/90000"
  else if sdp_muxer_is_video_codec s "raw" then
    (media_texts "video" (mv_port v) (mv_pt v) ++ [rtpmap_text (mv_pt v) "raw/90000"] ++
     (if streq (ms_mode (mx_session s)) "st2110" then [raw_fmtp v] else []) ++ [control_text "0"])%list
  else [].

Definition rate_map (name : string) (rate ch : Z) : string := name ++ "/" ++ show_Z rate ++ "/" ++ show_Z ch.

Definition or_default (x d : Z) : Z := if 0 <? x then x else d.

(** The codec's name, and the rate and channels used when the properties have none. *)
Definition pcm_name (s : sdp_muxer_t) : string :=
  if sdp_muxer_is_audio_codec s "l24" then "L24" else if sdp_muxer_is_audio_codec s "l32" then "L32" else "L16".

Definition aac_texts (a : mux_audio) : list string :=
  [rtpmap_text (ma_pt a) (rate_map "MPEG4-GENERIC" (ma_rate a) (ma_channels a));
   "a=fmtp:" ++ show_Z (ma_pt a) ++ " streamtype=5;profile-level-id=1;mode=AAC-hbr;config=" ++
     sdp_muxer_hex (ma_config a) 32 ++ ";SizeLength=13;IndexLength=3;IndexDeltaLength=3" ++ crlf].

Definition audio_texts (s : sdp_muxer_t) : list string :=
  let a := mx_audio s in
  let map name rate ch := rtpmap_text (ma_pt a) (rate_map name (or_default (ma_rate a) rate) (or_default (ma_channels a) ch)) in
  (media_texts "audio" (ma_port a) (ma_pt a) ++
   (if sdp_muxer_is_audio_codec s "opus" then [map "OPUS" 48000 2]
    else if sdp_muxer_is_audio_codec s "pcmu" then [map "PCMU" 8000 1]
    else if sdp_muxer_is_audio_codec s "pcma" then [map "PCMA" 8000 1]
    else if sdp_muxer_is_audio_codec s "l16" || sdp_muxer_is_audio_codec s "l24" || sdp_muxer_is_audio_codec s "l32" ||
            sdp_muxer_is_audio_codec s "pcm" then
      map (pcm_name s) 48000 2 ::
      (if streq (ms_mode (mx_session s)) "st2110" then ["a=mediaclk:direct=0" ++ crlf]%string else [])
    else aac_texts (make_aac_config a)) ++
   [control_text "1"])%list.

(** What happens outside: a file written in full, a buffer pushed on the source pad. *)
Inductive mux_effect := Wrote (path text : string) | Sent (buf : zst_buffer).

Section Muxer.
Context `{CMemory} (sid : Z) (write_ok : string -> string -> bool) (src_peer : bool) (stale_size : caps_value -> Z).

Definition mux_run : Type := zst_result_t * sdp_muxer_t * list mux_effect.

(** [fopen], [fwrite] and [fclose] all succeed, or one of them does not. *)
Definition sdp_muxer_write_file (s : sdp_muxer_t) : zst_result_t * list mux_effect :=
  let path := ms_file (mx_session s) in
  if streq path "" then (ZST_OK, [])
  else if write_ok path (mx_text s) then (ZST_OK, [Wrote path (mx_text s)]) else (ZST_ERROR, []).

Definition mux_texts (s : sdp_muxer_t) : list string :=
  (["v=0" ++ crlf]%string ++ session_texts (mx_session s) sid ++
   (if mv_enabled (mx_video s) then video_texts s else []) ++
   (if ma_enabled (mx_audio s) then audio_texts s else []))%list.

Definition sdp_muxer_generate (s : sdp_muxer_t) : mux_run :=
  let s := sdp_muxer_make_aac_config s in
  let s := with_text s (fold_left sdp_muxer_append (mux_texts s) ("", SDP_MUXER_TEXT_MAX)).1 in
  let '(ret, out) := sdp_muxer_write_file s in (ret, s, out).

(** ** Capabilities *)

Inductive mux_pad := VideoPad | AudioPad.

(** [sdp_muxer_copy_string] of a field's text into an array of [size]. *)
Definition caps_text (caps : option zst_caps_t) (key : string) (size : Z) (old : string) : string :=
  match zst_caps_get_string caps key with Some (Some v) => strncpy_n size v | _ => old end.

Definition caps_int (caps : option zst_caps_t) (key : string) (ok : Z -> bool) (old : Z) : Z :=
  match zst_caps_get_int caps key with Some v => if ok v then v else old | None => old end.

Definition mux_codec_of (mt : string) : option string :=
  if name_in mt ["video/x-h265"; "video/h265"; "video/hevc"] then Some "h265"
  else if name_in mt ["video/x-h264"; "video/h264"] then Some "h264"
  else if name_in mt ["video/x-vp8"; "video/vp8"] then Some "vp8"
  else if name_in mt ["video/x-vp9"; "video/vp9"] then Some "vp9"
  else if name_in mt ["video/x-av1"; "video/av1"] then Some "av1"
  else if name_in mt ["video/x-raw"; "video/raw"] then Some "raw"
  else None.

Definition apply_video_caps (s : sdp_muxer_t) (caps : option zst_caps_t) (mt : string) : sdp_muxer_t :=
  let v := mx_video s in
  let codec := default (mv_codec v) (mux_codec_of mt) in
  let any := fun _ : Z => true in
  let v :=
    if name_in mt ["video/x-raw"; "video/raw"] then
      mk_mux_video codec (mv_enabled v) (mv_port v) (mv_pt v) (caps_int caps "width" any (mv_width v))
        (caps_int caps "height" any (mv_height v)) (caps_text caps "format" 32 (mv_format v))
    else mk_mux_video codec (mv_enabled v) (mv_port v) (mv_pt v) (mv_width v) (mv_height v) (mv_format v) in
  let h := mx_h264 s in
  let h := mk_mux_h264 (h264_sps h) (h264_pps h) (caps_text caps "sprop-parameter-sets" 1024 (h264_sprop h))
             (caps_text caps "profile-level-id" 32 (h264_profile_level_id h)) in
  let g := mx_h265 s in
  let g := mk_mux_h265 (h265_vps g) (h265_sps g) (h265_pps g) (caps_text caps "sprop-vps" 768 (h265_sprop_vps g))
             (caps_text caps "sprop-sps" 768 (h265_sprop_sps g)) (caps_text caps "sprop-pps" 768 (h265_sprop_pps g)) in
  with_h265 (with_h264 (with_mux_video s v) h) g.

(** [Fault]: [strstr] of a format that is NULL. *)
Definition audio_codec_of (caps : option zst_caps_t) (mt old : string) : outcome string :=
  if name_in mt ["audio/aac"; "audio/x-aac"] then mret "aac"
  else if name_in mt ["audio/opus"; "audio/x-opus"] then mret "opus"
  else if name_in mt ["audio/PCMU"; "audio/x-mulaw"] then mret "pcmu"
  else if name_in mt ["audio/PCMA"; "audio/x-alaw"] then mret "pcma"
  else if streq mt "audio/L16" then mret "l16"
  else if streq mt "audio/x-raw" then
    match zst_caps_get_string caps "format" with
    | Some None => Fault
    | Some (Some fmt) => mret (if str_contains "24" fmt then "l24" else if str_contains "32" fmt then "l32" else "l16")
    | None => mret "l16"
    end
  else mret old.

(** The decoder's configuration: a field of bytes, else one of hexadecimal digits. *)
Definition caps_config (caps : option zst_caps_t) (a : mux_audio) : outcome mux_audio :=
  let found :=
    match zst_caps_get_buffer caps "codec-data" with
    | Some x => Some x
    | None => zst_caps_get_buffer caps "codec_data"
    end in
  let hex :=
    match zst_caps_get_string caps "config" with
    | Some x => Some x
    | None => zst_caps_get_string caps "codec-data"
    end in
  let from_hex :=
    match hex with
    | Some (Some h) =>
        let asc := sdp_muxer_parse_hex 8 h in
        if 2 <=? zlen asc then sdp_muxer_parse_aac_config a asc (zlen asc) else mret a
    | _ => mret a
    end in
  match found with
  | Some (Some data, size) => if 2 <=? size then sdp_muxer_parse_aac_config a data (s32 size) else from_hex
  | _ => from_hex
  end.

Definition apply_audio_caps (s : sdp_muxer_t) (caps : option zst_caps_t) (mt : string) : outcome sdp_muxer_t :=
  let a := mx_audio s in
  codec ← audio_codec_of caps mt (ma_codec a);
  let positive v := 0 <? v in
  a ← caps_config caps
        (mk_mux_audio codec (ma_enabled a) (ma_port a) (ma_pt a) (caps_int caps "sample-rate" positive (ma_rate a))
           (caps_int caps "channels" positive (ma_channels a)) (ma_config a));
  mret (with_mux_audio s a).

Definition sdp_muxer_apply_caps (s : sdp_muxer_t) (pad : mux_pad) (caps : option zst_caps_t) : outcome sdp_muxer_t :=
  match caps with
  | Some (st :: _) =>
      match pad with
      | VideoPad => mret (apply_video_caps s caps (cs_media_type st))
      | AudioPad => apply_audio_caps s caps (cs_media_type st)
      end
  | _ => mret s
  end.

(** ** Buffers *)

Definition sdp_muxer_observe_video (s : sdp_muxer_t) (buf : zst_buffer) : outcome sdp_muxer_t :=
  match mem_data buf with
  | None => mret s
  | Some data =>
      let size := s32 (mem_size buf) in
      if mem_size buf =? 0 then mret s
      else if sdp_muxer_is_h265 s then sdp_muxer_parse_h265_annexb s data size
      else sdp_muxer_parse_h264_annexb s data size
  end.

Definition sdp_muxer_observe_audio (s : sdp_muxer_t) (buf : zst_buffer) : sdp_muxer_t :=
  match mem_data buf with
  | None => s
  | Some data =>
      if mem_size buf =? 0 then s else with_mux_audio s (sdp_muxer_parse_aac_adts (mx_audio s) data (s32 (mem_size buf)))
  end.

(** The text, its NUL behind it. *)
Definition text_buffer (txt : string) : zst_buffer :=
  mk_buffer ZST_BUFFER_USER 0 0 0 0 (Some (text txt ++ [0])%list) (str_len txt).

Definition sdp_muxer_emit (s : sdp_muxer_t) : mux_run :=
  if mx_emit_once s && mx_emitted s then (ZST_OK, s, [])
  else
    let '(ret, s, out) := if mx_valid s then (ZST_OK, s, []) else sdp_muxer_generate s in
    if negb (ret =? ZST_OK) then (ZST_ERROR, s, out)
    else if src_peer then
      if malloc_ok SIZEOF_BUFFER && malloc_ok (str_len (mx_text s) + 1) then
        (ZST_OK, with_text_valid s (mx_valid s) true, out ++ [Sent (text_buffer (mx_text s))])%list
      else (ZST_ERROR, s, out)
    else (ZST_OK, with_text_valid s (mx_valid s) true, out).

Definition mux_eos : zst_buffer := mk_buffer ZST_BUFFER_USER ZST_BUFFER_FLAG_EOS 0 0 0 None 0.

Definition enable (s : sdp_muxer_t) (pad : mux_pad) : sdp_muxer_t :=
  match pad with
  | VideoPad =>
      let v := mx_video s in
      with_mux_video s (mk_mux_video (mv_codec v) true (mv_port v) (mv_pt v) (mv_width v) (mv_height v) (mv_format v))
  | AudioPad =>
      let a := mx_audio s in
      with_mux_audio s (mk_mux_audio (ma_codec a) true (ma_port a) (ma_pt a) (ma_rate a) (ma_channels a) (ma_config a))
  end.

(** The handler of both sink pads; [caps] are those of [pad]. *)
Definition mux_sink_push (s : sdp_muxer_t) (pad : mux_pad) (caps : option zst_caps_t) (buf : zst_buffer) : outcome mux_run :=
  if has_flag (buf_flags buf) ZST_BUFFER_FLAG_EOS then
    mret (ZST_OK, s, if src_peer && malloc_ok SIZEOF_BUFFER then [Sent mux_eos] else [])
  else
    s ← sdp_muxer_apply_caps s pad caps;
    let s := enable s pad in
    s ← match pad with
        | VideoPad => sdp_muxer_observe_video s buf
        | AudioPad => mret (sdp_muxer_observe_audio s buf)
        end;
    mret (sdp_muxer_emit (with_text_valid s false (mx_emitted s))).

Definition mux_caps (video audio : list string) : option zst_caps_t :=
  caps ← zst_caps_create;
  let caps := fold_left (fun caps mt => (zst_caps_append caps
                (zst_caps_struct_create_video stale_size (Some mt) 0 0 d_zero (Some ""))).2) video (Some caps) in
  fold_left (fun caps mt => (zst_caps_append caps
                (zst_caps_struct_create_audio stale_size (Some mt) 0 0 (Some ""))).2) audio caps.

(** [None] asks for the source pad. *)
Definition sdp_muxer_get_caps (pad : option mux_pad) : option zst_caps_t :=
  match pad with
  | Some VideoPad =>
      mux_caps ["video/x-h264"; "video/x-h265"; "video/x-vp8"; "video/x-vp9"; "video/x-av1"; "video/x-raw"] []
  | Some AudioPad => mux_caps [] ["audio/aac"; "audio/opus"; "audio/PCMU"; "audio/PCMA"; "audio/L16"; "audio/x-raw"]
  | None => mux_caps ["application/sdp"; "text/plain"] []
  end.

(** ** Element operations *)

Definition sdp_muxer_open (s : sdp_muxer_t) : mux_run := sdp_muxer_generate (with_text_valid s false false).

Definition sdp_muxer_start (s : sdp_muxer_t) : mux_run :=
  let '(ret, s, out) := if mx_valid s then (ZST_OK, s, []) else sdp_muxer_generate s in
  (if ret =? ZST_OK then ZST_OK else ZST_ERROR, s, out).

Definition sdp_muxer_stop (s : sdp_muxer_t) : zst_result_t * sdp_muxer_t := (ZST_OK, with_text_valid s (mx_valid s) false).

Definition sdp_muxer_close (s : sdp_muxer_t) : zst_result_t * sdp_muxer_t := sdp_muxer_stop s.

Definition sdp_muxer_parse_bool (v : string) : bool :=
  streq v "1" || strcaseeq v "true" || strcaseeq v "yes" || strcaseeq v "on".

(** ** Properties *)

Definition any_case (v : string) (codecs : list string) : bool := existsb (strcaseeq v) codecs.

Definition set_session (x : mux_session) (name value : string) : option mux_session :=
  let n := atoi value in
  if name_in name ["address"; "connection-address"] then
    Some (mk_session (strncpy_n 64 value) (ms_name x) (ms_file x) (ms_mode x) (ms_ptp_version x) (ms_ptp_address x) (ms_ptp_domain x))
  else if name_in name ["session-name"; "name"] then
    Some (mk_session (ms_address x) (strncpy_n 128 value) (ms_file x) (ms_mode x) (ms_ptp_version x) (ms_ptp_address x) (ms_ptp_domain x))
  else if name_in name ["sdp-file"; "location"] then
    Some (mk_session (ms_address x) (ms_name x) (strncpy_n 256 value) (ms_mode x) (ms_ptp_version x) (ms_ptp_address x) (ms_ptp_domain x))
  else if streq name "media-mode" then
    Some (mk_session (ms_address x) (ms_name x) (ms_file x) (strncpy_n 32 value) (ms_ptp_version x) (ms_ptp_address x) (ms_ptp_domain x))
  else if streq name "ptp-version" then
    Some (mk_session (ms_address x) (ms_name x) (ms_file x) (ms_mode x) n (ms_ptp_address x) (ms_ptp_domain x))
  else if streq name "ptp-address" then
    Some (mk_session (ms_address x) (ms_name x) (ms_file x) (ms_mode x) (ms_ptp_version x) (strncpy_n 64 value) (ms_ptp_domain x))
  else if streq name "ptp-domain" then
    Some (mk_session (ms_address x) (ms_name x) (ms_file x) (ms_mode x) (ms_ptp_version x) (ms_ptp_address x) n)
  else None.

Definition set_video (v : mux_video) (name value : string) : option mux_video :=
  let n := atoi value in
  if name_in name ["video-codec"; "codec"] then
    if any_case value ["h264"; "avc"; "h265"; "hevc"; "hvc1"; "vp8"; "vp9"; "av1"; "raw"] then
      Some (mk_mux_video (strncpy_n 16 value) (mv_enabled v) (mv_port v) (mv_pt v) (mv_width v) (mv_height v) (mv_format v))
    else None
  else if streq name "video-port" then
    Some (mk_mux_video (mv_codec v) (mv_enabled v) n (mv_pt v) (mv_width v) (mv_height v) (mv_format v))
  else if name_in name ["video-payload-type"; "video-pt"] then
    Some (mk_mux_video (mv_codec v) (mv_enabled v) (mv_port v) n (mv_width v) (mv_height v) (mv_format v))
  else if name_in name ["enable-video"; "video-enabled"] then
    Some (mk_mux_video (mv_codec v) (sdp_muxer_parse_bool value) (mv_port v) (mv_pt v) (mv_width v) (mv_height v) (mv_format v))
  else None.

(** Choosing a G.711 codec also changes the default rate and channels. *)
Definition choose_codec (a : mux_audio) (value : string) : mux_audio :=
  let codec := strncpy_n 16 (if strcaseeq value "mpeg4-generic" then "aac" else value) in
  let g711 := any_case codec ["pcmu"; "pcma"] && (ma_rate a =? SDP_MUXER_DEFAULT_AUDIO_RATE) in
  mk_mux_audio codec (ma_enabled a) (ma_port a) (ma_pt a) (if g711 then 8000 else ma_rate a)
    (if g711 && (ma_channels a =? SDP_MUXER_DEFAULT_AUDIO_CH) then 1 else ma_channels a) (ma_config a).

Definition set_audio (a : mux_audio) (name value : string) : option mux_audio :=
  let n := atoi value in
  if streq name "audio-codec" then
    if any_case value ["aac"; "mpeg4-generic"; "opus"; "pcmu"; "pcma"; "l16"; "l24"; "l32"; "pcm"] then
      Some (choose_codec a value)
    else None
  else if streq name "audio-port" then
    Some (mk_mux_audio (ma_codec a) (ma_enabled a) n (ma_pt a) (ma_rate a) (ma_channels a) (ma_config a))
  else if name_in name ["audio-payload-type"; "audio-pt"] then
    Some (mk_mux_audio (ma_codec a) (ma_enabled a) (ma_port a) n (ma_rate a) (ma_channels a) (ma_config a))
  else if name_in name ["sample-rate"; "audio-sample-rate"] then
    Some (mk_mux_audio (ma_codec a) (ma_enabled a) (ma_port a) (ma_pt a) n (ma_channels a) [])
  else if name_in name ["channels"; "audio-channels"] then
    Some (mk_mux_audio (ma_codec a) (ma_enabled a) (ma_port a) (ma_pt a) (ma_rate a) n [])
  else if name_in name ["enable-audio"; "audio-enabled"] then
    Some (mk_mux_audio (ma_codec a) (sdp_muxer_parse_bool value) (ma_port a) (ma_pt a) (ma_rate a) (ma_channels a) (ma_config a))
  else None.

(** The names of the groups are distinct, so their order does not matter. *)
Definition mux_assign (s : sdp_muxer_t) (name value : string) : option sdp_muxer_t :=
  match set_session (mx_session s) name value, set_video (mx_video s) name value, set_audio (mx_audio s) name value with
  | Some x, _, _ => Some (with_session s x)
  | _, Some v, _ => Some (with_mux_video s v)
  | _, _, Some a => Some (with_mux_audio s a)
  | _, _, _ => if streq name "emit-once" then Some (with_once s (sdp_muxer_parse_bool value)) else None
  end.

Definition mux_set_property (s : sdp_muxer_t) (name value : string) : mux_run :=
  match mux_assign s name value with
  | Some s => sdp_muxer_generate (with_text_valid s false (mx_emitted s))
  | None => (ZST_ERROR, s, [])
  end.

Definition show_bool (b : bool) : string := if b then "true" else "false".

(** The text before it is cut to the caller's array; [None] for a name not known. *)
Definition mux_value (s : sdp_muxer_t) (name : string) : option string :=
  let x := mx_session s in
  let v := mx_video s in
  let a := mx_audio s in
  if streq name "sdp" then Some (mx_text s)
  else if name_in name ["address"; "connection-address"] then Some (ms_address x)
  else if name_in name ["session-name"; "name"] then Some (ms_name x)
  else if name_in name ["sdp-file"; "location"] then Some (ms_file x)
  else if name_in name ["video-codec"; "codec"] then Some (mv_codec v)
  else if streq name "audio-codec" then Some (ma_codec a)
  else if streq name "video-port" then Some (show_Z (mv_port v))
  else if streq name "audio-port" then Some (show_Z (ma_port a))
  else if name_in name ["video-payload-type"; "video-pt"] then Some (show_Z (mv_pt v))
  else if name_in name ["audio-payload-type"; "audio-pt"] then Some (show_Z (ma_pt a))
  else if name_in name ["sample-rate"; "audio-sample-rate"] then Some (show_Z (ma_rate a))
  else if name_in name ["channels"; "audio-channels"] then Some (show_Z (ma_channels a))
  else if name_in name ["enable-video"; "video-enabled"] then Some (show_bool (mv_enabled v))
  else if name_in name ["enable-audio"; "audio-enabled"] then Some (show_bool (ma_enabled a))
  else if streq name "emit-once" then Some (show_bool (mx_emit_once s))
  else if streq name "media-mode" then Some (ms_mode x)
  else if streq name "ptp-version" then Some (show_Z (ms_ptp_version x))
  else if streq name "ptp-address" then Some (ms_ptp_address x)
  else if streq name "ptp-domain" then Some (show_Z (ms_ptp_domain x))
  else None.

(** An invalid text is generated first; whether its file is written does not matter. *)
Definition mux_get_property (s : sdp_muxer_t) (name : string) (max_len : Z)
  : option string * sdp_muxer_t * list mux_effect :=
  if max_len =? 0 then (None, s, [])
  else
    let '(_, s, out) := if mx_valid s then (ZST_OK, s, []) else sdp_muxer_generate s in
    (strncpy_n max_len <$> mux_value s name, s, out).

Definition mux_defaults : sdp_muxer_t :=
  mk_muxer (mk_session "127.0.0.1" "zstreamer" "" "standard" 1 "127.0.0.1" 0)
    (mk_mux_video "h264" true 5004 96 0 0 "") (mk_mux_h264 [] [] "" "") (mk_mux_h265 [] [] [] "" "" "")
    (mk_mux_audio "aac" false 5006 97 SDP_MUXER_DEFAULT_AUDIO_RATE SDP_MUXER_DEFAULT_AUDIO_CH []) true "" false false.

(** Every allocation taken to succeed. *)
Definition zst_sdp_muxer_create : sdp_muxer_t := (sdp_muxer_generate mux_defaults).1.2.
End Muxer.
