(* ===== verification/SdpLines.v ===== *)
(** * Texts that are read back: lemmas for [SdpText] and [SdpMux]

    How the functions of the SDP parser act on texts that are put together from words,
    numbers and parameters without separators in them. *)

From Stdlib Require Import Ascii String.
From S2P Require Import Prelude CLib Pad Sha1 Sha1Spec SdpReorder SdpTiming SdpText SdpMux.

Local Open Scope string_scope.
Local Open Scope Z_scope.

#[local] Arguments String.append !_ _ : simpl nomatch.

(** ** Characters *)

Fixpoint str_all (p : ascii -> bool) (s : string) : bool :=
  match s with EmptyString => true | String c s => p c && str_all p s end.

(** Neither a space nor one of [;] and [,], which end parameters. *)
Definition plain_char (c : ascii) : bool := negb (is_space c) && negb (is_char c ";") && negb (is_char c ",").
Definition plain (s : string) : bool := str_all plain_char s.

Definition digits (s : string) : bool := str_all is_digit s.
Definition one_line (s : string) : bool := str_all (fun c => negb (is_char c "010")) s.

Lemma str_all_impl (p q : ascii -> bool) s : (forall c, p c = true -> q c = true) -> str_all p s = true -> str_all q s = true.
Proof. intros Hpq. induction s as [|c s IH]; [done|]. cbn. rewrite !andb_true_iff. intuition. Qed.

Lemma str_all_app p a b : str_all p (a ++ b) = str_all p a && str_all p b.
Proof. induction a as [|c a IH]; [done|]. cbn. by rewrite IH, andb_assoc. Qed.

Lemma str_app_assoc (a b c : string) : (a ++ b) ++ c = a ++ (b ++ c).
Proof. induction a as [|x a IH]; [done|]. cbn. by rewrite IH. Qed.

Lemma str_app_nil_r (a : string) : a ++ "" = a.
Proof. induction a as [|x a IH]; [done|]. cbn. by rewrite IH. Qed.

Lemma str_len_app a b : str_len (a ++ b) = str_len a + str_len b.
Proof. unfold str_len. induction a as [|x a IH]; [done|]. cbn [append String.length]. lia. Qed.

Lemma str_len_nonneg a : 0 <= str_len a.
Proof. unfold str_len. lia. Qed.

Lemma is_char_eq c d : is_char c d = true -> c = d.
Proof. apply Ascii.eqb_eq. Qed.

(** A property of characters that is decided on all of them. *)
Fixpoint all_chars (p : ascii -> bool) (n : nat) : bool :=
  match n with O => true | S n => p (ascii_of_nat n) && all_chars p n end.

Lemma all_chars_lt p n i : all_chars p n = true -> (i < n)%nat -> p (ascii_of_nat i) = true.
Proof.
  induction n as [|n IH]; [lia|]. cbn. rewrite andb_true_iff. intros [Hp Hn] Hi.
  destruct (decide (i = n)) as [->|]; [done|]. apply IH; [done|lia].
Qed.

Lemma each_char p : all_chars p 256 = true -> forall c, p c = true.
Proof. intros H c. rewrite <- (ascii_nat_embedding c). apply (all_chars_lt _ 256); [done|]. apply nat_ascii_bounded. Qed.

Definition is_cr (c : ascii) : bool := is_char c "013" || is_char c "010".

(** What the classes of characters have to do with each other. *)
Lemma char_classes c :
  (is_digit c = true -> plain_char c = true) /\
  (plain_char c = true -> is_space c = false /\ is_char c ";" = false /\ is_char c "," = false) /\
  (is_space c = false -> is_blank c = false /\ is_char c "013" = false /\ is_char c "010" = false) /\
  (is_digit c = true -> Ascii.eqb c "-" = false /\ Ascii.eqb c "+" = false /\ is_char c "/" = false).
Proof.
  assert (forall c, implb (is_digit c) (plain_char c && negb (Ascii.eqb c "-") && negb (Ascii.eqb c "+") && negb (is_char c "/"))
    && implb (negb (is_space c)) (negb (is_blank c) && negb (is_char c "013") && negb (is_char c "010")) = true) as H
    by (by apply each_char).
  specialize (H c). unfold plain_char in *. revert H.
  destruct (is_digit c), (is_space c), (is_char c ";"), (is_char c ","), (Ascii.eqb c "-"), (Ascii.eqb c "+"), (is_char c "/"),
    (is_blank c), (is_char c "013"), (is_char c "010"); cbn; intuition congruence.
Qed.

Lemma digits_plain s : digits s = true -> plain s = true.
Proof. apply str_all_impl. intros c. apply char_classes. Qed.

Lemma plain_spaceless s : plain s = true -> str_all (fun c => negb (is_space c)) s = true.
Proof. apply str_all_impl. intros c H%char_classes. by destruct H as [-> _]. Qed.

Lemma spaceless_line s : str_all (fun c => negb (is_space c)) s = true -> one_line s = true.
Proof. apply str_all_impl. intros c H%negb_true_iff. destruct (char_classes c) as (_ & _ & Hc & _). by destruct (Hc H) as (_ & _ & ->). Qed.

(** ** Words *)

Lemma span_stop stop a b : str_all (fun c => negb (stop c)) a = true ->
  match b with EmptyString => True | String c _ => stop c = true end -> str_span stop (a ++ b) = (a, b).
Proof.
  intros Ha Hb. induction a as [|c a IH].
  - cbn. destruct b as [|c b]; [done|]. cbn. by rewrite Hb.
  - cbn in *. apply andb_true_iff in Ha as [Hc%negb_true_iff Ha]. by rewrite Hc, IH.
Qed.

Lemma skip_none s : match s with EmptyString => True | String c _ => is_space c = false end -> skip_spaces s = s.
Proof. destruct s as [|c s]; [done|]. cbn. by intros ->. Qed.

(** The last character is there, and is no space. *)
Fixpoint ends_ok (s : string) : bool :=
  match s with
  | EmptyString => false
  | String c s' => match s' with EmptyString => negb (is_space c) | _ => ends_ok s' end
  end.

Lemma ends_ok_app a b : ends_ok b = true -> ends_ok (a ++ b) = true.
Proof. intros Hb. induction a as [|c a IH]; [done|]. cbn. destruct (a ++ b) eqn:E; [|done]. by destruct a, b. Qed.

Lemma spaceless_ends s : str_all (fun c => negb (is_space c)) s = true -> s <> "" -> ends_ok s = true.
Proof.
  induction s as [|c s IH]; [done|]. cbn. rewrite andb_true_iff. intros [Hc Hs] _. destruct s; [done|]. by apply IH.
Qed.

Lemma rtrim_ends s : ends_ok s = true -> str_rtrim s = s.
Proof.
  induction s as [|c s IH]; [done|]. cbn. destruct s as [|d s]; [|intros H; by rewrite (IH H)].
  intros H%negb_true_iff. cbn. by rewrite H.
Qed.

Lemma trim_ends s : ends_ok s = true -> match s with EmptyString => True | String c _ => is_space c = false end -> sdp_trim s = s.
Proof. intros He Hh. unfold sdp_trim. by rewrite skip_none, rtrim_ends. Qed.

Lemma rtrim_spaceless s : str_all (fun c => negb (is_space c)) s = true -> str_rtrim s = s.
Proof. destruct s as [|c s]; [done|]. intros H. apply rtrim_ends, spaceless_ends; done. Qed.

Lemma trim_spaceless s : str_all (fun c => negb (is_space c)) s = true -> sdp_trim s = s.
Proof.
  intros H. unfold sdp_trim. rewrite skip_none, rtrim_spaceless; [done..|].
  destruct s as [|c s]; [done|]. cbn in H. by apply andb_true_iff in H as [?%negb_true_iff _].
Qed.

Lemma spaceless_blankless s : str_all (fun c => negb (is_space c)) s = true -> str_all (fun c => negb (is_blank c)) s = true.
Proof. apply str_all_impl. intros c H%negb_true_iff. destruct (char_classes c) as (_ & _ & Hc & _). by destruct (Hc H) as (-> & _). Qed.

Lemma next_word_first w rest : str_all (fun c => negb (is_space c)) w = true ->
  match rest with EmptyString => True | String c _ => is_blank c = true end ->
  match w with EmptyString => False | _ => True end -> next_word (w ++ rest) = (w, rest).
Proof.
  intros Hw Hr Hne. pose proof (spaceless_blankless w Hw) as Hb. unfold next_word.
  assert (str_span (fun c => negb (is_blank c)) (w ++ rest) = ("", w ++ rest)) as ->.
  { destruct w as [|c w]; [done|]. cbn in *. apply andb_true_iff in Hb as [-> _]. done. }
  by apply span_stop.
Qed.

Lemma next_word_blank w rest : str_all (fun c => negb (is_space c)) w = true ->
  match rest with EmptyString => True | String c _ => is_blank c = true end ->
  match w with EmptyString => False | _ => True end -> next_word (" " ++ w ++ rest) = (w, rest).
Proof.
  intros Hw Hr Hne. rewrite <- (next_word_first w rest) by done. unfold next_word. cbn.
  by destruct (str_span (fun c => negb (is_blank c)) (w ++ rest)).
Qed.

(** ** Numbers *)

Lemma digit_char_digit d : 0 <= d < 10 -> is_digit (digit_char d) = true.
Proof. intros H. unfold is_digit. rewrite digit_val_char by done. apply Z.ltb_lt. lia. Qed.

Lemma show_digits_app fuel n acc : show_digits fuel n acc = show_digits fuel n "" ++ acc.
Proof.
  revert n acc. induction fuel as [|fuel IH]; intros n acc; [done|]. rewrite !show_digits_S. cbv zeta.
  case (n <? 10); [done|]. rewrite IH, (IH (n / 10) (String _ "")), str_app_assoc. done.
Qed.

Lemma show_digits_digits fuel n : 0 <= n -> digits (show_digits fuel n "") = true.
Proof.
  revert n. induction fuel as [|fuel IH]; intros n Hn; [done|]. rewrite show_digits_S. cbv zeta.
  assert (digits (String (digit_char (n mod 10)) "") = true) as Hd.
  { cbn. rewrite digit_char_digit; [done|]. apply Z.mod_pos_bound. lia. }
  case (n <? 10); [done|]. rewrite show_digits_app. unfold digits. rewrite str_all_app. unfold digits in IH, Hd.
  rewrite IH, Hd; [done|]. apply Z.div_pos; lia.
Qed.

Lemma show_nat_digits n : 0 <= n -> digits (show_nat n) = true.
Proof. intros Hn. by apply show_digits_digits. Qed.

Lemma show_Z_digits n : 0 <= n -> digits (show_Z n) = true.
Proof. intros Hn. unfold show_Z. destruct (Z.ltb_spec n 0); [lia|]. by apply show_nat_digits. Qed.

Lemma show_Z_head n : 0 <= n -> match show_Z n with EmptyString => False | String c _ => is_digit c = true end.
Proof.
  intros Hn. unfold show_Z. destruct (Z.ltb_spec n 0); [lia|]. destruct (show_nat_head n Hn) as (d & r & -> & Hd & _).
  by apply digit_char_digit.
Qed.

Lemma show_Z_spaceless n : str_all (fun c => negb (is_space c)) (show_Z n) = true.
Proof.
  unfold show_Z. destruct (Z.ltb_spec n 0).
  - apply (plain_spaceless (show_nat (- n))), digits_plain, show_nat_digits. lia.
  - apply plain_spaceless, digits_plain, show_nat_digits. lia.
Qed.

Lemma show_Z_nonempty n : match show_Z n with EmptyString => False | _ => True end.
Proof. destruct (Z.leb_spec 0 n) as [H|H]; [|unfold show_Z; by destruct (Z.ltb_spec n 0); [|lia]]. pose proof (show_Z_head n H). by destruct (show_Z n). Qed.

(** Digits are read up to what follows them. *)
Lemma parse_digits_rest k s rest : digits s = true ->
  match rest with EmptyString => True | String c _ => is_digit c = false end ->
  parse_digits 10 k (s ++ rest) = parse_digits 10 k s.
Proof.
  intros Hs Hr. revert k. induction s as [|c s IH]; intros k.
  - cbn. destruct rest as [|c rest]; [done|]. unfold is_digit in Hr. cbn. by rewrite Hr.
  - cbn in *. apply andb_true_iff in Hs as [Hc Hs]. unfold is_digit in Hc. by rewrite Hc, IH.
Qed.

Lemma show_Z_value n : 0 <= n -> parse_digits 10 0 (show_Z n) = n.
Proof. intros Hn. unfold show_Z. destruct (Z.ltb_spec n 0); [lia|]. by apply parse_show_nat. Qed.

Lemma digit_val_nonneg c : is_digit c = true -> 0 <= digit_val c.
Proof.
  unfold is_digit. intros _. assert (forall c, (0 <=? digit_val c) = true) as H by (by apply each_char).
  by apply Z.leb_le.
Qed.

Lemma parse_digits_grows k s : 0 <= k -> digits s = true -> k <= parse_digits 10 k s.
Proof.
  revert k. induction s as [|c s IH]; intros k Hk Hs; [cbn; lia|]. cbn in *. apply andb_true_iff in Hs as [Hc Hs].
  pose proof (digit_val_nonneg c Hc). unfold is_digit in Hc. rewrite Hc. specialize (IH (k * 10 + digit_val c) ltac:(lia) Hs). lia.
Qed.

Lemma fmt_number_digits k s : 0 <= k -> digits s = true -> parse_digits 10 k s <= 9223372036854775807 ->
  fmt_number k s = Done (parse_digits 10 k s, "").
Proof.
  revert k. induction s as [|c s IH]; intros k Hk Hs Hm; [done|]. cbn in *. apply andb_true_iff in Hs as [Hc Hs].
  pose proof (digit_val_nonneg c Hc) as H0. rewrite Hc. pose proof Hc as Hd. unfold is_digit in Hd. rewrite Hd in *.
  pose proof (parse_digits_grows (k * 10 + digit_val c) s ltac:(lia) Hs).
  rewrite (proj2 (Z.ltb_ge _ _)) by lia. apply IH; [lia|done..].
Qed.

Lemma fmt_number_show n : 0 <= n <= 9223372036854775807 -> fmt_number 0 (show_Z n) = Done (n, "").
Proof. intros Hn. rewrite fmt_number_digits; rewrite ?show_Z_value by lia; try done; [apply show_Z_digits; lia|lia]. Qed.

(** A number in front of something else. *)
Lemma parse_sign_digit s rest : match s with EmptyString => False | String c _ => is_digit c = true end ->
  parse_sign (skip_spaces (s ++ rest)) = (false, s ++ rest).
Proof.
  destruct s as [|c s]; [done|]. intros Hc. destruct (char_classes c) as (Hp & Hs & _ & Hd).
  destruct (Hs (Hp Hc)) as [Es _]. destruct (Hd Hc) as (E1 & E2 & _). cbn. rewrite Es. cbn. by rewrite E1, E2.
Qed.

Lemma strtol10_show n rest : 0 <= n <= 9223372036854775807 ->
  match rest with EmptyString => True | String c _ => is_digit c = false end -> strtol10 (show_Z n ++ rest) = n.
Proof.
  intros Hn Hr. unfold strtol10. rewrite parse_sign_digit by (apply show_Z_head; lia).
  rewrite parse_digits_rest by (done || (apply show_Z_digits; lia)). rewrite show_Z_value by lia. unfold clamp. lia.
Qed.

Lemma strtol_end_show n rest : 0 <= n <= 9223372036854775807 ->
  match rest with EmptyString => True | String c _ => is_digit c = false end -> strtol_end (show_Z n ++ rest) = Some (n, rest).
Proof.
  intros Hn Hr. unfold strtol_end. rewrite parse_sign_digit by (apply show_Z_head; lia). rewrite strtol10_show by done.
  rewrite span_stop.
  - pose proof (show_Z_nonempty n) as Hne. unfold str_len. by destruct (show_Z n).
  - apply (str_all_impl is_digit); [by intros c ->|]. apply show_Z_digits. lia.
  - destruct rest; [done|]. by rewrite Hr.
Qed.

Lemma atoi_show_rest n rest : 0 <= n < 2147483648 ->
  match rest with EmptyString => True | String c _ => is_digit c = false end -> atoi (show_Z n ++ rest) = n.
Proof. intros Hn Hr. unfold atoi. rewrite strtol10_show by (done || lia). apply s32_small. lia. Qed.

(** ** Parameters *)

Definition param_char (c : ascii) : bool := negb (is_space c) && negb (is_char c ";").
Definition param_ok (p : string) : Prop := str_all param_char p = true /\ p <> "".

Fixpoint join (ps : list string) : string :=
  match ps with
  | [] => ""
  | p :: ps => match ps with [] => p | _ => p ++ ";" ++ join ps end
  end.

Fixpoint first_value (key : string) (cap : Z) (ps : list string) : option string :=
  match ps with
  | [] => None
  | p :: ps => match token_value p key cap with Some v => Some v | None => first_value key cap ps end
  end.

Lemma plain_param s : plain s = true -> str_all param_char s = true.
Proof.
  apply str_all_impl. intros c H%char_classes. destruct H as (Hs & Hc & _). unfold param_char. by rewrite Hs, Hc.
Qed.

Lemma param_spaceless s : str_all param_char s = true -> str_all (fun c => negb (is_space c)) s = true.
Proof. apply str_all_impl. unfold param_char. intros c [H _]%andb_true_iff. done. Qed.

Lemma param_stop p rest : str_all param_char p = true ->
  match rest with EmptyString => True | String c _ => is_char c ";" = true end ->
  str_span (fun c => is_char c ";") (p ++ rest) = (p, rest).
Proof.
  intros Hp. apply span_stop. revert Hp. apply str_all_impl. unfold param_char. by intros c [_ H]%andb_true_iff.
Qed.

Lemma skip_separator sep p rest : param_ok p -> sep = "" \/ sep = ";" ->
  str_span (fun c => negb (is_char c ";" || is_space c)) (sep ++ p ++ rest) = (sep, p ++ rest).
Proof.
  intros [Hp Hne] Hsep. apply span_stop.
  - by destruct Hsep as [-> | ->].
  - destruct p as [|c p]; [done|]. cbn in *. unfold param_char in Hp. rewrite !andb_true_iff, !negb_true_iff in Hp.
    destruct Hp as [[-> ->] _]. done.
Qed.

Lemma fmtp_search_join key cap ps fuel sep : Forall param_ok ps -> (length ps < fuel)%nat ->
  sep = "" \/ sep = ";" /\ ps <> [] -> fmtp_search fuel (sep ++ join ps) key cap = first_value key cap ps.
Proof.
  intros Hps. revert fuel sep. induction Hps as [|p ps [Hp Hne] Hps IH]; intros fuel sep Hf Hsep; (destruct fuel as [|fuel]; [lia|]).
  { by destruct Hsep as [-> | [_ ?]]. }
  set (rest := match ps with [] => "" | _ => ";" ++ join ps end).
  assert (join (p :: ps) = p ++ rest) as ->.
  { subst rest. cbn [join]. destruct ps; [by rewrite str_app_nil_r|done]. }
  assert (sep = "" \/ sep = ";") as Hsep' by (destruct Hsep as [|[]]; auto).
  assert (exists c s, sep ++ p ++ rest = String c s) as (c & s & E).
  { destruct Hsep' as [-> | ->]; [|by eexists _, _]. destruct p; [done|]. by eexists _, _. }
  assert (match rest with EmptyString => True | String c _ => is_char c ";" = true end) as Hrest by (subst rest; by destruct ps).
  cbn [fmtp_search]. rewrite E, <-E, skip_separator by done. cbn [snd]. rewrite param_stop by done.
  rewrite rtrim_spaceless by (by apply param_spaceless). cbn [first_value].
  destruct (token_value p key cap); [done|]. cbn in Hf. subst rest.
  destruct ps as [|q ps]; [apply (IH fuel ""); [lia|by left]|]. apply (IH fuel ";"); [lia|by right].
Qed.

Lemma join_length ps : Forall param_ok ps -> (length ps <= String.length (join ps))%nat.
Proof.
  induction 1 as [|p ps [_ Hne] _ IH]; [done|]. cbn [join length]. destruct p as [|c p]; [done|].
  destruct ps as [|q ps]; [cbn; lia|]. assert (forall a b, String.length (a ++ b) = (String.length a + String.length b)%nat) as Happ.
  { intros a b. pose proof (str_len_app a b). unfold str_len in *. lia. }
  rewrite !Happ. cbn [String.length] in *. lia.
Qed.

Lemma get_param_join key cap ps : Forall param_ok ps -> cap <> 0 -> sdp_fmtp_get_param (join ps) key cap = first_value key cap ps.
Proof.
  intros Hps Hc. unfold sdp_fmtp_get_param. rewrite (proj2 (Z.eqb_neq _ _) Hc).
  apply (fmtp_search_join key cap ps _ ""); [done| |by left]. pose proof (join_length ps Hps). lia.
Qed.

Lemma str_take_app_l a b : str_take (String.length a) (a ++ b) = a.
Proof. induction a as [|c a IH]; [by destruct b|]. cbn. by rewrite IH. Qed.

Lemma str_drop_app_l a b : str_drop (String.length a) (a ++ b) = b.
Proof. induction a as [|c a IH]; [by destruct b|]. done. Qed.

Lemma has_prefix_app key s : has_prefix key (key ++ s) = true.
Proof. unfold has_prefix. rewrite str_take_app_l. unfold strcaseeq. apply String.eqb_refl. Qed.

(** The parameter that is asked for, and another one. *)
Lemma token_value_hit key v cap : str_all param_char v = true ->
  token_value (key ++ "=" ++ v) key cap = Some (str_take (Z.to_nat (cap - 1)) v).
Proof.
  intros Hv. unfold token_value. rewrite has_prefix_app, !str_len_app. change (str_len "=") with 1. pose proof (str_len_nonneg v).
  rewrite (proj2 (Z.ltb_lt _ _)) by lia. cbn [andb]. rewrite str_drop_app_l. 
  change (Some (str_take (Z.to_nat (cap - 1)) (sdp_trim v)) = Some (str_take (Z.to_nat (cap - 1)) v)).
  by rewrite trim_spaceless by (by apply param_spaceless).
Qed.

Lemma token_value_miss tok key cap : has_prefix key tok = false -> token_value tok key cap = None.
Proof. unfold token_value. intros ->. by rewrite andb_false_r. Qed.

(** ** Lines *)

Definition cr : string := String "013" EmptyString.

Fixpoint lines_text (ls : list string) : string :=
  match ls with [] => "" | l :: ls => l ++ crlf ++ lines_text ls end.

Lemma split_one l rest : one_line l = true -> split_lines (l ++ String "010" rest) = l :: split_lines rest.
Proof.
  induction l as [|c l IH]; [done|]. unfold one_line in *. cbn. intros [Hc%negb_true_iff Hl]%andb_true_iff. by rewrite Hc, IH.
Qed.

Lemma split_lines_text ls : Forall (fun l => one_line l = true) ls -> split_lines (lines_text ls) = (fun l => l ++ cr) <$> ls.
Proof.
  induction 1 as [|l ls Hl _ IH]; [done|]. cbn [lines_text fmap list_fmap].
  assert (l ++ crlf ++ lines_text ls = (l ++ cr) ++ String "010" (lines_text ls)) as -> by (by rewrite str_app_assoc).
  rewrite split_one, IH; [done|]. unfold one_line in *. rewrite str_all_app, Hl. done.
Qed.

Lemma strip_ends l : ends_ok l = true -> strip_cr (l ++ cr) = l.
Proof.
  induction l as [|c l IH]; [done|]. intros H. destruct l as [|d l].
  - cbn in H. apply negb_true_iff in H. destruct (char_classes c) as (_ & _ & Hc & _). destruct (Hc H) as (_ & E1 & E2).
    cbn. by rewrite E1, E2.
  - change (String c (String d l) ++ cr) with (String c (String d l ++ cr)). cbn [strip_cr]. cbn [strip_cr] in IH.
    by rewrite (IH H).
Qed.

Lemma line_of_exact l : ends_ok l = true -> match l with EmptyString => True | String c _ => is_space c = false end ->
  str_len l < SDP_DEMUXER_MAX_LINE -> line_of (l ++ cr) = l.
Proof.
  intros He Hh Hl. unfold line_of. rewrite strip_ends, str_take_all by (done || (unfold str_len in Hl; lia)). by apply trim_ends.
Qed.

(** The first two characters of a line stay. *)
Lemma line_of_heads a b rest : is_space a = false -> is_space b = false ->
  exists rest', line_of (String a (String b rest)) = String a (String b rest').
Proof.
  intros Ha Hb. destruct (char_classes a) as (_ & _ & Hca & _). destruct (Hca Ha) as (_ & Ea & Ea').
  destruct (char_classes b) as (_ & _ & Hcb & _). destruct (Hcb Hb) as (_ & Eb & Eb').
  assert (exists r, strip_cr (String a (String b rest)) = String a (String b r)) as [r Er].
  { cbn. rewrite Ea, Ea', Eb, Eb'. cbn. destruct (strip_cr rest); eauto. }
  unfold line_of. rewrite Er. assert (exists n, Z.to_nat (SDP_DEMUXER_MAX_LINE - 1) = S (S n)) as [n ->] by (by exists 1021%nat). cbn [str_take].
  unfold sdp_trim. cbn [skip_spaces]. rewrite Ha. generalize (str_take n r). intros r'. cbn [str_rtrim]. rewrite Hb.
  destruct (str_rtrim r') as [|c s]; [by exists ""|by exists (String c s)].
Qed.
