(* ===== verification/SdpMuxSpec.v ===== *)
(** * What the SDP generator writes, the demultiplexer reads: [SdpMux], [SdpText] *)

From Stdlib Require Import Ascii String.
From S2P Require Import Prelude CLib Pad Sha1 Sha1Spec SdpReorder SdpReorderSpec SdpTiming SdpText SdpMux SdpLines SdpDemux SdpDemuxSpec.

Local Open Scope string_scope.
Local Open Scope Z_scope.

#[local] Arguments String.append !_ _ : simpl nomatch.

(** ** Base64 and hexadecimal *)

Definition b64_char (v : Z) : ascii := char_of (rd Base64.b64 v).

Lemma b64_char_ok v : plain_char (b64_char (v mod 64)) = true /\ Z.of_nat (nat_of_ascii (b64_char (v mod 64))) = rd Base64.b64 (v mod 64).
Proof.
  assert (v mod 64 ∈ map Z.of_nat (seq 0 64)) as Hin.
  { apply list_elem_of_In, in_map_iff. exists (Z.to_nat (v mod 64)). pose proof (Z.mod_pos_bound v 64).
    split; [lia|]. apply in_seq. lia. }
  assert (Forall (fun d => (plain_char (b64_char d) && (Z.of_nat (nat_of_ascii (b64_char d)) =? rd Base64.b64 d)) = true)
    (map Z.of_nat (seq 0 64))) as HF by (by repeat constructor).
  rewrite Forall_forall in HF. specialize (HF _ Hin). cbn beta in HF. rewrite !andb_true_iff, Z.eqb_eq in HF. done.
Qed.

(** One round of the loop, on the characters it writes. *)
Lemma base64_round rounds pre a l : is_byte a -> bytes_ok l ->
  let b := default 0 (l !! 0%nat) in
  let c := default 0 (l !! 1%nat) in
  let v := group a b c in
  base64_loop (S rounds) (pre ++ a :: l)%list (zlen pre) =
    String (b64_char (v / 262144 mod 64)) (String (b64_char (v / 4096 mod 64))
      (String (if 1 <=? zlen l then b64_char (v / 64 mod 64) else "="%char)
        (String (if 2 <=? zlen l then b64_char (v mod 64) else "="%char) (base64_loop rounds (pre ++ a :: l)%list (zlen pre + 3))))).
Proof.
  intros Ha Hl b c v. pose proof (zlen_nonneg l). cbn [base64_loop]. rewrite zlen_app, zlen_cons.
  rewrite (proj2 (Z.ltb_lt (zlen pre) _)) by lia. replace (zlen pre + (zlen l + 1) - zlen pre) with (zlen l + 1) by lia.
  assert ((1 <? zlen l + 1) = (1 <=? zlen l)) as -> by lia. assert ((2 <? zlen l + 1) = (2 <=? zlen l)) as -> by lia.
  rewrite rd_after.
  assert ((if 1 <=? zlen l then rd (pre ++ a :: l) (zlen pre + 1) else 0) = b) as ->.
  { destruct l as [|x l]; [done|]. rewrite (proj2 (Z.leb_le _ _)) by (rewrite zlen_cons; pose proof (zlen_nonneg l); lia). apply rd_after1. }
  assert ((if 2 <=? zlen l then rd (pre ++ a :: l) (zlen pre + 2) else 0) = c) as ->.
  { destruct l as [|x [|y l]]; [done..|]. rewrite (proj2 (Z.leb_le _ _)) by (rewrite !zlen_cons; pose proof (zlen_nonneg l); lia).
    replace (zlen pre + 2) with (zlen pre + 1 + 1) by lia. apply rd_after2. }
  assert (is_byte b /\ is_byte c) as [Hb Hc].
  { unfold is_byte. subst b c. destruct l as [|x [|y l]]; cbn; unfold bytes_ok in Hl; rewrite ?Forall_cons in Hl; unfold is_byte in Hl; lia. }
  unfold is_byte in *. rewrite u32_small by (rewrite Z.shiftl_mul_pow2 by lia; lia).
  destruct (group_lor a b c) as (-> & _ & _); [unfold is_byte; lia..|]. fold v. destruct (sextets v) as (-> & -> & -> & ->). done.
Qed.

Lemma base64_loop_spec rounds pre l : (length l <= rounds)%nat -> bytes_ok l ->
  text (base64_loop rounds (pre ++ l)%list (zlen pre)) = encoded l /\
  plain (base64_loop rounds (pre ++ l)%list (zlen pre)) = true.
Proof.
  revert pre l. induction rounds as [|rounds IH]; intros pre l Hl Hok; [by destruct l; [|simpl in Hl; lia]|].
  destruct l as [|a l].
  { cbn [base64_loop]. rewrite app_nil_r. by rewrite Z.ltb_irrefl. }
  apply Forall_cons in Hok as [Ha Hok]. rewrite base64_round by done. cbn [length] in Hl.
  assert (forall v, plain_char (b64_char (v mod 64)) = true) as Hp by apply b64_char_ok.
  assert (forall v, Z.of_nat (nat_of_ascii (b64_char (v mod 64))) = rd Base64.b64 (v mod 64)) as Ht by apply b64_char_ok.
  destruct l as [|b [|c l]]; cbn [lookup list_lookup default from_option id].
  - assert (base64_loop rounds (pre ++ [a])%list (zlen pre + 3) = "" ) as E.
    { destruct rounds; [done|]. cbn [base64_loop]. rewrite zlen_app, zlen_cons, zlen_nil. by rewrite (proj2 (Z.ltb_ge _ _)) by lia. }
    change (1 <=? zlen []) with false. change (2 <=? zlen []) with false. cbn match.
    rewrite E. unfold text, plain. cbn [str_all list_ascii_of_string map encoded]. rewrite !Ht, !Hp. done.
  - assert (base64_loop rounds (pre ++ [a; b])%list (zlen pre + 3) = "" ) as E.
    { destruct rounds; [done|]. cbn [base64_loop]. rewrite zlen_app, !zlen_cons, zlen_nil. by rewrite (proj2 (Z.ltb_ge _ _)) by lia. }
    change (1 <=? zlen [b]) with true. change (2 <=? zlen [b]) with false. cbn match.
    rewrite E. unfold text, plain. cbn [str_all list_ascii_of_string map encoded]. rewrite !Ht, !Hp. done.
  - unfold bytes_ok in Hok. rewrite !Forall_cons in Hok. destruct Hok as (Hb & Hc & Hok).
    destruct (IH (pre ++ [a; b; c])%list l) as [Et Ep]; [cbn in Hl; lia|done|].
    rewrite <-app_assoc, zlen_app in Et, Ep. change (zlen [a; b; c]) with 3 in Et, Ep. cbn [app] in Et, Ep.
    rewrite !(proj2 (Z.leb_le _ (zlen (b :: c :: l)))) by (rewrite !zlen_cons; pose proof (zlen_nonneg l); lia).
    unfold text, plain in *. cbn [str_all list_ascii_of_string map encoded]. by rewrite !Ht, !Hp, Et, Ep.
Qed.

Lemma muxer_base64 l cap : bytes_ok l -> (zlen l + 2) / 3 * 4 < cap ->
  exists s, sdp_muxer_base64 l cap = Some s /\ plain s = true /\ text s = encoded l /\ str_len s = (zlen l + 2) / 3 * 4.
Proof.
  intros Hok Hcap. unfold sdp_muxer_base64, sdp_muxer_b64_len. rewrite (proj2 (Z.ltb_ge _ _)) by lia.
  destruct (base64_loop_spec (length l) [] l) as [Et Ep]; [done..|]. eexists. split; [done|]. split; [done|]. split; [done|].
  rewrite Z.mul_comm, <-zlen_encoded, <-Et. unfold str_len, text, zlen. rewrite length_map.
  change (base64_loop (length l) ([] ++ l)%list (Z.of_nat (length []))) with (base64_loop (length l) l 0).
  generalize (base64_loop (length l) l 0). intros s. induction s as [|c s IH]; [done|]. cbn [String.length list_ascii_of_string length]. lia.
Qed.

(** The decoder gives the bytes back. *)
Lemma decode_muxer_base64 l s : bytes_ok l -> zlen l <= 512 -> text s = encoded l -> Base64.sdp_base64_decode (text s) 512 = Some l.
Proof. intros Hok Hl ->. unfold Base64.sdp_base64_decode. apply (decode_encoded (length l)); [done..|]. rewrite zlen_nil. lia. Qed.

Lemma hex_digit_ok v : plain_char (hex_digit (v mod 16)) = true /\ digit_val (hex_digit (v mod 16)) = v mod 16.
Proof.
  assert (v mod 16 ∈ map Z.of_nat (seq 0 16)) as Hin.
  { apply list_elem_of_In, in_map_iff. exists (Z.to_nat (v mod 16)). pose proof (Z.mod_pos_bound v 16). split; [lia|]. apply in_seq. lia. }
  assert (Forall (fun d => (plain_char (hex_digit d) && (digit_val (hex_digit d) =? d)) = true) (map Z.of_nat (seq 0 16))) as HF
    by (by repeat constructor).
  rewrite Forall_forall in HF. specialize (HF _ Hin). cbn beta in HF. rewrite andb_true_iff, Z.eqb_eq in HF. done.
Qed.

Lemma muxer_hex l p cap n : bytes_ok l -> p + 2 * zlen l < cap -> (length l <= n)%nat ->
  let s := hex_loop l p cap in plain s = true /\ str_len s = 2 * zlen l /\ hex_bytes n s = Some l.
Proof.
  revert p n. induction l as [|b l IH]; intros p n Hok Hp Hn; [by destruct n|]. apply Forall_cons in Hok as [Hb Hok].
  rewrite zlen_cons in Hp. pose proof (zlen_nonneg l). cbn [hex_loop]. rewrite (proj2 (Z.ltb_lt _ _)) by lia. cbv zeta.
  destruct n as [|n]; [cbn in Hn; lia|]. destruct (IH (p + 2) n) as (Ep & El & Eh); [done|lia|cbn in Hn; lia|].
  change 15 with (Z.ones 4). rewrite !Z.land_ones, Z.shiftr_div_pow2 by lia. change (2 ^ 4) with 16.
  destruct (hex_digit_ok (b / 16)) as [P1 V1]. destruct (hex_digit_ok b) as [P2 V2].
  unfold plain in *. cbn [str_all hex_bytes]. rewrite P1, P2, V1, V2. split; [done|]. split.
  { unfold str_len in *. cbn [String.length]. rewrite zlen_cons. lia. }
  pose proof (Z.mod_pos_bound b 16). pose proof (Z.mod_pos_bound (b / 16) 16).
  rewrite !(proj2 (Z.ltb_lt _ 16)) by lia. cbn [andb]. rewrite Eh. cbn. do 2 f_equal. unfold is_byte in Hb. cint.
Qed.

(** ** The text that is generated *)

Definition str_concat (ts : list string) : string := fold_right String.append "" ts.

Lemma str_concat_app ts us : str_concat (ts ++ us) = str_concat ts ++ str_concat us.
Proof. unfold str_concat. induction ts as [|t ts IH]; [done|]. cbn [app fold_right]. by rewrite IH, str_app_assoc. Qed.

Lemma str_take_app n a b : str_take (String.length a + n) (a ++ b) = a ++ str_take n b.
Proof. induction a as [|c a IH]; [done|]. cbn. by rewrite IH. Qed.

Lemma str_take_full n s : (n <= String.length s)%nat -> String.length (str_take n s) = n.
Proof. revert s. induction n as [|n IH]; intros [|c s] H; cbn in *; try lia. rewrite IH; lia. Qed.

Lemma str_take_cut n a b : (n <= String.length a)%nat -> str_take n (a ++ b) = str_take n a.
Proof. revert a. induction n as [|n IH]; intros [|c a] H; cbn in *; try done; try lia. by rewrite IH by lia. Qed.

(** Whatever is appended, the text is all of it cut to the array. *)
Lemma append_cut ts out rem : str_len out + rem = 4096 -> 0 < rem ->
  (fold_left sdp_muxer_append ts (out, rem)).1 = str_take 4095 (out ++ str_concat ts).
Proof.
  revert out rem. induction ts as [|t ts IH]; intros out rem Hr Hpos.
  - cbn [fold_left fst]. change (str_concat []) with "". rewrite str_app_nil_r, str_take_all by (unfold str_len in Hr; lia). done.
  - cbn [fold_left sdp_muxer_append]. rewrite (proj2 (Z.eqb_neq rem 0)) by lia. pose proof (str_len_nonneg t).
    change (str_concat (t :: ts)) with (t ++ str_concat ts). destruct (Z.leb_spec rem (str_len t)) as [Hl|Hl].
    + assert (4095 = String.length out + Z.to_nat (rem - 1))%nat as E by (unfold str_len in *; lia).
      assert (String.length (out ++ str_take (Z.to_nat (rem - 1)) t) = 4095%nat) as El.
      { pose proof (str_len_app out (str_take (Z.to_nat (rem - 1)) t)) as Ea. unfold str_len in *.
        rewrite str_take_full in Ea by lia. lia. }
      rewrite IH by (unfold str_len; rewrite ?El; lia). rewrite str_take_cut by lia. rewrite str_take_all by lia.
      rewrite E, str_take_app. f_equal. symmetry. apply str_take_cut. unfold str_len in *. lia.
    + rewrite IH by (rewrite ?str_len_app; lia). by rewrite str_app_assoc.
Qed.

(** Texts that make up whole lines. *)
Definition whole (ts ls : list string) : Prop := str_concat ts = lines_text ls.

Lemma lines_text_app ls ms : lines_text (ls ++ ms) = lines_text ls ++ lines_text ms.
Proof. induction ls as [|l ls IH]; [done|]. cbn [app lines_text]. by rewrite IH, !str_app_assoc. Qed.

Lemma whole_app ts us ls ms : whole ts ls -> whole us ms -> whole (ts ++ us)%list (ls ++ ms)%list.
Proof. unfold whole. intros E1 E2. rewrite str_concat_app, E1, E2. by rewrite lines_text_app. Qed.

Lemma whole_cons l ts ls : whole ts ls -> whole ((l ++ crlf) :: ts) (l :: ls).
Proof. unfold whole. intros E. change (str_concat ((l ++ crlf) :: ts)) with ((l ++ crlf) ++ str_concat ts). by rewrite E, str_app_assoc. Qed.

Lemma whole_nil : whole [] [].
Proof. done. Qed.

(** A line that says nothing about a track when none is open. *)
Definition header_line (l : string) : Prop :=
  one_line l = true /\ exists a rest, l = String a (String "=" rest) /\ is_space a = false /\ is_char a "m" = false.

Section Parse.
Context `{CMemory} {Hmem : CMemoryOk} (cfg : sdp_config).

Lemma header_parsed raw ls : Forall header_line ls ->
  parse_lines cfg (raw, None) ((fun l => l ++ cr) <$> ls) = Done (raw, None).
Proof.
  induction 1 as [|l ls (_ & a & rest & -> & Ha & Hm) _ IH]; [done|]. cbn [fmap list_fmap parse_lines parse_line].
  destruct (line_of_heads a "=" (rest ++ cr) Ha eq_refl) as [rest' E].
  change (String a (String "=" rest) ++ cr) with (String a (String "=" (rest ++ cr))). rewrite E, Hm. cbn [andb].
  by case (_ && _).
Qed.

Lemma parse_lines_app st ls ms :
  parse_lines cfg st (ls ++ ms) = (st ← parse_lines cfg st ls; parse_lines cfg st ms).
Proof.
  revert st. induction ls as [|l ls IH]; intros st; [done|]. cbn [app parse_lines].
  destruct (parse_line cfg st l) as [st'| |]; [|done..]. cbn [mbind outcome_bind]. apply IH.
Qed.
End Parse.

Lemma session_whole x sid : one_line (ms_name x) = true -> one_line (ms_address x) = true -> one_line (ms_ptp_address x) = true ->
  exists ls, whole (session_texts x sid) ls /\ Forall header_line ls.
Proof.
  intros Hn Ha Hp. unfold session_texts.
  assert (one_line (show_Z sid) = true) as Hs by apply spaceless_line, show_Z_spaceless.
  assert (one_line (show_Z (ms_ptp_domain x)) = true) as Hd by apply spaceless_line, show_Z_spaceless.
  assert (forall a r l, l = String a (String "=" r) -> is_space a = false -> is_char a "m" = false -> one_line l = true -> header_line l) as Hh
    by (unfold header_line; eauto 10).
  unfold one_line in *.
  case (streq _ _).
  - exists ["o=" ++ ms_name x ++ " " ++ show_Z sid ++ " 1 IN IP4 " ++ ms_address x; "s=" ++ ms_name x; "c=IN IP4 " ++ ms_address x;
      "t=0 0"; "a=tool:zstreamer"; "a=keywait:70"; "a=ts-refclk:ptp=IEEE1588-2019:" ++ ms_ptp_address x ++ ":" ++ show_Z (ms_ptp_domain x)].
    split; [unfold whole, str_concat; cbn [fold_right lines_text]; by rewrite !str_app_assoc|].
    repeat (constructor; [eapply Hh; [reflexivity|reflexivity|reflexivity|]; rewrite ?str_all_app, ?Hn, ?Ha, ?Hp, ?Hs, ?Hd; reflexivity|]).
    constructor.
  - exists ["o=- " ++ show_Z sid ++ " 1 IN IP4 " ++ ms_address x; "s=" ++ ms_name x; "c=IN IP4 " ++ ms_address x;
      "t=0 0"; "a=tool:zstreamer"].
    split; [unfold whole, str_concat; cbn [fold_right lines_text]; by rewrite !str_app_assoc|].
    repeat (constructor; [eapply Hh; [reflexivity|reflexivity|reflexivity|]; rewrite ?str_all_app, ?Hn, ?Ha, ?Hp, ?Hs, ?Hd; reflexivity|]).
    constructor.
Qed.

(** ** A media section, read line by line *)

(** A track as its m= line leaves it. *)
Record opened_track (cfg : sdp_config) (ty pt : Z) (t : sdp_track_t) : Prop := {
  ot_type : tr_type t = ty;
  ot_pt : tr_payload_type t = pt;
  ot_pts : tr_payload_types t = [pt];
  ot_encoding : tr_encoding t = "";
  ot_rate : tr_clock_rate t = if ty =? 1 then default_clock_video cfg else default_clock_audio cfg;
  ot_channels : tr_channels t = if ty =? 2 then 2 else 0;
  ot_fmtp : tr_fmtp t = "";
  ot_extra : tr_extra t = None;
  ot_pad : tr_src_pad t = None;
  ot_active : tr_active t = true;
}.

(** What the settings must be for the buffers of a track. *)
Definition settings_ok (cfg : sdp_config) : Prop :=
  config_ok cfg /\ 1 <= jitter_buffer_ms cfg <= 1000000.

Section Media.
Context `{CMemory} {Hmem : CMemoryOk} (cfg : sdp_config) (Hcfg : settings_ok cfg).

Lemma track_buffers_total t : exists t', track_buffers cfg t = Done (Some t') /\ tr_active t' = true /\
  tr_type t' = tr_type t /\ tr_payload_type t' = tr_payload_type t /\ tr_payload_types t' = tr_payload_types t /\
  tr_encoding t' = tr_encoding t /\ tr_clock_rate t' = tr_clock_rate t /\ tr_channels t' = tr_channels t /\
  tr_fmtp t' = tr_fmtp t /\ tr_extra t' = tr_extra t /\ tr_src_pad t' = tr_src_pad t.
Proof.
  destruct Hcfg as [Hc Hj]. unfold config_ok in Hc. unfold track_buffers.
  destruct (reorder_init_ring (reorder_capacity cfg)) as (k & r & ss & -> & _); [lia|]. cbn [mbind outcome_bind Z.eqb negb].
  assert (forall z, 0 <= z <= 2147483647 -> int_of z = Done z) as Hint.
  { intros z Hz. unfold int_of, INT32_MAX. rewrite !(proj2 (Z.leb_le _ _)) by lia. done. }
  rewrite !Hint by nia. cbn [mbind outcome_bind]. eexists. split; [done|]. cbn. by split_and!.
Qed.

Definition track_media (ty : Z) : string := if ty =? 1 then "video" else "audio".

Lemma media_line_total ty port pt : ty = 1 \/ ty = 2 -> 0 <= port -> 0 <= pt <= 127 ->
  exists t, media_line cfg (track_media ty ++ " " ++ show_Z port ++ " RTP/AVP " ++ show_Z pt) = Done (Some t) /\
    opened_track cfg ty pt t.
Proof.
  intros Hty Hport Hpt. pose proof (show_Z_spaceless port) as Hsp. pose proof (show_Z_spaceless pt) as Hst.
  assert (forall n, match show_Z n with EmptyString => False | _ => True end) as Hne by apply show_Z_nonempty.
  assert (ends_ok (show_Z pt) = true) as He.
  { apply spaceless_ends; [done|]. specialize (Hne pt). by destruct (show_Z pt). }
  unfold media_line.
  rewrite trim_ends; [| |by destruct Hty as [-> | ->]].
  2: { apply ends_ok_app. change (" RTP/AVP " ++ show_Z pt) with ((" RTP/AVP " ++ "") ++ show_Z pt).
       apply (ends_ok_app " "), ends_ok_app, ends_ok_app, He. }
  rewrite next_word_first; [|by destruct Hty as [-> | ->]|done|by destruct Hty as [-> | ->]].
  rewrite next_word_blank; [|done|done|apply Hne].
  change (" RTP/AVP " ++ show_Z pt) with (" " ++ "RTP/AVP" ++ (" " ++ show_Z pt)). rewrite next_word_blank by done.
  assert (media_type_of (track_media ty) = ty) as -> by (by destruct Hty as [-> | ->]).
  rewrite (proj2 (Z.eqb_neq ty 0)) by lia. cbn [String.length append fmt_list].
  assert (next_word (String " " (show_Z pt)) = (show_Z pt, "")) as ->.
  { rewrite <-(str_app_nil_r (show_Z pt)) at 1. by apply (next_word_blank (show_Z pt) "" Hst I (Hne pt)). }
  pose proof (Hne pt) as Hnpt. destruct (show_Z pt) as [|d ds] eqn:Ept; [done|]. rewrite <-Ept.
  rewrite fmt_number_show by lia. cbn [mbind outcome_bind]. rewrite (proj2 (Z.leb_le pt 127)) by lia.
  assert (exists n, String.length (show_Z pt) = S n) as [n ->] by (rewrite Ept; eauto).
  cbn [Z.eqb str_len String.length andb]. cbn [fmt_list]. change (next_word "") with ("", ""). cbn [mret outcome_ret mbind outcome_bind].
  unfold sdp_track_add_payload_type, sdp_track_has_payload_type. cbn [tr_payload_types tr_payload_type with_rtpmap existsb orb].
  rewrite (proj2 (Z.ltb_ge pt 0)), (proj2 (Z.ltb_ge 127 pt)) by lia. cbn [orb andb].
  change (zlen [] =? 0) with true. rewrite (proj2 (Z.eqb_neq (-1) pt)) by lia. cbn [orb andb].
  change (zlen [] <? SDP_DEMUXER_MAX_PT_PER_TRACK) with true. cbn match. cbn [app with_payloads tr_payload_types].
  change (zlen [pt] =? 0) with false. cbn match.
  match goal with |- context [track_buffers cfg ?t] => destruct (track_buffers_total t) as (t' & -> & ? & E1 & E2 & E3 & E4 & E5 & E6 & E7 & E8 & E9) end.
  exists t'. split; [done|]. constructor; rewrite ?E1, ?E2, ?E3, ?E4, ?E5, ?E6, ?E7, ?E8, ?E9; done.
Qed.

(** *** Attributes of an open track *)

Lemma attribute_pt_show t pt x : 0 <= pt <= 127 -> tr_payload_types t = [pt] -> ends_ok x = true ->
  match x with EmptyString => True | String c _ => is_space c = false end ->
  attribute_pt t (show_Z pt ++ " " ++ x) = Some (pt, x).
Proof.
  intros Hpt Hts He Hh. unfold attribute_pt. rewrite strtol_end_show by (done || lia).
  unfold sdp_track_has_payload_type. rewrite Hts. cbn [existsb]. rewrite Z.eqb_refl.
  rewrite (proj2 (Z.leb_le 0 pt)), (proj2 (Z.leb_le pt 127)), (proj2 (Z.ltb_ge pt 0)) by lia. cbn [orb andb]. do 2 f_equal.
  unfold sdp_trim. change (skip_spaces (" " ++ x)) with (skip_spaces x). by apply trim_ends.
Qed.

(** The encoding's name, its rate and, for sound, its channels. *)
Definition channels_text (ty ch : Z) : string := if ty =? 1 then "" else "/" ++ show_Z ch.

Lemma rtpmap_line_total ty pt t name rate ch : opened_track cfg ty pt t -> 0 <= pt <= 127 -> (ty = 1 /\ ch = 0) \/ ty = 2 ->
  plain name = true -> str_all (fun c => negb (is_char c "/")) name = true -> name <> "" -> str_len name <= 31 ->
  0 < rate < 2147483648 -> (ty = 2 -> 0 < ch < 2147483648) ->
  rtpmap_line t (show_Z pt ++ " " ++ name ++ "/" ++ show_Z rate ++ channels_text ty ch) = with_rtpmap t pt name rate ch.
Proof.
  intros Ht Hpt Hty Hp Hs Hne Hl Hr Hc. destruct Ht. unfold rtpmap_line.
  assert (ends_ok (show_Z rate ++ channels_text ty ch) = true) as He.
  { unfold channels_text. assert (forall n, ends_ok (show_Z n) = true) as Hn.
    { intros n. apply spaceless_ends; [apply show_Z_spaceless|]. pose proof (show_Z_nonempty n). by destruct (show_Z n). }
    destruct (ty =? 1); [by rewrite str_app_nil_r|]. by apply ends_ok_app, (ends_ok_app "/"). }
  rewrite attribute_pt_show; [|done|done|by apply ends_ok_app, (ends_ok_app "/")|].
  2: { destruct name as [|c name]; [done|]. apply plain_spaceless in Hp. cbn in Hp. by apply andb_true_iff in Hp as [?%negb_true_iff _]. }
  rewrite span_stop by done. cbn [append]. rewrite span_stop; [| |unfold channels_text; by destruct (ty =? 1)].
  2: { apply (str_all_impl is_digit); [|apply show_Z_digits; lia]. intros c Hd. destruct (char_classes c) as (_ & _ & _ & Hx).
       destruct (Hx Hd) as (_ & _ & ->). done. }
  rewrite ot_pt0, Z.eqb_refl, orb_true_r. rewrite atoi_show by lia. rewrite (proj2 (Z.ltb_lt 0 rate)) by lia.
  rewrite str_take_all by (unfold str_len in Hl; lia). cbn [tr_fmtp with_rtpmap]. rewrite ot_fmtp0. cbn [streq String.eqb].
  destruct Hty as [[-> ->]| ->].
  - rewrite ot_type0, ot_channels0. done.
  - change (channels_text 2 ch) with (String "/" (show_Z ch)). cbn match. specialize (Hc eq_refl). rewrite atoi_show by lia.
    by rewrite (proj2 (Z.ltb_lt 0 ch)) by lia.
Qed.

(** A track with its codec, before its parameters. *)
Definition with_codec (t : sdp_track_t) (pt : Z) (name : string) (rate ch : Z) : sdp_track_t := with_rtpmap t pt name rate ch.

Lemma fmtp_line_total t pt ps : tr_payload_types t = [pt] -> tr_payload_type t = pt -> 0 <= pt <= 127 ->
  Forall param_ok ps -> ps <> [] -> str_len (join ps) <= 511 ->
  fmtp_line t (show_Z pt ++ " " ++ join ps) = sdp_parse_fmtp_extradata (with_fmtp t pt (join ps)).
Proof.
  intros Hts Ht Hpt Hps Hne Hl. unfold fmtp_line.
  assert (ends_ok (join ps) = true) as He.
  { induction Hps as [|p ps [Hp Hp0] Hps IH]; [done|]. cbn [join]. destruct ps as [|q ps].
    - by apply spaceless_ends; [apply param_spaceless|].
    - apply ends_ok_app, (ends_ok_app ";"), IH; [done|]. cbn [join] in Hl. rewrite !str_len_app in Hl. cbn [join].
      pose proof (str_len_nonneg p). change (str_len ";") with 1 in Hl. lia. }
  rewrite attribute_pt_show; [|done..|].
  - rewrite Ht, Z.eqb_refl. cbn [orb]. unfold strncpy_n. by rewrite str_take_all by (unfold str_len in Hl; lia).
  - destruct Hps as [|p ps [Hp Hp0] _]; [done|]. apply param_spaceless in Hp. destruct p as [|c p]; [done|]. cbn in Hp.
    apply andb_true_iff in Hp as [?%negb_true_iff _]. cbn [join]. by destruct ps.
Qed.

(** *** The lines of a section *)

Lemma digits_short n : 0 <= n <= UINT64_MAX -> str_len (show_Z n) <= 20.
Proof. apply show_Z_length. Qed.

Lemma open_line raw tr ty port pt : ty = 1 \/ ty = 2 -> 0 <= port <= 65535 -> 0 <= pt <= 127 -> zlen raw < 8 ->
  exists t, parse_line cfg (raw, tr) (("m=" ++ track_media ty ++ " " ++ show_Z port ++ " RTP/AVP " ++ show_Z pt) ++ cr) =
    Done ((raw ++ [t])%list, Some (length raw)) /\ opened_track cfg ty pt t.
Proof.
  intros Hty Hport Hpt Hraw. destruct (media_line_total ty port pt Hty) as (t & E & Ht); [lia|done|]. exists t. split; [|done].
  unfold parse_line. rewrite line_of_exact; [|apply ends_ok_app|done|].
  - match goal with |- context [append "m=" ?x] => change (append "m=" x) with (String "m" (String "=" x)) end.
    change (is_char "m" "m" && is_char "=" "=") with true. cbn match.
    unfold SDP_DEMUXER_MAX_TRACKS. rewrite (proj2 (Z.leb_gt _ _)) by lia. rewrite E. done.
  - apply ends_ok_app, (ends_ok_app " "), ends_ok_app, (ends_ok_app " RTP/AVP "), spaceless_ends; [apply show_Z_spaceless|].
    pose proof (show_Z_nonempty pt). by destruct (show_Z pt).
  - rewrite !str_len_app. pose proof (digits_short port). pose proof (digits_short pt). unfold UINT64_MAX in *.
    assert (str_len (track_media ty) = 5) by (by destruct Hty as [-> | ->]). change (str_len "m=") with 2. change (str_len " ") with 1.
    change (str_len " RTP/AVP ") with 9. unfold SDP_DEMUXER_MAX_LINE. lia.
Qed.

(** An attribute line for the last track. *)
Lemma last_attribute raw t l : ends_ok l = true -> str_len l <= 1021 ->
  match l with EmptyString => True | String c _ => is_space c = false end ->
  parse_line cfg ((raw ++ [t])%list, Some (length raw)) (("a=" ++ l) ++ cr) =
    Done ((raw ++ [attribute_line t l])%list, Some (length raw)).
Proof.
  intros He Hl Hh. unfold parse_line. rewrite line_of_exact; [|by apply ends_ok_app|done|].
  - change ("a=" ++ l) with (String "a" (String "=" l)). change (is_char "a" "m" && is_char "=" "=") with false. change (is_char "a" "a" && is_char "=" "=") with true.
    cbn match. rewrite <-(Nat.add_0_r (length raw)) at 1. by rewrite alter_app_r.
  - rewrite str_len_app. change (str_len "a=") with 2. unfold SDP_DEMUXER_MAX_LINE. lia.
Qed.

Lemma attribute_rtpmap t x : ends_ok x = true -> match x with EmptyString => True | String c _ => is_space c = false end ->
  attribute_line t ("rtpmap:" ++ x) = rtpmap_line t x.
Proof.
  intros He Hh. unfold attribute_line. rewrite (trim_ends (_ ++ x)) by (done || by apply (ends_ok_app "rtpmap:")). rewrite has_prefix_app.
  change (str_drop 7 ("rtpmap:" ++ x)) with (str_drop (String.length "rtpmap:") ("rtpmap:" ++ x)). rewrite str_drop_app_l.
  by rewrite trim_ends.
Qed.

Lemma attribute_fmtp t x : ends_ok x = true -> match x with EmptyString => True | String c _ => is_space c = false end ->
  attribute_line t ("fmtp:" ++ x) = fmtp_line t x.
Proof.
  intros He Hh. unfold attribute_line. rewrite (trim_ends (_ ++ x)) by (done || by apply (ends_ok_app "fmtp:")).
  change (has_prefix "rtpmap:" ("fmtp:" ++ x)) with false. cbn match. rewrite has_prefix_app.
  change (str_drop 5 ("fmtp:" ++ x)) with (str_drop (String.length "fmtp:") ("fmtp:" ++ x)). rewrite str_drop_app_l.
  by rewrite trim_ends.
Qed.
End Media.

(** ** What a section says *)

Definition long_code : bytes := [0; 0; 0; 1].
Definition start_coded (sets : list bytes) : bytes := concat ((app long_code) <$> sets).

Definition section_lines (ty port pt : Z) (map : string) (ps : list string) (track : string) : list string :=
  ["m=" ++ track_media ty ++ " " ++ show_Z port ++ " RTP/AVP " ++ show_Z pt;
   "a=" ++ ("rtpmap:" ++ (show_Z pt ++ " " ++ map));
   "a=" ++ ("fmtp:" ++ (show_Z pt ++ " " ++ join ps));
   "a=" ++ ("control:trackID=" ++ track)].

(** A set in Base64. *)
Definition codes (s : string) (l : bytes) : Prop :=
  plain s = true /\ text s = encoded l /\ bytes_ok l /\ 0 < zlen l <= 512.

Lemma plain_one_line s : plain s = true -> one_line s = true.
Proof. intros H. by apply spaceless_line, plain_spaceless. Qed.

Lemma join_ends ps : Forall param_ok ps -> ps <> [] -> ends_ok (join ps) = true.
Proof.
  intros Hps Hne. induction Hps as [|p ps [Hp Hp0] Hps IH]; [done|]. cbn [join]. destruct ps as [|q ps].
  - by apply spaceless_ends; [apply param_spaceless|].
  - by apply ends_ok_app, (ends_ok_app ";"), IH.
Qed.

Lemma join_one_line ps : Forall param_ok ps -> one_line (join ps) = true.
Proof.
  induction 1 as [|p ps [Hp _] Hps IH]; [done|]. apply param_spaceless, spaceless_line in Hp. unfold one_line in *. cbn [join].
  destruct ps as [|q ps]; [done|]. by rewrite !str_all_app, Hp, IH.
Qed.

Lemma map_ends name rate ty ch : ends_ok (name ++ "/" ++ show_Z rate ++ channels_text ty ch) = true.
Proof.
  assert (forall n, ends_ok (show_Z n) = true) as Hn.
  { intros n. apply spaceless_ends; [apply show_Z_spaceless|]. pose proof (show_Z_nonempty n). by destruct (show_Z n). }
  apply ends_ok_app, (ends_ok_app "/"). unfold channels_text. destruct (ty =? 1); [by rewrite str_app_nil_r|].
  by apply ends_ok_app, (ends_ok_app "/").
Qed.

Lemma map_short name rate ty ch : str_len name <= 31 -> 0 < rate < 2147483648 -> (ty = 1 /\ ch = 0) \/ ty = 2 ->
  (ty = 2 -> 0 < ch < 2147483648) -> str_len (name ++ "/" ++ show_Z rate ++ channels_text ty ch) <= 74.
Proof.
  intros Hn Hr Hty Hc. unfold channels_text. rewrite !str_len_app. change (str_len "/") with 1.
  pose proof (show_Z_length rate ltac:(unfold UINT64_MAX; lia)) as Hrl. fold (str_len (show_Z rate)) in Hrl. destruct Hty as [[-> _] | ->].
  - change (str_len (if 1 =? 1 then _ else _)) with 0. lia.
  - change (if 2 =? 1 then _ else ?x) with x. rewrite str_len_app. change (str_len "/") with 1. specialize (Hc eq_refl).
    pose proof (show_Z_length ch ltac:(unfold UINT64_MAX; lia)) as Hcl. fold (str_len (show_Z ch)) in Hcl. lia.
Qed.

Section Sections.
Context `{CMemory} {Hmem : CMemoryOk} (cfg : sdp_config) (Hcfg : settings_ok cfg).

Lemma section_parsed raw tr ty port pt name rate ch ps track : (ty = 1 /\ ch = 0) \/ ty = 2 ->
  0 <= port <= 65535 -> 0 <= pt <= 127 -> zlen raw < 8 ->
  plain name = true -> str_all (fun c => negb (is_char c "/")) name = true -> name <> "" -> str_len name <= 31 ->
  0 < rate < 2147483648 -> (ty = 2 -> 0 < ch < 2147483648) ->
  Forall param_ok ps -> ps <> [] -> str_len (join ps) <= 511 -> track = "0" \/ track = "1" ->
  exists t, opened_track cfg ty pt t /\
    parse_lines cfg (raw, tr) ((fun l => l ++ cr) <$>
      section_lines ty port pt (name ++ "/" ++ show_Z rate ++ channels_text ty ch) ps track) =
    Done ((raw ++ [sdp_parse_fmtp_extradata (with_fmtp (with_rtpmap t pt name rate ch) pt (join ps))])%list, Some (length raw)).
Proof.
  intros Hty Hport Hpt Hraw Hp Hs Hne Hnl Hr Hc Hps Hpne Hl Htrack.
  destruct (open_line cfg Hcfg raw tr ty port pt) as (t & E & Ht); [lia..|]. exists t. split; [done|].
  set (m := name ++ "/" ++ show_Z rate ++ channels_text ty ch).
  assert (forall x, match show_Z pt ++ x with EmptyString => True | String c _ => is_space c = false end) as Hhead.
  { intros x. pose proof (show_Z_head pt ltac:(lia)) as Hd. destruct (show_Z pt) as [|c s]; [done|]. cbn.
    destruct (char_classes c) as (Hpl & Hsp & _). by destruct (Hsp (Hpl Hd)). }
  assert (ends_ok m = true) as Hm by apply map_ends. assert (ends_ok (join ps) = true) as Hj by (by apply join_ends).
  pose proof (digits_short pt ltac:(unfold UINT64_MAX; lia)) as Hptl. pose proof (digits_short rate ltac:(unfold UINT64_MAX; lia)) as Hrl.
  assert (str_len m <= 74) as Hml by (by apply map_short).
  unfold section_lines. cbn [fmap list_fmap parse_lines]. rewrite E. cbn [mbind outcome_bind].
  rewrite last_attribute; [|by apply (ends_ok_app "rtpmap:"), ends_ok_app, (ends_ok_app " ")| |done].
  2: { rewrite !str_len_app. change (str_len "rtpmap:") with 7. change (str_len " ") with 1. lia. }
  rewrite attribute_rtpmap by (try apply Hhead; by apply ends_ok_app, (ends_ok_app " ")). unfold m at 1.
  rewrite (rtpmap_line_total cfg ty pt t name rate ch) by done. cbn [mbind outcome_bind].
  rewrite last_attribute; [|by apply (ends_ok_app "fmtp:"), ends_ok_app, (ends_ok_app " ")| |done].
  2: { rewrite !str_len_app. change (str_len "fmtp:") with 5. change (str_len " ") with 1. lia. }
  rewrite attribute_fmtp by (try apply Hhead; by apply ends_ok_app, (ends_ok_app " ")).
  rewrite fmtp_line_total by (done || apply Ht). cbn [mbind outcome_bind].
  rewrite last_attribute by (by destruct Htrack as [-> | ->]). cbn [mbind outcome_bind mret outcome_ret].
  by destruct Htrack as [-> | ->].
Qed.

(** *** Parameter sets *)

Lemma append_decoded_codes t s l : codes s l ->
  append_decoded t s = with_extra t (Some (default [] (tr_extra t) ++ long_code ++ l)%list).
Proof.
  intros (_ & Et & Hok & Hl). unfold append_decoded. rewrite (decode_muxer_base64 l) by (done || lia).
  rewrite (proj2 (Z.ltb_lt 0 _)) by lia. unfold sdp_append_extradata. rewrite (proj2 (Z.leb_gt _ _)) by lia.
  by rewrite malloc_total.
Qed.

Lemma codes_nonempty s l : codes s l -> exists c r, s = String c r.
Proof.
  intros (_ & Et & _ & Hl). destruct s as [|c r]; [|eauto]. destruct l as [|a [|b [|d l]]]; [unfold zlen in Hl; cbn in Hl; lia| | |]; cbn [text encoded] in Et; discriminate Et.
Qed.

Lemma plain_commaless s : plain s = true -> str_all (fun c => negb (is_char c ",")) s = true.
Proof. apply str_all_impl. intros c H1%char_classes. by destruct H1 as (_ & _ & ->). Qed.

Lemma h264_extradata t a b sps pps : codes a sps -> codes b pps ->
  sdp_encoding_is_h264 (tr_encoding t) = true -> streq (tr_fmtp t) "" = false ->
  sdp_fmtp_get_param (tr_fmtp t) "sprop-parameter-sets" 512 = Some (a ++ "," ++ b) ->
  sdp_parse_fmtp_extradata t = with_extra t (Some (start_coded [sps; pps])).
Proof.
  intros Ha Hb Henc Hf Hget. unfold sdp_parse_fmtp_extradata. rewrite Hf.
  change (tr_encoding (with_extra t None)) with (tr_encoding t). rewrite Henc.
  change (tr_fmtp (with_extra t None)) with (tr_fmtp t). rewrite Hget.
  destruct (codes_nonempty _ _ Ha) as (ca & ra & Ea). destruct (codes_nonempty _ _ Hb) as (cb & rb & Eb).
  assert (exists n, String.length (a ++ "," ++ b) = S n) as [n ->] by (rewrite Ea; by eexists).
  pose proof (proj1 Ha) as Hpa. pose proof (proj1 Hb) as Hpb.
  assert (exists c r, a ++ "," ++ b = String c r) as (c & r & Eab) by (rewrite Ea; by eexists _, _).
  cbn [append_tokens]. rewrite Eab, <-Eab. rewrite span_stop by (done || by apply plain_commaless). change (str_drop 1 ("," ++ b)) with b.
  rewrite trim_spaceless by (by apply plain_spaceless). rewrite (append_decoded_codes _ _ sps) by done.
  rewrite Eb, <-Eb. rewrite <-(str_app_nil_r b) at 1. rewrite span_stop by (done || by apply plain_commaless).
  rewrite trim_spaceless by (by apply plain_spaceless). rewrite (append_decoded_codes _ _ pps) by done.
  destruct n; cbn; by rewrite app_nil_r, <-?app_assoc.
Qed.

Lemma h265_extradata t a b c vps sps pps : codes a vps -> codes b sps -> codes c pps ->
  sdp_encoding_is_h264 (tr_encoding t) = false -> sdp_encoding_is_h265 (tr_encoding t) = true -> streq (tr_fmtp t) "" = false ->
  sdp_fmtp_get_param (tr_fmtp t) "sprop-vps" 512 = Some a -> sdp_fmtp_get_param (tr_fmtp t) "sprop-sps" 512 = Some b ->
  sdp_fmtp_get_param (tr_fmtp t) "sprop-pps" 512 = Some c ->
  sdp_parse_fmtp_extradata t = with_extra t (Some (start_coded [vps; sps; pps])).
Proof.
  intros Ha Hb Hc H4 H5 Hf Ga Gb Gc. unfold sdp_parse_fmtp_extradata. rewrite Hf.
  change (tr_encoding (with_extra t None)) with (tr_encoding t). rewrite H4, H5. cbn [fold_left].
  change (tr_fmtp (with_extra t None)) with (tr_fmtp t). rewrite Ga, (append_decoded_codes _ _ vps) by done.
  match goal with |- context [tr_fmtp (with_extra ?u ?x)] => change (tr_fmtp (with_extra u x)) with (tr_fmtp t) end.
  rewrite Gb, (append_decoded_codes _ _ sps) by done.
  match goal with |- context [tr_fmtp (with_extra ?u ?x)] => change (tr_fmtp (with_extra u x)) with (tr_fmtp t) end.
  rewrite Gc, (append_decoded_codes _ _ pps) by done. cbn. by rewrite app_nil_r, <-!app_assoc.
Qed.

Lemma aac_extradata t s config : hex_bytes 128 s = Some config -> str_len s = 2 * zlen config -> 0 < zlen config ->
  sdp_encoding_is_h264 (tr_encoding t) = false -> sdp_encoding_is_h265 (tr_encoding t) = false ->
  sdp_encoding_is_aac (tr_encoding t) = true -> streq (tr_fmtp t) "" = false ->
  sdp_fmtp_get_param (tr_fmtp t) "config" 256 = Some s ->
  sdp_parse_fmtp_extradata t = with_extra t (Some config).
Proof.
  intros Hh Hl Hc H4 H5 Ha Hf G. unfold sdp_parse_fmtp_extradata. rewrite Hf.
  change (tr_encoding (with_extra t None)) with (tr_encoding t). rewrite H4, H5, Ha.
  change (tr_fmtp (with_extra t None)) with (tr_fmtp t). rewrite G, Hl, Z.odd_mul, Hh. cbn [Z.odd andb].
  rewrite (proj2 (Z.ltb_lt _ _)) by done. unfold sdp_append_extradata. rewrite (proj2 (Z.leb_gt _ _)) by lia. by rewrite malloc_total.
Qed.
End Sections.

(** ** From the generator's state to the demultiplexer's tracks *)

(** What the demultiplexer is to know of a medium. *)
Record describes (ty pt : Z) (enc : string) (rate ch : Z) (extra : bytes) (t : sdp_track_t) : Prop := {
  ds_type : tr_type t = ty;
  ds_pt : tr_payload_type t = pt;
  ds_pts : tr_payload_types t = [pt];
  ds_encoding : tr_encoding t = enc;
  ds_rate : tr_clock_rate t = rate;
  ds_channels : tr_channels t = ch;
  ds_extra : tr_extra t = Some extra;
  ds_active : tr_active t = true;
}.

(** A parameter set in the generator's array. *)
Definition set_ok (l : bytes) : Prop := bytes_ok l /\ 0 < zlen l <= SDP_MUXER_EXTRA_MAX.

(** Sets found in the stream, not given as text by the capabilities, and short enough for
    the demultiplexer's line of parameters. *)
Inductive video_ready (s : sdp_muxer_t) : string -> list bytes -> Prop :=
| H264_ready sps pps profile :
    sdp_muxer_is_h264 s = true -> mx_h264 s = mk_mux_h264 sps pps "" profile -> set_ok sps -> set_ok pps ->
    plain profile = true ->
    sdp_muxer_b64_len (zlen sps) + sdp_muxer_b64_len (zlen pps) + str_len profile <= 450 ->
    video_ready s "H264" [sps; pps]
| H265_ready vps sps pps :
    sdp_muxer_is_h265 s = true -> mx_h265 s = mk_mux_h265 vps sps pps "" "" "" -> set_ok vps -> set_ok sps -> set_ok pps ->
    sdp_muxer_b64_len (zlen vps) + sdp_muxer_b64_len (zlen sps) + sdp_muxer_b64_len (zlen pps) <= 479 ->
    video_ready s "H265" [vps; sps; pps].

Definition audio_ready (a : mux_audio) : Prop :=
  strcaseeq (ma_codec a) "aac" = true /\ 0 < ma_rate a < 2147483648 /\ 0 < ma_channels a < 2147483648 /\
  bytes_ok (ma_config a) /\ zlen (ma_config a) <= 8.

Lemma case_other c a b : strcaseeq c a = true -> streq (str_lower a) (str_lower b) = false -> strcaseeq c b = false.
Proof. unfold strcaseeq, streq. intros ->%String.eqb_eq. done. Qed.

Lemma h264_not_h265 s : sdp_muxer_is_h264 s = true -> sdp_muxer_is_h265 s = false.
Proof.
  unfold sdp_muxer_is_h264, sdp_muxer_is_h265. cbv zeta. intros [H|H]%orb_true_iff;
    by rewrite !(case_other _ _ _ H) by done.
Qed.

Lemma set_codes l : set_ok l -> exists s, sdp_muxer_base64 l 768 = Some s /\ codes s l /\ str_len s = sdp_muxer_b64_len (zlen l).
Proof.
  unfold set_ok, SDP_MUXER_EXTRA_MAX. intros [Hok Hl].
  destruct (muxer_base64 l 768 Hok) as (s & E & Hp & Ht & Hn).
  { assert ((zlen l + 2) / 3 < 172); [|lia]. apply Z.div_lt_upper_bound; lia. }
  exists s. split; [done|]. by split.
Qed.

Lemma codes_ne s l : codes s l -> nonempty s = true /\ plain s = true.
Proof. intros Hc. destruct (codes_nonempty _ _ Hc) as (c & r & ->). split; [done|]. apply Hc. Qed.

(** A parameter with a value. *)
Lemma param_of k v : str_all param_char k = true -> k <> "" -> str_all param_char v = true -> param_ok (k ++ v).
Proof. intros Hk Hne Hv. split; [by rewrite str_all_app, Hk, Hv|]. by destruct k. Qed.

Lemma param_value k key v cap : k = key ++ "=" -> str_all param_char v = true -> str_len v < cap ->
  token_value (k ++ v) key cap = Some v.
Proof.
  intros -> Hv Hl. rewrite str_app_assoc, token_value_hit by done. rewrite str_take_all; [done|]. unfold str_len in Hl. lia.
Qed.

Ltac flat := unfold whole, str_concat, section_lines, media_texts, rtpmap_text, control_text, track_media; cbn [Z.eqb Pos.eqb app fold_right lines_text join];
  rewrite ?str_app_assoc; cbn [append]; reflexivity.

(** The video section is four lines, and its parameters carry the sets. *)
Section Texts.
Context `{CMemory} {Hmem : CMemoryOk}.

Definition section_of (texts : list string) (ty port pt : Z) (map track : string) (carries : string -> Prop) : Prop :=
  exists ps, whole texts (section_lines ty port pt map ps track) /\ Forall param_ok ps /\ ps <> [] /\
    str_len (join ps) <= 511 /\ carries (join ps).

Definition fills (enc : string) (extra : bytes) (fmtp : string) : Prop :=
  forall t, tr_encoding t = enc -> tr_fmtp t = fmtp -> sdp_parse_fmtp_extradata t = with_extra t (Some extra).

Lemma h264_section s sps pps profile : sdp_muxer_is_h264 s = true -> mx_h264 s = mk_mux_h264 sps pps "" profile ->
  set_ok sps -> set_ok pps -> plain profile = true ->
  sdp_muxer_b64_len (zlen sps) + sdp_muxer_b64_len (zlen pps) + str_len profile <= 450 ->
  section_of (video_texts s) 1 (mv_port (mx_video s)) (mv_pt (mx_video s)) ("H264" ++ "/90000") "0" (fills "H264" (start_coded [sps; pps])).
Proof.
  intros Hc Eh Hs Hp Hpl Hlen. unfold video_texts.
  rewrite h264_not_h265, Hc by done. unfold h264_texts, h264_sets. rewrite Eh. cbn [h264_sprop h264_sps h264_pps h264_profile_level_id].
  destruct (set_codes sps Hs) as (a & Ea & Ha & La). destruct (set_codes pps Hp) as (b & Eb & Hb & Lb). destruct Hs as [Hs Hsl], Hp as [Hp' Hpl'].
  rewrite !(proj2 (Z.ltb_lt 0 _)) by lia. rewrite Ea, Eb. cbn [default from_option id]. change (if nonempty "" then sprop_halves "" else ("", "")) with ("", ""). cbn match.
  change (nonempty "") with false. cbn [negb andb].
  destruct (codes_ne _ _ Ha) as [-> Hpa], (codes_ne _ _ Hb) as [-> Hpb]. cbn [andb].
  set (prof := if nonempty profile then ["profile-level-id=" ++ profile] else []).
  exists (["packetization-mode=1"] ++ prof ++ ["sprop-parameter-sets=" ++ (a ++ "," ++ b)]%string)%list.
  assert (str_all param_char (a ++ "," ++ b) = true) as Hab by (by rewrite !str_all_app, (plain_param a), (plain_param b) by done).
  assert (Forall param_ok (["packetization-mode=1"] ++ prof ++ ["sprop-parameter-sets=" ++ (a ++ "," ++ b)]%string)%list) as Hps.
  { apply Forall_app. split; [by repeat constructor|]. apply Forall_app. split.
    - unfold prof. destruct (nonempty profile); [|done]. constructor; [|done]. (apply param_of; [done|done|by apply plain_param]).
    - constructor; [|done]. apply param_of; done. }
  split; [|split; [done|split; [done|]]].
  { unfold prof. destruct (nonempty profile); flat. }
  split.
  { pose proof (str_len_nonneg profile). unfold prof. destruct (nonempty profile); cbn [app join]; rewrite !str_len_app, La, Lb;
      change (str_len "packetization-mode=1") with 20; change (str_len ";") with 1; change (str_len ",") with 1;
      change (str_len "profile-level-id=") with 17; change (str_len "sprop-parameter-sets=") with 21; lia. }
  intros t Ht Hf. apply (h264_extradata t a b); try done.
  + by rewrite Ht.
  + rewrite Hf. by destruct prof.
  + rewrite Hf, get_param_join by done. unfold prof. destruct (nonempty profile); cbn [app first_value];
      rewrite !token_value_miss by done; rewrite (param_value _ "sprop-parameter-sets" (a ++ "," ++ b)); try done;
      rewrite !str_len_app, La, Lb; change (str_len ",") with 1; pose proof (str_len_nonneg profile); lia.
Qed.

Lemma h265_section s vps sps pps : sdp_muxer_is_h265 s = true -> mx_h265 s = mk_mux_h265 vps sps pps "" "" "" ->
  set_ok vps -> set_ok sps -> set_ok pps ->
  sdp_muxer_b64_len (zlen vps) + sdp_muxer_b64_len (zlen sps) + sdp_muxer_b64_len (zlen pps) <= 479 ->
  section_of (video_texts s) 1 (mv_port (mx_video s)) (mv_pt (mx_video s)) ("H265" ++ "/90000") "0" (fills "H265" (start_coded [vps; sps; pps])).
Proof.
  intros Hc Eh Hv Hs Hp Hlen. unfold video_texts.
  rewrite Hc. unfold h265_texts, sprop_or. rewrite Eh. cbn [h265_vps h265_sps h265_pps h265_sprop_vps h265_sprop_sps h265_sprop_pps].
  destruct (set_codes vps Hv) as (a & Ea & Ha & La). destruct (set_codes sps Hs) as (b & Eb & Hb & Lb). destruct (set_codes pps Hp) as (c & Ec & Hcc & Lc).
  destruct Hv as [Hv Hvl], Hs as [Hs Hsl], Hp as [Hp' Hpl'].
  rewrite !(proj2 (Z.ltb_lt 0 _)) by lia. change (nonempty "") with false. cbn match. rewrite Ea, Eb, Ec. cbn [default from_option id].
  destruct (codes_ne _ _ Ha) as [-> Hpa], (codes_ne _ _ Hb) as [-> Hpb], (codes_ne _ _ Hcc) as [-> Hpc]. cbn [orb].
  exists ["sprop-vps=" ++ a; "sprop-sps=" ++ b; "sprop-pps=" ++ c].
  assert (Forall param_ok ["sprop-vps=" ++ a; "sprop-sps=" ++ b; "sprop-pps=" ++ c]) as Hps.
  { constructor; [(apply param_of; [done|done|by apply plain_param])|]. constructor; [(apply param_of; [done|done|by apply plain_param])|].
    constructor; [(apply param_of; [done|done|by apply plain_param])|done]. }
  split; [flat|split; [done|split; [done|]]]. split.
  { cbn [join]. rewrite !str_len_app, La, Lb, Lc.
    change (str_len ";") with 1. change (str_len "sprop-vps=") with 10. change (str_len "sprop-sps=") with 10.
    change (str_len "sprop-pps=") with 10. lia. }
  pose proof (str_len_nonneg a). pose proof (str_len_nonneg b). pose proof (str_len_nonneg c).
  intros t Ht Hf. apply (h265_extradata t a b c); try done; try (by rewrite Ht); try (by rewrite Hf);
    rewrite Hf, get_param_join by done; cbn [first_value].
  + by rewrite (param_value _ "sprop-vps" a) by (done || lia || by apply plain_param).
  + rewrite token_value_miss by done. by rewrite (param_value _ "sprop-sps" b) by (done || lia || by apply plain_param).
  + rewrite !token_value_miss by done. by rewrite (param_value _ "sprop-pps" c) by (done || lia || by apply plain_param).
Qed.

Lemma video_section s enc sets : video_ready s enc sets ->
  section_of (video_texts s) 1 (mv_port (mx_video s)) (mv_pt (mx_video s)) (enc ++ "/90000") "0" (fills enc (start_coded sets)).
Proof. destruct 1; [by eapply h264_section|by eapply h265_section]. Qed.

(** The configuration made up from the properties, if there is none. *)
Lemma made_config a : audio_ready a -> audio_ready (make_aac_config a) /\ 0 < zlen (ma_config (make_aac_config a)) /\
  make_aac_config (make_aac_config a) = make_aac_config a.
Proof.
  intros (Hc & Hr & Hch & Hok & Hl). unfold make_aac_config. destruct (Z.ltb_spec 0 (zlen (ma_config a))) as [H0|H0].
  - rewrite (proj2 (Z.ltb_lt _ _)) by done. by split_and!.
  - split; [|by split]. unfold audio_ready. cbn [ma_codec ma_rate ma_channels ma_config with_aac].
    do 3 (split; [done|]). split; [|done]. unfold asc_bytes. repeat (constructor; [apply u8_range|]). constructor.
Qed.

Lemma audio_codec_aac s : audio_ready (mx_audio s) ->
  sdp_muxer_is_audio_codec s "opus" = false /\ sdp_muxer_is_audio_codec s "pcmu" = false /\ sdp_muxer_is_audio_codec s "pcma" = false /\
  sdp_muxer_is_audio_codec s "l16" || sdp_muxer_is_audio_codec s "l24" || sdp_muxer_is_audio_codec s "l32" || sdp_muxer_is_audio_codec s "pcm" = false.
Proof. intros [Hc _]. unfold sdp_muxer_is_audio_codec. by rewrite !(case_other _ _ _ Hc) by done. Qed.

Lemma audio_section s : audio_ready (mx_audio s) -> make_aac_config (mx_audio s) = mx_audio s -> 0 < zlen (ma_config (mx_audio s)) ->
  let a := mx_audio s in
  section_of (audio_texts s) 2 (ma_port a) (ma_pt a) ("MPEG4-GENERIC/" ++ show_Z (ma_rate a) ++ "/" ++ show_Z (ma_channels a)) "1"
    (fills "MPEG4-GENERIC" (ma_config a)).
Proof.
  intros Ha Em H0. unfold audio_texts. destruct (audio_codec_aac s Ha) as (-> & -> & -> & ->). rewrite Em. unfold aac_texts, rate_map, sdp_muxer_hex.
  destruct Ha as (_ & _ & _ & Hok & Hl). destruct (muxer_hex (ma_config (mx_audio s)) 0 32 128) as (Hp & Hn & Hx); [done|lia|unfold zlen in *; lia|].
  set (h := hex_loop (ma_config (mx_audio s)) 0 32) in *. cbv zeta in Hn, Hx, Hp.
  set (ps := ["streamtype=5"; "profile-level-id=1"; "mode=AAC-hbr"; "config=" ++ h; "SizeLength=13"; "IndexLength=3"; "IndexDeltaLength=3"]).
  assert (Forall param_ok ps) as Hps.
  { subst ps. repeat (constructor; [first [by split|apply param_of; [done|done|by apply plain_param]]|]). constructor. }
  exists ps. split; [unfold ps; flat|]. split; [done|]. split; [done|]. split.
  { subst ps. cbn [join]. rewrite !str_len_app, Hn. change (str_len "streamtype=5") with 12. change (str_len ";") with 1.
    change (str_len "profile-level-id=1") with 18. change (str_len "mode=AAC-hbr") with 12. change (str_len "config=") with 7.
    change (str_len "SizeLength=13") with 13. change (str_len "IndexLength=3") with 13. change (str_len "IndexDeltaLength=3") with 18. lia. }
  intros t Ht Hf. apply (aac_extradata t h); try done; try (by rewrite Ht); [by rewrite Hf|].
  rewrite Hf, get_param_join by done. subst ps. cbn [first_value]. rewrite !token_value_miss by done.
  rewrite (param_value _ "config" h); [done|done|by apply plain_param|lia].
Qed.
End Texts.

(** ** The description is read back *)

Section Roundtrip.
Context `{CMemory} {Hmem : CMemoryOk} (cfg : sdp_config) (Hcfg : settings_ok cfg).

Lemma section_lines_one ty port pt map ps track : ty = 1 \/ ty = 2 -> one_line map = true -> Forall param_ok ps ->
  one_line track = true -> Forall (fun l => one_line l = true) (section_lines ty port pt map ps track).
Proof.
  intros Hty Hm Hps Ht. pose proof (join_one_line ps Hps) as Hj.
  assert (forall n, one_line (show_Z n) = true) as Hn by (intros n; apply spaceless_line, show_Z_spaceless).
  unfold one_line in *. unfold section_lines.
  repeat (constructor; [rewrite !str_all_app, ?Hn, ?Hm, ?Hj, ?Ht; by destruct Hty as [-> | ->]|]). constructor.
Qed.

Lemma section_short ty port pt map ps track : ty = 1 \/ ty = 2 -> 0 <= port <= 65535 -> 0 <= pt <= 127 -> str_len map <= 74 ->
  str_len (join ps) <= 511 -> str_len track <= 1 -> str_len (lines_text (section_lines ty port pt map ps track)) <= 800.
Proof.
  intros Hty Hport Hpt Hm Hj Ht. unfold section_lines. cbn [lines_text]. rewrite !str_len_app.
  pose proof (digits_short port ltac:(unfold UINT64_MAX; lia)). pose proof (digits_short pt ltac:(unfold UINT64_MAX; lia)).
  assert (str_len (track_media ty) = 5) as -> by (by destruct Hty as [-> | ->]).
  change (str_len "m=") with 2. change (str_len "a=") with 2. change (str_len " RTP/AVP ") with 9. change (str_len "rtpmap:") with 7.
  change (str_len "fmtp:") with 5. change (str_len "control:trackID=") with 16. change (str_len " ") with 1. change (str_len crlf) with 2.
  change (str_len "") with 0. lia.
Qed.

Lemma section_reads raw tr texts ty port pt name rate ch track extra : (ty = 1 /\ ch = 0) \/ ty = 2 ->
  0 <= port <= 65535 -> 0 <= pt <= 127 -> zlen raw < 8 -> name ∈ ["H264"; "H265"; "MPEG4-GENERIC"] ->
  (if streq name "MPEG4-GENERIC" then 2 else 1) = ty ->
  0 < rate < 2147483648 -> (ty = 2 -> 0 < ch < 2147483648) -> track = "0" \/ track = "1" ->
  section_of texts ty port pt (name ++ "/" ++ show_Z rate ++ channels_text ty ch) track (fills name extra) ->
  exists ls t, whole texts ls /\ Forall (fun l => one_line l = true) ls /\
    parse_lines cfg (raw, tr) ((fun l => l ++ cr) <$> ls) = Done ((raw ++ [t])%list, Some (length raw)) /\
    describes ty pt name rate ch extra t /\ kept_track t = true /\ str_len (lines_text ls) <= 800.
Proof.
  intros Hty Hport Hpt Hraw Hname Hnt Hr Hc Htrack (ps & Hw & Hps & Hne & Hl & Hf).
  assert (plain name = true /\ str_all (fun c => negb (is_char c "/")) name = true /\ name <> "" /\ str_len name <= 31) as (Hp & Hs & Hn0 & Hnl).
  { revert Hname. rewrite !elem_of_cons. intros [-> | [-> | [-> | Hx]]]; [by split_and!..|by apply not_elem_of_nil in Hx]. }
  destruct (section_parsed cfg Hcfg raw tr ty port pt name rate ch ps track) as (t & Ht & E); try done.
  eexists _, _. split; [exact Hw|]. split.
  { apply section_lines_one; [lia| |done|by destruct Htrack as [-> | ->]].
    assert (forall n, one_line (show_Z n) = true) as Hn by (intros n; apply spaceless_line, show_Z_spaceless).
    apply plain_one_line in Hp. unfold one_line in *. unfold channels_text. rewrite !str_all_app, Hp, Hn. cbn [andb].
    destruct (ty =? 1); [done|]. by rewrite !str_all_app, Hn. }
  split; [exact E|]. rewrite Hf by done. pose proof Ht as []. split; [by constructor|]. split.
  2: { apply section_short; [lia|done|done|by apply map_short|done|by destruct Htrack as [-> | ->]]. }
  unfold kept_track. cbn. rewrite ot_active0. unfold sdp_track_codec_supported. cbn. rewrite (proj2 (Z.ltb_ge pt 0)), ot_type0 by lia.
  revert Hname. rewrite !elem_of_cons. intros [-> | [-> | [-> | Hx]]]; [by subst ty..|by apply not_elem_of_nil in Hx].
Qed.

(** The session's strings are in their arrays and hold no newline; the ports and payload
    types are those of RTP. *)
Definition session_ok (s : sdp_muxer_t) : Prop :=
  let x := mx_session s in
  one_line (ms_name x) = true /\ one_line (ms_address x) = true /\ one_line (ms_ptp_address x) = true /\
  str_len (ms_name x) <= 127 /\ str_len (ms_address x) <= 63 /\ str_len (ms_ptp_address x) <= 63 /\
  -2147483648 <= ms_ptp_domain x <= INT32_MAX.
Definition numbers_ok (s : sdp_muxer_t) : Prop :=
  0 <= mv_port (mx_video s) <= 65535 /\ 0 <= mv_pt (mx_video s) <= 127 /\
  0 <= ma_port (mx_audio s) <= 65535 /\ 0 <= ma_pt (mx_audio s) <= 127.

Lemma session_short s sid : session_ok s -> 0 <= sid <= UINT64_MAX -> str_len (str_concat (session_texts (mx_session s) sid)) <= 1000.
Proof.
  intros (_ & _ & _ & Hn & Ha & Hp & Hd) Hs. unfold UINT64_MAX, INT32_MAX in *. pose proof (digits_short sid Hs).
  assert (str_len (show_Z (ms_ptp_domain (mx_session s))) <= 21) as Hdom.
  { pose proof (digits_short (Z.abs (ms_ptp_domain (mx_session s))) ltac:(unfold UINT64_MAX; lia)) as Hx. revert Hx. unfold show_Z.
    rewrite (proj2 (Z.ltb_ge (Z.abs _) 0)) by lia. destruct (Z.ltb_spec (ms_ptp_domain (mx_session s)) 0).
    - rewrite Z.abs_neq by lia. unfold str_len. cbn [String.length]. lia.
    - rewrite Z.abs_eq by lia. lia. }
  assert (forall c r, str_len (String c r) = 1 + str_len r) as Hcons by (intros c r; unfold str_len; cbn [String.length]; lia).
  unfold session_texts, str_concat. destruct (streq _ _); cbn [fold_right]; rewrite !str_len_app; unfold crlf; rewrite !Hcons;
    change (str_len "") with 0; lia.
Qed.

Lemma video_ready_made s enc sets : video_ready s enc sets -> video_ready (sdp_muxer_make_aac_config s) enc sets.
Proof. destruct 1; [by eapply H264_ready|by eapply H265_ready]. Qed.

Lemma video_ready_names s enc sets : video_ready s enc sets -> enc ∈ ["H264"; "H265"; "MPEG4-GENERIC"] /\
  (if streq enc "MPEG4-GENERIC" then 2 else 1) = 1.
Proof. destruct 1; (split; [|done]); rewrite !elem_of_cons; auto. Qed.

(** The tracks of a description that is generated. *)
Definition expected_tracks (s : sdp_muxer_t) (enc : string) (sets : list bytes) : list (sdp_track_t -> Prop) :=
  let a := make_aac_config (mx_audio s) in
  ((if mv_enabled (mx_video s) then [describes 1 (mv_pt (mx_video s)) enc 90000 0 (start_coded sets)] else []) ++
   (if ma_enabled (mx_audio s) then
      [describes 2 (ma_pt (mx_audio s)) "MPEG4-GENERIC" (ma_rate a) (ma_channels a) (ma_config a)] else []))%list.

Lemma generated_lines sid s enc sets : 0 <= sid <= UINT64_MAX -> session_ok s -> numbers_ok s ->
  (mv_enabled (mx_video s) = true -> video_ready s enc sets) -> (ma_enabled (mx_audio s) = true -> audio_ready (mx_audio s)) ->
  exists ls ts, whole (mux_texts sid (sdp_muxer_make_aac_config s)) ls /\ Forall (fun l => one_line l = true) ls /\
    (exists tr, parse_lines cfg ([], None) ((fun l => l ++ cr) <$> ls) = Done (ts, tr)) /\
    Forall2 (fun P t => P t) (expected_tracks s enc sets) ts /\ Forall (fun t => kept_track t = true) ts /\ str_len (lines_text ls) < 4096 /\
    ls <> [].
Proof.
  intros Hsid Hsok (Hvp & Hvt & Hap & Hat) Hv Hau.
  pose proof (session_short s sid Hsok Hsid) as Hss. destruct Hsok as (Hn & Ha & Hp & _).
  destruct (session_whole (mx_session s) sid Hn Ha Hp) as (sess & Hsw & Hsh).
  assert (exists ls ts tr, whole (if mv_enabled (mx_video s) then video_texts (sdp_muxer_make_aac_config s) else []) ls /\
    Forall (fun l => one_line l = true) ls /\ parse_lines cfg ([], None) ((fun l => l ++ cr) <$> ls) = Done (ts, tr) /\
    Forall2 (fun P t => P t) (if mv_enabled (mx_video s) then [describes 1 (mv_pt (mx_video s)) enc 90000 0 (start_coded sets)] else []) ts /\
    Forall (fun t => kept_track t = true) ts /\ zlen ts <= 1 /\ str_len (lines_text ls) <= 800) as (vls & vts & vtr & Hvw & Hvo & Hve & Hvd & Hvk & Hvl & Hvs).
  { destruct (mv_enabled (mx_video s)); [|exists [], [], None; by split_and!]. specialize (Hv eq_refl).
    destruct (video_ready_names _ _ _ Hv) as [Hin Hty].
    destruct (section_reads [] None (video_texts (sdp_muxer_make_aac_config s)) 1 (mv_port (mx_video s)) (mv_pt (mx_video s)) enc 90000 0 "0" (start_coded sets))
      as (ls & t & Hw & Ho & E & Hd & Hk & Hsh1); try done; auto.
    { apply (video_section (sdp_muxer_make_aac_config s) enc sets), video_ready_made, Hv. }
    exists ls, [t], (Some 0%nat). do 3 (split; [done|]). split; [constructor; [exact Hd|constructor]|]. split; [by constructor|by split]. }
  assert (exists ls ts tr, whole (if ma_enabled (mx_audio s) then audio_texts (sdp_muxer_make_aac_config s) else []) ls /\
    Forall (fun l => one_line l = true) ls /\ parse_lines cfg (vts, vtr) ((fun l => l ++ cr) <$> ls) = Done ((vts ++ ts)%list, tr) /\
    Forall2 (fun P t => P t) (if ma_enabled (mx_audio s) then [let a := make_aac_config (mx_audio s) in
      describes 2 (ma_pt (mx_audio s)) "MPEG4-GENERIC" (ma_rate a) (ma_channels a) (ma_config a)] else []) ts /\
    Forall (fun t => kept_track t = true) ts /\ str_len (lines_text ls) <= 800) as (als & ats & atr & Haw & Hao & Hae & Had & Hak & Has).
  { destruct (ma_enabled (mx_audio s)); [|exists [], [], vtr; rewrite app_nil_r; by split_and!]. specialize (Hau eq_refl).
    destruct (made_config _ Hau) as (Hau' & H0 & Em). pose proof Hau' as (Hc & Hr & Hch & Hok & Hl).
    set (a := make_aac_config (mx_audio s)) in *.
    assert (ma_pt a = ma_pt (mx_audio s) /\ ma_port a = ma_port (mx_audio s)) as [Ept Eport]
      by (unfold a, make_aac_config; by destruct (0 <? _)).
    destruct (section_reads vts vtr (audio_texts (sdp_muxer_make_aac_config s)) 2 (ma_port a) (ma_pt a) "MPEG4-GENERIC" (ma_rate a) (ma_channels a) "1" (ma_config a))
      as (ls & t & Hw & Ho & E & Hd & Hk & Hsh1); try done; auto; try lia.
    { rewrite !elem_of_cons. auto. }
    { apply (audio_section (sdp_muxer_make_aac_config s)); [exact Hau'|exact Em|exact H0]. }
    rewrite Ept in Hd. exists ls, [t], (Some (length vts)). do 3 (split; [done|]).
    split; [constructor; [exact Hd|constructor]|]. split; [by constructor|done]. }
  exists (["v=0"] ++ sess ++ vls ++ als)%list, (vts ++ ats)%list. split; [|split; [|split; [|split; [|split; [|split]]]]].
  - unfold mux_texts. apply (whole_cons "v=0"). apply whole_app; [exact Hsw|]. apply whole_app; [exact Hvw|].
    unfold sdp_muxer_make_aac_config. cbn [mx_audio with_mux_audio].
    assert (ma_enabled (make_aac_config (mx_audio s)) = ma_enabled (mx_audio s)) as -> by (unfold make_aac_config; by destruct (0 <? _)).
    exact Haw.
  - constructor; [done|]. apply Forall_app. split; [|by apply Forall_app]. eapply Forall_impl; [exact Hsh|]. by intros l [? _].
  - exists atr. rewrite fmap_app, parse_lines_app, header_parsed.
    2: { constructor; [|constructor]. split; [done|]. by exists "v"%char, "0". }
    cbn [mbind outcome_bind]. rewrite fmap_app, parse_lines_app, header_parsed by done. cbn [mbind outcome_bind].
    rewrite fmap_app, parse_lines_app, Hve. cbn [mbind outcome_bind]. exact Hae.
  - unfold expected_tracks. apply Forall2_app; [exact Hvd|exact Had].
  - by apply Forall_app.
  - rewrite !lines_text_app, !str_len_app, <-Hsw. change (str_len (lines_text ["v=0"])) with 5. lia.
  - done.
Qed.

Lemma generated_text sid write_ok s ls : whole (mux_texts sid (sdp_muxer_make_aac_config s)) ls -> str_len (lines_text ls) < 4096 ->
  mx_text (sdp_muxer_generate sid write_ok s).1.2 = lines_text ls.
Proof.
  intros Hw Hfit. unfold sdp_muxer_generate. destruct (sdp_muxer_write_file _ _) as [ret out]. cbn [fst snd with_text mx_text].
  unfold SDP_MUXER_TEXT_MAX. rewrite (append_cut _ "" 4096) by done. rewrite <-Hw in *. apply str_take_all.
  unfold str_len in Hfit. cbn [append]. lia.
Qed.

Lemma lines_parse files ls ts tr : Forall (fun l => one_line l = true) ls ->
  parse_lines cfg ([], None) ((fun l => l ++ cr) <$> ls) = Done (ts, tr) -> Forall (fun t => kept_track t = true) ts ->
  str_len (lines_text ls) < 4096 -> ls <> [] ->
  exists d, sdp_set_property files (SdpDemux.with_config zst_sdp_demuxer_create cfg) "sdp" (lines_text ls) = Done (ZST_OK, d) /\
    sdp_parsed d = true /\ sd_tracks d = ts.
Proof.
  intros Ho E Hk Hfit Hne. unfold sdp_set_property. change (streq "sdp" "sdp") with true. cbn match. unfold run_parse.
  cbn [SdpDemux.with_config zst_sdp_demuxer_create with_sdp sd_config sdp_text sd_tracks sdp_parsed].
  assert (strncpy_n 4096 (lines_text ls) = lines_text ls) as ->.
  { apply str_take_all. unfold str_len in Hfit. lia. }
  unfold sdp_demuxer_parse_sdp. rewrite split_lines_text, E by done.
  assert (streq (lines_text ls) "" = false) as -> by (destruct ls as [|l ls]; [done|]; cbn [lines_text]; by destruct l).
  cbn [existsb mbind outcome_bind mret outcome_ret].
  assert (filter kept_track ts = ts) as ->.
  { clear -Hk. induction Hk as [|t ts Ht _ IH]; [done|]. rewrite filter_cons_True by (by rewrite Ht). by rewrite IH. }
  unfold result_of. rewrite (proj2 (Z.leb_le 0 _)) by apply zlen_nonneg. by eexists.
Qed.

(** C11. What is generated is read back: the text describes an H.264 or H.265 stream and an
    AAC stream, each if it is enabled, and set as the property of a demultiplexer it gives one
    track for each, with the payload type, the codec, the rate and the channels of the
    generator, and in its extradata the parameter sets behind start codes, or the AAC
    configuration, byte for byte. The session's texts have no line ends and are within their
    arrays; ports and payload types are in range; the sets were found in the stream, each of
    at most 512 bytes, and together their Base64 has at most the 450 characters (with the
    profile, for H.264; 479 for H.265) that fit the demultiplexer's line of parameters; an AAC
    configuration has at most 8 bytes. *)
Theorem sdp_roundtrip sid write_ok files s enc sets : 0 <= sid <= UINT64_MAX -> session_ok s -> numbers_ok s ->
  (mv_enabled (mx_video s) = true -> video_ready s enc sets) -> (ma_enabled (mx_audio s) = true -> audio_ready (mx_audio s)) ->
  let sdp := mx_text (sdp_muxer_generate sid write_ok s).1.2 in
  exists d, sdp_set_property files (SdpDemux.with_config zst_sdp_demuxer_create cfg) "sdp" sdp = Done (ZST_OK, d) /\
    sdp_parsed d = true /\ Forall2 (fun P t => P t) (expected_tracks s enc sets) (sd_tracks d).
Proof.
  intros Hsid Hs Hn Hv Ha.
  destruct (generated_lines sid s enc sets Hsid Hs Hn Hv Ha) as (ls & ts & Hw & Ho & (tr & E) & Hd & Hk & Hfit & Hne).
  rewrite (generated_text sid write_ok s ls) by done. destruct (lines_parse files ls ts tr) as (d & Ed & Hp & <-); try done. by exists d.
Qed.
End Roundtrip.
