(* ===== verification/SdpMuxLife.v ===== *)
(** * From the stream to the demultiplexer: [SdpMux]

    What the generator finds in the buffers it is given, the description it then sends,
    and that its state stays within its arrays. *)

From Stdlib Require Import Ascii String.
From S2P Require Import Prelude CLib Pad PadOps Caps MediaUtils Sha1 Sha1Spec SdpReorder SdpReorderSpec SdpTiming SdpText SdpMux SdpLines SdpDemux SdpDemuxSpec SdpMuxSpec.

Local Open Scope string_scope.
Local Open Scope Z_scope.

(** ** The units of a buffer *)

Lemma note_unit {A} (note : A -> bytes -> A) fuel s pre long nal l : nal_ok nal ->
  let data := (pre ++ start_code long ++ nal ++ annexb l)%list in
  note_units (S fuel) note s data (zlen data) (zlen pre) (zlen (start_code long)) =
    match l with
    | [] => Done (note s nal)
    | (next, _) :: _ =>
        note_units fuel note (note s nal) data (zlen data) (zlen (pre ++ start_code long ++ nal)) (zlen (start_code next))
    end.
Proof.
  intros Hn data. pose proof (nal_nonempty nal Hn) as Hpos. pose proof (zlen_nonneg pre). pose proof (zlen_start_code long).
  pose proof (zlen_nonneg (annexb l)). cbn [note_units].
  assert (zlen data = zlen pre + zlen (start_code long) + zlen nal + zlen (annexb l)) as Hz by (subst data; rewrite !zlen_app; lia).
  rewrite (proj2 (Z.leb_le 0 (zlen pre))), (proj2 (Z.ltb_lt (zlen pre) _)) by lia. cbn [andb].
  assert (data = ((pre ++ start_code long) ++ nal ++ annexb l)%list) as Ed by (subst data; by rewrite <-app_assoc).
  rewrite <-(zlen_app pre), Ed, (find_after_nal _ nal l Hn), <-Ed. destruct (unit_bytes (pre ++ start_code long) nal (annexb l) Hn) as [Et Es].
  rewrite <-Ed in Et, Es. rewrite <-(zlen_app pre) in Hz. set (q := (pre ++ start_code long)%list) in *.
  assert (forall next, next = zlen q + zlen nal \/ l = [] /\ next = -1 ->
    let nal_end := if 0 <=? next then next else zlen data in
    let nal_end := if zlen q <? nal_end then trim_zeros (Z.to_nat (nal_end - zlen q)) data (zlen q) else nal_end in
    (if 0 <? nal_end - zlen q then note s (sub_bytes (zlen q) (nal_end - zlen q) data) else s) = note s nal) as Hstep.
  { intros next Hnext. pose proof (unit_end_ok q nal l next Hn Hnext) as E. unfold unit_end in E. rewrite <-Ed in E. cbv zeta. rewrite E.
    replace (zlen q + zlen nal - zlen q) with (zlen nal) by lia. by rewrite (proj2 (Z.ltb_lt 0 _)), Es by lia. }
  destruct l as [|[long2 nal2] l].
  - rewrite (Hstep (-1)) by auto. done.
  - rewrite (Hstep (zlen q + zlen nal)) by auto. pose proof (zlen_nonneg q). rewrite (proj2 (Z.ltb_ge (zlen q + zlen nal) 0)) by lia.
    by rewrite <-zlen_app, (app_assoc pre).
Qed.

Lemma note_units_annexb {A} (note : A -> bytes -> A) l : forall pre long nal fuel s,
  nal_ok nal -> Forall (fun x => nal_ok x.2) l -> (length l < fuel)%nat ->
  let data := (pre ++ start_code long ++ nal ++ annexb l)%list in
  note_units fuel note s data (zlen data) (zlen pre) (zlen (start_code long)) = Done (fold_left note (nal :: map snd l) s).
Proof.
  induction l as [|[long2 nal2] l IH]; intros pre long nal fuel s Hn Hl Hf; (destruct fuel as [|fuel]; [lia|]);
    cbv zeta; rewrite note_unit by done; [done|].
  apply Forall_cons in Hl as [Hn2 Hl]. cbn [annexb map fold_left]. cbn in Hf.
  replace (pre ++ start_code long ++ nal ++ start_code long2 ++ nal2 ++ annexb l)%list
    with ((pre ++ start_code long ++ nal) ++ start_code long2 ++ nal2 ++ annexb l)%list by (by rewrite <-!app_assoc).
  by apply IH; [| |lia].
Qed.

(** What the generator keeps of the units: the first of each kind. *)
Definition first_unit (kind : bytes -> bool) (nals : list bytes) : option bytes := head (filter kind nals).

Definition h264_kind (ty : Z) (nal : bytes) : bool := Z.land (rd nal 0) 31 =? ty.

Definition kept_set (cur : bytes) (found : option bytes) : bytes :=
  if zlen cur =? 0 then match found with Some nal => sdp_muxer_copy_limited cur nal | None => cur end else cur.

Lemma copy_nonempty dst nal : 0 < zlen nal -> 0 < zlen (sdp_muxer_copy_limited dst nal).
Proof.
  intros Hn. unfold sdp_muxer_copy_limited, SDP_MUXER_EXTRA_MAX. rewrite (proj2 (Z.leb_gt _ _)) by lia.
  unfold zlen in *. rewrite length_take. lia.
Qed.

Lemma note_h264_fold nals h : Forall (fun n => 0 < zlen n) nals ->
  fold_left note_h264 nals h = mk_mux_h264 (kept_set (h264_sps h) (first_unit (h264_kind 7) nals))
    (kept_set (h264_pps h) (first_unit (h264_kind 8) nals)) (h264_sprop h) (h264_profile_level_id h).
Proof.
  revert h. induction nals as [|nal nals IH]; intros h Hn.
  { unfold kept_set. cbn. destruct h. by destruct (_ =? _), (_ =? _). }
  apply Forall_cons in Hn as [Hn0 Hn]. cbn [fold_left]. rewrite IH by done. unfold first_unit. cbn [filter list_filter].
  assert (forall ty, h264_kind ty nal = (Z.land (rd nal 0) 31 =? ty)) as Hk by done.
  pose proof (copy_nonempty (h264_sps h) nal Hn0). pose proof (copy_nonempty (h264_pps h) nal Hn0).
  unfold note_h264. destruct (Z.eqb_spec (Z.land (rd nal 0) 31) 7) as [E7|E7].
  - rewrite (decide_True (P := Is_true (h264_kind 7 nal))) by (rewrite Hk, E7; done).
    rewrite (decide_False (P := Is_true (h264_kind 8 nal))) by (rewrite Hk, E7; by intros []).
    rewrite E7. cbn [Z.eqb Pos.eqb andb]. unfold kept_set.
    destruct (Z.eqb_spec (zlen (h264_sps h)) 0) as [E|E]; cbn [h264_sps h264_pps h264_sprop h264_profile_level_id head].
    + by rewrite (proj2 (Z.eqb_neq (zlen (sdp_muxer_copy_limited _ _)) 0)) by lia.
    + by rewrite (proj2 (Z.eqb_neq _ _) E).
  - rewrite (decide_False (P := Is_true (h264_kind 7 nal))) by (rewrite Hk; by destruct (Z.eqb_spec (Z.land (rd nal 0) 31) 7); [|intros []]).
    cbn [andb]. destruct (Z.eqb_spec (Z.land (rd nal 0) 31) 8) as [E8|E8].
    + rewrite (decide_True (P := Is_true (h264_kind 8 nal))) by (rewrite Hk, E8; done). cbn [andb]. unfold kept_set.
      destruct (Z.eqb_spec (zlen (h264_pps h)) 0) as [E|E]; cbn [h264_sps h264_pps h264_sprop h264_profile_level_id head].
      * by rewrite (proj2 (Z.eqb_neq (zlen (sdp_muxer_copy_limited _ _)) 0)) by lia.
      * by rewrite (proj2 (Z.eqb_neq _ _) E).
    + by rewrite (decide_False (P := Is_true (h264_kind 8 nal)))
        by (rewrite Hk; by destruct (Z.eqb_spec (Z.land (rd nal 0) 31) 8); [|intros []]).
Qed.

(** ** The description of a stream *)

Section Stream.
Context `{CMemory} {Hmem : CMemoryOk}.

(** A buffer that holds the units [l] of an Annex B stream. *)
Definition stream_buffer (buf : zst_buffer) (l : list (bool * bytes)) : Prop :=
  has_flag (buf_flags buf) ZST_BUFFER_FLAG_EOS = false /\ mem_data buf = Some (annexb l) /\
  mem_size buf = zlen (annexb l) /\ zlen (annexb l) <= INT32_MAX.

Lemma observe_h264 s buf l : sdp_muxer_is_h264 s = true -> stream_buffer buf l -> Forall (fun x => nal_ok x.2) l ->
  sdp_muxer_observe_video s buf = Done (with_h264 s (fold_left note_h264 (map snd l) (mx_h264 s))).
Proof.
  intros Hc (_ & Ed & Ez & Hz) Hl. unfold INT32_MAX in Hz. unfold sdp_muxer_observe_video. rewrite Ed, Ez, h264_not_h265 by done.
  pose proof (zlen_nonneg (annexb l)). rewrite s32_small by lia. destruct l as [|[long nal] l].
  { cbn. by destruct s. }
  apply Forall_cons in Hl as [Hn Hl]. pose proof (zlen_start_code long). pose proof (nal_nonempty nal Hn).
  assert (3 < zlen (annexb ((long, nal) :: l)) /\ (length l < Z.to_nat (zlen (annexb ((long, nal) :: l))))%nat) as [Hpos Hfuel].
  { cbn [annexb]. rewrite !zlen_app. assert (Z.of_nat (length l) <= zlen (annexb l)); [|lia]. clear -Hl.
    induction Hl as [|[long nal] l Hn _ IH]; [done|]. cbn [annexb length]. rewrite !zlen_app.
    pose proof (zlen_start_code long). pose proof (zlen_nonneg nal). lia. }
  rewrite (proj2 (Z.eqb_neq _ 0)) by lia. unfold sdp_muxer_parse_h264_annexb. rewrite find_first.
  pose proof (note_units_annexb note_h264 l [] long nal _ (mx_h264 s) Hn Hl Hfuel) as E. cbv zeta in E. cbn [app] in E.
  change (start_code long ++ nal ++ annexb l)%list with (annexb ((long, nal) :: l)) in E. change (zlen []) with 0 in E. by rewrite E.
Qed.

(** C12. The description follows the stream: the first buffer of an H.264 stream, in which the
    first parameter sets are [sps] and [pps], makes the generator send one buffer, whose text,
    given to a demultiplexer, opens a track with exactly these sets as its extradata (and one
    for the sound that is configured). Before, the generator has noted no sets, is told no
    capabilities, writes no file and, if it is to send once only, has sent nothing; the sets'
    Base64, with the profile, has at most 450 characters. Afterwards it counts as having sent.
    *)
Theorem sdp_from_stream cfg sid write_ok files s buf l sps pps profile :
  settings_ok cfg -> 0 <= sid <= UINT64_MAX -> session_ok s -> numbers_ok s -> ms_file (mx_session s) = "" ->
  sdp_muxer_is_h264 s = true -> mx_h264 s = mk_mux_h264 [] [] "" profile -> mx_emit_once s && mx_emitted s = false ->
  (ma_enabled (mx_audio s) = true -> audio_ready (mx_audio s)) ->
  stream_buffer buf l -> Forall (fun x => nal_ok x.2) l ->
  first_unit (h264_kind 7) (map snd l) = Some sps -> first_unit (h264_kind 8) (map snd l) = Some pps ->
  set_ok sps -> set_ok pps -> plain profile = true ->
  sdp_muxer_b64_len (zlen sps) + sdp_muxer_b64_len (zlen pps) + str_len profile <= 450 ->
  exists s' txt d, mux_sink_push sid write_ok true s VideoPad None buf = Done (ZST_OK, s', [Sent (text_buffer txt)]) /\
    mx_h264 s' = mk_mux_h264 sps pps "" profile /\ mx_emitted s' = true /\
    sdp_set_property files (SdpDemux.with_config zst_sdp_demuxer_create cfg) "sdp" txt = Done (ZST_OK, d) /\
    Forall2 (fun P t => P t) (expected_tracks (enable s VideoPad) "H264" [sps; pps]) (sd_tracks d).
Proof.
  intros Hcfg Hsid Hs Hn Hfile Hc Eh Honce Ha Hbuf Hl Esps Epps Hsps Hpps Hpl Hlen.
  assert (Forall (fun n => 0 < zlen n) (map snd l)) as Hpos.
  { clear -Hl. induction Hl as [|x l Hx _ IH]; constructor; [apply Hx|done]. }
  assert (forall x, set_ok x -> kept_set [] (Some x) = x) as Hkept.
  { intros x [_ Hx]. unfold kept_set, sdp_muxer_copy_limited. change (zlen [] =? 0) with true. cbn match.
    rewrite (proj2 (Z.leb_gt _ _)) by lia. apply take_ge. unfold zlen in Hx. lia. }
  set (s1 := with_text_valid (with_h264 (enable s VideoPad) (mk_mux_h264 sps pps "" profile)) false (mx_emitted s)).
  destruct (generated_lines cfg Hcfg sid s1 "H264" [sps; pps]) as (ls & ts & Hw & Ho & (tr & E) & Hd & Hk & Hfit & Hne); try done.
  { intros _. by eapply H264_ready. }
  destruct (lines_parse cfg files ls ts tr) as (d & Ed & _ & Ets); try done.
  pose proof Hbuf as (Heos & _). unfold mux_sink_push. rewrite Heos. cbn [sdp_muxer_apply_caps mbind outcome_bind mret outcome_ret].
  rewrite (observe_h264 (enable s VideoPad) buf l) by done. cbn [mbind outcome_bind]. change (mx_h264 (enable s VideoPad)) with (mx_h264 s).
  rewrite note_h264_fold, Eh, Esps, Epps by done. cbn [h264_sps h264_pps h264_sprop h264_profile_level_id]. rewrite !Hkept by done.
  change (with_text_valid _ false _) with s1. pose proof (generated_text sid write_ok s1 ls Hw Hfit) as Etxt.
  unfold sdp_muxer_emit. change (mx_emit_once s1 && mx_emitted s1) with (mx_emit_once s && mx_emitted s). rewrite Honce.
  change (mx_valid s1) with false. cbn match. unfold sdp_muxer_generate in Etxt |- *. unfold sdp_muxer_write_file in Etxt |- *.
  change (ms_file (mx_session (with_text _ _))) with (ms_file (mx_session s)) in Etxt |- *. rewrite Hfile in Etxt |- *.
  cbn [streq String.eqb fst snd] in Etxt |- *. change (streq "" "") with true in Etxt |- *. cbn match in Etxt |- *.
  change (negb (ZST_OK =? ZST_OK)) with false. cbn match. rewrite !malloc_total. cbn [andb app]. cbn [fst snd] in Etxt. rewrite Etxt.
  eexists _, _, d. split; [done|]. split; [done|]. split; [done|]. split; [exact Ed|]. rewrite Ets. exact Hd.
Qed.
End Stream.

(** ** The state stays within its arrays *)

Definition fits_in (n : Z) (l : bytes) : Prop := bytes_ok l /\ zlen l <= n.

Definition session_fits (x : mux_session) : Prop :=
  str_len (ms_name x) <= 127 /\ str_len (ms_address x) <= 63 /\ str_len (ms_ptp_address x) <= 63 /\ str_len (ms_mode x) <= 31.
Definition h264_fits (h : mux_h264) : Prop := fits_in SDP_MUXER_EXTRA_MAX (h264_sps h) /\ fits_in SDP_MUXER_EXTRA_MAX (h264_pps h).
Definition h265_fits (h : mux_h265) : Prop :=
  fits_in SDP_MUXER_EXTRA_MAX (h265_vps h) /\ fits_in SDP_MUXER_EXTRA_MAX (h265_sps h) /\ fits_in SDP_MUXER_EXTRA_MAX (h265_pps h).

Record mux_fits (s : sdp_muxer_t) : Prop := {
  mf_session : session_fits (mx_session s);
  mf_h264 : h264_fits (mx_h264 s);
  mf_h265 : h265_fits (mx_h265 s);
  mf_config : fits_in 8 (ma_config (mx_audio s));
  mf_text : str_len (mx_text s) < SDP_MUXER_TEXT_MAX;
}.

Lemma copied_length n v : 0 < n -> str_len (strncpy_n n v) <= n - 1.
Proof. intros Hn. unfold strncpy_n, str_len. pose proof (str_take_length (Z.to_nat (n - 1)) v). lia. Qed.

Lemma room_copy dst nal : bytes_ok nal -> fits_in SDP_MUXER_EXTRA_MAX dst -> fits_in SDP_MUXER_EXTRA_MAX (sdp_muxer_copy_limited dst nal).
Proof.
  intros Hn Hd. unfold sdp_muxer_copy_limited. destruct (zlen nal <=? 0); [done|].
  split; [by apply Forall_take|]. unfold zlen, SDP_MUXER_EXTRA_MAX. rewrite length_take. lia.
Qed.

Lemma note_h264_fits h nal : bytes_ok nal -> h264_fits h -> h264_fits (note_h264 h nal).
Proof. intros Hn [Hs Hp]. unfold note_h264. repeat case_match; try (by split); split; try done; by apply room_copy. Qed.

Lemma note_h265_fits h nal : bytes_ok nal -> h265_fits h -> h265_fits (note_h265 h nal).
Proof.
  intros Hn (Hv & Hs & Hp). unfold note_h265. repeat case_match; try (by split_and!); split_and!; try done; by apply room_copy.
Qed.

(** Every round of the loop begins further on, so it ends. *)
Lemma note_units_total {A} (note : A -> bytes -> A) (P : A -> Prop) data size fuel pos code s :
  (forall s nal, bytes_ok nal -> P s -> P (note s nal)) -> bytes_ok data -> 0 < code -> size - pos <= Z.of_nat fuel -> P s ->
  exists s', note_units fuel note s data size pos code = Done s' /\ P s'.
Proof.
  intros Hnote Hok. revert pos code s. induction fuel as [|fuel IH]; intros pos code s Hcode Hf Hs; cbn [note_units];
    destruct (Z.leb_spec 0 pos), (Z.ltb_spec pos size); cbn [andb]; try lia; eauto.
  pose proof (find_start_code_cases data size (pos + code) ltac:(lia)) as Hfind.
  destruct (zst_find_start_code data size (pos + code)) as [next next_code].
  set (nal_end := if 0 <=? next then next else size).
  set (e := if pos + code <? nal_end then _ else nal_end).
  assert (P (if 0 <? e - (pos + code) then note s (sub_bytes (pos + code) (e - (pos + code)) data) else s)) as Hs'.
  { case (0 <? _); [|done]. apply Hnote; [by apply bytes_ok_sub|done]. }
  destruct (Z.ltb_spec next 0); [eauto|]. destruct Hfind as [(-> & _)|(Hlo & _ & Hc & _)]; [lia|]. apply IH; [done|lia|done].
Qed.

Lemma asc_room profile idx ch : fits_in 8 (asc_bytes profile idx ch).
Proof. split; [|done]. unfold asc_bytes. repeat (constructor; [apply u8_range|]). constructor. Qed.

Lemma made_room a : fits_in 8 (ma_config a) -> fits_in 8 (ma_config (make_aac_config a)).
Proof. intros Ha. unfold make_aac_config. case (0 <? _); [done|apply asc_room]. Qed.

Lemma parse_hex_room n s : bytes_ok (sdp_muxer_parse_hex n s) /\ zlen (sdp_muxer_parse_hex n s) <= Z.of_nat n.
Proof.
  revert s. induction n as [|n IH]; intros s; [change (sdp_muxer_parse_hex 0 s) with (@nil Z); split; [constructor|rewrite zlen_nil; lia]|]. cbn [sdp_muxer_parse_hex].
  assert (fits_in (Z.of_nat (S n)) []) as Hnil by (split; [constructor|rewrite zlen_nil; lia]).
  destruct (skip_spaces s) as [|h [|l r]]; [done..|]. case (_ || _); [done|]. destruct (IH r) as [Hok Hl].
  split; [constructor; [apply u8_range|done]|]. rewrite zlen_cons. lia.
Qed.

Lemma parse_config_room a data size : size <= zlen data -> bytes_ok data -> fits_in 8 (ma_config a) ->
  exists a', sdp_muxer_parse_aac_config a data size = Done a' /\ fits_in 8 (ma_config a').
Proof.
  intros Hz Hok Ha. unfold sdp_muxer_parse_aac_config. destruct (Z.ltb_spec size 2); [by exists a|].
  rewrite (proj2 (Z.ltb_ge (zlen data) 2)) by lia. case (_ || _); [by exists a|].
  set (copy := if 8 <? size then 8 else size). assert (copy <= size /\ 0 <= copy <= 8) as [Hc1 Hc2] by (unfold copy; destruct (Z.ltb_spec 8 size); lia).
  rewrite (proj2 (Z.ltb_ge (zlen data) copy)) by lia. eexists. split; [done|].
  split; [by apply bytes_ok_sub|]. cbn [with_aac ma_config]. rewrite zlen_sub_bytes; lia.
Qed.

(** Capabilities whose fields hold what they say. *)
Definition caps_sane (caps : option zst_caps_t) : Prop :=
  zst_caps_get_string caps "format" <> Some None /\
  forall key data size, zst_caps_get_buffer caps key = Some (Some data, size) -> bytes_ok data /\ size <= zlen data /\ 0 <= size.

Lemma caps_config_room caps a : caps_sane caps -> fits_in 8 (ma_config a) ->
  exists a', caps_config caps a = Done a' /\ fits_in 8 (ma_config a').
Proof.
  intros [_ Hb] Ha. unfold caps_config.
  assert (exists a', match match zst_caps_get_string caps "config" with Some x => Some x | None => zst_caps_get_string caps "codec-data" end with
    | Some (Some h) => if 2 <=? zlen (sdp_muxer_parse_hex 8 h) then
        sdp_muxer_parse_aac_config a (sdp_muxer_parse_hex 8 h) (zlen (sdp_muxer_parse_hex 8 h)) else mret a
    | _ => mret a end = Done a' /\ fits_in 8 (ma_config a')) as Hhex.
  { destruct (match zst_caps_get_string caps "config" with Some x => Some x | None => _ end) as [[h|]|]; [|by exists a..].
    case (2 <=? _); [|by exists a]. apply parse_config_room; [lia|apply parse_hex_room|done]. }
  destruct (match zst_caps_get_buffer caps "codec-data" with Some x => Some x | None => _ end) as [[[data|] size]|] eqn:Ef; [|done..].
  destruct (Z.leb_spec 2 size); [|done].
  assert (bytes_ok data /\ size <= zlen data /\ 0 <= size) as (Hok & Hz & H0).
  { destruct (zst_caps_get_buffer caps "codec-data") as [x|] eqn:E1; [injection Ef as ->; by eapply Hb|by eapply Hb]. }
  apply parse_config_room; [|done|done]. unfold s32. cint.
Qed.

(** ** Every operation keeps it *)

Section Life.
Context `{CMemory} (write_ok : string -> string -> bool).

Lemma generate_fits sid s : mux_fits s -> mux_fits (sdp_muxer_generate sid write_ok s).1.2.
Proof.
  intros [H1 H2 H3 H4 _]. unfold sdp_muxer_generate. destruct (sdp_muxer_write_file _ _) as [ret out]. cbn [fst snd].
  constructor; try done; [by apply made_room|]. cbn [with_text mx_text]. unfold SDP_MUXER_TEXT_MAX.
  rewrite (append_cut _ "" 4096) by done. unfold str_len. pose proof (str_take_length 4095 ("" ++ str_concat (mux_texts sid (sdp_muxer_make_aac_config s)))). lia.
Qed.

Lemma valid_fits s valid emitted : mux_fits s -> mux_fits (with_text_valid s valid emitted).
Proof. by intros []. Qed.

Lemma assign_fits s name value s' : mux_fits s -> mux_assign s name value = Some s' -> mux_fits s'.
Proof.
  intros [H1 H2 H3 H4 H5]. unfold mux_assign.
  destruct (set_session (mx_session s) name value) as [x|] eqn:Ex.
  { intros [= <-]. constructor; try done. cbn [with_session mx_session]. revert Ex. unfold set_session. destruct H1 as (?&?&?&?).
    assert (forall n, 0 < n -> str_len (strncpy_n n value) <= n - 1) as Hn by (intros; by apply copied_length).
    pose proof (Hn 64 ltac:(lia)). pose proof (Hn 128 ltac:(lia)). pose proof (Hn 32 ltac:(lia)).
    repeat case_match; intros [= <-]; unfold session_fits; cbn [ms_name ms_address ms_ptp_address ms_mode]; lia. }
  destruct (set_video (mx_video s) name value) as [v|] eqn:Ev; [by intros [= <-]|].
  destruct (set_audio (mx_audio s) name value) as [a|] eqn:Ea.
  { intros [= <-]. constructor; try done. cbn [with_mux_audio mx_audio]. revert Ea. unfold set_audio, choose_codec.
    assert (fits_in 8 []) as Hnil by (split; [constructor|rewrite zlen_nil; lia]).
    repeat case_match; by intros [= <-]. }
  case_match; [by intros [= <-]|done].
Qed.

Lemma emit_fits sid peer s : mux_fits s -> mux_fits (sdp_muxer_emit sid write_ok peer s).1.2.
Proof.
  intros Hs. unfold sdp_muxer_emit. case (_ && _); [done|].
  assert (exists ret s' out, (if mx_valid s then (ZST_OK, s, []) else sdp_muxer_generate sid write_ok s) = (ret, s', out) /\ mux_fits s')
    as (ret & s' & out & -> & Hs').
  { destruct (mx_valid s); [by eexists _, _, _|]. pose proof (generate_fits sid s Hs) as Hg.
    destruct (sdp_muxer_generate sid write_ok s) as [[ret s'] out]. by eexists _, _, _. }
  repeat case_match; try done; by apply valid_fits.
Qed.

Lemma apply_caps_fits s pad caps : mux_fits s -> caps_sane caps ->
  exists s', sdp_muxer_apply_caps s pad caps = Done s' /\ mux_fits s'.
Proof.
  intros Hs Hcaps. unfold sdp_muxer_apply_caps. destruct caps as [[|st caps]|]; [by exists s| |by exists s].
  destruct Hs as [H1 H2 H3 H4 H5]. destruct pad; [eexists; split; [reflexivity|by constructor]|]. unfold apply_audio_caps. cbv zeta.
  match goal with |- context [audio_codec_of ?k ?m ?o] => assert (exists c, audio_codec_of k m o = Done c) as [c ->] end.
  { unfold audio_codec_of. destruct Hcaps as [Hf _]. repeat case_match; first [congruence | by eexists]. }
  cbn [mbind outcome_bind].
  match goal with |- context [caps_config ?k ?a] => destruct (caps_config_room k a Hcaps) as (a' & -> & Ha') end; [done|].
  cbn [mbind outcome_bind mret outcome_ret]. eexists. split; [done|]. by constructor.
Qed.

(** A buffer holds bytes. *)
Definition holds_bytes (buf : zst_buffer) : Prop := match mem_data buf with Some d => bytes_ok d | None => True end.

Lemma observe_video_fits s buf : mux_fits s -> holds_bytes buf -> exists s', sdp_muxer_observe_video s buf = Done s' /\ mux_fits s'.
Proof.
  intros Hs Hb. unfold holds_bytes in Hb. unfold sdp_muxer_observe_video. destruct (mem_data buf) as [data|]; [|by exists s].
  case (_ =? 0); [by exists s|]. destruct Hs as [H1 H2 H3 H4 H5]. set (size := s32 (mem_size buf)).
  unfold sdp_muxer_parse_h264_annexb, sdp_muxer_parse_h265_annexb. pose proof (find_start_code_cases data size 0 ltac:(lia)) as Hfind.
  destruct (zst_find_start_code data size 0) as [pos code].
  assert (forall A (note : A -> bytes -> A) (P : A -> Prop) x, (forall s nal, bytes_ok nal -> P s -> P (note s nal)) -> P x ->
    exists x', note_units (Z.to_nat size) note x data size pos code = Done x' /\ P x') as Htotal.
  { intros A note P x Hnote Hx. destruct Hfind as [(-> & -> & _)|(Hlo & _ & Hc & _)].
    - exists x. by destruct (Z.to_nat size).
    - apply note_units_total; [done..|lia|done]. }
  case (sdp_muxer_is_h265 s).
  - destruct (Htotal _ note_h265 h265_fits _ note_h265_fits H3) as (h & -> & Hh). cbn. eexists. split; [done|]. by constructor.
  - destruct (Htotal _ note_h264 h264_fits _ note_h264_fits H2) as (h & -> & Hh). cbn. eexists. split; [done|]. by constructor.
Qed.

Lemma observe_audio_fits s buf : mux_fits s -> mux_fits (sdp_muxer_observe_audio s buf).
Proof.
  intros Hs. unfold sdp_muxer_observe_audio. destruct (mem_data buf) as [data|]; [|done]. case (_ =? 0); [done|].
  destruct Hs as [H1 H2 H3 H4 H5]. constructor; try done. cbn [with_mux_audio mx_audio]. unfold sdp_muxer_parse_aac_adts.
  case (_ <? 7); [done|]. case (_ || _); [done|]. apply asc_room.
Qed.

Lemma enable_fits s pad : mux_fits s -> mux_fits (enable s pad).
Proof. intros []. by destruct pad. Qed.

Lemma push_fits sid peer s pad caps buf : mux_fits s -> caps_sane caps -> holds_bytes buf ->
  exists r s' out, mux_sink_push sid write_ok peer s pad caps buf = Done (r, s', out) /\ mux_fits s'.
Proof.
  intros Hs Hcaps Hb. unfold mux_sink_push. case (has_flag _ _); [by eexists _, s, _|].
  destruct (apply_caps_fits s pad caps Hs Hcaps) as (s1 & -> & Hs1). cbn [mbind outcome_bind].
  apply (enable_fits _ pad) in Hs1.
  assert (exists s2, match pad with VideoPad => sdp_muxer_observe_video (enable s1 pad) buf
    | AudioPad => mret (sdp_muxer_observe_audio (enable s1 pad) buf) end = Done s2 /\ mux_fits s2) as (s2 & E & Hs2).
  { destruct pad; [by apply observe_video_fits|]. eexists. split; [done|]. by apply observe_audio_fits. }
  rewrite E. cbn [mbind outcome_bind mret outcome_ret].
  pose proof (emit_fits sid peer _ (valid_fits s2 false (mx_emitted s2) Hs2)) as Hfit.
  destruct (sdp_muxer_emit _ _ _ _) as [[r s'] out]. by eexists _, _, _.
Qed.

(** One call of the application or of an element upstream, at any time. *)
Inductive mux_step : sdp_muxer_t -> sdp_muxer_t -> Prop :=
| step_set sid s name value : mux_step s (mux_set_property sid write_ok s name value).1.2
| step_get sid s name n : mux_step s (mux_get_property sid write_ok s name n).1.2
| step_open sid s : mux_step s (sdp_muxer_open sid write_ok s).1.2
| step_start sid s : mux_step s (sdp_muxer_start sid write_ok s).1.2
| step_stop s : mux_step s (sdp_muxer_stop s).2
| step_push sid peer s pad caps buf r s' out : caps_sane caps -> holds_bytes buf ->
    mux_sink_push sid write_ok peer s pad caps buf = Done (r, s', out) -> mux_step s s'.

Lemma step_fits s s' : mux_fits s -> mux_step s s' -> mux_fits s'.
Proof.
  intros Hs. destruct 1 as [sid s name value|sid s name n|sid s|sid s|s|sid peer s pad caps buf r s' out Hcaps Hb E].
  - unfold mux_set_property. destruct (mux_assign s name value) as [s'|] eqn:E; [|done].
    by apply generate_fits, valid_fits, (assign_fits s name value).
  - unfold mux_get_property. case (n =? 0); [done|]. destruct (mx_valid s); [done|]. pose proof (generate_fits sid s Hs).
    by destruct (sdp_muxer_generate sid write_ok s) as [[ret s'] out].
  - by apply generate_fits, valid_fits.
  - unfold sdp_muxer_start. destruct (mx_valid s); [done|]. pose proof (generate_fits sid s Hs).
    by destruct (sdp_muxer_generate sid write_ok s) as [[ret s'] out].
  - by apply valid_fits.
  - destruct (push_fits sid peer s pad caps buf Hs Hcaps Hb) as (r1 & s1 & out1 & E1 & Hs1). rewrite E1 in E. by injection E as _ <- _.
Qed.

(** In every state the generator can reach its strings, parameter sets and text are
    inside their arrays, and the sink handler ends without a fault, whatever the buffer
    holds and whatever the sane capabilities of the pad are. *)
Theorem sdp_muxer_safe sid0 sid peer s pad caps buf :
  reach mux_step (zst_sdp_muxer_create sid0 write_ok) s -> caps_sane caps -> holds_bytes buf ->
  mux_fits s /\ exists r s' out, mux_sink_push sid write_ok peer s pad caps buf = Done (r, s', out) /\ mux_fits s'.
Proof.
  intros Hreach Hcaps Hb. assert (mux_fits s) as Hs.
  { eapply (reach_inv mux_step mux_fits); [|apply step_fits|exact Hreach]. apply generate_fits.
    assert (forall n, 0 <= n -> fits_in n []) as Hnil by (split; [constructor|rewrite zlen_nil; lia]).
    constructor; try done; try (by apply Hnil); unfold h264_fits, h265_fits, SDP_MUXER_EXTRA_MAX; split_and!; by apply Hnil. }
  split; [done|]. by apply push_fits.
Qed.
End Life.
