(* ===== verification/SdpMuxEx.v ===== *)
(** * The SDP generator on concrete inputs

    The theorems of [SdpMuxSpec] and [SdpMuxLife] at one generator and one demultiplexer,
    and what the generator gets wrong. *)

From Stdlib Require Import Ascii String.
From S2P Require Import Prelude CLib Pad Caps MediaUtils Sha1 SdpReorder SdpTiming SdpText SdpMux SdpLines SdpDemux SdpDemuxSpec SdpMuxSpec SdpMuxLife.

Local Open Scope string_scope.
Local Open Scope Z_scope.

#[local] Existing Instance ample_memory.

Definition writes_all (_ _ : string) : bool := true.
Definition writes_none (_ _ : string) : bool := false.
Definition no_file (_ : string) : option string := None.
Definition a_day : Z := 1700000000.

Definition default_settings : sdp_config := mk_config 200 256 500 90000 48000.

Definition set (name value : string) (s : sdp_muxer_t) : sdp_muxer_t := (mux_set_property a_day writes_all s name value).1.2.

(** Sound enabled, nothing seen yet. *)
Definition generator : sdp_muxer_t :=
  set "enable-audio" "yes" (set "audio-payload-type" "98" (zst_sdp_muxer_create a_day writes_all)).

Definition sample_sps : bytes := [103; 66; 0; 30; 171; 64; 240; 40].
Definition sample_pps : bytes := [104; 206; 60; 128].

(** An access unit delimiter, both sets and a slice. *)
Definition sample_stream : list (bool * bytes) :=
  [(true, [9; 16]); (true, sample_sps); (false, sample_pps); (true, [101; 136; 132; 1])].

Definition sample_buffer : zst_buffer := buffer_of ZST_BUFFER_VIDEO_PACKET 0 0 0 0 (annexb sample_stream).

(** The lines of a text, for reading. *)
Definition text_lines (s : string) : list string := strip_cr <$> split_lines s.

Definition pushed_text (s : sdp_muxer_t) : list string :=
  match mux_sink_push a_day writes_all true s VideoPad None sample_buffer with
  | Done (_, s, _) => text_lines (mx_text s)
  | _ => []
  end.

Example one_description : pushed_text generator =
  ["v=0"; "o=- 1700000000 1 IN IP4 127.0.0.1"; "s=zstreamer"; "c=IN IP4 127.0.0.1"; "t=0 0"; "a=tool:zstreamer";
   "m=video 5004 RTP/AVP 96"; "a=rtpmap:96 H264/90000";
   "a=fmtp:96 packetization-mode=1;sprop-parameter-sets=Z0IAHqtA8Cg=,aM48gA=="; "a=control:trackID=0";
   "m=audio 5006 RTP/AVP 98"; "a=rtpmap:98 MPEG4-GENERIC/48000/2";
   "a=fmtp:98 streamtype=5;profile-level-id=1;mode=AAC-hbr;config=1190;SizeLength=13;IndexLength=3;IndexDeltaLength=3";
   "a=control:trackID=1"].
Proof. vm_compute. reflexivity. Qed.

(** ** The theorems at these inputs *)

Lemma default_settings_ok : settings_ok default_settings.
Proof. split; [by vm_compute|]. cbn. lia. Qed.

Lemma generator_session : session_ok generator /\ numbers_ok generator.
Proof. split; vm_compute; repeat split; congruence. Qed.

Lemma generator_audio : audio_ready (mx_audio generator).
Proof. vm_compute. repeat split; try congruence. repeat (constructor; [vm_compute; split; congruence|]). constructor. Qed.

Lemma sample_sets : set_ok sample_sps /\ set_ok sample_pps.
Proof. split; (split; [repeat (constructor; [unfold is_byte; lia|]); constructor|vm_compute; split; congruence]). Qed.

Definition h265_generator : sdp_muxer_t :=
  with_h265 (set "codec" "HEVC" generator) (mk_mux_h265 [64; 1; 12] [66; 1; 1; 1] [68; 1; 193] "" "" "").

Lemma sdp_roundtrip_witness :
  exists d, sdp_set_property no_file (SdpDemux.with_config zst_sdp_demuxer_create default_settings) "sdp"
      (mx_text (sdp_muxer_generate a_day writes_all h265_generator).1.2) = Done (ZST_OK, d) /\
    sdp_parsed d = true /\
    Forall2 (fun P t => P t) (expected_tracks h265_generator "H265" [[64; 1; 12]; [66; 1; 1; 1]; [68; 1; 193]]) (sd_tracks d).
Proof.
  apply (@sdp_roundtrip ample_memory ample_memory_ok default_settings default_settings_ok).
  - vm_compute. split; congruence.
  - vm_compute. repeat split; congruence.
  - vm_compute. repeat split; congruence.
  - intros _. apply H265_ready; [reflexivity|reflexivity|..|vm_compute; congruence];
      (split; [repeat (constructor; [unfold is_byte; lia|]); constructor|vm_compute; split; congruence]).
  - intros _. exact generator_audio.
Defined.

Lemma sdp_from_stream_witness :
  exists s' txt d, mux_sink_push a_day writes_all true generator VideoPad None sample_buffer = Done (ZST_OK, s', [Sent (text_buffer txt)]) /\
    mx_h264 s' = mk_mux_h264 sample_sps sample_pps "" "" /\
    mx_emitted s' = true /\
    sdp_set_property no_file (SdpDemux.with_config zst_sdp_demuxer_create default_settings) "sdp" txt = Done (ZST_OK, d) /\
    Forall2 (fun P t => P t) (expected_tracks (enable generator VideoPad) "H264" [sample_sps; sample_pps]) (sd_tracks d).
Proof.
  apply (@sdp_from_stream ample_memory ample_memory_ok default_settings a_day writes_all no_file generator sample_buffer sample_stream
    sample_sps sample_pps "").
  - exact default_settings_ok.
  - vm_compute. split; congruence.
  - apply generator_session.
  - apply generator_session.
  - reflexivity.
  - reflexivity.
  - reflexivity.
  - reflexivity.
  - intros _. exact generator_audio.
  - vm_compute. repeat split; congruence.
  - repeat (constructor; [by apply nal_okb_ok|]). constructor.
  - reflexivity.
  - reflexivity.
  - apply sample_sets.
  - apply sample_sets.
  - reflexivity.
  - vm_compute. congruence.
Defined.

Lemma sdp_muxer_safe_witness :
  mux_fits generator /\ exists r s' out,
    mux_sink_push a_day writes_all true generator VideoPad None sample_buffer = Done (r, s', out) /\ mux_fits s'.
Proof.
  apply (@sdp_muxer_safe ample_memory writes_all a_day a_day true generator VideoPad None sample_buffer).
  - eapply reach_step; [eapply reach_step; [apply reach_refl|]|]; apply step_set.
  - split; [by vm_compute|]. intros key data size. by vm_compute.
  - vm_compute. repeat (constructor; [split; congruence|]). constructor.
Defined.

(** ** Inputs it gets wrong *)

(** A newline in the session's name starts a line of its own: another medium here. *)
Example newline_injects :
  let s := set "session-name" (String "x" (String "010" "m=audio 9 RTP/AVP 97")) generator in
  nth_error (text_lines (mx_text s)) 3 = Some "m=audio 9 RTP/AVP 97".
Proof. vm_compute. reflexivity. Qed.

(** NV12, 8 bits and 4:2:0, is announced with 12 bits and 4:2:2; every stream is announced
    as interlaced. *)
Example nv12_misdescribed :
  raw_fmtp (mk_mux_video "raw" true 5004 96 1280 720 "NV12") =
  "a=fmtp:96 sampling=YCbCr-4:2:2;width=1280;height=720;depth=12;interlace" ++ crlf.
Proof. vm_compute. reflexivity. Qed.

(** The property ptp-version changes nothing. *)
Example ptp_version_unused :
  let s := set "media-mode" "st2110" generator in mx_text (set "ptp-version" "2" s) = mx_text s.
Proof. vm_compute. reflexivity. Qed.

(** Sets of 300 and 100 bytes are announced in full, but come out of the demultiplexer cut
    short. *)
Example long_sets_cut :
  let sps := 103 :: repeat 1 299 in
  let pps := 104 :: repeat 2 99 in
  let s := with_h264 generator (mk_mux_h264 sps pps "" "") in
  match sdp_set_property no_file (SdpDemux.with_config zst_sdp_demuxer_create default_settings) "sdp"
          (mx_text (sdp_muxer_generate a_day writes_all s).1.2) with
  | Done (_, d) => (fun x => zlen x) <$> (t ← head (sd_tracks d); tr_extra t)
  | _ => None
  end = Some 359 /\ zlen (start_coded [sps; pps]) = 408.
Proof. vm_compute. split; reflexivity. Qed.

(** When the file cannot be written, open fails, and the start that follows does not. *)
Example start_after_failed_write :
  let s := set "sdp-file" "/x" generator in
  let '(r1, s, _) := sdp_muxer_open a_day writes_none s in
  let '(r2, _, _) := sdp_muxer_start a_day writes_none s in
  r1 = ZST_ERROR /\ r2 = ZST_OK.
Proof. vm_compute. split; reflexivity. Qed.
