(* ===== verification/AacParser.v ===== *)
(** * The ADTS framer: [src/aac_parser.c]

    Raw AAC access units come in, ADTS frames go out.  The decoder's configuration is the
    property "config" or, when that was not set before the first buffer, the field of the
    same name in the capabilities of the sink pad. *)

From Stdlib Require Import Ascii String.
From S2P Require Import Prelude CLib Pad Caps.

Local Open Scope string_scope.
Local Open Scope Z_scope.

Record aac_parser_t := mk_aac {
  ap_profile : Z;
  ap_frequency_index : Z;
  ap_channels : Z;
}.

Definition aac_hex_value (c : ascii) : Z := if digit_val c <? 16 then digit_val c else -1.

(** The first two bytes of the hexadecimal text; the rest is not looked at. *)
Definition config_bytes (hex : string) : option (Z * Z) :=
  match hex with
  | String a (String b (String c (String d _))) =>
      if Nat.odd (String.length hex) then None
      else
        let '(h0, l0, h1, l1) := (aac_hex_value a, aac_hex_value b, aac_hex_value c, aac_hex_value d) in
        if (h0 <? 0) || (l0 <? 0) || (h1 <? 0) || (l1 <? 0) then None
        else Some (Z.lor (Z.shiftl h0 4) l0, Z.lor (Z.shiftl h1 4) l1)
  | _ => None
  end.

(** [None] is the result 0, which leaves the state. *)
Definition parse_audio_specific_config (hex : option string) : option aac_parser_t :=
  hex ← hex;
  b ← config_bytes hex;
  let '(byte0, byte1) := b in
  let object_type := Z.shiftr byte0 3 in
  let frequency_index := Z.lor (Z.shiftl (Z.land byte0 7) 1) (Z.shiftr byte1 7) in
  let channels := Z.land (Z.shiftr byte1 3) 15 in
  if (object_type <? 1) || (4 <? object_type) || (12 <? frequency_index) || (channels <? 1) || (7 <? channels) then None
  else Some (mk_aac (object_type - 1) frequency_index channels).

Definition aac_parser_set_property (s : aac_parser_t) (name : string) (value : option string) : zst_result_t * aac_parser_t :=
  if negb (streq name "config") then (ZST_ERROR, s)
  else
    match parse_audio_specific_config value with
    | Some s => (ZST_OK, s)
    | None => (ZST_ERROR, s)
    end.

(** The configuration found in the sink pad's capabilities, if none was set. *)
Definition lazy_config (s : aac_parser_t) (sink_caps : option zst_caps_t) : option aac_parser_t :=
  if ap_channels s =? 0 then
    match zst_caps_get_string sink_caps "config" with
    | Some (Some config) => parse_audio_specific_config (Some config)
    | _ => None
    end
  else Some s.

Definition is_adts (src : bytes) (size : Z) : bool :=
  (2 <=? size) && (rd src 0 =? 255) && (Z.land (rd src 1) 246 =? 240).

(** The seven bytes in front of a unit; [frame_length] counts them. *)
Definition adts_header (s : aac_parser_t) (frame_length : Z) : bytes :=
  let channels := ap_channels s in
  [255; 241;
   u8 (Z.lor (Z.lor (Z.shiftl (ap_profile s) 6) (Z.shiftl (ap_frequency_index s) 2)) (Z.shiftr channels 2));
   u8 (Z.lor (Z.shiftl (Z.land channels 3) 6) (Z.shiftr frame_length 11));
   u8 (Z.shiftr frame_length 3);
   u8 (Z.lor (Z.shiftl (Z.land frame_length 7) 5) 31);
   252].

Definition aac_frame (s : aac_parser_t) (src : bytes) (size : Z) : bytes :=
  if is_adts src size then sub_bytes 0 size src else (adts_header s (size + 7) ++ sub_bytes 0 size src)%list.

Section Element.
Context {D : Type} `{PadSink D} `{CMemory}.

(** The result, the next state, what [*out] is set to, and the peer of the source pad. *)
Definition aac_parser_process (s : aac_parser_t) (sink_caps : option zst_caps_t) (buf : zst_buffer) (peer : option D)
  : zst_result_t * aac_parser_t * option zst_buffer * option D :=
  let size := mem_size buf in
  match mem_data buf with
  | None => (ZST_ERROR, s, None, peer)
  | Some src =>
      if size =? 0 then (ZST_ERROR, s, None, peer)
      else
        match lazy_config s sink_caps with
        | None => (ZST_ERROR, s, None, peer)
        | Some s =>
            if negb (is_adts src size) && (8184 <? size) then (ZST_ERROR, s, None, peer)
            else if negb (malloc_ok SIZEOF_BUFFER && malloc_ok (size + if is_adts src size then 0 else 7)) then
              (ZST_ERROR, s, None, peer)
            else
              let b := buffer_of ZST_BUFFER_AUDIO_PACKET (buf_flags buf) (buf_pts buf) (buf_dts buf) (buf_duration buf)
                         (aac_frame s src size) in
              match peer with
              | Some _ => let '(r, peer) := push_peer peer b in (r, s, None, peer)
              | None => (ZST_OK, s, Some b, None)
              end
        end
  end.

Definition aac_parser_sink_push (s : aac_parser_t) (sink_caps : option zst_caps_t) (buf : zst_buffer) (peer : option D)
  : zst_result_t * aac_parser_t * option D :=
  let '(r, s, _, peer) := aac_parser_process s sink_caps buf peer in (r, s, peer).

Definition aac_parser_get_caps (stale_size : caps_value -> Z) : option zst_caps_t :=
  caps ← zst_caps_create;
  (zst_caps_append (Some caps) (zst_caps_struct_create_audio stale_size (Some "audio/aac") 0 0 (Some ""))).2.
End Element.

Definition zst_aac_parser_create : aac_parser_t := mk_aac 0 0 0.
