(* ===== verification/AacParserSpec.v ===== *)
(** * What the ADTS framer promises

    [adts_units] reads a stream of ADTS frames the way ISO/IEC 13818-7 lays a frame out,
    by the positions and widths of its fields. *)

From Stdlib Require Import Ascii String.
From S2P Require Import Prelude CLib Pad Caps MediaUtils Sha1 SdpText SdpMux AacParser.

Local Open Scope Z_scope.

(** ** The reference reader *)

(** The bits of a header as one number, and the [width] bits at [off] of a header of 56. *)
Definition be_number (l : bytes) : Z := fold_left (fun acc b => acc * 256 + b) l 0.
Definition header_field (n off width : Z) : Z := n / 2 ^ (56 - off - width) mod 2 ^ width.

Record adts_fields := mk_adts {
  adts_profile : Z;
  adts_rate_index : Z;
  adts_channels : Z;
  adts_length : Z;
}.

(** syncword, ID, layer and protection_absent; one raw data block. *)
Definition adts_read (l : bytes) : option adts_fields :=
  if zlen l <? 7 then None
  else
    let f := header_field (be_number (take 7 l)) in
    if (f 0 12 =? 4095) && (f 12 1 =? 0) && (f 13 2 =? 0) && (f 15 1 =? 1) && (f 54 2 =? 0) then
      Some (mk_adts (f 16 2) (f 18 4) (f 23 3) (f 30 13))
    else None.

Fixpoint adts_units (fuel : nat) (l : bytes) : option (list (adts_fields * bytes)) :=
  match l, fuel with
  | [], _ => Some []
  | _, O => None
  | _, S fuel =>
      h ← adts_read l;
      let n := adts_length h in
      if (n <? 7) || (zlen l <? n) then None
      else rest ← adts_units fuel (drop (Z.to_nat n) l); Some ((h, sub_bytes 7 (n - 7) l) :: rest)
  end.

(** ** The configuration *)

(** Set once, and within what a header can say. *)
Definition configured (s : aac_parser_t) : Prop :=
  0 <= ap_profile s <= 3 /\ 0 <= ap_frequency_index s <= 12 /\ 1 <= ap_channels s <= 7.

Lemma hex_value_range c : -1 <= aac_hex_value c < 16.
Proof. by destruct c as [[] [] [] [] [] [] [] []]. Qed.

Lemma config_bytes_range hex b0 b1 : config_bytes hex = Some (b0, b1) -> is_byte b0 /\ is_byte b1.
Proof.
  destruct hex as [|a [|b [|c [|d hex]]]]; try done. cbn [config_bytes]. case (Nat.odd _); [done|].
  pose proof (hex_value_range a). pose proof (hex_value_range b). pose proof (hex_value_range c). pose proof (hex_value_range d).
  revert H H0 H1 H2. generalize (aac_hex_value a) (aac_hex_value b) (aac_hex_value c) (aac_hex_value d). intros h0 l0 h1 l1 R0 R1 R2 R3.
  case_match eqn:E; [done|]. rewrite !orb_false_iff, !Z.ltb_ge in E. intros [= <- <-].
  rewrite !lor_shiftl_add by lia. unfold is_byte. split; lia.
Qed.

Lemma parsed_configured hex s : parse_audio_specific_config hex = Some s -> configured s.
Proof.
  unfold parse_audio_specific_config. destruct hex as [hex|]; [|done]. cbn [mbind option_bind].
  destruct (config_bytes hex) as [[b0 b1]|] eqn:E; [|done]. apply config_bytes_range in E as [[H0 H0'] [H1 H1']]. cbn [mbind option_bind].
  case_match eqn:G; [done|]. rewrite !orb_false_iff, !Z.ltb_ge in G. intros [= <-]. unfold configured. cbn.
  split_and!; try lia. apply Z.lor_nonneg. split; [apply Z.shiftl_nonneg, Z.land_nonneg; lia|apply Z.shiftr_nonneg; lia].
Qed.

(** The element's states: not configured yet, or configured. *)
Definition aac_ok (s : aac_parser_t) : Prop := ap_channels s = 0 \/ configured s.

Lemma lazy_configured s caps s' : aac_ok s -> lazy_config s caps = Some s' -> configured s'.
Proof.
  unfold lazy_config. intros Hs. destruct (Z.eqb_spec (ap_channels s) 0) as [E|E].
  - destruct (zst_caps_get_string caps "config") as [[c|]|]; try done. apply parsed_configured.
  - intros [= <-]. by destruct Hs.
Qed.

(** ** One frame *)

(** The header as arithmetic. *)
Lemma adts_header_bytes s n : configured s -> 0 <= n < 8192 ->
  adts_header s n =
    [255; 241; ap_profile s * 64 + ap_frequency_index s * 4 + ap_channels s / 4; ap_channels s mod 4 * 64 + n / 2048;
     n / 8 mod 256; n mod 8 * 32 + 31; 252].
Proof.
  intros (Hp & Hf & Hc) Hn. unfold adts_header.
  rewrite (land_ones_mod _ 2 3), (land_ones_mod _ 3 7), !(shiftr_div _ 2 4), !(shiftr_div _ 11 2048), !(shiftr_div _ 3 8) by (done || lia).
  rewrite <-Z.lor_assoc, (lor_shiftl_add (ap_frequency_index s)), (lor_shiftl_add (ap_profile s)) by (done || cint).
  rewrite !lor_shiftl_add by (done || cint). unfold u8.
  repeat f_equal; cint.
Qed.

Lemma header_read s n tl : configured s -> 7 <= n < 8192 ->
  adts_read (adts_header s n ++ tl) = Some (mk_adts (ap_profile s) (ap_frequency_index s) (ap_channels s) n).
Proof.
  intros Hs Hn. unfold adts_read. rewrite !(adts_header_bytes s n) by (done || lia). destruct Hs as (Hp & Hf & Hc).
  rewrite (proj2 (Z.ltb_ge _ _)) by (autorewrite with zlist; pose proof (zlen_nonneg tl); lia).
  rewrite take_app_le by (cbn; lia). cbn [take].
  set (N := be_number _).
  assert (N = 255 * 2 ^ 48 + 241 * 2 ^ 40 + (ap_profile s * 64 + ap_frequency_index s * 4 + ap_channels s / 4) * 2 ^ 32 +
    (ap_channels s mod 4 * 64 + n / 2048) * 2 ^ 24 + n / 8 mod 256 * 2 ^ 16 + (n mod 8 * 32 + 31) * 2 ^ 8 + 252) as EN
    by (subst N; unfold be_number; cbn [fold_left]; lia).
  clearbody N. set (p := ap_profile s) in *. set (f := ap_frequency_index s) in *. set (c := ap_channels s) in *.
  clearbody p f c. subst N. unfold header_field. cbv zeta.
  match goal with |- (if ?b then _ else _) = _ => assert (b = true) as -> end.
  { rewrite !andb_true_iff, !Z.eqb_eq. split_and!; cint. }
  do 2 f_equal; cint.
Qed.

(** ** All states *)

(** One call of the application or of an element upstream. *)
Inductive aac_step {D} `{PadSink D} `{CMemory} : aac_parser_t * option D -> aac_parser_t * option D -> Prop :=
| aac_sets s (peer : option D) name value : aac_step (s, peer) ((aac_parser_set_property s name value).2, peer)
| aac_takes s (peer peer' : option D) caps b r s' : aac_parser_sink_push s caps b peer = (r, s', peer') ->
    aac_step (s, peer) (s', peer').

Lemma process_state {D} `{PadSink D} `{CMemory} s caps b (peer : option D) :
  (aac_parser_sink_push s caps b peer).1.2 = s \/ lazy_config s caps = Some (aac_parser_sink_push s caps b peer).1.2.
Proof.
  unfold aac_parser_sink_push, aac_parser_process. destruct (mem_data b) as [d|]; [|by left].
  case (_ =? 0); [by left|]. destruct (lazy_config s caps) as [s'|]; [|by left].
  case (_ && _); [by right|]. case (negb _); [by right|]. destruct peer; [|by right]. destruct (push_peer _ _). by right.
Qed.

Lemma aac_reach_ok {D} `{PadSink D} `{CMemory} s (peer peer' : option D) :
  reach aac_step (zst_aac_parser_create, peer) (s, peer') -> aac_ok s.
Proof.
  intros Hr. change s with (s, peer').1. eapply (reach_inv aac_step (fun x => aac_ok x.1)); [|intros x y|exact Hr]; [by left|].
  intros Hx Hstep. destruct Hstep as [s1 p name value|s1 p p' caps b r s2 E]; cbn [fst] in *.
  - unfold aac_parser_set_property. case (negb _); [done|]. destruct (parse_audio_specific_config value) eqn:E; [|done].
    cbn [snd]. right. by eapply parsed_configured.
  - destruct (process_state s1 caps b p) as [E'|E']; rewrite E in E'; cbn [fst snd] in E'; [by subst|]. right. by eapply lazy_configured.
Qed.

(** ** A stream *)

(** A buffer with one raw access unit that a header can count. *)
Record raw_unit (b : zst_buffer) : Prop := mk_raw {
  ru_ok : buffer_ok b;
  ru_data : is_Some (mem_data b);
  ru_size : 1 <= mem_size b <= 8184;
  ru_raw : is_adts (buf_bytes b) (mem_size b) = false;
}.

(** The frame of a unit. *)
Definition adts_frame (s : aac_parser_t) (b : zst_buffer) : bytes := (adts_header s (mem_size b + 7) ++ buf_bytes b)%list.

Definition frame_buffer (s : aac_parser_t) (b : zst_buffer) : zst_buffer :=
  buffer_of ZST_BUFFER_AUDIO_PACKET (buf_flags b) (buf_pts b) (buf_dts b) (buf_duration b) (adts_frame s b).

(** Units pushed one after the other, with all their results. *)
Fixpoint push_each {D} `{PadSink D} `{CMemory} (s : aac_parser_t) (caps : option zst_caps_t) (bs : list zst_buffer) (peer : option D)
  : list zst_result_t * aac_parser_t * option D :=
  match bs with
  | [] => ([], s, peer)
  | b :: bs =>
      let '(r, s, peer) := aac_parser_sink_push s caps b peer in
      let '(rs, s, peer) := push_each s caps bs peer in (r :: rs, s, peer)
  end.

Lemma zlen_buf b : buffer_ok b -> is_Some (mem_data b) -> zlen (buf_bytes b) = mem_size b.
Proof.
  intros (Hn & _ & Hd) [d E]. unfold buf_bytes. rewrite E in Hd |- *. by apply zlen_sub_bytes; lia.
Qed.

Lemma is_adts_sub src size : 0 <= size <= zlen src -> is_adts (sub_bytes 0 size src) size = is_adts src size.
Proof.
  intros Hn. unfold is_adts. destruct (Z.leb_spec 2 size) as [H2|]; [|done]. cbn [andb].
  unfold rd, sub_bytes. cbn [Z.to_nat drop]. by rewrite !lookup_take_lt by lia.
Qed.

Lemma aac_frame_raw s b d : mem_data b = Some d -> raw_unit b ->
  is_adts d (mem_size b) = false /\ aac_frame s d (mem_size b) = adts_frame s b.
Proof.
  intros E [(Hn & _ & Hd) _ Hs Hr]. rewrite E in Hd. unfold buf_bytes in Hr. rewrite E in Hr. rewrite is_adts_sub in Hr by lia.
  split; [done|]. unfold aac_frame, adts_frame, buf_bytes. by rewrite Hr, E.
Qed.

Lemma push_unit `{CMemoryOk} s s1 caps b (out : trace) : lazy_config s caps = Some s1 -> raw_unit b ->
  aac_parser_sink_push s caps b (Some out) = (ZST_OK, s1, Some ((out ++ [frame_buffer s1 b])%list : trace)).
Proof.
  intros E Hb. destruct (ru_data b Hb) as [d Ed]. destruct (aac_frame_raw s1 b d Ed Hb) as [Er Ef]. pose proof (ru_size b Hb).
  unfold aac_parser_sink_push, aac_parser_process. rewrite Ed, E, Er, Ef, !malloc_total.
  rewrite (proj2 (Z.eqb_neq _ _)), (proj2 (Z.ltb_ge _ _)) by lia. done.
Qed.

Lemma lazy_again s caps : configured s -> lazy_config s caps = Some s.
Proof. intros (_ & _ & H). unfold lazy_config. by rewrite (proj2 (Z.eqb_neq _ _)) by lia. Qed.

Lemma push_units_frames `{CMemoryOk} caps bs : forall s s1 (out : trace), aac_ok s -> lazy_config s caps = Some s1 ->
  Forall raw_unit bs -> exists s2,
  push_each s caps bs (Some out) = (replicate (length bs) ZST_OK, s2, Some ((out ++ (frame_buffer s1 <$> bs))%list : trace)).
Proof.
  induction bs as [|b bs IH]; intros s s1 out Hs E Hbs; [exists s; by rewrite app_nil_r|]. apply Forall_cons in Hbs as [Hb Hbs].
  pose proof (lazy_configured _ _ _ Hs E) as Hs1. cbn [push_each]. rewrite (push_unit s s1) by done.
  destruct (IH s1 s1 (out ++ [frame_buffer s1 b])%list) as [s2 E2]; [by right|by apply lazy_again|done|].
  exists s2. cbn beta iota. rewrite E2. cbn. by rewrite <-app_assoc.
Qed.

Lemma frame_length s n : zlen (adts_header s n) = 7.
Proof. done. Qed.

Lemma units_of_frames s bs : configured s -> Forall raw_unit bs ->
  adts_units (length bs) (concat (adts_frame s <$> bs)) =
  Some ((fun b => (mk_adts (ap_profile s) (ap_frequency_index s) (ap_channels s) (mem_size b + 7), buf_bytes b)) <$> bs).
Proof.
  intros Hs. induction bs as [|b bs IH]; [done|]. intros [Hb Hbs]%Forall_cons. pose proof (ru_size b Hb) as Hn.
  pose proof (zlen_buf b (ru_ok b Hb) (ru_data b Hb)) as Hl. cbn [fmap list_fmap concat length adts_units].
  set (rest := concat _) in *. unfold adts_frame at 1 2. 
  change (adts_frame s b ++ rest) with ((adts_header s (mem_size b + 7) ++ buf_bytes b) ++ rest)%list. rewrite <-app_assoc.
  rewrite header_read by (done || lia). cbn [mbind option_bind adts_length].
  rewrite (proj2 (Z.ltb_ge _ 7)) by lia. rewrite (proj2 (Z.ltb_ge _ _)) by (rewrite !zlen_app, frame_length, Hl; pose proof (zlen_nonneg rest); lia).
  cbn [orb]. rewrite app_assoc, drop_app_length' by (apply Nat2Z.inj; rewrite length_app; unfold zlen in *; cbn [length adts_header]; lia).
  rewrite IH by done. cbn [mbind option_bind adts_header app].
  match goal with |- context [sub_bytes 7 ?n ?l] => assert (sub_bytes 7 n l = buf_bytes b) as -> end; [|done].
  replace (mem_size b + 7 - 7) with (zlen (buf_bytes b)) by lia. unfold sub_bytes.
  change (Z.to_nat 7) with 7%nat. cbn [drop]. apply take_app_length'. unfold zlen. lia.
Qed.

Definition stamps (b : zst_buffer) : Z * Z * Z * Z := (buf_pts b, buf_dts b, buf_duration b, buf_flags b).

(** C15. In any state, whatever access units are pushed, once a configuration is known every push succeeds
    and what is sent, put end to end, is a stream of ADTS frames from which a reader of
    the standard gets the same units back, with the configured profile, rate and channels
    in every header; times and flags are kept. *)
Theorem adts_roundtrip `{CMemoryOk} (p p' : option trace) caps s s1 bs :
  reach aac_step (zst_aac_parser_create, p) (s, p') -> lazy_config s caps = Some s1 -> Forall raw_unit bs ->
  exists s2 (out : trace), push_each s caps bs (Some ([] : trace)) = (replicate (length bs) ZST_OK, s2, Some out) /\
    adts_units (length bs) (concat (buf_bytes <$> out)) =
      Some ((fun b => (mk_adts (ap_profile s1) (ap_frequency_index s1) (ap_channels s1) (mem_size b + 7), buf_bytes b)) <$> bs) /\
    (stamps <$> out) = (stamps <$> bs).
Proof.
  intros Hs%aac_reach_ok E Hbs. destruct (push_units_frames caps bs s s1 [] Hs E Hbs) as [s2 E2]. exists s2, (frame_buffer s1 <$> bs).
  split; [exact E2|]. rewrite <-!list_fmap_compose. split.
  - rewrite <-(units_of_frames s1) by (done || by eapply lazy_configured). do 2 f_equal. apply list_fmap_ext. intros i b _.
    apply buf_bytes_of.
  - by apply list_fmap_ext.
Qed.

(** ** With the generator of descriptions *)

(** What a framer's state and the text it came from have to do with each other. *)
Lemma parsed_fields hex s b0 b1 : parse_audio_specific_config (Some hex) = Some s -> config_bytes hex = Some (b0, b1) ->
  b0 = (ap_profile s + 1) * 8 + ap_frequency_index s / 2 /\
  Z.land b1 248 = ap_frequency_index s mod 2 * 128 + ap_channels s * 8.
Proof.
  intros E Eb. pose proof (parsed_configured _ _ E) as (_ & _ & Hc). pose proof (config_bytes_range _ _ _ Eb) as [H0 H1].
  unfold parse_audio_specific_config in E. cbn [mbind option_bind] in E. rewrite Eb in E. cbn [mbind option_bind] in E.
  case_match; [done|]. injection E as <-. cbn [ap_profile ap_frequency_index ap_channels] in *.
  assert (Z.land b1 248 = b1 / 8 * 8) as ->.
  { revert b1 H1 Eb Hc H. intros b1 H1 _ _ _. apply Z.eqb_eq. revert b1 H1. apply byte_forall. by vm_compute. }
  rewrite (land_ones_mod _ 3 7), (land_ones_mod _ 4 15), !(shiftr_div _ 3 8), (shiftr_div _ 7 128) in * by lia.
  rewrite lor_shiftl_add by (unfold is_byte in H1; cint). unfold is_byte in *. cint.
Qed.

Lemma aac_rates_total i : 0 <= i <= 12 -> sdp_muxer_aac_rates !! Z.to_nat i = Some (sdp_muxer_aac_rate_from_index i).
Proof.
  intros Hi. unfold sdp_muxer_aac_rate_from_index. destruct (lookup_lt_is_Some_2 sdp_muxer_aac_rates (Z.to_nat i)) as [r ->]; [|done].
  change (length sdp_muxer_aac_rates) with 13%nat. lia.
Qed.

(** The frames tell the generator downstream what it has to announce: after any frame of
    a framer configured from a text, its rate and channels are those of the text, and its
    AudioSpecificConfig is the text's first two bytes, the last three bits cleared. *)
Theorem adts_configures_generator hex s b b0 b1 a :
  parse_audio_specific_config (Some hex) = Some s -> config_bytes hex = Some (b0, b1) -> raw_unit b ->
  let a' := sdp_muxer_parse_aac_adts a (adts_frame s b) (zlen (adts_frame s b)) in
  ma_config a' = [b0; Z.land b1 248] /\ ma_channels a' = ap_channels s /\
  sdp_muxer_aac_rates !! Z.to_nat (ap_frequency_index s) = Some (ma_rate a') /\
  (ma_codec a', ma_port a', ma_pt a') = (ma_codec a, ma_port a, ma_pt a).
Proof.
  intros E Eb Hb. pose proof (parsed_configured _ _ E) as Hs. destruct (parsed_fields _ _ _ _ E Eb) as [-> ->].
  pose proof (ru_size b Hb) as Hn. pose proof (zlen_buf b (ru_ok b Hb) (ru_data b Hb)) as Hl. cbv zeta.
  unfold sdp_muxer_parse_aac_adts, adts_frame. rewrite zlen_app, frame_length, (proj2 (Z.ltb_ge _ 7)) by lia.
  rewrite (adts_header_bytes s) by (done || lia). destruct Hs as (Hp & Hf & Hc). cbn [app].
  rewrite (aac_rates_total (ap_frequency_index s)) by lia.
  set (p := ap_profile s) in *. set (f := ap_frequency_index s) in *. set (c := ap_channels s) in *. clearbody p f c.
  set (b2 := p * 64 + f * 4 + c / 4). set (b3 := c mod 4 * 64 + (mem_size b + 7) / 2048). set (l := (255 :: _)%list).
  change (rd l 0) with 255. change (rd l 1) with 241. change (rd l 2) with b2. change (rd l 3) with b3.
  change (negb (255 =? 255) || negb (Z.land 241 240 =? 240)) with false. cbv iota.
  assert (Z.land (Z.shiftr b2 6) 3 = p) as -> by (rewrite (land_ones_mod _ 2 3), (shiftr_div _ 6 64) by done; subst b2; cint).
  assert (Z.land (Z.shiftr b2 2) 15 = f) as -> by (rewrite (land_ones_mod _ 4 15), (shiftr_div _ 2 4) by done; subst b2; cint).
  assert (Z.lor (Z.shiftl (Z.land b2 1) 2) (Z.land (Z.shiftr b3 6) 3) = c) as ->.
  { rewrite (land_ones_mod _ 2 3), (land_ones_mod _ 1 1), (shiftr_div _ 6 64) by done.
    change (2 ^ 1) with 2. rewrite lor_shiftl_add by (done || cint). change (2 ^ 2) with 4. subst b2 b3. cint. }
  rewrite (proj2 (Z.ltb_lt 0 c)) by lia. cbn [with_aac ma_config ma_channels ma_rate ma_codec ma_port ma_pt]. split_and!; try done.
  unfold asc_bytes. rewrite (Z.shiftl_mul_pow2 c 3), (land_ones_mod _ 1 1), (shiftr_div _ 1 2) by done.
  rewrite !lor_shiftl_add by (done || cint). change (2 ^ 1) with 2. repeat f_equal; cint.
Qed.


(** ** On concrete inputs *)

Local Open Scope string_scope.
Local Open Scope Z_scope.

Definition two_units : list zst_buffer :=
  [buffer_of ZST_BUFFER_AUDIO_PACKET 0 1000 1000 21 [33; 17; 69]; buffer_of ZST_BUFFER_AUDIO_PACKET 0 1021 1021 21 [33; 0; 3; 64; 104]].

(** AAC LC, 48 kHz, two channels. *)
Definition stereo : aac_parser_t := mk_aac 1 3 2.

Lemma two_units_raw : Forall raw_unit two_units.
Proof. repeat constructor; try done; try (by eexists); repeat (split; [by vm_compute|]); by vm_compute. Qed.

Lemma adts_roundtrip_witness :
  exists s2 (out : trace),
    push_each (H0 := ample_memory) stereo None two_units (Some ([] : trace)) = ([ZST_OK; ZST_OK], s2, Some out) /\
    adts_units 2 (concat (buf_bytes <$> out)) =
      Some [(mk_adts 1 3 2 10, [33; 17; 69]); (mk_adts 1 3 2 12, [33; 0; 3; 64; 104])] /\
    (stamps <$> out) = (stamps <$> two_units).
Proof.
  apply (@adts_roundtrip ample_memory ample_memory_ok None None None stereo stereo two_units); [|reflexivity|exact two_units_raw].
  eapply reach_step; [apply reach_refl|]. apply (aac_sets zst_aac_parser_create None "config" (Some "1190")).
Defined.

Lemma adts_configures_generator_witness :
  let a := sdp_muxer_parse_aac_adts (mx_audio mux_defaults) [255; 241; 76; 128; 1; 95; 252; 33; 17; 69] 10 in
  ma_config a = [17; 144] /\ ma_channels a = 2 /\ Some 48000 = Some (ma_rate a) /\ (ma_codec a, ma_port a, ma_pt a) = ("aac", 5006, 97)%string.
Proof.
  apply (adts_configures_generator "1190" stereo (buffer_of ZST_BUFFER_AUDIO_PACKET 0 1000 1000 21 [33; 17; 69]) 17 144 (mx_audio mux_defaults));
    [reflexivity|reflexivity|]. exact (proj1 (proj1 (Forall_cons _ _ _) two_units_raw)).
Defined.

(** Only the first two bytes of the text are looked at: what follows may be anything. *)
Example config_tail_ignored : parse_audio_specific_config (Some "1190zz") = Some stereo.
Proof. reflexivity. Qed.

(** The capabilities that the element itself offers name no configuration, so with a pad
    that has none every buffer is refused. *)
Example own_caps_no_config : lazy_config zst_aac_parser_create (@aac_parser_get_caps ample_memory (fun _ => 0)) = None.
Proof. by vm_compute. Qed.
