(* ===== verification/St211021.v ===== *)
(** * Paced H.264 and H.265: [src/st2110_21_payloader.c], [src/st2110_21_depayloader.c]

    The payloader cuts an access unit into RTP packets and, before each, waits for the
    time at which it is due; the times are a log here, as waiting only delays.  The
    depayloader puts the units of a frame together until the marker. *)

From Stdlib Require Import String.
From S2P Require Import Prelude CLib Pad MediaUtils.

Local Open Scope string_scope.
Local Open Scope Z_scope.

(** ** The payloader *)

Record pay21_t := mk_pay21 {
  p21_mtu : Z;
  p21_pt : Z;
  p21_ssrc : Z;
  p21_seq : Z;
  p21_ext_seq : Z;
  p21_fps_num : Z;
  p21_fps_den : Z;
  p21_h265 : bool;
  p21_pacing : bool;
}.

Definition pay21_set_property (s : pay21_t) (name value : string) : zst_result_t * pay21_t :=
  let '(mk_pay21 mtu pt ssrc seq ext num den h265 pacing) := s in
  let n := atoi value in
  if streq name "mtu" then (ZST_OK, mk_pay21 n pt ssrc seq ext num den h265 pacing)
  else if streq name "rtp-pt" then (ZST_OK, mk_pay21 mtu n ssrc seq ext num den h265 pacing)
  else if streq name "fps-num" then (ZST_OK, mk_pay21 mtu pt ssrc seq ext n den h265 pacing)
  else if streq name "fps-den" then (ZST_OK, mk_pay21 mtu pt ssrc seq ext num n h265 pacing)
  else if streq name "pacing" then (ZST_OK, mk_pay21 mtu pt ssrc seq ext num den h265 (streq value "on"))
  else if streq name "codec" then (ZST_OK, mk_pay21 mtu pt ssrc seq ext num den (streq value "h265") pacing)
  else (ZST_ERROR_NOT_IMPLEMENTED, s).

Definition pay21_get_property (s : pay21_t) (name : string) (max_len : Z) : option string :=
  if streq name "mtu" then Some (snprintf max_len (show_Z (p21_mtu s)))
  else if streq name "rtp-pt" then Some (snprintf max_len (show_Z (p21_pt s)))
  else if streq name "codec" then Some (snprintf max_len (if p21_h265 s then "h265" else "h264"))
  else None.

Definition zst_st2110_21_payloader_create : pay21_t := mk_pay21 1200 96 554705152 0 0 60 1 false true.

(** The twelve bytes of the RTP header. *)
Definition pay21_header (s : pay21_t) (rtp_ts : Z) (marker : bool) : bytes :=
  [128; u8 (Z.lor (if marker then 128 else 0) (Z.land (p21_pt s) 127));
   u8 (Z.shiftr (p21_seq s) 8); u8 (Z.land (p21_seq s) 255);
   u8 (Z.shiftr rtp_ts 24); u8 (Z.shiftr rtp_ts 16); u8 (Z.shiftr rtp_ts 8); u8 rtp_ts;
   u8 (Z.shiftr (p21_ssrc s) 24); u8 (Z.shiftr (p21_ssrc s) 16); u8 (Z.shiftr (p21_ssrc s) 8); u8 (p21_ssrc s)].

Definition next_seq (s : pay21_t) : pay21_t :=
  let '(mk_pay21 mtu pt ssrc seq ext num den h265 pacing) := s in
  let seq := u16 (seq + 1) in
  mk_pay21 mtu pt ssrc seq (if seq =? 0 then u32 (ext + 65536) else ext) num den h265 pacing.

(** One call of [payloader_process] under way: the element, the peer of its source pad,
    the time of the next packet and the times waited for. *)
Record pay21_run (D : Type) := mk_run21 {
  r21_s : pay21_t;
  r21_peer : option D;
  r21_ts : Z;
  r21_waits : list Z;
}.
Arguments mk_run21 {D}. Arguments r21_s {D}. Arguments r21_peer {D}. Arguments r21_ts {D}. Arguments r21_waits {D}.

Section Payloader.
Context {D : Type} `{PadSink D} `{CMemory}.

(** [payload] are the bytes from the pointer on.  [Fault]: the block was not allocated,
    which is not looked at, or is too small for the header. *)
Definition make_packet (s : pay21_t) (hdr payload : bytes) (payload_len rtp_ts : Z) (marker : bool) (pts : Z)
  : outcome (option zst_buffer * pay21_t) :=
  if negb (malloc_ok SIZEOF_BUFFER) then mret (None, s)
  else if negb (malloc_ok (12 + zlen hdr + payload_len)) || (payload_len <? 0) || (zlen payload <? payload_len) then Fault
  else
    mret (Some (buffer_of ZST_BUFFER_VIDEO_PACKET 0 pts pts 0
                  (pay21_header s rtp_ts marker ++ hdr ++ sub_bytes 0 payload_len payload)%list), next_seq s).

Section Frame.
(** Of the frame: its RTP time, its time, and the time between two packets. *)
Context (ts pts interval : Z).

(** A packet made, waited for and pushed; a packet that was not made is NULL, which the
    pad refuses. *)
Definition send_packet (r : pay21_run D) (hdr payload : bytes) (payload_len : Z) (marker : bool)
  : outcome (zst_result_t * pay21_run D) :=
  x ← make_packet (r21_s r) hdr payload payload_len ts marker pts;
  let '(pkt, s) := x in
  let waits := if p21_pacing s then (r21_waits r ++ [r21_ts r])%list else r21_waits r in
  let next := u64 (r21_ts r + interval) in
  match pkt with
  | Some b => let '(ret, peer) := push_peer (r21_peer r) b in mret (ret, mk_run21 s peer next waits)
  | None => mret (ZST_ERROR, mk_run21 s (r21_peer r) next waits)
  end.

(** Both codecs' loop over the fragments of a unit: [ind] are the bytes of the fragment
    header before its last, [nal_type]; [Unfinished] when a fragment has no room for a
    byte. *)
Fixpoint fu_loop (fuel : nat) (r : pay21_run D) (ind : bytes) (nal_type : Z) (nal : bytes)
    (nal_len max_chunk off : Z) (first marker : bool) : outcome (pay21_run D) :=
  if off <? nal_len then
    match fuel with
    | O => Unfinished
    | S fuel =>
        let chunk := nal_len - off in
        let chunk := if max_chunk <? chunk then max_chunk else chunk in
        let fu := if first then Z.lor nal_type 128 else nal_type in
        let fu := if nal_len <=? off + chunk then Z.lor fu 64 else fu in
        x ← send_packet r (ind ++ [fu])%list (drop (Z.to_nat off) nal) chunk (marker && (nal_len <=? off + chunk));
        fu_loop fuel x.2 ind nal_type nal nal_len max_chunk (off + chunk) false marker
    end
  else mret r.

(** [nal] are the bytes from the unit on. *)
Definition send_nal (r : pay21_run D) (nal : bytes) (nal_len : Z) (marker : bool) : outcome (zst_result_t * pay21_run D) :=
  let max_payload := p21_mtu (r21_s r) - 12 in
  if nal_len <=? max_payload then send_packet r [] nal nal_len marker
  else if negb (p21_h265 (r21_s r)) then
    if zlen nal <? 1 then Fault
    else
      r ← fu_loop (Z.to_nat nal_len) r [Z.lor (Z.land (rd nal 0) 224) 28] (Z.land (rd nal 0) 31) nal nal_len
            (max_payload - 2) 1 true marker;
      mret (ZST_OK, r)
  else if zlen nal <? 2 then Fault
  else
    r ← fu_loop (Z.to_nat nal_len) r [Z.lor (Z.land (rd nal 0) 129) 98; rd nal 1] (Z.shiftr (Z.land (rd nal 0) 126) 1) nal nal_len
          (max_payload - 3) 2 true marker;
    mret (ZST_OK, r).

(** The loop over the units; each round begins behind a start code further on. *)
Fixpoint send_units (fuel : nat) (r : pay21_run D) (data : bytes) (size pos code : Z) : outcome (pay21_run D) :=
  if (0 <=? pos) && (pos <? size) then
    match fuel with
    | O => Unfinished
    | S fuel =>
        let nal_start := pos + code in
        let '(next, next_code) := zst_find_start_code data size nal_start in
        let nal_end := if 0 <=? next then next else size in
        let nal_end := if nal_start <? nal_end then trim_zeros (Z.to_nat (nal_end - nal_start)) data nal_start else nal_end in
        let nal_len := nal_end - nal_start in
        r ← if 0 <? nal_len then x ← send_nal r (drop (Z.to_nat nal_start) data) nal_len (next <? 0); mret x.2 else mret r;
        send_units fuel r data size next next_code
    end
  else mret r.
End Frame.

(** The time between two packets: the frame's share of a second over the packets it is
    expected to take; [Fault] for a division by zero. *)
Definition pacing_interval (s : pay21_t) (size : Z) : outcome Z :=
  let frame_duration_ns :=
    if 0 <? p21_fps_num s then u64 (1000000000 * u64 (p21_fps_den s)) / p21_fps_num s else 16666666 in
  if p21_mtu s =? 12 then Fault else udiv frame_duration_ns (u64 (Z.quot size (p21_mtu s - 12) + 1)).

Definition pay21_process (s : pay21_t) (peer : option D) (buf : zst_buffer) : outcome (zst_result_t * pay21_run D) :=
  let data := default [] (mem_data buf) in
  let size := s32 (mem_size buf) in
  let pts := buf_pts buf in
  let ts := u32 (u64 (pts * 90000) / 1000000000) in
  interval ← pacing_interval s size;
  let r := mk_run21 s peer pts [] in
  let '(pos, code) := zst_find_start_code data size 0 in
  r ← if pos <? 0 then x ← send_nal ts pts interval r data size true; mret x.2
      else send_units ts pts interval (Z.to_nat size) r data size pos code;
  mret (ZST_OK, r).
End Payloader.

(** ** The depayloader *)

Record depay21_t := mk_depay21 {
  d21_h265 : bool;
  d21_au : bytes;
  d21_capacity : Z;
  d21_pts : Z;
}.

Definition depay21_set_property (d : depay21_t) (name value : string) : zst_result_t * depay21_t :=
  if streq name "codec" then (ZST_OK, mk_depay21 (streq value "h265") (d21_au d) (d21_capacity d) (d21_pts d))
  else (ZST_ERROR_NOT_IMPLEMENTED, d).

Definition depay21_get_property (d : depay21_t) (name : string) (max_len : Z) : option string :=
  if streq name "codec" then Some (snprintf max_len (if d21_h265 d then "h265" else "h264")) else None.

Definition depay21_stop (d : depay21_t) : zst_result_t * depay21_t := (ZST_OK, mk_depay21 (d21_h265 d) [] 0 (d21_pts d)).

Definition zst_st2110_21_depayloader_create : depay21_t := mk_depay21 false [] 0 0.

Definition with_pts (d : depay21_t) (pts : Z) : depay21_t := mk_depay21 (d21_h265 d) (d21_au d) (d21_capacity d) pts.

Section Depayloader.
Context {D : Type} `{PadSink D} `{CMemory}.

Definition grown_capacity (need : Z) : Z :=
  let cap := u64 (smear [1; 2; 4; 8; 16; 32] (need - 1) + 1) in if cap <? 16384 then 16384 else cap.

(** Nothing is appended when the block cannot grow; no caller looks at the result. *)
Definition append_au (d : depay21_t) (data : bytes) : depay21_t :=
  let need := zlen (d21_au d) + zlen data in
  let append cap := mk_depay21 (d21_h265 d) (d21_au d ++ data)%list cap (d21_pts d) in
  if d21_capacity d <? need then if malloc_ok (grown_capacity need) then append (grown_capacity need) else d
  else append (d21_capacity d).

(** [Fault]: the copy's block was not allocated, which is not looked at. *)
Definition push_au (d : depay21_t) (peer : option D) : outcome (zst_result_t * depay21_t * option D) :=
  if zlen (d21_au d) =? 0 then mret (ZST_OK, d, peer)
  else if negb (malloc_ok SIZEOF_BUFFER) then mret (ZST_ERROR, d, peer)
  else if negb (malloc_ok (zlen (d21_au d))) then Fault
  else
    let out := buffer_of ZST_BUFFER_VIDEO_FRAME 0 (d21_pts d) (d21_pts d) 0 (d21_au d) in
    let '(ret, peer) := push_peer peer out in
    mret (ret, mk_depay21 (d21_h265 d) [] (d21_capacity d) (d21_pts d), peer).

Definition push_nal (d : depay21_t) (payload : bytes) (pts : Z) : depay21_t :=
  append_au (append_au (with_pts d pts) [0; 0; 0; 1]) payload.

Definition handle_fu_chunk (d : depay21_t) (payload nal_header : bytes) (is_start : bool) (pts : Z) : depay21_t :=
  let d := if is_start then append_au (append_au (with_pts d pts) [0; 0; 0; 1]) nal_header else d in
  append_au d payload.

(** The payload of a packet: from behind its header to its end; [None] when there is
    none. *)
Definition payload_of (pkt : bytes) (size : Z) : option bytes :=
  if size <? 12 then None
  else
    let off := 12 + Z.land (rd pkt 0) 15 * 4 in
    if negb (Z.land (rd pkt 0) 16 =? 0) && (size <? off + 4) then None
    else
      let off := if negb (Z.land (rd pkt 0) 16 =? 0) then off + 4 + be16 (rd pkt (off + 2)) (rd pkt (off + 3)) * 4 else off in
      if size <=? off then None else Some (sub_bytes off (size - off) pkt).

Definition take_h264 (d : depay21_t) (p : bytes) (pts : Z) : option depay21_t :=
  let nal_type := Z.land (rd p 0) 31 in
  if negb (nal_type =? 28) && negb (nal_type =? 24) then Some (push_nal d p pts)
  else if nal_type =? 28 then
    if zlen p <? 2 then None
    else
      Some (handle_fu_chunk d (drop 2 p) [Z.lor (Z.land (rd p 0) 224) (Z.land (rd p 1) 31)]
              (negb (Z.land (rd p 1) 128 =? 0)) pts)
  else Some d.

Definition take_h265 (d : depay21_t) (p : bytes) (pts : Z) : option depay21_t :=
  let nal_type := Z.shiftr (Z.land (rd p 0) 126) 1 in
  if negb (nal_type =? 49) && negb (nal_type =? 48) then Some (push_nal d p pts)
  else if nal_type =? 49 then
    if zlen p <? 3 then None
    else
      Some (handle_fu_chunk d (drop 3 p) [Z.lor (Z.land (rd p 0) 129) (Z.shiftl (Z.land (rd p 2) 63) 1); rd p 1]
              (negb (Z.land (rd p 2) 128 =? 0)) pts)
  else Some d.

Definition depay21_process (d : depay21_t) (peer : option D) (buf : zst_buffer)
  : outcome (zst_result_t * depay21_t * option D) :=
  let pkt := default [] (mem_data buf) in
  match payload_of pkt (mem_size buf) with
  | None => mret (ZST_OK, d, peer)
  | Some p =>
      match (if d21_h265 d then take_h265 else take_h264) d p (buf_pts buf) with
      | None => mret (ZST_OK, d, peer)
      | Some d =>
          if negb (Z.land (rd pkt 1) 128 =? 0) then x ← push_au d peer; mret (ZST_OK, x.1.2, x.2)
          else mret (ZST_OK, d, peer)
      end
  end.
End Depayloader.
