(* ===== verification/St211021Spec.v ===== *)
(** * What the ST 2110-21 elements promise

    A frame cut by the payloader and put together by the depayloader comes out the same;
    its packets are numbered one after the other and are due at equal distances. *)

From S2P Require Import Prelude CLib Pad MediaUtils St211021.

Local Open Scope Z_scope.

(** ** Numbers at equal distances *)

Definition spaced (w : Z -> Z) (x step : Z) (n : nat) : list Z := (fun k => w (x + step * Z.of_nat k)) <$> seq 0 n.

(** Wrap-around: only what is left over counts. *)
Class Wraps (w : Z -> Z) := wraps : forall a b, w (w a + b) = w (a + b).
#[export] Instance u16_wraps : Wraps u16.
Proof. intros a b. unfold u16. apply Z.add_mod_idemp_l. lia. Qed.
#[export] Instance u64_wraps : Wraps u64.
Proof. intros a b. unfold u64. apply Z.add_mod_idemp_l. lia. Qed.

Lemma spaced_S `{Wraps w} x step n : spaced w x step (S n) = w x :: spaced w (w (x + step)) step n.
Proof.
  unfold spaced. cbn [seq fmap list_fmap]. f_equal; [f_equal; lia|]. rewrite <-fmap_S_seq, <-list_fmap_compose. apply list_fmap_ext.
  intros i k _. cbn. rewrite wraps. f_equal. lia.
Qed.

Lemma spaced_app `{Wraps w} x step n m :
  spaced w x step (n + m) = (spaced w x step n ++ spaced w (w (x + step * Z.of_nat n)) step m)%list.
Proof.
  unfold spaced. rewrite seq_app, fmap_app. f_equal. cbn [Nat.add]. rewrite <-(Nat.add_0_r n) at 1. rewrite <-fmap_add_seq, <-list_fmap_compose.
  apply list_fmap_ext. intros i k _. cbn. rewrite wraps. f_equal. lia.
Qed.

(** ** What a run sends *)

Definition rtp_seq (b : zst_buffer) : Z := be16 (rd (buf_bytes b) 2) (rd (buf_bytes b) 3).

Definition same_settings (s s' : pay21_t) : Prop :=
  p21_mtu s' = p21_mtu s /\ p21_h265 s' = p21_h265 s /\ p21_pacing s' = p21_pacing s.

(** From [r] to [r'] the packets [ps] go out. *)
Record sends (interval : Z) (r r' : pay21_run trace) (ps : trace) : Prop := mk_sends {
  sn_peer : r21_peer r' = (fun out => (out ++ ps)%list) <$> r21_peer r;
  sn_settings : same_settings (r21_s r) (r21_s r');
  sn_seq : p21_seq (r21_s r') = u16 (p21_seq (r21_s r) + Z.of_nat (length ps));
  sn_seqs : rtp_seq <$> ps = spaced u16 (p21_seq (r21_s r)) 1 (length ps);
  sn_ts : r21_ts r' = u64 (r21_ts r + interval * Z.of_nat (length ps));
  sn_waits : r21_waits r' =
    (r21_waits r ++ if p21_pacing (r21_s r) then spaced u64 (r21_ts r) interval (length ps) else [])%list;
}.

Definition run_ok (r : pay21_run trace) : Prop :=
  is_Some (r21_peer r) /\ 0 <= p21_seq (r21_s r) < 65536 /\ 0 <= r21_ts r < 18446744073709551616.

Lemma sends_ok interval r r' ps : run_ok r -> sends interval r r' ps -> run_ok r'.
Proof.
  intros ((out & E) & _ & _) [H1 _ H2 _ H3 _]. unfold run_ok. rewrite H1, H2, H3, E. split_and!; [by eexists|cint..].
Qed.

Lemma sends_nil interval r : run_ok r -> sends interval r r [].
Proof.
  intros ((out & E) & H1 & H2). constructor; try done.
  - rewrite E. cbn. by rewrite app_nil_r.
  - cbn. rewrite Z.add_0_r. by rewrite u16_small.
  - cbn. rewrite Z.mul_0_r, Z.add_0_r. by rewrite u64_small.
  - case_match; by rewrite app_nil_r.
Qed.

Lemma sends_app interval r1 r2 r3 ps qs : sends interval r1 r2 ps -> sends interval r2 r3 qs -> sends interval r1 r3 (ps ++ qs)%list.
Proof.
  intros [P1 (C1 & C1' & C1'') S1 N1 T1 W1] [P2 (C2 & C2' & C2'') S2 N2 T2 W2]. constructor.
  - rewrite P2, P1. destruct (r21_peer r1); [|done]. cbn. by rewrite app_assoc.
  - split_and!; congruence.
  - rewrite S2, S1, wraps, length_app. f_equal. lia.
  - rewrite fmap_app, N1, N2, S1, length_app, spaced_app. repeat f_equal. lia.
  - rewrite T2, T1, wraps, length_app. f_equal. lia.
  - rewrite W2, W1, C1'', T1, length_app. destruct (p21_pacing (r21_s r1)); [|by rewrite !app_nil_r]. by rewrite <-app_assoc, spaced_app.
Qed.

Lemma header_seq s ts m l : 0 <= p21_seq s < 65536 ->
  be16 (rd (pay21_header s ts m ++ l) 2) (rd (pay21_header s ts m ++ l) 3) = p21_seq s.
Proof.
  intros Hs. change (rd (pay21_header s ts m ++ l) 2) with (u8 (Z.shiftr (p21_seq s) 8)).
  change (rd (pay21_header s ts m ++ l) 3) with (u8 (Z.land (p21_seq s) 255)).
  rewrite (land_ones_mod _ 8 255) by done. change (2 ^ 8) with 256. replace (u8 (p21_seq s mod 256)) with (u8 (p21_seq s)) by cint.
  by apply be16_u8.
Qed.

(** The packet sent at [r]. *)
Definition packet_at (ts pts : Z) (s : pay21_t) (p : bytes) (m : bool) : zst_buffer :=
  buffer_of ZST_BUFFER_VIDEO_PACKET 0 pts pts 0 (pay21_header s ts m ++ p)%list.

Lemma send_packet_ok `{CMemoryOk} ts pts interval r hdr payload n m : run_ok r -> 0 <= n <= zlen payload ->
  exists r', send_packet ts pts interval r hdr payload n m = Done (ZST_OK, r') /\
    sends interval r r' [packet_at ts pts (r21_s r) (hdr ++ sub_bytes 0 n payload) m].
Proof.
  intros ((out & E) & Hs & Ht) Hn. unfold send_packet, make_packet. rewrite !malloc_total, (proj2 (Z.ltb_ge n 0)), (proj2 (Z.ltb_ge (zlen payload) n)) by lia.
  cbn [negb orb mbind outcome_bind mret outcome_ret]. rewrite E. cbn [push_peer pad_push trace_sink]. eexists. split; [reflexivity|].
  set (p := packet_at _ _ _ _ _). constructor; cbn [r21_peer r21_s r21_ts r21_waits length].
  - by rewrite E.
  - by destruct (r21_s r).
  - by destruct (r21_s r).
  - cbn. unfold rtp_seq. subst p. unfold packet_at. rewrite buf_bytes_of, header_seq by done. unfold spaced. cbn. rewrite u16_small by lia. f_equal. lia.
  - by rewrite Z.mul_1_r.
  - replace (p21_pacing (next_seq (r21_s r))) with (p21_pacing (r21_s r)) by (by destruct (r21_s r)).
    destruct (p21_pacing (r21_s r)); [|by rewrite app_nil_r]. f_equal. unfold spaced. cbn. rewrite u64_small by lia. f_equal. lia.
Qed.

(** ** What the depayloader makes of the packets *)

Fixpoint depay_all `{CMemory} (d : depay21_t) (peer : option trace) (ps : list zst_buffer) : outcome (depay21_t * option trace) :=
  match ps with
  | [] => mret (d, peer)
  | p :: ps => x ← depay21_process d peer p; depay_all x.1.2 x.2 ps
  end.

Lemma depay_all_app `{CMemory} ps qs : forall d peer,
  depay_all d peer (ps ++ qs)%list = (x ← depay_all d peer ps; depay_all x.1 x.2 qs).
Proof.
  induction ps as [|p ps IH]; intros d peer; [done|]. cbn [depay_all app]. destruct (depay21_process d peer p) as [[[r d'] peer']| |]; try done.
  cbn [mbind outcome_bind fst snd]. apply IH.
Qed.

(** The state with [au] gathered, whatever its block. *)
Definition gathered (d : depay21_t) (h265 : bool) (au : bytes) (pts : Z) : Prop :=
  d21_h265 d = h265 /\ d21_au d = au /\ (au <> [] -> d21_pts d = pts).

Definition frame_of (au : bytes) (pts : Z) : zst_buffer := buffer_of ZST_BUFFER_VIDEO_FRAME 0 pts pts 0 au.

Lemma append_au_ok `{CMemoryOk} d data : exists cap, append_au d data = mk_depay21 (d21_h265 d) (d21_au d ++ data) cap (d21_pts d).
Proof. unfold append_au. rewrite malloc_total. case_match; by eexists. Qed.

Lemma push_nal_ok `{CMemoryOk} d h265 au p pts : gathered d h265 au pts ->
  gathered (push_nal d p pts) h265 (au ++ [0; 0; 0; 1] ++ p)%list pts.
Proof.
  intros (<- & <- & _). unfold push_nal. destruct (append_au_ok (with_pts d pts) [0; 0; 0; 1]) as [c1 ->].
  destruct (append_au_ok (mk_depay21 (d21_h265 (with_pts d pts)) (d21_au (with_pts d pts) ++ [0; 0; 0; 1]) c1 (d21_pts (with_pts d pts))) p) as [c2 ->].
  split_and!; try done. cbn. by rewrite <-app_assoc.
Qed.

Lemma fu_chunk_ok `{CMemoryOk} d h265 au p hdr (first : bool) pts : gathered d h265 au pts -> (first = false -> au <> []) ->
  gathered (handle_fu_chunk d p hdr first pts) h265 (au ++ (if first then [0; 0; 0; 1] ++ hdr else []) ++ p)%list pts.
Proof.
  intros Hd Hf. unfold handle_fu_chunk. destruct first.
  - pose proof (push_nal_ok d h265 au hdr pts Hd) as (E1 & E2 & E3). unfold push_nal in E1, E2, E3.
    match goal with |- gathered (append_au ?x p) _ _ _ => destruct (append_au_ok x p) as [c ->] end.
    split_and!; [done|cbn; by rewrite E2, <-!app_assoc|]. intros _. apply E3. by destruct au.
  - destruct Hd as (E1 & E2 & E3). destruct (append_au_ok d p) as [c ->]. split_and!; [done|cbn; by rewrite E2|]. intros _. by apply E3, Hf.
Qed.

(** A packet of the payloader is taken apart where it was put together. *)
Lemma packet_payload s ts m p : p <> [] -> payload_of (pay21_header s ts m ++ p) (zlen (pay21_header s ts m ++ p)) = Some p /\
  (Z.land (rd (pay21_header s ts m ++ p) 1) 128 =? 0) = negb m.
Proof.
  intros Hp. assert (0 < zlen p) by (destruct p; [done|unfold zlen; cbn; lia]). split.
  - unfold payload_of. change (rd (pay21_header s ts m ++ p) 0) with 128. change (Z.land 128 16) with 0. change (Z.land 128 15) with 0.
    change (negb (0 =? 0)) with false. change (12 + 0 * 4) with 12. cbn [andb]. rewrite zlen_app. change (zlen (pay21_header s ts m)) with 12.
    rewrite (proj2 (Z.ltb_ge _ 12)) by lia.
    rewrite (proj2 (Z.leb_gt _ 12)) by lia. f_equal. replace (12 + zlen p - 12) with (zlen p) by lia.
    unfold sub_bytes. change (Z.to_nat 12) with (length (pay21_header s ts m)). rewrite drop_app_length. apply take_ge. unfold zlen. lia.
  - change (rd (pay21_header s ts m ++ p) 1) with (u8 (Z.lor (if m then 128 else 0) (Z.land (p21_pt s) 127))).
    rewrite (land_ones_mod _ 7 127) by done. assert (0 <= p21_pt s mod 2 ^ 7 < 128) as Hb by cint.
    revert Hb. generalize (p21_pt s mod 2 ^ 7). intros b Hb.
    set (P b := Bool.eqb (Z.land (u8 (Z.lor (if m then 128 else 0) b)) 128 =? 0) (negb m) || (128 <=? b)).
    assert (P b = true) as HP by (apply byte_forall; [by destruct m; vm_compute|unfold is_byte; lia]).
    unfold P in HP. rewrite (proj2 (Z.leb_gt 128 b)), orb_false_r in HP by lia. by apply Bool.eqb_prop.
Qed.

Definition take_payload `{CMemory} (h265 : bool) : depay21_t -> bytes -> Z -> option depay21_t := if h265 then take_h265 else take_h264.

(** What one packet does: the payload is taken, and behind the marker the frame goes on. *)
Lemma depay_packet `{CMemoryOk} ts pts s p m d d' au (out : trace) : p <> [] -> d21_h265 d = d21_h265 d' -> au <> [] ->
  take_payload (d21_h265 d) d p pts = Some d' -> gathered d' (d21_h265 d) au pts ->
  exists d2, depay21_process d (Some out) (packet_at ts pts s p m) =
    Done (ZST_OK, d2, Some ((if m then (out ++ [frame_of au pts])%list else out) : trace)) /\
    gathered d2 (d21_h265 d) (if m then [] else au) pts.
Proof.
  intros Hp Hh Hau E (Eh & Ea & Ep). unfold depay21_process. change (default [] (mem_data (packet_at ts pts s p m))) with (pay21_header s ts m ++ p).
  change (mem_size (packet_at ts pts s p m)) with (zlen (pay21_header s ts m ++ p)). change (buf_pts (packet_at ts pts s p m)) with pts. cbv zeta.
  destruct (packet_payload s ts m p Hp) as [-> ->]. change ((if d21_h265 d then take_h265 else take_h264) d p pts) with (take_payload (d21_h265 d) d p pts).
  rewrite E. destruct m; cbn [negb].
  - unfold push_au. rewrite Ea, !malloc_total, (proj2 (Z.eqb_neq _ 0)) by (by intros ->%zlen_0). cbn.
    rewrite Ep by done. eexists. split; [reflexivity|]. by split_and!.
  - exists d'. by split_and!.
Qed.

(** ** Fragments *)

Definition four : bytes := [0; 0; 0; 1].
Definition unit_head (h265 : bool) : nat := if h265 then 2%nat else 1%nat.

Definition fu_ind (h265 : bool) (nal : bytes) : bytes :=
  if h265 then [Z.lor (Z.land (rd nal 0) 129) 98; rd nal 1] else [Z.lor (Z.land (rd nal 0) 224) 28].
Definition fu_type (h265 : bool) (nal : bytes) : Z := if h265 then Z.shiftr (Z.land (rd nal 0) 126) 1 else Z.land (rd nal 0) 31.
Definition fu_byte (ty : Z) (first last : bool) : Z :=
  let fu := if first then Z.lor ty 128 else ty in if last then Z.lor fu 64 else fu.

(** The header of a unit is in the header of each of its fragments. *)
Lemma fu_bits b (first last : bool) : is_byte b ->
  let ind := Z.lor (Z.land b 224) 28 in
  let fu := fu_byte (Z.land b 31) first last in
  Z.land ind 31 = 28 /\ Z.lor (Z.land ind 224) (Z.land fu 31) = b /\ negb (Z.land fu 128 =? 0) = first.
Proof.
  intros Hb ind fu.
  set (P b := let ind := Z.lor (Z.land b 224) 28 in let fu := fu_byte (Z.land b 31) first last in
    (Z.land ind 31 =? 28) && (Z.lor (Z.land ind 224) (Z.land fu 31) =? b) && Bool.eqb (negb (Z.land fu 128 =? 0)) first).
  assert (P b = true) as HP by (apply byte_forall; [by destruct first, last; vm_compute|done]).
  unfold P in HP. rewrite !andb_true_iff, !Z.eqb_eq in HP. destruct HP as [[H1 H2] H3]. split_and!; try done. by apply Bool.eqb_prop.
Qed.

Lemma fu_bits_h265 b (first last : bool) : is_byte b ->
  let ind := Z.lor (Z.land b 129) 98 in
  let fu := fu_byte (Z.shiftr (Z.land b 126) 1) first last in
  Z.shiftr (Z.land ind 126) 1 = 49 /\ Z.lor (Z.land ind 129) (Z.shiftl (Z.land fu 63) 1) = b /\ negb (Z.land fu 128 =? 0) = first.
Proof.
  intros Hb ind fu.
  set (P b := let ind := Z.lor (Z.land b 129) 98 in let fu := fu_byte (Z.shiftr (Z.land b 126) 1) first last in
    (Z.shiftr (Z.land ind 126) 1 =? 49) && (Z.lor (Z.land ind 129) (Z.shiftl (Z.land fu 63) 1) =? b) &&
    Bool.eqb (negb (Z.land fu 128 =? 0)) first).
  assert (P b = true) as HP by (apply byte_forall; [by destruct first, last; vm_compute|done]).
  unfold P in HP. rewrite !andb_true_iff, !Z.eqb_eq in HP. destruct HP as [[H1 H2] H3]. split_and!; try done. by apply Bool.eqb_prop.
Qed.

Lemma fu_take `{CMemory} h265 nal chunk d pts (first last : bool) : bytes_ok nal -> (unit_head h265 <= length nal)%nat ->
  take_payload h265 d ((fu_ind h265 nal ++ [fu_byte (fu_type h265 nal) first last]) ++ chunk) pts =
  Some (handle_fu_chunk d chunk (take (unit_head h265) nal) first pts).
Proof.
  intros Hb Hl. pose proof (rd_byte nal 0 Hb) as H0. destruct h265; cbn [fu_ind fu_type unit_head take_payload app] in *.
  - destruct (fu_bits_h265 (rd nal 0) first last H0) as (E1 & E2 & E3). destruct nal as [|a [|b nal]]; cbn in Hl; try lia.
    unfold take_h265. set (fu := fu_byte _ _ _) in *. change (rd (?x :: _) 0) with x.
    change (rd (a :: b :: nal) 0) with a in *. change (rd (a :: b :: nal) 1) with b. set (ind := Z.lor (Z.land a 129) 98) in *.
    change (rd (ind :: b :: fu :: chunk) 0) with ind. change (rd (ind :: b :: fu :: chunk) 1) with b. change (rd (ind :: b :: fu :: chunk) 2) with fu.
    rewrite E1, E2, E3. cbn [Z.eqb Pos.eqb negb andb].
    rewrite (proj2 (Z.ltb_ge _ 3)) by (unfold zlen; cbn [length]; lia). done.
  - destruct (fu_bits (rd nal 0) first last H0) as (E1 & E2 & E3). destruct nal as [|a nal]; cbn in Hl; try lia.
    unfold take_h264. set (fu := fu_byte _ _ _) in *.
    change (rd (a :: nal) 0) with a in *. set (ind := Z.lor (Z.land a 224) 28) in *.
    change (rd (ind :: fu :: chunk) 0) with ind. change (rd (ind :: fu :: chunk) 1) with fu.
    rewrite E1, E2, E3. cbn [Z.eqb Pos.eqb negb andb].
    rewrite (proj2 (Z.ltb_ge _ 2)) by (unfold zlen; cbn [length]; lia). done.
Qed.

(** The packets [ps] take the depayloader from [pre] to the whole unit, and on with the
    frame when the last of them has the marker. *)
Definition continues `{CMemory} (h265 : bool) (pts : Z) (ps : list zst_buffer) (pre nal : bytes) (m : bool) : Prop :=
  forall d (out : trace) au, gathered d h265 (au ++ pre) pts -> exists d2,
    depay_all d (Some out) ps = Done (d2, Some ((if m then (out ++ [frame_of (au ++ four ++ nal) pts])%list else out) : trace)) /\
    gathered d2 h265 (if m then [] else au ++ four ++ nal)%list pts.

(** The unit so far, before the fragment at [off]. *)
Definition so_far (first : bool) (off : Z) (nal : bytes) : bytes := if first then [] else (four ++ take (Z.to_nat off) nal)%list.

Lemma sub_bytes_next (nal rest : bytes) off n : 0 <= off -> 0 <= n -> off + n <= zlen nal ->
  sub_bytes 0 n (drop (Z.to_nat off) (nal ++ rest)) = sub_bytes off n nal /\
  take (Z.to_nat off) nal ++ sub_bytes off n nal = take (Z.to_nat (off + n)) nal.
Proof.
  intros Ho Hn Hl. unfold zlen in Hl. unfold sub_bytes. split.
  - change (Z.to_nat 0) with 0%nat. rewrite drop_0, drop_app_le, take_app_le by (rewrite ?length_drop; lia). done.
  - rewrite take_take_drop. f_equal. lia.
Qed.

Section Send.
Context `{CMemoryOk} (ts pts interval : Z) (h265 : bool).

(** One fragment more. *)
Lemma one_fragment s nal off n (first last m : bool) d (out : trace) au :
  bytes_ok nal -> Z.of_nat (unit_head h265) <= off -> (first = true -> off = Z.of_nat (unit_head h265)) -> 1 <= n -> off + n <= zlen nal ->
  gathered d h265 (au ++ so_far first off nal) pts -> exists d2,
  depay21_process d (Some out) (packet_at ts pts s ((fu_ind h265 nal ++ [fu_byte (fu_type h265 nal) first last]) ++ sub_bytes off n nal) m) =
    Done (ZST_OK, d2, Some ((if m then (out ++ [frame_of (au ++ so_far false (off + n) nal) pts])%list else out) : trace)) /\
  gathered d2 h265 (if m then [] else au ++ so_far false (off + n) nal)%list pts.
Proof.
  intros Hb Ho Hfirst Hn Hl Hd. pose proof Hd as (Eh & _ & _). unfold zlen in Hl.
  destruct (sub_bytes_next nal [] off n) as [_ Enext]; [lia|lia|exact Hl|].
  pose proof (fu_chunk_ok d h265 (au ++ so_far first off nal) (sub_bytes off n nal) (take (unit_head h265) nal) first pts Hd) as Hc.
  assert ((au ++ so_far first off nal) ++ (if first then four ++ take (unit_head h265) nal else []) ++ sub_bytes off n nal =
    au ++ so_far false (off + n) nal) as Eau.
  { unfold so_far. destruct first; [|by rewrite <-Enext, <-!app_assoc]. pose proof (Hfirst eq_refl) as ->.
    rewrite <-Enext, Nat2Z.id, app_nil_r, <-!app_assoc. done. }
  change [0; 0; 0; 1] with four in Hc. rewrite Eau in Hc. specialize (Hc ltac:(intros ->; unfold so_far; by destruct au)).
  set (d' := handle_fu_chunk _ _ _ _ _) in *. pose proof (proj1 Hc) as Eh'. rewrite <-Eh. apply (depay_packet ts pts s _ m d d').
  - by destruct (d21_h265 d).
  - by rewrite Eh'.
  - unfold so_far. by destruct au.
  - rewrite Eh. apply fu_take; [done|]. lia.
  - by rewrite Eh.
Qed.

(** All fragments from [off] on. *)
Lemma fu_loop_ok nal rest max_chunk m : bytes_ok nal -> 1 <= max_chunk -> forall fuel r off (first : bool),
  run_ok r -> Z.of_nat (unit_head h265) <= off < zlen nal -> (first = true -> off = Z.of_nat (unit_head h265)) ->
  zlen nal - off <= Z.of_nat fuel -> exists r' ps,
  fu_loop ts pts interval fuel r (fu_ind h265 nal) (fu_type h265 nal) (nal ++ rest) (zlen nal) max_chunk off first m = Done r' /\
  sends interval r r' ps /\ continues h265 pts ps (so_far first off nal) nal m.
Proof.
  intros Hb Hmax. induction fuel as [|fuel IH]; intros r off first Hr Ho Hfirst Hf; [lia|]. cbn [fu_loop].
  rewrite (proj2 (Z.ltb_lt off _)) by lia. set (n := if max_chunk <? zlen nal - off then max_chunk else zlen nal - off).
  assert (1 <= n /\ off + n <= zlen nal) as [Hn Hon] by (subst n; case_match eqn:E; zbool; lia).
  change (if zlen nal <=? off + n then Z.lor (if first then Z.lor (fu_type h265 nal) 128 else fu_type h265 nal) 64
          else if first then Z.lor (fu_type h265 nal) 128 else fu_type h265 nal)
    with (fu_byte (fu_type h265 nal) first (zlen nal <=? off + n)).
  destruct (sub_bytes_next nal rest off n) as [Esub _]; [lia..|].
  destruct (send_packet_ok ts pts interval r (fu_ind h265 nal ++ [fu_byte (fu_type h265 nal) first (zlen nal <=? off + n)])
    (drop (Z.to_nat off) (nal ++ rest)) n (m && (zlen nal <=? off + n)) Hr) as (r1 & -> & Hs1).
  { unfold zlen in *. rewrite length_drop, length_app. lia. }
  rewrite Esub in Hs1. cbn [mbind outcome_bind snd]. set (p := packet_at _ _ _ _ _) in *.
  assert (forall d (out : trace) au, gathered d h265 (au ++ so_far first off nal) pts -> exists d2,
    depay21_process d (Some out) p =
      Done (ZST_OK, d2, Some ((if m && (zlen nal <=? off + n) then (out ++ [frame_of (au ++ so_far false (off + n) nal) pts])%list else out) : trace)) /\
    gathered d2 h265 (if m && (zlen nal <=? off + n) then [] else au ++ so_far false (off + n) nal)%list pts) as Hone
    by (intros d out au Hd; apply one_fragment; (done || lia)).
  destruct (Z.leb_spec (zlen nal) (off + n)) as [Hlast|Hmore].
  - exists r1, [p]. rewrite andb_true_r in *. split; [|split; [done|]].
    + destruct fuel; cbn [fu_loop]; by rewrite (proj2 (Z.ltb_ge _ _)) by lia.
    + intros d out au Hd. destruct (Hone d out au Hd) as (d2 & E & Hd2). exists d2. cbn [depay_all]. rewrite E. cbn [mbind outcome_bind fst snd].
      unfold so_far in *. rewrite take_ge in * by (unfold zlen in *; lia). done.
  - destruct (IH r1 (off + n) false) as (r2 & ps & -> & Hs2 & Hc); [by eapply sends_ok|lia|done|lia|].
    exists r2, (p :: ps). split; [done|]. split; [exact (sends_app _ _ _ _ [p] ps Hs1 Hs2)|].
    intros d out au Hd. destruct (Hone d out au Hd) as (d2 & E & Hd2). rewrite andb_false_r in *. cbn [depay_all]. rewrite E.
    cbn [mbind outcome_bind fst snd]. by apply Hc.
Qed.

(** ** Units and frames *)

(** A unit whose type is not one of the two that packets use for themselves. *)
Record unit_ok (nal : bytes) : Prop := mk_unit_ok {
  uo_nal : nal_ok nal;
  uo_bytes : bytes_ok nal;
  uo_plain : if h265 then Z.shiftr (Z.land (rd nal 0) 126) 1 <> 49 /\ Z.shiftr (Z.land (rd nal 0) 126) 1 <> 48
             else Z.land (rd nal 0) 31 <> 28 /\ Z.land (rd nal 0) 31 <> 24;
}.

Lemma take_plain nal d : unit_ok nal -> take_payload h265 d nal pts = Some (push_nal d nal pts).
Proof.
  intros [_ _ Hp]. destruct h265; destruct Hp as [H1%Z.eqb_neq H2%Z.eqb_neq]; cbn [take_payload]; unfold take_h264, take_h265; by rewrite H1, H2.
Qed.

(** A run of the element with these settings and room for a byte in every fragment. *)
Definition fit (r : pay21_run trace) : Prop := run_ok r /\ p21_h265 (r21_s r) = h265 /\ 16 <= p21_mtu (r21_s r).

Lemma sends_fit r r' ps : fit r -> sends interval r r' ps -> fit r'.
Proof.
  intros (Hr & Hh & Hm) Hs. pose proof (sends_ok _ _ _ _ Hr Hs). destruct (sn_settings _ _ _ _ Hs) as (E1 & E2 & _). split_and!; [done|congruence|lia].
Qed.

Lemma send_nal_ok nal rest r m : unit_ok nal -> fit r -> exists r' ps,
  send_nal ts pts interval r (nal ++ rest) (zlen nal) m = Done (ZST_OK, r') /\ sends interval r r' ps /\ continues h265 pts ps [] nal m.
Proof.
  intros Hn (Hr & Hh & Hm). pose proof (nal_nonempty nal (uo_nal nal Hn)) as Hpos. pose proof (uo_bytes nal Hn) as Hb.
  assert (rd (nal ++ rest) 0 = rd nal 0) as E0 by (apply rd_app_l; lia). unfold send_nal.
  destruct (Z.leb_spec (zlen nal) (p21_mtu (r21_s r) - 12)) as [Hs|Hl].
  - destruct (send_packet_ok ts pts interval r [] (nal ++ rest) (zlen nal) m Hr) as (r' & E & Hsend).
    { rewrite zlen_app. pose proof (zlen_nonneg rest). lia. }
    assert (sub_bytes 0 (zlen nal) (nal ++ rest) = nal) as Esub.
    { unfold sub_bytes, zlen. change (Z.to_nat 0) with 0%nat. by rewrite drop_0, Nat2Z.id, take_app_length. }
    rewrite Esub in Hsend. cbn [app] in Hsend. exists r', [packet_at ts pts (r21_s r) nal m]. split; [exact E|]. split; [exact Hsend|].
    intros d out au Hd. rewrite app_nil_r in Hd. pose proof (push_nal_ok d h265 au nal pts Hd) as Hc. pose proof (proj1 Hd) as Eh.
    destruct (depay_packet ts pts (r21_s r) nal m d (push_nal d nal pts) (au ++ four ++ nal) out) as (d2 & E2 & Hd2).
    + intros ->. unfold zlen in Hpos. cbn in Hpos. lia.
    + rewrite Eh. symmetry. apply Hc.
    + by destruct au.
    + rewrite Eh. by apply take_plain.
    + rewrite Eh. exact Hc.
    + exists d2. cbn [depay_all]. rewrite E2. rewrite Eh in Hd2. by split.
  - assert (exists r' ps, fu_loop ts pts interval (Z.to_nat (zlen nal)) r (fu_ind h265 nal) (fu_type h265 nal) (nal ++ rest) (zlen nal)
      (p21_mtu (r21_s r) - 12 - (Z.of_nat (unit_head h265) + 1)) (Z.of_nat (unit_head h265)) true m = Done r' /\
      sends interval r r' ps /\ continues h265 pts ps [] nal m) as (r' & ps & E & Hsend & Hc).
    { apply (fu_loop_ok nal rest _ m Hb); [destruct h265; cbn [unit_head]; lia|done|destruct h265; cbn [unit_head]; lia|done|lia]. }
    exists r', ps. split; [|done]. rewrite Hh, E0. destruct h265; cbn [negb unit_head fu_ind fu_type] in *.
    + rewrite (proj2 (Z.ltb_ge _ 2)) by (rewrite zlen_app; pose proof (zlen_nonneg rest); lia).
      rewrite (rd_app_l nal rest 1) by lia. change (Z.of_nat 2 + 1) with 3 in E. change (Z.of_nat 2) with 2 in E. by rewrite E.
    + rewrite (proj2 (Z.ltb_ge _ 1)) by (rewrite zlen_app; pose proof (zlen_nonneg rest); lia).
      change (Z.of_nat 1 + 1) with 2 in E. change (Z.of_nat 1) with 1 in E. by rewrite E.
Qed.

(** The stream of the units, each behind a long start code. *)
Definition long_annexb (nals : list bytes) : bytes := annexb ((fun nal => (true, nal)) <$> nals).

(** The packets [ps] make a whole frame of what was gathered and the units [nals]. *)
Definition frames (ps : list zst_buffer) (nals : list bytes) : Prop :=
  forall d (out : trace) au, gathered d h265 au pts -> exists d2,
    depay_all d (Some out) ps = Done (d2, Some ((out ++ [frame_of (au ++ long_annexb nals) pts])%list : trace)) /\ gathered d2 h265 [] pts.

Lemma frames_last ps nal : continues h265 pts ps [] nal true -> frames ps [nal].
Proof.
  intros Hc d out au Hd. destruct (Hc d out au) as (d2 & E & Hd2); [by rewrite app_nil_r|]. exists d2. rewrite E.
  unfold long_annexb. cbn [fmap list_fmap annexb start_code]. by rewrite app_nil_r.
Qed.

Lemma frames_cons ps qs nal nals : continues h265 pts ps [] nal false -> frames qs nals -> frames (ps ++ qs)%list (nal :: nals).
Proof.
  intros Hc Hf d out au Hd. destruct (Hc d out au) as (d2 & E & Hd2); [by rewrite app_nil_r|].
  destruct (Hf d2 out _ Hd2) as (d3 & E3 & Hd3). exists d3. rewrite depay_all_app, E. cbn [mbind outcome_bind fst snd]. rewrite E3.
  unfold long_annexb. cbn [fmap list_fmap annexb start_code]. split; [|done]. by rewrite <-!app_assoc.
Qed.

Lemma send_unit fuel r pre long nal l : unit_ok nal ->
  let data := (pre ++ start_code long ++ nal ++ annexb l)%list in
  send_units ts pts interval (S fuel) r data (zlen data) (zlen pre) (zlen (start_code long)) =
  (x ← send_nal ts pts interval r (nal ++ annexb l) (zlen nal) (match l with [] => true | _ => false end);
   match l with
   | [] => mret x.2
   | (next, _) :: _ => send_units ts pts interval fuel x.2 data (zlen data) (zlen (pre ++ start_code long ++ nal)) (zlen (start_code next))
   end).
Proof.
  intros Hu data. pose proof (uo_nal nal Hu) as Hn. pose proof (nal_nonempty nal Hn) as Hpos. pose proof (zlen_nonneg pre).
  pose proof (zlen_start_code long). pose proof (zlen_nonneg (annexb l)). cbn [send_units].
  set (q := (pre ++ start_code long)%list). assert (data = (q ++ nal ++ annexb l)%list) as Ed by (subst data q; by rewrite <-app_assoc).
  assert (zlen data = zlen q + zlen nal + zlen (annexb l)) as Hz by (rewrite Ed, !zlen_app; lia).
  assert (zlen q = zlen pre + zlen (start_code long)) as Hq by (subst q; by rewrite zlen_app).
  rewrite (proj2 (Z.leb_le 0 (zlen pre))), (proj2 (Z.ltb_lt (zlen pre) _)) by lia. cbn [andb].
  rewrite <-Hq, Ed, (find_after_nal q nal l Hn), <-Ed.
  assert (drop (Z.to_nat (zlen q)) data = (nal ++ annexb l)%list) as Edrop by (rewrite Ed; unfold zlen; by rewrite Nat2Z.id, drop_app_length).
  pose proof (fun next => unit_end_ok q nal l next Hn) as Hend. unfold unit_end in Hend. rewrite <-Ed in Hend.
  destruct l as [|[next nal2] l].
  - rewrite (Hend (-1)) by auto. rewrite Edrop. replace (zlen q + zlen nal - zlen q) with (zlen nal) by lia.
    rewrite (proj2 (Z.ltb_lt 0 _)) by lia. change (-1 <? 0) with true.
    destruct (send_nal _ _ _ _ _ _ _) as [[ret r']| |]; try done. by destruct fuel.
  - rewrite (Hend (zlen q + zlen nal)) by auto. rewrite Edrop. replace (zlen q + zlen nal - zlen q) with (zlen nal) by lia.
    rewrite (proj2 (Z.ltb_lt 0 (zlen nal))), (proj2 (Z.ltb_ge _ 0)) by lia.
    replace (zlen (pre ++ start_code long ++ nal)) with (zlen q + zlen nal) by (subst q; rewrite !zlen_app; lia).
    by destruct (send_nal _ _ _ _ _ _ _) as [[ret r']| |].
Qed.

Lemma send_units_ok l : forall pre long nal fuel r, unit_ok nal -> Forall (fun x => unit_ok x.2) l -> (length l < fuel)%nat -> fit r ->
  let data := (pre ++ start_code long ++ nal ++ annexb l)%list in exists r' ps,
  send_units ts pts interval fuel r data (zlen data) (zlen pre) (zlen (start_code long)) = Done r' /\
  sends interval r r' ps /\ frames ps (nal :: map snd l).
Proof.
  induction l as [|[long2 nal2] l IH]; intros pre long nal fuel r Hn Hl Hf Hr data; (destruct fuel as [|fuel]; [cbn in Hf; lia|]);
    subst data; rewrite send_unit by done.
  - destruct (send_nal_ok nal (annexb []) r true Hn Hr) as (r1 & ps & -> & Hs & Hc). exists r1, ps. split_and!; try done. by apply frames_last.
  - destruct (send_nal_ok nal (annexb ((long2, nal2) :: l)) r false Hn Hr) as (r1 & ps & -> & Hs & Hc). apply Forall_cons in Hl as [Hn2 Hl].
    replace (pre ++ start_code long ++ nal ++ annexb ((long2, nal2) :: l))%list
      with ((pre ++ start_code long ++ nal) ++ start_code long2 ++ nal2 ++ annexb l)%list by (cbn [annexb]; by rewrite <-!app_assoc).
    cbn [mbind outcome_bind snd]. destruct (IH (pre ++ start_code long ++ nal) long2 nal2 fuel r1) as (r2 & qs & -> & Hs2 & Hc2); try done.
    { cbn in Hf. lia. }
    { by eapply sends_fit. }
    exists r2, (ps ++ qs)%list. split_and!; [done|by eapply sends_app|]. by apply frames_cons.
Qed.
End Send.

(** A fragment with no room for a byte does not get on: however long the loop runs, it is
    not at its end. *)
Lemma no_room_no_progress `{CMemoryOk} ts pts interval ind ty nal m off : 0 <= off < zlen nal -> forall fuel r (first : bool), run_ok r ->
  fu_loop ts pts interval fuel r ind ty nal (zlen nal) 0 off first m = Unfinished.
Proof.
  intros Ho. induction fuel as [|fuel IH]; intros r first Hr; cbn [fu_loop]; rewrite (proj2 (Z.ltb_lt off _)) by lia; [done|].
  rewrite (proj2 (Z.ltb_lt 0 (zlen nal - off))), Z.add_0_r, (proj2 (Z.leb_gt (zlen nal) off)) by lia.
  match goal with |- context [send_packet _ _ _ _ ?h ?p _ ?k] =>
    destruct (send_packet_ok ts pts interval r h p 0 k Hr) as (r' & -> & Hs); [pose proof (zlen_nonneg p); lia|] end.
  cbn [mbind outcome_bind snd]. apply IH. by eapply sends_ok.
Qed.

(** ** The elements together *)

Lemma annexb_units l : Forall (fun x => nal_ok x.2) l -> Z.of_nat (length l) <= zlen (annexb l).
Proof.
  induction 1 as [|[long nal] l Hn _ IH]; [done|]. cbn [annexb length]. rewrite !zlen_app.
  pose proof (zlen_start_code long). pose proof (zlen_nonneg nal). lia.
Qed.

(** C13. With room for a byte in every fragment, a frame of units goes through both elements
    unchanged, behind four-byte start codes; its packets have consecutive sequence
    numbers, and each is waited for one interval after the one before. *)
Theorem st2110_21_roundtrip `{CMemoryOk} s d buf l :
  16 <= p21_mtu s -> 0 <= p21_seq s < 65536 -> 0 <= buf_pts buf <= UINT64_MAX -> d21_h265 d = p21_h265 s -> d21_au d = [] ->
  mem_data buf = Some (annexb l) -> mem_size buf = zlen (annexb l) -> zlen (annexb l) <= INT32_MAX ->
  l <> [] -> Forall (fun x => unit_ok (p21_h265 s) x.2) l ->
  exists interval r ps d', pacing_interval s (zlen (annexb l)) = Done interval /\
    pay21_process s (Some ([] : trace)) buf = Done (ZST_OK, r) /\ r21_peer r = Some ps /\
    rtp_seq <$> ps = spaced u16 (p21_seq s) 1 (length ps) /\
    r21_waits r = (if p21_pacing s then spaced u64 (buf_pts buf) interval (length ps) else []) /\
    depay_all d (Some []) ps = Done (d', Some [frame_of (long_annexb (map snd l)) (buf_pts buf)]) /\ d21_au d' = [].
Proof.
  intros Hmtu Hseq Hpts Hh Hau Ed Ez Hz Hl Hu. destruct l as [|[long nal] l]; [done|]. unfold INT32_MAX, UINT64_MAX in *.
  apply Forall_cons in Hu as [Hn Hu]. pose proof (zlen_nonneg (annexb ((long, nal) :: l))).
  assert (exists interval, pacing_interval s (zlen (annexb ((long, nal) :: l))) = Done interval) as [interval Ei].
  { unfold pacing_interval. rewrite (proj2 (Z.eqb_neq _ 12)) by lia. unfold udiv.
    assert (0 <= Z.quot (zlen (annexb ((long, nal) :: l))) (p21_mtu s - 12) <= zlen (annexb ((long, nal) :: l))) as Hq.
    { split; [apply Z.quot_pos; lia|]. rewrite Z.quot_div_nonneg by lia. apply Z.div_le_upper_bound; nia. }
    rewrite (proj2 (Z.eqb_neq _ 0)); [by eexists|]. rewrite u64_small; lia. }
  assert (length l < Z.to_nat (zlen (annexb ((long, nal) :: l))))%nat as Hfuel.
  { pose proof (annexb_units ((long, nal) :: l)) as Hlen. cbn [length] in Hlen. assert (Z.of_nat (S (length l)) <= zlen (annexb ((long, nal) :: l))); [|lia].
    apply Hlen. constructor; [by destruct Hn|]. eapply Forall_impl; [exact Hu|]. by intros x []. }
  set (r0 := mk_run21 s (Some ([] : trace)) (buf_pts buf) []).
  assert (fit (p21_h265 s) r0) as Hfit.
  { unfold fit, run_ok. subst r0. cbn [r21_peer r21_s r21_ts]. split_and!; try done; try lia. }
  destruct (send_units_ok (u32 (u64 (buf_pts buf * 90000) / 1000000000)) (buf_pts buf) interval (p21_h265 s) l [] long nal _ r0 Hn Hu Hfuel Hfit)
    as (r & ps & E & Hs & Hf).
  destruct (Hf d [] []) as (d' & Edep & (_ & Hd' & _)); [by split_and!|]. exists interval, r, ps, d'.
  split; [done|]. split; [|split_and!].
  - unfold pay21_process. cbv zeta. rewrite Ed, Ez, s32_small by lia. cbn [default from_option id]. rewrite Ei. cbn [mbind outcome_bind].
    rewrite find_first. cbn [Z.ltb Z.compare]. 
    change (start_code long ++ nal ++ annexb l)%list with (annexb ((long, nal) :: l)) in E. cbn [app] in E. change (zlen []) with 0 in E.
    fold r0. by rewrite E.
  - by rewrite (sn_peer _ _ _ _ Hs).
  - apply (sn_seqs _ _ _ _ Hs).
  - apply (sn_waits _ _ _ _ Hs).
  - exact Edep.
  - exact Hd'.
Qed.

(** ** On concrete inputs *)

#[local] Existing Instance ample_memory.

(** Packets of 18 bytes: six bytes behind the RTP header. *)
Definition small_packets : pay21_t := mk_pay21 18 96 1 65534 0 50 1 false true.

Definition two_nals : list (bool * bytes) := [(true, [103; 66; 0; 30]); (false, [101; 1; 2; 3; 4; 5; 6; 7; 8; 9])].

Definition frame_buffer21 (data : bytes) (pts : Z) : zst_buffer := buffer_of ZST_BUFFER_VIDEO_FRAME 0 pts pts 0 data.

Lemma two_nals_ok : Forall (fun x => unit_ok false x.2) two_nals.
Proof. repeat constructor; try (by apply nal_okb_ok; vm_compute); cbn; try lia; try done; repeat (split; [by vm_compute|]); by vm_compute. Qed.

Lemma st2110_21_roundtrip_witness :
  exists interval r ps d', pacing_interval small_packets (zlen (annexb two_nals)) = Done interval /\
    pay21_process small_packets (Some ([] : trace)) (frame_buffer21 (annexb two_nals) 1000) = Done (ZST_OK, r) /\ r21_peer r = Some ps /\
    rtp_seq <$> ps = spaced u16 65534 1 (length ps) /\
    r21_waits r = spaced u64 1000 interval (length ps) /\
    depay_all zst_st2110_21_depayloader_create (Some []) ps =
      Done (d', Some [frame_of (long_annexb (map snd two_nals)) 1000]) /\ d21_au d' = [].
Proof.
  apply (@st2110_21_roundtrip ample_memory ample_memory_ok small_packets zst_st2110_21_depayloader_create
           (frame_buffer21 (annexb two_nals) 1000) two_nals); try reflexivity; try (by vm_compute); try exact two_nals_ok.
  all: cbn; unfold UINT64_MAX; lia.
Defined.

(** Four packets, numbered over the wrap-around and 5 ms apart. *)
Example four_packets :
  match pay21_process small_packets (Some ([] : trace)) (frame_buffer21 (annexb two_nals) 1000) with
  | Done (_, r) => (rtp_seq <$> default [] (r21_peer r), r21_waits r)
  | _ => ([], [])
  end = ([65534; 65535; 0; 1], [1000; 5001000; 10001000; 15001000]).
Proof. vm_compute. reflexivity. Qed.

(** With two bytes behind the header a fragment has no room for a byte. *)
Definition settings_with_mtu (mtu : Z) : pay21_t := mk_pay21 mtu 96 1 0 0 50 1 false true.

Example no_room_no_end : pay21_process (settings_with_mtu 14) (Some ([] : trace)) (frame_buffer21 (annexb two_nals) 0) = Unfinished.
Proof. vm_compute. reflexivity. Qed.

(** With one byte, or none, a packet is written past its block, or the estimate of the
    number of packets divides by zero. *)
Example mtu_13_overruns : pay21_process (settings_with_mtu 13) (Some ([] : trace)) (frame_buffer21 (annexb two_nals) 0) = Fault.
Proof. vm_compute. reflexivity. Qed.
Example mtu_12_divides : pay21_process (settings_with_mtu 12) (Some ([] : trace)) (frame_buffer21 (annexb two_nals) 0) = Fault.
Proof. vm_compute. reflexivity. Qed.

Definition frames_out (bufs : list bytes) : list bytes :=
  match fold_left (fun x data => x ← x;
          y ← pay21_process (settings_with_mtu 1200) (Some ([] : trace)) (frame_buffer21 data 0);
          depay_all x.1 x.2 (default [] (r21_peer y.2))) bufs (Done (zst_st2110_21_depayloader_create, Some ([] : trace))) with
  | Done (_, Some out) => buf_bytes <$> out
  | _ => []
  end.

(** A start code at the end of a frame: the last unit is empty, no packet has the marker
    and the frame only comes out as part of the next one. *)
Example empty_last_unit_no_marker :
  frames_out [[0; 0; 1; 101; 7; 0; 0; 1]] = [] /\
  frames_out [[0; 0; 1; 101; 7; 0; 0; 1]; [0; 0; 1; 65; 9]] = [[0; 0; 0; 1; 101; 7; 0; 0; 0; 1; 65; 9]].
Proof. vm_compute. split; reflexivity. Qed.

(** The RTP time is computed in 64 bits of nanoseconds times 90000 and wraps after 2.4
    days: two seconds later it is far from 180000 ticks on. *)
Example rtp_time_wraps :
  let ts pts := u32 (u64 (pts * 90000) / 1000000000) in
  u32 (ts 204965000000000 - ts 204963000000000) = 3028272406.
Proof. vm_compute. reflexivity. Qed.

(** Aggregates (type 24) are dropped without a word, and a fragment whose first part was
    lost is appended to whatever is there. *)
Example aggregate_dropped :
  depay_all zst_st2110_21_depayloader_create (Some ([] : trace)) [packet_at 0 0 small_packets [24; 0; 2; 101; 7] true] =
  Done (zst_st2110_21_depayloader_create, Some []).
Proof. vm_compute. reflexivity. Qed.
Example headless_fragment_kept :
  match depay_all zst_st2110_21_depayloader_create (Some ([] : trace)) [packet_at 0 0 small_packets [124; 69; 7; 8] true] with
  | Done (_, Some out) => buf_bytes <$> out
  | _ => []
  end = [[7; 8]].
Proof. vm_compute. reflexivity. Qed.
