(* ===== verification/QueueElement.v ===== *)
(** * The queue element: [src/zst_queue_element.c]

    The sink pad's handler puts buffers into a [zst_queue_t]; a thread takes them out,
    waits until each is due, or drops it when it is late, and pushes it on; stopping the
    element empties the queue from another thread meanwhile.  [queue_el_worker] and
    [queue_el_stop] are functions of where the thread and the caller of [stop] are, one
    call on the queue or one access a time, and [qe_step] lets them take turns with the
    handler and the element's operations.  A call on the queue is one step, which is what
    [QueueConc] shows of the queue; what goes out is a log, as the element looks at no
    result. *)

From S2P Require Import Prelude Pad Queue.

Local Open Scope Z_scope.

Record queue_el := mk_qel {
  qe_cfg : zst_queue_config_t;
  qe_queue : option zst_queue;
  qe_running : bool;
  qe_thread : bool;
  qe_pool : bool;
}.

Definition with_el_queue (s : queue_el) (q : option zst_queue) : queue_el := mk_qel (qe_cfg s) q (qe_running s) (qe_thread s) (qe_pool s).
Definition with_el_thread (s : queue_el) (running thread : bool) : queue_el := mk_qel (qe_cfg s) (qe_queue s) running thread (qe_pool s).

Inductive qe_effect := Waited (ns : Z) | Sent (b : zst_buffer) | Late (b : zst_buffer) | Flushed (b : zst_buffer).

(** ** The thread *)

Inductive verdict := SendNow | SendAfter (ns : Z) | DropLate.

(** [now] is the element's clock, if it has one; its times are [uint64_t]. *)
Definition qos_verdict (now : option Z) (buf : zst_buffer) : verdict :=
  match now with
  | Some current =>
      let pts := buf_pts buf in
      if (0 <? pts) && negb (has_flag (buf_flags buf) ZST_BUFFER_FLAG_EOS) then
        if u64 (current + 5000000) <? pts then
          if u64 (pts - current) <? 5000000000 then SendAfter (u64 (pts - current)) else SendNow
        else if pts <? u64 (current - 100000000) then
          if u64 (current - pts) <? 5000000000 then DropLate else SendNow
        else SendNow
      else SendNow
  | None => SendNow
  end.

Definition with_flags (b : zst_buffer) (flags : Z) : zst_buffer :=
  mk_buffer (buf_type b) flags (buf_pts b) (buf_dts b) (buf_duration b) (mem_data b) (mem_size b).

(** Where the thread is: there is none; about to test [running]; about to pop; about to
    look at the buffer it has taken; about to push it, or in the push; out of its loop. *)
Inductive worker_pc := NoThread | AtTop | AtPop | Has (b : zst_buffer) | Due (b : zst_buffer) | AtEnd.

Definition in_hand (w : worker_pc) : list zst_buffer := match w with Has b | Due b => [b] | _ => [] end.

(** One step of the thread, [now] the time by the element's clock. *)
Definition queue_el_worker (s : queue_el) (now : option Z) (w : worker_pc) : outcome (queue_el * worker_pc * list qe_effect) :=
  match w with
  | AtTop => mret (s, if qe_running s then AtPop else AtEnd, [])
  | AtPop =>
      match zst_queue_pop (qe_queue s) 50 with
      | None => Unfinished
      | Some (ret, b, q) =>
          mret (with_el_queue s q, match b with Some b => if ret =? ZST_OK then Has b else AtTop | None => AtTop end, [])
      end
  | Has b =>
      match qos_verdict now b with
      | DropLate => mret (s, AtTop, [Late (with_flags b (Z.lor (buf_flags b) ZST_BUFFER_FLAG_DROP))])
      | SendAfter ns => mret (s, Due b, [Waited ns])
      | SendNow => mret (s, Due b, [])
      end
  | Due b => mret (s, AtTop, [Sent b])
  | NoThread | AtEnd => mret (s, w, [])
  end.

(** ** The sink pad *)

(** A pool's buffer with the fields and the bytes of [b]; its own size stays. *)
Definition pooled (p b : zst_buffer) : zst_buffer :=
  let n := Z.to_nat (mem_size b) in
  mk_buffer (buf_type b) (buf_flags b) (buf_pts b) (buf_dts b) (buf_duration b)
    (match mem_data p with
     | Some d => Some (take n (default [] (mem_data b)) ++ drop n d)
     | None => None
     end) (mem_size p).

(** What is put into the queue: [acquired] is the pool's answer; [None] for a buffer of
    the pool that is too small. *)
Definition entered (s : queue_el) (acquired : option zst_buffer) (b : zst_buffer) : option zst_buffer :=
  if qe_pool s && negb (has_flag (buf_flags b) ZST_BUFFER_FLAG_EOS) then
    match acquired with
    | Some p => if (0 <? mem_size b) && (mem_size p <? mem_size b) then None else Some (pooled p b)
    | None => Some b
    end
  else Some b.

(** [Unfinished]: waiting for room for ever. *)
Definition queue_el_sink_push (s : queue_el) (acquired buf : option zst_buffer) : outcome (zst_result_t * queue_el) :=
  match qe_queue s with
  | None => mret (ZST_ERROR, s)
  | Some q =>
      match buf with
      | None => if qe_pool s then Fault else mret (ZST_ERROR, s)
      | Some b =>
          if has_flag (buf_flags b) ZST_BUFFER_FLAG_DROP then mret (ZST_OK, s)
          else
            match entered s acquired b with
            | None => mret (ZST_ERROR, s)
            | Some x =>
                match zst_queue_push (Some q) (Some x) UINT32_TIMEOUT_FOREVER with
                | Some (ret, q) => mret (ret, with_el_queue s q)
                | None => Unfinished
                end
            end
      end
  end.

(** ** Element operations *)

Definition queue_el_open `{CMemory} (s : queue_el) : zst_result_t * queue_el :=
  let q := zst_queue_create (Some (qe_cfg s)) in
  (match q with Some _ => ZST_OK | None => ZST_ERROR end, with_el_queue s q).

(** The buffers that [flush] and [destroy] let go; [fuel] as in [zst_queue_flush]. *)
Definition flushed (bs : list (option zst_buffer)) : list qe_effect := omap (fun b => Flushed <$> b) bs.

Definition queue_el_close (fuel : nat) (s : queue_el) : outcome (zst_result_t * queue_el * list qe_effect) :=
  match qe_queue s with
  | None => mret (ZST_OK, s, [])
  | q => match zst_queue_destroy fuel q with Some bs => mret (ZST_OK, with_el_queue s None, flushed bs) | None => Unfinished end
  end.

Definition queue_el_start (create_ok : bool) (s : queue_el) : zst_result_t * queue_el :=
  if create_ok then (ZST_OK, with_el_thread s true true) else (ZST_ERROR, with_el_thread s false (qe_thread s)).

(** Where the caller of [stop] is: in no call; about to clear [running]; about to pop a
    buffer that is left; about to join the thread. *)
Inductive stop_pc := NoCall | StopCalled | StopFlush | StopJoin.

(** One step of [stop]; [ended]: whether the thread is out of its loop.  [Fault]: joining
    a thread that was never made, or was joined before.  [Unfinished]: waiting for it. *)
Definition queue_el_stop (s : queue_el) (ended : bool) (c : stop_pc) : outcome (queue_el * stop_pc * list qe_effect) :=
  match c with
  | NoCall => mret (s, NoCall, [])
  | StopCalled => mret (with_el_thread s false (qe_thread s), match qe_queue s with Some _ => StopFlush | None => StopJoin end, [])
  | StopFlush =>
      match zst_queue_pop (qe_queue s) 0 with
      | None => Unfinished
      | Some (ret, b, q) =>
          if ret =? ZST_OK then mret (with_el_queue s q, StopFlush, flushed [b]) else mret (with_el_queue s q, StopJoin, [])
      end
  | StopJoin =>
      if negb (qe_thread s) then Fault else if ended then mret (with_el_thread s (qe_running s) false, NoCall, []) else Unfinished
  end.

Definition queue_el_defaults : zst_queue_config_t := mk_qcfg ZST_QUEUE_SYNC 10 0 0.

Definition zst_queue_element_create (cfg : option zst_queue_config_t) : queue_el :=
  mk_qel (default queue_el_defaults cfg) None false false false.

Definition zst_queue_element_set_pool (s : queue_el) (pool : bool) : zst_result_t * queue_el :=
  (ZST_OK, mk_qel (qe_cfg s) (qe_queue s) (qe_running s) (qe_thread s) pool).

(** ** The element and its threads *)

(** With what the element took and what it did, both oldest first. *)
Record qe_sys := mk_qsys {
  qs_el : queue_el;
  qs_worker : worker_pc;
  qs_stop : stop_pc;
  qs_taken : list zst_buffer;
  qs_log : list qe_effect;
}.

(** What a push leaves in the queue. *)
Definition taken (s : queue_el) (acquired : option zst_buffer) (b : zst_buffer) (ret : zst_result_t) : list zst_buffer :=
  if (ret =? ZST_OK) && negb (has_flag (buf_flags b) ZST_BUFFER_FLAG_DROP) then
    match entered s acquired b with Some x => [x] | None => [] end
  else [].

Definition ended (w : worker_pc) : bool := match w with AtEnd => true | _ => false end.
Definition joined (c : stop_pc) (w : worker_pc) : worker_pc := match c with NoCall => NoThread | _ => w end.

(** A push of an element upstream, a step of the thread or of [stop], or another of the
    element's operations, which are called by one thread and in the order of its states.
    A buffer's flags are not negative, and fewer than 2^62 buffers go through. *)
Inductive qe_step `{CMemory} : qe_sys -> qe_sys -> Prop :=
| qe_open s tk log ret s' : qe_queue s = None -> queue_el_open s = (ret, s') ->
    qe_step (mk_qsys s NoThread NoCall tk log) (mk_qsys s' NoThread NoCall tk log)
| qe_start s tk log ok :
    qe_step (mk_qsys s NoThread NoCall tk log) (mk_qsys (queue_el_start ok s).2 (if ok then AtTop else NoThread) NoCall tk log)
| qe_close s tk log fuel ret s' es : queue_el_close fuel s = Done (ret, s', es) ->
    qe_step (mk_qsys s NoThread NoCall tk log) (mk_qsys s' NoThread NoCall tk (log ++ es))
| qe_pools s w c tk log pool : qe_step (mk_qsys s w c tk log) (mk_qsys (zst_queue_element_set_pool s pool).2 w c tk log)
| qe_push s w c tk log acquired b ret s' : queue_el_sink_push s acquired (Some b) = Done (ret, s') ->
    (forall q, qe_queue s = Some q -> q_tail q + 1 < 2 ^ 62) -> 0 <= buf_flags b ->
    qe_step (mk_qsys s w c tk log) (mk_qsys s' w c (tk ++ taken s acquired b ret) log)
| qe_work s w c tk log now s' w' es : queue_el_worker s now w = Done (s', w', es) ->
    qe_step (mk_qsys s w c tk log) (mk_qsys s' w' c tk (log ++ es))
| qe_stop_called s w tk log : qe_step (mk_qsys s w NoCall tk log) (mk_qsys s w StopCalled tk log)
| qe_stop s w c tk log s' c' es : c <> NoCall -> queue_el_stop s (ended w) c = Done (s', c', es) ->
    qe_step (mk_qsys s w c tk log) (mk_qsys s' (joined c' w) c' tk (log ++ es)).
