(* ===== verification/QueueElementSpec.v ===== *)
(** * What the queue element promises

    Every buffer it takes leaves once: pushed on, dropped because it was late, or let go
    when the element stops; what its thread works off, and what is let go, is in the order
    it came.  Late means late by the element's clock, as soon as that shows more than the
    tolerance. *)

From S2P Require Import Prelude Pad Queue QueueSpec QueueElement.

Local Open Scope Z_scope.

(** ** Order *)

(** What the thread has pushed, or dropped (without the mark of a late buffer), and what
    stopping and closing have let go. *)
Definition worked_off (e : qe_effect) : option zst_buffer :=
  match e with
  | Sent b => Some b
  | Late b => Some (with_flags b (Z.ldiff (buf_flags b) ZST_BUFFER_FLAG_DROP))
  | Waited _ | Flushed _ => None
  end.
Definition let_go (e : qe_effect) : option zst_buffer := match e with Flushed b => Some b | _ => None end.

Definition worked (x : qe_sys) : list zst_buffer := omap worked_off (qs_log x) ++ in_hand (qs_worker x).
Definition dropped (x : qe_sys) : list zst_buffer := omap let_go (qs_log x).

Definition waits (s : queue_el) (l : list zst_buffer) : Prop :=
  match qe_queue s with Some q => holds q l | None => l = [] end.

(** [gone] is dealt out to [l1] and [l2], which keep its order. *)
Definition dealt (gone l1 l2 : list zst_buffer) : Prop := gone ≡ₚ l1 ++ l2 /\ l1 `sublist_of` gone /\ l2 `sublist_of` gone.

Definition plain_flags (b : zst_buffer) : Prop := has_flag (buf_flags b) ZST_BUFFER_FLAG_DROP = false /\ 0 <= buf_flags b.

Record in_order (x : qe_sys) : Prop := {
  io_cfg : 0 <= cfg_max_buffers (qe_cfg (qs_el x)) <= 2147483648;
  io_lists : exists gone l, waits (qs_el x) l /\ qs_taken x = gone ++ l /\ dealt gone (worked x) (dropped x) /\ Forall plain_flags l;
  io_hand : Forall plain_flags (in_hand (qs_worker x));
}.

Lemma sublist_same {A} (l1 l2 : list A) : l1 `sublist_of` l2 -> (length l2 <= length l1)%nat -> l1 = l2.
Proof.
  induction 1 as [|x l1 l2 _ IH|x l1 l2 Hs _]; cbn; intros Hl; [done|f_equal; apply IH; lia|].
  apply sublist_length in Hs. lia.
Qed.

Lemma dealt_left gone l1 l2 b : dealt gone l1 l2 -> dealt (gone ++ [b]) (l1 ++ [b]) l2.
Proof.
  intros (Hp & H1 & H2). split_and!.
  - rewrite Hp, <-!app_assoc. apply Permutation_app_head, Permutation_app_comm.
  - by apply sublist_app.
  - by apply sublist_inserts_r.
Qed.
Lemma dealt_right gone l1 l2 l : dealt gone l1 l2 -> dealt (gone ++ l) l1 (l2 ++ l).
Proof. intros (Hp & H1 & H2). split_and!; [by rewrite Hp, <-app_assoc|by apply sublist_inserts_r|by apply sublist_app]. Qed.

Lemma undo_drop b : plain_flags b -> worked_off (Late (with_flags b (Z.lor (buf_flags b) ZST_BUFFER_FLAG_DROP))) = Some b.
Proof.
  unfold plain_flags, has_flag. intros [Hd _]. apply negb_false_iff, Z.eqb_eq in Hd. cbn [worked_off with_flags buf_flags].
  destruct b as [ty fl pts dts dur data size]. unfold with_flags. cbn in Hd |- *. do 2 f_equal.
  apply Z.bits_inj'. intros n Hn. rewrite Z.ldiff_spec, Z.lor_spec. pose proof (Z.land_spec fl ZST_BUFFER_FLAG_DROP n) as E. rewrite Hd, Z.bits_0 in E.
  destruct (Z.testbit fl n), (Z.testbit ZST_BUFFER_FLAG_DROP n); done.
Qed.

Lemma entered_flags s acquired b x : entered s acquired b = Some x -> buf_flags x = buf_flags b.
Proof. unfold entered. repeat case_match; by intros [= <-]. Qed.

Lemma flushed_dropped l : omap let_go (flushed (map Some l)) = l.
Proof. induction l as [|b l IH]; [done|]. cbn. by f_equal. Qed.
Lemma flushed_worked l : omap worked_off (flushed (map Some l)) = [].
Proof. induction l as [|b l IH]; [done|]. done. Qed.

Lemma flush_left fuel : forall q l bs q', holds q l -> zst_queue_flush fuel (Some q) = Some (bs, q') -> bs = map Some l.
Proof.
  induction fuel as [|fuel IH]; intros q l bs q' Hh E; [done|]. cbn [zst_queue_flush] in E.
  pose proof (pop_refines_aux q l 0 Hh) as Hp. destruct l as [|b l].
  - rewrite Hp in E. cbn in E. by injection E as <- <-.
  - destruct Hp as (q1 & Ep & Hh1). rewrite Ep in E. cbn [Z.eqb ZST_OK] in E.
    destruct (zst_queue_flush fuel (Some q1)) as [[bs1 q2]|] eqn:Ef; [|done].
    injection E as <- <-. by rewrite (IH q1 l bs1 q2 Hh1 Ef).
Qed.

(** What a pop of the element's queue gives. *)
Lemma pop_waits s l ms ret b q : waits s l -> wait_alone ZST_QUEUE_SYNC ms <> Some ZST_OK -> zst_queue_pop (qe_queue s) ms = Some (ret, b, q) ->
  (ret <> ZST_OK /\ b = None /\ q = qe_queue s) \/
  exists x l', ret = ZST_OK /\ b = Some x /\ l = x :: l' /\ forall s', qe_queue s' = q -> waits s' l'.
Proof.
  unfold waits. destruct (qe_queue s) as [q0|]; cycle 1.
  { intros _ _ [= <- <- <-]. by left. }
  intros Hh Hw. pose proof (pop_refines_aux q0 l ms Hh) as Hp. destruct l as [|x l].
  - rewrite Hp. destruct (wait_alone _ _) as [r|]; [|done]. intros [= <- <- <-]. left. split; [congruence|done].
  - destruct Hp as (q' & -> & Hh'). intros [= <- <- <-]. right. exists x, l. split_and!; try done. by intros s' ->.
Qed.

Section order.
Context `{CMemoryOk}.

Lemma push_order x acquired b ret s' : in_order x -> queue_el_sink_push (qs_el x) acquired (Some b) = Done (ret, s') ->
  (forall q, qe_queue (qs_el x) = Some q -> q_tail q + 1 < 2 ^ 62) -> 0 <= buf_flags b ->
  in_order (mk_qsys s' (qs_worker x) (qs_stop x) (qs_taken x ++ taken (qs_el x) acquired b ret) (qs_log x)).
Proof.
  destruct x as [s w c tk log]. cbn [qs_el qs_worker qs_stop qs_taken qs_log]. intros [Hcfg (gone & l & Hw & Et & Hd & Hf) Hh] E Hm Hfl.
  assert (s' = s -> taken s acquired b ret = [] -> in_order (mk_qsys s' w c (tk ++ taken s acquired b ret) log)) as Hsame.
  { intros -> ->. rewrite app_nil_r. constructor; [done| |done]. by exists gone, l. }
  unfold waits in Hw. cbn [qs_el qs_worker qs_stop qs_taken qs_log] in *. unfold queue_el_sink_push in E. destruct (qe_queue s) as [q|] eqn:Eq; [|injection E as <- <-; by apply Hsame].
  unfold taken in *. destruct (has_flag (buf_flags b) ZST_BUFFER_FLAG_DROP) eqn:Ed.
  { injection E as <- <-. by apply Hsame. }
  destruct (entered s acquired b) as [x|] eqn:Ex; [|injection E as <- <-; by apply Hsame].
  pose proof (push_refines_aux q l x UINT32_TIMEOUT_FOREVER Hw (Hm q eq_refl)) as Hp. destruct ((zlen l =? q_capacity q) || _).
  - rewrite Hp in E. destruct (cfg_mode (q_cfg q)); cbn in E; [done|]. injection E as <- <-. apply Hsame; [|done].
    unfold with_el_queue. rewrite <-Eq. by destruct s.
  - destruct Hp as (q' & Ep & Hh'). rewrite Ep in E. injection E as <- <-. constructor; [done| |done].
    exists gone, (l ++ [x])%list. cbn [andb negb Z.eqb ZST_OK]. split_and!; [done|by rewrite app_assoc, Et|apply Hd..|].
    apply Forall_app. split; [done|]. apply Forall_singleton. unfold plain_flags. by rewrite (entered_flags _ _ _ _ Ex).
Qed.

Lemma work_order x now s' w' es : in_order x -> queue_el_worker (qs_el x) now (qs_worker x) = Done (s', w', es) ->
  in_order (mk_qsys s' w' (qs_stop x) (qs_taken x) (qs_log x ++ es)).
Proof.
  destruct x as [s w c tk log]. cbn [qs_el qs_worker qs_stop qs_taken qs_log]. intros [Hcfg (gone & l & Hw & Et & Hd & Hf) Hh] E.
  unfold worked, dropped in Hd. cbn in *.
  assert (forall w' es, omap worked_off es ++ in_hand w' = in_hand w -> omap let_go es = [] -> Forall plain_flags (in_hand w') ->
    in_order (mk_qsys s w' c tk (log ++ es))) as Hsame.
  { intros w1 es1 Ew Eg Hf1. constructor; [done| |done]. exists gone, l. split_and!; [done|done| |done]. unfold worked, dropped.
    cbn [qs_log qs_worker]. by rewrite !omap_app, <-app_assoc, Ew, Eg, app_nil_r. }
  destruct w as [| | |b|b|]; cbn [queue_el_worker] in E.
  - injection E as <- <- <-. by apply Hsame.
  - injection E as <- <- <-. apply Hsame; by destruct (qe_running s).
  - destruct (zst_queue_pop (qe_queue s) 50) as [[[ret b] q]|] eqn:Ep; [|done].
    destruct (pop_waits s l 50 ret b q Hw ltac:(done) Ep) as [(Hr & -> & ->)|(x & l' & -> & -> & -> & Hw')].
    + injection E as <- <- <-. replace (with_el_queue s (qe_queue s)) with s by by destruct s. by apply Hsame.
    + injection E as <- <- <-. apply Forall_cons in Hf as [Hx Hf]. constructor; [done| |by apply Forall_singleton].
      exists (gone ++ [x]), l'. split_and!; [by apply Hw'|by rewrite <-app_assoc| |done]. unfold worked, dropped. cbn [qs_log qs_worker in_hand].
      rewrite app_nil_r in *. by apply dealt_left.
  - assert (plain_flags b) as Hb by by apply Forall_singleton. destruct (qos_verdict now b); injection E as <- <- <-; apply Hsame; try done.
    cbn [omap list_omap]. by rewrite undo_drop.
  - injection E as <- <- <-. by apply Hsame.
  - injection E as <- <- <-. by apply Hsame.
Qed.

Lemma stop_order x s' c' es : in_order x -> queue_el_stop (qs_el x) (ended (qs_worker x)) (qs_stop x) = Done (s', c', es) ->
  in_order (mk_qsys s' (qs_worker x) c' (qs_taken x) (qs_log x ++ es)).
Proof.
  destruct x as [s w c tk log]. cbn [qs_el qs_worker qs_stop qs_taken qs_log]. intros [Hcfg (gone & l & Hw & Et & Hd & Hf) Hh] E.
  assert (forall s', qe_queue s' = qe_queue s -> qe_cfg s' = qe_cfg s -> in_order (mk_qsys s' w c' tk (log ++ []))) as Hsame.
  { intros s1 Eq Ec. rewrite app_nil_r. constructor; [cbn [qs_el]; by rewrite Ec| |done]. exists gone, l. split_and!; try done. unfold waits. cbn. by rewrite Eq. }
  destruct c; cbn [queue_el_stop] in E.
  - injection E as <- <- <-. by apply Hsame.
  - injection E as <- <- <-. by apply Hsame.
  - destruct (zst_queue_pop (qe_queue s) 0) as [[[ret b] q]|] eqn:Ep; [|done].
    destruct (pop_waits s l 0 ret b q Hw ltac:(done) Ep) as [(Hr & -> & ->)|(x & l' & -> & -> & -> & Hw')].
    + rewrite (proj2 (Z.eqb_neq _ _) Hr) in E. injection E as <- <- <-. by apply Hsame.
    + injection E as <- <- <-. apply Forall_cons in Hf as [Hx Hf]. constructor; [done| |done].
      exists (gone ++ [x]), l'. split_and!; [by apply Hw'|cbn in *; by rewrite Et, <-app_assoc| |done]. unfold worked, dropped in *. cbn [qs_log qs_worker] in *.
      rewrite !omap_app. cbn [omap list_omap flushed worked_off let_go fmap option_fmap option_map]. rewrite app_nil_r. by apply dealt_right.
  - destruct (qe_thread s); [|done]. cbn [negb] in E. destruct (ended w); [|done]. injection E as <- <- <-. by apply Hsame.
Qed.

Lemma close_order fuel s tk log ret s' es : in_order (mk_qsys s NoThread NoCall tk log) -> queue_el_close fuel s = Done (ret, s', es) ->
  in_order (mk_qsys s' NoThread NoCall tk (log ++ es)).
Proof.
  intros [Hcfg (gone & l & Hw & Et & Hd & Hf) Hh] E. unfold queue_el_close, waits in *. cbn in *.
  destruct (qe_queue s) as [q|] eqn:Eq; cycle 1.
  { injection E as <- <- <-. rewrite app_nil_r. constructor; [done| |done]. exists gone, l. split_and!; try done. unfold waits. cbn. by rewrite Eq. }
  unfold zst_queue_destroy in E. destruct (zst_queue_flush fuel (Some q)) as [[bs q']|] eqn:Ef; [|done]. injection E as <- <- <-.
  apply (flush_left fuel q l) in Ef as ->; [|done]. constructor; [done| |done]. exists (gone ++ l), []. split_and!; [done|by rewrite app_nil_r| |done].
  unfold worked, dropped in *. cbn in *. rewrite !omap_app, flushed_worked, flushed_dropped, app_nil_r. by apply dealt_right.
Qed.

Lemma qe_step_order x y : in_order x -> qe_step x y -> in_order y.
Proof.
  intros Hx Hstep. destruct Hstep as [s tk log ret s' Eq E|s tk log ok|s tk log fuel ret s' es E|s w c tk log pool|s w c tk log acquired b ret s' E Hm Hfl
    |s w c tk log now s' w' es E|s w tk log|s w c tk log s' c' es Hc E].
  - destruct Hx as [Hcfg (gone & l & Hw & Et & Hd & Hf) Hh]. unfold waits in Hw. cbn in *. rewrite Eq in Hw. subst l.
    destruct (create_holds_aux (qe_cfg s) Hcfg) as (q & Eo & Hq & _). unfold queue_el_open in E. rewrite Eo in E. injection E as <- <-.
    constructor; [done| |done]. by exists gone, [].
  - destruct Hx as [Hcfg Hl Hh]. by destruct ok; constructor.
  - by eapply close_order.
  - destruct Hx as [Hcfg Hl Hh]. by constructor.
  - exact (push_order _ acquired b ret s' Hx E Hm Hfl).
  - exact (work_order _ now s' w' es Hx E).
  - destruct Hx as [Hcfg Hl Hh]. by constructor.
  - pose proof (stop_order _ s' c' es Hx E) as [Hcfg Hl Hh]. destruct c'; cbn [joined]; try by constructor.
    assert (in_hand w = []) as Ew.
    { destruct c; unfold queue_el_stop, mret, outcome_ret in E; cbn [qs_stop qs_el qs_worker] in E; try done;
      repeat case_match; simplify_eq; by destruct w. }
    constructor; [done| |done]. unfold worked, dropped in *. cbn in *. by rewrite Ew in Hl.
Qed.
End order.

(** C14. In any interleaving of pushes upstream, the thread, and stopping, starting, closing and opening: what
    the element has taken is, in this order, what has left its queue and what waits in it;
    of what has left, each buffer is at exactly one place: pushed by the thread, or dropped by it
    because it was late, or in its hand (the last of these), or let go by a stop or a close; and both, what the thread
    worked off and what was let go, are in the order in which they came. So, while nothing
    was let go, the thread works off every buffer in the order in which it was taken. *)
Theorem queue_element_order `{CMemoryOk} cfg x : 0 <= cfg_max_buffers (default queue_el_defaults cfg) <= 2147483648 ->
  reach qe_step (mk_qsys (zst_queue_element_create cfg) NoThread NoCall [] []) x ->
  exists gone waiting, waits (qs_el x) waiting /\ qs_taken x = gone ++ waiting /\
    gone ≡ₚ worked x ++ dropped x /\ worked x `sublist_of` gone /\ dropped x `sublist_of` gone /\
    (dropped x = [] -> gone = worked x).
Proof.
  intros Hcfg Hr. assert (in_order x) as [_ (gone & l & Hw & Et & (Hp & H1 & H2) & _) _].
  { eapply (reach_inv qe_step in_order); [|intros; by eapply qe_step_order|exact Hr]. constructor; [done| |done].
    exists [], []. by split_and!. }
  exists gone, l. split_and!; try done. intros E. rewrite E, app_nil_r in Hp. symmetry. apply sublist_same; [done|]. by rewrite Hp.
Qed.

(** ** Late and early *)

(** From a clock that is past its first 100 ms, and for times a signed difference can
    hold, the verdict is about how far the buffer is from its time: more than 5 ms before
    it, the thread waits; more than 100 ms behind it, the buffer is dropped; five seconds
    either way are taken for a jump and the buffer goes on at once. *)
Theorem qos_exact current b :
  100000000 <= current < 9223372036854775808 -> 0 < buf_pts b < 9223372036854775808 -> has_flag (buf_flags b) ZST_BUFFER_FLAG_EOS = false ->
  let ahead := buf_pts b - current in
  qos_verdict (Some current) b =
    if (5000000 <? ahead) && (ahead <? 5000000000) then SendAfter ahead
    else if (ahead <? -100000000) && (-5000000000 <? ahead) then DropLate
    else SendNow.
Proof.
  intros Hc Hp Hf ahead. unfold qos_verdict. rewrite Hf, (proj2 (Z.ltb_lt 0 _)) by lia. cbn [andb negb].
  rewrite (u64_small (current + 5000000)), (u64_small (current - 100000000)) by lia. subst ahead.
  destruct (Z.ltb_spec (current + 5000000) (buf_pts b)) as [H1|H1].
  - rewrite u64_small by lia. zbool; try lia; done.
  - destruct (Z.ltb_spec (buf_pts b) (current - 100000000)) as [H2|H2]; [rewrite u64_small by lia|]; zbool; try lia; done.
Qed.

(** ** On concrete inputs *)

Tactic Notation "turn" uconstr(r) :=
  match goal with R : reach ?st ?a ?x |- _ =>
    let R' := fresh "R" in
    eassert (reach st a _) as R' by
      (eapply reach_step; [exact R|]; eapply r; first [(intros ? [= <-]; by vm_compute) | (vm_compute; reflexivity) | discriminate | (by vm_compute)]);
    clear R; rename R' into R
  end.

Definition sample_buffer21 (pts flags : Z) : zst_buffer := buffer_of ZST_BUFFER_VIDEO_FRAME flags pts pts 0 [1; 2; 3].

Lemma qos_exact_witness :
  qos_verdict (Some 1000000000) (sample_buffer21 899000000 0) = DropLate.
Proof. apply (qos_exact 1000000000 (sample_buffer21 899000000 0)); [lia|cbn; lia|reflexivity]. Defined.

(** In its first 100 ms the difference from which lateness begins wraps around: a buffer
    that is one nanosecond late is dropped. *)
Example early_clock_drops : qos_verdict (Some 50000000) (sample_buffer21 49999999 0) = DropLate.
Proof. reflexivity. Qed.

(** A buffer from the pool keeps its own size: three bytes go on as eight. *)
Example pool_size_kept :
  buf_bytes (pooled (buffer_of ZST_BUFFER_USER 0 0 0 0 [9; 9; 9; 9; 9; 9; 9; 9]) (sample_buffer21 0 0)) = [1; 2; 3; 9; 9; 9; 9; 9].
Proof. reflexivity. Qed.

(** Stopping an element that was not started joins no thread. *)
Example stop_before_start : forall s b, qe_thread s = false -> queue_el_stop s b StopJoin = Fault.
Proof. intros s b H1. unfold queue_el_stop. by rewrite H1. Qed.

(** An element with room for two that refuses more takes two buffers; its thread has the
    first when a stop lets the second go, and pushes it afterwards: the second was
    let go before the first went out. *)
Lemma queue_element_order_witness : exists x,
  reach (qe_step (H := ample_memory)) (mk_qsys (zst_queue_element_create (Some sample_cfg)) NoThread NoCall [] []) x /\
  qs_taken x = [sample_item 1; sample_item 2] /\ qs_log x = [Flushed (sample_item 2); Sent (sample_item 1)] /\
  exists gone waiting, waits (qs_el x) waiting /\ qs_taken x = gone ++ waiting /\
    gone ≡ₚ worked x ++ dropped x /\ worked x `sublist_of` gone /\ dropped x `sublist_of` gone /\
    (dropped x = [] -> gone = worked x).
Proof.
  pose proof (reach_refl (qe_step (H := ample_memory)) (mk_qsys (zst_queue_element_create (Some sample_cfg)) NoThread NoCall [] [])) as R.
  turn (qe_open (H := ample_memory)). turn (qe_start (H := ample_memory) _ _ _ true).
  turn (qe_push (H := ample_memory) _ _ _ _ _ None (sample_item 1)). turn (qe_push (H := ample_memory) _ _ _ _ _ None (sample_item 2)).
  turn (qe_work (H := ample_memory) _ _ _ _ _ None). turn (qe_work (H := ample_memory) _ _ _ _ _ None). turn (qe_work (H := ample_memory) _ _ _ _ _ None).
  turn (qe_stop_called (H := ample_memory)). turn (qe_stop (H := ample_memory)). turn (qe_stop (H := ample_memory)). turn (qe_stop (H := ample_memory)).
  turn (qe_work (H := ample_memory) _ _ _ _ _ None).
  eexists. split; [exact R|]. split; [reflexivity|]. split; [reflexivity|].
  apply (@queue_element_order ample_memory ample_memory_ok (Some sample_cfg) _ ltac:(by vm_compute) R).
Defined.
