(* ===== verification/SrtParser.v ===== *)
(** * Subtitles: [src/srt_parser.c]

    A file of numbered cues is read when the element opens; a thread then sends each cue's
    text when its time has come.  The file is its text; the lines [getline] gives are
    [split_lines] of it, whose ends the code cuts off anyway. *)

From Stdlib Require Import Ascii String.
From S2P Require Import Prelude CLib Pad Sha1 SdpText.

Local Open Scope string_scope.
Local Open Scope Z_scope.

Record srt_entry := mk_entry { se_start_ns : Z; se_duration_ns : Z; se_text : string }.

Record srt_parser_t := mk_srt {
  sr_path : string;
  sr_running : bool;
  sr_thread_started : bool;
  sr_entries : list srt_entry;
}.

Definition with_entries (s : srt_parser_t) (es : list srt_entry) : srt_parser_t := mk_srt (sr_path s) (sr_running s) (sr_thread_started s) es.
Definition with_srt_thread (s : srt_parser_t) (running started : bool) : srt_parser_t := mk_srt (sr_path s) running started (sr_entries s).

(** ** Timestamps *)

(** ["%d"] of [sscanf]: an [int], cut to its width, and the text behind it. *)
Definition scan_int (s : string) : option (Z * string) :=
  let '(neg, t) := parse_sign (skip_spaces s) in
  let '(ds, rest) := str_span (fun c => negb (is_digit c)) t in
  if streq ds "" then None else Some (atoi s, rest).

Definition expect (c : ascii) (s : string) : option string :=
  match s with String d s => if is_char d c then Some s else None | EmptyString => None end.

Definition scan_timestamp (s : string) : option (Z * Z * Z * Z) :=
  '(hh, s) ← scan_int s; s ← expect ":" s;
  '(mm, s) ← scan_int s; s ← expect ":" s;
  '(ss, s) ← scan_int s; s ← expect "," s;
  '(ms, _) ← scan_int s; Some (hh, mm, ss, ms).

Definition parse_timestamp_ns (s : string) : Z :=
  match scan_timestamp s with
  | Some (hh, mm, ss, ms) => u64 ((((hh * 60 + mm) * 60 + ss) * 1000 + ms) * 1000000)
  | None => 0
  end.

(** ["%63s"]: the word, empty when there is none, and the text behind it. *)
Definition scan_word (s : string) : string * string :=
  let s := skip_spaces s in
  let w := str_take 63 (str_span is_space s).1 in
  (w, str_drop (String.length w) s).

(** ["%63s --> %63s"] *)
Definition scan_times (line : string) : string * string :=
  let '(start_str, s) := scan_word line in
  if streq start_str "" then ("", "")
  else
    let s := skip_spaces s in
    if streq (str_take 3 s) "-->" then (start_str, (scan_word (str_drop 3 s)).1) else (start_str, "").

(** ** Cues *)

(** A C string ends at its first NUL. *)
Definition c_str (s : string) : string := (str_span (fun c => is_char c "000") s).1.

Fixpoint all_digits (s : string) : bool :=
  match s with String c s => is_digit c && all_digits s | EmptyString => true end.

(** [while (new_cap < required) new_cap *= 2;] *)
Fixpoint doubled (fuel : nat) (cap required : Z) : Z :=
  match fuel with O => cap | S fuel => if cap <? required then doubled fuel (cap * 2) required else cap end.

Section Parser.
Context `{CMemory}.

(** The lines up to an empty one, with newlines between them, and the lines behind; the
    block has [cap] bytes.  [None] when it cannot grow. *)
Fixpoint read_text (text : string) (cap : Z) (lines : list string) : option (string * list string) :=
  match lines with
  | [] => Some (text, [])
  | l :: lines =>
      let l := strip_cr l in
      if streq l "" then Some (text, lines)
      else
        let required := str_len text + str_len l + 2 in
        let new_cap := doubled 64 cap required in
        if (cap <? required) && negb (malloc_ok new_cap) then None
        else read_text ((if streq text "" then "" else text ++ String "010" "") ++ l) new_cap lines
  end.

(** The entries, in order; [None] when an allocation fails.  Each round takes a line, so as
    many rounds as there are lines are enough. *)
Fixpoint read_cues (fuel : nat) (es : list srt_entry) (cap : Z) (lines : list string) : option (list srt_entry) :=
  match lines, fuel with
  | [], _ => Some es
  | _, O => None
  | l :: lines, S fuel =>
      let l := strip_cr l in
      if streq l "" then read_cues fuel es cap lines
      else if all_digits (c_str l) then
        match lines with
        | [] => Some es
        | l :: lines =>
            let l := c_str (strip_cr l) in
            if negb (str_contains "-->" l) then read_cues fuel es cap lines
            else
              let '(start_str, end_str) := scan_times l in
              let start_ns := parse_timestamp_ns start_str in
              let end_ns := parse_timestamp_ns end_str in
              let dur_ns := if start_ns <? end_ns then end_ns - start_ns else 0 in
              if negb (malloc_ok 256) then None
              else
                x ← read_text "" 256 lines;
                let '(text, lines) := x in
                let full := cap <? zlen es + 1 in
                if full && negb (malloc_ok (cap * 2 * 24)) then None
                else read_cues fuel (es ++ [mk_entry start_ns dur_ns text])%list (if full then cap * 2 else cap) lines
        end
      else read_cues fuel es cap lines
  end.

(** [file] is the text of the file, if it can be opened. *)
Definition parse_srt_file (file : option string) : option (list srt_entry) :=
  text ← file;
  if malloc_ok (16 * 24) then let lines := split_lines text in read_cues (length lines) [] 16 lines else None.

(** ** Element operations *)

(** The element is closed before: an open one would lose its entries. *)
Definition srt_open (s : srt_parser_t) (file : string -> option string) : zst_result_t * srt_parser_t :=
  match parse_srt_file (file (sr_path s)) with
  | Some es => (ZST_OK, with_entries s es)
  | None =>
      (* a file that does not open leaves the entries *)
      (ZST_ERROR, match file (sr_path s) with Some _ => with_entries s [] | None => s end)
  end.

Definition srt_close (s : srt_parser_t) : zst_result_t * srt_parser_t := (ZST_OK, with_entries s []).

Definition srt_start (s : srt_parser_t) (create_ok : bool) : zst_result_t * srt_parser_t :=
  if create_ok then (ZST_OK, with_srt_thread s true true) else (ZST_ERROR, with_srt_thread s false (sr_thread_started s)).

Definition srt_stop (s : srt_parser_t) : zst_result_t * srt_parser_t := (ZST_OK, with_srt_thread s false false).

(** The text of a cue with its NUL. *)
Definition cue_buffer (base_ns : Z) (e : srt_entry) : zst_buffer :=
  let t := c_str (se_text e) in
  mk_buffer ZST_BUFFER_USER 0 (u64 (base_ns + se_start_ns e)) 0 (se_duration_ns e) (Some (text t ++ [0])%list) (str_len t + 1).

Inductive srt_effect := Until (ns : Z) | Sends (b : zst_buffer).

(** The thread: it waits for each cue's time and sends it; [stops] is the number of cues
    after which it finds that it is to stop. *)
Fixpoint srt_thread_fn (stops : nat) (base_ns : Z) (es : list srt_entry) : list srt_effect :=
  match es, stops with
  | [], _ | _, O => []
  | e :: es, S stops =>
      Until (u64 (base_ns + se_start_ns e)) ::
      (if malloc_ok SIZEOF_BUFFER && malloc_ok (str_len (c_str (se_text e)) + 1) then [Sends (cue_buffer base_ns e)] else []) ++
      srt_thread_fn stops base_ns es
  end.
End Parser.

(** Behind its last cue, the thread is no longer running; it is still to be joined. *)
Definition srt_thread_end (s : srt_parser_t) : srt_parser_t := with_srt_thread s false (sr_thread_started s).

Definition zst_srt_parser_create (path : option string) : srt_parser_t :=
  mk_srt (strncpy_n 1024 (default "" path)) false false [].
