(* ===== verification/SrtParserSpec.v ===== *)
(** * What the subtitle reader promises

    Cues written in the SubRip format are read back with their times and texts. *)

From Stdlib Require Import Ascii String.
From S2P Require Import Prelude CLib Pad Sha1 Sha1Spec SdpReorder SdpTiming SdpText SdpMux SdpLines SrtParser.

Local Open Scope string_scope.
Local Open Scope Z_scope.

#[local] Arguments String.append !_ _ : simpl nomatch.

(** ** The format *)

Record cue := mk_cue { cue_start : Z; cue_end : Z; cue_lines : list string }.

Definition nl (dos : bool) : string := if dos then crlf else String "010" "".

(** At least two, and three, digits. *)
Definition pad2 (n : Z) : string := (if n <? 10 then "0" else "") ++ show_Z n.
Definition pad3 (n : Z) : string := (if n <? 100 then "0" else "") ++ pad2 n.

(** A time in milliseconds. *)
Definition time_text (ms : Z) : string :=
  pad2 (ms / 3600000) ++ ":" ++ pad2 (ms / 60000 mod 60) ++ ":" ++ pad2 (ms / 1000 mod 60) ++ "," ++ pad3 (ms mod 1000).

Definition times_text (c : cue) : string := time_text (cue_start c) ++ " --> " ++ time_text (cue_end c).

Definition cue_text (n : Z) (c : cue) : list string :=
  ([show_Z n; times_text c] ++ cue_lines c ++ [""])%list.

(** A file: cues numbered from [n] on, its lines ended in either way. *)
Fixpoint cues_lines (n : Z) (cs : list cue) : list string :=
  match cs with [] => [] | c :: cs => (cue_text n c ++ cues_lines (n + 1) cs)%list end.
Definition file_text (dos : bool) (ls : list string) : string := fold_right (fun l s => l ++ nl dos ++ s) "" ls.
Definition srt_text (dos : bool) (cs : list cue) : string := file_text dos (cues_lines 1 cs).

(** A line of a text: no newline in it, not empty, and no carriage return at its end. *)
Definition line_ok (l : string) : Prop := one_line l = true /\ l <> "" /\ strip_cr l = l.

(** Times below a thousand hours. *)
Record cue_ok (c : cue) : Prop := mk_cue_ok {
  co_start : 0 <= cue_start c < 3600000000;
  co_end : 0 <= cue_end c < 3600000000;
  co_lines : Forall line_ok (cue_lines c);
}.

Definition join_lines (ls : list string) : string :=
  match ls with [] => "" | l :: ls => l ++ fold_right (fun l s => String "010" l ++ s) "" ls end.

Definition cue_entry (c : cue) : srt_entry :=
  mk_entry (cue_start c * 1000000) (Z.max 0 (cue_end c - cue_start c) * 1000000) (join_lines (cue_lines c)).

(** ** Numbers and times *)

Definition nul_free (s : string) : bool := str_all (fun c => negb (is_char c "000")) s.

(** What the scanner needs of the text of a number below 1000. *)
Definition number_text (s : string) (n : Z) : bool :=
  digits s && negb (streq s "") && (parse_digits 10 0 s =? n) && (str_len s <=? 4) && nul_free s.

Lemma below_1000 (P : Z -> bool) : forallb P (map Z.of_nat (seq 0 1000)) = true -> forall n, 0 <= n < 1000 -> P n = true.
Proof.
  intros H n Hn. rewrite forallb_forall in H. apply H, in_map_iff. exists (Z.to_nat n). split; [lia|]. apply in_seq. lia.
Qed.

Lemma pad2_number n : 0 <= n < 1000 -> number_text (pad2 n) n = true.
Proof. revert n. apply below_1000. by vm_compute. Qed.
Lemma pad3_number n : 0 <= n < 1000 -> number_text (pad3 n) n = true.
Proof. revert n. apply below_1000. by vm_compute. Qed.

Lemma scan_number s n rest : number_text s n = true -> 0 <= n < 1000 ->
  match rest with EmptyString => True | String c _ => is_digit c = false end -> scan_int (s ++ rest) = Some (n, rest).
Proof.
  unfold number_text. rewrite !andb_true_iff, Z.eqb_eq. intros ((((Hd & Hne) & Hv) & _) & _) Hn Hr.
  destruct s as [|c s]; [done|]. pose proof Hd as Hc. cbn in Hc. apply andb_true_iff in Hc as [Hc _].
  unfold scan_int, atoi, strtol10. rewrite (parse_sign_digit (String c s) rest Hc), parse_digits_rest, Hv by done.
  rewrite span_stop; [|by apply (str_all_impl is_digit); [intros d ->|]|by destruct rest as [|d rest]; [|rewrite Hr]].
  cbn [streq]. unfold clamp. rewrite s32_small by lia. destruct (String.eqb_spec (String c s) ""); [done|]. do 2 f_equal. lia.
Qed.

Lemma time_scanned ms : 0 <= ms < 3600000000 -> parse_timestamp_ns (time_text ms) = ms * 1000000.
Proof.
  intros Hms. unfold parse_timestamp_ns, scan_timestamp, time_text.
  rewrite (scan_number (pad2 _) _ _ (pad2_number (ms / 3600000) ltac:(cint))) by (done || cint). cbn [mbind option_bind append expect is_char Ascii.eqb Bool.eqb].
  rewrite (scan_number (pad2 _) _ _ (pad2_number (ms / 60000 mod 60) ltac:(cint))) by (done || cint). cbn [mbind option_bind append expect is_char Ascii.eqb Bool.eqb].
  rewrite (scan_number (pad2 _) _ _ (pad2_number (ms / 1000 mod 60) ltac:(cint))) by (done || cint). cbn [mbind option_bind append expect is_char Ascii.eqb Bool.eqb].
  rewrite <-(str_app_nil_r (pad3 _)), (scan_number (pad3 _) _ _ (pad3_number (ms mod 1000) ltac:(cint))) by (done || cint). cbn [mbind option_bind].
  rewrite u64_small; cint.
Qed.

(** The text of a time: one word, at most 63 characters, with a digit at its end. *)
Lemma time_word ms : 0 <= ms < 3600000000 ->
  str_all (fun c => negb (is_space c)) (time_text ms) = true /\ str_len (time_text ms) <= 63 /\ nul_free (time_text ms) = true /\ time_text ms <> "".
Proof.
  intros Hms. unfold time_text. pose proof (pad2_number (ms / 3600000) ltac:(cint)) as H1.
  pose proof (pad2_number (ms / 60000 mod 60) ltac:(cint)) as H2. pose proof (pad2_number (ms / 1000 mod 60) ltac:(cint)) as H3.
  pose proof (pad3_number (ms mod 1000) ltac:(cint)) as H4.
  revert H1 H2 H3 H4. generalize (pad2 (ms / 3600000)) (pad2 (ms / 60000 mod 60)) (pad2 (ms / 1000 mod 60)) (pad3 (ms mod 1000)).
  intros a b c d. unfold number_text, nul_free. rewrite !andb_true_iff, !Z.leb_le.
  intros ((((Ha & Hane) & _) & La) & Na) ((((Hb & _) & _) & Lb) & Nb) ((((Hc & _) & _) & Lc) & Nc) ((((Hd & _) & _) & Ld) & Nd).
  assert (forall s, digits s = true -> str_all (fun c => negb (is_space c)) s = true) as Hw by (intros s Hs; by apply plain_spaceless, digits_plain).
  rewrite !str_all_app, !str_len_app, (Hw a), (Hw b), (Hw c), (Hw d), Na, Nb, Nc, Nd by done.
  change (str_len ":") with 1. change (str_len ",") with 1. split_and!; [done|lia|done|]. intros E. apply (f_equal str_len) in E. rewrite !str_len_app in E.
  change (str_len ":") with 1 in E. change (str_len "") with 0 in E.
  pose proof (str_len_nonneg a). pose proof (str_len_nonneg b). pose proof (str_len_nonneg c). pose proof (str_len_nonneg d).
  change (str_len ",") with 1 in E. lia.
Qed.

Lemma word_scanned w rest : str_all (fun c => negb (is_space c)) w = true -> str_len w <= 63 -> w <> "" ->
  match rest with EmptyString => True | String c _ => is_space c = true end -> scan_word (w ++ rest) = (w, rest).
Proof.
  intros Hw Hl Hne Hr. unfold scan_word.
  assert (skip_spaces (w ++ rest) = w ++ rest) as ->.
  { apply skip_none. destruct w as [|c w]; [done|]. cbn in Hw. apply andb_true_iff in Hw as [Hc%negb_true_iff _]. exact Hc. }
  rewrite span_stop by done. cbn [fst]. rewrite str_take_all by (unfold str_len in Hl; lia). by rewrite str_drop_app_l.
Qed.

Lemma times_scanned c : cue_ok c -> scan_times (times_text c) = (time_text (cue_start c), time_text (cue_end c)).
Proof.
  intros [Hs He _]. destruct (time_word _ Hs) as (Ws & Ls & _ & Ns). destruct (time_word _ He) as (We & Le & _ & Ne).
  unfold scan_times, times_text. rewrite word_scanned by done.
  destruct (streq (time_text (cue_start c)) "") eqn:E; [by apply String.eqb_eq in E|].
  change (skip_spaces (" --> " ++ time_text (cue_end c))) with ("--> " ++ time_text (cue_end c)).
  change (str_take 3 ("--> " ++ time_text (cue_end c))) with "-->". change (streq "-->" "-->") with true. cbv iota.
  change (str_drop 3 ("--> " ++ time_text (cue_end c))) with (" " ++ time_text (cue_end c)).
  assert (scan_word (" " ++ time_text (cue_end c)) = scan_word (time_text (cue_end c))) as -> by done.
  rewrite <-(str_app_nil_r (time_text (cue_end c))) at 1. by rewrite word_scanned.
Qed.

Lemma contains_app key a b : str_contains key (a ++ key ++ b) = true.
Proof.
  induction a as [|c a IH]; cbn [append].
  - destruct (key ++ b) eqn:E; cbn [str_contains]; rewrite <-E, str_take_app_l, streq_refl; done.
  - cbn [str_contains]. by rewrite IH, orb_true_r.
Qed.

Lemma c_str_all s : nul_free s = true -> c_str s = s.
Proof. intros Hs. unfold c_str. rewrite <-(str_app_nil_r s) at 1. by rewrite span_stop. Qed.

(** ** Lines *)

Definition eol (dos : bool) (l : string) : string := l ++ (if dos then cr else "").

Lemma strip_cr_cr l : strip_cr (l ++ cr) = strip_cr l.
Proof. induction l as [|c l IH]; [done|]. cbn [append strip_cr]. by rewrite IH. Qed.

Lemma strip_eol dos l : strip_cr (eol dos l) = strip_cr l.
Proof. unfold eol. destruct dos; [apply strip_cr_cr|by rewrite str_app_nil_r]. Qed.

Lemma strip_ok l : ends_ok l = true -> strip_cr l = l.
Proof. intros Hl. by rewrite <-strip_cr_cr, strip_ends. Qed.

Lemma file_lines dos ls : Forall (fun l => one_line l = true) ls -> split_lines (file_text dos ls) = eol dos <$> ls.
Proof.
  induction 1 as [|l ls Hl _ IH]; [done|]. change (split_lines (l ++ nl dos ++ file_text dos ls) = eol dos l :: (eol dos <$> ls)).
  unfold eol at 1. destruct dos; cbn [nl].
  - assert (l ++ crlf ++ file_text true ls = (l ++ cr) ++ String "010" (file_text true ls)) as -> by (by rewrite str_app_assoc).
    rewrite split_one, IH; [done|]. unfold one_line in *. by rewrite str_all_app, Hl.
  - rewrite str_app_nil_r. change (String "010" "" ++ file_text false ls) with (String "010" (file_text false ls)). by rewrite split_one, IH.
Qed.

Lemma number_line n : 0 <= n -> let l := show_Z n in
  one_line l = true /\ strip_cr l = l /\ l <> "" /\ c_str l = l /\ all_digits l = true.
Proof.
  intros Hn l. pose proof (show_Z_digits n Hn) as Hd. pose proof (show_Z_spaceless n) as Hsp. pose proof (show_Z_nonempty n) as Hne.
  assert (l <> "") as Hl by (intros E; subst l; by rewrite E in Hne).
  split_and!; [by apply spaceless_line|by apply strip_ok, spaceless_ends|done| |].
  - apply c_str_all. unfold nul_free. revert Hd. apply str_all_impl. intros c.
    assert (forall c, implb (is_digit c) (negb (is_char c "000")) = true) as H by (apply each_char; by vm_compute). specialize (H c). by destruct (is_digit c).
  - clear -Hd. subst l. induction (show_Z n) as [|c s IH]; [done|]. cbn in *. apply andb_true_iff in Hd as [-> Hd]. by apply IH.
Qed.

Lemma times_line c : cue_ok c -> let l := times_text c in
  one_line l = true /\ strip_cr l = l /\ c_str l = l /\ str_contains "-->" l = true.
Proof.
  intros [Hs He _] l. destruct (time_word _ Hs) as (Ws & _ & Zs & _). destruct (time_word _ He) as (We & _ & Ze & Ne). subst l. unfold times_text.
  split_and!.
  - pose proof (spaceless_line _ Ws) as W1. pose proof (spaceless_line _ We) as W2. unfold one_line in *. by rewrite !str_all_app, W1, W2.
  - apply strip_ok, ends_ok_app, ends_ok_app. by apply spaceless_ends.
  - apply c_str_all. unfold nul_free in *. by rewrite !str_all_app, Zs, Ze.
  - change (" --> " ++ time_text (cue_end c)) with (" " ++ "-->" ++ " " ++ time_text (cue_end c)). rewrite <-str_app_assoc. apply contains_app.
Qed.

(** ** Cues *)

Lemma read_text_lines `{CMemoryOk} dos ls rest : Forall line_ok ls -> forall t cap, t <> "" ->
  read_text t cap ((eol dos <$> ls) ++ eol dos "" :: rest)%list = Some (t ++ fold_right (fun l s => String "010" l ++ s) "" ls, rest).
Proof.
  induction 1 as [|l ls (_ & Hne & Hs) _ IH]; intros t cap Ht.
  - cbn [fmap list_fmap app read_text fold_right]. rewrite strip_eol. cbn. by rewrite str_app_nil_r.
  - cbn [fmap list_fmap app read_text fold_right]. rewrite strip_eol, Hs, malloc_total, andb_false_r. unfold streq.
    destruct (String.eqb_spec l "") as [->|_]; [done|]. destruct (String.eqb_spec t "") as [->|_]; [done|].
    rewrite IH by (intros E; apply (f_equal str_len) in E; rewrite !str_len_app in E; change (str_len (String "010" "")) with 1 in E;
      pose proof (str_len_nonneg t); pose proof (str_len_nonneg l); change (str_len "") with 0 in E; lia).
    do 2 f_equal. by rewrite !str_app_assoc.
Qed.

Lemma read_text_ok `{CMemoryOk} dos ls rest cap : Forall line_ok ls ->
  read_text "" cap ((eol dos <$> ls) ++ eol dos "" :: rest)%list = Some (join_lines ls, rest).
Proof.
  destruct 1 as [|l ls (_ & Hne & Hs) Hls].
  - cbn [fmap list_fmap app read_text]. by rewrite strip_eol.
  - cbn [fmap list_fmap app read_text]. rewrite strip_eol, Hs, malloc_total, andb_false_r. unfold streq at 1.
    destruct (String.eqb_spec l "") as [->|_]; [done|]. change (streq "" "") with true. cbv iota. cbn [append]. by apply read_text_lines.
Qed.

Lemma read_cues_ok `{CMemoryOk} dos cs : Forall cue_ok cs -> forall fuel n es cap, 0 <= n -> (length cs <= fuel)%nat ->
  read_cues fuel es cap (eol dos <$> cues_lines n cs) = Some (es ++ (cue_entry <$> cs))%list.
Proof.
  induction 1 as [|c cs Hc _ IH]; intros fuel n es cap Hn Hf; [by destruct fuel; cbn; rewrite app_nil_r|]. destruct fuel as [|fuel]; [cbn in Hf; lia|].
  destruct (number_line n Hn) as (_ & S1 & N1 & C1 & D1). destruct (times_line c Hc) as (_ & S2 & C2 & T2).
  cbn [cues_lines cue_text app fmap list_fmap read_cues]. rewrite !strip_eol, S1, S2, C1, C2, D1, T2. unfold streq at 1.
  destruct (String.eqb_spec (show_Z n) "") as [E|_]; [done|]. cbn [negb]. rewrite times_scanned by done.
  rewrite !time_scanned by apply Hc. rewrite malloc_total. cbn [negb].
  rewrite <-app_assoc, fmap_app. cbn [app fmap list_fmap]. rewrite read_text_ok by apply Hc. cbn [mbind option_bind].
  rewrite malloc_total, andb_false_r. rewrite IH by (lia || (cbn in Hf; lia)). rewrite <-app_assoc. cbn [app fmap list_fmap]. do 4 f_equal.
  unfold cue_entry. f_equal. destruct Hc as [Hs He _]. case_match eqn:E; zbool; lia.
Qed.

Lemma cues_one_line cs : Forall cue_ok cs -> forall n, 0 <= n -> Forall (fun l => one_line l = true) (cues_lines n cs).
Proof.
  induction 1 as [|c cs Hc _ IH]; intros n Hn; [constructor|]. destruct (number_line n Hn) as (L1 & _). destruct (times_line c Hc) as (L2 & _).
  cbn [cues_lines cue_text app]. constructor; [done|]. constructor; [done|]. rewrite <-app_assoc. apply Forall_app. split.
  - eapply Forall_impl; [apply Hc|]. by intros l [].
  - constructor; [done|]. apply IH. lia.
Qed.

Lemma cues_count cs : forall n, (length cs <= length (cues_lines n cs))%nat.
Proof. induction cs as [|c cs IH]; intros n; [done|]. cbn. rewrite !length_app. specialize (IH (n + 1)). cbn. lia. Qed.

(** C16. A file of numbered cues, in either convention of line ends, is read back: each cue's
    start, how long it is shown (nothing, when it ends before it starts), and its lines. *)
Theorem srt_roundtrip `{CMemoryOk} dos cs : Forall cue_ok cs -> parse_srt_file (Some (srt_text dos cs)) = Some (cue_entry <$> cs).
Proof.
  intros Hcs. unfold parse_srt_file, srt_text. cbn [mbind option_bind]. rewrite malloc_total, file_lines by (by apply cues_one_line).
  rewrite length_fmap. apply (read_cues_ok dos cs Hcs); [done|apply cues_count].
Qed.

(** ** On concrete inputs *)

#[local] Existing Instance ample_memory.

Definition two_cues : list cue :=
  [mk_cue 1000 3500 ["Hello,"; "world."]; mk_cue 3723004 3600000 ["42"]].

Lemma two_cues_ok : Forall cue_ok two_cues.
Proof. repeat constructor; cbn; try lia; try done; by vm_compute. Qed.

Lemma srt_roundtrip_witness :
  parse_srt_file (Some (srt_text true two_cues)) =
  Some [mk_entry 1000000000 2500000000 ("Hello," ++ String "010" "world."); mk_entry 3723004000000 0 "42"].
Proof. apply (@srt_roundtrip ample_memory ample_memory_ok true two_cues two_cues_ok). Defined.

(** The lines of the file. *)
Example two_cues_lines : cues_lines 1 two_cues =
  ["1"; "00:00:01,000 --> 00:00:03,500"; "Hello,"; "world."; ""; "2"; "01:02:03,004 --> 01:00:00,000"; "42"; ""].
Proof. vm_compute. reflexivity. Qed.

Definition parsed (ls : list string) : option (list srt_entry) := parse_srt_file (Some (file_text false ls)).

(** Without spaces around the arrow the end is not found, and the cue is shown for no
    time. *)
Example tight_arrow_no_end : parsed ["1"; "00:00:01,000-->00:00:02,000"; "a"; ""] = Some [mk_entry 1000000000 0 "a"].
Proof. vm_compute. reflexivity. Qed.

(** The byte order mark that many editors write makes the first cue disappear. *)
Example byte_order_mark_loses_cue :
  parsed [String "239" (String "187" (String "191" "1")); "00:00:01,000 --> 00:00:02,000"; "a"; ""; "2"; "00:00:03,000 --> 00:00:04,000"; "b"; ""] =
  Some [mk_entry 3000000000 1000000000 "b"].
Proof. vm_compute. reflexivity. Qed.

(** A number without a time behind it swallows the number of the next cue, and so its
    text. *)
Example stray_number_loses_cue :
  parsed ["7"; "1"; "00:00:01,000 --> 00:00:02,000"; "a"; ""] = Some [].
Proof. vm_compute. reflexivity. Qed.
